(* ===== verification/_CoqProject ===== *)
-Q . S2P
Prelude.v
RustStr.v
StatusList.v
StatusListFacts.v
Flow.v
FlowGraphFacts.v
FlowFacts.v
Mrz.v
MrzFacts.v
Decision.v
DecisionFacts.v
Des.v
DesFacts.v
Apdu.v
ApduFacts.v
SecureMessaging.v
TlvFacts.v
SecureMessagingFacts.v
BacFacts.v
Governance.v
CanonicalJsonFacts.v
GovernanceFacts.v
DeviceAuth.v
DeviceAuthFacts.v
RustF64.v
PolicyService.v
PolicyServiceFacts.v
CryptoKit.v
CryptoKitFacts.v
Engagement.v
EngagementFacts.v
MdlSession.v
MdlSessionFacts.v
MdlAgreementFacts.v
MdlTransport.v
MdlTransportFacts.v
Handover.v
MdlWitnesses.v
EvidencePolicy.v
EvidencePolicyFacts.v
EvidenceReconciliation.v
X509.v
Revocation.v
RevocationFacts.v
Chain.v
ChainFacts.v
TrustRegistry.v
TrustRegistryFacts.v
ChainWitnesses.v
PassportIntegrity.v
PassportIntegrityFacts.v
PolicyCompat.v
PolicyCompatFacts.v
PolicyRanking.v
CertInfo.v
RustNet.v
TrustSync.v
TrustSyncFacts.v
TrustDestinationFacts.v
Issuance.v
JwtVc.v
SigningBatch.v
SigningBatchFacts.v
Base64.v
JwtVcFacts.v
ElementaryFile.v
ElementaryFileFacts.v
Iso9796.v
Iso9796Facts.v
BiometricTemplate.v
BiometricTemplateFacts.v
VcdmIssuance.v
Vcdm.v
VcdmFacts.v
DecisionResult.v
DecisionResultFacts.v
SecureStorage.v
SecureStorageFacts.v
SdJwt.v
SdJwtFacts.v
