(* ===== verification/Prelude.v ===== *)
(** * marty-core: a verification development

    This library models the deterministic core of the [marty-core] workspace
    (credential verification in Rust) and proves it correct.  Each definition
    carries the source lines it translates in its comment, as
    [[src/<path>:<first>-<last>]].

    ** The program and the files that model it

    - _Status lists_ ([marty-status/src/lib.rs]).  [StatusList.v]: the packed
      arrays [TokenStatusList] and [BitstringStatusList], every constructor,
      accessor, mutator and wire codec.  [StatusListFacts.v]: both refine a
      plain array under every sequence of operations, errors included; the
      codecs round-trip and are safe and bounded on untrusted input.
    - _Flow engine_ ([marty-verification/src/flow.rs]).  [Flow.v]: the
      lifecycle of an instance as a transition table, validation of a flow
      graph, selection of the next step.  [FlowGraphFacts.v], [FlowFacts.v]:
      [validate_graph] accepts exactly the bounded, deterministic, closed,
      reachable and acyclic graphs, whatever the order of the hash map; runs of
      valid flows are finite; lifecycle invariants by induction on runs.
    - _Machine-readable zone_ ([mrz/checksum.rs], [mrz/parser.rs]).
      [RustStr.v]: Rust's [str] as scalar values with byte slicing that panics
      off a character boundary.  [Mrz.v], [MrzFacts.v]: the parser accepts
      exactly the three layouts and never panics, print/parse round trip, what
      check digits detect, the key-derivation string.
    - _Decision reducer_ ([verification/decision.rs]).  [Decision.v],
      [DecisionFacts.v]: the reducer against its declarative specification.
    - _DES_ ([marty-crypto/src/des.rs]).  [Des.v], [DesFacts.v].
    - _Passport chip_ ([chip_io/mod.rs]).  [Apdu.v], [ApduFacts.v]: command
      and response APDUs, READ BINARY plans.  [SecureMessaging.v]: BER-TLV,
      padding, counters, MACs, Basic Access Control and secure messaging.
      [TlvFacts.v], [SecureMessagingFacts.v], [BacFacts.v]: what an accepted
      response means, completeness for a chip that follows the protocol,
      agreement on the session with a chip that [BacFacts.v] specifies from ICAO
      Doc 9303-11 alone, down to its own key derivation and its checks of every
      command.  It calls the DES component and agrees with the zone parser on
      the key information.
    - _Governance_ ([governance.rs]).  [Governance.v]: canonical JSON,
      validation of the governance document, authorization, resumption, the
      JSON entry points.  [CanonicalJsonFacts.v]: equal canonical text is
      equality up to the order of object entries.  [GovernanceFacts.v]: who is
      authorized and with what, what a resumed snapshot is, what a request
      digest binds.
    - _Presentation policy kernel_ ([policy/service.rs]).  [RustF64.v]: [f64]
      parsing and comparison.  [PolicyService.v], [PolicyServiceFacts.v]: the
      kernel allows exactly the presentations that satisfy a declarative
      policy, releases only requested claims of credentials that meet their
      requirement, and does not depend on the order of credentials.
    - _Device authentication_ ([device_auth.rs], and the verifier of
      [marty-crypto/src/rsa.rs] it calls).  [DeviceAuth.v],
      [DeviceAuthFacts.v]: eligibility of a key, what a challenge message
      binds, what an accepted signature means.
    - _Cryptographic wrappers_ ([marty-crypto]: [symmetric.rs], [kdf.rs],
      [ecdh.rs]).  [CryptoKit.v], [CryptoKitFacts.v]: AES modes, key derivation
      and agreement over the crates that implement them; the Concat KDF against
      its specification, the ECIES round trip.
    - _ISO 18013-5 sessions_ ([marty-iso18013]: [core.rs], [error.rs],
      [session.rs], [protocol.rs], [selective.rs], [openid4vp.rs],
      [transport/]).  [Engagement.v]: engagements with their shared key cell,
      CBOR and QR forms.  [MdlSession.v]: the session state machine,
      each operation as the composition of its critical sections, and the
      session as its concurrent callers share it: one step per acquisition of
      one of its three locks.  [MdlTransport.v]: the encrypted channel, the
      transports and selective disclosure.  [Handover.v]: session transcripts
      for OpenID4VP.  [EngagementFacts.v], [MdlSessionFacts.v],
      [MdlAgreementFacts.v], [MdlTransportFacts.v] and [Handover.v]: the
      invariant of every interleaving (keys only while established, no secret
      after termination, no deadlock), each operation as the run of a lone
      caller, the initialization vectors of the ciphertexts really returned
      never repeat, keys are used once, the two parties agree and then behave as two FIFO channels, failures
      close the channel, fragments and chained commands carry the whole
      message.  [MdlWitnesses.v]: a toy instance and the witnesses.
    - _Evidence policy_ ([evidence_policy.rs], [evidence_reconciliation.rs]).
      [EvidencePolicy.v], [EvidenceReconciliation.v]: current revisions of
      facts, requirements and rule paths over JSON, the Cedar decision and its
      fragment of Cedar's semantics, the plan that follows.
      [EvidencePolicyFacts.v], [EvidenceReconciliation.v]: the revisions
      are exact and independent of the order of arrival, an approval is granted
      exactly on satisfied evidence and otherwise fails closed.
    - _Certificates_ ([marty-crypto]: [algorithm_identifier.rs],
      [certificate.rs], [crl.rs], [ocsp.rs], the signature dispatch of
      [lib.rs]; [verification/chain.rs]).  [X509.v], [Revocation.v],
      [Chain.v]: signatures, revocation lists, OCSP, chain validation.
      [RevocationFacts.v]: exactly which lists and responses are evidence, with
      the certificate identifier, the responder and the time windows written
      out.
      [ChainFacts.v]: the validator's verdict is a declarative account of
      accepted paths, and what the hard-fail mode guarantees.
    - _Trust registries_ ([trust_anchor/]: [registry.rs], [csca.rs],
      [iaca.rs]).  [TrustRegistry.v], [TrustRegistryFacts.v]: the registry
      interface with its laws for three implementations, indices that agree
      with the anchors in every reachable state, round trips.
      [ChainWitnesses.v]: a small public key infrastructure.
    - _Policy compatibility_ ([policy/]: [types.rs], [compat.rs],
      [claim_evaluator.rs], [issuer.rs], [freshness.rs], [disclosure.rs],
      [ranking.rs]).  [PolicyCompat.v], [PolicyRanking.v]: the older policy
      types projected onto the kernel, minimum disclosure, ranking.
      [PolicyCompatFacts.v], [PolicyRanking.v]: the projection decides the
      older policy, components and errors included; rankings are stable sorts.
    - _Passport data_ ([passport_integrity.rs], [emrtd_data/],
      [active_authentication.rs]; [marty-crypto/src/iso9796.rs]).
      [PassportIntegrity.v]: hashes of data groups against the signed ones.
      [ElementaryFile.v], [BiometricTemplate.v]: elementary files, DG1 over the
      zone parser, DG2 and DG15, biometric records.  [Iso9796.v]: signatures
      with message recovery and the challenges of active authentication.  The
      [Facts] files: the verdict in declarative form, DG1 printed and read back,
      readers that never panic, the encodings that active authentication accepts.
    - _Trust synchronization_ ([trust_sync.rs], [marty-crypto/src/certificate.rs]).
      [RustNet.v]: internet addresses.  [CertInfo.v]: the fields of a
      certificate.  [TrustSync.v]: registries, schedules, destinations, feeds
      and imported state.  [TrustSyncFacts.v]: the evaluation of pages against
      the operations they carry, and the invariant of the state that it leaves.
      [TrustDestinationFacts.v]: which destinations are accepted.
    - _Issuance_ ([marty-oid4vci]: [types.rs], [error.rs], [bounded_jwt.rs],
      [jose.rs], [signer.rs], [formats/jwt_vc.rs], [signing_batch.rs]).
      [Issuance.v], [JwtVc.v]: keys, bounded JWTs, remote signatures, JWT
      credentials and the Open Badges profile.  [SigningBatch.v]: batches, the
      serial executor and the worker pool as atomic steps.  [Base64.v]: a
      concrete encoding.  [SigningBatchFacts.v]: every schedule gives the serial
      result, the pool terminates and calls the signer once per job, each
      credential is bound to its input.  [JwtVcFacts.v]: assembled tokens decode
      to what was prepared, issuer and verifier agree on the profile.
    - _SD-JWT_ ([marty-oid4vci/src/formats/sd_jwt.rs]).  [SdJwt.v]: disclosures
      in stages, preparation, assembly, presentation, verification with key
      binding.  [SdJwtFacts.v]: the stages are the one-pass oracle under every
      permutation, an issued credential is presented with exactly what is asked
      for, what an accepted key-binding JWT means.
    - _VCDM 2_ ([vcdm.rs]).  [VcdmIssuance.v], [Vcdm.v], [VcdmFacts.v]: which
      presentations and VC-JWTs are valid, what a completed credential binds.
    - _Canonical results_ ([verification/result.rs]).  [DecisionResult.v],
      [DecisionResultFacts.v]: a result is built exactly from well-formed
      provenance, its decision is the reducer's, and it is canonical.
    - _Secure storage_ ([marty-secure-storage]: [database.rs],
      [database/provenance.rs], [models.rs], [schema.rs], [encryption.rs];
      [marty-types/src/open_badges.rs]).  [SecureStorage.v]: the tables as maps,
      the repositories statement by statement over an engine that may fail.
      [SecureStorageFacts.v]: packages are applied atomically and only move
      forward under authorized signers; anchors are read from packages in force.

    This file is the prelude: results of fallible code, machine integers,
    vectors, the shared lemmas, tactics and hint databases.

    ** How code is translated

    Fallible functions return [res E A]: [Ok], [Err] and [Panic], so that the
    absence of panics is a theorem and not a convention.  [?] is the monadic
    bind, an early [return Err] is [ensure].  A [u8], [u16], [u32], [u64] or
    [usize] is a [Z] with its wrap-around, saturation or overflow check written
    out; a [Vec] is a list whose index and slice operations panic out of range;
    a [BTreeSet] or [HashSet] is a [gset], a [HashMap] a [gmap] whose iteration
    order, where the code depends on it, is a parameter.  Mutation is explicit
    state passing: an operation on [&mut self] returns the new value.

    Code outside the repository is a class of operations with, apart from it, a
    class of the documented laws the theorems rely on: [Base64Url],
    [Compressor] (flate2), [Unicode], [Tdes] (des and cbc), [Sha1], [Sha256],
    [JsonText] and [Serde] (serde_json), [Uuid], [Rsa], [Rfc3339],
    [JsonValueOps], [RegexOps], [Calendar] (chrono), [PassportChip] (the
    card), [Aes], [Sha2], [Hkdf], [P256], [X25519], [IsoMdl] and [Ciborium]
    (isomdl and its CBOR), [JwkParser], [HttpServer], [Pcsc], [BlePeripheral],
    [StrCase], [JsonParser] and [Cedar], [X509], [CrlCodec], [OcspCodec],
    [Digests], [PssDecoder], [PemEncoder], [Hex], [X509Details], [Chrono],
    [UuidLib], [UrlLib], [UriParser], [JsonCodec], [JwtLib], [SignerLib],
    [IssueClock], [OtherFormats] (the SD-JWT and mdoc encoders of a batch),
    [StdBase64], [RsaDer], [IsoLib], [Ssi] (canonicalization, proofs, keys),
    [VcdmSerde], [UtcText], [TimestampLib], [SdJwtLib], [Blake3] and [Sqlite]
    (the order of a scan and the statements that fail).  [Verifiers] stands for the wrappers of
    [marty-crypto] around single signature algorithms.  Every law class has a
    concrete instance, on which the witnesses run.

    ** Fuel

    Loops that are not structural take fuel, and the theorems show that the
    fuel given by the callers is enough: the reachability and topological loops
    of [validate_graph] (transitions plus one, steps), the object loop of a
    protected response (the length of the data, each object being at least two
    bytes), the READ BINARY plan (the length to read), the chunking of messages
    (their length), the normalisation of Cedar text (the weight of the value,
    which parsing does not increase), the objects of an elementary file and the
    octets of a tag (the length of the file), the padding of a recovered block
    (its length), the groups of an address (eight), the search for reserved
    members (the weight of the value).

    ** What is not modelled

    PACE and device transports in [chip_io], BLE discovery, opening and
    migrating the database, the platform key stores: they are calls of
    external libraries and devices.  A call of a session that is dropped half
    way (a cancelled future, which releases its locks) is not modelled; one that
    stops for ever is.  The orchestration over CMS, CBOR and proof
    systems (mdoc, extended access control, security objects, the verifiers per
    document type, DTC, zero-knowledge proofs) has its logic in decoders outside
    the repository.  The HTTP flows of OID4VCI and OID4VP, DIDComm and the PKD
    clients are network code; biometrics is floating-point image code; bindings
    and test tools are glue.

    ** Open work

    The mdoc format is still a parameter of the signing batches ([OtherFormats];
    its SD-JWT part is [SdJwt.v], by [batch_formats] of [SdJwtFacts.v]); the
    EUDI trust lists are one more instance of the registry interface of
    [TrustRegistry.v]; the verifiers per document type would compose [Chain.v],
    [PassportIntegrity.v] and [DecisionResult.v]. *)

From stdpp Require Export base numbers list strings gmap sets option.
From stdpp Require Export fin_maps sorting.
From Stdlib Require Export Ascii ZArith Lia.

Declare Scope marty_scope.
Delimit Scope marty_scope with marty.
Open Scope marty_scope.

(** ** Results of fallible Rust code

    [Ok] and [Err] are Rust's [Result]; [Panic] is an index out of range, an
    arithmetic check or an [expect] that fails, so that the absence of panics
    is a property that can be stated and proved. *)
Inductive res (E A : Type) : Type :=
| Ok (a : A)
| Err (e : E)
| Panic.
Arguments Ok {E A} a.
Arguments Err {E A} e.
Arguments Panic {E A}.

#[global] Instance res_ret {E} : MRet (res E) := fun A a => Ok a.

#[global] Instance res_bind {E} : MBind (res E) := fun A B f c =>
  match c with
  | Ok a => f a
  | Err e => Err e
  | Panic => Panic
  end.

#[global] Instance res_fmap {E} : FMap (res E) := fun A B f c =>
  match c with
  | Ok a => Ok (f a)
  | Err e => Err e
  | Panic => Panic
  end.

(** [if cond { return Err(e) }] is [ensure (negb cond) e; rest]. *)
Definition ensure {E} (b : bool) (e : E) : res E unit :=
  if b then Ok tt else Err e.

(** [.ok_or(e)?] and [.expect("...")]. *)
Definition ok_or {E A} (o : option A) (e : E) : res E A :=
  match o with Some a => Ok a | None => Err e end.

Definition expect {E A} (o : option A) : res E A :=
  match o with Some a => Ok a | None => Panic end.

(** [.map_err(f)]. *)
Definition map_err {E F A} (f : E -> F) (c : res E A) : res F A :=
  match c with Ok a => Ok a | Err e => Err (f e) | Panic => Panic end.

Definition is_Ok {E A} (c : res E A) : bool :=
  match c with Ok _ => true | _ => false end.

Definition no_panic {E A} (c : res E A) : Prop := c ≠ Panic.

Section res_lemmas.
Context {E : Type}.

Lemma bind_Ok {A B} (c : res E A) (f : A -> res E B) v :
  (c ≫= f) = Ok v <-> exists a, c = Ok a /\ f a = Ok v.
Proof.
  destruct c as [a|e|]; simpl; split.
  - intros H. by exists a.
  - by intros (? & [= <-] & ?).
  - done.
  - by intros (? & ? & ?).
  - done.
  - by intros (? & ? & ?).
Qed.

Lemma bind_no_panic {A B} (c : res E A) (f : A -> res E B) :
  no_panic c -> (forall a, c = Ok a -> no_panic (f a)) -> no_panic (c ≫= f).
Proof. unfold no_panic. destruct c; simpl; naive_solver. Qed.

Lemma ensure_Ok (b : bool) (e : E) u : ensure b e = Ok u <-> b = true.
Proof. destruct b, u; simpl; naive_solver. Qed.

Lemma ensure_no_panic (b : bool) (e : E) : no_panic (ensure b e).
Proof. by destruct b. Qed.

Lemma ok_or_Ok {A} (o : option A) (e : E) a : ok_or o e = Ok a <-> o = Some a.
Proof. destruct o; simpl; naive_solver. Qed.

Lemma ok_or_no_panic {A} (o : option A) (e : E) : no_panic (ok_or o e).
Proof. by destruct o. Qed.

Lemma expect_Ok {A} (o : option A) a : expect (E:=E) o = Ok a <-> o = Some a.
Proof. destruct o; simpl; naive_solver. Qed.

Lemma Ok_no_panic {A} (a : A) : no_panic (E:=E) (Ok a).
Proof. done. Qed.

Lemma Err_no_panic {A} (e : E) : no_panic (A:=A) (Err e).
Proof. done. Qed.
End res_lemmas.

Create HintDb marty discriminated.
#[export] Hint Resolve ensure_no_panic ok_or_no_panic Ok_no_panic Err_no_panic : marty.

Lemma map_err_Ok {E F A} (f : E -> F) (c : res E A) a : map_err f c = Ok a <-> c = Ok a.
Proof. destruct c; simpl; naive_solver. Qed.

Lemma map_err_no_panic {E F A} (f : E -> F) (c : res E A) : no_panic c -> no_panic (map_err f c).
Proof. unfold no_panic. by destruct c. Qed.

(** Membership in a list of strings. *)
Lemma existsb_eqb s l : existsb (String.eqb s) l = true <-> s ∈ l.
Proof.
  rewrite existsb_exists. split.
  - intros (x & Hx & ->%String.eqb_eq). by apply list_elem_of_In.
  - intros Hs. exists s. by rewrite list_elem_of_In, String.eqb_refl in *.
Qed.

(** Invert a hypothesis [c = Ok v] for a chain of binds. *)
Ltac res_inv :=
  repeat match goal with
  | H : (_ ≫= _) = Ok _ |- _ => apply bind_Ok in H as (? & ? & H)
  | H : ensure _ _ = Ok _ |- _ => apply ensure_Ok in H
  | H : ok_or _ _ = Ok _ |- _ => apply ok_or_Ok in H
  | H : expect _ = Ok _ |- _ => apply expect_Ok in H
  | H : Ok _ = Ok _ |- _ => injection H as H; try subst
  | H : Err _ = Ok _ |- _ => discriminate H
  | H : Panic = Ok _ |- _ => discriminate H
  | H : mret _ = Ok _ |- _ => unfold mret, res_ret in H
  end.

(** The same computation has one result. *)
Ltac res_det :=
  repeat match goal with
  | H1 : ?c = Ok ?a, H2 : ?c = Ok ?b |- _ =>
      tryif unify a b then clear H2
      else (rewrite H1 in H2; injection H2 as H2; try subst)
  end.

(** A chain of binds does not panic when none of its steps does. *)
Ltac solve_no_panic :=
  repeat match goal with
  | |- no_panic (_ ≫= _) => apply bind_no_panic; [|intros]
  | |- no_panic _ => solve [auto with marty]
  | |- no_panic _ => case_match
  end.

(** Turn boolean tests in hypotheses and goal into propositions. *)
Ltac breflect :=
  repeat match goal with
  | H : _ && _ = true |- _ => apply andb_prop in H as [? ?]
  | H : _ || _ = false |- _ => apply orb_false_iff in H as [? ?]
  | H : negb _ = true |- _ => apply negb_true_iff in H
  | H : negb _ = false |- _ => apply negb_false_iff in H
  | H : bool_decide _ = true |- _ => apply bool_decide_eq_true in H
  | H : bool_decide _ = false |- _ => apply bool_decide_eq_false in H
  | H : (_ <=? _)%Z = true |- _ => apply Z.leb_le in H
  | H : (_ <=? _)%Z = false |- _ => apply Z.leb_gt in H
  | H : (_ <? _)%Z = true |- _ => apply Z.ltb_lt in H
  | H : (_ <? _)%Z = false |- _ => apply Z.ltb_ge in H
  | H : (_ =? _)%Z = true |- _ => apply Z.eqb_eq in H
  | H : (_ =? _)%Z = false |- _ => apply Z.eqb_neq in H
  end.

(** ** Machine integers

    A [u8], [u16], [u32], [u64] or [usize] is a [Z] in range; the operations
    that can leave the range are written out. [usize] is 64 bits wide. *)
Definition usize_max : Z := 2 ^ 64 - 1.
Definition u32_max : Z := 2 ^ 32 - 1.

Definition byte_ok (b : Z) : Prop := (0 <= b < 256)%Z.
Definition bytes_ok (bs : list Z) : Prop := Forall byte_ok bs.

Definition wrap (w x : Z) : Z := (x mod 2 ^ w)%Z.

Definition saturating_add (a b : Z) : Z := Z.min (a + b) usize_max.
Definition saturating_mul (a b : Z) : Z := Z.min (a * b) usize_max.

(** [usize::div_ceil]; the divisors of the source are positive constants. *)
Definition div_ceil (a b : Z) : Z := ((a + b - 1) / b)%Z.

(** [checked_add] on [u32]. *)
Definition u32_checked_add (a b : Z) : option Z :=
  if (a + b <=? u32_max)%Z then Some (a + b)%Z else None.

(** Division and remainder, which panic on a zero divisor. *)
Definition div_or_panic {E} (a b : Z) : res E Z :=
  if (b =? 0)%Z then Panic else Ok (a / b)%Z.
Definition rem_or_panic {E} (a b : Z) : res E Z :=
  if (b =? 0)%Z then Panic else Ok (a mod b)%Z.

(** ** Vectors indexed by [usize] *)
Definition zlen {A} (l : list A) : Z := Z.of_nat (length l).

Definition vec_index {E A} (l : list A) (i : Z) : res E A :=
  if (i <? 0)%Z then Panic else expect (l !! Z.to_nat i).

Definition vec_set {E A} (l : list A) (i : Z) (x : A) : res E (list A) :=
  if ((0 <=? i) && (i <? zlen l))%Z then Ok (<[Z.to_nat i := x]> l) else Panic.

(** [l.get(a..b)] and [&l[a..b]]. *)
Definition get_range {A} (l : list A) (a b : Z) : option (list A) :=
  if ((0 <=? a) && (a <=? b) && (b <=? zlen l))%Z
  then Some (take (Z.to_nat (b - a)) (drop (Z.to_nat a) l)) else None.

Definition vec_slice {E A} (l : list A) (a b : Z) : res E (list A) := expect (get_range l a b).

(** [str::as_bytes] and byte-string literals. *)
Definition str_bytes (s : string) : list Z :=
  (fun a => Z.of_N (N_of_ascii a)) <$> String.list_ascii_of_string s.

Section utf8.
Local Open Scope Z_scope.

(** [std::str::from_utf8]: the well-formed byte sequences of the Unicode
    standard. *)
Definition utf8_cont (b : Z) : bool := (128 <=? b) && (b <=? 191).
Definition utf8_between (a b x : Z) : bool := (a <=? x) && (x <=? b).
Fixpoint utf8_valid (bs : list Z) : bool :=
  match bs with
  | [] => true
  | a :: bs =>
      if a <=? 127 then utf8_valid bs
      else match bs with
      | [] => false
      | b :: bs =>
          if utf8_between 194 223 a then utf8_cont b && utf8_valid bs
          else match bs with
          | [] => false
          | c :: bs =>
              if utf8_between 224 239 a then
                (if a =? 224 then utf8_between 160 191 b
                 else if a =? 237 then utf8_between 128 159 b else utf8_cont b) &&
                utf8_cont c && utf8_valid bs
              else match bs with
              | [] => false
              | d :: bs =>
                  utf8_between 240 244 a &&
                  (if a =? 240 then utf8_between 144 191 b
                   else if a =? 244 then utf8_between 128 143 b else utf8_cont b) &&
                  utf8_cont c && utf8_cont d && utf8_valid bs
              end
          end
      end
  end.
End utf8.

(** [u16::to_be_bytes] and [u16::from_be_bytes]. *)
Definition be16 (n : Z) : list Z := [(n / 256) mod 256; n mod 256]%Z.
Definition from_be16 (hi lo : Z) : Z := (hi * 256 + lo)%Z.

(** [u32::to_be_bytes]. *)
Definition be32 (n : Z) : list Z :=
  [(n / 2 ^ 24) mod 256; (n / 2 ^ 16) mod 256; (n / 2 ^ 8) mod 256; n mod 256]%Z.

(** [slice::chunks(n)], [n] positive: every chunk but the last has [n]
    elements.  The first argument bounds the number of chunks. *)
Fixpoint chunks_fuel {A} (fuel n : nat) (l : list A) : list (list A) :=
  match fuel, l with
  | _, [] => []
  | O, _ => []
  | S fuel, _ => take n l :: chunks_fuel fuel n (drop n l)
  end.
Definition chunks {A} (n : nat) (l : list A) : list (list A) := chunks_fuel (length l) n l.

Section vec_lemmas.
Context {E A : Type}.
Implicit Types (l : list A).

Lemma zlen_nonneg l : (0 <= zlen l)%Z.
Proof. unfold zlen. lia. Qed.

Lemma vec_index_Ok l i x :
  vec_index (E:=E) l i = Ok x <-> (0 <= i)%Z /\ l !! Z.to_nat i = Some x.
Proof.
  unfold vec_index. destruct (Z.ltb_spec i 0) as [Hi|Hi].
  - split; [done|intros [? _]; lia].
  - rewrite expect_Ok. intuition lia.
Qed.

Lemma vec_index_in_range l i :
  (0 <= i < zlen l)%Z -> exists x, vec_index (E:=E) l i = Ok x /\ l !! Z.to_nat i = Some x.
Proof.
  intros [H0 H1]. destruct (lookup_lt_is_Some_2 l (Z.to_nat i)) as [x Hx].
  { unfold zlen in H1. lia. }
  exists x. by rewrite vec_index_Ok.
Qed.

Lemma vec_set_in_range l i x :
  (0 <= i < zlen l)%Z -> vec_set (E:=E) l i x = Ok (<[Z.to_nat i := x]> l).
Proof.
  intros [H0 H1]. unfold vec_set.
  by rewrite (proj2 (Z.leb_le 0 i) H0), (proj2 (Z.ltb_lt i _) H1).
Qed.

Lemma zlen_insert l i x : zlen (<[i := x]> l) = zlen l.
Proof. unfold zlen. by rewrite length_insert. Qed.

Lemma zlen_replicate n (x : A) : zlen (replicate n x) = Z.of_nat n.
Proof. unfold zlen. by rewrite length_replicate. Qed.

Lemma zlen_app l1 l2 : zlen (l1 ++ l2) = (zlen l1 + zlen l2)%Z.
Proof. unfold zlen. rewrite length_app. lia. Qed.

Lemma zlen_take l n : zlen (take n l) = Z.min (Z.of_nat n) (zlen l).
Proof. unfold zlen. rewrite length_take. lia. Qed.
Lemma zlen_cons x l : zlen (x :: l) = (1 + zlen l)%Z.
Proof. unfold zlen. simpl length. lia. Qed.

Lemma zlen_nil : zlen (@nil A) = 0%Z.
Proof. done. Qed.

Lemma get_range_app l1 l2 l3 a b :
  a = zlen l1 -> b = (zlen l1 + zlen l2)%Z -> get_range (l1 ++ l2 ++ l3) a b = Some l2.
Proof.
  intros -> ->. unfold get_range. rewrite !zlen_app.
  pose proof (zlen_nonneg l1). pose proof (zlen_nonneg l2). pose proof (zlen_nonneg l3).
  rewrite !(proj2 (Z.leb_le _ _)) by lia. cbn [andb]. f_equal.
  unfold zlen. rewrite Nat2Z.id, drop_app_length.
  replace (Z.to_nat _) with (length l2) by lia. apply take_app_length.
Qed.

(** Indexing and slicing a list given as a concatenation. *)
Lemma vec_index_at l l1 x l2 i :
  l = l1 ++ x :: l2 -> i = zlen l1 -> vec_index (E:=E) l i = Ok x.
Proof.
  intros -> ->. apply vec_index_Ok. split; [apply zlen_nonneg|].
  unfold zlen. rewrite Nat2Z.id. by apply list_lookup_middle.
Qed.

Lemma vec_slice_at l l1 l2 l3 a b :
  l = l1 ++ l2 ++ l3 -> a = zlen l1 -> b = (zlen l1 + zlen l2)%Z ->
  vec_slice (E:=E) l a b = Ok l2.
Proof. intros -> Ha Hb. unfold vec_slice. by rewrite (get_range_app l1 l2 l3). Qed.

Lemma get_range_Some l a b s :
  get_range l a b = Some s ->
  (0 <= a <= b /\ b <= zlen l)%Z /\ zlen s = (b - a)%Z /\
  l = take (Z.to_nat a) l ++ s ++ drop (Z.to_nat b) l.
Proof.
  unfold get_range. destruct ((0 <=? a) && (a <=? b) && (b <=? zlen l))%Z eqn:Hb; [|done].
  intros [= <-]. breflect. split; [lia|]. split.
  - unfold zlen in *. rewrite length_take, length_drop. lia.
  - rewrite <-(take_drop (Z.to_nat a) l) at 1. f_equal.
    rewrite <-(take_drop (Z.to_nat (b - a)) (drop (Z.to_nat a) l)) at 1. f_equal.
    rewrite drop_drop. f_equal. lia.
Qed.
End vec_lemmas.

Lemma be16_bytes n : bytes_ok (be16 n).
Proof. unfold be16. repeat constructor; apply Z.mod_pos_bound; lia. Qed.

Lemma from_be16_be16 n : (0 <= n < 65536)%Z -> from_be16 ((n / 256) mod 256) (n mod 256) = n.
Proof. intros Hn. unfold from_be16. Z.to_euclidean_division_equations. lia. Qed.

Lemma be32_inj m n : (0 <= m < 2 ^ 32)%Z -> (0 <= n < 2 ^ 32)%Z -> be32 m = be32 n -> m = n.
Proof.
  unfold be32. intros Hm Hn Heq. injection Heq as H1 H2 H3 H4.
  Z.div_mod_to_equations. lia.
Qed.

Lemma be32_bytes n : bytes_ok (be32 n).
Proof. repeat constructor; apply Z.mod_pos_bound; lia. Qed.

(** The chunks of a vector are its elements in order, none empty or too long. *)
Lemma chunks_fuel_concat {A} n fuel : (0 < n)%nat -> forall l : list A, (length l <= fuel)%nat ->
  concat (chunks_fuel fuel n l) = l.
Proof.
  intros Hn. induction fuel as [|fuel IH]; intros [|x l] Hlen; [done|simpl in Hlen; lia|done|].
  cbn [chunks_fuel concat]. rewrite IH, take_drop; [done|].
  rewrite length_drop. simpl in *. lia.
Qed.

Lemma chunks_concat {A} n (l : list A) : (0 < n)%nat -> concat (chunks n l) = l.
Proof. intros. by apply chunks_fuel_concat. Qed.

Lemma div_ceil_zero n : (0 < n)%nat -> 0%Z = div_ceil 0 (Z.of_nat n).
Proof. intros Hn. unfold div_ceil. symmetry. apply Z.div_small. lia. Qed.

Lemma chunks_length {A} n (l : list A) : (0 < n)%nat ->
  Z.of_nat (length (chunks n l)) = div_ceil (zlen l) (Z.of_nat n).
Proof.
  intros Hn. unfold chunks. assert (length l <= length l)%nat as Hle by done. revert Hle.
  generalize (length l) at 2 3 as fuel. intros fuel. revert l.
  induction fuel as [|fuel IH]; intros l Hlen.
  { destruct l; [|simpl in Hlen; lia]. apply (div_ceil_zero n Hn). }
  destruct (decide (l = [])) as [->|Hne].
  { apply (div_ceil_zero n Hn). }
  assert (length (chunks_fuel (S fuel) n l) = S (length (chunks_fuel fuel n (drop n l)))) as ->
    by (by destruct l).
  assert (0 < length l)%nat by (destruct l; [done|simpl; lia]).
  rewrite Nat2Z.inj_succ, IH by (rewrite length_drop; lia).
  unfold div_ceil, zlen. rewrite length_drop. destruct (Nat.le_gt_cases (length l) n) as [Hs|Hs].
  - replace (length l - n)%nat with O by lia. rewrite (Z.div_small (_ + _ - 1)) by lia.
    apply (Z.div_unique_pos _ _ _ (Z.of_nat (length l) - 1)); lia.
  - rewrite Nat2Z.inj_sub by lia. rewrite <- Z.add_1_r, <- Z.div_add by lia. f_equal. lia.
Qed.

Lemma chunks_sizes {A} n (l : list A) : (0 < n)%nat ->
  Forall (fun c => 0 < length c <= n)%nat (chunks n l).
Proof.
  intros Hn. unfold chunks. generalize (length l) as fuel. intros fuel. revert l.
  induction fuel as [|fuel IH]; intros [|x l]; [by constructor..|].
  constructor; [|apply IH]. rewrite length_take. simpl. lia.
Qed.

Create Rewrite HintDb zlen.
#[export] Hint Rewrite @zlen_insert @zlen_replicate @zlen_app @zlen_take @zlen_cons @zlen_nil : zlen.

(** Push [zlen] to the leaves. *)
Ltac lens := autorewrite with zlen in *.

(** Decide the integer comparisons of a goal by [lia]. *)
Ltac decide_tests :=
  repeat match goal with
  | |- context [(?a <? ?b)%Z] => first [rewrite (proj2 (Z.ltb_lt a b)) by lia | rewrite (proj2 (Z.ltb_ge a b)) by lia]
  | |- context [(?a <=? ?b)%Z] => first [rewrite (proj2 (Z.leb_le a b)) by lia | rewrite (proj2 (Z.leb_gt a b)) by lia]
  | |- context [(?a =? ?b)%Z] => first [rewrite (proj2 (Z.eqb_eq a b)) by lia | rewrite (proj2 (Z.eqb_neq a b)) by lia]
  end; cbn [negb andb orb ensure mbind res_bind ok_or].

(** ** Filtering lists *)
Lemma list_filter_ext_in {A} (P Q : A -> Prop)
    `{!forall x, Decision (P x), !forall x, Decision (Q x)} (l : list A) :
  (forall x, x ∈ l -> P x <-> Q x) -> filter P l = filter Q l.
Proof.
  induction l as [|x l IH]; intros Hpq; [done|]. rewrite !filter_cons.
  destruct (Hpq x (list_elem_of_here x l)) as [H1 H2].
  rewrite IH by (intros y Hy; apply Hpq; by right).
  destruct (decide (P x)), (decide (Q x)); tauto.
Qed.

Lemma list_filter_true {A} (P : A -> Prop) `{!forall x, Decision (P x)} (l : list A) :
  (forall x, x ∈ l -> P x) -> filter P l = l.
Proof.
  induction l as [|x l IH]; intros Hpq; [done|]. rewrite filter_cons.
  rewrite decide_True by (apply Hpq; by left). f_equal. apply IH. intros y Hy. apply Hpq. by right.
Qed.

(** ** Bits of machine integers *)
Lemma testbit_byte_high (b n : Z) : byte_ok b -> (8 <= n)%Z -> Z.testbit b n = false.
Proof.
  intros [H0 H1] Hn. destruct (Z.eq_dec b 0) as [->|Hb]; [apply Z.testbit_0_l|].
  apply Z.bits_above_log2; [done|].
  assert (Z.log2 b < 8)%Z; [apply Z.log2_lt_pow2; lia|lia].
Qed.

Lemma byte_ok_of_bits (x : Z) :
  (0 <= x)%Z -> (forall n, (8 <= n)%Z -> Z.testbit x n = false) -> byte_ok x.
Proof.
  intros H0 Hb. split; [done|].
  destruct (Z.eq_dec x 0) as [->|Hx]; [lia|].
  apply (Z.log2_lt_pow2 x 8); [lia|].
  destruct (Z.lt_ge_cases (Z.log2 x) 8) as [|Hge]; [done|].
  pose proof (Z.bit_log2 x) as Hl. rewrite Hb in Hl by lia. discriminate Hl; lia.
Qed.

(** [x as u8] keeps the low eight bits. *)
Lemma wrap8_bits (x n : Z) :
  (0 <= n)%Z -> Z.testbit (wrap 8 x) n = (n <? 8)%Z && Z.testbit x n.
Proof.
  intros Hn. unfold wrap. destruct (Z.ltb_spec n 8).
  - by rewrite Z.mod_pow2_bits_low by lia.
  - by rewrite Z.mod_pow2_bits_high by lia.
Qed.

Lemma wrap8_byte_ok (x : Z) : byte_ok (wrap 8 x).
Proof. unfold wrap, byte_ok. apply Z.mod_pos_bound. lia. Qed.

Lemma ones8_bits (n : Z) : (0 <= n)%Z -> Z.testbit 255 n = (n <? 8)%Z.
Proof.
  intros Hn. change 255%Z with (Z.ones 8).
  destruct (Z.ltb_spec n 8).
  - apply Z.ones_spec_low. lia.
  - apply Z.ones_spec_high. lia.
Qed.

(** [!x] on a [u8]. *)
Definition u8_not (x : Z) : Z := Z.lxor 255 x.

(** Two bytes with the same low eight bits are equal. *)
Lemma byte_eq_bits (a b : Z) :
  byte_ok a -> byte_ok b ->
  (forall n, (0 <= n < 8)%Z -> Z.testbit a n = Z.testbit b n) -> a = b.
Proof.
  intros Ha Hb H. apply Z.bits_inj'. intros n Hn.
  destruct (Z.lt_ge_cases n 8); [apply H; lia|].
  by rewrite !testbit_byte_high.
Qed.

(** ** Stable sorting

    [slice::sort_by]; [le a b] is that the comparison is not [Greater]. *)
Fixpoint insert_by {A} (le : A -> A -> bool) (x : A) (l : list A) : list A :=
  match l with
  | [] => [x]
  | y :: l' => if le x y then x :: y :: l' else y :: insert_by le x l'
  end.

Definition sort_by {A} (le : A -> A -> bool) (l : list A) : list A := foldr (insert_by le) [] l.

Section sort_lemmas.
Context {A : Type} (le : A -> A -> bool).

Lemma insert_by_perm x l : insert_by le x l ≡ₚ x :: l.
Proof.
  induction l as [|y l IH]; [done|]. simpl. destruct (le x y); [done|].
  rewrite IH. apply Permutation_swap.
Qed.

Lemma sort_by_perm l : sort_by le l ≡ₚ l.
Proof. induction l as [|x l IH]; [done|]. simpl. by rewrite insert_by_perm, IH. Qed.

Context (le_total : forall x y, le x y = true \/ le y x = true)
        (le_trans : forall x y z, le x y = true -> le y z = true -> le x z = true).

Lemma insert_by_sorted x l :
  StronglySorted (fun a b => le a b = true) l -> StronglySorted (fun a b => le a b = true) (insert_by le x l).
Proof.
  induction 1 as [|y l Hl IH Hall]; simpl; [repeat constructor|].
  destruct (le x y) eqn:Hxy.
  - constructor; [by constructor|]. constructor; [done|].
    eapply Forall_impl; [done|]. intros z Hz. by eapply le_trans.
  - constructor; [done|]. rewrite insert_by_perm. constructor; [|done].
    destruct (le_total x y); congruence.
Qed.

Lemma sort_by_sorted l : StronglySorted (fun a b => le a b = true) (sort_by le l).
Proof. induction l as [|x l IH]; simpl; [constructor|by apply insert_by_sorted]. Qed.

(** The first element is minimal. *)
Lemma sort_by_head l x : head (sort_by le l) = Some x ->
  x ∈ l /\ forall y, y ∈ l -> x = y \/ le x y = true.
Proof.
  intros Hx. pose proof (sort_by_sorted l) as Hs. pose proof (sort_by_perm l) as Hp.
  destruct (sort_by le l) as [|z l'] eqn:E; [done|]. injection Hx as ->. inversion_clear Hs as [|? ? _ Hall].
  split; [rewrite <- Hp; by left|]. intros y Hy. rewrite <- Hp in Hy.
  apply elem_of_cons in Hy as [->|Hy]; [by left|right]. rewrite Forall_forall in Hall. by apply Hall.
Qed.
End sort_lemmas.

(** ** Case mapping *)

(** [str::to_uppercase] and [str::to_lowercase]: the Unicode tables of [std]. *)
Class StrCase := { str_to_uppercase : string -> string; str_to_lowercase : string -> string }.

(** [str::contains] and [str::starts_with], on bytes. *)
Fixpoint starts_with {A} `{EqDecision A} (p l : list A) : bool :=
  match p, l with
  | [], _ => true
  | a :: p, b :: l => bool_decide (a = b) && starts_with p l
  | _ :: _, [] => false
  end.
Fixpoint contains_list {A} `{EqDecision A} (p l : list A) : bool :=
  starts_with p l || match l with [] => false | _ :: l => contains_list p l end.
Definition str_contains (haystack needle : string) : bool :=
  contains_list (str_bytes needle) (str_bytes haystack).
Definition str_starts_with (s p : string) : bool := starts_with (str_bytes p) (str_bytes s).

Lemma str_bytes_app s t : str_bytes (String.append s t) = (str_bytes s ++ str_bytes t)%list.
Proof.
  unfold str_bytes. induction s as [|c s IH]; [done|]. cbn. rewrite <- IH. done.
Qed.

Lemma str_starts_with_prefix p s t : str_starts_with s p = true -> str_starts_with (String.append s t) p = true.
Proof.
  unfold str_starts_with. rewrite str_bytes_app. generalize (str_bytes p) (str_bytes s).
  intros l. induction l as [|b l IH]; intros [|c k]; cbn; try done. rewrite !andb_true_iff. naive_solver.
Qed.

(** ** Base64

    [base64]'s [URL_SAFE_NO_PAD] engine, a library several crates call: its
    encoder, its decoder (whose error is its text), and what the callers rely
    on. *)
Class Base64Url := {
  b64_encode : list Z -> string;
  b64_decode : string -> string + list Z;
}.

Class Base64Laws (B : Base64Url) := {
  b64_decode_encode bs : bytes_ok bs -> b64_decode (b64_encode bs) = inr bs;
  b64_encode_length bs : (Z.of_nat (String.length (b64_encode bs)) <= div_ceil (zlen bs) 3 * 4)%Z;
}.

Lemma elem_of_concat_fmap {A B} (f : A -> list B) l x :
  x ∈ concat (f <$> l) <-> exists a, a ∈ l /\ x ∈ f a.
Proof.
  rewrite list_elem_of_In, List.in_concat. setoid_rewrite <- list_elem_of_In. split.
  - intros (k & (a & -> & Ha)%list_elem_of_fmap & Hx). by exists a.
  - intros (a & Ha & Hx). exists (f a). by split; [apply list_elem_of_fmap_2|].
Qed.

(** ** Sequences of operations

    The outputs of a sequence of calls on a state machine, and the simulation
    argument that two machines related by an invariant produce the same
    outputs. *)
Definition run {S O R} (step : S -> O -> S * R) : S -> list O -> list R :=
  fix go s ops :=
    match ops with
    | [] => []
    | o :: ops => let r := step s o in r.2 :: go r.1 ops
    end.

Definition run_state {S O R} (step : S -> O -> S * R) : S -> list O -> S :=
  fix go s ops :=
    match ops with
    | [] => s
    | o :: ops => go (step s o).1 ops
    end.

Lemma run_simulation {S1 S2 O R} (Rel : S1 -> S2 -> Prop) (ok : O -> Prop)
    (step1 : S1 -> O -> S1 * R) (step2 : S2 -> O -> S2 * R) :
  (forall s1 s2 o, Rel s1 s2 -> ok o ->
     (step1 s1 o).2 = (step2 s2 o).2 /\ Rel (step1 s1 o).1 (step2 s2 o).1) ->
  forall ops s1 s2, Rel s1 s2 -> Forall ok ops -> run step1 s1 ops = run step2 s2 ops.
Proof.
  intros Hsim ops. induction ops as [|o ops IH]; intros s1 s2 HR Hok; [done|].
  inversion_clear Hok as [|? ? Ho Hops].
  destruct (Hsim s1 s2 o HR Ho) as [Hout HR']. simpl. f_equal; auto.
Qed.

Lemma run_state_invariant {S O R} (I : S -> Prop) (ok : O -> Prop) (step : S -> O -> S * R) :
  (forall s o, I s -> ok o -> I (step s o).1) ->
  forall ops s, I s -> Forall ok ops -> I (run_state step s ops).
Proof.
  intros Hinv ops. induction ops as [|o ops IH]; intros s Hs Hok; [done|].
  inversion_clear Hok. simpl. auto.
Qed.
