(* ===== verification/RustStr.v ===== *)
(** * Rust strings

    A Rust [str] as the list of its Unicode scalar values.  Lengths and slice
    bounds are in bytes of the UTF-8 encoding, as in Rust, and slicing panics
    when a bound is out of range or inside a character. *)

From S2P Require Import Prelude.
Local Open Scope Z_scope.

Abbreviation rstr := (list Z).

(** An ASCII literal. *)
Definition lit (s : string) : rstr :=
  (fun a => Z.of_N (N_of_ascii a)) <$> String.list_ascii_of_string s.

(** [char::len_utf8] and the bytes of a character. *)
Definition utf8_len (c : Z) : Z :=
  if c <? 128 then 1 else if c <? 2048 then 2 else if c <? 65536 then 3 else 4.

Definition utf8_encode (c : Z) : list Z :=
  if c <? 128 then [c]
  else if c <? 2048 then
    [192 + Z.shiftr c 6; 128 + Z.land c 63]
  else if c <? 65536 then
    [224 + Z.shiftr c 12; 128 + Z.land (Z.shiftr c 6) 63; 128 + Z.land c 63]
  else
    [240 + Z.shiftr c 18; 128 + Z.land (Z.shiftr c 12) 63;
     128 + Z.land (Z.shiftr c 6) 63; 128 + Z.land c 63].

Definition as_bytes (s : rstr) : list Z := concat (utf8_encode <$> s).

(** [str::len], in bytes. *)
Definition str_len (s : rstr) : Z := zlen (as_bytes s).

(** The number of characters before byte offset [a], when [a] is a character
    boundary. *)
Fixpoint char_boundary (s : rstr) (a : Z) : option nat :=
  if a =? 0 then Some 0%nat
  else match s with
       | [] => None
       | c :: s' => if a <? utf8_len c then None else S <$> char_boundary s' (a - utf8_len c)
       end.

(** [&s[a..b]]. *)
Definition str_slice {E} (s : rstr) (a b : Z) : res E rstr :=
  match char_boundary s a, char_boundary s b with
  | Some i, Some j => if a <=? b then Ok (take (j - i) (drop i s)) else Panic
  | _, _ => Panic
  end.

Definition is_ascii_char (c : Z) : bool := (0 <=? c) && (c <? 128).
Definition is_ascii (s : rstr) : bool := forallb is_ascii_char s.

Definition is_ascii_digit (c : Z) : bool := (48 <=? c) && (c <=? 57).
Definition is_ascii_uppercase (c : Z) : bool := (65 <=? c) && (c <=? 90).
Definition is_ascii_lowercase (c : Z) : bool := (97 <=? c) && (c <=? 122).
Definition is_ascii_alphanumeric (c : Z) : bool :=
  is_ascii_digit c || is_ascii_uppercase c || is_ascii_lowercase c.

Definition to_ascii_uppercase (c : Z) : Z := if is_ascii_lowercase c then c - 32 else c.

(** [char::is_whitespace]: the White_Space property. *)
Definition is_whitespace (c : Z) : bool :=
  ((9 <=? c) && (c <=? 13)) || (c =? 32) || (c =? 133) || (c =? 160) || (c =? 5760) ||
  ((8192 <=? c) && (c <=? 8202)) || (c =? 8232) || (c =? 8233) || (c =? 8239) ||
  (c =? 8287) || (c =? 12288).

Fixpoint trim_start_by (p : Z -> bool) (s : rstr) : rstr :=
  match s with
  | [] => []
  | c :: s' => if p c then trim_start_by p s' else s
  end.

Definition trim_end_by (p : Z -> bool) (s : rstr) : rstr :=
  reverse (trim_start_by p (reverse s)).

(** [str::trim] and [str::trim_end_matches] of a character. *)
Definition trim (s : rstr) : rstr := trim_end_by is_whitespace (trim_start_by is_whitespace s).
Definition trim_end_matches (c : Z) (s : rstr) : rstr := trim_end_by (Z.eqb c) s.

(** [str::replace] of a character by a character. *)
Definition replace_char (a b : Z) (s : rstr) : rstr :=
  (fun c => if c =? a then b else c) <$> s.

(** [str::split] on the two-character pattern [dd]. *)
Fixpoint split_pair (d : Z) (s : rstr) : list rstr :=
  match s with
  | [] => [[]]
  | x :: s1 =>
      match s1 with
      | [] => [[x]]
      | y :: s2 =>
          if (x =? d) && (y =? d) then [] :: split_pair d s2
          else match split_pair d s1 with
               | [] => [[x]]
               | p :: ps => (x :: p) :: ps
               end
      end
  end.

(** [str::split] on a character. *)
Fixpoint split_char (d : Z) (s : rstr) : list rstr :=
  match s with
  | [] => [[]]
  | x :: s1 =>
      if x =? d then [] :: split_char d s1
      else match split_char d s1 with
           | [] => [[x]]
           | p :: ps => (x :: p) :: ps
           end
  end.

(** [str::lines]: split at line feeds, a carriage return before one is part of
    the terminator, and no line after a final line feed. *)
Definition strip_cr (s : rstr) : rstr :=
  match last s with Some 13 => take (length s - 1) s | _ => s end.

Definition str_lines (s : rstr) : list rstr :=
  let parts := split_char 10 s in
  let n := (length parts - 1)%nat in
  (strip_cr <$> take n parts) ++
  (match last parts with Some [] | None => [] | Some l => [l] end).

(** [format!("{:<w}", s)]: pad with spaces on the right to [w] characters. *)
Definition pad_right (w : nat) (s : rstr) : rstr := s ++ replicate (w - length s) 32.

(** [str::to_uppercase] maps every character by the Unicode tables; the tables
    are a parameter, the ASCII part of which is known. *)
Class Unicode := char_to_uppercase : Z -> rstr.

Class UnicodeLaws `{Unicode} : Prop :=
  char_to_uppercase_ascii c : 0 <= c < 128 -> char_to_uppercase c = [to_ascii_uppercase c].

Definition to_uppercase `{Unicode} (s : rstr) : rstr := concat (char_to_uppercase <$> s).

(** A concrete table, for evaluation: ASCII letters, the sharp s and the
    dotless i, which Unicode maps into ASCII. *)
#[export] Instance demo_unicode : Unicode := fun c =>
  if c =? 223 then lit "SS" else if c =? 305 then lit "I" else [to_ascii_uppercase c].

#[export] Instance demo_unicode_laws : UnicodeLaws.
Proof.
  intros c Hc. unfold char_to_uppercase, demo_unicode.
  destruct (Z.eqb_spec c 223); [lia|]. by destruct (Z.eqb_spec c 305); [lia|].
Qed.

(** ** Lemmas on ASCII strings *)
Definition ascii_ok (s : rstr) : Prop := Forall (fun c => 0 <= c < 128) s.

(** The characters from [a] up to [b]. *)
Definition sub (a b : nat) (s : rstr) : rstr := take (b - a) (drop a s).

Lemma as_bytes_ascii s : ascii_ok s -> as_bytes s = s.
Proof.
  unfold as_bytes. induction 1 as [|c s Hc Hs IH]; [done|].
  rewrite fmap_cons. cbn [concat]. rewrite IH. unfold utf8_encode. by rewrite (proj2 (Z.ltb_lt c 128)) by lia.
Qed.

Lemma str_len_ascii s : ascii_ok s -> str_len s = zlen s.
Proof. intros Hs. unfold str_len. by rewrite as_bytes_ascii. Qed.

Lemma char_boundary_ascii s n :
  ascii_ok s -> (n <= length s)%nat -> char_boundary s (Z.of_nat n) = Some n.
Proof.
  intros Hs. revert n. induction Hs as [|c s Hc Hs IH]; intros [|n] Hn;
    [done|by simpl in Hn; lia|done|].
  simpl in Hn. cbn [char_boundary]. rewrite (proj2 (Z.eqb_neq _ 0)) by lia.
  assert (utf8_len c = 1) as -> by (unfold utf8_len; by rewrite (proj2 (Z.ltb_lt c 128)) by lia).
  rewrite (proj2 (Z.ltb_ge _ 1)) by lia.
  replace (Z.of_nat (S n) - 1) with (Z.of_nat n) by lia. by rewrite IH by lia.
Qed.

Lemma str_slice_ascii {E} s (a b : nat) :
  ascii_ok s -> (a <= b <= length s)%nat ->
  str_slice (E:=E) s (Z.of_nat a) (Z.of_nat b) = Ok (sub a b s).
Proof.
  intros Hs Hab. unfold str_slice. rewrite !char_boundary_ascii by (done || lia).
  by rewrite (proj2 (Z.leb_le _ _)) by lia.
Qed.

Lemma is_ascii_spec s : is_ascii s = true <-> ascii_ok s.
Proof.
  unfold is_ascii, ascii_ok. rewrite forallb_forall, Forall_forall.
  split; intros H c Hc; [apply list_elem_of_In, H in Hc|apply list_elem_of_In, H in Hc];
    unfold is_ascii_char in *; [breflect; lia|].
  rewrite (proj2 (Z.leb_le _ _)), (proj2 (Z.ltb_lt _ _)) by lia. done.
Qed.

Lemma trim_start_by_id p s : (forall c, head s = Some c -> p c = false) -> trim_start_by p s = s.
Proof. destruct s as [|c s]; simpl; [done|]. intros H. by rewrite (H c). Qed.

Lemma trim_start_by_replicate p n c s :
  p c = true -> trim_start_by p (replicate n c ++ s) = trim_start_by p s.
Proof. intros Hp. induction n; simpl; [done|]. by rewrite Hp. Qed.

Lemma head_reverse {A} (l : list A) : head (reverse l) = last l.
Proof.
  induction l as [|x l IH] using rev_ind; [done|].
  by rewrite reverse_app, last_snoc.
Qed.

Lemma reverse_replicate' {A} n (x : A) : reverse (replicate n x) = replicate n x.
Proof.
  induction n as [|n IH]; [done|].
  rewrite replicate_S at 1. rewrite reverse_cons, IH.
  change [x] with (replicate 1 x). rewrite <-replicate_add. f_equal. lia.
Qed.

Lemma trim_end_by_app_replicate p n c s :
  p c = true -> (forall x, last s = Some x -> p x = false) ->
  trim_end_by p (s ++ replicate n c) = s.
Proof.
  intros Hp Hl. unfold trim_end_by. rewrite reverse_app, reverse_replicate'.
  rewrite trim_start_by_replicate by done.
  rewrite trim_start_by_id by (intros x; rewrite head_reverse; apply Hl).
  apply reverse_involutive.
Qed.

Lemma trim_end_by_id p s : (forall x, last s = Some x -> p x = false) -> trim_end_by p s = s.
Proof.
  intros Hl. unfold trim_end_by.
  rewrite trim_start_by_id by (intros x; rewrite head_reverse; apply Hl).
  apply reverse_involutive.
Qed.

Lemma trim_start_by_suffix p s : exists pre, s = pre ++ trim_start_by p s /\ Forall (fun c => p c = true) pre.
Proof.
  induction s as [|c s (pre & IH & Hpre)]; [by exists []|]. simpl.
  destruct (p c) eqn:Hc; [|by exists []].
  exists (c :: pre). split; [by rewrite IH at 1|by constructor].
Qed.

(** What [trim_end_matches] removes is a run of that character. *)
Lemma trim_end_matches_split c s :
  exists n, s = trim_end_matches c s ++ replicate n c.
Proof.
  destruct (trim_start_by_suffix (Z.eqb c) (reverse s)) as (pre & Hs & Hpre).
  exists (length pre). unfold trim_end_matches, trim_end_by.
  rewrite <-(reverse_involutive s) at 1. rewrite Hs at 1. rewrite reverse_app. f_equal.
  assert (pre = replicate (length pre) c) as Hr.
  { clear Hs. induction Hpre as [|x pre Hx Hpre IH]; [done|].
    apply Z.eqb_eq in Hx. subst x. simpl. by rewrite <-IH. }
  rewrite Hr at 1. apply reverse_replicate'.
Qed.

Lemma to_uppercase_id `{UnicodeLaws} s :
  Forall (fun c => 0 <= c < 128 /\ is_ascii_lowercase c = false) s -> to_uppercase s = s.
Proof.
  unfold to_uppercase. induction 1 as [|c s [Hc Hl] Hs IH]; [done|].
  rewrite fmap_cons. cbn [concat]. rewrite IH, char_to_uppercase_ascii by done.
  unfold to_ascii_uppercase. by rewrite Hl.
Qed.
