(* ===== verification/StatusList.v ===== *)
(** * Credential status lists (marty-status)

    The IETF token status list ([TokenStatusList]: 1, 2, 4 or 8 bits per
    entry, least significant bit first, ZLIB) and the W3C bitstring status list
    ([BitstringStatusList]: one bit per entry, most significant bit first,
    GZIP, multibase prefix).  Every function of [src/marty-status/src/lib.rs]
    is a definition here; [flate2] and [base64] are parameters
    ([Compressor], [Base64Url]) whose laws are stated separately. *)

From S2P Require Import Prelude.
Local Open Scope Z_scope.

(** [src/marty-status/src/lib.rs:17-17] MAX_STATUS_LIST_ENTRIES *)
Definition MAX_STATUS_LIST_ENTRIES : Z := 16777216.

(** [src/marty-status/src/lib.rs:18-18] W3C_MIN_STATUS_LIST_BITS *)
Definition W3C_MIN_STATUS_LIST_BITS : Z := 131072.

(** [src/marty-status/src/lib.rs:20-44] StatusListError *)
Inductive StatusListError :=
| SizeLimit (size maximum : Z)
| InvalidBits
| IndexOutOfRange (index size : Z)
| StatusOutOfRange (status bits maximum : Z)
| EncodedSizeLimit
| InvalidBase64 (msg : string)
| InvalidMultibase
| InvalidCompression (msg : string)
| DecodedLength (actual expected : Z)
| PrivacyFloor (minimum : Z)
| InvalidSubject.

#[local] Abbreviation result := (res StatusListError).

(** [src/marty-status/src/lib.rs:48-53] TokenStatusList *)
Record TokenStatusList := mkToken {
  t_bits : Z;
  t_data : list Z;
  t_size : Z;
}.

(** [src/marty-status/src/lib.rs:186-190] BitstringStatusList *)
Record BitstringStatusList := mkBitstring {
  b_data : list Z;
  b_size : Z;
}.

(** [src/marty-status/src/lib.rs:375-381] TokenStatusListClaim *)
Record TokenStatusListClaim := mkClaim {
  claim_bits : Z;
  claim_lst : string;
}.

(** [src/marty-status/src/lib.rs:383-393] BitstringStatusListCredentialSubject *)
Record BitstringStatusListCredentialSubject := mkSubject {
  subject_id : string;
  subject_type : string;
  subject_statusPurpose : string;
  subject_encodedList : string;
}.

(** ** Shared validation *)

(** [src/marty-status/src/lib.rs:395-403] validate_size *)
Definition validate_size (size : Z) : result unit :=
  ensure (negb (MAX_STATUS_LIST_ENTRIES <? size)) (SizeLimit size MAX_STATUS_LIST_ENTRIES).

(** [src/marty-status/src/lib.rs:405-410] validate_bits *)
Definition validate_bits (bits : Z) : result unit :=
  ensure ((bits =? 1) || (bits =? 2) || (bits =? 4) || (bits =? 8)) InvalidBits.

(** [src/marty-status/src/lib.rs:412-414] token_byte_len *)
Definition token_byte_len (size bits : Z) : Z := div_ceil size (8 / bits).

(** [src/marty-status/src/lib.rs:416-418] bitstring_byte_len *)
Definition bitstring_byte_len (size : Z) : Z := div_ceil size 8.

(** [src/marty-status/src/lib.rs:420-427] validate_encoded_len *)
Definition validate_encoded_len (encoded_len expected_bytes : Z) : result unit :=
  let max_compressed := saturating_add (saturating_mul expected_bytes 2) 1024 in
  let max_encoded := saturating_mul (div_ceil max_compressed 3) 4 in
  ensure (negb (max_encoded <? encoded_len)) EncodedSizeLimit.

(** [u64::try_from] on a [usize]. *)
Definition u64_try_from (x : Z) : option Z :=
  if x <? 2 ^ 64 then Some x else None.

(** A decompressing reader: the bytes it yields before it stops, and the
    error it stops with, if any. *)
Definition byte_stream : Type := list Z * option string.

(** [reader.take(limit).read_to_end(&mut out)]: the reader is not polled again
    once [limit] bytes have been read, so a later error is not seen. *)
Definition take_read_to_end (r : byte_stream) (limit : Z) : string + list Z :=
  if limit <=? zlen r.1 then inr (take (Z.to_nat limit) r.1)
  else match r.2 with
       | None => inr r.1
       | Some e => inl e
       end.

(** [src/marty-status/src/lib.rs:449-451] compression_error *)
Definition compression_error {A} (r : string + A) : result A :=
  match r with inl e => Err (InvalidCompression e) | inr a => Ok a end.

(** [src/marty-status/src/lib.rs:429-447] read_exact_bounded *)
Definition read_exact_bounded (r : byte_stream) (expected : Z) : result (list Z) :=
  limit ← ok_or (u64_try_from (saturating_add expected 1))
                (SizeLimit expected MAX_STATUS_LIST_ENTRIES);
  output ← compression_error (take_read_to_end r limit);
  _ ← ensure (zlen output =? expected) (DecodedLength (zlen output) expected);
  Ok output.

(** ** Token status lists *)

(** [src/marty-status/src/lib.rs:56-64] TokenStatusList::new *)
Definition token_new (size bits : Z) : result TokenStatusList :=
  _ ← validate_size size;
  _ ← validate_bits bits;
  Ok (mkToken bits (replicate (Z.to_nat (token_byte_len size bits)) 0) size).

(** [src/marty-status/src/lib.rs:66-77] TokenStatusList::from_bytes *)
Definition token_from_bytes (data : list Z) (size bits : Z) : result TokenStatusList :=
  _ ← validate_size size;
  _ ← validate_bits bits;
  let expected := token_byte_len size bits in
  _ ← ensure (zlen data =? expected) (DecodedLength (zlen data) expected);
  Ok (mkToken bits data size).

(** [src/marty-status/src/lib.rs:171-173] TokenStatusList::mask *)
Definition token_mask (l : TokenStatusList) : Z :=
  wrap 8 (wrap 16 (Z.shiftl 1 (t_bits l)) - 1).

(** [src/marty-status/src/lib.rs:175-183] TokenStatusList::validate_index *)
Definition token_validate_index (l : TokenStatusList) (index : Z) : result unit :=
  ensure (negb (t_size l <=? index)) (IndexOutOfRange index (t_size l)).

(** [src/marty-status/src/lib.rs:79-85] TokenStatusList::get *)
Definition token_get (l : TokenStatusList) (index : Z) : result Z :=
  _ ← token_validate_index l index;
  entries_per_byte ← div_or_panic 8 (t_bits l);
  byte_index ← div_or_panic index entries_per_byte;
  r ← rem_or_panic index entries_per_byte;
  let shift := r * t_bits l in
  b ← vec_index (t_data l) byte_index;
  Ok (Z.land (Z.shiftr b shift) (token_mask l)).

(** [src/marty-status/src/lib.rs:87-102] TokenStatusList::set *)
Definition token_set (l : TokenStatusList) (index status : Z) : result TokenStatusList :=
  _ ← token_validate_index l index;
  let mask := token_mask l in
  _ ← ensure (negb (mask <? status)) (StatusOutOfRange status (t_bits l) mask);
  entries_per_byte ← div_or_panic 8 (t_bits l);
  byte_index ← div_or_panic index entries_per_byte;
  r ← rem_or_panic index entries_per_byte;
  let shift := r * t_bits l in
  b ← vec_index (t_data l) byte_index;
  data ← vec_set (t_data l) byte_index
           (Z.lor (Z.land b (u8_not (wrap 8 (Z.shiftl mask shift))))
                  (wrap 8 (Z.shiftl status shift)));
  Ok (mkToken (t_bits l) data (t_size l)).

(** [src/marty-status/src/lib.rs:104-106] TokenStatusList::is_revoked *)
Definition token_is_revoked (l : TokenStatusList) (index : Z) : result bool :=
  s ← token_get l index; Ok (negb (s =? 0)).

(** [src/marty-status/src/lib.rs:108-110] TokenStatusList::revoke *)
Definition token_revoke (l : TokenStatusList) (index : Z) : result TokenStatusList :=
  token_set l index 1.

(** [src/marty-status/src/lib.rs:112-114] TokenStatusList::reinstate *)
Definition token_reinstate (l : TokenStatusList) (index : Z) : result TokenStatusList :=
  token_set l index 0.

(** [src/marty-status/src/lib.rs:116-118] TokenStatusList::len *)
Definition token_len (l : TokenStatusList) : Z := t_size l.

(** [src/marty-status/src/lib.rs:120-122] TokenStatusList::is_empty *)
Definition token_is_empty (l : TokenStatusList) : bool := t_size l =? 0.

(** [src/marty-status/src/lib.rs:124-126] TokenStatusList::bits_per_status *)
Definition token_bits_per_status (l : TokenStatusList) : Z := t_bits l.

(** [src/marty-status/src/lib.rs:128-134] TokenStatusList::as_bytes, to_bytes *)
Definition token_to_bytes (l : TokenStatusList) : list Z := t_data l.

(** ** Bitstring status lists *)

(** [src/marty-status/src/lib.rs:193-199] BitstringStatusList::new *)
Definition bitstring_new (size : Z) : result BitstringStatusList :=
  _ ← validate_size size;
  Ok (mkBitstring (replicate (Z.to_nat (bitstring_byte_len size)) 0) size).

(** [src/marty-status/src/lib.rs:201-211] BitstringStatusList::from_bytes *)
Definition bitstring_from_bytes (data : list Z) (size : Z) : result BitstringStatusList :=
  _ ← validate_size size;
  let expected := bitstring_byte_len size in
  _ ← ensure (zlen data =? expected) (DecodedLength (zlen data) expected);
  Ok (mkBitstring data size).

(** [src/marty-status/src/lib.rs:364-372] BitstringStatusList::validate_index *)
Definition bitstring_validate_index (l : BitstringStatusList) (index : Z) : result unit :=
  ensure (negb (b_size l <=? index)) (IndexOutOfRange index (b_size l)).

(** [src/marty-status/src/lib.rs:213-218] BitstringStatusList::get *)
Definition bitstring_get (l : BitstringStatusList) (index : Z) : result bool :=
  _ ← bitstring_validate_index l index;
  let byte_index := index / 8 in
  let shift := 7 - index mod 8 in
  b ← vec_index (b_data l) byte_index;
  Ok (Z.land (Z.shiftr b shift) 1 =? 1).

(** [src/marty-status/src/lib.rs:220-230] BitstringStatusList::set *)
Definition bitstring_set (l : BitstringStatusList) (index : Z) (revoked : bool) :
    result BitstringStatusList :=
  _ ← bitstring_validate_index l index;
  let byte_index := index / 8 in
  let shift := 7 - index mod 8 in
  b ← vec_index (b_data l) byte_index;
  data ← vec_set (b_data l) byte_index
           (if revoked then Z.lor b (wrap 8 (Z.shiftl 1 shift))
            else Z.land b (u8_not (wrap 8 (Z.shiftl 1 shift))));
  Ok (mkBitstring data (b_size l)).

(** [src/marty-status/src/lib.rs:232-234] BitstringStatusList::is_revoked *)
Definition bitstring_is_revoked (l : BitstringStatusList) (index : Z) : result bool :=
  bitstring_get l index.

(** [src/marty-status/src/lib.rs:236-238] BitstringStatusList::revoke *)
Definition bitstring_revoke (l : BitstringStatusList) (index : Z) : result BitstringStatusList :=
  bitstring_set l index true.

(** [src/marty-status/src/lib.rs:240-242] BitstringStatusList::reinstate *)
Definition bitstring_reinstate (l : BitstringStatusList) (index : Z) : result BitstringStatusList :=
  bitstring_set l index false.

(** [src/marty-status/src/lib.rs:244-246] BitstringStatusList::len *)
Definition bitstring_len (l : BitstringStatusList) : Z := b_size l.

(** [src/marty-status/src/lib.rs:248-250] BitstringStatusList::is_empty *)
Definition bitstring_is_empty (l : BitstringStatusList) : bool := b_size l =? 0.

(** [u8::count_ones]. *)
Definition count_ones (b : Z) : Z :=
  foldr (fun n acc => Z.b2z (Z.testbit b n) + acc) 0 [0;1;2;3;4;5;6;7].

(** [src/marty-status/src/lib.rs:252-257] BitstringStatusList::count_revoked *)
Definition bitstring_count_revoked (l : BitstringStatusList) : Z :=
  foldr (fun b acc => count_ones b + acc) 0 (b_data l).

(** [src/marty-status/src/lib.rs:259-265] BitstringStatusList::as_bytes, to_bytes *)
Definition bitstring_to_bytes (l : BitstringStatusList) : list Z := b_data l.

(** ** Wire encodings

    [flate2] and [base64] are libraries outside the repository.  The
    operations are parameters; the laws the encodings rely on are the classes
    [CompressorLaws] and [Base64Laws]. *)
Class Compressor := {
  compress_bytes : list Z -> string + list Z;
  decompress_stream : list Z -> byte_stream;
}.

Class CompressorLaws (C : Compressor) := {
  compress_decompress bs :
    bytes_ok bs -> exists c, compress_bytes bs = inr c /\ decompress_stream c = (bs, None);
  compress_expansion bs c :
    compress_bytes bs = inr c -> zlen c <= 2 * zlen bs + 1024;
  compress_bytes_ok bs c : bytes_ok bs -> compress_bytes bs = inr c -> bytes_ok c;
  decompress_bytes_ok c : bytes_ok (decompress_stream c).1;
}.

Section Wire.
Context (zlib gzip : Compressor) `{b64 : Base64Url}.

Definition str_len (s : string) : Z := Z.of_nat (String.length s).

Definition decode_base64 (s : string) : result (list Z) :=
  match b64_decode s with inl e => Err (InvalidBase64 e) | inr bs => Ok bs end.

(** [str::strip_prefix('u')]. *)
Definition strip_prefix_u (s : string) : option string :=
  match s with
  | String c rest => if bool_decide (c = "u"%char) then Some rest else None
  | EmptyString => None
  end.

(** [src/marty-status/src/lib.rs:136-140] TokenStatusList::compress *)
Definition token_compress (l : TokenStatusList) : result (list Z) :=
  compression_error (compress_bytes (Compressor:=zlib) (t_data l)).

(** [src/marty-status/src/lib.rs:142-144] TokenStatusList::to_base64url *)
Definition token_to_base64url (l : TokenStatusList) : result string :=
  c ← token_compress l; Ok (b64_encode c).

(** [src/marty-status/src/lib.rs:146-152] TokenStatusList::from_compressed *)
Definition token_from_compressed (data : list Z) (size bits : Z) : result TokenStatusList :=
  _ ← validate_size size;
  _ ← validate_bits bits;
  let expected := token_byte_len size bits in
  decoded ← read_exact_bounded (decompress_stream (Compressor:=zlib) data) expected;
  token_from_bytes decoded size bits.

(** [src/marty-status/src/lib.rs:154-162] TokenStatusList::from_base64url *)
Definition token_from_base64url (encoded : string) (size bits : Z) : result TokenStatusList :=
  _ ← validate_size size;
  _ ← validate_bits bits;
  _ ← validate_encoded_len (str_len encoded) (token_byte_len size bits);
  compressed ← decode_base64 encoded;
  token_from_compressed compressed size bits.

(** [src/marty-status/src/lib.rs:164-169] TokenStatusList::claim *)
Definition token_claim (l : TokenStatusList) : result TokenStatusListClaim :=
  list ← token_to_base64url l;
  Ok (mkClaim (t_bits l) list).

(** [src/marty-status/src/lib.rs:267-271] BitstringStatusList::compress *)
Definition bitstring_compress (l : BitstringStatusList) : result (list Z) :=
  compression_error (compress_bytes (Compressor:=gzip) (b_data l)).

(** [src/marty-status/src/lib.rs:273-276] BitstringStatusList::to_base64url *)
Definition bitstring_to_base64url (l : BitstringStatusList) : result string :=
  c ← bitstring_compress l; Ok (String "u"%char (b64_encode c)).

(** [src/marty-status/src/lib.rs:278-283] BitstringStatusList::from_compressed *)
Definition bitstring_from_compressed (data : list Z) (size : Z) : result BitstringStatusList :=
  _ ← validate_size size;
  let expected := bitstring_byte_len size in
  decoded ← read_exact_bounded (decompress_stream (Compressor:=gzip) data) expected;
  bitstring_from_bytes decoded size.

(** [src/marty-status/src/lib.rs:285-295] BitstringStatusList::from_base64url *)
Definition bitstring_from_base64url (encoded : string) (size : Z) : result BitstringStatusList :=
  _ ← validate_size size;
  payload ← ok_or (strip_prefix_u encoded) InvalidMultibase;
  _ ← validate_encoded_len (str_len payload) (bitstring_byte_len size);
  compressed ← decode_base64 payload;
  bitstring_from_compressed compressed size.

(** [src/marty-status/src/lib.rs:304-339] BitstringStatusList::from_base64url_bounded *)
Definition bitstring_from_base64url_bounded (encoded : string) : result BitstringStatusList :=
  payload ← ok_or (strip_prefix_u encoded) InvalidMultibase;
  let maximum_bytes := bitstring_byte_len MAX_STATUS_LIST_ENTRIES in
  _ ← validate_encoded_len (str_len payload) maximum_bytes;
  compressed ← decode_base64 payload;
  limit ← ok_or (u64_try_from (saturating_add maximum_bytes 1))
                (SizeLimit MAX_STATUS_LIST_ENTRIES MAX_STATUS_LIST_ENTRIES);
  data ← compression_error
           (take_read_to_end (decompress_stream (Compressor:=gzip) compressed) limit);
  _ ← ensure (negb (maximum_bytes <? zlen data))
        (SizeLimit (saturating_mul (zlen data) 8) MAX_STATUS_LIST_ENTRIES);
  let size := saturating_mul (zlen data) 8 in
  _ ← ensure (negb (size <? W3C_MIN_STATUS_LIST_BITS)) (PrivacyFloor W3C_MIN_STATUS_LIST_BITS);
  bitstring_from_bytes data size.

(** [src/marty-status/src/lib.rs:341-362] BitstringStatusList::credential_subject *)
Definition credential_subject (l : BitstringStatusList) (id status_purpose : string) :
    result BitstringStatusListCredentialSubject :=
  _ ← ensure (negb (b_size l <? W3C_MIN_STATUS_LIST_BITS)) (PrivacyFloor W3C_MIN_STATUS_LIST_BITS);
  _ ← ensure (negb ((str_len id =? 0) || (str_len status_purpose =? 0))) InvalidSubject;
  encoded ← bitstring_to_base64url l;
  Ok (mkSubject id "BitstringStatusList" status_purpose encoded).
End Wire.
