(* ===== verification/StatusListFacts.v ===== *)
(** * Correctness of the status lists

    The byte-level field lemmas, the well-formedness invariant, the refinement
    of both lists by plain arrays of statuses, and the wire round trips. *)

From S2P Require Import Prelude StatusList.
Local Open Scope Z_scope.

(** ** Fields of a byte *)

(** Reading the [m]-bit field at [sh], and replacing it, as the code does. *)
Definition field_get (b sh m : Z) : Z := Z.land (Z.shiftr b sh) (Z.ones m).
Definition field_set (b sh m v : Z) : Z :=
  Z.lor (Z.land b (u8_not (wrap 8 (Z.shiftl (Z.ones m) sh)))) (wrap 8 (Z.shiftl v sh)).

Lemma testbit_small (v m n : Z) : 0 <= m -> 0 <= v < 2 ^ m -> m <= n -> Z.testbit v n = false.
Proof.
  intros Hm Hv Hn. rewrite <- (Z.mod_small v (2 ^ m)) by done.
  apply Z.mod_pow2_bits_high. lia.
Qed.

Lemma field_set_bits b sh m v n :
  byte_ok b -> 0 <= sh -> 0 <= m -> sh + m <= 8 -> 0 <= v < 2 ^ m -> 0 <= n ->
  Z.testbit (field_set b sh m v) n =
    if (sh <=? n) && (n <? sh + m) then Z.testbit v (n - sh) else Z.testbit b n.
Proof.
  intros Hb Hsh Hm Hle Hv Hn. unfold field_set, u8_not.
  rewrite Z.lor_spec, Z.land_spec, Z.lxor_spec, !wrap8_bits, ones8_bits, !Z.shiftl_spec by lia.
  destruct (Z.leb_spec sh n); simpl.
  - destruct (Z.ltb_spec n (sh + m)).
    + rewrite Z.ones_spec_low by lia. destruct (Z.ltb_spec n 8); [|lia].
      simpl. by rewrite andb_false_r.
    + rewrite Z.ones_spec_high, (testbit_small v m) by lia. rewrite !andb_false_r.
      destruct (Z.ltb_spec n 8); simpl; [by rewrite andb_true_r, orb_false_r|].
      by rewrite testbit_byte_high.
  - rewrite !(Z.testbit_neg_r _ (n - sh)) by lia. rewrite !andb_false_r.
    destruct (Z.ltb_spec n 8); [|lia]. simpl. by rewrite andb_true_r, orb_false_r.
Qed.

Lemma field_get_bits b sh m n :
  0 <= sh -> 0 <= m -> 0 <= n ->
  Z.testbit (field_get b sh m) n = (n <? m) && Z.testbit b (n + sh).
Proof.
  intros. unfold field_get. rewrite Z.land_spec, Z.shiftr_spec by lia.
  destruct (Z.ltb_spec n m).
  - rewrite Z.ones_spec_low by lia. by rewrite andb_true_r.
  - rewrite Z.ones_spec_high by lia. by rewrite andb_false_r.
Qed.

Lemma field_set_byte_ok b sh m v :
  byte_ok b -> 0 <= sh -> 0 <= m -> sh + m <= 8 -> 0 <= v < 2 ^ m ->
  byte_ok (field_set b sh m v).
Proof.
  intros Hb Hsh Hm Hle Hv. apply byte_ok_of_bits.
  - unfold field_set. apply Z.lor_nonneg. split.
    + apply Z.land_nonneg. left. apply Hb.
    + apply wrap8_byte_ok.
  - intros n Hn. rewrite field_set_bits by (done || lia).
    destruct (Z.leb_spec sh n), (Z.ltb_spec n (sh + m)); simpl; try lia; by apply testbit_byte_high.
Qed.

Lemma field_get_set b sh m v :
  byte_ok b -> 0 <= sh -> 0 <= m -> sh + m <= 8 -> 0 <= v < 2 ^ m ->
  field_get (field_set b sh m v) sh m = v.
Proof.
  intros Hb Hsh Hm Hle Hv. apply Z.bits_inj'. intros n Hn.
  rewrite field_get_bits, field_set_bits by (done || lia).
  destruct (Z.ltb_spec n m); simpl; [|by rewrite (testbit_small v m) by lia].
  destruct (Z.leb_spec sh (n + sh)), (Z.ltb_spec (n + sh) (sh + m)); simpl; try lia.
  f_equal. lia.
Qed.

Lemma field_get_set_other b sh sh' m v :
  byte_ok b -> 0 <= sh -> 0 <= sh' -> 0 <= m -> sh + m <= 8 -> 0 <= v < 2 ^ m ->
  (sh' + m <= sh \/ sh + m <= sh') ->
  field_get (field_set b sh m v) sh' m = field_get b sh' m.
Proof.
  intros Hb Hsh Hsh' Hm Hle Hv Hd. apply Z.bits_inj'. intros n Hn.
  rewrite !field_get_bits, field_set_bits by (done || lia).
  destruct (Z.ltb_spec n m); simpl; [|done].
  destruct (Z.leb_spec sh (n + sh')), (Z.ltb_spec (n + sh') (sh + m)); simpl; try done; lia.
Qed.

Lemma field_get_range b sh m : 0 <= sh -> 0 <= m -> 0 <= b -> 0 <= field_get b sh m < 2 ^ m.
Proof.
  intros Hsh Hm Hb. unfold field_get. rewrite Z.land_ones by done.
  apply Z.mod_pos_bound. lia.
Qed.

(** Setting and clearing a single bit, the two branches of
    [BitstringStatusList::set], are the one-bit [field_set]. *)
Lemma set_bit_field b sh (r : bool) :
  byte_ok b -> 0 <= sh < 8 ->
  (if r then Z.lor b (wrap 8 (Z.shiftl 1 sh)) else Z.land b (u8_not (wrap 8 (Z.shiftl 1 sh))))
  = field_set b sh 1 (Z.b2z r).
Proof.
  intros Hb Hsh. assert (0 <= Z.b2z r < 2 ^ 1) by (destruct r; simpl; lia).
  apply Z.bits_inj'. intros n Hn. rewrite field_set_bits by (done || lia).
  assert (H1 : Z.testbit 1 (n - sh) = (n =? sh)).
  { destruct (Z.eqb_spec n sh) as [->|]; [by rewrite Z.sub_diag|].
    destruct (Z.lt_ge_cases n sh); [by apply Z.testbit_neg_r; lia|].
    by apply (testbit_small 1 1); lia. }
  assert (Hc : (sh <=? n) && (n <? sh + 1) = (n =? sh)) by lia.
  rewrite Hc. destruct r; cbn [Z.b2z].
  - rewrite Z.lor_spec, wrap8_bits, Z.shiftl_spec, H1 by lia.
    destruct (Z.eqb_spec n sh); [subst; rewrite (proj2 (Z.ltb_lt sh 8)) by lia; apply orb_true_r|].
    by rewrite andb_false_r, orb_false_r.
  - unfold u8_not. rewrite Z.land_spec, Z.lxor_spec, ones8_bits, wrap8_bits, Z.shiftl_spec, H1 by lia.
    destruct (Z.eqb_spec n sh); [subst; rewrite (proj2 (Z.ltb_lt sh 8)) by lia; simpl|].
    + by rewrite Z.testbit_0_l, andb_false_r.
    + rewrite andb_false_r. destruct (Z.ltb_spec n 8); simpl; [by rewrite andb_true_r|].
      by rewrite testbit_byte_high.
Qed.

(** ** Well-formed lists *)
Definition bits_ok (bits : Z) : Prop := bits = 1 \/ bits = 2 \/ bits = 4 \/ bits = 8.

Definition token_wf (l : TokenStatusList) : Prop :=
  bits_ok (t_bits l) /\ 0 <= t_size l <= MAX_STATUS_LIST_ENTRIES /\
  bytes_ok (t_data l) /\ zlen (t_data l) = token_byte_len (t_size l) (t_bits l).

Definition bitstring_wf (l : BitstringStatusList) : Prop :=
  0 <= b_size l <= MAX_STATUS_LIST_ENTRIES /\
  bytes_ok (b_data l) /\ zlen (b_data l) = bitstring_byte_len (b_size l).

Lemma validate_bits_Ok bits u : validate_bits bits = Ok u <-> bits_ok bits.
Proof.
  unfold validate_bits, bits_ok. rewrite ensure_Ok, !orb_true_iff, !Z.eqb_eq. tauto.
Qed.

Lemma validate_size_Ok size u : validate_size size = Ok u <-> size <= MAX_STATUS_LIST_ENTRIES.
Proof. unfold validate_size. rewrite ensure_Ok, negb_true_iff, Z.ltb_ge. done. Qed.

Lemma token_mask_ones l : bits_ok (t_bits l) -> token_mask l = Z.ones (t_bits l).
Proof. unfold token_mask. by intros [-> | [-> | [-> | ->]]]. Qed.

(** Where entry [index] of a list with [bits] bits per entry lives. *)
Definition entry_byte (bits index : Z) : Z := index / (8 / bits).
Definition entry_shift (bits index : Z) : Z := index mod (8 / bits) * bits.

Lemma entry_layout bits index :
  bits_ok bits -> 0 <= index ->
  0 <= entry_byte bits index /\ 0 <= entry_shift bits index /\ entry_shift bits index + bits <= 8.
Proof.
  unfold entry_byte, entry_shift.
  intros [-> | [-> | [-> | ->]]] Hi; cbn [Z.div Z.div_eucl];
    repeat match goal with |- context [8 / ?b] => let v := eval cbv in (8 / b) in change (8 / b) with v end;
    repeat split; try (apply Z.div_pos; lia);
    try match goal with |- context [?a mod ?n] => pose proof (Z.mod_pos_bound a n) end; lia.
Qed.

Lemma entry_byte_bound bits size index :
  bits_ok bits -> 0 <= index < size -> entry_byte bits index < token_byte_len size bits.
Proof.
  unfold entry_byte, token_byte_len, div_ceil.
  intros [-> | [-> | [-> | ->]]] Hi;
    repeat match goal with |- context [8 / ?b] => let v := eval cbv in (8 / b) in change (8 / b) with v end;
    apply Z.div_lt_upper_bound; try lia;
    match goal with |- _ < ?k * (?a / ?k) =>
      pose proof (Z.div_mod a k); pose proof (Z.mod_pos_bound a k) end; lia.
Qed.

Lemma entry_disjoint bits i j :
  bits_ok bits -> 0 <= i -> 0 <= j -> i <> j -> entry_byte bits i = entry_byte bits j ->
  entry_shift bits i + bits <= entry_shift bits j \/ entry_shift bits j + bits <= entry_shift bits i.
Proof.
  unfold entry_byte, entry_shift.
  intros [-> | [-> | [-> | ->]]] Hi Hj Hne He;
    repeat match goal with H : context [8 / ?b] |- _ => let v := eval cbv in (8 / b) in change (8 / b) with v in H end;
    repeat match goal with |- context [8 / ?b] => let v := eval cbv in (8 / b) in change (8 / b) with v end;
    match goal with H : ?i / ?n = ?j / ?n |- _ =>
      pose proof (Z.div_mod i n); pose proof (Z.div_mod j n);
      pose proof (Z.mod_pos_bound i n); pose proof (Z.mod_pos_bound j n) end; lia.
Qed.

(** ** Closed forms of [get] and [set] *)
Definition token_entry (l : TokenStatusList) (i : Z) : Z :=
  field_get (t_data l !!! Z.to_nat (entry_byte (t_bits l) i)) (entry_shift (t_bits l) i) (t_bits l).

Definition token_with_entry (l : TokenStatusList) (i s : Z) : TokenStatusList :=
  let k := Z.to_nat (entry_byte (t_bits l) i) in
  mkToken (t_bits l)
    (<[k := field_set (t_data l !!! k) (entry_shift (t_bits l) i) (t_bits l) s]> (t_data l))
    (t_size l).

Lemma bits_ok_div bits : bits_ok bits -> (bits =? 0) = false /\ (8 / bits =? 0) = false.
Proof. by intros [-> | [-> | [-> | ->]]]. Qed.

Lemma bits_ok_per_byte bits : bits_ok bits -> 1 <= 8 / bits <= 8.
Proof. by intros [-> | [-> | [-> | ->]]]. Qed.

Lemma bits_ok_range bits : bits_ok bits -> 1 <= bits <= 8.
Proof. unfold bits_ok. lia. Qed.

Lemma token_entry_in_range l i :
  token_wf l -> 0 <= i < t_size l ->
  0 <= entry_byte (t_bits l) i < zlen (t_data l) /\
  byte_ok (t_data l !!! Z.to_nat (entry_byte (t_bits l) i)).
Proof.
  intros (Hb & Hs & Hd & Hl) Hi.
  assert (Hr : 0 <= entry_byte (t_bits l) i < zlen (t_data l)).
  { rewrite Hl. split; [apply entry_layout; [done|lia]|by apply entry_byte_bound]. }
  split; [done|]. eapply Forall_lookup_total_1; [exact Hd|]. unfold zlen in Hr. lia.
Qed.

Lemma vec_index_total {E} (l : list Z) i :
  0 <= i < zlen l -> vec_index (E:=E) l i = Ok (l !!! Z.to_nat i).
Proof.
  intros Hi. destruct (vec_index_in_range (E:=E) l i Hi) as (x & -> & Hx).
  by rewrite (list_lookup_total_correct _ _ _ Hx).
Qed.

Lemma token_get_closed l i :
  token_wf l -> 0 <= i ->
  token_get l i =
    if i <? t_size l then Ok (token_entry l i) else Err (IndexOutOfRange i (t_size l)).
Proof.
  intros Hwf Hi. unfold token_get, token_validate_index.
  rewrite Z.leb_antisym, negb_involutive.
  destruct (Z.ltb_spec i (t_size l)) as [Hlt|]; [|done]; simpl.
  destruct (token_entry_in_range l i) as [Hr _]; [done|lia|].
  destruct Hwf as (Hb & _). destruct (bits_ok_div _ Hb) as [H0 H1].
  unfold div_or_panic, rem_or_panic. rewrite H0; simpl. rewrite H1; simpl.
  rewrite vec_index_total by exact Hr. simpl. by rewrite token_mask_ones.
Qed.

Lemma token_set_closed l i s :
  token_wf l -> 0 <= i ->
  token_set l i s =
    if i <? t_size l then
      if s <? 2 ^ t_bits l then Ok (token_with_entry l i s)
      else Err (StatusOutOfRange s (t_bits l) (Z.ones (t_bits l)))
    else Err (IndexOutOfRange i (t_size l)).
Proof.
  intros Hwf Hi. unfold token_set, token_validate_index.
  rewrite Z.leb_antisym, negb_involutive.
  destruct (Z.ltb_spec i (t_size l)) as [Hlt|]; [|done]; simpl.
  destruct (token_entry_in_range l i) as [Hr _]; [done|lia|].
  destruct Hwf as (Hb & _). destruct (bits_ok_div _ Hb) as [H0 H1].
  rewrite token_mask_ones by done.
  assert (Hm : negb (Z.ones (t_bits l) <? s) = (s <? 2 ^ t_bits l)).
  { rewrite Z.ones_equiv. destruct (Z.ltb_spec s (2 ^ t_bits l)), (Z.ltb_spec (Z.pred (2 ^ t_bits l)) s);
      simpl; lia. }
  rewrite Hm.
  destruct (Z.ltb_spec s (2 ^ t_bits l)); simpl; [|done].
  unfold div_or_panic, rem_or_panic. rewrite H0; simpl. rewrite H1; simpl.
  rewrite vec_index_total by exact Hr; simpl. by rewrite vec_set_in_range by exact Hr.
Qed.

Lemma token_with_entry_wf l i s :
  token_wf l -> 0 <= i < t_size l -> 0 <= s < 2 ^ t_bits l -> token_wf (token_with_entry l i s).
Proof.
  intros Hwf Hi Hs. destruct (token_entry_in_range l i Hwf Hi) as [Hr Hbyte].
  destruct Hwf as (Hb & Hsz & Hd & Hl). pose proof (bits_ok_range _ Hb).
  destruct (entry_layout (t_bits l) i) as (? & ? & ?); [done|lia|].
  repeat split; simpl; try done; try lia.
  - apply Forall_insert; [done|]. apply field_set_byte_ok; (done || lia).
  - by rewrite zlen_insert.
Qed.

Lemma token_entry_with_entry l i j s :
  token_wf l -> 0 <= i < t_size l -> 0 <= j < t_size l -> 0 <= s < 2 ^ t_bits l ->
  token_entry (token_with_entry l i s) j = if decide (i = j) then s else token_entry l j.
Proof.
  intros Hwf Hi Hj Hs.
  destruct (token_entry_in_range l i Hwf Hi) as [Hri Hbi].
  destruct (token_entry_in_range l j Hwf Hj) as [Hrj Hbj].
  destruct Hwf as (Hb & Hsz & Hd & Hl). pose proof (bits_ok_range _ Hb).
  destruct (entry_layout (t_bits l) i) as (? & ? & ?); [done|lia|].
  destruct (entry_layout (t_bits l) j) as (? & ? & ?); [done|lia|].
  unfold token_entry, token_with_entry; simpl.
  destruct (decide (entry_byte (t_bits l) i = entry_byte (t_bits l) j)) as [He|He].
  - rewrite <- He. rewrite list_lookup_total_insert_eq by (unfold zlen in *; lia).
    case_decide as Hij; [subst; apply field_get_set; (done || lia)|].
    apply field_get_set_other; try (done || lia).
    destruct (entry_disjoint (t_bits l) i j); [done|lia|lia|done|done|lia|lia].
  - rewrite list_lookup_total_insert_ne by lia. case_decide; [by subst|done].
Qed.

(** ** Refinement: a token status list is an array of statuses *)
Definition token_abs (l : TokenStatusList) : list Z := token_entry l <$> seqZ 0 (t_size l).

Lemma token_abs_lookup l i :
  0 <= i < t_size l -> token_abs l !! Z.to_nat i = Some (token_entry l i).
Proof.
  intros Hi. unfold token_abs. rewrite list_lookup_fmap, lookup_seqZ_lt by lia.
  simpl. do 2 f_equal. lia.
Qed.

Lemma token_abs_length l : length (token_abs l) = Z.to_nat (t_size l).
Proof. unfold token_abs. by rewrite length_fmap, length_seqZ. Qed.

Lemma token_abs_with_entry l i s :
  token_wf l -> 0 <= i < t_size l -> 0 <= s < 2 ^ t_bits l ->
  token_abs (token_with_entry l i s) = <[Z.to_nat i := s]> (token_abs l).
Proof.
  intros Hwf Hi Hs. apply list_eq. intros k.
  destruct (decide (k < Z.to_nat (t_size l))%nat) as [Hk|Hk].
  - rewrite <- (Nat2Z.id k). rewrite token_abs_lookup by (simpl; lia).
    rewrite token_entry_with_entry by (done || lia).
    destruct (decide (i = Z.of_nat k)) as [->|Hne].
    + rewrite list_lookup_insert_eq; [done|]. rewrite token_abs_length. lia.
    + rewrite list_lookup_insert_ne by lia. by rewrite token_abs_lookup by lia.
  - rewrite !lookup_ge_None_2; [done| |]; rewrite ?length_insert, !token_abs_length; simpl; lia.
Qed.

(** The operations a client calls, on the implementation and on the array. *)
Inductive token_op :=
| TGet (i : Z)
| TSet (i s : Z)
| TIsRevoked (i : Z)
| TRevoke (i : Z)
| TReinstate (i : Z).

Inductive token_out :=
| OUnit
| OStatus (s : Z)
| OBool (b : bool)
| OErr (e : StatusListError)
| OPanic.

Definition out_of {A} (f : A -> token_out) (r : res StatusListError A) : token_out :=
  match r with Ok a => f a | Err e => OErr e | Panic => OPanic end.

Definition updated {S} (s : S) (r : res StatusListError S) : S :=
  match r with Ok s' => s' | _ => s end.

Definition token_exec (l : TokenStatusList) (o : token_op) : TokenStatusList * token_out :=
  match o with
  | TGet i => (l, out_of OStatus (token_get l i))
  | TIsRevoked i => (l, out_of OBool (token_is_revoked l i))
  | TSet i s => (updated l (token_set l i s), out_of (const OUnit) (token_set l i s))
  | TRevoke i => (updated l (token_revoke l i), out_of (const OUnit) (token_revoke l i))
  | TReinstate i => (updated l (token_reinstate l i), out_of (const OUnit) (token_reinstate l i))
  end.

(** The specification: an array of statuses, each below [2 ^ bits]. *)
Definition array_get (a : list Z) (i : Z) (k : Z -> token_out) : token_out :=
  match a !! Z.to_nat i with
  | Some s => k s
  | None => OErr (IndexOutOfRange i (zlen a))
  end.

Definition array_set (bits : Z) (a : list Z) (i s : Z) : list Z * token_out :=
  match a !! Z.to_nat i with
  | Some _ =>
      if s <? 2 ^ bits then (<[Z.to_nat i := s]> a, OUnit)
      else (a, OErr (StatusOutOfRange s bits (2 ^ bits - 1)))
  | None => (a, OErr (IndexOutOfRange i (zlen a)))
  end.

Definition array_exec (bits : Z) (a : list Z) (o : token_op) : list Z * token_out :=
  match o with
  | TGet i => (a, array_get a i OStatus)
  | TIsRevoked i => (a, array_get a i (fun s => OBool (negb (s =? 0))))
  | TSet i s => array_set bits a i s
  | TRevoke i => array_set bits a i 1
  | TReinstate i => array_set bits a i 0
  end.

(** Arguments in the range of their Rust types. *)
Definition token_op_ok (o : token_op) : Prop :=
  match o with
  | TGet i | TIsRevoked i | TRevoke i | TReinstate i => 0 <= i
  | TSet i s => 0 <= i /\ 0 <= s < 256
  end.

Lemma token_abs_lookup_ge l i :
  0 <= t_size l -> t_size l <= i -> token_abs l !! Z.to_nat i = None.
Proof. intros. apply lookup_ge_None_2. rewrite token_abs_length. lia. Qed.

Lemma token_abs_zlen l : 0 <= t_size l -> zlen (token_abs l) = t_size l.
Proof. intros. unfold zlen. rewrite token_abs_length. lia. Qed.

Lemma token_get_sim l i k :
  token_wf l -> 0 <= i -> out_of k (token_get l i) = array_get (token_abs l) i k.
Proof.
  intros Hwf Hi. rewrite token_get_closed by done. unfold array_get.
  assert (0 <= t_size l) by apply Hwf.
  destruct (Z.ltb_spec i (t_size l)).
  - by rewrite token_abs_lookup by lia.
  - by rewrite token_abs_lookup_ge, token_abs_zlen by lia.
Qed.

Lemma token_set_sim l i s :
  token_wf l -> 0 <= i -> 0 <= s ->
  let l' := updated l (token_set l i s) in
  token_wf l' /\ t_bits l' = t_bits l /\
  (token_abs l', out_of (const OUnit) (token_set l i s)) = array_set (t_bits l) (token_abs l) i s.
Proof.
  intros Hwf Hi Hs. rewrite token_set_closed by done. unfold array_set.
  assert (0 <= t_size l) by apply Hwf.
  destruct (Z.ltb_spec i (t_size l)).
  - rewrite token_abs_lookup by lia. destruct (Z.ltb_spec s (2 ^ t_bits l)); simpl.
    + split; [apply token_with_entry_wf; (done || lia)|]. split; [done|].
      by rewrite token_abs_with_entry by (done || lia).
    + by rewrite Z.ones_equiv, <- Z.sub_1_r.
  - simpl. by rewrite token_abs_lookup_ge, token_abs_zlen by lia.
Qed.

Lemma token_exec_sim l o :
  token_wf l -> token_op_ok o ->
  let r := token_exec l o in
  token_wf r.1 /\ t_bits r.1 = t_bits l /\ (token_abs r.1, r.2) = array_exec (t_bits l) (token_abs l) o.
Proof.
  intros Hwf Ho. destruct o as [i|i s|i|i|i]; simpl in Ho |- *;
    unfold token_revoke, token_reinstate; try (apply token_set_sim; (done || lia)).
  - by rewrite token_get_sim.
  - split; [done|]. split; [done|]. f_equal. rewrite <- (token_get_sim l i) by done.
    unfold token_is_revoked. by destruct (token_get l i).
Qed.

(** C1: a token status list behaves as an array of statuses.  From any
    well-formed list, every sequence of [get], [set], [is_revoked], [revoke]
    and [reinstate] calls returns exactly what the same calls return on the
    plain array of its entries, errors included; in particular no call
    panics. *)
Theorem token_refines_array (ops : list token_op) (l : TokenStatusList) :
  token_wf l -> Forall token_op_ok ops ->
  run token_exec l ops = run (array_exec (t_bits l)) (token_abs l) ops.
Proof.
  intros Hwf Hok.
  apply (run_simulation (fun l1 a => token_wf l1 /\ t_bits l1 = t_bits l /\ a = token_abs l1) token_op_ok);
    [|done|done].
  intros l1 a o (Hwf1 & Hb1 & ->) Ho. destruct (token_exec_sim l1 o Hwf1 Ho) as (? & ? & Heq).
  rewrite <- Hb1, <- Heq. simpl. split; [done|]. split; [done|]. by split; [congruence|].
Qed.

(** The invariant is established by the constructors. *)
Lemma token_from_bytes_wf data size bits l :
  0 <= size -> bytes_ok data -> token_from_bytes data size bits = Ok l -> token_wf l.
Proof.
  unfold token_from_bytes. intros Hs Hd H. res_inv. breflect.
  rewrite validate_size_Ok in *. rewrite validate_bits_Ok in *.
  repeat split; simpl; (done || lia).
Qed.

Lemma token_new_wf size bits l : 0 <= size -> token_new size bits = Ok l -> token_wf l.
Proof.
  unfold token_new. intros Hs H. res_inv.
  rewrite validate_size_Ok in *. rewrite validate_bits_Ok in *.
  repeat split; simpl; try (done || lia).
  - by apply Forall_replicate.
  - rewrite zlen_replicate, Z2Nat.id; [done|]. unfold token_byte_len, div_ceil.
    match goal with H : bits_ok _ |- _ => apply bits_ok_per_byte in H end. apply Z.div_pos; lia.
Qed.

(** a new token status list is an array of [size] zero statuses, for
    every size up to the limit and every width of 1, 2, 4 or 8 bits; any other
    width or a larger size is refused with the documented error. *)
Theorem token_new_spec (size bits : Z) :
  0 <= size ->
  match token_new size bits with
  | Ok l => token_wf l /\ token_abs l = replicate (Z.to_nat size) 0 /\
            size <= MAX_STATUS_LIST_ENTRIES /\ bits_ok bits
  | Err (SizeLimit s m) => s = size /\ m = MAX_STATUS_LIST_ENTRIES /\ MAX_STATUS_LIST_ENTRIES < size
  | Err InvalidBits => ~ bits_ok bits /\ size <= MAX_STATUS_LIST_ENTRIES
  | _ => False
  end.
Proof.
  intros Hs. destruct (token_new size bits) as [l|e|] eqn:E.
  - pose proof (token_new_wf _ _ _ Hs E) as Hwf. split; [done|].
    unfold token_new in E. res_inv. rewrite validate_size_Ok in *. rewrite validate_bits_Ok in *.
    split; [|done]. apply list_eq_same_length with (n := Z.to_nat size);
      [by rewrite length_replicate|by rewrite token_abs_length|].
    intros i a b Hi Ha Hb. rewrite <- (Nat2Z.id i) in Ha. rewrite token_abs_lookup in Ha by (simpl; lia).
    apply lookup_replicate in Hb as [-> _]. injection Ha as <-.
    unfold token_entry; simpl. rewrite list_lookup_total_alt, lookup_replicate_2.
    + simpl. unfold field_get. by rewrite Z.shiftr_0_l, Z.land_0_l.
    + pose proof (entry_byte_bound bits size (Z.of_nat i)). pose proof (entry_layout bits (Z.of_nat i)).
      intuition lia.
  - unfold token_new in E.
    destruct (validate_size size) as [[]|e'|] eqn:E1; simpl in E;
      [|unfold validate_size, ensure in E1; case_match; simplify_eq; breflect; done
       |unfold validate_size, ensure in E1; by case_match].
    rewrite validate_size_Ok in E1.
    destruct (validate_bits bits) as [[]|e'|] eqn:E2; simpl in E; [done| |];
      unfold validate_bits, ensure in E2; case_match eqn:Hb; simplify_eq.
    split; [|done]. rewrite <- (validate_bits_Ok bits tt). unfold validate_bits. by rewrite Hb.
  - unfold token_new, validate_size, validate_bits, ensure in E. repeat case_match; done.
Qed.

(** ** Bitstring status lists *)

(** Bit [i] of a byte string, most significant bit of each byte first. *)
Definition msb_bit (data : list Z) (i : Z) : bool :=
  Z.testbit (data !!! Z.to_nat (i / 8)) (7 - i mod 8).

Definition bitstring_with_bit (l : BitstringStatusList) (i : Z) (r : bool) : BitstringStatusList :=
  let k := Z.to_nat (i / 8) in
  mkBitstring (<[k := field_set (b_data l !!! k) (7 - i mod 8) 1 (Z.b2z r)]> (b_data l)) (b_size l).

Lemma land_one_bit b sh : 0 <= sh -> (Z.land (Z.shiftr b sh) 1 =? 1) = Z.testbit b sh.
Proof.
  intros Hsh. change (Z.land (Z.shiftr b sh) 1) with (Z.land (Z.shiftr b sh) (Z.ones 1)).
  rewrite Z.land_ones by lia. change (2 ^ 1) with 2.
  rewrite <- Z.bit0_mod, Z.shiftr_spec, Z.add_0_l by lia. by destruct (Z.testbit b sh).
Qed.

Lemma bitstring_byte_in_range l i :
  bitstring_wf l -> 0 <= i < b_size l ->
  0 <= i / 8 < zlen (b_data l) /\ byte_ok (b_data l !!! Z.to_nat (i / 8)).
Proof.
  intros (Hs & Hd & Hl) Hi.
  assert (Hr : 0 <= i / 8 < zlen (b_data l)).
  { rewrite Hl. split; [apply Z.div_pos; lia|].
    apply (entry_byte_bound 1 (b_size l) i (or_introl eq_refl) Hi). }
  split; [done|]. eapply Forall_lookup_total_1; [exact Hd|]. unfold zlen in Hr. lia.
Qed.

Lemma bitstring_get_closed l i :
  bitstring_wf l -> 0 <= i ->
  bitstring_get l i =
    if i <? b_size l then Ok (msb_bit (b_data l) i) else Err (IndexOutOfRange i (b_size l)).
Proof.
  intros Hwf Hi. unfold bitstring_get, bitstring_validate_index.
  rewrite Z.leb_antisym, negb_involutive. pose proof (Z.mod_pos_bound i 8).
  destruct (Z.ltb_spec i (b_size l)) as [Hlt|]; [|done]; simpl.
  destruct (bitstring_byte_in_range l i) as [Hr _]; [done|lia|].
  rewrite vec_index_total by exact Hr. simpl. by rewrite land_one_bit by lia.
Qed.

Lemma bitstring_set_closed l i r :
  bitstring_wf l -> 0 <= i ->
  bitstring_set l i r =
    if i <? b_size l then Ok (bitstring_with_bit l i r) else Err (IndexOutOfRange i (b_size l)).
Proof.
  intros Hwf Hi. unfold bitstring_set, bitstring_validate_index.
  rewrite Z.leb_antisym, negb_involutive. pose proof (Z.mod_pos_bound i 8).
  destruct (Z.ltb_spec i (b_size l)) as [Hlt|]; [|done]; simpl.
  destruct (bitstring_byte_in_range l i) as [Hr Hb]; [done|lia|].
  rewrite vec_index_total by exact Hr. simpl.
  rewrite set_bit_field by (done || lia). by rewrite vec_set_in_range by exact Hr.
Qed.

Lemma bitstring_with_bit_wf l i r :
  bitstring_wf l -> 0 <= i < b_size l -> bitstring_wf (bitstring_with_bit l i r).
Proof.
  intros Hwf Hi. destruct (bitstring_byte_in_range l i Hwf Hi) as [Hr Hb].
  destruct Hwf as (Hs & Hd & Hl). pose proof (Z.mod_pos_bound i 8).
  repeat split; simpl; try (done || lia).
  - apply Forall_insert; [done|]. apply field_set_byte_ok; try (done || lia). destruct r; simpl; lia.
  - by rewrite zlen_insert.
Qed.

Lemma msb_bit_with_bit l i j r :
  bitstring_wf l -> 0 <= i < b_size l -> 0 <= j ->
  msb_bit (b_data (bitstring_with_bit l i r)) j = if decide (i = j) then r else msb_bit (b_data l) j.
Proof.
  intros Hwf Hi Hj. destruct (bitstring_byte_in_range l i Hwf Hi) as [Hr Hb].
  unfold msb_bit, bitstring_with_bit; simpl.
  pose proof (Z.mod_pos_bound i 8). pose proof (Z.mod_pos_bound j 8).
  assert (0 <= j / 8) by (apply Z.div_pos; lia).
  destruct (decide (i / 8 = j / 8)) as [He|He].
  - rewrite <- He, list_lookup_total_insert_eq by (unfold zlen in *; lia).
    rewrite field_set_bits; try (done || lia); [|destruct r; simpl; lia].
    pose proof (Z.div_mod i 8). pose proof (Z.div_mod j 8).
    case_decide as Hij.
    + subst j. replace (_ && _) with true by lia.
      replace (7 - i mod 8 - (7 - i mod 8)) with 0 by lia. by destruct r.
    + by replace (_ && _) with false by lia.
  - rewrite list_lookup_total_insert_ne by lia. by case_decide; [subst|].
Qed.

Definition bitstring_abs (l : BitstringStatusList) : list bool := msb_bit (b_data l) <$> seqZ 0 (b_size l).

Lemma bitstring_abs_length l : length (bitstring_abs l) = Z.to_nat (b_size l).
Proof. unfold bitstring_abs. by rewrite length_fmap, length_seqZ. Qed.

Lemma bitstring_abs_lookup l i :
  0 <= i < b_size l -> bitstring_abs l !! Z.to_nat i = Some (msb_bit (b_data l) i).
Proof.
  intros Hi. unfold bitstring_abs. rewrite list_lookup_fmap, lookup_seqZ_lt by lia.
  simpl. do 2 f_equal. lia.
Qed.

Lemma bitstring_abs_lookup_ge l i :
  0 <= b_size l -> b_size l <= i -> bitstring_abs l !! Z.to_nat i = None.
Proof. intros. apply lookup_ge_None_2. rewrite bitstring_abs_length. lia. Qed.

Lemma bitstring_abs_with_bit l i r :
  bitstring_wf l -> 0 <= i < b_size l ->
  bitstring_abs (bitstring_with_bit l i r) = <[Z.to_nat i := r]> (bitstring_abs l).
Proof.
  intros Hwf Hi. apply list_eq. intros k.
  destruct (decide (k < Z.to_nat (b_size l))%nat) as [Hk|Hk].
  - rewrite <- (Nat2Z.id k), bitstring_abs_lookup by (simpl; lia).
    rewrite msb_bit_with_bit by (done || lia).
    destruct (decide (i = Z.of_nat k)) as [->|Hne].
    + rewrite list_lookup_insert_eq; [done|]. rewrite bitstring_abs_length. lia.
    + rewrite list_lookup_insert_ne by lia. by rewrite bitstring_abs_lookup by lia.
  - rewrite !lookup_ge_None_2; [done| |]; rewrite ?length_insert, !bitstring_abs_length; simpl; lia.
Qed.

Inductive bitstring_op :=
| BGet (i : Z)
| BIsRevoked (i : Z)
| BSet (i : Z) (r : bool)
| BRevoke (i : Z)
| BReinstate (i : Z).

Definition bitstring_op_index (o : bitstring_op) : Z :=
  match o with BGet i | BIsRevoked i | BSet i _ | BRevoke i | BReinstate i => i end.

Definition bitstring_exec (l : BitstringStatusList) (o : bitstring_op) :
    BitstringStatusList * token_out :=
  match o with
  | BGet i => (l, out_of OBool (bitstring_get l i))
  | BIsRevoked i => (l, out_of OBool (bitstring_is_revoked l i))
  | BSet i r => (updated l (bitstring_set l i r), out_of (const OUnit) (bitstring_set l i r))
  | BRevoke i => (updated l (bitstring_revoke l i), out_of (const OUnit) (bitstring_revoke l i))
  | BReinstate i =>
      (updated l (bitstring_reinstate l i), out_of (const OUnit) (bitstring_reinstate l i))
  end.

(** The specification: an array of revocation flags. *)
Definition flags_exec (a : list bool) (o : bitstring_op) : list bool * token_out :=
  let i := bitstring_op_index o in
  match a !! Z.to_nat i with
  | None => (a, OErr (IndexOutOfRange i (zlen a)))
  | Some b =>
      match o with
      | BGet _ | BIsRevoked _ => (a, OBool b)
      | BSet _ r => (<[Z.to_nat i := r]> a, OUnit)
      | BRevoke _ => (<[Z.to_nat i := true]> a, OUnit)
      | BReinstate _ => (<[Z.to_nat i := false]> a, OUnit)
      end
  end.

Lemma bitstring_exec_sim l o :
  bitstring_wf l -> 0 <= bitstring_op_index o ->
  let r := bitstring_exec l o in
  bitstring_wf r.1 /\ b_size r.1 = b_size l /\ (bitstring_abs r.1, r.2) = flags_exec (bitstring_abs l) o.
Proof.
  intros Hwf Hi. assert (0 <= b_size l) by apply Hwf.
  assert (Hlen : zlen (bitstring_abs l) = b_size l)
    by (unfold zlen; rewrite bitstring_abs_length; lia).
  destruct o as [i|i|i r|i|i]; simpl in Hi |- *; unfold flags_exec;
    unfold bitstring_is_revoked, bitstring_revoke, bitstring_reinstate; simpl;
    rewrite ?bitstring_get_closed, ?bitstring_set_closed by done;
    (destruct (Z.ltb_spec i (b_size l));
     [rewrite bitstring_abs_lookup by lia|rewrite bitstring_abs_lookup_ge, Hlen by lia]; simpl; try done);
    (split; [apply bitstring_with_bit_wf; (done || lia)|]);
    rewrite bitstring_abs_with_bit by (done || lia); done.
Qed.

(** a bitstring status list behaves as an array of revocation flags: every
    sequence of [get], [set], [is_revoked], [revoke] and [reinstate] calls
    returns what the same calls return on the plain array, errors included,
    and no call panics. *)
Theorem bitstring_refines_flags (ops : list bitstring_op) (l : BitstringStatusList) :
  bitstring_wf l -> Forall (fun o => 0 <= bitstring_op_index o) ops ->
  run bitstring_exec l ops = run flags_exec (bitstring_abs l) ops.
Proof.
  intros Hwf Hok.
  apply (run_simulation (fun l1 a => bitstring_wf l1 /\ a = bitstring_abs l1)
           (fun o => 0 <= bitstring_op_index o)); [|done|done].
  intros l1 a o (Hwf1 & ->) Ho. destruct (bitstring_exec_sim l1 o Hwf1 Ho) as (? & ? & Heq).
  rewrite <- Heq. simpl. split; [done|]. by split.
Qed.

(** ** Counting revoked entries *)
Definition count_true (bs : list bool) : Z := foldr (fun b acc => Z.b2z b + acc) 0 bs.

Lemma count_true_app bs1 bs2 : count_true (bs1 ++ bs2) = count_true bs1 + count_true bs2.
Proof. induction bs1 as [|b bs1 IH]; simpl; [done|]. rewrite IH. lia. Qed.

Lemma count_true_all_false bs : Forall (eq false) bs -> count_true bs = 0.
Proof. induction 1 as [|? ? <-]; simpl; lia. Qed.

Lemma msb_bit_cons_low b data i : 0 <= i < 8 -> msb_bit (b :: data) i = Z.testbit b (7 - i).
Proof. intros Hi. unfold msb_bit. by rewrite Z.div_small, Z.mod_small by lia. Qed.

Lemma msb_bit_cons_high b data i : 0 <= i -> msb_bit (b :: data) (i + 8) = msb_bit data i.
Proof.
  intros Hi. unfold msb_bit. replace (i + 8) with (i + 1 * 8) by lia.
  rewrite Z.div_add, Z.mod_add by lia. pose proof (Z.div_pos i 8).
  by replace (Z.to_nat (i / 8 + 1)) with (S (Z.to_nat (i / 8))) by lia.
Qed.

Lemma count_revoked_bits data :
  foldr (fun b acc => count_ones b + acc) 0 data
  = count_true (msb_bit data <$> seqZ 0 (8 * zlen data)).
Proof.
  induction data as [|b data IH]; [done|].
  replace (8 * zlen (b :: data)) with (8 + 8 * zlen data) by (unfold zlen; simpl length; lia).
  rewrite seqZ_app, fmap_app, count_true_app by (unfold zlen; lia).
  simpl foldr. rewrite IH. f_equal.
  - change (seqZ 0 8) with [0;1;2;3;4;5;6;7]. cbn [fmap list_fmap].
    rewrite !msb_bit_cons_low by lia. unfold count_ones. cbn [foldr count_true].
    change (7 - 0) with 7. change (7 - 1) with 6. change (7 - 2) with 5. change (7 - 3) with 4.
    change (7 - 4) with 3. change (7 - 5) with 2. change (7 - 6) with 1. change (7 - 7) with 0. lia.
  - f_equal. rewrite <- (fmap_add_seqZ 8 0 (8 * zlen data) : _ = seqZ (0 + 8) _).
    rewrite <- list_fmap_compose. apply list_fmap_ext. intros k x Hx.
    apply lookup_seqZ in Hx as [-> _]. simpl.
    rewrite (Z.add_comm 8), msb_bit_cons_high by lia. done.
Qed.

(** The bits after the last entry, which no operation of the API reaches. *)
Definition padding_clear (l : BitstringStatusList) : Prop :=
  forall i, b_size l <= i < 8 * zlen (b_data l) -> msb_bit (b_data l) i = false.

Lemma bitstring_size_le_bits l : bitstring_wf l -> 0 <= b_size l <= 8 * zlen (b_data l).
Proof.
  intros (Hs & _ & ->). unfold bitstring_byte_len, div_ceil.
  pose proof (Z.div_mod (b_size l + 8 - 1) 8). pose proof (Z.mod_pos_bound (b_size l + 8 - 1) 8). lia.
Qed.

Lemma count_revoked_abs l :
  bitstring_wf l -> padding_clear l -> bitstring_count_revoked l = count_true (bitstring_abs l).
Proof.
  intros Hwf Hp. pose proof (bitstring_size_le_bits l Hwf) as Hle.
  unfold bitstring_count_revoked. rewrite count_revoked_bits.
  replace (8 * zlen (b_data l)) with (b_size l + (8 * zlen (b_data l) - b_size l)) by lia.
  rewrite seqZ_app, fmap_app, count_true_app by lia.
  rewrite (count_true_all_false (_ <$> seqZ (0 + b_size l) _)); [unfold bitstring_abs; lia|].
  apply Forall_fmap, Forall_forall. intros i Hi%elem_of_seqZ. simpl. symmetry. apply Hp. lia.
Qed.

Lemma bitstring_with_bit_padding l i r :
  bitstring_wf l -> padding_clear l -> 0 <= i < b_size l -> padding_clear (bitstring_with_bit l i r).
Proof.
  intros Hwf Hp Hi j Hj. assert (Hj' : b_size l <= j < 8 * zlen (b_data l)).
  { unfold bitstring_with_bit in Hj. simpl in Hj. by rewrite zlen_insert in Hj. }
  rewrite msb_bit_with_bit by (done || lia). case_decide; [lia|by apply Hp].
Qed.

Lemma bitstring_exec_padding l o :
  bitstring_wf l -> padding_clear l -> 0 <= bitstring_op_index o ->
  padding_clear (bitstring_exec l o).1.
Proof.
  intros Hwf Hp Hi.
  destruct o as [i|i|i r|i|i]; simpl in Hi |- *; try done;
    unfold bitstring_revoke, bitstring_reinstate; rewrite bitstring_set_closed by done;
    (destruct (Z.ltb_spec i (b_size l)); [|done]); by apply bitstring_with_bit_padding.
Qed.

Lemma bitstring_new_wf size l :
  0 <= size -> bitstring_new size = Ok l -> bitstring_wf l /\ padding_clear l /\ b_size l = size.
Proof.
  unfold bitstring_new. intros Hs H. res_inv. rewrite validate_size_Ok in *.
  repeat split; simpl; try (done || lia).
  - by apply Forall_replicate.
  - rewrite zlen_replicate, Z2Nat.id; [done|]. unfold bitstring_byte_len, div_ceil. apply Z.div_pos; lia.
  - intros i Hi. unfold msb_bit. simpl in *. rewrite zlen_replicate in Hi.
    rewrite list_lookup_total_alt, lookup_replicate_2; [apply Z.testbit_0_l|].
    pose proof (Z.div_lt_upper_bound i 8 (bitstring_byte_len size)). pose proof (Z.div_pos i 8). lia.
Qed.

(** [count_revoked] is exact on every list the API can produce from
    [new]: after any sequence of operations on a fresh list it is the number
    of entries that [get] reports as revoked. *)
Theorem count_revoked_exact (ops : list bitstring_op) (size : Z) (l : BitstringStatusList) :
  0 <= size -> bitstring_new size = Ok l -> Forall (fun o => 0 <= bitstring_op_index o) ops ->
  bitstring_count_revoked (run_state bitstring_exec l ops)
  = count_true (bitstring_abs (run_state bitstring_exec l ops)).
Proof.
  intros Hs Hnew Hok. destruct (bitstring_new_wf _ _ Hs Hnew) as (Hwf & Hp & _).
  assert (HI : bitstring_wf (run_state bitstring_exec l ops) /\
               padding_clear (run_state bitstring_exec l ops)).
  { apply (run_state_invariant (fun s => bitstring_wf s /\ padding_clear s)
             (fun o => 0 <= bitstring_op_index o)); [|done|done].
    intros s o [Hs1 Hs2] Ho. split; [by apply bitstring_exec_sim|by apply bitstring_exec_padding]. }
  destruct HI. by apply count_revoked_abs.
Qed.

(** ** Wire formats *)
Lemma take_read_to_end_bound r limit out :
  0 <= limit -> take_read_to_end r limit = inr out -> zlen out <= limit.
Proof.
  unfold take_read_to_end. intros Hl H. destruct (Z.leb_spec limit (zlen r.1)).
  - injection H as <-. rewrite zlen_take. lia.
  - destruct (r.2); [done|]. injection H as <-. lia.
Qed.

Lemma take_read_to_end_complete bs limit :
  zlen bs < limit -> take_read_to_end (bs, None) limit = inr bs.
Proof. intros H. unfold take_read_to_end; simpl. by destruct (Z.leb_spec limit (zlen bs)); [lia|]. Qed.

Lemma take_read_to_end_bytes r limit out :
  bytes_ok r.1 -> take_read_to_end r limit = inr out -> bytes_ok out.
Proof.
  unfold take_read_to_end. intros Hb H. destruct (_ <=? _).
  - injection H as <-. by apply Forall_take.
  - destruct (r.2); [done|]. by injection H as <-.
Qed.

Lemma read_exact_bounded_Ok bs expected :
  0 <= expected <= MAX_STATUS_LIST_ENTRIES -> zlen bs = expected ->
  read_exact_bounded (bs, None) expected = Ok bs.
Proof.
  unfold MAX_STATUS_LIST_ENTRIES. intros He Hl. unfold read_exact_bounded, saturating_add, u64_try_from.
  rewrite Z.min_l by (unfold usize_max; lia). destruct (Z.ltb_spec (expected + 1) (2 ^ 64)); [|lia].
  simpl. rewrite take_read_to_end_complete by lia. simpl. by rewrite Hl, Z.eqb_refl.
Qed.

Lemma read_exact_bounded_sound r expected out :
  bytes_ok r.1 -> read_exact_bounded r expected = Ok out -> bytes_ok out /\ zlen out = expected.
Proof.
  unfold read_exact_bounded, compression_error. intros Hb H. res_inv. case_match; [done|]. res_inv.
  breflect. split; [|done]. by eapply take_read_to_end_bytes.
Qed.

Lemma read_exact_bounded_no_panic r expected : no_panic (read_exact_bounded r expected).
Proof.
  unfold read_exact_bounded, compression_error. solve_no_panic.
Qed.
#[export] Hint Resolve read_exact_bounded_no_panic : marty.

Lemma div_ceil_le_mono a b k : 0 < k -> a <= b -> div_ceil a k <= div_ceil b k.
Proof. intros. unfold div_ceil. apply Z.div_le_mono; lia. Qed.

Lemma div_ceil_nonneg a k : 0 < k -> 0 <= a -> 0 <= div_ceil a k.
Proof. intros. unfold div_ceil. apply Z.div_pos; lia. Qed.

Lemma div_ceil_le_self a k : 1 <= k -> 0 <= a -> div_ceil a k <= a.
Proof.
  intros Hk Ha. unfold div_ceil. destruct (Z.eq_dec a 0) as [->|Hne].
  - rewrite Z.div_small; lia.
  - apply Z.div_le_upper_bound; [lia|]. nia.
Qed.

Lemma validate_encoded_len_Ok n len c :
  0 <= n <= MAX_STATUS_LIST_ENTRIES -> 0 <= c <= 2 * n + 1024 -> len <= div_ceil c 3 * 4 ->
  validate_encoded_len len n = Ok tt.
Proof.
  unfold MAX_STATUS_LIST_ENTRIES. intros Hn Hc Hlen. unfold validate_encoded_len. apply ensure_Ok.
  unfold saturating_add, saturating_mul.
  rewrite (Z.min_l (n * 2)), (Z.min_l (n * 2 + 1024)) by (unfold usize_max; lia).
  pose proof (div_ceil_le_mono c (n * 2 + 1024) 3).
  pose proof (div_ceil_le_self (n * 2 + 1024) 3).
  rewrite Z.min_l by (unfold usize_max; lia). apply negb_true_iff, Z.ltb_ge. lia.
Qed.

Lemma token_byte_len_bound size bits :
  bits_ok bits -> 0 <= size <= MAX_STATUS_LIST_ENTRIES ->
  0 <= token_byte_len size bits <= MAX_STATUS_LIST_ENTRIES.
Proof.
  intros Hb%bits_ok_per_byte Hs. unfold token_byte_len.
  pose proof (div_ceil_nonneg size (8 / bits)). pose proof (div_ceil_le_self size (8 / bits)). lia.
Qed.

Section WireFacts.
Context (zlib gzip : Compressor) {Hz : CompressorLaws zlib} {Hg : CompressorLaws gzip}.
Context {b64 : Base64Url} {Hb64 : Base64Laws b64}.

Lemma decode_encoded c : bytes_ok c -> decode_base64 (b64_encode c) = Ok c.
Proof. intros. unfold decode_base64. by rewrite b64_decode_encode. Qed.

Lemma token_from_bytes_self l : token_wf l -> token_from_bytes (t_data l) (t_size l) (t_bits l) = Ok l.
Proof.
  intros (Hb & Hs & Hd & Hl). unfold token_from_bytes.
  rewrite (proj2 (validate_size_Ok _ tt)), (proj2 (validate_bits_Ok _ tt)) by (done || lia). simpl.
  rewrite Hl, Z.eqb_refl. by destruct l.
Qed.

(** the IETF wire format round-trips: encoding any well-formed token
    status list succeeds, and decoding the result with its size and width
    returns the same list.  The hypotheses are the documented behaviour of
    [flate2] (decompression inverts compression, bounded expansion) and
    [base64]. *)
Theorem token_base64url_roundtrip (l : TokenStatusList) :
  token_wf l ->
  exists s, token_to_base64url zlib l = Ok s /\
            token_from_base64url zlib s (t_size l) (t_bits l) = Ok l.
Proof.
  intros Hwf. pose proof Hwf as (Hb & Hs & Hd & Hl).
  destruct (compress_decompress (C:=zlib) (t_data l) Hd) as (c & Hc & Hdec).
  exists (b64_encode c). unfold token_to_base64url, token_compress. rewrite Hc. split; [done|].
  pose proof (compress_expansion (C:=zlib) _ _ Hc). pose proof (compress_bytes_ok (C:=zlib) _ _ Hd Hc).
  pose proof (b64_encode_length (B:=b64) c). pose proof (token_byte_len_bound _ _ Hb Hs).
  unfold token_from_base64url.
  rewrite (proj2 (validate_size_Ok _ tt)), (proj2 (validate_bits_Ok _ tt)) by (done || lia). simpl.
  rewrite (validate_encoded_len_Ok _ _ (zlen c))
    by (rewrite <- ?Hl; unfold str_len; pose proof (zlen_nonneg c); (done || lia)). simpl.
  rewrite decode_encoded by done. simpl. unfold token_from_compressed.
  rewrite (proj2 (validate_size_Ok _ tt)), (proj2 (validate_bits_Ok _ tt)) by (done || lia). simpl.
  rewrite Hdec, read_exact_bounded_Ok by (done || lia). simpl. by apply token_from_bytes_self.
Qed.

(** decoding untrusted text is safe: for every string, size and width,
    [from_base64url] does not panic, and when it succeeds the list is
    well-formed with exactly the advertised size and width. *)
Theorem token_from_base64url_safe (s : string) (size bits : Z) :
  0 <= size ->
  no_panic (token_from_base64url zlib s size bits) /\
  forall l, token_from_base64url zlib s size bits = Ok l ->
    token_wf l /\ t_size l = size /\ t_bits l = bits.
Proof.
  intros Hs. split.
  - unfold token_from_base64url, token_from_compressed, token_from_bytes, validate_size, validate_bits,
      validate_encoded_len, decode_base64.
    solve_no_panic.
  - intros l H. unfold token_from_base64url, token_from_compressed in H. res_inv.
    match goal with Hr : read_exact_bounded _ _ = Ok _ |- _ =>
      apply read_exact_bounded_sound in Hr as [? ?]; [|apply decompress_bytes_ok] end.
    split; [by eapply token_from_bytes_wf|]. unfold token_from_bytes in *. res_inv. done.
Qed.

Lemma bitstring_byte_len_bound size :
  0 <= size <= MAX_STATUS_LIST_ENTRIES ->
  0 <= bitstring_byte_len size <= bitstring_byte_len MAX_STATUS_LIST_ENTRIES.
Proof.
  intros Hs. split; [apply div_ceil_nonneg; lia|]. apply div_ceil_le_mono; lia.
Qed.

Lemma bitstring_from_bytes_self l :
  bitstring_wf l -> bitstring_from_bytes (b_data l) (b_size l) = Ok l.
Proof.
  intros (Hs & Hd & Hl). unfold bitstring_from_bytes.
  rewrite (proj2 (validate_size_Ok _ tt)) by lia. simpl. rewrite Hl, Z.eqb_refl. by destruct l.
Qed.

(** Encoding succeeds with a payload within the length bound of any decoder
    that expects at least as many bytes. *)
Lemma bitstring_encoded l :
  bitstring_wf l ->
  exists c, bitstring_to_base64url gzip l = Ok (String "u" (b64_encode c)) /\
    bytes_ok c /\ decompress_stream (Compressor:=gzip) c = (b_data l, None) /\
    forall n, zlen (b_data l) <= n <= MAX_STATUS_LIST_ENTRIES ->
      validate_encoded_len (str_len (b64_encode c)) n = Ok tt.
Proof.
  intros (Hs & Hd & Hl). destruct (compress_decompress (C:=gzip) (b_data l) Hd) as (c & Hc & Hdec).
  exists c. unfold bitstring_to_base64url, bitstring_compress. rewrite Hc. split; [done|].
  split; [by eapply (compress_bytes_ok (C:=gzip))|]. split; [done|]. intros n Hn.
  pose proof (compress_expansion (C:=gzip) _ _ Hc). pose proof (zlen_nonneg c).
  pose proof (zlen_nonneg (b_data l)). pose proof (b64_encode_length (B:=b64) c).
  apply (validate_encoded_len_Ok n _ (zlen c)); lia || done.
Qed.

(** the W3C wire format round-trips when the entry count is known. *)
Theorem bitstring_base64url_roundtrip (l : BitstringStatusList) :
  bitstring_wf l ->
  exists s, bitstring_to_base64url gzip l = Ok s /\
            bitstring_from_base64url gzip s (b_size l) = Ok l.
Proof.
  intros Hwf. pose proof Hwf as (Hs & Hd & Hl).
  destruct (bitstring_encoded l Hwf) as (c & Henc & Hc & Hdec & Hlen).
  exists (String "u" (b64_encode c)). split; [done|].
  pose proof (bitstring_byte_len_bound (b_size l) Hs).
  assert (bitstring_byte_len MAX_STATUS_LIST_ENTRIES <= MAX_STATUS_LIST_ENTRIES) by (vm_compute; done).
  unfold bitstring_from_base64url. rewrite (proj2 (validate_size_Ok _ tt)) by lia. simpl.
  rewrite Hlen by lia. simpl. rewrite decode_encoded by done. simpl.
  unfold bitstring_from_compressed. rewrite (proj2 (validate_size_Ok _ tt)) by lia. simpl.
  rewrite Hdec, read_exact_bounded_Ok by lia. simpl. by apply bitstring_from_bytes_self.
Qed.

(** the W3C decoder that derives the entry count recovers every list of
    at least 131072 entries up to byte rounding: the bytes are the same, the
    count is the number of encoded bits, and every entry of the original list
    reads back unchanged. *)
Theorem bitstring_bounded_roundtrip (l : BitstringStatusList) :
  bitstring_wf l -> W3C_MIN_STATUS_LIST_BITS <= b_size l ->
  exists s l', bitstring_to_base64url gzip l = Ok s /\
    bitstring_from_base64url_bounded gzip s = Ok l' /\
    l' = mkBitstring (b_data l) (8 * zlen (b_data l)) /\
    forall i, 0 <= i < b_size l -> bitstring_get l' i = bitstring_get l i.
Proof.
  intros Hwf Hfloor. pose proof Hwf as (Hs & Hd & Hl).
  destruct (bitstring_encoded l Hwf) as (c & Henc & Hc & Hdec & Hlen).
  pose proof (bitstring_byte_len_bound (b_size l) Hs). pose proof (bitstring_size_le_bits l Hwf).
  assert (Hmax : bitstring_byte_len MAX_STATUS_LIST_ENTRIES = 2097152) by done.
  unfold MAX_STATUS_LIST_ENTRIES, W3C_MIN_STATUS_LIST_BITS in *.
  assert (Hwf' : bitstring_wf (mkBitstring (b_data l) (8 * zlen (b_data l)))).
  { repeat split; simpl; try done; unfold MAX_STATUS_LIST_ENTRIES; try lia.
    unfold bitstring_byte_len, div_ceil. apply Z.div_unique with (r := 7); lia. }
  exists (String "u" (b64_encode c)), (mkBitstring (b_data l) (8 * zlen (b_data l))).
  split; [done|]. split; [|split; [done|]].
  - unfold bitstring_from_base64url_bounded. simpl. unfold MAX_STATUS_LIST_ENTRIES in *. rewrite Hmax.
    rewrite Hlen by lia. simpl. rewrite decode_encoded by done. simpl.
    rewrite Hdec, take_read_to_end_complete by (vm_compute (saturating_add _ _); lia). simpl.
    destruct (Z.ltb_spec 2097152 (zlen (b_data l))); [lia|]. simpl.
    unfold saturating_mul. rewrite Z.min_l by (unfold usize_max; lia). rewrite Z.mul_comm.
    unfold W3C_MIN_STATUS_LIST_BITS. destruct (Z.ltb_spec (8 * zlen (b_data l)) 131072); [lia|]. simpl.
    apply (bitstring_from_bytes_self (mkBitstring _ _) Hwf').
  - intros i Hi. rewrite !bitstring_get_closed by (done || lia). simpl.
    destruct (Z.ltb_spec i (b_size l)), (Z.ltb_spec i (8 * zlen (b_data l))); done || lia.
Qed.

Lemma bitstring_from_base64url_bounded_no_panic s :
  no_panic (bitstring_from_base64url_bounded gzip s).
Proof.
  unfold bitstring_from_base64url_bounded, bitstring_from_bytes, validate_size,
    validate_encoded_len, decode_base64, compression_error.
  solve_no_panic.
Qed.

(** C40: decoding an untrusted [encodedList] is bounded and safe: the decoder
    never panics, and a list it accepts is well-formed, holds a whole number
    of bytes, and has between 131072 and 16777216 entries whatever the GZIP
    payload expands to. *)
Theorem bitstring_bounded_decode_safe (s : string) :
  no_panic (bitstring_from_base64url_bounded gzip s) /\
  forall l, bitstring_from_base64url_bounded gzip s = Ok l ->
    bitstring_wf l /\ b_size l = 8 * zlen (b_data l) /\
    W3C_MIN_STATUS_LIST_BITS <= b_size l <= MAX_STATUS_LIST_ENTRIES.
Proof.
  split; [apply bitstring_from_base64url_bounded_no_panic|].
  intros l H. unfold bitstring_from_base64url_bounded in H. res_inv. breflect.
  change (bitstring_byte_len MAX_STATUS_LIST_ENTRIES) with 2097152 in *.
  unfold compression_error in *. case_match; [done|]. res_inv.
  match goal with Hr : take_read_to_end _ _ = inr ?out |- _ =>
    pose proof (take_read_to_end_bytes _ _ _ (decompress_bytes_ok (C:=gzip) _) Hr) as Hbytes;
    pose proof (zlen_nonneg out) end.
  unfold bitstring_from_bytes in *. res_inv. breflect. rewrite validate_size_Ok in *. simpl in *.
  unfold saturating_mul in *. rewrite Z.min_l in * by (unfold usize_max; lia).
  repeat split; simpl; try done; lia.
Qed.
End WireFacts.

(** ** The hypotheses are satisfiable

    Stored (uncompressed) streams and byte-per-character text satisfy the laws
    of [Compressor] and [Base64Url]; the witnesses below run on them. *)
#[export] Instance stored_compressor : Compressor := {
  compress_bytes bs := inr bs;
  decompress_stream c := (wrap 8 <$> c, None);
}.

Lemma wrap8_id bs : bytes_ok bs -> wrap 8 <$> bs = bs.
Proof.
  induction 1 as [|b bs Hb _ IH]; [done|]. rewrite fmap_cons, IH. f_equal. apply Z.mod_small, Hb.
Qed.

#[export] Instance stored_compressor_laws : CompressorLaws stored_compressor.
Proof.
  split.
  - intros bs Hb. exists bs. split; [done|].
    change ((wrap 8 <$> bs, None) = (bs, None : option string)). by rewrite wrap8_id.
  - intros bs c [= <-]. pose proof (zlen_nonneg bs). lia.
  - by intros bs c Hb [= <-].
  - intros c. apply Forall_fmap, Forall_true. intros b. apply wrap8_byte_ok.
Qed.

Fixpoint text_of_bytes (bs : list Z) : string :=
  match bs with
  | [] => EmptyString
  | b :: bs => String (ascii_of_N (Z.to_N b)) (text_of_bytes bs)
  end.

Fixpoint bytes_of_text (s : string) : list Z :=
  match s with
  | EmptyString => []
  | String c s => Z.of_N (N_of_ascii c) :: bytes_of_text s
  end.

Lemma bytes_of_text_of_bytes bs : bytes_ok bs -> bytes_of_text (text_of_bytes bs) = bs.
Proof.
  induction 1 as [|b bs Hb _ IH]; simpl; [done|]. rewrite IH. f_equal. destruct Hb.
  rewrite N_ascii_embedding by lia. lia.
Qed.

Lemma text_of_bytes_length bs : String.length (text_of_bytes bs) = length bs.
Proof. induction bs; simpl; congruence. Qed.

#[export] Instance plain_text : Base64Url := {
  b64_encode := text_of_bytes;
  b64_decode s := inr (bytes_of_text s);
}.

#[export] Instance plain_text_laws : Base64Laws plain_text.
Proof.
  split.
  - intros bs Hb. simpl. by rewrite bytes_of_text_of_bytes.
  - intros bs. simpl. rewrite text_of_bytes_length. unfold div_ceil, zlen.
    pose proof (Z.div_mod (Z.of_nat (length bs) + 3 - 1) 3).
    pose proof (Z.mod_pos_bound (Z.of_nat (length bs) + 3 - 1) 3). lia.
Qed.

(** ** Witnesses *)

(** Four two-bit entries packed least significant bits first. *)
Definition sample_token : TokenStatusList := mkToken 2 [201] 4.

Lemma sample_token_wf : token_wf sample_token.
Proof.
  split; [by right; left|]. split; [by split|]. split; [|done].
  by apply Forall_singleton.
Qed.

Definition sample_bitstring : BitstringStatusList := mkBitstring [64; 128] 12.

Lemma sample_bitstring_wf : bitstring_wf sample_bitstring.
Proof. split; [by split|]. split; [|done]. by repeat constructor. Qed.

Definition floor_bitstring : BitstringStatusList :=
  mkBitstring (replicate 16384 1) W3C_MIN_STATUS_LIST_BITS.

Lemma floor_bitstring_wf : bitstring_wf floor_bitstring.
Proof.
  split; [by split|]. split; [|by vm_compute].
  apply Forall_replicate. by split.
Qed.

Lemma token_refines_array_witness :
  run token_exec sample_token [TGet 0; TGet 1; TSet 3 1; TGet 3; TSet 2 7; TIsRevoked 9]
  = [OStatus 1; OStatus 2; OUnit; OStatus 1; OErr (StatusOutOfRange 7 2 3); OErr (IndexOutOfRange 9 4)].
Proof.
  rewrite (token_refines_array _ sample_token sample_token_wf); [reflexivity|].
  repeat constructor; simpl; lia.
Defined.

Lemma token_new_spec_witness : 0 <= 10 /\ exists l, token_new 10 4 = Ok l /\ token_abs l = replicate 10 0.
Proof.
  split; [lia|]. pose proof (token_new_spec 10 4 ltac:(lia)) as H.
  exists (mkToken 4 (replicate 5 0) 10). split; [reflexivity|]. apply H.
Defined.

Lemma bitstring_refines_flags_witness :
  run bitstring_exec sample_bitstring [BGet 1; BIsRevoked 8; BRevoke 11; BGet 11; BReinstate 1; BGet 1; BGet 12]
  = [OBool true; OBool true; OUnit; OBool true; OUnit; OBool false; OErr (IndexOutOfRange 12 12)].
Proof.
  rewrite (bitstring_refines_flags _ sample_bitstring sample_bitstring_wf); [reflexivity|].
  repeat constructor; simpl; lia.
Defined.

Lemma count_revoked_exact_witness :
  bitstring_count_revoked
    (run_state bitstring_exec (mkBitstring [0; 0] 12) [BRevoke 3; BRevoke 11; BReinstate 3; BRevoke 0]) = 2.
Proof.
  rewrite (count_revoked_exact _ 12 (mkBitstring [0; 0] 12)); [reflexivity|lia|reflexivity|].
  repeat constructor; simpl; lia.
Defined.

Lemma token_base64url_roundtrip_witness :
  token_wf sample_token /\
  exists s, token_to_base64url stored_compressor sample_token = Ok s /\
            token_from_base64url stored_compressor s 4 2 = Ok sample_token.
Proof.
  split; [apply sample_token_wf|].
  apply (token_base64url_roundtrip stored_compressor sample_token sample_token_wf).
Defined.

Lemma token_from_base64url_safe_witness :
  0 <= 9 /\ no_panic (token_from_base64url stored_compressor "AB" 9 1).
Proof. split; [lia|]. apply (token_from_base64url_safe stored_compressor "AB" 9 1); lia. Defined.

Lemma bitstring_base64url_roundtrip_witness :
  bitstring_wf sample_bitstring /\
  exists s, bitstring_to_base64url stored_compressor sample_bitstring = Ok s /\
            bitstring_from_base64url stored_compressor s 12 = Ok sample_bitstring.
Proof.
  split; [apply sample_bitstring_wf|].
  apply (bitstring_base64url_roundtrip stored_compressor sample_bitstring sample_bitstring_wf).
Defined.

Lemma bitstring_bounded_roundtrip_witness :
  bitstring_wf floor_bitstring /\
  exists s l', bitstring_to_base64url stored_compressor floor_bitstring = Ok s /\
    bitstring_from_base64url_bounded stored_compressor s = Ok l' /\
    l' = mkBitstring (b_data floor_bitstring) (8 * zlen (b_data floor_bitstring)) /\
    forall i, 0 <= i < b_size floor_bitstring -> bitstring_get l' i = bitstring_get floor_bitstring i.
Proof.
  split; [apply floor_bitstring_wf|].
  apply (bitstring_bounded_roundtrip stored_compressor floor_bitstring floor_bitstring_wf).
  by vm_compute.
Defined.

(** The text of the smallest list that W3C allows, with one entry of every byte
    revoked. *)
Definition floor_text : string :=
  match bitstring_to_base64url stored_compressor floor_bitstring with Ok s => s | _ => "" end.

Lemma bitstring_bounded_decode_safe_witness :
  exists l, bitstring_from_base64url_bounded stored_compressor floor_text = Ok l /\
    b_data l = b_data floor_bitstring /\
    bitstring_wf l /\ b_size l = 8 * zlen (b_data l) /\ 131072 <= b_size l <= 16777216.
Proof.
  destruct (bitstring_bounded_roundtrip stored_compressor floor_bitstring floor_bitstring_wf)
    as (s & l & Hs & Hl & Hdata & _); [by vm_compute|].
  assert (floor_text = s) as -> by (unfold floor_text; by rewrite Hs).
  exists l. split; [exact Hl|]. split; [by rewrite Hdata|].
  apply (bitstring_bounded_decode_safe stored_compressor s). exact Hl.
Defined.

(** Padding bits are outside the API's view but inside [count_revoked]'s: a
    list decoded from bytes with padding bits set reports more revoked entries
    than it has entries. *)
Example count_revoked_counts_padding :
  exists l, bitstring_from_bytes [255] 1 = Ok l /\ bitstring_len l = 1 /\
            bitstring_count_revoked l = 8.
Proof. by exists (mkBitstring [255] 1). Qed.
