(* ===== verification/Flow.v ===== *)
(** * Flow lifecycle and flow graphs (marty-verification, [flow.rs])

    The lifecycle state machine of a flow instance and the validation of a
    flow graph: bounded, deterministic, every step reachable from the entry,
    acyclic.  Strings are byte strings, as Rust's [str] is; [HashSet] and
    [HashMap] are [gset] and [gmap].  The order in which a [HashMap] is
    iterated is not specified by Rust: [hash_order] is that order, a
    parameter.  A loop of the source runs on fuel and yields [Panic] when the
    fuel is used up, so the absence of panics includes termination. *)

From S2P Require Import Prelude.

(** [src/marty-verification/src/flow.rs:11-11] MAX_STEPS *)
Definition MAX_STEPS : nat := 1024.

(** [src/marty-verification/src/flow.rs:12-12] MAX_TRANSITIONS *)
Definition MAX_TRANSITIONS : nat := Z.to_nat 8192.

(** [src/marty-verification/src/flow.rs:13-13] MAX_STEP_ID_BYTES *)
Definition MAX_STEP_ID_BYTES : nat := 128.

(** [src/marty-verification/src/flow.rs:33-46] FlowInstanceStatus *)
Inductive FlowInstanceStatus :=
| Created | Pending | InProgress | AwaitingWallet | AwaitingApproval
| AwaitingEvidence | Completed | Failed | Cancelled | Expired.

(** [src/marty-verification/src/flow.rs:150-164] TransitionOutcome *)
Inductive TransitionOutcome :=
| Success | Failure | Timeout | UserCancel | ApprovalGranted | ApprovalDenied
| ConditionMet | Always | QrScanned | TokenExchanged | CredentialIssued.

#[export] Instance FlowInstanceStatus_eq_dec : EqDecision FlowInstanceStatus.
Proof. solve_decision. Defined.

#[export] Instance TransitionOutcome_eq_dec : EqDecision TransitionOutcome.
Proof. solve_decision. Defined.

Definition outcome_code (o : TransitionOutcome) : nat :=
  match o with
  | Success => 0 | Failure => 1 | Timeout => 2 | UserCancel => 3 | ApprovalGranted => 4
  | ApprovalDenied => 5 | ConditionMet => 6 | Always => 7 | QrScanned => 8
  | TokenExchanged => 9 | CredentialIssued => 10
  end.

Definition outcome_of_code (n : nat) : option TransitionOutcome :=
  [Success; Failure; Timeout; UserCancel; ApprovalGranted; ApprovalDenied;
   ConditionMet; Always; QrScanned; TokenExchanged; CredentialIssued] !! n.

#[export] Instance TransitionOutcome_countable : Countable TransitionOutcome.
Proof. apply (inj_countable outcome_code outcome_of_code). by intros []. Defined.

(** [src/marty-verification/src/flow.rs:15-31] FlowError *)
Inductive FlowError :=
| TransitionNotAllowed (from to : FlowInstanceStatus)
| InvalidGraph (msg : string)
| AmbiguousTransition (from_step_id : string) (outcome : TransitionOutcome)
| LimitExceeded (msg : string).

#[local] Abbreviation result := (res FlowError).

(** ** Lifecycle *)

(** [src/marty-verification/src/flow.rs:48-53] impl Display for FlowInstanceStatus *)
Definition status_name (s : FlowInstanceStatus) : string :=
  match s with
  | Created => "created" | Pending => "pending" | InProgress => "in_progress"
  | AwaitingWallet => "awaiting_wallet" | AwaitingApproval => "awaiting_approval"
  | AwaitingEvidence => "awaiting_evidence" | Completed => "completed"
  | Failed => "failed" | Cancelled => "cancelled" | Expired => "expired"
  end.

(** [src/marty-verification/src/flow.rs:166-171] impl Display for TransitionOutcome *)
Definition outcome_name (o : TransitionOutcome) : string :=
  match o with
  | Success => "success" | Failure => "failure" | Timeout => "timeout"
  | UserCancel => "user_cancel" | ApprovalGranted => "approval_granted"
  | ApprovalDenied => "approval_denied" | ConditionMet => "condition_met"
  | Always => "always" | QrScanned => "qr_scanned"
  | TokenExchanged => "token_exchanged" | CredentialIssued => "credential_issued"
  end.

(** [src/marty-verification/src/flow.rs:56-62] FlowInstanceStatus::is_terminal *)
Definition is_terminal (s : FlowInstanceStatus) : bool :=
  match s with
  | Completed | Failed | Cancelled | Expired => true
  | _ => false
  end.

(** [src/marty-verification/src/flow.rs:64-91] FlowInstanceStatus::can_transition_to *)
Definition can_transition_to (s target : FlowInstanceStatus) : bool :=
  match s, target with
  | Created, (Pending | InProgress | Cancelled)
  | Pending, (InProgress | Cancelled)
  | InProgress, (AwaitingWallet | AwaitingApproval | AwaitingEvidence
                 | Completed | Failed | Cancelled | Expired)
  | AwaitingWallet, (InProgress | Cancelled | Expired)
  | AwaitingApproval, (InProgress | Failed | Cancelled)
  | AwaitingEvidence, (InProgress | Cancelled | Expired) => true
  | _, _ => false
  end.

(** [src/marty-verification/src/flow.rs:94-103] FlowTransitionRequest *)
Record FlowTransitionRequest := mkTransitionRequest {
  tr_current : FlowInstanceStatus;
  tr_target : FlowInstanceStatus;
  tr_actor : option string;
  tr_event : option string;
}.

(** [src/marty-verification/src/flow.rs:105-114] FlowTransitionDecision *)
Record FlowTransitionDecision := mkTransitionDecision {
  td_prior_state : FlowInstanceStatus;
  td_new_state : FlowInstanceStatus;
  td_terminal : bool;
  td_no_op : bool;
  td_actor : option string;
  td_event : string;
}.

(** [src/marty-verification/src/flow.rs:116-148] evaluate_transition *)
Definition evaluate_transition (request : FlowTransitionRequest) : result FlowTransitionDecision :=
  let current := tr_current request in
  let target := tr_target request in
  let event := default (status_name current +:+ "_to_" +:+ status_name target) (tr_event request) in
  if bool_decide (current = target) then
    Ok (mkTransitionDecision current target (is_terminal target) true (tr_actor request) event)
  else if negb (can_transition_to current target) then
    Err (TransitionNotAllowed current target)
  else
    Ok (mkTransitionDecision current target (is_terminal target) false (tr_actor request) event).

(** ** Graphs *)

(** [src/marty-verification/src/flow.rs:173-177] FlowGraphStep *)
Record FlowGraphStep := mkStep { step_id : string }.

(** [src/marty-verification/src/flow.rs:179-185] FlowGraphTransition *)
Record FlowGraphTransition := mkTransition {
  from_step_id : string;
  to_step_id : string;
  outcome : TransitionOutcome;
}.

(** [src/marty-verification/src/flow.rs:187-194] FlowGraphRequest *)
Record FlowGraphRequest := mkGraph {
  entry_step_id : string;
  steps : list FlowGraphStep;
  transitions : list FlowGraphTransition;
}.

(** [src/marty-verification/src/flow.rs:196-202] FlowGraphDecision *)
Record FlowGraphDecision := mkGraphDecision {
  gd_valid : bool;
  gd_step_count : nat;
  gd_transition_count : nat;
}.

Definition in_range (lo hi c : ascii) : bool :=
  (N.leb (N_of_ascii lo) (N_of_ascii c) && N.leb (N_of_ascii c) (N_of_ascii hi))%bool.

(** [u8::is_ascii_alphanumeric]. *)
Definition is_ascii_alphanumeric (c : ascii) : bool :=
  in_range "0" "9" c || in_range "A" "Z" c || in_range "a" "z" c.

(** [str::is_ascii]. *)
Definition is_ascii (s : string) : bool :=
  forallb (fun c => N.ltb (N_of_ascii c) 128) (String.list_ascii_of_string s).

(** [src/marty-verification/src/flow.rs:204-211] valid_step_id *)
Definition valid_step_id (value : string) : bool :=
  if (String.length value =? 0)%nat || (MAX_STEP_ID_BYTES <? String.length value)%nat
     || negb (is_ascii value)
  then false
  else match String.list_ascii_of_string value with
       | [] => false
       | b :: bytes =>
           is_ascii_alphanumeric b &&
           forallb (fun c => is_ascii_alphanumeric c || bool_decide (c = "_"%char)
                             || bool_decide (c = "-"%char)) bytes
       end.

(** [src/marty-verification/src/flow.rs:236-249] validate_graph, the step loop *)
Fixpoint collect_step_ids (steps : list FlowGraphStep) (step_ids : gset string) :
    result (gset string) :=
  match steps with
  | [] => Ok step_ids
  | s :: steps =>
      _ ← ensure (valid_step_id (step_id s)) (InvalidGraph ("invalid step_id: " +:+ step_id s));
      _ ← ensure (bool_decide (step_id s ∉ step_ids)) (InvalidGraph "step_id values must be unique");
      collect_step_ids steps ({[step_id s]} ∪ step_ids)
  end.

Record GraphTables := mkTables {
  decisions : gset (string * TransitionOutcome);
  adjacency : gmap string (list string);
  indegree : gmap string nat;
}.

(** [src/marty-verification/src/flow.rs:256-266] validate_graph, the empty tables *)
Definition initial_tables (ids : list string) : GraphTables :=
  mkTables ∅ (list_to_map ((fun s => (s, [])) <$> ids)) (list_to_map ((fun s => (s, 0)) <$> ids)).

(** [src/marty-verification/src/flow.rs:268-289] validate_graph, the transition loop *)
Fixpoint build_tables (step_ids : gset string) (ts : list FlowGraphTransition) (g : GraphTables) :
    result GraphTables :=
  match ts with
  | [] => Ok g
  | t :: ts =>
      _ ← ensure (bool_decide (from_step_id t ∈ step_ids) && bool_decide (to_step_id t ∈ step_ids))
            (InvalidGraph "transitions must reference declared steps");
      _ ← ensure (bool_decide ((from_step_id t, outcome t) ∉ decisions g))
            (AmbiguousTransition (from_step_id t) (outcome t));
      out ← expect (adjacency g !! from_step_id t);
      degree ← expect (indegree g !! to_step_id t);
      build_tables step_ids ts
        (mkTables ({[(from_step_id t, outcome t)]} ∪ decisions g)
                  (<[from_step_id t := out ++ [to_step_id t]]> (adjacency g))
                  (<[to_step_id t := S degree]> (indegree g)))
  end.

(** [src/marty-verification/src/flow.rs:291-298] validate_graph, the reachability loop *)
Fixpoint reach_loop (fuel : nat) (adj : gmap string (list string))
    (reachable : gset string) (frontier : list string) : result (gset string) :=
  match frontier with
  | [] => Ok reachable
  | s :: frontier =>
      match fuel with
      | O => Panic
      | S fuel =>
          if bool_decide (s ∈ reachable) then reach_loop fuel adj reachable frontier
          else out ← expect (adj !! s);
               reach_loop fuel adj ({[s]} ∪ reachable) (frontier ++ out)
      end
  end.

(** [src/marty-verification/src/flow.rs:312-320] validate_graph, the edges of one root *)
Fixpoint relax (destinations : list string) (indeg : gmap string nat) (roots : list string) :
    result (gmap string nat * list string) :=
  match destinations with
  | [] => Ok (indeg, roots)
  | d :: destinations =>
      degree ← expect (indeg !! d);
      match degree with
      | O => Panic
      | S degree =>
          relax destinations (<[d := degree]> indeg)
            (if (degree =? 0)%nat then roots ++ [d] else roots)
      end
  end.

(** [src/marty-verification/src/flow.rs:309-321] validate_graph, the topological loop *)
Fixpoint topo_loop (fuel : nat) (adj : gmap string (list string)) (indeg : gmap string nat)
    (roots : list string) (visited : nat) : result nat :=
  match roots with
  | [] => Ok visited
  | s :: roots =>
      match fuel with
      | O => Panic
      | S fuel =>
          out ← expect (adj !! s);
          r ← relax out indeg roots;
          topo_loop fuel adj r.1 r.2 (S visited)
      end
  end.

Section HashOrder.
Context (hash_order : list string -> list string).

(** [src/marty-verification/src/flow.rs:213-333] validate_graph *)
Definition validate_graph (request : FlowGraphRequest) : result FlowGraphDecision :=
  let ids := step_id <$> steps request in
  _ ← ensure (negb (length (steps request) =? 0)%nat)
        (InvalidGraph "at least one step is required");
  _ ← ensure (negb (MAX_STEPS <? length (steps request))%nat)
        (LimitExceeded "graph contains more than 1024 steps");
  _ ← ensure (negb (MAX_TRANSITIONS <? length (transitions request))%nat)
        (LimitExceeded "graph contains more than 8192 transitions");
  _ ← ensure (valid_step_id (entry_step_id request)) (InvalidGraph "entry_step_id is invalid");
  step_ids ← collect_step_ids (steps request) ∅;
  _ ← ensure (bool_decide (entry_step_id request ∈ step_ids))
        (InvalidGraph "entry_step_id must reference a declared step");
  g ← build_tables step_ids (transitions request) (initial_tables ids);
  reachable ← reach_loop (S (length (transitions request))) (adjacency g) ∅ [entry_step_id request];
  _ ← ensure (size reachable =? length (steps request))%nat
        (InvalidGraph "every step must be reachable from entry_step_id");
  let roots := filter (fun s => indegree g !! s = Some 0) (hash_order ids) in
  visited ← topo_loop (length (steps request)) (adjacency g) (indegree g) roots 0;
  _ ← ensure (visited =? length (steps request))%nat
        (InvalidGraph "flow graph must be acyclic");
  Ok (mkGraphDecision true (length (steps request)) (length (transitions request))).

(** [src/marty-verification/src/flow.rs:335-358] select_next_step *)
Definition select_next_step (request : FlowGraphRequest) (current_step_id : string)
    (o : TransitionOutcome) : result (option string) :=
  _ ← validate_graph request;
  _ ← ensure (existsb (fun s => bool_decide (step_id s = current_step_id)) (steps request))
        (InvalidGraph "current_step_id must reference a declared step");
  Ok (to_step_id <$> List.find (fun t => bool_decide (from_step_id t = current_step_id)
                                        && bool_decide (outcome t = o)) (transitions request)).
End HashOrder.
