(* ===== verification/FlowGraphFacts.v ===== *)
(** * The loops of flow-graph validation

    Specification and termination of the table construction, the
    breadth-first reachability loop and the topological (Kahn) loop of
    [validate_graph], against the edge relation of the request. *)

From S2P Require Import Prelude Flow.

(** ** The graph of a list of transitions *)
Definition edge (ts : list FlowGraphTransition) (u v : string) : Prop :=
  exists t, t ∈ ts /\ from_step_id t = u /\ to_step_id t = v.

Definition succs (ts : list FlowGraphTransition) (s : string) : list string :=
  to_step_id <$> filter (fun t => from_step_id t = s) ts.

Definition preds_count (ts : list FlowGraphTransition) (v : string) : nat :=
  length (filter (fun t => to_step_id t = v) ts).

Definition decision_key (t : FlowGraphTransition) : string * TransitionOutcome :=
  (from_step_id t, outcome t).

Definition declared (ids : list string) (ts : list FlowGraphTransition) : Prop :=
  forall t, t ∈ ts -> from_step_id t ∈ ids /\ to_step_id t ∈ ids.

Lemma elem_of_succs ts u v : v ∈ succs ts u <-> edge ts u v.
Proof. unfold succs, edge. rewrite list_elem_of_fmap. setoid_rewrite list_elem_of_filter. naive_solver. Qed.

Lemma declared_edge ids ts u v : declared ids ts -> edge ts u v -> u ∈ ids /\ v ∈ ids.
Proof. intros Hd (t & Ht & <- & <-). by apply Hd. Qed.

(** ** Step identifiers *)
Lemma collect_step_ids_Ok ss acc S :
  collect_step_ids ss acc = Ok S <->
  Forall (fun s => valid_step_id s = true) (step_id <$> ss) /\ NoDup (step_id <$> ss) /\
  (forall s, s ∈ step_id <$> ss -> s ∉ acc) /\ S = list_to_set (step_id <$> ss) ∪ acc.
Proof.
  revert acc. induction ss as [|s ss IH]; intros acc; simpl.
  - split; [|by intros (_ & _ & _ & ->); rewrite union_empty_l_L].
    intros [= <-]. split_and!; [done|apply NoDup_nil_2|by intros ? ?%not_elem_of_nil|].
    by rewrite union_empty_l_L.
  - rewrite bind_Ok. setoid_rewrite ensure_Ok. rewrite NoDup_cons, Forall_cons.
    setoid_rewrite elem_of_cons. split.
    + intros (_ & Hv & H). apply bind_Ok in H as (_ & Hnin%ensure_Ok & H). breflect.
      apply IH in H as (HF & HN & Hacc & ->). split_and!; [done|done| |done| |].
      * intros Hin. by apply (Hacc (step_id s)); [|set_solver].
      * intros x [->|Hx]; [done|]. specialize (Hacc x Hx). set_solver.
      * set_solver.
    + intros ([Hv HF] & [Hnin HN] & Hacc & ->). exists tt. split; [done|].
      rewrite bool_decide_eq_true_2 by (apply Hacc; by left). simpl. apply IH.
      split_and!; [done|done| |set_solver]. intros x Hx. specialize (Hacc x (or_intror Hx)). set_solver.
Qed.

Lemma collect_step_ids_no_panic ss acc : no_panic (collect_step_ids ss acc).
Proof. revert acc. induction ss as [|s ss IH]; intros acc; simpl; solve_no_panic. Qed.

(** ** Tables *)
Definition tables_cover (S : gset string) (g : GraphTables) : Prop :=
  forall s, s ∈ S -> is_Some (adjacency g !! s) /\ is_Some (indegree g !! s).

Definition tables_after (ts : list FlowGraphTransition) (g g' : GraphTables) : Prop :=
  decisions g' = list_to_set (decision_key <$> ts) ∪ decisions g /\
  (forall s, adjacency g' !! s = (fun l => l ++ succs ts s) <$> adjacency g !! s) /\
  (forall s, indegree g' !! s = (fun n => n + preds_count ts s) <$> indegree g !! s).

Lemma tables_cover_step S g u v l n k :
  tables_cover S g ->
  tables_cover S (mkTables ({[k]} ∪ decisions g) (<[u := l]> (adjacency g)) (<[v := n]> (indegree g))).
Proof.
  intros Hc s Hs. destruct (Hc s Hs). simpl. split; by apply lookup_insert_is_Some'; right.
Qed.

Lemma option_fmap_ext_id {A B} (f g : A -> B) (o : option A) :
  (forall a, o = Some a -> f a = g a) -> f <$> o = g <$> o.
Proof. intros H. destruct o; simpl; [f_equal; auto|done]. Qed.

Lemma build_tables_Ok S ts g :
  tables_cover S g ->
  (forall t, t ∈ ts -> from_step_id t ∈ S /\ to_step_id t ∈ S) ->
  NoDup (decision_key <$> ts) -> (forall t, t ∈ ts -> decision_key t ∉ decisions g) ->
  exists g', build_tables S ts g = Ok g' /\ tables_after ts g g'.
Proof.
  revert g. induction ts as [|t ts IH]; intros g Hc Hd HN Hfresh.
  { exists g. split; [done|]. split; [simpl; set_solver|].
    split; intros s; [destruct (adjacency g !! s)|destruct (indegree g !! s)]; simpl; try done.
    - by rewrite app_nil_r.
    - f_equal. unfold preds_count. simpl. lia. }
  destruct (Hd t) as [Hf Ht]; [by left|].
  destruct (Hc _ Hf) as [[out Hout] _]. destruct (Hc _ Ht) as [_ [deg Hdeg]].
  rewrite fmap_cons, NoDup_cons in HN. destruct HN as [Hnin HN].
  set (g1 := mkTables ({[decision_key t]} ∪ decisions g)
               (<[from_step_id t := out ++ [to_step_id t]]> (adjacency g))
               (<[to_step_id t := Datatypes.S deg]> (indegree g))).
  destruct (IH g1) as (g' & Hg' & Hdec & Hadj & Hind).
  { by apply tables_cover_step. }
  { intros t' Ht'. apply Hd. by right. }
  { done. }
  { intros t' Ht'. specialize (Hfresh t' (list_elem_of_further _ _ _ Ht')). simpl.
    rewrite elem_of_union, elem_of_singleton. intros [He|]; [|done].
    apply Hnin. rewrite <- He. by apply list_elem_of_fmap_2. }
  exists g'. split.
  - simpl. rewrite (bool_decide_eq_true_2 (from_step_id t ∈ S)),
      (bool_decide_eq_true_2 (to_step_id t ∈ S)) by done. simpl.
    rewrite bool_decide_eq_true_2 by (apply Hfresh; by left). simpl.
    by rewrite Hout, Hdeg.
  - split; [|split; intros s].
    + rewrite Hdec. simpl. set_solver.
    + rewrite Hadj. simpl. unfold succs. rewrite filter_cons. rewrite lookup_insert.
      case_decide as E; simpl.
      * subst s. rewrite Hout. simpl. by rewrite <- app_assoc.
      * done.
    + rewrite Hind. simpl. unfold preds_count. rewrite filter_cons. rewrite lookup_insert.
      case_decide as E; simpl.
      * subst s. rewrite Hdeg. simpl. f_equal. lia.
      * done.
Qed.

Lemma build_tables_inv S ts g g' :
  build_tables S ts g = Ok g' ->
  (forall t, t ∈ ts -> from_step_id t ∈ S /\ to_step_id t ∈ S) /\
  NoDup (decision_key <$> ts) /\ (forall t, t ∈ ts -> decision_key t ∉ decisions g).
Proof.
  revert g. induction ts as [|t ts IH]; intros g H.
  { split_and!; [by intros ? ?%not_elem_of_nil|apply NoDup_nil_2|by intros ? ?%not_elem_of_nil]. }
  simpl in H. res_inv. breflect. apply IH in H as (Hd & HN & Hf). simpl in Hf.
  rewrite fmap_cons, NoDup_cons. split_and!.
  - intros t' [->|Ht']%elem_of_cons; [done|by apply Hd].
  - intros (t' & He & Ht')%list_elem_of_fmap. apply (Hf t' Ht').
    rewrite <- He. unfold decision_key. set_solver.
  - done.
  - intros t' [->|Ht']%elem_of_cons; [done|]. specialize (Hf t' Ht'). set_solver.
Qed.

Lemma build_tables_no_panic S ts g : tables_cover S g -> no_panic (build_tables S ts g).
Proof.
  revert g. induction ts as [|t ts IH]; intros g Hc; simpl; [done|].
  apply bind_no_panic; [auto with marty|]. intros [] Hb%ensure_Ok. breflect.
  apply bind_no_panic; [auto with marty|]. intros [] _.
  destruct (Hc (from_step_id t)) as [[out ->] _]; [done|].
  destruct (Hc (to_step_id t)) as [_ [deg ->]]; [done|]. simpl.
  apply IH. by apply tables_cover_step.
Qed.

Lemma initial_tables_lookup {A} (ids : list string) (a : A) s :
  (list_to_map ((fun i => (i, a)) <$> ids) : gmap string A) !! s = if decide (s ∈ ids) then Some a else None.
Proof.
  induction ids as [|i ids IH].
  - rewrite decide_False by apply not_elem_of_nil. apply lookup_empty.
  - rewrite fmap_cons. cbn [list_to_map foldr uncurry fst snd]. rewrite lookup_insert, IH.
    destruct (decide (i = s)) as [->|Hne]; [by rewrite decide_True by left|].
    destruct (decide (s ∈ ids)); [by rewrite decide_True by (by right)|].
    rewrite decide_False; [done|]. set_solver.
Qed.

Lemma initial_tables_cover ids : tables_cover (list_to_set ids) (initial_tables ids).
Proof.
  intros s Hs%elem_of_list_to_set. unfold initial_tables; simpl.
  rewrite !initial_tables_lookup, !decide_True by done. eauto.
Qed.

(** ** The reachability loop *)
Section Loops.
Context (ids : list string) (ts : list FlowGraphTransition).
Context (Hnodup : NoDup ids) (Hdecl : declared ids ts).

Section Reach.
Context (adj : gmap string (list string)).
Context (Hadj : forall s, s ∈ ids -> adj !! s = Some (succs ts s)).

(** Edges not yet put on the frontier. *)
Definition pending (l : list string) (reach : gset string) : nat :=
  sum_list ((fun s => length (succs ts s)) <$> filter (fun s => s ∉ reach) l).

Lemma pending_not_in l s reach : s ∉ l -> pending l ({[s]} ∪ reach) = pending l reach.
Proof.
  intros Hs. unfold pending. do 2 f_equal. apply list_filter_ext_in.
  intros x Hx. assert (x <> s) by congruence. set_solver.
Qed.

Lemma pending_step l s reach :
  NoDup l -> s ∈ l -> s ∉ reach ->
  pending l ({[s]} ∪ reach) + length (succs ts s) = pending l reach.
Proof.
  induction 1 as [|x l Hx Hl IH]; [by intros ?%not_elem_of_nil|].
  intros [->|Hs]%elem_of_cons Hr.
  - pose proof (pending_not_in l x reach Hx) as Hp. unfold pending in *. rewrite !filter_cons.
    rewrite decide_False by set_solver. rewrite decide_True by done.
    rewrite fmap_cons. simpl. lia.
  - specialize (IH Hs Hr). assert (x <> s) by congruence. unfold pending in *. rewrite !filter_cons.
    destruct (decide (x ∉ reach)).
    + rewrite decide_True by set_solver. rewrite !fmap_cons. simpl. lia.
    + rewrite decide_False by set_solver. lia.
Qed.

Lemma reach_loop_total fuel reach frontier :
  (forall s, s ∈ frontier -> s ∈ ids) ->
  length frontier + pending ids reach <= fuel ->
  exists R, reach_loop fuel adj reach frontier = Ok R /\
    reach ⊆ R /\ (forall s, s ∈ frontier -> s ∈ R) /\
    (forall P : string -> Prop, (forall s, s ∈ reach -> P s) -> (forall s, s ∈ frontier -> P s) ->
       (forall u v, P u -> edge ts u v -> P v) -> forall s, s ∈ R -> P s) /\
    ((forall u v, u ∈ reach -> edge ts u v -> v ∈ reach \/ v ∈ frontier) ->
       forall u v, u ∈ R -> edge ts u v -> v ∈ R).
Proof.
  revert reach frontier. induction fuel as [|fuel IH]; intros reach [|s frontier] Hf Hfuel;
    simpl in Hfuel |- *; try lia.
  1,2: (exists reach; split_and!; [done|done|by intros ? ?%not_elem_of_nil|by eauto|];
    intros Hc u v Hu Huv; by destruct (Hc u v Hu Huv) as [|?%not_elem_of_nil]).
  case_bool_decide as Hin.
  - destruct (IH reach frontier) as (R & HR & Hsub & Hfr & Hsound & Hclosed); [set_solver|lia|].
    exists R. split_and!; [done|done|set_solver| |].
    + intros P HP1 HP2 HP3. apply Hsound; set_solver.
    + intros Hc. apply Hclosed. intros u v Hu Huv. specialize (Hc u v Hu Huv). set_solver.
  - assert (Hs : s ∈ ids) by (apply Hf; by left). rewrite (Hadj s Hs). simpl.
    pose proof (pending_step ids s reach Hnodup Hs Hin).
    destruct (IH ({[s]} ∪ reach) (frontier ++ succs ts s)) as (R & HR & Hsub & Hfr & Hsound & Hclosed).
    { intros x [Hx|Hx]%elem_of_app; [apply Hf; by right|].
      apply elem_of_succs in Hx. by apply (declared_edge ids ts s x). }
    { rewrite length_app. lia. }
    exists R. split_and!; [done|set_solver|set_solver| |].
    + intros P HP1 HP2 HP3. apply Hsound; [set_solver| |done].
      intros x [Hx|Hx]%elem_of_app; [set_solver|].
      apply elem_of_succs in Hx. apply (HP3 s x); [|done]. apply HP2. by left.
    + intros Hc. apply Hclosed. intros u v [->%elem_of_singleton|Hu]%elem_of_union Huv.
      * right. apply elem_of_app. right. by apply elem_of_succs.
      * destruct (Hc u v Hu Huv) as [|[->|]%elem_of_cons]; set_solver.
Qed.

Lemma pending_total : pending ids ∅ <= length ts.
Proof.
  unfold pending. rewrite list_filter_true by set_solver. clear Hdecl Hadj. induction ts as [|t ts' IH].
  { induction ids as [|i l IHl]; [done|]. rewrite fmap_cons. apply NoDup_cons in Hnodup as [_ ?]. simpl. auto. }
  transitivity (S (sum_list ((fun s => length (succs ts' s)) <$> ids))); [|cbn [length]; lia]. clear IH.
  induction Hnodup as [|i l Hi Hl IHl]; [rewrite !fmap_nil; simpl; lia|]. rewrite !fmap_cons. cbn [sum_list].
  unfold succs at 1. rewrite filter_cons. case_decide as E.
  - assert (Heq : (fun s => length (succs (t :: ts') s)) <$> l = (fun s => length (succs ts' s)) <$> l).
    { apply list_fmap_ext. intros k x Hx%list_elem_of_lookup_2. unfold succs. rewrite filter_cons.
      rewrite decide_False by congruence. done. }
    rewrite Heq, fmap_cons. fold (succs ts' i). cbn [length].
    change (id (length (succs ts' i))) with (length (succs ts' i)).
    change (id (S (length (succs ts' i)))) with (S (length (succs ts' i))). lia.
  - fold (succs ts' i). specialize (IHl Hl).
    change (id (length (succs ts' i))) with (length (succs ts' i)). lia.
Qed.

(** The loop computes exactly the steps reachable from the entry. *)
Lemma reach_loop_spec entry :
  entry ∈ ids ->
  exists R, reach_loop (S (length ts)) adj ∅ [entry] = Ok R /\
            forall s, s ∈ R <-> rtc (edge ts) entry s.
Proof.
  intros He. pose proof pending_total.
  destruct (reach_loop_total (S (length ts)) ∅ [entry]) as (R & HR & _ & Hfr & Hsound & Hclosed);
    [set_solver|simpl; lia|].
  exists R. split; [done|]. intros s. split.
  - apply (Hsound (rtc (edge ts) entry)); [set_solver| |].
    + intros x ->%list_elem_of_singleton. apply rtc_refl.
    + intros u v Hu Huv. by apply rtc_r with u.
  - revert s. apply rtc_ind_r; [set_solver|]. intros u v _ Huv Hu. apply (Hclosed ltac:(set_solver) u v Hu Huv).
Qed.
End Reach.

(** ** The topological loop *)

(** Transitions into [v] whose source has not been processed. *)
Definition open_preds (P : list string) (v : string) : nat :=
  length (filter (fun t => to_step_id t = v /\ from_step_id t ∉ P) ts).

Definition occurrences (v : string) (l : list string) : nat := length (filter (eq v) l).

Lemma occurrences_cons v d l :
  occurrences v (d :: l) = (if decide (v = d) then 1 else 0) + occurrences v l.
Proof. unfold occurrences. rewrite filter_cons. by case_decide. Qed.

Lemma occurrences_pos v l : v ∈ l <-> 0 < occurrences v l.
Proof.
  induction l as [|d l IH]; [unfold occurrences; simpl; split; [by intros ?%not_elem_of_nil|lia]|].
  rewrite occurrences_cons, elem_of_cons, IH. case_decide; simpl; intuition lia || congruence.
Qed.

(** [relax] on one list of destinations: no underflow as long as each
    destination occurs at most as often as its degree; the degrees drop by the
    number of occurrences, and the new roots are the destinations that reach
    zero, each once. *)
Lemma relax_spec ds indeg roots :
  (forall d, d ∈ ds -> is_Some (indeg !! d)) ->
  (forall v k, indeg !! v = Some k -> occurrences v ds <= k) ->
  exists indeg' new, relax ds indeg roots = Ok (indeg', roots ++ new) /\
    (forall v, indeg' !! v = (fun k => k - occurrences v ds) <$> indeg !! v) /\
    NoDup new /\ (forall v, v ∈ new <-> v ∈ ds /\ indeg !! v = Some (occurrences v ds)).
Proof.
  revert indeg roots. induction ds as [|d ds IH]; intros indeg roots Hsome Hocc.
  { exists indeg, []. split_and!; [by rewrite app_nil_r| |apply NoDup_nil_2|set_solver].
    intros v. destruct (indeg !! v); simpl; [f_equal; unfold occurrences; simpl; lia|done]. }
  destruct (Hsome d) as [k Hk]; [by left|].
  pose proof (Hocc d k Hk) as Hdk. rewrite occurrences_cons, decide_True in Hdk by done.
  destruct k as [|k]; [simpl in Hdk; lia|]. simpl relax. rewrite Hk. cbn [mbind res_bind expect].
  destruct (IH (<[d := k]> indeg) (if (k =? 0)%nat then roots ++ [d] else roots))
    as (indeg' & new & Hrel & Hlook & HND & Hnew).
  { intros x Hx. apply lookup_insert_is_Some'. right. apply Hsome. by right. }
  { intros v k'. rewrite lookup_insert. case_decide as E; intros Hv.
    - injection Hv as <-. subst v. lia.
    - specialize (Hocc v k' Hv). rewrite occurrences_cons, decide_False in Hocc by congruence. done. }
  assert (Hz : k = 0 -> occurrences d ds = 0) by lia.
  exists indeg', (if (k =? 0)%nat then d :: new else new). split_and!.
  - rewrite Hrel. destruct (Nat.eqb_spec k 0); [|done]. by rewrite <- app_assoc.
  - intros v. rewrite Hlook, lookup_insert, occurrences_cons. case_decide as E.
    + subst v. rewrite Hk, decide_True by done. simpl. f_equal.
    + rewrite decide_False by congruence. done.
  - destruct (Nat.eqb_spec k 0) as [->|]; [|done]. apply NoDup_cons. split; [|done].
    intros [Hin _]%Hnew. apply occurrences_pos in Hin. rewrite Hz in Hin by done. lia.
  - intros v. rewrite occurrences_cons.
    assert (Hv : v ∈ new <-> v ∈ ds /\ (if decide (d = v) then k = occurrences v ds
                                         else indeg !! v = Some (occurrences v ds))).
    { rewrite Hnew, lookup_insert. case_decide; [|done]. split; intros [? Hq]; split; congruence || done. }
    destruct (decide (v = d)) as [->|Hne].
    + rewrite decide_True in Hv by done. rewrite Hk. pose proof (occurrences_pos d ds).
      destruct (Nat.eqb_spec k 0) as [->|Hk0].
      * rewrite (Hz eq_refl). split; [intros _; split; [by left|done]|intros _; by left].
      * rewrite Hv. split.
        -- intros [_ Heq]. split; [by left|]. simpl. by rewrite Heq.
        -- intros [_ Heq]. simpl in Heq. assert (k = occurrences d ds) by congruence.
           split; [apply occurrences_pos; lia|done].
    + rewrite decide_False in Hv by congruence. simpl.
      destruct (Nat.eqb_spec k 0) as [->|Hk0]; rewrite ?elem_of_cons, Hv; naive_solver.
Qed.

Lemma open_preds_step P s v :
  s ∉ P -> open_preds P v = open_preds (s :: P) v + occurrences v (succs ts s).
Proof.
  intros Hs. clear Hdecl. unfold open_preds, succs. induction ts as [|t l IH]; [done|].
  rewrite !filter_cons. destruct (decide (from_step_id t = s)) as [Hf|Hf].
  - rewrite (decide_False (P := _ /\ from_step_id t ∉ s :: P)) by set_solver.
    rewrite fmap_cons, occurrences_cons. destruct (decide (v = to_step_id t)) as [->|Hv].
    + rewrite decide_True by (split; [done|by rewrite Hf]). simpl. lia.
    + rewrite decide_False by (intros [? _]; congruence). simpl. lia.
  - destruct (decide (to_step_id t = v /\ from_step_id t ∉ P)) as [[? ?]|Hn].
    + rewrite decide_True by set_solver. simpl. lia.
    + rewrite decide_False by set_solver. lia.
Qed.

Lemma open_preds_zero P v : open_preds P v = 0 <-> forall u, edge ts u v -> u ∈ P.
Proof.
  unfold open_preds, edge. rewrite length_zero_iff_nil. split.
  - intros Hnil u (t & Ht & <- & Hv). destruct (decide (from_step_id t ∈ P)) as [|Hn]; [done|].
    assert (Hin : t ∈ filter (fun t => to_step_id t = v /\ from_step_id t ∉ P) ts)
      by (by apply list_elem_of_filter). rewrite Hnil in Hin. by apply not_elem_of_nil in Hin.
  - intros H. destruct (filter _ ts) as [|t l] eqn:E; [done|].
    assert (Hin : t ∈ filter (fun t => to_step_id t = v /\ from_step_id t ∉ P) ts) by (rewrite E; by left).
    apply list_elem_of_filter in Hin as [[Hv Hn] Ht]. destruct Hn. apply H. eauto.
Qed.

Lemma occurrences_le_open P s v : s ∉ P -> occurrences v (succs ts s) <= open_preds P v.
Proof. intros Hs. rewrite (open_preds_step P s v Hs). lia. Qed.

(** The loop invariant: [P] are the steps popped so far, most recent first,
    and [Q] the queue. *)
Record topo_inv (P Q : list string) (indeg : gmap string nat) : Prop := {
  ti_nodup : NoDup (P ++ Q);
  ti_degree : forall v, v ∈ ids -> indeg !! v = Some (open_preds P v);
  ti_ready : forall v, v ∈ P ++ Q <-> v ∈ ids /\ open_preds P v = 0;
  ti_order : forall P2 v P1, P = P2 ++ v :: P1 -> forall u, edge ts u v -> u ∈ P1;
}.

Lemma topo_inv_step P s Q indeg indeg' new :
  topo_inv P (s :: Q) indeg ->
  (forall v, indeg' !! v = (fun k => k - occurrences v (succs ts s)) <$> indeg !! v) ->
  NoDup new ->
  (forall v, v ∈ new <-> v ∈ succs ts s /\ indeg !! v = Some (occurrences v (succs ts s))) ->
  topo_inv (s :: P) (Q ++ new) indeg'.
Proof.
  intros [HND Hdeg Hready Hord] Hlook HNDnew Hnew.
  assert (Hs : s ∉ P) by (intros Hin; apply NoDup_app in HND as (_ & Hd & _); apply (Hd s Hin); by left).
  destruct (proj1 (Hready s)) as [Hids Hzero]; [set_solver|].
  assert (Hnew' : forall v, v ∈ new <-> v ∈ ids /\ open_preds (s :: P) v = 0 /\ 0 < open_preds P v).
  { intros v. rewrite Hnew. pose proof (open_preds_step P s v Hs) as Hstep.
    pose proof (occurrences_pos v (succs ts s)) as Hpos. split.
    - intros [Hv Hi]. assert (Hvi : v ∈ ids) by (apply elem_of_succs in Hv; by apply (declared_edge ids ts s v)).
      rewrite (Hdeg v Hvi) in Hi. injection Hi as Hi. split; [done|]. apply Hpos in Hv. lia.
    - intros (Hvi & H0 & H1). rewrite (Hdeg v Hvi). split; [apply Hpos; lia|]. f_equal. lia. }
  split.
  - assert (Hdis : forall v, v ∈ new -> v ∉ P ++ s :: Q).
    { intros v (_ & _ & Hpos)%Hnew' [_ Hz]%Hready. lia. }
    apply NoDup_app in HND as (HP & HPQ & HsQ). apply NoDup_cons in HsQ as [HsnQ HQ].
    simpl. apply NoDup_cons. split; [|apply NoDup_app; split_and!; [done| |apply NoDup_app; split_and!; [done| |done]]];
      set_solver.
  - intros v Hv. rewrite Hlook, (Hdeg v Hv). simpl. f_equal. pose proof (open_preds_step P s v Hs). lia.
  - intros v. pose proof (open_preds_step P s v Hs) as Hstep. simpl.
    rewrite elem_of_cons, !elem_of_app, Hnew'. specialize (Hready v). rewrite elem_of_app, elem_of_cons in Hready.
    destruct (Nat.eq_dec (open_preds P v) 0) as [E|E].
    + assert (open_preds (s :: P) v = 0) by lia. intuition lia.
    + intuition lia.
  - intros P2 v P1 Heq u Huv. destruct P2 as [|x P2]; simplify_list_eq; [|by apply (Hord P2 v P1 eq_refl)].
    by apply (open_preds_zero P1 v).
Qed.

Lemma topo_loop_spec (adj : gmap string (list string)) :
  (forall s, s ∈ ids -> adj !! s = Some (succs ts s)) ->
  forall fuel P Q indeg, topo_inv P Q indeg -> length ids <= fuel + length P ->
  exists P' indeg', topo_loop fuel adj indeg Q (length P) = Ok (length P') /\ topo_inv P' [] indeg'.
Proof.
  intros Hadj fuel. induction fuel as [|fuel IH]; intros P [|s Q] indeg Hinv Hfuel; simpl.
  1,3: by exists P, indeg.
  - assert (Hle : length (P ++ s :: Q) <= length ids).
    { apply submseteq_length, NoDup_submseteq; [apply Hinv|]. intros x Hx. by apply (ti_ready _ _ _ Hinv). }
    rewrite length_app in Hle. simpl in Hle. lia.
  - destruct (proj1 (ti_ready _ _ _ Hinv s)) as [Hids _]; [set_solver|].
    assert (Hs : s ∉ P).
    { intros Hin. pose proof (ti_nodup _ _ _ Hinv) as HND. apply NoDup_app in HND as (_ & Hd & _).
      apply (Hd s Hin). by left. }
    destruct (relax_spec (succs ts s) indeg Q) as (indeg' & new & Hrel & Hlook & HND & Hnew).
    { intros d Hd%elem_of_succs. rewrite (ti_degree _ _ _ Hinv); [eauto|]. by apply (declared_edge ids ts s d). }
    { intros v k Hk. destruct (decide (v ∈ ids)) as [Hv|Hv].
      - rewrite (ti_degree _ _ _ Hinv v Hv) in Hk. injection Hk as <-. by apply occurrences_le_open.
      - destruct (occurrences v (succs ts s)) eqn:E; [lia|]. destruct Hv.
        assert (Hin : v ∈ succs ts s) by (apply occurrences_pos; lia).
        apply elem_of_succs in Hin. by apply (declared_edge ids ts s v). }
    rewrite (Hadj s Hids). cbn [mbind res_bind expect]. rewrite Hrel. simpl.
    apply (IH (s :: P)); [by eapply topo_inv_step|simpl; lia].
Qed.

(** A step popped later never has an edge chain into one popped earlier. *)
Lemma topo_inv_tc P Q indeg u v :
  topo_inv P Q indeg -> tc (edge ts) u v -> forall P2 P1, P = P2 ++ v :: P1 -> u ∈ P1.
Proof.
  intros Hinv. induction 1 as [u v Huv|u w v Huw _ IH]; intros P2 P1 Heq; [by eapply ti_order|].
  specialize (IH P2 P1 Heq). apply list_elem_of_split in IH as (P3 & P4 & ->).
  assert (Hu : u ∈ P4).
  { apply (ti_order _ _ _ Hinv (P2 ++ v :: P3) w P4); [|done]. by rewrite Heq, <- app_assoc. }
  set_solver.
Qed.

Definition acyclic : Prop := forall s, ~ tc (edge ts) s s.

Lemma tc_flip u v : tc (flip (edge ts)) u v -> tc (edge ts) v u.
Proof. induction 1; [by constructor|]. eapply tc_r; eauto. Qed.

Lemma tc_edge_ids u v : tc (edge ts) u v -> u ∈ ids.
Proof. by destruct 1 as [? ? H|? ? ? H]; apply (declared_edge ids ts) in H as [? ?]. Qed.

(** At the end of the loop everything was popped exactly when there is no
    cycle. *)
Lemma topo_inv_final P indeg :
  topo_inv P [] indeg -> length P = length ids <-> acyclic.
Proof.
  intros Hinv. pose proof (ti_nodup _ _ _ Hinv) as HND. rewrite app_nil_r in HND.
  assert (Hsub : P ⊆+ ids).
  { apply NoDup_submseteq; [done|]. intros x Hx. apply (ti_ready _ _ _ Hinv x). set_solver. }
  split.
  - intros Hlen s Hss. pose proof (tc_edge_ids _ _ Hss) as Hs.
    apply submseteq_length_Permutation in Hsub; [|lia]. rewrite <- Hsub in Hs.
    apply list_elem_of_split in Hs as (P2 & P1 & ->).
    pose proof (topo_inv_tc _ _ _ _ _ Hinv Hss P2 P1 eq_refl) as Hin.
    apply NoDup_app in HND as (_ & _ & HND). apply NoDup_cons in HND as [? _]. done.
  - intros Hac. assert (Hall : forall v, v ∈ ids -> v ∈ P).
    { intros v Hv. assert (Hsn : sn (flip (edge ts)) v).
      { apply tc_finite_sn; [intros x Hx%tc_flip; by apply (Hac x)|].
        exists ids. intros x Hx%tc_flip. by eapply tc_edge_ids. }
      induction Hsn as [v _ IH]. pose proof (ti_ready _ _ _ Hinv v) as Hr. rewrite app_nil_r in Hr.
      apply Hr. split; [done|]. apply open_preds_zero. intros u Huv. apply IH; [done|].
      by apply (declared_edge ids ts u v). }
    apply Nat.le_antisymm; [by apply submseteq_length|].
    apply submseteq_length, NoDup_submseteq; done.
Qed.

(** The whole topological phase, from the degree table of the request and
    any enumeration of the steps. *)
Lemma topo_phase (adj : gmap string (list string)) (indeg : gmap string nat) (order : list string) :
  (forall s, s ∈ ids -> adj !! s = Some (succs ts s)) ->
  (forall s, s ∈ ids -> indeg !! s = Some (preds_count ts s)) ->
  order ≡ₚ ids ->
  exists n, topo_loop (length ids) adj indeg (filter (fun s => indeg !! s = Some 0) order) 0 = Ok n /\
            (n = length ids <-> acyclic).
Proof.
  intros Hadj Hdeg Hord. set (Q := filter _ order).
  assert (Hopen : forall v, open_preds [] v = preds_count ts v).
  { intros v. unfold open_preds, preds_count. f_equal. apply list_filter_ext_in. set_solver. }
  assert (Hinv : topo_inv [] Q indeg).
  { split.
    - simpl. apply NoDup_filter. by rewrite Hord.
    - intros v Hv. by rewrite Hdeg, Hopen.
    - intros v. simpl. unfold Q. rewrite list_elem_of_filter, Hord, Hopen. split.
      + intros [H0 Hv]. rewrite (Hdeg v Hv) in H0. by injection H0 as ->.
      + intros [Hv H0]. by rewrite (Hdeg v Hv), H0.
    - intros [|? P2] v P1 Heq; discriminate Heq. }
  destruct (topo_loop_spec adj Hadj (length ids) [] Q indeg Hinv) as (P' & indeg' & Hrun & Hfin); [lia|].
  exists (length P'). split; [done|]. by apply (topo_inv_final P' indeg').
Qed.
End Loops.
