(* ===== verification/FlowFacts.v ===== *)
(** * Correctness of the flow kernel

    The lifecycle as a step relation with its invariants, the exact
    characterisation of the graphs [validate_graph] accepts, and the behaviour
    of [select_next_step] on accepted graphs. *)

From S2P Require Import Prelude Flow FlowGraphFacts.

(** ** Lifecycle *)

(** A real (not no-op) transition the kernel grants. *)
Definition lifecycle_step (s s' : FlowInstanceStatus) : Prop :=
  exists actor event d,
    evaluate_transition (mkTransitionRequest s s' actor event) = Ok d /\ td_no_op d = false.

Lemma lifecycle_step_iff s s' : lifecycle_step s s' <-> can_transition_to s s' = true.
Proof.
  unfold lifecycle_step, evaluate_transition; simpl. split.
  - intros (a & e & d & H & Hno). case_bool_decide; [by injection H as <-|].
    destruct (can_transition_to s s'); [done|discriminate H].
  - intros H. exists None, None. rewrite bool_decide_eq_false_2 by (by intros ->; destruct s'). rewrite H. eauto.
Qed.

(** what [evaluate_transition] decides, on every branch: equal states give
    an accepted no-op, a move along the transition table is accepted, anything
    else is refused naming both states; an accepted decision reports the
    states of the request, whether the new state is terminal, the actor, and
    the given event or the default event name. *)
Theorem evaluate_transition_spec (r : FlowTransitionRequest) :
  match evaluate_transition r with
  | Ok d =>
      (tr_current r = tr_target r \/ can_transition_to (tr_current r) (tr_target r) = true) /\
      td_prior_state d = tr_current r /\ td_new_state d = tr_target r /\
      td_terminal d = is_terminal (tr_target r) /\
      (td_no_op d = true <-> tr_current r = tr_target r) /\
      td_actor d = tr_actor r /\
      td_event d = match tr_event r with
                   | Some e => e
                   | None => status_name (tr_current r) +:+ "_to_" +:+ status_name (tr_target r)
                   end
  | Err e => e = TransitionNotAllowed (tr_current r) (tr_target r) /\
             tr_current r <> tr_target r /\ can_transition_to (tr_current r) (tr_target r) = false
  | Panic => False
  end.
Proof.
  unfold evaluate_transition. case_bool_decide as E.
  - simpl. split_and!; try done; by left || by destruct (tr_event r).
  - destruct (can_transition_to _ _) eqn:Hc; simpl; [|done].
    split_and!; try done; by right || by destruct (tr_event r).
Qed.

(** terminal states are final and live states are never stuck: no step
    leaves a terminal state, every other state can still reach [Completed] and
    [Cancelled], and no run returns to [Created]. *)
Theorem lifecycle_terminal (s : FlowInstanceStatus) :
  (is_terminal s = true <-> forall s', ~ lifecycle_step s s') /\
  (is_terminal s = false -> rtc lifecycle_step s Completed /\ lifecycle_step s Cancelled) /\
  (forall s', tc lifecycle_step s s' -> s' <> Created).
Proof.
  assert (Hstep : forall a b, can_transition_to a b = true -> lifecycle_step a b)
    by (intros a b H; by apply lifecycle_step_iff).
  split_and!.
  - split.
    + intros Ht s' Hs%lifecycle_step_iff. by destruct s.
    + intros H. destruct s; try done; exfalso; by apply (H Cancelled), Hstep.
  - intros Ht. split; [|by destruct s; try done; apply Hstep].
    apply rtc_r with InProgress; [|by apply Hstep].
    destruct s; try done; try apply rtc_refl; by apply rtc_once, Hstep.
  - intros s' Hs. induction Hs as [s s' H%lifecycle_step_iff|]; [|done]. by intros ->; destruct s.
Qed.

(** an instance completes only from [InProgress]: along every run from
    [Created] to [Completed] the state before [Completed] is [InProgress], so
    no waiting state can be completed without returning to progress. *)
Theorem completed_after_in_progress (s : FlowInstanceStatus) :
  tc lifecycle_step s Completed ->
  exists s1, rtc lifecycle_step s s1 /\ s1 = InProgress /\ lifecycle_step s1 Completed.
Proof.
  intros Hs.
  assert (exists s1, rtc lifecycle_step s s1 /\ lifecycle_step s1 Completed) as (s1 & Hr & Hl).
  { revert Hs. generalize Completed. intros c Hc. induction Hc as [x y H|x y z H _ (s1 & H1 & H2)].
    - exists x. split; [apply rtc_refl|done].
    - exists s1. split; [by apply rtc_l with y|done]. }
  exists s1. split; [done|]. split; [|done]. apply lifecycle_step_iff in Hl. by destruct s1.
Qed.

(** ** Graphs *)

(** What a valid flow graph is. *)
Record graph_ok (r : FlowGraphRequest) : Prop := {
  go_steps : 0 < length (steps r) <= MAX_STEPS;
  go_transitions : length (transitions r) <= MAX_TRANSITIONS;
  go_ids_valid : Forall (fun s => valid_step_id s = true) (step_id <$> steps r);
  go_ids_unique : NoDup (step_id <$> steps r);
  go_entry : entry_step_id r ∈ step_id <$> steps r;
  go_declared : declared (step_id <$> steps r) (transitions r);
  go_deterministic : NoDup (decision_key <$> transitions r);
  go_reachable : forall s, s ∈ step_id <$> steps r -> rtc (edge (transitions r)) (entry_step_id r) s;
  go_acyclic : forall s, ~ tc (edge (transitions r)) s s;
}.

Lemma rtc_edge_ids ids ts u v : declared ids ts -> u ∈ ids -> rtc (edge ts) u v -> v ∈ ids.
Proof. intros Hd Hu. induction 1 as [|x y z Hxy _ IH]; [done|]. apply IH. by apply (declared_edge ids ts x y). Qed.

Lemma size_reachable_iff (ids : list string) (R : gset string) :
  NoDup ids -> (forall s, s ∈ R -> s ∈ ids) -> size R = length ids <-> forall s, s ∈ ids -> s ∈ R.
Proof.
  intros HN Hsub. rewrite <- (size_list_to_set (C := gset string)) by done. split.
  - intros Hsize s Hs. assert (R = list_to_set ids) as ->.
    { apply set_subseteq_size_eq; [set_solver|lia]. }
    by apply elem_of_list_to_set.
  - intros Hall. f_equal. set_solver.
Qed.

Section HashOrder.
Context (hash_order : list string -> list string).
Context (Hperm : forall l, hash_order l ≡ₚ l).

Lemma tables_after_initial ids ts g s :
  tables_after ts (initial_tables ids) g -> s ∈ ids ->
  adjacency g !! s = Some (succs ts s) /\ indegree g !! s = Some (preds_count ts s).
Proof.
  intros (_ & Ha & Hi) Hs. rewrite Ha, Hi. unfold initial_tables; simpl.
  by rewrite !initial_tables_lookup, !decide_True by done.
Qed.

Lemma length_ids (r : FlowGraphRequest) : length (step_id <$> steps r) = length (steps r).
Proof. apply length_fmap. Qed.

(** The last phases, once the tables are built: they never panic and succeed
    exactly on reachable, acyclic graphs. *)
Lemma graph_phases (r : FlowGraphRequest) (g : GraphTables) :
  let ids := step_id <$> steps r in
  let ts := transitions r in
  NoDup ids -> declared ids ts -> entry_step_id r ∈ ids -> tables_after ts (initial_tables ids) g ->
  exists R n,
    reach_loop (S (length ts)) (adjacency g) ∅ [entry_step_id r] = Ok R /\
    (size R = length (steps r) <-> forall s, s ∈ ids -> rtc (edge ts) (entry_step_id r) s) /\
    topo_loop (length (steps r)) (adjacency g) (indegree g)
      (filter (fun s => indegree g !! s = Some 0) (hash_order ids)) 0 = Ok n /\
    (n = length (steps r) <-> acyclic ts).
Proof.
  intros ids ts HN Hd He Htab.
  destruct (reach_loop_spec ids ts HN Hd (adjacency g)) with (entry := entry_step_id r) as (R & HR & Hspec);
    [by intros s Hs; apply (tables_after_initial ids ts g s)|done|].
  destruct (topo_phase ids ts HN Hd (adjacency g) (indegree g) (hash_order ids)) as (n & Hn & Hac);
    [by intros s Hs; apply (tables_after_initial ids ts g s)|by intros s Hs; apply (tables_after_initial ids ts g s)|apply Hperm|].
  exists R, n. unfold ids in Hn, Hac. rewrite length_ids in Hn, Hac. split_and!; [done| |done|done].
  rewrite <- length_ids. fold ids. rewrite size_reachable_iff; [|done|].
  - split; intros H s Hs; apply Hspec; auto || by apply Hspec, H.
  - intros s Hs%Hspec. by eapply rtc_edge_ids.
Qed.

Lemma validate_graph_iff (r : FlowGraphRequest) (d : FlowGraphDecision) :
  validate_graph hash_order r = Ok d <->
  graph_ok r /\ d = mkGraphDecision true (length (steps r)) (length (transitions r)).
Proof.
  unfold validate_graph. split.
  - intros H. res_inv. breflect.
    repeat match goal with
    | Hx : (_ =? _)%nat = true |- _ => apply Nat.eqb_eq in Hx
    | Hx : (_ =? _)%nat = false |- _ => apply Nat.eqb_neq in Hx
    | Hx : (_ <? _)%nat = false |- _ => apply Nat.ltb_ge in Hx end.
    match goal with Hc : collect_step_ids _ _ = Ok _ |- _ =>
      apply collect_step_ids_Ok in Hc as (Hval & HN & _ & ->) end.
    match goal with Hb : build_tables _ _ _ = Ok _ |- _ =>
      pose proof (build_tables_inv _ _ _ _ Hb) as (Hd & HNk & Hfresh);
      destruct (build_tables_Ok (list_to_set (step_id <$> steps r) ∪ ∅) (transitions r)
                  (initial_tables (step_id <$> steps r))) as (g' & Hb' & Htab) end.
    { intros s Hs. apply initial_tables_cover. set_solver. }
    { done. } { done. } { set_solver. }
    assert (Hdecl : declared (step_id <$> steps r) (transitions r)).
    { intros t Ht. specialize (Hd t Ht). set_solver. }
    res_det. destruct (graph_phases r _ HN Hdecl ltac:(set_solver) Htab) as (R & n & HR & HRiff & Hn & Hniff).
    res_det. split; [|done]. split; try done; try lia; [set_solver|by apply HRiff|by apply Hniff].
  - intros [Hok ->]. destruct Hok as [Hs Ht Hval HN He Hdecl Hdet Hreach Hac].
    assert (Hentry : valid_step_id (entry_step_id r) = true) by (rewrite Forall_forall in Hval; auto).
    rewrite (proj2 (Nat.eqb_neq _ 0)) by lia. cbn [ensure negb mbind res_bind]. rewrite (proj2 (Nat.ltb_ge MAX_STEPS _)) by lia. cbn [ensure negb mbind res_bind].
    rewrite (proj2 (Nat.ltb_ge MAX_TRANSITIONS _)) by lia. cbn [ensure negb mbind res_bind]. rewrite Hentry. cbn [ensure negb mbind res_bind].
    rewrite (proj2 (collect_step_ids_Ok (steps r) ∅ (list_to_set (step_id <$> steps r) ∪ ∅)));
      [|split_and!; try done; set_solver]. cbn [ensure negb mbind res_bind].
    rewrite (bool_decide_eq_true_2 (entry_step_id r ∈ (list_to_set (step_id <$> steps r) ∪ ∅ : gset string)))
      by set_solver. cbn [ensure negb mbind res_bind].
    destruct (build_tables_Ok (list_to_set (step_id <$> steps r) ∪ ∅) (transitions r)
                (initial_tables (step_id <$> steps r))) as (g & Hb & Htab).
    { intros s Hs'. apply initial_tables_cover. set_solver. }
    { intros t Ht'. specialize (Hdecl t Ht'). set_solver. } { done. } { set_solver. }
    rewrite Hb. cbn [mbind res_bind].
    destruct (graph_phases r g) as (R & n & HR & HRiff & Hn & Hniff); try done.
    rewrite HR. cbn [mbind res_bind]. rewrite (proj2 HRiff) by done. rewrite Nat.eqb_refl. cbn [ensure mbind res_bind].
    rewrite Hn. cbn [mbind res_bind]. rewrite (proj2 Hniff) by done. by rewrite Nat.eqb_refl.
Qed.

Lemma validate_graph_total (r : FlowGraphRequest) : no_panic (validate_graph hash_order r).
Proof.
  unfold validate_graph. do 4 (apply bind_no_panic; [auto with marty|intros _ _]).
  apply bind_no_panic; [apply collect_step_ids_no_panic|]. intros S HS.
  apply collect_step_ids_Ok in HS as (Hval & HN & _ & ->).
  apply bind_no_panic; [auto with marty|]. intros [] Hentry%ensure_Ok. breflect.
  assert (Hcov : tables_cover (list_to_set (step_id <$> steps r) ∪ ∅) (initial_tables (step_id <$> steps r))).
  { intros s Hs. apply initial_tables_cover. set_solver. }
  apply bind_no_panic; [by apply build_tables_no_panic|]. intros g Hg.
  pose proof (build_tables_inv _ _ _ _ Hg) as (Hd & HNk & Hfresh).
  destruct (build_tables_Ok _ (transitions r) _ Hcov Hd HNk Hfresh) as (g' & Hg' & Htab). res_det.
  assert (Hdecl : declared (step_id <$> steps r) (transitions r)).
  { intros t Ht. specialize (Hd t Ht). set_solver. }
  destruct (graph_phases r _ HN Hdecl ltac:(set_solver) Htab) as (R & n & HR & _ & Hn & _).
  rewrite HR. cbn [mbind res_bind]. apply bind_no_panic; [auto with marty|intros _ _].
  rewrite Hn. cbn [mbind res_bind]. solve_no_panic.
Qed.

(** C7: [validate_graph] accepts exactly the valid flow graphs, whatever the
    iteration order of its hash maps: at most 1024 unique well-formed steps and
    8192 transitions between declared steps, at most one transition per step
    and outcome, every step reachable from the entry, and no cycle.  On every
    request it terminates without panicking: no table lookup fails, no degree
    underflows, and both worklist loops finish. *)
Theorem validate_graph_correct (r : FlowGraphRequest) :
  no_panic (validate_graph hash_order r) /\
  forall d, validate_graph hash_order r = Ok d <->
    graph_ok r /\ d = mkGraphDecision true (length (steps r)) (length (transitions r)).
Proof. split; [apply validate_graph_total|apply validate_graph_iff]. Qed.

Lemma find_Some_iff (r : FlowGraphRequest) s o t :
  NoDup (decision_key <$> transitions r) ->
  List.find (fun t => bool_decide (from_step_id t = s) && bool_decide (outcome t = o)) (transitions r)
    = Some t <-> t ∈ transitions r /\ from_step_id t = s /\ outcome t = o.
Proof.
  intros HN. split.
  - intros H. apply List.find_some in H as [Hin Hb]. breflect. by apply list_elem_of_In in Hin.
  - intros (Hin & Hf & Ho).
    destruct (List.find _ _) as [t'|] eqn:E.
    + apply List.find_some in E as [Hin' Hb]. breflect. apply list_elem_of_In in Hin'. f_equal.
      apply list_elem_of_lookup in Hin as [i Hi]. apply list_elem_of_lookup in Hin' as [j Hj].
      assert (i = j) as ->; [|congruence].
      eapply (NoDup_lookup (decision_key <$> transitions r)); [done| |]; rewrite list_lookup_fmap.
      * by rewrite Hi.
      * rewrite Hj. simpl. unfold decision_key. congruence.
    + apply list_elem_of_In in Hin. apply (List.find_none _ _ E) in Hin.
      rewrite !bool_decide_eq_true_2 in Hin by done. discriminate Hin.
Qed.

(** on a valid graph [select_next_step] follows the edge relation: for a
    declared step it returns [Some next] exactly when there is a transition
    from that step with that outcome, which is then unique, and the next step
    is itself declared; an undeclared step is an error, and an invalid graph
    selects nothing. *)
Theorem select_next_step_correct (r : FlowGraphRequest) (s : string) (o : TransitionOutcome) :
  match select_next_step hash_order r s o with
  | Ok (Some s') =>
      graph_ok r /\ s' ∈ step_id <$> steps r /\ edge (transitions r) s s' /\
      exists! t, t ∈ transitions r /\ from_step_id t = s /\ outcome t = o /\ to_step_id t = s'
  | Ok None =>
      graph_ok r /\ s ∈ step_id <$> steps r /\
      forall t, t ∈ transitions r -> from_step_id t = s -> outcome t <> o
  | Err _ => ~ graph_ok r \/ s ∉ step_id <$> steps r
  | Panic => False
  end.
Proof.
  unfold select_next_step. pose proof (validate_graph_iff r) as Hv.
  pose proof (validate_graph_total r) as Hnp.
  destruct (validate_graph hash_order r) as [d|e|] eqn:E; cbn [mbind res_bind].
  - destruct (proj1 (Hv d) eq_refl) as [Hok _].
    destruct (existsb _ (steps r)) eqn:Hex; cbn [ensure mbind res_bind].
    + apply existsb_exists in Hex as (st & Hst & Hs%bool_decide_eq_true).
      assert (s ∈ step_id <$> steps r) by (rewrite <- Hs; apply list_elem_of_fmap_2; by apply list_elem_of_In).
      destruct (List.find _ _) as [t|] eqn:Hf; simpl.
      * apply (find_Some_iff r s o t (go_deterministic r Hok)) in Hf as (Hin & Hfr & Ho).
        split_and!; [done|by apply (go_declared r Hok)|by exists t|].
        exists t. split; [done|]. intros t' (Hin' & Hf' & Ho' & _).
        pose proof (proj2 (find_Some_iff r s o t (go_deterministic r Hok)) (conj Hin (conj Hfr Ho))).
        pose proof (proj2 (find_Some_iff r s o t' (go_deterministic r Hok)) (conj Hin' (conj Hf' Ho'))). congruence.
      * split_and!; [done|done|]. intros t Hin Hfr Ho.
        rewrite (proj2 (find_Some_iff r s o t (go_deterministic r Hok))) in Hf; done.
    + right. intros (st & -> & Hst)%list_elem_of_fmap. apply not_true_iff_false in Hex. apply Hex.
      apply existsb_exists. exists st. split; [by apply list_elem_of_In|by apply bool_decide_eq_true_2].
  - left. intros Hok. by pose proof (proj2 (Hv _) (conj Hok eq_refl)).
  - done.
Qed.

Lemma select_next_step_edge (r : FlowGraphRequest) s o s' :
  select_next_step hash_order r s o = Ok (Some s') ->
  graph_ok r /\ s' ∈ step_id <$> steps r /\ edge (transitions r) s s'.
Proof.
  unfold select_next_step. intros H. res_inv.
  match goal with Hv : validate_graph _ _ = Ok _ |- _ => apply validate_graph_iff in Hv as [Hok _] end.
  destruct (List.find _ _) as [t|] eqn:Hf; [|done]. injection H as <-.
  apply (find_Some_iff r s o t (go_deterministic r Hok)) in Hf as (Hin & Hfr & Ho).
  split_and!; [done|by apply (go_declared r Hok)|by exists t].
Qed.

(** A run of the flow engine: each step selected by some outcome. *)
Inductive flow_run (r : FlowGraphRequest) : string -> list string -> Prop :=
| flow_run_stop s : flow_run r s []
| flow_run_step s o s' l :
    select_next_step hash_order r s o = Ok (Some s') -> flow_run r s' l -> flow_run r s (s' :: l).

Lemma flow_run_path r s l :
  flow_run r s l -> Forall (fun x => tc (edge (transitions r)) s x /\ x ∈ step_id <$> steps r) l /\
  (graph_ok r -> NoDup l).
Proof.
  induction 1 as [s|s o s' l Hsel _ [HF HN]]; [split; [done|intros _; apply NoDup_nil_2]|].
  apply select_next_step_edge in Hsel as (Hok & Hin & Hedge). split.
  - apply Forall_cons. split; [by split; [constructor|]|].
    eapply Forall_impl; [exact HF|]. intros x [Hx ?]. split; [by eapply tc_l|done].
  - intros _. apply NoDup_cons. split; [|by apply HN]. intros Hin'. rewrite Forall_forall in HF.
    destruct (HF s' Hin') as [Htc _]. by apply (go_acyclic r Hok s').
Qed.

(** every run of a valid flow is finite and never visits a step twice: a
    sequence of selections from a declared step visits at most
    [length (steps r) - 1] further steps. *)
Theorem flow_run_terminates (r : FlowGraphRequest) (s : string) (l : list string) :
  graph_ok r -> s ∈ step_id <$> steps r -> flow_run r s l ->
  NoDup (s :: l) /\ length l < length (steps r).
Proof.
  intros Hok Hs Hrun. destruct (flow_run_path r s l Hrun) as [HF HN].
  assert (HND : NoDup (s :: l)).
  { apply NoDup_cons. split; [|by apply HN]. intros Hin. rewrite Forall_forall in HF.
    destruct (HF s Hin) as [Htc _]. by apply (go_acyclic r Hok s). }
  split; [done|]. rewrite <- length_ids. change (length l < length (step_id <$> steps r)) with
    (length (s :: l) <= length (step_id <$> steps r)).
  apply submseteq_length, NoDup_submseteq; [done|].
  intros x [->|Hx]%elem_of_cons; [done|]. rewrite Forall_forall in HF. by apply HF.
Qed.
End HashOrder.

(** ** Witnesses *)
Definition sample_graph : FlowGraphRequest :=
  mkGraph "start" [mkStep "start"; mkStep "approve"; mkStep "end"]
    [mkTransition "start" "approve" Success; mkTransition "approve" "end" ApprovalGranted;
     mkTransition "start" "end" Failure].

Lemma sample_graph_ok : graph_ok sample_graph.
Proof. by apply (validate_graph_iff id (fun l => reflexivity l) sample_graph (mkGraphDecision true 3 3)). Qed.

Lemma completed_after_in_progress_witness :
  exists s1, rtc lifecycle_step AwaitingWallet s1 /\ s1 = InProgress /\ lifecycle_step s1 Completed.
Proof.
  apply (completed_after_in_progress AwaitingWallet).
  apply tc_l with InProgress; [|apply tc_once]; 
    (eexists None, None, _; split; reflexivity).
Defined.

Lemma validate_graph_correct_witness :
  (forall l : list string, rev l ≡ₚ l) /\ no_panic (validate_graph (@rev string) sample_graph) /\
  forall d, validate_graph (@rev string) sample_graph = Ok d <->
    graph_ok sample_graph /\ d = mkGraphDecision true 3 3.
Proof.
  split; [intros l; apply Permutation_sym, Permutation_rev|].
  apply (validate_graph_correct (@rev string) (fun l => Permutation_sym (Permutation_rev l)) sample_graph).
Defined.

Lemma select_next_step_correct_witness :
  select_next_step id sample_graph "start" Success = Ok (Some "approve") /\
  "approve" ∈ step_id <$> steps sample_graph.
Proof.
  split; [reflexivity|].
  pose proof (select_next_step_correct id (fun l => reflexivity l) sample_graph "start" Success) as H.
  exact (proj1 (proj2 H)).
Defined.

Lemma flow_run_terminates_witness : length ["approve"; "end"] < length (steps sample_graph).
Proof.
  apply (flow_run_terminates id (fun l => reflexivity l) sample_graph "start" ["approve"; "end"]).
  - apply sample_graph_ok.
  - by left.
  - apply flow_run_step with Success; [reflexivity|].
    apply flow_run_step with ApprovalGranted; [reflexivity|]. constructor.
Defined.

(** A cycle is rejected although every step is reachable. *)
Example cyclic_graph_rejected :
  validate_graph id (mkGraph "a" [mkStep "a"; mkStep "b"]
    [mkTransition "a" "b" Success; mkTransition "b" "a" Failure])
  = Err (InvalidGraph "flow graph must be acyclic").
Proof. reflexivity. Qed.
