(* ===== verification/Mrz.v ===== *)
(** * Machine readable zones (marty-verification, [mrz/checksum.rs] and
    [mrz/parser.rs])

    Check digits of ICAO 9303 and the parser of the TD1, TD2 and TD3 formats.
    Byte slices of the lines panic when out of range, as in the source; the
    case mapping of [str::to_uppercase] is the parameter [Unicode]. *)

From S2P Require Import Prelude RustStr.
From stdpp Require Import pretty.
Local Open Scope Z_scope.

(** [src/marty-verification/src/error/builders.rs:657-667] encoding_error *)
Inductive MrzError := encoding_error (reason : string).

#[local] Abbreviation result := (res MrzError).

(** The filler [<]. *)
Definition filler : Z := 60.

(** ** Check digits *)

(** [src/marty-verification/src/mrz/checksum.rs:6-6] WEIGHTS *)
Definition WEIGHTS : list Z := [7; 3; 1].

(** [src/marty-verification/src/mrz/checksum.rs:74-83] char_value *)
Definition char_value (c : Z) : Z :=
  if c =? filler then 0
  else if is_ascii_digit c then c - 48
  else if is_ascii_uppercase c then c - 65 + 10
  else if is_ascii_lowercase c then c - 97 + 10
  else 0.

(** [char::from_digit(d, 10)]. *)
Definition from_digit10 (d : Z) : option Z :=
  if (0 <=? d) && (d <? 10) then Some (48 + d) else None.

(** [src/marty-verification/src/mrz/checksum.rs:8-37] compute_check_digit *)
Definition compute_check_digit (input : rstr) : Z :=
  let products :=
    imap (fun i c => wrap 32 (char_value c * (WEIGHTS !!! (i `mod` 3)%nat))) input in
  let sum := foldl (fun acc v => wrap 32 (acc + v)) 0 products in
  let digit := sum mod 10 in
  default 48 (from_digit10 digit).

(** [src/marty-verification/src/mrz/checksum.rs:39-51] validate_check_digit *)
Definition validate_check_digit (data : rstr) (check_digit : Z) : bool :=
  compute_check_digit data =? check_digit.

(** [src/marty-verification/src/mrz/checksum.rs:53-72] compute_composite_check_digit *)
Definition compute_composite_check_digit (fields : list (rstr * Z)) : Z :=
  compute_check_digit (concat ((fun f => f.1 ++ [f.2]) <$> fields)).

(** [src/marty-verification/src/mrz/checksum.rs:85-88] compute_date_check_digit *)
Definition compute_date_check_digit (date : rstr) : Z := compute_check_digit date.

(** [src/marty-verification/src/mrz/checksum.rs:90-115] compute_mrz_information *)
Definition compute_mrz_information (document_number date_of_birth date_of_expiry : rstr) : rstr :=
  let doc_num := replace_char 32 filler (pad_right 9 document_number) in
  let doc_check := compute_check_digit doc_num in
  let dob_check := compute_check_digit date_of_birth in
  let doe_check := compute_check_digit date_of_expiry in
  doc_num ++ [doc_check] ++ date_of_birth ++ [dob_check] ++ date_of_expiry ++ [doe_check].

(** ** Formats and parsed data *)

(** [src/marty-verification/src/mrz/parser.rs:9-18] MrzFormat *)
Inductive MrzFormat := TD1 | TD2 | TD3.

#[export] Instance MrzFormat_eq_dec : EqDecision MrzFormat.
Proof. solve_decision. Defined.

(** [src/marty-verification/src/mrz/parser.rs:21-28] MrzFormat::line_length *)
Definition line_length (f : MrzFormat) : Z :=
  match f with TD1 => 30 | TD2 => 36 | TD3 => 44 end.

(** [src/marty-verification/src/mrz/parser.rs:30-36] MrzFormat::line_count *)
Definition line_count (f : MrzFormat) : Z :=
  match f with TD1 => 3 | TD2 | TD3 => 2 end.

(** [src/marty-verification/src/mrz/parser.rs:39-74] Mrz *)
Record Mrz := mkMrz {
  format : MrzFormat;
  document_type : rstr;
  issuing_country : rstr;
  surname : rstr;
  given_names : rstr;
  document_number : rstr;
  document_number_check : Z;
  nationality : rstr;
  date_of_birth : rstr;
  date_of_birth_check : Z;
  sex : Z;
  date_of_expiry : rstr;
  date_of_expiry_check : Z;
  optional_data : rstr;
  composite_check : option Z;
  raw_lines : list rstr;
}.

(** [src/marty-verification/src/mrz/parser.rs:166-172] format_name *)
Definition format_name (f : MrzFormat) : string :=
  match f with TD1 => "TD1" | TD2 => "TD2" | TD3 => "TD3" end.

(** [src/marty-verification/src/mrz/parser.rs:174-176] check_digit_at *)
Definition check_digit_at (line : rstr) (index : nat) : option Z := as_bytes line !! index.

(** [x && y] where evaluating an operand can panic. *)
Definition and_also (x : result bool) (y : result bool) : result bool :=
  b ← x; if b : bool then y else Ok false.
#[local] Infix "&&&" := and_also (at level 40, left associativity).

(** [validate_check_digit(&line[a..b], check_digit_at(line, i).unwrap_or('<'))]. *)
Definition field_check (line : rstr) (a b : Z) (i : nat) : result bool :=
  data ← str_slice line a b;
  Ok (validate_check_digit data (default filler (check_digit_at line i))).

(** [src/marty-verification/src/mrz/parser.rs:178-194] validate_td1_check_digits *)
Definition validate_td1_check_digits (lines : list rstr) : result bool :=
  match lines with
  | [line1; line2; _] =>
      a ← str_slice line1 5 30;
      b ← str_slice line2 0 7;
      c ← str_slice line2 8 15;
      d ← str_slice line2 18 29;
      let composite_data := a ++ b ++ c ++ d in
      field_check line1 5 14 14
      &&& field_check line2 0 6 6
      &&& field_check line2 8 14 14
      &&& Ok (compute_check_digit composite_data =? default filler (check_digit_at line2 29))
  | _ => Ok false
  end.

(** [src/marty-verification/src/mrz/parser.rs:196-206] validate_td2_check_digits *)
Definition validate_td2_check_digits (lines : list rstr) : result bool :=
  match lines with
  | [_; line2] =>
      a ← str_slice line2 0 10;
      b ← str_slice line2 13 20;
      c ← str_slice line2 21 35;
      let composite_data := a ++ b ++ c in
      field_check line2 0 9 9
      &&& field_check line2 13 19 19
      &&& field_check line2 21 27 27
      &&& Ok (compute_check_digit composite_data =? default filler (check_digit_at line2 35))
  | _ => Ok false
  end.

(** [src/marty-verification/src/mrz/parser.rs:208-219] validate_td3_check_digits *)
Definition validate_td3_check_digits (lines : list rstr) : result bool :=
  match lines with
  | [_; line2] =>
      a ← str_slice line2 0 10;
      b ← str_slice line2 13 20;
      c ← str_slice line2 21 43;
      let composite_data := a ++ b ++ c in
      field_check line2 0 9 9
      &&& field_check line2 13 19 19
      &&& field_check line2 21 27 27
      &&& field_check line2 28 42 42
      &&& Ok (compute_check_digit composite_data =? default filler (check_digit_at line2 43))
  | _ => Ok false
  end.

(** [src/marty-verification/src/mrz/parser.rs:77-84] Mrz::validate_check_digits *)
Definition validate_check_digits (m : Mrz) : result bool :=
  match format m with
  | TD1 => validate_td1_check_digits (raw_lines m)
  | TD2 => validate_td2_check_digits (raw_lines m)
  | TD3 => validate_td3_check_digits (raw_lines m)
  end.

(** [src/marty-verification/src/mrz/parser.rs:86-93] Mrz::mrz_information *)
Definition mrz_information (m : Mrz) : rstr :=
  compute_mrz_information (document_number m) (date_of_birth m) (date_of_expiry m).

(** [src/marty-verification/src/mrz/parser.rs:95-102] Mrz::full_name *)
Definition full_name (m : Mrz) : rstr :=
  match given_names m with
  | [] => surname m
  | _ => given_names m ++ [32] ++ surname m
  end.

(** ** Parsing *)

(** The line test of [validate_line_structure]: ASCII, letters, digits and
    fillers only. *)
Definition line_chars_ok (line : rstr) : bool :=
  is_ascii line &&
  forallb (fun byte => (byte =? filler) || is_ascii_alphanumeric byte) (as_bytes line).

Fixpoint validate_lines_from (f : MrzFormat) (index : nat) (lines : list rstr) : result unit :=
  match lines with
  | [] => Ok tt
  | line :: rest =>
      ensure (line_chars_ok line)
        (encoding_error ("MRZ line " +:+ pretty (index + 1)%nat +:+ " contains invalid characters"));;
      ensure (str_len line =? line_length f)
        (encoding_error (format_name f +:+ " line " +:+ pretty (index + 1)%nat
           +:+ " must be exactly " +:+ pretty (line_length f) +:+ " characters"));;
      validate_lines_from f (S index) rest
  end.

(** [src/marty-verification/src/mrz/parser.rs:133-164] validate_line_structure *)
Definition validate_line_structure (lines : list rstr) (f : MrzFormat) : result unit :=
  ensure (zlen lines =? line_count f)
    (encoding_error (format_name f +:+ " requires exactly " +:+ pretty (line_count f) +:+ " lines"));;
  validate_lines_from f 0 lines.

(** [src/marty-verification/src/mrz/parser.rs:227-252] detect_format *)
Definition detect_format (lines : list rstr) : result MrzFormat :=
  let n := zlen lines in
  let first_line_len := default 0 (str_len <$> head lines) in
  if (n =? 3) && (first_line_len =? 30) then Ok TD1
  else if (n =? 2) && (first_line_len =? 36) then Ok TD2
  else if (n =? 2) && (first_line_len =? 44) then Ok TD3
  else if first_line_len =? 44 then Ok TD3
  else if first_line_len =? 36 then Ok TD2
  else if first_line_len =? 30 then Ok TD1
  else Err (encoding_error ("Unknown MRZ format: " +:+ pretty n +:+ " lines, "
                              +:+ pretty first_line_len +:+ " chars")).

(** [src/marty-verification/src/mrz/parser.rs:412-433] parse_name *)
Definition parse_name (name_field : rstr) : rstr * rstr :=
  let parts := split_pair filler name_field in
  let clean p := trim (replace_char filler 32 p) in
  (clean (default [] (parts !! 0%nat)), clean (default [] (parts !! 1%nat))).

(** [src/marty-verification/src/mrz/parser.rs:254-311] parse_td1 *)
Definition parse_td1 (lines : list rstr) : result Mrz :=
  ensure (negb (zlen lines <? 3)) (encoding_error "TD1 requires 3 lines");;
  line1 ← vec_index lines 0;
  line2 ← vec_index lines 1;
  line3 ← vec_index lines 2;
  document_type ← str_slice line1 0 2;
  let document_type := trim_end_matches filler document_type in
  issuing_country ← str_slice line1 2 5;
  document_number ← str_slice line1 5 14;
  let document_number_check := default filler (line1 !! 14%nat) in
  optional_data_1 ← str_slice line1 15 30;
  date_of_birth ← str_slice line2 0 6;
  let date_of_birth_check := default filler (line2 !! 6%nat) in
  let sex := default filler (line2 !! 7%nat) in
  date_of_expiry ← str_slice line2 8 14;
  let date_of_expiry_check := default filler (line2 !! 14%nat) in
  nationality ← str_slice line2 15 18;
  optional_data_2 ← str_slice line2 18 29;
  let composite_check := line2 !! 29%nat in
  let name := parse_name line3 in
  let optional_data :=
    trim_end_matches filler optional_data_1 ++ trim_end_matches filler optional_data_2 in
  Ok (mkMrz TD1 document_type issuing_country name.1 name.2
        (trim_end_matches filler document_number) document_number_check nationality
        date_of_birth date_of_birth_check sex date_of_expiry date_of_expiry_check
        optional_data composite_check lines).

(** [src/marty-verification/src/mrz/parser.rs:313-360] parse_td2 *)
Definition parse_td2 (lines : list rstr) : result Mrz :=
  ensure (negb (zlen lines <? 2)) (encoding_error "TD2 requires 2 lines");;
  line1 ← vec_index lines 0;
  line2 ← vec_index lines 1;
  document_type ← str_slice line1 0 2;
  let document_type := trim_end_matches filler document_type in
  issuing_country ← str_slice line1 2 5;
  name_field ← str_slice line1 5 36;
  let name := parse_name name_field in
  document_number ← str_slice line2 0 9;
  let document_number_check := default filler (line2 !! 9%nat) in
  nationality ← str_slice line2 10 13;
  date_of_birth ← str_slice line2 13 19;
  let date_of_birth_check := default filler (line2 !! 19%nat) in
  let sex := default filler (line2 !! 20%nat) in
  date_of_expiry ← str_slice line2 21 27;
  let date_of_expiry_check := default filler (line2 !! 27%nat) in
  optional_data ← str_slice line2 28 35;
  let composite_check := line2 !! 35%nat in
  Ok (mkMrz TD2 document_type issuing_country name.1 name.2
        (trim_end_matches filler document_number) document_number_check nationality
        date_of_birth date_of_birth_check sex date_of_expiry date_of_expiry_check
        (trim_end_matches filler optional_data) composite_check lines).

(** [src/marty-verification/src/mrz/parser.rs:362-410] parse_td3 *)
Definition parse_td3 (lines : list rstr) : result Mrz :=
  ensure (negb (zlen lines <? 2)) (encoding_error "TD3 requires 2 lines");;
  line1 ← vec_index lines 0;
  line2 ← vec_index lines 1;
  document_type ← str_slice line1 0 2;
  let document_type := trim_end_matches filler document_type in
  issuing_country ← str_slice line1 2 5;
  name_field ← str_slice line1 5 44;
  let name := parse_name name_field in
  document_number ← str_slice line2 0 9;
  let document_number_check := default filler (line2 !! 9%nat) in
  nationality ← str_slice line2 10 13;
  date_of_birth ← str_slice line2 13 19;
  let date_of_birth_check := default filler (line2 !! 19%nat) in
  let sex := default filler (line2 !! 20%nat) in
  date_of_expiry ← str_slice line2 21 27;
  let date_of_expiry_check := default filler (line2 !! 27%nat) in
  optional_data ← str_slice line2 28 42;
  let composite_check := line2 !! 43%nat in
  Ok (mkMrz TD3 document_type issuing_country name.1 name.2
        (trim_end_matches filler document_number) document_number_check nationality
        date_of_birth date_of_birth_check sex date_of_expiry date_of_expiry_check
        (trim_end_matches filler optional_data) composite_check lines).

Section parse.
Context `{Unicode}.

(** The clean-up of the input lines. *)
Definition clean_lines (lines : list rstr) : list rstr :=
  filter (fun l => l ≠ []) ((fun l => to_uppercase (trim l)) <$> lines).

(** [src/marty-verification/src/mrz/parser.rs:105-131] parse_mrz *)
Definition parse_mrz (lines : list rstr) : result Mrz :=
  let lines := clean_lines lines in
  ensure (negb (zlen lines =? 0)) (encoding_error "No MRZ lines provided");;
  f ← detect_format lines;
  validate_line_structure lines f;;
  match f with
  | TD1 => parse_td1 lines
  | TD2 => parse_td2 lines
  | TD3 => parse_td3 lines
  end.

(** [src/marty-verification/src/mrz/parser.rs:221-225] parse_mrz_string *)
Definition parse_mrz_string (mrz_text : rstr) : result Mrz := parse_mrz (str_lines mrz_text).
End parse.
