(* ===== verification/MrzFacts.v ===== *)
(** * Machine readable zones: properties

    The parser accepts exactly the zones of one of the three layouts, never
    panics and reads every field at its place; a printed document parses back
    to itself with valid check digits; the check digit detects single
    substitutions; the key-derivation string is made of the raw fields. *)

From S2P Require Import Prelude RustStr Mrz.
From stdpp Require Import pretty.
Local Open Scope Z_scope.

(** ** Check digits as a weighted sum *)
Definition weight (i : nat) : Z := WEIGHTS !!! (i `mod` 3)%nat.

Fixpoint weighted_sum (i : nat) (s : rstr) : Z :=
  match s with
  | [] => 0
  | c :: s' => char_value c * weight i + weighted_sum (S i) s'
  end.

Lemma weight_cases i : weight i = 7 \/ weight i = 3 \/ weight i = 1.
Proof.
  unfold weight. pose proof (Nat.mod_upper_bound i 3).
  destruct (i mod 3)%nat as [|[|[|]]]; simpl; lia.
Qed.

Lemma char_value_bound c : 0 <= char_value c <= 35.
Proof.
  unfold char_value, is_ascii_digit, is_ascii_uppercase, is_ascii_lowercase.
  repeat case_match; breflect; lia.
Qed.

Lemma product_bound c i : 0 <= char_value c * weight i <= 245.
Proof. pose proof (char_value_bound c). destruct (weight_cases i) as [->|[->| ->]]; lia. Qed.

Lemma weighted_sum_bound s : forall i, 0 <= weighted_sum i s <= 245 * zlen s.
Proof.
  induction s as [|c s IH]; intros i; simpl; [unfold zlen; simpl; lia|].
  specialize (IH (S i)). pose proof (product_bound c i).
  unfold zlen in *. simpl length. lia.
Qed.

Lemma fold_products s : forall i acc,
  0 <= acc -> acc + 245 * zlen s < 2 ^ 32 ->
  foldl (fun acc v => wrap 32 (acc + v)) acc
    (imap (fun j c => wrap 32 (char_value c * weight (i + j))) s)
  = acc + weighted_sum i s.
Proof.
  induction s as [|c s IH]; intros i acc H0 Hb; simpl; [lia|].
  pose proof (product_bound c i) as Hp.
  unfold zlen in *. simpl length in Hb.
  rewrite (imap_ext _ (fun j c => wrap 32 (char_value c * weight (S i + j))))
    by (intros j x _; unfold compose; by rewrite Nat.add_succ_r).
  rewrite Nat.add_0_r.
  assert (wrap 32 (acc + wrap 32 (char_value c * weight i)) = acc + char_value c * weight i) as ->.
  { unfold wrap. rewrite (Z.mod_small (char_value c * weight i)) by lia. apply Z.mod_small. lia. }
  rewrite IH by lia. lia.
Qed.

(** The digit is the weighted sum modulo ten as long as the sum fits in the
    accumulator, that is for inputs of up to 17 million characters. *)
Lemma compute_check_digit_sum s :
  245 * zlen s < 2 ^ 32 -> compute_check_digit s = 48 + weighted_sum 0 s mod 10.
Proof.
  intros Hs. unfold compute_check_digit.
  pose proof (fold_products s 0 0) as Hf. unfold weight in Hf. cbn [Nat.add] in Hf.
  rewrite Hf by lia. rewrite Z.add_0_l. unfold from_digit10.
  pose proof (Z.mod_pos_bound (weighted_sum 0 s) 10).
  rewrite (proj2 (Z.leb_le _ _)), (proj2 (Z.ltb_lt _ _)) by lia. done.
Qed.

Lemma weighted_sum_insert s : forall i k c x,
  s !! k = Some x ->
  weighted_sum i (<[k := c]> s)
  = weighted_sum i s + (char_value c - char_value x) * weight (i + k).
Proof.
  induction s as [|y s IH]; intros i [|k] c x Hk; try done; simpl in *.
  - injection Hk as ->. rewrite Nat.add_0_r. lia.
  - rewrite (IH (S i) k c x Hk). replace (i + S k)%nat with (S i + k)%nat by lia. lia.
Qed.

Lemma mod10_eq_divide a b : a mod 10 = b mod 10 <-> (10 | a - b).
Proof.
  split.
  - intros Hab. exists (a / 10 - b / 10).
    pose proof (Z.div_mod a 10). pose proof (Z.div_mod b 10). lia.
  - intros [q Hq]. replace a with (b + q * 10) by lia. apply Z.mod_add. lia.
Qed.

(** The weights are units modulo ten. *)
Lemma weight_unit_mod10 i d : (10 | d * weight i) <-> (10 | d).
Proof.
  split; [|apply Z.divide_mul_l].
  rewrite Z.mul_comm. intros Hd. apply Z.gauss in Hd; [done|].
  by destruct (weight_cases i) as [->|[->| ->]].
Qed.

(** a check digit detects every single-character substitution except those
    between characters of equal value modulo ten. *)
Theorem check_digit_detects_substitution (s : rstr) (k : nat) (c x : Z) :
  245 * zlen s < 2 ^ 32 ->
  s !! k = Some x ->
  validate_check_digit (<[k := c]> s) (compute_check_digit s) = true <->
  char_value c mod 10 = char_value x mod 10.
Proof.
  intros Hs Hk. unfold validate_check_digit. rewrite Z.eqb_eq.
  rewrite !compute_check_digit_sum by (rewrite ?zlen_insert; done).
  rewrite (weighted_sum_insert s 0 k c x Hk). simpl (0 + k)%nat.
  rewrite Z.add_cancel_l, !mod10_eq_divide, Z.add_simpl_l. apply weight_unit_mod10.
Qed.

Lemma check_digit_detects_substitution_witness :
  validate_check_digit (<[1%nat := 57]> (lit "740812")) (compute_check_digit (lit "740812")) = true <->
  char_value 57 mod 10 = char_value 52 mod 10.
Proof. apply (check_digit_detects_substitution (lit "740812") 1 57 52); vm_compute; reflexivity. Defined.

(** ** Lines of a layout *)
Definition mrz_char (c : Z) : Prop := c = filler \/ is_ascii_alphanumeric c = true.

Definition wf_line (n : nat) (l : rstr) : Prop := length l = n /\ Forall mrz_char l.

Definition wf_lines (f : MrzFormat) (ls : list rstr) : Prop :=
  zlen ls = line_count f /\ Forall (wf_line (Z.to_nat (line_length f))) ls.

Lemma mrz_char_ascii c : mrz_char c -> 0 <= c < 128.
Proof.
  unfold mrz_char, filler, is_ascii_alphanumeric, is_ascii_digit, is_ascii_uppercase,
    is_ascii_lowercase. intros [->|Hc]; [lia|].
  apply orb_prop in Hc as [Hc|Hc]; [apply orb_prop in Hc as [Hc|Hc]|]; breflect; lia.
Qed.

Lemma mrz_chars_ascii l : Forall mrz_char l -> ascii_ok l.
Proof. intros Hl. eapply Forall_impl; [done|]. apply mrz_char_ascii. Qed.

Lemma line_chars_ok_spec l : line_chars_ok l = true <-> Forall mrz_char l.
Proof.
  unfold line_chars_ok. rewrite andb_true_iff, is_ascii_spec. split.
  - intros [Ha Hf]. rewrite as_bytes_ascii in Hf by done.
    rewrite forallb_forall in Hf. apply Forall_forall. intros c Hc.
    apply list_elem_of_In, Hf, orb_prop in Hc as [Hc|Hc]; [left; by apply Z.eqb_eq|by right].
  - intros Hl. pose proof (mrz_chars_ascii l Hl) as Ha. split; [done|].
    rewrite as_bytes_ascii by done. apply forallb_forall. intros c Hc.
    apply list_elem_of_In in Hc. rewrite Forall_forall in Hl.
    destruct (Hl c Hc) as [->|Hal]; [done|]. rewrite Hal. apply orb_true_r.
Qed.

Lemma line_length_nat f : Z.of_nat (Z.to_nat (line_length f)) = line_length f.
Proof. by destruct f. Qed.

Lemma validate_lines_from_spec f ls : forall i,
  no_panic (validate_lines_from f i ls) /\
  (validate_lines_from f i ls = Ok tt <-> Forall (wf_line (Z.to_nat (line_length f))) ls).
Proof.
  induction ls as [|l ls IH]; intros i; [by split|].
  cbn [validate_lines_from]. destruct (IH (S i)) as [Hnp Hiff]. split.
  { solve_no_panic. }
  rewrite Forall_cons, <-Hiff. unfold wf_line. rewrite <-line_chars_ok_spec.
  split.
  - intros Hv. res_inv. breflect. split; [|done]. split; [|done].
    rewrite str_len_ascii in * by (by apply mrz_chars_ascii, line_chars_ok_spec).
    unfold zlen in *. lia.
  - intros [[Hl Hc] Hr]. rewrite Hc, Hr, str_len_ascii by (by apply mrz_chars_ascii, line_chars_ok_spec).
    unfold zlen. by rewrite Hl, line_length_nat, Z.eqb_refl.
Qed.

Lemma validate_line_structure_spec f ls :
  no_panic (validate_line_structure ls f) /\
  (validate_line_structure ls f = Ok tt <-> wf_lines f ls).
Proof.
  destruct (validate_lines_from_spec f ls 0) as [Hnp Hiff].
  unfold validate_line_structure, wf_lines. rewrite <-Hiff. split; [solve_no_panic|].
  split.
  - intros Hv. res_inv. by breflect.
  - intros [-> Hv]. by rewrite Z.eqb_refl.
Qed.

(** The fields of a zone, by position. *)
Definition char_at (l : rstr) (i : nat) : Z := default filler (l !! i).

Definition layout (f : MrzFormat) (ls : list rstr) : Mrz :=
  let l1 := ls !!! 0%nat in let l2 := ls !!! 1%nat in
  match f with
  | TD1 =>
      let name := parse_name (ls !!! 2%nat) in
      mkMrz TD1 (trim_end_matches filler (sub 0 2 l1)) (sub 2 5 l1) name.1 name.2
        (trim_end_matches filler (sub 5 14 l1)) (char_at l1 14) (sub 15 18 l2)
        (sub 0 6 l2) (char_at l2 6) (char_at l2 7) (sub 8 14 l2) (char_at l2 14)
        (trim_end_matches filler (sub 15 30 l1) ++ trim_end_matches filler (sub 18 29 l2))
        (l2 !! 29%nat) ls
  | TD2 =>
      let name := parse_name (sub 5 36 l1) in
      mkMrz TD2 (trim_end_matches filler (sub 0 2 l1)) (sub 2 5 l1) name.1 name.2
        (trim_end_matches filler (sub 0 9 l2)) (char_at l2 9) (sub 10 13 l2)
        (sub 13 19 l2) (char_at l2 19) (char_at l2 20) (sub 21 27 l2) (char_at l2 27)
        (trim_end_matches filler (sub 28 35 l2)) (l2 !! 35%nat) ls
  | TD3 =>
      let name := parse_name (sub 5 44 l1) in
      mkMrz TD3 (trim_end_matches filler (sub 0 2 l1)) (sub 2 5 l1) name.1 name.2
        (trim_end_matches filler (sub 0 9 l2)) (char_at l2 9) (sub 10 13 l2)
        (sub 13 19 l2) (char_at l2 19) (char_at l2 20) (sub 21 27 l2) (char_at l2 27)
        (trim_end_matches filler (sub 28 42 l2)) (l2 !! 43%nat) ls
  end.

(** The check digits that the layouts prescribe: data range and digit position
    of each field on its line, then the composite digit. *)
Definition digit_ok (data : rstr) (l : rstr) (i : nat) : bool :=
  validate_check_digit data (char_at l i).

Definition digits_ok (f : MrzFormat) (ls : list rstr) : bool :=
  let l1 := ls !!! 0%nat in let l2 := ls !!! 1%nat in
  match f with
  | TD1 =>
      digit_ok (sub 5 14 l1) l1 14 && digit_ok (sub 0 6 l2) l2 6 && digit_ok (sub 8 14 l2) l2 14
      && digit_ok (sub 5 30 l1 ++ sub 0 7 l2 ++ sub 8 15 l2 ++ sub 18 29 l2) l2 29
  | TD2 =>
      digit_ok (sub 0 9 l2) l2 9 && digit_ok (sub 13 19 l2) l2 19 && digit_ok (sub 21 27 l2) l2 27
      && digit_ok (sub 0 10 l2 ++ sub 13 20 l2 ++ sub 21 35 l2) l2 35
  | TD3 =>
      digit_ok (sub 0 9 l2) l2 9 && digit_ok (sub 13 19 l2) l2 19 && digit_ok (sub 21 27 l2) l2 27
      && digit_ok (sub 28 42 l2) l2 42
      && digit_ok (sub 0 10 l2 ++ sub 13 20 l2 ++ sub 21 43 l2) l2 43
  end.

(** Slices of a line of the layout's length. *)
Lemma slice_wf {n} {l} (a b : Z) :
  wf_line n l -> 0 <= a <= b -> b <= Z.of_nat n ->
  str_slice (E:=MrzError) l a b = Ok (sub (Z.to_nat a) (Z.to_nat b) l).
Proof.
  intros [Hl Hc] Ha Hb. rewrite <-(Z2Nat.id a), <-(Z2Nat.id b) at 1 by lia.
  apply str_slice_ascii; [by apply mrz_chars_ascii|lia].
Qed.

Lemma field_check_wf {n} {l} (a b : Z) i :
  wf_line n l -> 0 <= a <= b -> b <= Z.of_nat n ->
  field_check l a b i = Ok (digit_ok (sub (Z.to_nat a) (Z.to_nat b) l) l i).
Proof.
  intros Hl Ha Hb. unfold field_check. rewrite (slice_wf a b Hl) by done. cbn [mbind res_bind].
  unfold digit_ok, char_at, check_digit_at. rewrite as_bytes_ascii; [done|].
  apply mrz_chars_ascii, Hl.
Qed.

Lemma composite_wf {n} {l} s i :
  wf_line n l ->
  (compute_check_digit s =? default filler (check_digit_at l i)) = digit_ok s l i.
Proof.
  intros [_ Hc]. unfold digit_ok, char_at, check_digit_at.
  by rewrite as_bytes_ascii by (by apply mrz_chars_ascii).
Qed.

Lemma and_also_Ok x y : and_also (Ok x) (Ok y) = Ok (x && y).
Proof. by destruct x. Qed.

(** Rewrite the slices of well-formed lines. *)
Ltac slices :=
  repeat match goal with
  | Hl : wf_line ?n ?l |- context [str_slice ?l ?a ?b] =>
      rewrite (slice_wf a b Hl) by (simpl; lia); cbn [mbind res_bind]
  | Hl : wf_line ?n ?l |- context [field_check ?l ?a ?b ?i] =>
      rewrite (field_check_wf a b i Hl) by (simpl; lia)
  | Hl : wf_line ?n ?l |- context [_ =? default filler (check_digit_at ?l ?i)] =>
      rewrite (composite_wf _ i Hl)
  end.

Lemma wf_lines_cases f ls :
  wf_lines f ls ->
  match f with
  | TD1 => exists l1 l2 l3, ls = [l1; l2; l3] /\ wf_line 30 l1 /\ wf_line 30 l2 /\ wf_line 30 l3
  | TD2 => exists l1 l2, ls = [l1; l2] /\ wf_line 36 l1 /\ wf_line 36 l2
  | TD3 => exists l1 l2, ls = [l1; l2] /\ wf_line 44 l1 /\ wf_line 44 l2
  end.
Proof.
  intros [Hn Hf]. unfold zlen in Hn.
  destruct f; simpl in Hn, Hf; destruct ls as [|l1 [|l2 [|l3 [|]]]]; simpl in Hn; try lia;
    rewrite !Forall_cons in Hf; naive_solver.
Qed.

Definition parse_format (f : MrzFormat) (ls : list rstr) : res MrzError Mrz :=
  match f with TD1 => parse_td1 ls | TD2 => parse_td2 ls | TD3 => parse_td3 ls end.

(** Run the length test and the indexing of the lines. *)
Lemma vec_index_first {A} (x : A) l : vec_index (E:=MrzError) (x :: l) 0 = Ok x.
Proof. done. Qed.
Lemma vec_index_second {A} (x y : A) l : vec_index (E:=MrzError) (x :: y :: l) 1 = Ok y.
Proof. done. Qed.
Lemma vec_index_third {A} (x y z : A) l : vec_index (E:=MrzError) (x :: y :: z :: l) 2 = Ok z.
Proof. done. Qed.

Ltac open_lines :=
  match goal with
  | |- context [ensure ?b ?e] => change (ensure b e) with (Ok (E:=MrzError) tt)
  end;
  rewrite ?vec_index_first, ?vec_index_second;
  cbn [mbind res_bind]; rewrite ?vec_index_second, ?vec_index_third;
  cbn [mbind res_bind]; rewrite ?vec_index_third; cbn [mbind res_bind].

Lemma parse_format_layout f ls : wf_lines f ls -> parse_format f ls = Ok (layout f ls).
Proof.
  intros Hwf%wf_lines_cases. destruct f.
  - destruct Hwf as (l1 & l2 & l3 & -> & H1 & H2 & H3). unfold parse_format, parse_td1.
    open_lines. slices. done.
  - destruct Hwf as (l1 & l2 & -> & H1 & H2). unfold parse_format, parse_td2.
    open_lines. slices. done.
  - destruct Hwf as (l1 & l2 & -> & H1 & H2). unfold parse_format, parse_td3.
    open_lines. slices. done.
Qed.

Lemma layout_checks f ls :
  wf_lines f ls -> validate_check_digits (layout f ls) = Ok (digits_ok f ls).
Proof.
  intros Hwf%wf_lines_cases. destruct f.
  - destruct Hwf as (l1 & l2 & l3 & -> & H1 & H2 & H3).
    unfold validate_check_digits, validate_td1_check_digits. cbn [layout format raw_lines].
    slices. by rewrite !and_also_Ok.
  - destruct Hwf as (l1 & l2 & -> & H1 & H2).
    unfold validate_check_digits, validate_td2_check_digits. cbn [layout format raw_lines].
    slices. by rewrite !and_also_Ok.
  - destruct Hwf as (l1 & l2 & -> & H1 & H2).
    unfold validate_check_digits, validate_td3_check_digits. cbn [layout format raw_lines].
    slices. by rewrite !and_also_Ok.
Qed.

Lemma detect_format_no_panic ls : no_panic (detect_format ls).
Proof. unfold detect_format. repeat case_match; done. Qed.

Lemma detect_format_wf f ls : wf_lines f ls -> detect_format ls = Ok f.
Proof.
  intros Hwf%wf_lines_cases. unfold detect_format.
  assert (forall n l ls, wf_line n l -> default 0 (str_len <$> head (l :: ls)) = Z.of_nat n) as Hlen.
  { intros n l ls' [<- Hc]. simpl. by rewrite str_len_ascii by (by apply mrz_chars_ascii). }
  destruct f.
  - destruct Hwf as (l1 & l2 & l3 & -> & H1 & _). by rewrite (Hlen 30%nat).
  - destruct Hwf as (l1 & l2 & -> & H1 & _). by rewrite (Hlen 36%nat).
  - destruct Hwf as (l1 & l2 & -> & H1 & _). by rewrite (Hlen 44%nat).
Qed.

Lemma wf_lines_nonempty f ls : wf_lines f ls -> (zlen ls =? 0) = false.
Proof. intros [-> _]. by destruct f. Qed.

Section parse.
Context `{Unicode}.

Lemma parse_mrz_layout f lines :
  wf_lines f (clean_lines lines) -> parse_mrz lines = Ok (layout f (clean_lines lines)).
Proof.
  intros Hwf. unfold parse_mrz. rewrite (wf_lines_nonempty f), (detect_format_wf f) by done.
  cbn [ensure negb mbind res_bind].
  rewrite (proj2 (proj2 (validate_line_structure_spec f _)) Hwf). cbn [mbind res_bind].
  exact (parse_format_layout f _ Hwf).
Qed.

Lemma parse_mrz_inv lines m :
  parse_mrz lines = Ok m ->
  exists f, wf_lines f (clean_lines lines) /\ m = layout f (clean_lines lines).
Proof.
  unfold parse_mrz. intros Hp. res_inv. rename select MrzFormat into f. exists f.
  assert (wf_lines f (clean_lines lines)) as Hwf.
  { apply validate_line_structure_spec. by destruct select unit. }
  split; [done|]. change (parse_format f (clean_lines lines) = Ok m) in Hp.
  rewrite parse_format_layout in Hp by done. by injection Hp.
Qed.

Lemma parse_mrz_no_panic lines : no_panic (parse_mrz lines).
Proof.
  unfold parse_mrz. apply bind_no_panic; [auto with marty|intros _ _].
  apply bind_no_panic; [apply detect_format_no_panic|intros f _].
  destruct (validate_line_structure_spec f (clean_lines lines)) as [Hnp Hv].
  apply bind_no_panic; [done|intros [] Hwf%Hv].
  change (no_panic (parse_format f (clean_lines lines))).
  by rewrite parse_format_layout.
Qed.

Lemma layout_format f ls : format (layout f ls) = f.
Proof. by destruct f. Qed.

(** C32: for any input lines [parse_mrz] does not panic; it accepts exactly when
    the cleaned lines have the number, length and alphabet of one of the three
    layouts, and then every field is the one at the layout's positions and
    [validate_check_digits] evaluates, without a panic, the check digits the
    layout prescribes. *)
Theorem parse_mrz_correct (lines : list rstr) :
  match parse_mrz lines with
  | Ok m =>
      wf_lines (format m) (clean_lines lines) /\ m = layout (format m) (clean_lines lines) /\
      validate_check_digits m = Ok (digits_ok (format m) (clean_lines lines))
  | Err _ => ~ exists f, wf_lines f (clean_lines lines)
  | Panic => False
  end.
Proof.
  destruct (parse_mrz lines) as [m|e|] eqn:Hp.
  - apply parse_mrz_inv in Hp as (f & Hwf & ->). rewrite layout_format.
    by rewrite layout_checks.
  - intros [f Hwf]. by rewrite (parse_mrz_layout f) in Hp.
  - by apply parse_mrz_no_panic in Hp.
Qed.

(** ** The key-derivation string *)
Lemma pad_filler n s :
  (length s <= n)%nat -> Forall mrz_char s ->
  replace_char 32 filler (pad_right n s) = s ++ replicate (n - length s) filler.
Proof.
  intros Hl Hs. unfold replace_char, pad_right. rewrite fmap_app, fmap_replicate.
  f_equal. rewrite <-list_fmap_id. apply list_fmap_ext. intros i c Hc.
  rewrite Forall_lookup in Hs. specialize (Hs i c Hc).
  destruct (Z.eqb_spec c 32) as [->|]; [|done].
  destruct Hs as [Hs|Hs]; vm_compute in Hs; congruence.
Qed.

Lemma repad_trimmed n s :
  length s = n -> Forall mrz_char s ->
  replace_char 32 filler (pad_right n (trim_end_matches filler s)) = s.
Proof.
  intros Hn Hs. destruct (trim_end_matches_split filler s) as [k Hk].
  assert (length s = length (trim_end_matches filler s) + k)%nat as Hlen.
  { rewrite Hk at 1. by rewrite length_app, length_replicate. }
  rewrite pad_filler.
  - rewrite Hk at 3. f_equal. f_equal. lia.
  - lia.
  - rewrite Hk in Hs. by apply Forall_app in Hs as [? _].
Qed.

Lemma wf_line_sub n l a b : wf_line n l -> (a <= b <= n)%nat -> length (sub a b l) = (b - a)%nat /\ Forall mrz_char (sub a b l).
Proof.
  intros [Hl Hc] Hab. unfold sub. split.
  - rewrite length_take, length_drop. lia.
  - by apply Forall_take, Forall_drop.
Qed.

(** The document number, birth and expiry fields with their check digits, as
    they stand in the zone. *)
Definition raw_key_fields (f : MrzFormat) (ls : list rstr) : rstr :=
  let l1 := ls !!! 0%nat in let l2 := ls !!! 1%nat in
  match f with
  | TD1 => sub 5 14 l1 ++ [char_at l1 14] ++ sub 0 6 l2 ++ [char_at l2 6]
             ++ sub 8 14 l2 ++ [char_at l2 14]
  | TD2 | TD3 => sub 0 9 l2 ++ [char_at l2 9] ++ sub 13 19 l2 ++ [char_at l2 19]
             ++ sub 21 27 l2 ++ [char_at l2 27]
  end.

Lemma digit_ok_eq s l i : digit_ok s l i = true -> compute_check_digit s = char_at l i.
Proof. unfold digit_ok, validate_check_digit. by rewrite Z.eqb_eq. Qed.

Lemma mrz_information_layout f ls :
  wf_lines f ls -> digits_ok f ls = true -> mrz_information (layout f ls) = raw_key_fields f ls.
Proof.
  intros Hwf%wf_lines_cases Hd. unfold mrz_information, compute_mrz_information.
  destruct f; [destruct Hwf as (l1 & l2 & l3 & -> & H1 & H2 & H3)
              |destruct Hwf as (l1 & l2 & -> & H1 & H2)..];
    cbn [layout digits_ok raw_key_fields document_number date_of_birth date_of_expiry
         lookup_total list_lookup_total] in *; breflect.
  - rewrite !(repad_trimmed 9) by (apply (wf_line_sub 30 l1 5 14); [done|lia]).
    by rewrite (digit_ok_eq _ l1 14), (digit_ok_eq _ l2 6), (digit_ok_eq _ l2 14).
  - rewrite !(repad_trimmed 9) by (apply (wf_line_sub 36 l2 0 9); [done|lia]).
    by rewrite (digit_ok_eq _ l2 9), (digit_ok_eq _ l2 19), (digit_ok_eq _ l2 27).
  - rewrite !(repad_trimmed 9) by (apply (wf_line_sub 44 l2 0 9); [done|lia]).
    by rewrite (digit_ok_eq _ l2 9), (digit_ok_eq _ l2 19), (digit_ok_eq _ l2 27).
Qed.

(** for a parsed zone whose check digits are valid, the string that basic
    access control derives its keys from is the document number, birth date and
    expiry date of the zone with their check digits, although the parser strips
    the fillers of the document number. *)
Theorem mrz_information_is_raw (lines : list rstr) (m : Mrz) :
  parse_mrz lines = Ok m ->
  validate_check_digits m = Ok true ->
  mrz_information m = raw_key_fields (format m) (raw_lines m).
Proof.
  intros Hp Hv. apply parse_mrz_inv in Hp as (f & Hwf & ->).
  rewrite layout_checks in Hv by done. injection Hv as Hv.
  rewrite layout_format, mrz_information_layout by done. by destruct f.
Qed.
End parse.

(** ** Printing a document *)
Definition fill (n : nat) (s : rstr) : rstr := s ++ replicate (n - length s) filler.

Fixpoint join (d : Z) (ws : list rstr) : rstr :=
  match ws with
  | [] => []
  | [w] => w
  | w :: ws => w ++ d :: join d ws
  end.

Record TravelDocument := mkDoc {
  d_type : rstr;
  d_country : rstr;
  d_surname : list rstr;
  d_given : list rstr;
  d_number : rstr;
  d_nationality : rstr;
  d_birth : rstr;
  d_sex : Z;
  d_expiry : rstr;
  d_optional : rstr;
  d_optional_2 : rstr;
}.

Definition name_field (n : nat) (d : TravelDocument) : rstr :=
  fill n (join filler (d_surname d) ++ [filler; filler] ++ join filler (d_given d)).

Definition optional_width (f : MrzFormat) : nat :=
  match f with TD1 => 15 | TD2 => 7 | TD3 => 14 end.
Definition name_width (f : MrzFormat) : nat :=
  match f with TD1 => 30 | TD2 => 31 | TD3 => 39 end.

(** The data the composite digit covers. *)
Definition composite_of (f : MrzFormat) (d : TravelDocument) : rstr :=
  let nu := fill 9 (d_number d) in let c := compute_check_digit in
  let op := fill (optional_width f) (d_optional d) in
  let dates := d_birth d ++ [c (d_birth d)] ++ d_expiry d ++ [c (d_expiry d)] in
  match f with
  | TD1 => nu ++ [c nu] ++ op ++ dates ++ fill 11 (d_optional_2 d)
  | TD2 => nu ++ [c nu] ++ dates ++ op
  | TD3 => nu ++ [c nu] ++ dates ++ op ++ [c op]
  end.

Definition print_mrz (f : MrzFormat) (d : TravelDocument) : list rstr :=
  let nu := fill 9 (d_number d) in let c := compute_check_digit in
  let op := fill (optional_width f) (d_optional d) in
  let cc := c (composite_of f d) in
  match f with
  | TD1 =>
      [fill 2 (d_type d) ++ d_country d ++ nu ++ [c nu] ++ op;
       d_birth d ++ [c (d_birth d)] ++ [d_sex d] ++ d_expiry d ++ [c (d_expiry d)]
         ++ d_nationality d ++ fill 11 (d_optional_2 d) ++ [cc];
       name_field 30 d]
  | TD2 =>
      [fill 2 (d_type d) ++ d_country d ++ name_field 31 d;
       nu ++ [c nu] ++ d_nationality d ++ d_birth d ++ [c (d_birth d)] ++ [d_sex d]
         ++ d_expiry d ++ [c (d_expiry d)] ++ op ++ [cc]]
  | TD3 =>
      [fill 2 (d_type d) ++ d_country d ++ name_field 39 d;
       nu ++ [c nu] ++ d_nationality d ++ d_birth d ++ [c (d_birth d)] ++ [d_sex d]
         ++ d_expiry d ++ [c (d_expiry d)] ++ op ++ [c op] ++ [cc]]
  end.

(** The parsed form of a document. *)
Definition parsed (f : MrzFormat) (d : TravelDocument) : Mrz :=
  mkMrz f (d_type d) (d_country d) (join 32 (d_surname d)) (join 32 (d_given d))
    (d_number d) (compute_check_digit (fill 9 (d_number d))) (d_nationality d)
    (d_birth d) (compute_check_digit (d_birth d)) (d_sex d)
    (d_expiry d) (compute_check_digit (d_expiry d))
    (d_optional d ++ match f with TD1 => d_optional_2 d | _ => [] end)
    (Some (compute_check_digit (composite_of f d))) (print_mrz f d).

(** Upper-case letters and digits, and the filler. *)
Definition upper_alnum (c : Z) : bool := is_ascii_digit c || is_ascii_uppercase c.
Definition upper_mrz (c : Z) : bool := (c =? filler) || upper_alnum c.

Definition field_wf (n : nat) (s : rstr) : Prop :=
  (length s <= n)%nat /\ Forall upper_mrz s /\ last s ≠ Some filler.
Definition fixed_wf (n : nat) (s : rstr) : Prop := length s = n /\ Forall upper_mrz s.
Definition words_wf (ws : list rstr) : Prop := Forall (fun w => w ≠ [] /\ Forall upper_alnum w) ws.

Record doc_wf (f : MrzFormat) (d : TravelDocument) : Prop := {
  wf_type : field_wf 2 (d_type d) /\ d_type d ≠ [];
  wf_country : fixed_wf 3 (d_country d);
  wf_surname : words_wf (d_surname d) /\ d_surname d ≠ [];
  wf_given : words_wf (d_given d);
  wf_names : (length (join filler (d_surname d)) + 2 + length (join filler (d_given d)) <= name_width f)%nat;
  wf_number : field_wf 9 (d_number d);
  wf_nationality : fixed_wf 3 (d_nationality d);
  wf_birth : fixed_wf 6 (d_birth d);
  wf_sex : upper_mrz (d_sex d);
  wf_expiry : fixed_wf 6 (d_expiry d);
  wf_optional : field_wf (optional_width f) (d_optional d);
  wf_optional_2 : field_wf 11 (d_optional_2 d);
}.

(** *** Names *)
Fixpoint good (w : rstr) : Prop :=
  match w with
  | [] => True
  | x :: w' => (x = filler -> match w' with [] => False | y :: _ => y ≠ filler end) /\ good w'
  end.

Lemma split_pair_sep w r :
  good w -> split_pair filler (w ++ filler :: filler :: r) = w :: split_pair filler r.
Proof.
  induction w as [|x w IH]; [done|]. intros [Hx Hw]. specialize (IH Hw).
  rewrite <-app_comm_cons. cbn [split_pair]. rewrite IH.
  destruct w as [|y w]; cbn [app].
  - destruct (Z.eqb_spec x filler); [by exfalso; apply Hx|done].
  - destruct (Z.eqb_spec x filler), (Z.eqb_spec y filler); cbn [andb]; try done.
    by exfalso; apply (Hx e).
Qed.

Lemma split_pair_last w : good w -> split_pair filler w = [w].
Proof.
  induction w as [|x w IH]; [done|]. intros [Hx Hw]. specialize (IH Hw).
  cbn [split_pair]. rewrite IH. destruct w as [|y w]; [done|].
  destruct (Z.eqb_spec x filler), (Z.eqb_spec y filler); cbn [andb]; try done.
  by exfalso; apply (Hx e).
Qed.

Lemma split_pair_one w : good w -> split_pair filler (w ++ [filler]) = [w ++ [filler]].
Proof.
  induction w as [|x w IH]; [done|]. intros [Hx Hw]. specialize (IH Hw).
  rewrite <-app_comm_cons. cbn [split_pair]. rewrite IH.
  destruct w as [|y w]; cbn [app].
  - destruct (Z.eqb_spec x filler); [by exfalso; apply Hx|done].
  - destruct (Z.eqb_spec x filler), (Z.eqb_spec y filler); cbn [andb]; try done.
    by exfalso; apply (Hx e).
Qed.

Lemma split_pair_padded w n :
  good w -> exists k, head (split_pair filler (w ++ replicate n filler)) = Some (w ++ replicate k filler).
Proof.
  intros Hw. destruct n as [|[|n]].
  - exists 0%nat. cbn [replicate]. by rewrite !app_nil_r, split_pair_last.
  - exists 1%nat. by rewrite split_pair_one.
  - exists 0%nat. cbn [replicate]. rewrite split_pair_sep by done. by rewrite app_nil_r.
Qed.

Lemma upper_alnum_char c : upper_alnum c -> c ≠ filler /\ c ≠ 32 /\ is_whitespace c = false.
Proof.
  unfold upper_alnum, is_ascii_digit, is_ascii_uppercase, filler. intros Hc.
  assert (48 <= c <= 57 \/ 65 <= c <= 90) as Hr.
  { apply Is_true_true, orb_prop in Hc as [Hc|Hc]; breflect; lia. }
  split; [lia|]. split; [lia|]. unfold is_whitespace.
  repeat match goal with
  | |- context [?a <=? ?b] => destruct (Z.leb_spec a b); try lia; cbn [andb orb]
  | |- context [?a =? ?b] => destruct (Z.eqb_spec a b); try lia; cbn [andb orb]
  end; done.
Qed.

Lemma good_word w r : Forall upper_alnum w -> good r -> good (w ++ r).
Proof.
  induction 1 as [|c w Hc Hw IH]; [done|]. intros Hr. split; [|by apply IH].
  intros ->. by apply upper_alnum_char in Hc as [? _].
Qed.

Lemma join_cons d w ws : ws ≠ [] -> join d (w :: ws) = w ++ d :: join d ws.
Proof. by destruct ws. Qed.

Lemma join_head d w ws x : w !! 0%nat = Some x -> exists s, join d (w :: ws) = x :: s.
Proof. intros Hx. destruct w as [|y w]; [done|]. injection Hx as ->. destruct ws; eexists; done. Qed.

Lemma good_join ws : words_wf ws -> good (join filler ws).
Proof.
  induction 1 as [|w ws [Hne Hw] Hws IH]; [done|].
  destruct ws as [|w' ws]; [cbn [join]; rewrite <-(app_nil_r w); by apply good_word|].
  rewrite join_cons by done. apply good_word; [done|]. split; [|done].
  intros _. apply Forall_cons in Hws as [[Hne' Hw'] _]. destruct w' as [|y w']; [done|].
  apply Forall_cons in Hw' as [Hy _]. apply upper_alnum_char in Hy as [Hy _].
  by destruct ws.
Qed.

Lemma replace_word w : Forall upper_alnum w -> replace_char filler 32 w = w.
Proof.
  unfold replace_char. induction 1 as [|c w Hc Hw IH]; [done|].
  rewrite fmap_cons, IH. apply upper_alnum_char in Hc as [Hc _].
  by rewrite (proj2 (Z.eqb_neq _ _)).
Qed.

Lemma replace_join ws : words_wf ws -> replace_char filler 32 (join filler ws) = join 32 ws.
Proof.
  induction 1 as [|w ws [Hne Hw] Hws IH]; [done|].
  destruct ws as [|w' ws]; [by apply replace_word|].
  rewrite (join_cons filler w), (join_cons 32 w) by done. unfold replace_char in *. rewrite fmap_app, fmap_cons, IH.
  f_equal. by apply replace_word.
Qed.

(** First and last character of joined words are not blank. *)
Definition tight (s : rstr) : Prop :=
  (forall c, head s = Some c -> is_whitespace c = false) /\
  (forall c, last s = Some c -> is_whitespace c = false).

Lemma tight_join ws : words_wf ws -> tight (join 32 ws).
Proof.
  induction 1 as [|w ws [Hne Hw] Hws [_ IH]]; [by split|].
  assert (tight w) as [Hh Hl].
  { split; intros c Hc; eapply upper_alnum_char.
    - destruct w; [done|]. injection Hc as ->. by inversion Hw.
    - apply last_Some_elem_of in Hc. rewrite Forall_forall in Hw. by apply Hw. }
  destruct ws as [|w' ws]; [done|]. rewrite join_cons by done. split.
  - intros c. destruct w; [done|]. apply Hh.
  - intros c. rewrite last_app, last_cons.
    destruct (last (join 32 (w' :: ws))) as [x|] eqn:Hx; [intros [= <-]; by apply IH|].
    apply last_None in Hx. apply Forall_cons in Hws as [[Hne' _] _]. by destruct w', ws.
Qed.

Lemma trim_tight s k : tight s -> trim (s ++ replicate k 32) = s.
Proof.
  intros [Hh Hl]. unfold trim. destruct s as [|c s].
  - rewrite app_nil_l, <-(app_nil_r (replicate k 32)), trim_start_by_replicate by done. done.
  - rewrite trim_start_by_id by done. by apply trim_end_by_app_replicate.
Qed.

Lemma parse_name_printed n sn gn :
  words_wf sn -> words_wf gn ->
  parse_name (fill n (join filler sn ++ [filler; filler] ++ join filler gn)) = (join 32 sn, join 32 gn).
Proof.
  intros Hs Hg. unfold parse_name, fill. rewrite <-!app_assoc. cbn [app].
  rewrite split_pair_sep by (by apply good_join).
  change ((?p :: ?ps) !! 0%nat) with (Some p). change ((?p :: ?ps) !! 1%nat) with (ps !! 0%nat).
  set (k := (n - _)%nat).
  destruct (split_pair_padded (join filler gn) k (good_join gn Hg)) as [j Hj].
  rewrite <-head_lookup, Hj. cbn [default from_option id].
  assert (forall ws i, words_wf ws ->
    trim (replace_char filler 32 (join filler ws ++ replicate i filler)) = join 32 ws) as Hclean.
  { intros ws i Hws. unfold replace_char. rewrite fmap_app, fmap_replicate.
    fold (replace_char filler 32 (join filler ws)). rewrite replace_join by done.
    by apply trim_tight, tight_join. }
  rewrite (Hclean gn j Hg). f_equal. rewrite <-(app_nil_r (join filler sn)).
  by apply (Hclean sn 0%nat).
Qed.

(** *** Fields of concatenated segments *)
Lemma sub_app_skip p s a b : (length p <= a)%nat -> sub a b (p ++ s) = sub (a - length p) (b - length p) s.
Proof.
  intros Ha. unfold sub. rewrite drop_app_ge by done. f_equal. lia.
Qed.

Lemma sub_app_whole p s b : (length p <= b)%nat -> sub 0 b (p ++ s) = p ++ sub 0 (b - length p) s.
Proof. intros Hb. unfold sub. rewrite !drop_0, !Nat.sub_0_r. by rewrite take_app_ge. Qed.

Lemma sub_zero s : sub 0 0 s = [].
Proof. done. Qed.

Lemma sub_whole p b : (length p <= b)%nat -> sub 0 b p = p.
Proof. intros Hb. unfold sub. rewrite !drop_0, Nat.sub_0_r. by apply take_ge. Qed.

Lemma lookup_app_skip (p s : rstr) i :
  (length p <= i)%nat -> (p ++ s) !! i = s !! (i - length p)%nat.
Proof. apply lookup_app_r. Qed.

Ltac known_length p :=
  match goal with
  | Hp : length p = ?n |- _ => rewrite !Hp
  | _ => idtac
  end; cbn [length Nat.sub].

(** Normalise [sub] and lookups on concatenations of segments of known length. *)
Ltac segments :=
  repeat match goal with
  | |- context [sub 0 0 ?s] => rewrite (sub_zero s)
  | |- context [sub 0 ?b (?p ++ ?s)] => rewrite (sub_app_whole p s b) by (simpl; lia); known_length p
  | |- context [sub ?a ?b (?p ++ ?s)] => rewrite (sub_app_skip p s a b) by (simpl; lia); known_length p
  | |- context [sub 0 ?b ?p] => rewrite (sub_whole p b) by (simpl; lia)
  | |- context [(?p ++ ?s) !! ?i] => rewrite (lookup_app_skip p s i) by (simpl; lia); known_length p
  end.

Lemma layout_td3_segments ty co nm nu c1 na bd c2 sx ed c3 op c4 c5 :
  length ty = 2%nat -> length co = 3%nat -> length nm = 39%nat -> length nu = 9%nat ->
  length na = 3%nat -> length bd = 6%nat -> length ed = 6%nat -> length op = 14%nat ->
  let ls := [ty ++ co ++ nm;
             nu ++ [c1] ++ na ++ bd ++ [c2] ++ [sx] ++ ed ++ [c3] ++ op ++ [c4] ++ [c5]] in
  layout TD3 ls = mkMrz TD3 (trim_end_matches filler ty) co (parse_name nm).1 (parse_name nm).2
    (trim_end_matches filler nu) c1 na bd c2 sx ed c3 (trim_end_matches filler op) (Some c5) ls /\
  digits_ok TD3 ls =
    validate_check_digit nu c1 && validate_check_digit bd c2 && validate_check_digit ed c3 &&
    validate_check_digit op c4 &&
    validate_check_digit (nu ++ [c1] ++ (bd ++ [c2] ++ ed ++ [c3]) ++ op ++ [c4]) c5.
Proof.
  intros Hty Hco Hnm Hnu Hna Hbd Hed Hop ls.
  split; unfold ls, layout, digits_ok, digit_ok, char_at; cbn [lookup_total list_lookup_total];
    segments; rewrite ?app_nil_r, <-?app_assoc; done.
Qed.

Lemma layout_td2_segments ty co nm nu c1 na bd c2 sx ed c3 op c5 :
  length ty = 2%nat -> length co = 3%nat -> length nm = 31%nat -> length nu = 9%nat ->
  length na = 3%nat -> length bd = 6%nat -> length ed = 6%nat -> length op = 7%nat ->
  let ls := [ty ++ co ++ nm;
             nu ++ [c1] ++ na ++ bd ++ [c2] ++ [sx] ++ ed ++ [c3] ++ op ++ [c5]] in
  layout TD2 ls = mkMrz TD2 (trim_end_matches filler ty) co (parse_name nm).1 (parse_name nm).2
    (trim_end_matches filler nu) c1 na bd c2 sx ed c3 (trim_end_matches filler op) (Some c5) ls /\
  digits_ok TD2 ls =
    validate_check_digit nu c1 && validate_check_digit bd c2 && validate_check_digit ed c3 &&
    validate_check_digit (nu ++ [c1] ++ (bd ++ [c2] ++ ed ++ [c3]) ++ op) c5.
Proof.
  intros Hty Hco Hnm Hnu Hna Hbd Hed Hop ls.
  split; unfold ls, layout, digits_ok, digit_ok, char_at; cbn [lookup_total list_lookup_total];
    segments; rewrite ?app_nil_r, <-?app_assoc; done.
Qed.

Lemma layout_td1_segments ty co nu c1 op bd c2 sx ed c3 na op2 c5 nm :
  length ty = 2%nat -> length co = 3%nat -> length nu = 9%nat -> length op = 15%nat ->
  length bd = 6%nat -> length ed = 6%nat -> length na = 3%nat -> length op2 = 11%nat ->
  let ls := [ty ++ co ++ nu ++ [c1] ++ op;
             bd ++ [c2] ++ [sx] ++ ed ++ [c3] ++ na ++ op2 ++ [c5]; nm] in
  layout TD1 ls = mkMrz TD1 (trim_end_matches filler ty) co (parse_name nm).1 (parse_name nm).2
    (trim_end_matches filler nu) c1 na bd c2 sx ed c3
    (trim_end_matches filler op ++ trim_end_matches filler op2) (Some c5) ls /\
  digits_ok TD1 ls =
    validate_check_digit nu c1 && validate_check_digit bd c2 && validate_check_digit ed c3 &&
    validate_check_digit (nu ++ [c1] ++ op ++ (bd ++ [c2] ++ ed ++ [c3]) ++ op2) c5.
Proof.
  intros Hty Hco Hnu Hop Hbd Hed Hna Hop2 ls.
  split; unfold ls, layout, digits_ok, digit_ok, char_at; cbn [lookup_total list_lookup_total];
    segments; rewrite ?app_nil_r, <-?app_assoc; done.
Qed.

Lemma fill_length n s : (length s <= n)%nat -> length (fill n s) = n.
Proof. intros Hs. unfold fill. rewrite length_app, length_replicate. lia. Qed.

Lemma trim_fill n s : last s ≠ Some filler -> trim_end_matches filler (fill n s) = s.
Proof.
  intros Hl. unfold fill, trim_end_matches. apply trim_end_by_app_replicate; [done|].
  intros x Hx. apply Z.eqb_neq. congruence.
Qed.

Lemma validate_computed s : validate_check_digit s (compute_check_digit s) = true.
Proof. unfold validate_check_digit. apply Z.eqb_refl. Qed.

Lemma name_field_length f d : doc_wf f d -> length (name_field (name_width f) d) = name_width f.
Proof.
  intros Hd. apply fill_length. rewrite !length_app. simpl. pose proof (wf_names f d Hd). lia.
Qed.

Lemma layout_printed f d :
  doc_wf f d -> layout f (print_mrz f d) = parsed f d /\ digits_ok f (print_mrz f d) = true.
Proof.
  intros Hd. pose proof (name_field_length f d Hd) as Hnm.
  destruct Hd as [[[Ht1 [_ Ht2]] _] [Hc _] [Hs _] Hg _ [Hn1 [_ Hn2]] [Hna _] [Hb _] _ [He _] [Ho1 [_ Ho2]] [Hp1 [_ Hp2]]].
  pose proof (fill_length 2 _ Ht1). pose proof (fill_length 9 _ Hn1).
  pose proof (fill_length _ _ Ho1). pose proof (fill_length 11 _ Hp1).
  unfold print_mrz, parsed, composite_of. destruct f; cbn [optional_width name_width] in *.
  - edestruct layout_td1_segments as [-> ->]; try eassumption.
    unfold name_field. rewrite parse_name_printed by done. rewrite !trim_fill by done.
    by rewrite !validate_computed.
  - edestruct layout_td2_segments as [-> ->]; try eassumption.
    unfold name_field. rewrite parse_name_printed by done. rewrite !trim_fill by done.
    by rewrite !validate_computed, app_nil_r.
  - edestruct layout_td3_segments as [-> ->]; try eassumption.
    unfold name_field. rewrite parse_name_printed by done. rewrite !trim_fill by done.
    by rewrite !validate_computed, app_nil_r.
Qed.

(** *** Printed lines are clean *)
Lemma upper_mrz_char c : upper_mrz c ->
  mrz_char c /\ is_ascii_lowercase c = false /\ is_whitespace c = false.
Proof.
  unfold upper_mrz. intros Hc%Is_true_true. apply orb_prop in Hc as [Hc|Hc].
  - apply Z.eqb_eq in Hc as ->. split; [by left|done].
  - split; [right; unfold is_ascii_alphanumeric; unfold upper_alnum in Hc; by rewrite Hc|].
    split; [|by apply upper_alnum_char, Is_true_true].
    unfold upper_alnum, is_ascii_digit, is_ascii_uppercase in Hc. unfold is_ascii_lowercase.
    apply andb_false_iff. left. apply Z.leb_gt.
    apply orb_prop in Hc as [Hc|Hc]; breflect; lia.
Qed.

Lemma check_digit_upper s : upper_mrz (compute_check_digit s).
Proof.
  unfold compute_check_digit. set (x := foldl _ _ _).
  pose proof (Z.mod_pos_bound x 10 ltac:(lia)). unfold from_digit10.
  rewrite (proj2 (Z.leb_le 0 _)), (proj2 (Z.ltb_lt _ 10)) by lia. cbn.
  unfold upper_mrz, upper_alnum, is_ascii_digit.
  rewrite (proj2 (Z.leb_le 48 _)), (proj2 (Z.leb_le _ 57)) by lia. cbn [andb orb].
  by rewrite orb_true_r.
Qed.

Lemma upper_replicate n : Forall upper_mrz (replicate n filler).
Proof. by apply Forall_replicate. Qed.

Lemma upper_fill n s : Forall upper_mrz s -> Forall upper_mrz (fill n s).
Proof. intros Hs. apply Forall_app. split; [done|apply upper_replicate]. Qed.

Lemma upper_join ws : words_wf ws -> Forall upper_mrz (join filler ws).
Proof.
  induction 1 as [|w ws [Hne Hw] Hws IH]; [done|].
  assert (Forall upper_mrz w) as Hw'.
  { eapply Forall_impl; [exact Hw|]. intros c Hc. apply orb_prop_intro. by right. }
  destruct ws as [|w' ws]; [done|]. rewrite join_cons by done.
  apply Forall_app. split; [done|]. by constructor.
Qed.

Lemma upper_name n d :
  words_wf (d_surname d) -> words_wf (d_given d) -> Forall upper_mrz (name_field n d).
Proof.
  intros Hs Hg. apply upper_fill, Forall_app. split; [by apply upper_join|].
  repeat constructor. by apply upper_join.
Qed.

Create HintDb mrz_print discriminated.
#[local] Hint Resolve check_digit_upper upper_fill upper_name Forall_nil_2 Forall_cons_2 : mrz_print.

Ltac upper_line :=
  repeat match goal with
  | |- Forall _ (_ ++ _) => apply Forall_app; split
  | |- Forall _ [] => constructor
  | |- Forall _ (_ :: _) => constructor
  | |- _ => progress auto with mrz_print
  end.

Lemma print_upper f d :
  doc_wf f d ->
  zlen (print_mrz f d) = line_count f /\
  Forall (fun l => length l = Z.to_nat (line_length f) /\ Forall upper_mrz l) (print_mrz f d).
Proof.
  intros Hd. pose proof (name_field_length f d Hd) as Hnm.
  destruct Hd as [[[Ht1 [Ht _]] _] [Hc Hcu] [Hs _] Hg _ [Hn1 [Hn _]] [Hna Hnu] [Hb Hbu] Hsx [He Heu] [Ho1 [Ho _]] [Hp1 [Hp _]]].
  pose proof (fill_length 2 _ Ht1) as Hf1. pose proof (fill_length 9 _ Hn1) as Hf2.
  pose proof (fill_length _ _ Ho1) as Hf3. pose proof (fill_length 11 _ Hp1) as Hf4.
  split; [by destruct f|].
  unfold print_mrz. destruct f; cbn [optional_width name_width] in *;
    repeat apply Forall_cons_2; try apply Forall_nil_2;
    (split; [rewrite ?length_app, ?Hf1, ?Hf2, ?Hf3, ?Hf4, ?Hnm, ?Hc, ?Hna, ?Hb, ?He; reflexivity
            |upper_line]).
Qed.

Lemma clean_upper `{UnicodeLaws} ls :
  Forall (fun l => l ≠ [] /\ Forall upper_mrz l) ls -> clean_lines ls = ls.
Proof.
  intros Hls. unfold clean_lines.
  assert ((fun l => to_uppercase (trim l)) <$> ls = ls) as ->.
  { rewrite <-list_fmap_id. apply list_fmap_ext. intros i l Hl.
    rewrite Forall_lookup in Hls. destruct (Hls i l Hl) as [_ Hu].
    assert (trim l = l) as ->.
    { rewrite <-(app_nil_r l) at 1. apply (trim_tight l 0). rewrite Forall_forall in Hu.
      split; intros c Hc; eapply upper_mrz_char, Hu.
      - destruct l; [done|]. injection Hc as ->. by left.
      - by apply last_Some_elem_of. }
    apply to_uppercase_id. eapply Forall_impl; [exact Hu|].
    intros c Hc. apply upper_mrz_char in Hc as (Hm & Hlow & _). split; [|done]. by apply mrz_char_ascii. }
  apply list_filter_true. intros l Hl. rewrite Forall_forall in Hls. by apply Hls.
Qed.

Lemma line_length_pos f : (0 < Z.to_nat (line_length f))%nat.
Proof. destruct f; vm_compute; lia. Qed.

Lemma print_parses `{UnicodeLaws} (f : MrzFormat) (d : TravelDocument) :
  doc_wf f d ->
  parse_mrz (print_mrz f d) = Ok (parsed f d) /\ validate_check_digits (parsed f d) = Ok true.
Proof.
  intros Hd. destruct (print_upper f d Hd) as [Hn Hl].
  assert (clean_lines (print_mrz f d) = print_mrz f d) as Hclean.
  { apply clean_upper. eapply Forall_impl; [exact Hl|]. intros l [Hlen Hu]. split; [|done].
    intros ->. pose proof (line_length_pos f). simpl in Hlen. lia. }
  assert (wf_lines f (print_mrz f d)) as Hwf.
  { split; [done|]. eapply Forall_impl; [exact Hl|]. intros l [Hlen Hu]. split; [done|].
    eapply Forall_impl; [exact Hu|]. intros c Hc. by apply upper_mrz_char in Hc as [? _]. }
  destruct (layout_printed f d Hd) as [Hlay Hdig]. rewrite <-Hclean in Hwf.
  rewrite (parse_mrz_layout f) by done. rewrite Hclean in *. rewrite Hlay. split; [done|].
  by rewrite <-Hlay, layout_checks, Hdig.
Qed.

(** a well-formed document printed in any of the three layouts parses back
    to itself, names, fillers and optional data included, and the parsed zone
    passes the check-digit validation. *)
Theorem mrz_roundtrip `{UnicodeLaws} (f : MrzFormat) (d : TravelDocument) :
  doc_wf f d ->
  parse_mrz (print_mrz f d) = Ok (parsed f d) /\ validate_check_digits (parsed f d) = Ok true.
Proof. apply print_parses. Qed.

Definition sample_document : TravelDocument :=
  mkDoc (lit "P") (lit "UTO") [lit "VAN"; lit "ERIKSSON"] [lit "ANNA"; lit "MARIA"] (lit "L898902C")
    (lit "UTO") (lit "740812") 70 (lit "120415") (lit "ZE18422") (lit "7X").

Lemma mrz_roundtrip_witness :
  doc_wf TD1 sample_document /\
  parse_mrz (print_mrz TD1 sample_document) = Ok (parsed TD1 sample_document) /\
  validate_check_digits (parsed TD1 sample_document) = Ok true.
Proof.
  assert (doc_wf TD1 sample_document) as Hwf.
  { split; unfold field_wf, fixed_wf, words_wf; repeat split;
      try (repeat constructor); try (vm_compute; done || lia). }
  split; [exact Hwf|]. exact (mrz_roundtrip TD1 sample_document Hwf).
Defined.

Definition sample_zone : list rstr :=
  [lit " p<utoeriksson<<anna<maria<<<<<<<<<<<<<<<<<<< "; lit "";
   lit "L898902C<3UTO6908061F9406236ZE184226B<<<<<14"].

Lemma mrz_information_is_raw_witness :
  exists m, parse_mrz sample_zone = Ok m /\ validate_check_digits m = Ok true /\
            mrz_information m = raw_key_fields (format m) (raw_lines m).
Proof.
  destruct (parse_mrz sample_zone) as [m| |] eqn:Hm; [|vm_compute in Hm; discriminate Hm..].
  assert (validate_check_digits m = Ok true) as Hv.
  { vm_compute in Hm. injection Hm as <-. vm_compute. reflexivity. }
  exists m. split; [reflexivity|]. split; [exact Hv|].
  exact (mrz_information_is_raw sample_zone m Hm Hv).
Defined.
