(* ===== verification/Decision.v ===== *)
(** * Required-check decision reduction (marty-verification,
    [verification/decision.rs])

    The reducer that turns explicit check outcomes into the final decision.
    [BTreeSet] is a [gset]; [BTreeMap], whose iteration order is the order of
    its keys, is a [gmap] read in the order of [all_categories]. *)

From S2P Require Import Prelude.
Local Open Scope Z_scope.

(** [src/marty-verification/src/verification/decision.rs:17-25] VerificationProcessingStatus *)
Inductive VerificationProcessingStatus :=
| StatusCompleted | StatusUnsupported | StatusUnavailable | StatusError.

(** [src/marty-verification/src/verification/decision.rs:27-34] VerificationDecision *)
Inductive VerificationDecision := Pass | Fail | Indeterminate.

(** [src/marty-verification/src/verification/decision.rs:36-44] VerificationDecisionCode *)
Inductive VerificationDecisionCode :=
| AllRequiredChecksPassed | RequiredCheckFailed | RequiredCheckUnresolved | ProcessingNotCompleted.

(** [src/marty-verification/src/verification/decision.rs:46-62] VerificationCheckCategory *)
Inductive VerificationCheckCategory :=
| Structure | CredentialProof | PresentationProof | DocumentIntegrity | IssuerTrust | Validity
| Status | HolderBinding | TransactionBinding | ClaimConstraints | Biometric | Policy.

(** [src/marty-verification/src/verification/decision.rs:64-74] VerificationCheckOutcome *)
Inductive VerificationCheckOutcome :=
| OutcomePassed | OutcomeFailed | OutcomeNotPerformed | OutcomeUnsupported | OutcomeError
| OutcomeNotApplicable.

#[export] Instance VerificationProcessingStatus_eq_dec : EqDecision VerificationProcessingStatus.
Proof. solve_decision. Defined.
#[export] Instance VerificationDecision_eq_dec : EqDecision VerificationDecision.
Proof. solve_decision. Defined.
#[export] Instance VerificationCheckCategory_eq_dec : EqDecision VerificationCheckCategory.
Proof. solve_decision. Defined.
#[export] Instance VerificationCheckOutcome_eq_dec : EqDecision VerificationCheckOutcome.
Proof. solve_decision. Defined.

(** The categories in their declared order, which is the derived [Ord]. *)
Definition all_categories : list VerificationCheckCategory :=
  [Structure; CredentialProof; PresentationProof; DocumentIntegrity; IssuerTrust; Validity;
   Status; HolderBinding; TransactionBinding; ClaimConstraints; Biometric; Policy].

Definition category_index (c : VerificationCheckCategory) : nat :=
  match c with
  | Structure => 0 | CredentialProof => 1 | PresentationProof => 2 | DocumentIntegrity => 3
  | IssuerTrust => 4 | Validity => 5 | Status => 6 | HolderBinding => 7
  | TransactionBinding => 8 | ClaimConstraints => 9 | Biometric => 10 | Policy => 11
  end%nat.

#[export] Instance VerificationCheckCategory_countable : Countable VerificationCheckCategory.
Proof. apply (inj_countable category_index (fun n => all_categories !! n)). by intros []. Defined.

(** [src/marty-verification/src/verification/decision.rs:77-82] VerificationCheckOutcome::is_unresolved *)
Definition is_unresolved (o : VerificationCheckOutcome) : bool :=
  match o with
  | OutcomeNotPerformed | OutcomeUnsupported | OutcomeError | OutcomeNotApplicable => true
  | _ => false
  end.

(** [src/marty-verification/src/verification/decision.rs:84-86] VerificationCheckOutcome::requires_evidence *)
Definition requires_evidence (o : VerificationCheckOutcome) : bool :=
  match o with OutcomePassed | OutcomeFailed => true | _ => false end.

(** [src/marty-verification/src/verification/decision.rs:89-97] VerificationCategoryOutcome *)
Inductive VerificationCategoryOutcome :=
| CategoryPassed | CategoryFailed | CategoryIndeterminate | CategoryNotApplicable.

(** [src/marty-verification/src/verification/decision.rs:99-111] VerificationCheckResult *)
Record VerificationCheckResult := mkCheck {
  check_id : string;
  category : VerificationCheckCategory;
  required : bool;
  outcome : VerificationCheckOutcome;
  code : string;
  component_id : string;
  evaluated_at : string;
  evidence_refs : list string;
}.

(** [src/marty-verification/src/verification/decision.rs:113-122] VerificationCategorySummary *)
Record VerificationCategorySummary := mkSummary {
  summary_category : VerificationCheckCategory;
  summary_outcome : VerificationCategoryOutcome;
  required_check_count : Z;
  passed_required_count : Z;
  failed_required_count : Z;
  unresolved_required_count : Z;
}.

(** [src/marty-verification/src/verification/decision.rs:124-156] ReducedVerificationDecision *)
Record ReducedVerificationDecision := mkReduced {
  processing_status : VerificationProcessingStatus;
  decision : VerificationDecision;
  decision_code : VerificationDecisionCode;
  valid : bool;
  category_summaries : list VerificationCategorySummary;
}.

(** [src/marty-verification/src/verification/decision.rs:158-177] VerificationReductionError *)
Inductive VerificationReductionError :=
| MissingRequiredCheck
| DuplicateCheckId (id : string)
| MissingEvidence (id : string) (o : VerificationCheckOutcome)
| DuplicateEvidenceReference (id : string) (evidence_ref : string)
| CategoryCountOverflow (c : VerificationCheckCategory).

#[local] Abbreviation result := (res VerificationReductionError).

(** [src/marty-verification/src/verification/decision.rs:179-185] CategoryCounts *)
Record CategoryCounts := mkCounts {
  n_required : Z;
  n_passed : Z;
  n_failed : Z;
  n_unresolved : Z;
}.

Definition default_counts : CategoryCounts := mkCounts 0 0 0 0.

(** The loop over the evidence references of one check. *)
Fixpoint check_evidence (id : string) (seen : gset string) (refs : list string) : result unit :=
  match refs with
  | [] => Ok tt
  | r :: refs =>
      ensure (negb (bool_decide (r ∈ seen))) (DuplicateEvidenceReference id r);;
      check_evidence id ({[r]} ∪ seen) refs
  end.

Record ReduceState := mkReduce {
  check_ids : gset string;
  category_counts : gmap VerificationCheckCategory CategoryCounts;
  required_total : Z;
}.

(** The counters of one required check. *)
Definition count_required (c : VerificationCheckResult) (k : CategoryCounts) : result CategoryCounts :=
  let overflow := CategoryCountOverflow (category c) in
  r ← ok_or (u32_checked_add (n_required k) 1) overflow;
  match outcome c with
  | OutcomePassed =>
      n ← ok_or (u32_checked_add (n_passed k) 1) overflow;
      Ok (mkCounts r n (n_failed k) (n_unresolved k))
  | OutcomeFailed =>
      n ← ok_or (u32_checked_add (n_failed k) 1) overflow;
      Ok (mkCounts r (n_passed k) n (n_unresolved k))
  | OutcomeNotPerformed | OutcomeUnsupported | OutcomeError | OutcomeNotApplicable =>
      n ← ok_or (u32_checked_add (n_unresolved k) 1) overflow;
      Ok (mkCounts r (n_passed k) (n_failed k) n)
  end.

(** One iteration of the loop over the checks. *)
Definition reduce_check (st : ReduceState) (c : VerificationCheckResult) : result ReduceState :=
  ensure (negb (bool_decide (check_id c ∈ check_ids st))) (DuplicateCheckId (check_id c));;
  let ids := {[check_id c]} ∪ check_ids st in
  ensure (negb (requires_evidence (outcome c) && bool_decide (evidence_refs c = [])))
    (MissingEvidence (check_id c) (outcome c));;
  check_evidence (check_id c) ∅ (evidence_refs c);;
  let counts := default default_counts (category_counts st !! category c) in
  if required c then
    total ← ok_or (u32_checked_add (required_total st) 1) (CategoryCountOverflow (category c));
    counts' ← count_required c counts;
    Ok (mkReduce ids (<[category c := counts']> (category_counts st)) total)
  else Ok (mkReduce ids (<[category c := counts]> (category_counts st)) (required_total st)).

Fixpoint reduce_checks (st : ReduceState) (checks : list VerificationCheckResult) : result ReduceState :=
  match checks with
  | [] => Ok st
  | c :: checks => st' ← reduce_check st c; reduce_checks st' checks
  end.

(** The summary of one category. *)
Definition summarize (c : VerificationCheckCategory) (k : CategoryCounts) : VerificationCategorySummary :=
  mkSummary c
    (if n_required k =? 0 then CategoryNotApplicable
     else if 0 <? n_failed k then CategoryFailed
     else if 0 <? n_unresolved k then CategoryIndeterminate
     else CategoryPassed)
    (n_required k) (n_passed k) (n_failed k) (n_unresolved k).

(** [src/marty-verification/src/verification/decision.rs:187-326] reduce_required_checks *)
Definition reduce_required_checks (status : VerificationProcessingStatus)
    (checks : list VerificationCheckResult) : result ReducedVerificationDecision :=
  st ← reduce_checks (mkReduce ∅ ∅ 0) checks;
  ensure (negb (required_total st =? 0)) MissingRequiredCheck;;
  let summaries :=
    omap (fun c => summarize c <$> category_counts st !! c) all_categories in
  let dc :=
    if negb (bool_decide (status = StatusCompleted)) then (Indeterminate, ProcessingNotCompleted)
    else if existsb (fun c => required c && bool_decide (outcome c = OutcomeFailed)) checks
    then (Fail, RequiredCheckFailed)
    else if existsb (fun c => required c && is_unresolved (outcome c)) checks
    then (Indeterminate, RequiredCheckUnresolved)
    else (Pass, AllRequiredChecksPassed) in
  Ok (mkReduced status dc.1 dc.2 (bool_decide (dc.1 = Pass)) summaries).
