(* ===== verification/DecisionFacts.v ===== *)
(** * Required-check decision reduction: properties

    The reducer accepts exactly the well-formed check sets with a required
    check and fewer than 2^32 checks, names the first defect otherwise, and its
    decision is a function of the outcomes of the required checks alone,
    whatever their order. *)

From S2P Require Import Prelude Decision.
Local Open Scope Z_scope.

(** ** What the reducer promises *)
Definition cnt (p : VerificationCheckResult -> bool) (l : list VerificationCheckResult) : Z :=
  zlen (filter (fun c => p c) l).

Definition required_outcomes (l : list VerificationCheckResult) : list VerificationCheckOutcome :=
  outcome <$> filter (fun c => required c) l.

Definition in_category (k : VerificationCheckCategory) (c : VerificationCheckResult) : bool :=
  required c && bool_decide (category c = k).

Definition counts_of (l : list VerificationCheckResult) (k : VerificationCheckCategory) : CategoryCounts :=
  mkCounts
    (cnt (in_category k) l)
    (cnt (fun c => in_category k c && bool_decide (outcome c = OutcomePassed)) l)
    (cnt (fun c => in_category k c && bool_decide (outcome c = OutcomeFailed)) l)
    (cnt (fun c => in_category k c && is_unresolved (outcome c)) l).

Definition spec_decision (status : VerificationProcessingStatus) (os : list VerificationCheckOutcome) :
    VerificationDecision :=
  if decide (status ≠ StatusCompleted) then Indeterminate
  else if decide (OutcomeFailed ∈ os) then Fail
  else if decide (Forall (fun o => o = OutcomePassed) os) then Pass
  else Indeterminate.

Definition spec_code (status : VerificationProcessingStatus) (os : list VerificationCheckOutcome) :
    VerificationDecisionCode :=
  if decide (status ≠ StatusCompleted) then ProcessingNotCompleted
  else match spec_decision status os with
       | Pass => AllRequiredChecksPassed
       | Fail => RequiredCheckFailed
       | Indeterminate => RequiredCheckUnresolved
       end.

Definition spec_summaries (l : list VerificationCheckResult) : list VerificationCategorySummary :=
  (fun k => summarize k (counts_of l k)) <$> filter (fun k => k ∈ category <$> l) all_categories.

Definition spec_reduced (status : VerificationProcessingStatus) (l : list VerificationCheckResult) :
    ReducedVerificationDecision :=
  let d := spec_decision status (required_outcomes l) in
  mkReduced status d (spec_code status (required_outcomes l)) (bool_decide (d = Pass)) (spec_summaries l).

Definition evidence_ok (c : VerificationCheckResult) : Prop :=
  (requires_evidence (outcome c) = true -> evidence_refs c ≠ []) /\ NoDup (evidence_refs c).

Definition checks_wf (l : list VerificationCheckResult) : Prop :=
  NoDup (check_id <$> l) /\ Forall evidence_ok l.

(** The defect of check [c] after the well-formed checks [pre]. *)
Inductive defect (pre : list VerificationCheckResult) (c : VerificationCheckResult) :
    VerificationReductionError -> Prop :=
| defect_id :
    check_id c ∈ check_id <$> pre -> defect pre c (DuplicateCheckId (check_id c))
| defect_evidence :
    check_id c ∉ check_id <$> pre ->
    requires_evidence (outcome c) = true -> evidence_refs c = [] ->
    defect pre c (MissingEvidence (check_id c) (outcome c))
| defect_reference p r q :
    check_id c ∉ check_id <$> pre ->
    evidence_refs c = p ++ r :: q -> NoDup p -> r ∈ p ->
    defect pre c (DuplicateEvidenceReference (check_id c) r).

(** ** The loops *)
Lemma cnt_snoc p l c : cnt p (l ++ [c]) = cnt p l + (if p c then 1 else 0).
Proof.
  unfold cnt, zlen. rewrite filter_app, length_app, filter_cons, filter_nil.
  case_decide as Hp; destruct (p c); simpl in *; (lia || done).
Qed.

Lemma cnt_bound p l : 0 <= cnt p l <= zlen l.
Proof. unfold cnt, zlen. pose proof (length_filter (fun c => p c) l). lia. Qed.

Lemma checked_add_small a : 0 <= a < u32_max -> u32_checked_add a 1 = Some (a + 1).
Proof. intros Ha. unfold u32_checked_add. by rewrite (proj2 (Z.leb_le _ _)) by lia. Qed.

Lemma check_evidence_spec id refs : forall seen,
  match check_evidence id seen refs with
  | Ok _ => NoDup refs /\ (forall r, r ∈ refs -> r ∉ seen)
  | Err e => exists p r q, e = DuplicateEvidenceReference id r /\ refs = p ++ r :: q /\
               NoDup p /\ (forall r, r ∈ p -> r ∉ seen) /\ (r ∈ p \/ r ∈ seen)
  | Panic => False
  end.
Proof.
  induction refs as [|r refs IH]; intros seen; cbn [check_evidence].
  { split; [constructor|]. intros r Hr. by apply not_elem_of_nil in Hr. }
  case_bool_decide as Hr; cbn [negb ensure mbind res_bind].
  { exists [], r, refs. repeat split; [constructor|set_solver|by right]. }
  specialize (IH ({[r]} ∪ seen)). destruct (check_evidence _ _ _) as [|e|]; [|destruct IH as (p & r' & q & -> & -> & Hp & Hd & Hr')|done].
  - destruct IH as [Hnd Hs]. split; [constructor; set_solver|set_solver].
  - exists (r :: p), r', q. repeat split; [|set_solver|set_solver].
    constructor; [|done]. intros Hin. by apply Hd in Hin; set_solver.
Qed.

Record loop_inv (pre : list VerificationCheckResult) (st : ReduceState) : Prop := {
  inv_wf : checks_wf pre;
  inv_ids : forall id, id ∈ check_ids st <-> id ∈ check_id <$> pre;
  inv_counts : forall k, category_counts st !! k =
    if decide (k ∈ category <$> pre) then Some (counts_of pre k) else None;
  inv_total : required_total st = cnt required pre;
}.

Lemma loop_inv_start : loop_inv [] (mkReduce ∅ ∅ 0).
Proof. split; [by split; constructor|set_solver| |done]. intros k. cbn [category_counts]. by rewrite lookup_empty, decide_False by set_solver. Qed.

(** The counters of the categories after one more check. *)
Lemma counts_of_other pre c k : category c ≠ k -> counts_of (pre ++ [c]) k = counts_of pre k.
Proof.
  intros Hk. unfold counts_of, in_category. rewrite !cnt_snoc.
  rewrite (bool_decide_eq_false_2 _ Hk), !andb_false_r. cbn [andb]. by rewrite !Z.add_0_r.
Qed.

Lemma counts_of_optional pre c : required c = false -> counts_of (pre ++ [c]) (category c) = counts_of pre (category c).
Proof.
  intros Hr. unfold counts_of, in_category. rewrite !cnt_snoc, Hr.
  cbn [andb]. by rewrite !Z.add_0_r.
Qed.

Lemma counts_of_required pre c :
  required c = true -> zlen pre < u32_max ->
  count_required c (counts_of pre (category c)) = Ok (counts_of (pre ++ [c]) (category c)).
Proof.
  intros Hr Hlen. unfold count_required, counts_of. cbn [n_required n_passed n_failed n_unresolved].
  rewrite !cnt_snoc.
  assert (in_category (category c) c = true) as Hin.
  { unfold in_category. by rewrite Hr, bool_decide_eq_true_2. }
  rewrite Hin.
  repeat match goal with |- context [cnt ?p pre] =>
    lazymatch goal with Hb : 0 <= cnt p pre <= _ |- _ => fail | _ => pose proof (cnt_bound p pre) end end.
  destruct (outcome c) eqn:Ho; rewrite !checked_add_small by lia;
    cbn [ok_or mbind res_bind andb is_unresolved];
    repeat case_bool_decide; try done; cbn [andb]; by rewrite ?Z.add_0_r.
Qed.

Lemma counts_of_default pre k :
  default default_counts (if decide (k ∈ category <$> pre) then Some (counts_of pre k) else None)
  = counts_of pre k.
Proof.
  case_decide as Hk; [done|]. simpl. unfold default_counts, counts_of.
  assert (forall q, cnt (fun c => in_category k c && q c) pre = 0) as Hz.
  { intros q. unfold cnt.
    destruct (filter _ pre) as [|c l] eqn:Hf; [done|].
    assert (c ∈ filter (fun c => in_category k c && q c) pre) as Hc by (rewrite Hf; by left).
    apply list_elem_of_filter in Hc as [Hc Hin]. exfalso. apply Hk.
    apply Is_true_true in Hc. unfold in_category in Hc. breflect. subst k.
    by apply list_elem_of_fmap_2. }
  pose proof (Hz (fun _ => true)) as Hz1.
  assert (cnt (in_category k) pre = 0) as ->.
  { rewrite <-Hz1. unfold cnt. do 2 f_equal. apply list_filter_ext_in. intros c _. by rewrite andb_true_r. }
  by rewrite !Hz.
Qed.

Lemma loop_inv_step pre st c :
  loop_inv pre st -> zlen pre < u32_max ->
  match reduce_check st c with
  | Ok st' => loop_inv (pre ++ [c]) st'
  | Err e => defect pre c e
  | Panic => False
  end.
Proof.
  intros [[Hnd Hev] Hids Hcounts Htot] Hlen. unfold reduce_check.
  pose proof (Hids (check_id c)) as Hidc.
  destruct (bool_decide_reflect (check_id c ∈ check_ids st)) as [Hid|Hid];
    cbn [negb ensure mbind res_bind]; [constructor; by apply Hidc|].
  assert (check_id c ∉ check_id <$> pre) as Hnew by tauto. clear Hid Hidc.
  destruct (requires_evidence (outcome c) && bool_decide (evidence_refs c = [])) eqn:He.
  { breflect. cbn [negb ensure mbind res_bind]. by constructor. }
  cbn [negb ensure mbind res_bind].
  pose proof (check_evidence_spec (check_id c) (evidence_refs c) ∅) as Hr.
  destruct (check_evidence _ _ _) as [|e|]; cbn [mbind res_bind]; [| |done].
  2:{ destruct Hr as (p & r & q & -> & Hpq & Hp & _ & [Hin|Hin]); [|set_solver].
      by eapply defect_reference. }
  assert (checks_wf (pre ++ [c])) as Hwf.
  { split.
    - rewrite fmap_app. apply NoDup_app. split; [done|]. split; [set_solver|apply NoDup_singleton].
    - apply Forall_app. split; [done|]. constructor; [|constructor]. split; [|by apply Hr].
      intros Hreq Hnil. by rewrite Hreq, bool_decide_eq_true_2 in He. }
  assert (forall id, id ∈ {[check_id c]} ∪ check_ids st <-> id ∈ check_id <$> pre ++ [c]) as Hids'.
  { intros id. rewrite fmap_app, elem_of_union, Hids. set_solver. }
  assert (forall k0 n, k0 = counts_of (pre ++ [c]) (category c) -> n = cnt required (pre ++ [c]) ->
    loop_inv (pre ++ [c])
      (mkReduce ({[check_id c]} ∪ check_ids st) (<[category c := k0]> (category_counts st)) n)) as Hdone.
  { intros k0 n -> ->. split; [done|done| |done]. intros k. cbn [category_counts].
    rewrite fmap_app. destruct (decide (category c = k)) as [<-|Hk].
    - rewrite lookup_insert_eq. by rewrite decide_True by set_solver.
    - rewrite lookup_insert_ne, Hcounts by done. rewrite counts_of_other by done.
      apply decide_ext. set_solver. }
  rewrite Hcounts, counts_of_default, Htot. destruct (required c) eqn:Hreq.
  - pose proof (cnt_bound required pre). rewrite checked_add_small by lia.
    cbn [ok_or mbind res_bind]. rewrite counts_of_required by done. cbn [mbind res_bind].
    apply Hdone; [done|]. by rewrite cnt_snoc, Hreq.
  - apply Hdone; [by rewrite counts_of_optional|]. rewrite cnt_snoc, Hreq. lia.
Qed.

Lemma reduce_checks_spec checks : forall pre st,
  loop_inv pre st -> zlen pre + zlen checks <= u32_max ->
  match reduce_checks st checks with
  | Ok st' => loop_inv (pre ++ checks) st'
  | Err e => exists p c q, checks = p ++ c :: q /\ checks_wf (pre ++ p) /\ defect (pre ++ p) c e
  | Panic => False
  end.
Proof.
  induction checks as [|c checks IH]; intros pre st Hinv Hlen; cbn [reduce_checks].
  { by rewrite app_nil_r. }
  unfold zlen in Hlen. simpl in Hlen.
  pose proof (loop_inv_step pre st c Hinv) as Hstep. unfold zlen in Hstep.
  specialize (Hstep ltac:(lia)).
  destruct (reduce_check st c) as [st'|e|]; cbn [mbind res_bind]; [| |done].
  - specialize (IH (pre ++ [c]) st' Hstep). unfold zlen in IH. rewrite length_app in IH.
    simpl in IH. specialize (IH ltac:(lia)).
    destruct (reduce_checks st' checks); [by rewrite <-app_assoc in IH| |done].
    destruct IH as (p & c' & q & -> & Hwf & Hd). exists (c :: p), c', q.
    by rewrite <-app_assoc in Hwf, Hd.
  - exists [], c, checks. rewrite app_nil_r. split; [done|]. split; [apply Hinv|done].
Qed.

(** ** The decision *)
Lemma existsb_required p l :
  existsb (fun c => required c && p (outcome c)) l = true <-> exists o, o ∈ required_outcomes l /\ p o = true.
Proof.
  rewrite existsb_exists. unfold required_outcomes. split.
  - intros (c & Hc & Hp). breflect. exists (outcome c). split; [|done].
    apply list_elem_of_fmap_2, list_elem_of_filter. split; [by apply Is_true_true|by apply list_elem_of_In].
  - intros (o & (c & -> & Hc)%list_elem_of_fmap & Hp). apply list_elem_of_filter in Hc as [Hr Hc].
    exists c. split; [by apply list_elem_of_In|]. apply Is_true_true in Hr. by rewrite Hr, Hp.
Qed.

Definition source_decision (status : VerificationProcessingStatus) (l : list VerificationCheckResult) :
    VerificationDecision * VerificationDecisionCode :=
  if negb (bool_decide (status = StatusCompleted)) then (Indeterminate, ProcessingNotCompleted)
  else if existsb (fun c => required c && bool_decide (outcome c = OutcomeFailed)) l
  then (Fail, RequiredCheckFailed)
  else if existsb (fun c => required c && is_unresolved (outcome c)) l
  then (Indeterminate, RequiredCheckUnresolved)
  else (Pass, AllRequiredChecksPassed).

Lemma source_decision_spec status l :
  source_decision status l =
  (spec_decision status (required_outcomes l), spec_code status (required_outcomes l)).
Proof.
  unfold source_decision, spec_code, spec_decision.
  destruct (decide (status ≠ StatusCompleted)) as [Hst|Hst].
  { by rewrite bool_decide_eq_false_2. }
  rewrite bool_decide_eq_true_2 by (by apply dec_stable). cbn [negb].
  pose proof (existsb_required (fun o => bool_decide (o = OutcomeFailed)) l) as Hf.
  pose proof (existsb_required is_unresolved l) as Hu. cbv beta in Hf.
  destruct (decide (OutcomeFailed ∈ required_outcomes l)) as [Hin|Hin].
  { rewrite (proj2 Hf); [done|]. exists OutcomeFailed. by rewrite bool_decide_eq_true_2. }
  destruct (existsb (fun c => required c && bool_decide (outcome c = OutcomeFailed)) l) eqn:Hex.
  { destruct (proj1 Hf eq_refl) as (o & Ho & Hb). breflect. by subst o. }
  destruct (decide (Forall _ _)) as [Hall|Hall].
  - destruct (existsb (fun c => required c && is_unresolved (outcome c)) l) eqn:Hex2; [|done].
    destruct (proj1 Hu eq_refl) as (o & Ho & Hb). rewrite Forall_forall in Hall.
    by rewrite (Hall o Ho) in Hb.
  - rewrite (proj2 Hu); [done|].
    apply not_Forall_Exists in Hall; [|apply _].
    apply Exists_exists in Hall as (o & Ho & Hne). exists o. split; [done|].
    destruct o; try done. exfalso. by apply Hne.
Qed.

Lemma summaries_spec pre st :
  loop_inv pre st ->
  omap (fun c => summarize c <$> category_counts st !! c) all_categories = spec_summaries pre.
Proof.
  intros Hinv. unfold spec_summaries. induction all_categories as [|k ks IH]; [done|].
  cbn [omap list_omap]. rewrite filter_cons, (inv_counts _ _ Hinv).
  change (list_omap _ _ ?f ks) with (omap f ks). rewrite IH.
  by case_decide.
Qed.

Lemma cnt_required_zero l : (cnt required l =? 0) = bool_decide (required_outcomes l = []).
Proof.
  unfold cnt, required_outcomes, zlen. destruct (filter _ l); [done|].
  cbn [length]. rewrite (proj2 (Z.eqb_neq _ _)) by lia. by rewrite bool_decide_eq_false_2.
Qed.

Lemma reduce_required_checks_cases status checks :
  zlen checks <= u32_max ->
  match reduce_required_checks status checks with
  | Ok r => checks_wf checks /\ required_outcomes checks ≠ [] /\ r = spec_reduced status checks
  | Err e =>
      (checks_wf checks /\ required_outcomes checks = [] /\ e = MissingRequiredCheck) \/
      exists p c q, checks = p ++ c :: q /\ checks_wf p /\ defect p c e
  | Panic => False
  end.
Proof.
  intros Hlen. unfold reduce_required_checks.
  pose proof (reduce_checks_spec checks [] _ loop_inv_start Hlen) as Hl.
  destruct (reduce_checks _ checks) as [st|e|]; cbn [mbind res_bind]; [| |done].
  2:{ right. exact Hl. }
  cbn [app] in Hl. rewrite (inv_total _ _ Hl), cnt_required_zero.
  destruct (bool_decide_reflect (required_outcomes checks = [])) as [Hreq|Hreq];
    cbn [negb ensure mbind res_bind].
  { left. split; [apply Hl|done]. }
  split; [apply Hl|]. split; [done|].
  fold (source_decision status checks).
  rewrite (summaries_spec _ _ Hl), source_decision_spec. done.
Qed.

(** ** Properties *)

(** for any check set of fewer than 2^32 checks the reducer does not panic
    or overflow.  It accepts exactly the sets with distinct check ids, evidence
    for every passed or failed check, no repeated evidence reference and at
    least one required check; the decision and its code are then a function of
    the processing status and the outcomes of the required checks (optional
    checks never alter it), with exact counts per category.  Otherwise the
    error names the first defective check. *)
Theorem reduce_required_checks_correct (status : VerificationProcessingStatus)
    (checks : list VerificationCheckResult) :
  zlen checks <= u32_max ->
  match reduce_required_checks status checks with
  | Ok r => checks_wf checks /\ required_outcomes checks ≠ [] /\ r = spec_reduced status checks
  | Err e =>
      (checks_wf checks /\ required_outcomes checks = [] /\ e = MissingRequiredCheck) \/
      exists p c q, checks = p ++ c :: q /\ checks_wf p /\ defect p c e
  | Panic => False
  end.
Proof. apply reduce_required_checks_cases. Qed.

Definition sample_check (id : string) (req : bool) (o : VerificationCheckOutcome) : VerificationCheckResult :=
  mkCheck id CredentialProof req o "c" "x" "t" [id].

Definition sample_checks : list VerificationCheckResult :=
  [sample_check "proof" true OutcomePassed; sample_check "bio" false OutcomeFailed;
   sample_check "trust" true OutcomePassed].

Lemma reduce_required_checks_correct_witness :
  exists r, reduce_required_checks StatusCompleted sample_checks = Ok r /\ decision r = Pass /\
            r = spec_reduced StatusCompleted sample_checks.
Proof.
  assert (zlen sample_checks <= u32_max) as Hlen by (vm_compute; discriminate).
  pose proof (reduce_required_checks_correct StatusCompleted sample_checks Hlen) as Hspec.
  destruct (reduce_required_checks StatusCompleted sample_checks) as [r| |] eqn:Hr;
    [|vm_compute in Hr; discriminate Hr..].
  exists r. split; [reflexivity|]. split; [|apply Hspec].
  vm_compute in Hr. injection Hr as <-. reflexivity.
Defined.

Lemma cnt_perm p l l' : l ≡ₚ l' -> cnt p l = cnt p l'.
Proof. intros Hp. unfold cnt, zlen. by rewrite Hp. Qed.

Lemma spec_decision_perm status os os' : os ≡ₚ os' -> spec_decision status os = spec_decision status os'.
Proof.
  intros Hp. unfold spec_decision.
  destruct (decide (status ≠ StatusCompleted)); [done|].
  rewrite (decide_ext (OutcomeFailed ∈ os) (OutcomeFailed ∈ os')) by (by rewrite Hp).
  destruct (decide (OutcomeFailed ∈ os')); [done|].
  apply decide_ext. by rewrite Hp.
Qed.

Lemma spec_reduced_perm status l l' : l ≡ₚ l' -> spec_reduced status l = spec_reduced status l'.
Proof.
  intros Hp. unfold spec_reduced, spec_code.
  assert (required_outcomes l ≡ₚ required_outcomes l') as Ho by (unfold required_outcomes; by rewrite Hp).
  rewrite (spec_decision_perm status _ _ Ho). f_equal.
  unfold spec_summaries.
  rewrite (list_filter_ext_in (fun k => k ∈ category <$> l) (fun k => k ∈ category <$> l'))
    by (intros k _; by rewrite Hp).
  apply list_fmap_ext. intros i k _. unfold counts_of. by rewrite !(cnt_perm _ _ _ Hp).
Qed.

Lemma checks_wf_perm l l' : l ≡ₚ l' -> checks_wf l -> checks_wf l'.
Proof. intros Hp [Hnd Hev]. split; by rewrite <-Hp. Qed.

Lemma reduce_accepts status checks :
  zlen checks <= u32_max -> checks_wf checks -> required_outcomes checks ≠ [] ->
  reduce_required_checks status checks = Ok (spec_reduced status checks).
Proof.
  intros Hlen [Hnd Hev] Hreq. pose proof (reduce_required_checks_cases status checks Hlen) as Hc.
  destruct (reduce_required_checks status checks) as [r|e|]; [by destruct Hc as (_ & _ & ->)| |done].
  destruct Hc as [(_ & ? & _)|(p & c & q & -> & _ & Hd)]; [done|]. exfalso.
  apply Forall_app in Hev as [_ Hev]. apply Forall_cons in Hev as [[He1 He2] _].
  rewrite fmap_app, fmap_cons in Hnd. apply NoDup_app in Hnd as (_ & Hnd & _).
  inversion Hd as [Hin|? ? Hnil|p' r q' ? Heq Hp' Hr]; subst.
  - apply (Hnd _ Hin). by left.
  - by apply He1.
  - rewrite Heq in He2. apply NoDup_app in He2 as (_ & He2 & _). apply (He2 _ Hr). by left.
Qed.

(** the reduced decision does not depend on the order in which the adapters
    report their checks. *)
Theorem reduce_order_independent (status : VerificationProcessingStatus)
    (checks checks' : list VerificationCheckResult) (r : ReducedVerificationDecision) :
  zlen checks <= u32_max -> checks ≡ₚ checks' ->
  reduce_required_checks status checks = Ok r -> reduce_required_checks status checks' = Ok r.
Proof.
  intros Hlen Hp Hr. pose proof (reduce_required_checks_cases status checks Hlen) as Hc.
  rewrite Hr in Hc. destruct Hc as (Hwf & Hreq & ->).
  assert (zlen checks' <= u32_max) as Hlen' by (unfold zlen in *; by rewrite <-Hp).
  rewrite (spec_reduced_perm status checks checks' Hp). apply reduce_accepts; [done|by eapply checks_wf_perm|].
  intros Hnil. apply Hreq. apply Permutation_nil. rewrite <-Hnil. unfold required_outcomes. by rewrite Hp.
Qed.

Lemma reduce_order_independent_witness :
  exists r, reduce_required_checks StatusCompleted sample_checks = Ok r /\
            reduce_required_checks StatusCompleted (reverse sample_checks) = Ok r.
Proof.
  destruct (reduce_required_checks StatusCompleted sample_checks) as [r| |] eqn:Hr;
    [|vm_compute in Hr; discriminate Hr..].
  exists r. split; [reflexivity|].
  apply (reduce_order_independent StatusCompleted sample_checks); [vm_compute; discriminate| |exact Hr].
  symmetry. apply reverse_Permutation.
Defined.
