(* ===== verification/Des.v ===== *)
(** * Triple DES (marty-crypto, [des.rs])

    The parameter checks, the CBC wrappers, the retail MAC of ISO 9797-1
    (algorithm 3) and the DES parity adjustment.  The block cipher and the
    CBC mode of the [des] and [cbc] crates are the parameter [Tdes]; its laws
    say that the crate computes encrypt-decrypt-encrypt triple DES in cipher
    block chaining mode. *)

From S2P Require Import Prelude.
Local Open Scope Z_scope.

(** [src/marty-crypto/src/error.rs:6-75] CryptoError *)
Inductive CryptoError :=
| CryptoPem (msg : string)
| CryptoDer (msg : string)
| CryptoInvalidKey (msg : string)
| CryptoSignatureVerification (msg : string)
| CryptoSignatureCreation (msg : string)
| CryptoUnsupportedAlgorithm (msg : string)
| CryptoCertificate (msg : string)
| CryptoEncryption (msg : string)
| CryptoKeyDerivation (msg : string)
| CryptoPkcs12 (msg : string)
| CryptoCrl (msg : string)
| CryptoOcsp (msg : string)
| CryptoRng (msg : string)
| CryptoEncoding (msg : string)
| CryptoNetwork (msg : string)
| CryptoInternal (msg : string)
| CryptoIo (msg : string).

(** The [Display] text that [thiserror] derives from the [#[error]] attributes. *)
Definition crypto_error_text (e : CryptoError) : string :=
  match e with
  | CryptoPem m => "PEM error: " +:+ m
  | CryptoDer m => "DER error: " +:+ m
  | CryptoInvalidKey m => "Invalid key: " +:+ m
  | CryptoSignatureVerification m => "Signature verification failed: " +:+ m
  | CryptoSignatureCreation m => "Signature creation failed: " +:+ m
  | CryptoUnsupportedAlgorithm m => "Unsupported algorithm: " +:+ m
  | CryptoCertificate m => "Certificate error: " +:+ m
  | CryptoEncryption m => "Encryption error: " +:+ m
  | CryptoKeyDerivation m => "Key derivation error: " +:+ m
  | CryptoPkcs12 m => "PKCS#12 error: " +:+ m
  | CryptoCrl m => "CRL error: " +:+ m
  | CryptoOcsp m => "OCSP error: " +:+ m
  | CryptoRng m => "RNG error: " +:+ m
  | CryptoEncoding m => "Encoding error: " +:+ m
  | CryptoNetwork m => "Network error: " +:+ m
  | CryptoInternal m => "Internal error: " +:+ m
  | CryptoIo m => "I/O error: " +:+ m
  end.

#[local] Abbreviation result := (res CryptoError).

(** [a ^ b] on byte strings of the same length. *)
Definition xor_bytes (a b : list Z) : list Z := zip_with Z.lxor a b.

(** [cbc::Encryptor<TdesEde3>] and [cbc::Decryptor<TdesEde3>] on a 24-byte key,
    an 8-byte IV and block-aligned data, and the PKCS#7 variants. *)
Class Tdes := {
  des_encrypt : list Z -> list Z -> list Z;
  des_decrypt : list Z -> list Z -> list Z;
  cbc_encrypt : list Z -> list Z -> list Z -> list Z;
  cbc_decrypt : list Z -> list Z -> list Z -> list Z;
  cbc_encrypt_pkcs7 : list Z -> list Z -> list Z -> list Z;
  cbc_decrypt_pkcs7 : list Z -> list Z -> list Z -> option (list Z);
}.

Definition block_ok (b : list Z) : Prop := length b = 8%nat /\ bytes_ok b.

(** Triple DES of one block with the three thirds of the key. *)
Definition tdes_block `{Tdes} (key b : list Z) : list Z :=
  des_encrypt (drop 16 key)
    (des_decrypt (take 8 (drop 8 key)) (des_encrypt (take 8 key) b)).
Definition tdes_block_inv `{Tdes} (key b : list Z) : list Z :=
  des_decrypt (take 8 key)
    (des_encrypt (take 8 (drop 8 key)) (des_decrypt (drop 16 key) b)).

Class TdesLaws `{Tdes} : Prop := {
  des_encrypt_ok k b : block_ok b -> block_ok (des_encrypt k b);
  des_decrypt_ok k b : block_ok b -> block_ok (des_decrypt k b);
  des_decrypt_encrypt k b : block_ok b -> des_decrypt k (des_encrypt k b) = b;
  des_encrypt_decrypt k b : block_ok b -> des_encrypt k (des_decrypt k b) = b;
  cbc_encrypt_nil key iv : cbc_encrypt key iv [] = [];
  cbc_encrypt_block key iv b rest : block_ok iv -> block_ok b ->
    cbc_encrypt key iv (b ++ rest) =
    let c := tdes_block key (xor_bytes iv b) in c ++ cbc_encrypt key c rest;
  cbc_decrypt_nil key iv : cbc_decrypt key iv [] = [];
  cbc_decrypt_block key iv c rest : block_ok iv -> block_ok c ->
    cbc_decrypt key iv (c ++ rest) =
    xor_bytes iv (tdes_block_inv key c) ++ cbc_decrypt key c rest;
  cbc_pkcs7_roundtrip key iv p : block_ok iv -> bytes_ok p ->
    cbc_decrypt_pkcs7 key iv (cbc_encrypt_pkcs7 key iv p) = Some p;
  cbc_pkcs7_length key iv p : exists n, (0 < n)%nat /\
    length (cbc_encrypt_pkcs7 key iv p) = (8 * n)%nat;
}.

(** [a.is_multiple_of(8)]. *)
Definition is_multiple_of8 (n : Z) : bool := n mod 8 =? 0.

(** [src/marty-crypto/src/des.rs:314-331] validate_tdes_params *)
Definition validate_tdes_params (key iv data : list Z) : result unit :=
  ensure (zlen key =? 24) (CryptoInternal "3DES requires 24-byte (192-bit) key");;
  ensure (zlen iv =? 8) (CryptoInternal "3DES-CBC requires 8-byte IV");;
  ensure (negb ((zlen data =? 0) || negb (is_multiple_of8 (zlen data))))
    (CryptoInternal "3DES-CBC data must be a non-empty multiple of 8 bytes").

(** [while !padded.len().is_multiple_of(8) { padded.push(0x00); }]; the loop
    runs at most seven times. *)
Fixpoint push_zeros {E} (fuel : nat) (padded : list Z) : res E (list Z) :=
  if is_multiple_of8 (zlen padded) then Ok padded
  else match fuel with
       | O => Panic
       | S fuel => push_zeros fuel (padded ++ [0])
       end.

Section des.
Context `{Tdes}.

(** [src/marty-crypto/src/des.rs:75-119] tdes_cbc_encrypt *)
Definition tdes_cbc_encrypt (key iv plaintext : list Z) : result (list Z) :=
  validate_tdes_params key iv plaintext;;
  Ok (cbc_encrypt key iv plaintext).

(** [src/marty-crypto/src/des.rs:121-147] tdes_cbc_decrypt *)
Definition tdes_cbc_decrypt (key iv ciphertext : list Z) : result (list Z) :=
  validate_tdes_params key iv ciphertext;;
  Ok (cbc_decrypt key iv ciphertext).

(** [src/marty-crypto/src/des.rs:153-192] tdes_cbc_encrypt_padded *)
Definition tdes_cbc_encrypt_padded (key iv plaintext : list Z) : result (list Z) :=
  ensure (zlen key =? 24) (CryptoInternal "3DES requires 24-byte (192-bit) key");;
  ensure (zlen iv =? 8) (CryptoInternal "3DES-CBC requires 8-byte IV");;
  Ok (cbc_encrypt_pkcs7 key iv plaintext).

(** [src/marty-crypto/src/des.rs:194-234] tdes_cbc_decrypt_padded *)
Definition tdes_cbc_decrypt_padded (key iv ciphertext : list Z) : result (list Z) :=
  ensure (zlen key =? 24) (CryptoInternal "3DES requires 24-byte (192-bit) key");;
  ensure (zlen iv =? 8) (CryptoInternal "3DES-CBC requires 8-byte IV");;
  ensure (negb ((zlen ciphertext =? 0) || negb (is_multiple_of8 (zlen ciphertext))))
    (CryptoInternal "3DES-CBC ciphertext must be a non-empty multiple of 8 bytes");;
  ok_or (cbc_decrypt_pkcs7 key iv ciphertext) (CryptoInternal "3DES-CBC decryption failed").

(** [src/marty-crypto/src/des.rs:34-59] ExpandedTdesKey::repeated *)
Definition ExpandedTdesKey_repeated (component : list Z) : list Z :=
  component ++ component ++ component.

(** [padded.chunks(8)]. *)
Fixpoint chunks8 (l : list Z) : list (list Z) :=
  match l with
  | [] => []
  | a :: b :: c :: d :: e :: f :: g :: h :: t => [a; b; c; d; e; f; g; h] :: chunks8 t
  | _ => [l]
  end.

(** [for (i, &byte) in chunk.iter().enumerate() { y[i] ^= byte; }]. *)
Definition xor_into (y chunk : list Z) : result (list Z) :=
  if (length chunk <=? length y)%nat
  then Ok (xor_bytes (take (length chunk) y) chunk ++ drop (length chunk) y)
  else Panic.

Definition zero_iv : list Z := replicate 8 0.

Fixpoint mac_chunks (k1 y : list Z) (cs : list (list Z)) : result (list Z) :=
  match cs with
  | [] => Ok y
  | chunk :: cs =>
      x ← xor_into y chunk;
      y' ← tdes_cbc_encrypt (ExpandedTdesKey_repeated k1) zero_iv x;
      mac_chunks k1 y' cs
  end.

(** [src/marty-crypto/src/des.rs:240-295] retail_mac *)
Definition retail_mac (key data : list Z) : result (list Z) :=
  ensure (zlen key =? 16) (CryptoInternal "Retail MAC requires 16-byte key");;
  let k1 := take 8 key in
  let k2 := take 8 (drop 8 key) in
  padded ← push_zeros 8 (data ++ [128]);
  y ← mac_chunks k1 zero_iv (chunks8 padded);
  y ← tdes_cbc_decrypt (ExpandedTdesKey_repeated k2) zero_iv y;
  tdes_cbc_encrypt (ExpandedTdesKey_repeated k1) zero_iv y.
End des.

(** [u8::count_ones]. *)
Definition count_ones (b : Z) : Z :=
  foldr (fun i acc => Z.b2z (Z.testbit b (Z.of_nat i)) + acc) 0 (seq 0 8).

(** [src/marty-crypto/src/des.rs:297-308] adjust_parity *)
Definition adjust_parity (key : list Z) : list Z :=
  (fun byte => if count_ones byte mod 2 =? 0 then Z.lxor byte 1 else byte) <$> key.
