(* ===== verification/DesFacts.v ===== *)
(** * Triple DES: properties

    Padding, block decomposition, CBC round trips, the value of the retail MAC
    and the parity adjustment. *)

From S2P Require Import Prelude Des.
Local Open Scope Z_scope.

(** ** Padding *)
Lemma push_zeros_spec {E} fuel : forall p,
  (- zlen p) mod 8 <= Z.of_nat fuel ->
  push_zeros (E:=E) fuel p = Ok (p ++ replicate (Z.to_nat ((- zlen p) mod 8)) 0).
Proof.
  induction fuel as [|fuel IH]; intros p Hp; cbn [push_zeros]; unfold is_multiple_of8;
    destruct (Z.eqb_spec (zlen p mod 8) 0) as [Hm|Hm].
  1,3: assert ((- zlen p) mod 8 = 0) as -> by (Z.to_euclidean_division_equations; lia);
    by rewrite app_nil_r.
  - exfalso. Z.to_euclidean_division_equations; lia.
  - assert ((- zlen (p ++ [0])) mod 8 = (- zlen p) mod 8 - 1) as Hs.
    { lens. Z.to_euclidean_division_equations; lia. }
    rewrite IH by lia. rewrite Hs, <-app_assoc. do 2 f_equal.
    assert (1 <= (- zlen p) mod 8) by (Z.to_euclidean_division_equations; lia).
    replace (Z.to_nat ((- zlen p) mod 8)) with (S (Z.to_nat ((- zlen p) mod 8 - 1))) by lia. done.
Qed.

(** Marker and zeros up to a block boundary. *)
Definition padded (data : list Z) : list Z :=
  data ++ 128 :: replicate (Z.to_nat ((- (zlen data + 1)) mod 8)) 0.

Lemma push_zeros_padded {E} data : push_zeros (E:=E) 8 (data ++ [128]) = Ok (padded data).
Proof.
  pose proof (Z.mod_pos_bound (- zlen (data ++ [128])) 8).
  rewrite push_zeros_spec by lia. unfold padded. rewrite <-app_assoc. lens. done.
Qed.

Lemma padded_length data : zlen (padded data) mod 8 = 0 /\ zlen data < zlen (padded data) <= zlen data + 8.
Proof.
  unfold padded. lens. pose proof (zlen_nonneg data).
  pose proof (Z.mod_pos_bound (- (zlen data + 1)) 8). rewrite Z2Nat.id by lia.
  split; [|lia]. Z.to_euclidean_division_equations; lia.
Qed.

Lemma padded_bytes data : bytes_ok data -> bytes_ok (padded data).
Proof.
  intros Hd. unfold padded, bytes_ok. apply Forall_app. split; [done|].
  apply Forall_cons_2; [unfold byte_ok; lia|]. apply Forall_replicate. unfold byte_ok. lia.
Qed.

(** ** Blocks *)
Definition blocks_of (bs : list (list Z)) (p : list Z) : Prop := p = concat bs /\ Forall block_ok bs.

Lemma blocks_exist p : bytes_ok p -> zlen p mod 8 = 0 -> exists bs, blocks_of bs p.
Proof.
  intros Hb Hm. assert (exists n, length p = (8 * n)%nat) as [n Hn].
  { exists (Z.to_nat (zlen p / 8)). unfold zlen in *. Z.to_euclidean_division_equations; lia. }
  clear Hm. revert p Hb Hn. induction n as [|n IH]; intros p Hb Hn.
  - exists []. split; [|done]. by destruct p.
  - destruct (IH (drop 8 p)) as (bs & Hbs & Hok).
    { by apply Forall_drop. }
    { rewrite length_drop. lia. }
    exists (take 8 p :: bs). split.
    + simpl. by rewrite <-Hbs, take_drop.
    + constructor; [|done]. split; [rewrite length_take; lia|by apply Forall_take].
Qed.

Lemma blocks_length bs p : blocks_of bs p -> zlen p = 8 * zlen bs.
Proof.
  intros [-> Hbs]. induction Hbs as [|b bs [Hl _] Hbs IH]; [done|].
  simpl concat. lens. rewrite IH. unfold zlen in *. lia.
Qed.

Lemma blocks_bytes bs p : blocks_of bs p -> bytes_ok p.
Proof.
  intros [-> Hbs]. induction Hbs as [|b bs [_ Hb] Hbs IH]; simpl; [constructor|].
  by apply Forall_app.
Qed.

Lemma chunks8_blocks bs p : blocks_of bs p -> chunks8 p = bs.
Proof.
  intros [-> Hbs]. induction Hbs as [|b bs [Hl _] Hbs IH]; [done|].
  do 8 (destruct b as [|? b]; [discriminate Hl|]). destruct b; [|discriminate Hl].
  simpl. by rewrite IH.
Qed.

Lemma xor_length a b : length a = length b -> length (xor_bytes a b) = length a.
Proof. intros Hl. unfold xor_bytes. rewrite length_zip_with. lia. Qed.

Lemma lxor_byte a b : byte_ok a -> byte_ok b -> byte_ok (Z.lxor a b).
Proof.
  intros Ha Hb. apply byte_ok_of_bits.
  - apply Z.lxor_nonneg. unfold byte_ok in *. lia.
  - intros n Hn. rewrite Z.lxor_spec. by rewrite !testbit_byte_high.
Qed.

Lemma xor_bytes_ok a b : bytes_ok a -> bytes_ok b -> bytes_ok (xor_bytes a b).
Proof.
  intros Ha. revert b. induction Ha as [|x a Hx Ha IH]; intros b Hb; [constructor|].
  destruct Hb as [|y b Hy Hb]; [constructor|]. constructor; [by apply lxor_byte|by apply IH].
Qed.

Lemma xor_block a b : block_ok a -> block_ok b -> block_ok (xor_bytes a b).
Proof.
  intros [Ha Ha'] [Hb Hb']. split; [|by apply xor_bytes_ok].
  rewrite xor_length; congruence.
Qed.

Lemma xor_xor a b : length a = length b -> xor_bytes a (xor_bytes a b) = b.
Proof.
  unfold xor_bytes. revert b. induction a as [|x a IH]; intros [|y b] Hl; try discriminate Hl; [done|].
  simpl. f_equal; [|apply IH; by injection Hl].
  by rewrite <-Z.lxor_assoc, Z.lxor_nilpotent, Z.lxor_0_l.
Qed.

Lemma zero_iv_ok : block_ok zero_iv.
Proof. split; [done|]. apply Forall_replicate. unfold byte_ok. lia. Qed.

Lemma xor_zero b : length b = 8%nat -> xor_bytes zero_iv b = b.
Proof.
  intros Hl. do 8 (destruct b as [|? b]; [discriminate Hl|]). destruct b; [|discriminate Hl].
  done.
Qed.

Lemma validate_tdes_ok key iv bs p :
  length key = 24%nat -> block_ok iv -> blocks_of bs p -> bs ≠ [] ->
  validate_tdes_params key iv p = Ok tt.
Proof.
  intros Hk [Hiv _] Hbs Hne. unfold validate_tdes_params, is_multiple_of8.
  rewrite (blocks_length bs p) by done.
  assert (zlen key = 24) as -> by (unfold zlen; lia). assert (zlen iv = 8) as -> by (unfold zlen; lia).
  assert (0 < zlen bs) by (destruct bs; [done|lens; pose proof (zlen_nonneg bs); lia]).
  rewrite (proj2 (Z.eqb_neq _ 0)) by lia.
  by rewrite Z.mul_comm, Z.mod_mul.
Qed.

Section laws.
Context `{TdesLaws}.

(** ** CBC over blocks *)
Lemma tdes_block_ok key b : block_ok b -> block_ok (tdes_block key b).
Proof. intros Hb. unfold tdes_block. by apply des_encrypt_ok, des_decrypt_ok, des_encrypt_ok. Qed.

Lemma tdes_block_inverse key b : block_ok b -> tdes_block_inv key (tdes_block key b) = b.
Proof.
  intros Hb. unfold tdes_block, tdes_block_inv.
  rewrite des_decrypt_encrypt by (by apply des_decrypt_ok, des_encrypt_ok).
  rewrite des_encrypt_decrypt by (by apply des_encrypt_ok). by apply des_decrypt_encrypt.
Qed.

Lemma tdes_block_single k b : length k = 8%nat -> block_ok b -> tdes_block (k ++ k ++ k) b = des_encrypt k b.
Proof.
  intros Hk Hb. unfold tdes_block.
  rewrite (take_app_length' k _ 8), (drop_app_length' k _ 8), (take_app_length' k _ 8) by done.
  rewrite (app_assoc k k k), (drop_app_length' (k ++ k)) by (rewrite length_app; lia).
  by rewrite des_decrypt_encrypt.
Qed.

Lemma tdes_block_inv_single k b : length k = 8%nat -> block_ok b -> tdes_block_inv (k ++ k ++ k) b = des_decrypt k b.
Proof.
  intros Hk Hb. unfold tdes_block_inv.
  rewrite (take_app_length' k _ 8), (drop_app_length' k _ 8), (take_app_length' k _ 8) by done.
  rewrite (app_assoc k k k), (drop_app_length' (k ++ k)) by (rewrite length_app; lia).
  by rewrite des_encrypt_decrypt.
Qed.

(** Ciphertext blocks. *)
Fixpoint cbc_blocks (key iv : list Z) (bs : list (list Z)) : list (list Z) :=
  match bs with
  | [] => []
  | b :: bs => let c := tdes_block key (xor_bytes iv b) in c :: cbc_blocks key c bs
  end.

Lemma cbc_encrypt_blocks key bs : forall iv,
  block_ok iv -> Forall block_ok bs ->
  cbc_encrypt key iv (concat bs) = concat (cbc_blocks key iv bs) /\ Forall block_ok (cbc_blocks key iv bs).
Proof.
  induction bs as [|b bs IH]; intros iv Hiv Hbs; [by rewrite cbc_encrypt_nil|].
  apply Forall_cons in Hbs as [Hb Hbs]. simpl. rewrite cbc_encrypt_block by done. cbn zeta.
  assert (block_ok (tdes_block key (xor_bytes iv b))) as Hc by (by apply tdes_block_ok, xor_block).
  destruct (IH _ Hc Hbs) as [-> Hok]. split; [done|]. by constructor.
Qed.

Lemma cbc_decrypt_blocks key bs : forall iv,
  block_ok iv -> Forall block_ok bs ->
  cbc_decrypt key iv (concat (cbc_blocks key iv bs)) = concat bs.
Proof.
  induction bs as [|b bs IH]; intros iv Hiv Hbs; [by rewrite cbc_decrypt_nil|].
  apply Forall_cons in Hbs as [Hb Hbs]. simpl.
  assert (block_ok (xor_bytes iv b)) as Hx by (by apply xor_block).
  assert (block_ok (tdes_block key (xor_bytes iv b))) as Hc by (by apply tdes_block_ok).
  rewrite cbc_decrypt_block by done. rewrite tdes_block_inverse by done.
  rewrite xor_xor by (destruct Hiv, Hb; congruence). by rewrite IH.
Qed.

Lemma length_cbc_blocks key bs : forall iv, length (cbc_blocks key iv bs) = length bs.
Proof. induction bs as [|b bs IH]; intros iv; simpl; [done|]. by rewrite IH. Qed.

Lemma tdes_encrypt_blocks key iv bs p :
  length key = 24%nat -> block_ok iv -> blocks_of bs p -> bs ≠ [] ->
  tdes_cbc_encrypt key iv p = Ok (concat (cbc_blocks key iv bs)) /\
  blocks_of (cbc_blocks key iv bs) (concat (cbc_blocks key iv bs)).
Proof.
  intros Hk Hiv Hbs Hne. unfold tdes_cbc_encrypt. rewrite (validate_tdes_ok _ _ bs) by done.
  cbn [mbind res_bind]. destruct Hbs as [-> Hbs].
  destruct (cbc_encrypt_blocks key bs iv Hiv Hbs) as [-> Hok]. done.
Qed.

Lemma tdes_cbc_roundtrip_bytes (key iv p : list Z) :
  length key = 24%nat -> block_ok iv -> bytes_ok p -> p ≠ [] -> zlen p mod 8 = 0 ->
  exists c, tdes_cbc_encrypt key iv p = Ok c /\ zlen c = zlen p /\ bytes_ok c /\
            tdes_cbc_decrypt key iv c = Ok p.
Proof.
  intros Hk Hiv Hp Hne Hm. destruct (blocks_exist p Hp Hm) as (bs & Hbs).
  assert (bs ≠ []) as Hbne by (intros ->; by destruct Hbs as [-> _]).
  destruct (tdes_encrypt_blocks key iv bs p) as [Henc Hcb]; [done..|].
  eexists. split; [exact Henc|]. split.
  { rewrite (blocks_length _ _ Hcb), (blocks_length _ _ Hbs). unfold zlen. by rewrite length_cbc_blocks. }
  split; [by eapply blocks_bytes|].
  unfold tdes_cbc_decrypt. rewrite (validate_tdes_ok _ _ (cbc_blocks key iv bs)); [|done..|].
  - cbn [mbind res_bind]. destruct Hbs as [-> Hbs]. by rewrite cbc_decrypt_blocks.
  - destruct bs; [done|]. by intros Hnil.
Qed.

(** 3DES-CBC decryption with the same key and IV inverts encryption, on
    every non-empty block-aligned message. *)
Theorem tdes_cbc_roundtrip (key iv p : list Z) :
  length key = 24%nat -> block_ok iv -> bytes_ok p -> p ≠ [] -> zlen p mod 8 = 0 ->
  exists c, tdes_cbc_encrypt key iv p = Ok c /\ zlen c = zlen p /\ tdes_cbc_decrypt key iv c = Ok p.
Proof.
  intros Hk Hiv Hp Hne Hm.
  destruct (tdes_cbc_roundtrip_bytes key iv p) as (c & He & Hl & _ & Hd); [done..|]. by exists c.
Qed.

(** ** The retail MAC *)
Definition mac_fold (k : list Z) (y : list Z) (bs : list (list Z)) : list Z :=
  foldl (fun y b => des_encrypt k (xor_bytes y b)) y bs.

Lemma mac_fold_ok k bs : forall y, block_ok y -> Forall block_ok bs -> block_ok (mac_fold k y bs).
Proof.
  induction bs as [|b bs IH]; intros y Hy Hbs; [done|].
  apply Forall_cons in Hbs as [Hb Hbs]. simpl. apply IH; [|done]. by apply des_encrypt_ok, xor_block.
Qed.

(** Encrypting one block under a zero IV. *)
Lemma tdes_encrypt_one key b :
  length key = 24%nat -> block_ok b -> tdes_cbc_encrypt key zero_iv b = Ok (tdes_block key b).
Proof.
  intros Hk Hb. destruct (tdes_encrypt_blocks key zero_iv [b] b) as [-> _]; [done|apply zero_iv_ok| |done|].
  - split; [by simpl; rewrite app_nil_r|by constructor].
  - cbn [cbc_blocks concat]. cbn zeta. rewrite xor_zero by (by destruct Hb). by rewrite app_nil_r.
Qed.

Lemma repeated_length k : length k = 8%nat -> length (ExpandedTdesKey_repeated k) = 24%nat.
Proof. intros Hk. unfold ExpandedTdesKey_repeated. rewrite !length_app. lia. Qed.

Lemma xor_into_block y b : block_ok y -> block_ok b -> xor_into y b = Ok (xor_bytes y b).
Proof.
  intros [Hy _] [Hb _]. unfold xor_into. rewrite Hy, Hb. cbn [Nat.leb].
  rewrite take_ge, drop_ge by lia. by rewrite app_nil_r.
Qed.

Lemma mac_chunks_fold k bs : forall y,
  length k = 8%nat -> block_ok y -> Forall block_ok bs -> mac_chunks k y bs = Ok (mac_fold k y bs).
Proof.
  induction bs as [|b bs IH]; intros y Hk Hy Hbs; [done|].
  apply Forall_cons in Hbs as [Hb Hbs]. cbn [mac_chunks].
  rewrite xor_into_block by done. cbn [mbind res_bind].
  assert (block_ok (xor_bytes y b)) as Hx by (by apply xor_block).
  rewrite tdes_encrypt_one by (done || by apply repeated_length). cbn [mbind res_bind].
  unfold ExpandedTdesKey_repeated. rewrite tdes_block_single by done.
  rewrite IH; [done|done| |done]. by apply des_encrypt_ok.
Qed.

(** The MAC of ISO 9797-1 algorithm 3 over the padded blocks. *)
Definition mac_value (key data : list Z) : list Z :=
  des_encrypt (take 8 key)
    (des_decrypt (take 8 (drop 8 key)) (mac_fold (take 8 key) zero_iv (chunks8 (padded data)))).

Lemma padded_blocks data : bytes_ok data -> exists bs, blocks_of bs (padded data) /\ bs ≠ [] /\ chunks8 (padded data) = bs.
Proof.
  intros Hd. destruct (blocks_exist (padded data)) as (bs & Hbs).
  { by apply padded_bytes. }
  { apply padded_length. }
  exists bs. split; [done|]. split; [|by apply chunks8_blocks].
  intros ->. destruct Hbs as [Hnil _]. unfold padded in Hnil. by destruct data.
Qed.

Lemma mac_value_ok key data : bytes_ok data -> block_ok (mac_value key data).
Proof.
  intros Hd. unfold mac_value. destruct (padded_blocks data Hd) as (bs & [_ Hbs] & _ & ->).
  by apply des_encrypt_ok, des_decrypt_ok, mac_fold_ok; [apply zero_iv_ok|].
Qed.

Lemma tdes_decrypt_one k b :
  length k = 8%nat -> block_ok b ->
  tdes_cbc_decrypt (ExpandedTdesKey_repeated k) zero_iv b = Ok (des_decrypt k b).
Proof.
  intros Hk Hb. unfold tdes_cbc_decrypt.
  rewrite (validate_tdes_ok _ _ [b]); [|by apply repeated_length|apply zero_iv_ok| |done].
  2:{ split; [by simpl; rewrite app_nil_r|by constructor]. }
  cbn [mbind res_bind]. rewrite <-(app_nil_r b) at 1.
  rewrite cbc_decrypt_block by (done || apply zero_iv_ok).
  rewrite cbc_decrypt_nil, app_nil_r. unfold ExpandedTdesKey_repeated.
  rewrite tdes_block_inv_single by done.
  rewrite xor_zero; [done|]. by apply des_decrypt_ok.
Qed.

Lemma retail_mac_value key data :
  length key = 16%nat -> bytes_ok data -> retail_mac key data = Ok (mac_value key data).
Proof.
  intros Hk Hd. unfold retail_mac, mac_value.
  assert ((zlen key =? 16) = true) as -> by (unfold zlen; lia).
  cbn [ensure mbind res_bind]. rewrite push_zeros_padded. cbn [mbind res_bind].
  destruct (padded_blocks data Hd) as (bs & [_ Hbs] & _ & ->).
  assert (length (take 8 key) = 8%nat) as H1 by (rewrite length_take; lia).
  assert (length (take 8 (drop 8 key)) = 8%nat) as H2 by (rewrite length_take, length_drop; lia).
  rewrite mac_chunks_fold by (done || apply zero_iv_ok). cbn [mbind res_bind].
  assert (block_ok (mac_fold (take 8 key) zero_iv bs)) as Hf by (by apply mac_fold_ok; [apply zero_iv_ok|]).
  rewrite tdes_decrypt_one by done. cbn [mbind res_bind].
  rewrite tdes_encrypt_one by (by apply repeated_length || by apply des_decrypt_ok).
  unfold ExpandedTdesKey_repeated. by rewrite tdes_block_single by (done || by apply des_decrypt_ok).
Qed.
End laws.

(** ** A concrete cipher

    Exclusive or with the key, in CBC mode: the laws are satisfiable, and the
    definitions can be evaluated. *)
Definition toy_key (k : list Z) : list Z := wrap 8 <$> take 8 (k ++ replicate 8 0).

Fixpoint toy_cbc (key iv : list Z) (bs : list (list Z)) : list Z :=
  match bs with
  | [] => []
  | b :: bs =>
      let mix k b := xor_bytes (toy_key k) b in
      let c := mix (drop 16 key) (mix (take 8 (drop 8 key)) (mix (take 8 key) (xor_bytes iv b))) in
      c ++ toy_cbc key c bs
  end.

Fixpoint toy_cbc_inv (key iv : list Z) (bs : list (list Z)) : list Z :=
  match bs with
  | [] => []
  | c :: bs =>
      let mix k b := xor_bytes (toy_key k) b in
      xor_bytes iv (mix (take 8 key) (mix (take 8 (drop 8 key)) (mix (drop 16 key) c)))
      ++ toy_cbc_inv key c bs
  end.

Definition toy_pkcs7 (p : list Z) : list Z :=
  let n := (8 - length p mod 8)%nat in p ++ replicate n (Z.of_nat n).

#[export] Instance toy_tdes : Tdes := {
  des_encrypt k b := xor_bytes (toy_key k) b;
  des_decrypt k b := xor_bytes (toy_key k) b;
  cbc_encrypt key iv p := toy_cbc key iv (chunks8 p);
  cbc_decrypt key iv c := toy_cbc_inv key iv (chunks8 c);
  cbc_encrypt_pkcs7 key iv p := toy_pkcs7 p;
  cbc_decrypt_pkcs7 key iv c := n ← last c; Some (take (length c - Z.to_nat n) c);
}.

Lemma toy_key_ok k : block_ok (toy_key k).
Proof.
  split.
  - unfold toy_key. rewrite length_fmap, length_take, length_app, length_replicate. lia.
  - apply Forall_fmap, Forall_forall. intros x _. apply wrap8_byte_ok.
Qed.

Lemma chunks8_cons b rest : block_ok b -> chunks8 (b ++ rest) = b :: chunks8 rest.
Proof.
  intros [Hl _]. do 8 (destruct b as [|? b]; [discriminate Hl|]). by destruct b; [|discriminate Hl].
Qed.

Lemma toy_pkcs7_spec p : exists n, (0 < n <= 8)%nat /\ toy_pkcs7 p = p ++ replicate n (Z.of_nat n) /\
  ((length p + n) mod 8 = 0)%nat.
Proof.
  exists (8 - length p mod 8)%nat. pose proof (Nat.mod_upper_bound (length p) 8).
  split; [lia|]. split; [done|].
  rewrite (Nat.div_mod_eq (length p) 8) at 1.
  replace (_ + _)%nat with ((length p / 8 + 1) * 8)%nat by lia. apply Nat.Div0.mod_mul.
Qed.

#[export] Instance toy_tdes_laws : TdesLaws.
Proof.
  split.
  - intros k b Hb. apply xor_block; [apply toy_key_ok|done].
  - intros k b Hb. apply xor_block; [apply toy_key_ok|done].
  - intros k b [Hb _]. apply xor_xor. destruct (toy_key_ok k). congruence.
  - intros k b [Hb _]. apply xor_xor. destruct (toy_key_ok k). congruence.
  - done.
  - intros key iv b rest _ Hb. simpl. by rewrite chunks8_cons.
  - done.
  - intros key iv c rest _ Hc. simpl. by rewrite chunks8_cons.
  - intros key iv p _ _. simpl. destruct (toy_pkcs7_spec p) as (n & Hn & -> & _).
    rewrite last_app. destruct n as [|n]; [lia|].
    rewrite (last_lookup (replicate (S n) _)), length_replicate. cbn [Nat.pred].
    rewrite lookup_replicate_2 by lia. cbn [mbind option_bind].
    rewrite length_app, length_replicate, Nat2Z.id.
    by rewrite take_app_length' by lia.
  - intros key iv p. simpl. destruct (toy_pkcs7_spec p) as (n & Hn & -> & Hm).
    rewrite length_app, length_replicate.
    exists ((length p + n) / 8)%nat. pose proof (Nat.div_mod_eq (length p + n) 8). lia.
Qed.

Definition sample_key24 : list Z := [1;2;3;4;5;6;7;8;9;10;11;12;13;14;15;16;17;18;19;20;21;22;23;24].

Lemma tdes_cbc_roundtrip_witness :
  exists c, tdes_cbc_encrypt sample_key24 zero_iv (padded [1; 2; 3]) = Ok c /\
    zlen c = zlen (padded [1; 2; 3]) /\
    tdes_cbc_decrypt sample_key24 zero_iv c = Ok (padded [1; 2; 3]).
Proof.
  apply (tdes_cbc_roundtrip sample_key24 zero_iv (padded [1; 2; 3])).
  - reflexivity.
  - apply zero_iv_ok.
  - apply padded_bytes. unfold bytes_ok, byte_ok. repeat (apply Forall_cons_2; [lia|]). apply Forall_nil_2.
  - discriminate.
  - reflexivity.
Defined.

(** ** Parity *)
Lemma byte_cases (P : Z -> bool) : forallb P (seqZ 0 256) = true -> forall b, byte_ok b -> P b = true.
Proof.
  intros Hall b Hb. rewrite forallb_forall in Hall. apply Hall, list_elem_of_In, elem_of_seqZ.
  unfold byte_ok in Hb. lia.
Qed.

Definition adjust_byte (b : Z) : Z := if count_ones b mod 2 =? 0 then Z.lxor b 1 else b.

Lemma adjust_byte_odd b :
  byte_ok b -> byte_ok (adjust_byte b) /\ count_ones (adjust_byte b) mod 2 = 1 /\ adjust_byte b / 2 = b / 2.
Proof.
  intros Hb. pose proof (byte_cases (fun b => (0 <=? adjust_byte b) && (adjust_byte b <? 256) &&
    (count_ones (adjust_byte b) mod 2 =? 1) && (adjust_byte b / 2 =? b / 2)) ltac:(by vm_compute) b Hb) as Hc.
  cbv beta in Hc. breflect. done.
Qed.

(** after the parity adjustment every byte of a key has an odd number of
    ones and keeps its seven key bits, and the adjustment is idempotent. *)
Theorem adjust_parity_odd (key : list Z) :
  bytes_ok key ->
  Forall (fun b => byte_ok b /\ count_ones b mod 2 = 1) (adjust_parity key) /\
  Forall2 (fun a b => a / 2 = b / 2) (adjust_parity key) key /\
  adjust_parity (adjust_parity key) = adjust_parity key.
Proof.
  change adjust_parity with (fmap (M:=list) adjust_byte). cbv beta.
  intros Hk. induction Hk as [|b key Hb Hk (IH1 & IH2 & IH3)]; [repeat constructor|].
  rewrite !fmap_cons. destruct (adjust_byte_odd b Hb) as (Hok & Hodd & Hkey).
  split; [by constructor|]. split; [by constructor|]. f_equal; [|done].
  unfold adjust_byte at 1. by rewrite Hodd.
Qed.

Lemma adjust_parity_odd_witness :
  Forall (fun b => byte_ok b /\ count_ones b mod 2 = 1) (adjust_parity [0; 3; 254; 255]) /\
  Forall2 (fun a b => a / 2 = b / 2) (adjust_parity [0; 3; 254; 255]) [0; 3; 254; 255] /\
  adjust_parity (adjust_parity [0; 3; 254; 255]) = adjust_parity [0; 3; 254; 255].
Proof.
  apply (adjust_parity_odd [0; 3; 254; 255]).
  unfold bytes_ok, byte_ok. repeat (apply Forall_cons_2; [lia|]). apply Forall_nil_2.
Defined.
