(* ===== verification/Apdu.v ===== *)
(** * APDU codec (marty-verification, [chip_io/mod.rs], first part)

    Command and response APDUs of ISO/IEC 7816-4 in short and extended form,
    the READ BINARY plan and the data-group file identifiers.  Bytes are [Z]
    in [0, 256); indexing panics out of range. *)

From S2P Require Import Prelude.
From stdpp Require Import pretty.
Local Open Scope Z_scope.

(** The variants that the modelled code builds, by the builder's name ([trust_anchor_load]
    and [empty_registry] are at lines 85-103 of the same file). *)
(** [src/marty-verification/src/error/builders.rs:229-273] VerificationError *)
Inductive VerificationError :=
| internal (reason : string)
| pem_error (reason : string)
| der_error (reason : string)
| io_error (reason : string)
| trust_anchor_load (reason : string)
| empty_registry.

#[local] Abbreviation result := (res VerificationError).

(** [src/marty-verification/src/chip_io/mod.rs:86-87] MAX_APDU_DATA_BYTES *)
Definition MAX_APDU_DATA_BYTES : Z := 65535.

(** [src/marty-verification/src/chip_io/mod.rs:93-104] ApduCommand *)
Record ApduCommand := mkCommand {
  cla : Z;
  ins : Z;
  p1 : Z;
  p2 : Z;
  cmd_data : list Z;
  cmd_le : option Z;
}.

(** [src/marty-verification/src/chip_io/mod.rs:257-264] ApduResponse *)
Record ApduResponse := mkResponse {
  resp_data : list Z;
  sw1 : Z;
  sw2 : Z;
}.

(** [checked_add] on [usize]. *)
Definition usize_checked_add (a b : Z) : option Z :=
  if a + b <=? usize_max then Some (a + b) else None.

(** [src/marty-verification/src/chip_io/mod.rs:107-187] ApduCommand::from_bytes *)
Definition command_from_bytes (raw : list Z) : result ApduCommand :=
  let len := zlen raw in
  ensure (negb (len <? 4)) (internal "APDU command must contain CLA INS P1 P2");;
  c ← vec_index raw 0;
  i ← vec_index raw 1;
  x ← vec_index raw 2;
  y ← vec_index raw 3;
  if len =? 4 then Ok (mkCommand c i x y [] None)
  else if len =? 5 then
    e ← vec_index raw 4;
    Ok (mkCommand c i x y [] (Some e))
  else
    r4 ← vec_index raw 4;
    if negb (r4 =? 0) then
      data_end ← ok_or (usize_checked_add 5 r4) (internal "APDU command length overflow");
      ensure (negb (negb (len =? data_end) && negb (len =? data_end + 1)))
        (internal "APDU command has inconsistent short-form Lc/Le");;
      data ← vec_slice raw 5 data_end;
      if len =? data_end + 1 then
        e ← vec_index raw data_end;
        Ok (mkCommand c i x y data (Some e))
      else Ok (mkCommand c i x y data None)
    else if len =? 7 then
      h ← vec_index raw 5;
      l ← vec_index raw 6;
      Ok (mkCommand c i x y [] (Some (from_be16 h l)))
    else
      ensure (negb (len <? 7)) (internal "Extended APDU is missing its two-byte length");;
      h ← vec_index raw 5;
      l ← vec_index raw 6;
      let lc := from_be16 h l in
      data_end ← ok_or (usize_checked_add 7 lc) (internal "Extended APDU command length overflow");
      ensure (negb (negb (len =? data_end) && negb (len =? data_end + 2)))
        (internal "APDU command has inconsistent extended Lc/Le");;
      data ← vec_slice raw 7 data_end;
      if len =? data_end + 2 then
        h ← vec_index raw data_end;
        l ← vec_index raw (data_end + 1);
        Ok (mkCommand c i x y data (Some (from_be16 h l)))
      else Ok (mkCommand c i x y data None).

(** [src/marty-verification/src/chip_io/mod.rs:202-256] encode_apdu_command *)
Definition encode_apdu_command (c i x y : Z) (data : option (list Z)) (e : option Z) :
    result (list Z) :=
  let data_len := from_option zlen 0 data in
  ensure (negb (MAX_APDU_DATA_BYTES <? data_len))
    (internal "APDU command data exceeds extended-length capacity");;
  ensure (negb (from_option (fun v => 65535 <? v) false e))
    (internal "APDU Le exceeds extended-length capacity");;
  let encoded := [c; i; x; y] in
  match data, e with
  | None, None => Ok encoded
  | None, Some expected =>
      if expected <=? 255 then Ok (encoded ++ [wrap 8 expected])
      else Ok (encoded ++ [0] ++ be16 (wrap 16 expected))
  | Some value, expected =>
      if zlen value <=? 255 then
        let encoded := encoded ++ [wrap 8 (zlen value)] ++ value in
        match expected with
        | Some expected =>
            ensure (negb (255 <? expected))
              (internal "Short APDU data cannot be combined with extended Le");;
            Ok (encoded ++ [wrap 8 expected])
        | None => Ok encoded
        end
      else
        let encoded := encoded ++ [0] ++ be16 (wrap 16 (zlen value)) ++ value in
        match expected with
        | Some expected => Ok (encoded ++ be16 (wrap 16 expected))
        | None => Ok encoded
        end
  end.

(** [src/marty-verification/src/chip_io/mod.rs:189-200] ApduCommand::to_bytes *)
Definition command_to_bytes (cmd : ApduCommand) : result (list Z) :=
  encode_apdu_command (cla cmd) (ins cmd) (p1 cmd) (p2 cmd)
    (match cmd_data cmd with [] => None | d => Some d end) (cmd_le cmd).

(** [src/marty-verification/src/chip_io/mod.rs:267-285] ApduResponse::from_bytes *)
Definition response_from_bytes (raw : list Z) : result ApduResponse :=
  ensure (negb (zlen raw <? 2)) (internal "APDU response too short (need at least SW1 SW2)");;
  ensure (negb (MAX_APDU_DATA_BYTES + 2 <? zlen raw))
    (internal "APDU response data exceeds extended-length capacity");;
  data ← vec_slice raw 0 (zlen raw - 2);
  sw ← vec_slice raw (zlen raw - 2) (zlen raw);
  s1 ← vec_index sw 0;
  s2 ← vec_index sw 1;
  Ok (mkResponse data s1 s2).

(** [src/marty-verification/src/chip_io/mod.rs:287-291] ApduResponse::status_word *)
Definition status_word (r : ApduResponse) : Z := Z.lor (Z.shiftl (sw1 r) 8) (sw2 r).

(** [src/marty-verification/src/chip_io/mod.rs:293-297] ApduResponse::is_success *)
Definition is_success (r : ApduResponse) : bool := status_word r =? 0x9000.

(** [src/marty-verification/src/chip_io/mod.rs:299-301] ApduResponse::is_warning *)
Definition is_warning (r : ApduResponse) : bool := (sw1 r =? 0x62) || (sw1 r =? 0x63).

(** [src/marty-verification/src/chip_io/mod.rs:303-305] ApduResponse::is_error *)
Definition is_error (r : ApduResponse) : bool := 0x64 <=? sw1 r.

(** [format!("{:04X}", n)] for a [u16]. *)
Definition hex_digit (d : Z) : ascii :=
  ascii_of_N (Z.to_N (if d <? 10 then 48 + d else 55 + d)).
Definition hex4 (n : Z) : string :=
  String.string_of_list_ascii
    [hex_digit (n / 4096 mod 16); hex_digit (n / 256 mod 16); hex_digit (n / 16 mod 16);
     hex_digit (n mod 16)].

(** The exact-match table of [status_description]. *)
Definition status_table : list (Z * string) :=
  [(0x9000, "Success"); (0x6100, "Response bytes available");
   (0x6281, "Part of returned data corrupted"); (0x6282, "End of file reached");
   (0x6283, "Selected file invalidated"); (0x6284, "File control information not formatted");
   (0x6300, "Authentication failed"); (0x6381, "File filled up by last write");
   (0x6400, "Execution error"); (0x6581, "Memory failure"); (0x6700, "Wrong length");
   (0x6800, "Functions in CLA not supported"); (0x6900, "Command not allowed");
   (0x6A00, "Wrong parameters P1-P2"); (0x6A80, "Incorrect parameters in data field");
   (0x6A81, "Function not supported"); (0x6A82, "File not found"); (0x6A83, "Record not found");
   (0x6A84, "Not enough memory space"); (0x6A86, "Incorrect parameters P1-P2");
   (0x6A88, "Referenced data not found"); (0x6B00, "Wrong parameters P1-P2");
   (0x6C00, "Wrong Le field"); (0x6D00, "Instruction code not supported");
   (0x6E00, "Class not supported"); (0x6F00, "No precise diagnosis")].

Definition masked_table : list (Z * string) :=
  [(0x6100, "Response bytes available"); (0x6200, "Warning: state unchanged");
   (0x6300, "Warning: state changed"); (0x6C00, "Wrong Le field")].

Definition table_lookup (t : list (Z * string)) (k : Z) : option string :=
  snd <$> find (fun e => e.1 =? k) t.

(** [src/marty-verification/src/chip_io/mod.rs:307-352] ApduResponse::status_description *)
Definition status_description (r : ApduResponse) : string :=
  match table_lookup status_table (status_word r) with
  | Some description => description
  | None =>
      match table_lookup masked_table (Z.land (status_word r) 0xFF00) with
      | Some value => value +:+ " (0x" +:+ hex4 (status_word r) +:+ ")"
      | None => "Unknown status: 0x" +:+ hex4 (status_word r)
      end
  end.

(** The loop of [build_read_binary_commands]; it runs at most [fuel] times. *)
Fixpoint read_binary_loop (fuel : nat) (length offset bytes_read : Z) : result (list ApduCommand) :=
  if bytes_read <? length then
    match fuel with
    | O => Panic
    | S fuel =>
        let chunk := Z.min (length - bytes_read) 255 in
        let current := offset + bytes_read in
        rest ← read_binary_loop fuel length offset (bytes_read + chunk);
        Ok (mkCommand 0 0xB0 (wrap 8 (Z.shiftr current 8)) (wrap 8 current) [] (Some chunk) :: rest)
    end
  else Ok [].

(** [src/marty-verification/src/chip_io/mod.rs:355-383] build_read_binary_commands *)
Definition build_read_binary_commands (length offset : Z) : result (list ApduCommand) :=
  e ← ok_or (usize_checked_add offset length) (internal "APDU read range overflow");
  ensure (negb (65535 + 1 <? e)) (internal "APDU read range exceeds READ BINARY offset capacity");;
  read_binary_loop (Z.to_nat length) length offset 0.

(** [src/marty-verification/src/chip_io/mod.rs:385-394] passport_data_group_file_id *)
Definition passport_data_group_file_id (data_group : Z) : result Z :=
  if (1 <=? data_group) && (data_group <=? 4) then Ok (0x0100 + data_group)
  else if data_group =? 14 then Ok 0x010E
  else if data_group =? 15 then Ok 0x010F
  else Err (internal ("Unsupported passport data group: " +:+ pretty data_group)).

(** [src/marty-verification/src/chip_io/mod.rs:402-405] PassportChip *)
Class PassportChip (S : Type) := transceive : S -> ApduCommand -> S * result ApduResponse.

(** [src/marty-verification/src/chip_io/mod.rs:407-421] MockPassportChip *)
Record MockPassportChip := mkMock {
  responses : list ApduResponse;
  cursor : nat;
}.

(** [src/marty-verification/src/chip_io/mod.rs:423-434] MockPassportChip::transceive *)
Definition mock_transceive (m : MockPassportChip) (_cmd : ApduCommand) :
    MockPassportChip * result ApduResponse :=
  match responses m !! cursor m with
  | None => (m, Err (internal "MockPassportChip: no more responses"))
  | Some resp => (mkMock (responses m) (S (cursor m)), Ok resp)
  end.

#[export] Instance mock_chip : PassportChip MockPassportChip := mock_transceive.
