(* ===== verification/ApduFacts.v ===== *)
(** * APDU codec: properties

    Encoding and parsing are inverse on every command that can be encoded,
    parsing is total on arbitrary bytes, and a READ BINARY plan covers exactly
    the requested range. *)

From S2P Require Import Prelude Apdu.
Local Open Scope Z_scope.

Definition command_ok (cmd : ApduCommand) : Prop :=
  bytes_ok [cla cmd; ins cmd; p1 cmd; p2 cmd] /\ bytes_ok (cmd_data cmd) /\
  (forall v, cmd_le cmd = Some v -> 0 <= v).

Definition encodable (cmd : ApduCommand) : Prop :=
  zlen (cmd_data cmd) <= 65535 /\
  (forall v, cmd_le cmd = Some v -> v <= 65535 /\ (1 <= zlen (cmd_data cmd) <= 255 -> v <= 255)).

Lemma wrap8_small x : 0 <= x <= 255 -> wrap 8 x = x.
Proof. intros. unfold wrap. apply Z.mod_small. lia. Qed.

Lemma wrap16_small x : 0 <= x <= 65535 -> wrap 16 x = x.
Proof. intros. unfold wrap. apply Z.mod_small. lia. Qed.

(** ** Parsing each form *)
Section forms.
Variables c i x y : Z.

(** The header of a command is read before any branch. *)
Lemma from_bytes_header t :
  command_from_bytes (c :: i :: x :: y :: t) =
  let raw := c :: i :: x :: y :: t in let len := zlen raw in
  if len =? 4 then Ok (mkCommand c i x y [] None)
  else if len =? 5 then e ← vec_index raw 4; Ok (mkCommand c i x y [] (Some e))
  else
    r4 ← vec_index raw 4;
    if negb (r4 =? 0) then
      data_end ← ok_or (usize_checked_add 5 r4) (internal "APDU command length overflow");
      ensure (negb (negb (len =? data_end) && negb (len =? data_end + 1)))
        (internal "APDU command has inconsistent short-form Lc/Le");;
      data ← vec_slice raw 5 data_end;
      if len =? data_end + 1 then
        e ← vec_index raw data_end; Ok (mkCommand c i x y data (Some e))
      else Ok (mkCommand c i x y data None)
    else if len =? 7 then
      h ← vec_index raw 5; l ← vec_index raw 6;
      Ok (mkCommand c i x y [] (Some (from_be16 h l)))
    else
      ensure (negb (len <? 7)) (internal "Extended APDU is missing its two-byte length");;
      h ← vec_index raw 5;
      l ← vec_index raw 6;
      let lc := from_be16 h l in
      data_end ← ok_or (usize_checked_add 7 lc) (internal "Extended APDU command length overflow");
      ensure (negb (negb (len =? data_end) && negb (len =? data_end + 2)))
        (internal "APDU command has inconsistent extended Lc/Le");;
      data ← vec_slice raw 7 data_end;
      if len =? data_end + 2 then
        h ← vec_index raw data_end; l ← vec_index raw (data_end + 1);
        Ok (mkCommand c i x y data (Some (from_be16 h l)))
      else Ok (mkCommand c i x y data None).
Proof.
  unfold command_from_bytes. pose proof (zlen_nonneg t).
  rewrite (proj2 (Z.ltb_ge _ 4)) by (lens; lia). done.
Qed.

Lemma from_bytes_short value t e :
  1 <= zlen value <= 255 ->
  t = match e with None => [] | Some v => [v] end ->
  command_from_bytes (c :: i :: x :: y :: zlen value :: value ++ t) = Ok (mkCommand c i x y value e).
Proof.
  intros Hv Ht. rewrite from_bytes_header. cbn zeta.
  pose proof (zlen_nonneg t).
  assert (zlen t = 0 \/ zlen t = 1) as Hz by (subst t; destruct e; auto).
  rewrite (vec_index_at _ [c; i; x; y] (zlen value) (value ++ t)) by done.
  cbn [mbind res_bind]. unfold usize_checked_add, usize_max. lens. decide_tests.
  rewrite (vec_slice_at _ [c; i; x; y; zlen value] value t) by (lens; done || lia).
  cbn [mbind res_bind]. destruct e as [v|]; subst t; lens; decide_tests; [|done].
  rewrite (vec_index_at _ ([c; i; x; y; zlen value] ++ value) v []); [done..|].
  lens. lia.
Qed.

Lemma from_bytes_extended value t e :
  1 <= zlen value <= 65535 ->
  (forall v, e = Some v -> 0 <= v <= 65535) ->
  t = match e with None => [] | Some v => be16 v end ->
  command_from_bytes (c :: i :: x :: y :: 0 :: be16 (zlen value) ++ value ++ t)
  = Ok (mkCommand c i x y value e).
Proof.
  intros Hv He Ht. rewrite from_bytes_header. cbn zeta.
  remember (zlen value) as n eqn:Hn. cbn [be16 app].
  assert (zlen t = 0 \/ zlen t = 2) as Hz by (subst t; destruct e; auto).
  rewrite (vec_index_at _ [c; i; x; y] 0 (be16 n ++ value ++ t) 4) by done.
  rewrite !(vec_index_at _ [c; i; x; y; 0] ((n / 256) mod 256) ([n mod 256] ++ value ++ t) 5) by done.
  cbn [mbind res_bind].
  rewrite !(vec_index_at _ [c; i; x; y; 0; (n / 256) mod 256] (n mod 256) (value ++ t) 6) by done.
  cbn [mbind res_bind]. rewrite from_be16_be16 by lia.
  unfold usize_checked_add, usize_max. lens. rewrite <-?Hn. decide_tests.
  rewrite (vec_slice_at _ [c; i; x; y; 0; (n / 256) mod 256; n mod 256] value t)
    by (lens; rewrite <-?Hn; done || lia).
  cbn [mbind res_bind]. destruct e as [v|]; subst t; unfold be16 in *; lens; rewrite <-?Hn; decide_tests; [|done].
  rewrite (vec_index_at _ ([c; i; x; y; 0; (n / 256) mod 256; n mod 256] ++ value)
    ((v / 256) mod 256) [v mod 256] (7 + n)) by (lens; rewrite <-?Hn; done || lia).
  rewrite (vec_index_at _ ([c; i; x; y; 0; (n / 256) mod 256; n mod 256] ++ value ++ [(v / 256) mod 256])
    (v mod 256) [] (7 + n + 1)) by (rewrite <-?app_assoc; lens; rewrite <-?Hn; done || lia).
  cbn [mbind res_bind]. by rewrite from_be16_be16 by (specialize (He v eq_refl); lia).
Qed.

Lemma from_bytes_le_extended v :
  0 <= v <= 65535 ->
  command_from_bytes (c :: i :: x :: y :: 0 :: be16 v) = Ok (mkCommand c i x y [] (Some v)).
Proof.
  intros Hv. rewrite from_bytes_header. cbn zeta. unfold be16.
  rewrite (vec_index_at _ [c; i; x; y] 0 (be16 v) 4) by done. cbn [mbind res_bind].
  rewrite !(vec_index_at _ [c; i; x; y; 0] ((v / 256) mod 256) [v mod 256] 5) by done.
  cbn [mbind res_bind].
  rewrite !(vec_index_at _ [c; i; x; y; 0; (v / 256) mod 256] (v mod 256) [] 6) by done.
  lens. decide_tests. by rewrite from_be16_be16 by lia.
Qed.

Lemma from_bytes_le v :
  0 <= v <= 65535 ->
  command_from_bytes (c :: i :: x :: y :: if v <=? 255 then [v] else 0 :: be16 v)
  = Ok (mkCommand c i x y [] (Some v)).
Proof.
  intros Hv. destruct (Z.leb_spec v 255) as [Hs|Hs]; [|by apply from_bytes_le_extended].
  by rewrite from_bytes_header.
Qed.
End forms.

(** ** Round trip *)
Lemma to_bytes_cases cmd :
  command_ok cmd ->
  match command_to_bytes cmd with
  | Ok raw => encodable cmd /\ command_from_bytes raw = Ok cmd
  | Err _ => ~ encodable cmd
  | Panic => False
  end.
Proof.
  destruct cmd as [c i x y data e]. unfold command_ok, encodable, command_to_bytes, encode_apdu_command.
  cbn [cla ins p1 p2 cmd_data cmd_le]. intros (_ & _ & He).
  set (od := match data with [] => None | _ => _ end).
  assert (from_option zlen 0 od = zlen data) as -> by (by unfold od; destruct data). pose proof (zlen_nonneg data). unfold MAX_APDU_DATA_BYTES.
  destruct (Z.ltb_spec 65535 (zlen data)) as [Hbig|Hbig]; cbn [negb ensure mbind res_bind]; [lia|].
  assert (from_option (fun v => 65535 <? v) false e = true -> exists v, e = Some v /\ 65535 < v) as Hle.
  { destruct e as [v|]; simpl; [|done]. intros Hv. breflect. eauto. }
  destruct (from_option _ false e) eqn:Hle'; cbn [negb ensure mbind res_bind].
  { destruct (Hle eq_refl) as (v & -> & Hv). intros [_ Hf]. destruct (Hf v eq_refl). lia. }
  assert (forall v, e = Some v -> 0 <= v <= 65535) as Hrange.
  { intros v ->. specialize (He v eq_refl). simpl in Hle'. breflect. lia. }
  unfold od; clear od. destruct data as [|d data'].
  { assert (forall v, e = Some v -> v <= 65535 /\ (1 <= zlen (@nil Z) <= 255 -> v <= 255)) as Henc.
    { intros v Hv. specialize (Hrange v Hv). lens. lia. }
    destruct e as [v|]; [|done]. pose proof (from_bytes_le c i x y v (Hrange v eq_refl)) as Hf.
    specialize (Hrange v eq_refl). destruct (Z.leb_spec v 255); cbn [app].
    - by rewrite wrap8_small by lia.
    - by rewrite wrap16_small by lia. }
  set (data := d :: data') in *.
  assert (1 <= zlen data) as Hpos by (unfold data; lens; pose proof (zlen_nonneg data'); lia).
  clearbody data. destruct (Z.leb_spec (zlen data) 255) as [Hs|Hs].
  - rewrite wrap8_small by lia. destruct e as [v|].
    + destruct (Z.ltb_spec 255 v); cbn [negb ensure mbind res_bind].
      { intros [_ Hf]. destruct (Hf v eq_refl). lia. }
      split.
      { split; [done|]. intros v' [= <-]. lia. }
      rewrite wrap8_small by (specialize (Hrange v eq_refl); lia).
      rewrite <-!app_assoc. cbn [app]. by apply from_bytes_short; [lia|].
    + split; [by split|]. cbn [app]. rewrite <-(app_nil_r data) at 2. by apply from_bytes_short; [lia|].
  - rewrite wrap16_small by lia.
    assert (encodable (mkCommand c i x y data e)) as Henc.
    { split; [done|]. intros v Hv. specialize (Hrange v Hv). cbn [cmd_data]. lia. }
    destruct e as [v|]; (split; [exact Henc|]); rewrite <-?app_assoc; cbn [app].
    + rewrite wrap16_small by (by apply Hrange). by apply from_bytes_extended; [lia|..].
    + rewrite <-(app_nil_r data) at 2. by apply from_bytes_extended; [lia|..].
Qed.

(** encoding a command APDU succeeds exactly when its data fits an extended
    APDU and its Le the chosen form, and parsing the encoding returns the same
    command, in short and in extended form. *)
Theorem apdu_command_roundtrip (cmd : ApduCommand) :
  command_ok cmd ->
  match command_to_bytes cmd with
  | Ok raw => encodable cmd /\ command_from_bytes raw = Ok cmd
  | Err _ => ~ encodable cmd
  | Panic => False
  end.
Proof. apply to_bytes_cases. Qed.

Definition sample_command : ApduCommand := mkCommand 0 0xA4 0x04 0x0C (replicate (Z.to_nat 300) 7) (Some 0).

Lemma apdu_command_roundtrip_witness :
  exists raw, command_to_bytes sample_command = Ok raw /\ command_from_bytes raw = Ok sample_command.
Proof.
  assert (command_ok sample_command) as Hok.
  { split; [|split].
    - repeat constructor; vm_compute; done.
    - apply Forall_replicate. vm_compute. done.
    - intros v [= <-]. lia. }
  pose proof (apdu_command_roundtrip sample_command Hok) as Hr.
  destruct (command_to_bytes sample_command) as [raw| |] eqn:Hraw.
  - exists raw. split; [reflexivity|apply Hr].
  - vm_compute in Hraw. discriminate Hraw.
  - contradiction.
Defined.

(** ** Parsing arbitrary bytes *)
Lemma vec_index_no_panic {E A} (l : list A) i : 0 <= i < zlen l -> no_panic (vec_index (E:=E) l i).
Proof. intros Hi. by destruct (vec_index_in_range (E:=E) l i Hi) as (x & -> & _). Qed.

Lemma vec_slice_no_panic {E A} (l : list A) a b :
  0 <= a <= b -> b <= zlen l -> no_panic (vec_slice (E:=E) l a b).
Proof. intros Ha Hb. unfold vec_slice, get_range. rewrite !(proj2 (Z.leb_le _ _)) by lia. done. Qed.

Lemma vec_index_byte {E} l i b : bytes_ok l -> vec_index (E:=E) l i = Ok b -> byte_ok b.
Proof.
  intros Hl Hb. apply vec_index_Ok in Hb as [_ Hb]. unfold bytes_ok in Hl.
  rewrite Forall_lookup in Hl. by eapply Hl.
Qed.

Lemma vec_slice_bytes {E} l a b s : bytes_ok l -> vec_slice (E:=E) l a b = Ok s -> bytes_ok s /\ zlen s = b - a.
Proof.
  intros Hl Hs. unfold vec_slice in Hs. apply expect_Ok in Hs.
  apply get_range_Some in Hs as (_ & Hlen & Heq). split; [|done].
  rewrite Heq in Hl. unfold bytes_ok in *. apply Forall_app in Hl as [_ Hl].
  by apply Forall_app in Hl as [Hl _].
Qed.

Lemma from_be16_bounds h l : byte_ok h -> byte_ok l -> 0 <= from_be16 h l <= 65535.
Proof. unfold byte_ok, from_be16. lia. Qed.

Lemma usize_checked_add_Some a b n : usize_checked_add a b = Some n -> n = a + b.
Proof. unfold usize_checked_add. case_match; congruence. Qed.

#[local] Hint Resolve vec_index_no_panic : marty.

(** parsing arbitrary bytes as a command APDU never panics, and an accepted
    command has byte-sized fields, at most 65535 bytes of data taken from the
    input and an Le of at most 65535. *)
Theorem apdu_command_parse_safe (raw : list Z) :
  bytes_ok raw ->
  no_panic (command_from_bytes raw) /\
  forall cmd, command_from_bytes raw = Ok cmd ->
    command_ok cmd /\ zlen (cmd_data cmd) <= 65535 /\ zlen (cmd_data cmd) + 4 <= zlen raw /\
    (forall v, cmd_le cmd = Some v -> v <= 65535).
Proof.
  intros Hraw. unfold command_from_bytes. split.
  - repeat match goal with
    | |- no_panic (ensure _ _ ≫= _) => apply bind_no_panic; [apply ensure_no_panic|intros ? ?]; res_inv; breflect
    | |- no_panic (ok_or _ _ ≫= _) => apply bind_no_panic; [apply ok_or_no_panic|intros ? ?]; res_inv
    | |- no_panic (if ?b then _ else _) => destruct b eqn:?; breflect
    | |- no_panic (vec_index _ _ ≫= _) => apply bind_no_panic; [apply vec_index_no_panic|intros ? ?]
    | |- no_panic (vec_slice _ _ _ ≫= _) => apply bind_no_panic; [apply vec_slice_no_panic|intros ? ?]
    | |- no_panic (Ok _) => done
    | |- _ => progress cbn zeta
    end.
    all: repeat match goal with
      | Hv : vec_index _ _ = Ok _ |- _ => apply vec_index_byte in Hv; [|done]
      | Hu : usize_checked_add _ _ = Some _ |- _ => apply usize_checked_add_Some in Hu; subst
      | Hn : (negb _ && negb _) = false |- _ => apply andb_false_iff in Hn as [Hn|Hn]; breflect
      | H1 : byte_ok ?a, H2 : byte_ok ?b |- context [from_be16 ?a ?b] =>
          pose proof (from_be16_bounds a b H1 H2); generalize dependent (from_be16 a b); intros
      end; unfold byte_ok in *; try lia.
  - intros cmd Hc.
    repeat first [progress res_inv | progress breflect | progress cbn zeta in * |
      match goal with Hif : (if ?b then _ else _) = Ok _ |- _ => destruct b eqn:? end].
    all: repeat match goal with
      | Hv : vec_index _ _ = Ok _ |- _ => apply vec_index_byte in Hv; [|done]
      | Hs : vec_slice _ _ _ = Ok _ |- _ => apply vec_slice_bytes in Hs as [? ?]; [|done]
      | Hu : usize_checked_add _ _ = Some _ |- _ => apply usize_checked_add_Some in Hu; subst
      | H1 : byte_ok ?a, H2 : byte_ok ?b, Hx : context [from_be16 ?a ?b] |- _ =>
          pose proof (from_be16_bounds a b H1 H2); generalize dependent (from_be16 a b); intros
      | H1 : byte_ok ?a, H2 : byte_ok ?b |- context [from_be16 ?a ?b] =>
          pose proof (from_be16_bounds a b H1 H2); generalize dependent (from_be16 a b); intros
      end.
    all: unfold command_ok; cbn [cla ins p1 p2 cmd_data cmd_le]; lens; repeat split;
      try (unfold bytes_ok; repeat (apply Forall_cons_2; [assumption|]); apply Forall_nil_2);
      try (intros v [= <-]); try done; unfold byte_ok in *; try lia.
Qed.

Lemma apdu_command_parse_safe_witness :
  no_panic (command_from_bytes [0; 0xA4; 4; 12; 0; 0]) /\
  forall cmd, command_from_bytes [0; 0xA4; 4; 12; 0; 0] = Ok cmd ->
    command_ok cmd /\ zlen (cmd_data cmd) <= 65535 /\
    zlen (cmd_data cmd) + 4 <= zlen [0; 0xA4; 4; 12; 0; 0] /\
    (forall v, cmd_le cmd = Some v -> v <= 65535).
Proof.
  apply (apdu_command_parse_safe [0; 0xA4; 4; 12; 0; 0]).
  unfold bytes_ok, byte_ok. repeat (apply Forall_cons_2; [lia|]). apply Forall_nil_2.
Defined.

(** ** READ BINARY plans *)

(** The commands read [a, b) from front to back, at most 255 bytes each. *)
Fixpoint covers (a b : Z) (cmds : list ApduCommand) : Prop :=
  match cmds with
  | [] => a = b
  | cmd :: cmds =>
      exists n, cmd = mkCommand 0 0xB0 (p1 cmd) (p2 cmd) [] (Some n) /\ 1 <= n <= 255 /\
        byte_ok (p1 cmd) /\ byte_ok (p2 cmd) /\ from_be16 (p1 cmd) (p2 cmd) = a /\
        covers (a + n) b cmds
  end.

Lemma offset_bytes n : 0 <= n < 65536 -> from_be16 (wrap 8 (Z.shiftr n 8)) (wrap 8 n) = n.
Proof.
  intros Hn. rewrite Z.shiftr_div_pow2 by lia. unfold wrap. change (2 ^ 8) with 256.
  by apply from_be16_be16.
Qed.

Lemma read_binary_loop_covers fuel length offset : forall bytes_read,
  0 <= offset -> 0 <= bytes_read <= length -> offset + length <= 65536 ->
  length - bytes_read <= Z.of_nat fuel ->
  exists cmds, read_binary_loop fuel length offset bytes_read = Ok cmds /\
    covers (offset + bytes_read) (offset + length) cmds.
Proof.
  induction fuel as [|fuel IH]; intros r Ho Hr Hend Hf; cbn [read_binary_loop].
  - rewrite (proj2 (Z.ltb_ge _ _)) by lia. exists []. split; [done|]. simpl. lia.
  - destruct (Z.ltb_spec r length) as [Hlt|Hge]; [|exists []; split; [done|simpl; lia]].
    set (n := Z.min (length - r) 255). assert (1 <= n <= 255) as Hn by lia.
    destruct (IH (r + n)) as (cmds & -> & Hc); [lia..|]. cbn [mbind res_bind].
    eexists. split; [done|]. cbn [covers p1 p2]. exists n.
    split; [done|]. split; [done|]. split; [apply wrap8_byte_ok|]. split; [apply wrap8_byte_ok|].
    split; [apply offset_bytes; lia|]. by rewrite Z.add_assoc in Hc.
Qed.

(** for any length and offset of machine size the plan is refused when the
    range leaves the 16-bit offset space, and otherwise terminates with READ
    BINARY commands whose offsets and lengths tile exactly the requested
    range. *)
Theorem read_binary_plan_covers (length offset : Z) :
  0 <= length <= usize_max -> 0 <= offset <= usize_max ->
  if offset + length <=? 65536
  then exists cmds, build_read_binary_commands length offset = Ok cmds /\
                    covers offset (offset + length) cmds
  else is_Ok (build_read_binary_commands length offset) = false /\
       no_panic (build_read_binary_commands length offset).
Proof.
  intros Hl Ho. unfold build_read_binary_commands, usize_checked_add.
  destruct (Z.leb_spec (offset + length) 65536) as [Hin|Hout].
  - rewrite (proj2 (Z.leb_le _ usize_max)) by (unfold usize_max; lia). cbn [ok_or mbind res_bind].
    rewrite (proj2 (Z.ltb_ge _ _)) by lia. cbn [negb ensure mbind res_bind].
    destruct (read_binary_loop_covers (Z.to_nat length) length offset 0) as (cmds & Hc & Hcov); [lia..|].
    exists cmds. by rewrite Z.add_0_r in Hcov.
  - destruct (offset + length <=? usize_max); cbn [ok_or mbind res_bind]; [|done].
    rewrite (proj2 (Z.ltb_lt _ _)) by lia. done.
Qed.

Lemma read_binary_plan_covers_witness :
  exists cmds, build_read_binary_commands 600 100 = Ok cmds /\ covers 100 (100 + 600) cmds.
Proof. apply (read_binary_plan_covers 600 100); unfold usize_max; lia. Defined.

(** An offset of 0x8000 or more sets the high bit of P1, which ISO/IEC 7816-4
    reserves for a short EF identifier. *)
Example read_binary_high_offset :
  build_read_binary_commands 1 0x8000 = Ok [mkCommand 0 0xB0 0x80 0 [] (Some 1)].
Proof. reflexivity. Qed.
