(* ===== verification/SecureMessaging.v ===== *)
(** * Basic access control and secure messaging (marty-verification,
    [chip_io/mod.rs], second part)

    BER-TLV objects, ISO 7816-4 padding, the retail MAC, the send sequence
    counter, BAC key derivation, the mutual-authentication handshake and the
    3DES secure-messaging session.  A function on [&mut self] returns the new
    session with its result and leaves the session as it was on an error,
    because the source assigns the counter last.  SHA-1 and triple DES are
    parameters; the random reader material that [begin] draws is an
    argument. *)

From S2P Require Import Prelude RustStr Des Apdu.
From stdpp Require Import pretty.
Local Open Scope Z_scope.

#[local] Abbreviation result := (res VerificationError).

(** [src/marty-verification/src/chip_io/mod.rs:88-89] MAX_BAC_COMMAND_DATA_BYTES *)
Definition MAX_BAC_COMMAND_DATA_BYTES : Z := 65511.

(** [src/marty-verification/src/chip_io/mod.rs:90-91] MAX_BAC_PROTECTED_RESPONSE_BYTES *)
Definition MAX_BAC_PROTECTED_RESPONSE_BYTES : Z := MAX_APDU_DATA_BYTES.

(** The [sha1] crate: a digest of 20 bytes. *)
Class Sha1 := sha1 : list Z -> list Z.
Class Sha1Laws `{Sha1} : Prop :=
  sha1_digest m : length (sha1 m) = 20%nat /\ bytes_ok (sha1 m).

(** [.map_err(|e| VerificationError::internal(format!("<context>{e}")))] on an
    error of [marty_crypto]. *)
Definition crypto_context {A} (context : string) (c : res CryptoError A) : result A :=
  map_err (fun e => internal (context +:+ crypto_error_text e)) c.

(** [out.copy_from_slice(&s)] into an array of [n] bytes. *)
Definition copy_exact (n : nat) (s : list Z) : result (list Z) :=
  if decide (length s = n) then Ok s else Panic.

(** [<[u8; n]>::try_from(s)]. *)
Definition try_array (n : nat) (s : list Z) (e : string) : result (list Z) :=
  ensure (bool_decide (length s = n)) (internal e);; Ok s.

(** ** Data objects *)

(** [src/marty-verification/src/chip_io/mod.rs:1535-1540] BerTlv *)
Record BerTlv := mkTlv {
  tag : Z;
  encoded : list Z;
  value : list Z;
}.

(** [src/marty-verification/src/chip_io/mod.rs:1542-1591] next_ber_tlv *)
Definition next_ber_tlv (data : list Z) (offset : Z) (context : string) : result (BerTlv * Z) :=
  let malformed := internal (context +:+ ": malformed BER-TLV") in
  let start := offset in
  let get i := data !! Z.to_nat i in
  t ← ok_or (get start) malformed;
  first_length ← ok_or (get (start + 1)) malformed;
  hv ← (if first_length <=? 0x7F then Ok (2, first_length)
        else if first_length =? 0x81 then
          v ← ok_or (get (start + 2)) malformed;
          ensure (negb (v <? 0x80)) (internal (context +:+ ": non-canonical BER-TLV length"));;
          Ok (3, v)
        else if first_length =? 0x82 then
          bytes ← ok_or (get_range data (start + 2) (start + 4)) malformed;
          h ← vec_index bytes 0;
          l ← vec_index bytes 1;
          let v := from_be16 h l in
          ensure (negb (v <=? 0xFF)) (internal (context +:+ ": non-canonical BER-TLV length"));;
          Ok (4, v)
        else Err (internal (context +:+ ": unsupported BER-TLV length")));
  value_start ← ok_or (usize_checked_add start hv.1) malformed;
  e ← ok_or (usize_checked_add value_start hv.2) malformed;
  enc ← ok_or (get_range data start e) malformed;
  v ← ok_or (get_range data value_start e) malformed;
  Ok (mkTlv t enc v, e).

(** [src/marty-verification/src/chip_io/mod.rs:1593-1614] push_ber_tlv *)
Definition push_ber_tlv (t : Z) (v : list Z) (output : list Z) : result (list Z) :=
  let output := output ++ [t] in
  let n := zlen v in
  if n <=? 0x7F then Ok (output ++ [wrap 8 n] ++ v)
  else if n <=? 0xFF then Ok (output ++ [0x81] ++ [wrap 8 n] ++ v)
  else if n <=? 0xFFFF then Ok (output ++ [0x82] ++ be16 (wrap 16 n) ++ v)
  else Err (internal "Secure-messaging TLV value is too large").

(** [src/marty-verification/src/chip_io/mod.rs:1771-1781] iso7816_pad *)
Definition iso7816_pad (data : list Z) : result (list Z) := push_zeros 8 (data ++ [0x80]).

(** The loop of [iso7816_unpad] from index [n - 1] down to 0. *)
Fixpoint unpad_from (data : list Z) (n : nat) : result (list Z) :=
  match n with
  | O => Err (internal "SM: invalid ISO 7816-4 padding")
  | S i =>
      b ← vec_index data (Z.of_nat i);
      if b =? 0x80 then vec_slice data 0 (Z.of_nat i)
      else if negb (b =? 0) then Err (internal "SM: invalid ISO 7816-4 padding")
      else unpad_from data i
  end.

(** [src/marty-verification/src/chip_io/mod.rs:1783-1797] iso7816_unpad *)
Definition iso7816_unpad (data : list Z) : result (list Z) := unpad_from data (length data).

(** ** Counters, comparison, check digits *)

(** The loop of [checked_next_ssc] over the reversed counter: bytes of 0xFF
    become 0 until a byte can be incremented. *)
Fixpoint next_ssc_rev (rev_ssc : list Z) : option (list Z) :=
  match rev_ssc with
  | [] => None
  | b :: rest => if negb (b =? 255) then Some (b + 1 :: rest) else cons 0 <$> next_ssc_rev rest
  end.

(** [src/marty-verification/src/chip_io/mod.rs:1849-1863] checked_next_ssc *)
Definition checked_next_ssc (ssc : list Z) : result (list Z) :=
  ok_or (reverse <$> next_ssc_rev (reverse ssc))
    (internal "BAC secure-messaging counter exhausted").

(** [src/marty-verification/src/chip_io/mod.rs:1876-1887] constant_time_eq *)
Definition constant_time_eq (a b : list Z) : bool :=
  if negb (zlen a =? zlen b) then false
  else foldl (fun diff xy => Z.lor diff (Z.lxor xy.1 xy.2)) 0 (zip a b) =? 0.

(** [src/marty-verification/src/chip_io/mod.rs:1889-1906] mrz_check_digit *)
Definition mrz_check_digit (data : list Z) : Z :=
  let v b := if is_ascii_digit b then b - 48
             else if is_ascii_uppercase b then b - 65 + 10
             else if b =? 60 then 0 else 0 in
  let products := imap (fun i b => wrap 32 (v b * ([7; 3; 1] !!! (i `mod` 3)%nat))) data in
  let sum := foldl (fun acc p => wrap 32 (acc + p)) 0 products in
  48 + wrap 8 (sum mod 10).

(** [src/marty-verification/src/chip_io/mod.rs:508-523] MrzKeyInfo *)
Record MrzKeyInfo := mkKeyInfo {
  doc_number_with_check : rstr;
  dob_with_check : rstr;
  expiry_with_check : rstr;
}.

(** [src/marty-verification/src/chip_io/mod.rs:544-580] MrzKeyInfo::try_from_mrz_fields *)
Definition try_from_mrz_fields (doc_number dob expiry : rstr) : result MrzKeyInfo :=
  ensure (negb (negb (str_len doc_number =? 9) ||
                negb (forallb (fun b => is_ascii_uppercase b || is_ascii_digit b || (b =? 60))
                        (as_bytes doc_number))))
    (internal "BAC document number must be exactly 9 uppercase MRZ characters");;
  ensure (negb (negb (str_len dob =? 6) || negb (str_len expiry =? 6) ||
                negb (forallb is_ascii_digit (as_bytes dob)) ||
                negb (forallb is_ascii_digit (as_bytes expiry))))
    (internal "BAC dates must be exactly 6 ASCII digits");;
  let doc_cd := mrz_check_digit (as_bytes doc_number) in
  let dob_cd := mrz_check_digit (as_bytes dob) in
  let exp_cd := mrz_check_digit (as_bytes expiry) in
  Ok (mkKeyInfo (doc_number ++ [doc_cd]) (dob ++ [dob_cd]) (expiry ++ [exp_cd])).

(** ** Keys *)

(** [src/marty-verification/src/chip_io/mod.rs:1742-1751] adjust_des_parity *)
Definition adjust_des_parity (key : list Z) : list Z :=
  (fun byte => if count_ones byte mod 2 =? 0 then Z.lxor byte 1 else byte) <$> key.

(** [src/marty-verification/src/chip_io/mod.rs:1753-1761] extend_to_24_bytes *)
Definition extend_to_24_bytes (key16 : list Z) : list Z :=
  take 8 key16 ++ drop 8 key16 ++ take 8 key16.

(** [src/marty-verification/src/chip_io/mod.rs:1763-1769] icao_3des_cbc_iv *)
Definition icao_3des_cbc_iv : list Z := replicate 8 0.

(** [src/marty-verification/src/chip_io/mod.rs:1839-1847] extend_single_des *)
Definition extend_single_des (k8 : list Z) : list Z := k8 ++ k8 ++ k8.

(** [src/marty-verification/src/chip_io/mod.rs:588-599] BacKeys *)
Record BacKeys := mkKeys {
  keys_enc : list Z;
  keys_mac : list Z;
}.

(** [src/marty-verification/src/chip_io/mod.rs:630-644] BacSession *)
Record BacSession := mkSession {
  k_enc : list Z;
  k_mac : list Z;
  ssc : list Z;
}.

(** [src/marty-verification/src/chip_io/mod.rs:646-653] BacHandshake *)
Record BacHandshake := mkHandshake {
  base_keys : BacKeys;
  rnd_ifd : list Z;
  k_ifd : list Z;
  rnd_ic : list Z;
}.

Section bac.
Context `{Tdes, Sha1}.

(** [src/marty-verification/src/chip_io/mod.rs:1799-1837] retail_mac_3des *)
Definition retail_mac_3des (key16 data : list Z) : result (list Z) :=
  padded ← iso7816_pad data;
  let n := zlen padded / 8 in
  let k1_only := extend_single_des (take 8 key16) in
  let k_full := extend_to_24_bytes key16 in
  let iv := icao_3des_cbc_iv in
  intermediate ←
    (if 1 <? n then
       prefix ← vec_slice padded 0 ((n - 1) * 8);
       cbc ← crypto_context "Retail-MAC single-DES: " (tdes_cbc_encrypt k1_only iv prefix);
       s ← vec_slice cbc (zlen cbc - 8) (zlen cbc);
       copy_exact 8 s
     else Ok iv);
  last_block ← vec_slice padded ((n - 1) * 8) (zlen padded);
  last_block ← copy_exact 8 last_block;
  let xored := xor_bytes intermediate last_block in
  final_mac ← crypto_context "Retail-MAC 3DES: " (tdes_cbc_encrypt k_full iv xored);
  r ← vec_slice final_mac 0 8;
  copy_exact 8 r.

(** [src/marty-verification/src/chip_io/mod.rs:1715-1728] bac_kdf_16 *)
Definition bac_kdf_16 (seed : list Z) (counter : Z) : result (list Z) :=
  let hash := sha1 (seed ++ [0; 0; 0; counter]) in
  key ← vec_slice hash 0 16;
  Ok (adjust_des_parity key).

(** [src/marty-verification/src/chip_io/mod.rs:1637-1671] derive_bac_base_keys_inner *)
Definition derive_bac_base_keys_inner (mrz : MrzKeyInfo) : result BacKeys :=
  let mrz_info := doc_number_with_check mrz ++ dob_with_check mrz ++ expiry_with_check mrz in
  ensure (str_len mrz_info =? 24)
    (internal ("BAC: MRZ key info must be 24 chars (doc10+dob7+exp7), got "
                 +:+ pretty (str_len mrz_info)));;
  kseed ← vec_slice (sha1 (as_bytes mrz_info)) 0 16;
  e ← bac_kdf_16 kseed 1;
  m ← bac_kdf_16 kseed 2;
  Ok (mkKeys e m).

(** [src/marty-verification/src/chip_io/mod.rs:1684-1713] derive_bac_session_keys_inner *)
Definition derive_bac_session_keys_inner (k_ifd k_ic rnd_ic rnd_ifd : list Z) : result BacSession :=
  k_ifd ← try_array 16 k_ifd "BAC: K.IFD must be exactly 16 bytes";
  k_ic ← try_array 16 k_ic "BAC: K.ICC must be exactly 16 bytes";
  rnd_ic ← try_array 8 rnd_ic "BAC: Rnd.IC must be exactly 8 bytes";
  rnd_ifd ← try_array 8 rnd_ifd "BAC: Rnd.IFD must be exactly 8 bytes";
  let seed := xor_bytes k_ifd k_ic in
  e ← bac_kdf_16 seed 1;
  m ← bac_kdf_16 seed 2;
  Ok (mkSession e m (drop 4 rnd_ic ++ drop 4 rnd_ifd)).

(** ** Handshake *)

(** [src/marty-verification/src/chip_io/mod.rs:664-723] BacHandshake::begin, with
    the drawn [rnd_ifd] and [k_ifd] *)
Definition handshake_begin (mrz : MrzKeyInfo) (rnd_ic rnd_ifd k_ifd : list Z) : result BacHandshake :=
  rnd_ic ← try_array 8 rnd_ic "BAC: chip challenge must be exactly 8 bytes";
  keys ← derive_bac_base_keys_inner mrz;
  Ok (mkHandshake keys rnd_ifd k_ifd rnd_ic).

(** [src/marty-verification/src/chip_io/mod.rs:725-739] BacHandshake::command_data *)
Definition command_data (hs : BacHandshake) : result (list Z) :=
  let plaintext := rnd_ifd hs ++ rnd_ic hs ++ k_ifd hs in
  let k24 := extend_to_24_bytes (keys_enc (base_keys hs)) in
  enc ← crypto_context "BAC encrypt failed: " (tdes_cbc_encrypt k24 icao_3des_cbc_iv plaintext);
  mac ← retail_mac_3des (keys_mac (base_keys hs)) enc;
  Ok (enc ++ mac).

(** [src/marty-verification/src/chip_io/mod.rs:741-774] BacHandshake::complete *)
Definition handshake_complete (hs : BacHandshake) (response : list Z) : result BacSession :=
  ensure (zlen response =? 40)
    (internal ("BAC: response must be exactly 40 bytes, got " +:+ pretty (zlen response)));;
  enc ← vec_slice response 0 32;
  received_mac ← vec_slice response 32 (zlen response);
  expected_mac ← retail_mac_3des (keys_mac (base_keys hs)) enc;
  ensure (constant_time_eq expected_mac received_mac)
    (internal "BAC: chip response MAC verification failed");;
  let k24 := extend_to_24_bytes (keys_enc (base_keys hs)) in
  plaintext ← crypto_context "BAC decrypt failed: " (tdes_cbc_decrypt k24 icao_3des_cbc_iv enc);
  reflected_ic ← vec_slice plaintext 0 8;
  ensure (bool_decide (reflected_ic = rnd_ic hs)) (internal "BAC: reflected Rnd.IC mismatch");;
  reflected_ifd ← vec_slice plaintext 8 16;
  ensure (bool_decide (reflected_ifd = rnd_ifd hs)) (internal "BAC: reflected Rnd.IFD mismatch");;
  k_ic ← vec_slice plaintext 16 32;
  derive_bac_session_keys_inner (k_ifd hs) k_ic (rnd_ic hs) (rnd_ifd hs).

(** ** Secure messaging *)

(** [src/marty-verification/src/chip_io/mod.rs:885-966] BacSession::protect_command *)
Definition protect_command (s : BacSession) (cmd : ApduCommand) : result (BacSession * ApduCommand) :=
  ensure (negb (MAX_BAC_COMMAND_DATA_BYTES <? zlen (cmd_data cmd)))
    (internal ("BAC SM command data exceeds " +:+ pretty MAX_BAC_COMMAND_DATA_BYTES +:+ " bytes"));;
  ensure (negb (from_option (fun l => 256 <? l) false (cmd_le cmd)))
    (internal "BAC SM supports only short-form Le values up to 256");;
  next_ssc ← checked_next_ssc (ssc s);
  do87 ←
    (if negb (bool_decide (cmd_data cmd = [])) then
       padded ← iso7816_pad (cmd_data cmd);
       let k24 := extend_to_24_bytes (k_enc s) in
       enc ← crypto_context "SM encrypt: " (tdes_cbc_encrypt k24 icao_3des_cbc_iv padded);
       push_ber_tlv 0x87 (0x01 :: enc) []
     else Ok []);
  let do97 := match cmd_le cmd with
              | Some l => [0x97; 0x01; if l =? 256 then 0 else wrap 8 l]
              | None => []
              end in
  let masked_header :=
    [Z.lor (cla cmd) 0x0C; ins cmd; p1 cmd; p2 cmd; 0x80; 0x00; 0x00; 0x00] in
  let mac_input := next_ssc ++ masked_header ++ do87 ++ do97 in
  mac ← retail_mac_3des (k_mac s) mac_input;
  let sm_data := do87 ++ do97 ++ [0x8E] ++ [0x08] ++ mac in
  ensure (negb (MAX_APDU_DATA_BYTES <? zlen sm_data))
    (internal "BAC SM protected command exceeds extended APDU capacity");;
  Ok (mkSession (k_enc s) (k_mac s) next_ssc,
      mkCommand (Z.lor (cla cmd) 0x0C) (ins cmd) (p1 cmd) (p2 cmd) sm_data (Some 0)).

(** The data objects collected from a protected response. *)
Record SmObjects := mkObjects {
  received_mac : option (list Z);
  do87_bytes : option (list Z);
  encrypted_data : option (list Z);
  do99_bytes : option (list Z);
  status : option (Z * Z);
}.

Definition no_objects : SmObjects := mkObjects None None None None None.

Definition is_Some_b {A} (o : option A) : bool := match o with Some _ => true | None => false end.

(** One data object of the response: the match of [unprotect_response]. *)
Definition collect (o : SmObjects) (tlv : BerTlv) : result SmObjects :=
  let malformed := internal "BAC SM: malformed protected response" in
  let n := zlen (value tlv) in
  if tag tlv =? 0x87 then
    ensure (negb (is_Some_b (do87_bytes o) || negb (bool_decide (head (value tlv) = Some 0x01)) ||
                  (n <=? 1) || negb (is_multiple_of8 (n - 1)))) malformed;;
    c ← vec_slice (value tlv) 1 n;
    Ok (mkObjects (received_mac o) (Some (encoded tlv)) (Some c) (do99_bytes o) (status o))
  else if (tag tlv =? 0x99) && (n =? 2) && negb (is_Some_b (do99_bytes o)) then
    a ← vec_index (value tlv) 0;
    b ← vec_index (value tlv) 1;
    Ok (mkObjects (received_mac o) (do87_bytes o) (encrypted_data o) (Some (encoded tlv)) (Some (a, b)))
  else if (tag tlv =? 0x8E) && (n =? 8) && negb (is_Some_b (received_mac o)) then
    Ok (mkObjects (Some (value tlv)) (do87_bytes o) (encrypted_data o) (do99_bytes o) (status o))
  else Err malformed.

(** The loop over the data objects; every object is at least two bytes long. *)
Fixpoint collect_objects (fuel : nat) (data : list Z) (offset : Z) (o : SmObjects) : result SmObjects :=
  if offset <? zlen data then
    match fuel with
    | O => Panic
    | S fuel =>
        t ← next_ber_tlv data offset "BAC SM";
        o' ← collect o t.1;
        collect_objects fuel data t.2 o'
    end
  else Ok o.

(** [src/marty-verification/src/chip_io/mod.rs:968-1061] BacSession::unprotect_response *)
Definition unprotect_response (s : BacSession) (resp : ApduResponse) :
    result (BacSession * ApduResponse) :=
  ensure (negb (MAX_BAC_PROTECTED_RESPONSE_BYTES <? zlen (resp_data resp)))
    (internal ("BAC SM protected response exceeds "
                 +:+ pretty MAX_BAC_PROTECTED_RESPONSE_BYTES +:+ " bytes"));;
  next_ssc ← checked_next_ssc (ssc s);
  let data := resp_data resp in
  o ← collect_objects (length data) data 0 no_objects;
  do99 ← ok_or (do99_bytes o) (internal "BAC SM: protected response missing DO99 or DO8E");
  rmac ← ok_or (received_mac o) (internal "BAC SM: protected response missing DO99 or DO8E");
  let mac_input := next_ssc ++ default [] (do87_bytes o) ++ do99 in
  expected ← retail_mac_3des (k_mac s) mac_input;
  ensure (constant_time_eq expected rmac) (internal "BAC SM: response MAC verification failed");;
  plain_data ←
    match encrypted_data o with
    | Some ciphertext =>
        let k24 := extend_to_24_bytes (k_enc s) in
        decrypted ← crypto_context "SM decrypt: " (tdes_cbc_decrypt k24 icao_3des_cbc_iv ciphertext);
        iso7816_unpad decrypted
    | None => Ok []
    end;
  sw ← ok_or (status o) (internal "BAC SM: protected response missing DO99");
  Ok (mkSession (k_enc s) (k_mac s) next_ssc, mkResponse plain_data sw.1 sw.2).

(** [src/marty-verification/src/chip_io/mod.rs:800-883] BacSession::establish, with
    the reader material that [BacHandshake::begin] draws *)
Definition establish {C} `{PassportChip C} (chip : C) (mrz : MrzKeyInfo) (rnd_ifd k_ifd : list Z) :
    C * result BacSession :=
  let select := mkCommand 0x00 0xA4 0x04 0x0C [0xA0; 0x00; 0x00; 0x02; 0x47; 0x10; 0x01] None in
  let '(chip, r) := transceive chip select in
  match r with
  | Err e => (chip, Err e)
  | Panic => (chip, Panic)
  | Ok resp =>
      if negb (is_success resp)
      then (chip, Err (internal ("BAC: SELECT AID failed with SW " +:+ hex4 (status_word resp))))
      else
        let get_challenge := mkCommand 0x00 0x84 0x00 0x00 [] (Some 8) in
        let '(chip, r) := transceive chip get_challenge in
        match r with
        | Err e => (chip, Err e)
        | Panic => (chip, Panic)
        | Ok resp =>
            if negb (is_success resp) || negb (zlen (resp_data resp) =? 8)
            then (chip, Err (internal ("BAC: GET CHALLENGE failed (SW " +:+ hex4 (status_word resp)
                              +:+ ", " +:+ pretty (zlen (resp_data resp)) +:+ " bytes)")))
            else
              match (hs ← handshake_begin mrz (resp_data resp) rnd_ifd k_ifd;
                     auth_data ← command_data hs;
                     Ok (hs, auth_data)) with
              | Err e => (chip, Err e)
              | Panic => (chip, Panic)
              | Ok (hs, auth_data) =>
                  let ext_auth := mkCommand 0x00 0x82 0x00 0x00 auth_data (Some 40) in
                  let '(chip, r) := transceive chip ext_auth in
                  match r with
                  | Err e => (chip, Err e)
                  | Panic => (chip, Panic)
                  | Ok resp =>
                      if negb (is_success resp)
                      then (chip, Err (internal ("BAC: EXTERNAL AUTHENTICATE failed with SW "
                                        +:+ hex4 (status_word resp))))
                      else if negb (zlen (resp_data resp) =? 40)
                      then (chip, Err (internal
                              ("BAC: unexpected EXTERNAL AUTHENTICATE response length "
                                 +:+ pretty (zlen (resp_data resp)))))
                      else (chip, handshake_complete hs (resp_data resp))
                  end
              end
        end
  end.
End bac.
