(* ===== verification/TlvFacts.v ===== *)
(** * Data objects, padding and counters: properties

    BER-TLV encoding and decoding are inverse, the padding is removed exactly,
    the counter is the next number, and the two retail MACs of the code base
    agree. *)

From S2P Require Import Prelude RustStr Des DesFacts Apdu SecureMessaging Mrz.
Local Open Scope Z_scope.

(** ** BER-TLV *)
Definition len_bytes (n : Z) : list Z :=
  if n <=? 127 then [n] else if n <=? 255 then [0x81; n] else 0x82 :: be16 n.

Definition tlv (t : Z) (v : list Z) : list Z := t :: len_bytes (zlen v) ++ v.

Lemma wrap_small w x : 0 <= x < 2 ^ w -> wrap w x = x.
Proof. intros. unfold wrap. by apply Z.mod_small. Qed.

Lemma push_ber_tlv_spec t v out :
  push_ber_tlv t v out =
  if zlen v <=? 65535 then Ok (out ++ tlv t v)
  else Err (internal "Secure-messaging TLV value is too large").
Proof.
  unfold push_ber_tlv, tlv, len_bytes. pose proof (zlen_nonneg v).
  destruct (Z.leb_spec (zlen v) 0x7F); [|destruct (Z.leb_spec (zlen v) 0xFF); [|destruct (Z.leb_spec (zlen v) 0xFFFF)]].
  - rewrite wrap_small by lia. decide_tests. by rewrite <-app_assoc.
  - rewrite wrap_small by lia. decide_tests. by rewrite <-app_assoc.
  - rewrite wrap_small by lia. decide_tests. by rewrite <-app_assoc.
  - by decide_tests.
Qed.

Lemma len_bytes_length n : 0 <= n -> 1 <= zlen (len_bytes n) <= 3.
Proof. intros Hn. unfold len_bytes, be16. repeat case_match; lens; lia. Qed.

Lemma tlv_length t v : zlen v + 2 <= zlen (tlv t v) <= zlen v + 4.
Proof. unfold tlv. lens. pose proof (len_bytes_length (zlen v) (zlen_nonneg v)). lia. Qed.

Lemma tlv_bytes t v : byte_ok t -> bytes_ok v -> zlen v <= 65535 -> bytes_ok (tlv t v).
Proof.
  intros Ht Hv Hl. pose proof (zlen_nonneg v). unfold bytes_ok, tlv.
  apply Forall_cons_2; [done|]. apply Forall_app. split; [|done].
  unfold len_bytes. destruct (Z.leb_spec (zlen v) 127); [|destruct (Z.leb_spec (zlen v) 255)].
  - repeat constructor; lia.
  - repeat constructor; lia.
  - apply Forall_cons_2; [unfold byte_ok; lia|apply be16_bytes].
Qed.

Lemma lookup_at {A} (l l1 : list A) x l2 i :
  l = l1 ++ x :: l2 -> i = zlen l1 -> l !! Z.to_nat i = Some x.
Proof. intros -> ->. unfold zlen. rewrite Nat2Z.id. by apply list_lookup_middle. Qed.

Lemma get_range_at {A} (l l1 l2 l3 : list A) a b :
  l = l1 ++ l2 ++ l3 -> a = zlen l1 -> b = zlen l1 + zlen l2 -> get_range l a b = Some l2.
Proof. intros ->. apply get_range_app. Qed.

(** Side conditions: a split of the data, or a position in it. *)
Ltac tlv_side := unfold be16; lens; rewrite <-?app_assoc; done || lia.

Lemma next_ber_tlv_at pre t v post ctx :
  zlen v <= 65535 -> zlen pre + zlen (tlv t v) <= usize_max ->
  next_ber_tlv (pre ++ tlv t v ++ post) (zlen pre) ctx
  = Ok (mkTlv t (tlv t v) v, zlen pre + zlen (tlv t v)).
Proof.
  intros Hv Hmax. pose proof (zlen_nonneg v) as Hv0. pose proof (zlen_nonneg pre) as Hp0.
  unfold next_ber_tlv, usize_checked_add, usize_max in *.
  remember (pre ++ tlv t v ++ post) as data eqn:Hd. unfold tlv, len_bytes in *.
  remember (zlen v) as n eqn:Hn. revert Hd Hmax.
  destruct (Z.leb_spec n 127) as [H1|H1]; [|destruct (Z.leb_spec n 255) as [H2|H2]]; intros Hd Hmax.
  - rewrite (lookup_at data pre t (n :: v ++ post) (zlen pre)) by (subst data; done).
    cbn [ok_or mbind res_bind].
    rewrite (lookup_at data (pre ++ [t]) n (v ++ post) (zlen pre + 1)) by (subst data; tlv_side).
    cbn [ok_or mbind res_bind]. lens. repeat (progress (cbn [fst snd]; decide_tests)).
    rewrite (get_range_at data pre (t :: n :: v) post (zlen pre) (zlen pre + 2 + n)) by (subst data; tlv_side).
    rewrite (get_range_at data (pre ++ [t; n]) v post (zlen pre + 2) (zlen pre + 2 + n)) by (subst data; tlv_side).
    cbn [ok_or mbind res_bind]. do 2 f_equal. lia.
  - rewrite (lookup_at data pre t (0x81 :: n :: v ++ post) (zlen pre)) by (subst data; done).
    cbn [ok_or mbind res_bind].
    rewrite (lookup_at data (pre ++ [t]) 0x81 (n :: v ++ post) (zlen pre + 1)) by (subst data; tlv_side).
    cbn [ok_or mbind res_bind Z.leb Z.compare Z.eqb Pos.eqb Pos.compare Pos.compare_cont].
    rewrite (lookup_at data (pre ++ [t; 0x81]) n (v ++ post) (zlen pre + 2)) by (subst data; tlv_side).
    cbn [ok_or mbind res_bind]. lens. repeat (progress (cbn [fst snd]; decide_tests)).
    rewrite (get_range_at data pre (t :: 0x81 :: n :: v) post (zlen pre) (zlen pre + 3 + n)) by (subst data; tlv_side).
    rewrite (get_range_at data (pre ++ [t; 0x81; n]) v post (zlen pre + 3) (zlen pre + 3 + n)) by (subst data; tlv_side).
    cbn [ok_or mbind res_bind]. do 2 f_equal. lia.
  - unfold be16 in *. rewrite (lookup_at data pre t (0x82 :: be16 n ++ v ++ post) (zlen pre)) by (subst data; done).
    cbn [ok_or mbind res_bind].
    rewrite (lookup_at data (pre ++ [t]) 0x82 (be16 n ++ v ++ post) (zlen pre + 1)) by (subst data; tlv_side).
    cbn [ok_or mbind res_bind Z.leb Z.compare Z.eqb Pos.eqb Pos.compare Pos.compare_cont].
    rewrite (get_range_at data (pre ++ [t; 0x82]) (be16 n) (v ++ post) (zlen pre + 2) (zlen pre + 4))
      by (subst data; tlv_side).
    cbn [ok_or mbind res_bind]. rewrite (vec_index_at _ [] ((n / 256) mod 256) [n mod 256] 0) by done.
    rewrite (vec_index_at _ [(n / 256) mod 256] (n mod 256) [] 1) by done.
    cbn [mbind res_bind]. rewrite from_be16_be16 by lia. lens. repeat (progress (cbn [fst snd]; decide_tests)).
    rewrite (get_range_at data pre (t :: 0x82 :: be16 n ++ v) post (zlen pre) (zlen pre + 4 + n)) by (subst data; tlv_side).
    rewrite (get_range_at data (pre ++ t :: 0x82 :: be16 n) v post (zlen pre + 4) (zlen pre + 4 + n)) by (subst data; tlv_side).
    cbn [ok_or mbind res_bind]. unfold be16. do 2 f_equal. lens. lia.
Qed.


(** Ranges relative to a suffix. *)
Lemma get_range_shift {A} (l pre rest : list A) off a b :
  l = pre ++ rest -> off = zlen pre -> 0 <= a ->
  get_range l (off + a) (off + b) = get_range rest a b.
Proof.
  intros -> -> Ha. unfold get_range. lens. pose proof (zlen_nonneg pre).
  destruct (Z.leb_spec 0 a); [|lia]. rewrite (proj2 (Z.leb_le 0 (zlen pre + a))) by lia. cbn [andb].
  assert ((zlen pre + a <=? zlen pre + b) = (a <=? b)) as -> by (destruct (Z.leb_spec a b); lia).
  assert ((zlen pre + b <=? zlen pre + zlen rest) = (b <=? zlen rest)) as -> by (destruct (Z.leb_spec b (zlen rest)); lia).
  case_match; [|done]. f_equal. f_equal; [lia|].
  unfold zlen. replace (Z.to_nat (Z.of_nat (length pre) + a)) with (length pre + Z.to_nat a)%nat by lia.
  by rewrite drop_app_add.
Qed.

Lemma get_range_prefix {A} (hd rest : list A) n s :
  get_range (hd ++ rest) (zlen hd) (zlen hd + n) = Some s ->
  get_range (hd ++ rest) 0 (zlen hd + n) = Some (hd ++ s) /\ zlen s = n.
Proof.
  intros Hs. pose proof (zlen_nonneg hd).
  rewrite <-(Z.add_0_r (zlen hd)) in Hs at 1. rewrite (get_range_shift _ hd rest) in Hs by done || lia.
  apply get_range_Some in Hs as (Hb & Hl & Heq). split; [|lia].
  apply (get_range_at _ [] (hd ++ s) (drop (Z.to_nat n) rest)); [|done|lens; lia].
  cbn [app]. rewrite <-app_assoc. f_equal. rewrite Heq at 1. done.
Qed.

Lemma lookup_past {A} (l : list A) i : zlen l <= i -> l !! Z.to_nat i = None.
Proof. intros Hi. apply lookup_ge_None. unfold zlen in Hi. lia. Qed.

(** The last steps of [next_ber_tlv], once the header [hd] is read. *)
Lemma tlv_tail_inv (data pre hd rest enc v : list Z) hl n vs e :
  data = pre ++ hd ++ rest -> hl = zlen hd ->
  usize_checked_add (zlen pre) hl = Some vs -> usize_checked_add vs n = Some e ->
  get_range data (zlen pre) e = Some enc -> get_range data vs e = Some v ->
  enc = hd ++ v /\ zlen v = n /\ e = zlen pre + zlen enc /\ exists post, hd ++ rest = enc ++ post.
Proof.
  intros Hd -> Hvs He Henc Hv. unfold usize_checked_add in *.
  destruct (zlen pre + zlen hd <=? usize_max); [|discriminate Hvs]. injection Hvs as <-.
  destruct (zlen pre + zlen hd + n <=? usize_max); [|discriminate He]. injection He as <-.
  pose proof (zlen_nonneg hd). rewrite <-Z.add_assoc in Hv, Henc.
  rewrite (get_range_shift data pre (hd ++ rest)) in Hv by done.
  rewrite <-(Z.add_0_r (zlen pre)) in Henc at 1.
  rewrite (get_range_shift data pre (hd ++ rest)) in Henc by done || lia.
  apply get_range_prefix in Hv as [Hv Hn]. rewrite Hv in Henc. injection Henc as <-.
  split; [done|]. split; [done|]. split; [lens; lia|].
  apply get_range_Some in Hv as (_ & _ & Heq). cbn [Z.to_nat take app] in Heq.
  eexists. exact Heq.
Qed.

Ltac tail_inv hd rest hl :=
  match goal with
  | H1 : usize_checked_add (zlen ?pre) hl = Some ?vs, H2 : usize_checked_add ?vs ?n = Some ?e,
    H3 : get_range ?data (zlen ?pre) ?e = Some ?enc, H4 : get_range ?data ?vs ?e = Some ?v |- _ =>
      destruct (tlv_tail_inv data pre hd rest enc v hl n vs e eq_refl eq_refl H1 H2 H3 H4)
        as (-> & Hl & He & post & Hpost)
  end.

Lemma next_ber_tlv_inv pre rest ctx r e :
  bytes_ok rest ->
  next_ber_tlv (pre ++ rest) (zlen pre) ctx = Ok (r, e) ->
  encoded r = tlv (tag r) (value r) /\ zlen (value r) <= 65535 /\
  exists post, rest = encoded r ++ post /\ e = zlen pre + zlen (encoded r).
Proof.
  intros Hb Hn. unfold next_ber_tlv in Hn.
  destruct rest as [|t [|f rest]].
  { rewrite (lookup_past _ (zlen pre)) in Hn by (lens; lia). done. }
  { rewrite (lookup_at _ pre t [] (zlen pre)) in Hn by done. cbn [ok_or mbind res_bind] in Hn.
    rewrite (lookup_past _ (zlen pre + 1)) in Hn by (lens; lia). done. }
  rewrite (lookup_at _ pre t (f :: rest) (zlen pre)) in Hn by done. cbn [ok_or mbind res_bind] in Hn.
  rewrite (lookup_at _ (pre ++ [t]) f rest (zlen pre + 1)) in Hn by tlv_side. cbn [ok_or mbind res_bind] in Hn.
  unfold bytes_ok in Hb. apply Forall_cons in Hb as [Ht Hb]. apply Forall_cons in Hb as [Hf Hb].
  unfold tlv, len_bytes. unfold byte_ok in Hf.
  destruct (Z.leb_spec f 0x7F) as [Hs|Hs]; [|destruct (Z.eqb_spec f 0x81) as [->|H81]; [|destruct (Z.eqb_spec f 0x82) as [->|H82]; [|discriminate Hn]]].
  - cbn [mbind res_bind fst snd] in Hn. res_inv. simplify_eq. cbn [encoded value tag].
    tail_inv [t; f] rest 2.
    rewrite Hl. decide_tests. split; [done|]. split; [lia|]. by exists post.
  - res_inv. cbn [fst snd] in *. simplify_eq. cbn [encoded value tag].
    rename select (_ !! Z.to_nat (zlen pre + 2) = Some _) into Hl2. breflect.
    destruct rest as [|l rest]; [rewrite lookup_past in Hl2 by (lens; lia); discriminate Hl2|].
    rewrite (lookup_at _ (pre ++ [t; 0x81]) l rest (zlen pre + 2)) in Hl2 by tlv_side. injection Hl2 as <-.
    tail_inv [t; 0x81; l] rest 3.
    apply Forall_cons in Hb as [Hx _]. unfold byte_ok in Hx.
    rewrite Hl. decide_tests. split; [done|]. split; [lia|]. by exists post.
  - res_inv. cbn [fst snd] in *. simplify_eq. cbn [encoded value tag].
    rename select (get_range _ (zlen pre + 2) (zlen pre + 4) = Some _) into Hl2. breflect.
    rewrite (get_range_shift _ pre (t :: 0x82 :: rest)) in Hl2 by done || lia.
    destruct rest as [|h [|l rest]]; [discriminate Hl2..|].
    rewrite (get_range_at _ [t; 0x82] [h; l] rest) in Hl2 by (done || lens; lia). injection Hl2 as <-.
    do 2 match goal with Hv : vec_index [h; l] _ = Ok _ |- _ => injection Hv as <- end.
    tail_inv [t; 0x82; h; l] rest 4.
    apply Forall_cons in Hb as [Hh Hb]. apply Forall_cons in Hb as [Hlo _]. unfold byte_ok in Hh, Hlo.
    unfold from_be16 in *. rewrite Hl. decide_tests. split.
    + assert (be16 (h * 256 + l) = [h; l]) as ->; [|done].
      unfold be16. repeat f_equal; Z.to_euclidean_division_equations; lia.
    + split; [lia|]. by exists post.
Qed.


(** the BER-TLV reader and writer are inverse: whatever precedes and follows
    it, a written object is read back whole, and an object that is read was in
    the canonical encoding the writer produces. *)
Theorem ber_tlv_inverse (pre post : list Z) (t : Z) (v : list Z) (ctx : string) :
  zlen v <= 65535 -> zlen pre + zlen v + 4 <= usize_max ->
  (exists e, push_ber_tlv t v [] = Ok e /\
     next_ber_tlv (pre ++ e ++ post) (zlen pre) ctx = Ok (mkTlv t e v, zlen pre + zlen e)) /\
  (forall rest r off, bytes_ok rest ->
     next_ber_tlv (pre ++ rest) (zlen pre) ctx = Ok (r, off) ->
     push_ber_tlv (tag r) (value r) [] = Ok (encoded r) /\
     exists tail, rest = encoded r ++ tail /\ off = zlen pre + zlen (encoded r)).
Proof.
  intros Hv Hmax. split.
  - exists (tlv t v). rewrite push_ber_tlv_spec. decide_tests. split; [done|].
    apply next_ber_tlv_at; [done|]. pose proof (tlv_length t v). lia.
  - intros rest r off Hb Hn. apply next_ber_tlv_inv in Hn as (Henc & Hl & tail & Heq & Hoff); [|done].
    rewrite push_ber_tlv_spec. decide_tests. rewrite Henc at 1. cbn [app]. split; [done|]. by exists tail.
Qed.

Lemma ber_tlv_inverse_witness :
  (exists e, push_ber_tlv 0x87 (replicate 200 1) [] = Ok e /\
     next_ber_tlv ([5; 6] ++ e ++ [7]) (zlen [5; 6]) "SM" = Ok (mkTlv 0x87 e (replicate 200 1), zlen [5; 6] + zlen e)) /\
  (forall rest r off, bytes_ok rest ->
     next_ber_tlv ([5; 6] ++ rest) (zlen [5; 6]) "SM" = Ok (r, off) ->
     push_ber_tlv (tag r) (value r) [] = Ok (encoded r) /\
     exists tail, rest = encoded r ++ tail /\ off = zlen [5; 6] + zlen (encoded r)).
Proof. apply (ber_tlv_inverse [5; 6] [7] 0x87 (replicate 200 1) "SM"); vm_compute; discriminate. Defined.

(** Reading an object never panics. *)
Lemma next_ber_tlv_no_panic data off ctx : no_panic (next_ber_tlv data off ctx).
Proof.
  unfold next_ber_tlv. apply bind_no_panic; [auto with marty|intros t _].
  apply bind_no_panic; [auto with marty|intros f _].
  apply bind_no_panic; [|intros; solve_no_panic].
  destruct (f <=? 127); [done|]. destruct (f =? 0x81); [solve_no_panic|].
  destruct (f =? 0x82); [|done].
  apply bind_no_panic; [auto with marty|intros bs Hbs]. res_inv.
  apply get_range_Some in Hbs as (_ & Hl & _).
  assert (exists h l, bs = [h; l]) as (h & l & ->).
  { unfold zlen in Hl. destruct bs as [|h [|l [|]]]; simpl in Hl; try lia. by exists h, l. }
  change (vec_index [h; l] 0) with (Ok (E:=VerificationError) h).
  change (vec_index [h; l] 1) with (Ok (E:=VerificationError) l).
  cbn [mbind res_bind]. solve_no_panic.
Qed.

(** ** Padding *)
Lemma iso7816_pad_spec data : iso7816_pad data = Ok (padded data).
Proof. apply push_zeros_padded. Qed.

Lemma unpad_zeros x k :
  forall j, (j <= k)%nat ->
  unpad_from (x ++ 128 :: replicate k 0) (length x + 1 + j) = Ok x.
Proof.
  induction j as [|j IH]; intros Hj.
  - replace (length x + 1 + 0)%nat with (S (length x)) by lia. cbn [unpad_from].
    rewrite (vec_index_at _ x 128 (replicate k 0)) by done. cbn [mbind res_bind].
    change (128 =? 0x80) with true. cbn match.
    by rewrite (vec_slice_at _ [] x (128 :: replicate k 0)).
  - replace (length x + 1 + S j)%nat with (S (length x + 1 + j)) by lia. cbn [unpad_from].
    rewrite (vec_index_at _ (x ++ 128 :: replicate j 0) 0 (replicate (k - j - 1) 0)).
    + cbn [mbind res_bind]. change (0 =? 0x80) with false. cbn [Z.eqb negb]. apply IH. lia.
    + rewrite <-app_assoc. cbn [app]. do 2 f_equal.
      change (0 :: replicate (k - j - 1) 0) with (replicate (S (k - j - 1)) 0).
      rewrite <-replicate_add. f_equal. lia.
    + lens. unfold zlen. lia.
Qed.

Lemma unpad_from_inv data : forall n x,
  (n <= length data)%nat -> unpad_from data n = Ok x ->
  exists k, take n data = x ++ 128 :: replicate k 0.
Proof.
  induction n as [|i IH]; intros x Hn Hu; [discriminate Hu|]. cbn [unpad_from] in Hu.
  apply bind_Ok in Hu as (b & Hb & Hu). apply vec_index_Ok in Hb as [_ Hb]. rewrite Nat2Z.id in Hb.
  erewrite take_S_r by exact Hb. destruct (Z.eqb_spec b 0x80) as [->|Hne].
  - unfold vec_slice in Hu. apply expect_Ok in Hu.
    apply get_range_Some in Hu as (_ & Hlx & Heq).
    change (take (Z.to_nat 0) data) with (@nil Z) in Heq. cbn [app] in Heq. exists 0%nat. assert (take i data = x) as ->; [|done].
    rewrite Heq. apply take_app_length'. unfold zlen in Hlx. lia.
  - destruct (Z.eqb_spec b 0) as [->|Hz]; [|discriminate Hu]. cbn [negb] in Hu.
    destruct (IH x ltac:(lia) Hu) as [k ->]. exists (S k). rewrite <-app_assoc. cbn [app].
    do 2 f_equal. by rewrite replicate_S_end.
Qed.

Lemma iso7816_unpad_spec data x :
  iso7816_unpad data = Ok x <-> exists k, data = x ++ 128 :: replicate k 0.
Proof.
  unfold iso7816_unpad. split.
  - intros Hu. apply unpad_from_inv in Hu; [|done]. by rewrite firstn_all in Hu.
  - intros [k ->]. rewrite length_app. simpl length. rewrite length_replicate.
    replace (length x + S k)%nat with (length x + 1 + k)%nat by lia. by apply unpad_zeros.
Qed.

(** padding always yields whole blocks and removing it returns exactly the
    data; a message is accepted by the padding remover only if it is some data
    followed by the marker and zeros. *)
Theorem iso7816_padding_inverse (data : list Z) :
  (exists p, iso7816_pad data = Ok p /\ zlen p mod 8 = 0 /\ zlen data < zlen p <= zlen data + 8 /\
             iso7816_unpad p = Ok data) /\
  (forall x, iso7816_unpad data = Ok x <-> exists k, data = x ++ 128 :: replicate k 0).
Proof.
  split; [|intros x; apply iso7816_unpad_spec].
  exists (padded data). rewrite iso7816_pad_spec. split; [done|].
  destruct (padded_length data) as [Hm Hl]. split; [done|]. split; [done|].
  apply iso7816_unpad_spec. eexists. done.
Qed.

(** ** The counter *)
Definition be_value (bs : list Z) : Z := foldl (fun acc b => 256 * acc + b) 0 bs.

Lemma be_value_snoc bs b : be_value (bs ++ [b]) = 256 * be_value bs + b.
Proof. unfold be_value. by rewrite foldl_app. Qed.

Lemma next_ssc_rev_spec l :
  bytes_ok l ->
  match next_ssc_rev l with
  | Some l' => length l' = length l /\ bytes_ok l' /\ be_value (reverse l') = be_value (reverse l) + 1
  | None => l = replicate (length l) 255
  end.
Proof.
  induction 1 as [|b l Hb Hl IH]; [done|]. cbn [next_ssc_rev].
  destruct (Z.eqb_spec b 255) as [->|Hne]; cbn [negb].
  - destruct (next_ssc_rev l) as [l'|]; cbn [fmap option_fmap option_map].
    + destruct IH as (Hlen & Hok & Hv). split; [simpl; lia|]. split.
      { apply Forall_cons_2; [unfold byte_ok; lia|done]. }
      rewrite !reverse_cons, !be_value_snoc. lia.
    + simpl. by rewrite <-IH.
  - unfold byte_ok in Hb. split; [done|]. split.
    { apply Forall_cons_2; [unfold byte_ok; lia|done]. }
    rewrite !reverse_cons, !be_value_snoc. lia.
Qed.

Lemma reverse_repl {A} n (x : A) : reverse (replicate n x) = replicate n x.
Proof. apply reverse_replicate'. Qed.

Lemma checked_next_ssc_spec (c : list Z) :
  bytes_ok c ->
  match checked_next_ssc c with
  | Ok c' => length c' = length c /\ bytes_ok c' /\ be_value c' = be_value c + 1
  | Err _ => c = replicate (length c) 255
  | Panic => False
  end.
Proof.
  intros Hc. unfold checked_next_ssc.
  assert (bytes_ok (reverse c)) as Hr by (by apply Forall_reverse).
  pose proof (next_ssc_rev_spec (reverse c) Hr) as Hs.
  destruct (next_ssc_rev (reverse c)) as [l'|]; cbn [fmap option_fmap option_map ok_or].
  - rewrite length_reverse in Hs. destruct Hs as (Hl & Hok & Hv).
    rewrite reverse_involutive in Hv. rewrite length_reverse. split; [done|]. split; [|done].
    by apply Forall_reverse.
  - rewrite length_reverse in Hs. rewrite <-(reverse_involutive c), Hs.
    by rewrite reverse_repl, length_replicate.
Qed.

(** the next counter has the same length and is the big-endian successor;
    the only counter without one is all ones, which is refused, so a session
    never reuses a counter value. *)
Theorem checked_next_ssc_successor (c : list Z) :
  bytes_ok c ->
  match checked_next_ssc c with
  | Ok c' => length c' = length c /\ bytes_ok c' /\ be_value c' = be_value c + 1
  | Err _ => c = replicate (length c) 255
  | Panic => False
  end.
Proof. apply checked_next_ssc_spec. Qed.

Lemma checked_next_ssc_successor_witness :
  exists c', checked_next_ssc [0; 0; 0; 0; 0; 7; 255; 255] = Ok c' /\ be_value c' = 8 * 65536.
Proof.
  assert (bytes_ok [0; 0; 0; 0; 0; 7; 255; 255]) as Hb.
  { unfold bytes_ok, byte_ok. repeat (apply Forall_cons_2; [lia|]). apply Forall_nil_2. }
  pose proof (checked_next_ssc_successor [0; 0; 0; 0; 0; 7; 255; 255] Hb) as Hs.
  destruct (checked_next_ssc [0; 0; 0; 0; 0; 7; 255; 255]) as [c'|e|] eqn:Hc.
  - exists c'. split; [reflexivity|]. destruct Hs as (_ & _ & Hv). rewrite Hv. reflexivity.
  - vm_compute in Hc. discriminate Hc.
  - contradiction.
Defined.

(** ** Comparison *)
Lemma lor_fold_zero (l : list (Z * Z)) : forall acc,
  0 <= acc -> Forall (fun xy => byte_ok xy.1 /\ byte_ok xy.2) l ->
  foldl (fun diff xy => Z.lor diff (Z.lxor xy.1 xy.2)) acc l = 0 <->
  acc = 0 /\ Forall (fun xy => xy.1 = xy.2) l.
Proof.
  induction l as [|[x y] l IH]; intros acc Ha Hl; simpl.
  { split; [intros ->; split; [done|constructor]|by intros [-> _]]. }
  apply Forall_cons in Hl as [[Hx Hy] Hl]. simpl in Hx, Hy.
  pose proof (lxor_byte x y Hx Hy) as [Hxy _].
  rewrite IH by (done || apply Z.lor_nonneg; lia).
  rewrite Z.lor_eq_0_iff, Z.lxor_eq_0_iff, Forall_cons. simpl. tauto.
Qed.

Lemma constant_time_eq_spec a b :
  bytes_ok a -> bytes_ok b -> constant_time_eq a b = true <-> a = b.
Proof.
  intros Ha Hb. unfold constant_time_eq.
  destruct (Z.eqb_spec (zlen a) (zlen b)) as [Hl|Hl]; cbn [negb].
  2:{ split; [done|]. intros ->. by destruct Hl. }
  unfold zlen in Hl. assert (length a = length b) as Hlen by lia.
  rewrite Z.eqb_eq, lor_fold_zero; [|lia|].
  - split.
    + intros [_ Hall]. clear -Hlen Hall. revert b Hlen Hall.
      induction a as [|x a IH]; intros [|y b] Hl Hall; try discriminate Hl; [done|].
      simpl in Hall. apply Forall_cons in Hall as [Hxy Hall]. simpl in Hxy.
      f_equal; [done|]. apply IH; [by injection Hl|done].
    + intros ->. split; [done|]. clear. induction b; simpl; constructor; done.
  - clear Hl. revert b Hb Hlen. induction Ha as [|x a Hx Ha IH]; intros b Hb Hlen;
      destruct Hb as [|y b Hy Hb]; try discriminate Hlen; simpl; constructor; [done|].
    apply IH; [done|by injection Hlen].
Qed.

(** ** The retail MAC of the chip reader *)
Section mac.
Context `{TdesLaws}.

Lemma cbc_blocks_last k bs b : forall iv,
  length k = 8%nat -> block_ok iv -> Forall block_ok (bs ++ [b]) ->
  cbc_blocks (k ++ k ++ k) iv (bs ++ [b]) =
  cbc_blocks (k ++ k ++ k) iv bs ++ [mac_fold k iv (bs ++ [b])].
Proof.
  induction bs as [|x bs IH]; intros iv Hk Hiv Hbs; cbn [app] in *; apply Forall_cons in Hbs as [Hx Hbs].
  - cbn [cbc_blocks mac_fold foldl app]. by rewrite tdes_block_single by (done || by apply xor_block).
  - cbn [cbc_blocks app]. cbn zeta. rewrite tdes_block_single by (done || by apply xor_block).
    f_equal. rewrite IH; [done|done| |done]. by apply des_encrypt_ok, xor_block.
Qed.

Lemma mac_fold_snoc k y bs b : mac_fold k y (bs ++ [b]) = des_encrypt k (xor_bytes (mac_fold k y bs) b).
Proof. unfold mac_fold. by rewrite foldl_app. Qed.

Lemma copy_exact_block b : block_ok b -> copy_exact 8 b = Ok b.
Proof. intros [Hb _]. unfold copy_exact. by rewrite decide_True. Qed.

(** The CBC pass over all blocks but the last. *)
Lemma intermediate_value k init :
  length k = 8%nat -> Forall block_ok init -> init ≠ [] ->
  crypto_context "Retail-MAC single-DES: " (tdes_cbc_encrypt (k ++ k ++ k) zero_iv (concat init))
    ≫= (fun cbc => vec_slice cbc (zlen cbc - 8) (zlen cbc) ≫= copy_exact 8)
  = Ok (mac_fold k zero_iv init).
Proof.
  intros Hk Hinit Hne.
  destruct (tdes_encrypt_blocks (k ++ k ++ k) zero_iv init (concat init)) as [-> [_ Hcb]];
    [rewrite !length_app; lia|apply zero_iv_ok|done|done|].
  cbn [crypto_context map_err mbind res_bind].
  destruct init as [|b init _] using rev_ind; [done|].
  rewrite cbc_blocks_last in * by (done || apply zero_iv_ok). rewrite concat_app. cbn [concat].
  rewrite app_nil_r. set (c := concat _). set (m := mac_fold _ _ _) in *.
  assert (block_ok m) as Hm by (apply Forall_app in Hcb as [_ Hcb]; by inversion Hcb).
  assert (zlen m = 8) as Hlm by (destruct Hm; unfold zlen; lia).
  rewrite (vec_slice_at _ c m []); [|by rewrite app_nil_r|lens; lia|lens; lia].
  cbn [mbind res_bind]. by apply copy_exact_block.
Qed.

Lemma take_8_of_16 (key : list Z) : length key = 16%nat ->
  length (take 8 key) = 8%nat /\ take 8 (drop 8 key) = drop 8 key.
Proof. intros Hk. rewrite length_take. split; [lia|]. apply take_ge. rewrite length_drop. lia. Qed.

Lemma tdes_block_full key b :
  length key = 16%nat ->
  tdes_block (extend_to_24_bytes key) b =
  des_encrypt (take 8 key) (des_decrypt (take 8 (drop 8 key)) (des_encrypt (take 8 key) b)).
Proof.
  intros Hk. destruct (take_8_of_16 key Hk) as [H1 H2].
  assert (length (drop 8 key) = 8%nat) as H3 by (rewrite length_drop; lia).
  unfold tdes_block, extend_to_24_bytes.
  rewrite (drop_app_length' _ _ 8) by done.
  rewrite (take_app_length' (take 8 key) _ 8) by done.
  rewrite (take_app_length' (drop 8 key) _ 8) by done.
  rewrite (app_assoc (take 8 key)), (drop_app_length' _ _ 16) by (rewrite length_app; lia).
  by rewrite H2.
Qed.

Lemma extend_24_length key : length key = 16%nat -> length (extend_to_24_bytes key) = 24%nat.
Proof.
  intros Hk. unfold extend_to_24_bytes. rewrite !length_app, !length_take, length_drop. lia.
Qed.

Lemma retail_mac_3des_value key data :
  length key = 16%nat -> bytes_ok data -> retail_mac_3des key data = Ok (mac_value key data).
Proof.
  intros Hk Hd. unfold retail_mac_3des, mac_value. rewrite iso7816_pad_spec. cbn [mbind res_bind].
  destruct (padded_blocks data Hd) as (bs & Hbs & Hne & ->).
  pose proof (blocks_length _ _ Hbs) as Hlen. destruct Hbs as [Heq Hbs].
  destruct bs as [|lst init _] using rev_ind; [done|]. clear Hne.
  apply Forall_app in Hbs as [Hinit Hlst]. apply Forall_inv in Hlst.
  destruct (take_8_of_16 key Hk) as [Hk1 _].
  assert (zlen (padded data) / 8 = zlen init + 1) as Hn.
  { rewrite Hlen. lens. rewrite Z.mul_comm, Z.div_mul by lia. lia. }
  assert (zlen (concat init) = 8 * zlen init) as Hci by (by apply blocks_length).
  rewrite Hn, Z.add_simpl_r. change icao_3des_cbc_iv with zero_iv. unfold extend_single_des.
  rewrite concat_app in Heq. cbn [concat] in Heq. rewrite app_nil_r in Heq.
  pose proof (zlen_nonneg init) as Hi0.
  match goal with |- (?c ≫= _) = _ => assert (c = Ok (mac_fold (take 8 key) zero_iv init)) as -> end.
  { destruct (Z.ltb_spec 1 (zlen init + 1)) as [Hgt|Hle].
    - rewrite (vec_slice_at (E:=VerificationError) _ [] (concat init) lst) by (cbn [app]; (done || lens; lia)).
      cbn [mbind res_bind]. apply (intermediate_value (take 8 key) init Hk1 Hinit).
      intros ->. by vm_compute in Hgt.
    - destruct init; [done|]. lens. pose proof (zlen_nonneg init). lia. }
  cbn [mbind res_bind].
  assert (zlen lst = 8) as Hll by (destruct Hlst; unfold zlen; lia).
  rewrite (vec_slice_at _ (concat init) lst []); [|by rewrite app_nil_r|lia|rewrite Hlen; lens; lia].
  cbn [mbind res_bind]. rewrite copy_exact_block by done. cbn [mbind res_bind].
  assert (block_ok (mac_fold (take 8 key) zero_iv init)) as Hf by (by apply mac_fold_ok; [apply zero_iv_ok|]).
  assert (block_ok (xor_bytes (mac_fold (take 8 key) zero_iv init) lst)) as Hx by (by apply xor_block).
  rewrite tdes_encrypt_one by (done || by apply extend_24_length).
  cbn [crypto_context map_err mbind res_bind].
  rewrite mac_fold_snoc, <-tdes_block_full by done.
  assert (block_ok (tdes_block (extend_to_24_bytes key) (xor_bytes (mac_fold (take 8 key) zero_iv init) lst))) as Hr
    by (by apply tdes_block_ok).
  rewrite (vec_slice_at _ [] (tdes_block (extend_to_24_bytes key) (xor_bytes (mac_fold (take 8 key) zero_iv init) lst)) []);
    [|by rewrite app_nil_r|done|destruct Hr; lens; unfold zlen; lia].
  cbn [mbind res_bind]. by apply copy_exact_block.
Qed.

(** the retail MAC of the chip reader and the one of the crypto crate, which
    split the computation differently, compute the same eight bytes for every
    16-byte key and message, without error. *)
Theorem retail_mac_equivalence (key data : list Z) :
  length key = 16%nat -> bytes_ok data ->
  exists m, retail_mac_3des key data = Ok m /\ retail_mac key data = Ok m /\ block_ok m.
Proof.
  intros Hk Hd. exists (mac_value key data).
  split; [by apply retail_mac_3des_value|]. split; [by apply retail_mac_value|by apply mac_value_ok].
Qed.
End mac.

Lemma retail_mac_equivalence_witness :
  exists m, retail_mac_3des (take 16 sample_key24) [1; 2; 3; 4; 5; 6; 7; 8; 9] = Ok m /\
            retail_mac (take 16 sample_key24) [1; 2; 3; 4; 5; 6; 7; 8; 9] = Ok m /\ block_ok m.
Proof.
  apply (retail_mac_equivalence (take 16 sample_key24) [1; 2; 3; 4; 5; 6; 7; 8; 9]).
  - reflexivity.
  - unfold bytes_ok, byte_ok. repeat (apply Forall_cons_2; [lia|]). apply Forall_nil_2.
Defined.
