(* ===== verification/SecureMessagingFacts.v ===== *)
(** * Secure messaging and basic access control: properties

    The protected form of every command, what an accepted response proves, the
    agreement of reader and chip after the handshake, and the agreement of the
    two sources of the key-derivation string. *)

From S2P Require Import Prelude RustStr Des DesFacts Apdu ApduFacts Mrz MrzFacts SecureMessaging TlvFacts.
Local Open Scope Z_scope.

Record session_ok (s : BacSession) : Prop := {
  sess_enc : length (k_enc s) = 16%nat;
  sess_mac : length (k_mac s) = 16%nat;
  sess_ssc : bytes_ok (ssc s);
}.

Lemma lor_byte a b : byte_ok a -> byte_ok b -> byte_ok (Z.lor a b).
Proof.
  intros Ha Hb. apply byte_ok_of_bits.
  - apply Z.lor_nonneg. unfold byte_ok in *. lia.
  - intros n Hn. by rewrite Z.lor_spec, !testbit_byte_high.
Qed.

(** A list of literal bytes. *)
Ltac bytes_literal :=
  unfold bytes_ok; repeat (apply Forall_cons_2; [first [done | unfold byte_ok; lia]|]); apply Forall_nil_2.

Section sm.
Context `{TdesLaws}.

(** ** Encrypted data *)
Definition sm_ciphertext (s : BacSession) (d : list Z) : list Z :=
  concat (cbc_blocks (extend_to_24_bytes (k_enc s)) zero_iv (chunks8 (padded d))).

Lemma sm_ciphertext_spec s d :
  session_ok s -> bytes_ok d ->
  tdes_cbc_encrypt (extend_to_24_bytes (k_enc s)) icao_3des_cbc_iv (padded d) = Ok (sm_ciphertext s d) /\
  tdes_cbc_decrypt (extend_to_24_bytes (k_enc s)) icao_3des_cbc_iv (sm_ciphertext s d) = Ok (padded d) /\
  zlen (sm_ciphertext s d) = zlen (padded d) /\ bytes_ok (sm_ciphertext s d).
Proof.
  intros Hs Hd. unfold sm_ciphertext. change icao_3des_cbc_iv with zero_iv.
  destruct (padded_blocks d Hd) as (bs & Hbs & Hne & ->).
  pose proof (extend_24_length _ (sess_enc _ Hs)) as Hk. pose proof zero_iv_ok as Hz.
  destruct (tdes_encrypt_blocks (extend_to_24_bytes (k_enc s)) zero_iv bs (padded d)) as [Henc Hcb]; [done..|].
  split; [done|]. split.
  - unfold tdes_cbc_decrypt. rewrite (validate_tdes_ok _ _ (cbc_blocks (extend_to_24_bytes (k_enc s)) zero_iv bs)); [|done..|].
    + cbn [mbind res_bind]. destruct Hbs as [-> Hbs]. by rewrite cbc_decrypt_blocks.
    + by destruct bs.
  - split; [|by eapply blocks_bytes].
    rewrite (blocks_length _ _ Hcb), (blocks_length _ _ Hbs). unfold zlen. by rewrite length_cbc_blocks.
Qed.

Definition do87_of (s : BacSession) (d : list Z) : list Z :=
  match d with [] => [] | _ => tlv 0x87 (0x01 :: sm_ciphertext s d) end.

Definition do97_of (e : option Z) : list Z :=
  match e with Some l => tlv 0x97 [if l =? 256 then 0 else l] | None => [] end.

(** The padded data of the largest command fills its last block. *)
Lemma do87_length s d :
  session_ok s -> bytes_ok d -> zlen d <= 65511 -> zlen (do87_of s d) <= 65517.
Proof.
  intros Hs Hd Hmax. unfold do87_of. destruct d as [|x d']; [vm_compute; discriminate|].
  pose proof (tlv_length 0x87 (0x01 :: sm_ciphertext s (x :: d'))) as Ht.
  destruct (sm_ciphertext_spec s (x :: d') Hs Hd) as (_ & _ & Hl & _).
  destruct (padded_length (x :: d')) as [Hm Hp]. rewrite zlen_cons in Ht.
  assert (zlen (padded (x :: d')) <= 65512) by (Z.to_euclidean_division_equations; lia). lia.
Qed.

Lemma do87_bytes_ok s d : session_ok s -> bytes_ok d -> zlen d <= 65511 -> bytes_ok (do87_of s d).
Proof.
  intros Hs Hd Hl. unfold do87_of. destruct d as [|x d']; [apply Forall_nil_2|].
  destruct (sm_ciphertext_spec s (x :: d') Hs Hd) as (_ & _ & Hc & Hb).
  destruct (padded_length (x :: d')).
  apply tlv_bytes; [unfold byte_ok; lia| |rewrite zlen_cons; lia].
  apply Forall_cons_2; [unfold byte_ok; lia|done].
Qed.

Definition sm_header (cmd : ApduCommand) : list Z :=
  [Z.lor (cla cmd) 0x0C; ins cmd; p1 cmd; p2 cmd; 0x80; 0x00; 0x00; 0x00].

(** The protected form of a command under the counter [c]. *)
Definition protected_command (s : BacSession) (c : list Z) (cmd : ApduCommand) : ApduCommand :=
  let objs := do87_of s (cmd_data cmd) ++ do97_of (cmd_le cmd) in
  mkCommand (Z.lor (cla cmd) 0x0C) (ins cmd) (p1 cmd) (p2 cmd)
    (objs ++ tlv 0x8E (mac_value (k_mac s) (c ++ sm_header cmd ++ objs))) (Some 0).

Lemma mac_tlv key data : bytes_ok data -> tlv 0x8E (mac_value key data) = [0x8E; 0x08] ++ mac_value key data.
Proof.
  intros Hd. destruct (mac_value_ok key data Hd) as [Hl _].
  unfold tlv. assert (zlen (mac_value key data) = 8) as -> by (unfold zlen; lia). done.
Qed.

Lemma do87_built s d :
  session_ok s -> bytes_ok d -> zlen d <= 65511 ->
  (if negb (bool_decide (d = [])) then
     pd ← iso7816_pad d;
     enc ← crypto_context "SM encrypt: "
             (tdes_cbc_encrypt (extend_to_24_bytes (k_enc s)) icao_3des_cbc_iv pd);
     push_ber_tlv 0x87 (0x01 :: enc) []
   else Ok []) = Ok (do87_of s d).
Proof.
  intros Hs Hd Hl. destruct d as [|x d']; [done|]. rewrite bool_decide_eq_false_2 by done.
  cbn [negb]. rewrite iso7816_pad_spec. cbn [mbind res_bind].
  destruct (sm_ciphertext_spec s (x :: d') Hs Hd) as (-> & _ & Hc & _).
  cbn [crypto_context map_err mbind res_bind]. rewrite push_ber_tlv_spec.
  destruct (padded_length (x :: d')). rewrite zlen_cons. decide_tests. done.
Qed.

Lemma do97_built e :
  (forall v, e = Some v -> 0 <= v <= 256) ->
  match e with Some l => [0x97; 0x01; if l =? 256 then 0 else wrap 8 l] | None => [] end = do97_of e /\
  bytes_ok (do97_of e) /\ zlen (do97_of e) <= 3.
Proof.
  destruct e as [l|]; [|intros _; split; [done|]; split; [apply Forall_nil_2|done]].
  intros Hv. specialize (Hv l eq_refl). simpl do97_of.
  assert ((if l =? 256 then 0 else wrap 8 l) = (if l =? 256 then 0 else l) /\ byte_ok (if l =? 256 then 0 else l)) as [-> Hb].
  { destruct (Z.eqb_spec l 256); unfold byte_ok; [lia|]. rewrite wrap8_small by lia. lia. }
  split; [done|]. split; [|done]. apply tlv_bytes; [unfold byte_ok; lia| |done].
  by apply Forall_cons_2; [|apply Forall_nil_2].
Qed.

Lemma protect_command_value s cmd c :
  session_ok s -> command_ok cmd -> zlen (cmd_data cmd) <= 65511 ->
  (forall v, cmd_le cmd = Some v -> v <= 256) -> checked_next_ssc (ssc s) = Ok c ->
  protect_command s cmd = Ok (mkSession (k_enc s) (k_mac s) c, protected_command s c cmd) /\
  zlen (cmd_data (protected_command s c cmd)) <= 65535.
Proof.
  intros Hs (Hhead & Hd & Hle0) Hlen Hle Hc.
  destruct (do97_built (cmd_le cmd)) as (H97 & H97b & H97l).
  { intros v Hv. specialize (Hle v Hv). specialize (Hle0 v Hv). lia. }
  pose proof (do87_length s _ Hs Hd Hlen) as H87l. pose proof (do87_bytes_ok s _ Hs Hd Hlen) as H87b.
  set (objs := do87_of s (cmd_data cmd) ++ do97_of (cmd_le cmd)) in *.
  assert (bytes_ok (c ++ sm_header cmd ++ objs)) as Hmacin.
  { pose proof (checked_next_ssc_spec (ssc s) (sess_ssc _ Hs)) as Hn. rewrite Hc in Hn.
    apply Forall_app. split; [apply Hn|]. apply Forall_app. split; [|by apply Forall_app].
    unfold bytes_ok in Hhead. rewrite !Forall_cons in Hhead. destruct Hhead as (? & ? & ? & ? & _).
    unfold sm_header. apply Forall_cons_2; [apply lor_byte; [done|unfold byte_ok; lia]|]. bytes_literal. }
  assert (zlen (objs ++ tlv 0x8E (mac_value (k_mac s) (c ++ sm_header cmd ++ objs))) <= 65535) as Hcap.
  { rewrite mac_tlv by done. destruct (mac_value_ok (k_mac s) _ Hmacin) as [Hml _].
    assert (zlen objs <= 65520) by (unfold objs; lens; lia).
    set (m := mac_value _ _) in *. assert (zlen m = 8) by (unfold zlen; lia).
    clearbody m objs. lens. lia. }
  split; [|exact Hcap].
  unfold protect_command, MAX_BAC_COMMAND_DATA_BYTES, MAX_APDU_DATA_BYTES.
  rewrite (proj2 (Z.ltb_ge 65511 _)) by done. cbn [negb ensure mbind res_bind].
  assert (from_option (fun l => 256 <? l) false (cmd_le cmd) = false) as ->.
  { destruct (cmd_le cmd) as [v|]; [|done]. simpl. apply Z.ltb_ge. by apply Hle. }
  cbn [negb ensure mbind res_bind]. rewrite Hc. cbn [mbind res_bind].
  pose proof (do87_built s (cmd_data cmd) Hs Hd Hlen) as H87. cbv zeta. rewrite H87.
  cbn [mbind res_bind]. rewrite H97. fold objs. fold (sm_header cmd). fold objs.
  rewrite retail_mac_3des_value by (done || apply Hs). cbn [mbind res_bind].
  assert (do87_of s (cmd_data cmd) ++ do97_of (cmd_le cmd) ++ [0x8E] ++ [0x08] ++ mac_value (k_mac s) (c ++ sm_header cmd ++ objs)
    = objs ++ tlv 0x8E (mac_value (k_mac s) (c ++ sm_header cmd ++ objs))) as ->.
  { rewrite mac_tlv by done. unfold objs. by rewrite <-!app_assoc. }
  rewrite (proj2 (Z.ltb_ge 65535 _)) by done. done.
Qed.


(** secure messaging protects every command with at most 65511 bytes of data,
    an Le of at most 256 and a counter that is not exhausted, and refuses the
    others; the protected command masks CLA, carries the encrypted padded data
    (DO'87'), the expected length (DO'97') and the retail MAC over the next
    counter, the header and these objects (DO'8E'), fits an extended APDU and
    can be encoded. *)
Theorem protect_command_correct (s : BacSession) (cmd : ApduCommand) :
  session_ok s -> command_ok cmd ->
  match protect_command s cmd with
  | Ok (s', pc) =>
      exists c, checked_next_ssc (ssc s) = Ok c /\ s' = mkSession (k_enc s) (k_mac s) c /\
        pc = protected_command s c cmd /\ encodable pc
  | Err _ =>
      65511 < zlen (cmd_data cmd) \/ (exists v, cmd_le cmd = Some v /\ 256 < v) \/
      ssc s = replicate (length (ssc s)) 255
  | Panic => False
  end.
Proof.
  intros Hs Hcmd. pose proof (checked_next_ssc_spec (ssc s) (sess_ssc _ Hs)) as Hn.
  destruct (decide (65511 < zlen (cmd_data cmd))) as [Hbig|Hbig].
  { unfold protect_command, MAX_BAC_COMMAND_DATA_BYTES. decide_tests. by left. }
  destruct (from_option (fun l => 256 <? l) false (cmd_le cmd)) eqn:Hle.
  { unfold protect_command, MAX_BAC_COMMAND_DATA_BYTES. rewrite Hle. decide_tests.
    right. left. destruct (cmd_le cmd) as [v|]; [|discriminate Hle]. simpl in Hle. breflect. eauto. }
  destruct (checked_next_ssc (ssc s)) as [c|e|] eqn:Hc; [| |done].
  - destruct (protect_command_value s cmd c) as [-> Hcap]; [done|done|lia| |done|].
    { intros v Hv. rewrite Hv in Hle. simpl in Hle. by breflect. }
    exists c. split; [done|]. split; [done|]. split; [done|]. split; [exact Hcap|].
    intros v [= <-]. lia.
  - assert (is_Ok (protect_command s cmd) = false /\ no_panic (protect_command s cmd)) as [Hno Hnp].
    { unfold protect_command, MAX_BAC_COMMAND_DATA_BYTES. rewrite Hc, Hle. by decide_tests. }
    destruct (protect_command s cmd); [done| |done]. by right; right.
Qed.

(** ** The objects of a response *)
Definition encode_objects (objs : list (Z * list Z)) : list Z :=
  concat ((fun o => tlv o.1 o.2) <$> objs).

Fixpoint collect_all (o : SmObjects) (objs : list (Z * list Z)) : res VerificationError SmObjects :=
  match objs with
  | [] => Ok o
  | (t, v) :: objs => o' ← collect o (mkTlv t (tlv t v) v); collect_all o' objs
  end.

Lemma collect_objects_encoded objs : forall pre fuel o,
  Forall (fun tv => zlen tv.2 <= 65535) objs -> zlen pre + zlen (encode_objects objs) <= usize_max ->
  (length objs <= fuel)%nat ->
  collect_objects fuel (pre ++ encode_objects objs) (zlen pre) o = collect_all o objs.
Proof.
  induction objs as [|[t v] objs IH]; intros pre fuel o Hv Hmax Hf.
  - unfold encode_objects. simpl. rewrite app_nil_r. destruct fuel; cbn [collect_objects]; by rewrite Z.ltb_irrefl.
  - apply Forall_cons in Hv as [Ht Hv]. simpl in Ht. destruct fuel as [|fuel]; [simpl in Hf; lia|].
    unfold encode_objects in *. rewrite fmap_cons in *. cbn [concat fst snd] in *.
    pose proof (tlv_length t v). pose proof (zlen_nonneg v). rewrite zlen_app in Hmax.
    pose proof (zlen_nonneg (concat ((fun o => tlv o.1 o.2) <$> objs))).
    cbn [collect_objects collect_all]. rewrite (proj2 (Z.ltb_lt _ _)) by (lens; lia).
    rewrite next_ber_tlv_at by (done || lia). cbn [mbind res_bind fst snd].
    destruct (collect o (mkTlv t (tlv t v) v)) as [o'| |]; cbn [mbind res_bind]; [|done..].
    rewrite (app_assoc pre), <-zlen_app. apply IH; [done|lens; lia|simpl in Hf; lia].
Qed.

Lemma collect_objects_inv : forall fuel pre rest o o',
  bytes_ok rest -> collect_objects fuel (pre ++ rest) (zlen pre) o = Ok o' ->
  exists objs, rest = encode_objects objs /\ collect_all o objs = Ok o'.
Proof.
  induction fuel as [|fuel IH]; intros pre rest o o' Hb Hc; cbn [collect_objects] in Hc;
    destruct (Z.ltb_spec (zlen pre) (zlen (pre ++ rest))) as [Hlt|Hge]; try discriminate Hc.
  1,3: injection Hc as ->; assert (rest = []) as -> by
    (destruct rest as [|x rest]; [done|lens; pose proof (zlen_nonneg rest); lia]); by exists [].
  apply bind_Ok in Hc as ([r e] & Hr & Hc). cbn [fst snd] in Hc.
  apply bind_Ok in Hc as (o1 & Ho1 & Hc).
  apply next_ber_tlv_inv in Hr as (Henc & Hl & post & -> & ->); [|done].
  rewrite (app_assoc pre), <-zlen_app in Hc. apply Forall_app in Hb as [_ Hb].
  destruct (IH _ _ _ _ Hb Hc) as (objs & -> & Hall). exists ((tag r, value r) :: objs).
  unfold encode_objects. rewrite fmap_cons. cbn [concat fst snd collect_all]. rewrite <-Henc.
  split; [done|]. destruct r as [t enc v]. cbn [tag value encoded] in *. by rewrite Ho1.
Qed.

(** The objects a chip sends for the data [d] and the status [a b]. *)
Definition response_objects (s : BacSession) (c : list Z) (d : list Z) (a b : Z) : list (Z * list Z) :=
  (match d with [] => [] | _ => [(0x87, 0x01 :: sm_ciphertext s d)] end) ++
  [(0x99, [a; b]); (0x8E, mac_value (k_mac s) (c ++ do87_of s d ++ tlv 0x99 [a; b]))].

Lemma collect_87 o e ct :
  do87_bytes o = None -> 0 < zlen ct -> zlen ct mod 8 = 0 ->
  collect o (mkTlv 0x87 e (0x01 :: ct)) =
  Ok (mkObjects (received_mac o) (Some e) (Some ct) (do99_bytes o) (status o)).
Proof.
  intros Ho Hpos Hmod. unfold collect. cbn [tag value encoded head].
  change (0x87 =? 0x87) with true. cbn match. rewrite Ho. cbn [is_Some_b].
  rewrite bool_decide_eq_true_2 by done. unfold is_multiple_of8.
  rewrite zlen_cons. replace (1 + zlen ct - 1) with (zlen ct) by lia.
  rewrite Hmod. decide_tests.
  rewrite (vec_slice_at _ [0x01] ct []); [done|by rewrite app_nil_r|done|done].
Qed.

Lemma collect_99 o e a b :
  do99_bytes o = None ->
  collect o (mkTlv 0x99 e [a; b]) =
  Ok (mkObjects (received_mac o) (do87_bytes o) (encrypted_data o) (Some e) (Some (a, b))).
Proof. intros Ho. unfold collect. cbn [tag value encoded]. by rewrite Ho. Qed.

Lemma collect_8E o e m :
  received_mac o = None -> zlen m = 8 ->
  collect o (mkTlv 0x8E e m) =
  Ok (mkObjects (Some m) (do87_bytes o) (encrypted_data o) (do99_bytes o) (status o)).
Proof. intros Ho Hm. unfold collect. cbn [tag value encoded]. by rewrite Ho, Hm. Qed.

Lemma collect_response s c d a b :
  session_ok s -> bytes_ok d -> bytes_ok (c ++ do87_of s d ++ tlv 0x99 [a; b]) ->
  collect_all no_objects (response_objects s c d a b) =
  Ok (mkObjects (Some (mac_value (k_mac s) (c ++ do87_of s d ++ tlv 0x99 [a; b])))
        (match d with [] => None | _ => Some (do87_of s d) end)
        (match d with [] => None | _ => Some (sm_ciphertext s d) end)
        (Some (tlv 0x99 [a; b])) (Some (a, b))).
Proof.
  intros Hs Hd Hin. destruct (mac_value_ok (k_mac s) _ Hin) as [Hml _].
  unfold response_objects. set (m := mac_value _ _) in *.
  assert (zlen m = 8) as Hm by (unfold zlen; lia). clearbody m.
  destruct d as [|x d']; cbn [app collect_all].
  - rewrite collect_99 by done. cbn [mbind res_bind]. by rewrite collect_8E.
  - destruct (sm_ciphertext_spec s (x :: d') Hs Hd) as (_ & _ & Hl & _).
    destruct (padded_length (x :: d')) as [Hmod Hp]. rewrite <-Hl in *.
    pose proof (zlen_nonneg (x :: d')). rewrite collect_87 by (done || lia).
    cbn [mbind res_bind]. rewrite collect_99 by done. cbn [mbind res_bind]. by rewrite collect_8E.
Qed.

Lemma response_objects_bytes s c d a b :
  encode_objects (response_objects s c d a b) =
  do87_of s d ++ tlv 0x99 [a; b] ++ tlv 0x8E (mac_value (k_mac s) (c ++ do87_of s d ++ tlv 0x99 [a; b])).
Proof.
  unfold encode_objects, response_objects. destruct d as [|x d']; rewrite fmap_app, concat_app;
    cbn [fmap list_fmap concat app fst snd]; by rewrite !app_nil_r.
Qed.

Lemma response_sizes s c d a b :
  session_ok s -> bytes_ok d -> bytes_ok (c ++ do87_of s d ++ tlv 0x99 [a; b]) ->
  zlen (encode_objects (response_objects s c d a b)) <= 65535 ->
  Forall (fun tv => zlen tv.2 <= 65535) (response_objects s c d a b) /\
  (length (response_objects s c d a b) <= length (encode_objects (response_objects s c d a b)))%nat.
Proof.
  intros Hs Hd Hin Hcap. destruct (mac_value_ok (k_mac s) _ Hin) as [Hml _].
  rewrite response_objects_bytes in *.
  assert (length (tlv 0x99 [a; b]) = 4%nat) as H99 by done.
  unfold response_objects. split.
  - apply Forall_app. split.
    + destruct d as [|x d']; [constructor|]. apply Forall_cons_2; [|constructor]. cbn [snd].
      pose proof (tlv_length 0x87 (0x01 :: sm_ciphertext s (x :: d'))). unfold do87_of in Hcap. lens.
      repeat match goal with _ : context [zlen ?l] |- _ => lazymatch goal with
        | Hz : 0 <= zlen l |- _ => fail | _ => pose proof (zlen_nonneg l) end end. lia.
    + apply Forall_cons_2; [done|]. apply Forall_cons_2; [|constructor]. cbn [snd]. unfold zlen. lia.
  - rewrite !length_app, H99. destruct d; simpl length; lia.
Qed.

Lemma unprotect_value s c d a b o1 o2 :
  session_ok s -> bytes_ok d -> byte_ok a -> byte_ok b -> checked_next_ssc (ssc s) = Ok c ->
  zlen (encode_objects (response_objects s c d a b)) <= 65535 ->
  unprotect_response s (mkResponse (encode_objects (response_objects s c d a b)) o1 o2)
  = Ok (mkSession (k_enc s) (k_mac s) c, mkResponse d a b).
Proof.
  intros Hs Hd Ha Hb Hc Hcap.
  assert (bytes_ok (c ++ do87_of s d ++ tlv 0x99 [a; b])) as Hin.
  { pose proof (checked_next_ssc_spec (ssc s) (sess_ssc _ Hs)) as Hn. rewrite Hc in Hn.
    apply Forall_app. split; [apply Hn|]. apply Forall_app. split.
    - destruct d as [|x d']; [apply Forall_nil_2|].
      destruct (sm_ciphertext_spec s (x :: d') Hs Hd) as (_ & _ & _ & Hct).
      rewrite response_objects_bytes in Hcap. unfold do87_of in *.
      pose proof (tlv_length 0x87 (0x01 :: sm_ciphertext s (x :: d'))). rewrite zlen_app in Hcap.
      match type of Hcap with _ + zlen ?l <= _ => pose proof (zlen_nonneg l) end.
      apply tlv_bytes; [unfold byte_ok; lia| |lia].
      apply Forall_cons_2; [unfold byte_ok; lia|done].
    - apply tlv_bytes; [unfold byte_ok; lia|by repeat apply Forall_cons_2|done]. }
  destruct (response_sizes s c d a b Hs Hd Hin Hcap) as [Hsz Hfuel].
  unfold unprotect_response, MAX_BAC_PROTECTED_RESPONSE_BYTES, MAX_APDU_DATA_BYTES. cbn [resp_data].
  rewrite (proj2 (Z.ltb_ge 65535 _)) by done. cbn [negb ensure mbind res_bind].
  rewrite Hc. cbn [mbind res_bind].
  pose proof (collect_objects_encoded (response_objects s c d a b) []
    (length (encode_objects (response_objects s c d a b))) no_objects Hsz) as Hcol.
  cbn [app] in Hcol. change (zlen (@nil Z)) with 0 in Hcol.
  rewrite Hcol by (done || unfold usize_max; lia). rewrite collect_response by done.
  cbn [mbind res_bind ok_or do99_bytes received_mac do87_bytes encrypted_data status].
  assert (default [] (match d with [] => None | _ => Some (do87_of s d) end) = do87_of s d) as -> by (by destruct d).
  rewrite retail_mac_3des_value by (done || apply Hs). cbn [mbind res_bind].
  destruct (mac_value_ok (k_mac s) _ Hin) as [_ Hmb].
  rewrite (proj2 (constant_time_eq_spec _ _ Hmb Hmb)) by done. cbn [ensure mbind res_bind].
  destruct d as [|x d']; [done|].
  destruct (sm_ciphertext_spec s (x :: d') Hs Hd) as (_ & -> & _ & _).
  cbn [crypto_context map_err mbind res_bind].
  rewrite (proj2 (iso7816_unpad_spec _ (x :: d'))) by (eexists; done). done.
Qed.

(** a response that the chip protects under the session keys and the next
    counter is accepted: the reader recovers exactly the data and the status
    word, and its counter advances to the chip's. *)
Theorem unprotect_response_complete (s : BacSession) (c d : list Z) (a b o1 o2 : Z) :
  session_ok s -> bytes_ok d -> byte_ok a -> byte_ok b -> checked_next_ssc (ssc s) = Ok c ->
  zlen (encode_objects (response_objects s c d a b)) <= 65535 ->
  unprotect_response s (mkResponse (encode_objects (response_objects s c d a b)) o1 o2)
  = Ok (mkSession (k_enc s) (k_mac s) c, mkResponse d a b).
Proof. apply unprotect_value. Qed.

(** ** What an accepted response proves *)
Record objects_wf (objs : list (Z * list Z)) (o : SmObjects) : Prop := {
  wf_87 : match do87_bytes o, encrypted_data o with
          | Some e, Some ct => e = tlv 0x87 (0x01 :: ct) /\ (0x87, 0x01 :: ct) ∈ objs
          | None, None => True
          | _, _ => False
          end;
  wf_99 : match do99_bytes o, status o with
          | Some e, Some (a, b) => e = tlv 0x99 [a; b] /\ (0x99, [a; b]) ∈ objs
          | None, None => True
          | _, _ => False
          end;
  wf_8E : forall m, received_mac o = Some m -> (0x8E, m) ∈ objs;
}.

Lemma collect_wf objs o t v o' :
  objects_wf objs o -> collect o (mkTlv t (tlv t v) v) = Ok o' -> objects_wf (objs ++ [(t, v)]) o'.
Proof.
  intros [H87 H99 H8E] Hc. unfold collect in Hc. cbn [tag value encoded] in Hc.
  assert (forall x, x ∈ objs -> x ∈ objs ++ [(t, v)]) as Hmono by set_solver.
  assert ((t, v) ∈ objs ++ [(t, v)]) as Hnew by set_solver.
  destruct (Z.eqb_spec t 0x87) as [->|Ht87].
  - res_inv. breflect.
    rename select (vec_slice v 1 (zlen v) = Ok _) into Hsl. unfold vec_slice in Hsl.
    apply expect_Ok, get_range_Some in Hsl as (_ & Hlx & Heq).
    destruct v as [|h v']; [discriminate|]. cbn [head] in *. simplify_eq.
    change (take (Z.to_nat 1) (1 :: v')) with [1] in Heq.
    rewrite (drop_ge (1 :: v')) in Heq by (unfold zlen; lia). rewrite app_nil_r in Heq.
    injection Heq as <-. split; cbn [do87_bytes encrypted_data do99_bytes status received_mac]; [done| |by eauto].
    destruct (do99_bytes o), (status o) as [[]|]; naive_solver.
  - destruct ((t =? 0x99) && (zlen v =? 2) && negb (is_Some_b (do99_bytes o))) eqn:H9.
    + breflect. subst t. assert (exists a b, v = [a; b]) as (a & b & ->).
      { rename select (zlen v = 2) into Hv2. unfold zlen in Hv2.
        destruct v as [|a [|b [|]]]; simpl in Hv2; try lia. by exists a, b. }
      change (vec_index [a; b] 0) with (Ok (E:=VerificationError) a) in Hc.
      change (vec_index [a; b] 1) with (Ok (E:=VerificationError) b) in Hc.
      cbn [mbind res_bind] in Hc. injection Hc as <-.
      split; cbn [do87_bytes encrypted_data do99_bytes status received_mac]; [|done|by eauto].
      destruct (do87_bytes o), (encrypted_data o); naive_solver.
    + destruct ((t =? 0x8E) && (zlen v =? 8) && negb (is_Some_b (received_mac o))) eqn:H8; [|discriminate Hc].
      breflect. subst t. injection Hc as <-.
      split; cbn [do87_bytes encrypted_data do99_bytes status received_mac].
      * destruct (do87_bytes o), (encrypted_data o); naive_solver.
      * destruct (do99_bytes o), (status o) as [[]|]; naive_solver.
      * intros m [= <-]. done.
Qed.

Lemma collect_all_wf objs : forall pre o o',
  objects_wf pre o -> collect_all o objs = Ok o' -> objects_wf (pre ++ objs) o'.
Proof.
  induction objs as [|[t v] objs IH]; intros pre o o' Hwf Hc; cbn [collect_all] in Hc.
  { injection Hc as <-. by rewrite app_nil_r. }
  apply bind_Ok in Hc as (o1 & Ho1 & Hc).
  replace (pre ++ (t, v) :: objs) with ((pre ++ [(t, v)]) ++ objs) by (by rewrite <-app_assoc).
  eapply IH; [by eapply collect_wf|done].
Qed.

(** What the reader knows of the response [r] under the counter [c]. *)
Definition authenticated (s : BacSession) (c data : list Z) (r : ApduResponse) : Prop :=
  exists objs do87, data = encode_objects objs /\
    (0x99, [sw1 r; sw2 r]) ∈ objs /\
    (0x8E, mac_value (k_mac s) (c ++ do87 ++ tlv 0x99 [sw1 r; sw2 r])) ∈ objs /\
    ((do87 = [] /\ resp_data r = []) \/
     exists ct k, do87 = tlv 0x87 (0x01 :: ct) /\ (0x87, 0x01 :: ct) ∈ objs /\
       tdes_cbc_decrypt (extend_to_24_bytes (k_enc s)) icao_3des_cbc_iv ct
       = Ok (resp_data r ++ 128 :: replicate k 0)).

Lemma encode_objects_mem objs t v :
  bytes_ok (encode_objects objs) -> (t, v) ∈ objs -> bytes_ok (tlv t v).
Proof.
  unfold encode_objects. induction objs as [|[t' v'] objs IH]; intros Hb Hin; [by apply not_elem_of_nil in Hin|].
  rewrite fmap_cons in Hb. cbn [concat] in Hb. apply Forall_app in Hb as [Hb1 Hb2].
  apply elem_of_cons in Hin as [[= -> ->]|Hin]; [done|by apply IH].
Qed.

(** *** No panics *)
Lemma vec_slice_Ok_range {E A} (l : list A) a b :
  0 <= a <= b -> b <= zlen l -> no_panic (vec_slice (E:=E) l a b).
Proof. intros Ha Hb. unfold vec_slice, get_range. by rewrite !(proj2 (Z.leb_le _ _)) by lia. Qed.

Lemma collect_no_panic o t : no_panic (collect o t).
Proof.
  unfold collect. destruct (tag t =? 0x87).
  - apply bind_no_panic; [auto with marty|]. intros u Hu. res_inv. breflect.
    apply bind_no_panic; [apply vec_slice_Ok_range; lia|]. auto with marty.
  - destruct ((tag t =? 0x99) && _ && _) eqn:H9; [|case_match; auto with marty].
    breflect. rename select (zlen (value t) = 2) into Hv2. unfold zlen in Hv2.
    destruct (value t) as [|a [|b [|]]]; simpl in Hv2; try lia. done.
Qed.

Lemma collect_objects_no_panic data : forall fuel pre rest o,
  data = pre ++ rest -> bytes_ok rest -> zlen rest <= Z.of_nat fuel ->
  no_panic (collect_objects fuel data (zlen pre) o).
Proof.
  induction fuel as [|fuel IH]; intros pre rest o -> Hb Hf; cbn [collect_objects];
    destruct (Z.ltb_spec (zlen pre) (zlen (pre ++ rest))) as [Hlt|Hge]; auto with marty.
  { lens. lia. }
  apply bind_no_panic; [apply next_ber_tlv_no_panic|]. intros [r e] Hr.
  apply bind_no_panic; [apply collect_no_panic|]. intros o' _. cbn [snd].
  apply next_ber_tlv_inv in Hr as (Henc & Hl & post & -> & ->); [|done].
  rewrite <-zlen_app. apply (IH _ post); [by rewrite app_assoc|by apply Forall_app in Hb as [_ ?]|].
  pose proof (tlv_length (tag r) (value r)). pose proof (zlen_nonneg (value r)).
  rewrite zlen_app in Hf. rewrite Henc in Hf. lia.
Qed.

Lemma unpad_no_panic data : forall n, (n <= length data)%nat -> no_panic (unpad_from data n).
Proof.
  induction n as [|i IH]; intros Hn; cbn [unpad_from]; [done|].
  apply bind_no_panic; [apply vec_index_no_panic; unfold zlen; lia|]. intros b _.
  destruct (b =? 0x80); [apply vec_slice_Ok_range; unfold zlen; lia|].
  destruct (negb (b =? 0)); [done|]. apply IH. lia.
Qed.

Lemma crypto_context_no_panic {A} ctx (c : res CryptoError A) : no_panic c -> no_panic (crypto_context ctx c).
Proof. by destruct c as [|[]|]. Qed.

Lemma tdes_decrypt_no_panic key iv ct : no_panic (tdes_cbc_decrypt key iv ct).
Proof. unfold tdes_cbc_decrypt, validate_tdes_params. solve_no_panic. Qed.

Lemma unprotect_no_panic s resp :
  session_ok s -> bytes_ok (resp_data resp) -> no_panic (unprotect_response s resp).
Proof.
  intros Hs Hb. unfold unprotect_response. pose proof (checked_next_ssc_spec (ssc s) (sess_ssc _ Hs)) as Hn.
  apply bind_no_panic; [auto with marty|intros _ _].
  apply bind_no_panic; [by destruct (checked_next_ssc (ssc s))|intros c Hc]. rewrite Hc in Hn.
  apply bind_no_panic; [|intros o Ho].
  { by apply (collect_objects_no_panic _ _ [] (resp_data resp)). }
  apply bind_no_panic; [auto with marty|intros do99 H99%ok_or_Ok].
  apply bind_no_panic; [auto with marty|intros rmac Hr].
  pose proof (collect_objects_inv (length (resp_data resp)) [] (resp_data resp) no_objects o Hb Ho)
    as (objs & Hdata & Hall).
  pose proof (collect_all_wf objs [] no_objects o ltac:(by split) Hall) as [H87 H99' _]. cbn [app] in *.
  rewrite Hdata in Hb.
  assert (bytes_ok (c ++ default [] (do87_bytes o) ++ do99)) as Hmacin.
  { apply Forall_app. split; [apply Hn|]. rewrite H99 in H99'. apply Forall_app. split.
    - destruct (do87_bytes o), (encrypted_data o); try done.
      destruct H87 as [-> Hin]. by eapply encode_objects_mem.
    - destruct (status o) as [[a b]|]; [|done]. destruct H99' as [-> Hin]. by eapply encode_objects_mem. }
  rewrite retail_mac_3des_value by (done || apply Hs). cbn [mbind res_bind].
  apply bind_no_panic; [auto with marty|intros _ _].
  apply bind_no_panic; [|intros plain _; solve_no_panic].
  destruct (encrypted_data o); [|done].
  apply bind_no_panic; [apply crypto_context_no_panic, tdes_decrypt_no_panic|].
  intros dec _. by apply unpad_no_panic.
Qed.

(** C31: a response is accepted only if it carries the retail MAC, under the
    session key, of the next counter, its encrypted data and its status; the
    data returned is the decryption of exactly that encrypted object with its
    padding removed, and the counter advances by one.  On any other input the
    result is an error, never a panic. *)
Theorem unprotect_response_sound (s : BacSession) (resp : ApduResponse) :
  session_ok s -> bytes_ok (resp_data resp) ->
  match unprotect_response s resp with
  | Ok (s', r) =>
      exists c, checked_next_ssc (ssc s) = Ok c /\ s' = mkSession (k_enc s) (k_mac s) c /\
        be_value c = be_value (ssc s) + 1 /\ authenticated s c (resp_data resp) r
  | Err _ => True
  | Panic => False
  end.
Proof.
  intros Hs Hb. pose proof (unprotect_no_panic s resp Hs Hb) as Hnp.
  destruct (unprotect_response s resp) as [[s' r]|e|] eqn:Hu; [|done..]. clear Hnp.
  unfold unprotect_response in Hu. apply bind_Ok in Hu as (_ & _ & Hu).
  apply bind_Ok in Hu as (c & Hc & Hu). apply bind_Ok in Hu as (o & Ho & Hu).
  apply bind_Ok in Hu as (do99 & H99%ok_or_Ok & Hu). apply bind_Ok in Hu as (rmac & Hr%ok_or_Ok & Hu).
  apply bind_Ok in Hu as (expected & Hexp & Hu). apply bind_Ok in Hu as (u & Heq%ensure_Ok & Hu).
  apply bind_Ok in Hu as (plain & Hplain & Hu). apply bind_Ok in Hu as ([a b] & Hst%ok_or_Ok & Hu).
  injection Hu as <- <-. exists c.
  pose proof (checked_next_ssc_spec (ssc s) (sess_ssc _ Hs)) as Hn. rewrite Hc in Hn.
  split; [done|]. split; [done|]. split; [apply Hn|].
  pose proof (collect_objects_inv (length (resp_data resp)) [] (resp_data resp) no_objects o Hb Ho)
    as (objs & Hdata & Hall).
  assert (objects_wf [] no_objects) as Hwf0 by (by split).
  pose proof (collect_all_wf objs [] no_objects o Hwf0 Hall) as [H87' H99' H8E']. cbn [app] in *.
  rewrite H99, Hst in H99'. destruct H99' as [-> Hin99].
  exists objs, (default [] (do87_bytes o)). cbn [sw1 sw2 resp_data].
  split; [done|]. split; [done|].
  rewrite Hdata in Hb. pose proof (H8E' rmac Hr) as Hin8E.
  assert (bytes_ok (c ++ default [] (do87_bytes o) ++ tlv 0x99 [a; b])) as Hmacin.
  { apply Forall_app. split; [apply Hn|]. apply Forall_app. split; [|by eapply encode_objects_mem].
    destruct (do87_bytes o), (encrypted_data o); try done.
    destruct H87' as [-> Hin]. by eapply encode_objects_mem. }
  rewrite retail_mac_3des_value in Hexp by (done || apply Hs). injection Hexp as <-.
  apply constant_time_eq_spec in Heq.
  - subst rmac. split; [done|]. destruct (do87_bytes o) as [e|], (encrypted_data o) as [ct|]; try done.
    + right. destruct H87' as [-> Hin]. apply bind_Ok in Hplain as (dec & Hdec & Hun).
      apply iso7816_unpad_spec in Hun as [k ->]. exists ct, k. split; [done|]. split; [done|].
      destruct (tdes_cbc_decrypt _ _ ct) as [x|[]|]; [|discriminate Hdec..].
      injection Hdec as ->. done.
    + left. injection Hplain as <-. done.
  - by apply mac_value_ok.
  - apply encode_objects_mem in Hin8E; [|done]. unfold tlv in Hin8E.
    apply Forall_cons in Hin8E as [_ Hin8E]. by apply Forall_app in Hin8E as [_ ?].
Qed.
End sm.

(** ** Concrete session *)
Definition sample_session : BacSession :=
  mkSession (take 16 sample_key24) (drop 8 sample_key24) [0; 0; 0; 0; 0; 0; 1; 255].

Lemma sample_session_ok : session_ok sample_session.
Proof. split; [reflexivity|reflexivity|bytes_literal]. Qed.

Definition sample_read : ApduCommand := mkCommand 0 0xB0 0x81 0x00 [1; 2; 3] (Some 256).

Lemma protect_command_correct_witness :
  exists s' pc, protect_command sample_session sample_read = Ok (s', pc) /\
    (exists c, checked_next_ssc (ssc sample_session) = Ok c /\
       s' = mkSession (k_enc sample_session) (k_mac sample_session) c /\
       pc = protected_command sample_session c sample_read /\ encodable pc).
Proof.
  assert (command_ok sample_read) as Hc.
  { split; [bytes_literal|]. split; [bytes_literal|]. intros v [= <-]. lia. }
  pose proof (protect_command_correct sample_session sample_read sample_session_ok Hc) as Hp.
  destruct (protect_command sample_session sample_read) as [[s' pc]|e|] eqn:Hr.
  - exists s', pc. split; [reflexivity|exact Hp].
  - exfalso. vm_compute in Hr. discriminate Hr.
  - contradiction.
Defined.

Lemma unprotect_response_complete_witness :
  unprotect_response sample_session
    (mkResponse (encode_objects (response_objects sample_session [0; 0; 0; 0; 0; 0; 2; 0] [9; 8; 7] 0x90 0)) 0x90 0)
  = Ok (mkSession (k_enc sample_session) (k_mac sample_session) [0; 0; 0; 0; 0; 0; 2; 0],
        mkResponse [9; 8; 7] 0x90 0).
Proof.
  apply (unprotect_response_complete sample_session [0; 0; 0; 0; 0; 0; 2; 0] [9; 8; 7] 0x90 0 0x90 0).
  - apply sample_session_ok.
  - bytes_literal.
  - unfold byte_ok; lia.
  - unfold byte_ok; lia.
  - reflexivity.
  - vm_compute. discriminate.
Defined.

Definition sample_protected : ApduResponse :=
  mkResponse (encode_objects (response_objects sample_session [0; 0; 0; 0; 0; 0; 2; 0] [9; 8; 7] 0x90 0)) 0x90 0.

Lemma unprotect_response_sound_witness :
  exists s' r, unprotect_response sample_session sample_protected = Ok (s', r) /\
    exists c, checked_next_ssc (ssc sample_session) = Ok c /\
      s' = mkSession (k_enc sample_session) (k_mac sample_session) c /\
      be_value c = be_value (ssc sample_session) + 1 /\
      authenticated sample_session c (resp_data sample_protected) r.
Proof.
  assert (bytes_ok (resp_data sample_protected)) as Hb.
  { unfold bytes_ok. apply (Forall_impl (fun b => (0 <=? b) && (b <? 256) = true)).
    - apply Forall_forall. intros x Hx. apply list_elem_of_In in Hx. revert x Hx. apply forallb_forall.
      vm_compute. reflexivity.
    - intros x Hx. breflect. unfold byte_ok. lia. }
  pose proof (unprotect_response_sound sample_session sample_protected sample_session_ok Hb) as Hp.
  destruct (unprotect_response sample_session sample_protected) as [[s' r]|e|] eqn:Hr.
  - exists s', r. split; [reflexivity|exact Hp].
  - exfalso. vm_compute in Hr. discriminate Hr.
  - contradiction.
Defined.
