(* ===== verification/BacFacts.v ===== *)
(** * Basic access control: properties

    The reader authenticates with a chip that is specified here from ICAO Doc
    9303-11 alone, with its own key derivation and its own reading of every
    command, and both end with the same session; a reader completes only
    against a response that reflects both challenges under the MAC key; and the
    key seed of the chip reader is the key-derivation string of the parsed
    zone. *)

From S2P Require Import Prelude RustStr Des DesFacts Apdu ApduFacts Mrz MrzFacts SecureMessaging TlvFacts SecureMessagingFacts.
Local Open Scope Z_scope.

(** ** The key-derivation string *)
Lemma mrz_check_digit_eq data :
  Forall (fun b => is_ascii_lowercase b = false) data -> mrz_check_digit data = compute_check_digit data.
Proof.
  intros Hd. unfold mrz_check_digit, compute_check_digit, WEIGHTS.
  rewrite (imap_ext _ (fun i c => wrap 32 (char_value c * [7; 3; 1] !!! (i `mod` 3)%nat))).
  - set (d := foldl _ _ _ mod 10). pose proof (Z.mod_pos_bound (foldl (fun acc v => wrap 32 (acc + v)) 0
      (imap (fun i c => wrap 32 (char_value c * [7; 3; 1] !!! (i `mod` 3)%nat)) data)) 10 ltac:(lia)) as Hm.
    fold d in Hm. unfold from_digit10. rewrite wrap8_small by lia. decide_tests. done.
  - intros i b Hb. rewrite Forall_lookup in Hd. specialize (Hd i b Hb). do 2 f_equal.
    unfold char_value. rewrite Hd. unfold filler.
    destruct (Z.eqb_spec b 60) as [->|Hne]; [done|].
    destruct (is_ascii_digit b), (is_ascii_uppercase b); done.
Qed.

Lemma forallb_bytes (p : Z -> bool) (s : list Z) : forallb p s = true -> Forall (fun b => p b = true) s.
Proof. intros Hf. rewrite forallb_forall in Hf. apply Forall_forall. intros b Hb. apply Hf. by apply list_elem_of_In. Qed.

Lemma as_bytes_high s : Forall (fun b => b < 128) (as_bytes s) -> Forall (fun c => 0 <= c) s -> as_bytes s = s.
Proof.
  unfold as_bytes. induction s as [|c s IH]; intros Hb Hs; [done|].
  rewrite fmap_cons in *. cbn [concat] in *. apply Forall_app in Hb as [Hc Hb].
  apply Forall_cons in Hs as [H0 Hs]. rewrite IH by done.
  unfold utf8_encode in *. destruct (Z.ltb_spec c 128); [done|]. exfalso.
  destruct (Z.ltb_spec c 2048); [|destruct (Z.ltb_spec c 65536)]; apply Forall_cons in Hc as [Hc _].
  - pose proof (Z.shiftr_nonneg c 6). lia.
  - pose proof (Z.shiftr_nonneg c 12). lia.
  - pose proof (Z.shiftr_nonneg c 18). lia.
Qed.

(** the key information that the chip reader builds from validated fields
    is, character for character, the key-derivation string that the zone
    parser computes from the same fields. *)
Theorem bac_key_info_matches_mrz (doc dob expiry : rstr) (info : MrzKeyInfo) :
  Forall (fun c => 0 <= c) (doc ++ dob ++ expiry) ->
  try_from_mrz_fields doc dob expiry = Ok info ->
  doc_number_with_check info ++ dob_with_check info ++ expiry_with_check info
  = compute_mrz_information doc dob expiry.
Proof.
  intros Hpos Ht. rewrite !Forall_app in Hpos. destruct Hpos as (Hp1 & Hp2 & Hp3).
  unfold try_from_mrz_fields in Ht. res_inv. breflect.
  assert (forall s, Forall (fun c => 0 <= c) s -> forallb is_ascii_digit (as_bytes s) = true ->
    as_bytes s = s /\ Forall (fun b => is_ascii_lowercase b = false) s) as Hdig.
  { intros s Hs Hf. apply forallb_bytes in Hf.
    assert (as_bytes s = s) as Heq.
    { apply as_bytes_high; [|done]. eapply Forall_impl; [exact Hf|]. unfold is_ascii_digit. intros b Hb. breflect. lia. }
    split; [done|]. rewrite Heq in Hf. eapply Forall_impl; [exact Hf|].
    unfold is_ascii_digit, is_ascii_lowercase. intros b Hb. breflect. apply andb_false_iff. left. apply Z.leb_gt. lia. }
  rename select (forallb (fun b => is_ascii_uppercase b || _ || _) _ = true) into Hdoc.
  apply forallb_bytes in Hdoc.
  assert (as_bytes doc = doc) as Hbd.
  { apply as_bytes_high; [|done]. eapply Forall_impl; [exact Hdoc|].
    unfold is_ascii_digit, is_ascii_uppercase. intros b Hb.
    apply orb_prop in Hb as [Hb|Hb]; [apply orb_prop in Hb as [Hb|Hb]|]; breflect; lia. }
  destruct (Hdig dob) as [Hb2 Hl2]; [done..|]. destruct (Hdig expiry) as [Hb3 Hl3]; [done..|].
  unfold compute_mrz_information. cbn [doc_number_with_check dob_with_check expiry_with_check].
  assert (Forall (fun b => is_ascii_lowercase b = false) doc /\ replace_char 32 filler (pad_right 9 doc) = doc) as [Hl1 Hpad].
  { rewrite Hbd in Hdoc. split.
    - eapply Forall_impl; [exact Hdoc|]. unfold is_ascii_digit, is_ascii_uppercase, is_ascii_lowercase.
      intros b Hb. apply andb_false_iff. left. apply Z.leb_gt.
      apply orb_prop in Hb as [Hb|Hb]; [apply orb_prop in Hb as [Hb|Hb]|]; breflect; lia.
    - rewrite pad_filler.
      + unfold str_len in *. rewrite Hbd in *. unfold zlen in *.
        replace (9 - length doc)%nat with 0%nat by lia. by rewrite app_nil_r.
      + unfold str_len in *. rewrite Hbd in *. unfold zlen in *. lia.
      + eapply Forall_impl; [exact Hdoc|]. intros b Hb. unfold mrz_char, filler, is_ascii_alphanumeric.
        apply orb_prop in Hb as [Hb|Hb]; [right|left; by apply Z.eqb_eq].
        apply orb_prop in Hb as [->| ->]; by rewrite ?orb_true_r. }
  rewrite Hpad, Hbd, Hb2, Hb3, !mrz_check_digit_eq by done. by rewrite <-!app_assoc.
Qed.

Lemma bac_key_info_matches_mrz_witness :
  exists info, try_from_mrz_fields (lit "L898902C<") (lit "690806") (lit "940623") = Ok info /\
    doc_number_with_check info ++ dob_with_check info ++ expiry_with_check info
    = compute_mrz_information (lit "L898902C<") (lit "690806") (lit "940623").
Proof.
  destruct (try_from_mrz_fields (lit "L898902C<") (lit "690806") (lit "940623")) as [info| |] eqn:Hi;
    [|vm_compute in Hi; discriminate Hi..].
  exists info. split; [reflexivity|].
  apply (bac_key_info_matches_mrz (lit "L898902C<") (lit "690806") (lit "940623")); [|exact Hi].
  vm_compute. repeat (apply Forall_cons_2; [discriminate|]). apply Forall_nil_2.
Defined.

(** ** The handshake *)
Section handshake.
Context `{TdesLaws, Sha1Laws}.

Definition keys_ok (k : BacKeys) : Prop :=
  length (keys_enc k) = 16%nat /\ length (keys_mac k) = 16%nat.

Record handshake_ok (hs : BacHandshake) : Prop := {
  hs_keys : keys_ok (base_keys hs);
  hs_ifd : length (rnd_ifd hs) = 8%nat /\ bytes_ok (rnd_ifd hs);
  hs_ic : length (rnd_ic hs) = 8%nat /\ bytes_ok (rnd_ic hs);
  hs_kifd : length (k_ifd hs) = 16%nat /\ bytes_ok (k_ifd hs);
}.

(** *** The chip of ICAO Doc 9303-11

    Section 9.7.1 and appendix D: K.Seed is the first half of the SHA-1 of the
    MRZ information, a key is the first 16 bytes of SHA-1 of seed and 32-bit
    counter with every byte made odd, encryption is two-key triple DES in CBC
    mode with a zero vector, and the MAC is ISO 9797-1 algorithm 3.  Nothing of
    the reader is used. *)
Definition odd_byte (b : Z) : Z :=
  2 * (b / 2)
  + (1 - (b / 2 + b / 4 + b / 8 + b / 16 + b / 32 + b / 64 + b / 128) mod 2).

Definition icao_kdf (seed : list Z) (counter : Z) : list Z :=
  odd_byte <$> take 16 (sha1 (seed ++ [0; 0; 0; counter])).

Definition two_key (k : list Z) : list Z := take 8 k ++ take 8 (drop 8 k) ++ take 8 k.

(** The access keys of a chip whose data page has the MRZ information [m]. *)
Definition icao_k_enc (m : list Z) : list Z := icao_kdf (take 16 (sha1 m)) 1.
Definition icao_k_mac (m : list Z) : list Z := icao_kdf (take 16 (sha1 m)) 2.

(** The session keys and the initial counter: the low halves of RND.IC and
    RND.IFD. *)
Definition icao_session (k_ifd k_ic ic ifd : list Z) : BacSession :=
  let seed := zip_with Z.lxor k_ifd k_ic in
  mkSession (icao_kdf seed 1) (icao_kdf seed 2) (sub 4 8 ic ++ sub 4 8 ifd).

Inductive ChipPhase := Powered | Selected | Challenged | Authenticated (session : BacSession).

Record IcaoChip := mkChip {
  chip_mrz : list Z;
  chip_rnd : list Z;
  chip_key : list Z;
  chip_phase : ChipPhase;
}.

Definition at_phase (c : IcaoChip) (ph : ChipPhase) : IcaoChip :=
  mkChip (chip_mrz c) (chip_rnd c) (chip_key c) ph.

(** EXTERNAL AUTHENTICATE: the chip checks the MAC of the cryptogram and its own
    challenge in it, and answers with a cryptogram of its own. *)
Definition icao_authenticate (c : IcaoChip) (data : list Z) : option (list Z * BacSession) :=
  let e_ifd := take 32 data in
  let plain := cbc_decrypt (two_key (icao_k_enc (chip_mrz c))) (replicate 8 0) e_ifd in
  let ifd := sub 0 8 plain in
  if decide (length data = 40%nat /\ drop 32 data = mac_value (icao_k_mac (chip_mrz c)) e_ifd /\
             sub 8 16 plain = chip_rnd c) then
    let e_ic := cbc_encrypt (two_key (icao_k_enc (chip_mrz c))) (replicate 8 0)
                  (chip_rnd c ++ ifd ++ chip_key c) in
    Some (e_ic ++ mac_value (icao_k_mac (chip_mrz c)) e_ic,
          icao_session (sub 16 32 plain) (chip_key c) (chip_rnd c) ifd)
  else None.

(** The chip's answer to any command: the three of the protocol in their order,
    and an error status for everything else. *)
Definition icao_answer (c : IcaoChip) (cmd : ApduCommand) : IcaoChip * ApduResponse :=
  match chip_phase c with
  | Powered =>
      if decide (cla cmd = 0x00 /\ ins cmd = 0xA4 /\ p1 cmd = 0x04 /\ p2 cmd = 0x0C /\
                 cmd_data cmd = [0xA0; 0x00; 0x00; 0x02; 0x47; 0x10; 0x01])
      then (at_phase c Selected, mkResponse [] 0x90 0x00)
      else (c, mkResponse [] 0x6A 0x82)
  | Selected =>
      if decide (cla cmd = 0x00 /\ ins cmd = 0x84 /\ p1 cmd = 0x00 /\ p2 cmd = 0x00 /\
                 cmd_data cmd = [] /\ cmd_le cmd = Some 8)
      then (at_phase c Challenged, mkResponse (chip_rnd c) 0x90 0x00)
      else (c, mkResponse [] 0x69 0x82)
  | Challenged =>
      if decide (cla cmd = 0x00 /\ ins cmd = 0x82 /\ p1 cmd = 0x00 /\ p2 cmd = 0x00 /\
                 cmd_le cmd = Some 40)
      then match icao_authenticate c (cmd_data cmd) with
           | Some (answer, sess) => (at_phase c (Authenticated sess), mkResponse answer 0x90 0x00)
           | None => (at_phase c Selected, mkResponse [] 0x63 0x00)
           end
      else (at_phase c Selected, mkResponse [] 0x69 0x82)
  | Authenticated _ => (c, mkResponse [] 0x69 0x82)
  end.

#[export] Instance icao_chip : PassportChip IcaoChip :=
  fun c cmd => let '(c, r) := icao_answer c cmd in (c, Ok r).

(** *** The reader's derivations against the specification *)

Lemma odd_byte_parity b : byte_ok b ->
  (if count_ones b mod 2 =? 0 then Z.lxor b 1 else b) = odd_byte b.
Proof.
  intros Hb. assert (Hall : forallb (fun n => let b := Z.of_nat n in
    (if count_ones b mod 2 =? 0 then Z.lxor b 1 else b) =? odd_byte b) (seq 0 256) = true)
    by (vm_compute; reflexivity).
  rewrite forallb_forall in Hall. specialize (Hall (Z.to_nat b)). unfold byte_ok in Hb.
  rewrite Z2Nat.id in Hall by lia. apply Z.eqb_eq, Hall, in_seq. lia.
Qed.

Lemma bac_kdf_spec seed n : bac_kdf_16 seed n = Ok (icao_kdf seed n).
Proof.
  unfold bac_kdf_16, icao_kdf. destruct (sha1_digest (seed ++ [0; 0; 0; n])) as [Hl Hb].
  set (h := sha1 _) in *.
  rewrite (vec_slice_at h [] (take 16 h) (drop 16 h)); [|by rewrite take_drop|done|].
  - cbn [mbind res_bind]. f_equal. unfold adjust_des_parity. apply Forall_fmap_ext_1.
    eapply Forall_impl; [exact (Forall_take _ 16 _ Hb)|]. apply odd_byte_parity.
  - lens. unfold zlen. lia.
Qed.

Lemma icao_kdf_length seed n : length (icao_kdf seed n) = 16%nat.
Proof.
  unfold icao_kdf. destruct (sha1_digest (seed ++ [0; 0; 0; n])) as [Hl _].
  rewrite length_fmap, length_take. lia.
Qed.

Lemma two_key_extend k : length k = 16%nat -> two_key k = extend_to_24_bytes k.
Proof.
  intros Hk. unfold two_key, extend_to_24_bytes. do 2 f_equal.
  apply take_ge. rewrite length_drop. lia.
Qed.

Lemma base_keys_spec mrz :
  let m := doc_number_with_check mrz ++ dob_with_check mrz ++ expiry_with_check mrz in
  str_len m = 24 ->
  derive_bac_base_keys_inner mrz = Ok (mkKeys (icao_k_enc (as_bytes m)) (icao_k_mac (as_bytes m))).
Proof.
  intros m Hm. unfold derive_bac_base_keys_inner. fold m. rewrite Hm.
  cbn [Z.eqb Pos.eqb ensure mbind res_bind]. destruct (sha1_digest (as_bytes m)) as [Hl _].
  set (h := sha1 (as_bytes m)) in *.
  rewrite (vec_slice_at h [] (take 16 h) (drop 16 h)); [|by rewrite take_drop|done|lens; unfold zlen; lia].
  cbn [mbind res_bind]. by rewrite !bac_kdf_spec.
Qed.

Lemma session_keys_spec ki kc ic ifd :
  length ki = 16%nat -> length kc = 16%nat -> length ic = 8%nat -> length ifd = 8%nat ->
  derive_bac_session_keys_inner ki kc ic ifd = Ok (icao_session ki kc ic ifd).
Proof.
  intros Hki Hkc Hic Hifd. unfold derive_bac_session_keys_inner, try_array, icao_session.
  rewrite !bool_decide_eq_true_2 by done. cbn [ensure mbind res_bind].
  rewrite !bac_kdf_spec. cbn [mbind res_bind]. unfold sub, xor_bytes.
  rewrite !(take_ge (drop 4 _)); [done|rewrite length_drop; simpl; lia..].
Qed.

(** Encrypt and MAC 32 bytes, as both sides do. *)
Lemma sealed_block keys p :
  keys_ok keys -> bytes_ok p -> length p = 32%nat ->
  exists e, tdes_cbc_encrypt (extend_to_24_bytes (keys_enc keys)) zero_iv p = Ok e /\
    length e = 32%nat /\ bytes_ok e /\
    tdes_cbc_decrypt (extend_to_24_bytes (keys_enc keys)) zero_iv e = Ok p /\
    length (mac_value (keys_mac keys) e) = 8%nat /\
    cbc_encrypt (two_key (keys_enc keys)) (replicate 8 0) p = e /\
    cbc_decrypt (two_key (keys_enc keys)) (replicate 8 0) e = p.
Proof.
  intros [He Hm] Hp Hl.
  destruct (tdes_cbc_roundtrip_bytes (extend_to_24_bytes (keys_enc keys)) zero_iv p) as (e & Henc & Hle & Hb & Hdec).
  - by apply extend_24_length.
  - apply zero_iv_ok.
  - done.
  - by intros ->.
  - unfold zlen. by rewrite Hl.
  - exists e. split; [done|]. split; [unfold zlen in Hle; lia|]. split; [done|]. split; [done|].
    split; [by apply mac_value_ok|]. rewrite two_key_extend by done. change (replicate 8 0) with zero_iv.
    unfold tdes_cbc_encrypt, tdes_cbc_decrypt in *.
    apply bind_Ok in Henc as (_ & _ & [= Henc]). by apply bind_Ok in Hdec as (_ & _ & [= Hdec]).
Qed.

Lemma sub3 (a b c : list Z) : length a = 8%nat -> length b = 8%nat -> length c = 16%nat ->
  sub 0 8 (a ++ b ++ c) = a /\ sub 8 16 (a ++ b ++ c) = b /\ sub 16 32 (a ++ b ++ c) = c.
Proof.
  intros Ha Hb Hc. repeat split.
  - unfold sub. rewrite drop_0. by apply take_app_length'.
  - rewrite sub_app_skip by lia. rewrite Ha. unfold sub. rewrite drop_0. by apply take_app_length'.
  - rewrite sub_app_skip by lia. rewrite sub_app_skip by lia. rewrite Ha, Hb.
    apply sub_whole. rewrite Hc. simpl. lia.
Qed.

Lemma slices3 (a b c : list Z) : length a = 8%nat -> length b = 8%nat -> length c = 16%nat ->
  vec_slice (E:=VerificationError) (a ++ b ++ c) 0 8 = Ok a /\
  vec_slice (E:=VerificationError) (a ++ b ++ c) 8 16 = Ok b /\
  vec_slice (E:=VerificationError) (a ++ b ++ c) 16 32 = Ok c.
Proof.
  intros Ha Hb Hc. repeat split.
  - apply (vec_slice_at _ [] a (b ++ c)); [done|done|]. lens. unfold zlen. lia.
  - apply (vec_slice_at _ a b c); [done|unfold zlen; lia|unfold zlen; lia].
  - apply (vec_slice_at _ (a ++ b) c []); [by rewrite app_nil_r, <-app_assoc| |]; lens; unfold zlen; lia.
Qed.

(** The chip accepts the reader's data, and the reader its answer. *)
Lemma handshake_agree hs chip :
  handshake_ok hs -> base_keys hs = mkKeys (icao_k_enc (chip_mrz chip)) (icao_k_mac (chip_mrz chip)) ->
  chip_rnd chip = rnd_ic hs -> length (chip_key chip) = 16%nat -> bytes_ok (chip_key chip) ->
  let sess := icao_session (k_ifd hs) (chip_key chip) (rnd_ic hs) (rnd_ifd hs) in
  exists cmd resp, command_data hs = Ok cmd /\ icao_authenticate chip cmd = Some (resp, sess) /\
    zlen resp = 40 /\ handshake_complete hs resp = Ok sess.
Proof.
  intros [Hk [Hi Hib] [Hc Hcb] [Hki Hkib]] Hkeys Hrnd Hkc Hkcb sess.
  destruct (sealed_block (base_keys hs) (rnd_ifd hs ++ rnd_ic hs ++ k_ifd hs))
    as (e1 & He1 & Hl1 & Hb1 & _ & Hm1 & _ & Hp1).
  { done. } { by repeat (apply Forall_app; split). } { rewrite !length_app. lia. }
  destruct (sealed_block (base_keys hs) (rnd_ic hs ++ rnd_ifd hs ++ chip_key chip))
    as (e2 & _ & Hl2 & Hb2 & Hd2 & Hm2 & Hp2 & _).
  { done. } { by repeat (apply Forall_app; split). } { rewrite !length_app. lia. }
  exists (e1 ++ mac_value (keys_mac (base_keys hs)) e1), (e2 ++ mac_value (keys_mac (base_keys hs)) e2).
  destruct Hk as [Hke Hkm]. split.
  { unfold command_data. change icao_3des_cbc_iv with zero_iv. rewrite He1.
    cbn [crypto_context map_err mbind res_bind]. by rewrite retail_mac_3des_value. }
  split.
  { unfold icao_authenticate. rewrite take_app_length', drop_app_length' by done.
    rewrite Hkeys in *. cbn [keys_enc keys_mac] in *. rewrite Hp1, Hrnd.
    destruct (sub3 (rnd_ifd hs) (rnd_ic hs) (k_ifd hs)) as (-> & -> & ->); [done..|].
    rewrite decide_True by (split_and!; [rewrite length_app; lia|done..]). by rewrite Hp2. }
  split; [unfold zlen; rewrite length_app; lia|].
  unfold handshake_complete. set (mac2 := mac_value _ e2) in *.
  assert (zlen (e2 ++ mac2) = 40) as Hz by (unfold zlen; rewrite length_app; lia).
  rewrite Hz. cbn [Z.eqb Pos.eqb ensure mbind res_bind].
  rewrite (vec_slice_at _ [] e2 mac2 0 32); [|done|done|lens; unfold zlen; lia]. cbn [mbind res_bind].
  rewrite (vec_slice_at _ e2 mac2 [] 32 40); [|by rewrite app_nil_r|unfold zlen; lia|unfold zlen; lia]. cbn [mbind res_bind].
  rewrite retail_mac_3des_value by done. fold mac2. cbn [mbind res_bind].
  destruct (mac_value_ok (keys_mac (base_keys hs)) e2 Hb2) as [_ Hmb]. fold mac2 in Hmb.
  rewrite (proj2 (constant_time_eq_spec _ _ Hmb Hmb)) by done. cbn [ensure mbind res_bind].
  change icao_3des_cbc_iv with zero_iv. rewrite Hd2. cbn [crypto_context map_err mbind res_bind].
  destruct (slices3 (rnd_ic hs) (rnd_ifd hs) (chip_key chip)) as (-> & -> & ->); [done..|].
  cbn [mbind res_bind]. rewrite !bool_decide_eq_true_2 by done. cbn [ensure mbind res_bind].
  by apply session_keys_spec.
Qed.

(** What a completed handshake proves of the chip's response. *)
Definition reflects (hs : BacHandshake) (resp : list Z) (sess : BacSession) : Prop :=
  exists k_ic,
    length resp = 40%nat /\ drop 32 resp = mac_value (keys_mac (base_keys hs)) (take 32 resp) /\
    tdes_cbc_decrypt (extend_to_24_bytes (keys_enc (base_keys hs))) icao_3des_cbc_iv (take 32 resp)
    = Ok (rnd_ic hs ++ rnd_ifd hs ++ k_ic) /\
    derive_bac_session_keys_inner (k_ifd hs) k_ic (rnd_ic hs) (rnd_ifd hs) = Ok sess.

Lemma get_range_value {A} (l : list A) a b s :
  get_range l a b = Some s -> s = take (Z.to_nat (b - a)) (drop (Z.to_nat a) l).
Proof. unfold get_range. case_match; congruence. Qed.

Lemma cbc_decrypt_length key iv bs : forall c,
  block_ok iv -> blocks_of bs c -> zlen (cbc_decrypt key iv c) = zlen c.
Proof.
  revert iv. induction bs as [|b bs IH]; intros iv c Hiv [-> Hbs].
  { simpl. by rewrite cbc_decrypt_nil. }
  apply Forall_cons in Hbs as [Hb Hbs]. cbn [concat]. rewrite cbc_decrypt_block by done.
  rewrite !zlen_app. rewrite (IH b) by done. f_equal.
  unfold zlen. f_equal. rewrite xor_length.
  - destruct Hiv, Hb; congruence.
  - destruct Hiv as [Hiv _].
    assert (block_ok (tdes_block_inv key b)) as [Hl _] by (by apply des_decrypt_ok, des_encrypt_ok, des_decrypt_ok).
    congruence.
Qed.

Lemma complete_reflects hs resp sess :
  handshake_ok hs -> bytes_ok resp -> handshake_complete hs resp = Ok sess -> reflects hs resp sess.
Proof.
  intros [[Hke Hkm] _ _ _] Hb Hc. unfold handshake_complete in Hc.
  apply bind_Ok in Hc as (u & Hlen%ensure_Ok & Hc). breflect.
  assert (length resp = 40%nat) as Hl by (unfold zlen in Hlen; lia).
  rewrite Hlen in Hc.
  rewrite (vec_slice_at resp [] (take 32 resp) (drop 32 resp) 0 32) in Hc;
    [|by rewrite take_drop|done|lens; unfold zlen; lia].
  cbn [mbind res_bind] in Hc.
  rewrite (vec_slice_at resp (take 32 resp) (drop 32 resp) [] 32 40) in Hc;
    [|by rewrite app_nil_r, take_drop|unfold zlen; rewrite length_take; lia|
     unfold zlen; rewrite length_take, length_drop; lia].
  cbn [mbind res_bind] in Hc.
  assert (bytes_ok (take 32 resp)) as Hbt by (by apply Forall_take).
  rewrite retail_mac_3des_value in Hc by done. cbn [mbind res_bind] in Hc.
  apply bind_Ok in Hc as ([] & Hmac%ensure_Ok & Hc).
  apply constant_time_eq_spec in Hmac; [|by apply mac_value_ok|by apply Forall_drop].
  apply bind_Ok in Hc as (plain & Hplain & Hc). apply bind_Ok in Hc as (ric & Hric & Hc).
  apply bind_Ok in Hc as ([] & Hic%ensure_Ok & Hc). apply bind_Ok in Hc as (rifd & Hrifd & Hc).
  apply bind_Ok in Hc as ([] & Hifd%ensure_Ok & Hc). apply bind_Ok in Hc as (k_ic & Hk & Hc). breflect. subst.
  exists k_ic. split; [done|]. split; [done|]. split; [|done].
  destruct (tdes_cbc_decrypt _ _ _) as [p|[]|] eqn:Hdec; [|discriminate Hplain..]. injection Hplain as <-.
  f_equal. unfold tdes_cbc_decrypt in Hdec. apply bind_Ok in Hdec as (_ & _ & Hdec). injection Hdec as <-.
  set (p := cbc_decrypt _ _ _) in *.
  assert (zlen p = 32) as Hlp.
  { destruct (blocks_exist (take 32 resp) Hbt) as (bs & Hbs).
    { lens. unfold zlen. rewrite Hl. done. }
    unfold p. rewrite (cbc_decrypt_length _ _ bs); [lens; unfold zlen; rewrite Hl; done|apply zero_iv_ok|done]. }
  unfold vec_slice in *. rewrite expect_Ok in Hric, Hrifd, Hk.
  apply get_range_value in Hric, Hrifd, Hk. rewrite Hric, Hrifd, Hk. symmetry.
  change (Z.to_nat (8 - 0)) with 8%nat. change (Z.to_nat (16 - 8)) with 8%nat.
  change (Z.to_nat (32 - 16)) with 16%nat. change (Z.to_nat 0) with 0%nat.
  change (Z.to_nat 8) with 8%nat. change (Z.to_nat 16) with 16%nat. rewrite drop_0.
  rewrite <-(take_drop 8 p) at 4. f_equal. rewrite <-(take_drop 8 (drop 8 p)) at 2. f_equal.
  rewrite drop_drop. change (8 + 8)%nat with 16%nat. apply take_ge. rewrite length_drop. unfold zlen in Hlp. lia.
Qed.

(** C33: A reader that runs [establish] with the MRZ information of the chip's own data
    page, against a chip that follows ICAO Doc 9303-11, is answered to each of
    its three commands and ends with a session; the chip ends authenticated,
    and the two sessions are the same: keys derived from both parties' key
    material, the encryption key first, and the counter made of the low halves
    of the chip's and then the reader's challenge. *)
Theorem bac_mutual_agreement (mrz : MrzKeyInfo) (chip : IcaoChip) (ifd ki : list Z) :
  let m := doc_number_with_check mrz ++ dob_with_check mrz ++ expiry_with_check mrz in
  str_len m = 24 -> chip_mrz chip = as_bytes m -> chip_phase chip = Powered ->
  block_ok (chip_rnd chip) -> length (chip_key chip) = 16%nat -> bytes_ok (chip_key chip) ->
  block_ok ifd -> length ki = 16%nat -> bytes_ok ki ->
  let sess := icao_session ki (chip_key chip) (chip_rnd chip) ifd in
  establish chip mrz ifd ki = (at_phase chip (Authenticated sess), Ok sess).
Proof.
  intros m Hm Hmrz Hph [Hic Hicb] Hkc Hkcb [Hifd Hifdb] Hki Hkib sess.
  pose proof (base_keys_spec mrz Hm) as Hkeys. fold m in Hkeys. rewrite <- Hmrz in Hkeys.
  set (keys := mkKeys _ _) in Hkeys.
  set (hs := mkHandshake keys ifd ki (chip_rnd chip)).
  destruct (handshake_agree hs (at_phase chip Challenged)) as (cmd & resp & Hcmd & Hcard & Hrl & Hcomp);
    [split; [split; apply icao_kdf_length|done..]|done..|].
  unfold establish, transceive, icao_chip, icao_answer at 1. rewrite Hph.
  cbn [cla ins p1 p2 cmd_data cmd_le]. rewrite decide_True by done.
  change (is_success (mkResponse ?d 0x90 0)) with true. cbn [negb orb resp_data].
  unfold icao_answer at 1. cbn [at_phase chip_phase chip_rnd cla ins p1 p2 cmd_data cmd_le].
  rewrite decide_True by done. change (is_success (mkResponse ?d 0x90 0)) with true.
  cbn [negb orb resp_data]. assert ((zlen (chip_rnd chip) =? 8) = true) as ->
    by (unfold zlen; by rewrite Hic). cbn [negb].
  unfold handshake_begin, try_array. rewrite bool_decide_eq_true_2 by done.
  cbn [ensure mbind res_bind]. rewrite Hkeys. cbn [mbind res_bind]. fold hs. rewrite Hcmd.
  cbn [mbind res_bind]. unfold icao_answer, at_phase in *.
  cbn [chip_phase chip_mrz chip_rnd chip_key cla ins p1 p2 cmd_data cmd_le] in *.
  rewrite decide_True by done. rewrite Hcard. change (is_success (mkResponse ?d 0x90 0)) with true. cbn [negb resp_data].
  rewrite Hrl. cbn [Z.eqb Pos.eqb negb]. by rewrite Hcomp.
Qed.

(** the reader completes the handshake only against a response that carries
    a valid retail MAC under the base key and decrypts to both challenges, and
    the session is then derived from the chip's key material in it. *)
Theorem bac_complete_sound (hs : BacHandshake) (resp : list Z) (sess : BacSession) :
  handshake_ok hs -> bytes_ok resp -> handshake_complete hs resp = Ok sess -> reflects hs resp sess.
Proof. apply complete_reflects. Qed.
End handshake.

(** ** Concrete run *)
#[export] Instance toy_sha1 : Sha1 := fun m => replicate 20 (wrap 8 (foldr Z.add 0 m)).

#[export] Instance toy_sha1_laws : Sha1Laws.
Proof. intros m. split; [done|]. apply Forall_replicate. apply wrap8_byte_ok. Qed.

Definition sample_key_info : MrzKeyInfo :=
  mkKeyInfo (lit "L898902C<3") (lit "6908061") (lit "9406236").
Definition sample_ifd : list Z := [1; 2; 3; 4; 5; 6; 7; 8].
Definition sample_ic : list Z := [11; 12; 13; 14; 15; 16; 17; 18].
Definition sample_kifd : list Z := sample_ifd ++ sample_ic.
Definition sample_kic : list Z := sample_ic ++ sample_ic.

Lemma sample_bytes : bytes_ok sample_ifd /\ bytes_ok sample_ic.
Proof. split; bytes_literal. Qed.

Definition sample_chip : IcaoChip :=
  mkChip (as_bytes (lit "L898902C<369080619406236")) sample_ic sample_kic Powered.

Lemma bac_mutual_agreement_witness :
  let sess := icao_session sample_kifd sample_kic sample_ic sample_ifd in
  ssc sess = [15; 16; 17; 18; 5; 6; 7; 8] /\
  establish sample_chip sample_key_info sample_ifd sample_kifd
  = (at_phase sample_chip (Authenticated sess), Ok sess).
Proof.
  split; [reflexivity|]. destruct sample_bytes as [Hb1 Hb2].
  apply (bac_mutual_agreement sample_key_info sample_chip sample_ifd sample_kifd);
    try (vm_compute; reflexivity); try (split; [reflexivity|assumption]); by apply Forall_app.
Defined.

(** A reader with another document's data is refused. *)
Example bac_wrong_document :
  exists e, (establish sample_chip (mkKeyInfo (lit "L898902C<3") (lit "6908061") (lit "9406237"))
               sample_ifd sample_kifd).2 = Err e.
Proof. vm_compute. eauto. Qed.

Definition sample_handshake : BacHandshake :=
  mkHandshake (mkKeys (take 16 sample_key24) (drop 8 sample_key24)) sample_ifd sample_kifd sample_ic.

Definition sample_auth_response : list Z :=
  let c := cbc_encrypt (extend_to_24_bytes (take 16 sample_key24)) zero_iv (sample_ic ++ sample_ifd ++ sample_kic) in
  c ++ mac_value (drop 8 sample_key24) c.

Lemma bac_complete_sound_witness :
  exists sess, handshake_complete sample_handshake sample_auth_response = Ok sess /\
               reflects sample_handshake sample_auth_response sess.
Proof.
  destruct (handshake_complete sample_handshake sample_auth_response) as [sess| |] eqn:Hc;
    [|vm_compute in Hc; discriminate Hc..].
  exists sess. split; [reflexivity|]. destruct sample_bytes as [H1 H2].
  apply (bac_complete_sound sample_handshake sample_auth_response sess); [| |exact Hc].
  - split; (split; [reflexivity|]); try assumption; [reflexivity|by apply Forall_app].
  - unfold bytes_ok. apply (Forall_impl (fun b => (0 <=? b) && (b <? 256) = true)).
    + apply Forall_forall. intros x Hx. apply list_elem_of_In in Hx. revert x Hx. apply forallb_forall.
      vm_compute. reflexivity.
    + intros x Hx. breflect. unfold byte_ok. lia.
Defined.
