(* ===== verification/Governance.v ===== *)
(** * Verification governance (marty-verification, [governance.rs])

    Canonical JSON and its digest, validation of the governance document,
    authorization by API key, and revalidation of a persisted snapshot.
    Strings are byte strings.  [serde_json] (deserialization, the text of
    scalars), SHA-256 and the [uuid] parser are parameters. *)

From S2P Require Import Prelude.
From stdpp Require Import pretty sorting.
Local Open Scope Z_scope.

(** Errors of this module are strings. *)
#[local] Abbreviation result := (res string).

(** [src/marty-verification/src/governance.rs:12-16] purposes and component ids *)
Definition CREDENTIALS_COMPONENT_ID : string := "marty-credentials".
Definition VERIFICATION_ADAPTER_ID : string := "verification-service".
Definition SESSION_CREATE_PURPOSE : string := "verification.session.create".
Definition DIRECT_VERIFY_PURPOSE : string := "verification.direct".
Definition VDS_NC_VERIFY_PURPOSE : string := "verification.vds-nc".

(** [src/marty-verification/src/governance.rs:18-27] ALL_PRESENTATION_CHECKS *)
Definition ALL_PRESENTATION_CHECKS : list string :=
  ["presentation.structure"; "presentation.proof"; "credential.proof"; "issuer.trust";
   "credential.status"; "holder.binding"; "transaction.binding"; "claim.constraints"].

(** [src/marty-verification/src/governance.rs:28-28] VDS_CHECKS *)
Definition VDS_CHECKS : list string := ["credential.proof"; "issuer.trust"].

(** [src/marty-verification/src/governance.rs:30-36] ProfileReference *)
Record ProfileReference := mkProfile {
  ref_id : string;
  ref_version : string;
  ref_content_digest : string;
}.

(** [src/marty-verification/src/governance.rs:38-46] ComponentReference *)
Record ComponentReference := mkComponent {
  component_id : string;
  component_version : string;
  artifact_digest : string;
  adapter_id : string;
  adapter_version : string;
}.

(** [src/marty-verification/src/governance.rs:48-54] PolicyContent *)
Record PolicyContent := mkPolicyContent {
  verifier_id : string;
  presentation_definition_digest : string;
  required_checks_of : list string;
}.

(** [src/marty-verification/src/governance.rs:56-61] TrustContent *)
Record TrustContent := mkTrustContent {
  trusted_issuers : list string;
  allow_public_did_fallback : bool;
}.

(** [src/marty-verification/src/governance.rs:63-71] PolicyDocument *)
Record PolicyDocument := mkPolicy {
  policy_organization_id : string;
  policy_doc_id : string;
  policy_version : string;
  policy_content_digest : string;
  policy_content : PolicyContent;
}.

(** [src/marty-verification/src/governance.rs:73-81] TrustDocument *)
Record TrustDocument := mkTrust {
  trust_organization_id : string;
  trust_doc_id : string;
  trust_version : string;
  trust_content_digest : string;
  trust_content : TrustContent;
}.

(** [src/marty-verification/src/governance.rs:83-88] PurposeAuthorization *)
Record PurposeAuthorization := mkAuthorization {
  auth_policy_id : string;
  auth_trust_profile_id : string;
}.

(** [src/marty-verification/src/governance.rs:90-97] ClientAuthorization; [purposes] in key order *)
Record ClientAuthorization := mkClient {
  client_id : string;
  api_key_sha256 : string;
  client_organization_id : string;
  purposes : list (string * PurposeAuthorization);
}.

(** [src/marty-verification/src/governance.rs:99-106] GovernanceDocument *)
Record GovernanceDocument := mkGovernance {
  gov_component : ComponentReference;
  policies : list PolicyDocument;
  trust_profiles : list TrustDocument;
  clients : list ClientAuthorization;
}.

(** [src/marty-verification/src/governance.rs:108-114] SnapshotPolicy *)
Record SnapshotPolicy := mkSnapshotPolicy {
  sp_reference : ProfileReference;
  sp_content : PolicyContent;
}.

(** [src/marty-verification/src/governance.rs:116-122] SnapshotTrustProfile *)
Record SnapshotTrustProfile := mkSnapshotTrust {
  st_reference : ProfileReference;
  st_content : TrustContent;
}.

(** [src/marty-verification/src/governance.rs:124-133] GovernanceSnapshot *)
Record GovernanceSnapshot := mkSnapshot {
  snap_client_id : string;
  snap_purpose : string;
  snap_organization_id : string;
  snap_policy : SnapshotPolicy;
  snap_trust_profile : SnapshotTrustProfile;
  snap_component : ComponentReference;
}.

#[export] Instance ProfileReference_eq_dec : EqDecision ProfileReference.
Proof. solve_decision. Defined.
#[export] Instance PolicyContent_eq_dec : EqDecision PolicyContent.
Proof. solve_decision. Defined.
#[export] Instance TrustContent_eq_dec : EqDecision TrustContent.
Proof. solve_decision. Defined.
#[export] Instance SnapshotPolicy_eq_dec : EqDecision SnapshotPolicy.
Proof. solve_decision. Defined.
#[export] Instance SnapshotTrustProfile_eq_dec : EqDecision SnapshotTrustProfile.
Proof. solve_decision. Defined.

(** A JSON value of [serde_json]; a number is the text it is written as, an
    object its entries, whose keys are distinct. *)
Inductive Value :=
| Null
| Bool (b : bool)
| Number (repr : string)
| VString (s : string)
| Array (values : list Value)
| Object (entries : list (string * Value)).

(** [sha2], [uuid] and the string escaping of [serde_json]. *)
Class Sha256 := sha256 : string -> list Z.
Class Sha256Laws `{Sha256} : Prop :=
  sha256_digest m : length (sha256 m) = 32%nat /\ bytes_ok (sha256 m).
Class Uuid := uuid_parse_display : string -> option string.
Class JsonText := json_string : string -> string.

Definition str_len (s : string) : Z := Z.of_nat (String.length s).

(** ** Canonical JSON *)

(** [parts.join(",")]. *)
Fixpoint join_comma (parts : list string) : string :=
  match parts with
  | [] => ""
  | [p] => p
  | p :: ps => p +:+ "," +:+ join_comma ps
  end.

(** [serde_json::to_string] of a scalar. *)
Definition bool_text (b : bool) : string := if b then "true" else "false".

(** [str] order: [s.cmp(t) <= Equal], byte by byte. *)
Fixpoint bytes_le (s t : list Z) : bool :=
  match s, t with
  | [], _ => true
  | _ :: _, [] => false
  | a :: s, b :: t => if a <? b then true else if b <? a then false else bytes_le s t
  end.

Definition str_le (s t : string) : Prop := Is_true (bytes_le (str_bytes s) (str_bytes t)).

#[export] Instance str_le_dec : RelDecision str_le.
Proof. intros s t. apply _. Defined.

(** [a < b] of two [str]. *)
Definition str_lt (s t : string) : bool := bytes_le (str_bytes s) (str_bytes t) && negb (String.eqb s t).

Section canonical.
Context `{JsonText}.

(** [values[key]] over the entries of an object, mapped to text. *)
Definition entry_text (texts : list (string * string)) (key : string) : string :=
  default "" (snd <$> find (fun e => String.eqb e.1 key) texts).

(** [src/marty-verification/src/governance.rs:658-668] canonical_json, an object from the texts of its entries *)
Definition object_text (texts : list (string * string)) : string :=
  let keys := merge_sort str_le (map fst texts) in
  "{" +:+ join_comma (map (fun key => json_string key +:+ ":" +:+ entry_text texts key) keys) +:+ "}".

(** [src/marty-verification/src/governance.rs:646-670] canonical_json; writing a scalar does not fail *)
Fixpoint canonical_json (v : Value) : string :=
  match v with
  | Null => "null"
  | Bool b => bool_text b
  | Number n => n
  | VString s => json_string s
  | Array values => "[" +:+ join_comma (map canonical_json values) +:+ "]"
  | Object entries => object_text (map (fun e => (e.1, canonical_json e.2)) entries)
  end.
End canonical.

(** [format!("{:x}", digest)]. *)
Definition hex_lower_digit (d : Z) : ascii := ascii_of_N (Z.to_N (if d <? 10 then 48 + d else 87 + d)).
Definition hex_lower (bytes : list Z) : string :=
  String.string_of_list_ascii
    (concat ((fun b => [hex_lower_digit (b / 16 mod 16); hex_lower_digit (b mod 16)]) <$> bytes)).

(** [src/marty-verification/src/governance.rs:641-644] canonical_digest *)
Definition canonical_digest `{JsonText, Sha256} (v : Value) : string :=
  "sha256:" +:+ hex_lower (sha256 (canonical_json v)).

(** ** Field checks *)

(** [src/marty-verification/src/governance.rs:672-678] required_checks *)
Definition required_checks (purpose : string) : result (list string) :=
  if String.eqb purpose SESSION_CREATE_PURPOSE || String.eqb purpose DIRECT_VERIFY_PURPOSE
  then Ok ALL_PRESENTATION_CHECKS
  else if String.eqb purpose VDS_NC_VERIFY_PURPOSE then Ok VDS_CHECKS
  else Err "Unsupported verification purpose".

(** [src/marty-verification/src/governance.rs:680-693] require_purpose_checks *)
Definition require_purpose_checks (purpose : string) (checks : list string) : res (list string) unit :=
  required ← map_err (fun e => [e]) (required_checks purpose);
  let actual : gset string := list_to_set checks in
  let missing := List.filter (fun c => negb (bool_decide (c ∈ actual))) required in
  match missing with [] => Ok tt | _ => Err missing end.

(** [src/marty-verification/src/governance.rs:695-701] bounded_text *)
Definition bounded_text (value field : string) : result unit :=
  ensure (negb (String.eqb value "" || (255 <? str_len value)))
    (field +:+ " must be non-empty bounded text").

(** [value.strip_prefix(prefix)]. *)
Fixpoint strip_prefix (prefix s : string) : option string :=
  match prefix, s with
  | EmptyString, _ => Some s
  | String a p, String b t => if Ascii.eqb a b then strip_prefix p t else None
  | String _ _, EmptyString => None
  end.

Definition lower_hex_byte (b : Z) : bool :=
  ((48 <=? b) && (b <=? 57)) || ((97 <=? b) && (b <=? 102)).

(** [src/marty-verification/src/governance.rs:703-720] lowercase_sha256 *)
Definition lowercase_sha256 (value field : string) (prefixed : bool) : result unit :=
  v ← (if prefixed
       then ok_or (strip_prefix "sha256:" value) (field +:+ " must be a lowercase SHA-256 digest")
       else Ok value);
  ensure ((str_len v =? 64) && forallb lower_hex_byte (str_bytes v))
    (field +:+ " must be lowercase SHA-256").

(** [src/marty-verification/src/governance.rs:722-729] canonical_uuid *)
Definition canonical_uuid `{Uuid} (value field : string) : result unit :=
  parsed ← ok_or (uuid_parse_display value) (field +:+ " must be a canonical UUID");
  ensure (String.eqb parsed value) (field +:+ " must be a canonical UUID").

(** [src/marty-verification/src/governance.rs:731-733] is_sorted_unique *)
Fixpoint is_sorted_unique (values : list string) : bool :=
  match values with
  | [] => true
  | a :: rest => match rest with
                 | [] => true
                 | b :: _ => str_lt a b && is_sorted_unique rest
                 end
  end.

(** [char::to_digit(16)]. *)
Definition to_digit16 (c : Z) : option Z :=
  if (48 <=? c) && (c <=? 57) then Some (c - 48)
  else if (97 <=? c) && (c <=? 102) then Some (c - 87)
  else if (65 <=? c) && (c <=? 70) then Some (c - 55)
  else None.

(** [src/marty-verification/src/governance.rs:739-747] decode_hex, over the pairs of bytes; a trailing single byte is left out *)
Fixpoint decode_pairs (bytes : list Z) : option (list Z) :=
  match bytes with
  | a :: b :: rest =>
      high ← to_digit16 a;
      low ← to_digit16 b;
      tail ← decode_pairs rest;
      Some (wrap 8 (Z.lor (Z.shiftl high 4) low) :: tail)
  | _ => Some []
  end.

(** [src/marty-verification/src/governance.rs:735-748] decode_hex *)
Definition decode_hex (value : string) : option (list Z) :=
  if negb (str_len value mod 2 =? 0) then None else decode_pairs (str_bytes value).

(** [src/marty-verification/src/governance.rs:750-759] constant_time_equal *)
Definition constant_time_equal (left right : list Z) : bool :=
  let start := Z.lxor (zlen left) (zlen right) in
  let step d i := Z.lor d (Z.lxor (default 0 (left !! i)) (default 0 (right !! i))) in
  foldl step start (seq 0 (length left `max` length right)) =? 0.

(** [src/marty-verification/src/governance.rs:506-530] validate_component *)
Definition validate_component (c : ComponentReference) (field : string) : result unit :=
  bounded_text (component_id c) (field +:+ ".component_id");;
  bounded_text (component_version c) (field +:+ ".version");;
  lowercase_sha256 (artifact_digest c) (field +:+ ".artifact_digest") true;;
  bounded_text (adapter_id c) (field +:+ ".adapter_id");;
  bounded_text (adapter_version c) (field +:+ ".adapter_version");;
  ensure (String.eqb (component_id c) CREDENTIALS_COMPONENT_ID)
    (field +:+ ".component_id must be " +:+ CREDENTIALS_COMPONENT_ID);;
  ensure (String.eqb (adapter_id c) VERIFICATION_ADAPTER_ID)
    (field +:+ ".adapter_id must be " +:+ VERIFICATION_ADAPTER_ID).

(** [src/marty-verification/src/governance.rs:560-588] validate_policy_content *)
Definition validate_policy_content (content : PolicyContent) (field : string) : result unit :=
  bounded_text (verifier_id content) (field +:+ ".content.verifier_id");;
  lowercase_sha256 (presentation_definition_digest content)
    (field +:+ ".content.presentation_definition_digest") true;;
  ensure (negb (bool_decide (required_checks_of content = [])))
    (field +:+ ".content.required_checks must be non-empty");;
  let supported : gset string := list_to_set ALL_PRESENTATION_CHECKS in
  ensure (negb (existsb (fun c => negb (bool_decide (c ∈ supported))) (required_checks_of content)))
    (field +:+ ".content.required_checks is unsupported");;
  let unique : gset string := list_to_set (required_checks_of content) in
  ensure (Nat.eqb (size unique) (length (required_checks_of content)))
    (field +:+ ".content.required_checks contains duplicates").

(** [issuer.starts_with("did:")]. *)
Definition starts_with_did (s : string) : bool :=
  match strip_prefix "did:" s with Some _ => true | None => false end.

(** [src/marty-verification/src/governance.rs:621-639] validate_trust_content *)
Definition validate_trust_content (content : TrustContent) (field : string) : result unit :=
  ensure (negb (bool_decide (trusted_issuers content = []) ||
                existsb (fun i => negb (starts_with_did i) || (255 <? str_len i)) (trusted_issuers content) ||
                negb (is_sorted_unique (trusted_issuers content))))
    (field +:+ ".content.trusted_issuers must be a non-empty sorted unique list");;
  ensure (negb (allow_public_did_fallback content))
    (field +:+ ".content.allow_public_did_fallback must be false").

(** [serde_json::to_value] of the two content structures. *)
Definition policy_content_value (c : PolicyContent) : Value :=
  Object [("verifier_id", VString (verifier_id c));
          ("presentation_definition_digest", VString (presentation_definition_digest c));
          ("required_checks", Array (map VString (required_checks_of c)))].
Definition trust_content_value (c : TrustContent) : Value :=
  Object [("trusted_issuers", Array (map VString (trusted_issuers c)));
          ("allow_public_did_fallback", Bool (allow_public_did_fallback c))].

Section governance.
Context `{JsonText, Sha256, Uuid}.

(** [src/marty-verification/src/governance.rs:532-547] validate_policy *)
Definition validate_policy (policy : PolicyDocument) (field : string) : result unit :=
  canonical_uuid (policy_organization_id policy) (field +:+ ".organization_id");;
  bounded_text (policy_doc_id policy) (field +:+ ".id");;
  bounded_text (policy_version policy) (field +:+ ".version");;
  lowercase_sha256 (policy_content_digest policy) (field +:+ ".content_digest") true;;
  validate_policy_content (policy_content policy) field;;
  ensure (String.eqb (canonical_digest (policy_content_value (policy_content policy)))
            (policy_content_digest policy))
    (field +:+ ".content_digest does not match content").

(** [src/marty-verification/src/governance.rs:549-558] validate_snapshot_policy *)
Definition validate_snapshot_policy (policy : SnapshotPolicy) (organization_id : string) : result unit :=
  validate_policy
    (mkPolicy organization_id (ref_id (sp_reference policy)) (ref_version (sp_reference policy))
       (ref_content_digest (sp_reference policy)) (sp_content policy))
    "governance_snapshot.policy".

(** [src/marty-verification/src/governance.rs:590-605] validate_trust *)
Definition validate_trust (trust : TrustDocument) (field : string) : result unit :=
  canonical_uuid (trust_organization_id trust) (field +:+ ".organization_id");;
  bounded_text (trust_doc_id trust) (field +:+ ".id");;
  bounded_text (trust_version trust) (field +:+ ".version");;
  lowercase_sha256 (trust_content_digest trust) (field +:+ ".content_digest") true;;
  validate_trust_content (trust_content trust) field;;
  ensure (String.eqb (canonical_digest (trust_content_value (trust_content trust)))
            (trust_content_digest trust))
    (field +:+ ".content_digest does not match content").

(** [src/marty-verification/src/governance.rs:607-619] validate_snapshot_trust *)
Definition validate_snapshot_trust (trust : SnapshotTrustProfile) (organization_id : string) : result unit :=
  validate_trust
    (mkTrust organization_id (ref_id (st_reference trust)) (ref_version (st_reference trust))
       (ref_content_digest (st_reference trust)) (st_content trust))
    "governance_snapshot.trust_profile".

(** ** The governance document *)

(** [{missing:?}] of a list of check names, none of which needs escaping. *)
Definition quoted (s : string) : string :=
  let quote := String (ascii_of_nat 34) EmptyString in quote +:+ s +:+ quote.
Fixpoint join_debug (l : list string) : string :=
  match l with
  | [] => ""
  | [s] => quoted s
  | s :: l => quoted s +:+ ", " +:+ join_debug l
  end.
Definition debug_strings (l : list string) : string := "[" +:+ join_debug l +:+ "]".

(** [src/marty-verification/src/governance.rs:292-298] parse_governance, the loop over the policies *)
Fixpoint validate_policies (index : nat) (seen : gset (string * string)) (ps : list PolicyDocument) :
    result unit :=
  match ps with
  | [] => Ok tt
  | p :: ps =>
      validate_policy p ("policies[" +:+ pretty index +:+ "]");;
      let key := (policy_organization_id p, policy_doc_id p) in
      ensure (negb (bool_decide (key ∈ seen))) "duplicate organization policy profile";;
      validate_policies (S index) ({[key]} ∪ seen) ps
  end.

(** [src/marty-verification/src/governance.rs:299-305] parse_governance, the loop over the trust profiles *)
Fixpoint validate_trusts (index : nat) (seen : gset (string * string)) (ts : list TrustDocument) :
    result unit :=
  match ts with
  | [] => Ok tt
  | t :: ts =>
      validate_trust t ("trust_profiles[" +:+ pretty index +:+ "]");;
      let key := (trust_organization_id t, trust_doc_id t) in
      ensure (negb (bool_decide (key ∈ seen))) "duplicate organization trust profile";;
      validate_trusts (S index) ({[key]} ∪ seen) ts
  end.

(** [src/marty-verification/src/governance.rs:337-340] the policy lookup of parse_governance and authorize *)
Definition find_policy (g : GovernanceDocument) (org id : string) : option PolicyDocument :=
  find (fun p => String.eqb (policy_organization_id p) org && String.eqb (policy_doc_id p) id) (policies g).

(** [src/marty-verification/src/governance.rs:398-405] the trust profile lookup of authorize *)
Definition find_trust (g : GovernanceDocument) (org id : string) : option TrustDocument :=
  find (fun t => String.eqb (trust_organization_id t) org && String.eqb (trust_doc_id t) id)
    (trust_profiles g).

(** [src/marty-verification/src/governance.rs:327-363] parse_governance, the loop over the purposes of a client *)
Fixpoint validate_purposes (g : GovernanceDocument) (client : ClientAuthorization) (field : string)
    (ps : list (string * PurposeAuthorization)) : result unit :=
  match ps with
  | [] => Ok tt
  | (purpose, authorization) :: ps =>
      required_checks purpose;;
      bounded_text (auth_policy_id authorization) (field +:+ ".purposes[" +:+ purpose +:+ "].policy_id");;
      bounded_text (auth_trust_profile_id authorization)
        (field +:+ ".purposes[" +:+ purpose +:+ "].trust_profile_id");;
      policy ← ok_or (find_policy g (client_organization_id client) (auth_policy_id authorization))
        ("client " +:+ client_id client +:+ " purpose " +:+ purpose
           +:+ " references an unknown organization policy");
      ensure (existsb (fun t => String.eqb (trust_organization_id t) (client_organization_id client) &&
                                String.eqb (trust_doc_id t) (auth_trust_profile_id authorization))
                (trust_profiles g))
        ("client " +:+ client_id client +:+ " purpose " +:+ purpose
           +:+ " references an unknown organization trust profile");;
      map_err (fun missing => "client " +:+ client_id client
                 +:+ " policy is missing mandatory checks for " +:+ purpose +:+ ": "
                 +:+ debug_strings missing)
        (require_purpose_checks purpose (required_checks_of (policy_content policy)));;
      validate_purposes g client field ps
  end.

(** [src/marty-verification/src/governance.rs:307-364] parse_governance, the loop over the clients *)
Fixpoint validate_clients (g : GovernanceDocument) (index : nat) (ids digests : gset string)
    (cs : list ClientAuthorization) : result unit :=
  match cs with
  | [] => Ok tt
  | c :: cs =>
      let field := "clients[" +:+ pretty index +:+ "]" in
      bounded_text (client_id c) (field +:+ ".client_id");;
      canonical_uuid (client_organization_id c) (field +:+ ".organization_id");;
      lowercase_sha256 (api_key_sha256 c) (field +:+ ".api_key_sha256") false;;
      ensure (negb (bool_decide (map fst (purposes c) = []))) (field +:+ ".purposes is invalid");;
      ensure (negb (bool_decide (client_id c ∈ ids))) "duplicate client id";;
      ensure (negb (bool_decide (api_key_sha256 c ∈ digests))) "duplicate client API key digest";;
      validate_purposes g c field (purposes c);;
      validate_clients g (S index) ({[client_id c]} ∪ ids) ({[api_key_sha256 c]} ∪ digests) cs
  end.

(** [src/marty-verification/src/governance.rs:284-366] parse_governance, the checks on the deserialized document *)
Definition check_governance (g : GovernanceDocument) : result unit :=
  validate_component (gov_component g) "component";;
  ensure (negb (Nat.eqb (length (policies g)) 0 || Nat.eqb (length (trust_profiles g)) 0 ||
                Nat.eqb (length (clients g)) 0))
    "policies, trust_profiles, and clients must be non-empty lists";;
  validate_policies 0 ∅ (policies g);;
  validate_trusts 0 ∅ (trust_profiles g);;
  validate_clients g 0 ∅ ∅ (clients g).

(** [src/marty-verification/src/governance.rs:455-484] snapshot *)
Definition snapshot (g : GovernanceDocument) (client : ClientAuthorization) (purpose : string)
    (policy : PolicyDocument) (trust : TrustDocument) : GovernanceSnapshot :=
  mkSnapshot (client_id client) purpose (client_organization_id client)
    (mkSnapshotPolicy
       (mkProfile (policy_doc_id policy) (policy_version policy) (policy_content_digest policy))
       (policy_content policy))
    (mkSnapshotTrust
       (mkProfile (trust_doc_id trust) (trust_version trust) (trust_content_digest trust))
       (trust_content trust))
    (gov_component g).

(** [client.purposes.get(purpose)]. *)
Definition purpose_get (client : ClientAuthorization) (purpose : string) : option PurposeAuthorization :=
  snd <$> find (fun e => String.eqb e.1 purpose) (purposes client).

(** [src/marty-verification/src/governance.rs:379-385] authorize, the loop over every client, which keeps the last match *)
Definition match_client (supplied : list Z) (cs : list ClientAuthorization) : option ClientAuthorization :=
  foldl (fun matched client =>
           let expected := default [] (decode_hex (api_key_sha256 client)) in
           if constant_time_equal supplied expected then Some client else matched) None cs.

(** [src/marty-verification/src/governance.rs:369-407] authorize *)
Definition authorize (g : GovernanceDocument) (api_key purpose : string) : result GovernanceSnapshot :=
  map_err (fun _ => "Unsupported verification purpose") (required_checks purpose);;
  ensure (negb (String.eqb api_key "" || (4096 <? str_len api_key))) "Invalid or unauthorized API key";;
  let supplied := sha256 api_key in
  client ← ok_or (match_client supplied (clients g)) "Invalid or unauthorized API key";
  authorization ← ok_or (purpose_get client purpose) "Invalid or unauthorized API key";
  policy ← expect (find_policy g (client_organization_id client) (auth_policy_id authorization));
  trust ← expect (find_trust g (client_organization_id client) (auth_trust_profile_id authorization));
  Ok (snapshot g client purpose policy trust).

(** [src/marty-verification/src/governance.rs:409-453] resume *)
Definition resume (g : GovernanceDocument) (frozen : GovernanceSnapshot) : result GovernanceSnapshot :=
  client ← ok_or
    (c ← find (fun c => String.eqb (client_id c) (snap_client_id frozen)) (clients g);
     if String.eqb (client_organization_id c) (snap_organization_id frozen) then Some c else None)
    "governance_snapshot client is not registered for its organization";
  authorization ← ok_or (purpose_get client (snap_purpose frozen))
    "governance_snapshot client is not authorized for its purpose";
  ensure (negb (negb (String.eqb (auth_policy_id authorization) (ref_id (sp_reference (snap_policy frozen)))) ||
                negb (String.eqb (auth_trust_profile_id authorization)
                        (ref_id (st_reference (snap_trust_profile frozen))))))
    "governance_snapshot profiles are not authorized for its purpose";;
  policy ← ok_or (find_policy g (snap_organization_id frozen) (auth_policy_id authorization))
    "governance_snapshot profiles do not match the registered authority";
  trust ← ok_or (find_trust g (snap_organization_id frozen) (auth_trust_profile_id authorization))
    "governance_snapshot profiles do not match the registered authority";
  let expected := snapshot g client (snap_purpose frozen) policy trust in
  ensure (negb (negb (bool_decide (snap_policy frozen = snap_policy expected)) ||
                negb (bool_decide (snap_trust_profile frozen = snap_trust_profile expected))))
    "governance_snapshot profiles do not match the registered authority";;
  Ok expected.

(** [src/marty-verification/src/governance.rs:489-503] parse_snapshot, the checks on the deserialized snapshot *)
Definition check_snapshot (s : GovernanceSnapshot) : result unit :=
  bounded_text (snap_client_id s) "governance_snapshot.client_id";;
  required_checks (snap_purpose s);;
  canonical_uuid (snap_organization_id s) "governance_snapshot.organization_id";;
  validate_component (snap_component s) "governance_snapshot.component";;
  validate_snapshot_policy (snap_policy s) (snap_organization_id s);;
  validate_snapshot_trust (snap_trust_profile s) (snap_organization_id s);;
  map_err (fun missing => "governance_snapshot policy is missing mandatory purpose checks: "
             +:+ debug_strings missing)
    (require_purpose_checks (snap_purpose s) (required_checks_of (sp_content (snap_policy s)))).
End governance.

(** ** The JSON entry points *)

(** [src/marty-verification/src/governance.rs:135-141] AuthorizationRequest *)
Record AuthorizationRequest := mkAuthorizationRequest {
  ar_governance : Value;
  ar_api_key : string;
  ar_purpose : string;
}.

(** [src/marty-verification/src/governance.rs:143-148] ResumeRequest *)
Record ResumeRequest := mkResumeRequest {
  rr_governance : Value;
  rr_snapshot : Value;
}.

(** [src/marty-verification/src/governance.rs:150-154] SnapshotRequest *)
Record SnapshotRequest := mkSnapshotRequest { sr_snapshot : Value }.

(** [src/marty-verification/src/governance.rs:156-161] PurposeRequest, with the fields of PurposeSnapshot it reads *)
Record PurposeRequest := mkPurposeRequest {
  pr_snapshot_purpose : string;
  pr_required_checks : list string;
  pr_purpose : string;
}.

(** [src/marty-verification/src/governance.rs:163-169] ValidateRequest, with the fields of RequestBindingSnapshot it reads *)
Record ValidateRequest := mkValidateRequest {
  vr_snapshot_verifier_id : string;
  vr_snapshot_definition_digest : string;
  vr_verifier_id : string;
  vr_presentation_definition : Value;
}.

(** [serde_json]: one deserializer per type, whose error is its text, and
    the serializers of a value and of a snapshot. *)
Class Serde := {
  value_from_str : string -> string + Value;
  governance_from_str : string -> string + GovernanceDocument;
  authorization_from_str : string -> string + AuthorizationRequest;
  resume_from_str : string -> string + ResumeRequest;
  snapshot_request_from_str : string -> string + SnapshotRequest;
  purpose_from_str : string -> string + PurposeRequest;
  validate_from_str : string -> string + ValidateRequest;
  snapshot_from_value : Value -> string + GovernanceSnapshot;
  value_to_string : Value -> string + string;
  snapshot_to_string : GovernanceSnapshot -> string + string;
}.

(** [result.map_err(f)?] of a library result. *)
Definition or_err {E A} (f : string -> E) (x : string + A) : res E A :=
  match x with inl e => Err (f e) | inr a => Ok a end.

Section entry_points.
Context `{JsonText, Sha256, Uuid, Serde}.

(** [src/marty-verification/src/governance.rs:281-367] parse_governance *)
Definition parse_governance (raw : string) : result GovernanceDocument :=
  governance ← or_err (fun error => "VERIFICATION_GOVERNANCE_JSON must be valid JSON: " +:+ error)
    (governance_from_str raw);
  check_governance governance;;
  Ok governance.

(** [src/marty-verification/src/governance.rs:486-504] parse_snapshot *)
Definition parse_snapshot (value : Value) : result GovernanceSnapshot :=
  s ← or_err (fun error => "governance_snapshot is invalid: " +:+ error) (snapshot_from_value value);
  check_snapshot s;;
  Ok s.

(** [src/marty-verification/src/governance.rs:203-207] canonical_digest_json *)
Definition canonical_digest_json (value_json : string) : result string :=
  value ← or_err (fun _ => "value is not canonical JSON") (value_from_str value_json);
  Ok (canonical_digest value).

(** [src/marty-verification/src/governance.rs:209-211] validate_governance_json *)
Definition validate_governance_json (raw : string) : result unit :=
  parse_governance raw;; Ok tt.

(** [src/marty-verification/src/governance.rs:213-221] authorize_governance_json *)
Definition authorize_governance_json (request_json : string) : result string :=
  request ← or_err (fun error => "invalid governance authorization request: " +:+ error)
    (authorization_from_str request_json);
  raw ← or_err (fun _ => "VERIFICATION_GOVERNANCE_JSON must be valid JSON")
    (value_to_string (ar_governance request));
  governance ← parse_governance raw;
  s ← authorize governance (ar_api_key request) (ar_purpose request);
  or_err (fun error => error) (snapshot_to_string s).

(** [src/marty-verification/src/governance.rs:223-228] governance_from_snapshot_json *)
Definition governance_from_snapshot_json (request_json : string) : result string :=
  request ← or_err (fun error => "invalid governance snapshot request: " +:+ error)
    (snapshot_request_from_str request_json);
  s ← parse_snapshot (sr_snapshot request);
  or_err (fun error => error) (snapshot_to_string s).

(** [src/marty-verification/src/governance.rs:230-239] resume_governance_json *)
Definition resume_governance_json (request_json : string) : result string :=
  request ← or_err (fun error => "invalid governance resume request: " +:+ error)
    (resume_from_str request_json);
  raw ← or_err (fun _ => "VERIFICATION_GOVERNANCE_JSON must be valid JSON")
    (value_to_string (rr_governance request));
  governance ← parse_governance raw;
  s ← parse_snapshot (rr_snapshot request);
  resumed ← resume governance s;
  or_err (fun error => error) (snapshot_to_string resumed).

(** [src/marty-verification/src/governance.rs:241-252] require_governance_purpose_json *)
Definition require_governance_purpose_json (request_json : string) : result unit :=
  request ← or_err (fun error => "invalid governance purpose request: " +:+ error)
    (purpose_from_str request_json);
  ensure (String.eqb (pr_snapshot_purpose request) (pr_purpose request))
    "verification governance context is not authorized for this purpose";;
  map_err (fun _ => "verification policy is missing mandatory purpose checks")
    (require_purpose_checks (pr_purpose request) (pr_required_checks request)).

(** [src/marty-verification/src/governance.rs:254-274] validate_governance_request_json *)
Definition validate_governance_request_json (request_json : string) : result unit :=
  request ← or_err (fun error => "invalid governed verification request: " +:+ error)
    (validate_from_str request_json);
  ensure (String.eqb (vr_verifier_id request) (vr_snapshot_verifier_id request))
    "verifier_id does not match the caller-bound verification policy";;
  let definition_digest := canonical_digest (vr_presentation_definition request) in
  ensure (String.eqb definition_digest (vr_snapshot_definition_digest request))
    "presentation_definition does not match the caller-bound verification policy".
End entry_points.
