(* ===== verification/CanonicalJsonFacts.v ===== *)
(** * Canonical JSON is canonical (marty-verification, [governance.rs])

    Two JSON values have the same canonical text exactly when they differ only
    in the order of object entries, at any depth. *)

From S2P Require Import Prelude Governance.
From stdpp Require Import sorting.
Local Open Scope Z_scope.

(** ** The order of [str] *)

#[export] Instance byte_of_ascii_inj : Inj (=) (=) (fun a => Z.of_N (N_of_ascii a)).
Proof.
  intros a b Hab%N2Z.inj. by rewrite <- (ascii_N_embedding a), Hab, ascii_N_embedding.
Qed.

Lemma list_ascii_inj s t : String.list_ascii_of_string s = String.list_ascii_of_string t -> s = t.
Proof.
  intros H%(f_equal String.string_of_list_ascii).
  by rewrite !String.string_of_list_ascii_of_string in H.
Qed.

Lemma str_bytes_inj s t : str_bytes s = str_bytes t -> s = t.
Proof. intros H. apply list_ascii_inj. by apply (inj (fmap _)) in H. Qed.

Lemma bytes_le_refl s : bytes_le s s = true.
Proof. induction s as [|a s IH]; simpl; [done|]. by rewrite Z.ltb_irrefl. Qed.

Lemma bytes_le_total s t : bytes_le s t = true \/ bytes_le t s = true.
Proof.
  revert t; induction s as [|a s IH]; intros [|b t]; simpl; auto.
  destruct (Z.ltb_spec a b), (Z.ltb_spec b a); auto.
Qed.

Lemma bytes_le_antisym s t : bytes_le s t = true -> bytes_le t s = true -> s = t.
Proof.
  revert t; induction s as [|a s IH]; intros [|b t]; simpl; try done.
  destruct (Z.ltb_spec a b), (Z.ltb_spec b a); intros; try (done || lia).
  f_equal; [lia|by apply IH].
Qed.

Lemma bytes_le_trans s t u : bytes_le s t = true -> bytes_le t u = true -> bytes_le s u = true.
Proof.
  revert t u; induction s as [|a s IH]; intros [|b t] [|c u]; simpl; try done.
  destruct (Z.ltb_spec a b), (Z.ltb_spec b a), (Z.ltb_spec b c), (Z.ltb_spec c b),
    (Z.ltb_spec a c), (Z.ltb_spec c a); intros; try (done || lia).
  by eapply IH.
Qed.

#[export] Instance str_le_trans : Transitive str_le.
Proof. intros s t u ?%Is_true_true ?%Is_true_true. apply Is_true_true. by eapply bytes_le_trans. Qed.
#[export] Instance str_le_total : Total str_le.
Proof.
  intros s t. unfold str_le. rewrite !Is_true_true.
  destruct (bytes_le_total (str_bytes s) (str_bytes t)); auto.
Qed.
#[export] Instance str_le_antisym : AntiSymm (=) str_le.
Proof.
  intros s t ?%Is_true_true ?%Is_true_true. apply str_bytes_inj. by apply bytes_le_antisym.
Qed.

(** Sorting does not depend on the order of its input. *)
Lemma sort_keys_perm ks ks' : ks ≡ₚ ks' -> merge_sort str_le ks = merge_sort str_le ks'.
Proof.
  intros Hp. apply (Sorted_unique str_le); try (apply Sorted_merge_sort; apply _).
  by rewrite !merge_sort_Permutation.
Qed.

(** ** Objects *)

(** The entry found under a key that occurs once. *)
Lemma find_entry {A} (es : list (string * A)) k v :
  NoDup (map fst es) -> (k, v) ∈ es -> find (fun e => String.eqb e.1 k) es = Some (k, v).
Proof.
  induction es as [|[k' v'] es IH]; simpl; [intros _ H; inv H|].
  intros [Hk Hnd]%NoDup_cons Hin. apply elem_of_cons in Hin as [[= <- <-]|Hin].
  - by rewrite String.eqb_refl.
  - destruct (String.eqb_spec k' k) as [<-|]; [|by apply IH].
    exfalso. apply Hk. apply list_elem_of_fmap. by exists (k', v).
Qed.

Section objects.
Context `{JsonText}.

Lemma entry_text_in texts k v :
  NoDup (map fst texts) -> (k, v) ∈ texts -> entry_text texts k = v.
Proof. intros Hnd Hin. unfold entry_text. by rewrite (find_entry texts k v). Qed.

Definition key_le {A} (a b : string * A) : Prop := str_le a.1 b.1.

#[export] Instance key_le_dec {A} : RelDecision (@key_le A).
Proof. intros a b. unfold key_le. apply _. Defined.
#[export] Instance key_le_trans {A} : Transitive (@key_le A).
Proof. intros a b c. unfold key_le. apply transitivity. Qed.
#[export] Instance key_le_total {A} : Total (@key_le A).
Proof. intros a b. apply (total str_le). Qed.

Lemma sort_entries_keys {A} (es : list (string * A)) :
  map fst (merge_sort key_le es) = merge_sort str_le (map fst es).
Proof.
  apply (Sorted_unique str_le).
  - assert (Hs : Sorted key_le (merge_sort key_le es)) by (apply Sorted_merge_sort; apply _).
    induction Hs as [|a l _ IH Hd]; simpl; constructor; [done|].
    destruct Hd; simpl; by constructor.
  - apply Sorted_merge_sort; apply _.
  - by rewrite !merge_sort_Permutation.
Qed.

(** The text of an object: its entries in key order. *)
Lemma object_text_sorted texts :
  NoDup (map fst texts) ->
  object_text texts =
    "{" +:+ join_comma (map (fun e => json_string e.1 +:+ ":" +:+ e.2) (merge_sort key_le texts)) +:+ "}".
Proof.
  intros Hnd. unfold object_text. rewrite <- sort_entries_keys, map_map.
  do 3 f_equal. apply map_ext_in. intros [k v] Hin. simpl. do 2 f_equal.
  apply entry_text_in; [done|]. apply list_elem_of_In in Hin.
  by rewrite merge_sort_Permutation in Hin.
Qed.

Lemma object_text_perm texts texts' :
  NoDup (map fst texts) -> texts ≡ₚ texts' -> object_text texts = object_text texts'.
Proof.
  intros Hnd Hp. unfold object_text.
  rewrite (sort_keys_perm (map fst texts) (map fst texts')) by by apply Permutation_map.
  do 3 f_equal. apply map_ext_in. intros k Hk. do 2 f_equal.
  apply list_elem_of_In in Hk. rewrite merge_sort_Permutation in Hk.
  apply list_elem_of_fmap in Hk as ([k' v] & -> & Hin). simpl.
  rewrite (entry_text_in texts' k' v); [|by rewrite <- Hp|done].
  apply entry_text_in; [done|]. by rewrite Hp.
Qed.
End objects.

(** ** Values up to the order of object entries *)

Inductive json_equiv : Value -> Value -> Prop :=
| je_refl v : json_equiv v v
| je_sym v w : json_equiv v w -> json_equiv w v
| je_trans u v w : json_equiv u v -> json_equiv v w -> json_equiv u w
| je_item l1 v w l2 : json_equiv v w -> json_equiv (Array (l1 ++ v :: l2)) (Array (l1 ++ w :: l2))
| je_entry l1 k v w l2 :
    json_equiv v w -> json_equiv (Object (l1 ++ (k, v) :: l2)) (Object (l1 ++ (k, w) :: l2))
| je_perm es es' : NoDup (map fst es) -> es ≡ₚ es' -> json_equiv (Object es) (Object es').

#[export] Instance json_equiv_equivalence : Equivalence json_equiv.
Proof. split; repeat intro; eauto using je_refl, je_sym, je_trans. Qed.

(** Distinct keys, and numbers written with number characters. *)
Definition number_char (c : ascii) : bool :=
  existsb (Ascii.eqb c) (String.list_ascii_of_string "0123456789+-.eE").

Inductive json_wf : Value -> Prop :=
| wf_null : json_wf Null
| wf_bool b : json_wf (Bool b)
| wf_number n : n <> ""%string -> forallb number_char (String.list_ascii_of_string n) = true ->
    json_wf (Number n)
| wf_string s : json_wf (VString s)
| wf_array vs : Forall json_wf vs -> json_wf (Array vs)
| wf_object es : NoDup (map fst es) -> Forall (fun e => json_wf e.2) es -> json_wf (Object es).

Fixpoint Value_deep_ind (P : Value -> Prop) (H0 : P Null) (H1 : forall b, P (Bool b))
    (H2 : forall n, P (Number n)) (H3 : forall s, P (VString s))
    (H4 : forall vs, Forall P vs -> P (Array vs))
    (H5 : forall es, Forall (fun e => P e.2) es -> P (Object es)) (v : Value) {struct v} : P v :=
  let go := Value_deep_ind P H0 H1 H2 H3 H4 H5 in
  match v with
  | Null => H0
  | Bool b => H1 b
  | Number n => H2 n
  | VString s => H3 s
  | Array vs => H4 vs
      ((fix all (l : list Value) : Forall P l :=
          match l with [] => List.Forall_nil _ | x :: l => @List.Forall_cons _ _ x l (go x) (all l) end) vs)
  | Object es => H5 es
      ((fix all (l : list (string * Value)) : Forall (fun e => P e.2) l :=
          match l with [] => List.Forall_nil _ | x :: l => @List.Forall_cons _ _ x l (go x.2) (all l) end) es)
  end.

Lemma json_equiv_array vs ws : Forall2 json_equiv vs ws -> json_equiv (Array vs) (Array ws).
Proof.
  intros HF. change (json_equiv (Array ([] ++ vs)) (Array ([] ++ ws))). generalize (@nil Value) as l.
  induction HF as [|v w vs ws Hvw HF IH]; intros l; [done|].
  etrans; [by apply je_item|]. specialize (IH (l ++ [w])). by rewrite <- !app_assoc in IH.
Qed.

Lemma json_equiv_object (es fs : list (string * Value)) :
  Forall2 (fun e f => e.1 = f.1 /\ json_equiv e.2 f.2) es fs -> json_equiv (Object es) (Object fs).
Proof.
  intros HF. change (json_equiv (Object ([] ++ es)) (Object ([] ++ fs))).
  generalize (@nil (string * Value)) as l.
  induction HF as [|[k v] [k' w] es fs [Hk Hvw] HF IH]; intros l; [done|]. simpl in *. subst k'.
  etrans; [by apply je_entry|]. specialize (IH (l ++ [(k, w)])). by rewrite <- !app_assoc in IH.
Qed.

(** ** The printer of normalized values *)

(** Entries sorted by key, at every depth. *)
Fixpoint normalize (v : Value) : Value :=
  match v with
  | Array vs => Array (map normalize vs)
  | Object es => Object (merge_sort key_le (map (fun e => (e.1, normalize e.2)) es))
  | v => v
  end.

Lemma map_fst_normalize (es : list (string * Value)) :
  map fst (map (fun e => (e.1, normalize e.2)) es) = map fst es.
Proof. rewrite map_map. by apply map_ext. Qed.

Lemma normalize_equiv v : json_wf v -> json_equiv v (normalize v).
Proof.
  induction v as [| | | |vs IH|es IH] using Value_deep_ind; intros Hwf; inv Hwf; simpl; try done.
  - apply json_equiv_array. apply Forall2_fmap_r, Forall_Forall2_diag.
    rewrite Forall_forall in *. naive_solver.
  - etrans; [apply (json_equiv_object _ (map (fun e => (e.1, normalize e.2)) es))|].
    + apply Forall2_fmap_r, Forall_Forall2_diag. rewrite Forall_forall in *. naive_solver.
    + apply je_perm; [by rewrite map_fst_normalize|]. by rewrite merge_sort_Permutation.
Qed.

Lemma normalize_wf v : json_wf v -> json_wf (normalize v).
Proof.
  induction v as [| | | |vs IH|es IH] using Value_deep_ind; intros Hwf; inv Hwf; simpl;
    try (by constructor).
  - constructor. apply Forall_fmap. rewrite Forall_forall in *. naive_solver.
  - constructor.
    + rewrite merge_sort_Permutation. by rewrite map_fst_normalize.
    + rewrite merge_sort_Permutation. apply Forall_fmap. rewrite Forall_forall in *. naive_solver.
Qed.

(** [a,b,c] over lists of characters. *)
Fixpoint commas (parts : list (list ascii)) : list ascii :=
  match parts with
  | [] => []
  | [p] => p
  | p :: ps => p ++ ","%char :: commas ps
  end.

#[local] Abbreviation chars := String.list_ascii_of_string.

Lemma chars_app s t : chars (s +:+ t) = chars s ++ chars t.
Proof. induction s as [|a s IH]; [done|]. simpl. by f_equal. Qed.

Lemma chars_join parts : chars (join_comma parts) = commas (map chars parts).
Proof.
  induction parts as [|p ps IH]; [done|]. destruct ps as [|q qs]; [done|].
  change (chars (p +:+ "," +:+ join_comma (q :: qs)) = chars p ++ ","%char :: commas (map chars (q :: qs))).
  by rewrite !chars_app, IH.
Qed.

(** A JSON string starts with a quote and is self-delimiting. *)
Class JsonTextLaws `{JsonText} : Prop := {
  json_string_quote s : head (chars (json_string s)) = Some (ascii_of_nat 34);
  json_string_delimited s t r1 r2 :
    chars (json_string s) ++ r1 = chars (json_string t) ++ r2 -> s = t /\ r1 = r2;
}.

Section print.
Context `{JsonTextLaws}.

Fixpoint print (v : Value) : list ascii :=
  match v with
  | Null => chars "null"
  | Bool b => chars (bool_text b)
  | Number n => chars n
  | VString s => chars (json_string s)
  | Array vs => "["%char :: commas (map print vs) ++ ["]"%char]
  | Object es =>
      "{"%char :: commas (map (fun e => chars (json_string e.1) ++ ":"%char :: print e.2) es) ++ ["}"%char]
  end.

Lemma sort_entries_map {A B} (f : A -> B) (es : list (string * A)) :
  NoDup (map fst es) ->
  merge_sort key_le (map (fun e => (e.1, f e.2)) es) =
  map (fun e => (e.1, f e.2)) (merge_sort key_le es).
Proof.
  intros Hnd. apply (Sorted_unique_strong key_le).
  - intros x1 x2 H1 H2 Hle1 Hle2. rewrite merge_sort_Permutation in H1.
    apply list_elem_of_fmap in H1 as ([k v] & -> & H1).
    apply list_elem_of_fmap in H2 as ([k' v'] & -> & H2). rewrite merge_sort_Permutation in H2.
    unfold key_le in *. simpl in *. assert (k = k') as -> by by apply (anti_symm str_le).
    pose proof (find_entry es k' v Hnd H1). pose proof (find_entry es k' v' Hnd H2). by simplify_eq.
  - apply Sorted_merge_sort; apply _.
  - assert (Hs : Sorted key_le (merge_sort key_le es)) by (apply Sorted_merge_sort; apply _).
    induction Hs as [|a l _ IH Hd]; simpl; constructor; [done|].
    destruct Hd; simpl; by constructor.
  - by rewrite !merge_sort_Permutation.
Qed.

Lemma canonical_array vs : canonical_json (Array vs) = "[" +:+ join_comma (map canonical_json vs) +:+ "]".
Proof. done. Qed.

Lemma canonical_object es :
  canonical_json (Object es) = object_text (map (fun e => (e.1, canonical_json e.2)) es).
Proof. done. Qed.

Lemma canonical_json_print v : json_wf v -> chars (canonical_json v) = print (normalize v).
Proof.
  induction v as [| | | |vs IH|es IH] using Value_deep_ind; intros Hwf; inv Hwf; try done.
  - rewrite canonical_array.
    change (print (normalize (Array vs)))
      with ("["%char :: commas (map print (map normalize vs)) ++ ["]"%char]).
    rewrite !chars_app, chars_join, !map_map. simpl. do 3 f_equal. apply map_ext_in.
    intros v Hv%list_elem_of_In. rewrite Forall_forall in *. naive_solver.
  - rewrite canonical_object, object_text_sorted by (rewrite map_map; simpl; done).
    rewrite sort_entries_map by done. rewrite map_map, !chars_app, chars_join, map_map.
    simpl normalize. rewrite sort_entries_map by done. simpl print. rewrite map_map. simpl.
    do 3 f_equal. apply map_ext_in. intros [k v] Hv%list_elem_of_In. simpl.
    rewrite merge_sort_Permutation in Hv. rewrite chars_app. f_equal. simpl. f_equal.
    rewrite !Forall_forall in *. apply (IH _ Hv).
    match goal with Hall : forall x, x ∈ es -> _ |- _ => exact (Hall _ Hv) end.
Qed.

(** What may follow a value. *)
Definition delim (r : list ascii) : Prop := match r with [] => True | c :: _ => number_char c = false end.

(** Comma-separated parts that are delimited and do not start with the
    closing character can be read back one by one. *)
Lemma commas_inj {A} (f : A -> list ascii) (ok : A -> Prop) (close : ascii) l1 l2 r1 r2 :
  number_char close = false -> close <> ","%char ->
  (forall a, ok a -> exists c s, f a = c :: s /\ c <> close) ->
  Forall (fun a => ok a /\ forall b r1 r2, ok b -> delim r1 -> delim r2 ->
            f a ++ r1 = f b ++ r2 -> a = b /\ r1 = r2) l1 ->
  Forall ok l2 ->
  commas (map f l1) ++ close :: r1 = commas (map f l2) ++ close :: r2 -> l1 = l2 /\ r1 = r2.
Proof.
  intros Hnc Hcomma Hstart H1. revert l2.
  induction H1 as [|a l1 [Ha Hinj] H1 IH]; intros l2 H2 Heq.
  - destruct H2 as [|b l2 Hb H2]; [by simplify_eq/=|].
    destruct (Hstart b Hb) as (c & s & Hf & Hc). destruct l2; simplify_eq/=;
      rewrite Hf in Heq; by simplify_eq/=.
  - destruct H2 as [|b l2 Hb H2].
    { destruct (Hstart a Ha) as (c & s & Hf & Hc). destruct l1; simplify_eq/=;
        rewrite Hf in Heq; by simplify_eq/=. }
    destruct l1 as [|a' l1], l2 as [|b' l2]; simpl map in Heq.
    + apply Hinj in Heq as [-> Heq]; [|done..]. by simplify_eq.
    + change (f a ++ close :: r1 = (f b ++ ","%char :: commas (f b' :: map f l2)) ++ close :: r2) in Heq.
      rewrite <- app_assoc in Heq. apply Hinj in Heq as [-> Heq]; [|done..]. by simplify_eq/=.
    + change ((f a ++ ","%char :: commas (f a' :: map f l1)) ++ close :: r1 = f b ++ close :: r2) in Heq.
      rewrite <- app_assoc in Heq. apply Hinj in Heq as [-> Heq]; [|done..]. by simplify_eq/=.
    + change ((f a ++ ","%char :: commas (f a' :: map f l1)) ++ close :: r1 =
              (f b ++ ","%char :: commas (f b' :: map f l2)) ++ close :: r2) in Heq.
      rewrite <- !app_assoc in Heq. apply Hinj in Heq as [-> Heq]; [|done..].
      injection Heq as Heq. destruct (IH (b' :: l2)) as [? ->]; [done|done|]. by split; [f_equal|].
Qed.

(** Numbers end where the next character cannot be part of one. *)
Lemma number_delimited n m r1 r2 :
  forallb number_char n = true -> forallb number_char m = true -> delim r1 -> delim r2 ->
  n ++ r1 = m ++ r2 -> n = m /\ r1 = r2.
Proof.
  revert m; induction n as [|c n IH]; intros [|d m]; simpl; intros Hn Hm H1 H2 Heq; simplify_eq/=;
    breflect; simpl in *; try congruence; [done|].
  destruct (IH m) as [-> ->]; done.
Qed.

(** The first character tells the kind of a value. *)
Inductive starts : ascii -> Value -> Prop :=
| st_null : starts "n" Null
| st_true : starts "t" (Bool true)
| st_false : starts "f" (Bool false)
| st_number c n : number_char c = true -> starts c (Number n)
| st_string s : starts (ascii_of_nat 34) (VString s)
| st_array vs : starts "[" (Array vs)
| st_object es : starts "{" (Object es).

Lemma print_starts v : json_wf v -> exists c s, print v = c :: s /\ starts c v.
Proof.
  intros Hwf; inv Hwf.
  - eexists _, _; split; [done|constructor].
  - destruct b; eexists _, _; (split; [done|constructor]).
  - destruct n as [|c n]; [done|]. simpl in *. breflect.
    eexists c, _; split; [done|by constructor].
  - pose proof (json_string_quote s) as Hq. simpl. destruct (chars (json_string s)); [done|].
    simplify_eq/=. eexists _, _; split; [done|constructor].
  - eexists _, _; split; [done|constructor].
  - eexists _, _; split; [done|constructor].
Qed.

Lemma print_not_close v c s : json_wf v -> print v = c :: s -> c <> "]"%char /\ c <> "}"%char.
Proof.
  intros Hwf Hp. destruct (print_starts v Hwf) as (c' & s' & Hp' & Hst). rewrite Hp in Hp'.
  injection Hp' as <- _. destruct Hst; split; try done; by intros ->.
Qed.

Definition prefix_free (v : Value) : Prop :=
  forall w r1 r2, json_wf w -> delim r1 -> delim r2 -> print v ++ r1 = print w ++ r2 -> v = w /\ r1 = r2.

Lemma print_prefix_free v : json_wf v -> prefix_free v.
Proof.
  induction v as [|b|n|s|vs IH|es IH] using Value_deep_ind; intros Hv w r1 r2 Hw Hd1 Hd2 Heq;
    destruct (print_starts _ Hv) as (c & s1 & Hp1 & Hs1), (print_starts w Hw) as (d & s2 & Hp2 & Hs2);
    assert (c = d) as <- by (rewrite Hp1, Hp2 in Heq; by simplify_eq/=);
    clear Hp1 Hp2 s1 s2; inv Hs1; inv Hs2; try done; simpl in Heq; simplify_eq/=; try done.
  - inv Hv; inv Hw. destruct (number_delimited (chars n) (chars n0) r1 r2) as [Hn ->]; [done..|].
    by apply list_ascii_inj in Hn as ->.
  - apply json_string_delimited in Heq as [-> ->]. done.
  - inv Hv; inv Hw. rewrite <- !app_assoc in Heq.
    destruct (commas_inj print json_wf "]" vs vs0 r1 r2) as [-> ->]; try done.
    + intros v Hwf. destruct (print_starts v Hwf) as (c & s & Hp & _).
      exists c, s. split; [done|]. by eapply print_not_close.
    + rewrite Forall_forall in *. split; [by eauto|]. apply IH; eauto.
  - inv Hv; inv Hw. rewrite <- !app_assoc in Heq.
    destruct (commas_inj (fun e : string * Value => chars (json_string e.1) ++ ":"%char :: print e.2)
                (fun e => json_wf e.2) "}" es es0 r1 r2) as [-> ->]; try done.
    + intros [k v] _. pose proof (json_string_quote k) as Hq. simpl in *.
      destruct (chars (json_string k)) as [|c s]; simplify_eq/=. by eexists _, _.
    + rewrite Forall_forall in *. intros [k v] Hin. split; [by eauto|].
      intros [k' w] r r' Hwf Hr Hr' Hk. simpl in *. rewrite <- !app_assoc in Hk.
      apply json_string_delimited in Hk as [-> Hk]. simplify_eq/=.
      destruct (IH (k', v) Hin) with w r r' as [Hvw ->]; eauto. simpl in Hvw. by subst w.
Qed.

(** Every step of [json_equiv] keeps the canonical text. *)
Lemma canonical_json_respects v w : json_equiv v w -> canonical_json v = canonical_json w.
Proof.
  induction 1 as [v|v w _ IH|u v w _ IH1 _ IH2|l1 v w l2 _ IH|l1 k v w l2 _ IH|es es' Hnd Hp].
  - done.
  - done.
  - by rewrite IH1.
  - by rewrite !canonical_array, !map_app, !map_cons, IH.
  - rewrite !canonical_object, !map_app, !map_cons. simpl. by rewrite IH.
  - rewrite !canonical_object. apply object_text_perm; [by rewrite map_map|]. by apply Permutation_map.
Qed.

Lemma canonical_json_complete v w :
  json_wf v -> json_wf w -> canonical_json v = canonical_json w -> json_equiv v w.
Proof.
  intros Hv Hw Heq. apply (f_equal chars) in Heq. rewrite !canonical_json_print in Heq by done.
  assert (Hn : normalize v = normalize w).
  { destruct (print_prefix_free (normalize v)) with (normalize w) (@nil ascii) (@nil ascii);
      try done; try by apply normalize_wf. by rewrite Heq. }
  rewrite (normalize_equiv v), (normalize_equiv w) by done. by rewrite Hn.
Qed.
End print.

(** The canonical text is a [Proper] function of the value up to entry order. *)
#[export] Instance canonical_json_proper `{JsonText} : Proper (json_equiv ==> (=)) canonical_json.
Proof. intros v w Hvw. by apply canonical_json_respects. Qed.
#[export] Instance canonical_digest_proper `{JsonText, Sha256} : Proper (json_equiv ==> (=)) canonical_digest.
Proof. intros v w Hvw. unfold canonical_digest. by rewrite Hvw. Qed.

(** [canonical_json] is canonical: two JSON values with distinct keys and
    well-formed numbers have the same canonical text exactly when they differ
    only in the order of object entries, at any depth. *)
Theorem canonical_json_canonical `{JsonTextLaws} v w :
  json_wf v -> json_wf w -> canonical_json v = canonical_json w <-> json_equiv v w.
Proof.
  intros Hv Hw. split; [by apply canonical_json_complete|]. apply canonical_json_respects.
Qed.

(** ** A string escaping that has the laws *)

Fixpoint escape (s : string) : string :=
  match s with
  | EmptyString => String (ascii_of_nat 34) EmptyString
  | String a s =>
      if Ascii.eqb a (ascii_of_nat 34) || Ascii.eqb a (ascii_of_nat 92)
      then String (ascii_of_nat 92) (String a (escape s))
      else String a (escape s)
  end.

#[export] Instance escaped_text : JsonText := fun s => String (ascii_of_nat 34) (escape s).

Lemma escape_delimited s t r1 r2 :
  chars (escape s) ++ r1 = chars (escape t) ++ r2 -> s = t /\ r1 = r2.
Proof.
  revert t; induction s as [|a s IH]; intros [|b t] Heq; cbn [escape] in Heq.
  - by simplify_eq/=.
  - destruct (Ascii.eqb_spec b (ascii_of_nat 34)), (Ascii.eqb_spec b (ascii_of_nat 92));
      simpl in Heq; by simplify_eq/=.
  - destruct (Ascii.eqb_spec a (ascii_of_nat 34)), (Ascii.eqb_spec a (ascii_of_nat 92));
      simpl in Heq; by simplify_eq/=.
  - destruct (Ascii.eqb_spec a (ascii_of_nat 34)), (Ascii.eqb_spec a (ascii_of_nat 92)),
      (Ascii.eqb_spec b (ascii_of_nat 34)), (Ascii.eqb_spec b (ascii_of_nat 92));
      simpl in Heq; try (by simplify_eq/=);
      injection Heq; intros; subst; edestruct IH as [-> ->]; done.
Qed.

#[export] Instance escaped_text_laws : JsonTextLaws.
Proof.
  split; [done|]. intros s t r1 r2 Heq. unfold json_string, escaped_text in Heq. simpl in Heq.
  injection Heq as Heq. by apply escape_delimited in Heq.
Qed.

Lemma canonical_json_canonical_witness :
  let v := Object [("b", Array [Null; Number "1"]); ("a", VString "x")] in
  let w := Object [("a", VString "x"); ("b", Array [Null; Number "1"])] in
  json_wf v /\ json_wf w /\ (canonical_json v = canonical_json w <-> json_equiv v w) /\
  canonical_json v = canonical_json w.
Proof.
  intros v w.
  assert (Hn : json_wf (Array [Null; Number "1"])) by (repeat constructor; done).
  assert (Hv : json_wf v) by (constructor; [repeat constructor; set_solver|repeat constructor; done]).
  assert (Hw : json_wf w) by (constructor; [repeat constructor; set_solver|repeat constructor; done]).
  split; [exact Hv|]. split; [exact Hw|].
  split; [exact (canonical_json_canonical v w Hv Hw)|]. vm_compute. reflexivity.
Defined.
