(* ===== verification/GovernanceFacts.v ===== *)
(** * Verification governance: theorems (marty-verification, [governance.rs])

    What a checked governance document guarantees, who is authorized and with
    which profiles, that an authorization can be resumed against the document
    that issued it, and what the request digest binds. *)

From stdpp Require Import sorting.
From S2P Require Import Prelude Governance CanonicalJsonFacts.
Local Open Scope Z_scope.

(** ** Hexadecimal digests *)

Definition lower_hex_char (a : ascii) : bool := lower_hex_byte (Z.of_N (N_of_ascii a)).

Definition is_hex_digest (s : string) : Prop :=
  str_len s = 64 /\ forallb lower_hex_byte (str_bytes s) = true.

Lemma to_digit16_lower b : lower_hex_byte b = true ->
  exists d, to_digit16 b = Some d /\ 0 <= d < 16 /\ Z.of_N (N_of_ascii (hex_lower_digit d)) = b.
Proof.
  unfold lower_hex_byte, to_digit16. intros Hb.
  assert (Hc : 48 <= b <= 57 \/ 97 <= b <= 102) by (apply orb_true_iff in Hb as [?|?]; breflect; lia).
  destruct Hc.
  - rewrite (proj2 (Z.leb_le 48 b)), (proj2 (Z.leb_le b 57)) by lia. simpl.
    exists (b - 48). split; [done|]. split; [lia|]. unfold hex_lower_digit.
    rewrite (proj2 (Z.ltb_lt _ _)) by lia. rewrite N_ascii_embedding by lia. lia.
  - rewrite (proj2 (Z.leb_gt b 57)) by lia. rewrite andb_false_r.
    rewrite (proj2 (Z.leb_le 97 b)), (proj2 (Z.leb_le b 102)) by lia. simpl.
    exists (b - 87). split; [done|]. split; [lia|]. unfold hex_lower_digit.
    rewrite (proj2 (Z.ltb_ge _ _)) by lia. rewrite N_ascii_embedding by lia. lia.
Qed.

Lemma hex_lower_digit_value d : 0 <= d < 16 ->
  to_digit16 (Z.of_N (N_of_ascii (hex_lower_digit d))) = Some d /\
  lower_hex_byte (Z.of_N (N_of_ascii (hex_lower_digit d))) = true.
Proof.
  intros Hd.
  assert (Hall : forallb (fun d => bool_decide (to_digit16 (Z.of_N (N_of_ascii (hex_lower_digit d))) = Some d)
      && lower_hex_byte (Z.of_N (N_of_ascii (hex_lower_digit d)))) (seqZ 0 16) = true) by by vm_compute.
  rewrite forallb_forall in Hall. specialize (Hall d).
  rewrite <- list_elem_of_In, elem_of_seqZ in Hall. specialize (Hall ltac:(lia)).
  by breflect.
Qed.

Lemma byte_of_nibbles h l : 0 <= h < 16 -> 0 <= l < 16 ->
  wrap 8 (Z.lor (Z.shiftl h 4) l) = 16 * h + l.
Proof.
  intros Hh Hl.
  assert (Hall : forallb (fun h => forallb (fun l => wrap 8 (Z.lor (Z.shiftl h 4) l) =? 16 * h + l)
      (seqZ 0 16)) (seqZ 0 16) = true) by by vm_compute.
  rewrite forallb_forall in Hall. specialize (Hall h). rewrite <- list_elem_of_In, elem_of_seqZ in Hall.
  specialize (Hall ltac:(lia)). rewrite forallb_forall in Hall. specialize (Hall l).
  rewrite <- list_elem_of_In, elem_of_seqZ in Hall. specialize (Hall ltac:(lia)). by breflect.
Qed.

Definition hex_chars (bs : list Z) : list ascii :=
  concat ((fun b => [hex_lower_digit (b / 16 mod 16); hex_lower_digit (b mod 16)]) <$> bs).

Definition ascii_bytes (l : list ascii) : list Z := (fun a => Z.of_N (N_of_ascii a)) <$> l.

Lemma hex_chars_cons b bs :
  ascii_bytes (hex_chars (b :: bs)) =
  Z.of_N (N_of_ascii (hex_lower_digit (b / 16 mod 16))) ::
  Z.of_N (N_of_ascii (hex_lower_digit (b mod 16))) :: ascii_bytes (hex_chars bs).
Proof. done. Qed.

Lemma decode_hex_chars bs : bytes_ok bs -> decode_pairs (ascii_bytes (hex_chars bs)) = Some bs.
Proof.
  induction 1 as [|b bs Hb Hbs IH]; [done|]. unfold byte_ok in Hb.
  rewrite hex_chars_cons. cbn [decode_pairs]. rewrite IH.
  destruct (hex_lower_digit_value (b / 16 mod 16)) as [-> _]; [Z.to_euclidean_division_equations; lia|].
  destruct (hex_lower_digit_value (b mod 16)) as [-> _]; [Z.to_euclidean_division_equations; lia|].
  simpl. f_equal. f_equal.
  rewrite byte_of_nibbles by (Z.to_euclidean_division_equations; lia).
  Z.to_euclidean_division_equations; lia.
Qed.

Lemma hex_lower_bytes bs : str_bytes (hex_lower bs) = ascii_bytes (hex_chars bs).
Proof. unfold str_bytes, hex_lower. by rewrite String.list_ascii_of_string_of_list_ascii. Qed.

Lemma str_len_bytes s : str_len s = zlen (str_bytes s).
Proof.
  unfold str_len, zlen, str_bytes. rewrite length_fmap.
  induction s as [|a s IH]; simpl; lia.
Qed.

Lemma hex_chars_length bs : length (hex_chars bs) = (2 * length bs)%nat.
Proof.
  induction bs as [|b bs IH]; [done|].
  change (length (hex_chars (b :: bs))) with (S (S (length (hex_chars bs)))). rewrite IH. simpl. lia.
Qed.

Lemma decode_hex_lower bs : bytes_ok bs -> decode_hex (hex_lower bs) = Some bs.
Proof.
  intros Hbs. unfold decode_hex. rewrite str_len_bytes, hex_lower_bytes. unfold zlen, ascii_bytes.
  rewrite length_fmap, hex_chars_length.
  replace (Z.of_nat (2 * length bs) mod 2) with 0 by (Z.to_euclidean_division_equations; lia).
  by apply decode_hex_chars.
Qed.

Lemma hex_lower_inj bs bs' : bytes_ok bs -> bytes_ok bs' -> hex_lower bs = hex_lower bs' -> bs = bs'.
Proof.
  intros H1 H2 Heq. pose proof (decode_hex_lower bs H1) as E. rewrite Heq, decode_hex_lower in E by done.
  by injection E.
Qed.

(** Decoding a lower-case text gives the bytes it is the hexadecimal text of. *)
Lemma decode_pairs_lower n bytes :
  length bytes = (2 * n)%nat -> forallb lower_hex_byte bytes = true ->
  exists bs, decode_pairs bytes = Some bs /\ bytes_ok bs /\ bytes = ascii_bytes (hex_chars bs).
Proof.
  revert bytes; induction n as [|n IH]; intros bytes Hlen Hlow.
  { destruct bytes; [|done]. exists []. by repeat constructor. }
  destruct bytes as [|a [|b bytes]]; simpl in Hlen; [lia..|]. simpl in Hlow. breflect.
  destruct (to_digit16_lower a) as (h & Hh & Hhr & Ha); [done|].
  destruct (to_digit16_lower b) as (l & Hl & Hlr & Hb); [done|].
  destruct (IH bytes) as (bs & Hdec & Hok & Hbs); [lia|done|].
  exists ((16 * h + l) :: bs). cbn [decode_pairs]. rewrite Hh, Hl, Hdec.
  split; [simpl; by rewrite byte_of_nibbles|]. split.
  - constructor; [unfold byte_ok; lia|done].
  - rewrite hex_chars_cons.
    replace ((16 * h + l) / 16 mod 16) with h by (Z.to_euclidean_division_equations; lia).
    replace ((16 * h + l) mod 16) with l by (Z.to_euclidean_division_equations; lia).
    by rewrite Ha, Hb, Hbs.
Qed.

Lemma decode_hex_digest s : is_hex_digest s ->
  exists bs, decode_hex s = Some bs /\ bytes_ok bs /\ s = hex_lower bs.
Proof.
  intros [Hlen Hlow]. rewrite str_len_bytes in Hlen. unfold zlen in Hlen.
  destruct (decode_pairs_lower 32 (str_bytes s)) as (bs & Hdec & Hok & Hbs); [lia|done|].
  exists bs. split; [|split; [done|]].
  - unfold decode_hex. rewrite str_len_bytes. unfold zlen. by rewrite Hlen.
  - apply str_bytes_inj. by rewrite hex_lower_bytes.
Qed.

(** ** Comparing digests *)

Lemma foldl_lor_zero {A} (f : A -> Z) l start :
  foldl (fun d i => Z.lor d (f i)) start l = 0 <-> start = 0 /\ Forall (fun i => f i = 0) l.
Proof.
  revert start; induction l as [|i l IH]; intros start; simpl.
  - split; [by intros ->|by intros [-> _]].
  - rewrite IH, Z.lor_eq_0_iff, Forall_cons. tauto.
Qed.

Lemma constant_time_equal_spec l r : constant_time_equal l r = true <-> l = r.
Proof.
  unfold constant_time_equal. rewrite Z.eqb_eq, foldl_lor_zero, Z.lxor_eq_0_iff. split.
  - intros [Hlen Hall]. rewrite Forall_forall in Hall. apply list_eq_same_length with (length l); [unfold zlen in Hlen; lia|done|].
    intros i x y Hi Hx Hy. specialize (Hall i). rewrite Hx, Hy in Hall. simpl in Hall.
    apply Z.lxor_eq_0_iff, Hall, elem_of_seq. lia.
  - intros ->. split; [done|]. apply Forall_forall. intros i _. by rewrite Z.lxor_nilpotent.
Qed.

(** ** What the checks accept *)

Create HintDb fields.

(** The text of the field only appears in errors. *)
Ltac by_fields :=
  simpl; try done; repeat (match goal with
          | |- context [ensure ?b _] => destruct b
          end; simpl; try done).

Section checks.
Context `{JsonText, Sha256, Uuid}.

Lemma bounded_text_field v f f' : bounded_text v f = Ok tt -> bounded_text v f' = Ok tt.
Proof. unfold bounded_text. by_fields. Qed.

Lemma lowercase_sha256_field v f f' p : lowercase_sha256 v f p = Ok tt -> lowercase_sha256 v f' p = Ok tt.
Proof. unfold lowercase_sha256. destruct p; [destruct (strip_prefix "sha256:" v)|]; simpl; by_fields. Qed.

Lemma canonical_uuid_field v f f' : canonical_uuid v f = Ok tt -> canonical_uuid v f' = Ok tt.
Proof. unfold canonical_uuid. destruct (uuid_parse_display v); simpl; by_fields. Qed.

Lemma seq_Ok {E B} (c : res E unit) (k : res E B) v : (c;; k) = Ok v <-> c = Ok tt /\ k = Ok v.
Proof. destruct c as [[]|e|]; simpl; naive_solver. Qed.

#[local] Hint Resolve bounded_text_field lowercase_sha256_field canonical_uuid_field : fields.
#[local] Hint Extern 1 (ensure _ _ = Ok tt) => eapply ensure_Ok, ensure_Ok; eassumption : fields.

Lemma validate_component_field c f f' : validate_component c f = Ok tt -> validate_component c f' = Ok tt.
Proof. unfold validate_component. rewrite !seq_Ok. intuition eauto with fields. Qed.

Lemma validate_policy_content_field c f f' :
  validate_policy_content c f = Ok tt -> validate_policy_content c f' = Ok tt.
Proof. unfold validate_policy_content. cbv zeta. rewrite !seq_Ok. intuition eauto with fields. Qed.

Lemma validate_trust_content_field c f f' :
  validate_trust_content c f = Ok tt -> validate_trust_content c f' = Ok tt.
Proof. unfold validate_trust_content. rewrite !seq_Ok. intuition eauto with fields. Qed.

#[local] Hint Resolve validate_component_field validate_policy_content_field
  validate_trust_content_field : fields.

Lemma validate_policy_field p f f' : validate_policy p f = Ok tt -> validate_policy p f' = Ok tt.
Proof. unfold validate_policy. rewrite !seq_Ok. intuition eauto with fields. Qed.

Lemma validate_trust_field t f f' : validate_trust t f = Ok tt -> validate_trust t f' = Ok tt.
Proof. unfold validate_trust. rewrite !seq_Ok. intuition eauto with fields. Qed.

Lemma lowercase_sha256_digest v f : lowercase_sha256 v f false = Ok tt <-> is_hex_digest v.
Proof. unfold lowercase_sha256, is_hex_digest. simpl. rewrite ensure_Ok, andb_true_iff, Z.eqb_eq. done. Qed.

(** Keys outside a growing set of seen keys are distinct. *)
Lemma seen_add {A K} `{Countable K} (key : A -> K) (k : K) (seen : gset K) l :
  Forall (fun x => key x ∉ ({[k]} ∪ seen)) l -> (k ∉ map key l) /\ Forall (fun x => key x ∉ seen) l.
Proof.
  intros Hall. split.
  - intros Hin. apply list_elem_of_fmap in Hin as (x & -> & Hx). rewrite Forall_forall in Hall.
    specialize (Hall x Hx). set_solver.
  - eapply Forall_impl; [done|]. set_solver.
Qed.

Lemma validate_policies_Ok i seen ps : validate_policies i seen ps = Ok tt ->
  Forall (fun p => forall f, validate_policy p f = Ok tt) ps /\
  NoDup (map (fun p => (policy_organization_id p, policy_doc_id p)) ps) /\
  Forall (fun p => (policy_organization_id p, policy_doc_id p) ∉ seen) ps.
Proof.
  revert i seen. induction ps as [|p ps IH]; intros i seen; simpl; [by repeat constructor|].
  rewrite !seq_Ok, ensure_Ok. intros (Hp & Hnew & Hrest). apply IH in Hrest as (Hall & Hnd & Hseen).
  apply seen_add in Hseen as [Hnot Hseen]. breflect.
  split; [|split]; constructor; eauto using validate_policy_field.
Qed.

Lemma validate_trusts_Ok i seen ts : validate_trusts i seen ts = Ok tt ->
  Forall (fun t => forall f, validate_trust t f = Ok tt) ts /\
  NoDup (map (fun t => (trust_organization_id t, trust_doc_id t)) ts) /\
  Forall (fun t => (trust_organization_id t, trust_doc_id t) ∉ seen) ts.
Proof.
  revert i seen. induction ts as [|p ts IH]; intros i seen; simpl; [by repeat constructor|].
  rewrite !seq_Ok, ensure_Ok. intros (Hp & Hnew & Hrest). apply IH in Hrest as (Hall & Hnd & Hseen).
  apply seen_add in Hseen as [Hnot Hseen]. breflect.
  split; [|split]; constructor; eauto using validate_trust_field.
Qed.

(** What the checks establish of a purpose of a client, and of a client. *)
Definition purpose_ok (g : GovernanceDocument) (c : ClientAuthorization)
    (e : string * PurposeAuthorization) : Prop :=
  is_Ok (required_checks e.1) = true /\
  exists p t,
    find_policy g (client_organization_id c) (auth_policy_id e.2) = Some p /\
    find_trust g (client_organization_id c) (auth_trust_profile_id e.2) = Some t /\
    require_purpose_checks e.1 (required_checks_of (policy_content p)) = Ok tt.

Record client_ok (g : GovernanceDocument) (c : ClientAuthorization) : Prop := {
  ck_id : forall f, bounded_text (client_id c) f = Ok tt;
  ck_org : forall f, canonical_uuid (client_organization_id c) f = Ok tt;
  ck_digest : is_hex_digest (api_key_sha256 c);
  ck_purposes : Forall (purpose_ok g c) (purposes c);
}.

Lemma existsb_find {A} (f : A -> bool) l : existsb f l = true -> exists x, find f l = Some x.
Proof.
  induction l as [|a l IH]; simpl; [done|]. destruct (f a); simpl; [by exists a|done].
Qed.

Lemma validate_purposes_Ok g c f ps : validate_purposes g c f ps = Ok tt -> Forall (purpose_ok g c) ps.
Proof.
  induction ps as [|[purpose a] ps IH]; cbn [validate_purposes]; [by constructor|].
  rewrite bind_Ok. intros (required & Hreq & Hv). rewrite !seq_Ok, bind_Ok in Hv.
  destruct Hv as (_ & _ & p & Hp%ok_or_Ok & Hv). rewrite !seq_Ok, map_err_Ok, ensure_Ok in Hv.
  destruct Hv as (Ht & Hchecks & Hrest). apply existsb_find in Ht as [t Ht].
  constructor; [|by apply IH]. split; simpl; [by rewrite Hreq|]. by exists p, t.
Qed.

Lemma validate_clients_Ok g i ids digests cs : validate_clients g i ids digests cs = Ok tt ->
  Forall (client_ok g) cs /\
  NoDup (map client_id cs) /\ Forall (fun c => client_id c ∉ ids) cs /\
  NoDup (map api_key_sha256 cs) /\ Forall (fun c => api_key_sha256 c ∉ digests) cs.
Proof.
  revert i ids digests. induction cs as [|c cs IH]; intros i ids digests; cbn [validate_clients].
  { by repeat constructor. }
  cbv zeta. rewrite !seq_Ok, !ensure_Ok.
  intros (Hid & Horg & Hdig & _ & Hnew & Hnewd & Hps & Hrest).
  apply IH in Hrest as (Hall & Hnd & Hids & Hndd & Hdigs).
  apply seen_add in Hids as [? ?], Hdigs as [? ?]. breflect.
  repeat split; try by constructor. constructor; [|done].
  constructor; eauto using bounded_text_field, canonical_uuid_field, validate_purposes_Ok.
  by eapply lowercase_sha256_digest.
Qed.

(** What a checked document guarantees. *)
Record governance_ok (g : GovernanceDocument) : Prop := {
  go_component : forall f, validate_component (gov_component g) f = Ok tt;
  go_policies : Forall (fun p => forall f, validate_policy p f = Ok tt) (policies g);
  go_policy_keys : NoDup (map (fun p => (policy_organization_id p, policy_doc_id p)) (policies g));
  go_trusts : Forall (fun t => forall f, validate_trust t f = Ok tt) (trust_profiles g);
  go_trust_keys : NoDup (map (fun t => (trust_organization_id t, trust_doc_id t)) (trust_profiles g));
  go_clients : Forall (client_ok g) (clients g);
  go_client_ids : NoDup (map client_id (clients g));
  go_key_digests : NoDup (map api_key_sha256 (clients g));
}.

Lemma check_governance_ok g : check_governance g = Ok tt -> governance_ok g.
Proof.
  unfold check_governance. rewrite !seq_Ok. intros (Hc & _ & Hp & Ht & Hcs).
  apply validate_policies_Ok in Hp as (? & ? & _). apply validate_trusts_Ok in Ht as (? & ? & _).
  apply validate_clients_Ok in Hcs as (? & ? & _ & ? & _).
  split; eauto using validate_component_field.
Qed.
End checks.

(** ** Lookups *)

Lemma find_Some_eq {A} (f : A -> bool) l x : find f l = Some x -> x ∈ l /\ f x = true.
Proof. intros Hf%find_some. by rewrite list_elem_of_In. Qed.

(** The first match is the only one when matches share a key that is unique. *)
Lemma find_unique {A K} (key : A -> K) (f : A -> bool) l x :
  NoDup (map key l) -> (forall y, f y = true -> key y = key x) -> x ∈ l -> f x = true ->
  find f l = Some x.
Proof.
  intros Hnd Hkey Hx Hf. destruct (find f l) as [y|] eqn:Hfind.
  - apply find_Some_eq in Hfind as [Hy Hfy]. f_equal. apply Hkey in Hfy.
    apply list_elem_of_lookup in Hx as [i Hi], Hy as [j Hj].
    assert (i = j) as ->; [|by simplify_eq].
    eapply (NoDup_lookup (map key l)); [done|..]; rewrite list_lookup_fmap;
      [by rewrite Hi|by rewrite Hj; simpl; f_equal].
  - rewrite (find_none _ _ Hfind x) in Hf; [done|]. by apply list_elem_of_In.
Qed.

(** The client of a key, purpose, policy and trust profile are registered. *)
Record registered (g : GovernanceDocument) (c : ClientAuthorization) (purpose : string)
    (p : PolicyDocument) (t : TrustDocument) : Prop := {
  rg_client : c ∈ clients g;
  rg_purpose : purpose_get c purpose = Some (mkAuthorization (policy_doc_id p) (trust_doc_id t));
  rg_policy : p ∈ policies g;
  rg_policy_org : policy_organization_id p = client_organization_id c;
  rg_trust : t ∈ trust_profiles g;
  rg_trust_org : trust_organization_id t = client_organization_id c;
}.

Lemma find_policy_Some g org id p : find_policy g org id = Some p ->
  p ∈ policies g /\ policy_organization_id p = org /\ policy_doc_id p = id.
Proof. intros [Hin Hb]%find_Some_eq. apply andb_true_iff in Hb as [?%String.eqb_eq ?%String.eqb_eq]. done. Qed.

Lemma find_trust_Some g org id t : find_trust g org id = Some t ->
  t ∈ trust_profiles g /\ trust_organization_id t = org /\ trust_doc_id t = id.
Proof. intros [Hin Hb]%find_Some_eq. apply andb_true_iff in Hb as [?%String.eqb_eq ?%String.eqb_eq]. done. Qed.

Section lookups.
Context `{JsonText, Sha256, Uuid}.

Lemma find_policy_registered g p : governance_ok g -> p ∈ policies g ->
  find_policy g (policy_organization_id p) (policy_doc_id p) = Some p.
Proof.
  intros Hg Hp. eapply find_unique; [by apply Hg| |done|by rewrite !String.eqb_refl].
  intros y Hy. apply andb_true_iff in Hy as [?%String.eqb_eq ?%String.eqb_eq]. by f_equal.
Qed.

Lemma find_trust_registered g t : governance_ok g -> t ∈ trust_profiles g ->
  find_trust g (trust_organization_id t) (trust_doc_id t) = Some t.
Proof.
  intros Hg Ht. eapply find_unique; [by apply Hg| |done|by rewrite !String.eqb_refl].
  intros y Hy. apply andb_true_iff in Hy as [?%String.eqb_eq ?%String.eqb_eq]. by f_equal.
Qed.

Lemma find_client_registered g c : governance_ok g -> c ∈ clients g ->
  find (fun c' => String.eqb (client_id c') (client_id c)) (clients g) = Some c.
Proof.
  intros Hg Hc. eapply (find_unique client_id); [by apply Hg| |done|by rewrite String.eqb_refl].
  by intros y ?%String.eqb_eq.
Qed.

(** The purpose map of a checked client leads to registered profiles. *)
Lemma purpose_registered g c purpose a : governance_ok g -> c ∈ clients g ->
  purpose_get c purpose = Some a ->
  exists p t, find_policy g (client_organization_id c) (auth_policy_id a) = Some p /\
    find_trust g (client_organization_id c) (auth_trust_profile_id a) = Some t /\
    registered g c purpose p t /\
    is_Ok (required_checks purpose) = true /\
    require_purpose_checks purpose (required_checks_of (policy_content p)) = Ok tt.
Proof.
  intros Hg Hc Hget. pose proof Hget as Hget'. unfold purpose_get in Hget'.
  apply fmap_Some in Hget' as ([purpose' a'] & Hfind & Ha). apply find_Some_eq in Hfind as [Hin Heq].
  simpl in Ha, Heq. apply String.eqb_eq in Heq as ->. subst a'.
  pose proof (go_clients _ Hg) as Hcs. rewrite Forall_forall in Hcs.
  pose proof (ck_purposes _ _ (Hcs c Hc)) as Hps. rewrite Forall_forall in Hps.
  destruct (Hps _ Hin) as (Hreq & p & t & Hp & Ht & Hchecks). exists p, t.
  split; [done|]. split; [done|]. split; [|done].
  apply find_policy_Some in Hp as (? & ? & Hpid). apply find_trust_Some in Ht as (? & ? & Htid).
  split; try done. rewrite Hpid, Htid, Hget. by destruct a.
Qed.

Lemma registered_found g c purpose p t : governance_ok g -> registered g c purpose p t ->
  find_policy g (client_organization_id c) (policy_doc_id p) = Some p /\
  find_trust g (client_organization_id c) (trust_doc_id t) = Some t.
Proof.
  intros Hg [? ? Hp <- Ht Horg]. split; [by apply find_policy_registered|].
  rewrite <- Horg. by apply find_trust_registered.
Qed.

(** ** Authorization by API key *)

Lemma match_client_snoc supplied cs c :
  match_client supplied (cs ++ [c]) =
  if constant_time_equal supplied (default [] (decode_hex (api_key_sha256 c))) then Some c
  else match_client supplied cs.
Proof. unfold match_client. by rewrite foldl_app. Qed.

Lemma matches_digest supplied c : bytes_ok supplied -> is_hex_digest (api_key_sha256 c) ->
  constant_time_equal supplied (default [] (decode_hex (api_key_sha256 c))) = true <->
  api_key_sha256 c = hex_lower supplied.
Proof.
  intros Hs Hc. destruct (decode_hex_digest _ Hc) as (bs & -> & Hbs & ->). simpl.
  rewrite constant_time_equal_spec. split; [by intros ->|]. intros Heq. symmetry.
  by apply hex_lower_inj in Heq.
Qed.

Lemma match_client_sound supplied cs c : bytes_ok supplied ->
  Forall (fun c => is_hex_digest (api_key_sha256 c)) cs ->
  match_client supplied cs = Some c -> c ∈ cs /\ api_key_sha256 c = hex_lower supplied.
Proof.
  intros Hs. induction cs as [|x cs IH] using rev_ind; [done|].
  rewrite Forall_app, Forall_singleton. intros [Hcs Hx]. rewrite match_client_snoc.
  destruct (constant_time_equal _ _) eqn:Heq.
  - intros [= ->]. apply matches_digest in Heq; [|done..]. set_solver.
  - intros Hm. destruct (IH Hcs Hm). set_solver.
Qed.

Lemma match_client_complete supplied cs c : bytes_ok supplied ->
  Forall (fun c => is_hex_digest (api_key_sha256 c)) cs -> NoDup (map api_key_sha256 cs) ->
  c ∈ cs -> api_key_sha256 c = hex_lower supplied -> match_client supplied cs = Some c.
Proof.
  intros Hs. induction cs as [|x cs IH] using rev_ind; [set_solver|].
  rewrite Forall_app, Forall_singleton, map_app, NoDup_app.
  intros [Hcs Hx] (Hnd & Hdisj & _) Hin Hc. rewrite match_client_snoc.
  destruct (constant_time_equal _ _) eqn:Heq.
  - apply matches_digest in Heq; [|done..]. f_equal.
    apply elem_of_app in Hin as [Hin|Hin%list_elem_of_singleton]; [|done]. exfalso.
    apply (Hdisj (api_key_sha256 c)); [by apply list_elem_of_fmap_2|]. simpl. rewrite Hc, Heq. by left.
  - apply elem_of_app in Hin as [Hin|Hin%list_elem_of_singleton]; [by apply IH|]. subst x.
    apply matches_digest in Hc; [congruence|done..].
Qed.

Context `{!Sha256Laws}.

Lemma clients_hex g : governance_ok g -> Forall (fun c => is_hex_digest (api_key_sha256 c)) (clients g).
Proof. intros Hg. eapply Forall_impl; [by apply Hg|]. by intros c []. Qed.

(** The length guard of [authorize]. *)
Definition key_accepted (api_key : string) : Prop := api_key <> ""%string /\ str_len api_key <= 4096.

Lemma key_guard api_key :
  negb (String.eqb api_key "" || (4096 <? str_len api_key)) = true <-> key_accepted api_key.
Proof.
  unfold key_accepted. rewrite negb_true_iff, orb_false_iff, String.eqb_neq, Z.ltb_ge. done.
Qed.

Lemma authorize_iff g api_key purpose s : governance_ok g ->
  authorize g api_key purpose = Ok s <->
  is_Ok (required_checks purpose) = true /\ key_accepted api_key /\
  exists c p t, registered g c purpose p t /\
    api_key_sha256 c = hex_lower (sha256 api_key) /\ s = snapshot g c purpose p t.
Proof.
  intros Hg. pose proof (clients_hex g Hg) as Hhex. destruct (sha256_digest api_key) as [_ Hbs].
  unfold authorize. split.
  - intros Ha. apply bind_Ok in Ha as (req & Hreq%map_err_Ok & Ha). rewrite seq_Ok, ensure_Ok, key_guard in Ha.
    destruct Ha as [Hkey Ha]. cbv zeta in Ha.
    apply bind_Ok in Ha as (c & Hc%ok_or_Ok & Ha). apply bind_Ok in Ha as (a & Hget%ok_or_Ok & Ha).
    apply match_client_sound in Hc as [Hc Hdig]; [|done..].
    destruct (purpose_registered g c purpose a) as (p & t & Hp & Ht & Hreg & _); [done..|].
    rewrite Hp, Ht in Ha. simpl in Ha. injection Ha as <-.
    split; [by rewrite Hreq|]. split; [done|]. by exists c, p, t.
  - intros (Hreq & Hkey & c & p & t & Hreg & Hdig & ->).
    destruct (required_checks purpose) as [req|e|]; [|done..]. simpl.
    rewrite (proj2 (key_guard api_key) Hkey). simpl.
    rewrite (match_client_complete (sha256 api_key) (clients g) c); try done; [|by apply Hg|by apply Hreg].
    simpl. rewrite (rg_purpose _ _ _ _ _ Hreg). simpl.
    destruct (registered_found g c purpose p t Hg Hreg) as [-> ->]. done.
Qed.

(** The error of a refused authorization. *)
Definition authorize_error (purpose : string) : string :=
  if is_Ok (required_checks purpose) then "Invalid or unauthorized API key"
  else "Unsupported verification purpose".

Lemma required_checks_no_panic purpose : no_panic (required_checks purpose).
Proof. unfold required_checks. by repeat case_match. Qed.

Lemma authorize_total g api_key purpose : governance_ok g ->
  (exists s, authorize g api_key purpose = Ok s) \/
  authorize g api_key purpose = Err (authorize_error purpose).
Proof.
  intros Hg. pose proof (clients_hex g Hg) as Hhex. destruct (sha256_digest api_key) as [_ Hbs].
  unfold authorize, authorize_error. pose proof (required_checks_no_panic purpose) as Hnp.
  destruct (required_checks purpose) as [req|e|]; [|by right|done]. simpl.
  destruct (negb _); simpl; [|by right].
  destruct (match_client _ _) as [c|] eqn:Hc; simpl; [|by right].
  destruct (purpose_get c purpose) as [a|] eqn:Hget; simpl; [|by right].
  apply match_client_sound in Hc as [Hc _]; [|done..].
  destruct (purpose_registered g c purpose a) as (p & t & -> & -> & _); [done..|]. simpl. eauto.
Qed.
End lookups.

(** C34: On a checked governance document [authorize] never panics (its two
    [expect]s hold); it returns a snapshot exactly when the purpose is
    supported, the key has 1 to 4096 bytes and its SHA-256 is the registered
    digest of a client registered for that purpose, with that client's policy
    and trust profile; every refusal of a supported purpose is the same error. *)
Theorem authorize_correct `{JsonText, Sha256, Uuid, !Sha256Laws} g api_key purpose :
  check_governance g = Ok tt ->
  (forall s, authorize g api_key purpose = Ok s <->
     is_Ok (required_checks purpose) = true /\ key_accepted api_key /\
     exists c p t, registered g c purpose p t /\
       api_key_sha256 c = hex_lower (sha256 api_key) /\ s = snapshot g c purpose p t) /\
  ((exists s, authorize g api_key purpose = Ok s) \/
   authorize g api_key purpose = Err (authorize_error purpose)).
Proof.
  intros Hg%check_governance_ok. split; [intros s; by apply authorize_iff|by apply authorize_total].
Qed.

(** ** Resuming a persisted snapshot *)

(** The snapshot with the component that is running now. *)
Definition with_component (s : GovernanceSnapshot) (c : ComponentReference) : GovernanceSnapshot :=
  mkSnapshot (snap_client_id s) (snap_purpose s) (snap_organization_id s) (snap_policy s)
    (snap_trust_profile s) c.

Section resume.
Context `{JsonText, Sha256, Uuid}.

Lemma resume_snapshot g c purpose p t s : governance_ok g -> registered g c purpose p t ->
  with_component s (gov_component g) = snapshot g c purpose p t ->
  resume g s = Ok (snapshot g c purpose p t).
Proof.
  intros Hg Hreg Hs. destruct s as [sid sp so spol strust scomp]. unfold with_component, snapshot in Hs.
  simpl in Hs. simplify_eq. unfold resume. simpl.
  rewrite find_client_registered by (done || by apply Hreg). simpl. rewrite String.eqb_refl. simpl.
  rewrite (rg_purpose _ _ _ _ _ Hreg). simpl. rewrite !String.eqb_refl. simpl.
  destruct (registered_found g c purpose p t Hg Hreg) as [-> ->]. simpl.
  by rewrite !bool_decide_eq_true_2 by done.
Qed.

Lemma resume_iff g s s' : governance_ok g ->
  resume g s = Ok s' <->
  exists c p t, registered g c (snap_purpose s) p t /\ s' = snapshot g c (snap_purpose s) p t /\
    s' = with_component s (gov_component g).
Proof.
  intros Hg. split.
  - unfold resume. intros Hr. apply bind_Ok in Hr as (c & Hc%ok_or_Ok & Hr).
    apply bind_Some in Hc as (c' & [Hin Hid%String.eqb_eq]%find_Some_eq & Hc).
    destruct (String.eqb_spec (client_organization_id c') (snap_organization_id s)) as [Horg|]; [|done].
    injection Hc as ->. apply bind_Ok in Hr as (a & Hget%ok_or_Ok & Hr).
    apply seq_Ok in Hr as [_ Hr]. cbv zeta in Hr.
    destruct (purpose_registered g c (snap_purpose s) a) as (p & t & Hp & Ht & Hreg & _); [done..|].
    rewrite <- Horg, Hp, Ht in Hr. simpl in Hr. apply seq_Ok in Hr as [Heq%ensure_Ok Hr].
    injection Hr as <-. exists c, p, t. split; [done|]. split; [done|].
    apply negb_true_iff, orb_false_iff in Heq as [Hpol Htr]. breflect.
    destruct s; unfold with_component, snapshot in *; simpl in *. by simplify_eq.
  - intros (c & p & t & Hreg & -> & Hs). by apply resume_snapshot.
Qed.

Lemma resume_no_panic g s : no_panic (resume g s).
Proof. unfold resume. solve_no_panic. Qed.
End resume.

(** [resume] revalidates the whole authority: it never panics, and it accepts
    a persisted snapshot exactly when its client, organization, purpose, policy
    and trust profile are, content included, those registered now; the result
    is that snapshot with the component of the current document. *)
Theorem resume_correct `{JsonText, Sha256, Uuid} g s :
  check_governance g = Ok tt ->
  no_panic (resume g s) /\
  forall s', resume g s = Ok s' <->
    exists c p t, registered g c (snap_purpose s) p t /\ s' = snapshot g c (snap_purpose s) p t /\
      s' = with_component s (gov_component g).
Proof.
  intros Hg%check_governance_ok. split; [apply resume_no_panic|intros s'; by apply resume_iff].
Qed.

(** ** What a parsed snapshot guarantees *)

Definition slt (a b : string) : Prop := str_lt a b = true.

#[export] Instance slt_trans : Transitive slt.
Proof.
  intros a b c. unfold slt, str_lt. rewrite !andb_true_iff, !negb_true_iff, !String.eqb_neq.
  intros [Hab Hn] [Hbc Hm]. split; [by eapply bytes_le_trans|]. intros ->.
  apply Hn, str_bytes_inj. by apply bytes_le_antisym.
Qed.

Lemma is_sorted_unique_spec l : is_sorted_unique l = true -> StronglySorted slt l.
Proof.
  intros Hl. apply Sorted_StronglySorted; [apply slt_trans|].
  induction l as [|a [|b l] IH]; [by constructor|by repeat constructor|].
  simpl in Hl. breflect. constructor; [by apply IH|by constructor].
Qed.

Lemma slt_sorted_NoDup l : StronglySorted slt l -> NoDup l.
Proof.
  induction 1 as [|a l _ IH Hall]; constructor; [|done]. intros Hin. rewrite Forall_forall in Hall.
  specialize (Hall a Hin). unfold slt, str_lt in Hall. by rewrite String.eqb_refl, andb_false_r in Hall.
Qed.

Lemma require_purpose_checks_Ok purpose checks u : require_purpose_checks purpose checks = Ok u ->
  exists required, required_checks purpose = Ok required /\ forall c, c ∈ required -> c ∈ checks.
Proof.
  unfold require_purpose_checks. rewrite bind_Ok. intros (req & Hreq%map_err_Ok & Hm). exists req.
  split; [done|]. intros c Hc. destruct (decide (c ∈ checks)) as [|Hn]; [done|]. exfalso.
  destruct (List.filter _ req) as [|m ms] eqn:Hf; [|done].
  assert (Hin : In c (List.filter (fun c => negb (bool_decide (c ∈ (list_to_set checks : gset string)))) req)).
  { apply filter_In. split; [by apply list_elem_of_In|]. rewrite bool_decide_eq_false_2; [done|set_solver]. }
  by rewrite Hf in Hin.
Qed.

(** The guarantees of a governed verification. *)
Record governed `{JsonText, Sha256} (s : GovernanceSnapshot) : Prop := {
  gv_checks : exists required, required_checks (snap_purpose s) = Ok required /\
    forall c, c ∈ required -> c ∈ required_checks_of (sp_content (snap_policy s));
  gv_policy_digest : canonical_digest (policy_content_value (sp_content (snap_policy s)))
    = ref_content_digest (sp_reference (snap_policy s));
  gv_trust_digest : canonical_digest (trust_content_value (st_content (snap_trust_profile s)))
    = ref_content_digest (st_reference (snap_trust_profile s));
  gv_issuers : trusted_issuers (st_content (snap_trust_profile s)) <> [] /\
    NoDup (trusted_issuers (st_content (snap_trust_profile s)));
  gv_no_fallback : allow_public_did_fallback (st_content (snap_trust_profile s)) = false;
  gv_component : component_id (snap_component s) = CREDENTIALS_COMPONENT_ID /\
    adapter_id (snap_component s) = VERIFICATION_ADAPTER_ID;
}.

Section snapshots.
Context `{JsonText, Sha256, Uuid}.

Lemma validate_policy_digest p f : validate_policy p f = Ok tt ->
  canonical_digest (policy_content_value (policy_content p)) = policy_content_digest p.
Proof. unfold validate_policy. rewrite !seq_Ok, ensure_Ok, String.eqb_eq. tauto. Qed.

Lemma validate_trust_guarantees t f : validate_trust t f = Ok tt ->
  canonical_digest (trust_content_value (trust_content t)) = trust_content_digest t /\
  (trusted_issuers (trust_content t) <> [] /\ NoDup (trusted_issuers (trust_content t))) /\
  allow_public_did_fallback (trust_content t) = false.
Proof.
  unfold validate_trust, validate_trust_content. rewrite !seq_Ok, !ensure_Ok, String.eqb_eq.
  intros (_ & _ & _ & _ & [Hiss Hfb] & Hdig). split; [done|]. breflect. split; [|done].
  split; [done|]. by apply slt_sorted_NoDup, is_sorted_unique_spec.
Qed.

Lemma check_snapshot_governed s : check_snapshot s = Ok tt -> governed s.
Proof.
  unfold check_snapshot. rewrite seq_Ok, bind_Ok. intros (_ & req & Hreq & Hs).
  rewrite !seq_Ok, map_err_Ok in Hs. destruct Hs as (_ & Hc & Hp & Ht & Hchecks).
  apply validate_policy_digest in Hp. apply validate_trust_guarantees in Ht as (Hd & Hi & Hf).
  unfold validate_component in Hc. rewrite !seq_Ok, !ensure_Ok, !String.eqb_eq in Hc.
  split; try done; [by apply require_purpose_checks_Ok in Hchecks|tauto].
Qed.

(** The snapshot of a registered authority passes the checks of a parsed one. *)
Lemma snapshot_checked g c purpose p t : governance_ok g -> registered g c purpose p t ->
  check_snapshot (snapshot g c purpose p t) = Ok tt.
Proof.
  intros Hg Hreg. pose proof (go_clients _ Hg) as Hcs. rewrite Forall_forall in Hcs.
  pose proof (Hcs c (rg_client _ _ _ _ _ Hreg)) as Hc.
  destruct (purpose_registered g c purpose (mkAuthorization (policy_doc_id p) (trust_doc_id t)))
    as (p' & t' & Hp' & Ht' & _ & Hreq & Hchecks); [done|by apply Hreg|by apply Hreg|].
  destruct (registered_found g c purpose p t Hg Hreg) as [Hp Ht]. simpl in *.
  rewrite Hp in Hp'. injection Hp' as <-.
  pose proof (go_policies _ Hg) as Hps. pose proof (go_trusts _ Hg) as Hts. rewrite Forall_forall in Hps. rewrite Forall_forall in Hts.
  unfold check_snapshot. simpl. rewrite (ck_id _ _ Hc). simpl.
  destruct (required_checks purpose); [|done..]. simpl. rewrite (ck_org _ _ Hc). simpl.
  rewrite (go_component _ Hg). unfold validate_snapshot_policy, validate_snapshot_trust. simpl.
  pose proof (rg_policy_org _ _ _ _ _ Hreg) as Hpo. pose proof (rg_trust_org _ _ _ _ _ Hreg) as Hto.
  rewrite <- Hpo at 1. rewrite <- Hto. destruct p, t. simpl in *.
  rewrite (Hps _ (rg_policy _ _ _ _ _ Hreg)). simpl.
  rewrite (Hts _ (rg_trust _ _ _ _ _ Hreg)). simpl. by rewrite Hchecks.
Qed.

Lemma require_purpose_checks_no_panic purpose checks : no_panic (require_purpose_checks purpose checks).
Proof.
  unfold require_purpose_checks. apply bind_no_panic; [|intros; by case_match].
  apply map_err_no_panic, required_checks_no_panic.
Qed.

#[local] Hint Resolve map_err_no_panic required_checks_no_panic require_purpose_checks_no_panic : marty.

Lemma check_snapshot_no_panic s : no_panic (check_snapshot s).
Proof.
  unfold check_snapshot, validate_snapshot_policy, validate_snapshot_trust, validate_policy, validate_trust,
    validate_component, validate_policy_content, validate_trust_content, bounded_text, canonical_uuid,
    lowercase_sha256. solve_no_panic.
Qed.
End snapshots.

(** C35: Parsing any persisted snapshot never panics; an accepted one has a
    supported purpose with every mandatory check in its policy, content digests
    that are the canonical digests of the contents, a non-empty duplicate-free
    list of trusted issuers, no public DID fallback, and the component and
    adapter of this verifier. *)
Theorem parse_snapshot_governed `{JsonText, Sha256, Uuid, Serde} v :
  no_panic (parse_snapshot v) /\ forall s, parse_snapshot v = Ok s -> governed s.
Proof.
  unfold parse_snapshot. split.
  - destruct (snapshot_from_value v) as [e|s]; [done|]. simpl.
    apply bind_no_panic; [apply check_snapshot_no_panic|done].
  - intros s Hp. apply bind_Ok in Hp as (s' & _ & Hp). apply seq_Ok in Hp as [Hc [= <-]].
    by apply check_snapshot_governed.
Qed.

(** ** The JSON entry points *)

(** What serde documents: a serialized snapshot is a JSON text from which
    deserialization gives the snapshot back. *)
Class SerdeLaws `{Serde} : Prop :=
  snapshot_text_roundtrip s text : snapshot_to_string s = inr text ->
    exists v, value_from_str text = inr v /\ snapshot_from_value v = inr s.

Section json.
Context `{JsonText, Sha256, Uuid, !Sha256Laws, Serde, !SerdeLaws}.

Lemma or_err_Ok {E A} (f : string -> E) (x : string + A) a : or_err f x = Ok a <-> x = inr a.
Proof. destruct x; simpl; naive_solver. Qed.

Lemma parse_governance_ok raw g : parse_governance raw = Ok g -> governance_ok g.
Proof.
  unfold parse_governance. intros Hp. apply bind_Ok in Hp as (g' & _ & Hp).
  apply seq_Ok in Hp as [Hg [= <-]]. by apply check_governance_ok.
Qed.

Lemma authorize_resumes g api_key purpose s : governance_ok g -> authorize g api_key purpose = Ok s ->
  check_snapshot s = Ok tt /\ resume g s = Ok s.
Proof.
  intros Hg Ha. apply authorize_iff in Ha as (_ & _ & c & p & t & Hreg & _ & ->); [|done].
  split; [by apply snapshot_checked|]. by apply (resume_snapshot g c purpose p t).
Qed.
End json.

(** An authorization survives persistence: the text returned by
    [authorize_governance_json] is JSON that [governance_from_snapshot_json]
    accepts unchanged and that [resume_governance_json], given the governance
    document it was issued from, resumes to the same text. *)
Theorem authorized_snapshot_resumes `{JsonText, Sha256, Uuid, !Sha256Laws, Serde, !SerdeLaws}
    request_json request text :
  authorization_from_str request_json = inr request ->
  authorize_governance_json request_json = Ok text ->
  exists v, value_from_str text = inr v /\
    (forall json, snapshot_request_from_str json = inr (mkSnapshotRequest v) ->
       governance_from_snapshot_json json = Ok text) /\
    (forall json, resume_from_str json = inr (mkResumeRequest (ar_governance request) v) ->
       resume_governance_json json = Ok text).
Proof.
  intros Hreq Ha. unfold authorize_governance_json in Ha. rewrite Hreq in Ha. simpl in Ha.
  apply bind_Ok in Ha as (raw & Hraw%or_err_Ok & Ha). apply bind_Ok in Ha as (g & Hg & Ha).
  apply bind_Ok in Ha as (s & Hs & Htext%or_err_Ok).
  pose proof (parse_governance_ok raw g Hg) as Hok.
  destruct (authorize_resumes g _ _ s Hok Hs) as [Hc Hr].
  destruct (snapshot_text_roundtrip s text Htext) as (v & Hv & Hsv). exists v. split; [done|].
  split; intros json Hjson.
  - unfold governance_from_snapshot_json, parse_snapshot. rewrite Hjson. simpl. rewrite Hsv. simpl.
    rewrite Hc. simpl. by rewrite Htext.
  - unfold resume_governance_json, parse_snapshot. rewrite Hjson. simpl. rewrite Hraw. simpl.
    rewrite Hg. simpl. rewrite Hsv. simpl. rewrite Hc. simpl. rewrite Hr. simpl. by rewrite Htext.
Qed.

Lemma canonical_digest_binding `{JsonTextLaws, Sha256, !Sha256Laws} v w :
  json_wf v -> json_wf w -> canonical_digest v = canonical_digest w ->
  json_equiv v w \/
  (canonical_json v <> canonical_json w /\ sha256 (canonical_json v) = sha256 (canonical_json w)).
Proof.
  intros Hv Hw Heq. unfold canonical_digest in Heq. apply (inj (String.append "sha256:")) in Heq.
  apply hex_lower_inj in Heq; [|by apply sha256_digest..].
  destruct (decide (canonical_json v = canonical_json w)) as [Hc|Hc]; [left|by right].
  by apply canonical_json_complete.
Qed.

Lemma validate_request_iff `{JsonText, Sha256, Serde} json request :
  validate_from_str json = inr request ->
  validate_governance_request_json json = Ok tt <->
  vr_verifier_id request = vr_snapshot_verifier_id request /\
  canonical_digest (vr_presentation_definition request) = vr_snapshot_definition_digest request.
Proof.
  intros Hjson. unfold validate_governance_request_json. rewrite Hjson, bind_Ok. split.
  - intros (r & [= <-] & Hr). by rewrite seq_Ok, !ensure_Ok, !String.eqb_eq in Hr.
  - intros Hr. exists request. by rewrite seq_Ok, !ensure_Ok, !String.eqb_eq.
Qed.

(** A governed request is accepted exactly when its verifier id is the policy's
    and its presentation definition has the policy's digest. When the policy
    pins the digest of a definition [d], every reordering of the keys of [d] is
    accepted, and anything else that is accepted is a SHA-256 collision. *)
Theorem governed_request_binding `{JsonTextLaws, Sha256, !Sha256Laws, Serde} json request d :
  validate_from_str json = inr request ->
  vr_snapshot_definition_digest request = canonical_digest d ->
  json_wf d -> json_wf (vr_presentation_definition request) ->
  let presented := vr_presentation_definition request in
  (vr_verifier_id request = vr_snapshot_verifier_id request -> json_equiv presented d ->
     validate_governance_request_json json = Ok tt) /\
  (validate_governance_request_json json = Ok tt ->
     vr_verifier_id request = vr_snapshot_verifier_id request /\
     (json_equiv presented d \/
      (canonical_json presented <> canonical_json d /\
       sha256 (canonical_json presented) = sha256 (canonical_json d)))).
Proof.
  intros Hjson Hd Hwd Hwp presented. rewrite (validate_request_iff json request Hjson), Hd. split.
  - intros Hid Heq. split; [done|]. by apply canonical_digest_proper.
  - intros [Hid Heq]. split; [done|]. by apply canonical_digest_binding.
Qed.

(** ** Witnesses *)

#[local] Instance toy_sha256 : Sha256 := fun m => resize 32 0 (str_bytes m).
#[local] Instance toy_sha256_laws : Sha256Laws.
Proof.
  intros m. split; [apply length_resize|]. unfold sha256, toy_sha256, bytes_ok.
  apply Forall_resize; [unfold byte_ok; lia|]. unfold str_bytes. apply Forall_fmap, Forall_true.
  intros a. simpl. unfold byte_ok. pose proof (N_ascii_bounded a). lia.
Qed.
#[local] Instance toy_uuid : Uuid := fun s => Some s.

Definition sample_policy_content : PolicyContent :=
  mkPolicyContent "v" (canonical_digest (Object [("id", VString "pd")])) VDS_CHECKS.
Definition sample_trust_content : TrustContent := mkTrustContent ["did:web:a"; "did:web:b"] false.
Definition sample_governance : GovernanceDocument :=
  mkGovernance
    (mkComponent CREDENTIALS_COMPONENT_ID "1" (canonical_digest Null) VERIFICATION_ADAPTER_ID "1")
    [mkPolicy "org" "p" "1" (canonical_digest (policy_content_value sample_policy_content)) sample_policy_content]
    [mkTrust "org" "t" "1" (canonical_digest (trust_content_value sample_trust_content)) sample_trust_content]
    [mkClient "c" (hex_lower (sha256 "secret")) "org" [(VDS_NC_VERIFY_PURPOSE, mkAuthorization "p" "t")]].
Definition sample_snapshot : GovernanceSnapshot :=
  mkSnapshot "c" VDS_NC_VERIFY_PURPOSE "org"
    (mkSnapshotPolicy (mkProfile "p" "1" (canonical_digest (policy_content_value sample_policy_content)))
       sample_policy_content)
    (mkSnapshotTrust (mkProfile "t" "1" (canonical_digest (trust_content_value sample_trust_content)))
       sample_trust_content)
    (gov_component sample_governance).

Lemma authorize_correct_witness :
  check_governance sample_governance = Ok tt /\
  authorize sample_governance "secret" VDS_NC_VERIFY_PURPOSE = Ok sample_snapshot /\
  key_accepted "secret".
Proof.
  assert (Hg : check_governance sample_governance = Ok tt) by (vm_compute; reflexivity).
  assert (Ha : authorize sample_governance "secret" VDS_NC_VERIFY_PURPOSE = Ok sample_snapshot)
    by (vm_compute; reflexivity).
  split; [exact Hg|]. split; [exact Ha|].
  exact (proj1 (proj2 (proj1 (proj1 (authorize_correct sample_governance "secret" VDS_NC_VERIFY_PURPOSE Hg) _) Ha))).
Defined.

Lemma resume_correct_witness :
  check_governance sample_governance = Ok tt /\ no_panic (resume sample_governance sample_snapshot) /\
  resume sample_governance sample_snapshot = Ok sample_snapshot.
Proof.
  assert (Hg : check_governance sample_governance = Ok tt) by (vm_compute; reflexivity).
  split; [exact Hg|]. split; [exact (proj1 (resume_correct sample_governance sample_snapshot Hg))|].
  vm_compute. reflexivity.
Defined.

#[local] Instance snapshot_eq_dec : EqDecision GovernanceSnapshot.
Proof.
  assert (EqDecision ComponentReference) by solve_decision. solve_decision.
Defined.

(** A deserializer that knows the requests of the witnesses. *)
#[local] Instance toy_serde : Serde := {
  value_from_str s := inr (VString s);
  governance_from_str _ := inr sample_governance;
  authorization_from_str _ := inr (mkAuthorizationRequest Null "secret" VDS_NC_VERIFY_PURPOSE);
  resume_from_str _ := inr (mkResumeRequest Null (VString "snapshot"));
  snapshot_request_from_str _ := inr (mkSnapshotRequest (VString "snapshot"));
  purpose_from_str _ := inr (mkPurposeRequest "" [] "");
  validate_from_str _ :=
    inr (mkValidateRequest "v" (canonical_digest (Object [("a", Null); ("b", Null)])) "v"
           (Object [("b", Null); ("a", Null)]));
  snapshot_from_value v := if decide (canonical_json v = canonical_json (VString "snapshot"))
                           then inr sample_snapshot else inl "invalid"%string;
  value_to_string _ := inr "{}"%string;
  snapshot_to_string s := if decide (s = sample_snapshot) then inr "snapshot"%string else inl "unknown"%string;
}.
#[local] Instance toy_serde_laws : SerdeLaws.
Proof.
  intros s text. cbn [snapshot_to_string toy_serde]. destruct (decide (s = sample_snapshot)) as [->|]; [|done].
  intros [= <-]. exists (VString "snapshot"). split; [done|]. cbn [snapshot_from_value toy_serde].
  by rewrite decide_True.
Qed.

Lemma authorized_snapshot_resumes_witness :
  authorize_governance_json "request" = Ok "snapshot"%string /\
  exists v, value_from_str "snapshot" = inr v /\
    (forall json, snapshot_request_from_str json = inr (mkSnapshotRequest v) ->
       governance_from_snapshot_json json = Ok "snapshot"%string) /\
    (forall json, resume_from_str json = inr (mkResumeRequest Null v) ->
       resume_governance_json json = Ok "snapshot"%string).
Proof.
  assert (Ha : authorize_governance_json "request" = Ok "snapshot"%string) by (vm_compute; reflexivity).
  split; [exact Ha|].
  exact (authorized_snapshot_resumes "request" _ "snapshot" eq_refl Ha).
Defined.

Lemma governed_request_binding_witness :
  validate_governance_request_json "request" = Ok tt.
Proof.
  assert (Hwf : forall k k', k <> k' -> json_wf (Object [(k, Null); (k', Null)])).
  { intros k k' Hk. constructor; [|repeat constructor].
    constructor; [rewrite list_elem_of_singleton; exact Hk|constructor; [apply not_elem_of_nil|constructor]]. }
  refine (proj1 (governed_request_binding "request" _ (Object [("a", Null); ("b", Null)]) eq_refl eq_refl
            (Hwf _ _ _) (Hwf _ _ _)) eq_refl _); [discriminate|discriminate|].
  apply je_perm; [|apply Permutation_swap].
  simpl. constructor; [rewrite list_elem_of_singleton; discriminate|constructor; [apply not_elem_of_nil|constructor]].
Defined.
