(* ===== verification/DeviceAuth.v ===== *)
(** * Device registration proofs (marty-verification, [device_auth.rs])

    Device key parsing and thumbprints, challenge messages, challenge binding,
    signature verification and the eligibility of a device key.  Strings are
    byte strings.  [base64], SHA-256, [serde_json]'s string escaping, the RSA
    library and RFC 3339 parsing are parameters. *)

From S2P Require Import Prelude Governance.
From stdpp Require Import pretty.
Local Open Scope Z_scope.

(** [src/marty-verification/src/device_auth.rs:19-25] CHALLENGE_AUDIENCE and the limits *)
Definition CHALLENGE_AUDIENCE : string := "marty-device-registration".
Definition MAX_KEY_VERSION : Z := 9007199254740991.
Definition MAX_ROTATION_GRACE_SECONDS : Z := 900.
Definition MAX_ENCODED_KEY_BYTES : Z := 16 * 1024.
Definition MAX_CHALLENGE_MESSAGE_BYTES : Z := 16 * 1024.
Definition MIN_RSA_BITS : Z := 2048.
Definition MAX_RSA_BITS : Z := 8192.

(** [src/marty-verification/src/device_auth.rs:27-45] DeviceAuthError *)
Inductive DeviceAuthError :=
| InvalidBase64Url (kind : string)
| InvalidPublicKey (msg : string)
| UnsupportedKey (msg : string)
| PublicKeyKidMismatch
| InvalidChallenge (msg : string)
| InvalidSignature
| InvalidTimestamp (name : string)
| SerializationFailed (msg : string).

#[local] Abbreviation result := (res DeviceAuthError).

(** [src/marty-verification/src/device_auth.rs:49-55] DevicePublicKeyInspection *)
Record DevicePublicKeyInspection := mkInspection {
  insp_kid : string;
  insp_sha256 : string;
  insp_key_bits : Z;
}.

(** The [rsa] crate: SPKI and PKCS#1 decoding, PKCS#1 encoding, the parts of a
    key, and PSS verification with SHA-256 and a salt length. *)
Class Rsa := {
  RsaPublicKey : Type;
  from_pkcs1_der : list Z -> option RsaPublicKey;
  from_public_key_der : list Z -> option RsaPublicKey;
  to_pkcs1_der : RsaPublicKey -> option (list Z);
  n_bits : RsaPublicKey -> Z;
  n_bytes : RsaPublicKey -> list Z;
  e_bytes : RsaPublicKey -> list Z;
  key_size : RsaPublicKey -> Z;
  pss_signature_try_from : list Z -> bool;
  pss_verify : RsaPublicKey -> Z -> string -> list Z -> bool;
}.

(** What the code relies on: a DER text is not both a SubjectPublicKeyInfo and
    an RSAPublicKey. *)
Class RsaLaws `{Rsa} : Prop :=
  der_formats_disjoint der key : from_pkcs1_der der = Some key -> from_public_key_der der = None.

(** [DateTime::parse_from_rfc3339]: the instant, in nanoseconds. *)
Class Rfc3339 := parse_rfc3339 : string -> option Z.

Definition bytes_str (bs : list Z) : string :=
  String.string_of_list_ascii ((fun b => ascii_of_N (Z.to_N b)) <$> bs).

(** ** Base64url input *)

(** [value.trim_end_matches('=')]. *)
Fixpoint drop_equals (rev_chars : list ascii) : list ascii :=
  match rev_chars with
  | "="%char :: rest => drop_equals rest
  | _ => rev_chars
  end.
Definition trim_end_equals (s : string) : string :=
  String.string_of_list_ascii (reverse (drop_equals (reverse (String.list_ascii_of_string s)))).

Definition is_base64url_byte (b : Z) : bool :=
  ((48 <=? b) && (b <=? 57)) || ((65 <=? b) && (b <=? 90)) || ((97 <=? b) && (b <=? 122)) ||
  (b =? 45) || (b =? 95).

Section device_auth.
Context `{Base64Url, Sha256, JsonText, Rsa, Rfc3339}.

(** [src/marty-verification/src/device_auth.rs:63-84] decode_base64url *)
Definition decode_base64url (value kind : string) (max_len : Z) : result (list Z) :=
  ensure (negb (String.eqb value "" || (max_len <? str_len value))) (InvalidBase64Url kind);;
  let unpadded := trim_end_equals value in
  let padding := str_len value - str_len unpadded in
  ensure (negb ((2 <? padding) || existsb (Z.eqb 61) (str_bytes unpadded) ||
                negb (forallb is_base64url_byte (str_bytes unpadded))))
    (InvalidBase64Url kind);;
  decoded ← match b64_decode unpadded with inl _ => Err (InvalidBase64Url kind) | inr bs => Ok bs end;
  ensure (negb ((zlen decoded =? 0) || negb (String.eqb (b64_encode decoded) unpadded)))
    (InvalidBase64Url kind);;
  Ok decoded.

(** [src/marty-verification/src/device_auth.rs:57-61] ParsedDevicePublicKey *)
Record ParsedDevicePublicKey := mkParsedKey {
  raw_der : list Z;
  parsed_key : RsaPublicKey;
  inspection : DevicePublicKeyInspection;
}.

Definition quote : string := String (ascii_of_nat 34) EmptyString.

(** [src/marty-verification/src/device_auth.rs:86-128] parse_device_public_key *)
Definition parse_device_public_key (encoded : string) : result ParsedDevicePublicKey :=
  raw ← decode_base64url encoded "public_key_der" MAX_ENCODED_KEY_BYTES;
  key ← match from_pkcs1_der raw with
        | Some key => Ok key
        | None =>
            match from_public_key_der raw with
            | Some _ => Err (InvalidPublicKey "public_key_der must use canonical PKCS#1 DER encoding")
            | None => Err (InvalidPublicKey "public_key_der must contain a valid RSA public key")
            end
        end;
  canonical ← ok_or (to_pkcs1_der key) (InvalidPublicKey "public_key_der could not be canonicalized");
  ensure (bool_decide (canonical = raw))
    (InvalidPublicKey "public_key_der must use canonical PKCS#1 DER encoding");;
  let bits := n_bits key in
  ensure ((MIN_RSA_BITS <=? bits) && (bits <=? MAX_RSA_BITS))
    (UnsupportedKey ("device RSA public keys must be at least " +:+ pretty MIN_RSA_BITS
       +:+ " bits and no more than " +:+ pretty MAX_RSA_BITS +:+ " bits"));;
  let modulus := b64_encode (n_bytes key) in
  let exponent := b64_encode (e_bytes key) in
  let canonical_jwk := "{" +:+ quote +:+ "e" +:+ quote +:+ ":" +:+ quote +:+ exponent +:+ quote +:+ ","
    +:+ quote +:+ "kty" +:+ quote +:+ ":" +:+ quote +:+ "RSA" +:+ quote +:+ ","
    +:+ quote +:+ "n" +:+ quote +:+ ":" +:+ quote +:+ modulus +:+ quote +:+ "}" in
  Ok (mkParsedKey raw key
        (mkInspection (b64_encode (sha256 canonical_jwk)) (hex_lower (sha256 (bytes_str raw))) bits)).

(** [src/marty-verification/src/device_auth.rs:130-132] inspect_device_public_key *)
Definition inspect_device_public_key (encoded : string) : result DevicePublicKeyInspection :=
  parsed ← parse_device_public_key encoded; Ok (inspection parsed).

(** [src/marty-verification/src/device_auth.rs:406-415] constant_time_eq on two strings *)
Definition str_constant_time_eq (left right : string) : bool :=
  if negb (str_len left =? str_len right) then false
  else foldl (fun difference ab => Z.lor difference (Z.lxor ab.1 ab.2)) 0
         (zip (str_bytes left) (str_bytes right)) =? 0.

(** [src/marty-verification/src/device_auth.rs:134-143] validate_device_public_key *)
Definition validate_device_public_key (encoded claimed_kid : string) : result DevicePublicKeyInspection :=
  insp ← inspect_device_public_key encoded;
  ensure (str_constant_time_eq (insp_kid insp) claimed_kid) PublicKeyKidMismatch;;
  Ok insp.

(** ** Challenges *)

(** [src/marty-verification/src/device_auth.rs:157-178] DeviceChallengeRecord *)
Record DeviceChallengeRecord := mkChallenge {
  challenge_id : string;
  user_id : string;
  device_id : string;
  public_key_kid : string;
  public_key_sha256 : string;
  nonce : string;
  created_at : string;
  expires_at : string;
  registration_id : option string;
  key_version : option Z;
  purpose : string;
  audience : string;
  message_version : Z;
}.

(** [src/marty-verification/src/device_auth.rs:196-207] the fields DeviceChallengeRecord::validate bounds, in its order *)
Definition challenge_fields (c : DeviceChallengeRecord) : list (string * string) :=
  [("challenge_id", challenge_id c); ("user_id", user_id c); ("device_id", device_id c);
   ("public_key_kid", public_key_kid c); ("public_key_sha256", public_key_sha256 c);
   ("nonce", nonce c); ("created_at", created_at c); ("expires_at", expires_at c);
   ("purpose", purpose c); ("audience", audience c)].

(** [src/marty-verification/src/device_auth.rs:208-214] DeviceChallengeRecord::validate, the loop over the fields *)
Fixpoint check_fields (fields : list (string * string)) : result unit :=
  match fields with
  | [] => Ok tt
  | (name, value) :: rest =>
      ensure (negb (String.eqb value "" || (2048 <? str_len value)))
        (InvalidChallenge (name +:+ " is empty or exceeds 2048 bytes"));;
      check_fields rest
  end.

(** [src/marty-verification/src/device_auth.rs:195-229] DeviceChallengeRecord::validate *)
Definition challenge_validate (c : DeviceChallengeRecord) : result unit :=
  check_fields (challenge_fields c);;
  ensure (negb (match key_version c with Some v => MAX_KEY_VERSION <? v | None => false end))
    (InvalidChallenge "key_version exceeds the interoperable integer limit");;
  ensure ((message_version c =? 1) || (message_version c =? 2))
    (InvalidChallenge "unsupported challenge message version").

(** One member of a JSON object, and a nullable value. *)
Definition json_member (name value : string) : string := quote +:+ name +:+ quote +:+ ":" +:+ value.
Definition json_opt {A} (f : A -> string) (o : option A) : string :=
  match o with Some a => f a | None => "null" end.

(** [src/marty-verification/src/device_auth.rs:180-192] ChallengeMessageV2, as the JSON text of its members in order *)
Definition challenge_json_v2 (c : DeviceChallengeRecord) : string :=
  "{" +:+ json_member "audience" (json_string (audience c)) +:+ ","
      +:+ json_member "challenge_id" (json_string (challenge_id c)) +:+ ","
      +:+ json_member "device_id" (json_string (device_id c)) +:+ ","
      +:+ json_member "expires_at" (json_string (expires_at c)) +:+ ","
      +:+ json_member "key_version" (json_opt pretty (key_version c)) +:+ ","
      +:+ json_member "nonce" (json_string (nonce c)) +:+ ","
      +:+ json_member "public_key_kid" (json_string (public_key_kid c)) +:+ ","
      +:+ json_member "purpose" (json_string (purpose c)) +:+ ","
      +:+ json_member "registration_id" (json_opt json_string (registration_id c)) +:+ ","
      +:+ json_member "user_id" (json_string (user_id c)) +:+ "}".

Definition newline : string := String (ascii_of_nat 10) EmptyString.

(** [src/marty-verification/src/device_auth.rs:233-238] DeviceChallengeRecord::message, version 1 *)
Definition challenge_text_v1 (c : DeviceChallengeRecord) : string :=
  "marty-device-registration-v1" +:+ newline +:+ CHALLENGE_AUDIENCE +:+ newline +:+ challenge_id c
    +:+ newline +:+ user_id c +:+ newline +:+ device_id c +:+ newline +:+ public_key_kid c
    +:+ newline +:+ nonce c.

(** [src/marty-verification/src/device_auth.rs:231-262] DeviceChallengeRecord::message; writing the members does not fail *)
Definition challenge_message (c : DeviceChallengeRecord) : result string :=
  challenge_validate c;;
  let message := if message_version c =? 1 then challenge_text_v1 c
                 else "marty-device-registration-v2" +:+ newline +:+ challenge_json_v2 c in
  ensure (negb (MAX_CHALLENGE_MESSAGE_BYTES <? str_len message))
    (InvalidChallenge "challenge message exceeds its size limit");;
  Ok message.

(** [src/marty-verification/src/device_auth.rs:264-266] DeviceChallengeRecord::encoded_message *)
Definition encoded_message (c : DeviceChallengeRecord) : result string :=
  message ← challenge_message c; Ok (b64_encode (str_bytes message)).

(** [src/marty-verification/src/device_auth.rs:401-404] parse_time *)
Definition parse_time (name value : string) : result Z :=
  ok_or (parse_rfc3339 value) (InvalidTimestamp name).

(** [src/marty-verification/src/device_auth.rs:268-271] DeviceChallengeRecord::is_expired_at *)
Definition is_expired_at (c : DeviceChallengeRecord) (now : string) : result bool :=
  challenge_validate c;;
  n ← parse_time "now" now;
  e ← parse_time "challenge.expires_at" (expires_at c);
  Ok (e <=? n).

(** [src/marty-verification/src/device_auth.rs:378-383] DeviceKeyEligibilityResult *)
Record DeviceKeyEligibilityResult := mkEligibility { eligible : bool; code : string }.

(** [src/marty-verification/src/device_auth.rs:386-391] DeviceKeyEligibilityResult::allow *)
Definition allow (c : string) : DeviceKeyEligibilityResult := mkEligibility true c.
(** [src/marty-verification/src/device_auth.rs:393-398] DeviceKeyEligibilityResult::deny *)
Definition deny (c : string) : DeviceKeyEligibilityResult := mkEligibility false c.

(** [src/marty-verification/src/device_auth.rs:274-289] DeviceChallengeBindingRequest *)
Record DeviceChallengeBindingRequest := mkBindingRequest {
  br_challenge : DeviceChallengeRecord;
  br_user_id : string;
  br_device_id : string;
  br_public_key_kid : string;
  br_public_key_sha256 : string;
  br_registration_id : option string;
  br_key_version : option Z;
  br_purpose : string;
  br_audience : string;
  br_now : string;
}.

(** [src/marty-verification/src/device_auth.rs:291-317] evaluate_device_challenge_binding *)
Definition evaluate_device_challenge_binding (r : DeviceChallengeBindingRequest) :
    result DeviceKeyEligibilityResult :=
  let c := br_challenge r in
  challenge_validate c;;
  now ← parse_time "now" (br_now r);
  expires ← parse_time "challenge.expires_at" (expires_at c);
  if expires <=? now then Ok (deny "CHALLENGE_EXPIRED")
  else if negb (String.eqb (user_id c) (br_user_id r)) || negb (String.eqb (device_id c) (br_device_id r)) ||
          negb (str_constant_time_eq (public_key_kid c) (br_public_key_kid r)) ||
          negb (str_constant_time_eq (public_key_sha256 c) (br_public_key_sha256 r)) ||
          negb (bool_decide (registration_id c = br_registration_id r)) ||
          negb (bool_decide (key_version c = br_key_version r)) ||
          negb (String.eqb (purpose c) (br_purpose r)) || negb (String.eqb (audience c) (br_audience r))
  then Ok (deny "CHALLENGE_BINDING_MISMATCH")
  else Ok (allow "CHALLENGE_BINDING_MATCH").

(** ** Signatures *)

(** [src/marty-crypto/src/rsa.rs:373-382] parse_rsa_public_key; [None] is its error *)
Definition parse_rsa_public_key (der : list Z) : option RsaPublicKey :=
  match from_public_key_der der with Some key => Some key | None => from_pkcs1_der der end.

(** [src/marty-crypto/src/rsa.rs:289-306] verify_pss_sha256_with_salt_len; [None] is its error *)
Definition verify_pss_sha256_with_salt_len (der : list Z) (message : string) (signature : list Z)
    (salt_len : Z) : option bool :=
  public_key ← parse_rsa_public_key der;
  if pss_signature_try_from signature then Some (pss_verify public_key salt_len message signature) else None.

(** [src/marty-crypto/src/rsa.rs:280-286] verify_pss_sha256 *)
Definition verify_pss_sha256 (der : list Z) (message : string) (signature : list Z) : option bool :=
  verify_pss_sha256_with_salt_len der message signature 32.

(** [src/marty-verification/src/device_auth.rs:319-334] verify_device_challenge_signature *)
Definition verify_device_challenge_signature (public_key_der : string) (challenge : DeviceChallengeRecord)
    (signature_b64url : string) : result unit :=
  parsed ← parse_device_public_key public_key_der;
  signature ← decode_base64url signature_b64url "signature" MAX_ENCODED_KEY_BYTES;
  ensure (zlen signature =? key_size (parsed_key parsed)) InvalidSignature;;
  message ← challenge_message challenge;
  match verify_pss_sha256 (raw_der parsed) message signature with
  | Some true => Ok tt
  | _ => Err InvalidSignature
  end.

(** ** Eligibility of a device key *)

(** [src/marty-verification/src/device_auth.rs:336-343] DeviceKeyState *)
Inductive DeviceKeyState := Current | Retiring | Retired | Revoked.

#[export] Instance DeviceKeyState_eq_dec : EqDecision DeviceKeyState.
Proof. solve_decision. Defined.

(** [src/marty-verification/src/device_auth.rs:345-365] DeviceKeyRecord *)
Record DeviceKeyRecord := mkKeyRecord {
  k_id : string;
  k_registration_id : string;
  k_key_version : Z;
  k_public_key_der : string;
  k_public_key_kid : string;
  k_state : DeviceKeyState;
  k_valid_from : string;
  k_valid_until : option string;
  k_rotated_at : option string;
  k_retire_at : option string;
  k_revoked_at : option string;
  k_created_at : option string;
}.

(** [src/marty-verification/src/device_auth.rs:367-376] DeviceKeyEligibilityRequest *)
Record DeviceKeyEligibilityRequest := mkEligibilityRequest {
  er_key : DeviceKeyRecord;
  er_registration_active : bool;
  er_challenge : DeviceChallengeRecord;
  er_purpose : string;
  er_audience : string;
  er_now : string;
}.

(** [src/marty-verification/src/device_auth.rs:417-422] purpose_allows_rotation_grace *)
Definition purpose_allows_rotation_grace (p : string) : bool :=
  negb (String.eqb p "device_registration" || String.eqb p "device_key_rotation" ||
        String.eqb p "device_registration_update").

(** [Duration::num_seconds]: whole seconds, rounded towards zero. *)
Definition num_seconds (nanoseconds : Z) : Z := Z.quot nanoseconds 1000000000.

(** [src/marty-verification/src/device_auth.rs:489-511] the rotation window of evaluate_device_key_eligibility *)
Definition evaluate_rotation_window (r : DeviceKeyEligibilityRequest) (now : Z) :
    result DeviceKeyEligibilityResult :=
  match k_rotated_at (er_key r), k_retire_at (er_key r) with
  | Some rotated, Some retire =>
      rotated_at ← parse_time "key.rotated_at" rotated;
      retire_at ← parse_time "key.retire_at" retire;
      created ← parse_time "challenge.created_at" (created_at (er_challenge r));
      if (retire_at <=? rotated_at) || (MAX_ROTATION_GRACE_SECONDS <? num_seconds (retire_at - rotated_at))
      then Ok (deny "ROTATION_WINDOW_INVALID")
      else if rotated_at <=? created then Ok (deny "CHALLENGE_NOT_PRE_ROTATION")
      else if retire_at <=? now then Ok (deny "ROTATION_GRACE_EXPIRED")
      else Ok (allow "ELIGIBLE_ROTATION_GRACE")
  | _, _ => Ok (deny "ROTATION_WINDOW_INVALID")
  end.

(** [src/marty-verification/src/device_auth.rs:474-478] evaluate_device_key_eligibility, whether valid_until has passed *)
Definition key_expired (k : DeviceKeyRecord) (now : Z) : result bool :=
  match k_valid_until k with
  | Some valid_until => v ← parse_time "key.valid_until" valid_until; Ok (v <=? now)
  | None => Ok false
  end.

(** [src/marty-verification/src/device_auth.rs:424-512] evaluate_device_key_eligibility *)
Definition evaluate_device_key_eligibility (r : DeviceKeyEligibilityRequest) :
    result DeviceKeyEligibilityResult :=
  let key := er_key r in
  let c := er_challenge r in
  now ← parse_time "now" (er_now r);
  valid_from ← parse_time "key.valid_from" (k_valid_from key);
  expires ← parse_time "challenge.expires_at" (expires_at c);
  match inspect_device_public_key (k_public_key_der key) with
  | Panic => Panic
  | Err _ => Ok (deny "KEY_MATERIAL_INVALID")
  | Ok insp =>
      if negb (er_registration_active r) then Ok (deny "REGISTRATION_INACTIVE")
      else if bool_decide (k_state key = Retired) || bool_decide (k_state key = Revoked)
      then Ok (deny "KEY_STATE_INELIGIBLE")
      else if MAX_KEY_VERSION <? k_key_version key then Ok (deny "KEY_VERSION_INVALID")
      else if negb (str_constant_time_eq (k_public_key_kid key) (insp_kid insp)) ||
              negb (str_constant_time_eq (public_key_sha256 c) (insp_sha256 insp))
      then Ok (deny "KEY_MATERIAL_MISMATCH")
      else if negb (bool_decide (registration_id c = Some (k_registration_id key))) ||
              negb (bool_decide (key_version c = Some (k_key_version key))) ||
              negb (str_constant_time_eq (public_key_kid c) (k_public_key_kid key)) ||
              negb (String.eqb (purpose c) (er_purpose r)) || negb (String.eqb (audience c) (er_audience r))
      then Ok (deny "CHALLENGE_BINDING_MISMATCH")
      else if expires <=? now then Ok (deny "CHALLENGE_EXPIRED")
      else if now <? valid_from then Ok (deny "KEY_NOT_YET_VALID")
      else
        expired ← key_expired key now;
        if (expired : bool) then Ok (deny "KEY_EXPIRED")
        else if bool_decide (k_state key = Current) then Ok (allow "ELIGIBLE_CURRENT")
        else if negb (bool_decide (k_state key = Retiring)) || negb (purpose_allows_rotation_grace (er_purpose r))
        then Ok (deny "ROTATION_GRACE_DISALLOWED")
        else evaluate_rotation_window r now
  end.
End device_auth.
