(* ===== verification/DeviceAuthFacts.v ===== *)
(** * Device registration proofs: theorems (marty-verification, [device_auth.rs])

    When a device key is eligible, what a challenge message binds, and what an
    accepted signature means. *)

From stdpp Require Import pretty.
From S2P Require Import Prelude Governance CanonicalJsonFacts GovernanceFacts DeviceAuth.
Local Open Scope Z_scope.

#[local] Abbreviation chars := String.list_ascii_of_string.

Lemma str_constant_time_eq_spec s t : str_constant_time_eq s t = true <-> s = t.
Proof.
  unfold str_constant_time_eq. rewrite !str_len_bytes.
  destruct (Z.eqb_spec (zlen (str_bytes s)) (zlen (str_bytes t))) as [Hl|Hl]; simpl.
  2:{ split; [done|]. intros ->. done. }
  rewrite Z.eqb_eq, (foldl_lor_zero (fun ab => Z.lxor ab.1 ab.2)). split; [|intros ->].
  - intros [_ Hall]. apply str_bytes_inj. unfold zlen in Hl.
    generalize dependent (str_bytes t). generalize (str_bytes s) as l. clear s t.
    induction l as [|x l IH]; intros [|y l'] Hlen Hall; simpl in *; try done.
    apply Forall_cons in Hall as [Hxy Hall]. simpl in Hxy. apply Z.lxor_eq_0_iff in Hxy as ->.
    f_equal. apply IH; [lia|done].
  - split; [done|]. generalize (str_bytes t) as l. clear. induction l as [|x l IH]; simpl; constructor; [|done].
    apply Z.lxor_nilpotent.
Qed.

(** ** Eligibility *)
Section eligibility.
Context `{Base64Url, Sha256, JsonText, Rsa, Rfc3339}.

(** A retiring key may still answer a challenge that was created before its
    rotation, within a rotation window of at most 900 whole seconds. *)
Definition in_rotation_grace (r : DeviceKeyEligibilityRequest) (now : Z) : Prop :=
  exists rotated retire rotated_t retire_t created_t,
    k_rotated_at (er_key r) = Some rotated /\ parse_rfc3339 rotated = Some rotated_t /\
    k_retire_at (er_key r) = Some retire /\ parse_rfc3339 retire = Some retire_t /\
    parse_rfc3339 (created_at (er_challenge r)) = Some created_t /\
    created_t < rotated_t /\ rotated_t < retire_t /\ now < retire_t /\
    num_seconds (retire_t - rotated_t) <= MAX_ROTATION_GRACE_SECONDS.

Record key_eligible (r : DeviceKeyEligibilityRequest) (now : Z) : Prop := {
  ke_now : parse_rfc3339 (er_now r) = Some now;
  ke_from : exists t, parse_rfc3339 (k_valid_from (er_key r)) = Some t /\ t <= now;
  ke_challenge : exists t, parse_rfc3339 (expires_at (er_challenge r)) = Some t /\ now < t;
  ke_until : forall u, k_valid_until (er_key r) = Some u -> exists t, parse_rfc3339 u = Some t /\ now < t;
  ke_active : er_registration_active r = true;
  ke_version : k_key_version (er_key r) <= MAX_KEY_VERSION;
  ke_material : exists insp, inspect_device_public_key (k_public_key_der (er_key r)) = Ok insp /\
    k_public_key_kid (er_key r) = insp_kid insp /\
    public_key_sha256 (er_challenge r) = insp_sha256 insp;
  ke_registration : registration_id (er_challenge r) = Some (k_registration_id (er_key r));
  ke_key_version : key_version (er_challenge r) = Some (k_key_version (er_key r));
  ke_kid : public_key_kid (er_challenge r) = k_public_key_kid (er_key r);
  ke_purpose : purpose (er_challenge r) = er_purpose r;
  ke_audience : audience (er_challenge r) = er_audience r;
  ke_state : k_state (er_key r) = Current \/
    (k_state (er_key r) = Retiring /\ purpose_allows_rotation_grace (er_purpose r) = true /\
     in_rotation_grace r now);
}.

Lemma parse_time_Ok name value t : parse_time name value = Ok t <-> parse_rfc3339 value = Some t.
Proof. apply ok_or_Ok. Qed.

Lemma rotation_window_iff r now :
  (exists c, evaluate_rotation_window r now = Ok (mkEligibility true c)) <-> in_rotation_grace r now.
Proof.
  unfold evaluate_rotation_window, in_rotation_grace. split.
  - intros [c Hw]. destruct (k_rotated_at _) as [rotated|], (k_retire_at _) as [retire|]; try done.
    res_inv. repeat match goal with Hp : parse_time _ _ = Ok _ |- _ => apply parse_time_Ok in Hp end.
    destruct (_ || _) eqn:Hb; [done|]. breflect.
    destruct (Z.leb_spec x x1); [done|]. destruct (Z.leb_spec x0 now); [done|].
    eexists _, _, _, _, _. by repeat split.
  - intros (rotated & retire & rt & tt' & ct & -> & Hrt & -> & Htt & Hct & ? & ? & ? & ?).
    unfold parse_time. rewrite Hrt, Htt, Hct. simpl. decide_tests. by eexists.
Qed.

Lemma key_expired_iff k now : key_expired k now = Ok false <->
  (forall u, k_valid_until k = Some u -> exists t, parse_rfc3339 u = Some t /\ now < t).
Proof.
  unfold key_expired. destruct (k_valid_until k) as [u|]; [|by split].
  unfold parse_time. destruct (parse_rfc3339 u) as [t|] eqn:Hu; simpl.
  - split.
    + intros [= Hb]. breflect. intros ? [= <-]. by exists t.
    + intros Hall. destruct (Hall u eq_refl) as (t' & Ht & Hlt). simplify_eq. f_equal. by apply Z.leb_gt.
  - split; [done|]. intros Hall. destruct (Hall u eq_refl) as (? & ? & _). congruence.
Qed.

(** Rule out the branches of a decision that deny. *)
Ltac not_denied Hd :=
  repeat match type of Hd with
  | (if ?b then Ok (deny _) else _) = _ => let E := fresh "E" in destruct b eqn:E; [done|]
  end.

Lemma eligibility_sound r c :
  evaluate_device_key_eligibility r = Ok (mkEligibility true c) -> exists now, key_eligible r now.
Proof.
  unfold evaluate_device_key_eligibility. cbv zeta. intros Hd.
  apply bind_Ok in Hd as (now & Hnow%parse_time_Ok & Hd). apply bind_Ok in Hd as (from & Hfrom%parse_time_Ok & Hd).
  apply bind_Ok in Hd as (expires & Hexp%parse_time_Ok & Hd). exists now.
  destruct (inspect_device_public_key _) as [insp|e|] eqn:Hinsp; [|done..].
  not_denied Hd. apply bind_Ok in Hd as (expired & Hexpired & Hd).
  destruct expired; [done|]. breflect.
  repeat match goal with
  | Hs : str_constant_time_eq _ _ = true |- _ => apply str_constant_time_eq_spec in Hs
  | Hs : String.eqb _ _ = true |- _ => apply String.eqb_eq in Hs
  end.
  split; try done; eauto; [by apply key_expired_iff|].
  destruct (decide (k_state (er_key r) = Current)) as [Hc|Hc]; [by left|right].
  rewrite bool_decide_eq_false_2 in Hd by done. not_denied Hd. breflect.
  split; [done|]. split; [done|]. apply rotation_window_iff. by exists c.
Qed.

Lemma eligibility_complete r now : key_eligible r now ->
  exists c, evaluate_device_key_eligibility r = Ok (mkEligibility true c).
Proof.
  intros [Hnow (from & Hfrom & ?) (expires & Hexp & ?) Huntil Hact Hver (insp & Hinsp & Hkid & Hsha)
            Hreg Hkv Hk Hp Ha Hstate].
  unfold evaluate_device_key_eligibility, parse_time. cbv zeta. rewrite Hnow, Hfrom, Hexp, Hinsp, Hact. simpl.
  rewrite Hkid, Hsha, Hreg, Hkv, Hk, Hkid, Hp, Ha, !String.eqb_refl.
  rewrite (bool_decide_eq_true_2 (Some (k_registration_id (er_key r)) = _)) by done.
  rewrite (bool_decide_eq_true_2 (Some (k_key_version (er_key r)) = _)) by done.
  rewrite !(proj2 (str_constant_time_eq_spec _ _) eq_refl).
  rewrite (bool_decide_eq_false_2 (k_state (er_key r) = Retired)) by (destruct Hstate as [?|[? _]]; congruence).
  rewrite (bool_decide_eq_false_2 (k_state (er_key r) = Revoked)) by (destruct Hstate as [?|[? _]]; congruence).
  decide_tests. simpl. rewrite (proj2 (key_expired_iff _ _) Huntil). simpl.
  destruct Hstate as [->|(-> & -> & Hgrace)].
  - rewrite bool_decide_eq_true_2 by done. by eexists.
  - rewrite bool_decide_eq_false_2, bool_decide_eq_true_2 by done. by apply rotation_window_iff.
Qed.

Lemma decode_base64url_no_panic value kind max_len : no_panic (decode_base64url value kind max_len).
Proof. unfold decode_base64url. solve_no_panic. Qed.

Lemma inspect_no_panic der : no_panic (inspect_device_public_key der).
Proof.
  unfold inspect_device_public_key, parse_device_public_key.
  apply bind_no_panic; [|done]. apply bind_no_panic; [apply decode_base64url_no_panic|intros]. solve_no_panic.
Qed.

Lemma parse_time_no_panic name value : no_panic (parse_time name value).
Proof. apply ok_or_no_panic. Qed.

#[local] Hint Resolve parse_time_no_panic : marty.

Lemma eligibility_no_panic r : no_panic (evaluate_device_key_eligibility r).
Proof.
  unfold evaluate_device_key_eligibility. cbv zeta. do 3 (apply bind_no_panic; [apply parse_time_no_panic|intros]).
  pose proof (inspect_no_panic (k_public_key_der (er_key r))).
  destruct (inspect_device_public_key _); [|done..].
  unfold key_expired, evaluate_rotation_window. solve_no_panic.
Qed.
End eligibility.

(** A device key is reported eligible exactly when: all timestamps parse; the
    registration is active; the key material is a canonical RSA key whose
    thumbprint and digest are those of the record and the challenge; the
    challenge is bound to this registration, key version, key, purpose and
    audience and has not expired; the key is within its validity; and it is
    current, or retiring within its rotation window and for a purpose that
    allows the grace. The decision never panics. *)
Theorem device_key_eligible_correct `{Base64Url, Sha256, JsonText, Rsa, Rfc3339} r :
  no_panic (evaluate_device_key_eligibility r) /\
  ((exists c, evaluate_device_key_eligibility r = Ok (mkEligibility true c)) <-> exists now, key_eligible r now).
Proof.
  split; [apply eligibility_no_panic|]. split.
  - intros [c Hc]. by eapply eligibility_sound.
  - intros [now Hn]. by eapply eligibility_complete.
Qed.

(** ** What a challenge message binds *)

Lemma pretty_N_go_number n s :
  forallb number_char (chars s) = true -> forallb number_char (chars (pretty_N_go n s)) = true.
Proof.
  revert s; induction (N.lt_wf_0 n) as [n _ IH]; intros s Hs.
  assert (n = 0 \/ 0 < n)%N as [->|Hn] by lia; [by rewrite pretty_N_go_0|].
  rewrite pretty_N_go_step by done. apply IH; [by apply N.div_lt|].
  simpl. rewrite Hs, andb_true_r. unfold pretty_N_char. by repeat case_match.
Qed.

Lemma pretty_N_number (n : N) : forallb number_char (chars (pretty n)) = true.
Proof. unfold pretty, pretty_N. case_decide; [done|]. by apply pretty_N_go_number. Qed.

Lemma pretty_Z_number (z : Z) :
  forallb number_char (chars (pretty z)) = true /\ exists c s, chars (pretty z) = c :: s.
Proof.
  assert (Hne : forall s, s <> ""%string -> exists c l, chars s = c :: l) by (intros [|a s]; [done|by eexists _, _]).
  assert (Hpos : forall p, pretty (Npos p) <> ""%string).
  { intros p Hp. pose proof (pretty_N_go_step (Npos p) "" eq_refl) as Hs.
    unfold pretty, pretty_N in Hp. rewrite decide_False in Hp by done. rewrite Hs in Hp. clear Hs.
    revert Hp. generalize (pretty_N_char (N.pos p `mod` 10)) as a. generalize (N.pos p `div` 10)%N as m.
    intros m a Hm. assert (Hgo : forall n s, s <> ""%string -> pretty_N_go n s <> ""%string).
    { intros n; induction (N.lt_wf_0 n) as [n _ IH]; intros s Hs.
      assert (n = 0 \/ 0 < n)%N as [->|Hn] by lia; [by rewrite pretty_N_go_0|].
      rewrite pretty_N_go_step by done. apply IH; [by apply N.div_lt|done]. }
    by apply (Hgo m (String a "")). }
  destruct z as [|p|p]; [by split; [|eexists _, _]|..].
  - split; [apply (pretty_N_number (Npos p))|]. apply Hne, Hpos.
  - split; [|by eexists _, _]. change (pretty (Z.neg p)) with ("-" +:+ pretty (Npos p)).
    simpl. apply pretty_N_number.
Qed.

Section messages.
Context `{Base64Url, Sha256, JsonTextLaws, Rsa, Rfc3339}.

Lemma member_inj name s t r1 r2 :
  chars (json_member name s) ++ r1 = chars (json_member name t) ++ r2 -> chars s ++ r1 = chars t ++ r2.
Proof. unfold json_member. rewrite !chars_app, <- !app_assoc. by intros Heq%app_inv_head%app_inv_head%app_inv_head%app_inv_head. Qed.

Lemma member_string_inj name s t r1 r2 :
  chars (json_member name (json_string s)) ++ r1 = chars (json_member name (json_string t)) ++ r2 ->
  s = t /\ r1 = r2.
Proof. intros Heq%member_inj. by apply json_string_delimited. Qed.

Lemma member_opt_string_inj name (s t : option string) r1 r2 :
  chars (json_member name (json_opt json_string s)) ++ r1 = chars (json_member name (json_opt json_string t)) ++ r2 ->
  s = t /\ r1 = r2.
Proof.
  intros Heq%member_inj. destruct s as [s|], t as [t|]; simpl in Heq.
  - by apply json_string_delimited in Heq as [-> ->].
  - pose proof (json_string_quote s). by destruct (chars (json_string s)); simplify_eq/=.
  - pose proof (json_string_quote t). by destruct (chars (json_string t)); simplify_eq/=.
  - by simplify_eq.
Qed.

Lemma member_opt_number_inj name (s t : option Z) r1 r2 : delim r1 -> delim r2 ->
  chars (json_member name (json_opt pretty s)) ++ r1 = chars (json_member name (json_opt pretty t)) ++ r2 ->
  s = t /\ r1 = r2.
Proof.
  intros Hr1 Hr2 Heq%member_inj. destruct s as [s|], t as [t|]; simpl in Heq.
  - apply number_delimited in Heq as [Hst ->]; try done; try apply pretty_Z_number.
    apply list_ascii_inj in Hst. by apply (inj pretty) in Hst as ->.
  - destruct (pretty_Z_number s) as [Hn (c & l & Hc)]. rewrite Hc in *. simpl in Hn. breflect. by simplify_eq/=.
  - destruct (pretty_Z_number t) as [Hn (c & l & Hc)]. rewrite Hc in *. simpl in Hn. breflect. by simplify_eq/=.
  - by simplify_eq.
Qed.

Lemma challenge_json_v2_inj c d : challenge_json_v2 c = challenge_json_v2 d ->
  audience c = audience d /\ challenge_id c = challenge_id d /\ device_id c = device_id d /\
  expires_at c = expires_at d /\ key_version c = key_version d /\ nonce c = nonce d /\
  public_key_kid c = public_key_kid d /\ purpose c = purpose d /\
  registration_id c = registration_id d /\ user_id c = user_id d.
Proof.
  intros Heq%(f_equal chars). unfold challenge_json_v2 in Heq. rewrite !chars_app in Heq.
  apply app_inv_head in Heq.
  do 4 (apply member_string_inj in Heq as [? Heq]; apply app_inv_head in Heq).
  apply member_opt_number_inj in Heq as [? Heq]; [|done..]. apply app_inv_head in Heq.
  do 3 (apply member_string_inj in Heq as [? Heq]; apply app_inv_head in Heq).
  apply member_opt_string_inj in Heq as [? Heq]. apply app_inv_head in Heq.
  apply member_string_inj in Heq as [? _]. done.
Qed.

Definition no_newline (s : string) : Prop := ascii_of_nat 10 ∉ chars s.

Lemma newline_delimited s t r1 r2 : ascii_of_nat 10 ∉ s -> ascii_of_nat 10 ∉ t ->
  s ++ chars newline ++ r1 = t ++ chars newline ++ r2 -> s = t /\ r1 = r2.
Proof.
  revert t; induction s as [|a s IH]; intros [|b t] Hs Ht Heq; simpl in Heq; simplify_eq; try done.
  - exfalso. apply Ht. by left.
  - exfalso. apply Hs. by left.
  - destruct (IH t) as [-> ->]; [set_solver..|done].
Qed.

(** The line-oriented form binds its fields only if they hold no line break. *)
Definition v1_fields_clean (c : DeviceChallengeRecord) : Prop :=
  no_newline (challenge_id c) /\ no_newline (user_id c) /\ no_newline (device_id c) /\
  no_newline (public_key_kid c).

Lemma challenge_text_v1_inj c d : v1_fields_clean c -> v1_fields_clean d ->
  challenge_text_v1 c = challenge_text_v1 d ->
  challenge_id c = challenge_id d /\ user_id c = user_id d /\ device_id c = device_id d /\
  public_key_kid c = public_key_kid d /\ nonce c = nonce d.
Proof.
  intros (? & ? & ? & ?) (? & ? & ? & ?) Heq%(f_equal chars). unfold challenge_text_v1 in Heq.
  rewrite !chars_app in Heq. do 4 apply app_inv_head in Heq.
  do 4 (apply newline_delimited in Heq as [?%list_ascii_inj Heq]; [|done..]).
  by apply list_ascii_inj in Heq.
Qed.

Lemma challenge_message_Ok c m : challenge_message c = Ok m ->
  (message_version c = 1 /\ m = challenge_text_v1 c) \/
  (message_version c = 2 /\ m = "marty-device-registration-v2" +:+ newline +:+ challenge_json_v2 c).
Proof.
  unfold challenge_message. cbv zeta. rewrite !seq_Ok. intros (Hv & _ & [= <-]).
  unfold challenge_validate in Hv. rewrite !seq_Ok, !ensure_Ok in Hv. destruct Hv as (_ & _ & Hv).
  apply orb_true_iff in Hv as [Hv|Hv]; apply Z.eqb_eq in Hv; rewrite Hv; [by left|by right].
Qed.
End messages.

(** Two challenges with the same message have the same message version. For
    version 2 they then agree on every signed field (audience, challenge,
    device, expiry, key version, nonce, key id, purpose, registration and user);
    for version 1 they agree on the five fields it carries, provided those
    fields hold no line break. *)
Theorem challenge_message_binding `{Base64Url, Sha256, JsonTextLaws, Rsa, Rfc3339} c d m :
  challenge_message c = Ok m -> challenge_message d = Ok m ->
  message_version c = message_version d /\
  (message_version c = 2 ->
     audience c = audience d /\ challenge_id c = challenge_id d /\ device_id c = device_id d /\
     expires_at c = expires_at d /\ key_version c = key_version d /\ nonce c = nonce d /\
     public_key_kid c = public_key_kid d /\ purpose c = purpose d /\
     registration_id c = registration_id d /\ user_id c = user_id d) /\
  (message_version c = 1 -> v1_fields_clean c -> v1_fields_clean d ->
     challenge_id c = challenge_id d /\ user_id c = user_id d /\ device_id c = device_id d /\
     public_key_kid c = public_key_kid d /\ nonce c = nonce d).
Proof.
  intros Hc Hd. apply challenge_message_Ok in Hc, Hd.
  destruct Hc as [[Hvc ->]|[Hvc ->]], Hd as [[Hvd Hm]|[Hvd Hm]]; rewrite Hvc, Hvd.
  - split; [done|]. split; [done|]. intros _ Hcc Hcd. by apply challenge_text_v1_inj.
  - exfalso. apply (f_equal chars) in Hm. unfold challenge_text_v1 in Hm. by rewrite !chars_app in Hm.
  - exfalso. apply (f_equal chars) in Hm. unfold challenge_text_v1 in Hm. by rewrite !chars_app in Hm.
  - split; [done|]. split; [|done]. intros _. apply challenge_json_v2_inj.
    by apply (inj (String.append _)), (inj (String.append _)) in Hm.
Qed.

(** ** Accepted signatures *)
Section signatures.
Context `{Base64Url, Sha256, JsonText, Rsa, Rfc3339, !RsaLaws}.

Lemma decode_base64url_sound value kind max_len bs : decode_base64url value kind max_len = Ok bs ->
  str_len value <= max_len /\ bs <> [] /\ trim_end_equals value = b64_encode bs.
Proof.
  unfold decode_base64url. cbv zeta. rewrite !seq_Ok, !ensure_Ok. intros (Hlen & _ & Hd).
  apply bind_Ok in Hd as (decoded & _ & Hd). rewrite seq_Ok, ensure_Ok in Hd. destruct Hd as [Henc [= <-]].
  breflect. split; [done|]. split; [by intros ->|]. symmetry. by apply String.eqb_eq.
Qed.

(** A parsed device key: its text is the only one for its DER, which is the
    canonical PKCS#1 form of the key. *)
Record device_key (encoded : string) (p : ParsedDevicePublicKey) : Prop := {
  dk_text : trim_end_equals encoded = b64_encode (raw_der p);
  dk_parse : from_pkcs1_der (raw_der p) = Some (parsed_key p);
  dk_canonical : to_pkcs1_der (parsed_key p) = Some (raw_der p);
  dk_bits : MIN_RSA_BITS <= n_bits (parsed_key p) <= MAX_RSA_BITS;
}.

Lemma parse_device_public_key_sound encoded p :
  parse_device_public_key encoded = Ok p -> device_key encoded p.
Proof.
  unfold parse_device_public_key. cbv zeta. intros Hp.
  apply bind_Ok in Hp as (raw & Hraw & Hp). apply bind_Ok in Hp as (key & Hkey & Hp).
  apply bind_Ok in Hp as (canonical & Hcan%ok_or_Ok & Hp). rewrite !seq_Ok, !ensure_Ok in Hp.
  destruct Hp as (Heq & Hbits & [= <-]). breflect. subst canonical.
  destruct (from_pkcs1_der raw) as [k|] eqn:Hk; [|by destruct (from_public_key_der raw)].
  injection Hkey as ->. apply decode_base64url_sound in Hraw as (_ & _ & Htext). by split.
Qed.

Lemma verify_signature_iff der c signature :
  verify_device_challenge_signature der c signature = Ok tt <->
  exists p sig m, parse_device_public_key der = Ok p /\
    decode_base64url signature "signature" MAX_ENCODED_KEY_BYTES = Ok sig /\
    zlen sig = key_size (parsed_key p) /\ challenge_message c = Ok m /\
    pss_signature_try_from sig = true /\ pss_verify (parsed_key p) 32 m sig = true.
Proof.
  unfold verify_device_challenge_signature, verify_pss_sha256, verify_pss_sha256_with_salt_len,
    parse_rsa_public_key. split.
  - intros Hv. apply bind_Ok in Hv as (p & Hp & Hv). apply bind_Ok in Hv as (sig & Hsig & Hv).
    apply seq_Ok in Hv as [Hlen%ensure_Ok Hv]. apply bind_Ok in Hv as (m & Hm & Hv). breflect.
    pose proof (dk_parse _ _ (parse_device_public_key_sound _ _ Hp)) as Hk.
    rewrite (der_formats_disjoint _ _ Hk), Hk in Hv. simpl in Hv.
    destruct (pss_signature_try_from sig) eqn:Ht; [|done].
    destruct (pss_verify _ _ _ _) eqn:Hpss; [|done]. by exists p, sig, m.
  - intros (p & sig & m & Hp & Hsig & Hlen & Hm & Ht & Hpss).
    pose proof (dk_parse _ _ (parse_device_public_key_sound _ _ Hp)) as Hk.
    rewrite Hp. simpl. rewrite Hsig. simpl. rewrite Hlen, Z.eqb_refl. simpl. rewrite Hm. simpl.
    rewrite (der_formats_disjoint _ _ Hk), Hk. simpl. by rewrite Ht, Hpss.
Qed.
End signatures.

(** A device signature is accepted exactly when the key text parses, the
    signature decodes to the length of the modulus, the challenge has a
    message, and PSS with SHA-256 and a 32-byte salt verifies that message
    under the very key that was parsed: the key of the canonical PKCS#1 text,
    of 2048 to 8192 bits, whatever format [parse_rsa_public_key] tries first. *)
Theorem device_signature_correct `{Base64Url, Sha256, JsonText, Rsa, Rfc3339, !RsaLaws} der c signature :
  (verify_device_challenge_signature der c signature = Ok tt <->
   exists p sig m, parse_device_public_key der = Ok p /\
     decode_base64url signature "signature" MAX_ENCODED_KEY_BYTES = Ok sig /\
     zlen sig = key_size (parsed_key p) /\ challenge_message c = Ok m /\
     pss_signature_try_from sig = true /\ pss_verify (parsed_key p) 32 m sig = true) /\
  (forall p, parse_device_public_key der = Ok p -> device_key der p).
Proof. split; [apply verify_signature_iff|]. intros p. apply parse_device_public_key_sound. Qed.

(** ** Concrete runs *)

#[local] Existing Instance toy_sha256.
#[local] Instance hex_text : Base64Url := {
  b64_encode := hex_lower;
  b64_decode s := match decode_hex s with Some bs => inr bs | None => inl "invalid"%string end;
}.
#[local] Instance toy_rsa : Rsa := {
  RsaPublicKey := list Z;
  from_pkcs1_der der := if decide (head der = Some 48) then Some der else None;
  from_public_key_der der := if decide (head der = Some 49) then Some der else None;
  to_pkcs1_der key := Some key;
  n_bits _ := 2048;
  n_bytes key := key;
  e_bytes _ := [1; 0; 1];
  key_size _ := 2;
  pss_signature_try_from _ := true;
  pss_verify _ _ m sig := bool_decide (sig = [1; 2]);
}.
#[local] Instance toy_rsa_laws : RsaLaws.
Proof.
  intros der key. unfold from_pkcs1_der, from_public_key_der, toy_rsa. intros Hk.
  destruct (decide (head der = Some 48)) as [Hd|]; [|done]. by rewrite Hd.
Qed.
#[local] Instance toy_time : Rfc3339 := fun s => Some (1000000000 * str_len s).

Definition sample_challenge (id user : string) (version : Z) : DeviceChallengeRecord :=
  mkChallenge id user "device" "kid" "sha" "nonce" "n" "nnnnnnnnnn" None None "device_registration"
    CHALLENGE_AUDIENCE version.

Lemma challenge_message_binding_witness :
  let c := sample_challenge "id" "user" 2 in
  exists m, challenge_message c = Ok m /\ message_version c = message_version c.
Proof.
  intros c. destruct (challenge_message c) as [m|e|] eqn:Hm;
    [|vm_compute in Hm; discriminate Hm|vm_compute in Hm; discriminate Hm].
  exists m. split; [reflexivity|]. exact (proj1 (challenge_message_binding c c m Hm Hm)).
Defined.

Lemma device_signature_correct_witness :
  verify_device_challenge_signature "3031" (sample_challenge "id" "user" 2) "0102==" = Ok tt /\
  exists p, parse_device_public_key "3031" = Ok p /\ device_key "3031" p.
Proof.
  split; [vm_compute; reflexivity|].
  destruct (parse_device_public_key "3031") as [p|e|] eqn:Hp;
    [|vm_compute in Hp; discriminate Hp|vm_compute in Hp; discriminate Hp].
  exists p. split; [reflexivity|].
  exact (proj2 (device_signature_correct "3031" (sample_challenge "id" "user" 2) "0102==") p Hp).
Defined.

(** Two challenges for different users with one version 1 message: the line
    break can be in either field. *)
Example challenge_v1_ambiguous :
  let c := sample_challenge ("a" +:+ newline +:+ "b") "c" 1 in
  let d := sample_challenge "a" ("b" +:+ newline +:+ "c") 1 in
  user_id c <> user_id d /\ challenge_message c = challenge_message d /\ is_Ok (challenge_message c) = true.
Proof. vm_compute. by repeat split. Qed.

(** A retiring key that answers a challenge of before its rotation. *)
Definition retiring_request : DeviceKeyEligibilityRequest :=
  let insp := match inspect_device_public_key "3031" with Ok i => i | _ => mkInspection "" "" 0 end in
  mkEligibilityRequest
    (mkKeyRecord "k" "reg" 1 "3031" (insp_kid insp) Retiring "" None (Some "nn") (Some "nnnnnn") None None)
    true
    (mkChallenge "id" "user" "device" (insp_kid insp) (insp_sha256 insp) "nonce" "n" "nnnnnnnnnn"
       (Some "reg") (Some 1) "presentation" "aud" 2)
    "presentation" "aud" "nnn".

Example retiring_key_eligible :
  evaluate_device_key_eligibility retiring_request = Ok (allow "ELIGIBLE_ROTATION_GRACE").
Proof. vm_compute. reflexivity. Qed.
