(* ===== verification/RustF64.v ===== *)
(** * [f64] of the Rust standard library

    Binary64 numbers as [spec_float], the text grammar of [f64::from_str] with
    correct rounding, comparisons, and the saturating cast to [i32].  Texts are
    byte strings. *)

From S2P Require Import Prelude.
From Stdlib Require Import SpecFloat.
Local Open Scope Z_scope.

Definition f64_prec : Z := 53.
Definition f64_emax : Z := 1024.

(** [value.is_finite()]. *)
Definition f64_is_finite (x : spec_float) : bool :=
  match x with S754_zero _ | S754_finite _ _ _ => true | _ => false end.

(** [a < b] and [a <= b]; a comparison with a NaN is false. *)
Definition f64_lt (a b : spec_float) : bool := SFltb a b.
Definition f64_le (a b : spec_float) : bool := SFleb a b.

(** [value as i32]: truncates, saturates, and maps NaN to 0. *)
Definition i32_min : Z := - 2 ^ 31.
Definition i32_max : Z := 2 ^ 31 - 1.
Definition f64_as_i32 (x : spec_float) : Z :=
  match x with
  | S754_zero _ | S754_nan => 0
  | S754_infinity s => if s then i32_min else i32_max
  | S754_finite s m e =>
      let a := if 0 <=? e then Zpos m * 2 ^ e else Zpos m / 2 ^ (- e) in
      Z.max i32_min (Z.min i32_max (if s then - a else a))
  end.

(** [n as f64] for an unsigned integer, [a / b] and [a * b]. *)
Definition f64_of_usize (n : Z) : spec_float := binary_normalize f64_prec f64_emax n 0 false.
Definition f64_div (a b : spec_float) : spec_float := SFdiv f64_prec f64_emax a b.
Definition f64_mul (a b : spec_float) : spec_float := SFmul f64_prec f64_emax a b.

(** [value.round()]: to the nearest integer, halves away from zero. *)
Definition f64_round (x : spec_float) : spec_float :=
  match x with
  | S754_finite s m e =>
      if 0 <=? e then x
      else let q := (Zpos m + 2 ^ (- e - 1)) / 2 ^ (- e) in
           binary_normalize f64_prec f64_emax (if s then - q else q) 0 s
  | _ => x
  end.

(** The number [mantissa * 10 ^ exponent], rounded to nearest even. *)
Definition f64_of_decimal (negative : bool) (mantissa exponent : Z) : spec_float :=
  match mantissa with
  | Zpos m =>
      if 0 <=? exponent
      then binary_normalize f64_prec f64_emax
             ((if negative then -1 else 1) * (Zpos m * 10 ^ exponent)) 0 negative
      else match 10 ^ (- exponent) with
           | Zpos d => SFdiv f64_prec f64_emax (S754_finite negative m 0) (S754_finite false d 0)
           | _ => S754_nan
           end
  | _ => S754_zero negative
  end.

(** ** The grammar of [f64::from_str] *)

Definition digit_value (a : ascii) : option Z :=
  let n := Z.of_N (N_of_ascii a) in
  if (48 <=? n) && (n <=? 57) then Some (n - 48) else None.

(** A run of digits: its value on top of [acc], its length, and the rest. *)
Fixpoint take_digits (acc count : Z) (s : list ascii) : Z * Z * list ascii :=
  match s with
  | a :: rest =>
      match digit_value a with
      | Some d => take_digits (10 * acc + d) (count + 1) rest
      | None => (acc, count, s)
      end
  | [] => (acc, count, [])
  end.

(** An optional sign. *)
Definition take_sign (s : list ascii) : bool * list ascii :=
  match s with
  | "+"%char :: rest => (false, rest)
  | "-"%char :: rest => (true, rest)
  | _ => (false, s)
  end.

(** The optional exponent, which must end the text. *)
Definition parse_exponent (s : list ascii) : option Z :=
  match s with
  | [] => Some 0
  | a :: rest =>
      if Ascii.eqb a "e" || Ascii.eqb a "E" then
        let '(negative, rest) := take_sign rest in
        let '(e, n, rest) := take_digits 0 0 rest in
        if (n =? 0) || negb (bool_decide (rest = [])) then None
        else Some (if negative then - e else e)
      else None
  end.

Definition ascii_lower (a : ascii) : ascii :=
  let n := N_of_ascii a in
  if ((65 <=? n) && (n <=? 90))%N then ascii_of_N (n + 32) else a.

Definition f64_from_str (text : string) : option spec_float :=
  let '(negative, s) := take_sign (String.list_ascii_of_string text) in
  let word := String.string_of_list_ascii (ascii_lower <$> s) in
  if String.eqb word "inf" || String.eqb word "infinity" then Some (S754_infinity negative)
  else if String.eqb word "nan" then Some S754_nan
  else
    let '(m, n1, rest) := take_digits 0 0 s in
    let '(m, n2, rest) :=
      match rest with
      | "."%char :: rest => take_digits m 0 rest
      | _ => (m, 0, rest)
      end in
    if n1 + n2 =? 0 then None
    else e ← parse_exponent rest; Some (f64_of_decimal negative m (e - n2)).

Example f64_tenth : f64_from_str "0.1" = Some (S754_finite false 7205759403792794 (-56)).
Proof. vm_compute. reflexivity. Qed.

Example f64_big_integer :
  f64_from_str "9007199254740993" = Some (S754_finite false 4503599627370496 1).
Proof. vm_compute. reflexivity. Qed.

Example f64_overflow : f64_from_str "-1e400" = Some (S754_infinity true).
Proof. vm_compute. reflexivity. Qed.

Example f64_subnormal : f64_from_str "4.9e-324" = Some (S754_finite false 1 (-1074)).
Proof. vm_compute. reflexivity. Qed.

Example f64_refused : (f64_from_str "1.e", f64_from_str ".", f64_from_str "1x") = (None, None, None).
Proof. vm_compute. reflexivity. Qed.

Example f64_round_halves :
  (f64_round (f64_div (f64_of_usize 5) (f64_of_usize 2)), f64_round (f64_div (f64_of_usize 12) (f64_of_usize 5)),
   f64_round (f64_div (f64_of_usize 1) (f64_of_usize 3)))
  = (f64_of_usize 3, f64_of_usize 2, S754_zero false).
Proof. vm_compute. reflexivity. Qed.
