(* ===== verification/PolicyService.v ===== *)
(** * The presentation policy kernel (marty-verification, [policy/service.rs])

    The final decision of a presentation: request validation, evaluation of
    each credential requirement against the verified credential facts, claim
    constraints, freshness, holder binding, and the overall decision.  Strings
    are byte strings.  [serde_json] (the text and the equality of a value),
    [regex] and [chrono] are parameters. *)

From S2P Require Import Prelude Governance RustF64.
From stdpp Require Import pretty.
From Stdlib Require Import SpecFloat.
Local Open Scope Z_scope.

(** [src/marty-verification/src/policy/service.rs:14-21] MAX_CREDENTIALS and the other limits *)
Definition MAX_CREDENTIALS : Z := 128.
Definition MAX_REQUIREMENTS : Z := 128.
Definition MAX_CLAIMS_PER_REQUIREMENT : Z := 256.
Definition MAX_CLAIMS_PER_CREDENTIAL : Z := 1024.
Definition MAX_STRING_LENGTH : Z := 4096.
Definition MAX_REGEX_LENGTH : Z := 4096.
Definition MAX_VALUE_BYTES : Z := 65536.
Definition MAX_LIST_ITEMS : Z := 256.

(** [src/marty-verification/src/policy/service.rs:23-27] ServicePolicyError *)
Inductive ServicePolicyError := InvalidRequest (msg : string).

#[local] Abbreviation result := (res ServicePolicyError).

(** [src/marty-verification/src/policy/service.rs:69-79] ServiceHolderBinding *)
Record ServiceHolderBinding := mkHolderBinding {
  hb_required : bool;
  binding_methods : list string;
  proof_profiles : list string;
  challenge_required : bool;
  audience_binding_required : bool;
  replay_detection_required : bool;
  max_proof_age_seconds : option Z;
}.

(** [src/marty-verification/src/policy/service.rs:81-87] ServiceFreshnessPolicy *)
Record ServiceFreshnessPolicy := mkFreshness {
  fp_max_age_seconds : option Z;
  require_not_revoked : bool;
  revocation_grace_seconds : option Z;
}.

(** [src/marty-verification/src/policy/service.rs:89-95] ServiceIssuerConstraints *)
Record ServiceIssuerConstraints := mkIssuerConstraints {
  min_trust_level : option Z;
  required_compliance_statuses : list string;
  required_accreditations : list string;
}.

(** [src/marty-verification/src/policy/service.rs:138-152] ServiceConstraintType *)
Inductive ServiceConstraintType :=
| Equals | NotEquals | GreaterThan | LessThan | GreaterOrEqual | LessOrEqual
| InSet | NotInSet | Presence | Regex | AgeOver.

#[export] Instance ServiceConstraintType_eq_dec : EqDecision ServiceConstraintType.
Proof. solve_decision. Defined.

(** [src/marty-verification/src/policy/service.rs:130-136] ServiceClaimConstraint *)
Record ServiceClaimConstraint := mkConstraint {
  cc_claim_name : string;
  constraint_type : ServiceConstraintType;
  cc_value : option Value;
}.

(** [src/marty-verification/src/policy/service.rs:119-128] ServiceRequestedClaim *)
Record ServiceRequestedClaim := mkRequestedClaim {
  rc_claim_name : string;
  rc_required : bool;
  selective_disclosure : bool;
  accept_derived : bool;
  predicate_spec : option Value;
  constraints : list ServiceClaimConstraint;
}.

(** [src/marty-verification/src/policy/service.rs:97-108] ServiceCredentialRequirement *)
Record ServiceCredentialRequirement := mkRequirement {
  rq_id : string;
  rq_template_id : string;
  rq_required : bool;
  credential_payload_format : option string;
  requested_claims : list ServiceRequestedClaim;
  rq_trust_profile_id : option string;
  rq_max_age_seconds : option Z;
  require_fresh_issuance : bool;
}.

(** [src/marty-verification/src/policy/service.rs:110-117] ServiceAlternativeRequirement *)
Record ServiceAlternativeRequirement := mkAlternative {
  alt_id : string;
  alt_name : string;
  alt_requirements : list ServiceCredentialRequirement;
  min_satisfied : Z;
}.

(** [src/marty-verification/src/policy/service.rs:49-67] ServicePresentationPolicy *)
Record ServicePresentationPolicy := mkPresentationPolicy {
  pol_id : string;
  pol_name : string;
  pol_organization_id : string;
  credential_requirements : list ServiceCredentialRequirement;
  alternative_requirements : list ServiceAlternativeRequirement;
  pol_trust_profile_id : option string;
  holder_binding : ServiceHolderBinding;
  freshness : option ServiceFreshnessPolicy;
  issuer_constraints : option ServiceIssuerConstraints;
  allowed_issuers : list string;
  single_presentation : bool;
  presentation_proof_required : bool;
}.

(** [src/marty-verification/src/policy/service.rs:176-184] CredentialLifecycleStatus *)
Inductive CredentialLifecycleStatus := LcActive | LcRevoked | LcSuspended | LcExpired | LcUnknown.

(** [src/marty-verification/src/policy/service.rs:154-174] VerifiedCredentialFacts; [claims] in the map's iteration order *)
Record VerifiedCredentialFacts := mkFacts {
  vc_id : string;
  credential_template_ids : list string;
  credential_format : string;
  claims : list (string * Value);
  issuer_id : string;
  signature_verified : bool;
  signature_failure_reason : option string;
  trust_profile_verified : bool;
  trust_failure_reason : option string;
  trust_level : option Z;
  compliance_statuses : list string;
  accreditations : list string;
  issued_at : option Z;
  revocation_checked_at : option Z;
  not_revoked : option bool;
  credential_status : option CredentialLifecycleStatus;
  vc_warnings : list string;
}.

(** [src/marty-verification/src/policy/service.rs:186-193] ExternalAuthorizationFacts *)
Record ExternalAuthorizationFacts := mkExternal {
  evaluated : bool;
  allowed : bool;
  reasons : list string;
  ext_errors : list string;
}.

(** [src/marty-verification/src/policy/service.rs:29-47] ServicePolicyEvaluationRequest *)
Record ServicePolicyEvaluationRequest := mkRequest {
  policy : ServicePresentationPolicy;
  credentials : list VerifiedCredentialFacts;
  evaluation_time : Z;
  presentation_verified : bool;
  holder_binding_verified : bool;
  holder_binding_method : option string;
  proof_profile : option string;
  challenge_verified : bool;
  audience_verified : bool;
  replay_check_verified : bool;
  proof_epoch_seconds : option Z;
  external_authorization : option ExternalAuthorizationFacts;
  presentation_count : option Z;
}.

(** [src/marty-verification/src/policy/service.rs:195-201] ServiceEvaluationOutcome *)
Inductive ServiceEvaluationOutcome := Passed | Failed | Partial.
(** [src/marty-verification/src/policy/service.rs:203-209] ServiceDecision *)
Inductive ServiceDecision := Allow | Deny | ManualReview.

#[export] Instance ServiceDecision_eq_dec : EqDecision ServiceDecision.
Proof. solve_decision. Defined.

(** [src/marty-verification/src/policy/service.rs:211-246] ServicePolicyErrorCode *)
Inductive ServicePolicyErrorCode :=
| PresentationProofRequired | CredentialMissing | SignatureInvalid | CredentialFormatMismatch
| TrustProfileNotVerified | IssuerNotAllowed | IssuerTrustLevelInsufficient
| IssuerComplianceStatusMissing | IssuerAccreditationMissing | CredentialTimestampMissing
| CredentialTimestampFuture | CredentialStale | ProofTimestampMissing | ProofTimestampFuture
| ProofStale | RevocationCheckRequired | RevocationEvidenceStale | RevocationStatusUnknown
| CredentialRevoked | ClaimMissing | ClaimConstraintFailed | AlternativeRequirementFailed
| HolderBindingRequired | HolderBindingMethodNotAllowed | ProofProfileNotAllowed
| ChallengeBindingRequired | AudienceBindingRequired | ReplayDetectionRequired
| ExternalAuthorizationDenied | ExternalAuthorizationNotEvaluated | ConflictingVerifiedClaim
| SinglePresentationRequired.

(** [src/marty-verification/src/policy/service.rs:248-255] ServicePolicyViolation *)
Record ServicePolicyViolation := mkViolation {
  v_code : ServicePolicyErrorCode;
  v_requirement_id : option string;
  v_credential_id : option string;
  v_claim_name : option string;
  v_message : string;
}.

(** [src/marty-verification/src/policy/service.rs:257-261] ServiceConstraintResult *)
Record ServiceConstraintResult := mkConstraintResult {
  cres_type : ServiceConstraintType;
  cres_passed : bool;
}.

(** [src/marty-verification/src/policy/service.rs:263-269] ServiceClaimResult *)
Record ServiceClaimResult := mkClaimResult {
  clr_name : string;
  clr_satisfied : bool;
  presented_value : option Value;
  constraint_results : list ServiceConstraintResult;
}.

(** [src/marty-verification/src/policy/service.rs:271-281] ServiceCredentialResult *)
Record ServiceCredentialResult := mkCredentialResult {
  cr_requirement_id : string;
  cr_template_id : string;
  cr_credential_id : option string;
  cr_issuer_id : option string;
  cr_satisfied : bool;
  claim_results : list ServiceClaimResult;
  cr_errors : list ServicePolicyViolation;
  cr_warnings : list string;
}.

(** [src/marty-verification/src/policy/service.rs:283-291] ServiceAlternativeResult *)
Record ServiceAlternativeResult := mkAlternativeResult {
  ar_id : string;
  ar_name : string;
  ar_satisfied : bool;
  ar_min_satisfied : Z;
  satisfied_count : Z;
  ar_results : list ServiceCredentialResult;
}.

(** [src/marty-verification/src/policy/service.rs:293-310] ServicePolicyEvaluationResult *)
Record ServicePolicyEvaluationResult := mkResult {
  outcome : ServiceEvaluationOutcome;
  decision : ServiceDecision;
  decision_reason : string;
  r_policy_id : string;
  r_policy_name : string;
  credential_results : list ServiceCredentialResult;
  alternative_results : list ServiceAlternativeResult;
  total_requirements : Z;
  satisfied_requirements : Z;
  required_satisfied : Z;
  required_total : Z;
  verified_claims : gmap string Value;
  errors : list ServicePolicyViolation;
  warnings : list string;
  r_evaluation_time : Z;
}.

(** [serde_json]: the compact text of a value and the equality of values. *)
Class JsonValueOps := {
  json_text : Value -> string;
  json_eqb : Value -> Value -> bool;
}.

(** [Regex::new(pattern)] and [is_match]. *)
Class RegexOps := regex_new : string -> option (string -> bool).

(** [chrono]: the date of a timestamp and the [%Y-%m-%d] parser. *)
Class Calendar := {
  date_of_timestamp : Z -> option (Z * Z * Z);
  parse_ymd : string -> option (Z * Z * Z);
}.

(** [src/marty-verification/src/policy/service.rs:1157-1171] violation *)
Definition violation (code : ServicePolicyErrorCode) (requirement : ServiceCredentialRequirement)
    (credential : option VerifiedCredentialFacts) (claim_name : option string) (message : string) :
    ServicePolicyViolation :=
  mkViolation code (Some (rq_id requirement)) (vc_id <$> credential) claim_name message.

(** [src/marty-verification/src/policy/service.rs:1173-1181] global_violation *)
Definition global_violation (code : ServicePolicyErrorCode) (message : string) : ServicePolicyViolation :=
  mkViolation code None None None message.

(** [if cond { errors.push(v) }]. *)
Definition push_if (cond : bool) (v : ServicePolicyViolation) : list ServicePolicyViolation :=
  if cond then [v] else [].

(** ** Credential formats *)

(** [str::trim]: the white space characters by their UTF-8 encodings, of one,
    two and three bytes. *)
Definition ws1 (a : Z) : bool := ((9 <=? a) && (a <=? 13)) || (a =? 32).
Definition ws2 (a b : Z) : bool := (a =? 194) && ((b =? 133) || (b =? 160)).
Definition ws3 (a b c : Z) : bool :=
  ((a =? 225) && (b =? 154) && (c =? 128)) ||
  ((a =? 226) && (b =? 128) && (((128 <=? c) && (c <=? 138)) || (c =? 168) || (c =? 169) || (c =? 175))) ||
  ((a =? 226) && (b =? 129) && (c =? 159)) ||
  ((a =? 227) && (b =? 128) && (c =? 128)).

Fixpoint trim_front (w2 : Z -> Z -> bool) (w3 : Z -> Z -> Z -> bool) (s : list Z) : list Z :=
  match s with
  | [] => []
  | a :: r1 =>
      if ws1 a then trim_front w2 w3 r1
      else match r1 with
           | [] => s
           | b :: r2 =>
               if w2 a b then trim_front w2 w3 r2
               else match r2 with
                    | [] => s
                    | c :: r3 => if w3 a b c then trim_front w2 w3 r3 else s
                    end
           end
  end.

Definition utf8_trim (s : list Z) : list Z :=
  reverse (trim_front (fun b a => ws2 a b) (fun c b a => ws3 a b c) (reverse (trim_front ws2 ws3 s))).

Definition byte_lower (b : Z) : Z := if (65 <=? b) && (b <=? 90) then b + 32 else b.
Definition byte_upper (b : Z) : Z := if (97 <=? b) && (b <=? 122) then b - 32 else b.
Definition byte_replace (from to b : Z) : Z := if b =? from then to else b.
Definition str_of_bytes (bs : list Z) : string :=
  String.string_of_list_ascii ((fun b => ascii_of_N (Z.to_N b)) <$> bs).

Definition one_of (s : string) (l : list string) : bool := existsb (String.eqb s) l.

(** [src/marty-verification/src/policy/service.rs:1105-1122] canonical_credential_format *)
Definition canonical_credential_format (value : string) : string :=
  let bytes := byte_replace 95 45 <$> (byte_lower <$> utf8_trim (str_bytes value)) in
  let normalized := str_of_bytes bytes in
  if String.eqb normalized "" then "UNKNOWN"
  else if one_of normalized ["w3c-vcdm-di"; "w3c-vcdm-v2-di"; "data-integrity"; "json-ld"; "ldp-vc"]
  then "W3C_VCDM_V2_DI"
  else if one_of normalized ["sd-jwt"; "sd-jwt-vc"; "dc+sd-jwt"; "vc+sd-jwt"; "spruce-vc+sd-jwt";
                             "ietf-sd-jwt"; "w3c-vcdm-v2-sd-jwt"]
  then "SD_JWT_VC"
  else if one_of normalized ["w3c-vc"; "w3c-vcdm-v2-jwt-vc"; "jwt-vc"; "vc-jwt"; "jwt-vc-json"]
  then "VC_JWT"
  else if one_of normalized ["mdoc"; "mso-mdoc"] then "MDOC"
  else if one_of normalized ["openbadge-v3"; "open-badge-v3"; "openbadge3"] then "OPENBADGE_V3"
  else if one_of normalized ["openbadge-v2"; "open-badge-v2"; "openbadge2"] then "OPENBADGE_V2"
  else str_of_bytes (byte_replace 45 95 <$> (byte_upper <$> bytes)).

(** ** Claim constraints *)

(** [src/marty-verification/src/policy/service.rs:1088-1092] value_number; a JSON number is read from its text *)
Definition value_number (v : Value) : option spec_float :=
  match v with
  | Number repr => f64_from_str repr
  | VString text => f64_from_str text
  | _ => None
  end.

(** [text.get(..10)]: the first ten bytes when they end a character. *)
Definition get_prefix10 (s : string) : option string :=
  let bytes := str_bytes s in
  if (zlen bytes <? 10) || match bytes !! 10%nat with
                           | Some b => (128 <=? b) && (b <=? 191)
                           | None => false
                           end
  then None else Some (str_of_bytes (take 10 bytes)).

(** The order of dates. *)
Definition date_lt (a b : Z * Z * Z) : bool :=
  let '(y1, m1, d1) := a in
  let '(y2, m2, d2) := b in
  (y1 <? y2) || ((y1 =? y2) && ((m1 <? m2) || ((m1 =? m2) && (d1 <? d2)))).

Section kernel.
Context `{JsonValueOps, RegexOps, Calendar}.

(** [src/marty-verification/src/policy/service.rs:1094-1102] value_text *)
Definition value_text (v : Value) : option string :=
  match v with
  | Null => None
  | VString text => Some text
  | Bool b => Some (if b then "True" else "False")
  | Number repr => Some repr
  | Array _ | Object _ => Some (json_text v)
  end.

(** [src/marty-verification/src/policy/service.rs:1064-1073] compare_text *)
Definition compare_text (actual expected : option Value) (predicate : string -> string -> bool) : bool :=
  match actual ≫= value_text, expected ≫= value_text with
  | Some l, Some r => predicate l r
  | _, _ => false
  end.

(** [src/marty-verification/src/policy/service.rs:1075-1086] compare_number *)
Definition compare_number (actual expected : option Value) (predicate : spec_float -> spec_float -> bool) :
    bool :=
  match actual ≫= value_number, expected ≫= value_number with
  | Some l, Some r => f64_is_finite l && f64_is_finite r && predicate l r
  | _, _ => false
  end.

(** [src/marty-verification/src/policy/service.rs:1005-1013] evaluate_constraint, whether a value is in a set *)
Definition contained_in (actual_text : string) (expected : option Value) : bool :=
  let values := match expected with
                | Some (Array values) => values
                | Some value => [value]
                | None => []
                end in
  existsb (String.eqb actual_text) (omap value_text values).

(** [src/marty-verification/src/policy/service.rs:1032-1060] evaluate_constraint, age at a time *)
Definition age_over (actual expected : option Value) (time : Z) : bool :=
  match actual ≫= value_text, f64_as_i32 <$> (expected ≫= value_number), date_of_timestamp time with
  | Some date_text, Some required_age, Some evaluation_date =>
      match parse_ymd (default date_text (get_prefix10 date_text)) with
      | None => false
      | Some birth_date =>
          if date_lt evaluation_date birth_date then false
          else
            let '(ey, em, ed) := evaluation_date in
            let '(by_, bm, bd) := birth_date in
            let age := ey - by_ in
            let age := if (em <? bm) || ((em =? bm) && (ed <? bd)) then age - 1 else age in
            required_age <=? age
      end
  | _, _, _ => false
  end.

(** The pattern, anchored at both ends. *)
Definition anchored (pattern : string) : string := "\A(?:" +:+ pattern +:+ ")\z".

(** [src/marty-verification/src/policy/service.rs:975-1062] evaluate_constraint *)
Definition evaluate_constraint (constraint : ServiceClaimConstraint) (actual : option Value) (time : Z) : bool :=
  let expected := cc_value constraint in
  match constraint_type constraint with
  | Presence => match actual with Some Null | None => false | Some _ => true end
  | Equals => compare_text actual expected String.eqb
  | NotEquals => compare_text actual expected (fun left right => negb (String.eqb left right))
  | GreaterThan => compare_number actual expected (fun left right => f64_lt right left)
  | LessThan => compare_number actual expected (fun left right => f64_lt left right)
  | GreaterOrEqual => compare_number actual expected (fun left right => f64_le right left)
  | LessOrEqual => compare_number actual expected (fun left right => f64_le left right)
  | InSet => match actual ≫= value_text with
             | Some actual_text => contained_in actual_text expected
             | None => false
             end
  | NotInSet => match actual ≫= value_text with
                | Some actual_text => negb (contained_in actual_text expected)
                | None => false
                end
  | Regex =>
      match actual ≫= value_text, expected ≫= value_text with
      | Some actual, Some pattern =>
          if MAX_REGEX_LENGTH <? str_len pattern then false
          else match regex_new (anchored pattern) with Some is_match => is_match actual | None => false end
      | _, _ => false
      end
  | AgeOver => age_over actual expected time
  end.

(** ** One credential against one requirement *)

(** [src/marty-verification/src/policy/service.rs:803-855] apply_issuer_constraints: the violations it pushes *)
Definition apply_issuer_constraints (requirement : ServiceCredentialRequirement)
    (pol : ServicePresentationPolicy) (c : VerifiedCredentialFacts) : list ServicePolicyViolation :=
  match issuer_constraints pol with
  | None => []
  | Some ic =>
      push_if (match min_trust_level ic with
               | Some minimum => match trust_level c with Some actual => actual <? minimum | None => true end
               | None => false
               end)
        (violation IssuerTrustLevelInsufficient requirement (Some c) None
           "Issuer trust level is below the policy minimum") ++
      concat ((fun required =>
        push_if (negb (bool_decide (required ∈ (list_to_set (compliance_statuses c) : gset string))))
          (violation IssuerComplianceStatusMissing requirement (Some c) None
             ("Issuer compliance status is missing: " +:+ required))) <$> required_compliance_statuses ic) ++
      concat ((fun required =>
        push_if (negb (bool_decide (required ∈ (list_to_set (accreditations c) : gset string))))
          (violation IssuerAccreditationMissing requirement (Some c) None
             ("Issuer accreditation is missing: " +:+ required))) <$> required_accreditations ic)
  end.

(** [src/marty-verification/src/policy/service.rs:864-871] apply_freshness, the stricter maximum age *)
Definition effective_max_age (requirement : ServiceCredentialRequirement) (pol : ServicePresentationPolicy) :
    option Z :=
  match rq_max_age_seconds requirement, freshness pol ≫= fp_max_age_seconds with
  | Some a, Some b => Some (Z.min a b)
  | Some a, None => Some a
  | None, b => b
  end.

(** [src/marty-verification/src/policy/service.rs:872-913] apply_freshness, the age of the credential *)
Definition age_violations (requirement : ServiceCredentialRequirement) (pol : ServicePresentationPolicy)
    (c : VerifiedCredentialFacts) (time : Z) : list ServicePolicyViolation :=
  let max_age := effective_max_age requirement pol in
  let future := violation CredentialTimestampFuture requirement (Some c) None
                  "Credential issuance time is after evaluation time" in
  if bool_decide (is_Some max_age) || require_fresh_issuance requirement then
    match issued_at c with
    | None => [violation CredentialTimestampMissing requirement (Some c) None
                 "Credential issuance-time evidence is unavailable or invalid"]
    | Some issued =>
        if time <? issued then [future]
        else match max_age with
             | Some maximum =>
                 push_if (maximum <? time - issued)
                   (violation CredentialStale requirement (Some c) None
                      ("Credential exceeds maximum age of " +:+ pretty maximum +:+ " seconds"))
             | None => []
             end
    end
  else push_if (match issued_at c with Some issued => time <? issued | None => false end) future.

(** [src/marty-verification/src/policy/service.rs:915-972] apply_freshness, the revocation evidence *)
Definition revocation_violations (requirement : ServiceCredentialRequirement)
    (pol : ServicePresentationPolicy) (c : VerifiedCredentialFacts) (time : Z) : list ServicePolicyViolation :=
  if bool_decide (not_revoked c = Some false) then
    [violation CredentialRevoked requirement (Some c) None
       match credential_status c with
       | Some LcSuspended => "Credential is suspended"
       | Some LcExpired => "Credential is expired"
       | _ => "Credential is revoked"
       end]
  else
    match freshness pol with
    | None => []
    | Some fresh =>
        if negb (require_not_revoked fresh) then []
        else
          match revocation_checked_at c with
          | None => [violation RevocationCheckRequired requirement (Some c) None
                       "Revocation status was not checked"]
          | Some checked_at =>
              if time <? checked_at
              then [violation RevocationEvidenceStale requirement (Some c) None
                      "Revocation check time is after evaluation time"]
              else if match revocation_grace_seconds fresh with
                      | Some grace => grace <? time - checked_at
                      | None => false
                      end
              then [violation RevocationEvidenceStale requirement (Some c) None
                      "Revocation evidence is older than the policy permits"]
              else push_if (bool_decide (not_revoked c = None))
                     (violation RevocationStatusUnknown requirement (Some c) None
                        "Revocation status is unknown")
          end
    end.

(** [src/marty-verification/src/policy/service.rs:857-973] apply_freshness: the violations it pushes *)
Definition apply_freshness (requirement : ServiceCredentialRequirement) (pol : ServicePresentationPolicy)
    (c : VerifiedCredentialFacts) (time : Z) : list ServicePolicyViolation :=
  age_violations requirement pol c time ++ revocation_violations requirement pol c time.

(** [credential.claims.get(name)]. *)
Definition claim_get (c : VerifiedCredentialFacts) (name : string) : option Value :=
  snd <$> find (fun e => String.eqb e.1 name) (claims c).

(** [src/marty-verification/src/policy/service.rs:753-789] evaluate_candidate, one requested claim *)
Definition evaluate_claim (requirement : ServiceCredentialRequirement) (c : VerifiedCredentialFacts)
    (time : Z) (requested : ServiceRequestedClaim) : ServiceClaimResult * list ServicePolicyViolation :=
  let value := claim_get c (rc_claim_name requested) in
  let results := (fun k => mkConstraintResult (constraint_type k) (evaluate_constraint k value time))
                   <$> constraints requested in
  let satisfied := (bool_decide (is_Some value) || negb (rc_required requested))
                   && forallb cres_passed results in
  (mkClaimResult (rc_claim_name requested) satisfied value results,
   concat ((fun k => push_if (negb (cres_passed k))
              (violation ClaimConstraintFailed requirement (Some c) (Some (rc_claim_name requested))
                 "Claim constraint was not satisfied")) <$> results) ++
   push_if (rc_required requested && negb (bool_decide (is_Some value)))
     (violation ClaimMissing requirement (Some c) (Some (rc_claim_name requested))
        "Required claim is missing")).

(** [reason.map(|r| format!("{prefix}: {r}")).unwrap_or(plain)]. *)
Definition with_reason (prefix plain : string) (reason : option string) : string :=
  match reason with Some r => prefix +:+ ": " +:+ r | None => plain end.

(** [src/marty-verification/src/policy/service.rs:673-801] evaluate_candidate *)
Definition evaluate_candidate (requirement : ServiceCredentialRequirement) (pol : ServicePresentationPolicy)
    (c : VerifiedCredentialFacts) (time : Z) : ServiceCredentialResult :=
  let evaluated := evaluate_claim requirement c time <$> requested_claims requirement in
  let errs :=
    push_if (negb (signature_verified c))
      (violation SignatureInvalid requirement (Some c) None
         (with_reason "Credential signature was not verified" "Credential signature was not verified"
            (signature_failure_reason c))) ++
    push_if (match credential_payload_format requirement with
             | Some required_format =>
                 negb (String.eqb (canonical_credential_format required_format)
                         (canonical_credential_format (credential_format c)))
             | None => false
             end)
      (violation CredentialFormatMismatch requirement (Some c) None
         "Credential format does not match the requirement") ++
    push_if ((bool_decide (is_Some (rq_trust_profile_id requirement)) ||
              bool_decide (is_Some (pol_trust_profile_id pol))) && negb (trust_profile_verified c))
      (violation TrustProfileNotVerified requirement (Some c) None
         (with_reason "Issuer trust verification failed"
            "Issuer was not verified against the required trust profile" (trust_failure_reason c))) ++
    push_if (negb (bool_decide (allowed_issuers pol = [])) &&
             negb (existsb (fun issuer => String.eqb issuer (issuer_id c)) (allowed_issuers pol)))
      (violation IssuerNotAllowed requirement (Some c) None
         ("Issuer '" +:+ issuer_id c +:+ "' is not in the policy allowlist")) ++
    apply_issuer_constraints requirement pol c ++
    apply_freshness requirement pol c time ++
    concat (snd <$> evaluated) in
  mkCredentialResult (rq_id requirement) (rq_template_id requirement) (Some (vc_id c)) (Some (issuer_id c))
    (bool_decide (length errs = 0%nat)) (fst <$> evaluated) errs (vc_warnings c).

(** The order of candidates: satisfied first, then fewer errors, then the
    credential id ([None] before [Some]). *)
Definition opt_str_le (a b : option string) : bool :=
  match a, b with
  | None, _ => true
  | Some _, None => false
  | Some s, Some t => bytes_le (str_bytes s) (str_bytes t)
  end.

Definition candidate_le (left right : ServiceCredentialResult) : bool :=
  if cr_satisfied left && negb (cr_satisfied right) then true
  else if negb (cr_satisfied left) && cr_satisfied right then false
  else if (length (cr_errors left) <? length (cr_errors right))%nat then true
  else if (length (cr_errors right) <? length (cr_errors left))%nat then false
  else opt_str_le (cr_credential_id left) (cr_credential_id right).

Definition matches_template (requirement : ServiceCredentialRequirement) (c : VerifiedCredentialFacts) : bool :=
  String.eqb (rq_template_id requirement) "" ||
  existsb (String.eqb (rq_template_id requirement)) (credential_template_ids c).

(** [src/marty-verification/src/policy/service.rs:625-671] evaluate_requirement *)
Definition evaluate_requirement (requirement : ServiceCredentialRequirement)
    (pol : ServicePresentationPolicy) (creds : list VerifiedCredentialFacts) (time : Z) :
    ServiceCredentialResult :=
  let candidates := List.filter (matches_template requirement) creds in
  match sort_by candidate_le ((fun c => evaluate_candidate requirement pol c time) <$> candidates) with
  | best :: _ => best
  | [] =>
      mkCredentialResult (rq_id requirement) (rq_template_id requirement) None None false []
        [violation CredentialMissing requirement None None "No credential matched the requirement"] []
  end.

(** ** Aggregation of verified claims *)

Definition Aggregate : Type := gmap string Value * list ServicePolicyViolation.

(** [src/marty-verification/src/policy/service.rs:1132-1154] collect_verified_claims, one claim *)
Definition collect_claim (credential_id : option string) (acc : Aggregate) (claim : ServiceClaimResult) :
    Aggregate :=
  if negb (clr_satisfied claim) then acc
  else match presented_value claim with
       | None => acc
       | Some value =>
           if match acc.1 !! clr_name claim with Some existing => negb (json_eqb existing value) | None => false end
           then (acc.1, acc.2 ++ [mkViolation ConflictingVerifiedClaim None credential_id (Some (clr_name claim))
                  ("Verified credentials contain conflicting values for " +:+ clr_name claim)])
           else (<[clr_name claim := value]> acc.1, acc.2)
       end.

(** [src/marty-verification/src/policy/service.rs:1124-1155] collect_verified_claims *)
Definition collect_verified_claims (result : ServiceCredentialResult) (acc : Aggregate) : Aggregate :=
  if negb (cr_satisfied result) then acc
  else foldl (collect_claim (cr_credential_id result)) acc (claim_results result).

(** ** The decision *)

Definition count_if {A} (f : A -> bool) (l : list A) : Z := zlen (List.filter f l).

(** [src/marty-verification/src/policy/service.rs:350-382] evaluate_service_policy, one alternative requirement *)
Definition evaluate_alternative (pol : ServicePresentationPolicy) (creds : list VerifiedCredentialFacts)
    (time : Z) (alt : ServiceAlternativeRequirement) : ServiceAlternativeResult :=
  let results := (fun r => evaluate_requirement r pol creds time) <$> alt_requirements alt in
  let n := count_if cr_satisfied results in
  mkAlternativeResult (alt_id alt) (alt_name alt) (min_satisfied alt <=? n) (min_satisfied alt) n results.

(** [src/marty-verification/src/policy/service.rs:395-414] evaluate_service_policy, the errors of the alternatives *)
Definition alternative_violations (alt : ServiceAlternativeResult) : list ServicePolicyViolation :=
  if ar_satisfied alt then []
  else concat (cr_errors <$> ar_results alt) ++
       [mkViolation AlternativeRequirementFailed (Some (ar_id alt)) None None
          ("Alternative requirement needs " +:+ pretty (ar_min_satisfied alt)
             +:+ " satisfied credentials; received " +:+ pretty (satisfied_count alt))].

(** [value.as_ref().is_none_or(|v| !list.contains(v))] for a non-empty list. *)
Definition not_listed (l : list string) (value : option string) : bool :=
  negb (bool_decide (l = [])) &&
  match value with Some v => negb (existsb (String.eqb v) l) | None => true end.

(** [src/marty-verification/src/policy/service.rs:416-473] evaluate_service_policy, holder binding *)
Definition holder_binding_violations (req : ServicePolicyEvaluationRequest) : list ServicePolicyViolation :=
  let hb := holder_binding (policy req) in
  push_if (hb_required hb && negb (holder_binding_verified req))
    (global_violation HolderBindingRequired "Required holder binding was not verified") ++
  (if hb_required hb && holder_binding_verified req then
     push_if (not_listed (binding_methods hb) (holder_binding_method req))
       (global_violation HolderBindingMethodNotAllowed
          "Verified holder-binding method is not allowed by the policy") ++
     push_if (not_listed (proof_profiles hb) (proof_profile req))
       (global_violation ProofProfileNotAllowed "Verified proof profile is not allowed by the policy") ++
     push_if (challenge_required hb && negb (challenge_verified req))
       (global_violation ChallengeBindingRequired "Presentation challenge binding was not verified") ++
     push_if (audience_binding_required hb && negb (audience_verified req))
       (global_violation AudienceBindingRequired "Presentation audience binding was not verified") ++
     push_if (replay_detection_required hb && negb (replay_check_verified req))
       (global_violation ReplayDetectionRequired "Presentation replay detection was not verified")
   else []).

(** [src/marty-verification/src/policy/service.rs:475-501] evaluate_service_policy, the time of the proof *)
Definition proof_time_violations (req : ServicePolicyEvaluationRequest) : list ServicePolicyViolation :=
  let hb := holder_binding (policy req) in
  if match proof_epoch_seconds req with Some t => evaluation_time req <? t | None => false end
  then [global_violation ProofTimestampFuture "Proof time is after evaluation time"]
  else if hb_required hb then
    match max_proof_age_seconds hb with
    | None => []
    | Some max_age =>
        match proof_epoch_seconds req with
        | None => [global_violation ProofTimestampMissing "Proof time is required by the holder-binding policy"]
        | Some t => push_if (max_age <? evaluation_time req - t)
                      (global_violation ProofStale "Proof is older than the holder-binding policy permits")
        end
    end
  else [].

(** [parts.join("; ")]. *)
Fixpoint join_semicolon (parts : list string) : string :=
  match parts with
  | [] => ""
  | [p] => p
  | p :: ps => p +:+ "; " +:+ join_semicolon ps
  end.

(** [src/marty-verification/src/policy/service.rs:503-535] evaluate_service_policy, external authorization *)
Definition external_violations (req : ServicePolicyEvaluationRequest) : list ServicePolicyViolation :=
  match external_authorization req with
  | None => []
  | Some external =>
      let details := join_semicolon (reasons external ++ ext_errors external) in
      if negb (evaluated external) then
        [global_violation ExternalAuthorizationNotEvaluated
           (if String.eqb details "" then "External authorization was supplied but not evaluated"
            else "External authorization was not evaluated: " +:+ details)]
      else push_if (negb (allowed external))
             (global_violation ExternalAuthorizationDenied ("External authorization denied: " +:+ details))
  end.

(** [src/marty-verification/src/policy/service.rs:537-544] evaluate_service_policy, the number of presentations *)
Definition single_presentation_violations (req : ServicePolicyEvaluationRequest) :
    list ServicePolicyViolation :=
  push_if (single_presentation (policy req) &&
           negb (default (zlen (credentials req)) (presentation_count req) =? 1))
    (global_violation SinglePresentationRequired "Policy requires exactly one presentation").

(** [credentials.sort_by(|l, r| l.credential_id.cmp(&r.credential_id))]. *)
Definition credential_id_le (a b : VerifiedCredentialFacts) : bool :=
  bytes_le (str_bytes (vc_id a)) (str_bytes (vc_id b)).

(** [usize::from(bool)]. *)
Definition b2z (b : bool) : Z := if b then 1 else 0.

(** [src/marty-verification/src/policy/service.rs:546-584] evaluate_service_policy, the decision *)
Definition final_decision (proof_required proof_ok : bool) (satisfied total : Z)
    (all_direct_required_satisfied : bool) (errs : list ServicePolicyViolation) :
    ServiceEvaluationOutcome * ServiceDecision * string :=
  let global_failure := existsb (fun e => bool_decide (v_requirement_id e = None)) errs in
  let fully_satisfied := (satisfied =? total) && all_direct_required_satisfied && negb global_failure in
  let satisfied_credential_obligations := Z.max 0 (satisfied - b2z proof_ok) in
  if fully_satisfied then
    (Passed, Allow,
     if proof_required then "All required presentation and credential evidence satisfied"
     else "All required credentials and claims satisfied")
  else if (0 <? satisfied_credential_obligations) && negb global_failure then
    (Partial, ManualReview,
     "Partially satisfied: " +:+ pretty satisfied +:+ "/" +:+ pretty total +:+ " required")
  else
    (Failed, Deny, match errs with e :: _ => v_message e | [] => "Required credentials not satisfied" end).

(** [src/marty-verification/src/policy/service.rs:317-623] evaluate_service_policy, after validation *)
Definition evaluate_valid_request (req : ServicePolicyEvaluationRequest) : ServicePolicyEvaluationResult :=
  let pol := policy req in
  let time := evaluation_time req in
  let creds := sort_by credential_id_le (credentials req) in
  let proof_ok := presentation_proof_required pol && presentation_verified req in
  let direct := (fun r => evaluate_requirement r pol creds time) <$> credential_requirements pol in
  let pairs := zip (credential_requirements pol) direct in
  let alternatives := evaluate_alternative pol creds time <$> alternative_requirements pol in
  let total := b2z (presentation_proof_required pol) + count_if (fun p => rq_required p.1) pairs
               + zlen alternatives in
  let satisfied := b2z proof_ok + count_if (fun p => rq_required p.1 && cr_satisfied p.2) pairs
                   + count_if ar_satisfied alternatives in
  let agg := foldl (fun acc r => collect_verified_claims r acc) (∅, []) direct in
  let agg := foldl (fun acc alt =>
               if ar_satisfied alt
               then foldl (fun acc r => if cr_satisfied r then collect_verified_claims r acc else acc) acc
                      (ar_results alt)
               else acc) agg alternatives in
  let errs :=
    concat (cr_errors <$> direct) ++ agg.2 ++
    push_if (presentation_proof_required pol && negb (presentation_verified req))
      (global_violation PresentationProofRequired "Required presentation proof was not verified") ++
    concat (alternative_violations <$> alternatives) ++
    holder_binding_violations req ++ proof_time_violations req ++ external_violations req ++
    single_presentation_violations req in
  let all_direct_required_satisfied := forallb (fun p => negb (rq_required p.1) || cr_satisfied p.2) pairs in
  let '(res, dec, reason) :=
    final_decision (presentation_proof_required pol) proof_ok satisfied total all_direct_required_satisfied errs in
  mkResult res dec reason (pol_id pol) (pol_name pol) direct alternatives
    (zlen direct + zlen alternatives + b2z (presentation_proof_required pol))
    (count_if cr_satisfied direct + count_if ar_satisfied alternatives + b2z proof_ok)
    satisfied total (if bool_decide (dec = Allow) then agg.1 else ∅) errs
    (concat (vc_warnings <$> creds)) time.

(** ** Validation of a request *)

Definition invalid {A} (message : string) : result A := Err (InvalidRequest message).

(** [src/marty-verification/src/policy/service.rs:1347-1352] validate_string *)
Definition validate_string (field value : string) : result unit :=
  ensure (negb (String.eqb value "" || (MAX_STRING_LENGTH <? str_len value)))
    (InvalidRequest (field +:+ " must be non-empty and bounded")).

(** [src/marty-verification/src/policy/service.rs:1354-1359] validate_optional_string *)
Definition validate_optional_string (field : string) (value : option string) : result unit :=
  match value with Some v => validate_string field v | None => Ok tt end.

(** A loop that stops at the first error. *)
Fixpoint for_each {A} (f : A -> result unit) (l : list A) : result unit :=
  match l with [] => Ok tt | x :: l => f x;; for_each f l end.

(** [src/marty-verification/src/policy/service.rs:1361-1369] validate_bounded_strings *)
Definition validate_bounded_strings (field : string) (values : list string) : result unit :=
  ensure (negb (MAX_LIST_ITEMS <? zlen values)) (InvalidRequest (field +:+ " has too many values"));;
  for_each (validate_string field) values.

(** [src/marty-verification/src/policy/service.rs:1371-1380] validate_value; serializing a value does not fail *)
Definition validate_value (field : string) (value : Value) : result unit :=
  ensure (negb (MAX_VALUE_BYTES <? str_len (json_text value))) (InvalidRequest (field +:+ " is too large")).

(** [src/marty-verification/src/policy/service.rs:1237-1263] validate_request, one credential *)
Definition validate_credential (c : VerifiedCredentialFacts) : result unit :=
  validate_string "credential_id" (vc_id c);;
  validate_string "issuer_id" (issuer_id c);;
  validate_string "credential_format" (credential_format c);;
  validate_optional_string "signature_failure_reason" (signature_failure_reason c);;
  validate_optional_string "trust_failure_reason" (trust_failure_reason c);;
  validate_bounded_strings "credential_template_ids" (credential_template_ids c);;
  validate_bounded_strings "compliance_statuses" (compliance_statuses c);;
  validate_bounded_strings "accreditations" (accreditations c);;
  validate_bounded_strings "credential warnings" (vc_warnings c);;
  ensure (negb (MAX_CLAIMS_PER_CREDENTIAL <? zlen (claims c)))
    (InvalidRequest "credential has too many claims");;
  for_each (fun e => validate_string "claim_name" e.1;; validate_value "claim value" e.2) (claims c).

(** [src/marty-verification/src/policy/service.rs:1294-1316] validate_request, one claim constraint *)
Definition validate_constraint (claim : ServiceRequestedClaim) (k : ServiceClaimConstraint) : result unit :=
  ensure (String.eqb (cc_claim_name k) (rc_claim_name claim))
    (InvalidRequest "constraint claim_name does not match requested claim");;
  ensure (negb (bool_decide (constraint_type k = Regex) &&
                (MAX_REGEX_LENGTH <? match cc_value k with Some (VString s) => str_len s | _ => usize_max end)))
    (InvalidRequest "regex constraint is missing or too large");;
  ensure (negb (negb (bool_decide (constraint_type k = Presence)) &&
                match cc_value k with None => true | Some _ => false end))
    (InvalidRequest "non-presence constraint is missing its comparison value");;
  match cc_value k with Some value => validate_value "constraint value" value | None => Ok tt end.

(** [src/marty-verification/src/policy/service.rs:1264-1319] validate_request, one credential requirement *)
Definition validate_requirement (r : ServiceCredentialRequirement) : result unit :=
  validate_string "requirement.id" (rq_id r);;
  (if String.eqb (rq_template_id r) "" then Ok tt
   else validate_string "requirement.credential_template_id" (rq_template_id r));;
  validate_optional_string "requirement.credential_payload_format" (credential_payload_format r);;
  validate_optional_string "requirement.trust_profile_id" (rq_trust_profile_id r);;
  ensure (negb (MAX_CLAIMS_PER_REQUIREMENT <? zlen (requested_claims r)))
    (InvalidRequest "requirement has too many requested claims");;
  for_each (fun claim =>
    validate_string "claim_name" (rc_claim_name claim);;
    match predicate_spec claim with Some v => validate_value "predicate_spec" v | None => Ok tt end;;
    for_each (validate_constraint claim) (constraints claim)) (requested_claims r).

(** [src/marty-verification/src/policy/service.rs:1320-1328] validate_request, one alternative requirement *)
Definition validate_alternative (alt : ServiceAlternativeRequirement) : result unit :=
  validate_string "alternative.id" (alt_id alt);;
  validate_string "alternative.name" (alt_name alt);;
  ensure (negb ((min_satisfied alt =? 0) || (zlen (alt_requirements alt) <? min_satisfied alt)))
    (InvalidRequest "alternative min_satisfied is outside its credential range").

(** [i64::MAX as u64]. *)
Definition i64_max : Z := 2 ^ 63 - 1.

(** [src/marty-verification/src/policy/service.rs:1183-1345] validate_request *)
Definition validate_request (req : ServicePolicyEvaluationRequest) : result unit :=
  let pol := policy req in
  let hb := holder_binding pol in
  let all_requirements := credential_requirements pol ++ concat (alt_requirements <$> alternative_requirements pol) in
  ensure (negb (i64_max <? evaluation_time req))
    (InvalidRequest "evaluation time is outside the supported timestamp range");;
  validate_string "policy.id" (pol_id pol);;
  validate_string "policy.name" (pol_name pol);;
  validate_string "policy.organization_id" (pol_organization_id pol);;
  validate_optional_string "policy.trust_profile_id" (pol_trust_profile_id pol);;
  validate_bounded_strings "holder_binding.binding_methods" (binding_methods hb);;
  validate_bounded_strings "holder_binding.proof_profiles" (proof_profiles hb);;
  validate_optional_string "holder_binding_method" (holder_binding_method req);;
  validate_optional_string "proof_profile" (proof_profile req);;
  validate_bounded_strings "policy.allowed_issuers" (allowed_issuers pol);;
  ensure (negb (MAX_CREDENTIALS <? zlen (credentials req))) (InvalidRequest "too many credentials");;
  ensure (negb (match presentation_count req with Some n => MAX_CREDENTIALS <? n | None => false end))
    (InvalidRequest "presentation count exceeds the supported limit");;
  ensure (negb (MAX_REQUIREMENTS <? zlen all_requirements)) (InvalidRequest "too many credential requirements");;
  ensure (negb ((count_if rq_required (credential_requirements pol) + zlen (alternative_requirements pol) =? 0)
                && negb (presentation_proof_required pol)))
    (InvalidRequest "policy has no required credential or presentation obligations");;
  for_each validate_credential (credentials req);;
  for_each validate_requirement all_requirements;;
  for_each validate_alternative (alternative_requirements pol);;
  match issuer_constraints pol with
  | Some ic =>
      validate_bounded_strings "required_compliance_statuses" (required_compliance_statuses ic);;
      validate_bounded_strings "required_accreditations" (required_accreditations ic)
  | None => Ok tt
  end;;
  match external_authorization req with
  | Some external => for_each (validate_string "external authorization message")
                       (reasons external ++ ext_errors external)
  | None => Ok tt
  end.

(** [src/marty-verification/src/policy/service.rs:312-315] evaluate_service_policy *)
Definition evaluate_service_policy (req : ServicePolicyEvaluationRequest) :
    result ServicePolicyEvaluationResult :=
  validate_request req;;
  Ok (evaluate_valid_request req).
End kernel.
