(* ===== verification/PolicyServiceFacts.v ===== *)
(** * The presentation policy kernel: theorems (marty-verification, [policy/service.rs])

    When a presentation is allowed, where its verified claims come from, and
    that the order in which credentials are presented does not matter. *)

From S2P Require Import Prelude Governance CanonicalJsonFacts PolicyService.
Local Open Scope Z_scope.

Create HintDb names.

(** ** Violations *)

Lemma push_if_nil b v : push_if b v = [] <-> b = false.
Proof. by destruct b. Qed.

Lemma concat_nil {A B} (f : A -> list B) l : concat (f <$> l) = [] <-> forall x, x ∈ l -> f x = [].
Proof.
  induction l as [|a l IH]; [split; [intros _ x Hx; inversion Hx|done]|].
  rewrite fmap_cons. simpl. rewrite app_nil, IH. split.
  - intros [Ha Hl] x [->|Hx]%elem_of_cons; auto.
  - intros Hall. split; [|intros x Hx]; apply Hall; [by left|by right].
Qed.

(** ** The specification of a requirement *)
Section specification.
Context `{JsonValueOps, RegexOps, Calendar}.

Definition issuer_ok (pol : ServicePresentationPolicy) (c : VerifiedCredentialFacts) : Prop :=
  (allowed_issuers pol = [] \/ issuer_id c ∈ allowed_issuers pol) /\
  forall ic, issuer_constraints pol = Some ic ->
    (forall m, min_trust_level ic = Some m -> exists a, trust_level c = Some a /\ m <= a) /\
    (forall s, s ∈ required_compliance_statuses ic -> s ∈ compliance_statuses c) /\
    (forall s, s ∈ required_accreditations ic -> s ∈ accreditations c).

(** The maximum ages of the requirement and of the policy. *)
Definition max_ages (r : ServiceCredentialRequirement) (pol : ServicePresentationPolicy) (m : Z) : Prop :=
  rq_max_age_seconds r = Some m \/ freshness pol ≫= fp_max_age_seconds = Some m.

Definition age_ok (r : ServiceCredentialRequirement) (pol : ServicePresentationPolicy)
    (c : VerifiedCredentialFacts) (time : Z) : Prop :=
  (forall t, issued_at c = Some t -> t <= time) /\
  (require_fresh_issuance r = true -> is_Some (issued_at c)) /\
  (forall m, max_ages r pol m -> exists t, issued_at c = Some t /\ time - t <= m).

Definition revocation_ok (pol : ServicePresentationPolicy) (c : VerifiedCredentialFacts) (time : Z) : Prop :=
  not_revoked c <> Some false /\
  forall fr, freshness pol = Some fr -> require_not_revoked fr = true ->
    not_revoked c = Some true /\
    exists t, revocation_checked_at c = Some t /\ t <= time /\
      forall g, revocation_grace_seconds fr = Some g -> time - t <= g.

Definition claim_ok (c : VerifiedCredentialFacts) (time : Z) (q : ServiceRequestedClaim) : Prop :=
  (rc_required q = true -> is_Some (claim_get c (rc_claim_name q))) /\
  forall k, k ∈ constraints q -> evaluate_constraint k (claim_get c (rc_claim_name q)) time = true.

(** A credential meets a requirement. *)
Record candidate_ok (r : ServiceCredentialRequirement) (pol : ServicePresentationPolicy)
    (c : VerifiedCredentialFacts) (time : Z) : Prop := {
  co_signature : signature_verified c = true;
  co_format : forall f, credential_payload_format r = Some f ->
    canonical_credential_format f = canonical_credential_format (credential_format c);
  co_trust : is_Some (rq_trust_profile_id r) \/ is_Some (pol_trust_profile_id pol) ->
    trust_profile_verified c = true;
  co_issuer : issuer_ok pol c;
  co_age : age_ok r pol c time;
  co_revocation : revocation_ok pol c time;
  co_claims : forall q, q ∈ requested_claims r -> claim_ok c time q;
}.

(** Some presented credential meets the requirement. *)
Definition requirement_ok (pol : ServicePresentationPolicy) (creds : list VerifiedCredentialFacts) (time : Z)
    (r : ServiceCredentialRequirement) : Prop :=
  exists c, c ∈ creds /\ matches_template r c = true /\ candidate_ok r pol c time.

(** ** Each group of checks *)

Lemma issuer_constraints_nil r pol c : apply_issuer_constraints r pol c = [] <->
  forall ic, issuer_constraints pol = Some ic ->
    (forall m, min_trust_level ic = Some m -> exists a, trust_level c = Some a /\ m <= a) /\
    (forall s, s ∈ required_compliance_statuses ic -> s ∈ compliance_statuses c) /\
    (forall s, s ∈ required_accreditations ic -> s ∈ accreditations c).
Proof.
  unfold apply_issuer_constraints. destruct (issuer_constraints pol) as [ic|]; [|by split].
  rewrite !app_nil, push_if_nil, !concat_nil. setoid_rewrite push_if_nil.
  setoid_rewrite negb_false_iff. setoid_rewrite bool_decide_eq_true. setoid_rewrite elem_of_list_to_set.
  split.
  - intros (Ht & Hc & Ha) ? [= <-]. split; [|done]. intros m Hm. rewrite Hm in Ht.
    destruct (trust_level c) as [a|]; [|done]. exists a. split; [done|]. by apply Z.ltb_ge.
  - intros Hall. destruct (Hall ic eq_refl) as (Ht & Hc & Ha). split; [|done].
    destruct (min_trust_level ic) as [m|]; [|done]. destruct (Ht m eq_refl) as (a & -> & Hle).
    by apply Z.ltb_ge.
Qed.

Lemma allowed_issuers_nil pol c :
  negb (bool_decide (allowed_issuers pol = [])) &&
    negb (existsb (fun issuer => String.eqb issuer (issuer_id c)) (allowed_issuers pol)) = false <->
  allowed_issuers pol = [] \/ issuer_id c ∈ allowed_issuers pol.
Proof.
  rewrite andb_false_iff, !negb_false_iff, bool_decide_eq_true, <- existsb_eqb.
  replace (existsb (fun issuer => String.eqb issuer (issuer_id c)) (allowed_issuers pol))
    with (existsb (String.eqb (issuer_id c)) (allowed_issuers pol)); [done|].
  generalize (allowed_issuers pol) as l. induction l as [|x l IH]; [done|]. simpl.
  by rewrite IH, String.eqb_sym.
Qed.

Lemma effective_max_age_spec r pol :
  match effective_max_age r pol with
  | Some m => max_ages r pol m /\ forall m', max_ages r pol m' -> m <= m'
  | None => forall m', ~ max_ages r pol m'
  end.
Proof.
  unfold effective_max_age, max_ages.
  destruct (rq_max_age_seconds r) as [a|], (freshness pol ≫= fp_max_age_seconds) as [b|].
  - split.
    + destruct (Z.min_spec a b) as [[_ ->]|[_ ->]]; auto.
    + intros m' [[= ->]|[= ->]]; lia.
  - split; [auto|]. intros m' [[= ->]|?]; [lia|done].
  - split; [auto|]. intros m' [?|[= ->]]; [done|lia].
  - intros m' [?|?]; done.
Qed.

Lemma age_violations_nil r pol c time : age_violations r pol c time = [] <-> age_ok r pol c time.
Proof.
  unfold age_violations, age_ok. pose proof (effective_max_age_spec r pol) as Hmax.
  destruct (effective_max_age r pol) as [m|]; simpl.
  - destruct Hmax as [Hm Hmin].
    destruct (issued_at c) as [t|] eqn:Ht.
    + destruct (Z.ltb_spec time t) as [Hlt|Hge].
      * split; [done|]. intros (Hall & _). specialize (Hall t eq_refl). lia.
      * rewrite push_if_nil, Z.ltb_ge. split.
        -- intros Hle. split; [by intros ? [= <-]|]. split; [done|]. intros m' Hm'%Hmin. exists t. split; [done|lia].
        -- intros (_ & _ & Hall). destruct (Hall m Hm) as (? & [= <-] & ?). done.
    + split; [done|]. intros (_ & _ & Hall). by destruct (Hall m Hm) as (? & ? & _).
  - destruct (require_fresh_issuance r); simpl; destruct (issued_at c) as [t|] eqn:Ht.
    + destruct (Z.ltb_spec time t) as [Hlt|Hge]; simpl.
      * split; [done|]. intros (Hall & _). specialize (Hall t eq_refl). lia.
      * split; [|done]. intros _. split; [by intros ? [= <-]|]. split; [done|]. intros m' []%Hmax.
    + split; [done|]. intros (_ & Hs & _). by destruct (Hs eq_refl).
    + rewrite push_if_nil, Z.ltb_ge. split.
      * intros Hle. split; [by intros ? [= <-]|]. split; [done|]. intros m' []%Hmax.
      * intros (Hall & _). by apply Hall.
    + split; [|done]. intros _. split; [done|]. split; [done|]. intros m' []%Hmax.
Qed.

Lemma revocation_violations_nil r pol c time :
  revocation_violations r pol c time = [] <-> revocation_ok pol c time.
Proof.
  unfold revocation_violations, revocation_ok.
  destruct (not_revoked c) as [[]|] eqn:Hn;
    [rewrite bool_decide_eq_false_2 by done|rewrite bool_decide_eq_true_2 by done; naive_solver|
     rewrite bool_decide_eq_false_2 by done].
  all: destruct (freshness pol) as [fr|] eqn:Hfr; [|by split].
  all: destruct (require_not_revoked fr) eqn:Hreq; cbn [negb];
    [|split; [intros _; split; [done|]; intros ? [= <-]; congruence|done]].
  all: destruct (revocation_checked_at c) as [t|] eqn:Ht;
    [|split; [done|]; intros [_ Hall]; by destruct (Hall fr eq_refl Hreq) as (_ & ? & ? & _)].
  all: destruct (Z.ltb_spec time t);
    [split; [done|]; intros [_ Hall]; destruct (Hall fr eq_refl Hreq) as (_ & ? & [= <-] & ? & _); lia|].
  - destruct (revocation_grace_seconds fr) as [g|] eqn:Hg; [destruct (Z.ltb_spec g (time - t))|].
    + split; [done|]. intros [_ Hall]. destruct (Hall fr eq_refl Hreq) as (_ & ? & [= <-] & _ & Hgr).
      specialize (Hgr g Hg). lia.
    + rewrite push_if_nil, bool_decide_eq_false. split; [|done]. intros _. split; [done|].
      intros ? [= <-] _. split; [done|]. exists t. split; [done|]. split; [done|]. intros ? ?. congruence || (simplify_eq; lia).
    + rewrite push_if_nil, bool_decide_eq_false. split; [|done]. intros _. split; [done|].
      intros ? [= <-] _. split; [done|]. exists t. split; [done|]. split; [done|]. intros ? ?. congruence.
  - split; [|intros [_ Hall]; by destruct (Hall fr eq_refl Hreq)].
    case_match; [done|]. by rewrite push_if_nil, bool_decide_eq_false.
Qed.

Lemma evaluate_claim_nil r c time q : (evaluate_claim r c time q).2 = [] <-> claim_ok c time q.
Proof.
  unfold evaluate_claim, claim_ok. simpl. rewrite app_nil, push_if_nil, concat_nil.
  rewrite andb_false_iff, negb_false_iff, bool_decide_eq_true. setoid_rewrite push_if_nil.
  setoid_rewrite negb_false_iff. split.
  - intros [Hres Hreq]. split; [intros Hr; by destruct Hreq; congruence|].
    intros k Hk. by apply (Hres (mkConstraintResult _ _) (list_elem_of_fmap_2 _ _ _ Hk)).
  - intros [Hreq Hk]. split.
    + intros x Hx. apply list_elem_of_fmap in Hx as (k & -> & Hin). by apply Hk.
    + destruct (rc_required q); [right; by apply Hreq|by left].
Qed.

(** A candidate is satisfied exactly when it meets the requirement. *)
Lemma candidate_satisfied r pol c time :
  cr_satisfied (evaluate_candidate r pol c time) = true <-> candidate_ok r pol c time.
Proof.
  unfold evaluate_candidate. cbv zeta. simpl cr_satisfied. rewrite bool_decide_eq_true, length_zero_iff_nil.
  unfold apply_freshness. rewrite !app_nil, !push_if_nil, issuer_constraints_nil, age_violations_nil,
    revocation_violations_nil, allowed_issuers_nil, <- list_fmap_compose, concat_nil.
  setoid_rewrite (evaluate_claim_nil r c time). rewrite negb_false_iff. split.
  - intros (Hs & Hf & Ht & Hi & Hic & [Ha Hr] & Hc). split; try done.
    + intros f Hfmt. rewrite Hfmt in Hf. apply negb_false_iff in Hf. by apply String.eqb_eq.
    + intros Hsome. apply andb_false_iff in Ht as [Ht|Ht]; [|by apply negb_false_iff].
      apply orb_false_iff in Ht as [?%bool_decide_eq_false ?%bool_decide_eq_false]. tauto.
  - intros [Hs Hf Ht [Hi Hic] Ha Hr Hc]. split_and!; try done.
    + destruct (credential_payload_format r) as [f|]; [|done]. apply negb_false_iff, String.eqb_eq. by apply Hf.
    + apply andb_false_iff. rewrite orb_false_iff, !bool_decide_eq_false, negb_false_iff.
      destruct (decide (is_Some (rq_trust_profile_id r))), (decide (is_Some (pol_trust_profile_id pol))); tauto.
Qed.

(** ** Choosing a candidate *)

Lemma opt_str_le_total a b : opt_str_le a b = true \/ opt_str_le b a = true.
Proof. destruct a, b; simpl; auto. apply bytes_le_total. Qed.

Lemma opt_str_le_trans a b c : opt_str_le a b = true -> opt_str_le b c = true -> opt_str_le a c = true.
Proof. destruct a, b, c; simpl; try done. apply bytes_le_trans. Qed.

Lemma candidate_le_total x y : candidate_le x y = true \/ candidate_le y x = true.
Proof.
  unfold candidate_le. destruct (cr_satisfied x), (cr_satisfied y); simpl; auto;
    (destruct (Nat.ltb_spec (length (cr_errors x)) (length (cr_errors y))),
       (Nat.ltb_spec (length (cr_errors y)) (length (cr_errors x))); auto; try lia; apply opt_str_le_total).
Qed.

Lemma candidate_le_trans x y z : candidate_le x y = true -> candidate_le y z = true -> candidate_le x z = true.
Proof.
  unfold candidate_le. destruct (cr_satisfied x), (cr_satisfied y), (cr_satisfied z); simpl; auto; try done;
    (destruct (Nat.ltb_spec (length (cr_errors x)) (length (cr_errors y))),
       (Nat.ltb_spec (length (cr_errors y)) (length (cr_errors x))),
       (Nat.ltb_spec (length (cr_errors y)) (length (cr_errors z))),
       (Nat.ltb_spec (length (cr_errors z)) (length (cr_errors y))),
       (Nat.ltb_spec (length (cr_errors x)) (length (cr_errors z))),
       (Nat.ltb_spec (length (cr_errors z)) (length (cr_errors x))); auto; try lia; try done;
     apply opt_str_le_trans).
Qed.

(** The result of a requirement is that of one of its candidates, and it is
    satisfied as soon as one candidate is. *)
Lemma evaluate_requirement_spec r pol creds time :
  let res := evaluate_requirement r pol creds time in
  (cr_satisfied res = true <-> requirement_ok pol creds time r) /\
  (cr_satisfied res = true -> exists c, c ∈ creds /\ matches_template r c = true /\
     candidate_ok r pol c time /\ res = evaluate_candidate r pol c time).
Proof.
  intros res. unfold evaluate_requirement in res.
  set (cands := (fun c => evaluate_candidate r pol c time) <$> List.filter (matches_template r) creds) in *.
  assert (Hin : forall x, x ∈ cands <-> exists c, c ∈ creds /\ matches_template r c = true /\
            x = evaluate_candidate r pol c time).
  { intros x. unfold cands. rewrite list_elem_of_fmap. split.
    - intros (c & -> & Hc). rewrite list_elem_of_In, filter_In, <- list_elem_of_In in Hc. naive_solver.
    - intros (c & Hc & Hm & ->). exists c. split; [done|]. by rewrite list_elem_of_In, filter_In, <- list_elem_of_In. }
  assert (Hsat : cr_satisfied res = true -> exists c, c ∈ creds /\ matches_template r c = true /\
            candidate_ok r pol c time /\ res = evaluate_candidate r pol c time).
  { intros Hs. unfold res in *. destruct (sort_by candidate_le cands) as [|best rest] eqn:Hsort; [done|].
    destruct (proj1 (Hin best)) as (c & Hc & Hm & ->); [rewrite <- (sort_by_perm candidate_le cands), Hsort; by left|].
    exists c. split; [done|]. split; [done|]. split; [by apply candidate_satisfied|done]. }
  split; [|done]. split.
  - intros Hs. destruct (Hsat Hs) as (c & ? & ? & ? & _). by exists c.
  - intros (c & Hc & Hm & Hok%candidate_satisfied).
    assert (Hy : evaluate_candidate r pol c time ∈ cands) by (apply Hin; by exists c).
    destruct (sort_by candidate_le cands) as [|best rest] eqn:Hsort.
    { rewrite <- (sort_by_perm candidate_le cands), Hsort in Hy. by apply not_elem_of_nil in Hy. }
    destruct (sort_by_head candidate_le candidate_le_total candidate_le_trans cands best) as [_ Hmin];
      [by rewrite Hsort|].
    change (cr_satisfied best = true).
    destruct (Hmin _ Hy) as [->|Hle]; [done|]. unfold candidate_le in Hle. rewrite Hok in Hle.
    by destruct (cr_satisfied best).
Qed.

(** Every violation of a requirement names it. *)
Definition names_requirement (e : ServicePolicyViolation) : Prop := is_Some (v_requirement_id e).

Lemma push_if_names b v : names_requirement v -> Forall names_requirement (push_if b v).
Proof. destruct b; simpl; repeat constructor; done. Qed.

Lemma concat_names {A} (f : A -> list ServicePolicyViolation) l :
  (forall x, Forall names_requirement (f x)) -> Forall names_requirement (concat (f <$> l)).
Proof. intros Hf. induction l as [|x l IH]; simpl; [constructor|]. apply Forall_app. by split. Qed.

Lemma violation_names code r c n m : names_requirement (violation code r c n m).
Proof. by eexists. Qed.

#[local] Hint Resolve push_if_names concat_names violation_names Forall_nil_2 : names.

Lemma evaluate_candidate_names r pol c time : Forall names_requirement (cr_errors (evaluate_candidate r pol c time)).
Proof.
  unfold evaluate_candidate. cbv zeta. simpl cr_errors. rewrite !Forall_app. split_and!; auto with names.
  - unfold apply_issuer_constraints. destruct (issuer_constraints pol); [|auto with names].
    rewrite !Forall_app. split_and!; auto with names.
  - unfold apply_freshness, age_violations, revocation_violations. rewrite Forall_app. cbv zeta.
    split; repeat case_match; auto with names; repeat constructor; by eexists.
  - rewrite <- list_fmap_compose. apply concat_names. intros q. unfold evaluate_claim. simpl.
    rewrite Forall_app. split; auto with names.
Qed.

Lemma evaluate_requirement_names r pol creds time :
  Forall names_requirement (cr_errors (evaluate_requirement r pol creds time)).
Proof.
  unfold evaluate_requirement.
  destruct (sort_by _ _) as [|best rest] eqn:Hsort; [repeat constructor; by eexists|].
  assert (Hb : best ∈ (fun c => evaluate_candidate r pol c time) <$> List.filter (matches_template r) creds).
  { rewrite <- (sort_by_perm candidate_le), Hsort. by left. }
  apply list_elem_of_fmap in Hb as (c & -> & _). apply evaluate_candidate_names.
Qed.
End specification.

(** ** Aggregated claims *)

(** The equality of JSON values is an equivalence. *)
Class JsonEqLaws `{JsonValueOps} : Prop := {
  json_eqb_refl v : json_eqb v v = true;
  json_eqb_sym v w : json_eqb v w = true -> json_eqb w v = true;
  json_eqb_trans u v w : json_eqb u v = true -> json_eqb v w = true -> json_eqb u w = true;
}.

(** The claims a claim result, a credential result and a whole evaluation
    disclose. *)
Definition disclosed_claim (k : ServiceClaimResult) : list (string * Value) :=
  if clr_satisfied k then match presented_value k with Some v => [(clr_name k, v)] | None => [] end else [].

Definition disclosed_result (res : ServiceCredentialResult) : list (string * Value) :=
  if cr_satisfied res then concat (disclosed_claim <$> claim_results res) else [].

Definition disclosed_alternative (alt : ServiceAlternativeResult) : list (string * Value) :=
  if ar_satisfied alt then concat (disclosed_result <$> ar_results alt) else [].

Definition disclosed (r : ServicePolicyEvaluationResult) : list (string * Value) :=
  concat (disclosed_result <$> credential_results r) ++ concat (disclosed_alternative <$> alternative_results r).

(** No name is disclosed with two different values. *)
Definition consistent `{JsonValueOps} (d : list (string * Value)) : Prop :=
  forall n v w, (n, v) ∈ d -> (n, w) ∈ d -> json_eqb v w = true.

Section aggregation.
Context `{JsonEqLaws}.

Record agg_inv (acc : Aggregate) (d : list (string * Value)) : Prop := {
  ag_errors : acc.2 = [] <-> consistent d;
  ag_sound n w : acc.1 !! n = Some w -> (n, w) ∈ d;
  ag_complete n v : acc.2 = [] -> (n, v) ∈ d -> exists w, acc.1 !! n = Some w /\ json_eqb w v = true;
  ag_global : Forall (fun e => v_requirement_id e = None) acc.2;
}.

Lemma agg_empty : agg_inv (∅, []) [].
Proof.
  split; [|intros n w Hn; simpl in Hn; by rewrite lookup_empty in Hn|intros n v _ Hv; by apply not_elem_of_nil in Hv|constructor].
  split; [|done]. intros _ n v w Hv. by apply not_elem_of_nil in Hv.
Qed.

Lemma agg_add (acc : Aggregate) d n v : agg_inv acc d -> (forall e, acc.1 !! n = Some e -> json_eqb e v = true) ->
  agg_inv (<[n := v]> acc.1, acc.2) (d ++ [(n, v)]).
Proof.
  intros [Herr Hs Hc Hg] Heq. split; simpl; try done.
  - split.
    + intros Hnil. pose proof (proj1 Herr Hnil) as Hcons.
      assert (Hnew : forall u, (n, u) ∈ d -> json_eqb u v = true).
      { intros u Hu. destruct (Hc n u Hnil Hu) as (e & He & Heu).
        eapply json_eqb_trans; [by apply json_eqb_sym|by apply Heq]. }
      intros m u w [Hu|[= -> ->]%list_elem_of_singleton]%elem_of_app [Hw|Hw%list_elem_of_singleton]%elem_of_app.
      * by eapply Hcons.
      * injection Hw as -> ->. by apply Hnew.
      * by apply json_eqb_sym, Hnew.
      * injection Hw as ->. apply json_eqb_refl.
    + intros Hcons. apply Herr. intros m u w Hu Hw. apply (Hcons m); apply elem_of_app; by left.
  - intros m w. destruct (decide (n = m)) as [<-|Hne].
    + rewrite lookup_insert_eq. intros [= <-]. set_solver.
    + rewrite lookup_insert_ne by done. intros ?%Hs. set_solver.
  - intros m u Hnil. destruct (decide (n = m)) as [<-|Hne].
    + rewrite lookup_insert_eq. intros [Hu|Hu%list_elem_of_singleton]%elem_of_app; exists v; split; try done.
      * destruct (Hc n u Hnil Hu) as (e & He & Heu). eapply json_eqb_trans; [by apply json_eqb_sym, Heq|done].
      * injection Hu as ->. apply json_eqb_refl.
    + rewrite lookup_insert_ne by done. intros [Hu|Hu%list_elem_of_singleton]%elem_of_app; [by apply Hc|congruence].
Qed.

Lemma agg_conflict (acc : Aggregate) d n v e x : agg_inv acc d -> acc.1 !! n = Some e -> json_eqb e v = false ->
  v_requirement_id x = None -> agg_inv (acc.1, acc.2 ++ [x]) (d ++ [(n, v)]).
Proof.
  intros [Herr Hs Hc Hg] He Hne Hx. split; simpl.
  - split; [intros Hnil; by destruct acc.2|]. intros Hcons. exfalso.
    rewrite (Hcons n e v) in Hne; [done| |]; apply elem_of_app; [left; by apply Hs|right; set_solver].
  - intros m w ?%Hs. set_solver.
  - intros m u Hnil. by destruct acc.2.
  - apply Forall_app. split; [done|]. by repeat constructor.
Qed.

Lemma agg_claim cid acc d k : agg_inv acc d -> agg_inv (collect_claim cid acc k) (d ++ disclosed_claim k).
Proof.
  intros Hinv. unfold collect_claim, disclosed_claim.
  destruct (clr_satisfied k); simpl; [|by rewrite app_nil_r].
  destruct (presented_value k) as [v|]; [|by rewrite app_nil_r].
  destruct (acc.1 !! clr_name k) as [e|] eqn:He.
  - destruct (json_eqb e v) eqn:Hev; simpl.
    + apply agg_add; [done|]. intros e' He'. by simplify_eq.
    + by eapply agg_conflict.
  - apply agg_add; [done|]. intros e' He'. by rewrite He in He'.
Qed.

(** Folding a step that extends the disclosed claims. *)
Lemma agg_fold {A} (f : Aggregate -> A -> Aggregate) (g : A -> list (string * Value)) l acc d :
  (forall acc d a, agg_inv acc d -> agg_inv (f acc a) (d ++ g a)) ->
  agg_inv acc d -> agg_inv (foldl f acc l) (d ++ concat (g <$> l)).
Proof.
  intros Hf. revert acc d. induction l as [|a l IH]; intros acc d Hinv; simpl; [by rewrite app_nil_r|].
  rewrite app_assoc. by apply IH, Hf.
Qed.

Lemma agg_result acc d res : agg_inv acc d -> agg_inv (collect_verified_claims res acc) (d ++ disclosed_result res).
Proof.
  intros Hinv. unfold collect_verified_claims, disclosed_result.
  destruct (cr_satisfied res); simpl; [|by rewrite app_nil_r].
  apply agg_fold; [|done]. intros. by apply agg_claim.
Qed.

Lemma agg_alternative acc d alt : agg_inv acc d ->
  agg_inv (if ar_satisfied alt
           then foldl (fun acc r => if cr_satisfied r then collect_verified_claims r acc else acc) acc (ar_results alt)
           else acc) (d ++ disclosed_alternative alt).
Proof.
  intros Hinv. unfold disclosed_alternative. destruct (ar_satisfied alt); [|by rewrite app_nil_r].
  apply agg_fold; [|done]. intros acc' d' r Hinv'. destruct (cr_satisfied r) eqn:Hr; [by apply agg_result|].
  unfold disclosed_result. rewrite Hr. by rewrite app_nil_r.
Qed.
End aggregation.

(** ** The specification of a presentation *)

(** An unset list of allowed values allows every value. *)
Definition listed (l : list string) (value : option string) : Prop :=
  l = [] \/ exists v, value = Some v /\ v ∈ l.

Definition holder_ok (req : ServicePolicyEvaluationRequest) : Prop :=
  let hb := holder_binding (policy req) in
  hb_required hb = true ->
    holder_binding_verified req = true /\
    listed (binding_methods hb) (holder_binding_method req) /\
    listed (proof_profiles hb) (proof_profile req) /\
    (challenge_required hb = true -> challenge_verified req = true) /\
    (audience_binding_required hb = true -> audience_verified req = true) /\
    (replay_detection_required hb = true -> replay_check_verified req = true).

Definition proof_time_ok (req : ServicePolicyEvaluationRequest) : Prop :=
  (forall t, proof_epoch_seconds req = Some t -> t <= evaluation_time req) /\
  (hb_required (holder_binding (policy req)) = true ->
     forall m, max_proof_age_seconds (holder_binding (policy req)) = Some m ->
       exists t, proof_epoch_seconds req = Some t /\ evaluation_time req - t <= m).

Definition external_ok (req : ServicePolicyEvaluationRequest) : Prop :=
  forall e, external_authorization req = Some e -> evaluated e = true /\ allowed e = true.

Definition single_ok (req : ServicePolicyEvaluationRequest) : Prop :=
  single_presentation (policy req) = true -> default (zlen (credentials req)) (presentation_count req) = 1.

Definition proof_ok (req : ServicePolicyEvaluationRequest) : Prop :=
  presentation_proof_required (policy req) = true -> presentation_verified req = true.

(** Enough of the listed requirements are met. *)
Definition alternative_ok `{JsonValueOps, RegexOps, Calendar} (pol : ServicePresentationPolicy)
    (creds : list VerifiedCredentialFacts) (time : Z) (alt : ServiceAlternativeRequirement) : Prop :=
  exists met, sublist met (alt_requirements alt) /\ Forall (requirement_ok pol creds time) met /\
    min_satisfied alt <= zlen met.

Record policy_ok `{JsonValueOps, RegexOps, Calendar} (req : ServicePolicyEvaluationRequest) : Prop := {
  po_proof : proof_ok req;
  po_required r : r ∈ credential_requirements (policy req) -> rq_required r = true ->
    requirement_ok (policy req) (credentials req) (evaluation_time req) r;
  po_alternatives alt : alt ∈ alternative_requirements (policy req) ->
    alternative_ok (policy req) (credentials req) (evaluation_time req) alt;
  po_holder : holder_ok req;
  po_proof_time : proof_time_ok req;
  po_external : external_ok req;
  po_single : single_ok req;
}.

(** ** The global checks *)

Definition global (l : list ServicePolicyViolation) : Prop := Forall (fun e => v_requirement_id e = None) l.

Lemma push_if_global b code m :
  Forall (fun e => v_requirement_id e = None) (push_if b (global_violation code m)).
Proof. destruct b; by repeat constructor. Qed.

#[local] Hint Resolve push_if_global : names.

Lemma implb_false a b : a && negb b = false <-> (a = true -> b = true).
Proof. destruct a, b; simpl; naive_solver. Qed.

Lemma not_listed_false l v : not_listed l v = false <-> listed l v.
Proof.
  unfold not_listed, listed. rewrite andb_false_iff, negb_false_iff, bool_decide_eq_true.
  destruct v as [v|]; [rewrite negb_false_iff, existsb_eqb|]; naive_solver.
Qed.

Lemma holder_violations_spec req :
  global (holder_binding_violations req) /\ (holder_binding_violations req = [] <-> holder_ok req).
Proof.
  unfold holder_binding_violations, holder_ok, global. cbv zeta.
  destruct (hb_required (holder_binding (policy req))); simpl; [|split; [constructor|done]].
  destruct (holder_binding_verified req); simpl.
  - split; [rewrite !Forall_app; split_and!; auto with names|].
    rewrite !app_nil, !push_if_nil, !not_listed_false, !implb_false. tauto.
  - split; [repeat constructor|]. split; [done|]. intros Hh. by destruct Hh.
Qed.

Lemma proof_time_violations_spec req :
  global (proof_time_violations req) /\ (proof_time_violations req = [] <-> proof_time_ok req).
Proof.
  unfold proof_time_violations, proof_time_ok, global. cbv zeta.
  destruct (proof_epoch_seconds req) as [t|] eqn:Ht; [destruct (Z.ltb_spec (evaluation_time req) t)|].
  - split; [repeat constructor|]. split; [done|]. intros [Hall _]. specialize (Hall t eq_refl). lia.
  - destruct (hb_required _); [|split; [constructor|]; split; [|done]; intros _; split; [by intros ? [= <-]|done]].
    destruct (max_proof_age_seconds _) as [m|];
      [|split; [constructor|]; split; [|done]; intros _; split; [by intros ? [= <-]|done]].
    split; [auto with names|]. rewrite push_if_nil, Z.ltb_ge. split.
    + intros Hle. split; [by intros ? [= <-]|]. intros _ ? [= <-]. by exists t.
    + intros [_ Hall]. by destruct (Hall eq_refl m eq_refl) as (? & [= <-] & ?).
  - destruct (hb_required _); [|by split; [constructor|]].
    destruct (max_proof_age_seconds _) as [m|]; [|by split; [constructor|]].
    split; [repeat constructor|]. split; [done|]. intros [_ Hall].
    by destruct (Hall eq_refl m eq_refl) as (? & ? & _).
Qed.

Lemma external_violations_spec req :
  global (external_violations req) /\ (external_violations req = [] <-> external_ok req).
Proof.
  unfold external_violations, external_ok, global. cbv zeta.
  destruct (external_authorization req) as [e|]; [|by split; [constructor|]].
  destruct (evaluated e) eqn:He; cbn [negb].
  - split; [auto with names|]. rewrite push_if_nil, negb_false_iff. naive_solver.
  - split; [repeat constructor|]. split; [done|]. intros Hall. destruct (Hall e eq_refl). congruence.
Qed.

Lemma single_violations_spec req :
  global (single_presentation_violations req) /\ (single_presentation_violations req = [] <-> single_ok req).
Proof.
  unfold single_presentation_violations, single_ok. split; [apply push_if_global|].
  by rewrite push_if_nil, implb_false, Z.eqb_eq.
Qed.

(** ** Counting *)

Lemma count_if_cons {A} (f : A -> bool) x l : count_if f (x :: l) = b2z (f x) + count_if f l.
Proof. unfold count_if, zlen. simpl. destruct (f x); simpl; lia. Qed.

Lemma count_if_all {A} (f : A -> bool) l :
  count_if f l <= zlen l /\ (count_if f l = zlen l <-> forall x, x ∈ l -> f x = true).
Proof.
  induction l as [|a l [Hle Heq]].
  - split; [done|]. split; [|done]. intros _ x Hx. by apply not_elem_of_nil in Hx.
  - rewrite count_if_cons, zlen_cons. destruct (f a) eqn:Ha; simpl.
    + split; [lia|]. rewrite <- Z.add_cancel_l with (p := 1) in Heq. rewrite Heq. set_solver.
    + split; [lia|]. split; [lia|]. intros Hall. rewrite (Hall a) in Ha by (by left). done.
Qed.

Lemma count_if_implied {A} (f g : A -> bool) l :
  count_if (fun x => f x && g x) l <= count_if f l /\
  (count_if (fun x => f x && g x) l = count_if f l <-> forall x, x ∈ l -> f x = true -> g x = true).
Proof.
  induction l as [|a l [Hle Heq]].
  - split; [done|]. split; [|done]. intros _ x Hx. by apply not_elem_of_nil in Hx.
  - rewrite !count_if_cons. destruct (f a) eqn:Ha, (g a) eqn:Hg; simpl; (split; [lia|]).
    + rewrite <- Z.add_cancel_l with (p := 1) in Heq. rewrite Heq. set_solver.
    + split; [lia|]. intros Hall. rewrite (Hall a) in Hg; [done|by left|done].
    + rewrite <- Z.add_cancel_l with (p := 0) in Heq. rewrite Heq. split; [|set_solver].
      intros Hall x [->|Hx]%elem_of_cons; [congruence|by apply Hall].
    + rewrite <- Z.add_cancel_l with (p := 0) in Heq. rewrite Heq. split; [|set_solver].
      intros Hall x [->|Hx]%elem_of_cons; [congruence|by apply Hall].
Qed.

Lemma count_if_fmap {A B} (h : A -> B) (f : B -> bool) l : count_if f (h <$> l) = count_if (fun x => f (h x)) l.
Proof. induction l as [|a l IH]; [done|]. rewrite fmap_cons, !count_if_cons. by rewrite IH. Qed.

Lemma count_if_sublist {A} (f : A -> bool) l n :
  n <= count_if f l <-> exists met, sublist met l /\ Forall (fun x => f x = true) met /\ n <= zlen met.
Proof.
  split.
  - intros Hn. exists (List.filter f l). split_and!; [| |done].
    + clear Hn. induction l as [|a l IH]; simpl; [constructor|]. destruct (f a); by constructor.
    + apply Forall_forall. intros x Hx. rewrite list_elem_of_In, filter_In in Hx. by destruct Hx.
  - intros (met & Hsub & Hall & Hn). assert (zlen met <= count_if f l); [|lia]. clear Hn.
    induction Hsub as [|x met l Hsub IH|x met l Hsub IH]; [done| |].
    + apply Forall_cons in Hall as [Hx Hall]. rewrite count_if_cons, zlen_cons, Hx. simpl. specialize (IH Hall). lia.
    + rewrite count_if_cons. specialize (IH Hall). unfold b2z. destruct (f x); lia.
Qed.

(** ** The decision *)
Section decision.
Context `{JsonEqLaws, RegexOps, Calendar}.

(** Whether a violation is global. *)
Definition is_global_violation (e : ServicePolicyViolation) : bool := bool_decide (v_requirement_id e = None).

Lemma final_decision_allow pr pk s t d errs :
  (final_decision pr pk s t d errs).1.2 = Allow <-> s = t /\ d = true /\ existsb is_global_violation errs = false.
Proof.
  unfold final_decision. fold is_global_violation. cbv zeta.
  destruct (Z.eqb_spec s t), d, (existsb is_global_violation errs); simpl; try (split; [intros; try done|naive_solver]);
    destruct (0 <? Z.max 0 (s - b2z pk)); simpl; naive_solver.
Qed.

Lemma global_existsb l : global l -> existsb is_global_violation l = false <-> l = [].
Proof.
  intros Hg. destruct Hg as [|e l He Hl]; simpl; [done|].
  unfold is_global_violation at 1. rewrite bool_decide_eq_true_2 by done. by split.
Qed.

Lemma named_existsb l : Forall names_requirement l -> existsb is_global_violation l = false.
Proof.
  induction 1 as [|e l [i He] Hl IH]; simpl; [done|]. unfold is_global_violation at 1. by rewrite He.
Qed.

Lemma alternative_satisfied pol creds time alt :
  ar_satisfied (evaluate_alternative pol creds time alt) = true <-> alternative_ok pol creds time alt.
Proof.
  unfold evaluate_alternative, alternative_ok. simpl. rewrite Z.leb_le, count_if_fmap, count_if_sublist.
  setoid_rewrite Forall_forall.
  split; intros (met & Hsub & Hall & Hn); exists met; split_and!; try done; intros r Hr;
    [eapply (evaluate_requirement_spec r pol creds time); by apply Hall
    |eapply (evaluate_requirement_spec r pol creds time); by apply Hall].
Qed.

Lemma alternative_named pol creds time alt :
  Forall names_requirement (alternative_violations (evaluate_alternative pol creds time alt)).
Proof.
  unfold alternative_violations. destruct (ar_satisfied _); [constructor|]. apply Forall_app. split.
  - unfold evaluate_alternative. simpl. rewrite <- list_fmap_compose.
    apply concat_names. intros r. apply evaluate_requirement_names.
  - repeat constructor. by eexists.
Qed.

(** The zip of the requirements with their results. *)
Lemma zip_fmap {A B} (f : A -> B) l : zip l (f <$> l) = (fun x => (x, f x)) <$> l.
Proof. induction l as [|a l IH]; [done|]. simpl. by f_equal. Qed.

Lemma requirement_ok_perm pol creds creds' time r : creds ≡ₚ creds' ->
  requirement_ok pol creds time r <-> requirement_ok pol creds' time r.
Proof. intros Hp. unfold requirement_ok. by setoid_rewrite Hp. Qed.

Lemma alternative_ok_perm pol creds creds' time alt : creds ≡ₚ creds' ->
  alternative_ok pol creds time alt <-> alternative_ok pol creds' time alt.
Proof.
  intros Hp. unfold alternative_ok. setoid_rewrite Forall_forall.
  setoid_rewrite (requirement_ok_perm pol creds creds' time _ Hp). done.
Qed.

(** The aggregation of the whole evaluation. *)
Definition aggregate_of (direct : list ServiceCredentialResult) (alternatives : list ServiceAlternativeResult) :
    Aggregate :=
  foldl (fun acc alt =>
           if ar_satisfied alt
           then foldl (fun acc r => if cr_satisfied r then collect_verified_claims r acc else acc) acc (ar_results alt)
           else acc)
    (foldl (fun acc r => collect_verified_claims r acc) (∅, []) direct) alternatives.

Lemma aggregate_inv direct alternatives :
  agg_inv (aggregate_of direct alternatives)
    (concat (disclosed_result <$> direct) ++ concat (disclosed_alternative <$> alternatives)).
Proof.
  unfold aggregate_of. apply agg_fold; [intros; by apply agg_alternative|].
  apply (agg_fold _ disclosed_result direct (∅, []) []); [intros; by apply agg_result|apply agg_empty].
Qed.

(** The intermediate values of an evaluation. *)
Definition creds_of (req : ServicePolicyEvaluationRequest) := sort_by credential_id_le (credentials req).
Definition direct_of req :=
  (fun r => evaluate_requirement r (policy req) (creds_of req) (evaluation_time req))
    <$> credential_requirements (policy req).
Definition alternatives_of req :=
  evaluate_alternative (policy req) (creds_of req) (evaluation_time req) <$> alternative_requirements (policy req).
Definition pairs_of req := zip (credential_requirements (policy req)) (direct_of req).
Definition proof_count req := presentation_proof_required (policy req) && presentation_verified req.
Definition total_of req :=
  b2z (presentation_proof_required (policy req)) + count_if (fun p => rq_required p.1) (pairs_of req)
  + zlen (alternatives_of req).
Definition satisfied_of req :=
  b2z (proof_count req) + count_if (fun p => rq_required p.1 && cr_satisfied p.2) (pairs_of req)
  + count_if ar_satisfied (alternatives_of req).
Definition errors_of req :=
  concat (cr_errors <$> direct_of req) ++ (aggregate_of (direct_of req) (alternatives_of req)).2 ++
  push_if (presentation_proof_required (policy req) && negb (presentation_verified req))
    (global_violation PresentationProofRequired "Required presentation proof was not verified") ++
  concat (alternative_violations <$> alternatives_of req) ++
  holder_binding_violations req ++ proof_time_violations req ++ external_violations req ++
  single_presentation_violations req.
Definition decision_of req :=
  (final_decision (presentation_proof_required (policy req)) (proof_count req) (satisfied_of req) (total_of req)
     (forallb (fun p => negb (rq_required p.1) || cr_satisfied p.2) (pairs_of req)) (errors_of req)).1.2.

Lemma evaluate_valid_request_parts req :
  let r := evaluate_valid_request req in
  credential_results r = direct_of req /\ alternative_results r = alternatives_of req /\
  decision r = decision_of req /\
  verified_claims r =
    (if bool_decide (decision_of req = Allow) then (aggregate_of (direct_of req) (alternatives_of req)).1 else ∅).
Proof.
  intros r. unfold r, evaluate_valid_request. cbv zeta.
  change (final_decision _ _ _ _ _ _) with
   (final_decision (presentation_proof_required (policy req)) (proof_count req) (satisfied_of req) (total_of req)
       (forallb (fun p => negb (rq_required p.1) || cr_satisfied p.2) (pairs_of req)) (errors_of req)).
  unfold decision_of. destruct (final_decision _ _ _ _ _ _) as [[res dec] reason]. done.
Qed.

Lemma global_failure_iff req :
  existsb is_global_violation (errors_of req) = false <->
  consistent (concat (disclosed_result <$> direct_of req) ++ concat (disclosed_alternative <$> alternatives_of req)) /\
  proof_ok req /\ holder_ok req /\ proof_time_ok req /\ external_ok req /\ single_ok req.
Proof.
  pose proof (aggregate_inv (direct_of req) (alternatives_of req)) as Hagg.
  destruct (holder_violations_spec req) as [Hg1 Hh], (proof_time_violations_spec req) as [Hg2 Ht],
    (external_violations_spec req) as [Hg3 He], (single_violations_spec req) as [Hg4 Hs].
  unfold errors_of. rewrite !existsb_app, !orb_false_iff.
  rewrite (named_existsb (concat (cr_errors <$> direct_of req))).
  2:{ unfold direct_of. rewrite <- list_fmap_compose. apply concat_names. intros r. apply evaluate_requirement_names. }
  rewrite (named_existsb (concat (alternative_violations <$> alternatives_of req))).
  2:{ unfold alternatives_of. rewrite <- list_fmap_compose. apply concat_names. intros alt. apply alternative_named. }
  rewrite !global_existsb by (done || apply (ag_global _ _ Hagg) || apply push_if_global).
  rewrite (ag_errors _ _ Hagg), push_if_nil, implb_false, Hh, Ht, He, Hs. unfold proof_ok. tauto.
Qed.

Lemma direct_required_iff req :
  (forall p, p ∈ pairs_of req -> rq_required p.1 = true -> cr_satisfied p.2 = true) <->
  (forall r, r ∈ credential_requirements (policy req) -> rq_required r = true ->
     requirement_ok (policy req) (credentials req) (evaluation_time req) r).
Proof.
  unfold pairs_of, direct_of. rewrite zip_fmap. split.
  - intros Hall r Hr Hreq. eapply requirement_ok_perm; [symmetry; apply (sort_by_perm credential_id_le)|].
    apply evaluate_requirement_spec. by apply (Hall _ (list_elem_of_fmap_2 _ _ _ Hr)).
  - intros Hall p Hp Hreq. apply list_elem_of_fmap in Hp as (r & -> & Hr). simpl in *.
    apply evaluate_requirement_spec. eapply requirement_ok_perm; [apply sort_by_perm|]. by apply Hall.
Qed.

Lemma alternatives_iff req :
  (forall a, a ∈ alternatives_of req -> ar_satisfied a = true) <->
  (forall alt, alt ∈ alternative_requirements (policy req) ->
     alternative_ok (policy req) (credentials req) (evaluation_time req) alt).
Proof.
  unfold alternatives_of. split.
  - intros Hall alt Halt. eapply alternative_ok_perm; [symmetry; apply (sort_by_perm credential_id_le)|].
    apply alternative_satisfied. by apply (Hall _ (list_elem_of_fmap_2 _ _ _ Halt)).
  - intros Hall a Ha. apply list_elem_of_fmap in Ha as (alt & -> & Halt). apply alternative_satisfied.
    eapply alternative_ok_perm; [apply sort_by_perm|]. by apply Hall.
Qed.

(** All obligations are counted as satisfied exactly when each is. *)
Lemma obligations_iff req :
  satisfied_of req = total_of req <->
  proof_ok req /\ (forall p, p ∈ pairs_of req -> rq_required p.1 = true -> cr_satisfied p.2 = true) /\
  (forall a, a ∈ alternatives_of req -> ar_satisfied a = true).
Proof.
  unfold satisfied_of, total_of, proof_count, proof_ok.
  destruct (count_if_implied (fun p => rq_required p.1) (fun p => cr_satisfied p.2) (pairs_of req)) as [Hle1 Heq1].
  destruct (count_if_all ar_satisfied (alternatives_of req)) as [Hle2 Heq2].
  rewrite <- Heq1, <- Heq2.
  destruct (presentation_proof_required (policy req)), (presentation_verified req); simpl b2z in *;
    (split; [intros; split_and!; [done || lia|lia|lia]|intros (Hp & ? & ?); try specialize (Hp eq_refl); done || lia]).
Qed.

Lemma decision_allow_iff req :
  decision_of req = Allow <->
  policy_ok req /\
  consistent (concat (disclosed_result <$> direct_of req) ++ concat (disclosed_alternative <$> alternatives_of req)).
Proof.
  unfold decision_of. rewrite final_decision_allow, obligations_iff, global_failure_iff, direct_required_iff,
    alternatives_iff, forallb_forall. split.
  - intros ((? & Hd & Ha) & _ & Hc & ? & ? & ? & ? & ?). by split; [split|].
  - intros [[? Hd Ha ? ? ? ?] Hc]. split_and!; try done. intros p Hp%list_elem_of_In.
    destruct (rq_required p.1) eqn:Hreq; [|done]. simpl. by eapply direct_required_iff.
Qed.
End decision.

(** ** Validation *)
Section validation.
Context `{JsonValueOps, RegexOps, Calendar}.

Lemma for_each_no_panic {A} (f : A -> res ServicePolicyError unit) l :
  (forall x, no_panic (f x)) -> no_panic (for_each f l).
Proof. intros Hf. induction l as [|x l IH]; simpl; [done|]. apply bind_no_panic; [done|intros _ _; done]. Qed.

Lemma for_each_Ok {A} (f : A -> res ServicePolicyError unit) l :
  for_each f l = Ok tt <-> forall x, x ∈ l -> f x = Ok tt.
Proof.
  induction l as [|x l IH]; cbn [for_each].
  - split; [|done]. intros _ x Hx. by apply not_elem_of_nil in Hx.
  - rewrite bind_Ok. split.
    + intros (u & Hx & Hl). destruct u. intros y [->|Hy]%elem_of_cons; [done|]. by apply IH.
    + intros Hall. exists tt. split; [apply Hall; by left|]. apply IH. intros y Hy. apply Hall. by right.
Qed.

Lemma validate_string_no_panic f v : no_panic (validate_string f v).
Proof. unfold validate_string. auto with marty. Qed.
Lemma validate_value_no_panic f v : no_panic (validate_value f v).
Proof. unfold validate_value. auto with marty. Qed.

#[local] Hint Resolve validate_string_no_panic validate_value_no_panic : marty.

(** Validation loops do not panic when their bodies do not. *)
Ltac loops_no_panic :=
  repeat match goal with
  | |- no_panic (_ ≫= _) => apply bind_no_panic; [|intros]
  | |- no_panic (for_each _ _) => apply for_each_no_panic; intros
  | |- no_panic _ => solve [auto with marty]
  | |- no_panic _ => case_match
  end.

Lemma evaluate_service_policy_no_panic req : no_panic (evaluate_service_policy req).
Proof.
  unfold evaluate_service_policy, validate_request, validate_credential, validate_requirement,
    validate_constraint, validate_alternative, validate_bounded_strings, validate_optional_string.
  cbv zeta. loops_no_panic.
Qed.

Lemma evaluate_service_policy_Ok req r :
  evaluate_service_policy req = Ok r <-> validate_request req = Ok tt /\ r = evaluate_valid_request req.
Proof.
  unfold evaluate_service_policy. rewrite bind_Ok. split.
  - intros ([] & Hv & [= <-]). done.
  - intros [Hv ->]. by exists tt.
Qed.
End validation.

(** C8: The decision of the kernel. Evaluation never panics; for a valid request
    the presentation is allowed exactly when: a required presentation proof was
    verified; every required credential requirement is met by a presented
    credential (signature, format, trust, issuer, age, revocation and claims);
    of every alternative at least the demanded number of requirements is met;
    holder binding, proof age, external authorization and the single
    presentation rule hold; and the disclosed claims do not conflict. A
    presentation that is not allowed releases no claims. *)
Theorem policy_allow_correct `{JsonEqLaws, RegexOps, Calendar} req :
  no_panic (evaluate_service_policy req) /\
  forall r, evaluate_service_policy req = Ok r ->
    (decision r = Allow <-> policy_ok req /\ consistent (disclosed r)) /\
    (decision r <> Allow -> verified_claims r = ∅).
Proof.
  split; [apply evaluate_service_policy_no_panic|]. intros r Hr.
  apply evaluate_service_policy_Ok in Hr as [_ ->].
  destruct (evaluate_valid_request_parts req) as (Hd & Ha & Hdec & Hv).
  unfold disclosed. rewrite Hd, Ha, Hdec, Hv. split; [apply decision_allow_iff|].
  intros Hn. by rewrite bool_decide_eq_false_2.
Qed.

(** ** Where verified claims come from *)
Section provenance.
Context `{JsonEqLaws, RegexOps, Calendar}.

(** The claim [n] has value [v] in a presented credential that meets a
    requirement of the list, which requests the claim. *)
Definition comes_from (req : ServicePolicyEvaluationRequest) (rs : list ServiceCredentialRequirement)
    (n : string) (v : Value) : Prop :=
  exists rq c q, rq ∈ rs /\ c ∈ credentials req /\ matches_template rq c = true /\
    candidate_ok rq (policy req) c (evaluation_time req) /\
    q ∈ requested_claims rq /\ rc_claim_name q = n /\ claim_get c n = Some v.

Lemma disclosed_result_from req rq rs n v : rq ∈ rs ->
  (n, v) ∈ disclosed_result (evaluate_requirement rq (policy req) (creds_of req) (evaluation_time req)) ->
  comes_from req rs n v.
Proof.
  intros Hrq Hin. unfold disclosed_result in Hin.
  destruct (cr_satisfied _) eqn:Hs; [|by apply not_elem_of_nil in Hin].
  destruct (evaluate_requirement_spec rq (policy req) (creds_of req) (evaluation_time req)) as [_ Hex].
  destruct (Hex Hs) as (c & Hc & Hm & Hok & Heq). rewrite Heq in Hin.
  unfold evaluate_candidate in Hin. cbv zeta in Hin. simpl claim_results in Hin.
  rewrite <- !list_fmap_compose in Hin. rewrite list_elem_of_In, in_concat in Hin.
  destruct Hin as (l & Hl & Hin). apply list_elem_of_In in Hl, Hin.
  apply list_elem_of_fmap in Hl as (q & -> & Hq). simpl in Hin. unfold disclosed_claim in Hin. simpl in Hin.
  destruct (_ && _); [|by apply not_elem_of_nil in Hin].
  destruct (claim_get c (rc_claim_name q)) as [w|] eqn:Hget; [|by apply not_elem_of_nil in Hin].
  apply list_elem_of_singleton in Hin as [= -> ->].
  exists rq, c, q. split_and!; try done. by rewrite <- (sort_by_perm credential_id_le).
Qed.

Lemma disclosed_from req n v :
  (n, v) ∈ concat (disclosed_result <$> direct_of req) ++ concat (disclosed_alternative <$> alternatives_of req) ->
  comes_from req (credential_requirements (policy req)
                  ++ concat (alt_requirements <$> alternative_requirements (policy req))) n v.
Proof.
  intros [Hin|Hin]%elem_of_app; rewrite list_elem_of_In, in_concat in Hin;
    destruct Hin as (l & Hl & Hin); apply list_elem_of_In in Hl, Hin.
  - unfold direct_of in Hl. rewrite <- list_fmap_compose in Hl. apply list_elem_of_fmap in Hl as (rq & -> & Hrq).
    eapply disclosed_result_from; [|done]. apply elem_of_app. by left.
  - unfold alternatives_of in Hl. rewrite <- list_fmap_compose in Hl. apply list_elem_of_fmap in Hl as (alt & -> & Halt).
    simpl in Hin. unfold disclosed_alternative in Hin.
    destruct (ar_satisfied _); [|by apply not_elem_of_nil in Hin].
    unfold evaluate_alternative in Hin. simpl in Hin. rewrite <- list_fmap_compose, list_elem_of_In, in_concat in Hin.
    destruct Hin as (l & Hl & Hin). apply list_elem_of_In in Hl, Hin.
    apply list_elem_of_fmap in Hl as (rq & -> & Hrq). eapply disclosed_result_from; [|done].
    apply elem_of_app. right. rewrite list_elem_of_In, in_concat. exists (alt_requirements alt).
    rewrite <- !list_elem_of_In. split; [by apply list_elem_of_fmap_2|done].
Qed.
End provenance.

(** Data minimization and provenance: a claim is released only when the
    presentation is allowed, and then it was requested by a requirement of the
    policy and is the value of that claim in a presented credential that meets
    that requirement. *)
Theorem verified_claims_sound `{JsonEqLaws, RegexOps, Calendar} req r n v :
  evaluate_service_policy req = Ok r -> verified_claims r !! n = Some v ->
  decision r = Allow /\
  comes_from req (credential_requirements (policy req)
                  ++ concat (alt_requirements <$> alternative_requirements (policy req))) n v.
Proof.
  intros [_ ->]%evaluate_service_policy_Ok Hn.
  destruct (evaluate_valid_request_parts req) as (Hd & Ha & Hdec & Hv). rewrite Hv in Hn. rewrite Hdec.
  destruct (decide (decision_of req = Allow)) as [Hallow|Hno].
  - rewrite bool_decide_eq_true_2 in Hn by done. split; [done|]. apply disclosed_from.
    by apply (ag_sound _ _ (aggregate_inv (direct_of req) (alternatives_of req))).
  - rewrite bool_decide_eq_false_2 in Hn by done. by rewrite lookup_empty in Hn.
Qed.

(** ** The order of credentials *)

Definition with_credentials (req : ServicePolicyEvaluationRequest) (creds : list VerifiedCredentialFacts) :
    ServicePolicyEvaluationRequest :=
  mkRequest (policy req) creds (evaluation_time req) (presentation_verified req) (holder_binding_verified req)
    (holder_binding_method req) (proof_profile req) (challenge_verified req) (audience_verified req)
    (replay_check_verified req) (proof_epoch_seconds req) (external_authorization req) (presentation_count req).

Lemma sort_credentials_perm creds creds' : NoDup (map vc_id creds) -> creds ≡ₚ creds' ->
  sort_by credential_id_le creds = sort_by credential_id_le creds'.
Proof.
  intros Hnd Hp.
  assert (Transitive (fun a b => credential_id_le a b = true)) by (intros a b c; apply bytes_le_trans).
  apply (Sorted_unique_strong (fun a b => credential_id_le a b = true)).
  - intros a b Ha Hb Hab Hba. rewrite sort_by_perm in Ha. rewrite sort_by_perm, <- Hp in Hb.
    assert (vc_id a = vc_id b) as Hid by (apply str_bytes_inj; by apply bytes_le_antisym).
    apply list_elem_of_lookup in Ha as [i Hi], Hb as [j Hj].
    assert (i = j) as ->; [|by simplify_eq].
    eapply (NoDup_lookup (map vc_id creds)); [done|..]; rewrite list_lookup_fmap;
      [by rewrite Hi|by rewrite Hj; simpl; f_equal].
  - apply StronglySorted_Sorted, sort_by_sorted; [intros; apply bytes_le_total|intros ? ? ?; apply bytes_le_trans].
  - apply StronglySorted_Sorted, sort_by_sorted; [intros; apply bytes_le_total|intros ? ? ?; apply bytes_le_trans].
  - by rewrite !sort_by_perm.
Qed.

(** The whole result, chosen credentials, errors and reasons included, does
    not depend on the order in which the credentials are presented. *)
Theorem policy_order_independent `{JsonValueOps, RegexOps, Calendar} req creds r :
  NoDup (map vc_id (credentials req)) -> credentials req ≡ₚ creds ->
  evaluate_service_policy req = Ok r -> evaluate_service_policy (with_credentials req creds) = Ok r.
Proof.
  intros Hnd Hp [Hv ->]%evaluate_service_policy_Ok. apply evaluate_service_policy_Ok.
  assert (Hlen : length creds = length (credentials req)) by (by rewrite Hp). split.
  - revert Hv. unfold validate_request. cbv zeta. simpl. unfold zlen. rewrite Hlen.
    repeat (rewrite bind_Ok; intros ([] & ? & Hv); rewrite bind_Ok; exists tt; split;
      [first [done | apply for_each_Ok; intros x Hx; rewrite <- Hp in Hx;
              by eapply for_each_Ok in Hx]|revert Hv]). done.
  - unfold evaluate_valid_request, single_presentation_violations. cbv zeta. simpl.
    rewrite (sort_credentials_perm (credentials req) creds) by done. unfold zlen. by rewrite Hlen.
Qed.

(** ** Concrete runs *)

#[local] Instance canonical_ops : JsonValueOps := {
  json_text := canonical_json;
  json_eqb v w := String.eqb (canonical_json v) (canonical_json w);
}.
#[local] Instance canonical_ops_laws : JsonEqLaws.
Proof.
  split; unfold json_eqb, canonical_ops.
  - intros v. apply String.eqb_refl.
  - intros v w. by rewrite String.eqb_sym.
  - intros u v w ->%String.eqb_eq. done.
Qed.
#[local] Instance literal_regex : RegexOps := fun pattern => Some (fun s => String.eqb (anchored s) pattern).
#[local] Instance sample_calendar : Calendar := {
  date_of_timestamp t := Some (1970 + t / 31536000, 1, 1);
  parse_ymd s := if String.eqb s "1980-05-01" then Some (1980, 5, 1) else None;
}.

Definition sample_requirement : ServiceCredentialRequirement :=
  mkRequirement "age" "pid" true (Some "mso_mdoc")
    [mkRequestedClaim "birth_date" true true false None
       [mkConstraint "birth_date" AgeOver (Some (Number "18"))]]
    None (Some 86400) false.
Definition sample_credential (id : string) (signed : bool) : VerifiedCredentialFacts :=
  mkFacts id ["pid"] " mDoc" [("birth_date", VString "1980-05-01T00:00:00Z"); ("name", VString "A")] "did:x"
    signed None true None None [] [] (Some 999999000) (Some 999999900) (Some true) None [].
Definition sample_request (creds : list VerifiedCredentialFacts) : ServicePolicyEvaluationRequest :=
  mkRequest
    (mkPresentationPolicy "p" "adult" "org" [sample_requirement] [] (Some "tp")
       (mkHolderBinding true ["device_key"] [] true false false (Some 300))
       (Some (mkFreshness None true (Some 3600))) None [] false false)
    creds 1000000000 false true (Some "device_key") None true false false (Some 999999990) None None.

(** The credential with a bad signature is passed over, the other one decides,
    and only the requested claim is released. *)
Example sample_allowed :
  match evaluate_service_policy (sample_request [sample_credential "a" false; sample_credential "b" true]) with
  | Ok r => decision r = Allow /\
            verified_claims r = {["birth_date" := VString "1980-05-01T00:00:00Z"]} /\
            (cr_credential_id <$> credential_results r) = [Some "b"]
  | _ => False
  end.
Proof. vm_compute. done. Qed.

Lemma verified_claims_sound_witness :
  exists r, evaluate_service_policy (sample_request [sample_credential "b" true]) = Ok r /\
    verified_claims r !! "birth_date" = Some (VString "1980-05-01T00:00:00Z") /\ decision r = Allow.
Proof.
  destruct (evaluate_service_policy (sample_request [sample_credential "b" true])) as [r|e|] eqn:Hr;
    [|vm_compute in Hr; discriminate Hr|vm_compute in Hr; discriminate Hr].
  assert (Hv : verified_claims r !! "birth_date" = Some (VString "1980-05-01T00:00:00Z"))
    by (vm_compute in Hr; injection Hr as <-; vm_compute; reflexivity).
  exists r. split; [reflexivity|]. split; [exact Hv|].
  exact (proj1 (verified_claims_sound _ r "birth_date" _ Hr Hv)).
Defined.

Lemma policy_order_independent_witness :
  exists r, evaluate_service_policy (sample_request [sample_credential "a" false; sample_credential "b" true]) = Ok r /\
    evaluate_service_policy
      (with_credentials (sample_request [sample_credential "a" false; sample_credential "b" true])
         [sample_credential "b" true; sample_credential "a" false]) = Ok r.
Proof.
  destruct (evaluate_service_policy (sample_request [sample_credential "a" false; sample_credential "b" true]))
    as [r|e|] eqn:Hr; [|vm_compute in Hr; discriminate Hr|vm_compute in Hr; discriminate Hr].
  exists r. split; [reflexivity|].
  refine (policy_order_independent _ _ r _ _ Hr); [|apply Permutation_swap].
  apply NoDup_cons. split; [rewrite list_elem_of_singleton; discriminate|apply NoDup_singleton].
Defined.

Lemma policy_allow_correct_witness :
  exists r, evaluate_service_policy (sample_request [sample_credential "b" true]) = Ok r /\
    decision r = Allow /\ policy_ok (sample_request [sample_credential "b" true]).
Proof.
  destruct (evaluate_service_policy (sample_request [sample_credential "b" true])) as [r|e|] eqn:Hr;
    [|vm_compute in Hr; discriminate Hr|vm_compute in Hr; discriminate Hr].
  assert (Hd : decision r = Allow) by (vm_compute in Hr; injection Hr as <-; reflexivity).
  exists r. split; [reflexivity|]. split; [exact Hd|].
  exact (proj1 (proj1 (proj1 (proj2 (policy_allow_correct _) r Hr)) Hd)).
Defined.
