(* ===== verification/CryptoKit.v ===== *)
(** * Symmetric encryption, key derivation and key agreement (marty-crypto)

    The parameter checks and compositions of [symmetric.rs], [kdf.rs] and
    [ecdh.rs]: AES-GCM, AES-CBC, CMAC and HMAC wrappers, HKDF, the Concat KDF
    of RFC 7518, PBKDF2, the ISO 18013-5 session keys, one-use ECDH key pairs
    and the ECIES envelope.  The ciphers, hash functions and curves of the
    crates it calls are the classes [Aes], [Sha2], [Hkdf], [P256] and [X25519];
    the classes of their documented laws are stated beside them.  Random
    values drawn from [OsRng] are arguments. *)

From S2P Require Import Prelude Des.
Local Open Scope Z_scope.

#[local] Abbreviation result := (res CryptoError).
#[local] Abbreviation bytes := (list Z).

(** [u32::try_from]. *)
Definition u32_try_from (n : Z) : option Z := if n <=? u32_max then Some n else None.

(** ** The crates this code calls *)

(** [aes_gcm], [aes] with [cbc], and [cmac] and [hmac] of [aws_lc_rs].  An error
    of [encrypt_in_place] is a message that is too long, an error of
    [decrypt_in_place] a tag that does not verify, an error of
    [decrypt_padded_mut] a bad padding. *)
Class Aes := {
  gcm_seal : bytes -> bytes -> bytes -> bytes -> option bytes;
  gcm_open : bytes -> bytes -> bytes -> bytes -> option bytes;
  aes_cbc_pkcs7 : bytes -> bytes -> bytes -> bytes;
  aes_cbc_pkcs7_open : bytes -> bytes -> bytes -> option bytes;
  aes_cbc_raw : bytes -> bytes -> bytes -> bytes;
  aes_cbc_raw_open : bytes -> bytes -> bytes -> bytes;
  cmac_sign : bytes -> bytes -> option bytes;
  hmac_sign : bytes -> bytes -> bytes;
}.

(** The longest message of AES-GCM in the [aes_gcm] crate. *)
Definition gcm_max_plaintext : Z := 2 ^ 36.

(** AES-GCM is deterministic for a key, a nonce and associated data: opening
    accepts exactly the sealed form of the plaintext it returns, which is 16
    bytes longer.  CBC with PKCS#7 padding appends one to sixteen bytes and is
    inverted by decryption. *)
Class AesLaws `{Aes} : Prop := {
  gcm_open_seal k n a p c : gcm_open k n a c = Some p <-> gcm_seal k n a p = Some c;
  gcm_seal_total k n a p : zlen p <= gcm_max_plaintext -> is_Some (gcm_seal k n a p);
  gcm_seal_length k n a p c : gcm_seal k n a p = Some c -> zlen c = zlen p + 16;
  aes_cbc_pkcs7_inverse k iv p : aes_cbc_pkcs7_open k iv (aes_cbc_pkcs7 k iv p) = Some p;
  aes_cbc_pkcs7_length k iv p :
    zlen (aes_cbc_pkcs7 k iv p) = zlen p + (16 - zlen p mod 16);
  aes_cbc_raw_inverse k iv p : zlen p mod 16 = 0 ->
    aes_cbc_raw_open k iv (aes_cbc_raw k iv p) = p;
  aes_cbc_raw_length k iv p : zlen (aes_cbc_raw k iv p) = zlen p;
}.

(** [sha2] and [aws_lc_rs::digest]. *)
Class Sha2 := {
  sha256_of : bytes -> bytes;
  sha384_of : bytes -> bytes;
  sha512_of : bytes -> bytes;
}.
Class Sha2Laws `{Sha2} : Prop := {
  sha256_of_length m : length (sha256_of m) = 32%nat;
  sha384_of_length m : length (sha384_of m) = 48%nat;
  sha512_of_length m : length (sha512_of m) = 64%nat;
}.

(** [src/marty-crypto/src/kdf.rs:162-167] HkdfAlgorithm *)
Inductive HkdfAlgorithm := HkdfSha256 | HkdfSha384 | HkdfSha512.

(** [aws_lc_rs::hkdf] (extract with an optional salt, then expand and fill) and
    [aws_lc_rs::pbkdf2].  The expansion fails when the output is longer than
    255 digests. *)
Class Hkdf := {
  hkdf_derive : HkdfAlgorithm -> option bytes -> bytes -> bytes -> Z -> option bytes;
  pbkdf2_derive : HkdfAlgorithm -> Z -> bytes -> bytes -> Z -> bytes;
}.
Definition digest_len (a : HkdfAlgorithm) : Z :=
  match a with HkdfSha256 => 32 | HkdfSha384 => 48 | HkdfSha512 => 64 end.
Class HkdfLaws `{Hkdf} : Prop := {
  hkdf_derive_total a salt ikm info len : 0 <= len <= 255 * digest_len a ->
    exists okm, hkdf_derive a salt ikm info len = Some okm /\ zlen okm = len;
  hkdf_derive_limit a salt ikm info len : 255 * digest_len a < len ->
    hkdf_derive a salt ikm info len = None;
}.

(** [p256]: secret scalars, public points, SEC 1 encodings and Diffie-Hellman. *)
Class P256 := {
  P256SecretKey : Type;
  P256PublicKey : Type;
  p256_public : P256SecretKey -> P256PublicKey;
  p256_sec1 : bool -> P256PublicKey -> bytes;
  p256_from_sec1 : bytes -> option P256PublicKey;
  p256_dh : P256SecretKey -> P256PublicKey -> bytes;
}.
Class P256Laws `{P256} : Prop := {
  p256_from_sec1_sec1 compress p : p256_from_sec1 (p256_sec1 compress p) = Some p;
  p256_sec1_uncompressed p : exists xy, p256_sec1 false p = 4 :: xy /\ length xy = 64%nat;
  p256_dh_agree a b : p256_dh a (p256_public b) = p256_dh b (p256_public a);
}.

(** [x25519_dalek]: the all-zero shared secret is the non-contributory one. *)
Class X25519 := {
  X25519Secret : Type;
  x25519_public : X25519Secret -> bytes;
  x25519_dh : X25519Secret -> bytes -> bytes;
  x25519_contributory : bytes -> bool;
}.
Class X25519Laws `{X25519} : Prop := {
  x25519_public_length s : length (x25519_public s) = 32%nat;
  x25519_dh_agree a b : x25519_dh a (x25519_public b) = x25519_dh b (x25519_public a);
}.

(** ** AES *)

Section symmetric.
Context `{Aes}.

Definition aes_key (n : Z) (msg : string) (key : bytes) : result unit :=
  ensure (zlen key =? n) (CryptoInternal msg).
Definition gcm_nonce (nonce : bytes) : result unit :=
  ensure (zlen nonce =? 12) (CryptoInternal "AES-GCM requires 12-byte nonce").
Definition cbc_iv (iv : bytes) : result unit :=
  ensure (zlen iv =? 16) (CryptoInternal "AES-CBC requires 16-byte IV").

(** [src/marty-crypto/src/symmetric.rs:19-35] aes_gcm_encrypt *)
Definition aes_gcm_encrypt (key nonce plaintext aad : bytes) : result bytes :=
  ok_or (gcm_seal key nonce aad plaintext)
    (CryptoInternal "AES-GCM encryption failed: aead::Error").

(** [src/marty-crypto/src/symmetric.rs:37-55] aes_gcm_decrypt *)
Definition aes_gcm_decrypt (key nonce ciphertext aad : bytes) : result bytes :=
  ok_or (gcm_open key nonce aad ciphertext)
    (CryptoInternal "AES-GCM decryption failed: authentication failed").

(** [src/marty-crypto/src/symmetric.rs:73-91] aes_128_gcm_encrypt *)
Definition aes_128_gcm_encrypt (key nonce plaintext aad : bytes) : result bytes :=
  aes_key 16 "AES-128-GCM requires 16-byte key" key;;
  gcm_nonce nonce;;
  aes_gcm_encrypt key nonce plaintext aad.

(** [src/marty-crypto/src/symmetric.rs:105-123] aes_128_gcm_decrypt *)
Definition aes_128_gcm_decrypt (key nonce ciphertext aad : bytes) : result bytes :=
  aes_key 16 "AES-128-GCM requires 16-byte key" key;;
  gcm_nonce nonce;;
  aes_gcm_decrypt key nonce ciphertext aad.

(** [src/marty-crypto/src/symmetric.rs:126-144] aes_256_gcm_encrypt *)
Definition aes_256_gcm_encrypt (key nonce plaintext aad : bytes) : result bytes :=
  aes_key 32 "AES-256-GCM requires 32-byte key" key;;
  gcm_nonce nonce;;
  aes_gcm_encrypt key nonce plaintext aad.

(** [src/marty-crypto/src/symmetric.rs:147-165] aes_256_gcm_decrypt *)
Definition aes_256_gcm_decrypt (key nonce ciphertext aad : bytes) : result bytes :=
  aes_key 32 "AES-256-GCM requires 32-byte key" key;;
  gcm_nonce nonce;;
  aes_gcm_decrypt key nonce ciphertext aad.

(** [src/marty-crypto/src/symmetric.rs:185-212] aes_128_cbc_encrypt *)
Definition aes_128_cbc_encrypt (key iv plaintext : bytes) : result bytes :=
  aes_key 16 "AES-128-CBC requires 16-byte key" key;;
  cbc_iv iv;;
  Ok (aes_cbc_pkcs7 key iv plaintext).

(** [src/marty-crypto/src/symmetric.rs:225-255] aes_128_cbc_decrypt *)
Definition aes_128_cbc_decrypt (key iv ciphertext : bytes) : result bytes :=
  aes_key 16 "AES-128-CBC requires 16-byte key" key;;
  cbc_iv iv;;
  ensure (zlen ciphertext mod 16 =? 0)
    (CryptoInternal "AES-CBC ciphertext must be multiple of 16 bytes");;
  ok_or (aes_cbc_pkcs7_open key iv ciphertext)
    (CryptoInternal "AES-CBC decryption failed: invalid padding").

(** [src/marty-crypto/src/symmetric.rs:260-286] aes_128_cbc_encrypt_nopad *)
Definition aes_128_cbc_encrypt_nopad (key iv plaintext : bytes) : result bytes :=
  aes_key 16 "AES-128-CBC requires 16-byte key" key;;
  cbc_iv iv;;
  ensure (zlen plaintext mod 16 =? 0)
    (CryptoInternal "Plaintext must be multiple of 16 bytes for no-padding mode");;
  Ok (aes_cbc_raw key iv plaintext).

(** [src/marty-crypto/src/symmetric.rs:289-319] aes_128_cbc_decrypt_nopad *)
Definition aes_128_cbc_decrypt_nopad (key iv ciphertext : bytes) : result bytes :=
  aes_key 16 "AES-128-CBC requires 16-byte key" key;;
  cbc_iv iv;;
  ensure (zlen ciphertext mod 16 =? 0)
    (CryptoInternal "Ciphertext must be multiple of 16 bytes");;
  Ok (aes_cbc_raw_open key iv ciphertext).

(** [src/marty-crypto/src/symmetric.rs:329-355] aes_256_cbc_encrypt *)
Definition aes_256_cbc_encrypt (key iv plaintext : bytes) : result bytes :=
  aes_key 32 "AES-256-CBC requires 32-byte key" key;;
  cbc_iv iv;;
  Ok (aes_cbc_pkcs7 key iv plaintext).

(** [src/marty-crypto/src/symmetric.rs:358-388] aes_256_cbc_decrypt *)
Definition aes_256_cbc_decrypt (key iv ciphertext : bytes) : result bytes :=
  aes_key 32 "AES-256-CBC requires 32-byte key" key;;
  cbc_iv iv;;
  ensure (zlen ciphertext mod 16 =? 0)
    (CryptoInternal "AES-CBC ciphertext must be multiple of 16 bytes");;
  ok_or (aes_cbc_pkcs7_open key iv ciphertext)
    (CryptoInternal "AES-256-CBC decryption failed: invalid padding").

(** [src/marty-crypto/src/symmetric.rs:397-420] aes_128_cmac *)
Definition aes_128_cmac (key data : bytes) : result bytes :=
  aes_key 16 "AES-128 CMAC requires 16-byte key" key;;
  ok_or (cmac_sign key data) (CryptoInternal "CMAC calculation failed").

(** [src/marty-crypto/src/symmetric.rs:429-439] hmac_sha256 *)
Definition hmac_sha256 (key data : bytes) : result bytes := Ok (hmac_sign key data).

End symmetric.

(** ** Key derivation *)

Section kdf.
Context `{Hkdf}.

(** [src/marty-crypto/src/kdf.rs:181-210] hkdf_impl *)
Definition hkdf_impl (algorithm : HkdfAlgorithm) (ikm salt info : bytes) (len : Z) : result bytes :=
  let salt := if zlen salt =? 0 then None else Some salt in
  ok_or (hkdf_derive algorithm salt ikm info len)
    (CryptoInternal "HKDF expansion failed: output length too long").

(** [src/marty-crypto/src/kdf.rs:133-140] hkdf_sha256 *)
Definition hkdf_sha256 (ikm salt info : bytes) (len : Z) : result bytes :=
  hkdf_impl HkdfSha256 ikm salt info len.

(** [src/marty-crypto/src/kdf.rs:143-150] hkdf_sha384 *)
Definition hkdf_sha384 (ikm salt info : bytes) (len : Z) : result bytes :=
  hkdf_impl HkdfSha384 ikm salt info len.

(** [src/marty-crypto/src/kdf.rs:153-160] hkdf_sha512 *)
Definition hkdf_sha512 (ikm salt info : bytes) (len : Z) : result bytes :=
  hkdf_impl HkdfSha512 ikm salt info len.

(** The algorithms of [crate::HashAlgorithm]. *)
Inductive HashAlgorithm := HashSha1 | HashSha256 | HashSha384 | HashSha512.

(** [src/marty-crypto/src/kdf.rs:234-249] hkdf *)
Definition hkdf (algorithm : HashAlgorithm) (ikm salt info : bytes) (len : Z) : result bytes :=
  match algorithm with
  | HashSha256 => hkdf_sha256 ikm salt info len
  | HashSha384 => hkdf_sha384 ikm salt info len
  | HashSha512 => hkdf_sha512 ikm salt info len
  | HashSha1 => Err (CryptoInternal "SHA-1 is not supported for HKDF")
  end.

(** [src/marty-crypto/src/kdf.rs:342-362] pbkdf2_sha256 *)
Definition pbkdf2_sha256 (password salt : bytes) (iterations len : Z) : result bytes :=
  if iterations =? 0 then Panic else Ok (pbkdf2_derive HkdfSha256 iterations salt password len).

(** [src/marty-crypto/src/kdf.rs:365-385] pbkdf2_sha512 *)
Definition pbkdf2_sha512 (password salt : bytes) (iterations len : Z) : result bytes :=
  if iterations =? 0 then Panic else Ok (pbkdf2_derive HkdfSha512 iterations salt password len).

Context `{Sha2}.

(** [src/marty-crypto/src/hashing.rs:39-43] hash_sha256 *)
Definition hash_sha256 (data : bytes) : bytes := sha256_of data.

(** [src/marty-crypto/src/kdf.rs:403-417] derive_mdl_session_keys *)
Definition derive_mdl_session_keys (shared_secret session_transcript : bytes) :
    result (bytes * bytes) :=
  let salt := hash_sha256 session_transcript in
  device_key ← hkdf_sha256 shared_secret salt (str_bytes "SKDevice") 32;
  reader_key ← hkdf_sha256 shared_secret salt (str_bytes "SKReader") 32;
  Ok (device_key, reader_key).

(** [src/marty-crypto/src/kdf.rs:315-322] append_length_prefixed *)
Definition append_length_prefixed (output value : bytes) : result bytes :=
  length ← ok_or (u32_try_from (zlen value))
             (CryptoInternal "Concat KDF field exceeds RFC 7518 limits");
  Ok (output ++ be32 length ++ value).

(** [for counter in 1..=repetitions { derived.extend(SHA-256(...)) }] *)
Definition concat_kdf_rounds (shared_secret other_info : bytes) (repetitions : Z) : bytes :=
  concat (map (fun counter => sha256_of (be32 counter ++ shared_secret ++ other_info))
              (seqZ 1 repetitions)).

(** [src/marty-crypto/src/kdf.rs:260-313] concat_kdf_sha256 *)
Definition concat_kdf_sha256 (shared_secret algorithm_id party_u_info party_v_info : bytes)
    (key_data_len : Z) : result bytes :=
  ensure (negb (zlen shared_secret =? 0))
    (CryptoInternal "Concat KDF shared secret must not be empty");;
  ensure (negb (key_data_len =? 0)) (CryptoInternal "Concat KDF output length must be positive");;
  bits ← ok_or (if key_data_len * 8 <=? usize_max then Some (key_data_len * 8) else None)
           (CryptoInternal "Concat KDF output length overflow");
  key_data_bits ← ok_or (u32_try_from bits)
           (CryptoInternal "Concat KDF output length exceeds RFC 7518 limits");
  i1 ← append_length_prefixed [] algorithm_id;
  i2 ← append_length_prefixed i1 party_u_info;
  i3 ← append_length_prefixed i2 party_v_info;
  let other_info := i3 ++ be32 key_data_bits in
  repetitions ← ok_or (u32_try_from (div_ceil key_data_len 32))
           (CryptoInternal "Concat KDF repetition count overflow");
  Ok (take (Z.to_nat key_data_len) (concat_kdf_rounds shared_secret other_info repetitions)).

End kdf.

(** ** Key agreement *)

Section ecdh.
Context `{P256}.

(** [src/marty-crypto/src/ecdh.rs:189-191] P256KeyPair *)
Record P256KeyPair := mkP256 { p256_secret : P256SecretKey }.

(** [src/marty-crypto/src/ecdh.rs:195-198] P256KeyPair::generate *)
Definition P256KeyPair_generate (random : P256SecretKey) : P256KeyPair := mkP256 random.

(** [src/marty-crypto/src/ecdh.rs:209-212] P256KeyPair::public_key_uncompressed *)
Definition public_key_uncompressed (kp : P256KeyPair) : bytes :=
  p256_sec1 false (p256_public (p256_secret kp)).

(** [src/marty-crypto/src/ecdh.rs:215-218] P256KeyPair::public_key_compressed *)
Definition public_key_compressed (kp : P256KeyPair) : bytes :=
  p256_sec1 true (p256_public (p256_secret kp)).

(** [src/marty-crypto/src/ecdh.rs:230-246] P256KeyPair::agree, agree_inner *)
Definition P256KeyPair_agree (kp : P256KeyPair) (peer_public : bytes) : result bytes :=
  peer_key ← ok_or (p256_from_sec1 peer_public)
               (CryptoInternal "Invalid P-256 public key: crypto error");
  Ok (p256_dh (p256_secret kp) peer_key).

(** [src/marty-crypto/src/ecdh.rs:270-274] validate_p256_public_key *)
Definition validate_p256_public_key (public_key : bytes) : result unit :=
  ok_or (const tt <$> p256_from_sec1 public_key)
    (CryptoInternal "Invalid P-256 public key: crypto error").

Context `{X25519}.

(** [src/marty-crypto/src/ecdh.rs:110-129] X25519KeyPair::agree_inner *)
Definition X25519KeyPair_agree (secret : X25519Secret) (peer_public : bytes) : result bytes :=
  ensure (zlen peer_public =? 32) (CryptoInternal "X25519 public key must be 32 bytes");;
  let shared := x25519_dh secret peer_public in
  ensure (x25519_contributory shared)
    (CryptoInvalidKey "X25519 peer public key is non-contributory");;
  Ok shared.

(** [src/marty-crypto/src/ecdh.rs:143-164] x25519_ephemeral_agree *)
Definition x25519_ephemeral_agree (random : X25519Secret) (peer_public : bytes) :
    result (bytes * bytes) :=
  ensure (zlen peer_public =? 32) (CryptoInternal "X25519 public key must be 32 bytes");;
  let shared := x25519_dh random peer_public in
  ensure (x25519_contributory shared)
    (CryptoInvalidKey "X25519 peer public key is non-contributory");;
  Ok (x25519_public random, shared).

Context `{Aes} `{Hkdf}.

(** [src/marty-crypto/src/ecdh.rs:366-396] ecies_encrypt *)
Definition ecies_encrypt (random : X25519Secret) (nonce recipient_public plaintext aad : bytes) :
    result bytes :=
  '(ephem_public, shared_secret) ← x25519_ephemeral_agree random recipient_public;
  key ← hkdf_sha256 shared_secret [] (str_bytes "ECIES-X25519-AES256GCM") 32;
  ciphertext ← aes_256_gcm_encrypt key nonce plaintext aad;
  Ok (ephem_public ++ nonce ++ ciphertext).

(** [src/marty-crypto/src/ecdh.rs:406-435] ecies_decrypt *)
Definition ecies_decrypt (secret : X25519Secret) (ciphertext aad : bytes) : result bytes :=
  ensure (negb (zlen ciphertext <? 32 + 12 + 16)) (CryptoInternal "ECIES ciphertext too short");;
  ephem_public ← vec_slice ciphertext 0 32;
  nonce ← vec_slice ciphertext 32 44;
  encrypted ← vec_slice ciphertext 44 (zlen ciphertext);
  shared_secret ← X25519KeyPair_agree secret ephem_public;
  key ← hkdf_sha256 shared_secret [] (str_bytes "ECIES-X25519-AES256GCM") 32;
  aes_256_gcm_decrypt key nonce encrypted aad.

End ecdh.
