(* ===== verification/CryptoKitFacts.v ===== *)
(** * Symmetric encryption, key derivation and key agreement: theorems

    What the wrappers of [CryptoKit] accept and return: AES-GCM opens exactly
    what it sealed, the Concat KDF returns the requested number of bytes and
    hashes an unambiguous encoding of its inputs, the two sides of a key
    agreement derive the same secret, an ECIES envelope opens to its
    plaintext.  [ToyCrypto] is a concrete instance of every class, on which
    the laws are proved and the witnesses run. *)

From S2P Require Import Prelude Des CryptoKit.
Local Open Scope Z_scope.

#[local] Abbreviation bytes := (list Z).

(** ** A concrete instance of the parameters *)

Module ToyCrypto.

Definition mac16 (k n a : bytes) : bytes := resize 16 0 (k ++ n ++ a).
Definition seal (k n a p : bytes) : option bytes :=
  if zlen p <=? gcm_max_plaintext then Some (p ++ mac16 k n a) else None.
Definition open (k n a c : bytes) : option bytes :=
  let len := (length c - 16)%nat in
  if bool_decide (c = take len c ++ mac16 k n a) && (zlen (take len c) <=? gcm_max_plaintext)
  then Some (take len c) else None.
Definition pad16 (p : bytes) : bytes :=
  p ++ replicate (Z.to_nat (16 - zlen p mod 16)) (16 - zlen p mod 16).
Definition unpad16 (c : bytes) : option bytes :=
  n ← last c; Some (take (length c - Z.to_nat n) c).

#[export] Instance toy_aes : Aes := {
  gcm_seal := seal;
  gcm_open := open;
  aes_cbc_pkcs7 _ _ p := pad16 p;
  aes_cbc_pkcs7_open _ _ c := unpad16 c;
  aes_cbc_raw _ _ p := p;
  aes_cbc_raw_open _ _ c := c;
  cmac_sign k d := Some (resize 16 0 (k ++ d));
  hmac_sign k d := resize 32 0 (k ++ d);
}.

Lemma mac16_length k n a : length (mac16 k n a) = 16%nat.
Proof. apply length_resize. Qed.

Lemma open_seal k n a p c : open k n a c = Some p <-> seal k n a p = Some c.
Proof.
  unfold open, seal. split.
  - case_bool_decide as Hc; [|done]. cbn [andb].
    destruct (_ <=? _) eqn:Hlen; [|done]. intros [= <-]. by rewrite Hlen, <- Hc.
  - destruct (_ <=? _) eqn:Hlen; [|done]. intros [= <-].
    rewrite length_app, mac16_length, Nat.add_sub, take_app_length.
    by rewrite bool_decide_true, Hlen.
Qed.

Lemma unpad_pad p : unpad16 (pad16 p) = Some p.
Proof.
  unfold unpad16, pad16. set (m := 16 - zlen p mod 16).
  assert (Hm : 0 < m) by (subst m; pose proof (Z.mod_pos_bound (zlen p) 16); lia).
  rewrite last_app. destruct (last (replicate _ _)) as [v|] eqn:Hl.
  - apply last_Some_elem_of, elem_of_replicate in Hl as [-> _]. cbn.
    rewrite length_app, length_replicate, Nat.add_sub. by rewrite take_app_length.
  - apply last_None in Hl. apply (f_equal length) in Hl. rewrite length_replicate in Hl.
    simpl in Hl. lia.
Qed.

#[export] Instance toy_aes_laws : AesLaws.
Proof.
  split; cbn; intros.
  - apply open_seal.
  - unfold seal. destruct (Z.leb_spec (zlen p) gcm_max_plaintext); [done|lia].
  - unfold seal in *. destruct (_ <=? _); [|done]. simplify_eq.
    unfold zlen. rewrite length_app, mac16_length. lia.
  - apply unpad_pad.
  - unfold pad16. rewrite zlen_app, zlen_replicate.
    pose proof (Z.mod_pos_bound (zlen p) 16). lia.
  - done.
  - done.
Qed.

#[export] Instance toy_sha2 : Sha2 := {
  sha256_of := resize 32 0; sha384_of := resize 48 0; sha512_of := resize 64 0;
}.
#[export] Instance toy_sha2_laws : Sha2Laws.
Proof. split; intros; apply length_resize. Qed.

#[export] Instance toy_hkdf : Hkdf := {
  hkdf_derive a salt ikm info len :=
    if len <=? 255 * digest_len a
    then Some (resize (Z.to_nat len) 0 (info ++ ikm ++ default [] salt)) else None;
  pbkdf2_derive _ _ salt pw len := resize (Z.to_nat len) 0 (pw ++ salt);
}.
#[export] Instance toy_hkdf_laws : HkdfLaws.
Proof.
  split; cbn; intros a salt ikm info len Hlen.
  - destruct (Z.leb_spec len (255 * digest_len a)); [|lia].
    eexists. split; [done|]. unfold zlen. rewrite length_resize. lia.
  - destruct (Z.leb_spec len (255 * digest_len a)); [lia|done].
Qed.

(** A commutative toy group: secrets and points are integers, Diffie-Hellman is
    multiplication; the uncompressed form is 4, the point and padding. *)
Definition toy_sec1 (compress : bool) (p : Z) : bytes :=
  if compress then 2 :: p :: replicate 31 0 else 4 :: p :: replicate 63 0.
#[export] Instance toy_p256 : P256 := {
  P256SecretKey := Z; P256PublicKey := Z;
  p256_public s := s;
  p256_sec1 := toy_sec1;
  p256_from_sec1 b := match b with _ :: p :: _ => Some p | _ => None end;
  p256_dh s p := [s * p];
}.
#[export] Instance toy_p256_laws : P256Laws.
Proof.
  split; cbn.
  - by intros [] p.
  - intros p. eexists. split; [done|]. simpl. done.
  - intros a b. f_equal. lia.
Qed.

#[export] Instance toy_x25519 : X25519 := {
  X25519Secret := Z;
  x25519_public s := s :: replicate 31 0;
  x25519_dh s p := [s * default 0 (head p)];
  x25519_contributory k := negb (bool_decide (k = [0]));
}.
#[export] Instance toy_x25519_laws : X25519Laws.
Proof. split; cbn; [done|]. intros a b. f_equal. lia. Qed.

End ToyCrypto.

(** ** AES *)

Section symmetric.
Context `{AesLaws}.

(** AES-256-GCM with fixed parameters is a partial bijection: the receiver
    accepts a ciphertext exactly when it is the encryption of what it returns. *)
Lemma aes_256_gcm_open_iff key nonce aad p c :
  aes_256_gcm_decrypt key nonce c aad = Ok p <-> aes_256_gcm_encrypt key nonce p aad = Ok c.
Proof.
  unfold aes_256_gcm_decrypt, aes_256_gcm_encrypt, aes_gcm_decrypt, aes_gcm_encrypt.
  destruct (aes_key _ _ _); [|done..]. destruct (gcm_nonce _); [|done..]. cbn.
  by rewrite !ok_or_Ok, gcm_open_seal.
Qed.

Lemma aes_256_gcm_encrypt_total key nonce aad p :
  zlen key = 32 -> zlen nonce = 12 -> zlen p <= gcm_max_plaintext ->
  exists c, aes_256_gcm_encrypt key nonce p aad = Ok c /\ zlen c = zlen p + 16.
Proof.
  intros Hk Hn Hp. destruct (gcm_seal_total key nonce aad p Hp) as [c Hc].
  exists c. unfold aes_256_gcm_encrypt, aes_key, gcm_nonce, aes_gcm_encrypt.
  rewrite Hk, Hn, Hc. split; [done|]. by eapply gcm_seal_length.
Qed.

Lemma aes_cbc_pkcs7_aligned key iv p : (zlen (aes_cbc_pkcs7 key iv p) mod 16 =? 0) = true.
Proof.
  rewrite aes_cbc_pkcs7_length, Z.eqb_eq. Z.div_mod_to_equations. lia.
Qed.

(** What CBC encryption accepted, decryption with the same parameters opens, for
    both key sizes and without padding. *)
Lemma aes_128_cbc_roundtrip key iv p c :
  aes_128_cbc_encrypt key iv p = Ok c -> aes_128_cbc_decrypt key iv c = Ok p.
Proof.
  unfold aes_128_cbc_encrypt, aes_128_cbc_decrypt.
  destruct (aes_key _ _ _); [|done..]. destruct (cbc_iv _); [|done..]. cbn -[Z.modulo].
  intros [= <-]. by rewrite aes_cbc_pkcs7_aligned, aes_cbc_pkcs7_inverse.
Qed.

Lemma aes_256_cbc_roundtrip key iv p c :
  aes_256_cbc_encrypt key iv p = Ok c -> aes_256_cbc_decrypt key iv c = Ok p.
Proof.
  unfold aes_256_cbc_encrypt, aes_256_cbc_decrypt.
  destruct (aes_key _ _ _); [|done..]. destruct (cbc_iv _); [|done..]. cbn -[Z.modulo].
  intros [= <-]. by rewrite aes_cbc_pkcs7_aligned, aes_cbc_pkcs7_inverse.
Qed.

Lemma aes_128_cbc_nopad_roundtrip key iv p c :
  aes_128_cbc_encrypt_nopad key iv p = Ok c -> aes_128_cbc_decrypt_nopad key iv c = Ok p.
Proof.
  unfold aes_128_cbc_encrypt_nopad, aes_128_cbc_decrypt_nopad.
  destruct (aes_key _ _ _); [|done..]. destruct (cbc_iv _); [|done..]. cbn -[Z.modulo].
  destruct (zlen p mod 16 =? 0) eqn:Hp; [|done]. cbn. intros [= <-].
  rewrite aes_cbc_raw_length, Hp. cbn. by rewrite aes_cbc_raw_inverse by lia.
Qed.

End symmetric.

(** ** Key derivation *)

Section kdf.
Context `{HkdfLaws} `{Sha2Laws}.

(** The session keys always exist and have the length AES-256 wants. *)
Lemma derive_mdl_session_keys_total secret transcript :
  exists dk rk, derive_mdl_session_keys secret transcript = Ok (dk, rk) /\ zlen dk = 32 /\ zlen rk = 32.
Proof.
  unfold derive_mdl_session_keys, hkdf_sha256, hkdf_impl.
  match goal with |- context [hkdf_derive _ ?s _ _ _] => set (salt := s) end.
  destruct (hkdf_derive_total HkdfSha256 salt secret (str_bytes "SKDevice") 32 ltac:(cbn; lia))
    as (dk & Hd & Hdl).
  destruct (hkdf_derive_total HkdfSha256 salt secret (str_bytes "SKReader") 32 ltac:(cbn; lia))
    as (rk & Hr & Hrl).
  exists dk, rk. by rewrite Hd, Hr.
Qed.

(** [OtherInfo] of RFC 7518: the three fields, each preceded by its length. *)
Definition other_info (alg u v : bytes) (bits : Z) : bytes :=
  be32 (zlen alg) ++ alg ++ be32 (zlen u) ++ u ++ be32 (zlen v) ++ v ++ be32 bits.

Lemma concat_kdf_rounds_length secret info n : 0 <= n ->
  zlen (concat_kdf_rounds secret info n) = 32 * n.
Proof.
  intros Hn. unfold concat_kdf_rounds. rewrite <- (Z2Nat.id n Hn) at 2.
  unfold seqZ. rewrite map_map. generalize 0%nat as start.
  induction (Z.to_nat n) as [|k IH]; intros start; [done|].
  cbn [seq fmap list_fmap map concat]. rewrite zlen_app, IH.
  unfold zlen. rewrite sha256_of_length. lia.
Qed.

Lemma append_length_prefixed_Ok out v : zlen v <= u32_max ->
  append_length_prefixed out v = Ok (out ++ be32 (zlen v) ++ v).
Proof.
  intros Hv. unfold append_length_prefixed, u32_try_from.
  by destruct (Z.leb_spec (zlen v) u32_max); [|lia].
Qed.

(** The Concat KDF returns exactly the bytes asked for, taken from the digests
    of the counter, the secret and [OtherInfo], for every output whose length in
    bits fits in 32 bits. *)
Theorem concat_kdf_output secret alg u v n :
  secret <> [] -> 0 < n < 2 ^ 29 ->
  zlen alg <= u32_max -> zlen u <= u32_max -> zlen v <= u32_max ->
  exists k, concat_kdf_sha256 secret alg u v n = Ok k /\ zlen k = n /\
    k = take (Z.to_nat n)
          (concat_kdf_rounds secret (other_info alg u v (8 * n)) (div_ceil n 32)).
Proof.
  intros Hs Hn Ha Hu Hv.
  assert (Hdc : 32 * div_ceil n 32 >= n /\ 0 <= div_ceil n 32 <= n)
    by (unfold div_ceil; Z.div_mod_to_equations; lia).
  eexists. split; [|split; [|reflexivity]].
  - unfold concat_kdf_sha256, u32_try_from, u32_max, usize_max.
    rewrite !append_length_prefixed_Ok by done.
    destruct (Z.eqb_spec (zlen secret) 0) as [E|_].
    { destruct secret; [done|]. rewrite zlen_cons in E. pose proof (zlen_nonneg secret). lia. }
    decide_tests. cbn [mbind res_bind ensure ok_or negb].
    destruct (Z.leb_spec (n * 8) (2 ^ 32 - 1)); [|lia]. cbn [mbind res_bind ok_or].
    rewrite append_length_prefixed_Ok by done. cbn [mbind res_bind].
    rewrite append_length_prefixed_Ok by done. cbn [mbind res_bind app].
    unfold other_info. rewrite <- !app_assoc, (Z.mul_comm n 8). done.
  - rewrite zlen_take, concat_kdf_rounds_length by lia. lia.
Qed.

(** ... and distinct parameters give distinct [OtherInfo]: no field can be
    shifted into its neighbour. *)
Theorem other_info_unambiguous a u v b a' u' v' b' :
  zlen a <= u32_max -> zlen u <= u32_max -> zlen v <= u32_max -> 0 <= b <= u32_max ->
  zlen a' <= u32_max -> zlen u' <= u32_max -> zlen v' <= u32_max -> 0 <= b' <= u32_max ->
  other_info a u v b = other_info a' u' v' b' -> a = a' /\ u = u' /\ v = v' /\ b = b'.
Proof.
  assert (Hfield : forall f f' r r', zlen f <= u32_max -> zlen f' <= u32_max ->
    be32 (zlen f) ++ f ++ r = be32 (zlen f') ++ f' ++ r' -> f = f' /\ r = r').
  { intros f f' r r' Hf Hf' Heq. apply app_inj_1 in Heq as [Hl Heq]; [|done].
    pose proof (zlen_nonneg f). pose proof (zlen_nonneg f').
    apply be32_inj in Hl; [|unfold u32_max in *; lia..].
    apply app_inj_1 in Heq; [done|]. unfold zlen in Hl. lia. }
  unfold other_info. intros ????? ??? Heq.
  apply Hfield in Heq as [-> Heq]; [|done..].
  apply Hfield in Heq as [-> Heq]; [|done..].
  apply Hfield in Heq as [-> Heq]; [|done..].
  apply be32_inj in Heq; [done|unfold u32_max in *; lia..].
Qed.

End kdf.

(** ** Key agreement *)

Section ecdh.
Context `{P256Laws} `{X25519Laws} `{AesLaws} `{HkdfLaws}.

(** Both sides of an agreement obtain the same secret, whichever encoding of
    the public key was exchanged. *)
Lemma p256_agreement (a b : P256KeyPair) :
  P256KeyPair_agree a (public_key_uncompressed b) = P256KeyPair_agree b (public_key_compressed a).
Proof.
  unfold P256KeyPair_agree, public_key_uncompressed, public_key_compressed.
  rewrite !p256_from_sec1_sec1. cbn. by rewrite p256_dh_agree.
Qed.

Lemma p256_agreement_uncompressed (a b : P256KeyPair) :
  exists z, P256KeyPair_agree a (public_key_uncompressed b) = Ok z /\
    P256KeyPair_agree b (public_key_uncompressed a) = Ok z.
Proof.
  unfold P256KeyPair_agree, public_key_uncompressed.
  rewrite !p256_from_sec1_sec1. cbn. rewrite p256_dh_agree. eauto.
Qed.

Lemma validate_own_public_key (a : P256KeyPair) :
  validate_p256_public_key (public_key_uncompressed a) = Ok tt.
Proof.
  unfold validate_p256_public_key, public_key_uncompressed. by rewrite p256_from_sec1_sec1.
Qed.

(** An ECIES envelope made for a recipient opens to its plaintext, under the
    same associated data. *)
Theorem ecies_roundtrip e nonce s p aad c :
  ecies_encrypt e nonce (x25519_public s) p aad = Ok c -> ecies_decrypt s c aad = Ok p.
Proof.
  unfold ecies_encrypt, x25519_ephemeral_agree. intros He.
  apply bind_Ok in He as ([ephem shared] & Hx & He). res_inv. simplify_eq/=.
  rename x into key, x0 into ct, H7 into Hkey, H8 into Hct.
  assert (Hn : zlen nonce = 12).
  { unfold aes_256_gcm_encrypt, gcm_nonce in Hct. res_inv. lia. }
  assert (Hl : zlen ct = zlen p + 16).
  { unfold aes_256_gcm_encrypt, aes_gcm_encrypt in Hct. res_inv. by eapply gcm_seal_length. }
  assert (He : zlen (x25519_public e) = 32) by (unfold zlen; by rewrite x25519_public_length).
  unfold ecies_decrypt, X25519KeyPair_agree. pose proof (zlen_nonneg p).
  rewrite (vec_slice_at _ [] (x25519_public e) (nonce ++ ct) 0 32) by (lens; lia || done).
  rewrite (vec_slice_at _ (x25519_public e) nonce ct 32 44) by (lens; lia || done).
  rewrite (vec_slice_at _ (x25519_public e ++ nonce) ct [] 44)
    by (rewrite ?app_nil_r, <- ?app_assoc; lens; lia || done).
  rewrite !zlen_app, He, Hn. decide_tests. cbn [mbind res_bind ensure negb].
  rewrite x25519_dh_agree. match goal with H : x25519_contributory _ = true |- _ => rewrite H end.
  cbn [mbind res_bind ensure]. rewrite He. cbn [mbind res_bind ensure Z.eqb Pos.eqb].
  rewrite Hkey. cbn [mbind res_bind]. by apply aes_256_gcm_open_iff.
Qed.

End ecdh.
