(* ===== verification/Engagement.v ===== *)
(** * Device engagement (marty-iso18013, [core.rs] and [error.rs])

    The structure a holder shows to a reader: its transports, its public key,
    and the one-use private key that its clones share.  The shared cell
    [Option<Arc<Mutex<Option<P256KeyPair>>>>] is an address in a key store, so
    that cloning an engagement copies the address and not the key.  The data
    types and CBOR codecs of [isomdl], [ciborium] and the [uuid] crate are the
    class [IsoMdl]. *)

From S2P Require Import Prelude Des CryptoKit.
Local Open Scope Z_scope.

#[local] Abbreviation bytes := (list Z).

(** [src/marty-iso18013/src/error.rs:7-75] Error *)
Inductive IsoError :=
| SessionEstablishment (msg : string)
| InvalidState (msg : string)
| Timeout
| Encryption (msg : string)
| Decryption (msg : string)
| CborEncode (msg : string)
| CborDecode (msg : string)
| Crypto (e : CryptoError)
| Verification (msg : string)
| Transport (msg : string)
| TransportNotSupported
| ConnectionFailed (msg : string)
| SendFailed (msg : string)
| ReceiveFailed (msg : string)
| QrCode (msg : string)
| InvalidEngagement (msg : string)
| InvalidRequest (msg : string)
| InvalidResponse (msg : string)
| CredentialNotFound
| ConsentDenied
| Io (msg : string)
| Other (msg : string).

#[global] Instance CryptoError_eq_dec : EqDecision CryptoError.
Proof. solve_decision. Defined.
#[global] Instance IsoError_eq_dec : EqDecision IsoError.
Proof. solve_decision. Defined.

#[local] Abbreviation result := (res IsoError).

(** [?] on a result of [marty_crypto]: [#[from] marty_crypto::CryptoError]. *)
Definition from_crypto {A} (c : res CryptoError A) : result A := map_err Crypto c.

(** [src/marty-iso18013/src/core.rs:19-24] MAX_DEVICE_ENGAGEMENT_CBOR_BYTES and the other limits *)
Definition MAX_DEVICE_ENGAGEMENT_CBOR_BYTES : Z := 64 * 1024.
Definition MAX_DEVICE_ENGAGEMENT_QR_URI_BYTES : Z := 90 * 1024.
Definition MAX_DEVICE_RETRIEVAL_METHODS : Z := 8.
Definition MAX_TRANSPORT_PARAMETERS : Z := 16.
Definition MAX_TRANSPORT_PARAMETER_NAME_BYTES : Z := 64.
Definition MAX_TRANSPORT_PARAMETER_VALUE_BYTES : Z := 4096.

(** [src/marty-iso18013/src/core.rs:30-41] TransportMethod *)
Inductive TransportMethod := BLE | NFC | WiFiAware | HTTPS.

(** [src/marty-iso18013/src/core.rs:44-51] EngagementMethod *)
Inductive EngagementMethod := EngagementQR | EngagementNFC.

(** [src/marty-iso18013/src/core.rs:95-102] TransportInfo *)
Record TransportInfo := mkTransport {
  method : TransportMethod;
  parameters : gmap string bytes;
}.

(** [src/marty-iso18013/src/core.rs:57-78] DeviceEngagement *)
Record DeviceEngagement := mkEngagement {
  version : string;
  transports : list TransportInfo;
  engagement_method : EngagementMethod;
  device_key : bytes;
  device_data : option (gmap string bytes);
  ephemeral_key : option nat;
}.

(** ** The types and codecs of isomdl *)

Inductive EC2Curve := CurveP256 | CurveOther (id : Z).
Inductive EC2Y := EC2YValue (y : bytes) | EC2YSignBit (sign : bool).
Inductive CoseKey :=
| CoseEC2 (crv : EC2Curve) (x : bytes) (y : EC2Y)
| CoseOther (kty : Z).

Record Tag24 (A : Type) := mkTag24 { inner : A; inner_bytes : bytes }.
Arguments mkTag24 {A} inner inner_bytes.
Arguments inner {A} t.
Arguments inner_bytes {A} t.

Record BleOptions := mkBle { peripheral_server_mode : option Z; central_client_mode : option Z }.
Inductive DeviceRetrievalMethod :=
| RetrievalBLE (options : BleOptions)
| RetrievalNFC
| RetrievalWIFI.

Record IsoEngagement := mkIso {
  iso_version : string;
  security : Z * Tag24 CoseKey;
  device_retrieval_methods : option (list DeviceRetrievalMethod);
  server_retrieval_methods : option unit;
  protocol_info : option unit;
}.

(** Errors are the [Display] text of the crates' errors.  [engagement_decode]
    is [ciborium::de::from_reader] on a cursor, with the final position;
    [transcript_encode] is [Tag24::new] of a [SessionTranscript180135] with a QR
    handover, then [cbor::to_vec]. *)
Class IsoMdl := {
  tag24_cose_key : CoseKey -> res string (Tag24 CoseKey);
  tag24_engagement : IsoEngagement -> res string (Tag24 IsoEngagement);
  tag24_engagement_from_bytes : bytes -> res string (Tag24 IsoEngagement);
  engagement_encode : IsoEngagement -> res string bytes;
  engagement_decode : bytes -> res string (IsoEngagement * Z);
  to_qr_code_uri : Tag24 IsoEngagement -> res string string;
  from_qr_code_uri : string -> res string (Tag24 IsoEngagement);
  transcript_encode : Tag24 IsoEngagement -> Tag24 CoseKey -> res string bytes;
  uuid_parse : bytes -> res string Z;
  uuid_hyphenated : Z -> bytes;
}.

(** Encoding the engagements this code builds succeeds and decoding inverts it;
    the text of a [Uuid] is ASCII, shorter than the limit of a parameter, and
    parses back. *)
Class IsoMdlLaws `{IsoMdl} : Prop := {
  tag24_cose_key_inner k : exists t, tag24_cose_key k = Ok t /\ inner t = k;
  engagement_encode_total v : exists c, engagement_encode v = Ok c;
  engagement_decode_encode v c :
    engagement_encode v = Ok c -> engagement_decode c = Ok (v, zlen c);
  tag24_engagement_encoded v c :
    engagement_encode v = Ok c ->
    tag24_engagement v = Ok (mkTag24 v c) /\
    tag24_engagement_from_bytes c = Ok (mkTag24 v c);
  qr_code_uri_total t : exists uri, to_qr_code_uri t = Ok uri;
  qr_code_uri_roundtrip t uri :
    to_qr_code_uri t = Ok uri -> from_qr_code_uri uri = Ok t;
  transcript_encode_total e k : exists c, transcript_encode e k = Ok c;
  uuid_parse_hyphenated s u : uuid_parse s = Ok u -> uuid_parse (uuid_hyphenated u) = Ok u;
  uuid_hyphenated_ascii u : Forall (fun b => 0 <= b < 128) (uuid_hyphenated u);
  uuid_hyphenated_length u : zlen (uuid_hyphenated u) = 36;
}.

(** ** Operations *)

(** The cells behind [Arc<Mutex<Option<P256KeyPair>>>], by address.  Nothing
    panics while a cell is locked, so a cell is never poisoned. *)
Abbreviation KeyStore := (gmap nat (option P256KeyPair)).

Section engagement.
Context `{P256} `{IsoMdl}.

Definition oversized_parameter (kv : string * bytes) : bool :=
  (MAX_TRANSPORT_PARAMETER_NAME_BYTES <? zlen (str_bytes kv.1))
  || (MAX_TRANSPORT_PARAMETER_VALUE_BYTES <? zlen kv.2).

(** [for transport in &self.transports { ... }] of [validate_resource_bounds] *)
Fixpoint validate_transports (ts : list TransportInfo) : result unit :=
  match ts with
  | [] => Ok tt
  | t :: ts =>
      ensure (negb (MAX_TRANSPORT_PARAMETERS <? Z.of_nat (size (parameters t))))
        (InvalidEngagement "too many transport parameters; maximum is 16");;
      ensure (negb (existsb oversized_parameter (map_to_list (parameters t))))
        (InvalidEngagement "transport parameter exceeds its encoded size limit");;
      validate_transports ts
  end.

(** [src/marty-iso18013/src/core.rs:105-127] DeviceEngagement::validate_resource_bounds *)
Definition validate_resource_bounds (e : DeviceEngagement) : result unit :=
  ensure (negb (MAX_DEVICE_RETRIEVAL_METHODS <? zlen (transports e)))
    (InvalidEngagement "too many retrieval methods; maximum is 8");;
  validate_transports (transports e).

(** [src/marty-iso18013/src/core.rs:130-142] DeviceEngagement::new_qr *)
Definition new_qr (random : P256SecretKey) (store : KeyStore) : KeyStore * DeviceEngagement :=
  let key := P256KeyPair_generate random in
  let cell := fresh (dom store) in
  (<[cell := Some key]> store,
   mkEngagement "1.0" [] EngagementQR (public_key_uncompressed key) None (Some cell)).

Definition push_transport (t : TransportInfo) (e : DeviceEngagement) : DeviceEngagement :=
  mkEngagement (version e) (transports e ++ [t]) (engagement_method e) (device_key e)
    (device_data e) (ephemeral_key e).

(** [src/marty-iso18013/src/core.rs:145-155] DeviceEngagement::add_ble_transport *)
Definition add_ble_transport (service_uuid : string) (e : DeviceEngagement) : DeviceEngagement :=
  push_transport (mkTransport BLE {[ "serviceUuid" := str_bytes service_uuid ]}) e.

(** [src/marty-iso18013/src/core.rs:158-165] DeviceEngagement::add_nfc_transport *)
Definition add_nfc_transport (e : DeviceEngagement) : DeviceEngagement :=
  push_transport (mkTransport NFC ∅) e.

(** [src/marty-iso18013/src/core.rs:168-178] DeviceEngagement::add_https_transport *)
Definition add_https_transport (url : string) (e : DeviceEngagement) : DeviceEngagement :=
  push_transport (mkTransport HTTPS {[ "url" := str_bytes url ]}) e.

(** [src/marty-iso18013/src/core.rs:180-193] DeviceEngagement::take_ephemeral_key_pair *)
Definition take_ephemeral_key_pair (e : DeviceEngagement) (store : KeyStore) :
    KeyStore * result P256KeyPair :=
  match ephemeral_key e with
  | None =>
      (store, Err (InvalidEngagement
        "holder session requires a locally generated DeviceEngagement key"))
  | Some cell =>
      match store !! cell with
      | Some (Some key) => (<[cell := None]> store, Ok key)
      | _ => (store, Err (InvalidState "DeviceEngagement key was already consumed"))
      end
  end.

(** [src/marty-iso18013/src/core.rs:195-207] DeviceEngagement::cose_key_from_sec1 *)
Definition cose_key_from_sec1 (public_key : bytes) : result CoseKey :=
  ensure (negb (negb (zlen public_key =? 65) || negb (bool_decide (head public_key = Some 4))))
    (InvalidEngagement "EDeviceKey must be an uncompressed P-256 point");;
  x ← vec_slice public_key 1 33;
  y ← vec_slice public_key 33 65;
  Ok (CoseEC2 CurveP256 x (EC2YValue y)).

(** [src/marty-iso18013/src/core.rs:209-228] DeviceEngagement::cose_key_to_sec1 *)
Definition cose_key_to_sec1 (cose_key : CoseKey) : result bytes :=
  let unsupported := InvalidEngagement "only an uncompressed P-256 EDeviceKey is supported" in
  match cose_key with
  | CoseEC2 CurveP256 x (EC2YValue y) =>
      if (zlen x =? 32) && (zlen y =? 32) then
        let public_key := 4 :: x ++ y in
        from_crypto (validate_p256_public_key public_key);;
        Ok public_key
      else Err unsupported
  | _ => Err unsupported
  end.

(** [for transport in &self.transports { match transport.method { ... } }] *)
Definition retrieval_method (t : TransportInfo) : result DeviceRetrievalMethod :=
  match method t with
  | BLE =>
      value ← ok_or (parameters t !! "serviceUuid")
                (InvalidEngagement "BLE transport is missing serviceUuid");
      ensure (utf8_valid value) (InvalidEngagement "BLE serviceUuid is not UTF-8");;
      uuid ← map_err (fun e => InvalidEngagement ("invalid BLE serviceUuid: " +:+ e))
               (uuid_parse value);
      Ok (RetrievalBLE (mkBle (Some uuid) None))
  | NFC => Ok RetrievalNFC
  | WiFiAware => Err (InvalidEngagement "Wi-Fi Aware parameters are not implemented")
  | HTTPS =>
      Err (InvalidEngagement
        "HTTPS is a server-retrieval transport and cannot be encoded as a device retrieval method")
  end.

Fixpoint retrieval_methods (ts : list TransportInfo) : result (list DeviceRetrievalMethod) :=
  match ts with
  | [] => Ok []
  | t :: ts =>
      m ← retrieval_method t;
      ms ← retrieval_methods ts;
      Ok (m :: ms)
  end.

(** [NonEmptyVec::maybe_new]. *)
Definition non_empty {A} (l : list A) : option (list A) :=
  match l with [] => None | _ => Some l end.

(** [src/marty-iso18013/src/core.rs:230-303] DeviceEngagement::to_iso *)
Definition to_iso (e : DeviceEngagement) : result IsoEngagement :=
  validate_resource_bounds e;;
  ensure (bool_decide (version e = "1.0"))
    (InvalidEngagement ("unsupported DeviceEngagement version " +:+ version e));;
  ensure (bool_decide (device_data e = None))
    (InvalidEngagement "device_data cannot be encoded as ISO 18013-5 protocolInfo");;
  cose ← cose_key_from_sec1 (device_key e);
  key ← map_err InvalidEngagement (tag24_cose_key cose);
  methods ← retrieval_methods (transports e);
  Ok (mkIso (version e) (1, key) (non_empty methods) None None).

(** [for method in methods.iter() { match method { ... } }] *)
Definition transport_of_method (m : DeviceRetrievalMethod) : result TransportInfo :=
  match m with
  | RetrievalBLE options =>
      uuid ← match peripheral_server_mode options, central_client_mode options with
             | Some uuid, _ => Ok uuid
             | None, Some uuid => Ok uuid
             | None, None =>
                 Err (InvalidEngagement "BLE retrieval method enables neither mode")
             end;
      Ok (mkTransport BLE {[ "serviceUuid" := uuid_hyphenated uuid ]})
  | RetrievalNFC => Ok (mkTransport NFC ∅)
  | RetrievalWIFI => Err (InvalidEngagement "Wi-Fi Aware parameters are not implemented")
  end.

Fixpoint transports_of_methods (ms : list DeviceRetrievalMethod) : result (list TransportInfo) :=
  match ms with
  | [] => Ok []
  | m :: ms =>
      t ← transport_of_method m;
      ts ← transports_of_methods ms;
      Ok (t :: ts)
  end.

(** [src/marty-iso18013/src/core.rs:305-368] DeviceEngagement::from_iso *)
Definition from_iso (value : IsoEngagement) : result DeviceEngagement :=
  ensure (negb (negb (bool_decide (iso_version value = "1.0")) || negb ((security value).1 =? 1)))
    (InvalidEngagement "unsupported DeviceEngagement version or cipher suite");;
  ensure (bool_decide (server_retrieval_methods value = None)
          && bool_decide (protocol_info value = None))
    (InvalidEngagement "server retrieval and protocolInfo are not supported");;
  key ← cose_key_to_sec1 (inner (security value).2);
  ts ← transports_of_methods (default [] (device_retrieval_methods value));
  let engagement := mkEngagement (iso_version value) ts EngagementQR key None None in
  validate_resource_bounds engagement;;
  Ok engagement.

(** [src/marty-iso18013/src/core.rs:371-374] DeviceEngagement::to_cbor *)
Definition to_cbor (e : DeviceEngagement) : result bytes :=
  v ← to_iso e;
  map_err InvalidEngagement (engagement_encode v).

(** [src/marty-iso18013/src/core.rs:377-392] DeviceEngagement::from_cbor *)
Definition from_cbor (data : bytes) : result DeviceEngagement :=
  ensure (negb (MAX_DEVICE_ENGAGEMENT_CBOR_BYTES <? zlen data))
    (InvalidEngagement "DeviceEngagement CBOR exceeds 65536 bytes");;
  '(value, position) ← map_err CborDecode (engagement_decode data);
  ensure (position =? zlen data) (InvalidEngagement "trailing bytes after DeviceEngagement");;
  from_iso value.

(** [src/marty-iso18013/src/core.rs:395-400] DeviceEngagement::to_qr_uri *)
Definition to_qr_uri (e : DeviceEngagement) : result string :=
  v ← to_iso e;
  tagged ← map_err InvalidEngagement (tag24_engagement v);
  map_err QrCode (to_qr_code_uri tagged).

(** [src/marty-iso18013/src/core.rs:403-412] DeviceEngagement::from_qr_uri *)
Definition from_qr_uri (uri : string) : result DeviceEngagement :=
  ensure (negb (MAX_DEVICE_ENGAGEMENT_QR_URI_BYTES <? zlen (str_bytes uri)))
    (InvalidEngagement "DeviceEngagement QR URI exceeds 92160 bytes");;
  tagged ← map_err InvalidEngagement (from_qr_code_uri uri);
  from_cbor (inner_bytes tagged).

End engagement.
