(* ===== verification/EngagementFacts.v ===== *)
(** * Device engagement: theorems

    An engagement that a holder can encode is decoded by a reader to the same
    public key and transports, and re-encodes to the same bytes, so both sides
    bind the same transcript; every decoded engagement respects the resource
    bounds; the private key of an engagement is taken at most once, whatever
    clones were made. *)

From S2P Require Import Prelude Des CryptoKit CryptoKitFacts Engagement.
Local Open Scope Z_scope.

#[local] Abbreviation bytes := (list Z).

Lemma utf8_valid_ascii (bs : bytes) : Forall (fun b => 0 <= b < 128) bs -> utf8_valid bs = true.
Proof.
  induction 1 as [|b bs Hb _ IH]; [done|]. cbn.
  by rewrite (proj2 (Z.leb_le b 127)) by lia.
Qed.

Section engagement.
Context `{P256Laws} `{IsoMdlLaws}.

(** ** COSE keys *)

Lemma cose_key_from_sec1_Ok k c : cose_key_from_sec1 k = Ok c ->
  exists x y, k = 4 :: x ++ y /\ zlen x = 32 /\ zlen y = 32 /\
    c = CoseEC2 CurveP256 x (EC2YValue y).
Proof.
  unfold cose_key_from_sec1. intros Hc. apply bind_Ok in Hc as (u & Hk & Hc).
  apply ensure_Ok in Hk. rewrite negb_orb, !negb_involutive in Hk.
  apply andb_prop in Hk as [Hlen%Z.eqb_eq Hhead%bool_decide_eq_true].
  destruct k as [|b k]; [done|]. injection Hhead as ->. rewrite zlen_cons in Hlen.
  exists (take 32 k), (drop 32 k). rewrite take_drop.
  assert (zlen (take 32 k) = 32 /\ zlen (drop 32 k) = 32) as [Hx Hy].
  { unfold zlen in *. rewrite length_take, length_drop. lia. }
  rewrite (vec_slice_at _ [4] (take 32 k) (drop 32 k) 1 33) in Hc
    by (lens; try lia; cbn; by rewrite take_drop).
  rewrite (vec_slice_at _ (4 :: take 32 k) (drop 32 k) [] 33 65) in Hc
    by (lens; try lia; cbn; by rewrite app_nil_r, take_drop).
  injection Hc as <-. done.
Qed.

Lemma cose_key_roundtrip k c :
  cose_key_from_sec1 k = Ok c -> validate_p256_public_key k = Ok tt -> cose_key_to_sec1 c = Ok k.
Proof.
  intros (x & y & -> & Hx & Hy & ->)%cose_key_from_sec1_Ok Hv. unfold cose_key_to_sec1.
  by rewrite Hx, Hy, Hv.
Qed.

Lemma cose_key_to_sec1_valid c k : cose_key_to_sec1 c = Ok k ->
  validate_p256_public_key k = Ok tt /\ cose_key_from_sec1 k = Ok c.
Proof.
  unfold cose_key_to_sec1. destruct c as [[] x [y|]|]; try done.
  destruct ((zlen x =? 32) && (zlen y =? 32)) eqn:Hl; [|done]. breflect. rename H3 into Hx, H4 into Hy.
  intros Hc. apply bind_Ok in Hc as ([] & Hv & [= <-]). unfold from_crypto, map_err in Hv.
  destruct (validate_p256_public_key _) as [[]| |] eqn:Hval; [|done..].
  split; [done|]. unfold cose_key_from_sec1.
  rewrite (vec_slice_at _ [4] x y 1 33) by (lens; lia || done).
  rewrite (vec_slice_at _ (4 :: x) y [] 33 65) by (lens; rewrite ?app_nil_r; lia || done).
  lens. decide_tests. done.
Qed.

(** ** Transports *)

Lemma retrieval_method_transport t m : retrieval_method t = Ok m ->
  exists t', transport_of_method m = Ok t' /\ retrieval_method t' = Ok m /\
    method t' = method t /\ (size (parameters t') <= 1)%nat /\
    existsb oversized_parameter (map_to_list (parameters t')) = false.
Proof.
  unfold retrieval_method. destruct (method t) eqn:Hm; [|intros [= <-]|done|done].
  - intros Hr. res_inv. destruct (uuid_parse x) as [u| |] eqn:Hu; [|done..].
    cbn [map_err] in *. res_inv. cbn [transport_of_method peripheral_server_mode].
    eexists. split; [done|]. unfold retrieval_method. cbn [method parameters].
    rewrite lookup_singleton_eq. cbn [ok_or mbind res_bind].
    rewrite (uuid_parse_hyphenated _ _ Hu), (utf8_valid_ascii _ (uuid_hyphenated_ascii _)).
    rewrite map_size_singleton, map_to_list_singleton. cbn [existsb].
    unfold oversized_parameter. cbn [snd]. by rewrite uuid_hyphenated_length.
  - exists (mkTransport NFC ∅). cbn [parameters].
    rewrite map_size_empty, map_to_list_empty. split_and!; (done || lia).
Qed.

Lemma retrieval_methods_transports ts ms : retrieval_methods ts = Ok ms ->
  exists ts', transports_of_methods ms = Ok ts' /\ retrieval_methods ts' = Ok ms /\
    map method ts' = map method ts /\ validate_transports ts' = Ok tt.
Proof.
  revert ms. induction ts as [|t ts IH]; cbn; intros ms Hr; res_inv.
  - by exists [].
  - apply retrieval_method_transport in H3 as (t' & Ht & Hr & Hm & Hs & Ho).
    apply IH in H4 as (ts' & Hts & Hrs & Hms & Hv).
    exists (t' :: ts'). cbn. rewrite Ht, Hts, Hr, Hrs, Hm, Hms, Ho, Hv. split_and!; try done.
    unfold MAX_TRANSPORT_PARAMETERS. decide_tests. done.
Qed.

(** ** Encoding and decoding *)

Lemma length_retrieval_methods ts ms : retrieval_methods ts = Ok ms -> length ms = length ts.
Proof.
  revert ms. induction ts as [|t ts IH]; cbn; intros ms Hr; res_inv; [done|].
  cbn. by rewrite (IH _ H4).
Qed.

(** What a reader makes of the engagement of a holder: the same key and
    transports, no private key, and the same ISO structure again. *)
Lemma from_iso_to_iso e v : to_iso e = Ok v -> validate_p256_public_key (device_key e) = Ok tt ->
  exists e', from_iso v = Ok e' /\ to_iso e' = Ok v /\ device_key e' = device_key e /\
    map method (transports e') = map method (transports e) /\ ephemeral_key e' = None.
Proof.
  intros Hv Hkey. unfold to_iso in Hv. destruct e as [ver ts em dk dd ek].
  cbn [version device_data device_key transports] in *. res_inv.
  rename x2 into cose, x3 into key, x4 into ms.
  rewrite bool_decide_eq_true in *. subst ver dd. apply map_err_Ok in H7.
  destruct (tag24_cose_key_inner cose) as (tag & Htag & Hinner). rewrite Htag in H7.
  injection H7 as ->. pose proof (length_retrieval_methods _ _ H8) as Hlen.
  pose proof (retrieval_methods_transports _ _ H8) as (ts' & Hts & Hrs & Hms & Hvt).
  set (e' := mkEngagement "1.0" ts' EngagementQR dk None None).
  assert (Hb : validate_resource_bounds e' = Ok tt).
  { unfold validate_resource_bounds in *. cbn [transports e'] in *. rewrite Hvt.
    res_inv. apply (f_equal length) in Hms. rewrite !length_map in Hms.
    unfold zlen in *. rewrite Hms. by rewrite H4. }
  exists e'. split; [|split; [|done]].
  - unfold from_iso. cbn [iso_version security server_retrieval_methods protocol_info
      device_retrieval_methods fst snd]. rewrite Hinner, (cose_key_roundtrip _ _ H6 Hkey).
    replace (default [] (non_empty ms)) with ms by (by destruct ms). rewrite Hts.
    rewrite !bool_decide_true by done. cbn [mbind res_bind ensure negb andb orb Z.eqb Pos.eqb].
    fold e'. by rewrite Hb.
  - unfold to_iso. rewrite Hb. cbn [version device_data device_key transports e'].
    rewrite H6, Hrs, bool_decide_true by done. cbn. by rewrite Htag.
Qed.

(** The QR code a holder displays is read back to an engagement with the same
    public key and transports, which both parties encode to the same bytes. *)
Theorem engagement_qr_roundtrip e uri c :
  to_qr_uri e = Ok uri -> to_cbor e = Ok c -> validate_p256_public_key (device_key e) = Ok tt ->
  zlen c <= MAX_DEVICE_ENGAGEMENT_CBOR_BYTES ->
  zlen (str_bytes uri) <= MAX_DEVICE_ENGAGEMENT_QR_URI_BYTES ->
  exists e', from_qr_uri uri = Ok e' /\ to_cbor e' = Ok c /\ device_key e' = device_key e /\
    map method (transports e') = map method (transports e) /\ ephemeral_key e' = None.
Proof.
  unfold to_qr_uri, to_cbor. intros Huri Hc Hkey Hlc Hlu. res_inv. res_det.
  apply map_err_Ok in Hc, Huri. destruct (tag24_engagement_encoded _ _ Hc) as [Htag _].
  rewrite Htag in H5. injection H5 as <-.
  destruct (from_iso_to_iso _ _ H4 Hkey) as (e' & Hfrom & Hto & Hrest).
  exists e'. rewrite Hto. cbn [mbind res_bind]. split_and!; try tauto.
  - unfold from_qr_uri. rewrite (qr_code_uri_roundtrip _ _ Huri).
    decide_tests. cbn [map_err mbind res_bind ensure negb inner_bytes].
    unfold from_cbor. rewrite (engagement_decode_encode _ _ Hc). decide_tests.
    cbn [map_err mbind res_bind ensure negb]. by rewrite Z.eqb_refl.
  - by rewrite Hc.
Qed.

(** Every engagement a reader accepts respects the resource bounds and carries
    a point of the curve, and never a private key. *)
Theorem from_cbor_bounded data e : from_cbor data = Ok e ->
  zlen data <= MAX_DEVICE_ENGAGEMENT_CBOR_BYTES /\
  zlen (transports e) <= MAX_DEVICE_RETRIEVAL_METHODS /\
  Forall (fun t => (size (parameters t) <= 16)%nat /\
            map_Forall (fun name value => zlen (str_bytes name) <= 64 /\ zlen value <= 4096)
              (parameters t)) (transports e) /\
  validate_p256_public_key (device_key e) = Ok tt /\ ephemeral_key e = None.
Proof.
  unfold from_cbor, from_iso. intros He. res_inv. destruct x0 as [v pos]. res_inv.
  breflect. unfold validate_resource_bounds in *. cbn [transports] in *. res_inv. breflect.
  split; [lia|]. cbn [transports device_key ephemeral_key]. split; [lia|]. split_and!; [|by eapply cose_key_to_sec1_valid|done].
  match goal with H : validate_transports _ = Ok _ |- _ => rename H into Hv end.
  clear -Hv. match type of Hv with validate_transports ?l = _ => induction l as [|t ts IH] end;
    [by constructor|].
  cbn in Hv. res_inv. constructor; [|auto]. breflect. unfold MAX_TRANSPORT_PARAMETERS in *.
  split; [lia|]. intros name value Hl%elem_of_map_to_list.
  match goal with H : existsb _ _ = false |- _ =>
    rewrite <- not_true_iff_false, existsb_exists in H; rename H into Hno end.
  assert (oversized_parameter (name, value) = false) as Ho.
  { apply not_true_iff_false. intros Ho. apply Hno. exists (name, value).
    by rewrite list_elem_of_In in Hl. }
  unfold oversized_parameter, MAX_TRANSPORT_PARAMETER_NAME_BYTES,
    MAX_TRANSPORT_PARAMETER_VALUE_BYTES in Ho. cbn [fst snd] in Ho.
  apply orb_false_iff in Ho as [Hn%Z.ltb_ge Hs%Z.ltb_ge]. lia.
Qed.

End engagement.
