(* ===== verification/MdlSession.v ===== *)
(** * ISO 18013-5 sessions (marty-iso18013, [session.rs] and [protocol.rs])

    Counter-based session encryption, the one-use key agreement, and the
    session state machine with its deadline.  An operation on [&self] takes the
    session and returns it with its result; every reading of the monotonic
    clock is an argument, in the order the code reads it.  Each operation is
    the composition of its critical sections, one definition per section; the
    last part of the file runs the sections of any number of callers in any
    order that the locks allow, so that nothing is atomic that the code does
    not do under one lock. *)

From stdpp Require Import pretty.
From S2P Require Import Prelude Des CryptoKit Engagement.
Local Open Scope Z_scope.

#[local] Abbreviation bytes := (list Z).
#[local] Abbreviation result := (res IsoError).

(** ** Session encryption *)

(** [src/marty-iso18013/src/session.rs:15-22] SessionDirection *)
Inductive SessionDirection := DirReader | DirDevice.

#[global] Instance SessionDirection_eq_dec : EqDecision SessionDirection.
Proof. solve_decision. Defined.

(** [src/marty-iso18013/src/session.rs:25-30] SessionDirection::peer *)
Definition peer (d : SessionDirection) : SessionDirection :=
  match d with DirDevice => DirReader | DirReader => DirDevice end.

(** [src/marty-iso18013/src/session.rs:32-34] SessionDirection::iv_marker *)
Definition iv_marker (d : SessionDirection) : Z :=
  match d with DirReader => 0 | DirDevice => 1 end.

(** [src/marty-iso18013/src/session.rs:38-54] SessionEncryption *)
Record SessionEncryption := mkEncryption {
  send_key : bytes;
  receive_key : bytes;
  send_counter : Z;
  receive_counter : Z;
  send_direction : SessionDirection;
  receive_direction : SessionDirection;
}.

(** [let mut iv = [0u8; 12]; iv[7] = marker; iv[8..] = counter]. *)
Definition session_iv (d : SessionDirection) (counter : Z) : bytes :=
  replicate 7 0 ++ [iv_marker d] ++ be32 counter.

Section session.
Context `{Aes} `{Sha2} `{Hkdf} `{P256} `{IsoMdl}.

(** [src/marty-iso18013/src/session.rs:83-102] SessionEncryption::new_directional *)
Definition new_directional (shared_secret session_transcript : bytes)
    (direction : SessionDirection) : result SessionEncryption :=
  '(device_key, reader_key) ← from_crypto (derive_mdl_session_keys shared_secret session_transcript);
  let '(send, receive) := match direction with
                          | DirDevice => (device_key, reader_key)
                          | DirReader => (reader_key, device_key)
                          end in
  Ok (mkEncryption send receive 0 0 direction (peer direction)).

(** [src/marty-iso18013/src/session.rs:105-121] SessionEncryption::encrypt *)
Definition encrypt (plaintext : bytes) (s : SessionEncryption) :
    SessionEncryption * result bytes :=
  match u32_checked_add (send_counter s) 1 with
  | None => (s, Err (Encryption "message counter exhausted"))
  | Some next_counter =>
      let iv := session_iv (send_direction s) next_counter in
      match from_crypto (aes_256_gcm_encrypt (send_key s) iv plaintext []) with
      | Ok ciphertext =>
          (mkEncryption (send_key s) (receive_key s) next_counter (receive_counter s)
             (send_direction s) (receive_direction s), Ok ciphertext)
      | e => (s, e)
      end
  end.

(** [src/marty-iso18013/src/session.rs:124-138] SessionEncryption::decrypt *)
Definition decrypt (ciphertext : bytes) (s : SessionEncryption) :
    SessionEncryption * result bytes :=
  match u32_checked_add (receive_counter s) 1 with
  | None => (s, Err (Decryption "message counter exhausted"))
  | Some next_counter =>
      let iv := session_iv (receive_direction s) next_counter in
      match from_crypto (aes_256_gcm_decrypt (receive_key s) iv ciphertext []) with
      | Ok plaintext =>
          (mkEncryption (send_key s) (receive_key s) (send_counter s) next_counter
             (send_direction s) (receive_direction s), Ok plaintext)
      | e => (s, e)
      end
  end.

(** ** Key agreement *)

(** [src/marty-iso18013/src/session.rs:152-161] SessionKeyAgreement *)
Record SessionKeyAgreement := mkAgreement {
  key_pair : option P256KeyPair;
  public_key : bytes;
  peer_public_key : option bytes;
}.

(** [src/marty-iso18013/src/session.rs:170-178] SessionKeyAgreement::from_key_pair *)
Definition from_key_pair (kp : P256KeyPair) : SessionKeyAgreement :=
  mkAgreement (Some kp) (public_key_uncompressed kp) None.

(** [src/marty-iso18013/src/session.rs:165-168] SessionKeyAgreement::new *)
Definition SessionKeyAgreement_new (random : P256SecretKey) : SessionKeyAgreement :=
  from_key_pair (P256KeyPair_generate random).

(** [src/marty-iso18013/src/session.rs:186-189] SessionKeyAgreement::clear_private_state *)
Definition clear_private_state (ka : SessionKeyAgreement) : SessionKeyAgreement :=
  mkAgreement None (public_key ka) None.

(** [src/marty-iso18013/src/session.rs:208-212] SessionKeyAgreement::validate_and_set_peer_key *)
Definition validate_and_set_peer_key (peer_key : bytes) (ka : SessionKeyAgreement) :
    SessionKeyAgreement * result unit :=
  match from_crypto (validate_p256_public_key peer_key) with
  | Ok _ => (mkAgreement (key_pair ka) (public_key ka) (Some peer_key), Ok tt)
  | e => (ka, e)
  end.

(** [src/marty-iso18013/src/session.rs:215-226] SessionKeyAgreement::derive_shared_secret *)
Definition derive_shared_secret (ka : SessionKeyAgreement) :
    SessionKeyAgreement * result bytes :=
  match peer_public_key ka with
  | None => (ka, Err (InvalidState "Peer public key not set"))
  | Some peer_key =>
      match key_pair ka with
      | None => (ka, Err (InvalidState "ECDH agreement already consumed"))
      | Some kp =>
          (mkAgreement None (public_key ka) (peer_public_key ka),
           from_crypto (P256KeyPair_agree kp peer_key))
      end
  end.

(** ** The session state machine *)

(** [src/marty-iso18013/src/protocol.rs:23-40] SessionState *)
Inductive SessionState :=
| StIdle | StEngagement | StEstablishing | StEstablished | StProcessing | StResponding
| StTerminated.

#[global] Instance SessionState_eq_dec : EqDecision SessionState.
Proof. solve_decision. Defined.

(** [src/marty-iso18013/src/protocol.rs:142-146] SessionRole *)
Inductive SessionRole := RoleDevice | RoleReader.

#[global] Instance SessionRole_eq_dec : EqDecision SessionRole.
Proof. solve_decision. Defined.

(** [src/marty-iso18013/src/protocol.rs:19-20] MAX_SESSION_MESSAGE_BYTES, MAX_SESSION_TIMEOUT_SECS *)
Definition MAX_SESSION_MESSAGE_BYTES : Z := 1024 * 1024.
Definition MAX_SESSION_TIMEOUT_SECS : Z := 60 * 60.

(** [src/marty-iso18013/src/protocol.rs:43-54] SessionConfig *)
Record SessionConfig := mkConfig {
  timeout_secs : Z;
  max_message_size : Z;
  verbose : bool;
}.

(** [src/marty-iso18013/src/protocol.rs:94-102] SessionConfig::default *)
Definition default_config : SessionConfig := mkConfig 300 (1024 * 1024) false.

(** [src/marty-iso18013/src/protocol.rs:104-117] SessionConfig::validate, validate_timeout *)
Definition config_validate (c : SessionConfig) : result unit :=
  ensure ((1 <=? timeout_secs c) && (timeout_secs c <=? MAX_SESSION_TIMEOUT_SECS))
    (InvalidRequest "Session timeout must be between 1 and 3600 seconds").

(** [src/marty-iso18013/src/protocol.rs:61-69] SessionConfig::py_new *)
Definition config_py_new (timeout size : Z) (v : bool) : result SessionConfig :=
  let c := mkConfig timeout (Z.min size MAX_SESSION_MESSAGE_BYTES) v in
  config_validate c;;
  Ok c.

(** [src/marty-iso18013/src/protocol.rs:77-81] SessionConfig::set_timeout_secs *)
Definition set_timeout_secs (value : Z) (c : SessionConfig) : SessionConfig * result unit :=
  match config_validate (mkConfig value (max_message_size c) (verbose c)) with
  | Ok _ => (mkConfig value (max_message_size c) (verbose c), Ok tt)
  | r => (c, r)
  end.

(** [src/marty-iso18013/src/protocol.rs:89-91] SessionConfig::set_max_message_size *)
Definition set_max_message_size (value : Z) (c : SessionConfig) : SessionConfig :=
  mkConfig (timeout_secs c) (Z.min value MAX_SESSION_MESSAGE_BYTES) (verbose c).

(** [src/marty-iso18013/src/protocol.rs:120-140] Session *)
Record Session := mkSession {
  state : SessionState;
  encryption : option SessionEncryption;
  key_agreement : SessionKeyAgreement;
  config : SessionConfig;
  deadline : Z;
  role : SessionRole;
  engagement_bytes : bytes;
  engagement_device_key : bytes;
}.

Definition set_state (st : SessionState) (s : Session) : Session :=
  mkSession st (encryption s) (key_agreement s) (config s) (deadline s) (role s)
    (engagement_bytes s) (engagement_device_key s).

Definition set_encryption (enc : option SessionEncryption) (s : Session) : Session :=
  mkSession (state s) enc (key_agreement s) (config s) (deadline s) (role s)
    (engagement_bytes s) (engagement_device_key s).

Definition set_agreement (ka : SessionKeyAgreement) (s : Session) : Session :=
  mkSession (state s) (encryption s) ka (config s) (deadline s) (role s)
    (engagement_bytes s) (engagement_device_key s).

Definition set_fields (st : SessionState) (enc : option SessionEncryption)
    (ka : SessionKeyAgreement) (s : Session) : Session :=
  mkSession st enc ka (config s) (deadline s) (role s) (engagement_bytes s)
    (engagement_device_key s).

(** [Instant::checked_add(Duration::from_secs(secs))]; the clock counts
    nanoseconds and the largest [Instant] is a parameter of the platform. *)
Definition instant_add_secs (instant_max now secs : Z) : option Z :=
  if now + secs * 10 ^ 9 <=? instant_max then Some (now + secs * 10 ^ 9) else None.

(** [src/marty-iso18013/src/protocol.rs:255-277] Session::new_for_role *)
Definition new_for_role (instant_max now : Z) (e : DeviceEngagement) (c : SessionConfig)
    (ka : SessionKeyAgreement) (r : SessionRole) : result Session :=
  config_validate c;;
  cbor ← to_cbor e;
  d ← ok_or (instant_add_secs instant_max now (timeout_secs c))
        (InvalidRequest "Session timeout is too large");
  Ok (mkSession StEngagement None ka c d r cbor (device_key e)).

(** [src/marty-iso18013/src/protocol.rs:226-239] Session::from_engagement *)
Definition from_engagement (instant_max now : Z) (e : DeviceEngagement) (c : SessionConfig)
    (store : KeyStore) : KeyStore * result Session :=
  match config_validate c with
  | Ok _ =>
      let '(store, key) := take_ephemeral_key_pair e store in
      (store,
       kp ← key;
       let ka := from_key_pair kp in
       ensure (bool_decide (public_key ka = device_key e))
         (InvalidEngagement "DeviceEngagement public key does not match its private key");;
       new_for_role instant_max now e c ka RoleDevice)
  | Err x => (store, Err x)
  | Panic => (store, Panic)
  end.

(** [src/marty-iso18013/src/protocol.rs:242-253] Session::reader_from_engagement *)
Definition reader_from_engagement (instant_max now : Z) (random : P256SecretKey)
    (e : DeviceEngagement) (c : SessionConfig) : result Session :=
  config_validate c;;
  new_for_role instant_max now e c (SessionKeyAgreement_new random) RoleReader.

(** [src/marty-iso18013/src/protocol.rs:430-435] Session::expire_session *)
(* Three writes, the last two under their own locks while the state lock is
   held. *)
Definition expire_session (s : Session) : Session :=
  let s := set_state StTerminated s in
  let s := set_encryption None s in
  set_agreement (clear_private_state (key_agreement s)) s.

(** [src/marty-iso18013/src/protocol.rs:414-420] Session::terminate *)
Definition terminate (s : Session) : Session :=
  let s := set_state StTerminated s in
  let s := set_encryption None s in
  set_agreement (clear_private_state (key_agreement s)) s.

(** What a critical section that reads the clock leaves its caller to do: return,
    or, the lock released, call [expire_session] and report the timeout. *)
Inductive Next (A : Type) := Return (r : result A) | Expire.
#[global] Arguments Return {A} r.
#[global] Arguments Expire {A}.

Definition finish {A} (o : Session * Next A) : Session * result A :=
  match o with
  | (s, Return r) => (s, r)
  | (s, Expire) => (expire_session s, Err Timeout)
  end.

(** [src/marty-iso18013/src/protocol.rs:422-428] Session::ensure_not_expired *)
Definition ensure_not_expired (now : Z) (s : Session) : Session * result unit :=
  if now <? deadline s then (s, Ok tt) else (expire_session s, Err Timeout).

(** [src/marty-iso18013/src/protocol.rs:280-283] Session::state *)
Definition Session_state (now : Z) (s : Session) : Session * SessionState :=
  let s := (ensure_not_expired now s).1 in (s, state s).

(** [src/marty-iso18013/src/protocol.rs:288-290] Session::public_key, reading the state *)
Definition public_key_state (s : Session) : result unit :=
  ensure (negb (bool_decide (state s = StTerminated))) (InvalidState "Session is terminated").

(** [src/marty-iso18013/src/protocol.rs:291-297] Session::public_key, under the agreement's lock *)
Definition public_key_locked (now : Z) (s : Session) : Next bytes :=
  if deadline s <=? now then Expire else Return (Ok (public_key (key_agreement s))).

(** [src/marty-iso18013/src/protocol.rs:286-298] Session::public_key *)
Definition Session_public_key (now1 now2 : Z) (s : Session) : Session * result bytes :=
  match ensure_not_expired now1 s with
  | (s, Ok _) =>
      match public_key_state s with
      | Ok _ => finish (s, public_key_locked now2 s)
      | Err e => (s, Err e)
      | Panic => (s, Panic)
      end
  | (s, Err e) => (s, Err e)
  | (s, Panic) => (s, Panic)
  end.

(** [src/marty-iso18013/src/protocol.rs:439-456] Session::build_session_transcript *)
Definition build_session_transcript (engagement reader_public_key : bytes) : result bytes :=
  tagged ← map_err InvalidEngagement (tag24_engagement_from_bytes engagement);
  cose ← cose_key_from_sec1 reader_public_key;
  reader_key ← map_err SessionEstablishment (tag24_cose_key cose);
  map_err SessionEstablishment (transcript_encode tagged reader_key).

(** The derivation in [establish], from the agreement with the peer key set to
    the encryption state: the private key is gone whatever the outcome. *)
Definition derive_encryption (peer_key : bytes) (s : Session) (ka : SessionKeyAgreement) :
    SessionKeyAgreement * result SessionEncryption :=
  let our_public_key := public_key ka in
  let '(ka, secret) := derive_shared_secret ka in
  (ka,
   shared_secret ← secret;
   let reader_public_key :=
     match role s with RoleDevice => peer_key | RoleReader => our_public_key end in
   transcript ← build_session_transcript (engagement_bytes s) reader_public_key;
   new_directional shared_secret transcript
     match role s with RoleDevice => DirDevice | RoleReader => DirReader end).

(** [src/marty-iso18013/src/protocol.rs:303-315] Session::establish, under the state lock *)
Definition establish_check (peer_key : bytes) (s : Session) : result unit :=
  ensure (bool_decide (state s = StEngagement))
    (InvalidState "Cannot establish from current state");;
  ensure (negb (bool_decide (role s = RoleReader)
                && negb (bool_decide (peer_key = engagement_device_key s))))
    (SessionEstablishment "peer key does not match DeviceEngagement EDeviceKey").

(** [src/marty-iso18013/src/protocol.rs:318-341] Session::establish, under the agreement's lock too *)
(* The encryption state to store, or, past the deadline, none, with the
   agreement cleared and the state terminated. *)
Definition establish_derive (now : Z) (peer_key : bytes) (s : Session) :
    Session * result (option SessionEncryption) :=
  match validate_and_set_peer_key peer_key (key_agreement s) with
  | (ka, Ok _) =>
      let '(ka, r) := derive_encryption peer_key s ka in
      match r with
      | Ok enc =>
          if deadline s <=? now
          then (set_state StTerminated (set_agreement (clear_private_state ka) s), Ok None)
          else (set_agreement ka s, Ok (Some enc))
      | Err e => (set_agreement ka s, Err e)
      | Panic => (set_agreement ka s, Panic)
      end
  | (ka, Err e) => (set_agreement ka s, Err e)
  | (ka, Panic) => (set_agreement ka s, Panic)
  end.

(** [src/marty-iso18013/src/protocol.rs:342-349] Session::establish, under the encryption lock *)
Definition establish_store (enc : option SessionEncryption) (s : Session) :
    Session * result unit :=
  match enc with
  | Some enc => (set_state StEstablished (set_encryption (Some enc) s), Ok tt)
  | None => (set_encryption None s, Err Timeout)
  end.

(** [src/marty-iso18013/src/protocol.rs:301-350] Session::establish *)
Definition Session_establish (now1 now2 : Z) (peer_key : bytes) (s : Session) :
    Session * result unit :=
  match ensure_not_expired now1 s with
  | (s, Ok _) =>
      match establish_check peer_key s with
      | Ok _ =>
          match establish_derive now2 peer_key s with
          | (s, Ok enc) => establish_store enc s
          | (s, Err e) => (s, Err e)
          | (s, Panic) => (s, Panic)
          end
      | Err e => (s, Err e)
      | Panic => (s, Panic)
      end
  | (s, Err e) => (s, Err e)
  | (s, Panic) => (s, Panic)
  end.

Definition maximum_message_size (s : Session) : Z :=
  Z.min (max_message_size (config s)) MAX_SESSION_MESSAGE_BYTES.

(** [src/marty-iso18013/src/protocol.rs:355-366] Session::send_encrypted, reading the state *)
Definition send_state (message : bytes) (s : Session) : result unit :=
  ensure (bool_decide (state s = StEstablished))
    (InvalidState "Cannot send outside an established session");;
  ensure (negb (maximum_message_size s <? zlen message))
    (InvalidRequest
       ("Message exceeds " +:+ pretty (maximum_message_size s) +:+ " byte session limit")).

(** [src/marty-iso18013/src/protocol.rs:367-378] Session::send_encrypted, under the encryption lock *)
Definition send_locked (now : Z) (message : bytes) (s : Session) : Session * Next bytes :=
  if deadline s <=? now then (set_encryption None s, Expire)
  else match encryption s with
       | None => (s, Return (Err (InvalidState "Session not established")))
       | Some enc =>
           let '(enc, r) := encrypt message enc in (set_encryption (Some enc) s, Return r)
       end.

(** [src/marty-iso18013/src/protocol.rs:353-379] Session::send_encrypted *)
Definition send_encrypted (now1 now2 : Z) (message : bytes) (s : Session) :
    Session * result bytes :=
  match ensure_not_expired now1 s with
  | (s, Ok _) =>
      match send_state message s with
      | Ok _ => finish (send_locked now2 message s)
      | Err e => (s, Err e)
      | Panic => (s, Panic)
      end
  | (s, Err e) => (s, Err e)
  | (s, Panic) => (s, Panic)
  end.

(** [src/marty-iso18013/src/protocol.rs:384-398] Session::receive_encrypted, reading the state *)
Definition receive_state (ciphertext : bytes) (s : Session) : result unit :=
  ensure (bool_decide (state s = StEstablished))
    (InvalidState "Cannot receive outside an established session");;
  let maximum := saturating_add (maximum_message_size s) 16 in
  ensure (negb (maximum <? zlen ciphertext))
    (InvalidResponse
       ("Encrypted message exceeds " +:+ pretty maximum +:+ " byte session limit")).

(** [src/marty-iso18013/src/protocol.rs:399-410] Session::receive_encrypted, under the encryption lock *)
Definition receive_locked (now : Z) (ciphertext : bytes) (s : Session) : Session * Next bytes :=
  if deadline s <=? now then (set_encryption None s, Expire)
  else match encryption s with
       | None => (s, Return (Err (InvalidState "Session not established")))
       | Some enc =>
           let '(enc, r) := decrypt ciphertext enc in (set_encryption (Some enc) s, Return r)
       end.

(** [src/marty-iso18013/src/protocol.rs:382-411] Session::receive_encrypted *)
Definition receive_encrypted (now1 now2 : Z) (ciphertext : bytes) (s : Session) :
    Session * result bytes :=
  match ensure_not_expired now1 s with
  | (s, Ok _) =>
      match receive_state ciphertext s with
      | Ok _ => finish (receive_locked now2 ciphertext s)
      | Err e => (s, Err e)
      | Panic => (s, Panic)
      end
  | (s, Err e) => (s, Err e)
  | (s, Panic) => (s, Panic)
  end.

(** ** Concurrent callers

    The locks are [tokio::sync::RwLock]s.  A caller is where its call has got
    to; a turn takes it from one lock acquisition to the next, and is possible
    when no other caller holds the lock.  The encryption lock is never held
    from one acquisition to another, the state lock is while [establish],
    [terminate] and [expire_session] run, and the agreement's lock while
    [establish] stores its result.  A caller may stop for ever at any point,
    keeping its locks; a call that is dropped half way is not modelled. *)

(** [src/marty-iso18013/src/protocol.rs:279-420] Session, its public methods *)
Inductive Call :=
| CallState
| CallPublicKey
| CallEstablish (peer_key : bytes)
| CallSend (message : bytes)
| CallReceive (ciphertext : bytes)
| CallTerminate.

(** The points between two acquisitions, named by what comes next. *)
Inductive Point :=
| AtStart (c : Call)
| AtStateRead
| AtKeyState
| AtKeyRead
| AtEstablishState (peer_key : bytes)
| AtEstablishAgreement (peer_key : bytes)
| AtEstablishEncryption (enc : option SessionEncryption)
| AtSendState (message : bytes)
| AtSendEncryption (message : bytes)
| AtReceiveState (ciphertext : bytes)
| AtReceiveEncryption (ciphertext : bytes)
| AtClearState (c : Call)
| AtClearEncryption (c : Call)
| AtClearAgreement (c : Call).

Inductive Reply :=
| ReplyState (st : SessionState)
| ReplyKey (r : result bytes)
| ReplyUnit (r : result unit)
| ReplySent (message : bytes) (r : result bytes)
| ReplyReceived (r : result bytes).

Definition holds_state (p : Point) : bool :=
  match p with
  | AtEstablishAgreement _ | AtEstablishEncryption _ | AtClearEncryption _ | AtClearAgreement _ => true
  | _ => false
  end.

Definition wants_state (p : Point) : bool :=
  match p with
  | AtStateRead | AtKeyState | AtEstablishState _ | AtSendState _ | AtReceiveState _
  | AtClearState _ => true
  | _ => false
  end.

Definition holds_agreement (p : Point) : bool :=
  match p with AtEstablishEncryption (Some _) => true | _ => false end.

Definition wants_agreement (p : Point) : bool :=
  match p with AtKeyRead | AtEstablishAgreement _ | AtClearAgreement _ => true | _ => false end.

(** After the expiry check. *)
Definition checked (c : Call) : Point :=
  match c with
  | CallState => AtStateRead
  | CallPublicKey => AtKeyState
  | CallEstablish k => AtEstablishState k
  | CallSend m => AtSendState m
  | CallReceive ct => AtReceiveState ct
  | CallTerminate => AtClearState CallTerminate
  end.

(** After [expire_session], or after the body of [terminate]. *)
Definition cleared (c : Call) : Point + Reply :=
  match c with
  | CallState => inl AtStateRead
  | CallPublicKey => inr (ReplyKey (Err Timeout))
  | CallEstablish _ => inr (ReplyUnit (Err Timeout))
  | CallSend m => inr (ReplySent m (Err Timeout))
  | CallReceive _ => inr (ReplyReceived (Err Timeout))
  | CallTerminate => inr (ReplyUnit (Ok tt))
  end.

(** Goes on after a check that succeeded, or returns its error. *)
Definition go_on {A B} (r : result A) (next : A -> Point) (reply : result B -> Reply) :
    Point + Reply :=
  match r with
  | Ok x => inl (next x)
  | Err e => inr (reply (Err e))
  | Panic => inr (reply Panic)
  end.

Definition return_or_expire {A} (c : Call) (reply : result A -> Reply) (n : Next A) : Point + Reply :=
  match n with Return r => inr (reply r) | Expire => inl (AtClearState c) end.

(** [src/marty-iso18013/src/protocol.rs:279-435] Session, one turn of a caller *)
Definition turn (now : Z) (p : Point) (s : Session) : Session * (Point + Reply) :=
  match p with
  | AtStart CallTerminate => (s, inl (AtClearState CallTerminate))
  | AtStart c => (s, inl (if now <? deadline s then checked c else AtClearState c))
  | AtStateRead => (s, inr (ReplyState (state s)))
  | AtKeyState => (s, go_on (public_key_state s) (const AtKeyRead) ReplyKey)
  | AtKeyRead => (s, return_or_expire CallPublicKey ReplyKey (public_key_locked now s))
  | AtEstablishState k => (s, go_on (establish_check k s) (const (AtEstablishAgreement k)) ReplyUnit)
  | AtEstablishAgreement k =>
      let '(s, r) := establish_derive now k s in
      (s, go_on r AtEstablishEncryption ReplyUnit)
  | AtEstablishEncryption enc => let '(s, r) := establish_store enc s in (s, inr (ReplyUnit r))
  | AtSendState m =>
      (s, go_on (send_state m s) (const (AtSendEncryption m)) (ReplySent m))
  | AtSendEncryption m =>
      let '(s, n) := send_locked now m s in (s, return_or_expire (CallSend m) (ReplySent m) n)
  | AtReceiveState c =>
      (s, go_on (receive_state c s) (const (AtReceiveEncryption c)) ReplyReceived)
  | AtReceiveEncryption c =>
      let '(s, n) := receive_locked now c s in (s, return_or_expire (CallReceive c) ReplyReceived n)
  | AtClearState c => (set_state StTerminated s, inl (AtClearEncryption c))
  | AtClearEncryption c => (set_encryption None s, inl (AtClearAgreement c))
  | AtClearAgreement c =>
      (set_agreement (clear_private_state (key_agreement s)) s, cleared c)
  end.

(** [src/marty-iso18013/src/protocol.rs:120-140] Session, shared by its callers *)
Record SharedSession := mkShared { shared : Session; callers : gmap nat Point }.

Inductive SharedOp := Begin (caller : nat) (c : Call) | Turn (caller : nat) (now : Z).

Definition lock_free (holds : Point -> bool) (p : SharedSession) : bool :=
  bool_decide (map_Forall (fun _ pt => holds pt = false) (callers p)).

Definition can_turn (pt : Point) (p : SharedSession) : bool :=
  (negb (wants_state pt) || lock_free holds_state p)
  && (negb (wants_agreement pt) || lock_free holds_agreement p).

Definition shared_step (p : SharedSession) (o : SharedOp) : SharedSession * option Reply :=
  match o with
  | Begin i c =>
      match callers p !! i with
      | None => (mkShared (shared p) (<[i := AtStart c]> (callers p)), None)
      | Some _ => (p, None)
      end
  | Turn i now =>
      match callers p !! i with
      | Some pt =>
          if can_turn pt p then
            match turn now pt (shared p) with
            | (s, inl pt) => (mkShared s (<[i := pt]> (callers p)), None)
            | (s, inr r) => (mkShared s (delete i (callers p)), Some r)
            end
          else (p, None)
      | None => (p, None)
      end
  end.

End session.
