(* ===== verification/MdlSessionFacts.v ===== *)
(** * ISO 18013-5 sessions: theorems

    The invariant of a session shared by any number of callers under every
    interleaving of their critical sections, the absence of deadlock, the
    initialization vectors of the messages really sent, the operations as runs
    of a single caller, timeouts, and the one-use key. *)

From S2P Require Import Prelude Des CryptoKit CryptoKitFacts Engagement EngagementFacts MdlSession.
Local Open Scope Z_scope.

#[local] Abbreviation bytes := (list Z).

(** ** Session encryption *)

Lemma session_iv_length d c : zlen (session_iv d c) = 12.
Proof. by destruct d. Qed.

Lemma session_iv_inj d d' c c' : 0 <= c <= u32_max -> 0 <= c' <= u32_max ->
  session_iv d c = session_iv d' c' -> d = d' /\ c = c'.
Proof.
  unfold session_iv. intros Hc Hc' Heq. apply app_inv_head in Heq.
  injection Heq as Hd H1 H2 H3 H4. split; [by destruct d, d'|].
  apply be32_inj; unfold u32_max in *; [lia..|]. unfold be32. congruence.
Qed.

(** A state in which both counters are in range and the two directions differ,
    as [new_directional] makes it and every operation keeps it. *)
Record encryption_ok (s : SessionEncryption) : Prop := {
  ok_send_key : zlen (send_key s) = 32;
  ok_receive_key : zlen (receive_key s) = 32;
  ok_send_counter : 0 <= send_counter s <= u32_max;
  ok_receive_counter : 0 <= receive_counter s <= u32_max;
  ok_directions : receive_direction s = peer (send_direction s);
}.

Section encryption.
Context `{AesLaws} `{Sha2Laws} `{HkdfLaws}.

Lemma new_directional_Ok secret transcript d :
  exists s, new_directional secret transcript d = Ok s /\ encryption_ok s /\
    send_counter s = 0 /\ receive_counter s = 0 /\ send_direction s = d.
Proof.
  destruct (derive_mdl_session_keys_total secret transcript) as (dk & rk & Hk & Hd & Hr).
  unfold new_directional, from_crypto. rewrite Hk. cbn.
  destruct d; (eexists; split; [done|]; split; [split; cbn; unfold u32_max; lia || done|done]).
Qed.

(** Encryption in full: the counter is exhausted, the message is refused by the
    cipher, or the message is sealed under the next initialization vector. *)
Lemma encrypt_cases p s : encryption_ok s ->
  match encrypt p s with
  | (s', Ok c) =>
      send_counter s < u32_max /\
      aes_256_gcm_encrypt (send_key s) (session_iv (send_direction s) (send_counter s + 1)) p []
        = Ok c /\
      s' = mkEncryption (send_key s) (receive_key s) (send_counter s + 1) (receive_counter s)
             (send_direction s) (receive_direction s)
  | (s', Err e) =>
      s' = s /\ (send_counter s = u32_max /\ e = Encryption "message counter exhausted" \/
                 send_counter s < u32_max /\ gcm_max_plaintext < zlen p)
  | (_, Panic) => False
  end.
Proof.
  intros [Hk _ Hc _ _]. unfold encrypt, u32_checked_add.
  destruct (Z.leb_spec (send_counter s + 1) u32_max); [|split; [done|left; split; [lia|done]]].
  destruct (Z.le_gt_cases (zlen p) gcm_max_plaintext) as [Hp|Hp].
  - destruct (aes_256_gcm_encrypt_total (send_key s)
      (session_iv (send_direction s) (send_counter s + 1)) [] p Hk (session_iv_length _ _) Hp)
      as (c & Hc' & _).
    rewrite Hc'. cbn. split_and!; try done. lia.
  - destruct (aes_256_gcm_encrypt _ _ _ _) as [c|e|] eqn:He; cbn.
    + split_and!; try done. lia.
    + split; [done|]. right. lia.
    + by unfold aes_256_gcm_encrypt, aes_gcm_encrypt, aes_key, gcm_nonce, ensure, ok_or in He;
        repeat case_match.
Qed.

Lemma decrypt_cases c s : encryption_ok s ->
  match decrypt c s with
  | (s', Ok p) =>
      receive_counter s < u32_max /\
      aes_256_gcm_encrypt (receive_key s)
        (session_iv (receive_direction s) (receive_counter s + 1)) p [] = Ok c /\
      s' = mkEncryption (send_key s) (receive_key s) (send_counter s) (receive_counter s + 1)
             (send_direction s) (receive_direction s)
  | (s', Err e) => s' = s
  | (_, Panic) => False
  end.
Proof.
  intros [_ Hk _ Hc _]. unfold decrypt, u32_checked_add.
  destruct (Z.leb_spec (receive_counter s + 1) u32_max); [|done].
  destruct (aes_256_gcm_decrypt _ _ _ _) as [p|e|] eqn:He; cbn.
  - apply aes_256_gcm_open_iff in He. split_and!; try done. lia.
  - done.
  - by unfold aes_256_gcm_decrypt, aes_gcm_decrypt, aes_key, gcm_nonce, ensure, ok_or in He;
      repeat case_match.
Qed.

Lemma encrypt_ok p s : encryption_ok s -> encryption_ok (encrypt p s).1.
Proof.
  intros Hs. pose proof (encrypt_cases p s Hs) as He. destruct (encrypt p s) as [s' [c|e|]];
    [destruct He as (? & _ & ->)|by destruct He as [-> _]|done].
  destruct Hs. split; cbn; lia || done.
Qed.

Lemma decrypt_ok c s : encryption_ok s -> encryption_ok (decrypt c s).1.
Proof.
  intros Hs. pose proof (decrypt_cases c s Hs) as He. destruct (decrypt c s) as [s' [p|e|]];
    [destruct He as (? & _ & ->)|by subst|done].
  destruct Hs. split; cbn; lia || done.
Qed.

End encryption.

(** ** The state machine under every interleaving *)

Definition direction_of (r : SessionRole) : SessionDirection :=
  match r with RoleDevice => DirDevice | RoleReader => DirReader end.

(** The messages sealed one after the other under [k] from counter [n] on, and
    their ciphertexts. *)
Inductive sealed `{Aes} (k : bytes) (d : SessionDirection) : Z -> list bytes -> list bytes -> Prop :=
| sealed_nil n : sealed k d n [] []
| sealed_cons n m ms ct cts :
    aes_256_gcm_encrypt k (session_iv d (n + 1)) m [] = Ok ct ->
    sealed k d (n + 1) ms cts -> sealed k d n (m :: ms) (ct :: cts).

Section sessions.
Context `{AesLaws} `{Sha2Laws} `{HkdfLaws} `{P256Laws} `{IsoMdlLaws}.

(** Terminated, with every secret gone. *)
Definition closed (s : Session) : Prop :=
  state s = StTerminated /\ encryption s = None /\
  key_pair (key_agreement s) = None /\ peer_public_key (key_agreement s) = None.

(** Encryption keys that belong to the session's role, to a consumed private
    key and, for a reader, to the engagement's key. *)
Definition keys_ok (s : Session) (enc : SessionEncryption) : Prop :=
  encryption_ok enc /\ send_direction enc = direction_of (role s) /\
  key_pair (key_agreement s) = None /\
  (role s = RoleReader -> peer_public_key (key_agreement s) = Some (engagement_device_key s)).

(** A caller that will terminate the session as soon as it gets the state lock. *)
Definition clearing (cs : gmap nat Point) : Prop := exists i c, cs !! i = Some (AtClearState c).

(** The session while nobody holds its state lock: keys exist only while it is
    established, it is established without keys only while a caller is about to
    terminate it, and a terminated session retains no secret. *)
Definition free_ok (s : Session) (cs : gmap nat Point) : Prop :=
  match state s with
  | StEngagement => encryption s = None
  | StEstablished =>
      match encryption s with Some enc => keys_ok s enc | None => clearing cs end
  | StTerminated => closed s
  | _ => False
  end.

(** The session while a caller at the given point holds the state lock. *)
Definition held_ok (pt : Point) (s : Session) : Prop :=
  match pt with
  | AtEstablishAgreement k =>
      state s = StEngagement /\ encryption s = None /\
      (role s = RoleReader -> k = engagement_device_key s)
  | AtEstablishEncryption (Some enc) =>
      state s = StEngagement /\ encryption s = None /\ keys_ok s enc /\ send_counter enc = 0
  | AtEstablishEncryption None => closed s
  | AtClearEncryption _ =>
      state s = StTerminated /\ forall enc, encryption s = Some enc -> keys_ok s enc
  | AtClearAgreement _ => state s = StTerminated /\ encryption s = None
  | _ => True
  end.

(** The invariant of a shared session. *)
Record shared_ok (p : SharedSession) : Prop := {
  ok_exclusive : forall i j pt pt', callers p !! i = Some pt -> callers p !! j = Some pt' ->
    holds_state pt = true -> holds_state pt' = true -> i = j;
  ok_held : forall i pt, callers p !! i = Some pt -> holds_state pt = true ->
    held_ok pt (shared p);
  ok_free : (forall i pt, callers p !! i = Some pt -> holds_state pt = false) ->
    free_ok (shared p) (callers p);
}.

Lemma ensure_not_expired_cases now s :
  ensure_not_expired now s = (s, Ok tt) /\ now < deadline s \/
  ensure_not_expired now s = (expire_session s, Err Timeout) /\ deadline s <= now.
Proof. unfold ensure_not_expired. destruct (Z.ltb_spec now (deadline s)); auto. Qed.

(** Establishing: the outcome of [derive_encryption] on an agreement whose peer
    key is set. *)
Lemma derive_encryption_cases pk s ka ka' r :
  peer_public_key ka = Some pk -> derive_encryption pk s ka = (ka', r) ->
  key_pair ka' = None /\ peer_public_key ka' = Some pk /\ public_key ka' = public_key ka /\
  forall enc, r = Ok enc -> encryption_ok enc /\ send_direction enc = direction_of (role s) /\
    send_counter enc = 0 /\ receive_counter enc = 0.
Proof.
  intros Hpk. unfold derive_encryption, derive_shared_secret. rewrite Hpk.
  destruct (key_pair ka) as [kp|] eqn:Hkp; intros [= <- <-].
  - split_and!; try done. intros enc Henc. res_inv.
    match goal with H : new_directional ?z ?t ?d = Ok _ |- _ =>
      destruct (new_directional_Ok z t d) as (e & He & Hok & Hc1 & Hc2 & Hd); rewrite He in H end.
    simplify_eq. by split_and!.
  - by split_and!.
Qed.

Lemma validate_and_set_peer_key_cases pk ka :
  validate_and_set_peer_key pk ka = (mkAgreement (key_pair ka) (public_key ka) (Some pk), Ok tt) /\
    validate_p256_public_key pk = Ok tt \/
  exists e, validate_and_set_peer_key pk ka = (ka, Err e).
Proof.
  unfold validate_and_set_peer_key, validate_p256_public_key.
  destruct (p256_from_sec1 pk); cbn; eauto.
Qed.

(** ** Invariance *)

Lemma expire_closed s : closed (expire_session s).
Proof. by split_and!. Qed.

Lemma terminate_closed s : closed (terminate s).
Proof. by split_and!. Qed.

(** The effect of a section under the encryption lock: it drops the keys and
    leaves its caller to terminate the session, or it keeps or advances them. *)
Definition encryption_section {A} (s : Session) (o : Session * Next A) : Prop :=
  match o with
  | (s', Expire) => s' = set_encryption None s
  | (s', Return _) =>
      s' = s \/ exists enc enc', encryption s = Some enc /\ s' = set_encryption (Some enc') s /\
                  (keys_ok s enc -> keys_ok s enc')
  end.

Lemma send_locked_section now m s : encryption_section s (send_locked now m s).
Proof.
  unfold send_locked. case_match; [done|]. destruct (encryption s) as [enc|] eqn:He; [|by left].
  destruct (encrypt m enc) as [enc' r] eqn:Henc. right. exists enc, enc'. split_and!; try done.
  intros (Hok & Hd & Hk & Hr). pose proof (encrypt_ok m enc Hok) as Hok'.
  pose proof (encrypt_cases m enc Hok) as Hcase. rewrite Henc in Hok', Hcase. split_and!; try done.
  destruct r; [destruct Hcase as (_ & _ & ->)|destruct Hcase as [-> _]|]; done.
Qed.

Lemma receive_locked_section now c s : encryption_section s (receive_locked now c s).
Proof.
  unfold receive_locked. case_match; [done|]. destruct (encryption s) as [enc|] eqn:He; [|by left].
  destruct (decrypt c enc) as [enc' r] eqn:Henc. right. exists enc, enc'. split_and!; try done.
  intros (Hok & Hd & Hk & Hr). pose proof (decrypt_ok c enc Hok) as Hok'.
  pose proof (decrypt_cases c enc Hok) as Hcase. rewrite Henc in Hok', Hcase. split_and!; try done.
  destruct r; [destruct Hcase as (_ & _ & ->)|subst|]; done.
Qed.

(** Whoever holds the state lock is not disturbed by such a section ... *)
Lemma encryption_section_held {A} s (o : Session * Next A) pt :
  encryption_section s o -> held_ok pt s -> held_ok pt o.1.
Proof.
  destruct o as [s' [r|]]; cbn [encryption_section fst].
  - intros [->|(enc & enc' & He & -> & Hk)]; [done|].
    destruct pt as [| | | | | |[e|]| | | | | | |]; cbn; try done.
    + intros (_ & ? & _). congruence.
    + intros (_ & ? & _). congruence.
    + intros (_ & ? & _). congruence.
    + intros [Hst Henc]. split; [done|]. intros e [= <-]. by apply Hk, Henc.
    + intros [_ ?]. congruence.
  - intros ->. destruct pt as [| | | | | |[e|]| | | | | | |]; cbn; try naive_solver.
    unfold closed. naive_solver.
Qed.

Definition with_next (cs : gmap nat Point) (i : nat) (nx : option Point) : gmap nat Point :=
  partial_alter (const nx) i cs.

Lemma clearing_next cs i pt nx : clearing cs -> cs !! i = Some pt ->
  (forall c, pt <> AtClearState c) -> clearing (with_next cs i nx).
Proof.
  intros (j & c & Hj) Hi Hne. exists j, c. unfold with_next.
  rewrite lookup_partial_alter_ne; [done|]. intros <-. naive_solver.
Qed.

Lemma clearing_at cs i c : clearing (with_next cs i (Some (AtClearState c))).
Proof. exists i, c. apply lookup_partial_alter_eq. Qed.

Lemma free_ok_callers s cs i pt nx : free_ok s cs -> cs !! i = Some pt ->
  (forall c, pt <> AtClearState c) -> free_ok s (with_next cs i nx).
Proof. unfold free_ok. repeat case_match; eauto using clearing_next. Qed.

(** ... and neither is the session while nobody does. *)
Lemma encryption_section_free {A} s (o : Session * Next A) cs i pt c :
  encryption_section s o -> cs !! i = Some pt -> (forall c, pt <> AtClearState c) ->
  free_ok s cs ->
  free_ok o.1 (with_next cs i match o.2 with Expire => Some (AtClearState c) | _ => None end).
Proof.
  destruct o as [s' [r|]]; cbn [encryption_section fst snd]; intros Hsec Hi Hne Hf.
  - destruct Hsec as [->|(enc & enc' & He & -> & Hk)]; [by eapply free_ok_callers|].
    unfold free_ok, closed in *. cbn. rewrite He in Hf. destruct (state s); naive_solver.
  - subst s'. unfold free_ok, closed in *. cbn. destruct (state s); try done.
    + apply clearing_at.
    + naive_solver.
Qed.

(** How the invariant is restored after a turn of caller [i] that leaves the
    session at [s'] and the caller at [nx] (none when it has returned). *)
Lemma shared_ok_next p i pt s' nx : shared_ok p -> callers p !! i = Some pt ->
  match nx with
  | Some pt' => if holds_state pt'
                then (holds_state pt = true \/ lock_free holds_state p = true) /\ held_ok pt' s'
                else True
  | None => True
  end ->
  (from_option holds_state false nx = false ->
   (holds_state pt = false -> forall j ptj, callers p !! j = Some ptj -> holds_state ptj = true ->
      held_ok ptj s') /\
   ((holds_state pt = false -> free_ok (shared p) (callers p)) ->
      free_ok s' (with_next (callers p) i nx))) ->
  shared_ok (mkShared s' (with_next (callers p) i nx)).
Proof.
  intros [Hex Hheld Hfree] Hi Hnext Hother.
  assert (Hlook : forall j ptj, with_next (callers p) i nx !! j = Some ptj ->
    j = i /\ nx = Some ptj \/ j <> i /\ callers p !! j = Some ptj).
  { intros j ptj. unfold with_next. destruct (decide (i = j)) as [<-|Hne].
    - rewrite lookup_partial_alter_eq. auto.
    - rewrite lookup_partial_alter_ne by done. auto. }
  assert (Hnot : forall ptn j ptj, nx = Some ptn -> holds_state ptn = true -> j <> i ->
    callers p !! j = Some ptj -> holds_state ptj = false).
  { intros ptn j ptj -> Hn Hj Hc. rewrite Hn in Hnext. destruct Hnext as [[Hp|Hl] _].
    - destruct (holds_state ptj) eqn:Hptj; [|done]. destruct Hj. by eapply Hex.
    - apply bool_decide_eq_true in Hl. by apply (Hl j). }
  split; cbn [shared callers].
  - intros j k ptj ptk Hj Hk Hhj Hhk.
    destruct (Hlook _ _ Hj) as [[-> Hnj]|[Hji Hcj]], (Hlook _ _ Hk) as [[-> Hnk]|[Hki Hck]].
    + done.
    + rewrite (Hnot ptj k ptk) in Hhk; done.
    + rewrite (Hnot ptk j ptj) in Hhj; done.
    + by eapply Hex.
  - intros j ptj Hj Hhj. destruct (Hlook _ _ Hj) as [[-> ->]|[Hji Hcj]].
    + rewrite Hhj in Hnext. apply Hnext.
    + destruct (from_option holds_state false nx) eqn:Hnx.
      * destruct nx as [ptn|]; [|done]. rewrite (Hnot ptn j ptj) in Hhj; done.
      * destruct (Hother eq_refl) as [Hh _].
        destruct (holds_state pt) eqn:Hpt; [by destruct Hji; eapply Hex|]. by eapply Hh.
  - intros Hnone. destruct (from_option holds_state false nx) eqn:Hnx.
    { destruct nx as [ptn|]; [|done]. exfalso. cbn in Hnx.
      rewrite (Hnone i ptn) in Hnx; [done|]. unfold with_next. apply lookup_partial_alter_eq. }
    destruct (Hother eq_refl) as [_ Hf]. apply Hf. intros Hpt. apply Hfree. intros j ptj Hj.
    destruct (decide (j = i)) as [->|Hji]; [congruence|]. apply (Hnone j). unfold with_next.
    by rewrite lookup_partial_alter_ne.
Qed.

(** A turn that only reads. *)
Lemma shared_ok_reads p i pt nx : shared_ok p -> callers p !! i = Some pt ->
  holds_state pt = false -> (forall c, pt <> AtClearState c) ->
  from_option holds_state false nx = false ->
  shared_ok (mkShared (shared p) (with_next (callers p) i nx)).
Proof.
  intros Hp Hi Hpt Hne Hnx. apply (shared_ok_next p i pt); try done.
  - destruct nx as [pt'|]; [|done]. cbn in Hnx. by rewrite Hnx.
  - intros _. split; [intros _; apply (ok_held _ Hp)|]. intros Hf.
    eapply free_ok_callers; eauto.
Qed.

(** A turn under the encryption lock. *)
Lemma shared_ok_encryption {A} p i pt c (o : Session * Next A) : shared_ok p ->
  callers p !! i = Some pt -> holds_state pt = false -> (forall c, pt <> AtClearState c) ->
  encryption_section (shared p) o ->
  shared_ok (mkShared o.1 (with_next (callers p) i
    match o.2 with Expire => Some (AtClearState c) | _ => None end)).
Proof.
  intros Hp Hi Hpt Hne Hsec. apply (shared_ok_next p i pt); try done.
  - by destruct (o.2).
  - intros _. split.
    + intros _ j ptj Hj Hh. eapply encryption_section_held; [done|]. by apply (ok_held _ Hp j).
    + intros Hf. eapply encryption_section_free; eauto.
Qed.

(** A turn of a caller that has or gets the state lock. *)
Lemma shared_ok_holder p i pt s' nx : shared_ok p -> callers p !! i = Some pt ->
  (holds_state pt = true \/ lock_free holds_state p = true) ->
  match nx with
  | Some pt' => if holds_state pt' then held_ok pt' s'
                else free_ok s' (with_next (callers p) i nx)
  | None => free_ok s' (with_next (callers p) i nx)
  end ->
  shared_ok (mkShared s' (with_next (callers p) i nx)).
Proof.
  intros Hp Hi Hlock Hnext. apply (shared_ok_next p i pt); try done.
  - destruct nx as [pt'|]; [|done]. by destruct (holds_state pt').
  - intros Hnx. split.
    + intros Hpt j ptj Hj Hh. destruct Hlock as [|Hl]; [congruence|].
      apply bool_decide_eq_true in Hl. specialize (Hl j ptj Hj). cbn in Hl. congruence.
    + intros _. destruct nx as [pt'|]; [|done]. cbn in Hnx. by rewrite Hnx in Hnext.
Qed.

Lemma establish_derive_ok now k s : held_ok (AtEstablishAgreement k) s ->
  let '(s', r) := establish_derive now k s in
  match r with
  | Ok enc => held_ok (AtEstablishEncryption enc) s'
  | _ => state s' = StEngagement /\ encryption s' = None
  end.
Proof.
  intros (Hst & He & Hk). unfold establish_derive.
  destruct (validate_and_set_peer_key_cases k (key_agreement s)) as [[-> _]|[e ->]]; [|done].
  destruct (derive_encryption k s _) as [ka r] eqn:Hd.
  apply derive_encryption_cases in Hd as (Hkp & Hpk & _ & Henc); [|done].
  destruct r as [enc|e|]; [|done..]. destruct (Henc enc eq_refl) as (Hok & Hdir & Hc & _).
  destruct (deadline s <=? now); [by split_and!|]. cbn. unfold keys_ok. cbn. split_and!; try done.
  intros Hr. rewrite Hpk. by rewrite (Hk Hr).
Qed.

Lemma establish_check_Ok k s : establish_check k s = Ok tt ->
  state s = StEngagement /\ (role s = RoleReader -> k = engagement_device_key s).
Proof.
  unfold establish_check. intros Hc. apply bind_Ok in Hc as ([] & Hst%ensure_Ok & Hk%ensure_Ok).
  apply bool_decide_eq_true in Hst. split; [done|]. intros Hr.
  rewrite (bool_decide_true _ Hr) in Hk. cbn in Hk. rewrite negb_involutive in Hk.
  by apply bool_decide_eq_true in Hk.
Qed.

Lemma lock_free_holds p i pt : lock_free holds_state p = true -> callers p !! i = Some pt ->
  holds_state pt = false.
Proof. intros Hl%bool_decide_eq_true Hi. by apply (Hl i). Qed.

Lemma free_ok_lock p : shared_ok p -> lock_free holds_state p = true ->
  free_ok (shared p) (callers p).
Proof. intros Hp Hl. apply (ok_free _ Hp). intros i pt. by apply lock_free_holds. Qed.

(** [terminate] and [expire_session], from the moment they get the state lock. *)
Lemma clear_turn_ok p i pt c now s' k : shared_ok p -> callers p !! i = Some pt ->
  can_turn pt p = true ->
  pt = AtClearState c \/ pt = AtClearEncryption c \/ pt = AtClearAgreement c ->
  turn now pt (shared p) = (s', k) ->
  shared_ok (mkShared s' (with_next (callers p) i match k with inl pt' => Some pt' | inr _ => None end)).
Proof.
  intros Hp Hi Hc Hpt Ht. apply (shared_ok_holder p i pt); try done.
  { destruct Hpt as [->|[->| ->]]; [right|by left..]. by apply andb_prop in Hc as [Hc _]. }
  destruct Hpt as [->|[->| ->]]; cbn in Ht; injection Ht as <- <-; cbn [holds_state].
  - apply andb_prop in Hc as [Hc _]. pose proof (free_ok_lock p Hp Hc) as Hf.
    split; [done|]. cbn. intros enc He. unfold free_ok, closed in Hf. rewrite He in Hf.
    destruct (state (shared p)); naive_solver.
  - destruct (ok_held _ Hp i _ Hi eq_refl) as [Hst _]. by split.
  - destruct (ok_held _ Hp i _ Hi eq_refl) as [Hst He].
    destruct c; cbn; unfold free_ok; cbn; rewrite Hst; by split_and!.
Qed.

Lemma turn_ok p i pt now s' k : shared_ok p -> callers p !! i = Some pt -> can_turn pt p = true ->
  turn now pt (shared p) = (s', k) ->
  shared_ok (mkShared s' (with_next (callers p) i match k with inl pt' => Some pt' | inr _ => None end)).
Proof.
  intros Hp Hi Hc Ht. destruct pt; try (eapply clear_turn_ok; by eauto);
    try (cbn in Ht; unfold go_on, return_or_expire in Ht; repeat case_match; simplify_eq;
      apply (shared_ok_reads p i _ _ Hp Hi); done || (repeat case_match; done)).
  - (* the guards of establish *)
    apply andb_prop in Hc as [Hc _]. cbn in Ht, Hc.
    destruct (establish_check peer_key (shared p)) as [[]|e|] eqn:Hchk; cbn in Ht; simplify_eq;
      [|by eapply shared_ok_reads..].
    apply (shared_ok_holder p i (AtEstablishState peer_key)); auto. cbn.
    apply establish_check_Ok in Hchk as [Hst Hk]. split_and!; try done.
    pose proof (free_ok_lock p Hp Hc) as Hf. unfold free_ok in Hf. by rewrite Hst in Hf.
  - (* the derivation *)
    cbn in Ht. pose proof (establish_derive_ok now peer_key _ (ok_held _ Hp i _ Hi eq_refl)) as Hd.
    destruct (establish_derive now peer_key (shared p)) as [s1 r].
    apply (shared_ok_holder p i (AtEstablishAgreement peer_key)); auto.
    destruct r as [enc|e|]; cbn in Ht; simplify_eq; [done|destruct Hd as [Hst He]..];
      unfold free_ok; by rewrite Hst.
  - (* storing the keys *)
    cbn in Ht. pose proof (ok_held _ Hp i _ Hi eq_refl) as Hh.
    apply (shared_ok_holder p i (AtEstablishEncryption enc)); auto.
    destruct enc as [enc|]; cbn in Ht; simplify_eq; cbn in Hh; unfold free_ok, closed in *; cbn.
    + destruct Hh as (_ & _ & Hk & _). exact Hk.
    + destruct Hh as (-> & ? & ? & ?). by split_and!.
  - cbn in Ht. pose proof (send_locked_section now message (shared p)) as Hsec.
    pose proof (shared_ok_encryption p i _ (CallSend message) _ Hp Hi eq_refl ltac:(done) Hsec) as Hok.
    destruct (send_locked now message (shared p)) as [s1 [r|]]; cbn in Ht; by simplify_eq.
  - cbn in Ht. pose proof (receive_locked_section now ciphertext (shared p)) as Hsec.
    pose proof (shared_ok_encryption p i _ (CallReceive ciphertext) _ Hp Hi eq_refl ltac:(done) Hsec) as Hok.
    destruct (receive_locked now ciphertext (shared p)) as [s1 [r|]]; cbn in Ht; by simplify_eq.
Qed.

Lemma shared_step_ok p o : shared_ok p -> shared_ok (shared_step p o).1.
Proof.
  intros Hp. destruct o as [i c|i now]; cbn.
  - destruct (callers p !! i) eqn:Hi; [done|]. destruct Hp as [Hex Hheld Hfree].
    assert (Hstart : forall j pt, <[i:=AtStart c]> (callers p) !! j = Some pt ->
      pt = AtStart c \/ callers p !! j = Some pt).
    { intros j pt. destruct (decide (i = j)) as [<-|]; rewrite ?lookup_insert_eq, ?lookup_insert_ne by done;
        naive_solver. }
    split; cbn [fst shared callers].
    + intros j k ptj ptk Hj Hk Hhj Hhk. destruct (Hstart _ _ Hj) as [->|Hj']; [done|].
      destruct (Hstart _ _ Hk) as [->|Hk']; [done|]. eauto.
    + intros j pt Hj Hh. destruct (Hstart _ _ Hj) as [->|Hj']; [done|eauto].
    + intros Hnone. assert (Hf : free_ok (shared p) (callers p)).
      { apply Hfree. intros j pt Hj. apply (Hnone j). rewrite lookup_insert_ne; [done|congruence]. }
      unfold free_ok in *. repeat case_match; try done. destruct Hf as (j & c' & Hj).
      exists j, c'. rewrite lookup_insert_ne; [done|congruence].
  - destruct (callers p !! i) as [pt|] eqn:Hi; [|done]. destruct (can_turn pt p) eqn:Hc; [|done].
    destruct (turn now pt (shared p)) as [s' k] eqn:Ht.
    pose proof (turn_ok p i pt now s' k Hp Hi Hc Ht) as Hok. by destruct k.
Qed.

Lemma new_for_role_ok instant_max now e c kp r s :
  new_for_role instant_max now e c (from_key_pair kp) r = Ok s ->
  shared_ok (mkShared s ∅) /\ state s = StEngagement /\ encryption s = None /\ role s = r.
Proof.
  unfold new_for_role. intros Hs. res_inv. by split_and!.
Qed.

Lemma shared_run_ok p ops : shared_ok p -> shared_ok (run_state shared_step p ops).
Proof.
  intros Hp. apply (run_state_invariant shared_ok (fun _ => True)); [|done|by apply Forall_true].
  intros p' o Hp' _. by apply shared_step_ok.
Qed.

(** Either the state lock is free, or one caller has it. *)
Lemma lock_cases p :
  lock_free holds_state p = true \/
  exists i pt, callers p !! i = Some pt /\ holds_state pt = true.
Proof.
  unfold lock_free. case_bool_decide as Hf; [by left|right].
  assert (forall (i : nat) pt, Decision (holds_state pt = false)) by (intros; apply _).
  apply map_not_Forall in Hf as (i & pt & Hi & Hn); [|done]. exists i, pt. split; [done|by destruct (holds_state pt)].
Qed.

(** Whenever calls are under way, one of them can go on: the locks are taken in
    an order that excludes a deadlock. *)
Lemma shared_progress p : shared_ok p -> callers p <> ∅ ->
  exists i pt, callers p !! i = Some pt /\ can_turn pt p = true.
Proof.
  intros Hp Hne. assert (Hka : forall j pt, callers p !! j = Some pt -> holds_agreement pt = true ->
    holds_state pt = true) by (intros j [| | | | | |[]| | | | | | |]; done).
  destruct (lock_cases p) as [Hl|(i & pt & Hi & Hh)].
  - destruct (map_choose _ Hne) as (i & pt & Hi). exists i, pt. split; [done|].
    unfold can_turn. rewrite Hl, orb_true_r. cbn [andb]. apply orb_true_intro. right.
    apply bool_decide_eq_true. intros j ptj Hj. destruct (holds_agreement ptj) eqn:Hj'; [|done].
    pose proof (lock_free_holds p j ptj Hl Hj). rewrite (Hka j ptj Hj Hj') in *. done.
  - exists i, pt. split; [done|]. unfold can_turn.
    replace (wants_state pt) with false by (by destruct pt). cbn [negb orb andb].
    destruct (wants_agreement pt) eqn:Hw; [|done]. cbn [negb orb]. apply bool_decide_eq_true.
    intros j ptj Hj. destruct (holds_agreement ptj) eqn:Hj'; [|done].
    pose proof (ok_exclusive _ Hp i j pt ptj Hi Hj Hh (Hka j ptj Hj Hj')) as ->.
    rewrite Hi in Hj. injection Hj as ->. by destruct ptj as [| | | | | |[]| | | | | | |].
Qed.

(** Keys, whoever holds which lock. *)
Lemma shared_keys p enc : shared_ok p -> encryption (shared p) = Some enc ->
  keys_ok (shared p) enc /\ state (shared p) <> StEngagement.
Proof.
  intros Hp He. destruct (lock_cases p) as [Hl|(i & pt & Hi & Hh)].
  - pose proof (free_ok_lock p Hp Hl) as Hf. unfold free_ok, closed in Hf. rewrite He in Hf.
    destruct (state (shared p)); naive_solver.
  - pose proof (ok_held _ Hp i pt Hi Hh) as Hheld.
    destruct pt as [| | | | | |[e|]| | | | | | |]; try done; cbn in Hheld; unfold closed in Hheld;
      naive_solver congruence.
Qed.

(** C3: In every interleaving of the critical sections of any number of callers of a
    session, from its creation on: at most one caller holds the state lock;
    while it is free, keys exist only in an established session and belong to
    its role, to a consumed private key and to the engagement's key, an
    established session lacks keys only while a caller is about to terminate
    it, and a terminated session retains no secret; while it is held, the
    session is as the holder's position says.  The callers never deadlock, and
    between calls the keys exist exactly while the session is established. *)
Theorem session_invariant instant_max now e c kp r s ops :
  new_for_role instant_max now e c (from_key_pair kp) r = Ok s ->
  let p := run_state shared_step (mkShared s ∅) ops in
  shared_ok p /\
  (callers p <> ∅ -> exists i pt, callers p !! i = Some pt /\ can_turn pt p = true) /\
  (callers p = ∅ -> is_Some (encryption (shared p)) <-> state (shared p) = StEstablished).
Proof.
  intros (Hs & _)%new_for_role_ok p. pose proof (shared_run_ok _ ops Hs : shared_ok p) as Hp.
  split; [done|]. split; [by apply shared_progress|]. intros Hc.
  assert (Hf : free_ok (shared p) (callers p)).
  { apply (ok_free _ Hp). intros i pt. by rewrite Hc, lookup_empty. }
  assert (Hno : ~ clearing (callers p)) by (intros (i & c' & Hi); by rewrite Hc in Hi).
  unfold free_ok, closed in Hf. rewrite is_Some_alt.
  destruct (encryption (shared p)), (state (shared p)); naive_solver.
Qed.

(** ** Initialization vectors are never reused *)

(** The message and ciphertext of a send that succeeded. *)
Definition seals (r : option Reply) : option (bytes * bytes) :=
  match r with Some (ReplySent m (Ok ct)) => Some (m, ct) | _ => None end.

(** What a step that seals nothing does to the keys: they may be dropped, for
    good, or made, once, with a counter at zero. *)
Definition stream_kept (s s' : Session) : Prop :=
  match encryption s, encryption s' with
  | Some enc, Some enc' => send_key enc' = send_key enc /\ send_counter enc' = send_counter enc
  | Some _, None => state s' <> StEngagement
  | None, Some enc' => state s = StEngagement /\ send_counter enc' = 0
  | None, None => state s <> StEngagement -> state s' <> StEngagement
  end.

Definition stream_sends (s s' : Session) (m ct : bytes) : Prop :=
  exists enc enc', encryption s = Some enc /\ encryption s' = Some enc' /\
    send_key enc' = send_key enc /\ send_counter enc' = send_counter enc + 1 /\
    send_counter enc < u32_max /\
    aes_256_gcm_encrypt (send_key enc) (session_iv (direction_of (role s)) (send_counter enc + 1))
      m [] = Ok ct.

Lemma stream_kept_same s s' : encryption s' = encryption s ->
  (state s <> StEngagement -> state s' <> StEngagement) -> stream_kept s s'.
Proof. intros He Hst. unfold stream_kept. rewrite He. by destruct (encryption s). Qed.

Lemma send_locked_stream now m s : (forall enc, encryption s = Some enc -> keys_ok s enc) ->
  (is_Some (encryption s) -> state s <> StEngagement) ->
  match send_locked now m s with
  | (s', Return (Ok ct)) => stream_sends s s' m ct
  | (s', _) => stream_kept s s'
  end.
Proof.
  intros Hk Hst. unfold send_locked. destruct (deadline s <=? now).
  { unfold stream_kept. cbn. destruct (encryption s); [|done]. apply Hst. eauto. }
  destruct (encryption s) as [enc|] eqn:He; [|by apply stream_kept_same].
  destruct (Hk enc eq_refl) as (Hok & Hd & _). pose proof (encrypt_cases m enc Hok) as Hcase.
  destruct (encrypt m enc) as [enc' [ct|e|]]; [|destruct Hcase as [-> _]|done].
  - destruct Hcase as (Hlt & Hct & ->). rewrite Hd in Hct. do 2 eexists. split_and!; done.
  - apply stream_kept_same; [by cbn|done].
Qed.

Lemma receive_locked_stream now c s : (forall enc, encryption s = Some enc -> keys_ok s enc) ->
  (is_Some (encryption s) -> state s <> StEngagement) ->
  stream_kept s (receive_locked now c s).1.
Proof.
  intros Hk Hst. unfold receive_locked. destruct (deadline s <=? now).
  { unfold stream_kept. cbn. destruct (encryption s); [|done]. apply Hst. eauto. }
  destruct (encryption s) as [enc|] eqn:He; [|by apply stream_kept_same].
  destruct (Hk enc eq_refl) as (Hok & Hd & _). pose proof (decrypt_cases c enc Hok) as Hcase.
  unfold stream_kept. rewrite He.
  destruct (decrypt c enc) as [enc' [p|e|]]; [destruct Hcase as (_ & _ & ->)|subst enc'|done]; done.
Qed.

Lemma turn_stream p i pt now : shared_ok p -> callers p !! i = Some pt ->
  match turn now pt (shared p) with
  | (s', k) => match seals match k with inl _ => None | inr r => Some r end with
               | Some (m, ct) => stream_sends (shared p) s' m ct
               | None => stream_kept (shared p) s'
               end
  end.
Proof.
  intros Hp Hi. pose proof (fun enc => shared_keys p enc Hp) as Hkeys.
  assert (Hst : is_Some (encryption (shared p)) -> state (shared p) <> StEngagement).
  { intros [enc He]. by apply (Hkeys enc). }
  assert (Hk : forall enc, encryption (shared p) = Some enc -> keys_ok (shared p) enc)
    by (intros enc He; by apply (Hkeys enc)).
  pose proof (ok_held _ Hp i pt Hi) as Hh. destruct pt; cbn [turn];
    try (unfold go_on, return_or_expire; repeat case_match; simplify_eq; by apply stream_kept_same).
  - pose proof (establish_derive_ok now peer_key _ (Hh eq_refl)) as Hd.
    destruct (Hh eq_refl) as (Heng & Hnone & _).
    destruct (establish_derive now peer_key (shared p)) as [s' r].
    assert (stream_kept (shared p) s').
    { unfold stream_kept, held_ok, closed in *. rewrite Hnone.
      destruct r as [[enc|]|e|]; naive_solver (repeat case_match; congruence). }
    by destruct r.
  - specialize (Hh eq_refl). unfold stream_kept. destruct enc as [enc|]; cbn in Hh |- *.
    + destruct Hh as (Heng & -> & _ & Hc). done.
    + destruct Hh as (-> & -> & _). done.
  - pose proof (send_locked_stream now message (shared p) Hk Hst) as Hs.
    destruct (send_locked now message (shared p)) as [s' [[ct|e|]|]]; done.
  - pose proof (receive_locked_stream now ciphertext (shared p) Hk Hst) as Hs.
    destruct (receive_locked now ciphertext (shared p)) as [s' [r|]]; done.
  - destruct (Hh eq_refl) as [Ht _]. unfold stream_kept. cbn. destruct (encryption (shared p)); by rewrite Ht.
  - destruct (Hh eq_refl) as [Ht He]. cbn. by destruct c; apply stream_kept_same.
Qed.

Lemma turn_role now pt s : role (turn now pt s).1 = role s.
Proof.
  destruct pt; cbn [turn]; unfold establish_derive, establish_store, send_locked, receive_locked;
    repeat case_match; simplify_eq; done.
Qed.

Lemma shared_step_role p o : role (shared (shared_step p o).1) = role (shared p).
Proof.
  destruct o as [i c|i now]; cbn [shared_step]; [by case_match|].
  destruct (callers p !! i) as [pt|]; [|done]. destruct (can_turn pt p); [|done].
  pose proof (turn_role now pt (shared p)) as Hr. destruct (turn now pt (shared p)) as [s' []]; done.
Qed.

Lemma shared_step_stream p o : shared_ok p ->
  match seals (shared_step p o).2 with
  | Some (m, ct) => stream_sends (shared p) (shared (shared_step p o).1) m ct
  | None => stream_kept (shared p) (shared (shared_step p o).1)
  end.
Proof.
  intros Hp. destruct o as [i c|i now]; cbn [shared_step].
  { destruct (callers p !! i); by apply stream_kept_same. }
  destruct (callers p !! i) as [pt|] eqn:Hi; [|by apply stream_kept_same].
  destruct (can_turn pt p); [|by apply stream_kept_same].
  pose proof (turn_stream p i pt now Hp Hi) as Ht.
  destruct (turn now pt (shared p)) as [s' [pt'|r]]; exact Ht.
Qed.

(** The sends that succeed in a run continue the counter of the current keys,
    under one key; a session that has lost its keys sends nothing more. *)
Lemma sealed_run ops : forall p, shared_ok p ->
  let l := omap seals (run shared_step p ops) in
  let n := from_option send_counter 0 (encryption (shared p)) in
  exists k, sealed k (direction_of (role (shared p))) n l.*1 l.*2 /\
    0 <= n /\ n + zlen l <= u32_max /\
    (forall enc, encryption (shared p) = Some enc -> k = send_key enc) /\
    (encryption (shared p) = None -> state (shared p) <> StEngagement -> l = []).
Proof.
  induction ops as [|o ops IH]; intros p Hp l n.
  { subst l n. cbn. exists (from_option send_key [] (encryption (shared p))).
    split; [constructor|]. destruct (encryption (shared p)) as [enc|] eqn:He; cbn.
    - destruct (shared_keys p enc Hp He) as ((Hok & _) & _). pose proof (ok_send_counter _ Hok).
      unfold zlen. cbn. split_and!; [lia..|naive_solver|done].
    - unfold u32_max, zlen. cbn. split_and!; done. }
  pose proof (shared_step_stream p o Hp) as Hs. pose proof (shared_step_role p o) as Hrole.
  destruct (IH _ (shared_step_ok p o Hp)) as (k & Hseal & Hn0 & Hmax & Hkey & Hdead).
  subst l n. cbn [run omap list_omap] in *. fold (run shared_step) in *.
  destruct (shared_step p o) as [p' r]. cbn [fst snd] in *. rewrite Hrole in Hseal.
  destruct (seals r) as [[m ct]|].
  - destruct Hs as (enc & enc' & He & He' & Hk & Hc & Hlt & Hct). rewrite He, He' in *.
    cbn [from_option] in *. rewrite Hc in *. exists k. rewrite (Hkey enc' eq_refl), Hk in *.
    destruct (shared_keys p enc Hp He) as ((Hok & _) & _). pose proof (ok_send_counter _ Hok).
    rewrite zlen_cons. split_and!; [by constructor|lia|lia|naive_solver|done].
  - unfold stream_kept in Hs.
    destruct (encryption (shared p)) as [enc|] eqn:He, (encryption (shared p')) as [enc'|];
      cbn [from_option] in *.
    + destruct Hs as [Hk Hc]. rewrite Hc in *. exists k. split_and!; try done.
      intros e [= <-]. rewrite <- Hk. by apply Hkey.
    + exists (send_key enc). destruct (shared_keys p enc Hp He) as ((Hok & _) & _).
      pose proof (ok_send_counter _ Hok). rewrite (Hdead eq_refl Hs) in *.
      unfold zlen. cbn. split_and!; [constructor|lia|lia|naive_solver|done].
    + destruct Hs as [Heng Hc]. rewrite Hc in *. exists k. by split_and!.
    + exists k. split_and!; try done. intros _ Hne. by apply Hdead, Hs.
Qed.

Lemma sealed_lookup k d n ms cts i m ct : sealed k d n ms cts ->
  ms !! i = Some m -> cts !! i = Some ct ->
  aes_256_gcm_encrypt k (session_iv d (n + Z.of_nat i + 1)) m [] = Ok ct.
Proof.
  intros Hs. revert i. induction Hs as [n|n m' ms ct' cts Hct _ IH]; intros i; [done|].
  destruct i as [|i]; cbn; [intros [= ->] [= ->]; by rewrite Z.add_0_r|].
  intros Hm Hc. specialize (IH i Hm Hc). by replace (n + Z.of_nat (S i)) with (n + 1 + Z.of_nat i) by lia.
Qed.

Lemma session_ivs_distinct d n : Z.of_nat n <= u32_max ->
  NoDup (map (fun i => session_iv d (Z.of_nat i + 1)) (seq 0 n)).
Proof.
  intros Hn. apply NoDup_fmap_2_strong; [|apply NoDup_seq].
  intros i j Hi%elem_of_seq Hj%elem_of_seq Heq. apply session_iv_inj in Heq as [_ Heq]; lia.
Qed.

(** C4: In every interleaving of a session's callers, all messages that are ever sent
    are sealed under one key, the n-th of them under the initialization vector
    of the session's direction and counter n: each ciphertext that a send
    returns is the cipher's output on that key, vector and message.  These
    vectors are pairwise different, so none is used twice. *)
Theorem session_nonces_unique instant_max now e c kp r s ops :
  new_for_role instant_max now e c (from_key_pair kp) r = Ok s ->
  let sent := omap seals (run shared_step (mkShared s ∅) ops) in
  let iv n := session_iv (direction_of r) (Z.of_nat n + 1) in
  (exists k, forall n m ct, sent !! n = Some (m, ct) ->
     aes_256_gcm_encrypt k (iv n) m [] = Ok ct) /\
  NoDup (map iv (seq 0 (length sent))).
Proof.
  intros (Hs & _ & He & Hr)%new_for_role_ok sent iv.
  destruct (sealed_run ops _ Hs) as (k & Hseal & _ & Hmax & _). fold sent in Hseal, Hmax.
  cbn [shared] in *. rewrite He in *. cbn [from_option] in *. rewrite Hr in Hseal. split.
  - exists k. intros n m ct Hn. apply (sealed_lookup _ _ _ _ _ n m ct) in Hseal; [done|..];
      by rewrite list_lookup_fmap, Hn.
  - apply session_ivs_distinct. unfold zlen in Hmax. lia.
Qed.

(** ** Callers one at a time *)

(** What a call does and answers when no other caller runs: the operations. *)
Definition call_alone (now1 now2 : Z) (c : Call) (s : Session) : Session * Reply :=
  match c with
  | CallState => prod_map id ReplyState (Session_state now1 s)
  | CallPublicKey => prod_map id ReplyKey (Session_public_key now1 now2 s)
  | CallEstablish k => prod_map id ReplyUnit (Session_establish now1 now2 k s)
  | CallSend m => prod_map id (ReplySent m) (send_encrypted now1 now2 m s)
  | CallReceive ct => prod_map id ReplyReceived (receive_encrypted now1 now2 ct s)
  | CallTerminate => (terminate s, ReplyUnit (Ok tt))
  end.

Lemma alone_step now pt s :
  shared_step (mkShared s {[0%nat := pt]}) (Turn 0 now) =
  match turn now pt s with
  | (s', inl pt') => (mkShared s' {[0%nat := pt']}, None)
  | (s', inr r) => (mkShared s' ∅, Some r)
  end.
Proof.
  cbn [shared_step callers]. rewrite lookup_singleton_eq.
  assert (can_turn pt (mkShared s {[0%nat := pt]}) = true) as ->.
  { assert (Hone : forall holds, lock_free holds (mkShared s {[0%nat := pt]}) = negb (holds pt)).
    { intros holds. unfold lock_free. cbn [callers]. destruct (holds pt) eqn:Hh; cbn [negb].
      - apply bool_decide_eq_false. intros Hall. specialize (Hall 0%nat pt).
        rewrite lookup_singleton_eq in Hall. rewrite Hall in Hh; done.
      - apply bool_decide_eq_true. apply map_Forall_singleton. done. }
    unfold can_turn. rewrite !Hone. by destruct pt as [| | | | | |[]| | | | | | |]. }
  cbn [shared callers]. destruct (turn now pt s) as [s' [pt'|r]].
  - by rewrite insert_singleton_eq.
  - by rewrite delete_singleton_eq.
Qed.

Fixpoint alone_run (nows : list Z) (pt : Point) (s : Session) : option (Session * Reply) :=
  match nows with
  | [] => None
  | now :: nows =>
      match turn now pt s with
      | (s, inl pt) => alone_run nows pt s
      | (s, inr r) => Some (s, r)
      end
  end.

Lemma alone_returned nows s :
  run_state shared_step (mkShared s ∅) (Turn 0 <$> nows) = mkShared s ∅ /\
  omap id (run shared_step (mkShared s ∅) (Turn 0 <$> nows)) = [].
Proof. induction nows as [|now nows IH]; [done|]. exact IH. Qed.

Lemma alone_run_pool nows : forall pt s s' r, alone_run nows pt s = Some (s', r) ->
  run_state shared_step (mkShared s {[0%nat := pt]}) (Turn 0 <$> nows) = mkShared s' ∅ /\
  omap id (run shared_step (mkShared s {[0%nat := pt]}) (Turn 0 <$> nows)) = [r].
Proof.
  induction nows as [|now nows IH]; intros pt s s' r; [done|].
  cbn [alone_run fmap list_fmap map]. intros Hr.
  change (run_state shared_step ?p (?o :: ?os)) with (run_state shared_step (shared_step p o).1 os).
  change (run shared_step ?p (?o :: ?os)) with ((shared_step p o).2 :: run shared_step (shared_step p o).1 os).
  rewrite alone_step. destruct (turn now pt s) as [s1 [pt'|r']]; cbn [fst snd]; [by apply IH|].
  injection Hr as -> ->. destruct (alone_returned nows s') as [-> Ho]. split; [done|].
  change (r :: omap id (run shared_step (mkShared s' ∅) (Turn 0 <$> nows)) = [r]). by rewrite Ho.
Qed.

(** A caller that runs alone does what the operation of its call says: the
    turns are the operation, cut where it waits for a lock. *)
Theorem caller_alone now1 now2 c s :
  let ops := Begin 0 c :: (Turn 0 <$> now1 :: replicate 5 now2) in
  run_state shared_step (mkShared s ∅) ops = mkShared (call_alone now1 now2 c s).1 ∅ /\
  omap id (run shared_step (mkShared s ∅) ops) = [(call_alone now1 now2 c s).2].
Proof.
  intros ops. apply (alone_run_pool (now1 :: replicate 5 now2) (AtStart c) s).
  rewrite <- surjective_pairing. subst ops. unfold call_alone, Session_state, Session_public_key,
    Session_establish, send_encrypted, receive_encrypted, ensure_not_expired, public_key_locked.
  cbn [alone_run turn replicate].
  destruct c as [| |k|m|ct|]; [..|reflexivity]; (destruct (now1 <? deadline s); [|reflexivity]);
    cbn [checked turn];
    [reflexivity|..].
  - unfold go_on. destruct (public_key_state s) as [[]| |]; [|reflexivity..].
    cbn [turn const]. unfold return_or_expire, public_key_locked.
    destruct (deadline s <=? now2); reflexivity.
  - unfold go_on. destruct (establish_check k s) as [[]| |]; [|reflexivity..]. cbn [turn const].
    destruct (establish_derive now2 k s) as [s1 [enc| |]]; [|reflexivity..]. cbn [turn const].
    unfold establish_store. destruct enc; reflexivity.
  - unfold go_on. destruct (send_state m s) as [[]| |]; [|reflexivity..]. cbn [turn const].
    destruct (send_locked now2 m s) as [s1 [r|]]; reflexivity.
  - unfold go_on. destruct (receive_state ct s) as [[]| |]; [|reflexivity..]. cbn [turn const].
    destruct (receive_locked now2 ct s) as [s1 [r|]]; reflexivity.
Qed.

(** ** Timeouts *)

Definition timed_out {A} (o : Session * res IsoError A) : Prop :=
  o.2 = Err Timeout /\ closed o.1.

Lemma timed_out_expired {A} s : timed_out (A := A) (expire_session s, Err Timeout).
Proof. split; [done|apply expire_closed]. Qed.


(** ** The private key of an engagement is used once *)

Inductive HolderOp :=
| HolderNew (random : P256SecretKey)
| HolderSession (instant_max now : Z) (e : DeviceEngagement) (c : SessionConfig).

Definition holder_step (store : KeyStore) (o : HolderOp) : KeyStore * unit :=
  (match o with
   | HolderNew random => (new_qr random store).1
   | HolderSession im now e c => (from_engagement im now e c store).1
   end, tt).

Lemma take_ephemeral_consumed e store cell :
  store !! cell = Some None -> (take_ephemeral_key_pair e store).1 !! cell = Some None.
Proof.
  intros Hc. unfold take_ephemeral_key_pair. destruct (ephemeral_key e) as [cell'|]; [|done].
  destruct (store !! cell') as [[key|]|] eqn:Hs; [|done..]. cbn [fst].
  rewrite lookup_insert_ne; [done|]. congruence.
Qed.

Lemma holder_step_consumed store o cell :
  store !! cell = Some None -> (holder_step store o).1 !! cell = Some None.
Proof.
  intros Hc. destruct o as [random|im now e c]; cbn [holder_step fst].
  - unfold new_qr. cbn [fst]. rewrite lookup_insert_ne; [done|]. intros <-.
    apply (is_fresh (dom store)), elem_of_dom. eauto.
  - unfold from_engagement. destruct (config_validate c); cbn [fst]; try done.
    pose proof (take_ephemeral_consumed e store cell Hc).
    by destruct (take_ephemeral_key_pair e store).
Qed.

(** After one session has been created from an engagement, no engagement that
    shares its key cell, a clone in particular, ever yields another session,
    whatever the holder does in between. *)
Theorem engagement_key_single_use im now e c store store' s ops im' now' e' c' :
  from_engagement im now e c store = (store', Ok s) -> ephemeral_key e' = ephemeral_key e ->
  exists err, (from_engagement im' now' e' c' (run_state holder_step store' ops)).2 = Err err.
Proof.
  unfold from_engagement at 1. destruct (config_validate c); [|done..].
  unfold take_ephemeral_key_pair. destruct (ephemeral_key e) as [cell|] eqn:He; [|done].
  destruct (store !! cell) as [[kp|]|]; [|done..]. intros Hs Hshare.
  injection Hs as <- _.
  assert (Hc : run_state holder_step (<[cell := None]> store) ops !! cell = Some None).
  { apply (run_state_invariant (fun st : KeyStore => st !! cell = Some None) (fun _ => True));
      [intros; by apply holder_step_consumed| |by apply Forall_true].
    apply lookup_insert_eq. }
  unfold from_engagement. destruct (config_validate c') eqn:Hv; cbn; [|eauto|].
  - unfold take_ephemeral_key_pair. rewrite Hshare, Hc. cbn. eauto.
  - by unfold config_validate, ensure in Hv; case_match.
Qed.

End sessions.
