(* ===== verification/MdlAgreementFacts.v ===== *)
(** * Two ISO 18013-5 sessions: agreement and delivery

    A holder and a reader that start from the same engagement both establish
    and derive mirrored encryption states; from there, the two sessions with an
    ordered transport between them implement a pair of FIFO channels of
    plaintexts, up to the exhaustion of a message counter, which is reported. *)

From stdpp Require Import functions.
From S2P Require Import Prelude Des CryptoKit CryptoKitFacts Engagement EngagementFacts.
From S2P Require Import MdlSession MdlSessionFacts.
Local Open Scope Z_scope.

#[local] Abbreviation bytes := (list Z).
#[local] Abbreviation result := (res IsoError).

(** ** One direction of a channel *)

Section stream.
Context `{AesLaws}.

Lemma sealed_snoc k d n ms cts m ct : sealed k d n ms cts ->
  aes_256_gcm_encrypt k (session_iv d (n + zlen ms + 1)) m [] = Ok ct ->
  sealed k d n (ms ++ [m]) (cts ++ [ct]).
Proof.
  induction 1 as [n|n m' ms ct' cts Hs _ IH]; cbn [app]; intros Hm.
  - rewrite zlen_nil, Z.add_0_r in Hm. repeat econstructor; done.
  - constructor; [done|]. apply IH. rewrite zlen_cons in Hm. by rewrite Z.add_assoc in Hm.
Qed.

(** Sender and receiver of one direction, with the messages in transit. *)
Record stream (snd rcv : SessionEncryption) (ms cts : list bytes) : Prop := {
  stream_key : receive_key rcv = send_key snd;
  stream_direction : receive_direction rcv = send_direction snd;
  stream_counter : send_counter snd = receive_counter rcv + zlen ms;
  stream_sealed : sealed (send_key snd) (send_direction snd) (receive_counter rcv) ms cts;
}.

(** Sending queues the message, or reports an exhausted counter and changes
    nothing. *)
Lemma stream_send snd rcv ms cts m : encryption_ok snd -> stream snd rcv ms cts ->
  zlen m <= gcm_max_plaintext ->
  match encrypt m snd with
  | (snd', Ok ct) => send_counter snd < u32_max /\ send_counter snd' = send_counter snd + 1 /\
                     stream snd' rcv (ms ++ [m]) (cts ++ [ct])
  | (snd', Err e) => send_counter snd = u32_max /\ snd' = snd /\
                     e = Encryption "message counter exhausted"
  | (_, Panic) => False
  end.
Proof.
  intros Hok [Hk Hd Hc Hs] Hm. pose proof (encrypt_cases m snd Hok) as He.
  destruct (encrypt m snd) as [snd' [ct|e|]]; [|destruct He as [-> [[??]|[??]]]; [done|lia]|done].
  destruct He as (Hlt & Hct & ->). split_and!; [done..|]. split; cbn; try done.
  - rewrite zlen_app, zlen_cons, zlen_nil. lia.
  - apply sealed_snoc; [done|]. by rewrite <- Hc.
Qed.

(** Receiving the oldest ciphertext yields the oldest message. *)
Lemma stream_receive snd rcv m ms ct cts : encryption_ok snd -> encryption_ok rcv ->
  stream snd rcv (m :: ms) (ct :: cts) ->
  exists rcv', decrypt ct rcv = (rcv', Ok m) /\ stream snd rcv' ms cts /\
    send_key rcv' = send_key rcv /\ send_direction rcv' = send_direction rcv /\
    send_counter rcv' = send_counter rcv.
Proof.
  intros Hsnd Hrcv [Hk Hd Hc Hs]. inversion_clear Hs as [|? ? ? ? ? Hct Hrest].
  rewrite zlen_cons in Hc. pose proof (zlen_nonneg ms). pose proof (ok_send_counter _ Hsnd).
  unfold decrypt, u32_checked_add. rewrite Hk, Hd.
  apply aes_256_gcm_open_iff in Hct. rewrite (proj2 (Z.leb_le (receive_counter rcv + 1) u32_max)) by lia.
  rewrite Hct. cbn. eexists. split; [done|]. split_and!; [|done..]. split; cbn; try done. lia.
Qed.

End stream.

(** ** Established sessions *)

Section pair.
Context `{AesLaws} `{Sha2Laws} `{HkdfLaws} `{P256Laws} `{IsoMdlLaws}.

Definition established (s : Session) (enc : SessionEncryption) : Prop :=
  state s = StEstablished /\ encryption s = Some enc /\ encryption_ok enc.

(** The settings of a session that no operation changes. *)
Definition same_settings (s s' : Session) : Prop :=
  deadline s' = deadline s /\ maximum_message_size s' = maximum_message_size s.

Lemma send_established now1 now2 m s enc : established s enc ->
  now1 < deadline s -> now2 < deadline s -> zlen m <= maximum_message_size s ->
  send_encrypted now1 now2 m s = (set_encryption (Some (encrypt m enc).1) s, (encrypt m enc).2).
Proof.
  intros (Hst & He & _) H1' H2' Hm. unfold send_encrypted, send_state.
  destruct (ensure_not_expired_cases now1 s) as [[-> _]|[_ ?]]; [|lia].
  rewrite bool_decide_true by done. cbn [ensure mbind res_bind].
  rewrite (proj2 (Z.ltb_ge _ _) Hm). cbn [negb]. unfold send_locked.
  destruct (Z.leb_spec (deadline s) now2); [lia|]. rewrite He. by destruct (encrypt m enc).
Qed.

Lemma receive_established now1 now2 c s enc : established s enc ->
  now1 < deadline s -> now2 < deadline s -> zlen c <= maximum_message_size s + 16 ->
  receive_encrypted now1 now2 c s = (set_encryption (Some (decrypt c enc).1) s, (decrypt c enc).2).
Proof.
  intros (Hst & He & _) H1' H2' Hc. unfold receive_encrypted, receive_state.
  destruct (ensure_not_expired_cases now1 s) as [[-> _]|[_ ?]]; [|lia].
  rewrite bool_decide_true by done. cbn [ensure mbind res_bind].
  assert (zlen c <= saturating_add (maximum_message_size s) 16) as Hsat.
  { unfold saturating_add, maximum_message_size, MAX_SESSION_MESSAGE_BYTES, usize_max in *. lia. }
  rewrite (proj2 (Z.ltb_ge _ _) Hsat). cbn [negb]. unfold receive_locked.
  destruct (Z.leb_spec (deadline s) now2); [lia|]. rewrite He. by destruct (decrypt c enc).
Qed.

Lemma established_update s enc enc' : established s enc -> encryption_ok enc' ->
  established (set_encryption (Some enc') s) enc'.
Proof. intros (Hst & _ & _) Hok. by split_and!. Qed.

(** ** A pair of sessions over an ordered transport *)

Definition other (r : SessionRole) : SessionRole :=
  match r with RoleDevice => RoleReader | RoleReader => RoleDevice end.

Inductive PairOp :=
| PairSend (from : SessionRole) (now1 now2 : Z) (message : bytes)
| PairDeliver (to : SessionRole) (now1 now2 : Z).

Inductive PairOut :=
| Sent (r : result unit)
| Delivered (r : result bytes)
| NothingInTransit.

(** The two sessions and the ciphertexts on their way to each party. *)
Record Pair := mkPair { party : SessionRole -> Session; inbox : SessionRole -> list bytes }.

Definition pair_step (p : Pair) (o : PairOp) : Pair * PairOut :=
  match o with
  | PairSend from now1 now2 m =>
      let '(s, r) := send_encrypted now1 now2 m (party p from) in
      (mkPair (<[from := s]> (party p))
         match r with
         | Ok ct => <[other from := inbox p (other from) ++ [ct]]> (inbox p)
         | _ => inbox p
         end,
       Sent (const tt <$> r))
  | PairDeliver to now1 now2 =>
      match inbox p to with
      | [] => (p, NothingInTransit)
      | ct :: cts =>
          let '(s, r) := receive_encrypted now1 now2 ct (party p to) in
          (mkPair (<[to := s]> (party p)) (<[to := cts]> (inbox p)), Delivered r)
      end
  end.

(** The specification: per direction a queue of plaintexts and the number of
    messages accepted so far, at most [u32::MAX]. *)
Record Channels := mkChannels { queued : SessionRole -> list bytes; accepted : SessionRole -> Z }.

Definition channels_step (a : Channels) (o : PairOp) : Channels * PairOut :=
  match o with
  | PairSend from _ _ m =>
      if accepted a from =? u32_max
      then (a, Sent (Err (Encryption "message counter exhausted")))
      else (mkChannels (<[other from := queued a (other from) ++ [m]]> (queued a))
              (<[from := accepted a from + 1]> (accepted a)), Sent (Ok tt))
  | PairDeliver to _ _ =>
      match queued a to with
      | [] => (a, NothingInTransit)
      | m :: ms => (mkChannels (<[to := ms]> (queued a)) (accepted a), Delivered (Ok m))
      end
  end.

(** The operations of the specification: before the deadline, and messages
    within the limits of both parties. *)
Definition op_in_time (p0 : Pair) (o : PairOp) : Prop :=
  match o with
  | PairSend from now1 now2 m =>
      now1 < deadline (party p0 from) /\ now2 < deadline (party p0 from) /\
      zlen m <= maximum_message_size (party p0 from) /\
      zlen m <= maximum_message_size (party p0 (other from))
  | PairDeliver to now1 now2 =>
      now1 < deadline (party p0 to) /\ now2 < deadline (party p0 to)
  end.

Definition refines (p0 p : Pair) (a : Channels) : Prop :=
  exists enc : SessionRole -> SessionEncryption, forall r,
    established (party p r) (enc r) /\ same_settings (party p0 r) (party p r) /\
    stream (enc r) (enc (other r)) (queued a (other r)) (inbox p (other r)) /\
    Forall (fun m => zlen m <= maximum_message_size (party p0 (other r))) (queued a (other r)) /\
    accepted a r = send_counter (enc r).

Lemma other_other r : other (other r) = r.
Proof. by destruct r. Qed.
Lemma other_ne r : other r <> r.
Proof. by destruct r. Qed.

Lemma maximum_message_size_small s : maximum_message_size s <= gcm_max_plaintext.
Proof. unfold maximum_message_size, MAX_SESSION_MESSAGE_BYTES, gcm_max_plaintext. lia. Qed.

(** Reads of updated functions of the role. *)
Ltac fn_simpl :=
  repeat first [ rewrite fn_lookup_insert
               | rewrite fn_lookup_insert_ne by (congruence || apply other_ne || (symmetry; apply other_ne)) ].

Lemma refines_send p0 p a r now1 now2 m : refines p0 p a ->
  op_in_time p0 (PairSend r now1 now2 m) ->
  let o := PairSend r now1 now2 m in
  (pair_step p o).2 = (channels_step a o).2 /\
  refines p0 (pair_step p o).1 (channels_step a o).1.
Proof.
  intros [enc Henc] (Ht1 & Ht2 & Hm1 & Hm2). cbn [pair_step channels_step].
  destruct (Henc r) as (Hest & [Hdl Hmax] & Hstr & Hall & Hacc).
  rewrite (send_established now1 now2 m _ _ Hest) by congruence.
  destruct Hest as (Hst & He & Hok).
  pose proof (stream_send _ _ _ _ m Hok Hstr) as Hsend.
  pose proof (encrypt_ok m (enc r) Hok) as Hok'. pose proof (encrypt_cases m (enc r) Hok) as Hcase.
  destruct (encrypt m (enc r)) as [enc' [ct|e|]]; cbn [fst snd] in *.
  - destruct Hsend as (Hlt & Hcnt & Hstr');
      [etrans; [exact Hm1|apply maximum_message_size_small]|].
    rewrite Hacc, (proj2 (Z.eqb_neq _ _)) by lia. split; [done|].
    exists (<[r := enc']> enc). intros r'. cbn [party inbox queued accepted fst snd].
    destruct Hcase as (_ & _ & Henc').
    destruct (decide (r' = r)) as [->|Hne].
    + fn_simpl. split; [by split_and!|]. split; [done|]. split; [done|]. split; [|lia].
      apply Forall_app. split; [done|by repeat constructor].
    + assert (r' = other r) as -> by (by destruct r, r'). rewrite other_other.
      destruct (Henc (other r)) as (Ho1 & Ho2 & Ho3 & Ho4 & Ho5). rewrite other_other in *.
      fn_simpl. split_and!; try done. destruct Ho3. rewrite Henc'. by split.
  - destruct Hsend as (Hmaxed & -> & ->);
      [etrans; [exact Hm1|apply maximum_message_size_small]|].
    rewrite Hacc, (proj2 (Z.eqb_eq _ _)) by lia. split; [done|].
    exists enc. intros r'. cbn [party inbox queued accepted fst snd].
    destruct (decide (r' = r)) as [->|Hne].
    + fn_simpl. split; [by split_and!|done].
    + fn_simpl. apply Henc.
  - destruct Hsend; etrans; [exact Hm1|apply maximum_message_size_small].
Qed.

Lemma sealed_length k d n m ms ct cts : sealed k d n (m :: ms) (ct :: cts) -> zlen ct = zlen m + 16.
Proof.
  inversion_clear 1 as [|? ? ? ? ? Hct _]. unfold aes_256_gcm_encrypt, aes_gcm_encrypt in Hct.
  res_inv. by eapply gcm_seal_length.
Qed.

Lemma refines_deliver p0 p a r now1 now2 : refines p0 p a ->
  op_in_time p0 (PairDeliver r now1 now2) ->
  let o := PairDeliver r now1 now2 in
  (pair_step p o).2 = (channels_step a o).2 /\
  refines p0 (pair_step p o).1 (channels_step a o).1.
Proof.
  intros [enc Henc] (Ht1 & Ht2). cbn [pair_step channels_step].
  destruct (Henc r) as (Hest & [Hdl Hmax] & Hback & Hall & Hacc).
  destruct (Henc (other r)) as (Hesto & Hseto & Hstr & Hallo & Hacco). rewrite other_other in *.
  pose proof (stream_sealed _ _ _ _ Hstr) as Hsl.
  destruct (inbox p r) as [|ct cts] eqn:Hin, (queued a r) as [|m ms] eqn:Hq;
    [|by inversion Hsl..|].
  { split; [done|]. by exists enc. }
  inversion_clear Hallo as [|? ? Hm Hms].
  rewrite (receive_established now1 now2 ct _ _ Hest)
    by (rewrite ?(sealed_length _ _ _ _ _ _ _ Hsl); lia || congruence).
  destruct Hest as (Hst & He & Hok), Hesto as (? & ? & Hoko).
  destruct (stream_receive _ _ _ _ _ _ Hoko Hok Hstr) as (enc' & Hdec & Hstr' & Hk & Hd & Hc).
  pose proof (decrypt_ok ct (enc r) Hok) as Hok'. rewrite Hdec in *. cbn [fst snd] in *.
  split; [done|]. exists (<[r := enc']> enc). intros r'. cbn [party inbox queued accepted fst snd].
  destruct (decide (r' = r)) as [->|Hne].
  - fn_simpl. split; [by split_and!|]. split; [done|]. split; [|split; [done|congruence]].
    destruct Hback as [B1 B2 B3 B4]. split; congruence.
  - assert (r' = other r) as -> by (by destruct r, r'). rewrite other_other. fn_simpl.
    by split_and!.
Qed.

(** From any pair of sessions that refines the channels, every sequence of sends
    and deliveries in time has the same outcomes. *)
Lemma refines_run p0 a ops : refines p0 p0 a -> Forall (op_in_time p0) ops ->
  run pair_step p0 ops = run channels_step a ops.
Proof.
  intros Hr Hops. apply (run_simulation (refines p0) (op_in_time p0)); [|done..].
  intros p a' [r now1 now2 m|r now1 now2]; [apply refines_send|apply refines_deliver].
Qed.

(** ** Establishment *)

Lemma cose_key_from_own_key kp : exists c, cose_key_from_sec1 (public_key_uncompressed kp) = Ok c.
Proof.
  unfold public_key_uncompressed.
  destruct (p256_sec1_uncompressed (p256_public (p256_secret kp))) as (xy & -> & Hlen).
  rewrite <- (take_drop 32 xy).
  assert (zlen (take 32 xy) = 32 /\ zlen (drop 32 xy) = 32) as [Hx Hy].
  { unfold zlen. rewrite length_take, length_drop. lia. }
  unfold cose_key_from_sec1. rewrite (vec_slice_at _ [4] (take 32 xy) (drop 32 xy) 1 33) by (lens; lia || done).
  rewrite (vec_slice_at _ (4 :: take 32 xy) (drop 32 xy) [] 33 65)
    by (rewrite ?app_nil_r; lens; lia || done).
  rewrite zlen_cons, zlen_app, Hx, Hy. cbn. eauto.
Qed.

Lemma transcript_total e c kp : to_cbor e = Ok c ->
  exists t, build_session_transcript c (public_key_uncompressed kp) = Ok t.
Proof.
  unfold to_cbor, build_session_transcript. intros Hc. res_inv. apply map_err_Ok in Hc.
  destruct (tag24_engagement_encoded _ _ Hc) as [_ ->]. cbn [map_err mbind res_bind].
  destruct (cose_key_from_own_key kp) as [cose ->]. cbn [mbind res_bind].
  destruct (tag24_cose_key_inner cose) as (tag & -> & _). cbn [map_err mbind res_bind].
  match goal with |- context [transcript_encode ?a ?b] =>
    destruct (transcript_encode_total a b) as [t ->] end. cbn. eauto.
Qed.

(** Establishing with the public key of [peer_kp] from the engaged state, in
    time, succeeds with the keys derived from the agreement and transcript. *)
Lemma establish_engaged now1 now2 s kp peer_kp z t enc :
  state s = StEngagement -> key_agreement s = from_key_pair kp ->
  (role s = RoleReader -> engagement_device_key s = public_key_uncompressed peer_kp) ->
  now1 < deadline s -> now2 < deadline s ->
  P256KeyPair_agree kp (public_key_uncompressed peer_kp) = Ok z ->
  build_session_transcript (engagement_bytes s)
    (public_key_uncompressed match role s with RoleDevice => peer_kp | RoleReader => kp end) = Ok t ->
  new_directional z t (direction_of (role s)) = Ok enc ->
  Session_establish now1 now2 (public_key_uncompressed peer_kp) s =
    (set_fields StEstablished (Some enc)
       (mkAgreement None (public_key_uncompressed kp) (Some (public_key_uncompressed peer_kp))) s,
     Ok tt).
Proof.
  intros Hst Hka Hpeer Ht1 Ht2 Hz Ht Henc. unfold Session_establish.
  destruct (ensure_not_expired_cases now1 s) as [[-> _]|[_ ?]]; [|lia].
  replace (establish_check (public_key_uncompressed peer_kp) s) with (@Ok IsoError unit tt).
  2:{ unfold establish_check. rewrite (bool_decide_true _ Hst). cbn [ensure mbind res_bind].
      case_bool_decide as Hr; [|done]. by rewrite bool_decide_true by (by rewrite Hpeer). }
  unfold establish_derive. rewrite Hka.
  unfold validate_and_set_peer_key, from_crypto. rewrite validate_own_public_key.
  unfold derive_encryption, derive_shared_secret, from_crypto. cbn [map_err key_pair public_key
    peer_public_key from_key_pair]. rewrite Hz. cbn [map_err mbind res_bind].
  destruct (role s); rewrite Ht; cbn [mbind res_bind]; cbn [direction_of] in Henc; rewrite Henc;
    (destruct (Z.leb_spec (deadline s) now2); [lia|done]).
Qed.

Lemma new_directional_mirror z t ed er :
  new_directional z t DirDevice = Ok ed -> new_directional z t DirReader = Ok er ->
  stream ed er [] [] /\ stream er ed [] [].
Proof.
  unfold new_directional. destruct (from_crypto _) as [[dk rk]| |]; [|done..].
  cbn. intros [= <-] [= <-]. split; split; cbn; constructor || done.
Qed.

(** A holder session and a reader session created from engagements with the
    same encoding and key (the holder's own and the one the reader decoded)
    both establish when they exchange public keys before their deadlines, and
    the two encryption states are each other's mirror image. *)
Lemma parties_establish im now e c store store' dev im' now' random e' c' rdr cb t1 t2 t3 t4 :
  from_engagement im now e c store = (store', Ok dev) ->
  reader_from_engagement im' now' random e' c' = Ok rdr ->
  to_cbor e = Ok cb -> to_cbor e' = Ok cb -> device_key e' = device_key e ->
  t1 < deadline dev -> t2 < deadline dev -> t3 < deadline rdr -> t4 < deadline rdr ->
  exists dev' rdr' enc_d enc_r,
    Session_establish t1 t2 (public_key (key_agreement rdr)) dev = (dev', Ok tt) /\
    Session_establish t3 t4 (public_key (key_agreement dev)) rdr = (rdr', Ok tt) /\
    established dev' enc_d /\ established rdr' enc_r /\
    send_counter enc_d = 0 /\ send_counter enc_r = 0 /\
    stream enc_d enc_r [] [] /\ stream enc_r enc_d [] [].
Proof.
  intros Hdev Hrdr Hc Hc' Hkey Ht1 Ht2 Ht3 Ht4.
  unfold from_engagement, take_ephemeral_key_pair in Hdev.
  destruct (config_validate c); [|done..]. destruct (ephemeral_key e) as [cell|]; [|done].
  destruct (store !! cell) as [[kp|]|]; [|done..]. injection Hdev as _ Hdev.
  apply bind_Ok in Hdev as ([] & Hpub%ensure_Ok%bool_decide_eq_true & Hdev).
  unfold reader_from_engagement, new_for_role in *. rewrite Hc in Hdev. rewrite Hc' in Hrdr.
  res_inv. cbn [deadline key_agreement public_key from_key_pair SessionKeyAgreement_new] in *.
  set (kr := P256KeyPair_generate random).
  destruct (p256_agreement_uncompressed kp kr) as (z & Hz1 & Hz2).
  destruct (transcript_total e _ kr Hc) as [t Ht].
  destruct (new_directional_Ok z t DirDevice) as (ed & Hed & Hokd & Hd1 & Hd2 & Hd3).
  destruct (new_directional_Ok z t DirReader) as (er & Her & Hokr & Hr1 & Hr2 & Hr3).
  do 2 eexists. exists ed, er.
  split; [eapply (establish_engaged t1 t2 _ kp kr); done|].
  split; [eapply (establish_engaged t3 t4 _ kr kp); done || (cbn; congruence)|].
  split; [by split_and!|]. split; [by split_and!|]. split; [done|]. split; [done|].
  by eapply new_directional_mirror.
Qed.

(** The device's session binds its own key: the engagement advertises it. *)
Lemma from_engagement_key im now e c store store' dev :
  from_engagement im now e c store = (store', Ok dev) ->
  validate_p256_public_key (device_key e) = Ok tt /\ exists cb, to_cbor e = Ok cb.
Proof.
  unfold from_engagement, take_ephemeral_key_pair.
  destruct (config_validate c); [|done..]. destruct (ephemeral_key e) as [cell|]; [|done].
  destruct (store !! cell) as [[kp|]|]; [|done..]. intros Hdev. injection Hdev as _ Hdev.
  apply bind_Ok in Hdev as ([] & Hpub%ensure_Ok%bool_decide_eq_true & Hdev).
  unfold new_for_role in Hdev. res_inv. rewrite <- Hpub. split; [|eauto].
  apply validate_own_public_key.
Qed.

(** A scanned engagement encodes to the same bytes as the one displayed. *)
Lemma scanned_engagement e uri e' cb :
  to_qr_uri e = Ok uri -> from_qr_uri uri = Ok e' -> to_cbor e = Ok cb ->
  validate_p256_public_key (device_key e) = Ok tt ->
  to_cbor e' = Ok cb /\ device_key e' = device_key e.
Proof.
  intros Huri Hscan Hcb Hkey.
  assert (Hlim : zlen cb <= MAX_DEVICE_ENGAGEMENT_CBOR_BYTES /\
    zlen (str_bytes uri) <= MAX_DEVICE_ENGAGEMENT_QR_URI_BYTES).
  { unfold to_qr_uri, to_cbor in *. res_inv. apply map_err_Ok in Hcb, Huri. res_det.
    destruct (tag24_engagement_encoded _ _ Hcb) as [Htag _]. 
    unfold from_qr_uri in Hscan. res_inv.
    match goal with H : map_err _ (tag24_engagement _) = Ok _ |- _ => rewrite Htag in H end.
    match goal with H : map_err _ (from_qr_code_uri _) = Ok _ |- _ =>
      cbn [map_err] in *; simplify_eq; rewrite (qr_code_uri_roundtrip _ _ Huri) in H end.
    cbn [map_err] in *. simplify_eq. cbn [inner_bytes] in *. unfold from_cbor in Hscan. res_inv.
    breflect. lia. }
  destruct (engagement_qr_roundtrip _ _ _ Huri Hcb Hkey (proj1 Hlim) (proj2 Hlim))
    as (e2 & He2 & Hc2 & Hk2 & _). rewrite Hscan in He2. by injection He2 as <-.
Qed.

(** C2: End to end: a holder shows its engagement as a QR code, a reader scans it,
    both create a session and establish with each other's public key before
    their deadlines.  Then both are established, and every later sequence of
    sends and deliveries behaves as two empty FIFO channels. *)
Theorem qr_sessions_deliver im now e c store store' dev uri e' im' now' random c' rdr t1 t2 t3 t4 :
  from_engagement im now e c store = (store', Ok dev) ->
  to_qr_uri e = Ok uri -> from_qr_uri uri = Ok e' ->
  reader_from_engagement im' now' random e' c' = Ok rdr ->
  t1 < deadline dev -> t2 < deadline dev -> t3 < deadline rdr -> t4 < deadline rdr ->
  exists dev' rdr',
    Session_establish t1 t2 (public_key (key_agreement rdr)) dev = (dev', Ok tt) /\
    Session_establish t3 t4 (public_key (key_agreement dev)) rdr = (rdr', Ok tt) /\
    forall ops,
      let p0 := mkPair (fun r => match r with RoleDevice => dev' | RoleReader => rdr' end)
                  (const []) in
      Forall (op_in_time p0) ops ->
      run pair_step p0 ops = run channels_step (mkChannels (const []) (const 0)) ops.
Proof.
  intros Hdev Huri Hscan Hrdr Ht1 Ht2 Ht3 Ht4.
  destruct (from_engagement_key _ _ _ _ _ _ _ Hdev) as (Hkey & cb & Hcb).
  destruct (scanned_engagement _ _ _ _ Huri Hscan Hcb Hkey) as [Hcb' Hkey'].
  destruct (parties_establish _ _ _ _ _ _ _ _ _ _ _ _ _ _ t1 t2 t3 t4 Hdev Hrdr Hcb Hcb' Hkey'
    Ht1 Ht2 Ht3 Ht4) as (dev' & rdr' & ed & er & Hd & Hr & Hed & Her & Hc1 & Hc2 & Hs1 & Hs2).
  exists dev', rdr'. split; [done|]. split; [done|]. intros ops p0 Hops.
  apply refines_run; [|done].
  exists (fun r => match r with RoleDevice => ed | RoleReader => er end).
  intros [|]; cbn; split_and!; done || constructor.
Qed.

End pair.
