(* ===== verification/MdlTransport.v ===== *)
(** * ISO 18013-5 transports and selective disclosure (marty-iso18013)

    The [Transport] trait as a class, the channel that couples a session with
    its transport ([transport/session_channel.rs]), the mock, HTTPS, NFC and BLE
    transports ([transport/mock.rs], [https.rs], [nfc.rs], [ble.rs]), and the
    filter of requested elements ([selective.rs]).  The web server, the smart
    card behind the reader and the Bluetooth peripheral are parameters. *)

From S2P Require Import Prelude Des CryptoKit Engagement MdlSession.
Local Open Scope Z_scope.

#[local] Abbreviation bytes := (list Z).
#[local] Abbreviation result := (res IsoError).

(** [src/marty-iso18013/src/transport/mod.rs:26-42] Transport *)
Class Transport_ops (T : Type) := {
  transport_connect : T -> T * result unit;
  transport_send : bytes -> T -> T * result unit;
  transport_receive : T -> T * result bytes;
  transport_close : T -> T * result unit;
  is_connected : T -> bool;
}.

(** ** A session with its transport *)

Section channel.
Context `{Aes} `{Sha2} `{Hkdf} `{P256} `{IsoMdl} {T : Type} `{Transport_ops T}.

(** [src/marty-iso18013/src/transport/session_channel.rs:10-13] SessionChannel *)
Record SessionChannel := mkChannel { session : Session; transport : T }.

(** [src/marty-iso18013/src/transport/session_channel.rs:17-23] SessionChannel::connect *)
Definition channel_connect (s : Session) (t : T) : SessionChannel * result unit :=
  match transport_connect t with
  | (t, Ok _) => (mkChannel s t, Ok tt)
  | (t, r) => (mkChannel (terminate s) t, r)
  end.

(** [src/marty-iso18013/src/transport/session_channel.rs:26-33] SessionChannel::send *)
Definition channel_send (now1 now2 : Z) (plaintext : bytes) (ch : SessionChannel) :
    SessionChannel * result unit :=
  match send_encrypted now1 now2 plaintext (session ch) with
  | (s, Ok ciphertext) =>
      match transport_send ciphertext (transport ch) with
      | (t, Ok _) => (mkChannel s t, Ok tt)
      | (t, r) => (mkChannel (terminate s) t, r)
      end
  | (s, Err e) => (mkChannel s (transport ch), Err e)
  | (s, Panic) => (mkChannel s (transport ch), Panic)
  end.

(** [src/marty-iso18013/src/transport/session_channel.rs:36-51] SessionChannel::receive *)
Definition channel_receive (now1 now2 : Z) (ch : SessionChannel) :
    SessionChannel * result bytes :=
  match transport_receive (transport ch) with
  | (t, Ok ciphertext) =>
      match receive_encrypted now1 now2 ciphertext (session ch) with
      | (s, Ok value) => (mkChannel s t, Ok value)
      | (s, r) => (mkChannel (terminate s) t, r)
      end
  | (t, r) => (mkChannel (terminate (session ch)) t, r)
  end.

(** [src/marty-iso18013/src/transport/session_channel.rs:54-58] SessionChannel::close *)
Definition channel_close (ch : SessionChannel) : SessionChannel * result unit :=
  let '(t, r) := transport_close (transport ch) in
  (mkChannel (terminate (session ch)) t, r).

End channel.
Arguments SessionChannel {_} T.

(** ** Mock transport *)

(** [src/marty-iso18013/src/transport/mock.rs:10-14] MockTransport *)
Record MockTransport := mkMock {
  mock_connected : bool;
  send_queue : list bytes;
  receive_queue : list bytes;
}.

(** [src/marty-iso18013/src/transport/mock.rs:18-24] MockTransport::new *)
Definition mock_new : MockTransport := mkMock false [] [].

(** [src/marty-iso18013/src/transport/mock.rs:27-29] MockTransport::queue_receive *)
Definition queue_receive (data : bytes) (t : MockTransport) : MockTransport :=
  mkMock (mock_connected t) (send_queue t) (receive_queue t ++ [data]).

(** [src/marty-iso18013/src/transport/mock.rs:32-34] MockTransport::get_sent *)
Definition get_sent (t : MockTransport) : MockTransport * option bytes :=
  (mkMock (mock_connected t) (tail (send_queue t)) (receive_queue t), head (send_queue t)).

Definition not_connected {A} : result A := Err (ConnectionFailed "Not connected").

(** [src/marty-iso18013/src/transport/mock.rs:50-58] MockTransport::send *)
Definition mock_send (data : bytes) (t : MockTransport) : MockTransport * result unit :=
  if mock_connected t
  then (mkMock true (send_queue t ++ [data]) (receive_queue t), Ok tt)
  else (t, not_connected).

(** [src/marty-iso18013/src/transport/mock.rs:60-72] MockTransport::receive *)
Definition mock_receive (t : MockTransport) : MockTransport * result bytes :=
  if mock_connected t
  then match receive_queue t with
       | data :: rest => (mkMock true (send_queue t) rest, Ok data)
       | [] => (t, Err (ReceiveFailed "No data available"))
       end
  else (t, not_connected).

#[export] Instance mock_transport : Transport_ops MockTransport := {
  transport_connect t := (mkMock true (send_queue t) (receive_queue t), Ok tt);
  transport_send := mock_send;
  transport_receive := mock_receive;
  transport_close t := (mkMock false (send_queue t) (receive_queue t), Ok tt);
  is_connected := mock_connected;
}.

(** ** HTTPS transport *)

(** [reqwest]: a request gives a transport error, or a status code with the
    body, whose reading may fail. *)
Record HttpResponse := mkHttp { status : Z; body : res string bytes }.
Class HttpServer (W : Type) := {
  http_post : W -> string -> bytes -> W * res string HttpResponse;
  http_get : W -> string -> W * res string HttpResponse;
  http_status_text : Z -> string;
}.

Section https.
Context {W : Type} `{HttpServer W}.

(** [src/marty-iso18013/src/transport/https.rs:8-12] HttpsTransport *)
Record HttpsTransport := mkHttps { world : W; url : string; https_connected : bool }.

(** [StatusCode::is_success]. *)
Definition http_success (status : Z) : bool := (200 <=? status) && (status <? 300).

(** [src/marty-iso18013/src/transport/https.rs:33-56] HttpsTransport::send *)
Definition https_send (data : bytes) (t : HttpsTransport) : HttpsTransport * result unit :=
  if https_connected t then
    let '(w, r) := http_post (world t) (url t) data in
    (mkHttps w (url t) true,
     response ← map_err SendFailed r;
     ensure (http_success (status response))
       (SendFailed ("HTTP error: " +:+ http_status_text (status response))))
  else (t, not_connected).

(** [src/marty-iso18013/src/transport/https.rs:58-84] HttpsTransport::receive *)
Definition https_receive (t : HttpsTransport) : HttpsTransport * result bytes :=
  if https_connected t then
    let '(w, r) := http_get (world t) (url t) in
    (mkHttps w (url t) true,
     response ← map_err ReceiveFailed r;
     ensure (http_success (status response))
       (ReceiveFailed ("HTTP error: " +:+ http_status_text (status response)));;
     map_err ReceiveFailed (body response))
  else (t, not_connected).

#[export] Instance https_transport : Transport_ops HttpsTransport := {
  transport_connect t := (mkHttps (world t) (url t) true, Ok tt);
  transport_send := https_send;
  transport_receive := https_receive;
  transport_close t := (mkHttps (world t) (url t) false, Ok tt);
  is_connected := https_connected;
}.

End https.
Arguments HttpsTransport W : clear implicits.

(** ** NFC transport *)

(** [src/marty-iso18013/src/transport/nfc.rs:17-26] Apdu *)
Record NfcApdu := mkNfcApdu {
  nfc_cla : Z;
  nfc_ins : Z;
  nfc_p1 : Z;
  nfc_p2 : Z;
  nfc_data : bytes;
  nfc_le : option Z;
}.

(** [src/marty-iso18013/src/transport/nfc.rs:31-31] Apdu::MAX_DATA_LENGTH *)
Definition MAX_DATA_LENGTH : Z := 65535.

(** [src/marty-iso18013/src/transport/nfc.rs:34-72] Apdu::to_bytes *)
Definition nfc_to_bytes (a : NfcApdu) : result bytes :=
  ensure (negb (MAX_DATA_LENGTH <? zlen (nfc_data a)))
    (SendFailed "APDU data exceeds 65535 byte extended-length limit");;
  ensure (negb (from_option (fun le => (le =? 0) || (65536 <? le)) false (nfc_le a)))
    (SendFailed "APDU Le must be between 1 and 65536");;
  let header := [nfc_cla a; nfc_ins a; nfc_p1 a; nfc_p2 a] in
  let extended := (255 <? zlen (nfc_data a)) || from_option (fun le => 256 <? le) false (nfc_le a) in
  let with_data :=
    match nfc_data a with
    | [] => if extended then header ++ [0] else header
    | _ => header ++ (if extended then [0] ++ be16 (wrap 16 (zlen (nfc_data a)))
                      else [wrap 8 (zlen (nfc_data a))]) ++ nfc_data a
    end in
  Ok (match nfc_le a with
      | None => with_data
      | Some le =>
          with_data ++
          (if extended then be16 (if le =? 65536 then 0 else wrap 16 le)
           else [if le =? 256 then 0 else wrap 8 le])
      end).

(** [src/marty-iso18013/src/transport/nfc.rs:75-84] Apdu::select *)
Definition nfc_select (aid : bytes) : NfcApdu := mkNfcApdu 0x00 0xA4 0x04 0x00 aid (Some 256).

(** [src/marty-iso18013/src/transport/nfc.rs:87-96] Apdu::get_data *)
Definition nfc_get_data (tag : Z) : NfcApdu :=
  mkNfcApdu 0x00 0xCA (wrap 8 (Z.land (Z.shiftr tag 8) 0xFF)) (wrap 8 (Z.land tag 0xFF)) []
    (Some 65536).

(** [src/marty-iso18013/src/transport/nfc.rs:99-108] Apdu::envelope *)
Definition envelope (data : bytes) (chained : bool) : NfcApdu :=
  mkNfcApdu (if chained then 0x10 else 0x00) 0xC3 0x00 0x00 data (Some 256).

(** [src/marty-iso18013/src/transport/nfc.rs:110-119] Apdu::envelope_chunks *)
Definition envelope_chunks (data : bytes) : list NfcApdu :=
  match data with
  | [] => [envelope [] false]
  | _ =>
      let chunk_count := div_ceil (zlen data) MAX_DATA_LENGTH in
      imap (fun index chunk => envelope chunk (Z.of_nat index + 1 <? chunk_count))
        (chunks (Z.to_nat MAX_DATA_LENGTH) data)
  end.

(** [src/marty-iso18013/src/transport/nfc.rs:209-227] NfcTransport::extract_data *)
Definition extract_data (sw_text : Z -> Z -> string) (response : bytes) : result bytes :=
  ensure (negb (zlen response <? 2)) (ReceiveFailed "Invalid response");;
  sw1 ← vec_index response (zlen response - 2);
  sw2 ← vec_index response (zlen response - 1);
  if (sw1 =? 0x90) && (sw2 =? 0x00) then vec_slice response 0 (zlen response - 2)
  else Err (ReceiveFailed ("APDU error: SW=" +:+ sw_text sw1 sw2)).

(** [pcsc]: establishing a context and connecting to the first reader gives a
    card or an error of this module; [card_transmit] is [Card::transmit];
    [sw_hex] is [{:02X}{:02X}]. *)
Class Pcsc (C : Type) := {
  pcsc_open : C -> C * result unit;
  card_transmit : C -> bytes -> C * res string bytes;
  sw_hex : Z -> Z -> string;
}.

Section nfc.
Context {C : Type} `{Pcsc C}.

(** [src/marty-iso18013/src/transport/nfc.rs:124-130] NfcTransport *)
Record NfcTransport := mkNfc { reader : C; card : bool; nfc_connected : bool }.

(** [src/marty-iso18013/src/transport/nfc.rs:134-142] NfcTransport::uninitialized, mdl_aid *)
Definition mdl_aid : bytes := [0xA0; 0x00; 0x00; 0x02; 0x48; 0x02; 0x00].

(** [src/marty-iso18013/src/transport/nfc.rs:197-206] NfcTransport::transmit_apdu *)
Definition transmit_apdu (apdu : NfcApdu) (c : C) : C * result bytes :=
  match nfc_to_bytes apdu with
  | Ok command =>
      let '(c, r) := card_transmit c command in
      (c, map_err (fun e => Transport ("APDU transmit failed: " +:+ e)) r)
  | Err e => (c, Err e)
  | Panic => (c, Panic)
  end.

(** [src/marty-iso18013/src/transport/nfc.rs:150-194] NfcTransport::connect_card *)
Definition connect_card (t : NfcTransport) : NfcTransport * result unit :=
  match pcsc_open (reader t) with
  | (c, Ok _) =>
      match transmit_apdu (nfc_select mdl_aid) c with
      | (c, Ok response) =>
          if (zlen response <? 2)
             || negb (bool_decide (drop (length response - 2) response = [0x90; 0x00]))
          then (mkNfc c (card t) (nfc_connected t),
                Err (Transport "Failed to select mDL application"))
          else (mkNfc c true true, Ok tt)
      | (c, Err e) => (mkNfc c (card t) (nfc_connected t), Err e)
      | (c, Panic) => (mkNfc c (card t) (nfc_connected t), Panic)
      end
  | (c, r) => (mkNfc c (card t) (nfc_connected t), r)
  end.

(** [for apdu in Apdu::envelope_chunks(data) { ... }] *)
Fixpoint send_apdus (apdus : list NfcApdu) (c : C) : C * result unit :=
  match apdus with
  | [] => (c, Ok tt)
  | apdu :: apdus =>
      match transmit_apdu apdu c with
      | (c, Ok response) =>
          match extract_data sw_hex response with
          | Ok _ => send_apdus apdus c
          | Err e => (c, Err e)
          | Panic => (c, Panic)
          end
      | (c, Err e) => (c, Err e)
      | (c, Panic) => (c, Panic)
      end
  end.

(** [src/marty-iso18013/src/transport/nfc.rs:244-266] NfcTransport::send *)
Definition nfc_send (data : bytes) (t : NfcTransport) : NfcTransport * result unit :=
  if negb (nfc_connected t) then (t, not_connected)
  else if negb (card t) then (t, Err (Transport "No card connected"))
  else let '(c, r) := send_apdus (envelope_chunks data) (reader t) in
       (mkNfc c (card t) (nfc_connected t), r).

(** [src/marty-iso18013/src/transport/nfc.rs:268-288] NfcTransport::receive *)
Definition nfc_receive (t : NfcTransport) : NfcTransport * result bytes :=
  if negb (nfc_connected t) then (t, not_connected)
  else if negb (card t) then (t, Err (Transport "No card connected"))
  else let '(c, r) := transmit_apdu (nfc_get_data 0x53) (reader t) in
       (mkNfc c (card t) (nfc_connected t), response ← r; extract_data sw_hex response).

(** [src/marty-iso18013/src/transport/nfc.rs:290-301] NfcTransport::close *)
Definition nfc_close (t : NfcTransport) : NfcTransport * result unit :=
  (mkNfc (reader t) false false, Ok tt).

#[export] Instance nfc_transport : Transport_ops NfcTransport := {
  transport_connect := connect_card;
  transport_send := nfc_send;
  transport_receive := nfc_receive;
  transport_close := nfc_close;
  is_connected := nfc_connected;
}.

End nfc.
Arguments NfcTransport C : clear implicits.

(** ** BLE transport *)

(** [btleplug]: writing and reading a characteristic (reading may time out) and
    disconnecting.  Discovery is device I/O and is not modelled. *)
Class BlePeripheral (B : Type) := {
  ble_write : B -> bytes -> B * res string unit;
  ble_read : B -> B * option (res string bytes);
  ble_disconnect : B -> B * res string unit;
}.

Section ble.
Context {B : Type} `{BlePeripheral B}.

(** [src/marty-iso18013/src/transport/ble.rs:51-59] BleTransport *)
Record BleTransport := mkBleTransport {
  peripheral_state : B;
  peripheral : bool;
  client2server : bool;
  server2client : bool;
  ble_connected : bool;
  mtu : Z;
}.

Definition set_peripheral (b : B) (t : BleTransport) : BleTransport :=
  mkBleTransport b (peripheral t) (client2server t) (server2client t) (ble_connected t) (mtu t).

(** [src/marty-iso18013/src/transport/ble.rs:64-73] BleTransport::new *)
Definition ble_new (b : B) : BleTransport := mkBleTransport b false false false false 512.

(** [src/marty-iso18013/src/transport/ble.rs:172-177] BleTransport::fragment_message *)
Definition fragment_message (t : BleTransport) (data : bytes) : list bytes :=
  chunks (Z.to_nat (mtu t - 3)) data.

(** [src/marty-iso18013/src/transport/ble.rs:180-183] BleTransport::reassemble_fragments *)
Definition reassemble_fragments (fragments : list bytes) : bytes := concat fragments.

(** [for fragment in fragments { peripheral.write(...) }] *)
Fixpoint write_fragments (fragments : list bytes) (b : B) : B * result unit :=
  match fragments with
  | [] => (b, Ok tt)
  | fragment :: fragments =>
      match ble_write b fragment with
      | (b, Ok _) => write_fragments fragments b
      | (b, Err e) => (b, Err (SendFailed ("BLE write failed: " +:+ e)))
      | (b, Panic) => (b, Panic)
      end
  end.

(** [src/marty-iso18013/src/transport/ble.rs:200-227] BleTransport::send *)
Definition ble_send (data : bytes) (t : BleTransport) : BleTransport * result unit :=
  if negb (ble_connected t) then (t, not_connected)
  else if negb (peripheral t) then (t, Err (Transport "No peripheral"))
  else if negb (client2server t) then (t, Err (Transport "No characteristic"))
  else let '(b, r) := write_fragments (fragment_message t data) (peripheral_state t) in
       (set_peripheral b t, r).

(** [src/marty-iso18013/src/transport/ble.rs:229-253] BleTransport::receive *)
Definition ble_receive (t : BleTransport) : BleTransport * result bytes :=
  if negb (ble_connected t) then (t, not_connected)
  else if negb (peripheral t) then (t, Err (Transport "No peripheral"))
  else if negb (server2client t) then (t, Err (Transport "No characteristic"))
  else let '(b, r) := ble_read (peripheral_state t) in
       (set_peripheral b t,
        match r with
        | None => Err Timeout
        | Some r => map_err (fun e => ReceiveFailed ("BLE read failed: " +:+ e)) r
        end).

(** [src/marty-iso18013/src/transport/ble.rs:255-269] BleTransport::close *)
Definition ble_close (t : BleTransport) : BleTransport * result unit :=
  if peripheral t then
    match ble_disconnect (peripheral_state t) with
    | (b, Ok _) => (mkBleTransport b false false false false (mtu t), Ok tt)
    | (b, Err e) =>
        (set_peripheral b t,
         Err (Transport ("Disconnect failed: " +:+ e)))
    | (b, Panic) => (set_peripheral b t, Panic)
    end
  else (mkBleTransport (peripheral_state t) false false false false (mtu t), Ok tt).

End ble.
Arguments BleTransport B : clear implicits.

(** ** Selective disclosure *)

(** [src/marty-iso18013/src/selective.rs:13-20] SelectiveDisclosure *)
Record SelectiveDisclosure := mkSelective {
  available : gmap string (gset string);
  mandatory : gset string;
}.

(** [src/marty-iso18013/src/selective.rs:24-29] SelectiveDisclosure::new *)
Definition selective_new : SelectiveDisclosure := mkSelective ∅ ∅.

(** [src/marty-iso18013/src/selective.rs:32-35] SelectiveDisclosure::add_namespace *)
Definition add_namespace (namespace : string) (elements : list string) (sd : SelectiveDisclosure) :
    SelectiveDisclosure :=
  mkSelective (<[namespace := list_to_set elements]> (available sd)) (mandatory sd).

(** [src/marty-iso18013/src/selective.rs:38-40] SelectiveDisclosure::add_mandatory *)
Definition add_mandatory (element : string) (sd : SelectiveDisclosure) : SelectiveDisclosure :=
  mkSelective (available sd) ({[element]} ∪ mandatory sd).

(** [for element in elements { ... }], then the mandatory elements in the
    order in which their hash set is iterated. *)
Definition namespace_elements (sd : SelectiveDisclosure) (mandatory_order : list string)
    (avail approved : gset string) (elements : list string) : list string :=
  let requested :=
    filter (fun e => e ∈ avail /\ (e ∈ mandatory sd \/ e ∈ approved)) elements in
  foldl (fun acc e => if bool_decide (e ∈ avail) && negb (bool_decide (e ∈ acc))
                      then acc ++ [e] else acc) requested mandatory_order.

(** [src/marty-iso18013/src/selective.rs:43-91] SelectiveDisclosure::filter_request *)
Definition filter_request (sd : SelectiveDisclosure) (mandatory_order : list string)
    (requested : list (string * list string)) (user_approved : gmap string (list string)) :
    result (gmap string (list string)) :=
  foldl (fun filtered '(namespace, elements) =>
    f ← filtered;
    avail ← ok_or (available sd !! namespace)
              (Other ("Namespace not available: " +:+ namespace));
    let approved : gset string := list_to_set (default [] (user_approved !! namespace)) in
    let es := namespace_elements sd mandatory_order avail approved elements in
    Ok (match es with [] => f | _ => <[namespace := es]> f end)) (Ok ∅) requested.
