(* ===== verification/MdlTransportFacts.v ===== *)
(** * ISO 18013-5 transports and selective disclosure: theorems

    The channel fails closed; ENVELOPE chaining and BLE fragmentation lose
    nothing and respect their limits, and the NFC commands are read back by the
    APDU parser of the passport component; disclosure releases what was
    requested, available and approved or mandatory, and every available
    mandatory element, and nothing else. *)

From S2P Require Import Prelude Des CryptoKit CryptoKitFacts Engagement EngagementFacts.
From S2P Require Import MdlSession MdlSessionFacts MdlTransport Apdu ApduFacts.
Local Open Scope Z_scope.

#[local] Abbreviation bytes := (list Z).

(** ** The channel fails closed *)

Section channel.
Context `{AesLaws} `{Sha2Laws} `{HkdfLaws} `{P256Laws} `{IsoMdlLaws}.
Context {T : Type} `{Transport_ops T}.

(** A closed session refuses every message, and stays closed. *)
Lemma closed_send now1 now2 m s : closed s ->
  closed (send_encrypted now1 now2 m s).1 /\ exists e, (send_encrypted now1 now2 m s).2 = Err e.
Proof.
  intros Hc. unfold send_encrypted, send_state.
  destruct (ensure_not_expired_cases now1 s) as [[-> _]|[-> _]];
    [|split; [apply expire_closed|cbn; eauto]].
  destruct Hc as (Hst & ?). rewrite bool_decide_false by congruence. cbn. split; [by split|eauto].
Qed.

Lemma closed_receive now1 now2 c s : closed s ->
  closed (receive_encrypted now1 now2 c s).1 /\ exists e, (receive_encrypted now1 now2 c s).2 = Err e.
Proof.
  intros Hc. unfold receive_encrypted, receive_state.
  destruct (ensure_not_expired_cases now1 s) as [[-> _]|[-> _]];
    [|split; [apply expire_closed|cbn; eauto]].
  destruct Hc as (Hst & ?). rewrite bool_decide_false by congruence. cbn. split; [by split|eauto].
Qed.

Inductive ChannelOp := ChSend (now1 now2 : Z) (m : bytes) | ChReceive (now1 now2 : Z) | ChClose.

Definition channel_step (ch : SessionChannel T) (o : ChannelOp) :
    SessionChannel T * option (res IsoError bytes) :=
  match o with
  | ChSend now1 now2 m =>
      ((channel_send now1 now2 m ch).1, Some (const [] <$> (channel_send now1 now2 m ch).2))
  | ChReceive now1 now2 =>
      ((channel_receive now1 now2 ch).1, Some (channel_receive now1 now2 ch).2)
  | ChClose => ((channel_close ch).1, None)
  end.

Lemma closed_channel_step ch o : closed (session ch) ->
  closed (session (channel_step ch o).1) /\
  (forall v, (channel_step ch o).2 <> Some (Ok v)) /\
  (forall now1 now2 m, o = ChSend now1 now2 m -> transport (channel_step ch o).1 = transport ch).
Proof.
  intros Hc. destruct o as [now1 now2 m|now1 now2|]; cbn.
  - unfold channel_send. destruct (closed_send now1 now2 m _ Hc) as [Hc' [e He]].
    destruct (send_encrypted now1 now2 m (session ch)) as [s' r]. cbn in He, Hc'. subst r. by cbn.
  - unfold channel_receive. destruct (transport_receive (transport ch)) as [t' [c| |]]; cbn;
      try (split_and!; [apply terminate_closed|done..]).
    destruct (closed_receive now1 now2 c _ Hc) as [Hc' [e He]].
    destruct (receive_encrypted now1 now2 c (session ch)) as [s' r]. cbn in He. subst r. cbn.
    split_and!; [apply terminate_closed|done..].
  - unfold channel_close. destruct (transport_close (transport ch)).
    split_and!; [apply terminate_closed|done..].
Qed.

(** What is left of a channel's operations once its session refuses everything:
    nothing is handed to the transport any more. *)
Definition transport_only (t : T) (o : ChannelOp) : T :=
  match o with
  | ChSend _ _ _ => t
  | ChReceive _ _ => (transport_receive t).1
  | ChClose => (transport_close t).1
  end.

Lemma closed_transport ch o : closed (session ch) ->
  transport (channel_step ch o).1 = transport_only (transport ch) o.
Proof.
  intros Hc. destruct o as [now1 now2 m|now1 now2|]; cbn.
  - destruct (closed_channel_step ch (ChSend now1 now2 m) Hc) as (_ & _ & Ht).
    exact (Ht now1 now2 m eq_refl).
  - unfold channel_receive. destruct (transport_receive (transport ch)) as [t' [c| |]]; [|done..].
    by destruct (receive_encrypted now1 now2 c (session ch)) as [s' []].
  - unfold channel_close. by destruct (transport_close (transport ch)).
Qed.

(** Once closed, a channel delivers and accepts nothing more, in any sequence
    of operations, and its session never regains a secret. *)
Lemma closed_channel_stays_closed ops : forall ch, closed (session ch) ->
  closed (session (run_state channel_step ch ops)) /\
  Forall (fun r => forall v, r <> Some (Ok v)) (run channel_step ch ops) /\
  transport (run_state channel_step ch ops) = foldl transport_only (transport ch) ops.
Proof.
  induction ops as [|o ops IH]; intros ch Hc; [by split_and!|].
  destruct (closed_channel_step ch o Hc) as (Hc' & Hr & _).
  destruct (IH _ Hc') as (Hend & Hall & Ht). cbn. split_and!; [done|by constructor|].
  by rewrite <- (closed_transport ch o Hc).
Qed.

(** An operation that breaks the channel: a close, a receive that fails, or a
    message that the session sealed and the transport refused. *)
Definition breaks (ch : SessionChannel T) (o : ChannelOp) : Prop :=
  match o with
  | ChSend now1 now2 m =>
      exists ct, (send_encrypted now1 now2 m (session ch)).2 = Ok ct /\
        (transport_send ct (transport ch)).2 <> Ok tt
  | ChReceive now1 now2 => forall v, (channel_receive now1 now2 ch).2 <> Ok v
  | ChClose => True
  end.

Lemma breaks_closed ch o : breaks ch o -> closed (session (channel_step ch o).1).
Proof.
  destruct o as [now1 now2 m|now1 now2|]; cbn [breaks channel_step fst].
  - intros (ct & Hct & Ht). unfold channel_send.
    destruct (send_encrypted now1 now2 m (session ch)) as [s' r]. cbn in Hct. subst r.
    destruct (transport_send ct (transport ch)) as [t' [[]| |]]; [done|apply terminate_closed..].
  - unfold channel_receive. destruct (transport_receive (transport ch)) as [t' [c| |]];
      [|intros _; apply terminate_closed..].
    destruct (receive_encrypted now1 now2 c (session ch)) as [s' [v| |]]; cbn;
      [naive_solver|intros _; apply terminate_closed..].
  - intros _. unfold channel_close. destruct (transport_close (transport ch)). apply terminate_closed.
Qed.

(** A message that the session refuses changes nothing, or finds the session
    past its deadline and closes it. *)
Lemma send_refused now1 now2 m s : (forall ct, (send_encrypted now1 now2 m s).2 <> Ok ct) ->
  (send_encrypted now1 now2 m s).1 = s \/ closed (send_encrypted now1 now2 m s).1.
Proof.
  unfold send_encrypted. destruct (ensure_not_expired_cases now1 s) as [[-> _]|[-> _]];
    [|intros _; right; apply expire_closed].
  destruct (send_state m s) as [[]| |]; [|by left..]. unfold send_locked.
  destruct (deadline s <=? now2); [intros _; right; apply expire_closed|].
  destruct (encryption s) as [enc|] eqn:He; [|by left]. unfold encrypt.
  assert (set_encryption (Some enc) s = s) as Hsame by (destruct s; cbn in *; by subst).
  destruct (u32_checked_add (send_counter enc) 1); cbn; [|by left].
  destruct (from_crypto _) as [ct| |]; cbn; [|by left..]. intros Hno. by destruct (Hno ct).
Qed.


End channel.

(** ** NFC commands *)

(** What the passport component's parser calls the expected length: 256 and 65536
    are encoded as zero. *)
Definition wire_le (a : NfcApdu) : option Z :=
  (fun le => if (255 <? zlen (nfc_data a)) || (256 <? le)
             then le mod 65536 else le mod 256) <$> nfc_le a.

Lemma le_byte le : 0 < le <= 256 -> (if le =? 256 then 0 else wrap 8 le) = le mod 256.
Proof. intros Hle. unfold wrap. destruct (Z.eqb_spec le 256) as [->|]; done. Qed.

Lemma le_word le : 0 < le <= 65536 -> (if le =? 65536 then 0 else wrap 16 le) = le mod 65536.
Proof. intros Hle. unfold wrap. destruct (Z.eqb_spec le 65536) as [->|]; done. Qed.

Definition le_ok (le : option Z) : Prop := forall v, le = Some v -> 0 < v <= 65536.

(** The bytes of a command within the limits, in the four forms of ISO 7816-4. *)
Lemma nfc_to_bytes_parse c i x y data le : zlen data <= 65535 -> le_ok le ->
  let a := mkNfcApdu c i x y data le in
  exists raw, nfc_to_bytes a = Ok raw /\
    command_from_bytes raw = Ok (mkCommand c i x y data (wire_le a)).
Proof.
  intros Hd Hle. cbn zeta. unfold nfc_to_bytes, wire_le, MAX_DATA_LENGTH.
  cbn [nfc_cla nfc_ins nfc_p1 nfc_p2 nfc_data nfc_le]. decide_tests.
  replace (from_option (fun le => (le =? 0) || (65536 <? le)) false le) with false.
  2:{ destruct le as [v|]; [|done]. specialize (Hle v eq_refl). cbn. decide_tests. done. }
  cbn [ensure negb mbind res_bind]. eexists. split; [done|].
  destruct data as [|b data].
  - rewrite zlen_nil. cbn [Z.ltb Z.compare orb]. destruct le as [v|]; [|done].
    specialize (Hle v eq_refl). cbn [from_option fmap option_fmap option_map].
    destruct (Z.ltb_spec 256 v); cbn [app].
    + rewrite le_word by lia. apply from_bytes_le_extended. pose proof (Z.mod_pos_bound v 65536). lia.
    + rewrite le_byte by lia. pose proof (Z.mod_pos_bound v 256).
      pose proof (from_bytes_le c i x y (v mod 256) ltac:(lia)) as Hf.
      by rewrite (proj2 (Z.leb_le (v mod 256) 255)) in Hf by lia.
  - set (d := b :: data) in *.
    assert (1 <= zlen d) as Hpos by (unfold d; lens; pose proof (zlen_nonneg data); lia).
    clearbody d. destruct ((255 <? zlen d) || from_option (fun le => 256 <? le) false le) eqn:Hext.
    + assert (wrap 16 (zlen d) = zlen d) as -> by (apply wrap16_small; lia).
      destruct le as [v|]; cbn [fmap option_fmap option_map from_option] in *.
      * rewrite Hext. specialize (Hle v eq_refl). rewrite le_word, <- !app_assoc by lia. cbn [app].
        pose proof (Z.mod_pos_bound v 65536).
        apply from_bytes_extended; [lia|intros ? [= <-]; lia|done].
      * rewrite <- (app_nil_r d) at 2. cbn [app]. by apply from_bytes_extended; [lia|..].
    + apply orb_false_iff in Hext as [Hs%Z.ltb_ge Hv].
      rewrite wrap8_small by lia.
      destruct le as [v|]; cbn [fmap option_fmap option_map from_option] in *.
      * rewrite Hv, (proj2 (Z.ltb_ge 255 (zlen d))) by lia. apply Z.ltb_ge in Hv. cbn [orb].
        specialize (Hle v eq_refl). rewrite le_byte, <- !app_assoc by lia. cbn [app].
        by apply from_bytes_short; [lia|].
      * rewrite <- (app_nil_r d) at 2. cbn [app]. by apply from_bytes_short; [lia|].
Qed.

(** [to_bytes] succeeds exactly within the limits of an extended APDU, and then
    the passport component's parser reads the same command back. *)
Theorem nfc_command_parses (a : NfcApdu) :
  match nfc_to_bytes a with
  | Ok raw => zlen (nfc_data a) <= 65535 /\ ((forall le, nfc_le a = Some le -> 0 <= le) ->
      command_from_bytes raw =
      Ok (mkCommand (nfc_cla a) (nfc_ins a) (nfc_p1 a) (nfc_p2 a) (nfc_data a) (wire_le a)))
  | Err e => 65535 < zlen (nfc_data a) \/ exists le, nfc_le a = Some le /\ ~ 0 < le <= 65536
  | Panic => False
  end.
Proof.
  destruct (nfc_to_bytes a) as [raw|e|] eqn:Ha.
  - assert (zlen (nfc_data a) <= 65535 /\
      forall le, nfc_le a = Some le -> le <> 0 /\ le <= 65536) as [Hd Hle].
    { unfold nfc_to_bytes, MAX_DATA_LENGTH in Ha. res_inv. breflect. split; [lia|].
      intros le Hle. rewrite Hle in *. cbn in *. breflect. lia. }
    split; [done|]. intros Hpos. destruct a as [c i x y d l].
    cbn [nfc_cla nfc_ins nfc_p1 nfc_p2 nfc_data nfc_le] in *.
    destruct (nfc_to_bytes_parse c i x y d l Hd) as (raw' & Hr & Hp); [|congruence].
    intros v Hv. specialize (Hle v Hv). specialize (Hpos v Hv). lia.
  - destruct (Z.lt_ge_cases 65535 (zlen (nfc_data a))) as [|Hd]; [by left|right].
    destruct a as [c i x y d l]. cbn [nfc_data nfc_le] in *. destruct l as [v|].
    + exists v. split; [done|]. intros Hv.
      destruct (nfc_to_bytes_parse c i x y d (Some v) Hd) as (raw' & Hr & _); [|congruence].
      by intros ? [= <-].
    + destruct (nfc_to_bytes_parse c i x y d None Hd) as (raw' & Hr & _); [done|congruence].
  - unfold nfc_to_bytes, ensure in Ha. repeat case_match; done.
Qed.

(** Marking every chunk but the last as chained. *)
Lemma mark_chained (cs : list bytes) : cs <> [] ->
  let f index chunk := envelope chunk (Z.of_nat index + 1 <? Z.of_nat (length cs)) in
  map nfc_data (imap f cs) = cs /\
  exists init final, imap f cs = init ++ [final] /\
    Forall (fun a => nfc_cla a = 0x10) init /\ nfc_cla final = 0x00.
Proof.
  intros Hne f. split.
  - apply list_eq. intros i. rewrite list_lookup_fmap, list_lookup_imap.
    by destruct (cs !! i).
  - destruct (exists_last Hne) as (init & final & Hcs). rewrite Hcs, imap_app. cbn [imap].
    exists (imap f init). eexists. split; [done|]. split.
    + apply Forall_lookup. intros i a Hi. rewrite list_lookup_imap in Hi.
      destruct (init !! i) as [c|] eqn:Hc; [|done]. injection Hi as <-.
      apply lookup_lt_Some in Hc. unfold f. rewrite Hcs, length_app. cbn [length].
      by rewrite (proj2 (Z.ltb_lt _ _)) by lia.
    + unfold f. cbn. rewrite Hcs, length_app. cbn [length].
      by rewrite (proj2 (Z.ltb_ge _ _)) by lia.
Qed.

Lemma envelope_encodes data chained : zlen data <= 65535 ->
  exists raw, nfc_to_bytes (envelope data chained) = Ok raw.
Proof.
  intros Hd. edestruct (nfc_to_bytes_parse (if chained then 0x10 else 0x00) 0xC3 0 0 data (Some 256) Hd)
    as (raw & Hr & _); [by intros ? [= <-]|eauto].
Qed.

(** An ENVELOPE chain carries the message in order, marks every command but the
    last as chained, and every command of it can be encoded. *)
Theorem envelope_chain_complete data :
  concat (map nfc_data (envelope_chunks data)) = data /\
  (exists init final, envelope_chunks data = init ++ [final] /\
     Forall (fun a => nfc_cla a = 0x10) init /\ nfc_cla final = 0x00) /\
  Forall (fun a => exists raw, nfc_to_bytes a = Ok raw) (envelope_chunks data).
Proof.
  set (n := Z.to_nat MAX_DATA_LENGTH). assert (0 < n)%nat as Hn by (unfold n, MAX_DATA_LENGTH; lia).
  destruct (decide (data = [])) as [->|Hne].
  { split; [done|]. split; [by exists [], (envelope [] false)|].
    repeat constructor. by apply envelope_encodes. }
  pose proof (chunks_length n data Hn) as Hlen. unfold n in Hlen at 2.
  rewrite Z2Nat.id in Hlen by done.
  assert (envelope_chunks data = imap (fun index chunk =>
    envelope chunk (Z.of_nat index + 1 <? Z.of_nat (length (chunks n data)))) (chunks n data)) as ->.
  { rewrite Hlen. by destruct data. }
  pose proof (chunks_concat n data Hn) as Hcat. pose proof (chunks_sizes n data Hn) as Hsz.
  destruct (mark_chained (chunks n data)) as [Hdata Hmark]; [intros Hnil; by rewrite Hnil in Hcat|].
  split_and!; [by rewrite Hdata|done|]. apply Forall_lookup. intros i a Hi.
  rewrite list_lookup_imap in Hi. destruct (chunks n data !! i) as [c|] eqn:Hc; [|done].
  injection Hi as <-. apply envelope_encodes. rewrite Forall_lookup in Hsz.
  specialize (Hsz i c Hc). unfold n, MAX_DATA_LENGTH, zlen in *. lia.
Qed.

(** BLE fragments fit the attribute payload, none is empty, and put together
    they are the message. *)
Theorem ble_fragments_reassemble {B} (t : BleTransport B) data : 3 < mtu t ->
  reassemble_fragments (fragment_message t data) = data /\
  Forall (fun f => 0 < zlen f <= mtu t - 3) (fragment_message t data).
Proof.
  intros Hmtu. unfold reassemble_fragments, fragment_message. split; [apply chunks_concat; lia|].
  eapply Forall_impl; [apply chunks_sizes; lia|]. intros f Hf. unfold zlen. cbn in Hf. lia.
Qed.

(** ** Selective disclosure *)

Lemma fold_mandatory (avail : gset string) order : forall acc,
  forall e, e ∈ foldl (fun acc e => if bool_decide (e ∈ avail) && negb (bool_decide (e ∈ acc))
                                   then acc ++ [e] else acc) acc order <->
            e ∈ acc \/ e ∈ order /\ e ∈ avail.
Proof.
  induction order as [|x order IH]; intros acc e; cbn [foldl].
  - rewrite elem_of_nil. tauto.
  - etrans; [apply IH|]. rewrite elem_of_cons.
    repeat case_bool_decide; cbn [andb negb]; rewrite ?elem_of_app, ?list_elem_of_singleton;
      naive_solver.
Qed.

(** The elements released for a namespace. *)
Lemma namespace_elements_spec sd order (avail approved : gset string) elements e :
  (forall x, x ∈ order <-> x ∈ mandatory sd) ->
  e ∈ namespace_elements sd order avail approved elements <->
  e ∈ avail /\ (e ∈ mandatory sd \/ e ∈ elements /\ e ∈ approved).
Proof.
  intros Horder. unfold namespace_elements. rewrite fold_mandatory, list_elem_of_filter, Horder.
  tauto.
Qed.

Section disclosure.
Context (sd : SelectiveDisclosure) (order : list string) (approved : gmap string (list string)).
Context (Horder : forall x, x ∈ order <-> x ∈ mandatory sd).

Definition released (out : gmap string (list string)) (ns e : string) : Prop :=
  exists es, out !! ns = Some es /\ e ∈ es.

(** What may be released: an available element of a requested namespace that is
    mandatory, or requested and approved. *)
Definition releasable (requested : list (string * list string)) (ns e : string) : Prop :=
  exists els avail, (ns, els) ∈ requested /\ available sd !! ns = Some avail /\ e ∈ avail /\
    (e ∈ mandatory sd \/ e ∈ els /\ e ∈ default [] (approved !! ns)).

Definition filter_step (filtered : res IsoError (gmap string (list string)))
    (entry : string * list string) : res IsoError (gmap string (list string)) :=
  let '(namespace, elements) := entry in
  f ← filtered;
  avail ← ok_or (available sd !! namespace) (Other ("Namespace not available: " +:+ namespace));
  let app : gset string := list_to_set (default [] (approved !! namespace)) in
  let es := namespace_elements sd order avail app elements in
  Ok (match es with [] => f | _ => <[namespace := es]> f end).

Lemma filter_step_error l : forall e, foldl filter_step (Err e) l = Err e.
Proof. induction l as [|[ns els] l IH]; cbn; auto. Qed.

Lemma released_insert f ns es avail els e ns' :
  es = namespace_elements sd order avail (list_to_set (default [] (approved !! ns))) els ->
  available sd !! ns = Some avail -> f !! ns = None ->
  released (match es with [] => f | _ => <[ns := es]> f end) ns' e <->
  released f ns' e \/ releasable [(ns, els)] ns' e.
Proof.
  intros Hes Havail Hf. assert (Hin : forall e, e ∈ es <-> releasable [(ns, els)] ns e).
  { intros e0. rewrite Hes, (namespace_elements_spec sd order _ _ _ _ Horder), elem_of_list_to_set.
    unfold releasable. setoid_rewrite list_elem_of_singleton. naive_solver. }
  assert (Hns : releasable [(ns, els)] ns' e -> ns' = ns).
  { intros (? & ? & Hm & _). apply list_elem_of_singleton in Hm. congruence. }
  unfold released. destruct (decide (ns' = ns)) as [->|Hne].
  - rewrite Hf, <- Hin. destruct es as [|x es].
    + rewrite Hf. split; [naive_solver|]. intros [?|Hx%elem_of_nil]; naive_solver.
    + rewrite lookup_insert_eq. naive_solver.
  - destruct es as [|x es]; rewrite ?lookup_insert_ne by done; naive_solver.
Qed.

Lemma filter_fold requested : forall f, NoDup requested.*1 ->
  (forall ns, ns ∈ requested.*1 -> f !! ns = None) ->
  match foldl filter_step (Ok f) requested with
  | Ok out => (forall ns, ns ∈ requested.*1 -> is_Some (available sd !! ns)) /\
              forall ns e, released out ns e <-> released f ns e \/ releasable requested ns e
  | Err x => exists ns, ns ∈ requested.*1 /\ available sd !! ns = None /\
              x = Other ("Namespace not available: " +:+ ns)
  | Panic => False
  end.
Proof.
  induction requested as [|[ns els] requested IH]; intros f Hnd Hf.
  { cbn. split; [intros ns; by rewrite elem_of_nil|]. intros ns e. split; [by left|].
    intros [?|(? & ? & Hm & _)]; [done|by apply elem_of_nil in Hm]. }
  cbn in Hnd. apply NoDup_cons in Hnd as [Hns Hnd]. cbn [foldl filter_step].
  destruct (available sd !! ns) as [avail|] eqn:Ha; cbn [ok_or mbind res_bind].
  2:{ rewrite filter_step_error. exists ns. cbn. split; [by left|done]. }
  set (es := namespace_elements _ _ _ _ _).
  assert (Hfree : f !! ns = None) by (apply Hf; cbn; by left).
  specialize (IH (match es with [] => f | _ => <[ns := es]> f end) Hnd).
  ospecialize (IH _).
  { intros ns' Hin. destruct es; [apply Hf; cbn; by right|].
    rewrite lookup_insert_ne by (by intros ->). apply Hf. cbn. by right. }
  destruct (foldl filter_step _ requested) as [out|x|]; [|naive_solver (set_solver)|done].
  destruct IH as [Hav Hrel]. split.
  - intros ns' Hin. cbn in Hin. apply elem_of_cons in Hin as [->|Hin]; [by rewrite Ha|auto].
  - intros ns' e. rewrite Hrel, (released_insert f ns es avail els e ns' eq_refl Ha Hfree).
    unfold releasable. setoid_rewrite elem_of_cons. setoid_rewrite elem_of_nil. naive_solver.
Qed.

End disclosure.

(** Filtering a request releases exactly the available elements of requested
    namespaces that are mandatory, or both requested and approved, in whatever
    order the hash maps are visited; it fails only for a namespace the holder
    does not have. *)
Theorem filter_request_exact sd order requested approved :
  (forall x, x ∈ order <-> x ∈ mandatory sd) -> NoDup requested.*1 ->
  match filter_request sd order requested approved with
  | Ok out => (forall ns, ns ∈ requested.*1 -> is_Some (available sd !! ns)) /\
              forall ns e, released out ns e <-> releasable sd approved requested ns e
  | Err x => exists ns, ns ∈ requested.*1 /\ available sd !! ns = None /\
              x = Other ("Namespace not available: " +:+ ns)
  | Panic => False
  end.
Proof.
  intros Horder Hnd. pose proof (filter_fold sd order approved Horder requested ∅ Hnd) as Hf.
  ospecialize (Hf _); [done|]. change (filter_request sd order requested approved) with
    (foldl (filter_step sd order approved) (Ok ∅) requested).
  destruct (foldl _ _ requested) as [out|x|]; [|done..]. destruct Hf as [Ha Hr].
  split; [done|]. intros ns e. rewrite Hr. split; [|by right]. intros [(es & Hes & _)|]; [|done].
  by rewrite lookup_empty in Hes.
Qed.
