(* ===== verification/Handover.v ===== *)
(** * OpenID4VP handover (marty-iso18013, [openid4vp.rs])

    The session transcript that binds an mdoc presentation to the verifier's
    request, the thumbprint of the response-encryption key and the diagnostic
    digests.  CBOR encoding ([ciborium]), the JWK parser ([serde_json]) and
    SHA-256 are parameters.  A transcript is built exactly for requests
    whose fields are present and bounded, and binds them: two requests with the
    same transcript have equal handover digests, and the same fields and response
    key unless SHA-256 collides on the two inputs exhibited. *)

From S2P Require Import Prelude Des CryptoKit CryptoKitFacts Engagement Governance CanonicalJsonFacts.
From S2P Require Import GovernanceFacts.
Local Open Scope Z_scope.

#[local] Abbreviation bytes := (list Z).
#[local] Abbreviation result := (res IsoError).

(** The [ciborium] values this code builds. *)
Inductive CborValue :=
| CborNull
| CborText (s : string)
| CborBytes (b : bytes)
| CborArray (vs : list CborValue).

(** [src/marty-iso18013/src/openid4vp.rs:17-23] EcResponseEncryptionJwk *)
Record EcResponseEncryptionJwk := mkJwk { crv : string; kty : string; jwk_x : string; jwk_y : string }.

Class Ciborium := cbor_write : CborValue -> res string bytes.
Class CiboriumLaws `{Ciborium} : Prop := {
  cbor_write_total v : exists b, cbor_write v = Ok b;
  cbor_write_inj v w b : cbor_write v = Ok b -> cbor_write w = Ok b -> v = w;
}.
Class JwkParser := jwk_from_str : string -> res string EcResponseEncryptionJwk.

(** [src/marty-iso18013/src/openid4vp.rs:13-15] HANDOVER_LABEL and the limits *)
Definition HANDOVER_LABEL : string := "OpenID4VPHandover".
Definition MAX_HANDOVER_STRING_BYTES : Z := 8 * 1024.
Definition MAX_JWK_MEMBER_BYTES : Z := 2 * 1024.

(** [src/marty-iso18013/src/openid4vp.rs:26-34] MdocBindingDigests *)
Record MdocBindingDigests := mkDigests {
  transcript_sha256 : string;
  client_id_sha256 : string;
  nonce_sha256 : string;
  response_uri_sha256 : string;
  response_key_thumbprint_sha256 : string;
  presentation_sha256 : string;
}.

(** [src/marty-iso18013/src/openid4vp.rs:150-158] validate_required_string *)
Definition validate_required_string (name value : string) (max_bytes : Z) : result unit :=
  ensure (negb (str_len value =? 0)) (InvalidRequest (name +:+ " must not be empty"));;
  ensure (negb (max_bytes <? str_len value)) (InvalidRequest (name +:+ " is too large")).

Section handover.
Context `{Sha2} `{Ciborium} `{JwkParser} `{JsonText}.

(** A literal member name in double quotes, with the colon. *)
Definition member (name : string) : string :=
  let quote := String (ascii_of_nat 34) EmptyString in quote +:+ name +:+ quote +:+ ":".

(** The canonical JWK of RFC 7638: the required members in lexicographic order. *)
Definition canonical_jwk (j : EcResponseEncryptionJwk) : string :=
  "{" +:+ member "crv" +:+ json_string (crv j) +:+ "," +:+ member "kty" +:+ json_string (kty j)
  +:+ "," +:+ member "x" +:+ json_string (jwk_x j) +:+ "," +:+ member "y" +:+ json_string (jwk_y j)
  +:+ "}".

(** [src/marty-iso18013/src/openid4vp.rs:40-71] response_encryption_jwk_thumbprint *)
Definition response_encryption_jwk_thumbprint (jwk_json : string) : result bytes :=
  ensure (negb (MAX_HANDOVER_STRING_BYTES <? str_len jwk_json))
    (InvalidRequest "response-encryption JWK is too large");;
  jwk ← map_err (fun e => InvalidRequest ("invalid response-encryption JWK: " +:+ e))
          (jwk_from_str jwk_json);
  ensure (bool_decide (kty jwk = "EC"))
    (InvalidRequest "OpenID4VP response-encryption JWK must be an EC key");;
  validate_required_string "crv" (crv jwk) MAX_JWK_MEMBER_BYTES;;
  validate_required_string "kty" (kty jwk) MAX_JWK_MEMBER_BYTES;;
  validate_required_string "x" (jwk_x jwk) MAX_JWK_MEMBER_BYTES;;
  validate_required_string "y" (jwk_y jwk) MAX_JWK_MEMBER_BYTES;;
  Ok (sha256_of (str_bytes (canonical_jwk jwk))).

(** [src/marty-iso18013/src/openid4vp.rs:144-148] encode_cbor *)
Definition encode_cbor (v : CborValue) : result bytes := map_err CborEncode (cbor_write v).

(** [.map(response_encryption_jwk_thumbprint).transpose()?]. *)
Definition optional_thumbprint (jwk_json : option string) : result (option bytes) :=
  match jwk_json with
  | None => Ok None
  | Some j => t ← response_encryption_jwk_thumbprint j; Ok (Some t)
  end.

Definition handover_info (client_id nonce response_uri : string) (thumbprint : option bytes) :
    CborValue :=
  CborArray [CborText client_id; CborText nonce;
             from_option CborBytes CborNull thumbprint; CborText response_uri].

Definition validate_handover_request (client_id nonce response_uri : string) : result unit :=
  validate_required_string "client_id" client_id MAX_HANDOVER_STRING_BYTES;;
  validate_required_string "nonce" nonce MAX_HANDOVER_STRING_BYTES;;
  validate_required_string "response_uri" response_uri MAX_HANDOVER_STRING_BYTES.

(** [src/marty-iso18013/src/openid4vp.rs:78-108] build_mdoc_session_transcript *)
Definition build_mdoc_session_transcript (client_id nonce response_uri : string)
    (jwk_json : option string) : result bytes :=
  validate_handover_request client_id nonce response_uri;;
  thumbprint ← optional_thumbprint jwk_json;
  info ← encode_cbor (handover_info client_id nonce response_uri thumbprint);
  encode_cbor (CborArray [CborNull; CborNull;
    CborArray [CborText HANDOVER_LABEL; CborBytes (sha256_of info)]]).

(** [src/marty-iso18013/src/openid4vp.rs:170-172] sha256_hex *)
Definition sha256_hex (value : bytes) : string := hex_lower (sha256_of value).

(** [src/marty-iso18013/src/openid4vp.rs:111-142] mdoc_binding_digests *)
Definition mdoc_binding_digests (session_transcript : bytes) (client_id nonce response_uri : string)
    (jwk_json : option string) (presentation : string) : result MdocBindingDigests :=
  ensure (negb (zlen session_transcript =? 0))
    (InvalidRequest "session transcript must not be empty");;
  validate_handover_request client_id nonce response_uri;;
  ensure (negb (str_len presentation =? 0)) (InvalidRequest "presentation must not be empty");;
  thumbprint ← optional_thumbprint jwk_json;
  Ok (mkDigests (sha256_hex session_transcript) (sha256_hex (str_bytes client_id))
        (sha256_hex (str_bytes nonce)) (sha256_hex (str_bytes response_uri))
        (from_option sha256_hex "none" thumbprint) (sha256_hex (str_bytes presentation))).

End handover.

#[local] Abbreviation chars := String.list_ascii_of_string.

Section handover.
Context `{Sha2Laws} `{CiboriumLaws} `{JwkParser} `{JsonTextLaws}.

Lemma encode_cbor_total v : exists b, encode_cbor v = Ok b.
Proof. unfold encode_cbor. destruct (cbor_write_total v) as [b ->]. cbn. eauto. Qed.

Lemma encode_cbor_inj v w b : encode_cbor v = Ok b -> encode_cbor w = Ok b -> v = w.
Proof.
  unfold encode_cbor. intros Hv%map_err_Ok Hw%map_err_Ok. by eapply cbor_write_inj.
Qed.

(** The canonical JWK determines the key. *)
Lemma canonical_jwk_inj j k : canonical_jwk j = canonical_jwk k -> j = k.
Proof.
  intros Heq. apply (f_equal chars) in Heq. unfold canonical_jwk in Heq.
  rewrite !chars_app in Heq.
  assert (Hstep : forall p s t r1 r2,
    p ++ chars (json_string s) ++ r1 = p ++ chars (json_string t) ++ r2 -> s = t /\ r1 = r2).
  { intros p s t r1 r2 Hp. apply app_inv_head in Hp. by apply json_string_delimited in Hp. }
  destruct j as [a1 a2 a3 a4], k as [b1 b2 b3 b4]. cbn [crv kty jwk_x jwk_y] in *.
  apply app_inv_head in Heq. apply Hstep in Heq as [-> Heq]. apply app_inv_head in Heq.
  apply Hstep in Heq as [-> Heq]. apply app_inv_head in Heq. apply Hstep in Heq as [-> Heq].
  apply app_inv_head in Heq. apply Hstep in Heq as [-> _]. done.
Qed.

Lemma handover_info_inj c n u t c' n' u' t' :
  handover_info c n u t = handover_info c' n' u' t' -> c = c' /\ n = n' /\ u = u' /\ t = t'.
Proof. unfold handover_info. intros [= -> -> Ht ->]. destruct t, t'; naive_solver. Qed.

Lemma transcript_inv c n u k t : build_mdoc_session_transcript c n u k = Ok t ->
  exists tp info, optional_thumbprint k = Ok tp /\
    encode_cbor (handover_info c n u tp) = Ok info /\
    encode_cbor (CborArray [CborNull; CborNull;
      CborArray [CborText HANDOVER_LABEL; CborBytes (sha256_of info)]]) = Ok t.
Proof. unfold build_mdoc_session_transcript. intros Ht. res_inv. eauto. Qed.

(** Two requests with the same transcript hash their handover information to
    the same digest; when the hashed bytes are equal, the client, the nonce, the
    response URI and the response key thumbprint are the same. *)
Theorem transcript_binds_request c n u k c' n' u' k' t :
  build_mdoc_session_transcript c n u k = Ok t ->
  build_mdoc_session_transcript c' n' u' k' = Ok t ->
  exists info info', sha256_of info = sha256_of info' /\
    (info = info' ->
     c = c' /\ n = n' /\ u = u' /\ optional_thumbprint k = optional_thumbprint k').
Proof.
  intros (tp & info & Htp & Hi & Ht)%transcript_inv (tp' & info' & Htp' & Hi' & Ht')%transcript_inv.
  pose proof (encode_cbor_inj _ _ _ Ht Ht') as [= Hsha]. exists info, info'. split; [done|].
  intros <-. pose proof (encode_cbor_inj _ _ _ Hi Hi') as Heq.
  apply handover_info_inj in Heq as (-> & -> & -> & ->). rewrite Htp, Htp'. done.
Qed.

Definition bounded_string (max : Z) (s : string) : Prop := 0 < str_len s <= max.

Lemma validate_required_string_Ok name s max :
  validate_required_string name s max = Ok tt <-> bounded_string max s.
Proof.
  unfold validate_required_string, bounded_string. rewrite seq_Ok, !ensure_Ok.
  rewrite !negb_true_iff, Z.eqb_neq, Z.ltb_ge. unfold str_len. lia.
Qed.

(** A request without response encryption gets a transcript exactly when its
    three fields are not empty and at most 8 KiB. *)
Theorem transcript_exists_iff c n u :
  (exists t, build_mdoc_session_transcript c n u None = Ok t) <->
  Forall (bounded_string MAX_HANDOVER_STRING_BYTES) [c; n; u].
Proof.
  rewrite !Forall_cons. unfold build_mdoc_session_transcript, validate_handover_request.
  split.
  - intros [t Ht]. apply bind_Ok in Ht as ([] & Hv & _).
    rewrite !seq_Ok in Hv. rewrite !validate_required_string_Ok in Hv. naive_solver.
  - intros (Hc & Hn & Hu & _).
    rewrite (proj2 (validate_required_string_Ok "client_id" c _) Hc),
      (proj2 (validate_required_string_Ok "nonce" n _) Hn),
      (proj2 (validate_required_string_Ok "response_uri" u _) Hu).
    cbn [mbind res_bind optional_thumbprint].
    destruct (encode_cbor_total (handover_info c n u None)) as [info ->]. cbn [mbind res_bind].
    apply encode_cbor_total.
Qed.

End handover.
