(* ===== verification/MdlWitnesses.v ===== *)
(** * ISO 18013-5: a concrete instance and the witnesses

    [ToyIsoMdl] instantiates the codecs of [isomdl] by a countable encoding and
    proves their laws; on it and on [ToyCrypto], a holder and a reader run the
    protocol and the theorems of the ISO 18013-5 files are applied to them. *)

From stdpp Require Import countable functions.
From S2P Require Import Prelude Des CryptoKit CryptoKitFacts Engagement EngagementFacts.
From S2P Require Import MdlSession MdlSessionFacts MdlAgreementFacts MdlTransport MdlTransportFacts.
Local Open Scope Z_scope.

#[local] Abbreviation bytes := (list Z).
Import ToyCrypto.

Module ToyIsoMdl.

(** Two characters per bit of a positive number, and back. *)
Fixpoint pos_string (p : positive) : string :=
  match p with
  | xH => EmptyString
  | xO p => String "0" (pos_string p)
  | xI p => String "1" (pos_string p)
  end.
Fixpoint string_pos (s : string) : positive :=
  match s with
  | EmptyString => xH
  | String c s => if Ascii.eqb c "0" then xO (string_pos s) else xI (string_pos s)
  end.
Lemma string_pos_string p : string_pos (pos_string p) = p.
Proof. induction p as [p IH|p IH|]; cbn; by rewrite ?IH. Qed.

Definition curve_code (c : EC2Curve) : option Z :=
  match c with CurveP256 => None | CurveOther i => Some i end.
Definition y_code (y : EC2Y) : bytes + bool :=
  match y with EC2YValue b => inl b | EC2YSignBit s => inr s end.
Definition cose_code (k : CoseKey) : (option Z * bytes * (bytes + bool)) + Z :=
  match k with CoseEC2 c x y => inl (curve_code c, x, y_code y) | CoseOther n => inr n end.
Definition cose_of (k : (option Z * bytes * (bytes + bool)) + Z) : CoseKey :=
  match k with
  | inl (c, x, y) =>
      CoseEC2 (match c with None => CurveP256 | Some i => CurveOther i end) x
        (match y with inl b => EC2YValue b | inr s => EC2YSignBit s end)
  | inr n => CoseOther n
  end.
Lemma cose_of_code k : cose_of (cose_code k) = k.
Proof. by destruct k as [[] ? []|]. Qed.

Definition method_code (m : DeviceRetrievalMethod) : (option Z * option Z) + bool :=
  match m with
  | RetrievalBLE o => inl (peripheral_server_mode o, central_client_mode o)
  | RetrievalNFC => inr true
  | RetrievalWIFI => inr false
  end.
Definition method_of (m : (option Z * option Z) + bool) : DeviceRetrievalMethod :=
  match m with
  | inl (p, c) => RetrievalBLE (mkBle p c)
  | inr true => RetrievalNFC
  | inr false => RetrievalWIFI
  end.
Lemma method_of_code m : method_of (method_code m) = m.
Proof. by destruct m as [[]| |]. Qed.

(** One number per field, then the bytes of the tagged key. *)
Definition toy_encode (v : IsoEngagement) : bytes :=
  Z.pos (encode (iso_version v)) :: (security v).1 ::
  Z.pos (encode (cose_code (inner (security v).2))) ::
  Z.pos (encode (option_map (map method_code) (device_retrieval_methods v))) ::
  Z.pos (encode (server_retrieval_methods v, protocol_info v)) :: inner_bytes (security v).2.
Definition toy_decode (b : bytes) : res string IsoEngagement :=
  match b with
  | Z.pos ver :: n :: Z.pos k :: Z.pos ms :: Z.pos sp :: rest =>
      ok_or (ver ← decode ver; k ← decode k; ms ← decode ms; '(s, p) ← decode sp;
             Some (mkIso ver (n, mkTag24 (cose_of k) rest) (option_map (map method_of) ms) s p))
        "malformed"
  | _ => Err "malformed"
  end.
Lemma toy_decode_encode v : toy_decode (toy_encode v) = Ok v.
Proof.
  destruct v as [ver [n [k b]] ms s p]. unfold toy_decode, toy_encode.
  cbn [iso_version security fst snd inner inner_bytes device_retrieval_methods
    server_retrieval_methods protocol_info]. rewrite !decode_encode.
  cbn [ok_or mbind option_bind]. rewrite cose_of_code. do 2 f_equal.
  destruct ms as [l|]; [|done]. cbn [option_map]. rewrite map_map. f_equal.
  rewrite <- (map_id l) at 2. apply map_ext. apply method_of_code.
Qed.

(** The bytes of a tag, unless they are the encoding of its value. *)
Definition extra_bytes (t : Tag24 IsoEngagement) : option bytes :=
  if decide (inner_bytes t = toy_encode (inner t)) then None else Some (inner_bytes t).

#[export] Instance toy_isomdl : IsoMdl := {
  tag24_cose_key k := Ok (mkTag24 k [Z.pos (encode (cose_code k))]);
  tag24_engagement v := Ok (mkTag24 v (toy_encode v));
  tag24_engagement_from_bytes b := (fun v => mkTag24 v b) <$> toy_decode b;
  engagement_encode v := Ok (toy_encode v);
  engagement_decode b := (fun v => (v, zlen b)) <$> toy_decode b;
  to_qr_code_uri t := Ok (pos_string (encode (toy_encode (inner t), extra_bytes t)));
  from_qr_code_uri s :=
    ok_or ('(c, b) ← decode (string_pos s);
           match toy_decode c with
           | Ok v => Some (mkTag24 v (default (toy_encode v) b))
           | _ => None
           end) "malformed";
  transcript_encode e k := Ok (inner_bytes e ++ inner_bytes k);
  uuid_parse b := match b with c :: _ => Ok (c mod 128) | [] => Err "invalid length" end;
  uuid_hyphenated u := (u mod 128) :: replicate 35 45;
}.

#[export] Instance toy_isomdl_laws : IsoMdlLaws.
Proof.
  split; cbn; intros; simplify_eq.
  - eauto.
  - eauto.
  - by rewrite toy_decode_encode.
  - by rewrite toy_decode_encode.
  - eauto.
  - rewrite string_pos_string, decode_encode. cbn [ok_or mbind option_bind].
    rewrite toy_decode_encode. unfold extra_bytes. destruct t as [v b]. cbn [inner inner_bytes].
    by destruct (decide (b = toy_encode v)) as [->|].
  - eauto.
  - destruct s as [|c s]; simplify_eq. by rewrite !Z.mod_mod by done.
  - constructor; [apply Z.mod_pos_bound; lia|]. by repeat constructor.
  - done.
Qed.

End ToyIsoMdl.
Import ToyIsoMdl.

(** ** A holder and a reader *)

Definition toy_qr : KeyStore * DeviceEngagement := new_qr 5 ∅.
Definition toy_engagement : DeviceEngagement :=
  add_nfc_transport (add_ble_transport "0000FFF0-0000-1000-8000-00805F9B34FB" toy_qr.2).
Definition toy_uri : string := match to_qr_uri toy_engagement with Ok u => u | _ => "" end.
Definition toy_scanned : DeviceEngagement :=
  match from_qr_uri toy_uri with Ok e => e | _ => toy_engagement end.
Definition toy_now : Z := 1000.
Definition toy_max : Z := 10 ^ 20.
Definition idle_session : Session :=
  mkSession StIdle None (mkAgreement None [] None) default_config 0 RoleDevice [] [].
Definition session_of (r : res IsoError Session) : Session :=
  match r with Ok s => s | _ => idle_session end.
Definition toy_device : KeyStore * res IsoError Session :=
  from_engagement toy_max toy_now toy_engagement default_config toy_qr.1.
Definition toy_reader : res IsoError Session :=
  reader_from_engagement toy_max toy_now 7 toy_scanned default_config.
Definition toy_dev : Session := session_of toy_device.2.
Definition toy_rdr : Session := session_of toy_reader.

Example toy_scan_device_key : device_key toy_scanned = device_key toy_engagement /\
  transports toy_scanned <> [] /\ ephemeral_key toy_scanned = None.
Proof. vm_compute. done. Qed.

Lemma qr_sessions_deliver_witness :
  exists dev' rdr',
    Session_establish 2000 2001 (public_key (key_agreement toy_rdr)) toy_dev = (dev', Ok tt) /\
    Session_establish 2002 2003 (public_key (key_agreement toy_dev)) toy_rdr = (rdr', Ok tt) /\
    forall ops,
      let p0 := mkPair (fun r => match r with RoleDevice => dev' | RoleReader => rdr' end)
                  (const []) in
      Forall (op_in_time p0) ops ->
      run pair_step p0 ops = run channels_step (mkChannels (const []) (const 0)) ops.
Proof.
  apply (qr_sessions_deliver toy_max toy_now toy_engagement default_config toy_qr.1 toy_device.1
    toy_dev toy_uri toy_scanned toy_max toy_now 7 default_config toy_rdr 2000 2001 2002 2003);
    vm_compute; reflexivity.
Defined.

(** The same pair, run on a few messages. *)
Definition toy_established (s : Session) (peer : Session) : Session :=
  (Session_establish 2000 2001 (public_key (key_agreement peer)) s).1.
Definition toy_pair : Pair :=
  mkPair (fun r => match r with
                   | RoleDevice => toy_established toy_dev toy_rdr
                   | RoleReader => toy_established toy_rdr toy_dev
                   end) (const []).
Example toy_run :
  run pair_step toy_pair
    [PairSend RoleReader 3000 3000 [1; 2]; PairSend RoleReader 3000 3000 [3];
     PairDeliver RoleDevice 3001 3001; PairSend RoleDevice 3002 3002 [4; 4];
     PairDeliver RoleDevice 3003 3003; PairDeliver RoleReader 3003 3003;
     PairDeliver RoleReader 3004 3004] =
  [Sent (Ok tt); Sent (Ok tt); Delivered (Ok [1; 2]); Sent (Ok tt); Delivered (Ok [3]);
   Delivered (Ok [4; 4]); NothingInTransit].
Proof. vm_compute. reflexivity. Qed.

(** Two callers of the reader's session: one seals two messages; the second call
    finds the deadline passed under the encryption lock while the first caller
    is already past its check, and the session is established without keys
    until the state lock is taken. *)
Definition toy_calls : list SharedOp :=
  Begin 0 (CallEstablish (public_key (key_agreement toy_dev))) :: (Turn 0 <$> replicate 4 2000) ++
  Begin 1 (CallSend [1]) :: (Turn 1 <$> replicate 3 2001) ++
  Begin 1 (CallSend [2]) :: Begin 2 (CallSend [3]) :: (Turn 2 <$> [2002; 2002]) ++
  (Turn 1 <$> replicate 3 2003).
Definition toy_late_calls : list SharedOp := toy_calls ++ [Turn 2 (10 ^ 18)].

Example toy_between_sections :
  let p := run_state shared_step (mkShared toy_rdr ∅) toy_late_calls in
  state (shared p) = StEstablished /\ encryption (shared p) = None /\
  callers p !! 2%nat = Some (AtClearState (CallSend [3])).
Proof. vm_compute. done. Qed.

Lemma session_invariant_witness :
  let p := run_state shared_step (mkShared toy_rdr ∅) (toy_late_calls ++ (Turn 2 <$> replicate 3 0)) in
  shared_ok p /\ closed (shared p).
Proof.
  assert (new_for_role toy_max toy_now toy_scanned default_config
            (from_key_pair (@P256KeyPair_generate toy_p256 7)) RoleReader = Ok toy_rdr) as Hnew
    by (vm_compute; reflexivity).
  pose proof (session_invariant toy_max toy_now toy_scanned default_config
    (@P256KeyPair_generate toy_p256 7) RoleReader toy_rdr
    (toy_late_calls ++ (Turn 2 <$> replicate 3 0)) Hnew) as Hinv.
  split; [apply Hinv|]. split_and!; vm_compute; reflexivity.
Defined.

Lemma session_nonces_unique_witness :
  let sent := omap seals (run shared_step (mkShared toy_rdr ∅) toy_late_calls) in
  map fst sent = [[1]; [2]] /\
  exists k, forall n m ct, sent !! n = Some (m, ct) ->
    aes_256_gcm_encrypt k (session_iv DirReader (Z.of_nat n + 1)) m [] = Ok ct.
Proof.
  split; [vm_compute; reflexivity|].
  apply (session_nonces_unique toy_max toy_now toy_scanned default_config
    (@P256KeyPair_generate toy_p256 7) RoleReader). vm_compute. reflexivity.
Defined.

Lemma engagement_key_single_use_witness :
  exists err, (from_engagement toy_max toy_now (add_nfc_transport toy_engagement) default_config
                 (run_state holder_step toy_device.1 [HolderNew 11])).2 = Err err.
Proof.
  apply (engagement_key_single_use toy_max toy_now toy_engagement default_config toy_qr.1
    toy_device.1 toy_dev); vm_compute; reflexivity.
Defined.


Lemma from_cbor_bounded_witness :
  zlen (transports toy_scanned) <= MAX_DEVICE_RETRIEVAL_METHODS.
Proof.
  apply (from_cbor_bounded (toy_encode match to_iso toy_engagement with Ok v => v
                                       | _ => mkIso "" (0, mkTag24 (CoseOther 0) []) None None None end)).
  vm_compute. reflexivity.
Defined.

Lemma engagement_qr_roundtrip_witness :
  exists e', from_qr_uri toy_uri = Ok e' /\ device_key e' = device_key toy_engagement.
Proof.
  destruct (engagement_qr_roundtrip toy_engagement toy_uri
    (match to_cbor toy_engagement with Ok c => c | _ => [] end)) as (e' & He & _ & Hk & _);
    [vm_compute; (reflexivity || discriminate)..|].
  exists e'. split; [exact He|exact Hk].
Defined.

(** ** Transports *)

Definition toy_channel : SessionChannel MockTransport :=
  (channel_connect (toy_established toy_dev toy_rdr) mock_new).1.

(** A transport whose peer is gone. *)
Definition gone {A} : res IsoError A := Err (ConnectionFailed "gone").
#[local] Instance gone_transport : Transport_ops unit := {
  transport_connect t := (t, gone);
  transport_send _ t := (t, gone);
  transport_receive t := (t, gone);
  transport_close t := (t, gone);
  is_connected _ := false;
}.


Lemma ble_fragments_reassemble_witness :
  reassemble_fragments (fragment_message (ble_new tt) (replicate 1000 7)) = replicate 1000 7.
Proof. apply (ble_fragments_reassemble (ble_new tt) (replicate 1000 7)). done. Defined.

Definition toy_disclosure : SelectiveDisclosure :=
  add_mandatory "family_name" (add_namespace "iso" ["family_name"; "given_name"; "birth_date"] selective_new).

Lemma filter_request_exact_witness :
  match filter_request toy_disclosure ["family_name"] [("iso", ["given_name"; "birth_date"])]
          {[ "iso" := ["given_name"] ]} with
  | Ok out => forall e, released out "iso" e <-> releasable toy_disclosure {[ "iso" := ["given_name"] ]}
                          [("iso", ["given_name"; "birth_date"])] "iso" e
  | _ => False
  end.
Proof.
  pose proof (filter_request_exact toy_disclosure ["family_name"]
    [("iso", ["given_name"; "birth_date"])] {[ "iso" := ["given_name"] ]}) as Hf.
  ospecialize (Hf _ _); [set_solver|repeat constructor; set_solver|].
  destruct (filter_request _ _ _ _) as [out|x|]; [apply Hf| |exact Hf].
  destruct Hf as (ns & Hin & Hnone & _). apply list_elem_of_singleton in Hin. subst ns.
  discriminate Hnone.
Defined.
