(* ===== verification/EvidencePolicy.v ===== *)
(** * Evidence policy (marty-verification, [evidence_policy.rs])

    Selection of the current revision of each fact, matching of requirements
    and pass rules over JSON, the policy context, and the decision.  Cedar, the
    JSON parser, and Unicode case mapping are parameters.  A step that can panic
    (an array index in a rule path) returns [res], with [any] and [all] of
    iterators short-circuiting as in the code, so that the conditions under
    which nothing panics can be stated. *)

From stdpp Require Import pretty.
From S2P Require Import Prelude Governance RustF64 PolicyService.
From Stdlib Require Import Floats.SpecFloat.
Local Open Scope Z_scope.

#[local] Abbreviation result := (res string).
#[local] Abbreviation JsonMap := (list (string * Value)).

(** ** Strings and JSON values *)

(** [serde_json::from_str::<Value>]. *)
Class JsonParser := json_from_str : string -> option Value.

(** [str::trim] and [eq_ignore_ascii_case]. *)
Definition str_trim (s : string) : string := str_of_bytes (utf8_trim (str_bytes s)).
Definition eq_ignore_ascii_case (s t : string) : bool :=
  bool_decide ((byte_lower <$> str_bytes s) = (byte_lower <$> str_bytes t)).
(** [s.split('.').filter(|part| !part.is_empty())], on bytes. *)
Fixpoint split_dots (current : list Z) (s : list Z) : list string :=
  let flush rest := match current with [] => rest | _ => str_of_bytes (reverse current) :: rest end in
  match s with
  | [] => flush []
  | b :: s => if b =? 46 then flush (split_dots [] s) else split_dots (b :: current) s
  end.

(** [part.parse::<usize>().ok()]: an optional plus sign and decimal digits. *)
Definition parse_usize (s : string) : option Z :=
  let cs := String.list_ascii_of_string s in
  let digits := match cs with "+"%char :: rest => rest | _ => cs end in
  let '(n, count, rest) := take_digits 0 0 digits in
  if (count =? 0) || negb (bool_decide (rest = [])) || (usize_max <? n) then None else Some n.

(** [Map::get] and the accessors of [Value]. *)
Fixpoint map_get (key : string) (m : JsonMap) : option Value :=
  match m with
  | [] => None
  | (k, v) :: m => if String.eqb k key then Some v else map_get key m
  end.
Definition contains_key (key : string) (m : JsonMap) : bool := bool_decide (is_Some (map_get key m)).
Definition as_object (v : Value) : option JsonMap := match v with Object m => Some m | _ => None end.
Definition as_str (v : Value) : option string := match v with VString s => Some s | _ => None end.
Definition as_array (v : Value) : option (list Value) := match v with Array l => Some l | _ => None end.
Definition is_null (v : Value) : bool := match v with Null => true | _ => false end.

(** [map.get(key).map(f)], in the form that recursion through a map takes. *)
Definition with_key {R} (f : Value -> R) : string -> JsonMap -> option R :=
  fix go (key : string) (m : JsonMap) : option R :=
    match m with
    | [] => None
    | (k, v) :: m => if String.eqb k key then Some (f v) else go key m
    end.

(** [iter().any(f)] and [iter().all(f)] for an [f] that may panic. *)
Definition any_m {A} (f : A -> result bool) : list A -> result bool :=
  fix go (l : list A) : result bool :=
    match l with
    | [] => Ok false
    | a :: l => b ← f a; if (b : bool) then Ok true else go l
    end.
Definition all_m {A} (f : A -> result bool) : list A -> result bool :=
  fix go (l : list A) : result bool :=
    match l with
    | [] => Ok true
    | a :: l => b ← f a; if (b : bool) then go l else Ok false
    end.

(** ** Data *)

(** [src/marty-verification/src/evidence_policy.rs:101-124] EvidenceFact *)
Record EvidenceFact := mkFact {
  f_id : string;
  logical_key : string;
  f_provider : string;
  fact_type : string;
  subject_id : string;
  requirement_id : string;
  scope : JsonMap;
  assertion : JsonMap;
  verification : JsonMap;
  source : JsonMap;
  effective_at : option Z;
  observed_at : Z;
  created_at : Z;
}.

(** [src/marty-verification/src/evidence_policy.rs:77-83] ApplicationInput *)
Record ApplicationInput := mkApp { app_id : string; app_organization_id : string; app_status : string }.

(** [src/marty-verification/src/evidence_policy.rs:85-90] TemplateInput *)
Record TemplateInput := mkTemplate { template_policy_set_id : option string }.

(** [src/marty-verification/src/evidence_policy.rs:92-99] BindingInput *)
Record BindingInput := mkBinding {
  binding_policy_set_id : option string;
  auto_approve_on_evidence : bool;
}.

(** [src/marty-verification/src/evidence_policy.rs:126-134] ApprovalPolicySetInput *)
Record ApprovalPolicySetInput := mkPolicySet {
  ps_status : string;
  ps_policy_type : string;
  ps_cedar_policies : Value;
}.

(** [src/marty-verification/src/evidence_policy.rs:61-75] EvaluationRequest *)
Record EvaluationRequest := mkEvaluation {
  er_app : ApplicationInput;
  er_template : option TemplateInput;
  er_binding : option BindingInput;
  er_requirements : list Value;
  er_facts : list EvidenceFact;
  er_policy_set : option ApprovalPolicySetInput;
}.

(** The members of the policy context that depend on the request. *)
Record PolicyContext := mkContext {
  evidence_count : Z;
  evidence_provider : string;
  evidence_fact_type : string;
  evidence_verification_status : string;
  evidence_scope_matched : bool;
  verified_evidence_count : Z;
  required_evidence_count : Z;
  satisfied_requirement_count : Z;
  all_required_evidence_satisfied : bool;
  auto_issue_eligible : bool;
}.

(** [src/marty-verification/src/evidence_policy.rs:136-145] EvidencePolicyDecision *)
Record EvidencePolicyDecision := mkDecision {
  d_allowed : bool;
  d_engine : string;
  d_policy_source : string;
  d_policy_set_id : option string;
  d_reasons : list string;
  d_errors : list string;
  d_context : Value;
}.

(** ** Revisions *)

(** [src/marty-verification/src/evidence_policy.rs:363-370] fact_order; lexicographic comparison of the tuple *)
Definition fact_order_lt (f g : EvidenceFact) : bool :=
  let e f := default (observed_at f) (effective_at f) in
  if e f <? e g then true else if e g <? e f then false
  else if observed_at f <? observed_at g then true
  else if observed_at g <? observed_at f then false
  else if created_at f <? created_at g then true
  else if created_at g <? created_at f then false
  else str_lt (f_id f) (f_id g).

Definition key_of (f : EvidenceFact) : string :=
  if str_len (logical_key f) =? 0 then f_id f else logical_key f.

(** The order of [sort_by_key(|fact| (observed_at, created_at, id))]. *)
Definition head_le (f g : EvidenceFact) : bool :=
  if observed_at f <? observed_at g then true
  else if observed_at g <? observed_at f then false
  else if created_at f <? created_at g then true
  else if created_at g <? created_at f then false
  else bytes_le (str_bytes (f_id f)) (str_bytes (f_id g)).

(** [for fact in facts { ... heads.insert(logical_key, fact) }] *)
Definition insert_head (heads : gmap string EvidenceFact) (f : EvidenceFact) :
    gmap string EvidenceFact :=
  let replace := match heads !! key_of f with
                 | None => true
                 | Some current => fact_order_lt current f
                 end in
  if replace then <[key_of f := f]> heads else heads.

(** [src/marty-verification/src/evidence_policy.rs:343-361] current_heads *)
Definition current_heads (facts : list EvidenceFact) : list EvidenceFact :=
  let heads := foldl insert_head ∅ facts in
  let in_key_order := sort_by (fun a b => bytes_le (str_bytes a.1) (str_bytes b.1)) (map_to_list heads) in
  sort_by head_le (map snd in_key_order).

(** ** Values *)

(** [src/marty-verification/src/evidence_policy.rs:818-827] truthy *)
Definition truthy (v : Value) : bool :=
  match v with
  | Null => false
  | Bool b => b
  | Number repr =>
      from_option (fun x => negb (SFeqb x (S754_zero false))) false (f64_from_str repr)
  | VString s => negb (str_len s =? 0)
  | Array l => match l with [] => false | _ => true end
  | Object m => match m with [] => false | _ => true end
  end.

(** [Option<f64> == Option<f64>]. *)
Definition opt_f64_eq (a b : option spec_float) : bool :=
  match a, b with
  | Some x, Some y => SFeqb x y
  | None, None => true
  | _, _ => false
  end.
Definition f64_one : spec_float := f64_of_decimal false 1 0.

(** [src/marty-verification/src/evidence_policy.rs:829-837] py_equal *)
Definition py_equal `{JsonValueOps} (l r : Value) : bool :=
  match l, r with
  | Bool b, Number n | Number n, Bool b =>
      opt_f64_eq (f64_from_str n) (Some (if b then f64_one else S754_zero false))
  | Number a, Number b => opt_f64_eq (f64_from_str a) (f64_from_str b)
  | _, _ => json_eqb l r
  end.

(** [src/marty-verification/src/evidence_policy.rs:847-856] py_string *)
Definition py_string `{JsonValueOps} (v : Value) : string :=
  match v with
  | Null => "None"
  | Bool true => "True"
  | Bool false => "False"
  | VString s => s
  | Number repr => repr
  | Array _ | Object _ => json_text v
  end.

(** [src/marty-verification/src/evidence_policy.rs:839-845] py_string_or_empty *)
Definition py_string_or_empty `{JsonValueOps} (v : option Value) : string :=
  match v with
  | None | Some Null => ""
  | Some v => if truthy v then py_string v else ""
  end.

(** [src/marty-verification/src/evidence_policy.rs:767-773] string_field *)
Definition string_field (m : JsonMap) (key : string) : string :=
  default "" (map_get key m ≫= as_str).

(** [src/marty-verification/src/evidence_policy.rs:712-718] numeric_value *)
Definition numeric_value (v : Value) : option spec_float :=
  match v with
  | Number repr => f64_from_str repr
  | VString s => f64_from_str s
  | _ => None
  end.

(** [src/marty-verification/src/evidence_policy.rs:701-710] compare_numbers *)
Definition compare_numbers (actual : option Value) (expected : Value)
    (compare : spec_float -> spec_float -> bool) : bool :=
  match actual ≫= numeric_value, numeric_value expected with
  | Some a, Some e => compare a e
  | _, _ => false
  end.

(** [actual >= expected] and the other comparisons of [f64]. *)
Definition f64_ge (a b : spec_float) : bool := f64_le b a.
Definition f64_gt (a b : spec_float) : bool := f64_lt b a.

(** [for (operator, compare) in [...] { ... }] of [comparison_satisfied]: [None]
    is an early [return false]. *)
Fixpoint comparison_loop (actual : spec_float) (rule : JsonMap)
    (ops : list (string * (spec_float -> spec_float -> bool))) (saw : bool) : bool :=
  match ops with
  | [] => saw
  | (operator, matched) :: ops =>
      match map_get operator rule with
      | None => comparison_loop actual rule ops saw
      | Some expected =>
          match numeric_value expected with
          | None => false
          | Some e => if matched actual e then comparison_loop actual rule ops true else false
          end
      end
  end.

(** [src/marty-verification/src/evidence_policy.rs:661-699] comparison_satisfied *)
Definition comparison_satisfied (actual : option Value) (rule : Value) : bool :=
  match actual ≫= numeric_value with
  | None => false
  | Some actual =>
      match rule with
      | Object rule =>
          comparison_loop actual rule
            [(">=", f64_ge); ("min", f64_ge); (">", f64_gt); ("<=", f64_le); ("max", f64_le);
             ("<", f64_lt); ("==", SFeqb); ("equals", SFeqb)] false
      | _ => from_option (f64_ge actual) false (numeric_value rule)
      end
  end.

(** [src/marty-verification/src/evidence_policy.rs:720-732] string_rule_satisfied *)
Fixpoint string_rule_satisfied `{JsonValueOps} (actual : option Value) (expected : Value) : bool :=
  match expected with
  | Array items => existsb (string_rule_satisfied actual) items
  | _ =>
      match actual ≫= as_array with
      | Some values => existsb (fun a => eq_ignore_ascii_case (py_string a) (py_string expected)) values
      | None => eq_ignore_ascii_case (py_string_or_empty actual) (py_string_or_empty (Some expected))
      end
  end.

(** ** Requirements *)

Section evidence.
Context `{JsonValueOps} `{StrCase} `{JsonParser}.

(** [src/marty-verification/src/evidence_policy.rs:756-761] requirement_string *)
Definition requirement_string (requirement : Value) (key : string) : option string :=
  m ← as_object requirement; v ← map_get key m; as_str v.

(** [src/marty-verification/src/evidence_policy.rs:738-746] requirement_type *)
Definition requirement_type (requirement : Value) : string :=
  match requirement with
  | VString s => s
  | _ =>
      let candidate key :=
        s ← requirement_string requirement key; if str_len s =? 0 then None else Some s in
      default "" (match candidate "fact_type" with
                  | Some s => Some s
                  | None => match candidate "evidence_type" with
                            | Some s => Some s
                            | None => candidate "type"
                            end
                  end)
  end.

(** [src/marty-verification/src/evidence_policy.rs:748-754] requirement_scope *)
Definition requirement_scope (requirement : Value) : JsonMap :=
  default [] (m ← as_object requirement;
              v ← match map_get "scope" m with Some v => Some v | None => map_get "canvas_scope" m end;
              as_object v).

(** [src/marty-verification/src/evidence_policy.rs:763-765] fact_verified *)
Definition fact_verified (f : EvidenceFact) : bool :=
  String.eqb (str_to_uppercase (string_field (verification f) "status")) "VERIFIED".

(** [src/marty-verification/src/evidence_policy.rs:496-500] scope_matches *)
Definition scope_matches (actual expected : JsonMap) : bool :=
  forallb (fun kv => is_null kv.2 ||
    String.eqb (py_string_or_empty (map_get kv.1 actual)) (py_string_or_empty (Some kv.2))) expected.

Definition is_empty (s : string) : bool := str_len s =? 0.

(** [src/marty-verification/src/evidence_policy.rs:482-494] requirement_identity_matches *)
Definition requirement_identity_matches (f : EvidenceFact) (requirement : Value)
    (include_scope : bool) : bool :=
  let provider := default "" (requirement_string requirement "provider") in
  let src := default "" (requirement_string requirement "source") in
  let ft := requirement_type requirement in
  (is_empty provider || String.eqb (f_provider f) provider)
  && (is_empty src || String.eqb (string_field (source f) "source") src)
  && (is_empty ft || String.eqb (fact_type f) ft)
  && (negb include_scope || scope_matches (scope f) (requirement_scope requirement)).

(** ** Rule paths *)

(** [trim_start_matches('.')]. *)
Fixpoint trim_dots (s : list Z) : list Z :=
  match s with 46 :: s => trim_dots s | _ => s end.

(** [for part in path.split('.') ...]: an array index out of range is the panic
    of [Vec::remove]. *)
Fixpoint follow_path (current : Value) (parts : list string) : result (option Value) :=
  match parts with
  | [] => Ok (Some current)
  | part :: parts =>
      match current with
      | Object m =>
          match map_get part m with Some v => follow_path v parts | None => Ok None end
      | Array values =>
          match parse_usize part with
          | None => Ok None
          | Some i => v ← vec_index values i; follow_path v parts
          end
      | _ => Ok None
      end
  end.

(** [src/marty-verification/src/evidence_policy.rs:641-659] path_value_owned *)
Definition path_value_owned (current : Value) (path : string) : result (option Value) :=
  let trimmed := utf8_trim (str_bytes path) in
  let path := match trimmed with
              | 36 :: 46 :: rest => rest
              | 36 :: rest => trim_dots rest
              | _ => trimmed
              end in
  match path with
  | [] => Ok None
  | _ => follow_path current (split_dots [] path)
  end.

(** [src/marty-verification/src/evidence_policy.rs:619-639] fact_path_value *)
Definition fact_path_value (f : EvidenceFact) (path : string) : result (option Value) :=
  let normalized := str_trim path in
  let root := Object [("assertion", Object (assertion f)); ("scope", Object (scope f));
                      ("verification", Object (verification f)); ("source", Object (source f));
                      ("provider", VString (f_provider f)); ("fact_type", VString (fact_type f));
                      ("subject_id", VString (subject_id f))] in
  let uses_root := existsb (str_starts_with normalized)
                     ["assertion."; "scope."; "verification."; "source."; "$."] in
  path_value_owned (if uses_root then root else Object (assertion f)) normalized.

(** The [match operator.as_str()] of [path_condition_satisfied]. *)
Definition apply_operator (operator : string) (actual : option Value) (expected : Value) : bool :=
  let value := default Null actual in
  if one_of operator ["exists"; "present"] then from_option (fun v => negb (is_null v)) false actual
  else if one_of operator ["truthy"; "true"] then from_option truthy false actual
  else if one_of operator ["falsy"; "false"] then negb (from_option truthy false actual)
  else if one_of operator ["eq"; "equals"; "=="] then py_equal value expected
  else if one_of operator ["neq"; "not_equals"; "!="] then negb (py_equal value expected)
  else if one_of operator [">="; "gt_eq"; "gte"; "min"] then compare_numbers actual expected f64_ge
  else if one_of operator [">"; "gt"] then compare_numbers actual expected f64_gt
  else if one_of operator ["<="; "lt_eq"; "lte"; "max"] then compare_numbers actual expected f64_le
  else if one_of operator ["<"; "lt"] then compare_numbers actual expected f64_lt
  else if String.eqb operator "in"
  then from_option (existsb (py_equal value)) false (as_array expected)
  else if String.eqb operator "contains"
  then match actual with
       | Some (Array values) => existsb (fun v => py_equal v expected) values
       | Some (VString s) => str_contains s (py_string expected)
       | _ => false
       end
  else false.

(** The part of [path_condition_satisfied] for a condition with a path. *)
Definition path_test (f : EvidenceFact) (condition : JsonMap) : result bool :=
  match map_get "path" condition ≫= as_str with
  | None => Ok false
  | Some path =>
      if is_empty path then Ok false
      else
        actual ← fact_path_value f path;
        let named := match map_get "op" condition with
                     | Some v => Some v
                     | None => map_get "operator" condition
                     end in
        let operator := str_to_lowercase
          (default (if contains_key "value" condition then "eq" else "exists") (named ≫= as_str)) in
        Ok (apply_operator operator actual (default Null (map_get "value" condition)))
  end.

(** [src/marty-verification/src/evidence_policy.rs:556-617] path_condition_satisfied *)
Fixpoint path_condition_satisfied (f : EvidenceFact) (condition : Value) : result bool :=
  match condition with
  | Object m =>
      match with_key (fun items => match items with
                                   | Array l => all_m (path_condition_satisfied f) l
                                   | _ => Ok false
                                   end) "all" m with
      | Some r => r
      | None =>
          match with_key (fun items => match items with
                                       | Array l => any_m (path_condition_satisfied f) l
                                       | _ => Ok false
                                       end) "any" m with
          | Some r => r
          | None =>
              match with_key (fun item => b ← path_condition_satisfied f item; Ok (negb b)) "not" m with
              | Some r => r
              | None => path_test f m
              end
          end
      end
  | _ => Ok (truthy condition)
  end.

(** [for key in [...] { if let Some(expected) = rule.get(key) { ... } }]: [None]
    is the early [return false], otherwise the flag [evaluated]. *)
Fixpoint rule_loop (checks : list (string * (Value -> bool))) (rule : JsonMap) (evaluated : bool) :
    option bool :=
  match checks with
  | [] => Some evaluated
  | (key, ok) :: checks =>
      match map_get key rule with
      | None => rule_loop checks rule evaluated
      | Some expected => if ok expected then rule_loop checks rule true else None
      end
  end.

(** The keys of a plain rule in the order of the three loops. *)
Definition rule_checks (f : EvidenceFact) : list (string * (Value -> bool)) :=
  let flag key := (key, fun expected =>
    Bool.eqb (truthy (default Null (map_get key (assertion f)))) (truthy expected)) in
  let number key alias := (alias, comparison_satisfied (map_get key (assertion f))) in
  let text key alias := (alias, string_rule_satisfied (map_get key (assertion f))) in
  [flag "completed"; flag "submitted"; flag "passed"; flag "eligible";
   number "score" "score"; number "score" "min_score";
   number "score_percent" "score_percent"; number "score_percent" "min_score_percent";
   text "membership_status" "membership_status"; text "membership_status" "status";
   text "roles" "roles_include"; text "roles" "role"; text "roles" "role_includes"].

(** [src/marty-verification/src/evidence_policy.rs:502-554] pass_rule_satisfied *)
Definition pass_rule_satisfied (f : EvidenceFact) (requirement : Value) : result bool :=
  match (m ← as_object requirement; v ← map_get "pass_rule" m; as_object v) with
  | None => Ok true
  | Some [] => Ok true
  | Some rule =>
      if existsb (fun key => contains_key key rule) ["all"; "any"; "not"; "path"]
      then path_condition_satisfied f (Object rule)
      else Ok (default false (rule_loop (rule_checks f) rule false))
  end.

(** [src/marty-verification/src/evidence_policy.rs:460-480] fact_satisfies_requirement *)
Definition fact_satisfies_requirement (f : EvidenceFact) (requirement : Value) : result bool :=
  let other_requirement :=
    match requirement_string requirement "requirement_id" with
    | Some rid => negb (is_empty rid) && negb (is_empty (requirement_id f))
                  && negb (String.eqb (requirement_id f) rid)
    | None => false
    end in
  let method := default "" (requirement_string requirement "verification_method") in
  if other_requirement then Ok false
  else if negb (requirement_identity_matches f requirement true) then Ok false
  else if negb (is_empty method) && negb (String.eqb (string_field (verification f) "method") method)
  then Ok false
  else if negb (scope_matches (scope f) (requirement_scope requirement)) then Ok false
  else if fact_verified f then pass_rule_satisfied f requirement
  else Ok false.

(** ** Context *)

(** [src/marty-verification/src/evidence_policy.rs:734-736] requirement_mapping *)
Definition requirement_mapping (requirement : Value) : option JsonMap := as_object requirement.

Definition requirement_member (requirement : Value) (key : string) : option Value :=
  requirement_mapping requirement ≫= map_get key.

(** [requirement ... get("required") != Some(&Value::Bool(false))] *)
Definition is_required (requirement : Value) : bool :=
  match requirement_member requirement "required" with Some (Bool false) => false | _ => true end.

(** One turn of the loop of [summarize_requirements]. *)
Definition summarize_step (facts : list EvidenceFact) (acc : Z * bool) (requirement : Value) :
    result (Z * bool) :=
  let '(satisfied, scope_matched) := acc in
  let wanted := requirement_scope requirement in
  let type_matches := List.filter (fun f => requirement_identity_matches f requirement false) facts in
  let scope_matched :=
    if negb (bool_decide (wanted = [])) && negb (existsb (fun f => scope_matches (scope f) wanted) type_matches)
    then false else scope_matched in
  hit ← any_m (fun f => fact_satisfies_requirement f requirement) facts;
  Ok (if (hit : bool) then satisfied + 1 else satisfied, scope_matched).

Fixpoint fold_m {A B} (f : B -> A -> result B) (b : B) (l : list A) : result B :=
  match l with
  | [] => Ok b
  | a :: l => b' ← f b a; fold_m f b' l
  end.

(** [defaults]. *)
Definition default_requirement : Value := VString "canvas.course_completion".

(** [src/marty-verification/src/evidence_policy.rs:413-458] summarize_requirements *)
Definition summarize_requirements (requirements : list Value) (facts : list EvidenceFact) :
    result (Z * Z * bool * bool) :=
  let required := List.filter is_required requirements in
  match required, requirements with
  | [], _ :: _ => Ok (0, 0, false, true)
  | _, _ =>
      let effective := match required with [] => [default_requirement] | _ => required end in
      '(satisfied, scope_matched) ← fold_m (summarize_step facts) (0, true) effective;
      let count := zlen effective in
      Ok (count, satisfied, count <=? satisfied, scope_matched)
  end.

(** [src/marty-verification/src/evidence_policy.rs:372-411] build_context *)
Definition build_context (binding : option BindingInput) (requirements : list Value)
    (facts : list EvidenceFact) : result PolicyContext :=
  '(required, satisfied, all_satisfied, scope_matched) ← summarize_requirements requirements facts;
  let latest := last facts in
  let requirement_auto_issue :=
    existsb (fun r => from_option truthy false (requirement_member r "auto_issue_on_permit"))
      requirements in
  Ok {| evidence_count := zlen facts;
        evidence_provider := from_option f_provider "canvas" latest;
        evidence_fact_type := from_option fact_type "" latest;
        evidence_verification_status :=
          from_option (fun f =>
            let status := string_field (verification f) "status" in
            if is_empty status then "UNVERIFIED" else str_to_uppercase status)
            "UNVERIFIED" latest;
        evidence_scope_matched := scope_matched;
        verified_evidence_count := zlen (List.filter fact_verified facts);
        required_evidence_count := required;
        satisfied_requirement_count := satisfied;
        all_required_evidence_satisfied := all_satisfied;
        auto_issue_eligible := all_satisfied &&
          (requirement_auto_issue || from_option auto_approve_on_evidence false binding) |}.

(** [json!] of an integer. *)
Definition json_int (n : Z) : Value := Number (pretty n).

(** [src/marty-verification/src/evidence_policy.rs:386-410] build_context; its [json!] object *)
Definition context_json (c : PolicyContext) : Value :=
  Object [("risk_score", json_int 0);
          ("document_verification_passed", Bool true);
          ("biometric_match_score", json_int 100);
          ("evidence_count", json_int (evidence_count c));
          ("applicant_country", VString "US");
          ("evidence_provider", VString (evidence_provider c));
          ("evidence_fact_type", VString (evidence_fact_type c));
          ("evidence_verification_status", VString (evidence_verification_status c));
          ("evidence_scope_matched", Bool (evidence_scope_matched c));
          ("verified_evidence_count", json_int (verified_evidence_count c));
          ("required_evidence_count", json_int (required_evidence_count c));
          ("satisfied_requirement_count", json_int (satisfied_requirement_count c));
          ("all_required_evidence_satisfied", Bool (all_required_evidence_satisfied c));
          ("auto_issue_eligible", Bool (auto_issue_eligible c))].

(** [src/marty-verification/src/evidence_policy.rs:312-341] build_entities *)
Definition build_entities (app : ApplicationInput) (facts : list EvidenceFact) : Value :=
  let app_uid := Object [("type", VString "MIP::Application"); ("id", VString (app_id app))] in
  let organization :=
    Object [("type", VString "MIP::Organization"); ("id", VString (app_organization_id app))] in
  let entity uid attrs parents :=
    Object [("uid", uid); ("attrs", Object attrs); ("parents", Array parents)] in
  Array ([entity (Object [("type", VString "MIP::ServiceAccount"); ("id", VString "canvas-evidence-policy")])
            [("service_name", VString "canvas-evidence-policy")] [organization];
          entity organization [] [];
          entity app_uid [("risk_score", json_int 0); ("status", VString (app_status app))] [organization]]
         ++ map (fun f =>
              entity (Object [("type", VString "MIP::EvidenceFact"); ("id", VString (f_id f))])
                [("provider", VString (f_provider f)); ("fact_type", VString (fact_type f));
                 ("subject_id", VString (subject_id f));
                 ("verification_status", VString (string_field (verification f) "status"))]
                [app_uid; organization]) facts).

(** ** Policy text *)

(** [src/marty-verification/src/evidence_policy.rs:775-777] normalize_policy_value *)
Definition normalize_policy_value (value : string) : string := str_to_uppercase (str_trim value).

Fixpoint join_blank_line (l : list string) : string :=
  match l with
  | [] => ""
  | [s] => s
  | s :: l => s +:+ String (ascii_of_nat 10) (String (ascii_of_nat 10) (join_blank_line l))
  end.

(** [policy.get("enabled") != Some(&Value::Bool(false))] *)
Definition enabled (policy : JsonMap) : bool :=
  match map_get "enabled" policy with Some (Bool false) => false | _ => true end.

(** The texts the [Value::Array] arm keeps. *)
Definition policy_texts (values : list Value) : list string :=
  let text v :=
    policy ← as_object v;
    if enabled policy then
      raw ← map_get "cedar_text" policy; s ← as_str raw;
      let t := str_trim s in if is_empty t then None else Some t
    else None in
  omap text values.

(** Space that a value takes in JSON text: an upper bound on the depth of the
    recursion of [normalize_cedar_policy_text], which goes from a string to the
    value it parses to. *)
Fixpoint value_weight (v : Value) : nat :=
  match v with
  | Null | Bool _ | Number _ => 1
  | VString s => 2 + String.length s
  | Array l => 2 + list_sum (map value_weight l)
  | Object m => 2 + list_sum (map (fun kv => value_weight kv.2) m)
  end.

Fixpoint normalize_cedar_fuel (fuel : nat) (value : Value) : string :=
  match fuel with
  | O => ""
  | S fuel =>
      match value with
      | VString s =>
          let stripped := str_trim s in
          if is_empty stripped then ""
          else match json_from_str stripped with
               | Some parsed => normalize_cedar_fuel fuel parsed
               | None => stripped
               end
      | Array values => join_blank_line (policy_texts values)
      | Object m =>
          match map_get "cedar_policies" m with
          | Some v => normalize_cedar_fuel fuel v
          | None =>
              if enabled m
              then default "" (str_trim <$> (map_get "cedar_text" m ≫= as_str))
              else ""
          end
      | _ => ""
      end
  end.

(** [src/marty-verification/src/evidence_policy.rs:779-816] normalize_cedar_policy_text *)
Definition normalize_cedar_policy_text (value : Value) : string :=
  normalize_cedar_fuel (value_weight value) value.
End evidence.

(** JSON text of a value: no value takes less space than its weight. *)
Class JsonParserLaws `{JsonParser} : Prop :=
  json_from_str_weight : forall s v, json_from_str s = Some v -> (value_weight v <= String.length s)%nat.

(** ** The bundled policy *)

(** A tilde stands for the double quote of the policy text. *)
Fixpoint quoting (s : string) : string :=
  match s with
  | EmptyString => EmptyString
  | String c s => String (if Ascii.eqb c "~" then ascii_of_nat 34 else c) (quoting s)
  end.

(** [src/marty-verification/src/evidence_policy.rs:13-59] BUNDLED_APPROVAL_POLICY *)
Definition BUNDLED_APPROVAL_POLICY : string := quoting
"
@id(~auto-approve-verified-external-evidence~)
permit (
    principal is MIP::ServiceAccount,
    action == MIP::Action::~applications:approve~,
    resource
)
when {
    principal.service_name == ~canvas-evidence-policy~ &&
    context has evidence_provider &&
    context has evidence_verification_status &&
    context has evidence_scope_matched &&
    context has all_required_evidence_satisfied &&
    context has satisfied_requirement_count &&
    context has required_evidence_count &&
    context.evidence_verification_status == ~VERIFIED~ &&
    context.evidence_scope_matched &&
    context.all_required_evidence_satisfied &&
    context.satisfied_requirement_count >= context.required_evidence_count
};

@id(~deny-unverified-external-evidence~)
forbid (
    principal is MIP::ServiceAccount,
    action == MIP::Action::~applications:approve~,
    resource
)
when {
    principal.service_name == ~canvas-evidence-policy~ &&
    context has evidence_provider &&
    context has evidence_verification_status &&
    context.evidence_verification_status != ~VERIFIED~
};

@id(~deny-wrong-scope-external-evidence~)
forbid (
    principal is MIP::ServiceAccount,
    action == MIP::Action::~applications:approve~,
    resource
)
when {
    principal.service_name == ~canvas-evidence-policy~ &&
    context has evidence_provider &&
    context has evidence_scope_matched &&
    !context.evidence_scope_matched
};
".

(** ** Cedar *)

(** [cedar_policy]: policy sets, entities, contexts and requests are opaque; the
    error of each constructor is its text, and a response is the decision, the
    reasons and the errors of its diagnostics. *)
Class Cedar := {
  PolicySet : Type;
  Entities : Type;
  Context_ : Type;
  EntityUid : Type;
  Request : Type;
  policy_set_from_str : string -> string + PolicySet;
  entities_from_json_value : Value -> string + Entities;
  context_from_json_value : Value -> string + Context_;
  entity_uid_from_str : string -> string + EntityUid;
  request_new : EntityUid -> EntityUid -> EntityUid -> Context_ -> string + Request;
  is_authorized : Request -> PolicySet -> Entities -> bool * list string * list string;
}.

Definition of_sum {A} (r : string + A) : result A :=
  match r with inl e => Err e | inr a => Ok a end.

(** [{:?}] of a string. *)
Class StrDebug := str_debug : string -> string.

(** The decoders and encoders that [serde] derives. *)
Class EvidenceSerde := {
  request_from_str : string -> string + EvaluationRequest;
  heads_from_str : string -> string + list EvidenceFact;
  decision_to_string : EvidencePolicyDecision -> string + string;
  ids_to_string : list string -> string + string;
}.

Section decision.
Context `{JsonValueOps} `{StrCase} `{JsonParser} `{Cedar} `{StrDebug}.

Definition sort_strings : list string -> list string :=
  sort_by (fun s t => bytes_le (str_bytes s) (str_bytes t)).

(** [src/marty-verification/src/evidence_policy.rs:274-310] authorize *)
Definition authorize_evidence (app : ApplicationInput) (facts : list EvidenceFact) (context : Value)
    (policy_text : string) : result (bool * list string * list string) :=
  policies ← of_sum (policy_set_from_str policy_text);
  entities ← of_sum (entities_from_json_value (build_entities app facts));
  cedar_context ← of_sum (context_from_json_value context);
  principal ← of_sum (entity_uid_from_str (quoting "MIP::ServiceAccount::~canvas-evidence-policy~"));
  action ← of_sum (entity_uid_from_str (quoting "MIP::Action::~applications:approve~"));
  resource ← of_sum (entity_uid_from_str (quoting "MIP::Application::~" +:+ app_id app +:+ quoting "~"));
  request ← of_sum (request_new principal action resource cedar_context);
  let '(allow, reasons, errors) := is_authorized request policies entities in
  Ok (allow, sort_strings reasons, sort_strings errors).

(** [src/marty-verification/src/evidence_policy.rs:256-272] policy_error *)
Definition policy_error (engine policy_source : string) (policy_set_id : option string)
    (error : string) (context : Value) : EvidencePolicyDecision :=
  mkDecision false engine policy_source policy_set_id [] [error] context.

(** [binding ... .or_else(|| template ...)] of [evaluate]. *)
Definition selected_policy_set (request : EvaluationRequest) : option string :=
  match er_binding request ≫= binding_policy_set_id with
  | Some id => Some id
  | None => er_template request ≫= template_policy_set_id
  end.

(** The policy text of [evaluate], or the engine and the message of the
    [policy_error] it returns early. *)
Definition policy_text_of (request : EvaluationRequest) (policy_set_id : option string) :
    (string * string) + string :=
  match policy_set_id with
  | None => inr BUNDLED_APPROVAL_POLICY
  | Some id =>
      match er_policy_set request with
      | None => inl ("policy_set_unavailable",
                     "Approval PolicySet " +:+ id +:+ " was not found for organization "
                     +:+ app_organization_id (er_app request))
      | Some policy_set =>
          let policy_type := normalize_policy_value (ps_policy_type policy_set) in
          let text := normalize_cedar_policy_text (ps_cedar_policies policy_set) in
          if negb (String.eqb (normalize_policy_value (ps_status policy_set)) "ACTIVE")
          then inl ("policy_set_inactive", "Approval PolicySet " +:+ id +:+ " is not active")
          else if negb (String.eqb policy_type "APPROVAL_RULES") && negb (String.eqb policy_type "CUSTOM")
          then inl ("policy_set_wrong_type",
                    "PolicySet " +:+ id +:+ " has unsupported approval policy_type "
                    +:+ str_debug (ps_policy_type policy_set))
          else if is_empty text
          then inl ("policy_set_empty", "Approval PolicySet " +:+ id +:+ " has no enabled Cedar policies")
          else inr text
      end
  end.

(** [unwrap_or_else(|error| (false, Vec::new(), vec![error]))] *)
Definition or_denied (r : result (bool * list string * list string)) :
    result (bool * list string * list string) :=
  match r with
  | Ok a => Ok a
  | Err error => Ok (false, [], [error])
  | Panic => Panic
  end.

(** [src/marty-verification/src/evidence_policy.rs:174-254] evaluate *)
Definition evaluate (request : EvaluationRequest) : result EvidencePolicyDecision :=
  let facts := current_heads (er_facts request) in
  context ← build_context (er_binding request) (er_requirements request) facts;
  let context := context_json context in
  let policy_set_id := selected_policy_set request in
  let policy_source := match policy_set_id with Some _ => "policy_set" | None => "bundled" end in
  match policy_text_of request policy_set_id with
  | inl (engine, error) => Ok (policy_error engine policy_source policy_set_id error context)
  | inr policy_text =>
      '(allowed, reasons, errors) ←
        or_denied (authorize_evidence (er_app request) facts context policy_text);
      Ok (mkDecision allowed "cedar" policy_source policy_set_id reasons errors context)
  end.

Context `{EvidenceSerde}.

(** [src/marty-verification/src/evidence_policy.rs:147-152] evaluate_application_evidence_policy_json *)
Definition evaluate_application_evidence_policy_json (raw : string) : result string :=
  request ← map_err (fun e => "invalid evidence policy request: " +:+ e) (of_sum (request_from_str raw));
  decision ← evaluate request;
  of_sum (decision_to_string decision).

(** [src/marty-verification/src/evidence_policy.rs:154-167] current_evidence_heads_json *)
Definition current_evidence_heads_json (raw : string) : result string :=
  facts ← map_err (fun e => "invalid evidence heads request: " +:+ e) (of_sum (heads_from_str raw));
  of_sum (ids_to_string (map f_id (current_heads facts))).
End decision.

(** ** Cedar's semantics, on the fragment the bundled policy uses

    Values are booleans, 64-bit integers and strings; [&&] does not evaluate its
    right operand when the left one is false; an attribute that is absent and an
    operand of the wrong type are errors, and a policy whose condition is in error
    does not apply; a request is allowed when a [permit] applies and no [forbid]
    does. *)

Inductive CedarValue := CBool (b : bool) | CLong (n : Z) | CString (s : string).

Inductive CedarExpr :=
| EString (s : string)
| EPrincipal (attr : string)
| EContext (attr : string)
| EContextHas (attr : string)
| EAnd (a b : CedarExpr)
| ENot (a : CedarExpr)
| EEq (a b : CedarExpr)
| ENe (a b : CedarExpr)
| EGe (a b : CedarExpr).

#[export] Instance CedarValue_eq_dec : EqDecision CedarValue.
Proof. solve_decision. Defined.

Definition cedar_bool (v : option CedarValue) : option bool :=
  match v with Some (CBool b) => Some b | _ => None end.

Section cedar_semantics.
Variables principal context : string -> option CedarValue.

Fixpoint cedar_eval (e : CedarExpr) : option CedarValue :=
  match e with
  | EString s => Some (CString s)
  | EPrincipal a => principal a
  | EContext a => context a
  | EContextHas a => Some (CBool (bool_decide (is_Some (context a))))
  | EAnd a b =>
      l ← cedar_bool (cedar_eval a);
      if (l : bool) then r ← cedar_bool (cedar_eval b); Some (CBool r) else Some (CBool false)
  | ENot a => b ← cedar_bool (cedar_eval a); Some (CBool (negb b))
  | EEq a b => x ← cedar_eval a; y ← cedar_eval b; Some (CBool (bool_decide (x = y)))
  | ENe a b => x ← cedar_eval a; y ← cedar_eval b; Some (CBool (bool_decide (x ≠ y)))
  | EGe a b =>
      x ← cedar_eval a; y ← cedar_eval b;
      match x, y with CLong x, CLong y => Some (CBool (y <=? x)) | _, _ => None end
  end.

(** A policy that constrains the type of the principal and the action. *)
Record CedarPolicy := mkPolicy {
  permit : bool;
  principal_type : string;
  action_uid : string;
  condition : CedarExpr;
}.

Definition applies (ty action : string) (p : CedarPolicy) : bool :=
  String.eqb (principal_type p) ty && String.eqb (action_uid p) action
  && default false (cedar_bool (cedar_eval (condition p))).

Definition cedar_decision (ty action : string) (ps : list CedarPolicy) : bool :=
  existsb (fun p => permit p && applies ty action p) ps
  && negb (existsb (fun p => negb (permit p) && applies ty action p) ps).
End cedar_semantics.

Definition approve_action : string := quoting "MIP::Action::~applications:approve~".

Fixpoint all_of (e : CedarExpr) (es : list CedarExpr) : CedarExpr :=
  match es with [] => e | e' :: es => all_of (EAnd e e') es end.

(** [src/marty-verification/src/evidence_policy.rs:13-59] BUNDLED_APPROVAL_POLICY; the parsed policies *)
Definition bundled_policies : list CedarPolicy :=
  let service := EEq (EPrincipal "service_name") (EString "canvas-evidence-policy") in
  [mkPolicy true "MIP::ServiceAccount" approve_action
     (all_of service
        [EContextHas "evidence_provider"; EContextHas "evidence_verification_status";
         EContextHas "evidence_scope_matched"; EContextHas "all_required_evidence_satisfied";
         EContextHas "satisfied_requirement_count"; EContextHas "required_evidence_count";
         EEq (EContext "evidence_verification_status") (EString "VERIFIED");
         EContext "evidence_scope_matched"; EContext "all_required_evidence_satisfied";
         EGe (EContext "satisfied_requirement_count") (EContext "required_evidence_count")]);
   mkPolicy false "MIP::ServiceAccount" approve_action
     (all_of service
        [EContextHas "evidence_provider"; EContextHas "evidence_verification_status";
         ENe (EContext "evidence_verification_status") (EString "VERIFIED")]);
   mkPolicy false "MIP::ServiceAccount" approve_action
     (all_of service
        [EContextHas "evidence_provider"; EContextHas "evidence_scope_matched";
         ENot (EContext "evidence_scope_matched")])].

(** The attributes of an entity in the JSON that [Entities::from_json_value]
    reads, and the value of a JSON attribute. *)
Definition cedar_value (v : Value) : option CedarValue :=
  match v with
  | Bool b => Some (CBool b)
  | Number repr => CLong <$> parse_usize repr
  | VString s => Some (CString s)
  | _ => None
  end.

Definition has_uid (ty id : string) (e : Value) : bool :=
  match (m ← as_object e; u ← map_get "uid" m; as_object u) with
  | None => false
  | Some u =>
      bool_decide (map_get "type" u ≫= as_str = Some ty) && bool_decide (map_get "id" u ≫= as_str = Some id)
  end.

Definition entity_attr (entities : Value) (ty id attr : string) : option CedarValue :=
  es ← as_array entities;
  e ← find (has_uid ty id) es;
  m ← as_object e; attrs ← map_get "attrs" m; attrs ← as_object attrs;
  v ← map_get attr attrs; cedar_value v.

Definition context_attr (context : Value) (attr : string) : option CedarValue :=
  m ← as_object context; v ← map_get attr m; cedar_value v.

(** What the module relies on in [cedar_policy]: the text of the bundled policy
    parses to [bundled_policies], which are decided by the semantics above on the
    attributes in the JSON of the entities and of the context. *)
Class CedarLaws `{Cedar} : Prop := {
  bundled_decision : forall entities context resource ps es cx p a r q,
    policy_set_from_str BUNDLED_APPROVAL_POLICY = inr ps ->
    entities_from_json_value entities = inr es ->
    context_from_json_value context = inr cx ->
    entity_uid_from_str (quoting "MIP::ServiceAccount::~canvas-evidence-policy~") = inr p ->
    entity_uid_from_str approve_action = inr a ->
    entity_uid_from_str resource = inr r ->
    request_new p a r cx = inr q ->
    fst (fst (is_authorized q ps es)) =
      cedar_decision (entity_attr entities "MIP::ServiceAccount" "canvas-evidence-policy")
        (context_attr context) "MIP::ServiceAccount" approve_action bundled_policies;
}.

(** [str::to_uppercase] keeps the empty string. *)
Class StrCaseLaws `{StrCase} : Prop := to_uppercase_empty : str_to_uppercase "" = "".
