(* ===== verification/EvidencePolicyFacts.v ===== *)
(** * Correctness of the evidence policy

    The current revisions are the maximal facts per logical key, in one order
    whatever order they arrive in; the summary counts the requirements that a
    verified current fact satisfies; the text normalisation terminates; nothing
    panics on facts without arrays; and the bundled policy approves exactly when
    every effective requirement is satisfied. *)

From stdpp Require Import pretty.
From S2P Require Import Prelude Governance CanonicalJsonFacts RustF64 PolicyService EvidencePolicy.
Local Open Scope Z_scope.

(** ** Revisions *)

Lemma str_lt_spec s t :
  str_lt s t = true <-> bytes_le (str_bytes s) (str_bytes t) = true /\ s ≠ t.
Proof. unfold str_lt. rewrite andb_true_iff, negb_true_iff, String.eqb_neq. done. Qed.

Lemma str_lt_irrefl s : str_lt s s = false.
Proof. apply not_true_iff_false. rewrite str_lt_spec. naive_solver. Qed.

Lemma str_lt_trans s t u : str_lt s t = true -> str_lt t u = true -> str_lt s u = true.
Proof.
  rewrite !str_lt_spec. intros [H1 Hn1] [H2 Hn2]. split; [by eapply bytes_le_trans|].
  intros ->. apply Hn1, str_bytes_inj. by apply bytes_le_antisym.
Qed.

Lemma str_lt_total s t : s ≠ t -> str_lt s t = true \/ str_lt t s = true.
Proof.
  intros Hn. rewrite !str_lt_spec.
  destruct (bytes_le_total (str_bytes s) (str_bytes t)); naive_solver.
Qed.

Definition effective (f : EvidenceFact) : Z := default (observed_at f) (effective_at f).

(** The tuple order, read as a proposition. *)
Definition fact_before (f g : EvidenceFact) : Prop :=
  effective f < effective g \/
  effective f = effective g /\ (observed_at f < observed_at g \/
    observed_at f = observed_at g /\ (created_at f < created_at g \/
      created_at f = created_at g /\ str_lt (f_id f) (f_id g) = true)).

Lemma fact_order_spec f g : fact_order_lt f g = true <-> fact_before f g.
Proof.
  unfold fact_order_lt, fact_before. fold (effective f) (effective g).
  repeat match goal with
  | |- context [?a <? ?b] => destruct (Z.ltb_spec a b)
  end; intuition (try lia; done).
Qed.

Lemma fact_before_trans f g h : fact_before f g -> fact_before g h -> fact_before f h.
Proof.
  unfold fact_before. intros H1 H2.
  destruct (Z.lt_trichotomy (effective f) (effective h)) as [|[]]; [lia| |lia].
  destruct (Z.lt_trichotomy (observed_at f) (observed_at h)) as [|[]]; [lia| |lia].
  destruct (Z.lt_trichotomy (created_at f) (created_at h)) as [|[]]; [lia| |lia].
  do 3 (right; split; [done|]).
  eapply (str_lt_trans _ (f_id g)); destruct (str_lt (f_id f) (f_id g)) eqn:?, (str_lt (f_id g) (f_id h)) eqn:?;
    try done; lia.
Qed.

Lemma fact_before_irrefl f : ~ fact_before f f.
Proof. unfold fact_before. rewrite str_lt_irrefl. intuition lia. Qed.

Lemma fact_before_total f g : f_id f ≠ f_id g -> fact_before f g \/ fact_before g f.
Proof.
  intros Hn. unfold fact_before. pose proof (str_lt_total _ _ Hn).
  destruct (Z.lt_trichotomy (effective f) (effective g)) as [|[]]; [lia| |lia].
  destruct (Z.lt_trichotomy (observed_at f) (observed_at g)) as [|[]]; [lia| |lia].
  destruct (Z.lt_trichotomy (created_at f) (created_at g)) as [|[]]; [lia| |lia].
  naive_solver.
Qed.

(** [f] is a current revision of [facts]: no fact of its key is later. *)
Definition current (facts : list EvidenceFact) (f : EvidenceFact) : Prop :=
  f ∈ facts /\ forall g, g ∈ facts -> key_of g = key_of f -> ~ fact_before f g.

(** What the map holds after a prefix of the facts. *)
Record heads_of (facts : list EvidenceFact) (heads : gmap string EvidenceFact) : Prop := {
  heads_current : forall k f, heads !! k = Some f -> key_of f = k /\ current facts f;
  heads_cover : forall g, g ∈ facts -> is_Some (heads !! key_of g);
}.

Lemma current_app facts f g :
  current facts g -> key_of g ≠ key_of f \/ ~ fact_before g f -> current (facts ++ [f]) g.
Proof.
  intros [Hin Hmax] Hf. split; [set_solver|].
  intros h [Hh| ->%list_elem_of_singleton]%elem_of_app He; [by apply Hmax|]. naive_solver.
Qed.

Lemma heads_of_replace facts heads f :
  heads_of facts heads -> (forall c, heads !! key_of f = Some c -> fact_before c f) ->
  heads_of (facts ++ [f]) (<[key_of f := f]> heads).
Proof.
  intros [Hcur Hcov] Hlt. split.
  - intros k g [[<- <-]|[Hk Hg]]%lookup_insert_Some.
    + split; [done|]. split; [set_solver|].
      intros h [Hh| ->%list_elem_of_singleton]%elem_of_app He; [|apply fact_before_irrefl].
      destruct (Hcov _ Hh) as [c Hc]. rewrite He in Hc. destruct (Hcur _ _ Hc) as [Hkc [_ Hmax]].
      intros Hfh. apply (Hmax h Hh); [congruence|]. eapply fact_before_trans; [by apply Hlt|done].
    + destruct (Hcur _ _ Hg) as [Hkg Hgc]. split; [done|]. apply current_app; [done|left; congruence].
  - intros g [Hg| ->%list_elem_of_singleton]%elem_of_app; rewrite lookup_insert_is_Some';
      [right; by apply Hcov|by left].
Qed.

Lemma heads_of_keep facts heads f c :
  heads_of facts heads -> heads !! key_of f = Some c -> ~ fact_before c f ->
  heads_of (facts ++ [f]) heads.
Proof.
  intros [Hcur Hcov] Hc Hlt. split.
  - intros k g Hg. destruct (Hcur _ _ Hg) as [Hkg Hgc]. split; [done|]. apply current_app; [done|].
    destruct (decide (key_of g = key_of f)) as [He|]; [right|by left].
    by assert (g = c) as -> by congruence.
  - intros g [Hg| ->%list_elem_of_singleton]%elem_of_app; [by apply Hcov|eauto].
Qed.

Lemma heads_of_insert facts heads f :
  heads_of facts heads -> heads_of (facts ++ [f]) (insert_head heads f).
Proof.
  intros Hh. unfold insert_head. destruct (heads !! key_of f) as [c|] eqn:Hc.
  - destruct (fact_order_lt c f) eqn:Hlt.
    + apply heads_of_replace; [done|]. intros c'. rewrite Hc. intros [= <-]. by apply fact_order_spec.
    + eapply heads_of_keep; [done..|]. rewrite <- fact_order_spec. congruence.
  - apply heads_of_replace; [done|]. by rewrite Hc.
Qed.

Lemma heads_of_fold facts : heads_of facts (foldl insert_head ∅ facts).
Proof.
  induction facts as [|f facts IH] using rev_ind.
  - simpl. split; [intros k f Hf; by apply lookup_empty_Some in Hf|set_solver].
  - rewrite foldl_app. by apply heads_of_insert.
Qed.

Lemma head_le_spec f g : head_le f g = true <->
  observed_at f < observed_at g \/ observed_at f = observed_at g /\ (created_at f < created_at g \/
    created_at f = created_at g /\ bytes_le (str_bytes (f_id f)) (str_bytes (f_id g)) = true).
Proof.
  unfold head_le. repeat match goal with
  | |- context [?a <? ?b] => destruct (Z.ltb_spec a b)
  end; intuition (try lia; done).
Qed.

Lemma head_le_total f g : head_le f g = true \/ head_le g f = true.
Proof.
  rewrite !head_le_spec. pose proof (bytes_le_total (str_bytes (f_id f)) (str_bytes (f_id g))).
  destruct (Z.lt_trichotomy (observed_at f) (observed_at g)) as [|[]]; [lia| |lia].
  destruct (Z.lt_trichotomy (created_at f) (created_at g)) as [|[]]; [lia| |lia].
  naive_solver.
Qed.

Lemma head_le_trans f g h : head_le f g = true -> head_le g h = true -> head_le f h = true.
Proof.
  rewrite !head_le_spec. intros H1 H2.
  destruct (Z.lt_trichotomy (observed_at f) (observed_at h)) as [|[]]; [lia| |lia].
  destruct (Z.lt_trichotomy (created_at f) (created_at h)) as [|[]]; [lia| |lia].
  do 2 (right; split; [done|]).
  apply (bytes_le_trans _ (str_bytes (f_id g))); destruct (bytes_le (str_bytes (f_id f)) (str_bytes (f_id g))) eqn:?,
    (bytes_le (str_bytes (f_id g)) (str_bytes (f_id h))) eqn:?; try done; lia.
Qed.

Lemma head_le_id f g : head_le f g = true -> head_le g f = true -> f_id f = f_id g.
Proof.
  rewrite !head_le_spec. intros H1 H2. apply str_bytes_inj. apply bytes_le_antisym;
  destruct (bytes_le (str_bytes (f_id f)) (str_bytes (f_id g))) eqn:?,
    (bytes_le (str_bytes (f_id g)) (str_bytes (f_id f))) eqn:?; try done; lia.
Qed.

Lemma current_heads_perm facts :
  current_heads facts ≡ₚ map snd (map_to_list (foldl insert_head ∅ facts)).
Proof. unfold current_heads. rewrite sort_by_perm. by rewrite sort_by_perm. Qed.

Lemma elem_of_current_heads facts f :
  f ∈ current_heads facts <-> foldl insert_head ∅ facts !! key_of f = Some f.
Proof.
  rewrite current_heads_perm, list_elem_of_fmap. split.
  - intros ([k g] & -> & Hg%elem_of_map_to_list). simpl.
    by destruct (heads_current _ _ (heads_of_fold facts) _ _ Hg) as [-> _].
  - intros Hf. exists (key_of f, f). split; [done|]. by apply elem_of_map_to_list.
Qed.

Lemma current_heads_keys facts : NoDup (map key_of (current_heads facts)).
Proof.
  rewrite current_heads_perm.
  assert (forall l : list (string * EvidenceFact), (forall kv, kv ∈ l -> key_of kv.2 = kv.1) ->
            map key_of (map snd l) = l.*1) as Hl.
  { intros l Hl. rewrite map_map. apply list_fmap_ext. intros i kv Hi. apply Hl.
    by eapply list_elem_of_lookup_2. }
  rewrite Hl; [apply NoDup_fst_map_to_list|].
  intros [k f] Hf%elem_of_map_to_list. by destruct (heads_current _ _ (heads_of_fold facts) _ _ Hf).
Qed.

Lemma evidence_heads_current facts f : f ∈ current_heads facts -> current facts f.
Proof.
  intros Hf%elem_of_current_heads. by destruct (heads_current _ _ (heads_of_fold facts) _ _ Hf).
Qed.

(** [current_heads] returns exactly one current revision for each logical key of
    the input: each fact it returns occurs in the input and no fact of its key is
    later in [fact_order], every key of the input is represented once, and the
    result is in order of observation, creation and id. *)
Theorem evidence_heads_exact facts :
  (forall f, f ∈ current_heads facts -> current facts f) /\
  (forall g, g ∈ facts -> exists f, f ∈ current_heads facts /\ key_of f = key_of g) /\
  NoDup (map key_of (current_heads facts)) /\
  StronglySorted (fun f g => head_le f g = true) (current_heads facts).
Proof.
  pose proof (heads_of_fold facts) as Hh. split_and!.
  - apply evidence_heads_current.
  - intros g Hg. destruct (heads_cover _ _ Hh g Hg) as [f Hf]. exists f.
    destruct (heads_current _ _ Hh _ _ Hf) as [Hk _]. split; [|done].
    apply elem_of_current_heads. by rewrite Hk.
  - apply current_heads_keys.
  - apply sort_by_sorted; eauto using head_le_total, head_le_trans.
Qed.

Lemma fact_id_inj facts f g : NoDup (map f_id facts) ->
  f ∈ facts -> g ∈ facts -> f_id f = f_id g -> f = g.
Proof.
  intros Hnd [i Hi]%list_elem_of_lookup [j Hj]%list_elem_of_lookup He.
  assert (i = j) as <-; [|congruence].
  eapply (NoDup_lookup _ _ _ (f_id f) Hnd); rewrite list_lookup_fmap;
    [rewrite Hi|rewrite Hj, He]; reflexivity.
Qed.

(** With distinct ids a key has a single current revision. *)
Lemma elem_of_heads_current facts f : NoDup (map f_id facts) ->
  f ∈ current_heads facts <-> current facts f.
Proof.
  intros Hnd. rewrite elem_of_current_heads. pose proof (heads_of_fold facts) as Hh. split.
  - intros Hf. by destruct (heads_current _ _ Hh _ _ Hf).
  - intros [Hin Hmax]. destruct (heads_cover _ _ Hh f Hin) as [g Hg]. rewrite Hg.
    destruct (heads_current _ _ Hh _ _ Hg) as [Hk [Hgin Hgmax]].
    destruct (decide (f_id f = f_id g)) as [He|Hn].
    + f_equal. by eapply fact_id_inj.
    + exfalso. destruct (fact_before_total _ _ Hn); [eapply (Hmax g)|eapply (Hgmax f)]; eauto; congruence.
Qed.

Lemma current_perm facts facts' f : facts ≡ₚ facts' -> current facts f -> current facts' f.
Proof. intros Hp [Hin Hmax]. split; [by rewrite <- Hp|]. intros g Hg. apply Hmax. by rewrite Hp. Qed.

(** The current revisions, and so every decision taken on them, do not depend on
    the order in which facts with distinct ids are supplied. *)
Theorem evidence_heads_order_independent facts facts' :
  facts ≡ₚ facts' -> NoDup (map f_id facts) -> current_heads facts = current_heads facts'.
Proof.
  intros Hp Hnd. assert (NoDup (map f_id facts')) as Hnd' by by rewrite <- Hp.
  apply (StronglySorted_unique_strong (fun f g => head_le f g = true)).
  - intros f g [Hf _]%(elem_of_heads_current _ _ Hnd) [Hg _]%(elem_of_heads_current _ _ Hnd') H1 H2.
    rewrite <- Hp in Hg. apply (fact_id_inj facts); [done..|]. by apply head_le_id.
  - apply sort_by_sorted; eauto using head_le_total, head_le_trans.
  - apply sort_by_sorted; eauto using head_le_total, head_le_trans.
  - apply NoDup_Permutation; try (eapply NoDup_fmap_1, current_heads_keys).
    intros f. rewrite !elem_of_heads_current by done. split; apply current_perm; by rewrite Hp.
Qed.

(** ** Panics *)

(** A computation that neither fails nor panics. *)
Definition returns {A} (c : res string A) : Prop := exists a, c = Ok a.

Lemma returns_Ok {A} (a : A) : returns (Ok a).
Proof. by exists a. Qed.

Lemma returns_bind {A B} (c : res string A) (f : A -> res string B) :
  returns c -> (forall a, c = Ok a -> returns (f a)) -> returns (c ≫= f).
Proof. intros [a ->] Hf. by apply (Hf a). Qed.

Create HintDb evidence.
#[local] Hint Resolve returns_Ok : evidence.

(** No array anywhere in a value: the only place a rule path can panic is at an index. *)
Fixpoint array_free (v : Value) : bool :=
  match v with
  | Array _ => false
  | Object m => forallb (fun kv => array_free kv.2) m
  | _ => true
  end.

Definition map_array_free (m : list (string * Value)) : bool := array_free (Object m).
Definition fact_array_free (f : EvidenceFact) : bool :=
  map_array_free (assertion f) && map_array_free (scope f) && map_array_free (verification f)
  && map_array_free (source f).

Lemma map_get_array_free key m v :
  map_array_free m = true -> map_get key m = Some v -> array_free v = true.
Proof.
  unfold map_array_free. cbn [array_free]. induction m as [|[k w] m IH]; cbn [map_get forallb snd]; [done|].
  intros [Hw Hm]%andb_true_iff. destruct (String.eqb k key); [by intros [= <-]|by apply IH].
Qed.

Lemma follow_path_returns parts v : array_free v = true -> returns (follow_path v parts).
Proof.
  revert v. induction parts as [|part parts IH]; intros v Hv; cbn [follow_path]; [by eauto with evidence|].
  destruct v; try by eauto with evidence. destruct (map_get part entries) eqn:Hg; [|by eauto with evidence].
  eapply IH, map_get_array_free; done.
Qed.

Lemma path_value_returns v path : array_free v = true -> returns (path_value_owned v path).
Proof.
  intros Hv. unfold path_value_owned. case_match; [by eauto with evidence|by apply follow_path_returns].
Qed.

Lemma fact_path_returns f path : fact_array_free f = true -> returns (fact_path_value f path).
Proof.
  intros [[[Ha Hs]%andb_true_iff Hv]%andb_true_iff Hsrc]%andb_true_iff.
  unfold fact_path_value. apply path_value_returns. case_match; [|done].
  unfold map_array_free in *. cbn [array_free forallb snd] in *. by rewrite Ha, Hs, Hv, Hsrc.
Qed.

Lemma any_m_returns {A} (f : A -> res string bool) l :
  (forall a, a ∈ l -> returns (f a)) -> returns (any_m f l).
Proof.
  induction l as [|a l IH]; intros Hf; cbn [any_m]; [by eauto with evidence|].
  apply returns_bind; [apply Hf; by left|]. intros [] _; [by eauto with evidence|].
  apply IH. intros b Hb. apply Hf. by right.
Qed.

Lemma all_m_returns {A} (f : A -> res string bool) l :
  (forall a, a ∈ l -> returns (f a)) -> returns (all_m f l).
Proof.
  induction l as [|a l IH]; intros Hf; cbn [all_m]; [by eauto with evidence|].
  apply returns_bind; [apply Hf; by left|]. intros [] _; [|by eauto with evidence].
  apply IH. intros b Hb. apply Hf. by right.
Qed.

Lemma fold_m_returns {A B} (f : B -> A -> res string B) l : forall b,
  (forall b a, a ∈ l -> returns (f b a)) -> returns (fold_m f b l).
Proof.
  induction l as [|a l IH]; intros b Hf; cbn [fold_m]; [by eauto with evidence|].
  apply returns_bind; [apply Hf; by left|]. intros b' _. apply IH. intros b'' x Hx. apply Hf. by right.
Qed.

(** Members of a value are found at a value no deeper. *)
Lemma with_key_get {R} (f : Value -> R) key m : with_key f key m = f <$> map_get key m.
Proof.
  induction m as [|[k v] m IH]; cbn [with_key map_get]; [done|].
  fold (with_key f). destruct (String.eqb k key); [done|apply IH].
Qed.

Lemma map_get_elem key m v : map_get key m = Some v -> (key, v) ∈ m.
Proof.
  induction m as [|[k w] m IH]; cbn [map_get]; [done|].
  destruct (String.eqb_spec k key) as [->|]; [intros [= ->]; by left|intros H; right; by apply IH].
Qed.

Lemma list_sum_elem {A} (w : A -> nat) l a : a ∈ l -> (w a <= list_sum (map w l))%nat.
Proof. induction 1; simpl; lia. Qed.

Lemma value_weight_array l v : v ∈ l -> (value_weight v < value_weight (Array l))%nat.
Proof. intros Hv%(list_sum_elem value_weight). simpl. lia. Qed.

Lemma value_weight_object m k v : (k, v) ∈ m -> (value_weight v < value_weight (Object m))%nat.
Proof. intros Hv%(list_sum_elem (fun kv => value_weight kv.2)). simpl in *. lia. Qed.

(** Induction on the weight of a value. *)
Lemma value_weight_ind (P : Value -> Prop) :
  (forall v, (forall w, (value_weight w < value_weight v)%nat -> P w) -> P v) -> forall v, P v.
Proof. intros IH v. induction (well_founded_ltof _ value_weight v) as [v _ IH']. by apply IH. Qed.

Section panics.
Context `{JsonValueOps} `{StrCase} `{JsonParser}.

Lemma path_condition_returns f c : fact_array_free f = true -> returns (path_condition_satisfied f c).
Proof.
  intros Hf. induction c as [c IH] using value_weight_ind.
  destruct c as [| | | | |m]; try by (cbn [path_condition_satisfied]; eauto with evidence).
  assert (forall key v, map_get key m = Some v -> forall w, (value_weight w <= value_weight v)%nat ->
            returns (path_condition_satisfied f w)) as IHm.
  { intros key v Hv%map_get_elem%value_weight_object w Hw. apply IH. lia. }
  cbn [path_condition_satisfied]. rewrite !with_key_get.
  destruct (map_get "all" m) as [v|] eqn:Hall; cbn [fmap option_fmap option_map].
  { destruct v; eauto with evidence. apply all_m_returns. intros a Ha%value_weight_array.
    apply (IHm _ _ Hall). lia. }
  destruct (map_get "any" m) as [v|] eqn:Hany; cbn [fmap option_fmap option_map].
  { destruct v; eauto with evidence. apply any_m_returns. intros a Ha%value_weight_array.
    apply (IHm _ _ Hany). lia. }
  destruct (map_get "not" m) as [v|] eqn:Hnot; cbn [fmap option_fmap option_map].
  { apply returns_bind; [by apply (IHm _ _ Hnot)|eauto with evidence]. }
  unfold path_test. destruct (map_get "path" m ≫= as_str) as [path|]; [|by eauto with evidence].
  destruct (is_empty path); [by eauto with evidence|].
  apply returns_bind; [by apply fact_path_returns|eauto with evidence].
Qed.

Lemma satisfies_returns f r : fact_array_free f = true -> returns (fact_satisfies_requirement f r).
Proof.
  intros Hf. unfold fact_satisfies_requirement, pass_rule_satisfied.
  repeat case_match; eauto with evidence; by apply path_condition_returns.
Qed.

Lemma summarize_returns reqs facts :
  (forall f, f ∈ facts -> fact_array_free f = true) -> returns (summarize_requirements reqs facts).
Proof.
  intros Hf.
  assert (forall l acc, returns (fold_m (summarize_step facts) acc l)) as Hfold.
  { intros l acc. apply fold_m_returns. intros [sat sc] r _. unfold summarize_step.
    apply returns_bind; [|by eauto with evidence].
    apply any_m_returns. intros f Hin. by apply satisfies_returns, Hf. }
  unfold summarize_requirements. repeat case_match; eauto with evidence;
    (apply returns_bind; [apply Hfold|]); intros [] _; eauto with evidence.
Qed.

Context `{Cedar} `{StrDebug}.

Lemma or_denied_returns r : no_panic r -> returns (or_denied r).
Proof. destruct r; [eauto with evidence..|done]. Qed.

Lemma of_sum_no_panic {A} (r : string + A) : no_panic (of_sum r).
Proof. by destruct r. Qed.

Lemma authorize_no_panic app facts c text : no_panic (authorize_evidence app facts c text).
Proof.
  unfold authorize_evidence. repeat (apply bind_no_panic; [apply of_sum_no_panic|intros ? _]).
  by repeat case_match.
Qed.

(** An evaluation always produces a decision when no fact carries an array in
    its assertion, scope, verification or source: an array index in a rule path
    is the only operation of the module that can panic, and every error of the
    policy engine becomes a denial. *)
Theorem evaluate_total r :
  Forall (fun f => fact_array_free f = true) (er_facts r) -> exists d, evaluate r = Ok d.
Proof.
  intros Hr. rewrite Forall_forall in Hr. apply returns_bind.
  { unfold build_context. apply returns_bind.
    - apply summarize_returns. intros f [Hf _]%evidence_heads_current. by apply Hr.
    - intros [[[]]] _. eauto with evidence. }
  intros c _. cbv beta zeta. case_match; [case_match; eauto with evidence|]. apply returns_bind.
  - apply or_denied_returns, authorize_no_panic.
  - intros [[]] _. eauto with evidence.
Qed.
End panics.

(** ** The text of a policy set *)

Lemma trim_front_length w2 w3 s : (length (trim_front w2 w3 s) <= length s)%nat.
Proof.
  induction s as [s IH] using (induction_ltof1 _ (@length Z)). unfold ltof in IH.
  destruct s as [|a [|b [|c s]]]; cbn [trim_front length]; [lia|..];
    repeat (case_match; try (cbn [length]; lia)); (etrans; [apply IH; simpl; lia|simpl; lia]).
Qed.

Lemma string_of_list_length l : String.length (String.string_of_list_ascii l) = length l.
Proof. induction l; simpl; congruence. Qed.

(** [str::trim] only removes bytes. *)
Lemma str_trim_length s : (String.length (str_trim s) <= String.length s)%nat.
Proof.
  unfold str_trim, str_of_bytes, utf8_trim. rewrite string_of_list_length, length_fmap, length_reverse.
  etrans; [apply trim_front_length|]. rewrite length_reverse. etrans; [apply trim_front_length|].
  unfold str_bytes. rewrite length_fmap. induction s; simpl; lia.
Qed.

Section policy_text.
Context `{JsonParser}.

Context `{!JsonParserLaws}.

Lemma normalize_fuel_enough fuel v : (value_weight v <= fuel)%nat ->
  normalize_cedar_fuel fuel v = normalize_cedar_policy_text v.
Proof.
  unfold normalize_cedar_policy_text. revert fuel. induction v as [v IH] using value_weight_ind.
  intros fuel Hf.
  assert (value_weight v ≠ 0)%nat as Hn by (destruct v; simpl; lia).
  destruct fuel as [|fuel]; [lia|]. destruct (value_weight v) as [|w] eqn:Hw; [done|].
  destruct v as [| | |s| |m]; try done; cbn [normalize_cedar_fuel].
  - destruct (is_empty (str_trim s)); [done|]. destruct (json_from_str (str_trim s)) as [v|] eqn:Hv; [|done].
    apply json_from_str_weight in Hv. pose proof (str_trim_length s). simpl in Hw.
    rewrite (IH v) by lia. symmetry. apply IH; lia.
  - destruct (map_get "cedar_policies" m) as [v|] eqn:Hv; [|done].
    apply map_get_elem, value_weight_object in Hv. rewrite Hw in Hv.
    rewrite (IH v) by lia. symmetry. apply IH; lia.
Qed.

(** The normalisation of policy text terminates and is the function of the source:
    for every value it satisfies the recursive equations of the code, in which a
    string that parses as JSON is replaced by what it parses to. *)
Theorem normalize_cedar_equation v :
  normalize_cedar_policy_text v =
  match v with
  | VString s =>
      let stripped := str_trim s in
      if is_empty stripped then ""
      else match json_from_str stripped with
           | Some parsed => normalize_cedar_policy_text parsed
           | None => stripped
           end
  | Array values => join_blank_line (policy_texts values)
  | Object m =>
      match map_get "cedar_policies" m with
      | Some v => normalize_cedar_policy_text v
      | None => if enabled m then default "" (str_trim <$> (map_get "cedar_text" m ≫= as_str)) else ""
      end
  | _ => ""
  end.
Proof.
  rewrite <- (normalize_fuel_enough (S (value_weight v))) by lia.
  destruct v as [| | |s| |m]; try done; cbn [normalize_cedar_fuel].
  - cbv zeta. destruct (is_empty (str_trim s)); [done|].
    destruct (json_from_str (str_trim s)) as [v|] eqn:Hv; [|done].
    apply json_from_str_weight in Hv. pose proof (str_trim_length s).
    apply normalize_fuel_enough. simpl. lia.
  - destruct (map_get "cedar_policies" m) as [v|] eqn:Hv; [|done].
    apply map_get_elem, value_weight_object in Hv. apply normalize_fuel_enough. lia.
Qed.
End policy_text.

(** ** Decimal counts *)

Lemma digit_value_pretty d : (d < 10)%N ->
  digit_value (pretty_N_char d) = Some (Z.of_N d).
Proof.
  intros Hd. assert (d ∈ [0; 1; 2; 3; 4; 5; 6; 7; 8; 9]%N) as Hin by (rewrite !elem_of_cons, elem_of_nil; lia).
  by repeat (apply elem_of_cons in Hin as [->|Hin]; [reflexivity|]); apply elem_of_nil in Hin.
Qed.

Lemma take_digits_pretty_go x : forall s, (0 < x)%N -> exists k, 0 < k /\
  take_digits 0 0 (String.list_ascii_of_string (pretty_N_go x s))
  = take_digits (Z.of_N x) k (String.list_ascii_of_string s).
Proof.
  induction x as [x IH] using (well_founded_induction N.lt_wf_0). intros s Hx.
  rewrite pretty_N_go_step by done.
  pose proof (N.mod_lt x 10 ltac:(done)). pose proof (N.div_mod x 10 ltac:(done)).
  assert (forall acc k, take_digits acc k
            (String.list_ascii_of_string (String (pretty_N_char (x `mod` 10)) s))
          = take_digits (10 * acc + Z.of_N (x `mod` 10)) (k + 1) (String.list_ascii_of_string s)) as Hd.
  { intros acc k. cbn [String.list_ascii_of_string take_digits]. by rewrite digit_value_pretty by lia. }
  destruct (decide (x / 10 = 0)%N) as [Hz|Hz].
  - exists 1. split; [lia|]. rewrite Hz, pretty_N_go_0, Hd. f_equal; lia.
  - destruct (IH (x / 10)%N ltac:(by apply N.div_lt; lia) (String (pretty_N_char (x `mod` 10)) s)) as (k & Hk & ->);
      [lia|]. exists (k + 1). split; [lia|]. rewrite Hd. f_equal. lia.
Qed.

Lemma pretty_N_go_digit x : forall s, (0 < x)%N ->
  exists d t, (d < 10)%N /\ pretty_N_go x s = String (pretty_N_char d) t.
Proof.
  induction x as [x IH] using (well_founded_induction N.lt_wf_0). intros s Hx.
  rewrite pretty_N_go_step by done. destruct (decide (x / 10 = 0)%N) as [Hz|Hz].
  - rewrite Hz, pretty_N_go_0. eexists _, _. split; [|done]. by apply N.mod_lt.
  - apply IH; [apply N.div_lt; lia|]. by apply N.neq_0_lt_0.
Qed.

(** A count prints and parses back. *)
Lemma parse_usize_pretty n : 0 <= n <= usize_max -> parse_usize (pretty n) = Some n.
Proof.
  intros Hn. destruct n as [|p|p]; [reflexivity| |lia].
  change (pretty (Z.pos p)) with (pretty (N.pos p)). unfold pretty, pretty_N. case_decide; [lia|].
  destruct (take_digits_pretty_go (N.pos p) "" ltac:(lia)) as (k & Hk & Ht).
  destruct (pretty_N_go_digit (N.pos p) "" ltac:(lia)) as (d & t & Hd & Hs).
  unfold parse_usize. rewrite Hs in Ht |- *. cbn [String.list_ascii_of_string] in Ht |- *.
  assert (forall X (a : X) b, match pretty_N_char d with "+"%char => a | _ => b end = b) as Hplus.
  { intros X a b. pose proof (digit_value_pretty d Hd) as Hv.
    destruct (Ascii.eqb_spec (pretty_N_char d) "+") as [E|E]; [by rewrite E in Hv|].
    repeat case_match; congruence. }
  replace (match pretty_N_char d :: String.list_ascii_of_string t with
           | "+"%char :: rest => rest
           | _ => pretty_N_char d :: String.list_ascii_of_string t
           end) with (pretty_N_char d :: String.list_ascii_of_string t) by (symmetry; apply Hplus).
  rewrite Ht. cbn [take_digits String.list_ascii_of_string].
  rewrite bool_decide_eq_true_2 by done. cbn [negb orb].
  destruct (Z.eqb_spec k 0); [lia|]. destruct (Z.ltb_spec usize_max (Z.of_N (N.pos p))); [lia|]. done.
Qed.

(** ** The summary of the requirements *)

Lemma any_m_spec {A} (f : A -> res string bool) l b : any_m f l = Ok b ->
  b = true <-> exists a, a ∈ l /\ f a = Ok true.
Proof.
  induction l as [|a l IH]; cbn [any_m].
  - intros [= <-]. split; [done|]. intros (a & Ha & _). by apply elem_of_nil in Ha.
  - intros (x & Hx & Hb)%bind_Ok. destruct x.
    + injection Hb as <-. split; [|done]. intros _. exists a. split; [by left|done].
    + rewrite (IH Hb). split; intros (c & Hc & Hfc).
      * exists c. split; [by right|done].
      * apply elem_of_cons in Hc as [->|Hc]; [congruence|]. by exists c.
Qed.

(** The requirements a decision is about; [None] when some are given and none of
    them is required. *)
Definition effective_requirements (requirements : list Value) : option (list Value) :=
  match List.filter is_required requirements, requirements with
  | [], [] => Some [default_requirement]
  | [], _ :: _ => None
  | required, _ => Some required
  end.

Section summary.
Context `{JsonValueOps} `{StrCase}.

(** Some current fact satisfies the requirement. *)
Definition satisfied_by (facts : list EvidenceFact) (requirement : Value) : Prop :=
  exists f, f ∈ facts /\ fact_satisfies_requirement f requirement = Ok true.

(** The scope of the requirement, when it has one, is that of a fact it is about. *)
Definition scope_covered (facts : list EvidenceFact) (requirement : Value) : Prop :=
  requirement_scope requirement = [] \/
  exists f, f ∈ facts /\ requirement_identity_matches f requirement false = true /\
    scope_matches (scope f) (requirement_scope requirement) = true.

Lemma scope_covered_spec facts q :
  negb (bool_decide (requirement_scope q = [])) &&
  negb (existsb (fun f => scope_matches (scope f) (requirement_scope q))
          (List.filter (fun f => requirement_identity_matches f q false) facts)) = false <->
  scope_covered facts q.
Proof.
  rewrite <- negb_orb, negb_false_iff, orb_true_iff, bool_decide_eq_true, existsb_exists.
  unfold scope_covered. split; (intros [?|(f & Hf)]; [by left|right; exists f]).
  - rewrite filter_In, list_elem_of_In in *. naive_solver.
  - rewrite filter_In, <- list_elem_of_In. naive_solver.
Qed.

Lemma summarize_fold facts l : forall n b n' b',
  fold_m (summarize_step facts) (n, b) l = Ok (n', b') ->
  n <= n' <= n + zlen l /\
  (n' = n + zlen l <-> Forall (satisfied_by facts) l) /\
  (b' = true <-> b = true /\ Forall (scope_covered facts) l).
Proof.
  induction l as [|q l IH]; intros n b n' b'; cbn [fold_m].
  - intros [= <- <-]. change (zlen []) with 0. split_and!; [lia..| |]; split; [constructor|lia|by split; [|constructor]|by intros []].
  - intros ([m c] & Hstep & Hrest)%bind_Ok. apply IH in Hrest as (Hle & Hn & Hb). clear IH.
    unfold summarize_step in Hstep. apply bind_Ok in Hstep as (hit & Hhit & [= <- <-]).
    apply any_m_spec in Hhit. fold (satisfied_by facts q) in Hhit.
    rewrite !Forall_cons, Hb, <- Hhit, <- scope_covered_spec, <- Hn.
    replace (zlen (q :: l)) with (1 + zlen l) by (unfold zlen; simpl; lia).
    destruct hit; (split_and!; [lia..| |]); (split; [|]); case_match; naive_solver lia.
Qed.

Lemma summarize_spec reqs facts required satisfied all sc :
  summarize_requirements reqs facts = Ok (required, satisfied, all, sc) ->
  match effective_requirements reqs with
  | None => all = false
  | Some eff =>
      required = zlen eff /\ 0 <= satisfied <= zlen eff /\ all = (required <=? satisfied) /\
      (all = true <-> Forall (satisfied_by facts) eff) /\
      (sc = true <-> Forall (scope_covered facts) eff)
  end.
Proof.
  assert (forall eff, ('(s, sc) ← fold_m (summarize_step facts) (0, true) eff;
            Ok (zlen eff, s, zlen eff <=? s, sc)) = Ok (required, satisfied, all, sc) ->
          required = zlen eff /\ 0 <= satisfied <= zlen eff /\ all = (required <=? satisfied) /\
          (all = true <-> Forall (satisfied_by facts) eff) /\
          (sc = true <-> Forall (scope_covered facts) eff)) as Hgo.
  { intros eff ([s sc'] & Hf & [= <- <- <- <-])%bind_Ok. apply summarize_fold in Hf as (Hle & Hn & Hb).
    split_and!; [done|lia..|done| |naive_solver]. rewrite <- Hn. lia. }
  unfold summarize_requirements, effective_requirements.
  destruct (List.filter is_required reqs); destruct reqs; try apply Hgo. by intros [= <- <- <- <-].
Qed.
End summary.

(** ** The bundled policy *)

(** The three policies, on a principal and a context with the attributes they read. *)
Lemma bundled_decision_on principal context status sc all sat req provider :
  principal "service_name" = Some (CString "canvas-evidence-policy") ->
  context "evidence_provider" = Some (CString provider) ->
  context "evidence_verification_status" = Some (CString status) ->
  context "evidence_scope_matched" = Some (CBool sc) ->
  context "all_required_evidence_satisfied" = Some (CBool all) ->
  context "satisfied_requirement_count" = Some (CLong sat) ->
  context "required_evidence_count" = Some (CLong req) ->
  cedar_decision principal context "MIP::ServiceAccount" approve_action bundled_policies = true <->
  status = "VERIFIED" /\ sc = true /\ all = true /\ req <= sat.
Proof.
  intros Hp Hprov Hstat Hsc Hall Hsat Hreq.
  unfold cedar_decision, bundled_policies, applies.
  cbn [existsb permit principal_type action_uid condition all_of negb andb orb].
  rewrite !String.eqb_refl. cbn [andb cedar_eval].
  rewrite Hp, Hprov, Hstat, Hsc, Hall, Hsat, Hreq.
  cbn [mbind option_bind cedar_bool default]. rewrite !(bool_decide_eq_true_2 (is_Some _)) by eauto.
  rewrite !(bool_decide_eq_true_2 (CString "canvas-evidence-policy" = _)) by done.
  cbn [mbind option_bind cedar_bool default].
  destruct (decide (status = "VERIFIED")) as [->|Hn].
  - rewrite bool_decide_eq_true_2 by done. rewrite bool_decide_eq_false_2 by naive_solver.
    destruct sc, all; cbn [mbind option_bind cedar_bool default negb andb orb];
      destruct (Z.leb_spec req sat); cbn [mbind option_bind cedar_bool default negb andb orb]; naive_solver lia.
  - rewrite bool_decide_eq_false_2 by naive_solver. rewrite bool_decide_eq_true_2 by naive_solver.
    cbn [mbind option_bind cedar_bool default negb andb orb]. naive_solver.
Qed.

Section bundled.
Context `{JsonValueOps} `{StrCase} `{JsonParser} `{Cedar} `{StrDebug}.
Context `{!CedarLaws} `{!StrCaseLaws}.

Lemma authorize_bundled app facts context out :
  authorize_evidence app facts context BUNDLED_APPROVAL_POLICY = Ok out ->
  fst (fst out) = cedar_decision
    (entity_attr (build_entities app facts) "MIP::ServiceAccount" "canvas-evidence-policy")
    (context_attr context) "MIP::ServiceAccount" approve_action bundled_policies.
Proof.
  assert (forall A (r : string + A) a, of_sum r = Ok a -> r = inr a) as Hsum.
  { intros A [e|x] a; cbn; congruence. }
  unfold authorize_evidence. intros (ps & Hps%Hsum & (es & Hes%Hsum & (cx & Hcx%Hsum & (p & Hp%Hsum &
    (a & Ha%Hsum & (r & Hr%Hsum & (q & Hq%Hsum & Hout)%bind_Ok)%bind_Ok)%bind_Ok)%bind_Ok)%bind_Ok)%bind_Ok)%bind_Ok.
  rewrite <- (bundled_decision _ _ _ _ _ _ _ _ _ _ Hps Hes Hcx Hp Ha Hr Hq).
  destruct (is_authorized q ps es) as [[allow rs] errs]. injection Hout as <-. done.
Qed.

Lemma latest_status facts :
  from_option (fun f => let status := string_field (verification f) "status" in
    if is_empty status then "UNVERIFIED" else str_to_uppercase status) "UNVERIFIED" (last facts) = "VERIFIED" <->
  exists f, last facts = Some f /\ fact_verified f = true.
Proof.
  destruct (last facts) as [f|]; cbn [from_option]; [|naive_solver].
  unfold fact_verified. setoid_rewrite String.eqb_eq. cbv zeta.
  destruct (is_empty (string_field (verification f) "status")) eqn:He; [|naive_solver].
  assert (string_field (verification f) "status" = "") as Hs.
  { unfold is_empty, str_len in He. by destruct (string_field _ _). }
  split; [discriminate|]. intros (g & [= <-] & Hg). rewrite Hs, to_uppercase_empty in Hg. done.
Qed.

Lemma effective_length reqs eff : zlen reqs < usize_max ->
  effective_requirements reqs = Some eff -> zlen eff <= usize_max.
Proof.
  unfold effective_requirements. intros Hlen He.
  assert (zlen (List.filter is_required reqs) <= zlen reqs) as Hf.
  { unfold zlen. pose proof (List.filter_length_le is_required reqs). lia. }
  destruct (List.filter is_required reqs) eqn:E; destruct reqs; try done; injection He as <-; [|lia..].
  by vm_compute.
Qed.

Lemma summarize_none reqs facts required satisfied all sc :
  summarize_requirements reqs facts = Ok (required, satisfied, all, sc) ->
  effective_requirements reqs = None -> required = 0 /\ satisfied = 0.
Proof.
  unfold summarize_requirements, effective_requirements.
  destruct (List.filter is_required reqs); destruct reqs; naive_solver.
Qed.

(** The context of the bundled policy's decision. *)
Lemma context_decision app facts c :
  0 <= satisfied_requirement_count c <= usize_max -> 0 <= required_evidence_count c <= usize_max ->
  cedar_decision (entity_attr (build_entities app facts) "MIP::ServiceAccount" "canvas-evidence-policy")
    (context_attr (context_json c)) "MIP::ServiceAccount" approve_action bundled_policies = true <->
  evidence_verification_status c = "VERIFIED" /\ evidence_scope_matched c = true /\
  all_required_evidence_satisfied c = true /\ required_evidence_count c <= satisfied_requirement_count c.
Proof.
  intros Hs Hr. eapply bundled_decision_on; try reflexivity.
  - change (CLong <$> parse_usize (pretty (satisfied_requirement_count c)) = Some (CLong (satisfied_requirement_count c))).
    by rewrite parse_usize_pretty.
  - change (CLong <$> parse_usize (pretty (required_evidence_count c)) = Some (CLong (required_evidence_count c))).
    by rewrite parse_usize_pretty.
Qed.

(** The members of the context that the bundled policy reads. *)
Lemma build_context_spec binding reqs facts c :
  zlen reqs < usize_max -> build_context binding reqs facts = Ok c ->
  (0 <= satisfied_requirement_count c <= usize_max /\ 0 <= required_evidence_count c <= usize_max) /\
  (evidence_verification_status c = "VERIFIED" <-> exists f, last facts = Some f /\ fact_verified f = true) /\
  (evidence_scope_matched c = true /\ all_required_evidence_satisfied c = true /\
   required_evidence_count c <= satisfied_requirement_count c <->
   exists eff, effective_requirements reqs = Some eff /\
     Forall (satisfied_by facts) eff /\ Forall (scope_covered facts) eff).
Proof.
  intros Hlen. unfold build_context. intros ([[[required satisfied] all] sc] & Hsum & [= <-])%bind_Ok.
  cbn [satisfied_requirement_count required_evidence_count evidence_verification_status
       evidence_scope_matched all_required_evidence_satisfied].
  apply summarize_spec in Hsum as Hspec.
  destruct (effective_requirements reqs) as [eff|] eqn:Heff.
  - pose proof (effective_length _ _ Hlen Heff). pose proof (zlen_nonneg eff).
    destruct Hspec as (-> & Hsat & -> & Hall & Hsc). split; [lia|]. split; [apply latest_status|].
    rewrite Hsc, Hall, Z.leb_le in *. naive_solver.
  - subst all. split; [|split; [apply latest_status|naive_solver]].
    apply summarize_none in Hsum as [-> ->]; [|done]. unfold usize_max. lia.
Qed.

Lemma satisfies_verified f q : fact_satisfies_requirement f q = Ok true -> fact_verified f = true.
Proof. unfold fact_satisfies_requirement. cbv zeta. repeat case_match; congruence. Qed.

Lemma bundled_allowed r d :
  zlen (er_requirements r) < usize_max -> selected_policy_set r = None -> evaluate r = Ok d ->
  let heads := current_heads (er_facts r) in
  d_policy_source d = "bundled" /\
  (d_allowed d = true <->
   (exists out, authorize_evidence (er_app r) heads (d_context d) BUNDLED_APPROVAL_POLICY = Ok out) /\
   (exists eff, effective_requirements (er_requirements r) = Some eff /\
      Forall (satisfied_by heads) eff /\ Forall (scope_covered heads) eff) /\
   (exists f, last heads = Some f /\ fact_verified f = true)).
Proof.
  intros Hlen Hsel Hev heads. unfold evaluate in Hev. rewrite Hsel in Hev. fold heads in Hev.
  apply bind_Ok in Hev as (c & Hc & Hd). cbn [policy_text_of] in Hd.
  apply bind_Ok in Hd as ([[allowed reasons] errors] & Hor & [= <-]).
  cbn [d_policy_source d_allowed d_context]. split; [done|].
  apply build_context_spec in Hc as ((Hs & Hr) & Hstat & Heff); [|done].
  destruct (authorize_evidence _ _ _ _) as [out|e|] eqn:Ha; cbn [or_denied] in Hor; [| |done].
  - pose proof (authorize_bundled _ _ _ _ Ha) as Hb. injection Hor as ->. cbn [fst] in Hb. subst allowed.
    rewrite context_decision, Hstat by done. rewrite <- Heff. naive_solver.
  - injection Hor as <- <- <-. naive_solver.
Qed.

(** C36: With no policy set selected the decision is the bundled policy's: an
    application is approved exactly when Cedar accepts the request, at least one
    requirement is effective, every effective requirement is satisfied by a
    current fact, every scope is that of a fact the requirement is about, and the
    latest current fact is verified. *)
Theorem bundled_policy_exact r d :
  zlen (er_requirements r) < usize_max -> selected_policy_set r = None -> evaluate r = Ok d ->
  let heads := current_heads (er_facts r) in
  d_policy_source d = "bundled" /\
  (d_allowed d = true <->
   (exists out, authorize_evidence (er_app r) heads (d_context d) BUNDLED_APPROVAL_POLICY = Ok out) /\
   (exists eff, effective_requirements (er_requirements r) = Some eff /\
      Forall (satisfied_by heads) eff /\ Forall (scope_covered heads) eff) /\
   (exists f, last heads = Some f /\ fact_verified f = true)).
Proof. apply bundled_allowed. Qed.
End bundled.

(** ** Policy sets *)

Section policy_sets.
Context `{JsonValueOps} `{StrCase} `{JsonParser} `{Cedar} `{StrDebug}.

(** A policy set that [evaluate] hands to Cedar. *)
Definition usable_policy_set (p : ApprovalPolicySetInput) : Prop :=
  normalize_policy_value (ps_status p) = "ACTIVE" /\
  (normalize_policy_value (ps_policy_type p) = "APPROVAL_RULES" \/
   normalize_policy_value (ps_policy_type p) = "CUSTOM") /\
  is_empty (normalize_cedar_policy_text (ps_cedar_policies p)) = false.

Lemma policy_text_usable r id text : policy_text_of r (Some id) = inr text ->
  exists p, er_policy_set r = Some p /\ usable_policy_set p /\
    text = normalize_cedar_policy_text (ps_cedar_policies p).
Proof.
  unfold policy_text_of. destruct (er_policy_set r) as [p|]; [|done]. cbv zeta.
  destruct (String.eqb_spec (normalize_policy_value (ps_status p)) "ACTIVE"); cbn [negb]; [|done].
  destruct (String.eqb_spec (normalize_policy_value (ps_policy_type p)) "APPROVAL_RULES"); cbn [negb andb];
  [|destruct (String.eqb_spec (normalize_policy_value (ps_policy_type p)) "CUSTOM"); cbn [negb]; [|done]];
  destruct (is_empty _) eqn:He; try done; intros [= <-]; exists p; repeat split; auto.
Qed.

(** A selected policy set fails closed: the decision allows only when the set was
    supplied, is active, is an approval or a custom set and has policy text, and
    Cedar allowed the request on that text; a decision that did not reach Cedar
    is a denial that carries exactly one error and no reason. *)
Theorem policy_set_fails_closed r id d :
  selected_policy_set r = Some id -> evaluate r = Ok d ->
  d_policy_set_id d = Some id /\ d_policy_source d = "policy_set" /\
  (if d_allowed d
   then exists p rs es, er_policy_set r = Some p /\ usable_policy_set p /\ d_engine d = "cedar" /\
     authorize_evidence (er_app r) (current_heads (er_facts r)) (d_context d)
       (normalize_cedar_policy_text (ps_cedar_policies p)) = Ok (true, rs, es) /\ d_reasons d = rs
   else d_engine d ≠ "cedar" -> d_reasons d = [] /\ exists e, d_errors d = [e] /\ e ≠ "").
Proof.
  intros Hsel Hev. unfold evaluate in Hev. rewrite Hsel in Hev.
  apply bind_Ok in Hev as (c & _ & Hd). destruct (policy_text_of r (Some id)) as [[engine e]|text] eqn:Ht.
  - injection Hd as <-. cbn. split_and!; [done..|]. intros _. split; [done|]. exists e. split; [done|].
    unfold policy_text_of in Ht. repeat case_match; naive_solver.
  - apply bind_Ok in Hd as ([[allowed rs] es] & Hor & [= <-]).
    cbn [d_policy_set_id d_policy_source d_allowed d_engine d_context d_reasons].
    split_and!; [done..|]. destruct allowed; [|done].
    apply policy_text_usable in Ht as (p & Hp & Hu & ->). exists p, rs, es. split_and!; try done.
    destruct (authorize_evidence _ _ _ _); cbn [or_denied] in Hor; congruence.
Qed.
End policy_sets.
