(* ===== verification/EvidenceReconciliation.v ===== *)
(** * Evidence reconciliation (marty-verification, [evidence_reconciliation.rs])

    The action to take for an application after a policy decision, with its
    metrics and events, and the reasons why a stored receipt is stale.  The plan
    approves exactly under its four conditions, an approval after an evaluation of
    the bundled policy rests on satisfied evidence, a receipt is fresh exactly when
    nothing is missing; a small Cedar instantiates the laws. *)

From Stdlib Require Import Floats.SpecFloat.
From S2P Require Import Prelude Governance RustF64 PolicyService EvidencePolicy EvidencePolicyFacts.
Local Open Scope Z_scope.

#[local] Abbreviation result := (res string).
#[local] Abbreviation JsonMap := (list (string * Value)).

(** [src/marty-verification/src/evidence_reconciliation.rs:22-28] TransactionState *)
Record TransactionState := mkTransaction { tx_id : string; tx_status : string; tx_is_expired : bool }.

(** [src/marty-verification/src/evidence_reconciliation.rs:11-20] ReconciliationPlanRequest *)
Record ReconciliationPlanRequest := mkPlanRequest {
  rp_policy : JsonMap;
  policy_freshly_evaluated : bool;
  issuance_transaction : option TransactionState;
  application_issuance_transaction_id : option string;
  issue_on_permit : bool;
  dry_run : bool;
}.

(** [src/marty-verification/src/evidence_reconciliation.rs:30-38] ReconciliationPlan *)
Record ReconciliationPlan := mkPlan {
  plan_next : string;
  plan_action : string;
  metric_increments : gmap string Z;
  policy_event : option string;
  issuance_transaction_id : option string;
  plan_errors : list string;
}.

(** [src/marty-verification/src/evidence_reconciliation.rs:48-53] StaleApplication *)
Record StaleApplication := mkStaleApp {
  sa_policy : option JsonMap;
  sa_issuance_transaction_id : option string;
}.

(** [src/marty-verification/src/evidence_reconciliation.rs:40-46] StaleReceiptRequest *)
Record StaleReceiptRequest := mkStaleRequest {
  issuance_response : Value;
  receipt_issuance_transaction_id : option string;
  sr_application : option StaleApplication;
}.

(** [src/marty-verification/src/evidence_reconciliation.rs:153-168] complete *)
Definition complete (action : string) (metrics : gmap string Z) (event : option string)
    (transaction : option string) (errors : list string) : ReconciliationPlan :=
  mkPlan "complete" action metrics event transaction errors.

(** [src/marty-verification/src/evidence_reconciliation.rs:170-172] metric *)
Definition metric (name : string) : gmap string Z := {[ name := 1 ]}.

(** [policy.get("allowed") == Some(&Value::Bool(true))] *)
Definition policy_allowed (policy : JsonMap) : bool :=
  match map_get "allowed" policy with Some (Bool true) => true | _ => false end.

(** [transaction.status == "pending" && !transaction.is_expired] *)
Definition live_pending (t : TransactionState) : bool :=
  String.eqb (tx_status t) "pending" && negb (tx_is_expired t).

Definition string_items (values : list Value) : list string := omap as_str values.

(** [src/marty-verification/src/evidence_reconciliation.rs:71-151] reconciliation_plan *)
Definition reconciliation_plan (request : ReconciliationPlanRequest) : ReconciliationPlan :=
  let app_transaction_id := application_issuance_transaction_id request in
  let policy := rp_policy request in
  let allowed := policy_allowed policy in
  let '(metrics, event) :=
    if policy_freshly_evaluated request
    then (<[(if allowed then "policy_permits" else "policy_denies") := 1]> (metric "evaluated_policies"),
          Some (if allowed then "permitted" else "denied"))
    else (∅, None) in
  let pending : option TransactionState := t ← issuance_transaction request; if live_pending t then Some t else None in
  if negb allowed then
    complete "policy_denied" metrics event app_transaction_id
      (from_option string_items [] (map_get "errors" policy ≫= as_array))
  else match pending with
       | Some t => complete "issuance_transaction_already_pending" metrics event (Some (tx_id t)) []
       | None =>
           if negb (issue_on_permit request)
           then complete "policy_permitted_issue_disabled" metrics event app_transaction_id []
           else if dry_run request
           then complete "would_create_or_refresh_issuance_transaction" metrics event app_transaction_id []
           else mkPlan "approve"
                  (if policy_freshly_evaluated request then "approval_issuance_succeeded"
                   else "approval_issuance_recovered_from_policy_permit")
                  metrics event app_transaction_id []
       end.

(** [src/marty-verification/src/evidence_reconciliation.rs:210-219] is_falsy *)
Definition is_falsy (v : Value) : bool :=
  match v with
  | Null | Bool false => true
  | Number repr => from_option (fun x => SFeqb x (S754_zero false)) false (f64_from_str repr)
  | VString s => str_len s =? 0
  | Array l => match l with [] => true | _ => false end
  | Object m => match m with [] => true | _ => false end
  | Bool true => false
  end.

(** A member of the response. *)
Definition response_member (r : StaleReceiptRequest) (key : string) : option Value :=
  m ← as_object (issuance_response r); map_get key m.

(** [src/marty-verification/src/evidence_reconciliation.rs:174-208] stale_receipt_reasons *)
Definition stale_receipt_reasons (request : StaleReceiptRequest) : list string :=
  let app_id : option Value := v ← response_member request "application_id"; if is_falsy v then None else Some v in
  match app_id with
  | None => ["receipt_missing_application_id"]
  | Some _ =>
      match sr_application request with
      | None => ["receipt_application_missing"]
      | Some application =>
          let r1 := if from_option is_falsy true (response_member request "evidence_facts")
                    then ["receipt_without_evidence_fact_metadata"] else [] in
          let policy := match response_member request "policy_decision" ≫= as_object with
                        | Some p => Some p
                        | None => sa_policy application
                        end in
          let r2 := match policy with
                    | Some policy =>
                        if policy_allowed policy
                           && bool_decide (receipt_issuance_transaction_id request = None)
                           && bool_decide (sa_issuance_transaction_id application = None)
                        then ["policy_permit_without_issuance_transaction"] else []
                    | None => ["receipt_without_policy_decision"]
                    end in
          r1 ++ r2
      end
  end.

(** The decoders and encoders that [serde] derives. *)
Class ReconciliationSerde := {
  plan_request_from_str : string -> string + ReconciliationPlanRequest;
  stale_request_from_str : string -> string + StaleReceiptRequest;
  plan_to_string : ReconciliationPlan -> string + string;
  reasons_to_string : list string -> string + string;
}.

Section entry_points.
Context `{ReconciliationSerde}.

(** [src/marty-verification/src/evidence_reconciliation.rs:55-59] reconciliation_plan_json *)
Definition reconciliation_plan_json (raw : string) : result string :=
  request ← map_err (fun e => "invalid evidence reconciliation plan request: " +:+ e)
    (of_sum (plan_request_from_str raw));
  of_sum (plan_to_string (reconciliation_plan request)).

(** [src/marty-verification/src/evidence_reconciliation.rs:61-65] stale_receipt_reasons_json *)
Definition stale_receipt_reasons_json (raw : string) : result string :=
  request ← map_err (fun e => "invalid stale evidence receipt request: " +:+ e)
    (of_sum (stale_request_from_str raw));
  of_sum (reasons_to_string (stale_receipt_reasons request)).
End entry_points.

(** [src/marty-verification/src/evidence_policy.rs:136-145] EvidencePolicyDecision; its [Serialize] *)
Definition decision_json (d : EvidencePolicyDecision) : JsonMap :=
  [("allowed", Bool (d_allowed d)); ("engine", VString (d_engine d));
   ("policy_source", VString (d_policy_source d));
   ("policy_set_id", from_option VString Null (d_policy_set_id d));
   ("reasons", Array (VString <$> d_reasons d)); ("errors", Array (VString <$> d_errors d));
   ("context", d_context d)].

(** ** Plans *)

Definition pending_transaction (q : ReconciliationPlanRequest) : bool :=
  from_option live_pending false (issuance_transaction q).

Lemma plan_next_eq q : plan_next (reconciliation_plan q) =
  if policy_allowed (rp_policy q) && negb (pending_transaction q) && issue_on_permit q && negb (dry_run q)
  then "approve" else "complete".
Proof.
  unfold reconciliation_plan, pending_transaction.
  destruct (policy_freshly_evaluated q), (policy_allowed (rp_policy q));
    (destruct (issuance_transaction q) as [t|]; cbn [mbind option_bind from_option];
       [destruct (live_pending t)|]);
    destruct (issue_on_permit q), (dry_run q); reflexivity.
Qed.

Lemma plan_approve_iff q :
  plan_next (reconciliation_plan q) = "approve" <->
  policy_allowed (rp_policy q) = true /\
  (forall t, issuance_transaction q = Some t -> live_pending t = false) /\
  issue_on_permit q = true /\ dry_run q = false.
Proof.
  assert (pending_transaction q = false <-> (forall t, issuance_transaction q = Some t -> live_pending t = false)) as <-.
  { unfold pending_transaction. destruct (issuance_transaction q); naive_solver. }
  rewrite plan_next_eq.
  destruct (policy_allowed (rp_policy q)), (pending_transaction q), (issue_on_permit q), (dry_run q);
    cbn [negb andb]; naive_solver.
Qed.

(** The plan asks for an approval exactly when the policy allowed, no unexpired
    pending transaction exists, issuing on a permit is enabled and the run is not
    a dry run; a plan on a fresh evaluation counts one evaluation and exactly one
    of a permit and a denial, a plan on a stored policy counts nothing. *)
Theorem reconciliation_plan_exact q :
  (plan_next (reconciliation_plan q) = "approve" <->
   policy_allowed (rp_policy q) = true /\
   (forall t, issuance_transaction q = Some t -> live_pending t = false) /\
   issue_on_permit q = true /\ dry_run q = false) /\
  (plan_next (reconciliation_plan q) = "approve" \/ plan_next (reconciliation_plan q) = "complete") /\
  metric_increments (reconciliation_plan q) =
    (if policy_freshly_evaluated q
     then {[ "evaluated_policies" := 1;
             (if policy_allowed (rp_policy q) then "policy_permits" else "policy_denies") := 1 ]}
     else ∅) /\
  (plan_errors (reconciliation_plan q) ≠ [] -> policy_allowed (rp_policy q) = false).
Proof.
  split; [apply plan_approve_iff|].
  split; [rewrite plan_next_eq; case_match; auto|].
  unfold reconciliation_plan. destruct (policy_freshly_evaluated q), (policy_allowed (rp_policy q)); cbn [negb];
    (destruct (issuance_transaction q) as [t|]; cbn [mbind option_bind]; [destruct (live_pending t)|]);
    destruct (issue_on_permit q), (dry_run q);
    (split; [reflexivity || (by apply insert_insert_ne)|done]).
Qed.

Section approval.
Context `{JsonValueOps} `{StrCase} `{JsonParser} `{Cedar} `{StrDebug}.
Context `{!CedarLaws} `{!StrCaseLaws}.

(** End to end, an approval planned from a decision of the bundled policy rests on
    evidence: some requirement is effective, each effective requirement is
    satisfied by a current fact that occurs in the request and is verified, and
    no unexpired transaction is pending. *)
Theorem approval_needs_evidence r d q :
  zlen (er_requirements r) < usize_max -> selected_policy_set r = None -> evaluate r = Ok d ->
  rp_policy q = decision_json d -> plan_next (reconciliation_plan q) = "approve" ->
  (exists eff, effective_requirements (er_requirements r) = Some eff /\
     forall req, req ∈ eff -> exists f, f ∈ er_facts r /\ current (er_facts r) f /\
       fact_verified f = true /\ fact_satisfies_requirement f req = Ok true) /\
  (forall t, issuance_transaction q = Some t -> live_pending t = false).
Proof.
  intros Hlen Hsel Hev Hpol Happ%plan_approve_iff. destruct Happ as (Hall & Hpend & _ & _).
  rewrite Hpol in Hall. split; [|done].
  assert (d_allowed d = true) as Hd by (unfold policy_allowed in Hall; cbn in Hall; by destruct (d_allowed d)).
  destruct (bundled_allowed _ _ Hlen Hsel Hev) as [_ Hiff].
  apply Hiff in Hd as (_ & (eff & Heff & Hsat & _) & _). exists eff. split; [done|].
  intros req Hreq. rewrite Forall_forall in Hsat. destruct (Hsat req Hreq) as (f & Hf & Hs).
  exists f. pose proof (evidence_heads_current _ _ Hf) as Hc. split_and!; [by destruct Hc|done| |done].
  by eapply satisfies_verified.
Qed.
End approval.

(** ** Receipts *)

Definition truthy_member (r : StaleReceiptRequest) (key : string) : Prop :=
  exists v, response_member r key = Some v /\ is_falsy v = false.

(** The decision a receipt is judged by. *)
Definition receipt_policy (r : StaleReceiptRequest) (app : StaleApplication) : option (list (string * Value)) :=
  match response_member r "policy_decision" ≫= as_object with
  | Some p => Some p
  | None => sa_policy app
  end.

(** A receipt has no stale reason exactly when its response names an application,
    the application is known, the response carries evidence facts, a policy
    decision is stored with the response or the application, and a permit is
    accompanied by an issuance transaction. *)
Theorem receipt_fresh_exact r :
  stale_receipt_reasons r = [] <->
  truthy_member r "application_id" /\ truthy_member r "evidence_facts" /\
  exists app policy, sr_application r = Some app /\ receipt_policy r app = Some policy /\
    (policy_allowed policy = true ->
     is_Some (receipt_issuance_transaction_id r) \/ is_Some (sa_issuance_transaction_id app)).
Proof.
  unfold stale_receipt_reasons. cbv zeta. unfold truthy_member.
  destruct (response_member r "application_id") as [v|]; cbn [mbind option_bind];
    [|split; [done|by intros ((? & ? & _) & _)]].
  destruct (is_falsy v) eqn:Hv; [split; [done|intros ((? & [= <-] & ?) & _); congruence]|].
  destruct (sr_application r) as [app|]; [|split; [done|by intros (_ & _ & ? & ? & ? & _)]].
  fold (receipt_policy r app).
  assert (from_option is_falsy true (response_member r "evidence_facts") = false <->
    exists v, response_member r "evidence_facts" = Some v /\ is_falsy v = false) as <-.
  { destruct (response_member r "evidence_facts"); cbn [from_option]; naive_solver. }
  destruct (from_option is_falsy true (response_member r "evidence_facts"));
    [split; [by case_match|by intros (_ & ? & _)]|]. rewrite app_nil_l.
  assert ((exists v', Some v = Some v' /\ is_falsy v' = false) <-> True) as -> by naive_solver.
  destruct (receipt_policy r app) as [p|] eqn:Hpol; [|split; [done|intros (_ & _ & ? & ? & [= <-] & ? & _); congruence]].
  trans (policy_allowed p = true ->
         is_Some (receipt_issuance_transaction_id r) \/ is_Some (sa_issuance_transaction_id app)).
  - destruct (policy_allowed p), (receipt_issuance_transaction_id r), (sa_issuance_transaction_id app);
      cbn; split; try done; try (intros _ _; (left + right); by eexists).
    intros H. by destruct (H eq_refl) as [[]|[]].
  - split; [intros Hx; split_and!; [done..|by exists app, p]|].
    intros (_ & _ & app' & p' & [= <-] & Hp' & Hx). by assert (p' = p) as <- by congruence.
Qed.

(** ** A small Cedar and concrete evidence *)

Module ToyEvidence.

#[local] Instance toy_case : StrCase := {|
  str_to_uppercase s := str_of_bytes (byte_upper <$> str_bytes s);
  str_to_lowercase s := str_of_bytes (byte_lower <$> str_bytes s) |}.

#[local] Instance toy_json : JsonValueOps := {|
  json_text _ := "";
  json_eqb a b := match a, b with
                  | VString s, VString t => String.eqb s t
                  | Bool s, Bool t => Bool.eqb s t
                  | Null, Null => true
                  | _, _ => false
                  end |}.

(** Three documents: the null value, the empty array and the empty object. *)
#[local] Instance toy_parser : JsonParser := fun s =>
  if String.eqb s "null" then Some Null
  else if String.eqb s "[]" then Some (Array [])
  else if String.eqb s "{}" then Some (Object []) else None.

#[local] Instance toy_debug : StrDebug := fun s => s.

#[local] Instance toy_cedar : Cedar := {|
  PolicySet := list CedarPolicy;
  Entities := Value;
  Context_ := Value;
  EntityUid := string;
  Request := string * string * Value;
  policy_set_from_str s :=
    if String.eqb s BUNDLED_APPROVAL_POLICY then inr bundled_policies else inl "unexpected token";
  entities_from_json_value v := inr v;
  context_from_json_value v := inr v;
  entity_uid_from_str s := if is_empty s then inl "empty uid" else inr s;
  request_new p a _ cx := inr (p, a, cx);
  is_authorized '(p, a, cx) ps es :=
    (cedar_decision (entity_attr es "MIP::ServiceAccount" "canvas-evidence-policy") (context_attr cx)
       (if String.eqb p (quoting "MIP::ServiceAccount::~canvas-evidence-policy~") then "MIP::ServiceAccount" else "")
       a ps, [], []) |}.

#[local] Instance toy_case_laws : StrCaseLaws.
Proof. reflexivity. Qed.

#[local] Instance toy_parser_laws : JsonParserLaws.
Proof.
  intros s v. unfold json_from_str, toy_parser.
  destruct (String.eqb_spec s "null") as [->|]; [intros [= <-]; simpl; lia|].
  destruct (String.eqb_spec s "[]") as [->|]; [intros [= <-]; simpl; lia|].
  destruct (String.eqb_spec s "{}") as [->|]; [intros [= <-]; simpl; lia|done].
Qed.

#[local] Instance toy_cedar_laws : CedarLaws.
Proof.
  split. intros entities context resource ps es cx p a r q Hps [= <-] [= <-] Hp Ha Hr [= <-].
  cbn [policy_set_from_str toy_cedar] in Hps. rewrite String.eqb_refl in Hps. injection Hps as <-.
  change (inr (quoting "MIP::ServiceAccount::~canvas-evidence-policy~") =@{string + string} inr p) in Hp.
  change (inr approve_action =@{string + string} inr a) in Ha.
  injection Hp as <-. injection Ha as <-. reflexivity.
Qed.

(** Two revisions of one completion, and an unrelated unverified fact before it. *)
Definition completion (id status : string) (at_ : Z) : EvidenceFact :=
  mkFact id "course-7" "canvas" "canvas.course_completion" "student" ""
    [("course", VString "7")] [("score", Number "91.5")] [("status", VString status)] [] None at_ at_.
Definition enrolment : EvidenceFact :=
  mkFact "fact-0" "" "canvas" "canvas.enrolment" "student" "" [] [] [] [] None 1 1.
Definition facts : list EvidenceFact :=
  [completion "fact-2" "verified" 20; completion "fact-1" "pending" 10; enrolment].

Definition request : EvaluationRequest :=
  mkEvaluation (mkApp "app" "org" "submitted") None None
    [Object [("fact_type", VString "canvas.course_completion"); ("scope", Object [("course", VString "7")]);
             ("pass_rule", Object [("min_score", Number "90")])]]
    facts None.
Definition decision : EvidencePolicyDecision :=
  Eval vm_compute in match evaluate request with Ok d => d | _ => policy_error "" "" None "" Null end.

Lemma request_decision : evaluate request = Ok decision.
Proof. vm_compute. reflexivity. Qed.

Lemma evaluate_total_witness :
  Forall (fun f => fact_array_free f = true) facts /\ exists d, evaluate request = Ok d.
Proof.
  assert (Forall (fun f => fact_array_free f = true) facts) as Hf by (repeat constructor).
  split; [exact Hf|]. exact (evaluate_total request Hf).
Defined.

Lemma evidence_heads_order_independent_witness :
  current_heads facts = current_heads (reverse facts) /\ map f_id (current_heads facts) = ["fact-0"; "fact-2"].
Proof.
  split; [|vm_compute; reflexivity].
  apply (evidence_heads_order_independent facts (reverse facts)); [symmetry; apply reverse_Permutation|].
  apply (bool_decide_unpack _). vm_compute. exact I.
Defined.

Lemma normalize_cedar_equation_witness :
  normalize_cedar_policy_text (VString " [] ") = normalize_cedar_policy_text (Array []).
Proof. rewrite (normalize_cedar_equation (VString " [] ")). vm_compute. reflexivity. Defined.

Lemma bundled_policy_exact_witness :
  d_allowed decision = true /\ exists f, last (current_heads facts) = Some f /\ fact_verified f = true.
Proof.
  assert (zlen (er_requirements request) < usize_max) as Hlen by (vm_compute; reflexivity).
  pose proof (bundled_policy_exact request decision Hlen eq_refl request_decision) as [_ H].
  assert (d_allowed decision = true) as Hd by reflexivity.
  split; [exact Hd|]. exact (proj2 (proj2 (proj1 H Hd))).
Defined.

(** The same request with a policy set that has been switched off. *)
Definition set_request : EvaluationRequest :=
  mkEvaluation (mkApp "app" "org" "submitted") None (Some (mkBinding (Some "set") false))
    (er_requirements request) facts (Some (mkPolicySet "retired" "custom" (VString "permit"))).
Definition set_decision : EvidencePolicyDecision :=
  Eval vm_compute in match evaluate set_request with Ok d => d | _ => policy_error "" "" None "" Null end.

Lemma policy_set_fails_closed_witness :
  d_engine set_decision = "policy_set_inactive" /\ d_policy_set_id set_decision = Some "set".
Proof.
  split; [reflexivity|].
  apply (policy_set_fails_closed set_request "set" set_decision); [reflexivity|vm_compute; reflexivity].
Defined.

(** A plan on that decision, with an expired transaction. *)
Definition sample_plan_request : ReconciliationPlanRequest :=
  mkPlanRequest (decision_json decision) true (Some (mkTransaction "tx" "pending" true)) (Some "tx") true false.

Lemma approval_needs_evidence_witness :
  plan_next (reconciliation_plan sample_plan_request) = "approve" /\
  exists eff, effective_requirements (er_requirements request) = Some eff.
Proof.
  assert (plan_next (reconciliation_plan sample_plan_request) = "approve") as Hn by (vm_compute; reflexivity).
  split; [exact Hn|].
  assert (zlen (er_requirements request) < usize_max) as Hlen by (vm_compute; reflexivity).
  destruct (approval_needs_evidence request decision sample_plan_request Hlen eq_refl request_decision eq_refl Hn)
    as [(eff & Heff & _) _]. exists eff. exact Heff.
Defined.

(** An index beyond the end of an array in a rule path panics. *)
Example rule_path_panics :
  fact_path_value (mkFact "f" "" "" "" "" "" [] [("items", Array [Null])] [] [] None 0 0) "items.1" = Panic.
Proof. vm_compute. reflexivity. Qed.
End ToyEvidence.
