(* ===== verification/X509.v ===== *)
(** * X.509 certificates and their signatures (marty-crypto: [lib.rs],
    [algorithm_identifier.rs], [certificate.rs])

    The certificate type, its DER and PEM codecs and its typed extensions belong
    to [x509_cert] and are the class [X509]; the verifiers of single algorithms are
    the class [Verifiers].  The dispatch on the algorithm identifier, the checks on
    RSASSA-PSS parameters and the certificate operations are definitions. *)

From S2P Require Import Prelude Des Apdu.
Local Open Scope Z_scope.

#[local] Abbreviation result := (res CryptoError).
#[local] Abbreviation bytes := (list Z).

(** [Result] of a library whose error is only displayed. *)
Definition lift_err {E A} (f : string -> E) (r : string + A) : res E A :=
  match r with inl e => Err (f e) | inr a => Ok a end.

(** ** Algorithms *)

(** [src/marty-crypto/src/lib.rs:134-165] SignatureAlgorithm *)
Inductive SignatureAlgorithm :=
| EcdsaP256Sha256 | EcdsaP384Sha384 | EcdsaP521Sha512
| Ed25519 | Ed448
| RsaPkcs1Sha1 | RsaPkcs1Sha256 | RsaPkcs1Sha384 | RsaPkcs1Sha512
| RsaPssSha256 | RsaPssSha384 | RsaPssSha512
| BbsBls12381Sha256 | BbsBls12381Shake256.

(** [src/marty-crypto/src/lib.rs:169-186] SignatureAlgorithm::oid *)
Definition sig_oid (a : SignatureAlgorithm) : string :=
  match a with
  | EcdsaP256Sha256 => "1.2.840.10045.4.3.2"
  | EcdsaP384Sha384 => "1.2.840.10045.4.3.3"
  | EcdsaP521Sha512 => "1.2.840.10045.4.3.4"
  | Ed25519 => "1.3.101.112"
  | Ed448 => "1.3.101.113"
  | RsaPkcs1Sha1 => "1.2.840.113549.1.1.5"
  | RsaPkcs1Sha256 => "1.2.840.113549.1.1.11"
  | RsaPkcs1Sha384 => "1.2.840.113549.1.1.12"
  | RsaPkcs1Sha512 => "1.2.840.113549.1.1.13"
  | RsaPssSha256 | RsaPssSha384 | RsaPssSha512 => "1.2.840.113549.1.1.10"
  | BbsBls12381Sha256 => "BBS_BLS12381_SHA256"
  | BbsBls12381Shake256 => "BBS_BLS12381_SHAKE256"
  end.

Definition assoc {A} (table : list (string * A)) (key : string) : option A :=
  snd <$> find (fun e => String.eqb e.1 key) table.

(** [src/marty-crypto/src/lib.rs:189-208] SignatureAlgorithm::from_oid *)
Definition sig_from_oid (oid : string) : result SignatureAlgorithm :=
  match assoc [("1.2.840.10045.4.3.2", EcdsaP256Sha256); ("1.2.840.10045.4.3.3", EcdsaP384Sha384);
               ("1.2.840.10045.4.3.4", EcdsaP521Sha512); ("1.3.101.112", Ed25519);
               ("1.3.101.113", Ed448); ("1.2.840.113549.1.1.5", RsaPkcs1Sha1);
               ("1.2.840.113549.1.1.11", RsaPkcs1Sha256); ("1.2.840.113549.1.1.12", RsaPkcs1Sha384);
               ("1.2.840.113549.1.1.13", RsaPkcs1Sha512); ("BBS_BLS12381_SHA256", BbsBls12381Sha256);
               ("BBS_BLS12381_SHAKE256", BbsBls12381Shake256)] oid with
  | Some a => Ok a
  | None => Err (CryptoUnsupportedAlgorithm ("Unsupported signature algorithm OID: " +:+ oid))
  end.

(** The [HashAlgorithm] values that a PSS verifier exists for. *)
Inductive PssHash := PssSha256 | PssSha384 | PssSha512.

(** The verifiers of [ecdsa.rs], [ed25519.rs], [ed448.rs] and [rsa.rs] over their
    crates, by public key, message and signature, and the two build features that
    [verify_signature] depends on. *)
Class Verifiers := {
  verify_with : SignatureAlgorithm -> bytes -> bytes -> bytes -> CryptoError + bool;
  verify_pss_with_salt_len : PssHash -> bytes -> bytes -> bytes -> Z -> CryptoError + bool;
  feature_ed448_verification : bool;
  feature_emrtd_compat : bool;
}.

Definition of_verifier (r : CryptoError + bool) : result bool :=
  match r with inl e => Err e | inr b => Ok b end.

(** An [AlgorithmIdentifier] with its encoded parameters. *)
Record AlgorithmIdentifier := mkAlg { alg_oid : string; alg_parameters : option bytes }.

#[export] Instance AlgorithmIdentifier_eq_dec : EqDecision AlgorithmIdentifier.
Proof. solve_decision. Defined.

(** [RsaPssParams]: the identifiers of the hash and of its mask generation function
    with the latter's hash, and the salt length.  A digest's parameters are kept as
    absent or present and not null. *)
Record RsaPssParams := mkPss {
  pss_hash_oid : string;
  pss_hash_bad_parameters : bool;
  pss_mask_gen_oid : string;
  pss_mask_hash : option (string * bool);
  pss_salt_len : Z;
}.

(** [Any::decode_as::<RsaPssParams>]. *)
Class PssDecoder := decode_pss_params : bytes -> string + RsaPssParams.

Section signatures.
Context `{Verifiers} `{PssDecoder}.

(** [src/marty-crypto/src/lib.rs:333-399] verify_signature *)
Definition verify_signature (a : SignatureAlgorithm) (key message signature : bytes) : result bool :=
  match a with
  | Ed448 =>
      if feature_ed448_verification then of_verifier (verify_with Ed448 key message signature)
      else Err (CryptoUnsupportedAlgorithm "Ed448 requires the ed448-verification feature")
  | RsaPkcs1Sha1 =>
      if feature_emrtd_compat then of_verifier (verify_with RsaPkcs1Sha1 key message signature)
      else Err (CryptoUnsupportedAlgorithm "RSA with SHA-1 requires the emrtd-compat feature")
  | BbsBls12381Sha256 | BbsBls12381Shake256 =>
      Err (CryptoUnsupportedAlgorithm "BBS+ signatures use multi-message API; use bbs module directly")
  | a => of_verifier (verify_with a key message signature)
  end.

(** [src/marty-crypto/src/algorithm_identifier.rs:10-14] RSA_PSS_OID *)
Definition RSA_PSS_OID : string := "1.2.840.113549.1.1.10".
Definition MGF1_OID : string := "1.2.840.113549.1.1.8".
Definition SHA256_OID : string := "2.16.840.1.101.3.4.2.1".
Definition SHA384_OID : string := "2.16.840.1.101.3.4.2.2".
Definition SHA512_OID : string := "2.16.840.1.101.3.4.2.3".

(** [src/marty-crypto/src/algorithm_identifier.rs:98-105] validate_digest_parameters *)
Definition validate_digest_parameters (label : string) (present_not_null : bool) : result unit :=
  if present_not_null
  then Err (CryptoUnsupportedAlgorithm (label +:+ " parameters must be absent or NULL"))
  else Ok tt.

(** [src/marty-crypto/src/algorithm_identifier.rs:37-96] verify_rsa_pss_algorithm_identifier *)
Definition verify_rsa_pss_algorithm_identifier (alg : AlgorithmIdentifier)
    (key message signature : bytes) : result bool :=
  encoded ← ok_or (alg_parameters alg) (CryptoUnsupportedAlgorithm "RSASSA-PSS parameters are required");
  p ← lift_err (fun e => CryptoDer ("invalid RSASSA-PSS parameters: " +:+ e)) (decode_pss_params encoded);
  _ ← validate_digest_parameters "RSASSA-PSS hash" (pss_hash_bad_parameters p);
  _ ← ensure (String.eqb (pss_mask_gen_oid p) MGF1_OID)
        (CryptoUnsupportedAlgorithm
           ("unsupported RSASSA-PSS mask generation function: " +:+ pss_mask_gen_oid p));
  mask ← ok_or (pss_mask_hash p)
           (CryptoUnsupportedAlgorithm "RSASSA-PSS MGF1 hash parameters are required");
  _ ← validate_digest_parameters "RSASSA-PSS MGF1 hash" (snd mask);
  _ ← ensure (String.eqb (fst mask) (pss_hash_oid p))
        (CryptoUnsupportedAlgorithm
           ("RSASSA-PSS hash " +:+ pss_hash_oid p +:+ " does not match MGF1 hash " +:+ fst mask));
  match assoc [(SHA256_OID, PssSha256); (SHA384_OID, PssSha384); (SHA512_OID, PssSha512)]
          (pss_hash_oid p) with
  | Some h => of_verifier (verify_pss_with_salt_len h key message signature (pss_salt_len p))
  | None => Err (CryptoUnsupportedAlgorithm
                   ("unsupported RSASSA-PSS hash algorithm: " +:+ pss_hash_oid p))
  end.

(** [src/marty-crypto/src/algorithm_identifier.rs:23-35] verify_signature_with_algorithm_identifier *)
Definition verify_signature_with_algorithm_identifier (alg : AlgorithmIdentifier)
    (key message signature : bytes) : result bool :=
  if negb (String.eqb (alg_oid alg) RSA_PSS_OID) then
    a ← sig_from_oid (alg_oid alg);
    verify_signature a key message signature
  else verify_rsa_pss_algorithm_identifier alg key message signature.
End signatures.

(** ** Certificates *)

(** An [Extension] of a certificate or of a revocation list. *)
Record Extension := mkExt { extn_id : string; critical : bool; extn_value : bytes }.

(** [BasicConstraints] and the flags of [KeyUsage] that are read. *)
Record BasicConstraints := mkBasic { ca : bool; path_len_constraint : option Z }.
Record KeyUsageBits := mkUsage { digital_signature : bool; key_cert_sign : bool; crl_sign : bool }.

(** [x509_cert]: a certificate by its parts.  Times are whole seconds since the
    epoch, a name is known by its text and compared by [==], and the signature is
    [None] when its bits are not a whole number of bytes. *)
Class X509 := {
  Name : Type;
  Name_eq_dec :: EqDecision Name;
  name_text : Name -> string;
  name_to_der : Name -> string + bytes;
  Certificate : Type;
  cert_subject : Certificate -> Name;
  cert_issuer : Certificate -> Name;
  cert_serial : Certificate -> bytes;
  cert_not_before : Certificate -> Z;
  cert_not_after : Certificate -> Z;
  tbs_signature : Certificate -> AlgorithmIdentifier;
  signature_algorithm : Certificate -> AlgorithmIdentifier;
  cert_signature : Certificate -> option bytes;
  cert_extensions : Certificate -> option (list Extension);
  subject_public_key : Certificate -> bytes;
  tbs_to_der : Certificate -> string + bytes;
  spki_to_der : Certificate -> string + bytes;
  cert_to_der : Certificate -> string + bytes;
  cert_from_der : bytes -> string + Certificate;
  cert_from_pem : string -> string + Certificate;
  get_basic_constraints : Certificate -> string + option BasicConstraints;
  get_key_usage : Certificate -> string + option KeyUsageBits;
  get_extended_key_usage : Certificate -> string + option (list string);
  bit_string_from_der : bytes -> string + bytes;
}.

(** DER is a canonical encoding: a certificate is recovered from its own. *)
Class X509Laws `{X509} : Prop := {
  cert_der_roundtrip : forall c d, cert_to_der c = inr d -> cert_from_der d = inr c;
}.

Section certificates.
Context `{Verifiers} `{PssDecoder} `{X509}.

(** [src/marty-crypto/src/certificate.rs:43-46] load_certificate_der *)
Definition load_certificate_der (der : bytes) : result Certificate :=
  lift_err (fun e => CryptoDer ("Failed to parse DER certificate: " +:+ e)) (cert_from_der der).

(** [src/marty-crypto/src/certificate.rs:34-40] load_certificate_pem *)
Definition load_certificate_pem (pem : string) : result bytes :=
  cert ← lift_err (fun e => CryptoPem ("Failed to parse PEM certificate: " +:+ e)) (cert_from_pem pem);
  lift_err (fun e => CryptoDer ("Failed to encode certificate: " +:+ e)) (cert_to_der cert).

(** [src/marty-crypto/src/certificate.rs:262-269] get_certificate_public_key *)
Definition get_certificate_public_key (der : bytes) : result bytes :=
  cert ← load_certificate_der der;
  lift_err (fun e => CryptoDer ("Failed to encode public key: " +:+ e)) (spki_to_der cert).

(** [src/marty-crypto/src/certificate.rs:373-410] verify_parsed_certificate_signature *)
Definition verify_parsed_certificate_signature (cert issuer : Certificate) : result bool :=
  if negb (bool_decide (tbs_signature cert = signature_algorithm cert)) then Ok false
  else
    tbs ← lift_err (fun e => CryptoDer ("Failed to encode TBS: " +:+ e)) (tbs_to_der cert);
    signature ← ok_or (cert_signature cert) (CryptoSignatureCreation "Invalid signature bits");
    key ← lift_err (fun e => CryptoDer ("Failed to encode issuer public key: " +:+ e)) (spki_to_der issuer);
    verify_signature_with_algorithm_identifier (signature_algorithm cert) key tbs signature.

(** [src/marty-crypto/src/certificate.rs:364-370] verify_certificate_signature *)
Definition verify_certificate_signature (cert_der issuer_der : bytes) : result bool :=
  cert ← load_certificate_der cert_der;
  issuer ← load_certificate_der issuer_der;
  verify_parsed_certificate_signature cert issuer.
End certificates.
