(* ===== verification/Revocation.v ===== *)
(** * Revocation evidence (marty-crypto, [crl.rs] and [ocsp.rs])

    Parsing and authentication of certificate revocation lists and of OCSP
    responses.  The decoded lists and responses belong to [x509_cert] and
    [x509_ocsp] and are the classes [CrlCodec] and [OcspCodec]; the clock is an
    argument, [None] when it is before the epoch. *)

From stdpp Require Import pretty.
From S2P Require Import Prelude Des Governance X509.
Local Open Scope Z_scope.

#[local] Abbreviation result := (res CryptoError).
#[local] Abbreviation bytes := (list Z).

(** [u64::saturating_add]. *)
Definition saturating_add (a b : Z) : Z := Z.min (2 ^ 64 - 1) (a + b).

Definition CLOCK_SKEW_SECS : Z := 5 * 60.
Definition MAX_AGE_WITHOUT_NEXT_UPDATE_SECS : Z := 24 * 60 * 60.

(** ** Reasons *)

(** [src/marty-crypto/src/crl.rs:99-112] RevocationReason *)
Inductive RevocationReason :=
| Unspecified | KeyCompromise | CaCompromise | AffiliationChanged | Superseded
| CessationOfOperation | CertificateHold | RemoveFromCrl | PrivilegeWithdrawn | AaCompromise.

(** [src/marty-crypto/src/crl.rs:116-130] RevocationReason::from_code *)
Definition reason_from_code (code : Z) : option RevocationReason :=
  match code with
  | 0 => Some Unspecified
  | 1 => Some KeyCompromise
  | 2 => Some CaCompromise
  | 3 => Some AffiliationChanged
  | 4 => Some Superseded
  | 5 => Some CessationOfOperation
  | 6 => Some CertificateHold
  | 8 => Some RemoveFromCrl
  | 9 => Some PrivilegeWithdrawn
  | 10 => Some AaCompromise
  | _ => None
  end.

(** [src/marty-crypto/src/crl.rs:149-151] RevocationReason::to_code *)
Definition reason_to_code (r : RevocationReason) : Z :=
  match r with
  | Unspecified => 0
  | KeyCompromise => 1
  | CaCompromise => 2
  | AffiliationChanged => 3
  | Superseded => 4
  | CessationOfOperation => 5
  | CertificateHold => 6
  | RemoveFromCrl => 8
  | PrivilegeWithdrawn => 9
  | AaCompromise => 10
  end.

(** [src/marty-crypto/src/crl.rs:133-146] RevocationReason::as_str *)
Definition reason_text (r : RevocationReason) : string :=
  match r with
  | Unspecified => "unspecified"
  | KeyCompromise => "keyCompromise"
  | CaCompromise => "cACompromise"
  | AffiliationChanged => "affiliationChanged"
  | Superseded => "superseded"
  | CessationOfOperation => "cessationOfOperation"
  | CertificateHold => "certificateHold"
  | RemoveFromCrl => "removeFromCRL"
  | PrivilegeWithdrawn => "privilegeWithdrawn"
  | AaCompromise => "aACompromise"
  end.

(** ** Revocation lists *)

(** An entry of a list. *)
Record RevokedCert := mkRevoked {
  revoked_serial : bytes;
  revocation_date : Z;
  crl_entry_extensions : option (list Extension);
}.

(** [x509_cert::crl::CertificateList] by its parts, and the text of a time. *)
Class CrlCodec `{X509} := {
  CertificateList : Type;
  crl_from_der : bytes -> string + CertificateList;
  pem_decode : string -> string + bytes;
  crl_issuer : CertificateList -> Name;
  crl_this_update : CertificateList -> Z;
  crl_next_update : CertificateList -> option Z;
  crl_inner_algorithm : CertificateList -> AlgorithmIdentifier;
  crl_algorithm : CertificateList -> AlgorithmIdentifier;
  crl_signature : CertificateList -> option bytes;
  crl_tbs_to_der : CertificateList -> string + bytes;
  crl_extensions : CertificateList -> option (list Extension);
  revoked_certificates : CertificateList -> option (list RevokedCert);
  int_from_der : bytes -> option bytes;
  time_text : Z -> string;
}.

(** [src/marty-crypto/src/crl.rs:80-96] CrlInfo *)
Record CrlInfo := mkCrlInfo {
  ci_issuer : string;
  ci_this_update : string;
  ci_next_update : option string;
  ci_crl_number : option Z;
  ci_is_delta : bool;
  ci_revoked_count : Z;
  ci_revoked_serials : list string;
}.

(** [src/marty-crypto/src/crl.rs:155-163] RevokedCertInfo *)
Record RevokedCertInfo := mkRevokedInfo {
  ri_serial_number : string;
  ri_revocation_date : string;
  ri_reason : option RevocationReason;
}.

(** [src/marty-crypto/src/crl.rs:166-177] ValidatedCrlStatus *)
Record ValidatedCrlStatus := mkCrlStatus {
  cs_revoked : bool;
  cs_revocation_date : option string;
  cs_reason : option RevocationReason;
  cs_issuer : string;
  cs_this_update : string;
  cs_next_update : option string;
  cs_signature_valid : bool;
  cs_freshness_valid : bool;
  cs_certificate_id_valid : bool;
}.

Definition ID_CE_CRL_NUMBER : string := "2.5.29.20".
Definition ID_CE_DELTA_CRL_INDICATOR : string := "2.5.29.27".
Definition ID_CE_CRL_REASONS : string := "2.5.29.21".

(** [for b in bytes { value = (value << 8) | b }] on [u64]. *)
Definition be_u64 (bs : bytes) : Z :=
  foldl (fun v b => Z.lor (Z.shiftl v 8 mod 2 ^ 64) b) 0 bs.

Section crl.
Context `{Verifiers} `{PssDecoder} `{X509} `{!CrlCodec}.

Definition crl_ext_step (acc : option Z * bool) (ext : Extension) : option Z * bool :=
  let '(number, is_delta) := acc in
  if String.eqb (extn_id ext) ID_CE_CRL_NUMBER then
    match int_from_der (extn_value ext) with
    | Some bs => if zlen bs <=? 8 then (Some (be_u64 bs), is_delta) else (number, is_delta)
    | None => (number, is_delta)
    end
  else if String.eqb (extn_id ext) ID_CE_DELTA_CRL_INDICATOR then (number, true)
  else (number, is_delta).

(** [src/marty-crypto/src/crl.rs:249-277] extract_crl_extensions *)
Definition extract_crl_extensions (crl : CertificateList) : option Z * bool :=
  foldl crl_ext_step (None, false) (default [] (crl_extensions crl)).

(** [src/marty-crypto/src/crl.rs:498-514] extract_revocation_reason *)
Definition extract_revocation_reason (entry : RevokedCert) : option RevocationReason :=
  (fix go (exts : list Extension) :=
     match exts with
     | [] => None
     | ext :: exts =>
         if String.eqb (extn_id ext) ID_CE_CRL_REASONS then
           match extn_value ext with
           | [a; b; c] => if (a =? 10) && (b =? 1) then reason_from_code c else go exts
           | _ => go exts
           end
         else go exts
     end) (default [] (crl_entry_extensions entry)).

Definition serial_hex (bs : bytes) : string := hex_lower bs.

(** [src/marty-crypto/src/crl.rs:203-238] extract_crl_info *)
Definition extract_crl_info (crl : CertificateList) : CrlInfo :=
  let '(number, is_delta) := extract_crl_extensions crl in
  let serials := map (fun r => serial_hex (revoked_serial r)) (default [] (revoked_certificates crl)) in
  mkCrlInfo (name_text (crl_issuer crl)) (time_text (crl_this_update crl))
    (time_text <$> crl_next_update crl) number is_delta (zlen serials) serials.

(** [src/marty-crypto/src/crl.rs:195-200] load_crl_der *)
Definition load_crl_der (der : bytes) : result CrlInfo :=
  crl ← lift_err (fun e => CryptoDer ("Failed to parse DER CRL: " +:+ e)) (crl_from_der der);
  Ok (extract_crl_info crl).

(** [src/marty-crypto/src/crl.rs:184-192] load_crl_pem *)
Definition load_crl_pem (pem : string) : result CrlInfo :=
  der ← lift_err (fun e => CryptoPem ("Failed to decode PEM: " +:+ e)) (pem_decode pem);
  load_crl_der der.

(** [src/marty-crypto/src/crl.rs:472-495] get_revoked_certificates *)
Definition get_revoked_certificates (der : bytes) : result (list RevokedCertInfo) :=
  crl ← lift_err (fun e => CryptoDer ("Failed to parse CRL: " +:+ e)) (crl_from_der der);
  Ok (map (fun r => mkRevokedInfo (serial_hex (revoked_serial r)) (time_text (revocation_date r))
                      (extract_revocation_reason r))
        (default [] (revoked_certificates crl))).

(** [trim_start_matches('0')]. *)
Fixpoint trim_zeros (s : string) : string :=
  match s with
  | String c rest => if Ascii.eqb c "0" then trim_zeros rest else s
  | EmptyString => EmptyString
  end.

(** [src/marty-crypto/src/crl.rs:282-291] normalize_serial_hex *)
Definition normalize_serial_hex `{StrCase} (hex : string) : string :=
  match trim_zeros (str_to_lowercase hex) with
  | EmptyString => "0"
  | trimmed => trimmed
  end.

(** [src/marty-crypto/src/crl.rs:294-301] is_certificate_revoked *)
Definition is_certificate_revoked `{StrCase} (crl_der : bytes) (hex : string) : result bool :=
  info ← load_crl_der crl_der;
  Ok (existsb (fun s => String.eqb (normalize_serial_hex s) (normalize_serial_hex hex))
        (ci_revoked_serials info)).

(** [src/marty-crypto/src/crl.rs:442-469] validate_crl_freshness *)
Definition validate_crl_freshness (clock : option Z) (this : Z) (next_update : option Z)
    (skew max_age : Z) : result unit :=
  now ← ok_or clock (CryptoCrl "system clock is before Unix epoch");
  _ ← ensure (this <=? saturating_add now skew) (CryptoCrl "CRL thisUpdate is in the future");
  match next_update with
  | Some next =>
      ensure ((this <=? next) && (now <=? saturating_add next skew))
        (CryptoCrl "CRL is stale or has an invalid validity interval")
  | None =>
      ensure (now <=? saturating_add this (max_age + skew))
        (CryptoCrl "CRL without nextUpdate exceeds the maximum accepted age")
  end.

(** [src/marty-crypto/src/crl.rs:372-440] authenticate_crl *)
Definition authenticate_crl (clock : option Z) (crl : CertificateList) (issuer : Certificate) :
    result unit :=
  _ ← ensure (bool_decide (crl_issuer crl = cert_subject issuer))
        (CryptoCrl "CRL issuer does not match supplied issuer certificate");
  _ ← ensure (String.eqb (alg_oid (crl_inner_algorithm crl)) (alg_oid (crl_algorithm crl)))
        (CryptoCrl "CRL inner and outer signature algorithms do not match");
  bc ← lift_err (fun e => CryptoCrl ("invalid issuer BasicConstraints: " +:+ e)) (get_basic_constraints issuer);
  bc ← ok_or bc (CryptoCrl "CRL issuer lacks BasicConstraints");
  _ ← ensure (ca bc) (CryptoCrl "CRL issuer is not a CA certificate");
  ku ← lift_err (fun e => CryptoCrl ("invalid issuer KeyUsage: " +:+ e)) (get_key_usage issuer);
  _ ← ensure (from_option crl_sign true ku) (CryptoCrl "CRL issuer KeyUsage does not permit CRL signing");
  _ ← ensure (negb (snd (extract_crl_extensions crl)))
        (CryptoCrl "delta CRL cannot be evaluated without its base CRL");
  tbs ← lift_err (fun e => CryptoCrl ("failed to encode signed CRL data: " +:+ e)) (crl_tbs_to_der crl);
  key ← lift_err (fun e => CryptoCrl ("failed to encode issuer public key: " +:+ e)) (spki_to_der issuer);
  signature ← ok_or (crl_signature crl) (CryptoCrl "CRL signature is not byte aligned");
  good ← verify_signature_with_algorithm_identifier (crl_algorithm crl) key tbs signature;
  _ ← ensure good (CryptoCrl "invalid CRL signature");
  validate_crl_freshness clock (crl_this_update crl) (crl_next_update crl)
    CLOCK_SKEW_SECS MAX_AGE_WITHOUT_NEXT_UPDATE_SECS.

(** [src/marty-crypto/src/crl.rs:304-311] validate_crl *)
Definition validate_crl (clock : option Z) (crl_der issuer_der : bytes) : result CrlInfo :=
  crl ← lift_err (fun e => CryptoCrl ("failed to parse CRL: " +:+ e)) (crl_from_der crl_der);
  issuer ← lift_err (fun e => CryptoCrl ("failed to parse issuer certificate: " +:+ e)) (cert_from_der issuer_der);
  _ ← authenticate_crl clock crl issuer;
  Ok (extract_crl_info crl).

(** [src/marty-crypto/src/crl.rs:319-370] validate_crl_for_certificate *)
Definition validate_crl_for_certificate (clock : option Z) (crl_der cert_der issuer_der : bytes) :
    result ValidatedCrlStatus :=
  crl ← lift_err (fun e => CryptoCrl ("failed to parse CRL: " +:+ e)) (crl_from_der crl_der);
  cert ← lift_err (fun e => CryptoCrl ("failed to parse certificate: " +:+ e)) (cert_from_der cert_der);
  issuer ← lift_err (fun e => CryptoCrl ("failed to parse issuer certificate: " +:+ e)) (cert_from_der issuer_der);
  _ ← ensure (bool_decide (cert_issuer cert = cert_subject issuer))
        (CryptoCrl "certificate issuer does not match supplied issuer certificate");
  good ← verify_certificate_signature cert_der issuer_der;
  _ ← ensure good (CryptoCrl "certificate signature does not validate under supplied issuer");
  _ ← authenticate_crl clock crl issuer;
  let entry := find (fun r => bool_decide (revoked_serial r = cert_serial cert))
                 (default [] (revoked_certificates crl)) in
  Ok {| cs_revoked := bool_decide (is_Some entry);
        cs_revocation_date := (fun r => time_text (revocation_date r)) <$> entry;
        cs_reason := entry ≫= extract_revocation_reason;
        cs_issuer := name_text (crl_issuer crl);
        cs_this_update := time_text (crl_this_update crl);
        cs_next_update := time_text <$> crl_next_update crl;
        cs_signature_valid := true;
        cs_freshness_valid := true;
        cs_certificate_id_valid := true |}.
End crl.

(** ** OCSP *)

(** [src/marty-crypto/src/ocsp.rs:50-63] OcspCertStatus *)
Inductive OcspCertStatus :=
| OcspGood
| OcspRevoked (revocation_time : string) (reason : option string)
| OcspUnknown.

(** [src/marty-crypto/src/ocsp.rs:66-80] OcspResponseStatusCode *)
Inductive OcspResponseStatusCode :=
| Successful | MalformedRequest | InternalError | TryLater | SigRequired | Unauthorized.

#[export] Instance OcspResponseStatusCode_eq_dec : EqDecision OcspResponseStatusCode.
Proof. solve_decision. Defined.

(** [CertId], the status and the parts of a [SingleResponse], and the identifier of
    a responder: by its name or by the hash of its key. *)
Record CertId := mkCertId {
  id_hash_oid : string;
  id_issuer_name_hash : bytes;
  id_issuer_key_hash : bytes;
  id_serial : bytes;
}.
Inductive CertStatus := StatusGood | StatusRevoked (at_ : Z) (reason : option string) | StatusUnknown.
Record SingleResponse := mkSingle {
  sr_cert_id : CertId;
  sr_status : CertStatus;
  sr_this_update : Z;
  sr_next_update : option Z;
}.
Inductive ResponderId (N : Type) := ByName (name : N) | ByKey (key_hash : bytes).
Arguments ByName {N} _.
Arguments ByKey {N} _.

(** [x509_ocsp]: the outer response, with the type and the bytes it carries, the
    basic response, and the encoder of requests. *)
Class OcspCodec `{X509} := {
  OcspResponse : Type;
  ocsp_from_der : bytes -> string + OcspResponse;
  ocsp_status : OcspResponse -> OcspResponseStatusCode;
  ocsp_response_bytes : OcspResponse -> option (string * bytes);
  BasicOcspResponse : Type;
  basic_from_der : bytes -> string + BasicOcspResponse;
  basic_produced_at : BasicOcspResponse -> Z;
  basic_responder : BasicOcspResponse -> ResponderId Name;
  basic_responses : BasicOcspResponse -> list SingleResponse;
  basic_certs : BasicOcspResponse -> option (list Certificate);
  basic_tbs_to_der : BasicOcspResponse -> string + bytes;
  basic_algorithm : BasicOcspResponse -> AlgorithmIdentifier;
  basic_signature : BasicOcspResponse -> option bytes;
  ocsp_request_to_der : list CertId -> string + bytes;
  ocsp_time_text : Z -> string;
  status_text : OcspResponseStatusCode -> string;
}.

(** The digests of [sha1] and [sha2] that OCSP uses. *)
Inductive OcspDigest := DigestSha1 | DigestSha256 | DigestSha384 | DigestSha512.
Class Digests := digest : OcspDigest -> bytes -> bytes.

(** [src/marty-crypto/src/ocsp.rs:97-111] OcspResponseInfo *)
Record OcspResponseInfo := mkOcspInfo {
  oi_response_status : OcspResponseStatusCode;
  oi_cert_status : option OcspCertStatus;
  oi_this_update : option string;
  oi_next_update : option string;
  oi_responder_id : option string;
  oi_produced_at : option string;
}.

(** [src/marty-crypto/src/ocsp.rs:118-140] ValidatedOcspResponse *)
Record ValidatedOcspResponse := mkValidated {
  vo_cert_status : OcspCertStatus;
  vo_this_update : string;
  vo_next_update : option string;
  vo_produced_at : string;
  vo_responder_id : string;
  vo_responder_is_issuer : bool;
  vo_delegated_responder : bool;
  vo_signature_valid : bool;
  vo_certificate_id_valid : bool;
  vo_freshness_valid : bool;
}.

Definition ID_PKIX_OCSP_BASIC : string := "1.3.6.1.5.5.7.48.1.1".
Definition OCSP_SIGNING_OID : string := "1.3.6.1.5.5.7.3.9".
Definition SHA1_OID : string := "1.3.14.3.2.26".

Section ocsp.
Context `{Verifiers} `{PssDecoder} `{X509} `{!OcspCodec} `{Digests}.

(** [src/marty-crypto/src/ocsp.rs:505-515] ocsp_hash *)
Definition ocsp_hash (oid : string) (value : bytes) : result bytes :=
  match assoc [(SHA1_OID, DigestSha1); (SHA256_OID, DigestSha256); (SHA384_OID, DigestSha384);
               (SHA512_OID, DigestSha512)] oid with
  | Some h => Ok (digest h value)
  | None => Err (CryptoUnsupportedAlgorithm ("unsupported OCSP CertID hash algorithm: " +:+ oid))
  end.

(** [src/marty-crypto/src/ocsp.rs:478-503] cert_id_matches *)
Definition cert_id_matches (id : CertId) (cert issuer : Certificate) : result bool :=
  if negb (bool_decide (id_serial id = cert_serial cert)) then Ok false
  else
    name ← lift_err (fun e => CryptoOcsp ("failed to encode issuer name: " +:+ e))
             (name_to_der (cert_subject issuer));
    name_hash ← ocsp_hash (id_hash_oid id) name;
    key_hash ← ocsp_hash (id_hash_oid id) (subject_public_key issuer);
    Ok (bool_decide (id_issuer_name_hash id = name_hash) && bool_decide (id_issuer_key_hash id = key_hash)).

(** [src/marty-crypto/src/ocsp.rs:217-259] OcspRequestBuilder::build_cert_id *)
Definition build_cert_id (cert_der issuer_der : bytes) : result CertId :=
  cert ← lift_err (fun e => CryptoDer ("Failed to parse certificate: " +:+ e)) (cert_from_der cert_der);
  issuer ← lift_err (fun e => CryptoDer ("Failed to parse issuer certificate: " +:+ e)) (cert_from_der issuer_der);
  name ← lift_err (fun e => CryptoInternal ("Failed to encode issuer name: " +:+ e))
           (name_to_der (cert_subject issuer));
  Ok (mkCertId SHA256_OID (digest DigestSha256 name) (digest DigestSha256 (subject_public_key issuer))
        (cert_serial cert)).

Fixpoint build_cert_ids (entries : list (bytes * bytes)) : result (list CertId) :=
  match entries with
  | [] => Ok []
  | (cert_der, issuer_der) :: entries =>
      id ← build_cert_id cert_der issuer_der;
      ids ← build_cert_ids entries;
      Ok (id :: ids)
  end.

(** [src/marty-crypto/src/ocsp.rs:182-214] OcspRequestBuilder::build *)
Definition ocsp_request_build (certificates : list (bytes * bytes)) : result bytes :=
  match certificates with
  | [] => Err (CryptoInternal "OCSP request must have at least one certificate")
  | _ =>
      ids ← build_cert_ids certificates;
      lift_err (fun e => CryptoInternal ("Failed to encode OCSP request: " +:+ e)) (ocsp_request_to_der ids)
  end.

(** [src/marty-crypto/src/ocsp.rs:517-529] responder_id_matches *)
Definition responder_id_matches (id : ResponderId Name) (cert : Certificate) : bool :=
  match id with
  | ByName name => bool_decide (name = cert_subject cert)
  | ByKey key_hash => bool_decide (key_hash = digest DigestSha1 (subject_public_key cert))
  end.

(** [src/marty-crypto/src/ocsp.rs:596-610] validate_certificate_current *)
Definition validate_certificate_current (clock : option Z) (cert : Certificate) : result unit :=
  now ← ok_or clock (CryptoOcsp "system clock is before Unix epoch");
  ensure ((cert_not_before cert <=? now) && (now <=? cert_not_after cert))
    (CryptoOcsp "OCSP responder certificate is not currently valid").

(** The one embedded certificate that the responder identifier names. *)
Definition embedded_responder (basic : BasicOcspResponse) : result Certificate :=
  match List.filter (responder_id_matches (basic_responder basic)) (default [] (basic_certs basic)) with
  | [] => Err (CryptoOcsp "OCSP responder certificate is missing or unidentified")
  | [responder] => Ok responder
  | _ => Err (CryptoOcsp "multiple embedded certificates match the OCSP responder ID")
  end.

(** [src/marty-crypto/src/ocsp.rs:531-594] select_authorized_responder *)
Definition select_authorized_responder (clock : option Z) (basic : BasicOcspResponse)
    (issuer : Certificate) (issuer_der : bytes) : result (Certificate * bool) :=
  if responder_id_matches (basic_responder basic) issuer then
    _ ← validate_certificate_current clock issuer;
    Ok (issuer, true)
  else
    responder ← embedded_responder basic;
    _ ← ensure (bool_decide (cert_issuer responder = cert_subject issuer))
          (CryptoOcsp "delegated OCSP responder was not issued by the certificate issuer");
    responder_der ← lift_err (fun e => CryptoOcsp ("failed to encode responder certificate: " +:+ e))
                      (cert_to_der responder);
    good ← verify_certificate_signature responder_der issuer_der;
    _ ← ensure good (CryptoOcsp "delegated OCSP responder certificate signature is invalid");
    _ ← validate_certificate_current clock responder;
    eku ← lift_err (fun e => CryptoOcsp ("invalid responder EKU extension: " +:+ e))
            (get_extended_key_usage responder);
    eku ← ok_or eku (CryptoOcsp "delegated responder lacks extended key usage");
    _ ← ensure (existsb (String.eqb OCSP_SIGNING_OID) eku)
          (CryptoOcsp "delegated responder is not authorized for OCSP signing");
    ku ← lift_err (fun e => CryptoOcsp ("invalid responder key usage extension: " +:+ e))
           (get_key_usage responder);
    _ ← ensure (from_option digital_signature true ku)
          (CryptoOcsp "delegated responder key usage does not allow digital signatures");
    Ok (responder, false).

(** [src/marty-crypto/src/ocsp.rs:612-652] validate_ocsp_freshness *)
Definition validate_ocsp_freshness (clock : option Z) (produced this : Z) (next_update : option Z)
    (skew max_age : Z) : result unit :=
  now ← ok_or clock (CryptoOcsp "system clock is before Unix epoch");
  _ ← ensure ((produced <=? saturating_add now skew) && (this <=? saturating_add now skew))
        (CryptoOcsp "OCSP response contains a future timestamp");
  _ ← ensure (this <=? saturating_add produced skew)
        (CryptoOcsp "OCSP producedAt precedes thisUpdate beyond allowed clock skew");
  match next_update with
  | Some next =>
      _ ← ensure ((this <=? next) && (now <=? saturating_add next skew))
            (CryptoOcsp "OCSP response is stale or has an invalid validity interval");
      ensure (produced <=? saturating_add next skew) (CryptoOcsp "OCSP producedAt is after nextUpdate")
  | None =>
      ensure (now <=? saturating_add this (max_age + skew))
        (CryptoOcsp "OCSP response without nextUpdate exceeds the maximum accepted age")
  end.

Definition cert_status_of (s : CertStatus) : OcspCertStatus :=
  match s with
  | StatusGood => OcspGood
  | StatusRevoked at_ reason => OcspRevoked (ocsp_time_text at_) reason
  | StatusUnknown => OcspUnknown
  end.

Definition responder_text (id : ResponderId Name) : string :=
  match id with ByName name => name_text name | ByKey h => hex_lower h end.

(** [src/marty-crypto/src/ocsp.rs:270-350] parse_ocsp_response *)
Definition parse_ocsp_response (response_der : bytes) : result OcspResponseInfo :=
  response ← lift_err (fun e => CryptoDer ("Failed to parse OCSP response: " +:+ e)) (ocsp_from_der response_der);
  if negb (bool_decide (ocsp_status response = Successful)) then
    Ok (mkOcspInfo (ocsp_status response) None None None None None)
  else
    body ← ok_or (ocsp_response_bytes response)
             (CryptoInternal "Missing response bytes in successful OCSP response");
    _ ← ensure (String.eqb (fst body) ID_PKIX_OCSP_BASIC) (CryptoInternal "Unsupported OCSP response type");
    basic ← lift_err (fun e => CryptoDer ("Failed to parse BasicOCSPResponse: " +:+ e)) (basic_from_der (snd body));
    single ← ok_or (head (basic_responses basic)) (CryptoInternal "No single responses in OCSP response");
    Ok (mkOcspInfo (ocsp_status response) (Some (cert_status_of (sr_status single)))
          (Some (ocsp_time_text (sr_this_update single))) (ocsp_time_text <$> sr_next_update single)
          (Some (responder_text (basic_responder basic)))
          (Some (ocsp_time_text (basic_produced_at basic)))).

(** [cert_id_matches(...).unwrap_or(false)] *)
Definition bound_to (cert issuer : Certificate) (single : SingleResponse) : bool :=
  match cert_id_matches (sr_cert_id single) cert issuer with Ok b => b | _ => false end.

(** [src/marty-crypto/src/ocsp.rs:358-476] validate_ocsp_response *)
Definition validate_ocsp_response (clock : option Z) (response_der cert_der issuer_der : bytes) :
    result ValidatedOcspResponse :=
  cert ← lift_err (fun e => CryptoOcsp ("invalid certificate: " +:+ e)) (cert_from_der cert_der);
  issuer ← lift_err (fun e => CryptoOcsp ("invalid issuer certificate: " +:+ e)) (cert_from_der issuer_der);
  _ ← ensure (bool_decide (cert_issuer cert = cert_subject issuer))
        (CryptoOcsp "certificate issuer does not match supplied issuer certificate");
  good ← verify_certificate_signature cert_der issuer_der;
  _ ← ensure good (CryptoOcsp "certificate signature does not validate under supplied issuer");
  response ← lift_err (fun e => CryptoOcsp ("failed to parse OCSP response: " +:+ e)) (ocsp_from_der response_der);
  _ ← ensure (bool_decide (ocsp_status response = Successful))
        (CryptoOcsp ("OCSP responder returned non-success status: " +:+ status_text (ocsp_status response)));
  body ← ok_or (ocsp_response_bytes response) (CryptoOcsp "successful OCSP response has no response bytes");
  _ ← ensure (String.eqb (fst body) ID_PKIX_OCSP_BASIC) (CryptoOcsp "unsupported OCSP response type");
  basic ← lift_err (fun e => CryptoOcsp ("failed to parse BasicOCSPResponse: " +:+ e)) (basic_from_der (snd body));
  let matching := List.filter (bound_to cert issuer) (basic_responses basic) in
  single ← ok_or (match matching with [single] => Some single | _ => None end)
             (CryptoOcsp ("expected exactly one certificate-bound SingleResponse, found "
                          +:+ pretty (length matching)));
  selected ← select_authorized_responder clock basic issuer issuer_der;
  let '(responder, responder_is_issuer) := selected in
  tbs ← lift_err (fun e => CryptoOcsp ("failed to encode signed OCSP data: " +:+ e)) (basic_tbs_to_der basic);
  key ← lift_err (fun e => CryptoOcsp ("failed to encode responder public key: " +:+ e)) (spki_to_der responder);
  signature ← ok_or (basic_signature basic) (CryptoOcsp "OCSP signature is not byte aligned");
  signed ← verify_signature_with_algorithm_identifier (basic_algorithm basic) key tbs signature;
  _ ← ensure signed (CryptoOcsp "invalid BasicOCSPResponse signature");
  _ ← validate_ocsp_freshness clock (basic_produced_at basic) (sr_this_update single) (sr_next_update single)
        CLOCK_SKEW_SECS MAX_AGE_WITHOUT_NEXT_UPDATE_SECS;
  Ok {| vo_cert_status := cert_status_of (sr_status single);
        vo_this_update := ocsp_time_text (sr_this_update single);
        vo_next_update := ocsp_time_text <$> sr_next_update single;
        vo_produced_at := ocsp_time_text (basic_produced_at basic);
        vo_responder_id := responder_text (basic_responder basic);
        vo_responder_is_issuer := responder_is_issuer;
        vo_delegated_responder := negb responder_is_issuer;
        vo_signature_valid := true;
        vo_certificate_id_valid := true;
        vo_freshness_valid := true |}.

(** [src/marty-crypto/src/ocsp.rs:665-675] is_revoked_via_ocsp *)
Definition is_revoked_via_ocsp (clock : option Z) (response_der cert_der issuer_der : bytes) : result bool :=
  r ← validate_ocsp_response clock response_der cert_der issuer_der;
  match vo_cert_status r with
  | OcspRevoked _ _ => Ok true
  | OcspGood => Ok false
  | OcspUnknown => Err (CryptoOcsp "OCSP returned unknown status")
  end.
End ocsp.
