(* ===== verification/RevocationFacts.v ===== *)
(** * Correctness of the revocation evidence

    What a certificate signature, an accepted revocation list and an accepted OCSP
    response establish, as exact characterisations of the inputs that the
    validators accept. *)

From stdpp Require Import pretty.
From S2P Require Import Prelude Des Governance X509 Revocation.
Local Open Scope Z_scope.

Section chains.
Context {E : Type}.

Lemma lift_err_Ok {A} (f : string -> E) (r : string + A) a : lift_err f r = Ok a <-> r = inr a.
Proof. destruct r; cbn; split; congruence. Qed.

Lemma bind_ensure_Ok {A} b (e : E) (c : res E A) a :
  (_ ← ensure b e; c) = Ok a <-> b = true /\ c = Ok a.
Proof. destruct b; cbn; intuition congruence. Qed.

Lemma ensure_unit b (e : E) : ensure b e = Ok tt <-> b = true.
Proof. destruct b; cbn; split; congruence. Qed.
End chains.

(** Invert a chain whose steps come from a library. *)
Ltac lift_inv :=
  res_inv;
  repeat match goal with
  | H : lift_err _ _ = Ok _ |- _ => apply lift_err_Ok in H
  | H : String.eqb _ _ = true |- _ => apply String.eqb_eq in H
  | H : ?x = true |- _ => is_var x; subst x
  | H : ?x = Some _ |- _ => is_var x; subst x
  end; breflect.

(** Run a chain on the results of its steps. *)
Ltac run_chain :=
  repeat match goal with
  | H : ?r = inr _ |- context [lift_err _ ?r] => rewrite H; cbn [lift_err ok_or ensure mbind res_bind]
  | H : ?o = Some _ |- context [ok_or ?o _] => rewrite H; cbn [lift_err ok_or ensure mbind res_bind]
  | H : ?c = Ok _ |- context [?c] => rewrite H; cbn [lift_err ok_or ensure mbind res_bind]
  | H : ?b = true |- context [ensure ?b _] => rewrite H; cbn [lift_err ok_or ensure mbind res_bind]
  | H : ?P |- context [ensure (bool_decide ?P) _] =>
      rewrite (bool_decide_eq_true_2 P H); cbn [lift_err ok_or ensure mbind res_bind]
  end.

(** ** Clocks *)

(** The times of the program are [u64] seconds: a sum that saturates is compared
    as the exact sum is. *)
Definition u64_time (t : Z) : Prop := t <= 2 ^ 64 - 1.

Lemma leb_saturating x y k : (x <=? saturating_add y k) = true <-> u64_time x /\ x <= y + k.
Proof. unfold saturating_add, usize_max, u64_time. rewrite Z.leb_le. lia. Qed.

(** The window in which evidence is current at the time [now], with five minutes
    of clock skew: not from the future, and not past its next update or, when it
    names none, not older than a day. *)
Definition current_window (now this : Z) (next : option Z) : Prop :=
  u64_time now /\ u64_time this /\ this <= now + 300 /\
  match next with
  | Some next => this <= next /\ now <= next + 300
  | None => now <= this + 86400 + 300
  end.

(** The response was produced at a time within the window of its entry. *)
Definition produced_window (now produced this : Z) (next : option Z) : Prop :=
  u64_time produced /\ produced <= now + 300 /\ this <= produced + 300 /\
  match next with Some next => produced <= next + 300 | None => True end.

Lemma crl_freshness_exact clock this next :
  validate_crl_freshness clock this next CLOCK_SKEW_SECS MAX_AGE_WITHOUT_NEXT_UPDATE_SECS = Ok tt <->
  exists now, clock = Some now /\ current_window now this next.
Proof.
  unfold validate_crl_freshness, current_window, CLOCK_SKEW_SECS, MAX_AGE_WITHOUT_NEXT_UPDATE_SECS.
  destruct clock as [now|]; cbn [ok_or mbind res_bind]; [|naive_solver].
  rewrite bind_ensure_Ok. destruct next as [n|]; rewrite ensure_unit, ?andb_true_iff, !leb_saturating, ?Z.leb_le; unfold u64_time.
  - split; [intros; eexists; split; [done|lia]|]. intros (? & [= <-] & ?). lia.
  - split; [intros; eexists; split; [done|lia]|]. intros (? & [= <-] & ?). lia.
Qed.

Lemma ocsp_freshness_exact clock produced this next :
  validate_ocsp_freshness clock produced this next CLOCK_SKEW_SECS MAX_AGE_WITHOUT_NEXT_UPDATE_SECS = Ok tt <->
  exists now, clock = Some now /\ current_window now this next /\ produced_window now produced this next.
Proof.
  unfold validate_ocsp_freshness, current_window, produced_window, CLOCK_SKEW_SECS, MAX_AGE_WITHOUT_NEXT_UPDATE_SECS.
  destruct clock as [now|]; cbn [ok_or mbind res_bind]; [|naive_solver].
  rewrite !bind_ensure_Ok. destruct next as [n|];
    rewrite ?bind_ensure_Ok, ensure_unit, ?andb_true_iff, !leb_saturating, ?Z.leb_le; unfold u64_time.
  - split; [intros; eexists; split; [done|lia]|]. intros (? & [= <-] & ?). lia.
  - split; [intros; eexists; split; [done|lia]|]. intros (? & [= <-] & ?). lia.
Qed.

(** ** Revocation lists *)

Section crl.
Context `{Verifiers} `{PssDecoder} `{X509} `{!CrlCodec}.

(** The issuer's certificate verifies the certificate's signature. *)
Definition signed_by (cert issuer : Certificate) : Prop :=
  verify_parsed_certificate_signature cert issuer = Ok true.

Lemma verify_signature_der cd id cert issuer :
  cert_from_der cd = inr cert -> cert_from_der id = inr issuer ->
  verify_certificate_signature cd id = verify_parsed_certificate_signature cert issuer.
Proof. intros Hc Hi. unfold verify_certificate_signature, load_certificate_der. by run_chain. Qed.

(** What [authenticate_crl] requires of a list and its issuer at a time. *)
Record crl_authentic (clock : option Z) (crl : CertificateList) (issuer : Certificate) : Prop := {
  ca_issuer : crl_issuer crl = cert_subject issuer;
  ca_algorithm : alg_oid (crl_inner_algorithm crl) = alg_oid (crl_algorithm crl);
  ca_is_ca : exists bc, get_basic_constraints issuer = inr (Some bc) /\ ca bc = true;
  ca_usage : exists ku, get_key_usage issuer = inr ku /\ from_option crl_sign true ku = true;
  ca_complete : snd (extract_crl_extensions crl) = false;
  ca_signed : exists tbs key sig, crl_tbs_to_der crl = inr tbs /\ spki_to_der issuer = inr key /\
    crl_signature crl = Some sig /\
    verify_signature_with_algorithm_identifier (crl_algorithm crl) key tbs sig = Ok true;
  ca_fresh : exists now, clock = Some now /\
    current_window now (crl_this_update crl) (crl_next_update crl);
}.

Lemma authenticate_crl_exact clock crl issuer :
  authenticate_crl clock crl issuer = Ok tt <-> crl_authentic clock crl issuer.
Proof.
  split.
  - intros Ha. unfold authenticate_crl in Ha. lift_inv. apply crl_freshness_exact in Ha.
    split; eauto 10.
  - intros [Hi Hal (bc & Hbc & Hca) (ku & Hku & Hs) Hd (tbs & key & sig & Ht & Hk & Hsig & Hv) Hf].
    apply crl_freshness_exact in Hf. unfold authenticate_crl. rewrite Hd. cbn [negb]. apply String.eqb_eq in Hal. run_chain. done.
Qed.

(** An accepted list: authentic, and issued by the issuer of the certificate. *)
Record crl_accepts (clock : option Z) (crl_der cert_der issuer_der : list Z)
    (crl : CertificateList) (cert issuer : Certificate) : Prop := {
  cr_crl : crl_from_der crl_der = inr crl;
  cr_cert : cert_from_der cert_der = inr cert;
  cr_issuer : cert_from_der issuer_der = inr issuer;
  cr_named : cert_issuer cert = cert_subject issuer;
  cr_signed : signed_by cert issuer;
  cr_authentic : crl_authentic clock crl issuer;
}.

Lemma find_revoked (serial : list Z) l :
  is_Some (find (fun r => bool_decide (revoked_serial r = serial)) l) <->
  exists r, r ∈ l /\ revoked_serial r = serial.
Proof.
  split.
  - intros [r Hr]. apply List.find_some in Hr as [Hin He]. exists r. split; [by apply list_elem_of_In|].
    by apply bool_decide_eq_true in He.
  - intros (r & Hr & He). destruct (find _ l) as [x|] eqn:Hf; [by eexists|]. exfalso.
    apply list_elem_of_In, (List.find_none _ _ Hf r) in Hr. by rewrite bool_decide_eq_true_2 in Hr.
Qed.

Lemma validate_crl_accepts clock d c i st :
  validate_crl_for_certificate clock d c i = Ok st ->
  exists crl cert issuer, crl_accepts clock d c i crl cert issuer /\
    (cs_revoked st = true <->
     exists r, r ∈ default [] (revoked_certificates crl) /\ revoked_serial r = cert_serial cert).
Proof.
  intros Hv. unfold validate_crl_for_certificate in Hv. lift_inv.
  match goal with Hc : cert_from_der c = inr ?cert, Hi : cert_from_der i = inr ?issuer |- _ =>
    rewrite (verify_signature_der _ _ _ _ Hc Hi) in * end.
  match goal with Ha : authenticate_crl _ _ _ = Ok ?u |- _ => destruct u; apply authenticate_crl_exact in Ha end.
  eexists _, _, _. split; [split; try done; eassumption|]. cbn [cs_revoked].
  rewrite bool_decide_eq_true. apply find_revoked.
Qed.

(** A revocation list is evidence for a certificate exactly when the list, the
    certificate and the issuer parse, the issuer's name is the one on the
    certificate and on the list, the issuer's key verifies both, the issuer is a
    certification authority that may sign lists, the list is complete and it is
    current; the status then says revoked exactly when the certificate's serial
    number is listed. *)
Theorem crl_evidence_exact clock d c i :
  (forall st, validate_crl_for_certificate clock d c i = Ok st ->
     exists crl cert issuer, crl_accepts clock d c i crl cert issuer /\
       (cs_revoked st = true <->
        exists r, r ∈ default [] (revoked_certificates crl) /\ revoked_serial r = cert_serial cert)) /\
  (forall crl cert issuer, crl_accepts clock d c i crl cert issuer ->
     exists st, validate_crl_for_certificate clock d c i = Ok st).
Proof.
  split.
  - intros st. apply validate_crl_accepts.
  - intros crl cert issuer [Hcrl Hcert Hissuer Hn Hs Ha]. apply authenticate_crl_exact in Ha.
    eexists. unfold validate_crl_for_certificate.
    rewrite (verify_signature_der _ _ _ _ Hcert Hissuer). unfold signed_by in Hs. run_chain. reflexivity.
Qed.
End crl.

(** ** OCSP *)

Section ocsp.
Context `{Verifiers} `{PssDecoder} `{X509} `{!OcspCodec} `{Digests}.

(** The entry [x] is the only one of [l] with the property. *)
Definition only_one {A} (P : A -> Prop) (l : list A) (x : A) : Prop :=
  exists pre post, l = pre ++ x :: post /\ P x /\ Forall (fun y => ~ P y) (pre ++ post).

Lemma filter_only_one {A} (p : A -> bool) (P : A -> Prop) l x : (forall y, p y = true <-> P y) ->
  List.filter p l = [x] <-> only_one P l x.
Proof.
  intros Hp. assert (Hnone : forall l, List.filter p l = [] <-> Forall (fun y => ~ P y) l).
  { induction l0 as [|y l0 IH]; cbn; [done|]. rewrite Forall_cons, <- IH, <- (Hp y).
    destruct (p y); naive_solver. }
  split.
  - induction l as [|y l IH]; cbn; [done|]. destruct (p y) eqn:Hy.
    + intros [= -> Hl]. exists [], l. split_and!; [done|by apply Hp|by apply Hnone].
    + intros Hl. destruct (IH Hl) as (pre & post & -> & Hx & Hall). exists (y :: pre), post.
      split_and!; [done|done|]. cbn. constructor; [|done]. rewrite <- Hp. congruence.
  - intros (pre & post & -> & Hx & Hall). apply Forall_app in Hall as [Hpre Hpost].
    rewrite List.filter_app. cbn. rewrite (proj2 (Hp x) Hx).
    by rewrite (proj2 (Hnone pre) Hpre), (proj2 (Hnone post) Hpost).
Qed.

Definition ocsp_digests : list (string * OcspDigest) :=
  [("1.3.14.3.2.26", DigestSha1); ("2.16.840.1.101.3.4.2.1", DigestSha256);
   ("2.16.840.1.101.3.4.2.2", DigestSha384); ("2.16.840.1.101.3.4.2.3", DigestSha512)]%string.

Lemma assoc_exact {A} (table : list (string * A)) key v : NoDup table.*1 ->
  assoc table key = Some v <-> (key, v) ∈ table.
Proof.
  unfold assoc. induction table as [|[k x] table IH]; cbn; intros Hnd.
  { rewrite elem_of_nil. naive_solver. }
  apply NoDup_cons in Hnd as [Hk Hnd]. rewrite elem_of_cons. destruct (String.eqb_spec k key) as [->|Hne].
  - cbn. split; [intros [= ->]; by left|]. intros [[= ->]|Hin]; [done|]. destruct Hk.
    by apply (list_elem_of_fmap_2 fst) in Hin.
  - rewrite (IH Hnd). split; [by right|]. intros [[= -> ->]|]; done.
Qed.

(** The certificate identifier of RFC 6960, section 4.1.1: the serial number of
    the certificate, and the hashes of its issuer's name and key under one of
    the four digests, each with its own object identifier. *)
Definition names_certificate (id : CertId) (cert issuer : Certificate) : Prop :=
  exists h name,
    (id_hash_oid id, h) ∈ ocsp_digests /\
    name_to_der (cert_subject issuer) = inr name /\
    id_serial id = cert_serial cert /\
    id_issuer_name_hash id = digest h name /\
    id_issuer_key_hash id = digest h (subject_public_key issuer).

Lemma ocsp_digests_known oid h : assoc ocsp_digests oid = Some h <-> (oid, h) ∈ ocsp_digests.
Proof. apply assoc_exact. apply (bool_decide_unpack _). vm_compute. exact I. Qed.

Lemma ocsp_hash_known oid h v : (oid, h) ∈ ocsp_digests -> ocsp_hash oid v = Ok (digest h v).
Proof.
  intros Hin%ocsp_digests_known. unfold ocsp_hash.
  change [(SHA1_OID, _); _; _; _] with ocsp_digests. by rewrite Hin.
Qed.

Lemma ocsp_hash_Ok oid v r : ocsp_hash oid v = Ok r ->
  exists h, (oid, h) ∈ ocsp_digests /\ r = digest h v.
Proof.
  unfold ocsp_hash. change [(SHA1_OID, _); _; _; _] with ocsp_digests.
  destruct (assoc ocsp_digests oid) as [h|] eqn:Ha; [|done]. intros [= <-]. exists h.
  split; [by apply ocsp_digests_known|done].
Qed.

Lemma bound_to_exact cert issuer single :
  bound_to cert issuer single = true <-> names_certificate (sr_cert_id single) cert issuer.
Proof.
  unfold bound_to, cert_id_matches, names_certificate. set (id := sr_cert_id single). split.
  - intros Hb. destruct (bool_decide (id_serial id = cert_serial cert)) eqn:Hs; [|done].
    cbn [negb] in Hb. apply bool_decide_eq_true in Hs.
    destruct (name_to_der (cert_subject issuer)) as [|name]; cbn [lift_err mbind res_bind] in Hb; [done|].
    destruct (ocsp_hash (id_hash_oid id) name) as [nh| |] eqn:Hn; cbn [mbind res_bind] in Hb; [|done..].
    apply ocsp_hash_Ok in Hn as (h & Hin & ->). rewrite (ocsp_hash_known _ h _ Hin) in Hb.
    cbn [mbind res_bind] in Hb. breflect. by exists h, name.
  - intros (h & name & Hin & Hname & Hs & Hn & Hk). rewrite (bool_decide_true _ Hs), Hname.
    cbn [negb lift_err mbind res_bind]. rewrite !(ocsp_hash_known _ h _ Hin). cbn [mbind res_bind].
    by rewrite !bool_decide_true.
Qed.

(** The identifier of a responder names a certificate: by its subject, or by
    the SHA-1 of its key. *)
Definition names_responder (id : ResponderId Name) (cert : Certificate) : Prop :=
  match id with
  | ByName name => name = cert_subject cert
  | ByKey key_hash => key_hash = digest DigestSha1 (subject_public_key cert)
  end.

Lemma responder_id_exact id cert : responder_id_matches id cert = true <-> names_responder id cert.
Proof. destruct id; cbn; apply bool_decide_eq_true. Qed.

Definition certificate_current (clock : option Z) (cert : Certificate) : Prop :=
  exists now, clock = Some now /\ cert_not_before cert <= now <= cert_not_after cert.

Lemma certificate_current_exact clock cert :
  validate_certificate_current clock cert = Ok tt <-> certificate_current clock cert.
Proof.
  unfold validate_certificate_current, certificate_current. destruct clock as [now|]; cbn; [|naive_solver].
  rewrite ensure_unit, andb_true_iff, !Z.leb_le. naive_solver.
Qed.

(** The responder may speak for the issuer: it is the issuer, or the one embedded
    certificate of that name or key, issued and signed by the issuer, marked for
    OCSP signing; in both cases it is current. *)
Inductive responder_for (clock : option Z) (basic : BasicOcspResponse) (issuer : Certificate)
    (issuer_der : list Z) : Certificate -> bool -> Prop :=
| responder_issuer :
    names_responder (basic_responder basic) issuer -> certificate_current clock issuer ->
    responder_for clock basic issuer issuer_der issuer true
| responder_delegate responder der eku ku :
    ~ names_responder (basic_responder basic) issuer ->
    only_one (names_responder (basic_responder basic)) (default [] (basic_certs basic)) responder ->
    cert_issuer responder = cert_subject issuer ->
    cert_to_der responder = inr der -> verify_certificate_signature der issuer_der = Ok true ->
    certificate_current clock responder ->
    get_extended_key_usage responder = inr (Some eku) -> "1.3.6.1.5.5.7.3.9"%string ∈ eku ->
    get_key_usage responder = inr ku -> from_option digital_signature true ku = true ->
    responder_for clock basic issuer issuer_der responder false.

Lemma select_responder_exact clock basic issuer id r b :
  select_authorized_responder clock basic issuer id = Ok (r, b) <-> responder_for clock basic issuer id r b.
Proof.
  unfold select_authorized_responder.
  destruct (responder_id_matches (basic_responder basic) issuer) eqn:Hm.
  - apply responder_id_exact in Hm. split.
    + intros Hs. res_inv. match goal with u : () |- _ => destruct u end.
      constructor; [done|]. by apply certificate_current_exact.
    + destruct 1; [|done].
      match goal with Hc : certificate_current _ _ |- _ => apply certificate_current_exact in Hc end.
      by run_chain.
  - assert (~ names_responder (basic_responder basic) issuer) as Hn
      by (intros Hr%responder_id_exact; congruence).
    split.
    + intros Hs. unfold embedded_responder in Hs. lift_inv.
      destruct (List.filter _ _) as [|x [|]] eqn:Hf; try done. res_inv.
      repeat match goal with u : () |- _ => destruct u end.
      apply (filter_only_one _ (names_responder (basic_responder basic)) _ _ (responder_id_exact _)) in Hf.
      match goal with Hc : validate_certificate_current _ _ = Ok _ |- _ => apply certificate_current_exact in Hc end.
      econstructor; try eassumption. by apply existsb_eqb.
    + destruct 1; [done|]. unfold embedded_responder.
      match goal with Hf : only_one _ _ _ |- _ => apply (filter_only_one _ _ _ _ (responder_id_exact _)) in Hf;
        rewrite Hf end.
      match goal with He : _ ∈ _ |- _ => apply existsb_eqb in He end.
      match goal with Hc : certificate_current _ _ |- _ => apply certificate_current_exact in Hc end.
      cbn [mbind res_bind]. unfold OCSP_SIGNING_OID. run_chain. done.
Qed.

(** An accepted response. *)
Record ocsp_accepts (clock : option Z) (resp_der cert_der issuer_der : list Z)
    (cert issuer : Certificate) (basic : BasicOcspResponse) (single : SingleResponse)
    (responder : Certificate) (is_issuer : bool) : Prop := {
  oa_cert : cert_from_der cert_der = inr cert;
  oa_issuer : cert_from_der issuer_der = inr issuer;
  oa_named : cert_issuer cert = cert_subject issuer;
  oa_signed_cert : signed_by cert issuer;
  oa_basic : exists response body, ocsp_from_der resp_der = inr response /\
    ocsp_status response = Successful /\ ocsp_response_bytes response = Some ("1.3.6.1.5.5.7.48.1.1"%string, body) /\
    basic_from_der body = inr basic;
  oa_bound : only_one (fun single => names_certificate (sr_cert_id single) cert issuer)
    (basic_responses basic) single;
  oa_responder : responder_for clock basic issuer issuer_der responder is_issuer;
  oa_signed : exists tbs key sig, basic_tbs_to_der basic = inr tbs /\ spki_to_der responder = inr key /\
    basic_signature basic = Some sig /\
    verify_signature_with_algorithm_identifier (basic_algorithm basic) key tbs sig = Ok true;
  oa_fresh : exists now, clock = Some now /\
    current_window now (sr_this_update single) (sr_next_update single) /\
    produced_window now (basic_produced_at basic) (sr_this_update single) (sr_next_update single);
}.

Lemma validate_ocsp_accepts clock d c i v :
  validate_ocsp_response clock d c i = Ok v ->
  exists cert issuer basic single responder is_issuer,
    ocsp_accepts clock d c i cert issuer basic single responder is_issuer /\
    vo_cert_status v = cert_status_of (sr_status single) /\
    vo_responder_is_issuer v = is_issuer /\ vo_delegated_responder v = negb is_issuer.
Proof.
  intros Hv. unfold validate_ocsp_response in Hv. lift_inv.
  match goal with Hc : cert_from_der c = inr ?cert, Hi : cert_from_der i = inr ?issuer |- _ =>
    rewrite (verify_signature_der _ _ _ _ Hc Hi) in * end.
  match goal with Hm : match List.filter ?p ?l with _ => _ end = Some _ |- _ =>
    destruct (List.filter p l) as [|single [|]] eqn:Hf; try done; injection Hm as -> end.
  match goal with Hs : select_authorized_responder _ _ _ _ = Ok ?p |- _ =>
    destruct p as [responder b]; apply select_responder_exact in Hs end.
  lift_inv. repeat match goal with u : () |- _ => destruct u end.
  apply (filter_only_one _ _ _ _ (bound_to_exact _ _)) in Hf.
  match goal with Hv : validate_ocsp_freshness _ _ _ _ _ _ = Ok _ |- _ => apply ocsp_freshness_exact in Hv end.
  match goal with p : string * list Z |- _ => destruct p as [oid body]; cbn [fst snd] in *; subst oid end.
  eexists _, _, _, _, _, _. split; [|done]. split; try eassumption; eauto 10.
Qed.

(** C37: An OCSP response is evidence for a certificate exactly when the issuer named
    on the certificate signed it, the response is successful and of the basic
    type, exactly one of its entries carries the certificate's serial number and
    the hashes of the issuer's name and key under a known digest, the issuer or
    a responder it delegated to, current at the time, signed the response, and
    the clock is inside the entry's and the production time's window with five
    minutes of skew (a day of age without a next update); the status returned
    is that entry's. *)
Theorem ocsp_evidence_exact clock d c i :
  (forall v, validate_ocsp_response clock d c i = Ok v ->
     exists cert issuer basic single responder is_issuer,
       ocsp_accepts clock d c i cert issuer basic single responder is_issuer /\
       vo_cert_status v = cert_status_of (sr_status single) /\
       vo_responder_is_issuer v = is_issuer /\ vo_delegated_responder v = negb is_issuer) /\
  (forall cert issuer basic single responder is_issuer,
     ocsp_accepts clock d c i cert issuer basic single responder is_issuer ->
     exists v, validate_ocsp_response clock d c i = Ok v).
Proof.
  split.
  - intros v. apply validate_ocsp_accepts.
  - intros cert issuer basic single responder b [Hc Hi Hn Hs (resp & body & Hr & Hst & Hb & Hbasic) Hf Hsel (tbs & key & sig & Ht & Hk & Hsig & Hv) Hfr].
    apply select_responder_exact in Hsel. apply (filter_only_one _ _ _ _ (bound_to_exact _ _)) in Hf.
    apply ocsp_freshness_exact in Hfr. eexists. unfold validate_ocsp_response.
    rewrite (verify_signature_der _ _ _ _ Hc Hi). unfold signed_by in Hs. run_chain. cbn [fst snd].
    rewrite String.eqb_refl. cbn [ensure mbind res_bind]. run_chain. rewrite Hf. cbn [ok_or mbind res_bind].
    run_chain. reflexivity.
Qed.
End ocsp.
