(* ===== verification/Chain.v ===== *)
(** * Certificate chain validation (marty-verification, [verification/chain.rs])

    The validator, its trust material and configuration, and every check of a
    parsed chain: validity, signatures, constraints, key usage, revocation and the
    end of the chain at a trust anchor.  A check's error is its text; the result
    collects all of them. *)

From stdpp Require Import pretty.
From S2P Require Import Prelude Des Governance Apdu X509 Revocation.
Local Open Scope Z_scope.

#[local] Abbreviation check := (res string).
#[local] Abbreviation bytes := (list Z).

Fixpoint join_sep (sep : string) (l : list string) : string :=
  match l with
  | [] => ""
  | [s] => s
  | s :: l => s +:+ sep +:+ join_sep sep l
  end.

(** [Display] of the error variants ([#[error("[{code}] ...")]]). *)
Definition verification_error_text (e : VerificationError) : string :=
  match e with
  | internal r => "[E999] Internal error: " +:+ r
  | pem_error r => "[E602] PEM encoding/decoding error: " +:+ r
  | der_error r => "[E601] DER encoding/decoding error: " +:+ r
  | io_error r => "[E901] I/O error: " +:+ r
  | trust_anchor_load r => "[E202] Failed to load trust anchor: " +:+ r
  | empty_registry => "[E203] Trust anchor registry contains no certificates. Load IACAs or CSCAs before verification."
  end.

(** [for (i, x) in l.iter().enumerate()] with an early return of an error. *)
Fixpoint each {E A} (f : Z -> A -> res E unit) (i : Z) (l : list A) : res E unit :=
  match l with
  | [] => Ok tt
  | x :: l => _ ← f i x; each f (i + 1) l
  end.

(** ** Data *)

(** [src/marty-verification/src/verification/chain.rs:22-36] ChainValidationResult *)
Record ChainValidationResult := mkChainResult {
  cv_valid : bool;
  cv_subject : option string;
  cv_issuer : option string;
  cv_chain_depth : Z;
  cv_errors : list string;
  cv_warnings : list string;
}.

(** [src/marty-verification/src/verification/chain.rs:52-58] ChainValidationResult::failure *)
Definition chain_failure (error : string) : ChainValidationResult :=
  mkChainResult false None None 0 [error] [].

Definition push_error (r : ChainValidationResult) (e : string) : ChainValidationResult :=
  mkChainResult false (cv_subject r) (cv_issuer r) (cv_chain_depth r) (cv_errors r ++ [e]) (cv_warnings r).
Definition push_warning (r : ChainValidationResult) (w : string) : ChainValidationResult :=
  mkChainResult (cv_valid r) (cv_subject r) (cv_issuer r) (cv_chain_depth r) (cv_errors r) (cv_warnings r ++ [w]).

(** [src/marty-verification/src/verification/chain.rs:68-88] KeyUsage *)
Inductive KeyUsage :=
| DigitalSignature | NonRepudiation | KeyEncipherment | DataEncipherment | KeyAgreement
| KeyCertSign | CrlSign | EncipherOnly | DecipherOnly.

Definition key_usage_debug (u : KeyUsage) : string :=
  match u with
  | DigitalSignature => "DigitalSignature"
  | NonRepudiation => "NonRepudiation"
  | KeyEncipherment => "KeyEncipherment"
  | DataEncipherment => "DataEncipherment"
  | KeyAgreement => "KeyAgreement"
  | KeyCertSign => "KeyCertSign"
  | CrlSign => "CrlSign"
  | EncipherOnly => "EncipherOnly"
  | DecipherOnly => "DecipherOnly"
  end.

(** [src/marty-verification/src/verification/chain.rs:91-103] ChainValidatorConfig *)
Record ChainValidatorConfig := mkChainConfig {
  check_crl : bool;
  check_ocsp : bool;
  revocation_mode : string;
  validation_moment : option Z;
  required_key_usage : list KeyUsage;
}.

(** [src/marty-verification/src/verification/chain.rs:105-115] ChainValidatorConfig::default *)
Definition default_chain_config : ChainValidatorConfig :=
  mkChainConfig false false "soft_fail" None [DigitalSignature].

(** The clocks read during a validation: [Utc::now] in nanoseconds, and the seconds
    since the epoch of the revocation checks. *)
Record Clocks := mkClocks { utc_now : Z; unix_now : option Z }.

Definition UNDERSTOOD_CRITICAL_EXTENSIONS : list string :=
  ["2.5.29.9"; "2.5.29.14"; "2.5.29.15"; "2.5.29.16"; "2.5.29.17"; "2.5.29.18"; "2.5.29.19";
   "2.5.29.30"; "2.5.29.31"; "2.5.29.32"; "2.5.29.33"; "2.5.29.35"; "2.5.29.36"; "2.5.29.37";
   "2.5.29.46"; "2.5.29.54"; "1.3.6.1.5.5.7.1.1"; "1.3.6.1.5.5.7.1.11"].
Definition UNIMPLEMENTED_CONSTRAINTS : list string :=
  ["2.5.29.30"; "2.5.29.33"; "2.5.29.36"; "2.5.29.54"].
Definition ID_CE_KEY_USAGE : string := "2.5.29.15".

Definition contains_str (l : list string) (s : string) : bool := existsb (String.eqb s) l.

Section chain.
Context `{Verifiers} `{PssDecoder} `{X509} `{!CrlCodec} `{!OcspCodec} `{Digests}.

(** [src/marty-verification/src/verification/chain.rs:118-129] ChainValidator *)
Record ChainValidator := mkChainValidator {
  trust_anchors : list Certificate;
  intermediates : list Certificate;
  chain_config : ChainValidatorConfig;
  crls : list bytes;
  ocsp_responses : list bytes;
}.

(** [src/marty-verification/src/verification/chain.rs:144-152] ChainValidator::with_config *)
Definition chain_with_config (config : ChainValidatorConfig) : ChainValidator :=
  mkChainValidator [] [] config [] [].

(** [src/marty-verification/src/verification/chain.rs:133-141] ChainValidator::new *)
Definition chain_new : ChainValidator := chain_with_config default_chain_config.

(** [src/marty-verification/src/verification/chain.rs:155-163] ChainValidator::configured *)
Definition configured (v : ChainValidator) (config : ChainValidatorConfig) : ChainValidator :=
  mkChainValidator (trust_anchors v) (intermediates v) config (crls v) (ocsp_responses v).

Definition push_anchor (v : ChainValidator) (c : Certificate) : ChainValidator :=
  mkChainValidator (trust_anchors v ++ [c]) (intermediates v) (chain_config v) (crls v) (ocsp_responses v).
Definition push_intermediate (v : ChainValidator) (c : Certificate) : ChainValidator :=
  mkChainValidator (trust_anchors v) (intermediates v ++ [c]) (chain_config v) (crls v) (ocsp_responses v).

(** [src/marty-verification/src/verification/chain.rs:166-172] ChainValidator::add_trust_anchor_pem *)
Definition add_trust_anchor_pem (v : ChainValidator) (pem : string) : res VerificationError ChainValidator :=
  cert ← lift_err (fun e => pem_error ("Invalid trust anchor PEM: " +:+ e)) (cert_from_pem pem);
  Ok (push_anchor v cert).

(** [src/marty-verification/src/verification/chain.rs:175-181] ChainValidator::add_trust_anchor_der *)
Definition add_trust_anchor_der (v : ChainValidator) (der : bytes) : res VerificationError ChainValidator :=
  cert ← lift_err (fun e => der_error ("Invalid trust anchor DER: " +:+ e)) (cert_from_der der);
  Ok (push_anchor v cert).

(** [src/marty-verification/src/verification/chain.rs:184-190] ChainValidator::add_intermediate_pem *)
Definition add_intermediate_pem (v : ChainValidator) (pem : string) : res VerificationError ChainValidator :=
  cert ← lift_err (fun e => pem_error ("Invalid intermediate PEM: " +:+ e)) (cert_from_pem pem);
  Ok (push_intermediate v cert).

(** [src/marty-verification/src/verification/chain.rs:193-199] ChainValidator::add_intermediate_der *)
Definition add_intermediate_der (v : ChainValidator) (der : bytes) : res VerificationError ChainValidator :=
  cert ← lift_err (fun e => der_error ("Invalid intermediate DER: " +:+ e)) (cert_from_der der);
  Ok (push_intermediate v cert).

(** [src/marty-verification/src/verification/chain.rs:202-207] ChainValidator::add_crl_der *)
Definition add_crl_der (v : ChainValidator) (der : bytes) : res VerificationError ChainValidator :=
  _ ← lift_err (fun e => der_error ("Invalid CRL DER: " +:+ e)) (crl_from_der der);
  Ok (mkChainValidator (trust_anchors v) (intermediates v) (chain_config v) (crls v ++ [der]) (ocsp_responses v)).

(** [src/marty-verification/src/verification/chain.rs:211-217] ChainValidator::add_ocsp_response_der *)
Definition add_ocsp_response_der (v : ChainValidator) (der : bytes) : res VerificationError ChainValidator :=
  _ ← map_err (fun e => der_error ("Invalid OCSP response DER: " +:+ crypto_error_text e)) (parse_ocsp_response der);
  Ok (mkChainValidator (trust_anchors v) (intermediates v) (chain_config v) (crls v) (ocsp_responses v ++ [der])).

(** ** The checks *)

(** [src/marty-verification/src/verification/chain.rs:817-830] verify_certificate_signature *)
Definition chain_verify_signature (subject issuer : Certificate) : res VerificationError unit :=
  valid ← map_err (fun e => internal (crypto_error_text e)) (verify_parsed_certificate_signature subject issuer);
  ensure valid (internal "Certificate signature verification failed").

Definition verifies (subject issuer : Certificate) : bool :=
  match chain_verify_signature subject issuer with Ok _ => true | _ => false end.

(** [src/marty-verification/src/verification/chain.rs:418-433] check_validity *)
Definition check_validity (cert : Certificate) (now : Z) : check unit :=
  if now <? 10 ^ 9 * cert_not_before cert then Err "Certificate not yet valid"
  else if 10 ^ 9 * cert_not_after cert <? now then Err "Certificate has expired"
  else Ok tt.

(** [src/marty-verification/src/verification/chain.rs:435-462] verify_chain_signatures *)
Fixpoint verify_chain_signatures (i : Z) (chain : list Certificate) : check unit :=
  match chain with
  | subject :: ((issuer :: _) as rest) =>
      _ ← ensure (bool_decide (cert_issuer subject = cert_subject issuer))
            ("Chain broken: cert " +:+ pretty i +:+ " issuer '" +:+ name_text (cert_issuer subject)
             +:+ "' != cert " +:+ pretty (i + 1) +:+ " subject '" +:+ name_text (cert_subject issuer) +:+ "'");
      _ ← map_err (fun e => "Signature verification failed for cert " +:+ pretty i +:+ ": "
                             +:+ verification_error_text e) (chain_verify_signature subject issuer);
      verify_chain_signatures (i + 1) rest
  | _ => Ok tt
  end.

(** The extensions of one certificate, with the identifiers seen before. *)
Fixpoint check_extensions (index : Z) (seen : list string) (exts : list Extension) : check unit :=
  match exts with
  | [] => Ok tt
  | ext :: exts =>
      let oid := extn_id ext in
      _ ← ensure (negb (contains_str seen oid))
            ("Certificate " +:+ pretty index +:+ " has duplicate extension " +:+ oid);
      _ ← ensure (negb (critical ext && negb (contains_str UNDERSTOOD_CRITICAL_EXTENSIONS oid)))
            ("Certificate " +:+ pretty index +:+ " has unsupported critical extension " +:+ oid);
      _ ← ensure (negb (contains_str UNIMPLEMENTED_CONSTRAINTS oid))
            ("Certificate " +:+ pretty index +:+ " contains constraint extension " +:+ oid
             +:+ " that cannot yet be safely enforced");
      check_extensions index (oid :: seen) exts
  end.

(** The body of the first loop of [check_chain_constraints]. *)
Definition check_certificate (several : bool) (index : Z) (cert : Certificate) : check unit :=
  _ ← ensure (String.eqb (alg_oid (tbs_signature cert)) (alg_oid (signature_algorithm cert)))
        ("Certificate " +:+ pretty index +:+ " inner and outer signature algorithms differ");
  _ ← check_extensions index [] (default [] (cert_extensions cert));
  if (index =? 0) && several then
    bc ← lift_err (fun e => "Invalid end-entity BasicConstraints: " +:+ e) (get_basic_constraints cert);
    ensure (negb (from_option ca false bc)) "End-entity certificate is marked as a CA"
  else Ok tt.

(** [chain[1..issuer_index]], the certificates that are not self-issued. *)
Definition subordinate_ca_count (chain : list Certificate) (issuer_index : Z) : Z :=
  zlen (List.filter (fun c => negb (bool_decide (cert_subject c = cert_issuer c)))
          (take (Z.to_nat (issuer_index - 1)) (drop 1 chain))).

(** The body of the second loop of [check_chain_constraints]. *)
Definition check_issuer (chain : list Certificate) (index : Z) (issuer : Certificate) : check unit :=
  bc ← lift_err (fun e => "Invalid BasicConstraints on CA certificate " +:+ pretty index +:+ ": " +:+ e)
         (get_basic_constraints issuer);
  bc ← ok_or bc ("CA certificate " +:+ pretty index +:+ " lacks BasicConstraints");
  _ ← ensure (ca bc) ("Certificate " +:+ pretty index +:+ " is not authorized as a CA");
  ku ← lift_err (fun e => "Invalid KeyUsage on CA certificate " +:+ pretty index +:+ ": " +:+ e)
         (get_key_usage issuer);
  _ ← ensure (from_option key_cert_sign true ku)
        ("CA certificate " +:+ pretty index +:+ " KeyUsage lacks keyCertSign");
  match path_len_constraint bc with
  | Some path_len =>
      ensure (subordinate_ca_count chain index <=? path_len)
        ("CA certificate " +:+ pretty index +:+ " pathLenConstraint " +:+ pretty path_len +:+ " was exceeded")
  | None => Ok tt
  end.

(** [src/marty-verification/src/verification/chain.rs:464-577] check_chain_constraints *)
Definition check_chain_constraints (chain : list Certificate) : check unit :=
  _ ← each (check_certificate (1 <? zlen chain)) 0 chain;
  each (check_issuer chain) 1 (drop 1 chain).

(** The anchors with the subject of a self-issued last certificate. *)
Fixpoint same_anchor (last : Certificate) (anchors : list Certificate) : check bool :=
  match anchors with
  | [] => Ok false
  | anchor :: anchors =>
      if bool_decide (cert_subject anchor = cert_subject last) then
        last_der ← lift_err (fun e => "Failed to encode chain root: " +:+ e) (cert_to_der last);
        anchor_der ← lift_err (fun e => "Failed to encode trust anchor: " +:+ e) (cert_to_der anchor);
        if bool_decide (last_der = anchor_der) then Ok true else same_anchor last anchors
      else same_anchor last anchors
  end.

(** The certificate is signed by one of the anchors, which bears its issuer's name. *)
Definition signed_by_one_of (anchors : list Certificate) (cert : Certificate) : bool :=
  existsb (fun a => bool_decide (cert_subject a = cert_issuer cert) && verifies cert a) anchors.

(** [src/marty-verification/src/verification/chain.rs:579-641] verify_trust_anchor *)
Definition verify_trust_anchor (v : ChainValidator) (chain : list Certificate) : check unit :=
  _ ← ensure (negb (bool_decide (trust_anchors v = []))) "No trust anchors configured";
  last ← ok_or (last chain) "Certificate chain is empty";
  same ← if bool_decide (cert_issuer last = cert_subject last) then same_anchor last (trust_anchors v)
         else Ok false;
  if (same : bool) then Ok tt
  else if signed_by_one_of (trust_anchors v) last then Ok tt
  else if existsb (fun i => bool_decide (cert_subject i = cert_issuer last) && verifies last i
                            && signed_by_one_of (trust_anchors v) i) (intermediates v) then Ok tt
  else Err ("No trust anchor found for issuer: " +:+ name_text (cert_issuer last)).

(** The byte and the mask of a usage in the bit string. *)
Definition usage_bit (u : KeyUsage) : Z * Z :=
  match u with
  | DigitalSignature => (0, 128)
  | NonRepudiation => (0, 64)
  | KeyEncipherment => (0, 32)
  | DataEncipherment => (0, 16)
  | KeyAgreement => (0, 8)
  | KeyCertSign => (0, 4)
  | CrlSign => (0, 2)
  | EncipherOnly => (0, 1)
  | DecipherOnly => (1, 128)
  end.

Definition has_usage (raw : bytes) (u : KeyUsage) : bool :=
  let '(byte_idx, bit_mask) := usage_bit u in
  negb (Z.land (default 0 (raw !! Z.to_nat byte_idx)) bit_mask =? 0).

Fixpoint require_usages (raw : bytes) (us : list KeyUsage) : check unit :=
  match us with
  | [] => Ok tt
  | u :: us =>
      _ ← ensure (has_usage raw u) ("Certificate missing required key usage: " +:+ key_usage_debug u);
      require_usages raw us
  end.

(** [src/marty-verification/src/verification/chain.rs:643-698] check_key_usage *)
Definition check_key_usage (v : ChainValidator) (cert : Certificate) : check unit :=
  let required := required_key_usage (chain_config v) in
  match required with
  | [] => Ok tt
  | _ =>
      match cert_extensions cert with
      | None => Ok tt
      | Some exts =>
          match find (fun ext => String.eqb (extn_id ext) ID_CE_KEY_USAGE) exts with
          | None => Ok tt
          | Some ext =>
              raw ← lift_err (fun e => "Failed to parse KeyUsage extension: " +:+ e)
                      (bit_string_from_der (extn_value ext));
              require_usages raw required
          end
      end
  end.

(** [src/marty-verification/src/verification/chain.rs:798-807] is_configured_trust_anchor *)
Definition is_configured_trust_anchor (v : ChainValidator) (cert : Certificate) : bool :=
  match cert_to_der cert with
  | inl _ => false
  | inr der =>
      existsb (fun a => match cert_to_der a with inr d => bool_decide (d = der) | inl _ => false end)
        (trust_anchors v)
  end.

(** The candidate issuers: anchors, then intermediates, then the chain. *)
Definition issuers_of (v : ChainValidator) (cert : Certificate) (chain : list Certificate) : list Certificate :=
  List.filter (fun c => bool_decide (cert_subject c = cert_issuer cert))
    (trust_anchors v ++ intermediates v ++ chain).

(** The two loops over the evidence and the issuers: [judge] says what a pair
    shows, [encode_error] and [missing] are the texts of the errors. *)
Inductive Verdict := VGood | VRevoked | VFailed (message : string).

Fixpoint scan_evidence (judge : bytes -> bytes -> Verdict) (encode_error missing : string -> string)
    (pairs : list (bytes * Certificate)) (good : bool) (failures : list string) : check bool :=
  match pairs with
  | [] => if good then Ok false else Err (missing (join_sep "; " failures))
  | (evidence, issuer) :: pairs =>
      issuer_der ← lift_err encode_error (cert_to_der issuer);
      match judge evidence issuer_der with
      | VGood => scan_evidence judge encode_error missing pairs true failures
      | VRevoked => Ok true
      | VFailed m => scan_evidence judge encode_error missing pairs good (failures ++ [m])
      end
  end.

Definition all_pairs (evidence : list bytes) (issuers : list Certificate) : list (bytes * Certificate) :=
  evidence ≫= fun e => (fun i => (e, i)) <$> issuers.

Definition crl_verdict (clk : Clocks) (cert_der crl issuer_der : bytes) : Verdict :=
  match validate_crl_for_certificate (unix_now clk) crl cert_der issuer_der with
  | Ok status => if cs_revoked status then VRevoked else VGood
  | Err e => VFailed (crypto_error_text e)
  | Panic => VFailed ""
  end.

(** [src/marty-verification/src/verification/chain.rs:700-746] check_revocation *)
Definition check_revocation (clk : Clocks) (v : ChainValidator) (chain : list Certificate) (cert : Certificate) :
    check bool :=
  cert_der ← lift_err (fun e => "Failed to encode certificate for revocation check: " +:+ e) (cert_to_der cert);
  let issuers := issuers_of v cert chain in
  _ ← ensure (negb (bool_decide (issuers = []))) "No issuer certificate is available for CRL authentication";
  scan_evidence (crl_verdict clk cert_der)
    (fun e => "Failed to encode CRL issuer: " +:+ e)
    (fun e => "No authenticated, current CRL matched the certificate: " +:+ e)
    (all_pairs (crls v) issuers) false [].

Definition ocsp_verdict (clk : Clocks) (cert_der response issuer_der : bytes) : Verdict :=
  match validate_ocsp_response (unix_now clk) response cert_der issuer_der with
  | Ok r =>
      match vo_cert_status r with
      | OcspGood => VGood
      | OcspRevoked _ _ => VRevoked
      | OcspUnknown => VFailed "authenticated responder returned unknown certificate status"
      end
  | Err e => VFailed (crypto_error_text e)
  | Panic => VFailed ""
  end.

(** [src/marty-verification/src/verification/chain.rs:748-796] check_ocsp_status *)
Definition check_ocsp_status (clk : Clocks) (v : ChainValidator) (chain : list Certificate) (cert : Certificate) :
    check bool :=
  cert_der ← lift_err (fun e => "Failed to encode certificate for OCSP: " +:+ e) (cert_to_der cert);
  let issuers := issuers_of v cert chain in
  _ ← ensure (negb (bool_decide (issuers = []))) "No issuer certificate is available for OCSP authentication";
  scan_evidence (ocsp_verdict clk cert_der)
    (fun e => "Failed to encode OCSP issuer: " +:+ e)
    (fun e => "No authenticated, current OCSP response matched the certificate: " +:+ e)
    (all_pairs (ocsp_responses v) issuers) false [].

(** ** The validation of a parsed chain *)

(** [if revocation_mode == "hard_fail" { error } else { warning }] *)
Definition revocation_issue (v : ChainValidator) (r : ChainValidationResult) (message : string) :
    ChainValidationResult :=
  if String.eqb (revocation_mode (chain_config v)) "hard_fail" then push_error r message
  else push_warning r message.

(** One kind of revocation check over the chain. *)
Definition revocation_step (v : ChainValidator) (status : Certificate -> check bool)
    (revoked : Z -> string) (failed : Z -> string -> string)
    (r : ChainValidationResult) (i : Z) (cert : Certificate) : ChainValidationResult :=
  if is_configured_trust_anchor v cert then r
  else match status cert with
       | Ok false => r
       | Ok true => revocation_issue v r (revoked i)
       | Err e => revocation_issue v r (failed i e)
       | Panic => r
       end.

Fixpoint fold_chain {A} (f : A -> Z -> Certificate -> A) (a : A) (i : Z) (chain : list Certificate) : A :=
  match chain with
  | [] => a
  | c :: chain => fold_chain f (f a i c) (i + 1) chain
  end.

Definition check_revocations (v : ChainValidator) (enabled : bool) (evidence : list bytes) (none : string)
    (step : ChainValidationResult -> Z -> Certificate -> ChainValidationResult)
    (chain : list Certificate) (r : ChainValidationResult) : ChainValidationResult :=
  if enabled then
    match evidence with
    | [] => revocation_issue v r none
    | _ => fold_chain step r 0 chain
    end
  else r.

(** [if let Err(e) = ... { result.valid = false; result.errors.push(...) }] *)
Definition record_error (r : ChainValidationResult) (c : check unit) (text : string -> string) :
    ChainValidationResult :=
  match c with Err e => push_error r (text e) | _ => r end.

Definition validity_step (now : Z) (r : ChainValidationResult) (i : Z) (cert : Certificate) :
    ChainValidationResult :=
  record_error r (check_validity cert now) (fun e => "Certificate " +:+ pretty i +:+ ": " +:+ e).

Definition key_usage_step (v : ChainValidator) (r : ChainValidationResult) (cert : Certificate) :
    ChainValidationResult :=
  match check_key_usage v cert with
  | Err e =>
      match required_key_usage (chain_config v) with
      | [] => push_warning r ("Key usage check: " +:+ e)
      | _ => push_error r ("Key usage: " +:+ e)
      end
  | _ => r
  end.

(** [src/marty-verification/src/verification/chain.rs:280-416] validate_parsed_chain *)
Definition validate_parsed_chain (clk : Clocks) (v : ChainValidator) (chain : list Certificate) :
    res VerificationError ChainValidationResult :=
  end_entity ← vec_index chain 0;
  let r := mkChainResult true (Some (name_text (cert_subject end_entity)))
             (Some (name_text (cert_issuer end_entity))) (zlen chain) [] [] in
  let now := default (utc_now clk) (validation_moment (chain_config v)) in
  let r := fold_chain (validity_step now) r 0 chain in
  let r := record_error r (verify_chain_signatures 0 chain) (fun e => e) in
  let r := record_error r (check_chain_constraints chain) (fun e => e) in
  let r := key_usage_step v r end_entity in
  let r := check_revocations v (check_crl (chain_config v)) (crls v)
             "CRL checking requested but no CRL evidence was supplied"
             (revocation_step v (check_revocation clk v chain)
                (fun i => "Certificate " +:+ pretty i +:+ " is revoked")
                (fun i e => "Revocation check failed for certificate " +:+ pretty i +:+ ": " +:+ e))
             chain r in
  let r := check_revocations v (check_ocsp (chain_config v)) (ocsp_responses v)
             "OCSP checking requested but no certificate-bound response evidence was supplied"
             (revocation_step v (check_ocsp_status clk v chain)
                (fun i => "Certificate " +:+ pretty i +:+ " is revoked by OCSP")
                (fun i e => "OCSP check failed for certificate " +:+ pretty i +:+ ": " +:+ e))
             chain r in
  Ok (record_error r (verify_trust_anchor v chain) (fun e => e)).

(** The parsing loop of both entry points. *)
Fixpoint parse_chain {A} (parse : A -> string + Certificate) (error : string -> VerificationError)
    (i : Z) (l : list A) : res VerificationError (list Certificate) :=
  match l with
  | [] => Ok []
  | x :: l =>
      cert ← lift_err (fun e => error ("Failed to parse certificate " +:+ pretty i +:+ " in chain: " +:+ e)) (parse x);
      rest ← parse_chain parse error (i + 1) l;
      Ok (cert :: rest)
  end.

(** [src/marty-verification/src/verification/chain.rs:222-245] validate_chain *)
Definition validate_chain (clk : Clocks) (v : ChainValidator) (chain_pem : list string) :
    res VerificationError ChainValidationResult :=
  match chain_pem with
  | [] => Ok (chain_failure "Empty certificate chain")
  | _ => chain ← parse_chain cert_from_pem pem_error 0 chain_pem; validate_parsed_chain clk v chain
  end.

(** [src/marty-verification/src/verification/chain.rs:248-270] validate_chain_der *)
Definition validate_chain_der (clk : Clocks) (v : ChainValidator) (chain_der : list bytes) :
    res VerificationError ChainValidationResult :=
  match chain_der with
  | [] => Ok (chain_failure "Empty certificate chain")
  | _ => chain ← parse_chain cert_from_der der_error 0 chain_der; validate_parsed_chain clk v chain
  end.

(** [src/marty-verification/src/verification/chain.rs:273-278] validate_certificate *)
Definition validate_certificate (clk : Clocks) (v : ChainValidator) (cert_pem : string) :
    res VerificationError ChainValidationResult :=
  validate_chain clk v [cert_pem].
End chain.
