(* ===== verification/ChainFacts.v ===== *)
(** * Correctness of chain validation

    A declarative account of the paths that the validator accepts, and the proof
    that its verdict is exactly that account. *)

From stdpp Require Import pretty.
From S2P Require Import Prelude Des Governance Apdu X509 Revocation RevocationFacts Chain.
Local Open Scope Z_scope.

Lemma each_Ok {E A} (f : Z -> A -> res E unit) l : forall i,
  each f i l = Ok tt <-> forall j x, l !! j = Some x -> f (i + Z.of_nat j) x = Ok tt.
Proof.
  induction l as [|x l IH]; intros i; cbn [each].
  - split; [|done]. intros _ j x Hj. by rewrite lookup_nil in Hj.
  - split.
    + intros ([] & Hx & Hl)%bind_Ok [|j] y Hj; cbn in Hj.
      * injection Hj as <-. by rewrite Z.add_0_r.
      * rewrite IH in Hl. rewrite <- (Hl j y Hj). f_equal. lia.
    + intros Hall. rewrite bind_Ok. exists tt. split.
      * rewrite <- (Hall 0%nat x eq_refl). f_equal. lia.
      * apply IH. intros j y Hj. rewrite <- (Hall (S j) y Hj). f_equal. lia.
Qed.

Lemma contains_str_spec l s : contains_str l s = true <-> s ∈ l.
Proof. apply existsb_eqb. Qed.

Section chain.
Context `{Verifiers} `{PssDecoder} `{X509} `{!CrlCodec} `{!OcspCodec} `{Digests}.

(** ** What an accepted path is *)

Definition within_validity (now : Z) (c : Certificate) : Prop :=
  10 ^ 9 * cert_not_before c <= now <= 10 ^ 9 * cert_not_after c.

(** Each certificate is issued, by name and by signature, by the next one. *)
Definition linked (chain : list Certificate) : Prop :=
  forall i s t, chain !! i = Some s -> chain !! S i = Some t ->
    cert_issuer s = cert_subject t /\ signed_by s t.

(** Extensions: none twice, critical ones understood, and no constraint that is not
    enforced. *)
Definition extensions_ok (c : Certificate) : Prop :=
  NoDup (map extn_id (default [] (cert_extensions c))) /\
  forall e, e ∈ default [] (cert_extensions c) ->
    (critical e = true -> extn_id e ∈ UNDERSTOOD_CRITICAL_EXTENSIONS) /\
    extn_id e ∉ UNIMPLEMENTED_CONSTRAINTS.

(** An issuer at a position of the path: a certification authority that may sign
    certificates, with no more subordinate authorities than it allows. *)
Definition issuer_ok (chain : list Certificate) (i : nat) (c : Certificate) : Prop :=
  exists bc ku, get_basic_constraints c = inr (Some bc) /\ ca bc = true /\
    get_key_usage c = inr ku /\ from_option key_cert_sign true ku = true /\
    forall n, path_len_constraint bc = Some n -> subordinate_ca_count chain (Z.of_nat i) <= n.

Record constraints_ok (chain : list Certificate) : Prop := {
  co_algorithms : forall c, c ∈ chain -> alg_oid (tbs_signature c) = alg_oid (signature_algorithm c);
  co_extensions : forall c, c ∈ chain -> extensions_ok c;
  co_end_entity : forall c d rest, chain = c :: d :: rest ->
    exists bc, get_basic_constraints c = inr bc /\ from_option ca false bc = false;
  co_issuers : forall i c, chain !! S i = Some c -> issuer_ok chain (S i) c;
}.

(** The end of the path: an anchor itself, a certificate signed by an anchor, or one
    signed by a configured intermediate that an anchor signed. *)
Inductive anchored (v : ChainValidator) (last : Certificate) : Prop :=
| anchored_same anchor der : anchor ∈ trust_anchors v -> cert_issuer last = cert_subject last ->
    cert_subject anchor = cert_subject last -> cert_to_der last = inr der -> cert_to_der anchor = inr der ->
    anchored v last
| anchored_by anchor : anchor ∈ trust_anchors v -> cert_subject anchor = cert_issuer last ->
    signed_by last anchor -> anchored v last
| anchored_through i anchor : i ∈ intermediates v -> cert_subject i = cert_issuer last -> signed_by last i ->
    anchor ∈ trust_anchors v -> cert_subject anchor = cert_issuer i -> signed_by i anchor ->
    anchored v last.

(** ** Signatures *)

Lemma chain_verify_signature_exact s t : chain_verify_signature s t = Ok tt <-> signed_by s t.
Proof.
  unfold chain_verify_signature, signed_by. rewrite bind_Ok. setoid_rewrite map_err_Ok.
  setoid_rewrite ensure_unit. naive_solver.
Qed.

Lemma verifies_spec s t : verifies s t = true <-> signed_by s t.
Proof.
  rewrite <- chain_verify_signature_exact. unfold verifies.
  destruct (chain_verify_signature s t) as [[]| |]; naive_solver.
Qed.

Lemma linked_cons c d rest :
  linked (c :: d :: rest) <-> cert_issuer c = cert_subject d /\ signed_by c d /\ linked (d :: rest).
Proof.
  split.
  - intros Hl. destruct (Hl 0%nat c d eq_refl eq_refl). split_and!; [done..|].
    intros i s t Hs Ht. by apply (Hl (S i)).
  - intros (Hn & Hs & Hl) [|i] s t Hi Hj; [naive_solver|]. by apply (Hl i).
Qed.

Lemma chain_signatures_exact chain : forall i, verify_chain_signatures i chain = Ok tt <-> linked chain.
Proof.
  induction chain as [|c [|d rest] IH]; intros i.
  - split; [|done]. intros _ i' s t Hs. by rewrite lookup_nil in Hs.
  - split; [|done]. by intros _ [|i'] s t Hs Ht.
  - cbn [verify_chain_signatures]. rewrite bind_ensure_Ok, bool_decide_eq_true, linked_cons, bind_Ok.
    setoid_rewrite map_err_Ok. rewrite <- chain_verify_signature_exact, <- (IH (i + 1)).
    split; [intros (Hn & [] & Hs & Hl)|intros (Hn & Hs & Hl)]; split_and?; eauto.
Qed.

(** ** Constraints *)

Lemma check_extensions_exact i exts : forall seen,
  check_extensions i seen exts = Ok tt <->
  NoDup (map extn_id exts) /\
  (forall e, e ∈ exts -> (extn_id e ∉ seen) /\ (critical e = true -> extn_id e ∈ UNDERSTOOD_CRITICAL_EXTENSIONS) /\
     extn_id e ∉ UNIMPLEMENTED_CONSTRAINTS).
Proof.
  induction exts as [|e exts IH]; intros seen; cbn [check_extensions map].
  - split; [|done]. intros _. split; [constructor|]. intros e He. by apply elem_of_nil in He.
  - rewrite !bind_ensure_Ok, IH, NoDup_cons.
    rewrite !negb_true_iff, andb_false_iff, negb_false_iff, <- !not_true_iff_false, !contains_str_spec.
    split.
    + intros (Hs & Hc & Hu & Hnd & Hall). split; [split; [|done]|].
      * intros (x & He & Hx)%list_elem_of_fmap. destruct (Hall x Hx) as [Hn _]. apply Hn. rewrite <- He. by left.
      * intros x [->|Hx]%elem_of_cons; [split_and!; [done| |done]; by destruct Hc|].
        destruct (Hall x Hx) as (Hn & ? & ?). split_and!; [|done..]. intros Hin. apply Hn. by right.
    + intros ([Hn Hnd] & Hall). destruct (Hall e ltac:(by left)) as (Hs & Hc & Hu).
      split_and!; [done| |done|done|].
      * destruct (critical e); [right; by apply Hc|left; done].
      * intros x Hx. destruct (Hall x ltac:(by right)) as (? & ? & ?). split_and!; [|done..].
        intros [He|Hin]%elem_of_cons; [|done]. apply Hn. rewrite <- He. by apply list_elem_of_fmap_2.
Qed.

Lemma extensions_exact i c :
  check_extensions i [] (default [] (cert_extensions c)) = Ok tt <-> extensions_ok c.
Proof.
  rewrite check_extensions_exact. unfold extensions_ok.
  split; intros [Hnd Hall]; (split; [done|]); intros e He; destruct (Hall e He) as [Ha Hb].
  - done.
  - split; [apply not_elem_of_nil|done].
Qed.

Lemma check_issuer_exact chain i c :
  check_issuer chain (Z.of_nat i) c = Ok tt <-> issuer_ok chain i c.
Proof.
  split.
  - intros Hc. unfold check_issuer in Hc. lift_inv. eexists _, _. split_and!; try eassumption.
    intros n Hn. rewrite Hn in Hc. apply ensure_unit in Hc. lia.
  - intros (bc & ku & Hbc & Hca & Hku & Hs & Hn). unfold check_issuer. run_chain.
    destruct (path_len_constraint bc) as [n|]; [|done]. apply ensure_unit. pose proof (Hn n eq_refl). lia.
Qed.

Lemma check_certificate_exact several i c :
  check_certificate several i c = Ok tt <->
  alg_oid (tbs_signature c) = alg_oid (signature_algorithm c) /\ extensions_ok c /\
  ((i =? 0) && several = true -> exists bc, get_basic_constraints c = inr bc /\ from_option ca false bc = false).
Proof.
  unfold check_certificate. rewrite bind_ensure_Ok, String.eqb_eq, bind_Ok.
  assert (forall P, (exists u, check_extensions i [] (default [] (cert_extensions c)) = Ok u /\ P) <->
            extensions_ok c /\ P) as Hext.
  { intros P. rewrite <- (extensions_exact i). split; [intros ([] & ? & ?); done|intros [? ?]; by exists tt]. }
  rewrite Hext. apply and_iff_compat_l, and_iff_compat_l.
  destruct ((i =? 0) && several); [|done]. rewrite bind_Ok. split.
  - intros (bc & Hbc%lift_err_Ok & Hca%ensure_unit) _. exists bc. split; [done|]. by apply negb_true_iff.
  - intros Hx. destruct (Hx eq_refl) as (bc & Hbc & Hca). exists bc. rewrite lift_err_Ok. split; [done|].
    rewrite Hca. done.
Qed.

Lemma chain_constraints_exact chain : check_chain_constraints chain = Ok tt <-> constraints_ok chain.
Proof.
  unfold check_chain_constraints. rewrite bind_Ok.
  assert (forall Q, (exists u, each (check_certificate (1 <? zlen chain)) 0 chain = Ok u /\ Q) <->
            each (check_certificate (1 <? zlen chain)) 0 chain = Ok tt /\ Q) as ->.
  { intros Q. split; [intros ([] & ? & ?); done|intros [? ?]; by exists tt]. }
  rewrite !each_Ok. setoid_rewrite check_certificate_exact. split.
  - intros [Hc Hi]. split.
    + intros c [j Hj]%list_elem_of_lookup. apply (Hc j c Hj).
    + intros c [j Hj]%list_elem_of_lookup. apply (Hc j c Hj).
    + intros c d rest ->. apply (Hc 0%nat c eq_refl).
      apply andb_true_iff. split; [done|]. apply Z.ltb_lt. unfold zlen. rewrite !length_cons. lia.
    + intros i c Hl. apply check_issuer_exact. rewrite <- (Hi i c); [f_equal; lia|].
      rewrite lookup_drop. done.
  - intros [Ha He Hend Hiss]. split.
    + intros j c Hj. pose proof (list_elem_of_lookup_2 _ _ _ Hj) as Hin. split_and!; [by apply Ha|by apply He|].
      intros [Hz Hlen]%andb_true_iff. assert (j = 0%nat) as -> by lia.
      destruct chain as [|x [|y rest]]; [done|done|]. injection Hj as ->. by eapply Hend.
    + intros j c Hj. rewrite lookup_drop in Hj. specialize (Hiss j c Hj). apply check_issuer_exact in Hiss.
      rewrite <- Hiss. f_equal. lia.
Qed.

(** ** The end of the path *)

Lemma same_anchor_spec last anchors b : same_anchor last anchors = Ok b ->
  b = true <-> exists a der, a ∈ anchors /\ cert_subject a = cert_subject last /\
    cert_to_der last = inr der /\ cert_to_der a = inr der.
Proof.
  induction anchors as [|a anchors IH]; cbn [same_anchor].
  - intros [= <-]. split; [done|]. intros (? & ? & Hin & _). by apply elem_of_nil in Hin.
  - assert (forall P : Certificate -> Prop, (exists x, x ∈ a :: anchors /\ P x) <-> P a \/ exists x, x ∈ anchors /\ P x) as Hex.
    { intros P. setoid_rewrite elem_of_cons. naive_solver. }
    intros Hs. trans (exists x, x ∈ a :: anchors /\ exists der, cert_subject x = cert_subject last /\
      cert_to_der last = inr der /\ cert_to_der x = inr der); [|naive_solver]. rewrite Hex.
    case_bool_decide as Hsub.
    + apply bind_Ok in Hs as (ld & Hld%lift_err_Ok & Hs). apply bind_Ok in Hs as (ad & Had%lift_err_Ok & Hs).
      case_bool_decide as Hd.
      * injection Hs as <-. split; [|done]. intros _. left. exists ld. subst ad. done.
      * rewrite (IH Hs). split; [naive_solver|]. intros [(der & _ & E1 & E2)|Hx]; [congruence|naive_solver].
    + rewrite (IH Hs). split; [naive_solver|]. intros [(der & E1 & _)|Hx]; [congruence|naive_solver].
Qed.

(** Encoding a parsed certificate succeeds. *)
Definition encodes (c : Certificate) : Prop := exists der, cert_to_der c = inr der.

Lemma same_anchor_runs last anchors : encodes last -> Forall encodes anchors ->
  exists b, same_anchor last anchors = Ok b.
Proof.
  intros [ld Hld]. induction 1 as [|a anchors [ad Had] _ [b IH]]; cbn [same_anchor]; [by eexists|].
  case_bool_decide; [|by exists b]. run_chain. case_bool_decide; eauto.
Qed.

Lemma signed_by_one_of_spec anchors c :
  signed_by_one_of anchors c = true <->
  exists a, a ∈ anchors /\ cert_subject a = cert_issuer c /\ signed_by c a.
Proof.
  unfold signed_by_one_of. rewrite existsb_exists. setoid_rewrite <- list_elem_of_In.
  setoid_rewrite andb_true_iff. setoid_rewrite bool_decide_eq_true. by setoid_rewrite verifies_spec.
Qed.

Lemma signed_through_spec v c :
  existsb (fun i => bool_decide (cert_subject i = cert_issuer c) && verifies c i
                    && signed_by_one_of (trust_anchors v) i) (intermediates v) = true <->
  exists i, i ∈ intermediates v /\ cert_subject i = cert_issuer c /\ signed_by c i /\
    exists a, a ∈ trust_anchors v /\ cert_subject a = cert_issuer i /\ signed_by i a.
Proof.
  rewrite existsb_exists. setoid_rewrite <- list_elem_of_In. setoid_rewrite andb_true_iff.
  setoid_rewrite andb_true_iff. setoid_rewrite bool_decide_eq_true. setoid_rewrite verifies_spec.
  setoid_rewrite signed_by_one_of_spec.
  split; intros (i & Hi & Hx); exists i; (split; [done|]); naive_solver.
Qed.

Lemma anchored_cases v c :
  anchored v c <->
  (cert_issuer c = cert_subject c /\ exists a der, a ∈ trust_anchors v /\ cert_subject a = cert_subject c /\
     cert_to_der c = inr der /\ cert_to_der a = inr der) \/
  (exists a, a ∈ trust_anchors v /\ cert_subject a = cert_issuer c /\ signed_by c a) \/
  (exists i, i ∈ intermediates v /\ cert_subject i = cert_issuer c /\ signed_by c i /\
    exists a, a ∈ trust_anchors v /\ cert_subject a = cert_issuer i /\ signed_by i a).
Proof.
  split.
  - destruct 1; [left|right; left|right; right]; eauto 12.
  - intros [(Hs & a & der & Ha)|[(a & Ha)|(i & Hi & Hn & Hs & a & Ha)]]; destruct_and!;
      [eapply anchored_same|eapply anchored_by|eapply anchored_through]; eauto.
Qed.

Lemma anchored_nonempty v c : anchored v c -> trust_anchors v ≠ [].
Proof. destruct 1; intros Hnil; rewrite Hnil in *; by eapply not_elem_of_nil. Qed.

Lemma trust_anchor_exact v chain c :
  last chain = Some c -> encodes c -> Forall encodes (trust_anchors v) ->
  verify_trust_anchor v chain = Ok tt <-> anchored v c.
Proof.
  intros Hlast Hc Hanchors. unfold verify_trust_anchor. rewrite bind_ensure_Ok, negb_true_iff, bool_decide_eq_false, Hlast.
  cbn [ok_or mbind res_bind].
  destruct (same_anchor_runs c (trust_anchors v) Hc Hanchors) as [same Hsame].
  pose proof (same_anchor_spec _ _ _ Hsame) as Hspec. rewrite Hsame.
  assert (forall P Q : Prop, (Q -> P) -> (P /\ Q <-> Q)) as Hand by tauto.
  rewrite anchored_cases, <- Hspec, <- signed_by_one_of_spec, <- signed_through_spec.
  assert ((if bool_decide (cert_issuer c = cert_subject c) then Ok same else Ok false)
          = Ok (E := string) (bool_decide (cert_issuer c = cert_subject c) && same)) as -> by (by case_bool_decide).
  cbn [mbind res_bind].
  trans (trust_anchors v ≠ [] /\ anchored v c); [|rewrite Hand by apply anchored_nonempty].
  - apply and_iff_compat_l. rewrite anchored_cases, <- Hspec, <- signed_by_one_of_spec, <- signed_through_spec.
    clear. case_bool_decide; destruct same, (signed_by_one_of (trust_anchors v) c), (existsb _ _);
      cbn [andb]; intuition congruence.
  - by rewrite anchored_cases, <- Hspec, <- signed_by_one_of_spec, <- signed_through_spec.
Qed.

(** ** Key usage *)

(** The usages required of the end entity, when its first key usage extension
    restricts it. *)
Definition usage_ok (v : ChainValidator) (c : Certificate) : Prop :=
  let required := required_key_usage (chain_config v) in
  forall exts ext, required ≠ [] -> cert_extensions c = Some exts ->
    find (fun ext => String.eqb (extn_id ext) ID_CE_KEY_USAGE) exts = Some ext ->
    exists raw, bit_string_from_der (extn_value ext) = inr raw /\ forall u, u ∈ required -> has_usage raw u = true.

Lemma require_usages_exact raw us : require_usages raw us = Ok tt <-> forall u, u ∈ us -> has_usage raw u = true.
Proof.
  induction us as [|u us IH]; cbn [require_usages].
  - split; [|done]. intros _ u Hu. by apply elem_of_nil in Hu.
  - rewrite bind_ensure_Ok, IH. setoid_rewrite elem_of_cons. split; [|auto].
    intros [Hu Hus] x [->|Hx]; auto.
Qed.

Lemma key_usage_exact v c : check_key_usage v c = Ok tt <-> usage_ok v c.
Proof.
  unfold check_key_usage, usage_ok. destruct (required_key_usage (chain_config v)) as [|u us]; [split; [done|done]|].
  destruct (cert_extensions c) as [exts|]; [|split; [done|done]].
  destruct (find _ exts) as [ext|] eqn:Hf; [|split; [|done]; intros _ exts' ext _ [= <-]; congruence].
  rewrite bind_Ok. setoid_rewrite lift_err_Ok. setoid_rewrite require_usages_exact. split.
  - intros (raw & Hr & Hu) exts' ext' _ [= <-]. rewrite Hf. intros [= <-]. eauto.
  - intros Hx. by apply (Hx exts ext).
Qed.

(** ** Revocation *)

(** One good verdict and no revoking one among the evidence. *)
Lemma scan_evidence_good judge ee mm pairs : forall good fs,
  scan_evidence judge ee mm pairs good fs = Ok false ->
  (good = true \/ exists e i der, (e, i) ∈ pairs /\ cert_to_der i = inr der /\ judge e der = VGood) /\
  (forall e i, (e, i) ∈ pairs -> exists der, cert_to_der i = inr der /\ judge e der ≠ VRevoked).
Proof.
  induction pairs as [|[e i] pairs IH]; intros good fs; cbn [scan_evidence].
  - destruct good; [|done]. intros _. split; [by left|]. intros e i Hin. by apply elem_of_nil in Hin.
  - intros (der & Hder%lift_err_Ok & Hs)%bind_Ok.
    assert (forall b, (exists e' i' der', (e', i') ∈ pairs /\ cert_to_der i' = inr der' /\ judge e' der' = VGood) ->
      b = true \/ exists e' i' der', (e', i') ∈ (e, i) :: pairs /\ cert_to_der i' = inr der' /\ judge e' der' = VGood) as Hw.
    { intros b (e' & i' & d' & Hin & Hx). right. exists e', i', d'. split; [by right|done]. }
    destruct (judge e der) eqn:Hj; [|done|]; apply IH in Hs as [Hg Hall]; split;
      try (intros e' i' [[= -> ->]|Hin]%elem_of_cons; [exists der; split; [done|congruence]|by apply Hall]).
    + right. exists e, i, der. split; [by left|done].
    + destruct Hg as [->|Hg]; [by left|by apply Hw].
Qed.

Lemma elem_of_all_pairs evidence issuers e i :
  (e, i) ∈ all_pairs evidence issuers <-> e ∈ evidence /\ i ∈ issuers.
Proof.
  unfold all_pairs. rewrite list_elem_of_bind. split.
  - intros (e' & (i' & [= -> ->] & Hi)%list_elem_of_fmap & He). done.
  - intros [He Hi]. exists e. split; [|done]. apply list_elem_of_fmap. eauto.
Qed.

Lemma elem_of_issuers v c chain i :
  i ∈ issuers_of v c chain <->
  (i ∈ trust_anchors v \/ i ∈ intermediates v \/ i ∈ chain) /\ cert_subject i = cert_issuer c.
Proof.
  unfold issuers_of. rewrite list_elem_of_In, List.filter_In, bool_decide_eq_true.
  by rewrite <- list_elem_of_In, !elem_of_app.
Qed.

(** Not revoked: some list accepted for the certificate does not name it, and no
    accepted one does. *)
Definition crl_good (clk : Clocks) (v : ChainValidator) (chain : list Certificate) (c : Certificate) : Prop :=
  (exists der d i ider crl cert issuer,
     d ∈ crls v /\ i ∈ issuers_of v c chain /\ cert_to_der c = inr der /\ cert_to_der i = inr ider /\
     crl_accepts (unix_now clk) d der ider crl cert issuer /\
     forall r, r ∈ default [] (revoked_certificates crl) -> revoked_serial r ≠ cert_serial cert) /\
  (forall der d i ider st, d ∈ crls v -> i ∈ issuers_of v c chain -> cert_to_der c = inr der ->
     cert_to_der i = inr ider -> validate_crl_for_certificate (unix_now clk) d der ider = Ok st ->
     cs_revoked st = false).

Lemma check_revocation_good clk v chain c :
  check_revocation clk v chain c = Ok false -> crl_good clk v chain c.
Proof.
  unfold check_revocation. intros (der & Hder%lift_err_Ok & [_ Hs]%bind_ensure_Ok)%bind_Ok.
  apply scan_evidence_good in Hs as [Hg Hall]. split.
  - destruct Hg as [Hg|(d & i & ider & Hin%elem_of_all_pairs & Hi & Hv)]; [done|].
    destruct Hin as [Hd Hii]. unfold crl_verdict in Hv.
    destruct (validate_crl_for_certificate (unix_now clk) d der ider) as [st| |] eqn:Hval; try done.
    destruct (cs_revoked st) eqn:Hrev; [done|].
    apply validate_crl_accepts in Hval as (crl & cert & issuer & Ha & Hiff).
    exists der, d, i, ider, crl, cert, issuer. split_and!; try done.
    intros r Hr He. assert (cs_revoked st = true) by (apply Hiff; eauto). congruence.
  - intros der' d i ider st Hd Hi Hder' Hid Hst.
    assert (der' = der) as -> by congruence.
    destruct (Hall d i) as (ider' & Hid' & Hnr); [by apply elem_of_all_pairs|].
    assert (ider' = ider) as -> by congruence. unfold crl_verdict in Hnr. rewrite Hst in Hnr.
    by destruct (cs_revoked st).
Qed.

(** The same for OCSP: a response whose entry for the certificate is good, and no
    accepted one that says revoked. *)
Definition ocsp_good (clk : Clocks) (v : ChainValidator) (chain : list Certificate) (c : Certificate) : Prop :=
  (exists der d i ider cert issuer basic single responder b,
     d ∈ ocsp_responses v /\ i ∈ issuers_of v c chain /\ cert_to_der c = inr der /\ cert_to_der i = inr ider /\
     ocsp_accepts (unix_now clk) d der ider cert issuer basic single responder b /\ sr_status single = StatusGood) /\
  (forall der d i ider r, d ∈ ocsp_responses v -> i ∈ issuers_of v c chain -> cert_to_der c = inr der ->
     cert_to_der i = inr ider -> validate_ocsp_response (unix_now clk) d der ider = Ok r ->
     forall t why, vo_cert_status r ≠ OcspRevoked t why).

Lemma check_ocsp_good clk v chain c :
  check_ocsp_status clk v chain c = Ok false -> ocsp_good clk v chain c.
Proof.
  unfold check_ocsp_status. intros (der & Hder%lift_err_Ok & [_ Hs]%bind_ensure_Ok)%bind_Ok.
  apply scan_evidence_good in Hs as [Hg Hall]. split.
  - destruct Hg as [Hg|(d & i & ider & Hin%elem_of_all_pairs & Hi & Hv)]; [done|].
    destruct Hin as [Hd Hii]. unfold ocsp_verdict in Hv.
    destruct (validate_ocsp_response (unix_now clk) d der ider) as [st| |] eqn:Hval; try done.
    apply validate_ocsp_accepts in Hval as (cert & issuer & basic & single & responder & b & Ha & Hst & _).
    rewrite Hst in Hv. exists der, d, i, ider, cert, issuer, basic, single, responder, b.
    split_and!; try done. by destruct (sr_status single).
  - intros der' d i ider st Hd Hi Hder' Hid Hst t why Hr.
    assert (der' = der) as -> by congruence.
    destruct (Hall d i) as (ider' & Hid' & Hnr); [by apply elem_of_all_pairs|].
    assert (ider' = ider) as -> by congruence. unfold ocsp_verdict in Hnr. by rewrite Hst, Hr in Hnr.
Qed.

(** ** No check panics *)

Lemma lift_err_no_panic {E A} (f : string -> E) (r : string + A) : no_panic (lift_err f r).
Proof. by destruct r. Qed.
Lemma of_verifier_no_panic r : no_panic (of_verifier r).
Proof. by destruct r. Qed.
#[local] Hint Resolve lift_err_no_panic map_err_no_panic of_verifier_no_panic : marty.

Lemma verify_alg_no_panic alg k m s : no_panic (verify_signature_with_algorithm_identifier alg k m s).
Proof.
  unfold verify_signature_with_algorithm_identifier, sig_from_oid, verify_signature,
    verify_rsa_pss_algorithm_identifier, validate_digest_parameters.
  repeat (solve_no_panic; try case_match; auto with marty).
Qed.
#[local] Hint Resolve verify_alg_no_panic : marty.

Lemma verify_parsed_no_panic c i : no_panic (verify_parsed_certificate_signature c i).
Proof. unfold verify_parsed_certificate_signature. solve_no_panic. Qed.
#[local] Hint Resolve verify_parsed_no_panic : marty.

Lemma chain_signatures_no_panic chain : forall i, no_panic (verify_chain_signatures i chain).
Proof.
  induction chain as [|c [|d rest] IH]; intros i; [done|done|]. cbn [verify_chain_signatures].
  apply bind_no_panic; [auto with marty|intros _ _]. apply bind_no_panic; [|intros; apply IH].
  apply map_err_no_panic. unfold chain_verify_signature. solve_no_panic.
Qed.

Lemma each_no_panic {E A} (f : Z -> A -> res E unit) l : (forall i x, no_panic (f i x)) -> forall i, no_panic (each f i l).
Proof. intros Hf. induction l; intros i; cbn [each]; [done|]. apply bind_no_panic; auto. Qed.

Lemma constraints_no_panic chain : no_panic (check_chain_constraints chain).
Proof.
  unfold check_chain_constraints. apply bind_no_panic; [|intros _ _]; apply each_no_panic; intros i c.
  - unfold check_certificate. solve_no_panic.
    generalize (@nil string). induction (default [] (cert_extensions c)) as [|e exts IH]; intros seen; [done|].
    cbn [check_extensions]. do 3 (apply bind_no_panic; [auto with marty|intros _ _]). apply IH.
  - unfold check_issuer. solve_no_panic.
Qed.

Lemma require_usages_no_panic raw us : no_panic (require_usages raw us).
Proof. induction us as [|u us IH]; [done|]. cbn [require_usages]. apply bind_no_panic; auto with marty. Qed.

Lemma key_usage_no_panic v c : no_panic (check_key_usage v c).
Proof.
  unfold check_key_usage. repeat case_match; try done.
  apply bind_no_panic; [auto with marty|intros raw _; apply require_usages_no_panic].
Qed.

Lemma scan_evidence_no_panic judge ee mm pairs : forall good fs, no_panic (scan_evidence judge ee mm pairs good fs).
Proof.
  induction pairs as [|[e i] pairs IH]; intros good fs; cbn [scan_evidence]; [by destruct good|].
  apply bind_no_panic; [auto with marty|]. intros der _. by destruct (judge e der).
Qed.

Lemma check_revocation_no_panic clk v chain c : no_panic (check_revocation clk v chain c).
Proof.
  unfold check_revocation. do 2 (apply bind_no_panic; [auto with marty|intros ? _]). apply scan_evidence_no_panic.
Qed.

Lemma check_ocsp_no_panic clk v chain c : no_panic (check_ocsp_status clk v chain c).
Proof.
  unfold check_ocsp_status. do 2 (apply bind_no_panic; [auto with marty|intros ? _]). apply scan_evidence_no_panic.
Qed.

Lemma trust_anchor_no_panic v chain : no_panic (verify_trust_anchor v chain).
Proof.
  unfold verify_trust_anchor. do 2 (apply bind_no_panic; [auto with marty|intros ? _]).
  apply bind_no_panic; [|intros; by repeat case_match]. case_bool_decide; [|done].
  induction (trust_anchors v) as [|x l IH]; cbn [same_anchor]; [done|]. case_bool_decide; [|done].
  do 2 (apply bind_no_panic; [auto with marty|intros ? _]). by case_bool_decide.
Qed.

(** Neither validator of evidence panics, so a failed verdict is always an error. *)
Lemma validators_no_panic clk d c i :
  no_panic (validate_crl_for_certificate clk d c i) /\ no_panic (validate_ocsp_response clk d c i).
Proof.
  assert (no_panic (verify_certificate_signature c i)) as Hv.
  { unfold verify_certificate_signature, load_certificate_der. solve_no_panic. }
  assert (forall x y, no_panic (verify_certificate_signature x y)) as Hv'.
  { intros. unfold verify_certificate_signature, load_certificate_der. solve_no_panic. }
  split.
  - unfold validate_crl_for_certificate, authenticate_crl, validate_crl_freshness. solve_no_panic.
  - unfold validate_ocsp_response, select_authorized_responder, validate_certificate_current,
      embedded_responder, validate_ocsp_freshness. solve_no_panic.
Qed.

(** ** The verdict *)

(** The flag says exactly that no error was recorded. *)
Definition flag_ok (r : ChainValidationResult) : Prop := cv_valid r = true <-> cv_errors r = [].

Lemma push_error_flag r e : flag_ok (push_error r e).
Proof. unfold flag_ok. cbn. split; [done|]. intros Hx. by apply app_eq_nil in Hx as [_ ?]. Qed.
Lemma push_warning_flag r w : flag_ok r -> flag_ok (push_warning r w).
Proof. done. Qed.
#[local] Hint Resolve push_error_flag push_warning_flag : marty.

Lemma fold_chain_flag (f : ChainValidationResult -> Z -> Certificate -> ChainValidationResult) l :
  (forall r i c, flag_ok r -> flag_ok (f r i c)) -> forall r i, flag_ok r -> flag_ok (fold_chain f r i l).
Proof. intros Hf. induction l; intros r i Hr; cbn [fold_chain]; auto. Qed.

Lemma fold_chain_valid (f : ChainValidationResult -> Z -> Certificate -> ChainValidationResult) (P : Certificate -> Prop) l :
  (forall r i c, cv_valid (f r i c) = true <-> cv_valid r = true /\ P c) ->
  forall r i, cv_valid (fold_chain f r i l) = true <-> cv_valid r = true /\ Forall P l.
Proof.
  intros Hf. induction l as [|c l IH]; intros r i; cbn [fold_chain].
  - split; [by split|by intros [? _]].
  - rewrite IH, Hf, Forall_cons. tauto.
Qed.

Lemma record_error_valid r (c : res string unit) t : no_panic c ->
  cv_valid (record_error r c t) = true <-> cv_valid r = true /\ c = Ok tt.
Proof. destruct c as [[]| |]; cbn; intros ?; split; intros; destruct_and?; (done || congruence). Qed.
Lemma record_error_flag r (c : res string unit) t : flag_ok r -> flag_ok (record_error r c t).
Proof. destruct c; cbn [record_error]; auto with marty. Qed.

Definition hard_fail (v : ChainValidator) : Prop := revocation_mode (chain_config v) = "hard_fail".

Lemma revocation_issue_valid v r m : cv_valid (revocation_issue v r m) = true <-> cv_valid r = true /\ ~ hard_fail v.
Proof.
  unfold revocation_issue, hard_fail. destruct (String.eqb_spec (revocation_mode (chain_config v)) "hard_fail"); cbn; naive_solver.
Qed.
Lemma revocation_issue_flag v r m : flag_ok r -> flag_ok (revocation_issue v r m).
Proof. unfold revocation_issue. case_match; auto with marty. Qed.

Lemma revocation_step_valid v (status : Certificate -> res string bool) rv fl r i c :
  no_panic (status c) ->
  cv_valid (revocation_step v status rv fl r i c) = true <->
  cv_valid r = true /\ (hard_fail v -> is_configured_trust_anchor v c = false -> status c = Ok false).
Proof.
  intros Hp. unfold revocation_step. destruct (is_configured_trust_anchor v c); [intuition congruence|].
  destruct (status c) as [[]|e|]; [| | |done]; rewrite ?revocation_issue_valid; intuition congruence.
Qed.

Lemma check_revocations_valid v en ev none (status : Certificate -> res string bool) rv fl chain r :
  (forall c, no_panic (status c)) ->
  cv_valid (check_revocations v en ev none (revocation_step v status rv fl) chain r) = true <->
  cv_valid r = true /\
  (en = true -> hard_fail v ->
   ev ≠ [] /\ forall c, c ∈ chain -> is_configured_trust_anchor v c = false -> status c = Ok false).
Proof.
  intros Hp. unfold check_revocations. destruct en; [|intuition congruence].
  destruct ev as [|e ev].
  - rewrite revocation_issue_valid. split; intros [Hr Hx]; (split; [done|]); [tauto|].
    intros Hh. by destruct (Hx eq_refl Hh).
  - rewrite fold_chain_valid by (intros; by apply revocation_step_valid). rewrite Forall_forall.
    split; intros [Hr Hx]; (split; [done|]).
    + intros _ Hh. split; [done|]. intros c Hc Ha. by apply Hx.
    + intros c Hc Hh Ha. destruct (Hx eq_refl Hh) as [_ Hs]. by apply Hs.
Qed.

Lemma check_revocations_flag v en ev none (status : Certificate -> res string bool) rv fl chain r :
  flag_ok r -> flag_ok (check_revocations v en ev none (revocation_step v status rv fl) chain r).
Proof.
  intros Hr. unfold check_revocations. destruct en; [|done]. destruct ev; [by apply revocation_issue_flag|].
  apply fold_chain_flag; [|done]. intros r' i c Hr'. unfold revocation_step.
  repeat case_match; auto using revocation_issue_flag.
Qed.

Lemma key_usage_step_valid v r c : cv_valid (key_usage_step v r c) = true <-> cv_valid r = true /\ usage_ok v c.
Proof.
  rewrite <- key_usage_exact. pose proof (key_usage_no_panic v c) as Hp. unfold key_usage_step.
  destruct (check_key_usage v c) as [[]|e|] eqn:Hc; [intuition|..|done].
  unfold check_key_usage in Hc. destruct (required_key_usage (chain_config v)); [done|]. cbn. intuition congruence.
Qed.

Lemma key_usage_step_flag v r c : flag_ok r -> flag_ok (key_usage_step v r c).
Proof. unfold key_usage_step. repeat case_match; auto with marty. Qed.

Lemma validity_step_valid now r i c :
  cv_valid (validity_step now r i c) = true <-> cv_valid r = true /\ within_validity now c.
Proof.
  unfold validity_step. rewrite record_error_valid; [|unfold check_validity; by repeat case_match].
  apply and_iff_compat_l. unfold check_validity, within_validity.
  destruct (Z.ltb_spec now (10 ^ 9 * cert_not_before c)), (Z.ltb_spec (10 ^ 9 * cert_not_after c) now);
    split; (done || lia).
Qed.

(** A path that the validator accepts at the time of its clocks. *)
Record path_valid (clk : Clocks) (v : ChainValidator) (chain : list Certificate) : Prop := {
  pv_validity : Forall (within_validity (default (utc_now clk) (validation_moment (chain_config v)))) chain;
  pv_linked : linked chain;
  pv_constraints : constraints_ok chain;
  pv_usage : forall c, head chain = Some c -> usage_ok v c;
  pv_crl : check_crl (chain_config v) = true -> hard_fail v ->
    crls v ≠ [] /\ forall c, c ∈ chain -> is_configured_trust_anchor v c = false ->
      check_revocation clk v chain c = Ok false;
  pv_ocsp : check_ocsp (chain_config v) = true -> hard_fail v ->
    ocsp_responses v ≠ [] /\ forall c, c ∈ chain -> is_configured_trust_anchor v c = false ->
      check_ocsp_status clk v chain c = Ok false;
  pv_anchored : forall c, last chain = Some c -> anchored v c;
}.

Lemma chain_verdict clk v chain : chain ≠ [] ->
  (forall c, last chain = Some c -> encodes c) -> Forall encodes (trust_anchors v) ->
  exists r, validate_parsed_chain clk v chain = Ok r /\
    (cv_valid r = true <-> path_valid clk v chain) /\ flag_ok r.
Proof.
  intros Hne Henc Hanchors. destruct chain as [|e rest]; [done|]. set (chain := e :: rest) in *.
  assert (exists c, last chain = Some c) as [c Hc].
  { destruct (last chain) eqn:El; [by eexists|]. by apply last_None in El. }
  unfold validate_parsed_chain. change (vec_index chain 0) with (Ok (E := VerificationError) e).
  cbn [mbind res_bind]. eexists. split; [reflexivity|]. split.
  - rewrite record_error_valid by apply trust_anchor_no_panic.
    rewrite (trust_anchor_exact v chain c Hc (Henc c Hc) Hanchors).
    rewrite check_revocations_valid by apply check_ocsp_no_panic.
    rewrite check_revocations_valid by apply check_revocation_no_panic.
    rewrite key_usage_step_valid, record_error_valid by apply constraints_no_panic.
    rewrite chain_constraints_exact, record_error_valid by apply chain_signatures_no_panic.
    rewrite chain_signatures_exact, (fold_chain_valid _ _ _ (fun r i x => validity_step_valid _ r i x)).
    cbn [cv_valid]. split.
    + intros (((((((_ & Hval) & Hl) & Hk) & Hu) & Hcrl) & Hocsp) & Ha).
      split; try done; [by intros x [= <-]|]. intros x Hx. by assert (x = c) as -> by congruence.
    + intros [Hval Hl Hk Hu Hcrl Hocsp Ha]. split_and!; auto.
  - repeat (apply record_error_flag || apply check_revocations_flag || apply key_usage_step_flag).
    apply fold_chain_flag; [|done]. intros r i x Hr. by apply record_error_flag.
Qed.

(** C5: Chain validation is exact: for every chain of certificates that can be encoded
    it returns a verdict, the verdict is valid exactly when the chain is within its
    validity, linked by names and signatures, respects the constraints of every
    issuer and extension, has the required key usage, passes the revocation checks
    that are configured to fail hard and ends at a trust anchor, and it is valid
    exactly when no error is reported. *)
Theorem chain_validation_exact clk v chain : chain ≠ [] ->
  (forall c, last chain = Some c -> encodes c) -> Forall encodes (trust_anchors v) ->
  exists r, validate_parsed_chain clk v chain = Ok r /\
    (cv_valid r = true <-> path_valid clk v chain) /\ (cv_valid r = true <-> cv_errors r = []).
Proof. apply chain_verdict. Qed.

(** C6: Under the hard-fail mode an accepted chain is not revoked: for each certificate
    that is not itself an anchor there is an authentic, current and complete list of
    its issuer that does not name it, no accepted list names it, and likewise for
    OCSP, when the respective check is enabled. *)
Theorem hard_fail_not_revoked clk v chain r : chain ≠ [] ->
  (forall c, last chain = Some c -> encodes c) -> Forall encodes (trust_anchors v) ->
  validate_parsed_chain clk v chain = Ok r -> cv_valid r = true -> hard_fail v ->
  forall c, c ∈ chain -> is_configured_trust_anchor v c = false ->
    (check_crl (chain_config v) = true -> crl_good clk v chain c) /\
    (check_ocsp (chain_config v) = true -> ocsp_good clk v chain c).
Proof.
  intros Hne Henc Hanc Hr Hv Hh c Hc Ha.
  destruct (chain_verdict clk v chain Hne Henc Hanc) as (r' & Hr' & Hiff & _).
  assert (r' = r) as -> by congruence. apply Hiff in Hv as [_ _ _ _ Hcrl Hocsp _]. split; intros Hen.
  - apply check_revocation_good. by apply (Hcrl Hen Hh).
  - apply check_ocsp_good. by apply (Hocsp Hen Hh).
Qed.
End chain.
