(* ===== verification/TrustRegistry.v ===== *)
(** * Trust anchors (marty-verification, [trust_anchor/registry.rs], [csca.rs],
    [iaca.rs])

    The registry interface as a class with its derived operations, the in-memory
    registry, and the registries for passport and driving-licence authorities with
    their indices.  A directory is the list of its entries. *)

From stdpp Require Import pretty.
From S2P Require Import Prelude Des Apdu X509.
Local Open Scope Z_scope.

#[local] Abbreviation result := (res VerificationError).

(** [src/marty-verification/src/trust_anchor/registry.rs:14-30] TrustPurpose *)
Inductive TrustPurpose := Iaca | ReaderCa | Csca | Dsc | EudiIssuer | EudiQtsp | EudiWallet.

#[export] Instance TrustPurpose_eq_dec : EqDecision TrustPurpose.
Proof. solve_decision. Defined.

(** [src/marty-verification/src/trust_anchor/registry.rs:33-41] TrustAnchor *)
Record TrustAnchor `{X509} := mkAnchor {
  anchor_certificate : Certificate;
  purpose : TrustPurpose;
  jurisdiction : option string;
}.

(** [src/marty-verification/src/trust_anchor/registry.rs:44-53] PemTrustAnchor *)
Record PemTrustAnchor := mkPemAnchor {
  certificate_pem : string;
  pem_purpose : TrustPurpose;
  pem_jurisdiction : option string;
}.

(** ** Jurisdictions *)

(** [src/marty-verification/src/trust_anchor/iaca.rs:32-106] Jurisdiction *)
Inductive Jurisdiction :=
| Alabama | Alaska | Arizona | Arkansas | California | Colorado | Connecticut | Delaware
| DistrictOfColumbia | Florida | Georgia | Hawaii | Idaho | Illinois | Indiana | Iowa | Kansas
| Kentucky | Louisiana | Maine | Maryland | Massachusetts | Michigan | Minnesota | Mississippi
| Missouri | Montana | Nebraska | Nevada | NewHampshire | NewJersey | NewMexico | NewYork
| NorthCarolina | NorthDakota | Ohio | Oklahoma | Oregon | Pennsylvania | RhodeIsland | SouthCarolina
| SouthDakota | Tennessee | Texas | Utah | Vermont | Virginia | Washington | WestVirginia | Wisconsin
| Wyoming | AmericanSamoa | Guam | NorthernMarianaIslands | PuertoRico | VirginIslands | Alberta
| BritishColumbia | Manitoba | NewBrunswick | NewfoundlandAndLabrador | NovaScotia | Ontario
| PrinceEdwardIsland | Quebec | Saskatchewan | NorthwestTerritories | Nunavut | Yukon.

(** [src/marty-verification/src/trust_anchor/iaca.rs:110-185] Jurisdiction::code *)
Definition code (j : Jurisdiction) : string :=
  match j with
  | Alabama => "US-AL" | Alaska => "US-AK" | Arizona => "US-AZ" | Arkansas => "US-AR"
  | California => "US-CA" | Colorado => "US-CO" | Connecticut => "US-CT" | Delaware => "US-DE"
  | DistrictOfColumbia => "US-DC" | Florida => "US-FL" | Georgia => "US-GA" | Hawaii => "US-HI"
  | Idaho => "US-ID" | Illinois => "US-IL" | Indiana => "US-IN" | Iowa => "US-IA" | Kansas => "US-KS"
  | Kentucky => "US-KY" | Louisiana => "US-LA" | Maine => "US-ME" | Maryland => "US-MD"
  | Massachusetts => "US-MA" | Michigan => "US-MI" | Minnesota => "US-MN" | Mississippi => "US-MS"
  | Missouri => "US-MO" | Montana => "US-MT" | Nebraska => "US-NE" | Nevada => "US-NV"
  | NewHampshire => "US-NH" | NewJersey => "US-NJ" | NewMexico => "US-NM" | NewYork => "US-NY"
  | NorthCarolina => "US-NC" | NorthDakota => "US-ND" | Ohio => "US-OH" | Oklahoma => "US-OK"
  | Oregon => "US-OR" | Pennsylvania => "US-PA" | RhodeIsland => "US-RI" | SouthCarolina => "US-SC"
  | SouthDakota => "US-SD" | Tennessee => "US-TN" | Texas => "US-TX" | Utah => "US-UT"
  | Vermont => "US-VT" | Virginia => "US-VA" | Washington => "US-WA" | WestVirginia => "US-WV"
  | Wisconsin => "US-WI" | Wyoming => "US-WY" | AmericanSamoa => "US-AS" | Guam => "US-GU"
  | NorthernMarianaIslands => "US-MP" | PuertoRico => "US-PR" | VirginIslands => "US-VI"
  | Alberta => "CA-AB" | BritishColumbia => "CA-BC" | Manitoba => "CA-MB" | NewBrunswick => "CA-NB"
  | NewfoundlandAndLabrador => "CA-NL" | NovaScotia => "CA-NS" | Ontario => "CA-ON"
  | PrinceEdwardIsland => "CA-PE" | Quebec => "CA-QC" | Saskatchewan => "CA-SK"
  | NorthwestTerritories => "CA-NT" | Nunavut => "CA-NU" | Yukon => "CA-YT"
  end.

(** The arms of [from_code], in the order of the source. *)
Definition from_code_table : list (string * Jurisdiction) :=
  [("US-AL", Alabama); ("US-AK", Alaska); ("US-AZ", Arizona); ("US-AR", Arkansas);
   ("US-CA", California); ("US-CO", Colorado); ("US-CT", Connecticut); ("US-DE", Delaware);
   ("US-DC", DistrictOfColumbia); ("US-FL", Florida); ("US-GA", Georgia); ("US-HI", Hawaii);
   ("US-ID", Idaho); ("US-IL", Illinois); ("US-IN", Indiana); ("US-IA", Iowa); ("US-KS", Kansas);
   ("US-KY", Kentucky); ("US-LA", Louisiana); ("US-ME", Maine); ("US-MD", Maryland);
   ("US-MA", Massachusetts); ("US-MI", Michigan); ("US-MN", Minnesota); ("US-MS", Mississippi);
   ("US-MO", Missouri); ("US-MT", Montana); ("US-NE", Nebraska); ("US-NV", Nevada);
   ("US-NH", NewHampshire); ("US-NJ", NewJersey); ("US-NM", NewMexico); ("US-NY", NewYork);
   ("US-NC", NorthCarolina); ("US-ND", NorthDakota); ("US-OH", Ohio); ("US-OK", Oklahoma);
   ("US-OR", Oregon); ("US-PA", Pennsylvania); ("US-RI", RhodeIsland); ("US-SC", SouthCarolina);
   ("US-SD", SouthDakota); ("US-TN", Tennessee); ("US-TX", Texas); ("US-UT", Utah); ("US-VT", Vermont);
   ("US-VA", Virginia); ("US-WA", Washington); ("US-WV", WestVirginia); ("US-WI", Wisconsin);
   ("US-WY", Wyoming); ("US-AS", AmericanSamoa); ("US-GU", Guam); ("US-MP", NorthernMarianaIslands);
   ("US-PR", PuertoRico); ("US-VI", VirginIslands); ("CA-AB", Alberta); ("CA-BC", BritishColumbia);
   ("CA-MB", Manitoba); ("CA-NB", NewBrunswick); ("CA-NL", NewfoundlandAndLabrador);
   ("CA-NS", NovaScotia); ("CA-ON", Ontario); ("CA-PE", PrinceEdwardIsland); ("CA-QC", Quebec);
   ("CA-SK", Saskatchewan); ("CA-NT", NorthwestTerritories); ("CA-NU", Nunavut); ("CA-YT", Yukon)].

(** [src/marty-verification/src/trust_anchor/iaca.rs:188-261] Jurisdiction::from_code *)
Definition from_code `{StrCase} (c : string) : option Jurisdiction :=
  assoc from_code_table (str_to_uppercase c).

(** [Certificate::to_pem]. *)
Class PemEncoder `{X509} := cert_to_pem : Certificate -> string + string.
Class PemEncoderLaws `{PemEncoder} : Prop :=
  cert_pem_roundtrip : forall c pem, cert_to_pem c = inr pem -> cert_from_pem pem = inr c.

(** An entry of a directory: the extension and the stem of its name, and what
    reading it gives. *)
Record DirEntry := mkEntry {
  file_extension : option string;
  file_stem : option string;
  file_contents : string + string;
}.

Section registry.
Context `{X509}.

(** [src/marty-verification/src/trust_anchor/registry.rs:58-64] TrustAnchor::try_from *)
Definition anchor_from_pem (p : PemTrustAnchor) : string + TrustAnchor :=
  match cert_from_pem (certificate_pem p) with
  | inl e => inl e
  | inr c => inr (mkAnchor _ c (pem_purpose p) (pem_jurisdiction p))
  end.

(** [src/marty-verification/src/trust_anchor/registry.rs:70-76] PemTrustAnchor::try_from *)
Definition anchor_to_pem `{!PemEncoder} (a : TrustAnchor) : string + PemTrustAnchor :=
  match cert_to_pem (anchor_certificate a) with
  | inl e => inl e
  | inr pem => inr (mkPemAnchor pem (purpose a) (jurisdiction a))
  end.

(** ** The interface *)

(** [src/marty-verification/src/trust_anchor/registry.rs:109-160] TrustRegistry *)
Class TrustRegistry (R : Type) := {
  get_anchors : R -> list TrustAnchor;
  add_anchor : R -> TrustAnchor -> result R;
  remove_anchor : R -> string -> result (R * bool);
}.

(** [src/marty-verification/src/trust_anchor/registry.rs:114-119] get_anchors_by_purpose *)
Definition get_anchors_by_purpose `{TrustRegistry R} (r : R) (p : TrustPurpose) : list TrustAnchor :=
  List.filter (fun a => bool_decide (purpose a = p)) (get_anchors r).

(** [src/marty-verification/src/trust_anchor/registry.rs:122-127] get_anchors_by_jurisdiction *)
Definition get_anchors_by_jurisdiction `{TrustRegistry R} (r : R) (j : string) : list TrustAnchor :=
  List.filter (fun a => bool_decide (jurisdiction a = Some j)) (get_anchors r).

(** [src/marty-verification/src/trust_anchor/registry.rs:130-137] find_issuer *)
Definition find_issuer `{TrustRegistry R} (r : R) (subject : Certificate) (p : TrustPurpose) :
    option TrustAnchor :=
  find (fun a => bool_decide (cert_subject (anchor_certificate a) = cert_issuer subject))
    (List.filter (fun a => bool_decide (purpose a = p)) (get_anchors r)).

(** [src/marty-verification/src/trust_anchor/registry.rs:152-154] len *)
Definition registry_len `{TrustRegistry R} (r : R) : Z := zlen (get_anchors r).

(** ** The in-memory registry *)

(** [src/marty-verification/src/trust_anchor/registry.rs:163-166] BasicTrustRegistry *)
Record BasicTrustRegistry := mkBasicRegistry { anchors : list TrustAnchor }.

(** [src/marty-verification/src/trust_anchor/registry.rs:170-172] BasicTrustRegistry::new *)
Definition basic_new : BasicTrustRegistry := mkBasicRegistry [].

(** [src/marty-verification/src/trust_anchor/registry.rs:265-268] BasicTrustRegistry::add_anchor *)
Definition basic_add (r : BasicTrustRegistry) (a : TrustAnchor) : result BasicTrustRegistry :=
  Ok (mkBasicRegistry (anchors r ++ [a])).

Definition names_subject (subject : string) (a : TrustAnchor) : bool :=
  str_contains (name_text (cert_subject (anchor_certificate a))) subject.

(** [src/marty-verification/src/trust_anchor/registry.rs:270-278] BasicTrustRegistry::remove_anchor *)
Definition basic_remove (r : BasicTrustRegistry) (subject : string) : result (BasicTrustRegistry * bool) :=
  let kept := List.filter (fun a => negb (names_subject subject a)) (anchors r) in
  Ok (mkBasicRegistry kept, zlen kept <? zlen (anchors r)).

#[export] Instance basic_registry : TrustRegistry BasicTrustRegistry := {|
  get_anchors := anchors; add_anchor := basic_add; remove_anchor := basic_remove |}.

Fixpoint anchors_from_pem (i : Z) (certs : list PemTrustAnchor) : result (list TrustAnchor) :=
  match certs with
  | [] => Ok []
  | p :: certs =>
      a ← lift_err (fun _ => trust_anchor_load
            ("Certificate #" +:+ pretty i +:+ ": Failed to build trust anchor for cert no. " +:+ pretty i))
            (anchor_from_pem p);
      rest ← anchors_from_pem (i + 1) certs;
      Ok (a :: rest)
  end.

(** [src/marty-verification/src/trust_anchor/registry.rs:182-199] from_pem_certificates *)
Definition from_pem_certificates (certs : list PemTrustAnchor) : result BasicTrustRegistry :=
  l ← anchors_from_pem 0 certs; Ok (mkBasicRegistry l).

Definition is_certificate_file (e : DirEntry) : bool :=
  match file_extension e with Some ext => String.eqb ext "pem" || String.eqb ext "crt" | None => false end.

Fixpoint anchors_from_entries (p : TrustPurpose) (entries : list (string + DirEntry)) :
    result (list TrustAnchor) :=
  match entries with
  | [] => Ok []
  | entry :: entries =>
      e ← lift_err io_error entry;
      if is_certificate_file e then
        pem ← lift_err io_error (file_contents e);
        rest ← anchors_from_entries p entries;
        Ok (match cert_from_pem pem with
            | inr cert => mkAnchor _ cert p (file_stem e) :: rest
            | inl _ => rest
            end)
      else anchors_from_entries p entries
  end.

(** A directory that exists has a listing, or an error when it cannot be read. *)
Record Directory := mkDir { dir_path : string; dir_listing : option (string + list (string + DirEntry)) }.

(** [src/marty-verification/src/trust_anchor/registry.rs:202-257] from_pem_directory *)
Definition from_pem_directory (dir : Directory) (p : TrustPurpose) : result BasicTrustRegistry :=
  listing ← ok_or (dir_listing dir) (io_error ("Directory does not exist: " +:+ dir_path dir));
  entries ← lift_err io_error listing;
  l ← anchors_from_entries p entries;
  match l with
  | [] => Err empty_registry
  | _ => Ok (mkBasicRegistry l)
  end.

(** ** Exchange with isomdl's registry *)

Inductive IsoPurpose := IsoIaca | IsoReaderCa.
Definition IsoRegistry : Type := list (Certificate * IsoPurpose).

(** [src/marty-verification/src/trust_anchor/registry.rs:283-302] BasicTrustRegistry::from *)
Definition from_isomdl (r : IsoRegistry) : BasicTrustRegistry :=
  mkBasicRegistry (map (fun '(c, p) =>
    mkAnchor _ c (match p with IsoIaca => Iaca | IsoReaderCa => ReaderCa end) None) r).

(** [src/marty-verification/src/trust_anchor/registry.rs:307-330] TrustAnchorRegistry::from *)
Definition to_isomdl (r : BasicTrustRegistry) : IsoRegistry :=
  omap (fun a => match purpose a with
                 | Iaca => Some (anchor_certificate a, IsoIaca)
                 | ReaderCa => Some (anchor_certificate a, IsoReaderCa)
                 | _ => None
                 end) (anchors r).

(** ** Country authorities *)

Context `{StrCase}.

(** [src/marty-verification/src/trust_anchor/csca.rs:20-30] CscaRegistry *)
Record CscaRegistry := mkCsca {
  csca_anchors : BasicTrustRegistry;
  dsc_cache : gmap string (list Certificate);
  country_index : gmap string (list Z);
  master_list_version : option string;
}.

(** [src/marty-verification/src/trust_anchor/csca.rs:34-36] CscaRegistry::new *)
Definition csca_new : CscaRegistry := mkCsca basic_new ∅ ∅ None.

(** [entry(key).or_default().push(x)] *)
Definition push_entry {A} (m : gmap string (list A)) (key : string) (x : A) : gmap string (list A) :=
  <[key := default [] (m !! key) ++ [x]]> m.

Definition push_country (m : gmap string (list Z)) (j : option string) (i : Z) : gmap string (list Z) :=
  match j with Some j => push_entry m j i | None => m end.

Fixpoint index_countries (i : Z) (l : list TrustAnchor) (m : gmap string (list Z)) : gmap string (list Z) :=
  match l with
  | [] => m
  | a :: l => index_countries (i + 1) l (push_country m (jurisdiction a) i)
  end.

(** [src/marty-verification/src/trust_anchor/csca.rs:136-146] rebuild_index *)
Definition csca_rebuild_index (r : CscaRegistry) : CscaRegistry :=
  mkCsca (csca_anchors r) (dsc_cache r) (index_countries 0 (anchors (csca_anchors r)) ∅) (master_list_version r).

(** [src/marty-verification/src/trust_anchor/csca.rs:154-164] CscaRegistry::add_anchor *)
Definition csca_add (r : CscaRegistry) (a : TrustAnchor) : result CscaRegistry :=
  let index := zlen (anchors (csca_anchors r)) in
  inner ← basic_add (csca_anchors r) a;
  Ok (mkCsca inner (dsc_cache r) (push_country (country_index r) (jurisdiction a) index) (master_list_version r)).

(** [src/marty-verification/src/trust_anchor/csca.rs:166-172] CscaRegistry::remove_anchor *)
Definition csca_remove (r : CscaRegistry) (subject : string) : result (CscaRegistry * bool) :=
  '(inner, removed) ← basic_remove (csca_anchors r) subject;
  let r := mkCsca inner (dsc_cache r) (country_index r) (master_list_version r) in
  Ok (if (removed : bool) then csca_rebuild_index r else r, removed).

#[export] Instance csca_registry : TrustRegistry CscaRegistry := {|
  get_anchors r := anchors (csca_anchors r); add_anchor := csca_add; remove_anchor := csca_remove |}.

(** [src/marty-verification/src/trust_anchor/csca.rs:41-51] CscaRegistry::from_directory *)
Definition csca_from_directory (dir : Directory) : result CscaRegistry :=
  inner ← from_pem_directory dir Csca;
  Ok (csca_rebuild_index (mkCsca inner ∅ ∅ None)).

(** [src/marty-verification/src/trust_anchor/csca.rs:54-74] add_country_csca *)
Definition add_country_csca (r : CscaRegistry) (country_code : string) (cert : Certificate) :
    result CscaRegistry :=
  let a := mkAnchor _ cert Csca (Some (str_to_uppercase country_code)) in
  let index := zlen (anchors (csca_anchors r)) in
  inner ← basic_add (csca_anchors r) a;
  Ok (mkCsca inner (dsc_cache r) (push_entry (country_index r) (str_to_uppercase country_code) index)
        (master_list_version r)).

(** [src/marty-verification/src/trust_anchor/csca.rs:79-89] get_country_cscas *)
Definition get_country_cscas (r : CscaRegistry) (country_code : string) : list TrustAnchor :=
  match country_index r !! str_to_uppercase country_code with
  | Some indices => omap (fun i => anchors (csca_anchors r) !! Z.to_nat i) indices
  | None => []
  end.

Fixpoint csca_add_all (r : CscaRegistry) (l : list TrustAnchor) (added : Z) : result (CscaRegistry * Z) :=
  match l with
  | [] => Ok (r, added)
  | a :: l => r' ← csca_add r a; csca_add_all r' l (added + 1)
  end.

(** [src/marty-verification/src/trust_anchor/csca.rs:97-105] merge_from_directory *)
Definition merge_from_directory (r : CscaRegistry) (dir : Directory) : result (CscaRegistry * Z) :=
  from_dir ← from_pem_directory dir Csca;
  csca_add_all r (anchors from_dir) 0.

(** [src/marty-verification/src/trust_anchor/csca.rs:108-113] cache_dsc *)
Definition cache_dsc (r : CscaRegistry) (issuer : string) (dsc : Certificate) : CscaRegistry :=
  mkCsca (csca_anchors r) (push_entry (dsc_cache r) issuer dsc) (country_index r) (master_list_version r).

(** [src/marty-verification/src/trust_anchor/csca.rs:116-118] get_cached_dscs *)
Definition get_cached_dscs (r : CscaRegistry) (issuer : string) : option (list Certificate) :=
  dsc_cache r !! issuer.

(** [src/marty-verification/src/trust_anchor/csca.rs:121-123] clear_dsc_cache *)
Definition clear_dsc_cache (r : CscaRegistry) : CscaRegistry :=
  mkCsca (csca_anchors r) ∅ (country_index r) (master_list_version r).

(** [src/marty-verification/src/trust_anchor/csca.rs:131-133] set_master_list_version *)
Definition set_master_list_version (r : CscaRegistry) (version : string) : CscaRegistry :=
  mkCsca (csca_anchors r) (dsc_cache r) (country_index r) (Some version).

(** ** Issuing authorities *)

(** [src/marty-verification/src/trust_anchor/iaca.rs:21-29] IacaRegistry *)
Record IacaRegistry := mkIaca {
  iaca_inner : BasicTrustRegistry;
  jurisdiction_index : gmap string Z;
  vical_version : option string;
}.

(** [src/marty-verification/src/trust_anchor/iaca.rs:266-268] IacaRegistry::new *)
Definition iaca_new : IacaRegistry := mkIaca basic_new ∅ None.

Definition set_jurisdiction (m : gmap string Z) (j : option string) (i : Z) : gmap string Z :=
  match j with Some j => <[j := i]> m | None => m end.

Fixpoint index_jurisdictions (i : Z) (l : list TrustAnchor) (m : gmap string Z) : gmap string Z :=
  match l with
  | [] => m
  | a :: l => index_jurisdictions (i + 1) l (set_jurisdiction m (jurisdiction a) i)
  end.

(** [src/marty-verification/src/trust_anchor/iaca.rs:327-334] rebuild_index *)
Definition iaca_rebuild_index (r : IacaRegistry) : IacaRegistry :=
  mkIaca (iaca_inner r) (index_jurisdictions 0 (anchors (iaca_inner r)) ∅) (vical_version r).

(** [src/marty-verification/src/trust_anchor/iaca.rs:349-359] IacaRegistry::add_anchor *)
Definition iaca_add (r : IacaRegistry) (a : TrustAnchor) : result IacaRegistry :=
  let index := zlen (anchors (iaca_inner r)) in
  inner ← basic_add (iaca_inner r) a;
  Ok (mkIaca inner (set_jurisdiction (jurisdiction_index r) (jurisdiction a) index) (vical_version r)).

(** [src/marty-verification/src/trust_anchor/iaca.rs:361-367] IacaRegistry::remove_anchor *)
Definition iaca_remove (r : IacaRegistry) (subject : string) : result (IacaRegistry * bool) :=
  '(inner, removed) ← basic_remove (iaca_inner r) subject;
  let r := mkIaca inner (jurisdiction_index r) (vical_version r) in
  Ok (if (removed : bool) then iaca_rebuild_index r else r, removed).

#[export] Instance iaca_registry : TrustRegistry IacaRegistry := {|
  get_anchors r := anchors (iaca_inner r); add_anchor := iaca_add; remove_anchor := iaca_remove |}.

(** [src/marty-verification/src/trust_anchor/iaca.rs:273-282] IacaRegistry::from_directory *)
Definition iaca_from_directory (dir : Directory) : result IacaRegistry :=
  inner ← from_pem_directory dir Iaca;
  Ok (iaca_rebuild_index (mkIaca inner ∅ None)).

(** [src/marty-verification/src/trust_anchor/iaca.rs:285-302] add_jurisdiction_iaca *)
Definition add_jurisdiction_iaca (r : IacaRegistry) (j : Jurisdiction) (cert : Certificate) :
    result IacaRegistry :=
  let index := zlen (anchors (iaca_inner r)) in
  inner ← basic_add (iaca_inner r) (mkAnchor _ cert Iaca (Some (code j)));
  Ok (mkIaca inner (<[code j := index]> (jurisdiction_index r)) (vical_version r)).

(** [src/marty-verification/src/trust_anchor/iaca.rs:305-309] get_jurisdiction_iaca *)
Definition get_jurisdiction_iaca (r : IacaRegistry) (j : Jurisdiction) : option TrustAnchor :=
  i ← jurisdiction_index r !! code j; anchors (iaca_inner r) !! Z.to_nat i.

(** [src/marty-verification/src/trust_anchor/iaca.rs:322-324] set_vical_version *)
Definition set_vical_version (r : IacaRegistry) (version : string) : IacaRegistry :=
  mkIaca (iaca_inner r) (jurisdiction_index r) (Some version).

(** [src/marty-verification/src/trust_anchor/iaca.rs:337-341] to_isomdl_registry *)
Definition to_isomdl_registry (r : IacaRegistry) : IsoRegistry := to_isomdl (iaca_inner r).
End registry.
