(* ===== verification/TrustRegistryFacts.v ===== *)
(** * Correctness of the trust registries

    The interface's laws for the three registries, the indices as exact views of
    the anchors in every reachable state, and the round trips of codes, PEM forms
    and isomdl's registry. *)

From S2P Require Import Prelude Des Apdu X509 TrustRegistry.
Local Open Scope Z_scope.

(** ** The interface *)

(** What a registry promises of its anchors: adding appends, removing drops exactly
    the anchors whose subject contains the text and reports whether any did. *)
Class TrustRegistryLaws `{X509} (R : Type) `{!TrustRegistry R} : Prop := {
  add_anchor_law : forall r a, exists r', add_anchor r a = Ok r' /\ get_anchors r' = get_anchors r ++ [a];
  remove_anchor_law : forall r s, exists r' b, remove_anchor r s = Ok (r', b) /\
    get_anchors r' = List.filter (fun a => negb (names_subject s a)) (get_anchors r) /\
    (b = true <-> exists a, a ∈ get_anchors r /\ names_subject s a = true);
}.

Lemma filter_shorter {A} (p : A -> bool) l :
  zlen (List.filter (fun a => negb (p a)) l) < zlen l <-> exists a, a ∈ l /\ p a = true.
Proof.
  unfold zlen. induction l as [|x l IH]; cbn [List.filter].
  - split; [lia|]. intros (a & Ha & _). by apply elem_of_nil in Ha.
  - pose proof (List.filter_length_le (fun a => negb (p a)) l). destruct (p x) eqn:Hp; cbn [negb].
    + split; [|rewrite length_cons; lia]. intros _. exists x. split; [by left|done].
    + rewrite !length_cons. setoid_rewrite elem_of_cons.
      split; [intros ?; destruct IH as [IH _]; destruct IH as (a & ? & ?); [lia|eauto]|].
      intros (a & [->|Ha] & Hpa); [congruence|]. apply Z.lt_le_pred, Z.lt_succ_r.
      assert (Z.of_nat (length (List.filter (λ a : A, negb (p a)) l)) < Z.of_nat (length l)) by (apply IH; eauto). lia.
Qed.

Lemma filter_same {A} (p : A -> bool) l : (forall a, a ∈ l -> p a = true) -> List.filter p l = l.
Proof.
  induction l as [|x l IH]; cbn [List.filter]; intros Hp; [done|]. rewrite (Hp x) by by left. f_equal.
  apply IH. intros a Ha. apply Hp. by right.
Qed.

Section laws.
Context `{X509} `{StrCase}.

Lemma basic_remove_spec r s : exists r' b, basic_remove r s = Ok (r', b) /\
  anchors r' = List.filter (fun a => negb (names_subject s a)) (anchors r) /\
  (b = true <-> exists a, a ∈ anchors r /\ names_subject s a = true).
Proof.
  eexists _, _. split; [reflexivity|]. split; [done|]. rewrite Z.ltb_lt. apply filter_shorter.
Qed.

#[export] Instance basic_laws : TrustRegistryLaws BasicTrustRegistry.
Proof. split; [intros r a; by eexists|intros; apply basic_remove_spec]. Qed.

#[export] Instance csca_laws : TrustRegistryLaws CscaRegistry.
Proof.
  split; [intros r a; by eexists|]. intros r s. destruct (basic_remove_spec (csca_anchors r) s) as (r' & b & E & Hf & Hb).
  cbn [remove_anchor csca_registry get_anchors]. unfold csca_remove. rewrite E. cbn [mbind res_bind].
  eexists _, b. split; [reflexivity|]. split; [|done]. by destruct b.
Qed.

#[export] Instance iaca_laws : TrustRegistryLaws IacaRegistry.
Proof.
  split; [intros r a; by eexists|]. intros r s. destruct (basic_remove_spec (iaca_inner r) s) as (r' & b & E & Hf & Hb).
  cbn [remove_anchor iaca_registry get_anchors]. unfold iaca_remove. rewrite E. cbn [mbind res_bind].
  eexists _, b. split; [reflexivity|]. split; [|done]. by destruct b.
Qed.

(** ** The country index *)

Lemma index_countries_app i l a m :
  index_countries i (l ++ [a]) m = push_country (index_countries i l m) (jurisdiction a) (i + zlen l).
Proof.
  revert i m. induction l as [|x l IH]; intros i m; cbn [app index_countries].
  - change (zlen []) with 0. by rewrite Z.add_0_r.
  - rewrite IH. f_equal. unfold zlen. rewrite length_cons. lia.
Qed.

(** The index is the one that a rebuild would produce. *)
Definition csca_indexed (r : CscaRegistry) : Prop :=
  country_index r = index_countries 0 (anchors (csca_anchors r)) ∅.

(** One operation on a registry. *)
Inductive csca_step : CscaRegistry -> CscaRegistry -> Prop :=
| step_add r a r' : csca_add r a = Ok r' -> csca_step r r'
| step_add_country r c cert r' : add_country_csca r c cert = Ok r' -> csca_step r r'
| step_remove r s r' b : csca_remove r s = Ok (r', b) -> csca_step r r'
| step_merge r dir r' n : merge_from_directory r dir = Ok (r', n) -> csca_step r r'
| step_cache r i c : csca_step r (cache_dsc r i c)
| step_clear r : csca_step r (clear_dsc_cache r)
| step_version r v : csca_step r (set_master_list_version r v).

(** A registry built from nothing or from a directory, and any operations. *)
Inductive csca_reachable : CscaRegistry -> Prop :=
| reach_new : csca_reachable csca_new
| reach_dir dir r : csca_from_directory dir = Ok r -> csca_reachable r
| reach_step r r' : csca_reachable r -> csca_step r r' -> csca_reachable r'.

Lemma csca_add_indexed r a r' : csca_indexed r -> csca_add r a = Ok r' -> csca_indexed r'.
Proof.
  unfold csca_indexed, csca_add. intros Hi [= <-]. cbn. by rewrite index_countries_app, Hi.
Qed.

Lemma csca_add_all_indexed l : forall r n r' n',
  csca_indexed r -> csca_add_all r l n = Ok (r', n') -> csca_indexed r'.
Proof.
  induction l as [|a l IH]; intros r n r' n' Hi; cbn [csca_add_all]; [by intros [= <- _]|].
  intros (r1 & Ha & Hl)%bind_Ok. eapply IH; [|done]. by eapply csca_add_indexed.
Qed.

Lemma basic_remove_none r s r' : basic_remove r s = Ok (r', false) -> r' = r.
Proof.
  unfold basic_remove. intros [= <- Hl]. apply Z.ltb_ge in Hl. destruct r as [l]. cbn in *. f_equal.
  apply filter_same. intros a Ha. destruct (names_subject s a) eqn:Hn; [|done]. exfalso.
  pose proof (proj2 (filter_shorter (names_subject s) l) (ex_intro _ a (conj Ha Hn))). lia.
Qed.

Lemma csca_step_indexed r r' : csca_indexed r -> csca_step r r' -> csca_indexed r'.
Proof.
  intros Hi. destruct 1 as [r a r' Ha|r c cert r' Ha|r s r' b Hr|r dir r' n Hm| | |]; try done.
  - by eapply csca_add_indexed.
  - unfold add_country_csca in Ha. injection Ha as <-. unfold csca_indexed in *. cbn.
    by rewrite index_countries_app, Hi.
  - unfold csca_remove in Hr. apply bind_Ok in Hr as ([inner removed] & Hb & [= <- <-]).
    destruct removed; [done|]. apply basic_remove_none in Hb as ->. done.
  - unfold merge_from_directory in Hm. apply bind_Ok in Hm as (d & _ & Hm). by eapply csca_add_all_indexed.
Qed.

Lemma csca_reachable_indexed r : csca_reachable r -> csca_indexed r.
Proof.
  induction 1 as [|dir r Hd|r r' _ IH Hs]; [done| |by eapply csca_step_indexed].
  unfold csca_from_directory in Hd. by apply bind_Ok in Hd as (inner & _ & [= <-]).
Qed.

(** What the index of a list of anchors says of a country. *)
Lemma index_countries_lookup l : forall i m k,
  default [] (index_countries i l m !! k) =
  default [] (m !! k) ++ omap (fun '(j, a) => if bool_decide (jurisdiction a = Some k) then Some j else None)
    (zip (seqZ i (zlen l)) l).
Proof.
  induction l as [|a l IH]; intros i m k; cbn [index_countries].
  - change (zlen []) with 0. by rewrite app_nil_r.
  - rewrite IH. rewrite (seqZ_cons i) by (unfold zlen; rewrite length_cons; lia).
    replace (Z.pred (zlen (a :: l))) with (zlen l) by (unfold zlen; rewrite length_cons; lia).
    change (Z.succ i) with (i + 1). cbn [zip zip_with omap list_omap].
    case_bool_decide as Hk.
    + unfold push_country. rewrite Hk. unfold push_entry. rewrite lookup_insert_eq. simpl. by rewrite <- app_assoc.
    + f_equal. unfold push_country. destruct (jurisdiction a) as [j|]; [|done]. unfold push_entry.
      rewrite lookup_insert_ne; [done|congruence].
Qed.

(** The indices of the anchors that satisfy a predicate, and the anchors at them. *)
Definition positions (p : TrustAnchor -> bool) (i : Z) (l : list TrustAnchor) : list Z :=
  omap (fun '(j, a) => if p a then Some j else None) (zip (seqZ i (zlen l)) l).

Lemma positions_cons p i a l :
  positions p i (a :: l) = (if p a then [i] else []) ++ positions p (i + 1) l.
Proof.
  unfold positions. rewrite (seqZ_cons i) by (unfold zlen; rewrite length_cons; lia).
  replace (Z.pred (zlen (a :: l))) with (zlen l) by (unfold zlen; rewrite length_cons; lia).
  change (Z.succ i) with (i + 1). cbn [zip zip_with omap list_omap]. by destruct (p a).
Qed.

Lemma positions_lookup p l : forall pre,
  omap (fun i => (pre ++ l) !! Z.to_nat i) (positions p (zlen pre) l) = List.filter p l.
Proof.
  induction l as [|a l IH]; intros pre; [done|]. rewrite positions_cons, omap_app. cbn [List.filter].
  assert (omap (fun i => (pre ++ a :: l) !! Z.to_nat i) (positions p (zlen pre + 1) l) = List.filter p l) as ->.
  { rewrite <- (IH (pre ++ [a])), <- app_assoc. f_equal. f_equal. unfold zlen. rewrite length_app. simpl. lia. }
  destruct (p a); [|done]. unfold zlen. cbn. rewrite Nat2Z.id, list_lookup_middle; done.
Qed.

(** In every state that the operations reach, a country lookup returns exactly the
    anchors whose jurisdiction is the upper-case code, in the order they were
    added: the index never points at a wrong, stale or missing anchor. *)
Theorem csca_lookup_exact r country :
  csca_reachable r ->
  get_country_cscas r country =
    List.filter (fun a => bool_decide (jurisdiction a = Some (str_to_uppercase country))) (get_anchors r).
Proof.
  intros Hr%csca_reachable_indexed. cbn [get_anchors csca_registry].
  set (l := anchors (csca_anchors r)). set (k := str_to_uppercase country).
  rewrite <- (positions_lookup _ l []). change (zlen []) with 0. cbn [app].
  trans (omap (fun i => l !! Z.to_nat i) (default [] (country_index r !! k))).
  { unfold get_country_cscas. fold l k. by destruct (country_index r !! k). }
  rewrite Hr, index_countries_lookup, lookup_empty. done.
Qed.

(** ** The jurisdiction index *)

Lemma index_jurisdictions_app i l a m :
  index_jurisdictions i (l ++ [a]) m = set_jurisdiction (index_jurisdictions i l m) (jurisdiction a) (i + zlen l).
Proof.
  revert i m. induction l as [|x l IH]; intros i m; cbn [app index_jurisdictions].
  - change (zlen []) with 0. by rewrite Z.add_0_r.
  - rewrite IH. f_equal. unfold zlen. rewrite length_cons. lia.
Qed.

Definition iaca_indexed (r : IacaRegistry) : Prop :=
  jurisdiction_index r = index_jurisdictions 0 (anchors (iaca_inner r)) ∅.

Inductive iaca_step : IacaRegistry -> IacaRegistry -> Prop :=
| istep_add r a r' : iaca_add r a = Ok r' -> iaca_step r r'
| istep_add_jurisdiction r j cert r' : add_jurisdiction_iaca r j cert = Ok r' -> iaca_step r r'
| istep_remove r s r' b : iaca_remove r s = Ok (r', b) -> iaca_step r r'
| istep_version r v : iaca_step r (set_vical_version r v).

Inductive iaca_reachable : IacaRegistry -> Prop :=
| ireach_new : iaca_reachable iaca_new
| ireach_dir dir r : iaca_from_directory dir = Ok r -> iaca_reachable r
| ireach_step r r' : iaca_reachable r -> iaca_step r r' -> iaca_reachable r'.

Lemma iaca_step_indexed r r' : iaca_indexed r -> iaca_step r r' -> iaca_indexed r'.
Proof.
  unfold iaca_indexed. intros Hi. destruct 1 as [r a r' Ha|r j cert r' Ha|r s r' b Hr|]; try done.
  - unfold iaca_add in Ha. injection Ha as <-. cbn. by rewrite index_jurisdictions_app, Hi.
  - unfold add_jurisdiction_iaca in Ha. injection Ha as <-. cbn. by rewrite index_jurisdictions_app, Hi.
  - unfold iaca_remove in Hr. apply bind_Ok in Hr as ([inner removed] & Hb & [= <- <-]).
    destruct removed; [done|]. apply basic_remove_none in Hb as ->. done.
Qed.

Lemma iaca_reachable_indexed r : iaca_reachable r -> iaca_indexed r.
Proof.
  induction 1 as [|dir r Hd|r r' _ IH Hs]; [done| |by eapply iaca_step_indexed].
  unfold iaca_from_directory in Hd. by apply bind_Ok in Hd as (inner & _ & [= <-]).
Qed.

Lemma positions_snoc p l a : forall i,
  positions p i (l ++ [a]) = positions p i l ++ (if p a then [i + zlen l] else []).
Proof.
  induction l as [|x l IH]; intros i; cbn [app].
  - rewrite positions_cons. change (zlen []) with 0. rewrite Z.add_0_r. by rewrite app_nil_r.
  - rewrite !positions_cons, IH, <- app_assoc. do 2 f_equal.
    replace (i + 1 + zlen l) with (i + zlen (x :: l)) by (unfold zlen; rewrite length_cons; lia). done.
Qed.

(** The index points at the last anchor of a jurisdiction. *)
Lemma index_jurisdictions_lookup l : forall i m k,
  index_jurisdictions i l m !! k =
  match last (positions (fun a => bool_decide (jurisdiction a = Some k)) i l) with
  | Some j => Some j
  | None => m !! k
  end.
Proof.
  induction l as [|a l IH] using rev_ind; intros i m k; [done|].
  rewrite index_jurisdictions_app, positions_snoc. case_bool_decide as Hk.
  - rewrite last_snoc. unfold set_jurisdiction. rewrite Hk. by rewrite lookup_insert_eq.
  - rewrite app_nil_r, <- IH. unfold set_jurisdiction. destruct (jurisdiction a) as [j|]; [|done].
    rewrite lookup_insert_ne; [done|congruence].
Qed.

Lemma last_omap {A B} (f : A -> option B) (l : list A) : (forall x, x ∈ l -> is_Some (f x)) ->
  last (omap f l) = last l ≫= f.
Proof.
  induction l as [|a l IH] using rev_ind; intros Hf; [done|].
  destruct (Hf a) as [b Hb]; [apply elem_of_app; right; by left|].
  rewrite omap_app, last_snoc. cbn [omap list_omap]. rewrite Hb. by rewrite last_snoc.
Qed.

Lemma positions_in_range p l : forall i j, j ∈ positions p i l -> i <= j < i + zlen l.
Proof.
  induction l as [|a l IH]; intros i j; [intros Hj; by apply elem_of_nil in Hj|].
  rewrite positions_cons, elem_of_app. unfold zlen in *. rewrite length_cons.
  intros [Hj|Hj%IH]; [|lia]. destruct (p a); [apply list_elem_of_singleton in Hj; lia|by apply elem_of_nil in Hj].
Qed.

(** In every state that the operations reach, a jurisdiction lookup returns the
    anchor added last for that jurisdiction, and nothing when there is none. *)
Theorem iaca_lookup_exact r j :
  iaca_reachable r ->
  get_jurisdiction_iaca r j =
    last (List.filter (fun a => bool_decide (jurisdiction a = Some (code j))) (get_anchors r)).
Proof.
  intros Hr%iaca_reachable_indexed. cbn [get_anchors iaca_registry]. unfold get_jurisdiction_iaca.
  set (l := anchors (iaca_inner r)). rewrite <- (positions_lookup _ l []). change (zlen []) with 0. cbn [app].
  rewrite last_omap.
  - rewrite Hr, index_jurisdictions_lookup, lookup_empty. by destruct (last _).
  - intros i Hi%positions_in_range. apply lookup_lt_is_Some. unfold zlen in Hi. lia.
Qed.

(** ** Round trips *)

(** [str::to_uppercase] keeps upper-case letters and hyphens. *)
Definition upper_code_byte (b : Z) : bool := (b =? 45) || ((65 <=? b) && (b <=? 90)).
Class UpperLaws : Prop :=
  to_uppercase_upper : forall s, forallb upper_code_byte (str_bytes s) = true -> str_to_uppercase s = s.

(** A jurisdiction is recovered from its code, and a text parses to a jurisdiction
    exactly when its upper-case form is that jurisdiction's code. *)
Theorem jurisdiction_codes `{!UpperLaws} :
  (forall j, from_code (code j) = Some j) /\
  (forall c j, from_code c = Some j <-> str_to_uppercase c = code j).
Proof.
  assert (forall j, assoc from_code_table (code j) = Some j) as Hcode by (by intros []).
  assert (forall j, str_to_uppercase (code j) = code j) as Hup by (intros j; apply to_uppercase_upper; by destruct j).
  assert (forall k j, assoc from_code_table k = Some j -> k = code j) as Hinv.
  { intros k j. unfold assoc. destruct (find _ from_code_table) as [[k' j']|] eqn:Hf; [|done]. intros [= ->].
    apply List.find_some in Hf as [Hin Hk%String.eqb_eq]. cbn [fst] in Hk. subst k'.
    assert (Forall (fun e : string * Jurisdiction => e.1 = code e.2) from_code_table) as Hall by (repeat constructor).
    apply list_elem_of_In in Hin. rewrite Forall_forall in Hall. exact (Hall _ Hin). }
  unfold from_code. split; [intros j; by rewrite Hup|]. intros c j. split; [apply Hinv|by intros ->].
Qed.

(** An anchor written as PEM is read back unchanged, and a registry exchanged with
    isomdl keeps exactly the issuing and reader authorities, in order. *)
Theorem anchor_roundtrips `{!PemEncoder} `{!PemEncoderLaws} :
  (forall a p, anchor_to_pem a = inr p -> anchor_from_pem p = inr a) /\
  (forall r, to_isomdl (from_isomdl r) = r) /\
  (forall r, map anchor_certificate (anchors (from_isomdl (to_isomdl r))) =
     map anchor_certificate
       (List.filter (fun a => bool_decide (purpose a = Iaca) || bool_decide (purpose a = ReaderCa)) (anchors r))).
Proof.
  split_and!.
  - intros [c pu j] p. unfold anchor_to_pem, anchor_from_pem. cbn.
    destruct (cert_to_pem c) as [e|pem] eqn:Hp; [done|]. intros [= <-]. cbn. by rewrite (cert_pem_roundtrip _ _ Hp).
  - unfold to_isomdl, from_isomdl. cbn [anchors].
    induction r as [|[c []] r IH]; [done|..]; cbn [map omap list_omap purpose anchor_certificate]; by rewrite IH.
  - intros [l]. unfold to_isomdl, from_isomdl. cbn [anchors].
    induction l as [|[c [] j] l IH]; [done|..]; cbn [omap list_omap map purpose anchor_certificate List.filter] in *;
      cbn; by rewrite IH.
Qed.
End laws.
