(* ===== verification/ChainWitnesses.v ===== *)
(** * Concrete certificates, lists and registries

    A small public key infrastructure: a root, an intermediate and a leaf, signed by
    a toy scheme, with one revocation list per issuer; the theorems on revocation,
    chains and registries applied to it. *)

From S2P Require Import Prelude Des Governance Apdu X509 Revocation RevocationFacts Chain ChainFacts TrustRegistry TrustRegistryFacts.
Local Open Scope Z_scope.

Module ToyPki.

(** A signature is the signer's key before the message. *)
#[local] Instance toy_verifiers : Verifiers := {|
  verify_with _ key message signature := inr (bool_decide (signature = key ++ message));
  verify_pss_with_salt_len _ _ _ _ _ := inr false;
  feature_ed448_verification := false;
  feature_emrtd_compat := false |}.

#[local] Instance toy_pss : PssDecoder := fun _ => inl "no parameters".

Record Cert := mkCert {
  t_id : Z; t_subject : string; t_issuer : string; t_signer : Z;
  t_after : Z; t_basic : option BasicConstraints }.

#[local] Instance basic_eq_dec : EqDecision BasicConstraints.
Proof. solve_decision. Defined.
#[local] Instance cert_eq_dec : EqDecision Cert.
Proof. solve_decision. Defined.

Definition es256 : AlgorithmIdentifier := mkAlg "1.2.840.10045.4.3.2" None.
Definition authority : option BasicConstraints := Some (mkBasic true None).

Definition root : Cert := mkCert 1 "R" "R" 1 1000 authority.
Definition inter : Cert := mkCert 2 "I" "R" 1 1000 (Some (mkBasic true (Some 0))).
Definition leaf : Cert := mkCert 3 "L" "I" 2 1000 None.
(** An expired certificate that is no authority, signed by the root, and a
    certificate that it signed. *)
Definition old_leaf : Cert := mkCert 4 "O" "R" 1 10 None.
Definition forged : Cert := mkCert 5 "F" "O" 4 1000 None.

Definition by_subject (s : string) : option Cert :=
  find (fun c => String.eqb (t_subject c) s) [root; inter; leaf; old_leaf; forged].

#[local] Instance toy_x509 : X509 := {|
  Name := string;
  name_text n := n;
  name_to_der n := inr (str_bytes n);
  Certificate := Cert;
  cert_subject := t_subject;
  cert_issuer := t_issuer;
  cert_serial c := [t_id c];
  cert_not_before _ := 0;
  cert_not_after := t_after;
  tbs_signature _ := es256;
  signature_algorithm _ := es256;
  cert_signature c := Some [t_signer c; t_id c];
  cert_extensions c := match t_basic c with Some _ => Some [mkExt "2.5.29.19" true [48]] | None => None end;
  subject_public_key c := [t_id c];
  tbs_to_der c := inr [t_id c];
  spki_to_der c := inr [t_id c];
  cert_to_der c := inr [t_id c];
  cert_from_der d :=
    match find (fun c => bool_decide (d = [t_id c])) [root; inter; leaf; old_leaf; forged] with
    | Some c => inr c
    | None => inl "unknown certificate"
    end;
  cert_from_pem s := match by_subject s with Some c => inr c | None => inl "unknown certificate" end;
  get_basic_constraints c := inr (t_basic c);
  get_key_usage _ := inr None;
  get_extended_key_usage _ := inr None;
  bit_string_from_der d := inr d |}.

(** A list is its issuer's name, the signer's key and the serial numbers it revokes. *)
Record List_ := mkList { l_issuer : string; l_signer : Z; l_revoked : list Z }.
Definition root_list : List_ := mkList "R" 1 [4].
Definition inter_list : List_ := mkList "I" 2 [7].

#[local] Instance toy_crl : CrlCodec := {|
  CertificateList := List_;
  crl_from_der d := match d with [1] => inr root_list | [2] => inr inter_list | _ => inl "unknown list" end;
  pem_decode _ := inl "no PEM";
  crl_issuer l := l_issuer l;
  crl_this_update _ := 400;
  crl_next_update _ := Some 600;
  crl_inner_algorithm _ := es256;
  crl_algorithm _ := es256;
  crl_signature l := Some [l_signer l; 0];
  crl_tbs_to_der _ := inr [0];
  crl_extensions _ := None;
  revoked_certificates l := Some (map (fun n => mkRevoked [n] 300 None) (l_revoked l));
  int_from_der _ := None;
  time_text _ := "" |}.

#[local] Instance toy_ocsp : OcspCodec := {|
  OcspResponse := unit;
  ocsp_from_der _ := inr tt;
  ocsp_status _ := Successful;
  ocsp_response_bytes _ := Some (ID_PKIX_OCSP_BASIC, []);
  BasicOcspResponse := unit;
  basic_from_der _ := inr tt;
  basic_produced_at _ := 500;
  basic_responder _ := ByName (N := string) "I";
  basic_responses _ := [mkSingle (mkCertId SHA256_OID (str_bytes "I") [2] [3]) StatusGood 500 None];
  basic_certs _ := None;
  basic_tbs_to_der _ := inr [9];
  basic_algorithm _ := es256;
  basic_signature _ := Some [2; 9];
  ocsp_request_to_der _ := inr [];
  ocsp_time_text _ := "";
  status_text _ := "" |}.

#[local] Instance toy_digests : Digests := fun _ bs => bs.

Definition clk : Clocks := mkClocks (500 * 10 ^ 9) (Some 500).
Definition strict : ChainValidatorConfig := mkChainConfig true false "hard_fail" None [DigitalSignature].
Definition validator : ChainValidator := mkChainValidator [root] [] strict [[1]; [2]] [].

Lemma all_encode (c : Cert) : encodes c.
Proof. by eexists. Qed.
Lemma all_encode_list (l : list Cert) : Forall encodes l.
Proof. apply Forall_forall. intros c _. apply all_encode. Qed.

Lemma crl_evidence_exact_witness :
  exists crl cert issuer, crl_accepts (Some 500) [2] [3] [2] crl cert issuer.
Proof.
  destruct (crl_evidence_exact (Some 500) [2] [3] [2]) as [Hs _].
  destruct (Hs _ ltac:(vm_compute; reflexivity)) as (crl & cert & issuer & Ha & _). eauto.
Defined.

Lemma ocsp_evidence_exact_witness :
  exists cert issuer basic single responder b, ocsp_accepts (Some 500) [] [3] [2] cert issuer basic single responder b.
Proof.
  destruct (ocsp_evidence_exact (Some 500) [] [3] [2]) as [Hs _].
  destruct (Hs _ ltac:(vm_compute; reflexivity)) as (cert & issuer & basic & single & responder & b & Ha & _).
  exists cert, issuer, basic, single, responder, b. exact Ha.
Defined.

Lemma chain_validation_exact_witness :
  exists r, validate_parsed_chain clk validator [leaf; inter] = Ok r /\ cv_valid r = true /\
    path_valid clk validator [leaf; inter].
Proof.
  destruct (chain_validation_exact clk validator [leaf; inter] ltac:(done)
              (fun c _ => all_encode c) (all_encode_list _)) as (r & Hr & Hiff & _).
  assert (cv_valid r = true) as Hv.
  { pose proof Hr as Hr2. vm_compute in Hr2. injection Hr2 as <-. reflexivity. }
  exists r. split; [exact Hr|]. split; [exact Hv|]. exact (proj1 Hiff Hv).
Defined.

Definition accepted : ChainValidationResult :=
  Eval vm_compute in match validate_parsed_chain clk validator [leaf; inter] with
                     | Ok r => r | _ => chain_failure "" end.

Lemma hard_fail_not_revoked_witness : crl_good clk validator [leaf; inter] leaf.
Proof.
  refine (proj1 (hard_fail_not_revoked clk validator [leaf; inter] accepted _ (fun c _ => all_encode c)
    (all_encode_list _) _ _ _ leaf _ _) _); [discriminate|vm_compute; reflexivity|reflexivity|reflexivity| |vm_compute; reflexivity|reflexivity].
  left.
Defined.

(** A revoked certificate is refused under the hard-fail mode. *)
Example revoked_refused :
  match validate_parsed_chain clk validator [old_leaf] with Ok r => cv_valid r = false | _ => False end.
Proof. vm_compute. reflexivity. Qed.

(** A configured intermediate bridges to an anchor although it has expired and is not
    an authority: the end of the path is checked for names and signatures only. *)
Definition bridging : ChainValidator := mkChainValidator [root] [old_leaf] default_chain_config [] [].
Theorem bridge_is_not_constrained :
  (exists r, validate_parsed_chain clk bridging [forged] = Ok r /\ cv_valid r = true) /\
  ~ within_validity (utc_now clk) old_leaf /\ get_basic_constraints old_leaf = inr None /\
  (exists r, validate_parsed_chain clk bridging [forged; old_leaf] = Ok r /\ cv_valid r = false).
Proof.
  split_and!; [eexists; split; [vm_compute; reflexivity|reflexivity]| |reflexivity|
               eexists; split; [vm_compute; reflexivity|reflexivity]].
  unfold within_validity, old_leaf, clk. cbn. lia.
Qed.

(** ** Registries *)

#[local] Instance toy_case : StrCase := {| str_to_uppercase s := s; str_to_lowercase s := s |}.
#[local] Instance toy_upper : UpperLaws.
Proof. by intros s. Qed.

Definition csca_one : CscaRegistry :=
  mkCsca (mkBasicRegistry [mkAnchor _ root Csca (Some "UTO")]) ∅ (push_entry ∅ "UTO" 0) None.

Lemma csca_lookup_exact_witness : @eq (list Cert) (map anchor_certificate (get_country_cscas csca_one "UTO")) [root].
Proof.
  rewrite (csca_lookup_exact csca_one "UTO").
  - vm_compute. reflexivity.
  - eapply reach_step; [apply reach_new|]. by apply (step_add_country csca_new "UTO" (root : @Certificate toy_x509)).
Defined.

Definition iaca_one : IacaRegistry :=
  mkIaca (mkBasicRegistry [mkAnchor _ root Iaca (Some "US-CA")]) {[ "US-CA" := 0 ]} None.

Lemma iaca_lookup_exact_witness : @eq (option Cert) (anchor_certificate <$> get_jurisdiction_iaca iaca_one California) (Some root).
Proof.
  rewrite (iaca_lookup_exact iaca_one California).
  - vm_compute. reflexivity.
  - eapply ireach_step; [apply ireach_new|]. by apply (istep_add_jurisdiction iaca_new California (root : @Certificate toy_x509)).
Defined.

Lemma jurisdiction_codes_witness : from_code "US-CA" = Some California.
Proof. exact (proj1 jurisdiction_codes California). Defined.

#[local] Instance toy_pem : PemEncoder := fun c : Cert =>
  if bool_decide (by_subject (t_subject c) = Some c) then inr (t_subject c) else inl "unknown certificate".
#[local] Instance toy_pem_laws : PemEncoderLaws.
Proof.
  intros c pem. unfold cert_to_pem, toy_pem. case_bool_decide as Hs; [|done]. intros [= <-].
  cbn [cert_from_pem toy_x509]. by rewrite Hs.
Qed.

Lemma anchor_roundtrips_witness :
  anchor_from_pem (mkPemAnchor "R" Iaca (Some "US-CA")) = inr (mkAnchor toy_x509 root Iaca (Some "US-CA")).
Proof.
  apply (proj1 anchor_roundtrips (mkAnchor toy_x509 root Iaca (Some "US-CA"))). vm_compute. reflexivity.
Defined.
End ToyPki.
