(* ===== verification/PassportIntegrity.v ===== *)
(** * Data-group integrity of a passport

    The comparison of the data-group hashes a security object lists with the
    hashes computed from the chip, and the risk report over the mismatches
    ([marty-verification/src/passport_integrity.rs]).  A [BTreeMap<u8, _>] is a
    [gmap] iterated in the order of its keys; the [HashMap] of computed hashes
    borrows the items of the request and is a [gmap] of them.  The [hex] crate
    is a parameter. *)

From stdpp Require Import gmap strings pretty.
From Stdlib Require Import SpecFloat.
From S2P Require Import Prelude RustF64 Apdu.
Local Open Scope string_scope.
Local Open Scope Z_scope.

#[local] Abbreviation vresult := (res VerificationError).

(** The [hex] crate: [hex::decode] (its error is its text), [hex::encode_upper]. *)
Class Hex := {
  hex_decode : string -> string + list Z;
  hex_encode_upper : list Z -> string;
}.
Class HexLaws (H : Hex) := {
  hex_decode_bytes s bs : hex_decode s = inr bs -> bytes_ok bs;
  hex_decode_encode bs : bytes_ok bs -> hex_decode (hex_encode_upper bs) = inr bs;
}.

(** [src/marty-verification/src/passport_integrity.rs:16-25] ComputedHash *)
Record ComputedHash := mkComputedHash {
  ch_data_group : Z;
  ch_hash : string;
  ch_algorithm : string;
  ch_success : bool;
  ch_error_message : option string;
}.

(** [src/marty-verification/src/passport_integrity.rs:9-14] IntegrityRequest *)
Record IntegrityRequest := mkIntegrityRequest {
  rq_algorithm : string;
  expected_hashes : gmap Z string;
  computed_hashes : list ComputedHash;
}.

(** [src/marty-verification/src/passport_integrity.rs:31-46] IntegrityEntry *)
Record IntegrityEntry := mkIntegrityEntry {
  data_group : Z;
  data_group_name : string;
  ie_description : string;
  ie_result : string;
  ie_severity : string;
  is_mandatory : bool;
  is_biometric : bool;
  expected_hash : option string;
  computed_hash : option string;
  ie_algorithm : string;
  ie_message : string;
  ie_is_valid : bool;
  is_critical_error : bool;
}.

(** [src/marty-verification/src/passport_integrity.rs:91-96] SimilarityAnalysis *)
Record SimilarityAnalysis := mkSimilarityAnalysis {
  matching_bytes : Z;
  total_bytes : Z;
  similarity_percent : spec_float;
}.

(** [src/marty-verification/src/passport_integrity.rs:76-89] MismatchDetail *)
Record MismatchDetail := mkMismatchDetail {
  md_data_group : string;
  md_description : string;
  mismatch_type : string;
  md_severity : string;
  md_is_mandatory : bool;
  md_is_biometric : bool;
  md_expected_hash : option string;
  md_computed_hash : option string;
  hash_size_bytes : Z;
  similarity_analysis : option SimilarityAnalysis;
}.

(** [src/marty-verification/src/passport_integrity.rs:98-106] SecurityImplications *)
Record SecurityImplications := mkSecurityImplications {
  risk_level : string;
  risk_description : string;
  affected_mandatory_dgs : Z;
  affected_biometric_dgs : Z;
  total_affected_dgs : Z;
  recommendations : list string;
}.

(** [src/marty-verification/src/passport_integrity.rs:64-74] MismatchAnalysis *)
Record MismatchAnalysis := mkMismatchAnalysis {
  ma_summary : string;
  total_mismatches : Z;
  ma_analysis : option string;
  detailed_mismatches : list MismatchDetail;
  security_implications : option SecurityImplications;
}.

(** [src/marty-verification/src/passport_integrity.rs:48-62] IntegrityReport *)
Record IntegrityReport := mkIntegrityReport {
  total_data_groups : Z;
  successful_verifications : Z;
  failed_verifications : Z;
  critical_errors : Z;
  ir_warnings : Z;
  ir_algorithm : string;
  comparison_entries : list IntegrityEntry;
  overall_status : string;
  success_rate_percent : spec_float;
  mandatory_data_groups : Z;
  is_passport_valid : bool;
  mismatch_analysis : MismatchAnalysis;
}.

(** [src/marty-verification/src/passport_integrity.rs:504-511] DataGroupInfo *)
Record DataGroupInfo := mkDataGroupInfo {
  dg_number : Z;
  dg_name : string;
  dg_description : string;
  dg_mandatory : bool;
  dg_biometric : bool;
}.

(** [src/marty-verification/src/passport_integrity.rs:514-530] NAMES *)
Definition DG_NAMES : list string :=
  ["DG1_MRZ"; "DG2_FACE"; "DG3_FINGERPRINT"; "DG4_IRIS"; "DG5_PORTRAIT"; "DG6_RESERVED";
   "DG7_SIGNATURE"; "DG8_DATA_FEATURES"; "DG9_STRUCTURE_FEATURES"; "DG10_SUBSTANCE_FEATURES";
   "DG11_ADDITIONAL_PERSONAL"; "DG12_ADDITIONAL_DOCUMENT"; "DG13_OPTIONAL_DETAILS";
   "DG14_SECURITY_INFOS"; "DG15_ACTIVE_AUTH"].

(** [src/marty-verification/src/passport_integrity.rs:531-547] DESCRIPTIONS *)
Definition DG_DESCRIPTIONS : list string :=
  ["Machine Readable Zone (MRZ) data"; "Encoded face biometric data";
   "Encoded fingerprint biometric data"; "Encoded iris biometric data"; "Displayed portrait image";
   "Reserved for future use"; "Displayed signature or mark"; "Data features"; "Structure features";
   "Substance features"; "Additional personal details"; "Additional document details";
   "Optional details"; "Security infos"; "Active authentication public key info"].

(** [src/marty-verification/src/passport_integrity.rs:513-556] data_group_info *)
Definition data_group_info (number : Z) : option DataGroupInfo :=
  if number <? 1 then None
  else
    let index := Z.to_nat (number - 1) in
    name ← DG_NAMES !! index;
    description ← DG_DESCRIPTIONS !! index;
    Some (mkDataGroupInfo number name description
            ((number =? 1) || (number =? 2)) ((2 <=? number) && (number <=? 4))).

(** [str::to_ascii_lowercase], and [str::replace] of a character by nothing. *)
Definition to_ascii_lowercase (s : string) : string :=
  String.string_of_list_ascii (ascii_lower <$> String.list_ascii_of_string s).
Definition str_remove (c : ascii) (s : string) : string :=
  String.string_of_list_ascii
    (List.filter (fun a => negb (Ascii.eqb a c)) (String.list_ascii_of_string s)).

(** [src/marty-verification/src/passport_integrity.rs:458-468] normalize_algorithm *)
Definition normalize_algorithm (value : string) : vresult string :=
  let text := str_remove "-" (to_ascii_lowercase value) in
  if String.eqb text "sha1" then Ok "sha1"
  else if String.eqb text "sha256" then Ok "sha256"
  else if String.eqb text "sha384" then Ok "sha384"
  else if String.eqb text "sha512" then Ok "sha512"
  else Err (internal ("unsupported hash algorithm: " +:+ value)).

(** [src/marty-verification/src/passport_integrity.rs:500-502] round2 *)
Definition round2 (value : spec_float) : spec_float :=
  f64_div (f64_round (f64_mul value (f64_of_usize 100))) (f64_of_usize 100).

Section integrity.
Context `{Hex}.

(** [src/marty-verification/src/passport_integrity.rs:452-456] decode_hash *)
Definition decode_hash (value kind : string) (dg : Z) : vresult (list Z) :=
  match hex_decode value with
  | inr bs => Ok bs
  | inl error => Err (internal ("invalid " +:+ kind +:+ " hash for DG" +:+ pretty dg +:+ ": " +:+ error))
  end.

(** [src/marty-verification/src/passport_integrity.rs:446-450] decode_optional *)
Definition decode_optional (value : option string) : vresult (option (list Z)) :=
  match value with
  | Some value => bs ← decode_hash value "report" 0; Ok (Some bs)
  | None => Ok None
  end.

(** [src/marty-verification/src/passport_integrity.rs:496-498] hex_upper *)
Definition hex_upper (value : list Z) : string := hex_encode_upper value.

(** [src/marty-verification/src/passport_integrity.rs:470-494] make_entry *)
Definition make_entry (info : DataGroupInfo) (result severity : string)
    (expected computed : option (list Z)) (algorithm message : string) : IntegrityEntry :=
  mkIntegrityEntry (dg_number info) (dg_name info) (dg_description info) result severity
    (dg_mandatory info) (dg_biometric info) (hex_upper <$> expected) (hex_upper <$> computed)
    algorithm message (String.eqb result "match")
    (String.eqb severity "critical" || (String.eqb result "mismatch" && dg_mandatory info)).

(** [src/marty-verification/src/passport_integrity.rs:110-118] the index of the computed hashes *)
Fixpoint index_computed (computed : gmap Z ComputedHash) (items : list ComputedHash) :
    vresult (gmap Z ComputedHash) :=
  match items with
  | [] => Ok computed
  | item :: items =>
      match computed !! ch_data_group item with
      | Some _ => Err (internal ("duplicate computed hash for DG" +:+ pretty (ch_data_group item)))
      | None => index_computed (<[ch_data_group item := item]> computed) items
      end
  end.

(** [src/marty-verification/src/passport_integrity.rs:131-217] the entry of an expected hash *)
Definition expected_entry (algorithm : string) (info : DataGroupInfo) (dg : Z)
    (expected : list Z) (computed : option ComputedHash) : vresult IntegrityEntry :=
  let by_mandatory := if dg_mandatory info then "critical" else "warning" in
  let missing := "Computed hash missing for " +:+ dg_description info in
  match computed with
  | None => Ok (make_entry info "missing_computed" by_mandatory (Some expected) None algorithm missing)
  | Some value =>
      if negb (ch_success value) then
        Ok (make_entry info "missing_computed" by_mandatory (Some expected) None algorithm
              (default missing (ch_error_message value)))
      else
        computed_algorithm ← normalize_algorithm (ch_algorithm value);
        actual ← decode_hash (ch_hash value) "computed" dg;
        if negb (String.eqb computed_algorithm algorithm) then
          Ok (make_entry info "algorithm_error" "error" (Some expected) (Some actual) algorithm
                ("Algorithm mismatch: expected " +:+ algorithm +:+ ", got " +:+ computed_algorithm))
        else if negb (zlen expected =? zlen actual) then
          Ok (make_entry info "mismatch" "critical" (Some expected) (Some actual) algorithm
                ("Hash size mismatch: expected " +:+ pretty (zlen expected) +:+ " bytes, got "
                 +:+ pretty (zlen actual) +:+ " bytes"))
        else if bool_decide (expected = actual) then
          Ok (make_entry info "match" "info" (Some expected) (Some actual) algorithm
                ("Hash verification successful for " +:+ dg_description info))
        else
          Ok (make_entry info "mismatch" by_mandatory (Some expected) (Some actual) algorithm
                ("Hash mismatch detected for " +:+ dg_description info))
  end.

(** [src/marty-verification/src/passport_integrity.rs:120-124] the accumulators of [compare] *)
Record Tally := mkTally {
  t_entries : list IntegrityEntry;
  t_successful : Z;
  t_failed : Z;
  t_critical : Z;
  t_warnings : Z;
}.
Definition no_tally : Tally := mkTally [] 0 0 0 0.

(** [src/marty-verification/src/passport_integrity.rs:218-228] the counters after one entry *)
Definition tally_entry (t : Tally) (entry : IntegrityEntry) : Tally :=
  if ie_is_valid entry then
    mkTally (t_entries t ++ [entry]) (t_successful t + 1) (t_failed t) (t_critical t) (t_warnings t)
  else if is_critical_error entry then
    mkTally (t_entries t ++ [entry]) (t_successful t) (t_failed t + 1) (t_critical t + 1) (t_warnings t)
  else
    mkTally (t_entries t ++ [entry]) (t_successful t) (t_failed t + 1) (t_critical t) (t_warnings t + 1).

(** [src/marty-verification/src/passport_integrity.rs:126-229] the loop over the expected hashes *)
Fixpoint expected_loop (algorithm : string) (computed : gmap Z ComputedHash)
    (expected_list : list (Z * string)) (t : Tally) : vresult Tally :=
  match expected_list with
  | [] => Ok t
  | (dg, expected_hex) :: rest =>
      match data_group_info dg with
      | None => expected_loop algorithm computed rest t
      | Some info =>
          expected ← decode_hash expected_hex "expected" dg;
          entry ← expected_entry algorithm info dg expected (computed !! dg);
          expected_loop algorithm computed rest (tally_entry t entry)
      end
  end.

(** [src/marty-verification/src/passport_integrity.rs:231-248] the loop over the computed hashes that no expected hash covers *)
Fixpoint unexpected_loop (algorithm : string) (expected_map : gmap Z string)
    (items : list ComputedHash) (entries : list IntegrityEntry) : vresult (list IntegrityEntry) :=
  match items with
  | [] => Ok entries
  | item :: items =>
      match expected_map !! ch_data_group item, data_group_info (ch_data_group item) with
      | None, Some info =>
          actual ← decode_hash (ch_hash item) "computed" (ch_data_group item);
          unexpected_loop algorithm expected_map items
            (entries ++ [make_entry info "missing_expected" "info" None (Some actual) algorithm
                           ("No expected hash in SOD for " +:+ dg_description info)])
      | _, _ => unexpected_loop algorithm expected_map items entries
      end
  end.

(** [src/marty-verification/src/passport_integrity.rs:412-444] mismatch_similarity *)
Definition mismatch_similarity (expected computed : option (list Z)) :
    string * option SimilarityAnalysis :=
  match expected, computed with
  | Some expected, Some computed =>
      if negb (zlen expected =? zlen computed) then ("size_mismatch", None)
      else if zlen expected =? 0 then ("unknown", None)
      else
        let matching := zlen (List.filter (fun '(l, r) => l =? r) (zip expected computed)) in
        let percent := f64_mul (f64_div (f64_of_usize matching) (f64_of_usize (zlen expected)))
                         (f64_of_usize 100) in
        let kind :=
          if f64_lt percent (f64_of_usize 10) then "completely_different"
          else if f64_lt percent (f64_of_usize 50) then "partially_different"
          else "minor_difference" in
        (kind, if String.eqb kind "completely_different" then None
               else Some (mkSimilarityAnalysis matching (zlen expected) (round2 percent)))
  | _, _ => ("unknown", None)
  end.

(** [src/marty-verification/src/passport_integrity.rs:312-326] the detail of one mismatch *)
Definition mismatch_detail (entry : IntegrityEntry) : vresult MismatchDetail :=
  expected ← decode_optional (expected_hash entry);
  computed ← decode_optional (computed_hash entry);
  let '(kind, similarity) := mismatch_similarity expected computed in
  Ok (mkMismatchDetail (data_group_name entry) (ie_description entry) kind (ie_severity entry)
        (is_mandatory entry) (is_biometric entry) (expected_hash entry) (computed_hash entry)
        (from_option zlen 0 expected) similarity).

(** [src/marty-verification/src/passport_integrity.rs:310-327] the loop over the mismatches *)
Fixpoint mismatch_details (mismatches : list IntegrityEntry) (details : list MismatchDetail) :
    vresult (list MismatchDetail) :=
  match mismatches with
  | [] => Ok details
  | entry :: rest => d ← mismatch_detail entry; mismatch_details rest (details ++ [d])
  end.

(** The number of entries that satisfy a condition. *)
Definition count_entries (f : IntegrityEntry -> bool) (l : list IntegrityEntry) : Z :=
  zlen (List.filter f l).

(** [src/marty-verification/src/passport_integrity.rs:329-371] the risk of the mismatches, its description and its recommendations *)
Definition mismatch_risk (mismatches : list IntegrityEntry) : string * string * list string :=
  let mandatory := count_entries is_mandatory mismatches in
  let biometric := count_entries is_biometric mismatches in
  let critical := count_entries is_critical_error mismatches in
  if (0 <? critical) || (0 <? mandatory) then
    ("HIGH", "Critical security risk - mandatory data groups compromised",
     ["REJECT passport - critical security failure detected";
      "Verify passport authenticity through alternative means";
      "Report potential document tampering to authorities";
      "Do not rely on digital verification for this document"])
  else if (0 <? biometric) || (3 <? zlen mismatches) then
    ("MEDIUM",
     (if 0 <? biometric then "Moderate security risk - biometric data integrity compromised"
      else "Moderate security risk - multiple data groups affected"),
     ["Exercise caution - moderate security concerns detected";
      "Perform additional manual verification steps";
      "Consider secondary authentication methods";
      "Review biometric data integrity if affected"])
  else
    ("LOW", "Low security risk - limited impact to optional data groups",
     ["Proceed with caution - minor integrity issues detected";
      "Document findings for audit trail";
      "Consider re-scanning if possible"]).

(** [src/marty-verification/src/passport_integrity.rs:372-394] the recommendations that name data groups *)
Definition named_recommendations (mismatches : list IntegrityEntry) : list string :=
  let names f := String.concat ", " (data_group_name <$> List.filter f mismatches) in
  (if 0 <? count_entries is_mandatory mismatches
   then ["Pay special attention to mandatory data groups: " +:+ names is_mandatory] else [])
  ++ (if 0 <? count_entries is_biometric mismatches
      then ["Verify biometric data independently: " +:+ names is_biometric] else []).

(** [src/marty-verification/src/passport_integrity.rs:295-410] analyze_mismatches *)
Definition analyze_mismatches (entries : list IntegrityEntry) : vresult MismatchAnalysis :=
  let mismatches := List.filter (fun entry => String.eqb (ie_result entry) "mismatch") entries in
  match mismatches with
  | [] =>
      Ok (mkMismatchAnalysis "No hash mismatches detected" 0
            (Some "All data group hashes match their expected values") [] None)
  | _ =>
      details ← mismatch_details mismatches [];
      let '(risk, description, advice) := mismatch_risk mismatches in
      Ok (mkMismatchAnalysis (pretty (zlen mismatches) +:+ " hash mismatches detected")
            (zlen mismatches) None details
            (Some (mkSecurityImplications risk description
                     (count_entries is_mandatory mismatches) (count_entries is_biometric mismatches)
                     (zlen mismatches) (advice ++ named_recommendations mismatches))))
  end.

(** The entries of a [BTreeMap] in the order of its keys. *)
Definition btree_iter (m : gmap Z string) : list (Z * string) :=
  sort_by (fun a b => a.1 <=? b.1) (map_to_list m).

(** [src/marty-verification/src/passport_integrity.rs:252-256] success_rate *)
Definition success_rate (successful total : Z) : spec_float :=
  if total =? 0 then S754_zero false
  else f64_mul (f64_div (f64_of_usize successful) (f64_of_usize total)) (f64_of_usize 100).

(** [src/marty-verification/src/passport_integrity.rs:258-266] the text of the overall status *)
Definition status_text (critical failed successful warnings : Z) : string :=
  if 0 <? critical then "FAILED - Critical errors detected"
  else if successful <? failed then "FAILED - More failures than successes"
  else if 0 <? warnings then "PASSED - With warnings"
  else "PASSED - All verifications successful".

(** [src/marty-verification/src/passport_integrity.rs:108-284] compare *)
Definition compare_hashes (request : IntegrityRequest) : vresult IntegrityReport :=
  algorithm ← normalize_algorithm (rq_algorithm request);
  computed ← index_computed ∅ (computed_hashes request);
  t ← expected_loop algorithm computed (btree_iter (expected_hashes request)) no_tally;
  entries ← unexpected_loop algorithm (expected_hashes request) (computed_hashes request) (t_entries t);
  let entries := sort_by (fun a b => data_group a <=? data_group b) entries in
  let total := zlen entries in
  let rate := success_rate (t_successful t) total in
  let mandatory := count_entries is_mandatory entries in
  let is_valid := (t_critical t =? 0) && (mandatory <=? t_successful t)
                    && f64_le (f64_of_usize 80) rate in
  analysis ← analyze_mismatches entries;
  Ok (mkIntegrityReport total (t_successful t) (t_failed t) (t_critical t) (t_warnings t)
        algorithm entries
        (status_text (t_critical t) (t_failed t) (t_successful t) (t_warnings t))
        (round2 rate) mandatory is_valid analysis).
End integrity.
