(* ===== verification/PassportIntegrityFacts.v ===== *)
(** * Facts about passport integrity

    The comparison assigns every data group of a request its outcome; the
    counters, the status and the verdict of the report are functions of those
    outcomes; the [f64] threshold is the exact fraction four fifths; and the
    comparison succeeds on every well-formed request. *)

From stdpp Require Import gmap strings pretty.
From Stdlib Require Import SpecFloat.
From S2P Require Import Prelude RustF64 Governance GovernanceFacts Apdu PassportIntegrity.
Local Open Scope string_scope.
Local Open Scope Z_scope.

(** ** The specification: the outcome of one data group *)

Inductive outcome := Matched | Differs | WrongSize | WrongAlgorithm | Uncomputed | Unsigned.
#[global] Instance outcome_eq_dec : EqDecision outcome.
Proof. solve_decision. Defined.

Definition outcome_result (o : outcome) : string :=
  match o with
  | Matched => "match"
  | Differs | WrongSize => "mismatch"
  | WrongAlgorithm => "algorithm_error"
  | Uncomputed => "missing_computed"
  | Unsigned => "missing_expected"
  end.

(** DG1 and DG2 are mandatory, and there are fifteen data groups. *)
Definition mandatory_dg (dg : Z) : bool := bool_decide (dg ∈ [1; 2]).
Definition data_groups : list Z := seqZ 1 15.

(** The outcomes the report calls critical. *)
Definition outcome_critical (dg : Z) (o : outcome) : bool :=
  match o with
  | WrongSize => true
  | Differs | Uncomputed => mandatory_dg dg
  | Matched | WrongAlgorithm | Unsigned => false
  end.

Definition item_for (items : list ComputedHash) (dg : Z) : option ComputedHash :=
  List.find (fun item => ch_data_group item =? dg) items.

Section outcomes.
Context `{Hex}.

Definition decodes (text : string) : option (list Z) :=
  match hex_decode text with inr bs => Some bs | inl _ => None end.

Definition names_algorithm (text algorithm : string) : bool :=
  match normalize_algorithm text with Ok name => String.eqb name algorithm | _ => false end.

(** The comparison of an expected hash with what was computed. *)
Definition compared (algorithm expected : string) (item : option ComputedHash) : outcome :=
  match item with
  | None => Uncomputed
  | Some item =>
      if negb (ch_success item) then Uncomputed
      else if names_algorithm (ch_algorithm item) algorithm then
        let a := default [] (decodes expected) in
        let b := default [] (decodes (ch_hash item)) in
        if bool_decide (a = b) then Matched
        else if bool_decide (length a = length b) then Differs else WrongSize
      else WrongAlgorithm
  end.

Definition dg_outcome (request : IntegrityRequest) (algorithm : string) (dg : Z) : option outcome :=
  if bool_decide (dg ∈ data_groups) then
    match expected_hashes request !! dg, item_for (computed_hashes request) dg with
    | Some expected, item => Some (compared algorithm expected item)
    | None, Some _ => Some Unsigned
    | None, None => None
    end
  else None.

(** What the report says of each data group, in order. *)
Definition outcomes (request : IntegrityRequest) (algorithm : string) : list (Z * outcome) :=
  omap (fun dg => o ← dg_outcome request algorithm dg; Some (dg, o)) data_groups.

Definition count_outcomes (f : Z -> outcome -> bool) (l : list (Z * outcome)) : Z :=
  zlen (List.filter (fun '(dg, o) => f dg o) l).

(** ** Well-formed requests *)

Definition item_ok (item : ComputedHash) : bool :=
  is_Ok (normalize_algorithm (ch_algorithm item)) && bool_decide (is_Some (decodes (ch_hash item))).

Definition dg_ok (request : IntegrityRequest) (dg : Z) : bool :=
  match expected_hashes request !! dg, item_for (computed_hashes request) dg with
  | Some expected, item =>
      bool_decide (is_Some (decodes expected))
      && match item with Some item => negb (ch_success item) || item_ok item | None => true end
  | None, Some item => bool_decide (is_Some (decodes (ch_hash item)))
  | None, None => true
  end.

Definition request_ok (request : IntegrityRequest) : bool :=
  is_Ok (normalize_algorithm (rq_algorithm request))
  && bool_decide (NoDup (ch_data_group <$> computed_hashes request))
  && forallb (dg_ok request) data_groups.
End outcomes.

(** ** Data groups *)

Lemma data_group_info_spec dg :
  match data_group_info dg with
  | Some info => dg ∈ data_groups /\ dg_number info = dg /\ dg_mandatory info = mandatory_dg dg
  | None => dg ∉ data_groups
  end.
Proof.
  assert (Hall : Forall (fun dg => match data_group_info dg with
      | Some info => dg_number info = dg /\ dg_mandatory info = mandatory_dg dg | None => False end) data_groups)
    by (vm_compute; repeat constructor).
  destruct (decide (dg ∈ data_groups)) as [Hin|Hin].
  - rewrite Forall_forall in Hall. specialize (Hall dg Hin). by destruct (data_group_info dg).
  - assert (dg < 1 \/ 15 < dg) as Hdg by (unfold data_groups in Hin; rewrite elem_of_seqZ in Hin; lia).
    unfold data_group_info. destruct (dg <? 1) eqn:Hlt; [done|].
    assert (Hnone : DG_NAMES !! Z.to_nat (dg - 1) = None)
      by (apply lookup_ge_None_2; change (length DG_NAMES) with 15%nat; lia).
    by rewrite Hnone.
Qed.

(** ** The loops *)

Section loops.
Context `{Hex} {L : HexLaws _}.

(** The index of the computed hashes finds the item of a data group. *)
Lemma index_computed_spec items : forall m,
  match index_computed m items with
  | Ok m' => NoDup (ch_data_group <$> items)
             /\ (forall dg, m !! dg <> None -> dg ∉ ch_data_group <$> items)
             /\ forall dg, m' !! dg = match m !! dg with Some i => Some i | None => item_for items dg end
  | Err _ => ~ (NoDup (ch_data_group <$> items)
                /\ forall dg, m !! dg <> None -> dg ∉ ch_data_group <$> items)
  | Panic => False
  end.
Proof.
  induction items as [|item items IH]; intros m; simpl.
  - split; [constructor|]. split; [set_solver|]. intros dg. by destruct (m !! dg).
  - destruct (m !! ch_data_group item) eqn:E.
    + intros [_ Hm]. apply (Hm (ch_data_group item)); [congruence|set_solver].
    + specialize (IH (<[ch_data_group item := item]> m)).
      destruct (index_computed _ items) as [m'| |]; [|intros [Hnd Hm]; apply IH|done].
      * destruct IH as (Hnd & Hm & Hl). split; [|split].
        -- constructor; [|done]. apply Hm. by rewrite lookup_insert_eq.
        -- intros dg Hdg. apply not_elem_of_cons. split; [congruence|]. apply Hm.
           rewrite lookup_insert_ne by congruence. done.
        -- intros dg. rewrite Hl. unfold item_for. simpl.
           destruct (Z.eqb_spec (ch_data_group item) dg) as [<-|Hne].
           ++ by rewrite lookup_insert_eq, E.
           ++ by rewrite lookup_insert_ne.
      * apply NoDup_cons in Hnd as [Hni Hnd]. split; [done|]. intros dg Hdg.
        destruct (decide (dg = ch_data_group item)) as [->|Hne]; [done|].
        rewrite lookup_insert_ne in Hdg by done. specialize (Hm dg Hdg). set_solver.
Qed.

(** What an entry of the report says. *)
Definition hash_text (text : option string) : Prop :=
  match text with Some text => is_Some (decodes text) | None => True end.

Record entry_says (entry : IntegrityEntry) (dg : Z) (o : outcome) : Prop := {
  says_dg : data_group entry = dg;
  says_known : dg ∈ data_groups;
  says_result : ie_result entry = outcome_result o;
  says_mandatory : is_mandatory entry = mandatory_dg dg;
  says_critical : is_critical_error entry = outcome_critical dg o;
  says_valid : ie_is_valid entry = bool_decide (o = Matched);
  says_hashes : hash_text (expected_hash entry) /\ hash_text (computed_hash entry);
}.

Lemma decode_hash_spec text kind dg :
  match decode_hash text kind dg with
  | Ok bs => decodes text = Some bs | Err _ => decodes text = None | Panic => False
  end.
Proof. unfold decode_hash, decodes. by destruct (hex_decode text). Qed.

Lemma hash_text_upper text bs : decodes text = Some bs -> hash_text (Some (hex_upper bs)).
Proof.
  unfold decodes. destruct (hex_decode text) eqn:E; intros [= ->].
  unfold hash_text, decodes, hex_upper. rewrite hex_decode_encode; [done|]. by eapply hex_decode_bytes.
Qed.

Definition item_fine (item : option ComputedHash) : bool :=
  match item with Some item => negb (ch_success item) || item_ok item | None => true end.

Lemma make_entry_says info dg o severity e c alg msg :
  data_group_info dg = Some info ->
  String.eqb severity "critical" || (String.eqb (outcome_result o) "mismatch" && mandatory_dg dg)
    = outcome_critical dg o ->
  hash_text (hex_upper <$> e) -> hash_text (hex_upper <$> c) ->
  entry_says (make_entry info (outcome_result o) severity e c alg msg) dg o.
Proof.
  intros Hinfo Hcrit He Hc. pose proof (data_group_info_spec dg) as Hdg. rewrite Hinfo in Hdg.
  destruct Hdg as (Hin & Hn & Hm). constructor; simpl; rewrite ?Hm; try done. by destruct o.
Qed.

Definition by_mandatory (dg : Z) : string := if mandatory_dg dg then "critical" else "warning".

Lemma by_mandatory_critical dg : String.eqb (by_mandatory dg) "critical" = mandatory_dg dg.
Proof. unfold by_mandatory. by destruct (mandatory_dg dg). Qed.

Lemma expected_entry_spec alg info dg text bs item :
  data_group_info dg = Some info -> decodes text = Some bs ->
  match expected_entry alg info dg bs item with
  | Ok entry => entry_says entry dg (compared alg text item) /\ item_fine item = true
  | Err _ => item_fine item = false
  | Panic => False
  end.
Proof.
  intros Hinfo Hbs. pose proof (data_group_info_spec dg) as Hdg. rewrite Hinfo in Hdg.
  destruct Hdg as (_ & _ & Hm). pose proof (hash_text_upper _ _ Hbs) as Hup.
  pose proof (by_mandatory_critical dg) as Hby.
  unfold expected_entry. rewrite Hm. fold (by_mandatory dg).
  destruct item as [item|]; simpl; [|split; [|done]; apply (make_entry_says _ _ Uncomputed); try done;
    by rewrite Hby, orb_false_r].
  destruct (ch_success item); simpl; [|split; [|done]; apply (make_entry_says _ _ Uncomputed); try done;
    by rewrite Hby, orb_false_r].
  unfold item_ok, names_algorithm. destruct (normalize_algorithm (ch_algorithm item)) as [name| |] eqn:Hname; simpl; [|done|].
  2: { exfalso. unfold normalize_algorithm in Hname. by repeat case_match. }
  pose proof (decode_hash_spec (ch_hash item) "computed" dg) as Hc.
  destruct (decode_hash (ch_hash item) "computed" dg) as [actual| |]; simpl; [|by rewrite Hc|done].
  rewrite Hbs, Hc. simpl. pose proof (hash_text_upper _ _ Hc) as Hupc.
  destruct (String.eqb name alg); simpl;
    [|split; [|done]; by apply (make_entry_says _ _ WrongAlgorithm)].
  unfold zlen. destruct (Z.eqb_spec (Z.of_nat (length bs)) (Z.of_nat (length actual))) as [Hlen|Hlen]; simpl.
  - case_bool_decide as Heq; [split; [|done]; by apply (make_entry_says _ _ Matched)|].
    rewrite bool_decide_true by lia. split; [|done].
    apply (make_entry_says _ _ Differs); try done. simpl. by rewrite Hby, orb_diag.
  - rewrite bool_decide_false by (intros ->; done). rewrite bool_decide_false by lia.
    split; [|done]. by apply (make_entry_says _ _ WrongSize).
Qed.

(** The loop over the expected hashes: one entry for each known data group. *)
Definition known (dg : Z) : bool := bool_decide (dg ∈ data_groups).

Lemma known_info dg : known dg = match data_group_info dg with Some _ => true | None => false end.
Proof.
  pose proof (data_group_info_spec dg). unfold known. destruct (data_group_info dg).
  - rewrite bool_decide_true; naive_solver.
  - by rewrite bool_decide_false.
Qed.

Definition pair_fine (m : gmap Z ComputedHash) (p : Z * string) : bool :=
  bool_decide (is_Some (decodes p.2)) && item_fine (m !! p.1).

Lemma expected_loop_spec alg m l : forall t,
  let pairs := List.filter (fun p => known p.1) l in
  match expected_loop alg m l t with
  | Ok t' => forallb (pair_fine m) pairs = true /\
             exists es, t' = foldl tally_entry t es /\
               Forall2 (fun e p => entry_says e p.1 (compared alg p.2 (m !! p.1))) es pairs
  | Err _ => forallb (pair_fine m) pairs = false
  | Panic => False
  end.
Proof.
  induction l as [|[dg text] l IH]; intros t; simpl; [by split; [|exists []]|].
  rewrite known_info. destruct (data_group_info dg) as [info|] eqn:Hinfo; [|apply IH].
  simpl. unfold pair_fine at 1 3. simpl.
  pose proof (decode_hash_spec text "expected" dg) as Hd.
  destruct (decode_hash text "expected" dg) as [bs| |]; simpl; [|by rewrite Hd|done].
  pose proof (expected_entry_spec alg info dg text bs (m !! dg) Hinfo Hd) as He. rewrite Hd. simpl.
  destruct (expected_entry alg info dg bs (m !! dg)) as [entry| |]; simpl; [|by rewrite He|done].
  destruct He as [Hsays ->]. simpl. specialize (IH (tally_entry t entry)). simpl in IH.
  destruct (expected_loop alg m l (tally_entry t entry)); [|done|done].
  destruct IH as (Hfine & es & -> & Hes). split; [done|]. exists (entry :: es). by split; [|constructor].
Qed.

(** The loop over the computed hashes: one entry for each known data group
    that no expected hash covers. *)
Definition unsigned (expected : gmap Z string) (item : ComputedHash) : bool :=
  bool_decide (expected !! ch_data_group item = None) && known (ch_data_group item).

Lemma unsigned_match expected item : unsigned expected item =
  match expected !! ch_data_group item, data_group_info (ch_data_group item) with
  | None, Some _ => true | _, _ => false
  end.
Proof. unfold unsigned. rewrite known_info. by destruct (expected !! _), (data_group_info _). Qed.

Lemma unexpected_loop_spec alg expected items : forall entries,
  let extra := List.filter (unsigned expected) items in
  match unexpected_loop alg expected items entries with
  | Ok entries' => forallb (fun i => bool_decide (is_Some (decodes (ch_hash i)))) extra = true /\
             exists es, entries' = (entries ++ es)%list /\
               Forall2 (fun e i => entry_says e (ch_data_group i) Unsigned) es extra
  | Err _ => forallb (fun i => bool_decide (is_Some (decodes (ch_hash i)))) extra = false
  | Panic => False
  end.
Proof.
  induction items as [|item items IH]; intros entries; simpl;
    [split; [done|exists []; split; [by rewrite app_nil_r|constructor]]|].
  rewrite (unsigned_match expected item).
  destruct (expected !! ch_data_group item); simpl; [apply IH|].
  destruct (data_group_info (ch_data_group item)) as [info|] eqn:Hinfo; simpl; [|apply IH].
  pose proof (decode_hash_spec (ch_hash item) "computed" (ch_data_group item)) as Hd.
  destruct (decode_hash _ _ _) as [bs| |]; simpl; [|by rewrite Hd|done]. rewrite Hd. simpl.
  match goal with |- context [(entries ++ [?e])%list] =>
    assert (Hsays : entry_says e (ch_data_group item) Unsigned)
      by (apply (make_entry_says _ _ Unsigned); [done|done|done|by eapply hash_text_upper]);
    specialize (IH (entries ++ [e])%list); simpl in IH end.
  destruct (unexpected_loop _ _ _ _); [|done|done]. destruct IH as (Hfine & es & -> & Hes).
  split; [done|]. eexists. split; [by rewrite <- app_assoc|]. by constructor.
Qed.

(** The mismatch analysis succeeds on the entries of the loops. *)
Lemma decode_optional_total text : hash_text text -> is_Ok (decode_optional text) = true.
Proof.
  destruct text as [text|]; simpl; [|done]. intros [bs Hbs]. unfold decode_hash, decodes in *.
  by destruct (hex_decode text).
Qed.

Lemma mismatch_details_total mismatches : forall details,
  Forall (fun e => hash_text (expected_hash e) /\ hash_text (computed_hash e)) mismatches ->
  is_Ok (mismatch_details mismatches details) = true.
Proof.
  induction mismatches as [|e l IH]; intros details Hl; [done|].
  apply Forall_cons in Hl as [[He%decode_optional_total Hc%decode_optional_total] Hl]. simpl.
  unfold mismatch_detail. destruct (decode_optional (expected_hash e)); [|done|done].
  destruct (decode_optional (computed_hash e)); [|done|done]. simpl.
  destruct (mismatch_similarity _ _). simpl. by apply IH.
Qed.

Lemma analyze_mismatches_total entries :
  Forall (fun e => hash_text (expected_hash e) /\ hash_text (computed_hash e)) entries ->
  is_Ok (analyze_mismatches entries) = true.
Proof.
  intros Hall. unfold analyze_mismatches.
  assert (Hm := mismatch_details_total
    (List.filter (fun e => String.eqb (ie_result e) "mismatch") entries) []).
  destruct (List.filter _ entries) as [|e l] eqn:E; [done|]. rewrite <- E in *. clear E.
  destruct (mismatch_details _ []) as [d| |]; simpl in *.
  - by destruct (mismatch_risk _) as [[? ?] ?].
  - apply Hm. rewrite Forall_forall in Hall |- *. intros x Hx. apply Hall.
    apply list_elem_of_In, filter_In in Hx as [Hx _]. by apply list_elem_of_In.
  - apply Hm. rewrite Forall_forall in Hall |- *. intros x Hx. apply Hall.
    apply list_elem_of_In, filter_In in Hx as [Hx _]. by apply list_elem_of_In.
Qed.
End loops.

(** ** The report *)

Lemma NoDup_fmap_filter {A B} (g : A -> B) (f : A -> bool) l :
  NoDup (g <$> l) -> NoDup (g <$> List.filter f l).
Proof.
  induction l as [|x l IH]; simpl; [done|]. rewrite NoDup_cons. intros [Hx Hl].
  destruct (f x); [|by apply IH]. simpl. apply NoDup_cons. split; [|by apply IH].
  intros (y & Hy & Hin)%list_elem_of_fmap. apply Hx. rewrite Hy. apply list_elem_of_fmap_2.
  apply list_elem_of_In, filter_In in Hin as [Hin _]. by apply list_elem_of_In.
Qed.

Lemma elem_of_bfilter {A} (f : A -> bool) x l : x ∈ List.filter f l <-> x ∈ l /\ f x = true.
Proof. by rewrite !list_elem_of_In, filter_In. Qed.

Lemma forallb_elem {A} (f : A -> bool) l : forallb f l = true <-> forall x, x ∈ l -> f x = true.
Proof. rewrite forallb_forall. split; intros Hl x Hx; apply Hl; by apply list_elem_of_In. Qed.

Lemma btree_iter_perm m : btree_iter m ≡ₚ map_to_list m.
Proof. apply sort_by_perm. Qed.

Lemma elem_of_btree_iter m k v : (k, v) ∈ btree_iter m <-> m !! k = Some v.
Proof. by rewrite btree_iter_perm, elem_of_map_to_list. Qed.

Lemma item_for_Some items dg item :
  NoDup (ch_data_group <$> items) ->
  item_for items dg = Some item <-> item ∈ items /\ ch_data_group item = dg.
Proof.
  unfold item_for. induction items as [|i items IH]; simpl; [set_solver|].
  rewrite NoDup_cons. intros [Hi Hnd]. specialize (IH Hnd). rewrite elem_of_cons.
  destruct (Z.eqb_spec (ch_data_group i) dg) as [<-|Hne]; [|rewrite IH; naive_solver].
  split; [naive_solver|]. intros [[->|Hin] Hdg]; [done|]. exfalso. apply Hi. rewrite <- Hdg.
  by apply list_elem_of_fmap_2.
Qed.

Section report.
Context `{Hex} {L : HexLaws _}.
Context (request : IntegrityRequest) (alg : string).

Lemma elem_of_outcomes dg o : (dg, o) ∈ outcomes request alg <-> dg_outcome request alg dg = Some o.
Proof.
  unfold outcomes. rewrite list_elem_of_omap. split.
  - intros (dg' & _ & Ho). destruct (dg_outcome request alg dg') eqn:E; simpl in Ho; naive_solver.
  - intros Ho. exists dg. split; [|by rewrite Ho]. unfold dg_outcome in Ho. by case_bool_decide.
Qed.

Lemma outcomes_sorted : StronglySorted (fun a b : Z * outcome => a.1 < b.1) (outcomes request alg).
Proof.
  unfold outcomes. assert (Hs : StronglySorted Z.lt data_groups)
    by (vm_compute; repeat (constructor; try done)).
  induction Hs as [|dg l Hl IH Hall]; simpl; [constructor|].
  destruct (dg_outcome request alg dg) as [o|]; simpl; [|done]. constructor; [done|].
  rewrite Forall_forall in Hall. apply Forall_forall. intros [dg' o'] Hin. apply list_elem_of_omap in Hin as (x & Hx & Ho).
  destruct (dg_outcome request alg x); simpl in Ho; [|done]. injection Ho as <- <-. by apply Hall.
Qed.

Lemma outcomes_NoDup : NoDup (outcomes request alg).
Proof.
  assert (Hs := outcomes_sorted). induction Hs as [|p l Hl IH Hall]; constructor; [|done].
  rewrite Forall_forall in Hall. intros Hin%Hall. lia.
Qed.

(** The outcomes the two loops produce. *)
Definition loop_outcomes : list (Z * outcome) :=
  (((fun p => (p.1, compared alg p.2 (item_for (computed_hashes request) p.1)))
     <$> List.filter (fun p => known p.1) (btree_iter (expected_hashes request)))
   ++ ((fun i => (ch_data_group i, Unsigned))
     <$> List.filter (unsigned (expected_hashes request)) (computed_hashes request)))%list.

Lemma loop_outcomes_perm :
  NoDup (ch_data_group <$> computed_hashes request) -> loop_outcomes ≡ₚ outcomes request alg.
Proof.
  intros Hnd. apply NoDup_Permutation; [|apply outcomes_NoDup|].
  - apply NoDup_app. split; [|split].
    + apply (NoDup_fmap_1 fst). rewrite <- list_fmap_compose. apply NoDup_fmap_filter.
      change (NoDup (fst <$> btree_iter (expected_hashes request))).
      rewrite btree_iter_perm. apply NoDup_fst_map_to_list.
    + intros p Hp Hq. apply list_elem_of_fmap in Hp as ([dg text] & -> & [Hp _]%elem_of_bfilter).
      apply list_elem_of_fmap in Hq as (i & [= -> _] & [_ Hq]%elem_of_bfilter). simpl in *.
      apply elem_of_btree_iter in Hp. unfold unsigned in Hq. rewrite Hp in Hq. done.
    + apply (NoDup_fmap_1 fst). rewrite <- list_fmap_compose. by apply NoDup_fmap_filter.
  - intros [dg o]. rewrite elem_of_outcomes. unfold loop_outcomes, dg_outcome. rewrite elem_of_app, !list_elem_of_fmap.
    fold (known dg). split.
    + intros [([dg' text] & [= -> ->] & [Hin Hk]%elem_of_bfilter)|(i & [= -> ->] & [Hin Hu]%elem_of_bfilter)]; simpl in *.
      * apply elem_of_btree_iter in Hin. by rewrite Hk, Hin.
      * apply andb_prop in Hu as [Hu Hk]. rewrite Hk. case_bool_decide as Hn; [|done]. rewrite Hn.
        assert (Hi : item_for (computed_hashes request) (ch_data_group i) = Some i) by by apply item_for_Some.
        by rewrite Hi.
    + destruct (known dg) eqn:Hk; [|done]. destruct (expected_hashes request !! dg) as [text|] eqn:Ht.
      * intros [= <-]. left. exists (dg, text). by rewrite elem_of_bfilter, elem_of_btree_iter.
      * destruct (item_for (computed_hashes request) dg) as [i|] eqn:Hi; [|done]. intros [= <-]. right.
        apply item_for_Some in Hi as [Hin <-]; [|done]. exists i. split; [done|].
        apply elem_of_bfilter. split; [done|]. unfold unsigned. by rewrite Ht, Hk.
Qed.

(** The loops accept exactly the well-formed requests. *)
Lemma loops_fine m :
  NoDup (ch_data_group <$> computed_hashes request) ->
  (forall dg, m !! dg = item_for (computed_hashes request) dg) ->
  forallb (dg_ok request) data_groups =
  forallb (pair_fine m) (List.filter (fun p => known p.1) (btree_iter (expected_hashes request)))
  && forallb (fun i => bool_decide (is_Some (decodes (ch_hash i))))
       (List.filter (unsigned (expected_hashes request)) (computed_hashes request)).
Proof.
  intros Hnd Hm. apply eq_true_iff_eq. rewrite andb_true_iff, !forallb_elem. split.
  - intros Hall. split.
    + intros [dg text] [Hin Hk]%elem_of_bfilter. apply elem_of_btree_iter in Hin. simpl in Hk.
      apply bool_decide_eq_true in Hk. specialize (Hall dg Hk). unfold dg_ok in Hall.
      unfold pair_fine. simpl. by rewrite Hm, Hin in *.
    + intros i [Hin Hu]%elem_of_bfilter. apply andb_prop in Hu as [Hn Hk].
      apply bool_decide_eq_true in Hk, Hn. specialize (Hall _ Hk). unfold dg_ok in Hall.
      rewrite Hn in Hall. assert (Hi : item_for (computed_hashes request) (ch_data_group i) = Some i)
        by by apply item_for_Some. by rewrite Hi in Hall.
  - intros [Hp Hu] dg Hdg. assert (Hk : known dg = true) by by apply bool_decide_eq_true.
    unfold dg_ok. destruct (expected_hashes request !! dg) as [text|] eqn:Ht.
    + specialize (Hp (dg, text)). unfold pair_fine in Hp. simpl in Hp. rewrite Hm in Hp.
      apply Hp, elem_of_bfilter. by rewrite elem_of_btree_iter.
    + destruct (item_for (computed_hashes request) dg) as [i|] eqn:Hi; [|done].
      apply item_for_Some in Hi as [Hin <-]; [|done]. apply Hu, elem_of_bfilter.
      unfold unsigned. by rewrite Ht, Hk.
Qed.
End report.

(** The counters as functions of the outcomes. *)
Definition matched (_ : Z) (o : outcome) : bool := bool_decide (o = Matched).
Definition failing (_ : Z) (o : outcome) : bool := match o with Matched | Unsigned => false | _ => true end.
Definition warned (dg : Z) (o : outcome) : bool := failing dg o && negb (outcome_critical dg o).
Definition mandatory (dg : Z) (_ : outcome) : bool := mandatory_dg dg.

Section counters.
Context `{Hex}.

Abbreviation says := (fun e p => entry_says e p.1 p.2).

Lemma count_outcomes_cons f p l :
  count_outcomes f (p :: l) = (if f p.1 p.2 then 1 else 0) + count_outcomes f l.
Proof. destruct p as [dg o]. unfold count_outcomes, zlen. simpl. destruct (f dg o); simpl; lia. Qed.

Lemma count_outcomes_app f l k : count_outcomes f (l ++ k)%list = count_outcomes f l + count_outcomes f k.
Proof. unfold count_outcomes, zlen. rewrite List.filter_app, length_app. lia. Qed.

Lemma count_unsigned f (items : list ComputedHash) : (forall dg, f dg Unsigned = false) ->
  count_outcomes f ((fun i => (ch_data_group i, Unsigned)) <$> items) = 0.
Proof.
  intros Hf. induction items as [|i l IH]; [done|].
  rewrite fmap_cons, count_outcomes_cons, IH. simpl. by rewrite Hf.
Qed.

#[global] Instance count_outcomes_perm f : Proper ((≡ₚ) ==> eq) (count_outcomes f).
Proof.
  intros l k Hp. unfold count_outcomes. assert (Hf : List.filter (fun '(dg, o) => f dg o) l
    ≡ₚ List.filter (fun '(dg, o) => f dg o) k); [|unfold zlen; by rewrite Hf].
  induction Hp; simpl; repeat case_match; eauto using Permutation; by etrans.
Qed.

Lemma tally_says es ps : forall t,
  Forall2 says es ps -> Forall (fun p => p.2 <> Unsigned) ps ->
  foldl tally_entry t es =
  mkTally (t_entries t ++ es) (t_successful t + count_outcomes matched ps)
    (t_failed t + count_outcomes failing ps) (t_critical t + count_outcomes outcome_critical ps)
    (t_warnings t + count_outcomes warned ps).
Proof.
  intros t Hs. revert t. induction Hs as [|e [dg o] es ps He Hs IH]; intros t Hps.
  - destruct t. unfold count_outcomes, zlen. simpl. rewrite app_nil_r, !Z.add_0_r. done.
  - apply Forall_cons in Hps as [Ho Hps]. simpl. rewrite IH by done. destruct He as [_ _ _ _ Hc Hv _].
    unfold tally_entry. simpl in Hc, Hv, Ho. rewrite Hv, Hc, !count_outcomes_cons. simpl.
    generalize (count_outcomes matched ps), (count_outcomes failing ps),
      (count_outcomes outcome_critical ps), (count_outcomes warned ps). intros n1 n2 n3 n4.
    unfold matched, warned, failing. destruct o; try done; simpl; try destruct (mandatory_dg dg); simpl;
      rewrite <- app_assoc; f_equal; lia.
Qed.

Lemma count_entries_says f g es ps : Forall2 says es ps ->
  (forall e dg o, entry_says e dg o -> f e = g dg o) -> count_entries f es = count_outcomes g ps.
Proof.
  intros Hs Hfg. induction Hs as [|e [dg o] es ps He Hs IH]; [done|].
  rewrite count_outcomes_cons, <- IH. unfold count_entries, zlen. simpl.
  simpl in He. rewrite (Hfg _ _ _ He). destruct (g dg o); simpl; lia.
Qed.
End counters.

(** ** The comparison as a whole *)

Lemma sorted_keys_inj (os : list (Z * outcome)) a b :
  StronglySorted (fun a b : Z * outcome => a.1 < b.1) os -> a ∈ os -> b ∈ os -> a.1 = b.1 -> a = b.
Proof.
  induction 1 as [|p os Hos IH Hall]; [set_solver|]. rewrite !elem_of_cons. rewrite Forall_forall in Hall.
  intros [->|Ha] [->|Hb] Hab; [done| | |by apply IH].
  - specialize (Hall _ Hb). lia.
  - specialize (Hall _ Ha). lia.
Qed.

Section comparison.
Context `{Hex} {L : HexLaws _}.

Record report_says (rep : IntegrityReport) (os : list (Z * outcome)) : Prop := {
  rs_entries : Forall2 (fun e p => entry_says e p.1 p.2) (comparison_entries rep) os;
  rs_total : total_data_groups rep = zlen os;
  rs_successful : successful_verifications rep = count_outcomes matched os;
  rs_failed : failed_verifications rep = count_outcomes failing os;
  rs_critical : critical_errors rep = count_outcomes outcome_critical os;
  rs_warnings : ir_warnings rep = count_outcomes warned os;
  rs_mandatory : mandatory_data_groups rep = count_outcomes mandatory os;
  rs_valid : is_passport_valid rep =
    (critical_errors rep =? 0) && (mandatory_data_groups rep <=? successful_verifications rep)
    && f64_le (f64_of_usize 80) (success_rate (successful_verifications rep) (total_data_groups rep));
  rs_analysis : analyze_mismatches (comparison_entries rep) = Ok (mismatch_analysis rep);
}.

(** Sorting by data group puts the entries in the order of the outcomes. *)
Lemma sorted_entries entries ps os :
  Forall2 (fun e p => entry_says e p.1 p.2) entries ps -> ps ≡ₚ os ->
  StronglySorted (fun a b : Z * outcome => a.1 < b.1) os ->
  Forall2 (fun e p => entry_says e p.1 p.2) (sort_by (fun a b => data_group a <=? data_group b) entries) os.
Proof.
  intros Hs Hp Hos. set (le := fun a b => data_group a <=? data_group b).
  destruct (Permutation_Forall2 (Permutation_sym (sort_by_perm le entries)) Hs) as (ps' & Hps & Hs').
  enough (ps' = os) as <- by done.
  assert (Hsorted := sort_by_sorted le ltac:(unfold le; lia) ltac:(unfold le; lia) entries).
  apply (StronglySorted_unique_strong (fun a b => a.1 <= b.1)).
  - intros a b Ha Hb Hab Hba. rewrite <- Hps, Hp in Ha. by apply (sorted_keys_inj os); [..|lia].
  - clear -Hs' Hsorted. induction Hs' as [|e p es ps He Hs' IH]; [constructor|].
    inversion_clear Hsorted as [|? ? Hes Hall]. constructor; [by apply IH|].
    apply Forall_forall. intros q Hq. apply list_elem_of_lookup in Hq as [i Hq].
    destruct (Forall2_lookup_r _ _ _ _ _ Hs' Hq) as (e' & He' & Hsays).
    rewrite Forall_lookup in Hall. specialize (Hall i e' He'). unfold le in Hall.
    rewrite (says_dg _ _ _ He), (says_dg _ _ _ Hsays) in Hall. lia.
  - clear -Hos. induction Hos as [|p os Hos IH Hall]; constructor; [done|].
    eapply Forall_impl; [done|]. simpl. lia.
  - by rewrite <- Hps.
Qed.

Lemma normalize_algorithm_no_panic text : normalize_algorithm text <> Panic.
Proof. unfold normalize_algorithm. by repeat case_match. Qed.

Lemma entries_hashes entries os : Forall2 (fun e p => entry_says e p.1 p.2) entries os ->
  Forall (fun e => hash_text (expected_hash e) /\ hash_text (computed_hash e)) entries.
Proof. induction 1 as [|e p es ps He _ IH]; constructor; [apply (says_hashes _ _ _ He)|done]. Qed.

Lemma compared_signed alg text item : compared alg text item <> Unsigned.
Proof. unfold compared. by repeat case_match. Qed.

(** The entries of the two loops, with their counters. *)
Lemma loops_say request alg (m : gmap Z ComputedHash) t es entries :
  NoDup (ch_data_group <$> computed_hashes request) ->
  (forall dg, m !! dg = item_for (computed_hashes request) dg) ->
  t = foldl tally_entry no_tally es ->
  Forall2 (fun e p => entry_says e p.1 (compared alg p.2 (m !! p.1))) es
    (List.filter (fun p => known p.1) (btree_iter (expected_hashes request))) ->
  Forall2 (fun e i => entry_says e (ch_data_group i) Unsigned) entries
    (List.filter (unsigned (expected_hashes request)) (computed_hashes request)) ->
  let os := outcomes request alg in
  Forall2 (fun e p => entry_says e p.1 p.2)
    (sort_by (fun a b => data_group a <=? data_group b) (es ++ entries)) os
  /\ t = mkTally es (count_outcomes matched os) (count_outcomes failing os)
           (count_outcomes outcome_critical os) (count_outcomes warned os).
Proof.
  intros Hnd Hm -> Hes Hus os. pose proof (loop_outcomes_perm request alg Hnd) as Hperm.
  unfold loop_outcomes in Hperm. fold os in Hperm.
  set (ps1 := _ <$> List.filter (fun p => known p.1) _) in Hperm.
  set (ps2 := _ <$> List.filter (unsigned _) _) in Hperm.
  assert (H1 : Forall2 (fun e p => entry_says e p.1 p.2) es ps1).
  { unfold ps1. apply Forall2_fmap_r. eapply Forall2_impl; [done|]. intros e p. simpl. by rewrite Hm. }
  assert (H2 : Forall2 (fun e p => entry_says e p.1 p.2) entries ps2) by by apply Forall2_fmap_r.
  split; [eapply sorted_entries; [by apply Forall2_app|done|apply outcomes_sorted]|].
  rewrite (tally_says es ps1) by (try done; unfold ps1; apply Forall_fmap, Forall_forall; intros p _; apply compared_signed).
  assert (H0 : forall f, (forall dg, f dg Unsigned = false) -> count_outcomes f ps2 = 0).
  { intros f Hf. by apply count_unsigned. }
  rewrite <- !Hperm, !count_outcomes_app, !H0 by done. simpl. by rewrite !Z.add_0_r.
Qed.

(** The comparison succeeds exactly on well-formed requests, and its report
    says the outcome of every data group. *)
Lemma compare_hashes_spec request :
  match compare_hashes request with
  | Ok rep => request_ok request = true /\
      exists alg, normalize_algorithm (rq_algorithm request) = Ok alg /\ ir_algorithm rep = alg
                  /\ report_says rep (outcomes request alg)
  | Err _ => request_ok request = false
  | Panic => False
  end.
Proof.
  unfold compare_hashes, request_ok.
  pose proof (normalize_algorithm_no_panic (rq_algorithm request)).
  destruct (normalize_algorithm (rq_algorithm request)) as [alg| |]; [|done|done]. cbn [mbind res_bind is_Ok].
  pose proof (index_computed_spec (computed_hashes request) ∅) as Hidx.
  destruct (index_computed ∅ (computed_hashes request)) as [m| |]; cbn [mbind res_bind]; [|rewrite bool_decide_false; [done|set_solver]|done].
  destruct Hidx as (Hnd & _ & Hm). rewrite bool_decide_true by done.
  assert (Hm' : forall dg, m !! dg = item_for (computed_hashes request) dg) by (intros dg; rewrite Hm; by rewrite lookup_empty).
  rewrite (loops_fine request m Hnd Hm').
  pose proof (expected_loop_spec alg m (btree_iter (expected_hashes request)) no_tally) as He. cbv zeta in He.
  destruct (expected_loop _ _ _ _) as [t| |]; cbn [mbind res_bind]; [|by rewrite He|done].
  destruct He as (-> & es & Ht & Hes).
  pose proof (unexpected_loop_spec alg (expected_hashes request) (computed_hashes request) (t_entries t)) as Hu. cbv zeta in Hu.
  destruct (unexpected_loop _ _ _ _) as [entries| |]; cbn [mbind res_bind]; [|by rewrite Hu|done].
  destruct Hu as (-> & us & -> & Hus).
  destruct (loops_say request alg m t es us Hnd Hm' Ht Hes Hus) as [Hsorted Htally]. clear Ht. subst t.
  cbn [t_entries t_successful t_failed t_critical t_warnings].
  pose proof (analyze_mismatches_total _ (entries_hashes _ _ Hsorted)) as Ha.
  destruct (analyze_mismatches _) as [ma| |] eqn:Hma; [|done|done]. cbn [mbind res_bind].
  split; [done|]. exists alg. split; [done|]. split; [done|].
  constructor; try done; cbn -[count_outcomes].
  - unfold zlen. by rewrite (Forall2_length _ _ _ Hsorted).
  - apply count_entries_says; [done|]. intros e dg o He. apply (says_mandatory _ _ _ He).
Qed.
End comparison.

(** ** The threshold *)

(** The [f64] comparison with 80% is the exact one for the at most fifteen
    data groups of a report. *)
Lemma threshold_exact s n : 0 <= s <= n -> n <= 15 ->
  f64_le (f64_of_usize 80) (success_rate s n) = (0 <? n) && (4 * n <=? 5 * s).
Proof.
  intros Hs Hn.
  assert (Hall : forallb (fun n => forallb (fun s => Bool.eqb (f64_le (f64_of_usize 80) (success_rate s n))
      ((0 <? n) && (4 * n <=? 5 * s))) (seqZ 0 16)) (seqZ 0 16) = true) by by vm_compute.
  rewrite forallb_elem in Hall. specialize (Hall n ltac:(apply elem_of_seqZ; lia)). cbv beta in Hall.
  rewrite forallb_elem in Hall. specialize (Hall s ltac:(apply elem_of_seqZ; lia)).
  by apply Bool.eqb_prop.
Qed.

Lemma count_outcomes_le f os : 0 <= count_outcomes f os <= zlen os.
Proof.
  unfold count_outcomes, zlen. pose proof (List.filter_length_le (fun '(dg, o) => f dg o) os). lia.
Qed.

Lemma outcomes_length `{Hex} request alg : zlen (outcomes request alg) <= 15.
Proof.
  assert (Hle : forall (f : Z -> option (Z * outcome)) l, (length (omap f l) <= length l)%nat).
  { intros f l. induction l as [|x l IH]; [done|]. cbn. destruct (f x); cbn; [by apply le_n_S|by apply le_S]. }
  unfold zlen, outcomes. etrans; [apply inj_le, Hle|]. done.
Qed.

Lemma count_zero f os : count_outcomes f os = 0 <-> forall dg o, (dg, o) ∈ os -> f dg o = false.
Proof.
  induction os as [|[dg o] os IH]; [by split; [set_solver|]|].
  pose proof (count_outcomes_le f os). rewrite count_outcomes_cons. simpl. split.
  - intros Hc dg' o' [[= -> ->]|Hin]%elem_of_cons; destruct (f dg o) eqn:E; try lia; try done.
    + apply IH; [lia|done].
  - intros Hall. rewrite (Hall dg o) by set_solver. apply IH. set_solver.
Qed.

Lemma entries_projection `{Hex} es ps : Forall2 (fun e p => entry_says e p.1 p.2) es ps ->
  ((fun e => (data_group e, ie_result e, is_critical_error e)) <$> es)
  = ((fun p => (p.1, outcome_result p.2, outcome_critical p.1 p.2)) <$> ps).
Proof.
  induction 1 as [|e p es ps [Hd _ Hr _ Hc _ _] _ IH]; [done|]. rewrite !fmap_cons, IH.
  by rewrite Hd, Hr, Hc.
Qed.

Lemma count_entries_pos f l : 0 < count_entries f l <-> exists e, e ∈ l /\ f e = true.
Proof.
  unfold count_entries, zlen. induction l as [|e l IH]; simpl; [split; [lia|by intros (? & ?%elem_of_nil & _)]|].
  destruct (f e) eqn:E; simpl.
  - split; [intros _; exists e; split; [by left|done]|lia].
  - rewrite IH. split; intros (x & Hx & Hf); exists x; (split; [|done]); [by right|].
    apply elem_of_cons in Hx as [->|Hx]; [congruence|done].
Qed.

Definition mismatching (e : IntegrityEntry) : bool := String.eqb (ie_result e) "mismatch".

Lemma high_risk_entries `{Hex} entries ma : analyze_mismatches entries = Ok ma ->
  (exists si, security_implications ma = Some si /\ risk_level si = "HIGH") <->
  exists e, e ∈ entries /\ mismatching e = true /\ (is_critical_error e = true \/ is_mandatory e = true).
Proof.
  unfold analyze_mismatches. fold mismatching.
  assert (Hrw : (exists e, e ∈ entries /\ mismatching e = true /\ (is_critical_error e = true \/ is_mandatory e = true))
    <-> exists e, e ∈ List.filter mismatching entries /\ (is_critical_error e = true \/ is_mandatory e = true))
    by (setoid_rewrite elem_of_bfilter; naive_solver).
  rewrite Hrw. clear Hrw. destruct (List.filter mismatching entries) as [|e0 l0] eqn:E.
  - intros [= <-]. simpl. split; [naive_solver|by intros (? & ?%elem_of_nil & _)].
  - rewrite <- E. clear E. set (l := List.filter mismatching entries).
    destruct (mismatch_details l []) as [d| |]; cbn [mbind res_bind]; [|done|done].
    assert (Hpos : (0 <? count_entries is_critical_error l) || (0 <? count_entries is_mandatory l) = true
      <-> exists e, e ∈ l /\ (is_critical_error e = true \/ is_mandatory e = true))
      by (rewrite orb_true_iff, !Z.ltb_lt, !count_entries_pos; naive_solver).
    rewrite <- Hpos. unfold mismatch_risk.
    destruct ((0 <? count_entries is_critical_error l) || (0 <? count_entries is_mandatory l)).
    + intros [= <-]. split; [done|]. intros _. eexists. split; reflexivity.
    + destruct ((0 <? count_entries is_biometric l) || (3 <? zlen l)); intros [= <-];
        (split; [|done]); intros (si & [= <-] & Hr); discriminate Hr.
Qed.

Lemma critical_mismatch `{Hex} es ps : Forall2 (fun e p => entry_says e p.1 p.2) es ps ->
  (exists e, e ∈ es /\ mismatching e = true /\ (is_critical_error e = true \/ is_mandatory e = true)) <->
  exists dg o, (dg, o) ∈ ps /\ (o = WrongSize \/ o = Differs /\ mandatory_dg dg = true).
Proof.
  assert (Hcase : forall e dg o, entry_says e dg o ->
    mismatching e = true /\ (is_critical_error e = true \/ is_mandatory e = true) <->
    o = WrongSize \/ o = Differs /\ mandatory_dg dg = true).
  { intros e dg o [_ _ Hr Hm Hc _ _]. unfold mismatching. rewrite Hr, Hm, Hc.
    destruct o; simpl; intuition congruence. }
  induction 1 as [|e [dg o] es ps He Hs IH]; [set_solver|]. apply Hcase in He. simpl in He.
  setoid_rewrite elem_of_cons. split.
  - intros (x & [->|Hx] & Hm); [exists dg, o; tauto|].
    destruct (proj1 IH) as (dg' & o' & Hin & Ho); [by exists x|]. exists dg', o'. tauto.
  - intros (dg' & o' & [[= -> ->]|Hin] & Ho); [exists e; tauto|].
    destruct (proj2 IH) as (x & Hx & Hm); [by exists dg', o'|]. exists x. tauto.
Qed.

Section theorems.
Context `{Hex} {L : HexLaws _}.

(** The report of a well-formed request lists the outcome of every data group
    that is signed or was read, in order, and nothing else; the counters are
    counts of these outcomes; a request that is not well-formed is an error;
    no request panics. *)
Theorem integrity_report_exact request :
  match compare_hashes request with
  | Ok rep =>
      request_ok request = true /\
      let os := outcomes request (ir_algorithm rep) in
      ((fun e => (data_group e, ie_result e, is_critical_error e)) <$> comparison_entries rep)
        = ((fun p => (p.1, outcome_result p.2, outcome_critical p.1 p.2)) <$> os) /\
      successful_verifications rep = count_outcomes matched os /\
      failed_verifications rep = count_outcomes failing os /\
      critical_errors rep = count_outcomes outcome_critical os /\
      ir_warnings rep = count_outcomes warned os /\
      total_data_groups rep <= 15
  | Err _ => request_ok request = false
  | Panic => False
  end.
Proof.
  pose proof (compare_hashes_spec request) as Hspec.
  destruct (compare_hashes request) as [rep| |]; [|done|done].
  destruct Hspec as (Hok & alg & _ & -> & [Hes Htot Hs Hf Hc Hw _ _ _]).
  split; [done|]. cbv zeta. repeat split; try done; [|rewrite Htot; apply outcomes_length].
  by apply entries_projection.
Qed.

(** C10: A passport is reported valid exactly when no outcome is critical, at least
    as many data groups match as mandatory ones are reported, and at least
    four fifths of the reported data groups match. *)
Theorem passport_verdict_exact request rep :
  compare_hashes request = Ok rep ->
  let os := outcomes request (ir_algorithm rep) in
  is_passport_valid rep = true <->
  (forall dg o, dg_outcome request (ir_algorithm rep) dg = Some o -> outcome_critical dg o = false) /\
  count_outcomes mandatory os <= count_outcomes matched os /\
  os <> [] /\ 4 * zlen os <= 5 * count_outcomes matched os.
Proof.
  intros Hrep os. pose proof (compare_hashes_spec request) as Hspec. rewrite Hrep in Hspec.
  destruct Hspec as (_ & alg & _ & <- & [_ Htot Hs _ Hc _ Hm -> _]).
  fold os in Htot, Hs, Hc, Hm. rewrite Htot, Hs, Hc, Hm.
  rewrite threshold_exact by (apply count_outcomes_le || apply outcomes_length).
  rewrite !andb_true_iff, Z.eqb_eq, !Z.leb_le, Z.ltb_lt, count_zero.
  assert (Hne : 0 < zlen os <-> os <> []) by (destruct os; [done|rewrite zlen_cons; unfold zlen; split; [done|lia]]).
  rewrite Hne. subst os. setoid_rewrite elem_of_outcomes. tauto.
Qed.

(** A valid passport: every mandatory data group the security object lists
    matches, unless its hash was computed with another algorithm. *)
Theorem valid_mandatory_groups request rep dg :
  compare_hashes request = Ok rep -> is_passport_valid rep = true ->
  dg = 1 \/ dg = 2 -> is_Some (expected_hashes request !! dg) ->
  dg_outcome request (ir_algorithm rep) dg ∈ [Some Matched; Some WrongAlgorithm].
Proof.
  intros Hrep Hv Hdg [text Ht]. pose proof (compare_hashes_spec request) as Hspec. rewrite Hrep in Hspec.
  destruct Hspec as (_ & alg & _ & <- & [_ _ _ _ Hc _ _ Hvalid _]). rewrite Hvalid in Hv.
  apply andb_prop in Hv as [[Hv _]%andb_prop _]. apply Z.eqb_eq in Hv. rewrite Hc in Hv.
  pose proof (proj1 (count_zero _ _) Hv dg) as Hcrit.
  assert (Hin : dg ∈ data_groups) by (apply elem_of_seqZ; lia).
  assert (Ho : dg_outcome request (ir_algorithm rep) dg =
      Some (compared (ir_algorithm rep) text (item_for (computed_hashes request) dg)))
    by (unfold dg_outcome; by rewrite bool_decide_true, Ht by done).
  pose proof (compared_signed (ir_algorithm rep) text (item_for (computed_hashes request) dg)) as Hns.
  rewrite Ho. specialize (Hcrit _ (proj2 (elem_of_outcomes _ _ _ _) Ho)).
  assert (Hmand : mandatory_dg dg = true) by (destruct Hdg as [->| ->]; done).
  destruct (compared _ _ _); simpl in Hcrit; rewrite ?Hmand in Hcrit; set_solver.
Qed.

(** The mismatch analysis calls the risk high exactly when a mandatory data
    group differs or a hash has the wrong size; such a passport is not valid. *)
Theorem high_risk_exact request rep :
  compare_hashes request = Ok rep ->
  let high := exists si, security_implications (mismatch_analysis rep) = Some si /\ risk_level si = "HIGH" in
  (high <-> exists dg o, dg_outcome request (ir_algorithm rep) dg = Some o /\
              (o = WrongSize \/ o = Differs /\ mandatory_dg dg = true))
  /\ (high -> is_passport_valid rep = false).
Proof.
  intros Hrep high. pose proof (compare_hashes_spec request) as Hspec. rewrite Hrep in Hspec.
  destruct Hspec as (_ & alg & _ & <- & [Hes _ _ _ Hc _ _ Hv Han]).
  assert (Hiff : high <-> exists dg o, dg_outcome request (ir_algorithm rep) dg = Some o /\
              (o = WrongSize \/ o = Differs /\ mandatory_dg dg = true)).
  { setoid_rewrite <- elem_of_outcomes. etrans; [apply (high_risk_entries _ _ Han)|]. by apply critical_mismatch. }
  split; [done|]. rewrite Hiff. intros (dg & o & Ho & Hcase). rewrite Hv.
  destruct (critical_errors rep =? 0) eqn:E; [|done]. apply Z.eqb_eq in E. rewrite Hc in E.
  pose proof (proj1 (count_zero _ _) E dg o (proj2 (elem_of_outcomes _ _ _ _) Ho)) as Hcrit.
  destruct Hcase as [->|[-> Hm]]; simpl in Hcrit; congruence.
Qed.
End theorems.

(** ** Concrete runs *)

Module ToyHex.

Definition hex_upper_digit (d : Z) : ascii := ascii_of_N (Z.to_N (if d <? 10 then 48 + d else 55 + d)).
Definition upper_text (bytes : list Z) : string :=
  String.string_of_list_ascii
    (concat ((fun b => [hex_upper_digit (b / 16 mod 16); hex_upper_digit (b mod 16)]) <$> bytes)).

#[export] Instance toy_hex : Hex := {
  hex_decode s := match decode_hex s with Some bs => inr bs | None => inl "Invalid character" end;
  hex_encode_upper := upper_text;
}.

Lemma upper_digit_value d : 0 <= d < 16 -> to_digit16 (Z.of_N (N_of_ascii (hex_upper_digit d))) = Some d.
Proof.
  intros Hd. assert (Hall : forallb (fun d => bool_decide
    (to_digit16 (Z.of_N (N_of_ascii (hex_upper_digit d))) = Some d)) (seqZ 0 16) = true) by by vm_compute.
  rewrite forallb_elem in Hall. specialize (Hall d ltac:(apply elem_of_seqZ; lia)).
  by apply bool_decide_eq_true in Hall.
Qed.

Lemma upper_text_cons b bs : str_bytes (upper_text (b :: bs)) =
  Z.of_N (N_of_ascii (hex_upper_digit (b / 16 mod 16)))
  :: Z.of_N (N_of_ascii (hex_upper_digit (b mod 16))) :: str_bytes (upper_text bs).
Proof. unfold str_bytes, upper_text. by rewrite !String.list_ascii_of_string_of_list_ascii. Qed.

Lemma decode_upper bs : bytes_ok bs -> decode_pairs (str_bytes (upper_text bs)) = Some bs.
Proof.
  induction 1 as [|b bs Hb Hbs IH]; [done|]. unfold byte_ok in Hb.
  rewrite upper_text_cons. cbn [decode_pairs].
  rewrite IH, !upper_digit_value by (Z.to_euclidean_division_equations; lia). simpl.
  rewrite byte_of_nibbles by (Z.to_euclidean_division_equations; lia).
  f_equal. f_equal. Z.to_euclidean_division_equations; lia.
Qed.

Lemma upper_text_length bs : zlen (str_bytes (upper_text bs)) = 2 * zlen bs.
Proof.
  induction bs as [|b bs IH]; [done|]. rewrite upper_text_cons, !zlen_cons, IH. lia.
Qed.

Lemma decode_pairs_bytes bs : forall out, decode_pairs bs = Some out -> bytes_ok out.
Proof.
  induction bs as [bs IH] using (induction_ltof1 _ (@length Z)). unfold ltof in IH.
  destruct bs as [|a [|b rest]]; [intros out [= <-]; constructor..|]. cbn [decode_pairs]. intros out.
  destruct (to_digit16 a); [|done]. destruct (to_digit16 b); [|done]. cbn [mbind option_bind].
  destruct (decode_pairs rest) as [tail|] eqn:E; [|done]. intros [= <-].
  constructor; [unfold byte_ok, wrap; apply Z.mod_pos_bound; done|].
  apply (IH rest); [simpl; lia|done].
Qed.

#[export] Instance toy_hex_laws : HexLaws toy_hex.
Proof.
  split.
  - intros s bs. cbn. unfold decode_hex. destruct (negb _); [done|].
    destruct (decode_pairs _) eqn:E; [|done]. intros [= <-]. by eapply decode_pairs_bytes.
  - intros bs Hbs. cbn. unfold decode_hex. rewrite str_len_bytes, upper_text_length.
    rewrite Z.mul_comm, Z.mod_mul by done. cbn [Z.eqb negb]. by rewrite decode_upper.
Qed.

Definition item (dg : Z) (hash algorithm : string) : ComputedHash :=
  mkComputedHash dg hash algorithm true None.

(** Five signed data groups, all matching but the last, which is optional. *)
Definition sample_request : IntegrityRequest :=
  mkIntegrityRequest "SHA-256"
    (list_to_map [(1, "00ff"); (2, "01"); (3, "02"); (11, "0b"); (14, "0e")])
    [item 1 "00FF" "sha256"; item 2 "01" "Sha-256"; item 3 "02" "sha256"; item 11 "0b" "sha256";
     item 14 "0f" "sha256"].

(** DG1 was hashed with SHA-1; the other four signed data groups match. *)
Definition other_algorithm_request : IntegrityRequest :=
  mkIntegrityRequest "sha256"
    (list_to_map [(1, "00"); (2, "01"); (3, "02"); (11, "0b"); (14, "0e")])
    [item 1 "ff" "sha1"; item 2 "01" "sha256"; item 3 "02" "sha256"; item 11 "0b" "sha256";
     item 14 "0e" "sha256"].

(** The security object does not list DG1; the four it lists match. *)
Definition unsigned_mrz_request : IntegrityRequest :=
  mkIntegrityRequest "sha256"
    (list_to_map [(2, "01"); (3, "02"); (11, "0b"); (14, "0e")])
    [item 1 "ff" "sha256"; item 2 "01" "sha256"; item 3 "02" "sha256"; item 11 "0b" "sha256";
     item 14 "0e" "sha256"].

Definition verdict (r : IntegrityRequest) : option bool :=
  match compare_hashes r with Ok rep => Some (is_passport_valid rep) | _ => None end.

(** DG1 is reported as not verified, and the passport as valid. *)
Theorem unverified_mrz_accepted :
  verdict other_algorithm_request = Some true /\
  dg_outcome other_algorithm_request "sha256" 1 = Some WrongAlgorithm /\
  verdict unsigned_mrz_request = Some true /\
  dg_outcome unsigned_mrz_request "sha256" 1 = Some Unsigned.
Proof. vm_compute. done. Qed.

Lemma passport_verdict_exact_witness :
  exists rep, compare_hashes sample_request = Ok rep /\ is_passport_valid rep = true /\
    4 * zlen (outcomes sample_request (ir_algorithm rep))
      <= 5 * count_outcomes matched (outcomes sample_request (ir_algorithm rep)).
Proof.
  destruct (compare_hashes sample_request) as [rep|e|] eqn:Hr;
    [|vm_compute in Hr; discriminate Hr|vm_compute in Hr; discriminate Hr].
  assert (Hv : is_passport_valid rep = true) by (vm_compute in Hr; injection Hr as <-; reflexivity).
  exists rep. split; [done|]. split; [done|].
  exact (proj2 (proj2 (proj2 (proj1 (passport_verdict_exact sample_request rep Hr) Hv)))).
Defined.

Lemma valid_mandatory_groups_witness :
  exists rep, compare_hashes sample_request = Ok rep /\
    dg_outcome sample_request (ir_algorithm rep) 1 ∈ [Some Matched; Some WrongAlgorithm].
Proof.
  destruct (compare_hashes sample_request) as [rep|e|] eqn:Hr;
    [|vm_compute in Hr; discriminate Hr|vm_compute in Hr; discriminate Hr].
  assert (Hv : is_passport_valid rep = true) by (vm_compute in Hr; injection Hr as <-; reflexivity).
  exists rep. split; [done|].
  apply (valid_mandatory_groups sample_request rep 1 Hr Hv); [by left|by exists "00ff"].
Defined.

Lemma high_risk_exact_witness :
  let r := mkIntegrityRequest "sha256" {[ 1 := "00" ]} [item 1 "ff" "sha256"] in
  exists rep, compare_hashes r = Ok rep /\ is_passport_valid rep = false.
Proof.
  intros r. destruct (compare_hashes r) as [rep|e|] eqn:Hr;
    [|vm_compute in Hr; discriminate Hr|vm_compute in Hr; discriminate Hr].
  exists rep. split; [done|]. destruct (high_risk_exact r rep Hr) as [Hiff Hv].
  apply Hv, Hiff. exists 1, Differs. vm_compute in Hr. injection Hr as <-. split; [reflexivity|by right].
Defined.

Lemma integrity_report_exact_witness : request_ok sample_request = true.
Proof.
  pose proof (integrity_report_exact sample_request) as Hr.
  destruct (compare_hashes sample_request) as [rep|e|] eqn:E; [exact (proj1 Hr)|..];
    vm_compute in E; discriminate E.
Defined.

(** The mismatches of [sample_request] carry a low risk, those of a mandatory
    data group a high one. *)
Example sample_risk :
  match compare_hashes sample_request with
  | Ok rep => (total_mismatches (mismatch_analysis rep), overall_status rep)
  | _ => (0, "")
  end = (1, "PASSED - With warnings").
Proof. vm_compute. reflexivity. Qed.
End ToyHex.
