(* ===== verification/PolicyCompat.v ===== *)
(** * The wallet-facing policy model (marty-verification, [policy/])

    The original presentation-policy types ([types.rs]), their projection onto
    the canonical kernel ([compat.rs]), the helpers built on the projection
    ([claim_evaluator.rs], [issuer.rs], [freshness.rs]) and the minimum
    disclosure resolver ([disclosure.rs]).  A [HashMap] of claims is the list
    of its entries in its iteration order, as in [PolicyService]; the other
    maps are [gmap]s.  The kernel is the one of [PolicyService]. *)

From stdpp Require Import gmap strings pretty.
From Stdlib Require Import SpecFloat.
From S2P Require Import Prelude Governance RustF64 PolicyService.
Local Open Scope string_scope.
Local Open Scope Z_scope.

(** A computation without an error: a value, or a panic. *)
#[local] Abbreviation total := (res Empty_set).

(** [src/marty-verification/src/policy/types.rs:47-55] RequiredClaim *)
Record RequiredClaim := mkRequiredClaim {
  claim_name : string;
  credential_type : string;
  accept_predicate : bool;
  required_value : option Value;
}.

(** [src/marty-verification/src/policy/types.rs:57-65] HolderBindingMethod *)
Inductive HolderBindingMethod := DeviceKey | SessionNonce | Biometric | NoBinding.
#[export] Instance HolderBindingMethod_eq_dec : EqDecision HolderBindingMethod.
Proof. solve_decision. Defined.

(** [src/marty-verification/src/policy/types.rs:67-75] CredentialRankingStrategy *)
Inductive CredentialRankingStrategy := FreshestFirst | HighestTrustFirst | MinimumClaimsFirst | Custom.

(** [src/marty-verification/src/policy/types.rs:77-84] FreshnessRequirements *)
Record FreshnessRequirements := mkFreshnessRequirements {
  max_credential_age : option Z;
  max_proof_age : Z;
  require_live_revocation_check : bool;
}.

(** [src/marty-verification/src/policy/types.rs:86-94] FreshnessRequirements::default *)
Definition freshness_default : FreshnessRequirements := mkFreshnessRequirements None 300 true.

(** [src/marty-verification/src/policy/types.rs:6-45] PresentationPolicy *)
Record PresentationPolicy := mkPolicy {
  lp_id : string;
  lp_name : string;
  lp_description : option string;
  lp_purpose : string;
  accepted_credential_types : list string;
  required_claims : list RequiredClaim;
  lp_holder_binding : HolderBindingMethod;
  lp_trust_profile_id : option string;
  lp_allowed_issuers : list string;
  freshness_requirements : FreshnessRequirements;
  prefer_predicates : bool;
  lp_single_presentation : bool;
  derived_attribute_preferences : gmap string string;
  credential_ranking_strategy : CredentialRankingStrategy;
  credential_ranking_weights : gmap string spec_float;
  lp_metadata : list (string * Value);
  lp_version : Z;
}.

(** [src/marty-verification/src/policy/types.rs:96-115] PolicyEvaluationInput *)
Record PolicyEvaluationInput := mkInput {
  in_credential_types : list string;
  in_claims : list (string * Value);
  in_issuer_id : string;
  in_trust_profile_verified : bool;
  in_issued_at : option Z;
  in_proof_time : option Z;
  in_evaluation_time : Z;
  in_holder_binding_verified : bool;
  in_revocation_checked : bool;
  in_not_revoked : option bool;
  in_presentation_count : Z;
}.

(** [src/marty-verification/src/policy/types.rs:125-137] PolicyComponent *)
Inductive PolicyComponent :=
| CredentialType | Claims | Issuer | HolderBinding | CredentialFreshness | ProofFreshness
| Revocation | PresentationCount.
#[export] Instance PolicyComponent_eq_dec : EqDecision PolicyComponent.
Proof. solve_decision. Defined.

(** [src/marty-verification/src/policy/types.rs:139-146] PolicyComponentStatusValue *)
Inductive PolicyComponentStatusValue := StPassed | StFailed | StNotApplicable.

(** [src/marty-verification/src/policy/types.rs:148-152] PolicyComponentStatus *)
Record PolicyComponentStatus := mkComponentStatus {
  cs_component : PolicyComponent;
  cs_status : PolicyComponentStatusValue;
}.

(** [src/marty-verification/src/policy/types.rs:154-174] PolicyErrorCode *)
Inductive PolicyErrorCode :=
| PE_InvalidPolicy | PE_CredentialTypeNotAccepted | PE_ClaimRequirementNotSatisfied
| PE_IssuerNotAllowed | PE_IssuerNotTrusted | PE_HolderBindingRequired
| PE_CredentialTimestampMissing | PE_CredentialStale | PE_CredentialTimestampFuture
| PE_ProofTimestampMissing | PE_ProofStale | PE_ProofTimestampFuture | PE_RevocationCheckRequired
| PE_RevocationStatusUnknown | PE_CredentialRevoked | PE_SinglePresentationRequired.
#[export] Instance PolicyErrorCode_eq_dec : EqDecision PolicyErrorCode.
Proof. solve_decision. Defined.

(** [src/marty-verification/src/policy/types.rs:176-181] PolicyEvaluationError *)
Record PolicyEvaluationError := mkPolicyError {
  pe_code : PolicyErrorCode;
  pe_component : PolicyComponent;
  pe_message : string;
}.
#[export] Instance PolicyEvaluationError_eq_dec : EqDecision PolicyEvaluationError.
Proof. solve_decision. Defined.

(** [src/marty-verification/src/policy/types.rs:183-194] PolicyEvaluationResult *)
Record PolicyEvaluationResult := mkPolicyResult {
  is_satisfied : bool;
  component_statuses : list PolicyComponentStatus;
  pr_errors : list PolicyEvaluationError;
  pr_warnings : list string;
  missing_claims : list string;
  issuer_violations : list string;
  freshness_violations : list string;
  minimum_disclosure_set : list string;
}.

(** [src/marty-verification/src/policy/types.rs:196-203] PolicyEvaluationResult::status *)
Definition result_status (r : PolicyEvaluationResult) (component : PolicyComponent) :
    option PolicyComponentStatusValue :=
  cs_status <$> List.find (fun entry => bool_decide (cs_component entry = component)) (component_statuses r).

(** ** Minimum disclosure ([disclosure.rs]) *)

(** [src/marty-verification/src/policy/disclosure.rs:106-111] MinimumDisclosureSet *)
Record MinimumDisclosureSet := mkDisclosureSet {
  ds_claims : list string;
  missing_required : list string;
}.

(** [src/marty-verification/src/policy/disclosure.rs:113-117] MinimumDisclosureSet::is_complete *)
Definition disclosure_is_complete (s : MinimumDisclosureSet) : bool := bool_decide (missing_required s = []).

Definition str_in (s : string) (l : list string) : bool := existsb (String.eqb s) l.

(** [src/marty-verification/src/policy/disclosure.rs:34-42] resolve, the preferred derived attribute of a requirement, when it is available *)
Definition available_derived (preferences : gmap string string) (required : RequiredClaim)
    (available : list string) : option string :=
  if accept_predicate required && bool_decide (required_value required = None) then
    match preferences !! claim_name required with
    | Some derived => if str_in derived available then Some derived else None
    | None => None
    end
  else None.

(** [src/marty-verification/src/policy/disclosure.rs:31-54] resolve, the loop over the requirements *)
Fixpoint resolve_loop (preferences : gmap string string) (requirements : list RequiredClaim)
    (available : list string) (selected : gset string) (missing : list string) :
    gset string * list string :=
  match requirements with
  | [] => (selected, missing)
  | required :: rest =>
      match available_derived preferences required available with
      | Some derived => resolve_loop preferences rest available ({[ derived ]} ∪ selected) missing
      | None =>
          if str_in (claim_name required) available
          then resolve_loop preferences rest available ({[ claim_name required ]} ∪ selected) missing
          else resolve_loop preferences rest available selected (missing ++ [claim_name required])%list
      end
  end.

(** [Vec<String>::sort]. *)
Definition sort_strings (l : list string) : list string :=
  sort_by (fun a b => bytes_le (str_bytes a) (str_bytes b)) l.

(** [src/marty-verification/src/policy/disclosure.rs:23-62] MinimumDisclosureResolver::resolve *)
Definition resolve (pol : PresentationPolicy) (available : list string) : MinimumDisclosureSet :=
  let '(selected, missing) :=
    resolve_loop (derived_attribute_preferences pol) (required_claims pol) available ∅ [] in
  mkDisclosureSet (sort_strings (elements selected)) missing.

(** [if !result.contains(name) { result.push(name) }]. *)
Definition push_unique (result : list string) (name : string) : list string :=
  if str_in name result then result else (result ++ [name])%list.

(** [src/marty-verification/src/policy/disclosure.rs:72-100] get_preferred_disclosure, the loop over the available claims *)
Fixpoint preferred_disclosure_loop (pol : PresentationPolicy) (available : list string)
    (include_optional : bool) (names : list string) (result : list string) : list string :=
  match names with
  | [] => result
  | name :: rest =>
      let accepts_predicate :=
        existsb (fun required => String.eqb (claim_name required) name && accept_predicate required
                                 && bool_decide (required_value required = None)) (required_claims pol) in
      let is_required := existsb (fun r => String.eqb (claim_name r) name) (required_claims pol) in
      let own := if is_required || include_optional then push_unique result name else result in
      preferred_disclosure_loop pol available include_optional rest
        (if accepts_predicate then
           match derived_attribute_preferences pol !! name with
           | Some derived => if str_in derived available then push_unique result derived else own
           | None => own
           end
         else own)
  end.

(** [src/marty-verification/src/policy/disclosure.rs:64-103] get_preferred_disclosure *)
Definition get_preferred_disclosure (pol : PresentationPolicy) (available : list string)
    (include_optional : bool) : list string :=
  preferred_disclosure_loop pol available include_optional available [].

(** ** The projection onto the kernel ([compat.rs]) *)

(** [src/marty-verification/src/policy/compat.rs:18-19] LEGACY_CREDENTIAL_ID and LEGACY_ANY_TYPE *)
Definition LEGACY_CREDENTIAL_ID : string := "legacy-policy-credential".
Definition LEGACY_ANY_TYPE : string := "__legacy_any_credential_type__".

(** [src/marty-verification/src/policy/compat.rs:21-45] neutral_policy *)
Definition neutral_policy : PresentationPolicy :=
  mkPolicy "legacy-compatibility-policy" "Legacy compatibility policy" None
    "Preserve the legacy helper API through the canonical policy kernel" [] [] NoBinding None []
    (mkFreshnessRequirements None 300 false) false false ∅ FreshestFirst ∅ [] 1.

(** [src/marty-verification/src/policy/compat.rs:47-61] neutral_input *)
Definition neutral_input : PolicyEvaluationInput :=
  mkInput [] [] "legacy:compatibility-issuer" true None None 0 false false None 1.

(** [src/marty-verification/src/policy/compat.rs:436-447] empty_requirement *)
Definition empty_requirement (id credential_type : string) : ServiceCredentialRequirement :=
  mkRequirement id credential_type true None [] None None false.

(** [claims.get(name)] and [claims.contains_key(name)]. *)
Definition claims_get (claims : list (string * Value)) (name : string) : option Value :=
  snd <$> find (fun e => String.eqb e.1 name) claims.
Definition claims_contain (claims : list (string * Value)) (name : string) : bool :=
  existsb (fun e => String.eqb e.1 name) claims.

(** [src/marty-verification/src/policy/compat.rs:487-500] selected_claim_name *)
Definition selected_claim_name (pol : PresentationPolicy) (claims : list (string * Value))
    (claim : RequiredClaim) : string :=
  if accept_predicate claim && bool_decide (required_value claim = None) then
    match derived_attribute_preferences pol !! claim_name claim with
    | Some derived => if claims_contain claims derived then derived else claim_name claim
    | None => claim_name claim
    end
  else claim_name claim.

(** [src/marty-verification/src/policy/compat.rs:449-485] claim_requirement *)
Definition claim_requirement (id : string) (claim : RequiredClaim) (pol : PresentationPolicy)
    (input : PolicyEvaluationInput) : ServiceCredentialRequirement :=
  let name := selected_claim_name pol (in_claims input) claim in
  let constraint :=
    match required_value claim with
    | Some value => mkConstraint name Equals (Some value)
    | None => mkConstraint name Presence None
    end in
  mkRequirement id (credential_type claim) true None
    [mkRequestedClaim name true true (accept_predicate claim) None [constraint]] None None false.

(** [src/marty-verification/src/policy/compat.rs:524-531] holder_method *)
Definition holder_method (method : HolderBindingMethod) : option string :=
  match method with
  | DeviceKey => Some "device_key"
  | SessionNonce => Some "session_nonce"
  | Biometric => Some "biometric"
  | NoBinding => None
  end.

(** [format!("{:?}", method)]. *)
Definition holder_debug (method : HolderBindingMethod) : string :=
  match method with
  | DeviceKey => "DeviceKey" | SessionNonce => "SessionNonce" | Biometric => "Biometric" | NoBinding => "None"
  end.

(** [Vec::dedup] on strings. *)
Fixpoint dedup_strings (l : list string) : list string :=
  match l with
  | a :: rest =>
      match rest with
      | b :: _ => if String.eqb a b then dedup_strings rest else a :: dedup_strings rest
      | [] => [a]
      end
  | [] => []
  end.

Definition claim_id (index : nat) : string := "legacy-claim-" +:+ pretty (Z.of_nat index).
Definition accepted_id (index : nat) : string := "legacy-accepted-" +:+ pretty (Z.of_nat index).

(** [src/marty-verification/src/policy/compat.rs:136-146] LegacyProjection::new, the requirements of the claims *)
Definition claim_requirement_list (pol : PresentationPolicy) (input : PolicyEvaluationInput) :
    list ServiceCredentialRequirement :=
  imap (fun index claim => claim_requirement (claim_id index) claim pol input) (required_claims pol).

(** [src/marty-verification/src/policy/compat.rs:147-166] LegacyProjection::new, the accepted types *)
Definition accepted_types_alternative (pol : PresentationPolicy) : list ServiceAlternativeRequirement :=
  match accepted_credential_types pol with
  | [] => []
  | types =>
      [mkAlternative "legacy-accepted-types" "Accepted credential type"
         (imap (fun index t => empty_requirement (accepted_id index) t) types) 1]
  end.

Definition has_binding (pol : PresentationPolicy) : bool :=
  negb (bool_decide (lp_holder_binding pol = NoBinding)).

(** [src/marty-verification/src/policy/compat.rs:175-203] LegacyProjection::new, the policy *)
Definition projected_policy (pol : PresentationPolicy) (input : PolicyEvaluationInput) :
    ServicePresentationPolicy :=
  let fr := freshness_requirements pol in
  mkPresentationPolicy (lp_id pol) (lp_name pol) "legacy-policy-compatibility"
    (empty_requirement "legacy-global-facts" LEGACY_ANY_TYPE :: claim_requirement_list pol input)
    (accepted_types_alternative pol) (lp_trust_profile_id pol)
    (mkHolderBinding (has_binding pol) (option_list (holder_method (lp_holder_binding pol))) [] false false false
       (if has_binding pol then Some (max_proof_age fr) else None))
    (Some (mkFreshness (max_credential_age fr) (require_live_revocation_check fr) None))
    None (lp_allowed_issuers pol) (lp_single_presentation pol) false.

(** [src/marty-verification/src/policy/compat.rs:169-226] LegacyProjection::new, the credential facts *)
Definition projected_credential (input : PolicyEvaluationInput) : VerifiedCredentialFacts :=
  mkFacts LEGACY_CREDENTIAL_ID
    (dedup_strings (sort_strings (in_credential_types input ++ [LEGACY_ANY_TYPE])%list))
    "legacy-policy-facts" (in_claims input) (in_issuer_id input) true None
    (in_trust_profile_verified input) None None [] [] (in_issued_at input)
    (if in_revocation_checked input then Some (in_evaluation_time input) else None)
    (in_not_revoked input)
    (match in_not_revoked input with Some false => Some LcRevoked | _ => None end) [].

(** [src/marty-verification/src/policy/compat.rs:134-249] LegacyProjection::new, the request *)
Definition legacy_request (pol : PresentationPolicy) (input : PolicyEvaluationInput) :
    ServicePolicyEvaluationRequest :=
  mkRequest (projected_policy pol input) [projected_credential input] (in_evaluation_time input) false
    (in_holder_binding_verified input)
    (if in_holder_binding_verified input then holder_method (lp_holder_binding pol) else None)
    None false false false (in_proof_time input) None (Some (in_presentation_count input)).

(** [src/marty-verification/src/policy/compat.rs:126-146] LegacyProjection::new, the claims by requirement id, in the order of the ids *)
Definition claim_requirements (pol : PresentationPolicy) : list (string * RequiredClaim) :=
  sort_by (fun a b => bytes_le (str_bytes a.1) (str_bytes b.1))
    (imap (fun index claim => (claim_id index, claim)) (required_claims pol)).

(** [src/marty-verification/src/policy/compat.rs:533-547] credential_stale_message *)
Definition credential_stale_message (pol : PresentationPolicy) (input : PolicyEvaluationInput) : string :=
  match in_issued_at input, max_credential_age (freshness_requirements pol) with
  | Some issued_at, Some maximum =>
      if issued_at <=? in_evaluation_time input
      then "Credential is " +:+ pretty (in_evaluation_time input - issued_at)
           +:+ " seconds old, maximum allowed is " +:+ pretty maximum
      else "Credential is older than the policy permits"
  | _, _ => "Credential is older than the policy permits"
  end.

(** [src/marty-verification/src/policy/compat.rs:549-558] proof_stale_message *)
Definition proof_stale_message (pol : PresentationPolicy) (input : PolicyEvaluationInput) : string :=
  match in_proof_time input with
  | Some proof_time =>
      if proof_time <=? in_evaluation_time input
      then "Proof is " +:+ pretty (in_evaluation_time input - proof_time)
           +:+ " seconds old, maximum allowed is " +:+ pretty (max_proof_age (freshness_requirements pol))
      else "Proof is older than the policy permits"
  | None => "Proof is older than the policy permits"
  end.

Section compat.
Context `{JsonValueOps, RegexOps, Calendar}.

(** [src/marty-verification/src/policy/compat.rs:502-522] missing_claim_message *)
Definition missing_claim_message (pol : PresentationPolicy) (input : PolicyEvaluationInput)
    (claim : RequiredClaim) : string :=
  if negb (String.eqb (credential_type claim) "")
     && negb (str_in (credential_type claim) (in_credential_types input))
  then claim_name claim +:+ " (requires credential type " +:+ credential_type claim +:+ ")"
  else
    match claims_get (in_claims input) (selected_claim_name pol (in_claims input) claim), required_value claim with
    | Some actual, Some expected =>
        if json_eqb actual expected then claim_name claim
        else claim_name claim +:+ " (expected " +:+ json_text expected +:+ ", got " +:+ json_text actual +:+ ")"
    | _, _ => claim_name claim
    end.

(** [src/marty-verification/src/policy/compat.rs:251-269] LegacyProjection::missing_claims *)
Definition projection_missing_claims (pol : PresentationPolicy) (input : PolicyEvaluationInput)
    (violations : list ServicePolicyViolation) : list string :=
  let claim_code v := match v_code v with
                      | ClaimMissing | ClaimConstraintFailed | CredentialMissing => true
                      | _ => false
                      end in
  let failed : gset string := list_to_set (omap v_requirement_id (List.filter claim_code violations)) in
  (fun e => missing_claim_message pol input e.2)
    <$> List.filter (fun e => bool_decide (e.1 ∈ failed)) (claim_requirements pol).

(** [src/marty-verification/src/policy/compat.rs:289-433] LegacyProjection::map_error *)
Definition map_error (pol : PresentationPolicy) (input : PolicyEvaluationInput)
    (violation : ServicePolicyViolation) (missing : list string) : option PolicyEvaluationError :=
  let type_error := Some (mkPolicyError PE_CredentialTypeNotAccepted CredentialType
                            "Presented credential type is not accepted by the policy") in
  let claim_error :=
    id ← v_requirement_id violation;
    if negb (str_starts_with id "legacy-claim-") then None
    else
      let message :=
        match snd <$> find (fun e => String.eqb e.1 id) (claim_requirements pol) with
        | Some claim => missing_claim_message pol input claim
        | None => default "Required claim is not satisfied" (head missing)
        end in
      Some (mkPolicyError PE_ClaimRequirementNotSatisfied Claims
              ("Claim requirement not satisfied: " +:+ message)) in
  match v_code violation with
  | CredentialMissing =>
      if match v_requirement_id violation with
         | Some id => str_starts_with id "legacy-accepted-"
         | None => false
         end
      then type_error else claim_error
  | AlternativeRequirementFailed => type_error
  | ClaimMissing | ClaimConstraintFailed => claim_error
  | IssuerNotAllowed =>
      Some (mkPolicyError PE_IssuerNotAllowed Issuer
              ("Issuer '" +:+ in_issuer_id input +:+ "' not in allowed issuers list"))
  | TrustProfileNotVerified =>
      Some (mkPolicyError PE_IssuerNotTrusted Issuer
              ("Issuer '" +:+ in_issuer_id input +:+ "' not verified against trust profile"))
  | PresentationProofRequired | HolderBindingRequired | HolderBindingMethodNotAllowed
  | ProofProfileNotAllowed | ChallengeBindingRequired | AudienceBindingRequired | ReplayDetectionRequired =>
      Some (mkPolicyError PE_HolderBindingRequired HolderBinding
              ("Required " +:+ holder_debug (lp_holder_binding pol) +:+ " holder binding was not verified"))
  | CredentialTimestampMissing =>
      Some (mkPolicyError PE_CredentialTimestampMissing CredentialFreshness
              "Credential issuance time is required by the policy")
  | CredentialStale =>
      Some (mkPolicyError PE_CredentialStale CredentialFreshness (credential_stale_message pol input))
  | CredentialTimestampFuture =>
      Some (mkPolicyError PE_CredentialTimestampFuture CredentialFreshness
              "Credential issuance time is after evaluation time")
  | ProofTimestampMissing =>
      Some (mkPolicyError PE_ProofTimestampMissing ProofFreshness
              "Proof time is required for holder-bound presentations")
  | ProofStale => Some (mkPolicyError PE_ProofStale ProofFreshness (proof_stale_message pol input))
  | ProofTimestampFuture =>
      Some (mkPolicyError PE_ProofTimestampFuture ProofFreshness "Proof time is after evaluation time")
  | RevocationCheckRequired | RevocationEvidenceStale =>
      Some (mkPolicyError PE_RevocationCheckRequired Revocation
              "A live revocation check is required by the policy")
  | RevocationStatusUnknown =>
      Some (mkPolicyError PE_RevocationStatusUnknown Revocation "Revocation status is unknown")
  | CredentialRevoked => Some (mkPolicyError PE_CredentialRevoked Revocation "Credential is revoked")
  | SinglePresentationRequired =>
      Some (mkPolicyError PE_SinglePresentationRequired PresentationCount
              ("Policy requires exactly one presentation, received " +:+ pretty (in_presentation_count input)))
  | SignatureInvalid | CredentialFormatMismatch | IssuerTrustLevelInsufficient
  | IssuerComplianceStatusMissing | IssuerAccreditationMissing | ExternalAuthorizationDenied
  | ExternalAuthorizationNotEvaluated | ConflictingVerifiedClaim =>
      Some (mkPolicyError PE_InvalidPolicy Claims (v_message violation))
  end.

(** [src/marty-verification/src/policy/compat.rs:271-287] LegacyProjection::map_errors; the set of seen triples is the set of the errors in [output] *)
Definition map_errors (pol : PresentationPolicy) (input : PolicyEvaluationInput)
    (violations : list ServicePolicyViolation) (missing : list string) : list PolicyEvaluationError :=
  foldl (fun output violation =>
    match map_error pol input violation missing with
    | None => output
    | Some error => if bool_decide (error ∈ output) then output else (output ++ [error])%list
    end) [] violations.

(** [src/marty-verification/src/policy/compat.rs:560-616] component_statuses *)
Definition compute_component_statuses (pol : PresentationPolicy) (input : PolicyEvaluationInput)
    (errors : list PolicyEvaluationError) : list PolicyComponentStatus :=
  let components :=
    [(CredentialType, negb (bool_decide (accepted_credential_types pol = [])));
     (Claims, true);
     (Issuer, bool_decide (is_Some (lp_trust_profile_id pol)) || negb (bool_decide (lp_allowed_issuers pol = [])));
     (HolderBinding, has_binding pol);
     (CredentialFreshness,
       bool_decide (is_Some (max_credential_age (freshness_requirements pol)))
       || match in_issued_at input with Some t => in_evaluation_time input <? t | None => false end);
     (ProofFreshness, has_binding pol);
     (Revocation,
       require_live_revocation_check (freshness_requirements pol) || bool_decide (is_Some (in_not_revoked input)));
     (PresentationCount, lp_single_presentation pol)] in
  (fun '(component, applicable) =>
     mkComponentStatus component
       (if existsb (fun e => bool_decide (pe_component e = component)) errors then StFailed
        else if (applicable : bool) then StPassed else StNotApplicable)) <$> components.

(** [src/marty-verification/src/policy/compat.rs:618-638] invalid_policy_result *)
Definition invalid_policy_result (pol : PresentationPolicy) (input : PolicyEvaluationInput) (message : string) :
    PolicyEvaluationResult :=
  let error := mkPolicyError PE_InvalidPolicy Claims message in
  mkPolicyResult false (compute_component_statuses pol input [error]) [error] [] [] [] [] [].

(** [error.to_string()] of a [ServicePolicyError]. *)
Definition service_error_text (e : ServicePolicyError) : string :=
  match e with InvalidRequest message => "invalid service policy request: " +:+ message end.

(** [src/marty-verification/src/policy/compat.rs:77-123] PolicyEvaluator::evaluate *)
Definition legacy_evaluate (pol : PresentationPolicy) (input : PolicyEvaluationInput) :
    total PolicyEvaluationResult :=
  match evaluate_service_policy (legacy_request pol input) with
  | Panic => Panic
  | Err error => Ok (invalid_policy_result pol input (service_error_text error))
  | Ok canonical =>
      let missing := projection_missing_claims pol input (errors canonical) in
      let errs := map_errors pol input (errors canonical) missing in
      let satisfied := bool_decide (decision canonical = Allow) in
      let about f := pe_message <$> List.filter (fun e => f (pe_component e)) errs in
      Ok (mkPolicyResult satisfied (compute_component_statuses pol input errs) errs (warnings canonical) missing
            (about (fun c => bool_decide (c = Issuer)))
            (about (fun c => bool_decide (c = CredentialFreshness) || bool_decide (c = ProofFreshness)))
            (if satisfied then ds_claims (resolve pol (sort_strings (in_claims input).*1)) else []))
  end.

(** ** Issuer constraints ([issuer.rs]) *)

(** [src/marty-verification/src/policy/issuer.rs:66-72] IssuerCheckResult *)
Inductive IssuerCheckResult := Trusted | NotAllowed (message : string) | NotTrusted (message : string).

(** [src/marty-verification/src/policy/issuer.rs:75-77] IssuerCheckResult::is_trusted *)
Definition is_trusted (r : IssuerCheckResult) : bool := match r with Trusted => true | _ => false end.

(** [src/marty-verification/src/policy/issuer.rs:79-85] IssuerCheckResult::violation_message *)
Definition issuer_violation_message (r : IssuerCheckResult) : option string :=
  match r with Trusted => None | NotAllowed msg | NotTrusted msg => Some msg end.

(** [src/marty-verification/src/policy/issuer.rs:8-12] IssuerConstraintChecker *)
Record IssuerConstraintChecker := mkIssuerChecker {
  ic_trust_profile_id : option string;
  ic_allowed_issuers : list string;
}.

(** [src/marty-verification/src/policy/issuer.rs:61-63] IssuerConstraintChecker::has_constraints *)
Definition has_constraints (c : IssuerConstraintChecker) : bool :=
  bool_decide (is_Some (ic_trust_profile_id c)) || negb (bool_decide (ic_allowed_issuers c = [])).

(** [result.errors.iter().find(|error| error.code == code)]. *)
Definition find_error (code : PolicyErrorCode) (r : PolicyEvaluationResult) : option PolicyEvaluationError :=
  List.find (fun e => bool_decide (pe_code e = code)) (pr_errors r).

(** [src/marty-verification/src/policy/issuer.rs:28-33] check_issuer, the policy and the input *)
Definition issuer_policy (c : IssuerConstraintChecker) : PresentationPolicy :=
  mkPolicy (lp_id neutral_policy) (lp_name neutral_policy) None (lp_purpose neutral_policy) [] [] NoBinding
    (ic_trust_profile_id c) (ic_allowed_issuers c) (freshness_requirements neutral_policy) false false ∅
    FreshestFirst ∅ [] 1.
Definition issuer_input (issuer : string) (verified : bool) : PolicyEvaluationInput :=
  mkInput [] [] issuer verified None None 0 false false None 1.

(** [src/marty-verification/src/policy/issuer.rs:22-58] IssuerConstraintChecker::check_issuer *)
Definition check_issuer_constraints (c : IssuerConstraintChecker) (issuer : string) (verified : bool) :
    total IssuerCheckResult :=
  result ← legacy_evaluate (issuer_policy c) (issuer_input issuer verified);
  Ok (match find_error PE_IssuerNotAllowed result with
      | Some error => NotAllowed (pe_message error)
      | None =>
          match find_error PE_IssuerNotTrusted result with
          | Some error => NotTrusted (pe_message error)
          | None =>
              if is_satisfied result then Trusted
              else NotTrusted "Issuer constraints could not be evaluated by the canonical policy kernel"
          end
      end).

(** ** Freshness ([freshness.rs]) *)

(** [src/marty-verification/src/policy/freshness.rs:87-93] FreshnessCheckResult *)
Inductive FreshnessCheckResult := Fresh | Stale (message : string) | InvalidFuture (message : string).

(** [src/marty-verification/src/policy/freshness.rs:96-98] FreshnessCheckResult::is_fresh *)
Definition is_fresh (r : FreshnessCheckResult) : bool := match r with Fresh => true | _ => false end.

(** [src/marty-verification/src/policy/freshness.rs:100-107] FreshnessCheckResult::violation_message *)
Definition freshness_violation_message (r : FreshnessCheckResult) : option string :=
  match r with Fresh => None | Stale msg | InvalidFuture msg => Some msg end.

(** [src/marty-verification/src/policy/freshness.rs:67-85] map_freshness_result *)
Definition map_freshness_result (result : PolicyEvaluationResult) (future_code stale_code : PolicyErrorCode) :
    FreshnessCheckResult :=
  match find_error future_code result with
  | Some error => InvalidFuture (pe_message error)
  | None =>
      match find_error stale_code result with
      | Some error => Stale (pe_message error)
      | None =>
          if is_satisfied result then Fresh
          else InvalidFuture "Freshness could not be evaluated by the canonical policy kernel"
      end
  end.

(** The neutral policy with a holder binding and freshness requirements. *)
Definition freshness_policy (binding : HolderBindingMethod) (fr : FreshnessRequirements) : PresentationPolicy :=
  mkPolicy (lp_id neutral_policy) (lp_name neutral_policy) None (lp_purpose neutral_policy) [] [] binding
    None [] fr false false ∅ FreshestFirst ∅ [] 1.

(** [src/marty-verification/src/policy/freshness.rs:21-38] FreshnessChecker::check_credential_age *)
Definition check_credential_age (requirements : FreshnessRequirements) (issued_at evaluation_time : Z) :
    total FreshnessCheckResult :=
  let pol := freshness_policy NoBinding (mkFreshnessRequirements (max_credential_age requirements) 300 false) in
  let input := mkInput [] [] (in_issuer_id neutral_input) true (Some issued_at) None evaluation_time
                 false false None 1 in
  result ← legacy_evaluate pol input;
  Ok (map_freshness_result result PE_CredentialTimestampFuture PE_CredentialStale).

(** [src/marty-verification/src/policy/freshness.rs:40-59] FreshnessChecker::check_proof_age *)
Definition check_proof_age (requirements : FreshnessRequirements) (proof_time evaluation_time : Z) :
    total FreshnessCheckResult :=
  let pol := freshness_policy DeviceKey (mkFreshnessRequirements None (max_proof_age requirements) false) in
  let input := mkInput [] [] (in_issuer_id neutral_input) true None (Some proof_time) evaluation_time
                 true false None 1 in
  result ← legacy_evaluate pol input;
  Ok (map_freshness_result result PE_ProofTimestampFuture PE_ProofStale).

(** [src/marty-verification/src/policy/freshness.rs:61-64] FreshnessChecker::requires_live_revocation_check *)
Definition requires_live_revocation_check (requirements : FreshnessRequirements) : bool :=
  require_live_revocation_check requirements.

(** ** Claim constraints ([claim_evaluator.rs]) *)

(** [src/marty-verification/src/policy/claim_evaluator.rs:118-124] ClaimEvaluationResult *)
Record ClaimEvaluationResult := mkClaimEvaluation {
  ce_is_satisfied : bool;
  ce_missing_claims : list string;
  ce_satisfied_claims : list string;
}.

(** [src/marty-verification/src/policy/claim_evaluator.rs:15-25] ClaimConstraintEvaluator::new, on a list of requirements *)
Definition claims_policy (pol : PresentationPolicy) (requirements : list RequiredClaim) : PresentationPolicy :=
  mkPolicy (lp_id neutral_policy) (lp_name neutral_policy) None (lp_purpose neutral_policy) [] requirements
    NoBinding None [] (freshness_requirements neutral_policy) (prefer_predicates pol) false
    (derived_attribute_preferences pol) FreshestFirst ∅ [] 1.

Definition claims_input (claims : list (string * Value)) (types : list string) : PolicyEvaluationInput :=
  mkInput types claims (in_issuer_id neutral_input) true None None 0 false false None 1.

(** [src/marty-verification/src/policy/claim_evaluator.rs:51-66] evaluate_for_credential_types, the loop over the requirements *)
Fixpoint claim_loop (pol : PresentationPolicy) (claims : list (string * Value)) (types : list string)
    (requirements : list RequiredClaim) (missing satisfied : list string) :
    total (list string * list string) :=
  match requirements with
  | [] => Ok (missing, satisfied)
  | required :: rest =>
      result ← legacy_evaluate (claims_policy pol [required]) (claims_input claims types);
      if is_satisfied result then
        claim_loop pol claims types rest missing
          (satisfied ++ [selected_claim_name pol claims required])
      else
        claim_loop pol claims types rest
          (missing ++ [default (claim_name required) (head (missing_claims result))]) satisfied
  end.

(** [src/marty-verification/src/policy/claim_evaluator.rs:38-73] evaluate_for_credential_types *)
Definition evaluate_for_credential_types (pol : PresentationPolicy) (claims : list (string * Value))
    (types : list string) : total ClaimEvaluationResult :=
  canonical ← legacy_evaluate (claims_policy pol (required_claims pol)) (claims_input claims types);
  sets ← claim_loop pol claims types (required_claims pol) [] [];
  Ok (mkClaimEvaluation (is_satisfied canonical) sets.1 sets.2).

(** [src/marty-verification/src/policy/claim_evaluator.rs:27-36] ClaimConstraintEvaluator::evaluate *)
Definition evaluate_claims (pol : PresentationPolicy) (claims : list (string * Value)) :
    total ClaimEvaluationResult :=
  evaluate_for_credential_types pol claims (credential_type <$> required_claims pol).

(** [src/marty-verification/src/policy/claim_evaluator.rs:75-97] ClaimConstraintEvaluator::get_preferred_claims *)
Definition get_preferred_claims (pol : PresentationPolicy) (available : list string) : list string :=
  foldl (fun preferred name =>
    match derived_attribute_preferences pol !! name with
    | Some derived => if str_in derived available then push_unique preferred derived
                      else push_unique preferred name
    | None => push_unique preferred name
    end) [] available.
End compat.
