(* ===== verification/PolicyCompatFacts.v ===== *)
(** * The wallet-facing policy model: theorems (marty-verification, [policy/])

    The projection onto the canonical kernel decides the conditions of the
    original policy model; a refused presentation always carries an error; the
    minimum disclosure set is exactly what the required claims select. *)

From stdpp Require Import gmap strings pretty.
From Stdlib Require Import SpecFloat.
From S2P Require Import Prelude Governance CanonicalJsonFacts PolicyService PolicyServiceFacts PolicyCompat.
Local Open Scope string_scope.
Local Open Scope Z_scope.

Section specification.
Context `{JsonValueOps, RegexOps, Calendar}.

(** ** What a presentation must satisfy *)

Definition type_presented (input : PolicyEvaluationInput) (t : string) : Prop :=
  t = "" \/ t = LEGACY_ANY_TYPE \/ t ∈ in_credential_types input.

(** The claim chosen for a requirement is presented, with the required value
    when there is one and with a value other than [null] otherwise. *)
Definition claim_met (pol : PresentationPolicy) (input : PolicyEvaluationInput) (rc : RequiredClaim) : Prop :=
  type_presented input (credential_type rc) /\
  exists actual, claims_get (in_claims input) (selected_claim_name pol (in_claims input) rc) = Some actual /\
    match required_value rc with
    | Some v => exists text, value_text actual = Some text /\ value_text v = Some text
    | None => actual <> Null
    end.

(** The conditions on the credential itself. *)
Record facts_ok (pol : PresentationPolicy) (input : PolicyEvaluationInput) : Prop := {
  fo_trust : is_Some (lp_trust_profile_id pol) -> in_trust_profile_verified input = true;
  fo_issuer : lp_allowed_issuers pol = [] \/ in_issuer_id input ∈ lp_allowed_issuers pol;
  fo_issued t : in_issued_at input = Some t -> t <= in_evaluation_time input;
  fo_age m : max_credential_age (freshness_requirements pol) = Some m ->
    exists t, in_issued_at input = Some t /\ in_evaluation_time input - t <= m;
  fo_not_revoked : in_not_revoked input <> Some false;
  fo_revocation : require_live_revocation_check (freshness_requirements pol) = true ->
    in_not_revoked input = Some true /\ in_revocation_checked input = true;
}.

Record legacy_ok (pol : PresentationPolicy) (input : PolicyEvaluationInput) : Prop := {
  lo_facts : facts_ok pol input;
  lo_types : accepted_credential_types pol = [] \/
    exists t, t ∈ accepted_credential_types pol /\ type_presented input t;
  lo_claims rc : rc ∈ required_claims pol -> claim_met pol input rc;
  lo_holder : lp_holder_binding pol <> NoBinding ->
    in_holder_binding_verified input = true /\
    exists t, in_proof_time input = Some t /\
      in_evaluation_time input - t <= max_proof_age (freshness_requirements pol);
  lo_proof t : in_proof_time input = Some t -> t <= in_evaluation_time input;
  lo_single : lp_single_presentation pol = true -> in_presentation_count input = 1;
}.

(** ** Lists of strings *)

Lemma str_in_elem s l : str_in s l = true <-> s ∈ l.
Proof. apply existsb_eqb. Qed.

Lemma elem_of_dedup s l : s ∈ dedup_strings l <-> s ∈ l.
Proof.
  induction l as [|a l IH]; [done|]. destruct l as [|b l]; [done|]. cbn [dedup_strings].
  destruct (String.eqb_spec a b) as [->|Hne].
  - rewrite IH. set_solver.
  - rewrite elem_of_cons, IH. set_solver.
Qed.

Lemma elem_of_sort_strings s l : s ∈ sort_strings l <-> s ∈ l.
Proof. unfold sort_strings. by rewrite sort_by_perm. Qed.

Lemma template_matches r input : matches_template r (projected_credential input) = true <->
  type_presented input (rq_template_id r).
Proof.
  unfold matches_template, type_presented. rewrite orb_true_iff, String.eqb_eq, existsb_eqb.
  cbn [credential_template_ids projected_credential].
  rewrite elem_of_dedup, elem_of_sort_strings, elem_of_app, list_elem_of_singleton. tauto.
Qed.

(** ** The projected requirements *)

(** The projected credential meets a requirement without its own constraints. *)
Definition plain_requirement (r : ServiceCredentialRequirement) : Prop :=
  credential_payload_format r = None /\ rq_trust_profile_id r = None /\
  rq_max_age_seconds r = None /\ require_fresh_issuance r = false.

Lemma projected_candidate pol input r : plain_requirement r ->
  candidate_ok r (projected_policy pol input) (projected_credential input) (in_evaluation_time input) <->
  facts_ok pol input /\
  forall q, q ∈ requested_claims r -> claim_ok (projected_credential input) (in_evaluation_time input) q.
Proof.
  intros (Hf & Ht & Hm & Hi). split.
  - intros [_ _ Htrust [Hiss _] (Hissued & _ & Hage) [Hnr Hrev] Hc]. split; [|done].
    split; cbn in *; try done.
    + intros Hs. apply Htrust. by right.
    + intros m Hmax. apply Hage. right. cbn. exact Hmax.
    + intros Hlive. destruct (Hrev _ eq_refl Hlive) as (Hn & t & Hchk & _). split; [done|].
      by destruct (in_revocation_checked input).
  - intros [[Htrust Hiss Hissued Hage Hnr Hrev] Hc]. split; cbn; try done.
    + intros f. congruence.
    + rewrite Ht. intros [[? ?]|Hs]; [done|by apply Htrust].
    + split; [done|]. split; [cbn; congruence|]. intros m [Hr|Hp]; [congruence|]. apply Hage. exact Hp.
    + split; [done|]. cbn. intros fr [= <-] Hlive. cbn in Hlive. destruct (Hrev Hlive) as [-> ->].
      split; [done|]. exists (in_evaluation_time input). split; [done|]. split; [lia|done].
Qed.

Lemma claim_get_projected input n : claim_get (projected_credential input) n = claims_get (in_claims input) n.
Proof. done. Qed.

Lemma claim_constraint_met pol input id rc q :
  q ∈ requested_claims (claim_requirement id rc pol input) ->
  claim_ok (projected_credential input) (in_evaluation_time input) q <->
  exists actual, claims_get (in_claims input) (selected_claim_name pol (in_claims input) rc) = Some actual /\
    match required_value rc with
    | Some v => exists text, value_text actual = Some text /\ value_text v = Some text
    | None => actual <> Null
    end.
Proof.
  cbn. intros ->%list_elem_of_singleton. unfold claim_ok. cbn [rc_required rc_claim_name constraints].
  rewrite claim_get_projected. set (name := selected_claim_name pol (in_claims input) rc).
  setoid_rewrite list_elem_of_singleton.
  destruct (claims_get (in_claims input) name) as [actual|]; [|split; [intros [Hr _]; by destruct (Hr eq_refl)|by intros (? & ? & _)]].
  destruct (required_value rc) as [v|]; split.
  - intros [_ Hk]. exists actual. split; [done|]. specialize (Hk _ eq_refl). cbn in Hk. unfold compare_text in Hk. cbn in Hk.
    destruct (value_text actual) as [a|], (value_text v) as [b|]; try done. apply String.eqb_eq in Hk as ->. by exists b.
  - intros (? & [= <-] & text & Ha & Hv). split; [done|]. intros k ->. cbn. unfold compare_text. cbn.
    rewrite Ha, Hv. apply String.eqb_refl.
  - intros [_ Hk]. exists actual. split; [done|]. specialize (Hk _ eq_refl). cbn in Hk. by destruct actual.
  - intros (? & [= <-] & Hn). split; [done|]. intros k ->. cbn. by destruct actual.
Qed.

(** ** The projected request *)

Lemma requirement_projected pol input r : plain_requirement r ->
  requirement_ok (projected_policy pol input) [projected_credential input] (in_evaluation_time input) r <->
  type_presented input (rq_template_id r) /\ facts_ok pol input /\
  forall q, q ∈ requested_claims r -> claim_ok (projected_credential input) (in_evaluation_time input) q.
Proof.
  intros Hp. rewrite <- projected_candidate, <- template_matches by done. unfold requirement_ok. split.
  - by intros (c & ->%list_elem_of_singleton & Hm & Hc).
  - intros [Hm Hc]. exists (projected_credential input). split; [by left|done].
Qed.

Lemma plain_empty id t : plain_requirement (empty_requirement id t).
Proof. done. Qed.
Lemma plain_claim id rc pol input : plain_requirement (claim_requirement id rc pol input).
Proof. done. Qed.

Lemma global_requirement_ok pol input id :
  requirement_ok (projected_policy pol input) [projected_credential input] (in_evaluation_time input)
    (empty_requirement id LEGACY_ANY_TYPE) <-> facts_ok pol input.
Proof.
  rewrite requirement_projected by apply plain_empty. split; [tauto|]. intros Hf.
  split; [right; by left|]. split; [done|]. intros q Hq. by apply elem_of_nil in Hq.
Qed.

Lemma claim_requirement_ok pol input id rc :
  requirement_ok (projected_policy pol input) [projected_credential input] (in_evaluation_time input)
    (claim_requirement id rc pol input) <-> facts_ok pol input /\ claim_met pol input rc.
Proof.
  rewrite requirement_projected by apply plain_claim. unfold claim_met. cbn [rq_template_id claim_requirement].
  set (q0 := mkRequestedClaim (selected_claim_name pol (in_claims input) rc) true true (accept_predicate rc) None
    [match required_value rc with
     | Some value => mkConstraint (selected_claim_name pol (in_claims input) rc) Equals (Some value)
     | None => mkConstraint (selected_claim_name pol (in_claims input) rc) Presence None
     end]).
  assert (Hq0 : q0 ∈ requested_claims (claim_requirement id rc pol input)) by by left.
  rewrite <- (claim_constraint_met pol input id rc q0 Hq0). split.
  - intros (Ht & Hf & Hq). split; [done|]. split; [done|]. by apply Hq.
  - intros (Hf & Ht & Hq). split; [done|]. split; [done|]. by intros q ->%list_elem_of_singleton.
Qed.

Lemma accepted_types_ok pol input : facts_ok pol input ->
  (forall alt, alt ∈ accepted_types_alternative pol ->
     alternative_ok (projected_policy pol input) [projected_credential input] (in_evaluation_time input) alt) <->
  accepted_credential_types pol = [] \/
  exists t, t ∈ accepted_credential_types pol /\ type_presented input t.
Proof.
  intros Hf. unfold accepted_types_alternative.
  destruct (accepted_credential_types pol) as [|t0 types0]; [split; [by left|intros _ alt Ha; by apply elem_of_nil in Ha]|].
  set (types := t0 :: types0). split.
  - intros Hall. right. destruct (Hall _ ltac:(by left)) as (met & Hsub & Hmet & Hmin). cbn in Hmin.
    destruct met as [|r met]; [done|]. apply Forall_cons in Hmet as [Hr _].
    assert (Hin : r ∈ imap (fun index t => empty_requirement (accepted_id index) t) types)
      by (eapply elem_of_submseteq; [by left|by apply sublist_submseteq]).
    apply elem_of_lookup_imap_1 in Hin as (i & t & -> & Ht). exists t.
    split; [by eapply list_elem_of_lookup_2|]. by apply requirement_projected in Hr as [Ht' _].
  - intros [?|(t & Ht & Hp)]; [done|]. intros alt ->%list_elem_of_singleton.
    apply list_elem_of_lookup in Ht as [i Hi].
    exists [empty_requirement (accepted_id i) t]. split; [|split; [|cbn; done]].
    + apply singleton_sublist_l. cbn [alt_requirements]. by apply (elem_of_lookup_imap_2 (fun index t => empty_requirement (accepted_id index) t)).
    + repeat constructor. apply requirement_projected; [apply plain_empty|]. split; [done|]. split; [done|].
      intros q Hq. by apply elem_of_nil in Hq.
Qed.

Lemma projected_policy_ok pol input : policy_ok (legacy_request pol input) <-> legacy_ok pol input.
Proof.
  split.
  - intros [_ Hreq Halt Hhold [Hproof Hage] _ Hsingle]. cbn in Hreq, Halt, Hproof.
    assert (Hf : facts_ok pol input)
      by (apply (global_requirement_ok _ _ "legacy-global-facts"), Hreq; [by left|done]).
    split; try done.
    + by apply (accepted_types_ok pol input Hf).
    + intros rc [i Hrc]%list_elem_of_lookup.
      eapply (claim_requirement_ok _ _ (claim_id i)). apply Hreq; [right|done].
      by apply (elem_of_lookup_imap_2 (fun index claim => claim_requirement (claim_id index) claim pol input)).
    + intros Hb. unfold holder_ok in Hhold. cbn in Hhold, Hage. unfold has_binding in Hhold, Hage.
      rewrite bool_decide_eq_false_2 in Hhold, Hage by done. destruct (Hhold eq_refl) as [Hv _].
      split; [done|]. by apply Hage.
  - intros [Hf Htypes Hclaims Hhold Hproof Hsingle]. split; cbn; try done.
    + intros r [->|Hr]%elem_of_cons _; [by apply global_requirement_ok|].
      apply elem_of_lookup_imap_1 in Hr as (i & rc & -> & Hrc). apply claim_requirement_ok. split; [done|].
      apply Hclaims. by eapply list_elem_of_lookup_2.
    + by apply accepted_types_ok.
    + intros Hb. cbn in *. unfold has_binding in Hb. apply negb_true_iff, bool_decide_eq_false in Hb.
      destruct (Hhold Hb) as [Hv _]. rewrite Hv. split; [done|]. split; [|by split_and!; [left| | |]].
      right. destruct (lp_holder_binding pol); [..|done]; eexists; (split; [done|by left]).
    + split; [done|]. cbn. intros Hb. rewrite Hb. unfold has_binding in Hb.
      apply negb_true_iff, bool_decide_eq_false in Hb. destruct (Hhold Hb) as [_ Ht].
      by intros m [= <-].
Qed.
End specification.

(** One credential cannot disclose conflicting claims. *)
Lemma projected_consistent `{JsonEqLaws, RegexOps, Calendar} pol input :
  consistent (concat (disclosed_result <$> direct_of (legacy_request pol input))
              ++ concat (disclosed_alternative <$> alternatives_of (legacy_request pol input))).
Proof.
  intros n v w (_ & c & _ & _ & Hc & _ & _ & _ & _ & Hv)%disclosed_from
    (_ & c' & _ & _ & Hc' & _ & _ & _ & _ & Hw)%disclosed_from.
  apply list_elem_of_singleton in Hc as ->, Hc' as ->.
  assert (v = w) as -> by congruence. apply json_eqb_refl.
Qed.

Lemma legacy_decision `{JsonEqLaws, RegexOps, Calendar} pol input :
  decision (evaluate_valid_request (legacy_request pol input)) = Allow <-> legacy_ok pol input.
Proof.
  destruct (evaluate_valid_request_parts (legacy_request pol input)) as (_ & _ & -> & _).
  rewrite decision_allow_iff, projected_policy_ok. split; [tauto|]. intros Hl. split; [done|].
  apply projected_consistent.
Qed.

(** ** Errors of the kernel *)

Section kernel_errors.
Context `{JsonEqLaws, RegexOps, Calendar}.

Lemma requirement_errors_nil r pol creds time :
  cr_errors (evaluate_requirement r pol creds time) = [] <->
  cr_satisfied (evaluate_requirement r pol creds time) = true.
Proof.
  unfold evaluate_requirement. destruct (sort_by _ _) as [|best rest] eqn:Hsort; [done|].
  assert (Hb : best ∈ (fun c => evaluate_candidate r pol c time) <$> List.filter (matches_template r) creds)
    by (rewrite <- (sort_by_perm candidate_le), Hsort; by left).
  apply list_elem_of_fmap in Hb as (c & -> & _). unfold evaluate_candidate. cbv zeta. cbn [cr_errors cr_satisfied].
  rewrite bool_decide_eq_true. by rewrite length_zero_iff_nil.
Qed.

Lemma alternative_errors_nil a : alternative_violations a = [] <-> ar_satisfied a = true.
Proof.
  unfold alternative_violations. destruct (ar_satisfied a); [done|]. split; [|done].
  intros Hn%app_nil. by destruct Hn.
Qed.

(** When every requirement is required, a presentation is allowed exactly when
    there is no error. *)
Lemma allow_iff_no_errors req :
  Forall (fun r => rq_required r = true) (credential_requirements (policy req)) ->
  decision_of req = Allow <-> errors_of req = [].
Proof.
  intros Hreq. rewrite Forall_forall in Hreq. unfold decision_of. rewrite final_decision_allow, obligations_iff. split.
  - intros ((_ & Hd & Ha) & _ & Hg). apply global_failure_iff in Hg as (Hc & Hp & Hh & Ht & He & Hs).
    unfold errors_of. rewrite !app_nil, !concat_nil, push_if_nil, implb_false.
    split_and!; try (by apply holder_violations_spec || by apply proof_time_violations_spec
      || by apply external_violations_spec || by apply single_violations_spec); try done.
    + intros x Hx. unfold pairs_of, direct_of in *. rewrite zip_fmap in Hd.
      apply list_elem_of_fmap in Hx as (r & -> & Hr). apply requirement_errors_nil.
      apply (Hd _ (list_elem_of_fmap_2 _ _ _ Hr)), Hreq, Hr.
    + by apply (ag_errors _ _ (aggregate_inv _ _)).
    + intros a Hin. by apply alternative_errors_nil, Ha.
  - intros Hnil. rewrite Hnil. unfold errors_of in Hnil.
    rewrite !app_nil, !concat_nil, push_if_nil, implb_false in Hnil.
    destruct Hnil as (Hd & _ & Hp & Ha & _).
    assert (Hdir : forall p, p ∈ pairs_of req -> cr_satisfied p.2 = true).
    { unfold pairs_of, direct_of in *. rewrite zip_fmap. intros p Hpin.
      apply list_elem_of_fmap in Hpin as (r & -> & Hr). apply requirement_errors_nil, Hd.
      by apply (list_elem_of_fmap_2 (fun r => evaluate_requirement r (policy req) (creds_of req) (evaluation_time req))). }
    split_and!; try done.
    + intros p Hin _. by apply Hdir.
    + intros a Hin. by apply alternative_errors_nil, Ha.
    + apply forallb_forall. intros p Hin%list_elem_of_In. rewrite (Hdir p Hin). apply orb_true_r.
Qed.
End kernel_errors.

(** The violations of a requirement carry its id; only a requirement with
    requested claims has claim violations, and only a requirement that no
    credential matches lacks a credential. *)
Section violation_codes.
Context `{JsonValueOps, RegexOps, Calendar}.

Definition candidate_violation (r : ServiceCredentialRequirement) (v : ServicePolicyViolation) : Prop :=
  v_requirement_id v = Some (rq_id r) /\
  match v_code v with
  | CredentialMissing => False
  | ClaimMissing | ClaimConstraintFailed => requested_claims r <> []
  | _ => True
  end.

Lemma push_if_forall (P : ServicePolicyViolation -> Prop) b v : P v -> Forall P (push_if b v).
Proof. destruct b; simpl; repeat constructor; done. Qed.

Lemma concat_forall {A} (P : ServicePolicyViolation -> Prop) (f : A -> list ServicePolicyViolation) l :
  (forall x, x ∈ l -> Forall P (f x)) -> Forall P (concat (f <$> l)).
Proof.
  induction l as [|x l IH]; intros Hf; simpl; [constructor|]. apply Forall_app. split.
  - apply Hf. by left.
  - apply IH. intros y Hy. apply Hf. by right.
Qed.

Lemma evaluate_candidate_codes r pol c time :
  Forall (candidate_violation r) (cr_errors (evaluate_candidate r pol c time)).
Proof.
  unfold evaluate_candidate. cbv zeta. simpl cr_errors. rewrite !Forall_app.
  split_and!; try (apply push_if_forall; done).
  - unfold apply_issuer_constraints. destruct (issuer_constraints pol); [|constructor].
    rewrite !Forall_app. split_and!; [apply push_if_forall; done|apply concat_forall..];
      intros x _; apply push_if_forall; done.
  - unfold apply_freshness, age_violations, revocation_violations. rewrite Forall_app. cbv zeta.
    split; repeat case_match; try (apply push_if_forall; done); repeat constructor.
  - rewrite <- list_fmap_compose. apply concat_forall. intros q Hq.
    assert (requested_claims r <> []) by (intros Hn; rewrite Hn in Hq; by apply elem_of_nil in Hq).
    unfold evaluate_claim. simpl. rewrite Forall_app. split; [apply concat_forall; intros x _|];
      apply push_if_forall; done.
Qed.

Lemma evaluate_requirement_codes r pol creds time v :
  v ∈ cr_errors (evaluate_requirement r pol creds time) ->
  candidate_violation r v \/
  v_requirement_id v = Some (rq_id r) /\ v_code v = CredentialMissing /\
  forall c, c ∈ creds -> matches_template r c = false.
Proof.
  unfold evaluate_requirement. destruct (sort_by _ _) as [|best rest] eqn:Hsort.
  - intros ->%list_elem_of_singleton. right. split; [done|]. split; [done|]. intros c Hc.
    destruct (matches_template r c) eqn:Hm; [|done]. exfalso.
    assert (Hin : evaluate_candidate r pol c time ∈
        sort_by candidate_le ((fun c => evaluate_candidate r pol c time) <$> List.filter (matches_template r) creds)).
    { rewrite sort_by_perm. apply (list_elem_of_fmap_2 (fun c => evaluate_candidate r pol c time)).
      by rewrite list_elem_of_In, filter_In, <- list_elem_of_In. }
    rewrite Hsort in Hin. by apply elem_of_nil in Hin.
  - intros Hv. left.
    assert (Hb : best ∈ (fun c => evaluate_candidate r pol c time) <$> List.filter (matches_template r) creds)
      by (rewrite <- (sort_by_perm candidate_le), Hsort; by left).
    apply list_elem_of_fmap in Hb as (c & -> & _).
    pose proof (evaluate_candidate_codes r pol c time) as Hall. rewrite Forall_forall in Hall. by apply Hall.
Qed.
End violation_codes.

(** ** The errors of the projection *)

Lemma str_starts_with_app p s : str_starts_with (p +:+ s) p = true.
Proof.
  unfold str_starts_with, str_bytes. induction p as [|a p IH]; [done|]. simpl.
  by rewrite bool_decide_eq_true_2.
Qed.

Lemma foldl_preserves {A B} (P : A -> Prop) (f : A -> B -> A) l : forall a,
  P a -> (forall a x, P a -> P (f a x)) -> P (foldl f a l).
Proof. induction l as [|x l IH]; intros a Ha Hf; simpl; [done|]. apply IH; auto. Qed.

Section projection_errors.
Context `{JsonEqLaws, RegexOps, Calendar}.

(** A violation that the projection reports. *)
Definition reportable (v : ServicePolicyViolation) : Prop :=
  match v_code v with
  | CredentialMissing => exists id, v_requirement_id v = Some id /\
      (str_starts_with id "legacy-accepted-" = true \/ str_starts_with id "legacy-claim-" = true)
  | ClaimMissing | ClaimConstraintFailed => exists id, v_requirement_id v = Some id /\
      str_starts_with id "legacy-claim-" = true
  | _ => True
  end.

Lemma reportable_mapped pol input v missing : reportable v -> is_Some (map_error pol input v missing).
Proof.
  unfold reportable, map_error. cbv zeta. intros Hv.
  destruct (v_code v); try (by eexists).
  - destruct Hv as (id & -> & [Hid|Hid]); [by rewrite Hid; eexists|].
    destruct (str_starts_with id "legacy-accepted-"); [by eexists|]. cbn [mbind option_bind]. rewrite Hid. by eexists.
  - destruct Hv as (id & -> & Hid). cbn [mbind option_bind]. rewrite Hid. by eexists.
  - destruct Hv as (id & -> & Hid). cbn [mbind option_bind]. rewrite Hid. by eexists.
Qed.

Lemma candidate_reportable r v : candidate_violation r v ->
  requested_claims r = [] \/ str_starts_with (rq_id r) "legacy-claim-" = true -> reportable v.
Proof.
  unfold candidate_violation, reportable. intros [Hid Hc] Hr.
  destruct (v_code v); try done; exists (rq_id r); (split; [done|]); destruct Hr; done.
Qed.

Lemma direct_reportable pol input res v : res ∈ direct_of (legacy_request pol input) ->
  v ∈ cr_errors res -> reportable v.
Proof.
  intros (r & -> & Hr)%list_elem_of_fmap Hv. cbn in Hr.
  apply elem_of_cons in Hr as [->|Hr]; apply evaluate_requirement_codes in Hv as [Hv|(Hid & Hcode & Hno)].
  - eapply candidate_reportable; [done|]. by left.
  - exfalso. assert (Hm : matches_template (empty_requirement "legacy-global-facts" LEGACY_ANY_TYPE)
      (projected_credential input) = true) by (apply template_matches; right; by left).
    specialize (Hno (projected_credential input)). rewrite Hm in Hno. by discriminate Hno; left.
  - apply elem_of_lookup_imap_1 in Hr as (i & rc & -> & _). eapply candidate_reportable; [done|].
    right. apply str_starts_with_app.
  - apply elem_of_lookup_imap_1 in Hr as (i & rc & -> & _). unfold reportable. rewrite Hcode.
    eexists. split; [done|]. right. apply str_starts_with_app.
Qed.

Lemma alternative_reportable pol input a v : a ∈ alternatives_of (legacy_request pol input) ->
  v ∈ alternative_violations a -> reportable v.
Proof.
  intros (alt & -> & Halt)%list_elem_of_fmap. unfold alternative_violations.
  destruct (ar_satisfied _); [by intros ?%elem_of_nil|]. intros [Hv|Hv]%elem_of_app;
    [|by apply list_elem_of_singleton in Hv as ->].
  rewrite list_elem_of_In, in_concat in Hv. destruct Hv as (l & Hl & Hv). apply list_elem_of_In in Hl, Hv.
  apply list_elem_of_fmap in Hl as (res & -> & Hres). unfold evaluate_alternative in Hres. cbn in Hres.
  apply list_elem_of_fmap in Hres as (r & -> & Hr).
  cbn in Halt. unfold accepted_types_alternative in Halt.
  destruct (accepted_credential_types pol) as [|t types]; [by apply elem_of_nil in Halt|].
  apply list_elem_of_singleton in Halt as ->. cbn [alt_requirements] in Hr.
  apply elem_of_lookup_imap_1 in Hr as (i & t' & -> & _).
  apply evaluate_requirement_codes in Hv as [Hv|(Hid & Hcode & _)].
  - eapply candidate_reportable; [done|]. by left.
  - unfold reportable. rewrite Hcode. eexists. split; [done|]. left. apply str_starts_with_app.
Qed.

Lemma agg_reportable direct alternatives :
  Forall reportable (aggregate_of direct alternatives).2.
Proof.
  assert (Hclaim : forall cid (acc : Aggregate) k, Forall reportable acc.2 -> Forall reportable (collect_claim cid acc k).2).
  { intros cid acc k Hacc. unfold collect_claim. repeat case_match; try done.
    cbn [snd]. apply Forall_app. by split; [|repeat constructor]. }
  assert (Hres : forall (acc : Aggregate) res, Forall reportable acc.2 -> Forall reportable (collect_verified_claims res acc).2).
  { intros acc res Hacc. unfold collect_verified_claims. destruct (negb _); [done|].
    apply (foldl_preserves (fun a : Aggregate => Forall reportable a.2)); auto. }
  unfold aggregate_of. apply (foldl_preserves (fun a : Aggregate => Forall reportable a.2)).
  - apply (foldl_preserves (fun a : Aggregate => Forall reportable a.2)); [constructor|]. intros acc res. apply Hres.
  - intros acc alt Hacc. destruct (ar_satisfied alt); [|done].
    apply (foldl_preserves (fun a : Aggregate => Forall reportable a.2)); [done|]. intros acc' res Hacc'.
    destruct (cr_satisfied res); auto.
Qed.

(** The checks that concern no requirement. *)
Lemma global_reportable req :
  Forall reportable (holder_binding_violations req) /\ Forall reportable (proof_time_violations req) /\
  Forall reportable (external_violations req) /\ Forall reportable (single_presentation_violations req).
Proof.
  unfold holder_binding_violations, proof_time_violations, external_violations, single_presentation_violations.
  cbv zeta. split_and!.
  - apply Forall_app. split; [by apply push_if_forall|]. destruct (_ && _); [|constructor].
    rewrite !Forall_app. split_and!; by apply push_if_forall.
  - repeat case_match; try (by apply push_if_forall); by repeat constructor.
  - repeat case_match; try (by apply push_if_forall); by repeat constructor.
  - by apply push_if_forall.
Qed.

Lemma errors_reportable pol input : Forall reportable (errors_of (legacy_request pol input)).
Proof.
  destruct (global_reportable (legacy_request pol input)) as (H1' & H2' & H3' & H4').
  unfold errors_of. rewrite !Forall_app. split_and!; try done.
  - apply Forall_forall. intros v (res & Hres & Hv)%elem_of_concat_fmap. by eapply direct_reportable.
  - apply agg_reportable.
  - apply Forall_forall. intros v (a & Ha & Hv)%elem_of_concat_fmap. by eapply alternative_reportable.
Qed.

Lemma map_errors_nil pol input vs missing : Forall reportable vs ->
  map_errors pol input vs missing = [] <-> vs = [].
Proof.
  intros Hvs. split; [|by intros ->]. destruct Hvs as [|v vs Hv Hvs]; [done|]. intros Hnil. exfalso.
  unfold map_errors in Hnil. cbn [foldl] in Hnil.
  destruct (reportable_mapped pol input v missing Hv) as [e He]. rewrite He in Hnil.
  rewrite bool_decide_eq_false_2 in Hnil by (by intros ?%elem_of_nil). cbn [app] in Hnil.
  revert Hnil. apply (foldl_preserves (fun l => l <> [])); [done|].
  intros l v' Hl. destruct (map_error pol input v' missing); [|done]. case_bool_decide; [done|]. by destruct l.
Qed.

Lemma errors_parts req : errors (evaluate_valid_request req) = errors_of req.
Proof.
  unfold evaluate_valid_request. cbv zeta.
  destruct (final_decision _ _ _ _ _ _) as [[? ?] ?]. done.
Qed.

Lemma projected_required pol input :
  Forall (fun r => rq_required r = true) (credential_requirements (policy (legacy_request pol input))).
Proof.
  constructor; [done|]. apply Forall_forall. intros r (i & rc & -> & _)%elem_of_lookup_imap_1. done.
Qed.
End projection_errors.

(** ** The decision of the wallet-facing model *)

Lemma legacy_evaluate_spec `{JsonEqLaws, RegexOps, Calendar} pol input :
  exists r, legacy_evaluate pol input = Ok r /\
    (is_satisfied r = true <-> validate_request (legacy_request pol input) = Ok tt /\ legacy_ok pol input) /\
    (is_satisfied r = true <-> pr_errors r = []).
Proof.
  unfold legacy_evaluate. pose proof (evaluate_service_policy_no_panic (legacy_request pol input)) as Hnp.
  destruct (evaluate_service_policy (legacy_request pol input)) as [c|e|] eqn:He; [| |done].
  - apply evaluate_service_policy_Ok in He as [Hv ->]. cbv zeta. eexists. split; [done|].
    cbn [is_satisfied pr_errors]. rewrite bool_decide_eq_true, legacy_decision. split; [tauto|].
    rewrite errors_parts, map_errors_nil by apply errors_reportable.
    rewrite <- allow_iff_no_errors by apply projected_required.
    rewrite <- legacy_decision. by destruct (evaluate_valid_request_parts (legacy_request pol input)) as (_ & _ & -> & _).
  - eexists. split; [done|]. split; [|done]. split; [done|]. intros [Hv _].
    unfold evaluate_service_policy in He. rewrite Hv in He. done.
Qed.

(** C28: The evaluation never panics. The presentation satisfies the policy exactly
    when the projected request is valid and the conditions of the policy hold:
    an accepted credential type, every required claim, the issuer and trust
    constraints, holder binding with a fresh proof, freshness, revocation, and
    the single-presentation rule. It reports an error exactly when it is not
    satisfied. *)
Theorem legacy_policy_exact `{JsonEqLaws, RegexOps, Calendar} pol input :
  exists r, legacy_evaluate pol input = Ok r /\
    (is_satisfied r = true <-> validate_request (legacy_request pol input) = Ok tt /\ legacy_ok pol input) /\
    (is_satisfied r = true <-> pr_errors r = []).
Proof. apply legacy_evaluate_spec. Qed.

(** ** Minimum disclosure *)

(** The claim that answers a requirement: its preferred derived attribute when
    that is acceptable and available, else the claim itself when available. *)
Definition chosen_claim (pol : PresentationPolicy) (available : list string) (rc : RequiredClaim) : option string :=
  match available_derived (derived_attribute_preferences pol) rc available with
  | Some derived => Some derived
  | None => if str_in (claim_name rc) available then Some (claim_name rc) else None
  end.

Lemma resolve_loop_spec pol available reqs : forall selected missing,
  let res := resolve_loop (derived_attribute_preferences pol) reqs available selected missing in
  (forall n, n ∈ res.1 <-> n ∈ selected \/ exists rc, rc ∈ reqs /\ chosen_claim pol available rc = Some n) /\
  res.2 = (missing ++ (claim_name <$> List.filter (fun rc => bool_decide (chosen_claim pol available rc = None)) reqs))%list.
Proof.
  induction reqs as [|rc reqs IH]; intros selected missing; cbn [resolve_loop].
  - split; [|by rewrite app_nil_r]. intros n. split; [by left|]. intros [?|(rc & ?%elem_of_nil & _)]; done.
  - assert (Hstep : forall selected' missing' o, chosen_claim pol available rc = o ->
      selected' = match o with Some n => {[ n ]} ∪ selected | None => selected end ->
      missing' = (missing ++ match o with Some _ => [] | None => [claim_name rc] end)%list ->
      let res := resolve_loop (derived_attribute_preferences pol) reqs available selected' missing' in
      (forall n, n ∈ res.1 <-> n ∈ selected \/ exists rc', rc' ∈ rc :: reqs /\ chosen_claim pol available rc' = Some n) /\
      res.2 = (missing ++ (claim_name <$> List.filter (fun rc => bool_decide (chosen_claim pol available rc = None)) (rc :: reqs)))%list).
    { intros selected' missing' o Ho -> -> res.
      destruct (IH (match o with Some n => {[ n ]} ∪ selected | None => selected end)
                  (missing ++ match o with Some _ => [] | None => [claim_name rc] end)%list) as [Hin Hm].
      split.
      - intros n. unfold res. rewrite Hin. setoid_rewrite elem_of_cons.
        destruct o as [m|]; [rewrite elem_of_union, elem_of_singleton|]; naive_solver.
      - unfold res. rewrite Hm. cbn [List.filter]. rewrite Ho. destruct o as [m|]; simpl; [by rewrite app_nil_r|].
        by rewrite <- app_assoc. }
    unfold chosen_claim in Hstep at 1.
    destruct (available_derived _ rc available) as [d|]; [by apply (Hstep _ _ (Some d)); [..|rewrite app_nil_r]|].
    destruct (str_in (claim_name rc) available).
    + by apply (Hstep _ _ (Some (claim_name rc))); [..|rewrite app_nil_r].
    + by apply (Hstep _ _ None).
Qed.

(** The resolver discloses, in order and once each, the claims that answer the
    requirements, and reports the requirements that no claim answers. *)
Theorem minimum_disclosure_exact pol available :
  let s := resolve pol available in
  StronglySorted (fun a b => str_lt a b = true) (ds_claims s) /\
  (forall n, n ∈ ds_claims s <-> exists rc, rc ∈ required_claims pol /\ chosen_claim pol available rc = Some n) /\
  missing_required s =
    claim_name <$> List.filter (fun rc => bool_decide (chosen_claim pol available rc = None)) (required_claims pol).
Proof.
  unfold resolve. pose proof (resolve_loop_spec pol available (required_claims pol) ∅ []) as Hspec. cbv zeta in Hspec.
  destruct (resolve_loop _ _ _ _ _) as [selected missing]. cbn [fst snd] in Hspec. destruct Hspec as [Hin ->].
  cbn [ds_claims missing_required]. split; [|split; [|done]].
  - assert (Hnd : NoDup (sort_strings (elements selected)))
      by (unfold sort_strings; rewrite sort_by_perm; apply NoDup_elements).
    assert (Hs := sort_by_sorted (fun a b => bytes_le (str_bytes a) (str_bytes b))
      (fun a b => bytes_le_total _ _) (fun a b c => bytes_le_trans _ _ _) (elements selected)).
    fold (sort_strings (elements selected)) in Hs. revert Hs Hnd.
    generalize (sort_strings (elements selected)) as l. induction 1 as [|a l Hl IH Hall]; intros Hnd; constructor.
    + apply IH. by apply NoDup_cons in Hnd as [_ ?].
    + apply NoDup_cons in Hnd as [Ha _]. apply Forall_forall. intros b Hb. rewrite Forall_forall in Hall.
      unfold str_lt. rewrite (Hall b Hb). apply negb_true_iff, String.eqb_neq. by intros ->.
  - intros n. rewrite elem_of_sort_strings, elem_of_elements, Hin. split; [|by right].
    intros [?%elem_of_empty|?]; done.
Qed.

Lemma chosen_selected pol claims rc actual :
  claims_get claims (selected_claim_name pol claims rc) = Some actual ->
  chosen_claim pol (sort_strings claims.*1) rc = Some (selected_claim_name pol claims rc).
Proof.
  assert (Hkey : forall n, str_in n (sort_strings claims.*1) = claims_contain claims n).
  { intros n. apply eq_true_iff_eq. rewrite str_in_elem, elem_of_sort_strings. unfold claims_contain.
    rewrite existsb_exists, list_elem_of_fmap. setoid_rewrite <- list_elem_of_In. setoid_rewrite String.eqb_eq.
    split; intros (e & H1 & H2); exists e; by split. }
  assert (Hget : forall n v, claims_get claims n = Some v -> claims_contain claims n = true).
  { intros n v Hn. unfold claims_get in Hn. destruct (find _ claims) as [e|] eqn:He; [|done].
    apply find_some in He. unfold claims_contain. apply existsb_exists. by exists e. }
  unfold chosen_claim, available_derived, selected_claim_name.
  destruct (accept_predicate rc && bool_decide (required_value rc = None)).
  - destruct (derived_attribute_preferences pol !! claim_name rc) as [d|].
    + rewrite Hkey. destruct (claims_contain claims d); [done|]. intros Ha%Hget. by rewrite Hkey, Ha.
    + intros Ha%Hget. by rewrite Hkey, Ha.
  - intros Ha%Hget. by rewrite Hkey, Ha.
Qed.

(** What a satisfied presentation discloses is, for each required claim, the
    claim the policy was evaluated on; a refused one discloses nothing. *)
Theorem satisfied_disclosure `{JsonEqLaws, RegexOps, Calendar} pol input r :
  legacy_evaluate pol input = Ok r ->
  (is_satisfied r = false -> minimum_disclosure_set r = []) /\
  (is_satisfied r = true -> forall n, n ∈ minimum_disclosure_set r <->
     exists rc, rc ∈ required_claims pol /\ n = selected_claim_name pol (in_claims input) rc).
Proof.
  unfold legacy_evaluate. pose proof (evaluate_service_policy_no_panic (legacy_request pol input)) as Hnp.
  destruct (evaluate_service_policy (legacy_request pol input)) as [c|e|] eqn:He; [| |done].
  2: { intros [= <-]. done. }
  apply evaluate_service_policy_Ok in He as [_ ->]. cbv zeta. intros [= <-]. cbn [is_satisfied minimum_disclosure_set].
  case_bool_decide as Hd; [|done]. split; [done|]. intros _ n. apply legacy_decision in Hd.
  pose proof (resolve_loop_spec pol (sort_strings (in_claims input).*1) (required_claims pol) ∅ []) as Hspec.
  cbv zeta in Hspec. unfold resolve.
  destruct (resolve_loop _ _ _ _ _) as [selected missing]. destruct Hspec as [Hin _]. cbn [fst ds_claims] in *.
  rewrite elem_of_sort_strings, elem_of_elements, Hin. split.
  - intros [?%elem_of_empty|(rc & Hrc & Hc)]; [done|]. exists rc. split; [done|].
    destruct (lo_claims _ _ Hd rc Hrc) as [_ (actual & Ha & _)]. apply chosen_selected in Ha. congruence.
  - intros (rc & Hrc & ->). right. exists rc. split; [done|].
    destruct (lo_claims _ _ Hd rc Hrc) as [_ (actual & Ha & _)]. by eapply chosen_selected.
Qed.

(** ** The helpers *)

Definition string_ok (s : string) : Prop := s <> "" /\ str_len s <= MAX_STRING_LENGTH.

Lemma validate_string_iff f s : validate_string f s = Ok tt <-> string_ok s.
Proof.
  unfold validate_string, string_ok, ensure.
  destruct (String.eqb_spec s ""), (Z.ltb_spec MAX_STRING_LENGTH (str_len s)); simpl; naive_solver lia.
Qed.

Lemma then_Ok {E} (a b : res E unit) : (a;; b) = Ok tt <-> a = Ok tt /\ b = Ok tt.
Proof. rewrite bind_Ok. split; [by intros ([] & ? & ?)|intros [? ?]; by exists tt]. Qed.

Section helpers.
Context `{JsonEqLaws, RegexOps, Calendar}.

(** A request whose policy names no type and no claim is valid when its texts
    are. *)
Lemma helper_request_valid pol input :
  string_ok (lp_id pol) -> string_ok (lp_name pol) ->
  accepted_credential_types pol = [] -> required_claims pol = [] -> in_credential_types input = [] ->
  in_claims input = [] -> in_presentation_count input = 1 ->
  validate_request (legacy_request pol input) = Ok tt <->
  in_evaluation_time input <= i64_max /\
  (forall tp, lp_trust_profile_id pol = Some tp -> string_ok tp) /\
  zlen (lp_allowed_issuers pol) <= MAX_LIST_ITEMS /\ Forall string_ok (lp_allowed_issuers pol) /\
  string_ok (in_issuer_id input).
Proof.
  intros Hid Hname Hacc Hreq Hty Hcl Hn.
  assert (Hreqs : credential_requirements (projected_policy pol input) = [empty_requirement "legacy-global-facts" LEGACY_ANY_TYPE])
    by (unfold projected_policy, claim_requirement_list; cbn [credential_requirements]; by rewrite Hreq).
  assert (Halt : alternative_requirements (projected_policy pol input) = [])
    by (unfold projected_policy, accepted_types_alternative; cbn [alternative_requirements]; by rewrite Hacc).
  assert (Hcred : validate_credential (projected_credential input) = Ok tt <-> string_ok (in_issuer_id input)).
  { unfold validate_credential, projected_credential. cbn [vc_id issuer_id].
    rewrite Hty, Hcl, then_Ok, then_Ok, (validate_string_iff "issuer_id"). split; [tauto|]. intros Hi.
    split_and!; [by vm_compute|done|by vm_compute]. }
  unfold validate_request, validate_bounded_strings. cbv zeta.
  cbn [policy legacy_request evaluation_time credentials holder_binding_method proof_profile presentation_count
    external_authorization]. rewrite Hreqs, Halt, Hn. rewrite !then_Ok, !ensure_Ok.
  assert (Hones : for_each validate_credential [projected_credential input] = Ok tt <-> string_ok (in_issuer_id input))
    by (rewrite <- Hcred; cbn [for_each]; rewrite then_Ok; tauto).
  rewrite Hones. cbn [projected_policy pol_trust_profile_id allowed_issuers pol_id pol_name]. split.
  - intros (He & _ & _ & _ & Htp & _ & _ & _ & _ & [Hlen Hall] & _ & _ & _ & _ & Hi & _).
    split; [breflect; lia|]. split; [intros t Ht; rewrite Ht in Htp; by eapply validate_string_iff|].
    split; [breflect; lia|]. split; [|done]. apply Forall_forall. intros x Hx.
    eapply validate_string_iff. by eapply for_each_Ok in Hall.
  - intros (He & Htp & Hlen & Hall & Hi).
    assert (Hb : for_each (validate_string "holder_binding.binding_methods")
       (binding_methods (holder_binding (projected_policy pol input))) = Ok tt /\
       zlen (binding_methods (holder_binding (projected_policy pol input))) <= 1)
      by (cbn; destruct (lp_holder_binding pol); by vm_compute).
    destruct Hb as [Hb1 Hb2].
    split; [apply negb_true_iff, Z.ltb_ge; lia|]. split; [by apply validate_string_iff|].
    split; [by apply validate_string_iff|]. split; [by vm_compute|].
    split; [destruct (lp_trust_profile_id pol); [by apply validate_string_iff, Htp|done]|].
    split; [split; [apply negb_true_iff, Z.ltb_ge; unfold MAX_LIST_ITEMS; lia|exact Hb1]|].
    split; [done|]. split; [destruct (in_holder_binding_verified input), (lp_holder_binding pol); by vm_compute|].
    split; [done|]. split; [split; [apply negb_true_iff, Z.ltb_ge; lia|]|].
    + apply for_each_Ok. intros x Hx. apply validate_string_iff. rewrite Forall_forall in Hall. by apply Hall.
    + split_and!; try done; by vm_compute.
Qed.

Lemma find_error_nil code r : pr_errors r = [] -> find_error code r = None.
Proof. unfold find_error. by intros ->. Qed.

(** The issuer helper trusts an issuer exactly when its inputs are valid, the
    issuer is on the allow list, if any, and was verified against the trust
    profile, if any. *)
Theorem issuer_helper_exact c issuer verified :
  exists r, check_issuer_constraints c issuer verified = Ok r /\
    (is_trusted r = true <->
       string_ok issuer /\ (forall tp, ic_trust_profile_id c = Some tp -> string_ok tp) /\
       zlen (ic_allowed_issuers c) <= MAX_LIST_ITEMS /\ Forall string_ok (ic_allowed_issuers c) /\
       (ic_allowed_issuers c = [] \/ issuer ∈ ic_allowed_issuers c) /\
       (is_Some (ic_trust_profile_id c) -> verified = true)).
Proof.
  unfold check_issuer_constraints.
  destruct (legacy_evaluate_spec (issuer_policy c) (issuer_input issuer verified)) as (r & -> & Hsat & Herr).
  cbn [mbind res_bind]. eexists. split; [done|].
  assert (Htr : is_satisfied r = true <->
    is_trusted (match find_error PE_IssuerNotAllowed r with
      | Some error => NotAllowed (pe_message error)
      | None => match find_error PE_IssuerNotTrusted r with
                | Some error => NotTrusted (pe_message error)
                | None => if is_satisfied r then Trusted
                    else NotTrusted "Issuer constraints could not be evaluated by the canonical policy kernel"
                end
      end) = true).
  { split.
    - intros Hs. rewrite !find_error_nil by by apply Herr. by rewrite Hs.
    - destruct (find_error PE_IssuerNotAllowed r), (find_error PE_IssuerNotTrusted r); try done.
      by destruct (is_satisfied r). }
  rewrite <- Htr, Hsat, helper_request_valid by (done || by vm_compute).
  cbn [in_evaluation_time issuer_input issuer_policy lp_trust_profile_id lp_allowed_issuers in_issuer_id]. split.
  - intros [(_ & Htp & Hlen & Hall & Hi) [[Ht Hiss _ _ _ _] _ _ _ _ _]]. tauto.
  - intros (Hi & Htp & Hlen & Hall & Hiss & Ht). split; [split_and!; done|].
    split; cbn; try done; try (by left); try (intros rc Hrc; by apply elem_of_nil in Hrc).
Qed.

Lemma freshness_map r future stale : (is_satisfied r = true <-> pr_errors r = []) ->
  is_fresh (map_freshness_result r future stale) = true <-> is_satisfied r = true.
Proof.
  intros Herr. unfold map_freshness_result. split.
  - destruct (find_error future r), (find_error stale r); try done. by destruct (is_satisfied r).
  - intros Hs. rewrite !find_error_nil by by apply Herr. by rewrite Hs.
Qed.

(** A credential is fresh exactly when it was issued by the evaluation time
    and, when there is a maximum age, is not older. *)
Theorem check_credential_age_exact fr issued now :
  exists r, check_credential_age fr issued now = Ok r /\
    (is_fresh r = true <->
       now <= i64_max /\ issued <= now /\ (forall m, max_credential_age fr = Some m -> now - issued <= m)).
Proof.
  unfold check_credential_age. cbv zeta.
  match goal with |- context [legacy_evaluate ?p ?i] => destruct (legacy_evaluate_spec p i) as (r & -> & Hsat & Herr) end.
  cbn [mbind res_bind]. eexists. split; [done|]. rewrite freshness_map, Hsat by done.
  rewrite helper_request_valid by (done || by vm_compute).
  cbn [in_evaluation_time freshness_policy lp_trust_profile_id lp_allowed_issuers in_issuer_id]. split.
  - intros [(Hn & _) [[_ _ Hi Ha _ _] _ _ _ _ _]]. cbn in Hi, Ha. split; [done|]. split; [by apply Hi|].
    intros m Hm. by destruct (Ha m Hm) as (t & [= <-] & ?).
  - intros (Hn & Hi & Ha). split; [split_and!; try done; by vm_compute|].
    split; cbn; try done; try (by left); [|intros rc Hrc; by apply elem_of_nil in Hrc].
    constructor; cbn; try done; try (by left); [by intros t [= <-]|]. intros m Hm. exists issued. split; [done|by apply Ha].
Qed.

(** A proof is fresh exactly when it was made by the evaluation time and is not
    older than the maximum proof age. *)
Theorem check_proof_age_exact fr proof now :
  exists r, check_proof_age fr proof now = Ok r /\
    (is_fresh r = true <-> now <= i64_max /\ proof <= now /\ now - proof <= max_proof_age fr).
Proof.
  unfold check_proof_age. cbv zeta.
  match goal with |- context [legacy_evaluate ?p ?i] => destruct (legacy_evaluate_spec p i) as (r & -> & Hsat & Herr) end.
  cbn [mbind res_bind]. eexists. split; [done|]. rewrite freshness_map, Hsat by done.
  rewrite helper_request_valid by (done || by vm_compute).
  cbn [in_evaluation_time freshness_policy lp_trust_profile_id lp_allowed_issuers in_issuer_id]. split.
  - intros [(Hn & _) [_ _ _ Hh Hp _]]. cbn in Hh, Hp. split; [done|]. split; [by apply Hp|].
    by destruct (Hh ltac:(done)) as (_ & t & [= <-] & ?).
  - intros (Hn & Hp & Ha). split; [split_and!; try done; by vm_compute|].
    split; cbn; try done; try (by left); [|intros rc Hrc; by apply elem_of_nil in Hrc| |by intros t [= <-]].
    + constructor; cbn; try done; by left.
    + intros _. split; [done|]. by exists proof.
Qed.

(** *** The claim helper *)

Lemma validate_claim_requirement id id' rc pol input : string_ok id' ->
  validate_requirement (claim_requirement id rc pol input) = Ok tt ->
  validate_requirement (claim_requirement id' rc pol input) = Ok tt.
Proof.
  intros Hid. unfold validate_requirement. rewrite !(then_Ok (validate_string _ _)), !validate_string_iff.
  by intros [_ Hr].
Qed.

(** A valid request stays valid with one of its requirements alone. *)
Lemma single_claim_valid pol reqs claims types rc : rc ∈ reqs ->
  validate_request (legacy_request (claims_policy pol reqs) (claims_input claims types)) = Ok tt ->
  validate_request (legacy_request (claims_policy pol [rc]) (claims_input claims types)) = Ok tt.
Proof.
  intros [i Hi]%list_elem_of_lookup. unfold validate_request. cbv zeta.
  rewrite !then_Ok. intros (He & Hid & Hn & Ho & Htp & Hm & Hp & Hh & Hpp & Ha & Hc & Hpc & _ & _ & Hcred & Hreq & _).
  assert (Hrc : validate_requirement (claim_requirement (claim_id i) rc (claims_policy pol reqs) (claims_input claims types)) = Ok tt).
  { eapply for_each_Ok in Hreq; [exact Hreq|]. apply elem_of_app. left. right.
    by apply (elem_of_lookup_imap_2 (fun index claim => claim_requirement (claim_id index) claim _ _)). }
  split_and!; try done.
  cbn [policy legacy_request projected_policy credential_requirements alternative_requirements claims_policy
    accepted_types_alternative accepted_credential_types claim_requirement_list required_claims imap app fmap list_fmap concat].
  apply for_each_Ok. intros r [->|[->|Hr%elem_of_nil]%elem_of_cons]%elem_of_cons; [by vm_compute| |done].
  eapply validate_claim_requirement; [by vm_compute|exact Hrc].
Qed.

Lemma claims_legacy_ok pol reqs claims types :
  legacy_ok (claims_policy pol reqs) (claims_input claims types) <->
  forall rc, rc ∈ reqs -> claim_met (claims_policy pol reqs) (claims_input claims types) rc.
Proof.
  split; [by intros []|]. intros Hall. split; cbn; try done; try (by left).
  constructor; cbn; try done. by left.
Qed.

Lemma claim_loop_spec pol claims types reqs : forall missing satisfied,
  (forall rc, rc ∈ reqs -> validate_request (legacy_request (claims_policy pol [rc]) (claims_input claims types)) = Ok tt) ->
  exists m s, claim_loop pol claims types reqs missing satisfied = Ok ((missing ++ m)%list, (satisfied ++ s)%list) /\
    (m = [] <-> forall rc, rc ∈ reqs -> claim_met pol (claims_input claims types) rc) /\
    (forall n, n ∈ s <-> exists rc, rc ∈ reqs /\ claim_met pol (claims_input claims types) rc /\
                               n = selected_claim_name pol claims rc).
Proof.
  induction reqs as [|rc reqs IH]; intros missing satisfied Hv; cbn [claim_loop].
  - exists [], []. rewrite !app_nil_r. split; [done|]. split; [split; [intros _ rc Hrc; by apply elem_of_nil in Hrc|done]|].
    intros n. split; [by intros ?%elem_of_nil|]. by intros (rc & ?%elem_of_nil & _).
  - destruct (legacy_evaluate_spec (claims_policy pol [rc]) (claims_input claims types)) as (r & -> & Hsat & _).
    cbn [mbind res_bind]. rewrite claims_legacy_ok in Hsat.
    assert (Hmet : is_satisfied r = true <-> claim_met pol (claims_input claims types) rc).
    { rewrite Hsat. split; [intros [_ Hall]; exact (Hall rc ltac:(by left))|]. intros Hm.
      split; [apply Hv; by left|]. intros rc' ->%list_elem_of_singleton. exact Hm. }
    destruct (is_satisfied r) eqn:Hr.
    + destruct (IH missing (satisfied ++ [selected_claim_name pol claims rc])%list) as (m & s & -> & Hm & Hs);
        [intros rc' Hin; apply Hv; by right|].
      exists m, (selected_claim_name pol claims rc :: s). rewrite <- app_assoc. split; [done|].
      setoid_rewrite elem_of_cons. rewrite Hm. setoid_rewrite Hs. naive_solver.
    + destruct (IH (missing ++ [default (claim_name rc) (head (missing_claims r))])%list satisfied) as (m & s & -> & Hm & Hs);
        [intros rc' Hin; apply Hv; by right|].
      exists (default (claim_name rc) (head (missing_claims r)) :: m), s. rewrite <- app_assoc. split; [done|].
      assert (Hno : ~ claim_met pol (claims_input claims types) rc) by (rewrite <- Hmet; done).
      setoid_rewrite elem_of_cons. setoid_rewrite Hs. split; [split; [done|]; intros Hall; destruct Hno; apply Hall; by left|].
      naive_solver.
Qed.

(** The claim helper on a valid request: it is satisfied exactly when no
    requirement is reported missing, that is when every requirement is met; the
    satisfied claims it lists are the selected claims of the met requirements. *)
Theorem claim_helper_exact pol claims types :
  validate_request (legacy_request (claims_policy pol (required_claims pol)) (claims_input claims types)) = Ok tt ->
  exists r, evaluate_for_credential_types pol claims types = Ok r /\
    (ce_is_satisfied r = true <-> ce_missing_claims r = []) /\
    (ce_is_satisfied r = true <-> forall rc, rc ∈ required_claims pol -> claim_met pol (claims_input claims types) rc) /\
    (forall n, n ∈ ce_satisfied_claims r <-> exists rc, rc ∈ required_claims pol /\
       claim_met pol (claims_input claims types) rc /\ n = selected_claim_name pol claims rc).
Proof.
  intros Hv. unfold evaluate_for_credential_types.
  destruct (legacy_evaluate_spec (claims_policy pol (required_claims pol)) (claims_input claims types)) as (r & -> & Hsat & _).
  destruct (claim_loop_spec pol claims types (required_claims pol) [] []) as (m & s & -> & Hm & Hs);
    [intros rc Hrc; by eapply single_claim_valid|].
  cbn [mbind res_bind app fst snd]. eexists. split; [done|]. cbn [ce_is_satisfied ce_missing_claims ce_satisfied_claims].
  assert (Hall : is_satisfied r = true <-> forall rc, rc ∈ required_claims pol -> claim_met pol (claims_input claims types) rc).
  { rewrite Hsat, claims_legacy_ok. split; [by intros [_ ?]|done]. }
  rewrite Hm. done.
Qed.
End helpers.

(** ** Concrete runs *)

Module ToyCompat.

#[export] Instance toy_json : JsonValueOps := {
  json_text := canonical_json;
  json_eqb v w := String.eqb (canonical_json v) (canonical_json w);
}.
#[export] Instance toy_json_laws : JsonEqLaws.
Proof.
  split; unfold json_eqb, toy_json.
  - intros v. apply String.eqb_refl.
  - intros v w. by rewrite String.eqb_sym.
  - intros u v w ->%String.eqb_eq. done.
Qed.
#[export] Instance toy_regex : RegexOps := fun _ => None.
#[export] Instance toy_calendar : Calendar := {
  date_of_timestamp _ := None;
  parse_ymd _ := None;
}.

(** An adult check that prefers the derived attribute. *)
Definition adult_policy : PresentationPolicy :=
  mkPolicy "adult" "Adult check" None "age" ["pid"]
    [mkRequiredClaim "birth_date" "pid" true None; mkRequiredClaim "country" "" false (Some (VString "SE"))]
    DeviceKey (Some "eu") ["did:issuer"] (mkFreshnessRequirements (Some 1000) 300 true) true true
    {[ "birth_date" := "age_over_18" ]} FreshestFirst ∅ [] 1.
Definition adult_input (country : string) : PolicyEvaluationInput :=
  mkInput ["pid"] [("birth_date", VString "1990-01-01"); ("age_over_18", Bool true); ("country", VString country)]
    "did:issuer" true (Some 9500) (Some 9900) 10000 true true (Some true) 1.

(** The derived attribute stands in for the birth date. *)
Example adult_disclosure :
  match legacy_evaluate adult_policy (adult_input "SE") with
  | Ok r => is_satisfied r = true /\ minimum_disclosure_set r = ["age_over_18"; "country"]
  | _ => False
  end.
Proof. vm_compute. done. Qed.

Example adult_refused :
  match legacy_evaluate adult_policy (adult_input "NO") with
  | Ok r => is_satisfied r = false /\ pe_code <$> pr_errors r = [PE_ClaimRequirementNotSatisfied]
  | _ => False
  end.
Proof. vm_compute. done. Qed.

Lemma legacy_policy_exact_witness : legacy_ok adult_policy (adult_input "SE").
Proof.
  destruct (legacy_policy_exact adult_policy (adult_input "SE")) as (r & Hr & Hsat & _).
  apply Hsat. vm_compute in Hr. injection Hr as <-. reflexivity.
Defined.

Lemma satisfied_disclosure_witness :
  exists r, legacy_evaluate adult_policy (adult_input "SE") = Ok r /\ "age_over_18" ∈ minimum_disclosure_set r.
Proof.
  destruct (legacy_evaluate adult_policy (adult_input "SE")) as [r|[]|] eqn:Hr;
    [|vm_compute in Hr; discriminate Hr].
  assert (Hs : is_satisfied r = true) by (vm_compute in Hr; injection Hr as <-; reflexivity).
  exists r. split; [reflexivity|].
  apply (proj2 (satisfied_disclosure adult_policy (adult_input "SE") r Hr) Hs).
  exists (mkRequiredClaim "birth_date" "pid" true None). split; [by left|by vm_compute].
Defined.

Lemma claim_helper_exact_witness :
  exists r, evaluate_for_credential_types adult_policy (in_claims (adult_input "SE")) ["pid"] = Ok r /\
    (ce_is_satisfied r = true <-> ce_missing_claims r = []).
Proof.
  destruct (claim_helper_exact adult_policy (in_claims (adult_input "SE")) ["pid"]) as (r & Hr & Hm & _);
    [vm_compute; reflexivity|].
  exists r. split; [exact Hr|exact Hm].
Defined.
End ToyCompat.
