(* ===== verification/PolicyRanking.v ===== *)
(** * Credential ranking (marty-verification, [policy/ranking.rs])

    The comparators of the four strategies and the weighted score of the custom
    one.  A comparator is a function to [comparison]; [slice::sort_by] is the
    stable sort of [Prelude], which is what [std] computes for a comparator that
    is a total order.  Scores are [f64] values.  The comparators are total orders
    on credentials whose scores are numbers, so that a ranking is a sorted
    rearrangement and does not depend on the order in which the credentials are
    given. *)

From stdpp Require Import gmap strings sorting.
From Stdlib Require Import SpecFloat.
From S2P Require Import Prelude Governance CanonicalJsonFacts RustF64 PolicyCompat.
Local Open Scope string_scope.
Local Open Scope Z_scope.

(** ** Comparators *)

(** [Ordering::then_with], [b.cmp(&a)], and [str::cmp], which compares bytes. *)
Definition then_with {A} (c d : A -> A -> comparison) (a b : A) : comparison :=
  match c a b with Eq => d a b | o => o end.
Definition reversed {A} (c : A -> A -> comparison) (a b : A) : comparison := c b a.
Definition by_key {A B} (key : A -> B) (c : B -> B -> comparison) (a b : A) : comparison := c (key a) (key b).

Fixpoint bytes_cmp (s t : list Z) : comparison :=
  match s, t with
  | [], [] => Eq
  | [], _ :: _ => Lt
  | _ :: _, [] => Gt
  | a :: s, b :: t => match a ?= b with Eq => bytes_cmp s t | o => o end
  end.
Definition str_cmp (s t : string) : comparison := bytes_cmp (str_bytes s) (str_bytes t).

(** [a.partial_cmp(&b).unwrap_or(Ordering::Equal)]. *)
Definition f64_cmp (a b : spec_float) : comparison :=
  match SFcompare a b with Some o => o | None => Eq end.

(** [v.sort_by(cmp)]. *)
Definition sort_cmp {A} (cmp : A -> A -> comparison) (l : list A) : list A :=
  sort_by (fun a b => match cmp a b with Gt => false | _ => true end) l.

(** [a.min(b)]: the other operand when one is a NaN. *)
Definition f64_min (a b : spec_float) : spec_float :=
  match SFcompare a b with
  | Some Gt => b
  | Some _ => a
  | None => match a with S754_nan => b | _ => a end
  end.
Definition f64_add (a b : spec_float) : spec_float := SFadd f64_prec f64_emax a b.
Definition f64_sub (a b : spec_float) : spec_float := SFsub f64_prec f64_emax a b.

(** ** The ranker *)

(** [src/marty-verification/src/policy/ranking.rs:112-120] RankableCredential *)
Record RankableCredential := mkRankable {
  rk_credential_id : string;
  rk_issuer_id : string;
  rk_issued_at : Z;
  rk_trust_level : spec_float;
  rk_claim_count : Z;
}.

(** [src/marty-verification/src/policy/ranking.rs:85-109] compute_custom_score *)
Definition compute_custom_score (cred : RankableCredential) (now : Z)
    (freshness_weight trust_weight claim_weight : spec_float) : spec_float :=
  let age_seconds :=
    if now <? rk_issued_at cred then S754_infinity false else f64_of_usize (now - rk_issued_at cred) in
  let max_age := f64_of_usize 31536000 in
  let freshness_score := f64_div (f64_sub max_age (f64_min age_seconds max_age)) max_age in
  let trust_score := rk_trust_level cred in
  let claim_score := f64_of_usize (rk_claim_count cred) in
  f64_add (f64_add (f64_mul freshness_weight freshness_score) (f64_mul trust_weight trust_score))
    (f64_mul claim_weight claim_score).

Definition by_ids : RankableCredential -> RankableCredential -> comparison :=
  then_with (by_key rk_issuer_id str_cmp) (by_key rk_credential_id str_cmp).
Definition newest_first : RankableCredential -> RankableCredential -> comparison :=
  reversed (by_key rk_issued_at Z.compare).

(** [src/marty-verification/src/policy/ranking.rs:55-57] rank, the weights of the custom strategy *)
Definition custom_score (weights : gmap string spec_float) (now : Z) (cred : RankableCredential) : spec_float :=
  compute_custom_score cred now
    (default (f64_of_usize 1) (weights !! "freshness"))
    (default (f64_of_usize 1) (weights !! "trust_level"))
    (default (f64_of_decimal true 1 (-1)) (weights !! "claim_count")).

(** [src/marty-verification/src/policy/ranking.rs:25-82] rank, the comparator of a strategy *)
Definition rank_cmp (strategy : CredentialRankingStrategy) (weights : gmap string spec_float) (now : Z) :
    RankableCredential -> RankableCredential -> comparison :=
  match strategy with
  | FreshestFirst => then_with newest_first by_ids
  | HighestTrustFirst => then_with (reversed (by_key rk_trust_level f64_cmp)) (then_with newest_first by_ids)
  | MinimumClaimsFirst => then_with (by_key rk_claim_count Z.compare) (then_with newest_first by_ids)
  | Custom => then_with (reversed (by_key (custom_score weights now) f64_cmp)) by_ids
  end.

(** [src/marty-verification/src/policy/ranking.rs:14-83] CredentialRanker::new and rank *)
Definition rank (pol : PresentationPolicy) (credentials : list RankableCredential) (now : Z) :
    list RankableCredential :=
  sort_cmp (rank_cmp (credential_ranking_strategy pol) (credential_ranking_weights pol) now) credentials.

(** ** Total orders *)

(** [cmp] is a total preorder on the values that satisfy [P]. *)
Class TotalCmp {A} (P : A -> Prop) (cmp : A -> A -> comparison) : Prop := {
  cmp_opp a b : P a -> P b -> cmp b a = CompOpp (cmp a b);
  cmp_eq_l a b c : P a -> P b -> P c -> cmp a b = Eq -> cmp a c = cmp b c;
  cmp_lt_trans a b c : P a -> P b -> P c -> cmp a b = Lt -> cmp b c = Lt -> cmp a c = Lt;
}.

#[export] Hint Mode TotalCmp ! - ! : typeclass_instances.

#[export] Instance Z_total_cmp : TotalCmp (fun _ => True) Z.compare.
Proof.
  split.
  - intros a b _ _. apply Z.compare_antisym.
  - intros a b c _ _ _ ->%Z.compare_eq. done.
  - intros a b c _ _ _. rewrite !Z.compare_lt_iff. lia.
Qed.

Lemma CompOpp_Eq o : CompOpp o = Eq <-> o = Eq.
Proof. by destruct o. Qed.

Lemma bytes_cmp_Eq s : forall t, bytes_cmp s t = Eq -> s = t.
Proof.
  induction s as [|a s IH]; intros [|b t]; simpl; try done.
  destruct (Z.compare_spec a b) as [->| |]; try done. by intros ->%IH.
Qed.

#[export] Instance bytes_total_cmp : TotalCmp (fun _ => True) bytes_cmp.
Proof.
  split.
  - intros s t _ _. revert t. induction s as [|a s IH]; intros [|b t]; simpl; try done.
    rewrite Z.compare_antisym. destruct (a ?= b); simpl; auto.
  - intros a b c _ _ _ ->%bytes_cmp_Eq. done.
  - intros s t u _ _ _. revert t u. induction s as [|a s IH]; intros [|b t] [|c u]; simpl; try done.
    destruct (Z.compare_spec a b), (Z.compare_spec b c), (Z.compare_spec a c); try done; try lia. apply IH.
Qed.

#[export] Instance by_key_total {A B} (Q : B -> Prop) (key : A -> B) cmp :
  TotalCmp Q cmp -> TotalCmp (fun a => Q (key a)) (by_key key cmp).
Proof.
  intros [Hopp Heq Hlt]. split; unfold by_key; intros; [by apply Hopp|by apply Heq|by eapply (Hlt _ (key b))].
Qed.

#[export] Instance reversed_total {A} (P : A -> Prop) cmp : TotalCmp P cmp -> TotalCmp P (reversed cmp).
Proof.
  intros [Hopp Heq Hlt]. split; unfold reversed.
  - intros. by apply Hopp.
  - intros a b c Ha Hb Hc Hba. rewrite (Hopp a c), (Hopp b c) by done. f_equal. apply Heq; try done.
    rewrite Hopp, Hba by done. done.
  - intros a b c Ha Hb Hc Hba Hcb. by eapply (Hlt _ b).
Qed.

#[export] Instance then_with_total {A} (P : A -> Prop) c d : TotalCmp P c -> TotalCmp P d -> TotalCmp P (then_with c d).
Proof.
  intros [Co Ce Cl] [Do De Dl]. split; unfold then_with.
  - intros a b Ha Hb. rewrite Co by done. destruct (c a b); simpl; auto.
  - intros x y z Hx Hy Hz. destruct (c x y) eqn:Hxy; try done. rewrite (Ce x y z) by done.
    intros Hd. destruct (c y z); [by apply De|done|done].
  - intros x y z Hx Hy Hz. destruct (c x y) eqn:Hxy; [| |done].
    + rewrite (Ce x y z) by done. destruct (c y z); [apply Dl; done|done|done].
    + intros _. destruct (c y z) eqn:Hyz; [|intros _; by rewrite (Cl x y z)|done]. intros _.
      assert (Hzy : c z y = Eq) by (rewrite Co, Hyz by done; done).
      rewrite (Co z x), (Ce z y x), (Co x y), Hxy by done. done.
Qed.

Lemma total_cmp_weaken {A} (P Q : A -> Prop) cmp : (forall a, Q a -> P a) -> TotalCmp P cmp -> TotalCmp Q cmp.
Proof. intros Hpq [Ho He Hl]. split; eauto. Qed.

(** ** Floating-point scores *)

Definition is_number (x : spec_float) : Prop := x <> S754_nan.

(** The order of [f64] values that are numbers, as an order of lists. *)
Definition f64_key (x : spec_float) : list Z :=
  match x with
  | S754_infinity s => [if s then -2 else 2]
  | S754_zero _ => [0]
  | S754_finite s m e => if s then [-1; - e; - Zpos m] else [1; e; Zpos m]
  | S754_nan => []
  end.

Lemma f64_cmp_key x y : is_number x -> is_number y -> f64_cmp x y = bytes_cmp (f64_key x) (f64_key y).
Proof.
  unfold f64_cmp. destruct x as [sx|sx| |sx mx ex], y as [sy|sy| |sy my ey]; try done; intros _ _;
    try destruct sx; try destruct sy; try done; simpl.
  - rewrite Z.compare_opp. change (Pos.compare_cont Eq mx my) with (Pos.compare mx my).
    rewrite (Z.compare_antisym ex ey). destruct (ex ?= ey); simpl; try done. by destruct (mx ?= my)%positive.
  - change (Pos.compare_cont Eq mx my) with (Pos.compare mx my). destruct (ex ?= ey); try done.
    by destruct (mx ?= my)%positive.
Qed.

#[export] Instance f64_total_cmp : TotalCmp is_number f64_cmp.
Proof.
  destruct (by_key_total (fun _ => True) f64_key bytes_cmp bytes_total_cmp) as [Ho He Hl]. unfold by_key in *.
  split; intros; rewrite ?f64_cmp_key in * by done; eauto.
Qed.

(** ** Sorting *)

Section sorting_on.
Context {A : Type} (P : A -> Prop) (cmp : A -> A -> comparison) `{!TotalCmp P cmp}.

Abbreviation not_after := (fun a b => cmp a b <> Gt).

Lemma not_after_total a b : P a -> P b -> cmp a b <> Gt \/ cmp b a <> Gt.
Proof. intros Ha Hb. rewrite (cmp_opp (cmp:=cmp) a b) by done. destruct (cmp a b); naive_solver. Qed.

Lemma not_after_trans a b c : P a -> P b -> P c -> cmp a b <> Gt -> cmp b c <> Gt -> cmp a c <> Gt.
Proof.
  intros Ha Hb Hc Hab Hbc. destruct (cmp a b) eqn:E; [by rewrite (cmp_eq_l (cmp:=cmp) a b c)| |done].
  destruct (cmp b c) eqn:F; [|by rewrite (cmp_lt_trans (cmp:=cmp) a b c)|done].
  assert (Hcb : cmp c b = Eq) by (rewrite (cmp_opp (cmp:=cmp) b c), F by done; done).
  rewrite (cmp_opp (cmp:=cmp) c a), (cmp_eq_l (cmp:=cmp) c b a), (cmp_opp (cmp:=cmp) a b), E by done. done.
Qed.

Lemma sort_cmp_perm l : sort_cmp cmp l ≡ₚ l.
Proof. apply sort_by_perm. Qed.

Lemma sort_cmp_sorted l : Forall P l -> StronglySorted not_after (sort_cmp cmp l).
Proof.
  set (le := fun a b => match cmp a b with Gt => false | _ => true end).
  assert (Hle : forall a b, le a b = true <-> cmp a b <> Gt) by (intros a b; unfold le; by destruct (cmp a b)).
  assert (Hins : forall x l, P x -> Forall P l -> StronglySorted not_after l -> StronglySorted not_after (insert_by le x l)).
  { intros x k Hx Hk Hs. induction Hs as [|y k Hs IH Hall]; simpl; [repeat constructor|].
    apply Forall_cons in Hk as [Hy Hk]. destruct (le x y) eqn:E.
    - apply Hle in E. constructor; [by constructor|]. constructor; [done|].
      rewrite Forall_forall in Hall, Hk. apply Forall_forall. intros z Hz. apply (not_after_trans x y z); auto.
    - constructor; [by apply IH|]. rewrite insert_by_perm. constructor; [|done].
      destruct (not_after_total x y Hx Hy) as [Hn|Hn]; [|done]. apply Hle in Hn. congruence. }
  intros Hl. unfold sort_cmp. fold le. induction Hl as [|x l Hx Hl IH]; simpl; [constructor|].
  apply Hins; [done| |done]. unfold sort_by in *. change (foldr (insert_by le) [] l) with (sort_by le l). by rewrite sort_by_perm.
Qed.

(** A total order that separates the elements determines the sorted list. *)
Lemma sort_cmp_unique l k : Forall P l -> l ≡ₚ k ->
  (forall a b, a ∈ l -> b ∈ l -> cmp a b = Eq -> a = b) -> sort_cmp cmp l = sort_cmp cmp k.
Proof.
  intros Hl Hlk Hsep. assert (Hk : Forall P k) by by rewrite <- Hlk.
  apply (StronglySorted_unique_strong not_after); [|by apply sort_cmp_sorted..|by rewrite !sort_cmp_perm].
  intros a b Ha Hb Hab Hba. rewrite sort_cmp_perm in Ha. rewrite sort_cmp_perm, <- Hlk in Hb.
  apply Hsep; [done..|]. rewrite Forall_forall in Hl. rewrite (cmp_opp (cmp:=cmp) a b) in Hba by auto. by destruct (cmp a b).
Qed.
End sorting_on.

(** ** The strategies *)

(** The score a strategy compares is a number. *)
Definition rankable (pol : PresentationPolicy) (now : Z) (c : RankableCredential) : Prop :=
  match credential_ranking_strategy pol with
  | HighestTrustFirst => is_number (rk_trust_level c)
  | Custom => is_number (custom_score (credential_ranking_weights pol) now c)
  | FreshestFirst | MinimumClaimsFirst => True
  end.

Lemma str_cmp_total : TotalCmp (fun _ : string => True) str_cmp.
Proof. exact (by_key_total (fun _ => True) str_bytes bytes_cmp _). Qed.

Lemma by_ids_total P : TotalCmp P by_ids.
Proof.
  apply then_with_total; (eapply total_cmp_weaken; [|by apply (by_key_total (fun _ => True)), str_cmp_total]); done.
Qed.

Lemma newest_first_total P : TotalCmp P newest_first.
Proof.
  apply reversed_total. eapply total_cmp_weaken; [|by apply (by_key_total (fun _ => True)), Z_total_cmp]. done.
Qed.

#[export] Instance rank_cmp_total pol now :
  TotalCmp (rankable pol now) (rank_cmp (credential_ranking_strategy pol) (credential_ranking_weights pol) now).
Proof.
  unfold rank_cmp, rankable.
  destruct (credential_ranking_strategy pol); repeat first [apply by_ids_total|apply newest_first_total|apply then_with_total].
  - apply reversed_total. exact (by_key_total is_number _ f64_cmp f64_total_cmp).
  - exact (by_key_total (fun _ => True) _ Z.compare Z_total_cmp).
  - apply reversed_total. exact (by_key_total is_number _ f64_cmp f64_total_cmp).
Qed.

Lemma then_with_Eq {A} (c d : A -> A -> comparison) a b :
  then_with c d a b = Eq <-> c a b = Eq /\ d a b = Eq.
Proof. unfold then_with. destruct (c a b); naive_solver. Qed.

Lemma str_cmp_Eq s t : str_cmp s t = Eq -> s = t.
Proof. intros Hs%bytes_cmp_Eq. by apply str_bytes_inj. Qed.

Lemma rank_cmp_Eq strategy weights now a b : rank_cmp strategy weights now a b = Eq ->
  rk_issuer_id a = rk_issuer_id b /\ rk_credential_id a = rk_credential_id b.
Proof.
  assert (Hids : by_ids a b = Eq -> rk_issuer_id a = rk_issuer_id b /\ rk_credential_id a = rk_credential_id b)
    by (intros [H1%str_cmp_Eq H2%str_cmp_Eq]%then_with_Eq; done).
  destruct strategy; simpl; rewrite ?then_with_Eq; intuition.
Qed.

(** A ranking rearranges the credentials, none of them after a less preferred
    one, and is the same for every order in which the credentials are given. *)
Theorem ranking_exact pol credentials now :
  Forall (rankable pol now) credentials ->
  NoDup ((fun c => (rk_issuer_id c, rk_credential_id c)) <$> credentials) ->
  let cmp := rank_cmp (credential_ranking_strategy pol) (credential_ranking_weights pol) now in
  rank pol credentials now ≡ₚ credentials /\
  StronglySorted (fun a b => cmp a b <> Gt) (rank pol credentials now) /\
  forall credentials', credentials ≡ₚ credentials' -> rank pol credentials' now = rank pol credentials now.
Proof.
  intros Hr Hnd cmp. split; [apply sort_cmp_perm|]. split; [by apply (@sort_cmp_sorted _ _ _ (rank_cmp_total pol now))|].
  intros l Hl. symmetry. apply (@sort_cmp_unique _ _ _ (rank_cmp_total pol now)); [done|done|].
  intros a b Ha Hb [Hi Hc]%rank_cmp_Eq. apply list_elem_of_lookup in Ha as [i Ha], Hb as [j Hb].
  assert (i = j) as ->; [|congruence]. eapply NoDup_lookup; [done|..]; rewrite list_lookup_fmap;
    [by rewrite Ha|by rewrite Hb; simpl; f_equal; f_equal].
Qed.

(** ** Concrete runs *)

Module ToyRanking.

Definition sample (id : string) (issued : Z) (trust : spec_float) (claims : Z) : RankableCredential :=
  mkRankable id "did:x" issued trust claims.
Definition with_strategy (s : CredentialRankingStrategy) : PresentationPolicy :=
  mkPolicy "p" "n" None "" [] [] NoBinding None [] freshness_default false false ∅ s ∅ [] 1.
Definition half : spec_float := f64_div (f64_of_usize 1) (f64_of_usize 2).
Definition samples : list RankableCredential :=
  [sample "a" 900 half 4; sample "b" 1000 (f64_of_usize 0) 2; sample "c" 10 (f64_of_usize 1) 2].

Example sample_rankings :
  (fun s => rk_credential_id <$> rank (with_strategy s) samples 1000)
    <$> [FreshestFirst; HighestTrustFirst; MinimumClaimsFirst; Custom]
  = [["b"; "a"; "c"]; ["c"; "a"; "b"]; ["b"; "c"; "a"]; ["c"; "a"; "b"]].
Proof. vm_compute. reflexivity. Qed.

Lemma ranking_exact_witness :
  rank (with_strategy Custom) (reverse samples) 1000 = rank (with_strategy Custom) samples 1000.
Proof.
  refine (proj2 (proj2 (ranking_exact (with_strategy Custom) samples 1000 _ _)) _ _).
  - repeat constructor; vm_compute; discriminate.
  - repeat constructor; set_solver.
  - symmetry. apply reverse_Permutation.
Defined.
End ToyRanking.
