(* ===== verification/CertInfo.v ===== *)
(** * Information in a certificate (marty-crypto, [certificate.rs])

    The descriptive record the other crates read from a certificate: validity as
    text, the certificate-authority flag, the key usages, the identifiers and the
    alternative names.  The typed decoders of [x509_cert] and the calendar fields
    of its times are the class [X509Details]; [hex::encode] is lowercase
    hexadecimal. *)

From S2P Require Import Prelude Des Governance SecureMessaging CryptoKit X509 DeviceAuth.
Local Open Scope Z_scope.

#[local] Abbreviation result := (res CryptoError).
#[local] Abbreviation bytes := (list Z).

(** [der::DateTime]. *)
Record DerDateTime := mkDerDateTime {
  dt_year : Z; dt_month : Z; dt_day : Z; dt_hour : Z; dt_minutes : Z; dt_seconds : Z;
}.

(** The seven flags of [KeyUsage] that are listed. *)
Record KeyUsageFlags := mkKeyUsageFlags {
  ku_digital_signature : bool;
  ku_non_repudiation : bool;
  ku_key_encipherment : bool;
  ku_data_encipherment : bool;
  ku_key_agreement : bool;
  ku_key_cert_sign : bool;
  ku_crl_sign : bool;
}.

(** A [GeneralName]; the kinds that are not read are [OtherName]. *)
Inductive GeneralName :=
| DnsName (name : string)
| Rfc822Name (name : string)
| UniformResourceIdentifier (uri : string)
| IpAddressName (octets : bytes)
| OtherGeneralName.

(** [x509_cert]: the calendar fields of the validity and the decoders of the typed
    extensions.  A distribution point is the full names of its name, if any. *)
Class X509Details `{X509} := {
  not_before_fields : Certificate -> DerDateTime;
  not_after_fields : Certificate -> DerDateTime;
  decode_basic_constraints : bytes -> string + BasicConstraints;
  decode_key_usage : bytes -> string + KeyUsageFlags;
  decode_subject_key_identifier : bytes -> string + bytes;
  decode_authority_key_identifier : bytes -> string + option bytes;
  decode_subject_alt_name : bytes -> string + list GeneralName;
  decode_crl_distribution_points : bytes -> string + list (option (list GeneralName));
}.

(** The object identifiers of the extensions. *)
Definition ID_CE_SUBJECT_KEY_IDENTIFIER : string := "2.5.29.14".
Definition ID_CE_KEY_USAGE : string := "2.5.29.15".
Definition ID_CE_SUBJECT_ALT_NAME : string := "2.5.29.17".
Definition ID_CE_BASIC_CONSTRAINTS : string := "2.5.29.19".
Definition ID_CE_CRL_DISTRIBUTION_POINTS : string := "2.5.29.31".
Definition ID_CE_AUTHORITY_KEY_IDENTIFIER : string := "2.5.29.35".

(** [src/marty-crypto/src/certificate.rs:10-31] CertificateInfo *)
Record CertificateInfo := mkCertificateInfo {
  ci_subject : string;
  ci_issuer : string;
  ci_serial_number : string;
  ci_not_before : string;
  ci_not_after : string;
  ci_is_ca : bool;
  ci_key_usage : list string;
  ci_subject_alt_names : list string;
  ci_signature_algorithm : string;
  ci_subject_key_identifier : option string;
  ci_authority_key_identifier : option string;
  ci_fingerprint_sha1 : string;
  ci_fingerprint_sha256 : string;
}.

(** [Result::ok]. *)
Definition to_option {A} (r : string + A) : option A := match r with inr a => Some a | inl _ => None end.

(** [iter().find_map(f)]. *)
Fixpoint find_map {A B} (f : A -> option B) (l : list A) : option B :=
  match l with
  | [] => None
  | a :: l => match f a with Some b => Some b | None => find_map f l end
  end.

(** [format!("{:0w$}", n)] for a natural number of at most [w] digits. *)
Definition dec_digit (d : Z) : ascii := ascii_of_N (Z.to_N (48 + d mod 10)).
Definition dec2 (n : Z) : string := String.string_of_list_ascii [dec_digit (n / 10); dec_digit n].
Definition dec4 (n : Z) : string :=
  String.string_of_list_ascii [dec_digit (n / 1000); dec_digit (n / 100); dec_digit (n / 10); dec_digit n].

(** [src/marty-crypto/src/certificate.rs:342-361] format_x509_time; the fields of a [der::DateTime] have at most four and two digits *)
Definition format_x509_time (dt : DerDateTime) : string :=
  dec4 (dt_year dt) +:+ "-" +:+ dec2 (dt_month dt) +:+ "-" +:+ dec2 (dt_day dt) +:+ "T"
  +:+ dec2 (dt_hour dt) +:+ ":" +:+ dec2 (dt_minutes dt) +:+ ":" +:+ dec2 (dt_seconds dt) +:+ "Z".

Section info.
Context `{X509Details} `{Sha1} `{Sha2} `{Rfc3339}.

Definition extensions_of (cert : Certificate) : list Extension := default [] (cert_extensions cert).

(** [src/marty-crypto/src/certificate.rs:100-115] parse_subject_key_identifier *)
Definition parse_subject_key_identifier (cert : Certificate) : option string :=
  find_map (fun e =>
    if String.eqb (extn_id e) ID_CE_SUBJECT_KEY_IDENTIFIER
    then hex_lower <$> to_option (decode_subject_key_identifier (extn_value e)) else None)
    (extensions_of cert).

(** [src/marty-crypto/src/certificate.rs:117-133] parse_authority_key_identifier *)
Definition parse_authority_key_identifier (cert : Certificate) : option string :=
  find_map (fun e =>
    if String.eqb (extn_id e) ID_CE_AUTHORITY_KEY_IDENTIFIER
    then id ← to_option (decode_authority_key_identifier (extn_value e)); hex_lower <$> id else None)
    (extensions_of cert).

(** [src/marty-crypto/src/certificate.rs:136-156] check_is_ca *)
Definition check_is_ca (cert : Certificate) : bool :=
  default false
    (find_map (fun e =>
       if String.eqb (extn_id e) ID_CE_BASIC_CONSTRAINTS
       then ca <$> to_option (decode_basic_constraints (extn_value e)) else None)
       (extensions_of cert)).

(** [src/marty-crypto/src/certificate.rs:170-190] parse_key_usage, the names of the flags *)
Definition usage_names (ku : KeyUsageFlags) : list string :=
  (if ku_digital_signature ku then ["digitalSignature"] else []) ++
  (if ku_non_repudiation ku then ["nonRepudiation"] else []) ++
  (if ku_key_encipherment ku then ["keyEncipherment"] else []) ++
  (if ku_data_encipherment ku then ["dataEncipherment"] else []) ++
  (if ku_key_agreement ku then ["keyAgreement"] else []) ++
  (if ku_key_cert_sign ku then ["keyCertSign"] else []) ++
  (if ku_crl_sign ku then ["cRLSign"] else []).

(** The first extension with an identifier. *)
Definition first_extension (oid : string) (cert : Certificate) : option Extension :=
  List.find (fun e => String.eqb (extn_id e) oid) (extensions_of cert).

(** [src/marty-crypto/src/certificate.rs:159-197] parse_key_usage *)
Definition parse_key_usage (cert : Certificate) : list string :=
  match first_extension ID_CE_KEY_USAGE cert with
  | Some e => match decode_key_usage (extn_value e) with inr ku => usage_names ku | inl _ => [] end
  | None => []
  end.

(** [src/marty-crypto/src/certificate.rs:212-227] parse_san, the text of a name *)
Definition san_text (name : GeneralName) : list string :=
  match name with
  | DnsName dns => ["DNS:" +:+ dns]
  | Rfc822Name email => ["email:" +:+ email]
  | UniformResourceIdentifier uri => ["URI:" +:+ uri]
  | IpAddressName ip => ["IP:" +:+ hex_lower ip]
  | OtherGeneralName => []
  end.

(** [src/marty-crypto/src/certificate.rs:200-235] parse_san *)
Definition parse_san (cert : Certificate) : list string :=
  match first_extension ID_CE_SUBJECT_ALT_NAME cert with
  | Some e => match decode_subject_alt_name (extn_value e) with
              | inr names => concat (san_text <$> names) | inl _ => [] end
  | None => []
  end.

(** [src/marty-crypto/src/certificate.rs:49-98] get_certificate_info *)
Definition get_certificate_info (der : bytes) : result CertificateInfo :=
  cert ← load_certificate_der der;
  Ok (mkCertificateInfo (name_text (cert_subject cert)) (name_text (cert_issuer cert))
        (hex_lower (cert_serial cert)) (format_x509_time (not_before_fields cert))
        (format_x509_time (not_after_fields cert)) (check_is_ca cert) (parse_key_usage cert)
        (parse_san cert) (alg_oid (signature_algorithm cert)) (parse_subject_key_identifier cert)
        (parse_authority_key_identifier cert) (hex_lower (sha1 der)) (hex_lower (hash_sha256 der))).

(** [src/marty-crypto/src/certificate.rs:238-240] pem_to_der *)
Definition pem_to_der (pem : string) : result bytes := load_certificate_pem pem.

(** [src/marty-crypto/src/certificate.rs:279-302] get_crl_distribution_points, the loop over the extensions *)
Fixpoint crl_point_loop (exts : list Extension) (urls : list string) : result (list string) :=
  match exts with
  | [] => Ok urls
  | e :: exts =>
      if negb (String.eqb (extn_id e) ID_CE_CRL_DISTRIBUTION_POINTS) then crl_point_loop exts urls
      else
        points ← lift_err (fun err => CryptoDer ("Failed to parse CRL distribution points: " +:+ err))
                   (decode_crl_distribution_points (extn_value e));
        let uris := concat ((fun point =>
          omap (fun name => match name with UniformResourceIdentifier uri => Some uri | _ => None end)
            (default [] point)) <$> points) in
        crl_point_loop exts (urls ++ uris)
  end.

(** [src/marty-crypto/src/certificate.rs:272-305] get_crl_distribution_points *)
Definition get_crl_distribution_points (der : bytes) : result (list string) :=
  cert ← load_certificate_der der;
  crl_point_loop (extensions_of cert) [].

(** [src/marty-crypto/src/certificate.rs:330-339] x509_time_to_datetime, in nanoseconds; the text of a chrono error is not kept *)
Definition x509_time_to_datetime (dt : DerDateTime) : result Z :=
  ok_or (parse_rfc3339 (format_x509_time dt)) (CryptoEncoding "Failed to parse time").

(** [src/marty-crypto/src/certificate.rs:308-316] is_certificate_expired, at the time [now] of the clock *)
Definition is_certificate_expired (der : bytes) (now : Z) : result bool :=
  cert ← load_certificate_der der;
  expiry ← x509_time_to_datetime (not_after_fields cert);
  Ok (expiry <? now).

(** [src/marty-crypto/src/certificate.rs:319-327] is_certificate_not_yet_valid, at the time [now] of the clock *)
Definition is_certificate_not_yet_valid (der : bytes) (now : Z) : result bool :=
  cert ← load_certificate_der der;
  start ← x509_time_to_datetime (not_before_fields cert);
  Ok (now <? start).
End info.
