(* ===== verification/RustNet.v ===== *)
(** * Internet addresses of the Rust standard library

    [std::net::IpAddr]: its parser, its text and the predicates the code uses.
    The parser reads bytes; a parser that fails leaves the input where it was. *)

From S2P Require Import Prelude Governance.
From stdpp Require Import pretty.
Local Open Scope Z_scope.

(** An IPv4 address by its octets, an IPv6 address by its eight segments. *)
Inductive IpAddr := V4 (a b c d : Z) | V6 (segments : list Z).

#[export] Instance IpAddr_eq_dec : EqDecision IpAddr.
Proof. solve_decision. Defined.

Definition octet_ok (x : Z) : Prop := 0 <= x < 256.
Definition ip_ok (ip : IpAddr) : Prop :=
  match ip with
  | V4 a b c d => octet_ok a /\ octet_ok b /\ octet_ok c /\ octet_ok d
  | V6 segments => length segments = 8%nat /\ Forall (fun s => 0 <= s < 65536) segments
  end.

(** ** Parsing *)

(** [char::to_digit(radix)]. *)
Definition to_digit (radix c : Z) : option Z :=
  d ← to_digit16 c; if d <? radix then Some d else None.

(** The digits of a number: its value, how many there are, and the rest; [None]
    when the value passes [limit] or there are more than [max_digits]. *)
Fixpoint read_digits (radix limit max_digits acc count : Z) (s : list Z) : option (Z * Z * list Z) :=
  match s with
  | c :: rest =>
      match to_digit radix c with
      | Some d =>
          if limit <? acc * radix + d then None
          else if max_digits <? count + 1 then None
          else read_digits radix limit max_digits (acc * radix + d) (count + 1) rest
      | None => Some (acc, count, s)
      end
  | [] => Some (acc, count, [])
  end.

(** [Parser::read_number]. *)
Definition read_number (radix limit max_digits : Z) (allow_zero_prefix : bool) (s : list Z) :
    option (Z * list Z) :=
  '(value, count, rest) ← read_digits radix limit max_digits 0 0 s;
  let leading_zero := match s with c :: _ => c =? 48 | [] => false end in
  if count =? 0 then None
  else if negb allow_zero_prefix && leading_zero && (1 <? count) then None
  else Some (value, rest).

Definition read_given_char (c : Z) (s : list Z) : option (list Z) :=
  match s with a :: rest => if a =? c then Some rest else None | [] => None end.

Definition read_octet (s : list Z) : option (Z * list Z) := read_number 10 255 3 false s.

(** [Parser::read_ipv4_addr]. *)
Definition read_ipv4_addr (s : list Z) : option (Z * Z * Z * Z * list Z) :=
  '(a, s) ← read_octet s; s ← read_given_char 46 s;
  '(b, s) ← read_octet s; s ← read_given_char 46 s;
  '(c, s) ← read_octet s; s ← read_given_char 46 s;
  '(d, s) ← read_octet s;
  Some (a, b, c, d, s).

(** [read_separator(':', index, inner)]. *)
Definition read_separator {A} (index : nat) (inner : list Z -> option A) (s : list Z) : option A :=
  if (index =? 0)%nat then inner s else s ← read_given_char 58 s; inner s.

(** [read_groups] of [Parser::read_ipv6_addr], from group [i] of [limit]: the
    groups read, whether the last two are an IPv4 address, and the rest. *)
Fixpoint read_groups (fuel i limit : nat) (s : list Z) : list Z * bool * list Z :=
  match fuel with
  | O => ([], false, s)
  | S fuel =>
      let group :=
        match read_separator i (read_number 16 65535 4 true) s with
        | Some (g, rest) => let '(gs, v4, rest) := read_groups fuel (S i) limit rest in (g :: gs, v4, rest)
        | None => ([], false, s)
        end in
      if (i <? limit - 1)%nat then
        match read_separator i read_ipv4_addr s with
        | Some (a, b, c, d, rest) => ([a * 256 + b; c * 256 + d], true, rest)
        | None => group
        end
      else group
  end.

(** [Parser::read_ipv6_addr]. *)
Definition read_ipv6_addr (s : list Z) : option (list Z * list Z) :=
  let '(head, head_ipv4, rest) := read_groups 8 0 8 s in
  if (length head =? 8)%nat then Some (head, rest)
  else if (head_ipv4 : bool) then None
  else
    rest ← read_given_char 58 rest;
    rest ← read_given_char 58 rest;
    let limit := (8 - (length head + 1))%nat in
    let '(tail, _, rest) := read_groups limit 0 limit rest in
    Some (head ++ replicate (8 - length head - length tail) 0 ++ tail, rest).

(** [IpAddr::from_str]. *)
Definition ip_from_str (text : string) : option IpAddr :=
  let s := str_bytes text in
  let parsed :=
    match read_ipv4_addr s with
    | Some (a, b, c, d, rest) => Some (V4 a b c d, rest)
    | None => match read_ipv6_addr s with Some (segments, rest) => Some (V6 segments, rest) | None => None end
    end in
  match parsed with Some (ip, []) => Some ip | _ => None end.

(** ** Text *)

Definition ipv4_text (a b c d : Z) : string :=
  pretty a +:+ "." +:+ pretty b +:+ "." +:+ pretty c +:+ "." +:+ pretty d.

(** [{:x}] of a [u16]: lowercase hexadecimal without leading zeros. *)
Fixpoint skip_zeros (l : list Z) : list Z :=
  match l with
  | d :: rest => match rest with [] => l | _ => if d =? 0 then skip_zeros rest else l end
  | [] => []
  end.
Definition hex_text (n : Z) : string :=
  String.string_of_list_ascii
    (hex_lower_digit <$> skip_zeros [n / 4096 mod 16; n / 256 mod 16; n / 16 mod 16; n mod 16]).

Fixpoint join_colon (parts : list string) : string :=
  match parts with
  | [] => ""
  | [p] => p
  | p :: ps => p +:+ ":" +:+ join_colon ps
  end.

(** The first longest run of zero segments: its start and its length. *)
Fixpoint zero_run (segments : list Z) (i cur_start cur_len best_start best_len : nat) : nat * nat :=
  match segments with
  | [] => (best_start, best_len)
  | s :: rest =>
      if s =? 0 then
        let start := if (cur_len =? 0)%nat then i else cur_start in
        let len := S cur_len in
        if (best_len <? len)%nat then zero_run rest (S i) start len start len
        else zero_run rest (S i) start len best_start best_len
      else zero_run rest (S i) 0 0 best_start best_len
  end.

(** [Ipv6Addr]'s [Display]. *)
Definition ipv6_text (segments : list Z) : string :=
  match segments with
  | [0; 0; 0; 0; 0; 65535; ab; cd] =>
      "::ffff:" +:+ ipv4_text (ab / 256) (ab mod 256) (cd / 256) (cd mod 256)
  | _ =>
      let '(start, len) := zero_run segments 0 0 0 0 0 in
      if (1 <? len)%nat
      then join_colon (hex_text <$> take start segments) +:+ "::"
           +:+ join_colon (hex_text <$> drop (start + len) segments)
      else join_colon (hex_text <$> segments)
  end.

Definition ip_to_string (ip : IpAddr) : string :=
  match ip with V4 a b c d => ipv4_text a b c d | V6 segments => ipv6_text segments end.

(** ** Predicates *)

(** [Ipv4Addr::is_private]. *)
Definition v4_is_private (a b : Z) : bool :=
  (a =? 10) || ((a =? 172) && (16 <=? b) && (b <=? 31)) || ((a =? 192) && (b =? 168)).

Definition segment (i : nat) (segments : list Z) : Z := default 0 (segments !! i).

(** [Ipv6Addr::is_unspecified], [is_loopback] and [is_multicast]. *)
Definition v6_is_unspecified (s : list Z) : bool := bool_decide (s = [0; 0; 0; 0; 0; 0; 0; 0]).
Definition v6_is_loopback (s : list Z) : bool := bool_decide (s = [0; 0; 0; 0; 0; 0; 0; 1]).
Definition v6_is_multicast (s : list Z) : bool := Z.land (segment 0 s) 65280 =? 65280.

Example parse_addresses :
  ip_from_str <$> ["192.168.1.1"; "::1"; "2001:db8::ff00:42:8329"; "::ffff:10.0.0.1"; "1:2:3:4:5:6:7:8"; "::"]
  = [Some (V4 192 168 1 1); Some (V6 [0; 0; 0; 0; 0; 0; 0; 1]);
     Some (V6 [8193; 3512; 0; 0; 0; 65280; 66; 33577]);
     Some (V6 [0; 0; 0; 0; 0; 65535; 2560; 1]); Some (V6 [1; 2; 3; 4; 5; 6; 7; 8]);
     Some (V6 [0; 0; 0; 0; 0; 0; 0; 0])].
Proof. vm_compute. reflexivity. Qed.

Example refuse_addresses :
  ip_from_str <$> [""; "1.2.3"; "256.1.1.1"; "01.2.3.4"; "1.2.3.4 "; "1:2:3:4:5:6:7:8:9"; "1::2::3"; "12345::";
                   "1:2:3:4:5:6:7:1.2.3.4"; "example.com"]
  = replicate 10 None.
Proof. vm_compute. reflexivity. Qed.

Example print_addresses :
  ip_to_string <$> [V4 10 0 0 1; V6 [8193; 3512; 0; 0; 1; 0; 0; 1]; V6 [0; 0; 0; 0; 0; 65535; 2560; 1];
                    V6 [1; 0; 2; 3; 4; 5; 6; 7]; V6 [0; 0; 0; 0; 0; 0; 0; 0]]
  = ["10.0.0.1"; "2001:db8::1:0:0:1"; "::ffff:10.0.0.1"; "1:0:2:3:4:5:6:7"; "::"].
Proof. vm_compute. reflexivity. Qed.
