(* ===== verification/TrustSync.v ===== *)
(** * Trust-registry synchronization (marty-verification, [trust_sync.rs])

    The catalog of registries, scheduling, the destinations that may be contacted,
    and the evaluation of fetched pages against the imported state.  Instants are
    nanoseconds since the epoch.  A [BTreeMap] is a [gmap] and a [BTreeSet] a
    [gset].  [url], [uuid], [chrono] and [x509_cert] are parameters. *)

From stdpp Require Import gmap strings pretty.
From S2P Require Import Prelude Des Governance RustNet PolicyService SecureMessaging CryptoKit X509 DeviceAuth CertInfo.
Local Open Scope string_scope.
Local Open Scope Z_scope.

(** [src/marty-verification/src/trust_sync.rs:17-20] MAX_RESPONSE_BYTES and the other limits *)
Definition MAX_RESPONSE_BYTES : Z := 2 * 1024 * 1024.
Definition MAX_PAGES : Z := 100.
Definition MAX_ENTRIES_PER_PAGE : Z := 10000.
Definition SYNC_PROTOCOL : string := "MARTY_TRUST_REGISTRY_SYNC_V1".

(** [src/marty-verification/src/trust_sync.rs:27-48] TrustSyncError *)
Record TrustSyncError := sync_error { se_code : string; se_message : string }.

(** [src/marty-verification/src/trust_sync.rs:50-54] TrustSyncError, Display *)
Definition sync_error_text (e : TrustSyncError) : string :=
  "TRUST_REGISTRY." +:+ se_code e +:+ ": " +:+ se_message e.

#[local] Abbreviation result := (res TrustSyncError).

(** [src/marty-verification/src/trust_sync.rs:60-66] RegistryType *)
Inductive RegistryType := RtIcaoPkd | RtEuTrustList | RtAamva.
#[export] Instance RegistryType_eq_dec : EqDecision RegistryType.
Proof. solve_decision. Defined.

(** [src/marty-verification/src/trust_sync.rs:68-75] TrustFramework *)
Inductive TrustFramework := TfIcao | TfEudi | TfAamva | TfCustom.
#[export] Instance TrustFramework_eq_dec : EqDecision TrustFramework.
Proof. solve_decision. Defined.

(** [src/marty-verification/src/trust_sync.rs:77-84] CredentialFormat *)
Inductive RegistryCredentialFormat := RfMdoc | RfSdJwtVc | RfVcJwt | RfJsonLd.
#[export] Instance RegistryCredentialFormat_eq_dec : EqDecision RegistryCredentialFormat.
Proof. solve_decision. Defined.

(** [src/marty-verification/src/trust_sync.rs:86-96] RegistryConfig *)
Record RegistryConfig := mkRegistryConfig {
  registry_type : RegistryType;
  registry_name : string;
  registry_url : string;
  supported_frameworks : list TrustFramework;
  supported_formats : list RegistryCredentialFormat;
  rc_sync_interval_hours : Z;
  rc_description : string;
  issuer_type_filter : string;
}.

(** [src/marty-verification/src/trust_sync.rs:98-136] REGISTRY_CATALOG *)
Definition REGISTRY_CATALOG : list RegistryConfig :=
  [mkRegistryConfig RtIcaoPkd "ICAO Public Key Directory" "https://pkd.icao.int" [TfIcao] [RfMdoc] 24
     "International Civil Aviation Organization Public Key Directory for ePassports and travel documents"
     "DOCUMENT_SIGNER";
   mkRegistryConfig RtEuTrustList "EU List of Trusted Lists (LoTL)"
     "https://ec.europa.eu/digital-building-blocks/web-redirect/en/eu-trusted-lists-xml" [TfEudi]
     [RfSdJwtVc; RfVcJwt] 24
     "European Union's centralized Trust List containing trusted certificate and credential issuers"
     "CREDENTIAL_ISSUER";
   mkRegistryConfig RtAamva "American Association of Motor Vehicle Administrators"
     "https://www.aamva.org/standards" [TfAamva] [RfMdoc; RfSdJwtVc] 24
     "AAMVA database of trusted issuers for mobile driver licenses and travel documents"
     "MDOC_ISSUER"].

(** [src/marty-verification/src/trust_sync.rs:138-143] registry_catalog *)
Definition registry_catalog (framework : option TrustFramework) : list RegistryConfig :=
  List.filter (fun config =>
    match framework with Some f => bool_decide (f ∈ supported_frameworks config) | None => true end)
    REGISTRY_CATALOG.

(** [src/marty-verification/src/trust_sync.rs:145-150] registry_config *)
Definition registry_config (t : RegistryType) : result RegistryConfig :=
  expect (List.find (fun config => bool_decide (registry_type config = t)) REGISTRY_CATALOG).

(** [chrono]: [checked_add_signed] of a number of seconds, and [to_rfc3339]; the
    text of the instant of a certificate time is read back as that instant. *)
Class Chrono := {
  checked_add_seconds : Z -> Z -> option Z;
  to_rfc3339 : Z -> string;
}.
Class ChronoLaws `{Rfc3339} `{Chrono} : Prop := {
  rfc3339_roundtrip : forall dt t, parse_rfc3339 (format_x509_time dt) = Some t -> parse_rfc3339 (to_rfc3339 t) = Some t;
  checked_add_sum : forall t s u, checked_add_seconds t s = Some u -> u = t + s * 1000000000;
}.

(** [uuid::Uuid::parse_str(text).is_ok()]. *)
Class UuidLib := uuid_ok : string -> bool.

(** [url::Url]: the parts that are read, the authority between [BeforeHost] and
    [AfterPort], the two updates, and its text. *)
Inductive UrlHost := DomainHost (domain : string) | IpHost (ip : IpAddr).
Class UrlLib := {
  Url : Type;
  url_parse : string -> option Url;
  url_scheme : Url -> string;
  url_host : Url -> option UrlHost;
  url_host_str : Url -> option string;
  url_username : Url -> string;
  url_password : Url -> option string;
  url_port : Url -> option Z;
  url_query : Url -> option string;
  url_fragment : Url -> option string;
  url_authority : Url -> string;
  url_append_pair : Url -> string -> string -> Url;
  url_set_ip_host : Url -> IpAddr -> option Url;
  url_to_string : Url -> string;
}.

(** [src/marty-verification/src/trust_sync.rs:152-158] ImportDecision *)
Record ImportDecision := mkImportDecision {
  id_registry : RegistryConfig;
  id_formats : list RegistryCredentialFormat;
  id_sync_interval_hours : Z;
  next_sync_at : Z;
}.

(** [src/marty-verification/src/trust_sync.rs:182-193] decide_import, the loop over the formats *)
Fixpoint unique_formats (supported formats unique : list RegistryCredentialFormat) :
    result (list RegistryCredentialFormat) :=
  match formats with
  | [] => Ok unique
  | format :: rest =>
      _ ← ensure (bool_decide (format ∈ supported))
            (sync_error "UNSUPPORTED_FORMAT" "the registry does not support the requested credential format");
      unique_formats supported rest
        (if bool_decide (format ∈ unique) then unique else (unique ++ [format])%list)
  end.

Definition valid_interval (hours : Z) : bool := (1 <=? hours) && (hours <=? 8760).

Section scheduling.
Context `{Chrono}.

(** [src/marty-verification/src/trust_sync.rs:160-203] decide_import *)
Definition decide_import (t : RegistryType) (requested : option (list RegistryCredentialFormat))
    (sync_interval_hours : option Z) (now : Z) : result ImportDecision :=
  registry ← registry_config t;
  let interval := default (rc_sync_interval_hours registry) sync_interval_hours in
  _ ← ensure (valid_interval interval)
        (sync_error "INVALID_SYNC_INTERVAL" "registry sync interval must be between 1 and 8760 hours");
  let formats := default (supported_formats registry) requested in
  _ ← ensure (negb (bool_decide (formats = [])))
        (sync_error "MISSING_FORMAT" "at least one registry credential format is required");
  unique ← unique_formats (supported_formats registry) formats [];
  next ← ok_or (checked_add_seconds now (interval * 3600))
           (sync_error "TIME_OVERFLOW" "next sync time overflowed");
  Ok (mkImportDecision registry unique interval next).

(** [src/marty-verification/src/trust_sync.rs:245-268] sync_is_due; [refresh_seconds * 4 / 5] does not overflow for at most 8760 hours *)
Definition sync_is_due (last : option Z) (refresh_interval_hours now : Z) : result bool :=
  _ ← ensure (valid_interval refresh_interval_hours)
        (sync_error "INVALID_SYNC_INTERVAL" "registry sync interval must be between 1 and 8760 hours");
  match last with
  | None => Ok true
  | Some last =>
      let due_after_seconds := refresh_interval_hours * 60 * 60 * 4 / 5 in
      due_at ← ok_or (checked_add_seconds last due_after_seconds)
                 (sync_error "TIME_OVERFLOW" "sync schedule overflowed");
      Ok (due_at <=? now)
  end.
End scheduling.

(** ** The public feed *)

(** [str::parse::<u64>]: an optional plus sign and digits, within range. *)
Fixpoint parse_u64_digits (acc : Z) (s : list Z) : option Z :=
  match s with
  | [] => Some acc
  | c :: rest =>
      d ← to_digit 10 c;
      if usize_max <? acc * 10 + d then None else parse_u64_digits (acc * 10 + d) rest
  end.
Definition parse_u64 (s : list Z) : option Z :=
  match s with
  | [] => None
  | c :: rest =>
      if c =? 43 then match rest with [] => None | _ => parse_u64_digits 0 rest end
      else parse_u64_digits 0 s
  end.

(** [src/marty-verification/src/trust_sync.rs:205-209] PublicSyncQueryPlan *)
Record PublicSyncQueryPlan := mkQueryPlan { since_sequence : option Z; current_only : bool }.

(** [src/marty-verification/src/trust_sync.rs:211-223] plan_public_sync_query *)
Definition plan_public_sync_query (since : option string) : result PublicSyncQueryPlan :=
  match since with
  | None => Ok (mkQueryPlan None true)
  | Some raw =>
      n ← ok_or (parse_u64 (utf8_trim (str_bytes raw))) (sync_error "INVALID_SYNC_TOKEN" "Invalid sync token");
      Ok (mkQueryPlan (Some n) false)
  end.

(** [src/marty-verification/src/trust_sync.rs:225-231] PublicSyncMetadata *)
Record PublicSyncMetadata := mkSyncMetadata {
  sm_sync_token : string; sm_sequence : Z; sm_has_more : bool; sm_generated_at : Z;
}.

(** [src/marty-verification/src/trust_sync.rs:233-243] public_sync_metadata *)
Definition public_sync_metadata (current_sequence generated_at : Z) : PublicSyncMetadata :=
  mkSyncMetadata (pretty current_sequence) current_sequence false generated_at.

(** ** Destinations *)

(** [str::split] at an ASCII character. *)
Fixpoint split_at (c : Z) (s : list Z) : list (list Z) :=
  match s with
  | [] => [[]]
  | a :: rest =>
      let parts := split_at c rest in
      if a =? c then [] :: parts
      else match parts with p :: ps => (a :: p) :: ps | [] => [[a]] end
  end.

(** [str::trim_end_matches] of an ASCII character. *)
Fixpoint drop_front (c : Z) (s : list Z) : list Z :=
  match s with a :: rest => if a =? c then drop_front c rest else s | [] => [] end.
Definition trim_end_char (c : Z) (s : list Z) : list Z := reverse (drop_front c (reverse s)).

(** [src/marty-verification/src/trust_sync.rs:322-330] parse_private_host_allowlist, whether a label is refused *)
Definition bad_label (label : list Z) : bool :=
  bool_decide (label = []) || (63 <? zlen label)
  || bool_decide (head label = Some 45) || bool_decide (last label = Some 45)
  || negb (forallb (fun b => ((97 <=? b) && (b <=? 122)) || ((48 <=? b) && (b <=? 57)) || (b =? 45)) label).

(** [src/marty-verification/src/trust_sync.rs:308-337] parse_private_host_allowlist, the loop over the hosts *)
Fixpoint allowlist_loop (parts : list (list Z)) (acc : gset string) : result (gset string) :=
  match parts with
  | [] => Ok acc
  | raw :: rest =>
      let host := trim_end_char 46 (byte_lower <$> utf8_trim raw) in
      if bool_decide (host = []) then allowlist_loop rest acc
      else
        _ ← ensure (negb (bool_decide (is_Some (ip_from_str (str_of_bytes host)))))
              (sync_error "INVALID_ALLOWLIST"
                 "TRUST_REGISTRY_PRIVATE_HOST_ALLOWLIST accepts exact DNS hostnames, not IP addresses");
        _ ← ensure (negb ((253 <? zlen host) || existsb bad_label (split_at 46 host)))
              (sync_error "INVALID_ALLOWLIST"
                 "TRUST_REGISTRY_PRIVATE_HOST_ALLOWLIST contains an invalid DNS hostname");
        allowlist_loop rest ({[ str_of_bytes host ]} ∪ acc)
  end.

(** [src/marty-verification/src/trust_sync.rs:306-339] parse_private_host_allowlist *)
Definition parse_private_host_allowlist (configured : string) : result (gset string) :=
  allowlist_loop (split_at 44 (str_bytes configured)) ∅.

(** [src/marty-verification/src/trust_sync.rs:400-405] is_private *)
Definition is_private (ip : IpAddr) : bool :=
  match ip with
  | V4 a b _ _ => v4_is_private a b
  | V6 segments => Z.land (segment 0 segments) 65024 =? 64512
  end.

(** [src/marty-verification/src/trust_sync.rs:414-429] is_global_v4 *)
Definition is_global_v4 (a b c d : Z) : bool :=
  negb ((a =? 0) || (a =? 10) || (a =? 127)
        || ((a =? 100) && ((64 <=? b) && (b <=? 127)))
        || ((a =? 169) && (b =? 254))
        || ((a =? 172) && ((16 <=? b) && (b <=? 31)))
        || ((a =? 192) && (b =? 168))
        || ((a =? 192) && (b =? 0))
        || ((a =? 192) && (b =? 0) && (c =? 2))
        || ((a =? 198) && ((b =? 18) || (b =? 19)))
        || ((a =? 198) && (b =? 51) && (c =? 100))
        || ((a =? 203) && (b =? 0) && (c =? 113))
        || (224 <=? a)).

(** [src/marty-verification/src/trust_sync.rs:431-444] is_global_v6 *)
Definition is_global_v6 (segments : list Z) : bool :=
  if v6_is_unspecified segments || v6_is_loopback segments || v6_is_multicast segments then false
  else
    let first := segment 0 segments in
    if (Z.land first 65024 =? 64512) || (Z.land first 65472 =? 65152) then false
    else if (segment 0 segments =? 8193) && (segment 1 segments =? 3512) then false
    else Z.land first 57344 =? 8192.

(** [src/marty-verification/src/trust_sync.rs:407-412] is_global *)
Definition is_global (ip : IpAddr) : bool :=
  match ip with V4 a b c d => is_global_v4 a b c d | V6 segments => is_global_v6 segments end.

(** [src/marty-verification/src/trust_sync.rs:341-346] DestinationDecision *)
Record DestinationDecision := mkDestination { dd_hostname : string; dd_authority : string; dd_address : string }.

(** The first element of a [BTreeSet<String>]. *)
Definition btree_first (s : gset string) : option string :=
  head (sort_by (fun a b => bytes_le (str_bytes a) (str_bytes b)) (elements s)).

(** [src/marty-verification/src/trust_sync.rs:375-387] validate_destination, the loop over the addresses *)
Fixpoint address_loop (hostname : string) (allowlist : gset string) (addresses : list string)
    (normalized : gset string) : result (gset string) :=
  match addresses with
  | [] => Ok normalized
  | raw :: rest =>
      address ← ok_or (ip_from_str raw)
                  (sync_error "INVALID_ADDRESS" "registry resolved an invalid IP address");
      let explicitly_allowed_private := bool_decide (hostname ∈ allowlist) && is_private address in
      _ ← ensure (negb (negb (is_global address) && negb explicitly_allowed_private))
            (sync_error "NON_PUBLIC_DESTINATION"
               "registry hostname resolves to a non-public network address");
      address_loop hostname allowlist rest ({[ ip_to_string address ]} ∪ normalized)
  end.

(** [src/marty-verification/src/trust_sync.rs:446-451] RequestPlan *)
Record RequestPlan := mkRequestPlan { request_url : string; host_header : string; sni_hostname : string }.

Section urls.
Context `{UrlLib}.

Definition invalid_url (message : string) : TrustSyncError := sync_error "INVALID_URL" message.

(** [src/marty-verification/src/trust_sync.rs:270-304] validate_registry_url *)
Definition validate_registry_url (url : string) : result string :=
  parsed ← ok_or (url_parse url) (invalid_url "registry URL is invalid");
  _ ← ensure (String.eqb (url_scheme parsed) "https") (invalid_url "registry URL must use HTTPS");
  _ ← ensure (match url_host parsed with Some _ => true | None => false end)
        (invalid_url "registry URL must include a hostname");
  _ ← ensure (String.eqb (url_username parsed) "" && bool_decide (url_password parsed = None))
        (invalid_url "registry URL must not contain credentials");
  _ ← ensure (match url_port parsed with Some port => port =? 443 | None => true end)
        (invalid_url "registry URL must use the standard HTTPS port");
  _ ← ensure (bool_decide (url_query parsed = None) && bool_decide (url_fragment parsed = None))
        (invalid_url "registry URL must not contain a query or fragment");
  Ok url.

(** [src/marty-verification/src/trust_sync.rs:356-366] validate_destination, the host name *)
Definition host_name (parsed : Url) : result string :=
  match url_host parsed with
  | Some (DomainHost host) => Ok (str_of_bytes (byte_lower <$> trim_end_char 46 (str_bytes host)))
  | Some (IpHost address) => Ok (ip_to_string address)
  | None => Err (invalid_url "registry URL must include a hostname")
  end.

(** [src/marty-verification/src/trust_sync.rs:348-398] validate_destination *)
Definition validate_destination (url : string) (addresses : list string) (private_host_allowlist : string) :
    result DestinationDecision :=
  _ ← validate_registry_url url;
  parsed ← ok_or (url_parse url) (invalid_url "registry URL is invalid");
  hostname ← host_name parsed;
  allowlist ← parse_private_host_allowlist private_host_allowlist;
  _ ← ensure (negb (bool_decide (addresses = [])))
        (sync_error "DNS_EMPTY" "registry hostname resolved to no addresses");
  normalized ← address_loop hostname allowlist addresses ∅;
  address ← expect (btree_first normalized);
  Ok (mkDestination hostname (url_authority parsed) address).

(** [src/marty-verification/src/trust_sync.rs:475-482] plan_request, the destination address *)
Definition pinned_url (parsed : Url) (address : option string) : result Url :=
  match address with
  | Some raw_address =>
      ip ← ok_or (ip_from_str raw_address)
             (sync_error "INVALID_ADDRESS" "registry destination address is invalid");
      ok_or (url_set_ip_host parsed ip) (sync_error "INVALID_ADDRESS" "registry destination address is invalid")
  | None => Ok parsed
  end.

(** [src/marty-verification/src/trust_sync.rs:453-488] plan_request *)
Definition plan_request (url : string) (token address : option string) : result RequestPlan :=
  _ ← validate_registry_url url;
  _ ← ensure (match token with
              | Some value => negb (String.eqb value "" || (2048 <? str_len value))
              | None => true
              end)
        (sync_error "INVALID_SYNC_TOKEN" "registry sync token must contain between 1 and 2048 bytes");
  parsed ← ok_or (url_parse url) (invalid_url "registry URL is invalid");
  let parsed := match token with Some value => url_append_pair parsed "since" value | None => parsed end in
  hostname ← ok_or (url_host_str parsed) (invalid_url "registry URL must include a hostname");
  let header := url_authority parsed in
  target ← pinned_url parsed address;
  Ok (mkRequestPlan (url_to_string target) header hostname).
End urls.

(** ** Feeds and imported state *)

(** [src/marty-verification/src/trust_sync.rs:490-495] AnchorType *)
Inductive AnchorType := AnchorCsca | AnchorDsc.
(** [src/marty-verification/src/trust_sync.rs:497-502] RegistryOperation *)
Inductive RegistryOperation := OpAdd | OpRemove.
(** [src/marty-verification/src/trust_sync.rs:504-511] RegistrySource *)
Inductive RegistrySource := SrcIcaoPkd | SrcAamva | SrcEudiLotl | SrcManual.

#[export] Instance RegistryOperation_eq_dec : EqDecision RegistryOperation.
Proof. solve_decision. Defined.

(** [src/marty-verification/src/trust_sync.rs:513-529] RegistryEntry *)
Record RegistryEntry := mkRegistryEntry {
  re_entry_id : string;
  re_anchor_type : AnchorType;
  re_operation : RegistryOperation;
  re_country_code : string;
  re_certificate_pem : option string;
  re_subject_key_id : option string;
  re_not_before : option Z;
  re_not_after : option Z;
  re_source : RegistrySource;
}.

(** [src/marty-verification/src/trust_sync.rs:531-541] RegistryFeed *)
Record RegistryFeed := mkFeed {
  feed_sync_token : string;
  feed_sequence : Z;
  feed_entries : list RegistryEntry;
  has_more : bool;
  feed_generated_at : Z;
}.

(** [src/marty-verification/src/trust_sync.rs:543-557] ImportedRegistryEntry *)
Record ImportedRegistryEntry := mkImported {
  im_entry_id : string;
  im_anchor_type : AnchorType;
  im_country_code : string;
  im_certificate_pem : string;
  im_source : RegistrySource;
  im_subject_key_id : option string;
  im_not_before : option string;
  im_not_after : option string;
}.

(** [src/marty-verification/src/trust_sync.rs:559-570] RegistryImportState *)
Record RegistryImportState := mkImportState {
  st_sync_token : option string;
  st_sequence : Z;
  st_entries : gmap string ImportedRegistryEntry;
  synchronized_at : option Z;
}.

(** [src/marty-verification/src/trust_sync.rs:572-579] RegistryEvaluation *)
Record RegistryEvaluation := mkEvaluation {
  ev_complete : bool;
  ev_pages : Z;
  ev_next_token : string;
  ev_state : option RegistryImportState;
}.

Definition invalid_state (message : string) : TrustSyncError := sync_error "INVALID_STATE" message.
Definition token_ok (token : string) : bool := negb (String.eqb token "" || (2048 <? str_len token)).

(** [src/marty-verification/src/trust_sync.rs:658-666] validate_country *)
Definition validate_country (country : string) : result unit :=
  ensure (((2 <=? str_len country) && (str_len country <=? 3))
          && forallb (fun b => (65 <=? b) && (b <=? 90)) (str_bytes country))
    (sync_error "INVALID_COUNTRY" "registry country_code must contain 2 or 3 uppercase ASCII letters").

(** A loop that stops at the first error. *)
Fixpoint all_ok {A} (f : A -> result unit) (l : list A) : result unit :=
  match l with [] => Ok tt | x :: l => f x;; all_ok f l end.

(** The bindings of a [BTreeMap] in the order of its keys. *)
Definition btree_bindings {V} (m : gmap string V) : list (string * V) :=
  sort_by (fun a b => bytes_le (str_bytes a.1) (str_bytes b.1)) (map_to_list m).

Section feeds.
Context `{UuidLib}.

(** [src/marty-verification/src/trust_sync.rs:632-654] validate_remote_entry_shape, the certificate of an operation *)
Definition validate_operation (entry : RegistryEntry) : result unit :=
  match re_operation entry, re_certificate_pem entry with
  | OpAdd, None => Err (sync_error "MISSING_CERTIFICATE" "ADD registry entries require certificate_pem")
  | OpAdd, Some pem =>
      ensure (negb (64 * 1024 <? str_len pem))
        (sync_error "CERTIFICATE_TOO_LARGE" "registry certificate exceeds the size limit")
  | OpRemove, Some _ =>
      Err (sync_error "UNEXPECTED_CERTIFICATE" "REMOVE registry entries must not include certificate_pem")
  | OpRemove, None => Ok tt
  end.

(** [src/marty-verification/src/trust_sync.rs:618-656] validate_remote_entry_shape *)
Definition validate_remote_entry_shape (entry : RegistryEntry) : result unit :=
  _ ← ensure (uuid_ok (re_entry_id entry)) (sync_error "INVALID_ENTRY" "registry entry_id must be a UUID");
  _ ← validate_country (re_country_code entry);
  _ ← ensure (match re_subject_key_id entry with Some v => negb (512 <? str_len v) | None => true end)
        (sync_error "INVALID_ENTRY" "registry subject_key_id exceeds the size limit");
  validate_operation entry.

(** [src/marty-verification/src/trust_sync.rs:599-616] validate_feed *)
Definition validate_feed (feed : RegistryFeed) : result unit :=
  _ ← ensure (token_ok (feed_sync_token feed))
        (sync_error "INVALID_SYNC_TOKEN" "registry sync token must contain between 1 and 2048 bytes");
  _ ← ensure (negb (MAX_ENTRIES_PER_PAGE <? zlen (feed_entries feed)))
        (sync_error "TOO_MANY_ENTRIES" "registry page exceeds the entry limit");
  all_ok validate_remote_entry_shape (feed_entries feed).

(** [src/marty-verification/src/trust_sync.rs:679-695] validate_state_shape, one stored entry *)
Definition validate_stored_entry (e : string * ImportedRegistryEntry) : result unit :=
  let '(storage_id, entry) := e in
  _ ← ensure (String.eqb storage_id (im_entry_id entry) && uuid_ok storage_id)
        (invalid_state "stored registry entry identity is inconsistent");
  _ ← map_err (fun _ => invalid_state "stored registry entry is invalid")
        (validate_country (im_country_code entry));
  ensure (negb (64 * 1024 <? str_len (im_certificate_pem entry)))
    (invalid_state "stored registry entry is invalid").

(** [src/marty-verification/src/trust_sync.rs:668-697] validate_state_shape *)
Definition validate_state_shape (state : RegistryImportState) : result unit :=
  _ ← ensure (match st_sync_token state with Some t => token_ok t | None => true end)
        (invalid_state "stored registry sync token is invalid");
  all_ok validate_stored_entry (btree_bindings (st_entries state)).
End feeds.

(** ** Certificates of entries *)

Section evaluation.
Context `{X509Details} `{Sha1} `{Sha2} `{Rfc3339} `{Chrono} `{UuidLib}.

Definition invalid_certificate (message : string) : TrustSyncError := sync_error "INVALID_CERTIFICATE" message.

(** [(a - b).num_milliseconds().abs() > 1_000]: truncation towards zero. *)
Definition times_differ (a b : Z) : bool := 1000 <? Z.abs (Z.quot (a - b) 1000000).

Definition one_of_usages (name : string) (usages : list string) : bool := existsb (fun u => String.eqb u name) usages.

(** [src/marty-verification/src/trust_sync.rs:917-936] validate_certificate, the profile of an anchor *)
Definition validate_profile (anchor : AnchorType) (info : CertificateInfo) : result unit :=
  match anchor with
  | AnchorCsca =>
      ensure (negb (negb (ci_is_ca info) || negb (one_of_usages "keyCertSign" (ci_key_usage info))))
        (sync_error "INVALID_CSCA_PROFILE" "CSCA entry is not a certificate-signing CA")
  | AnchorDsc =>
      ensure (negb (ci_is_ca info || negb (one_of_usages "digitalSignature" (ci_key_usage info))))
        (sync_error "INVALID_DSC_PROFILE" "DSC entry is not a document-signing certificate")
  end.

(** [src/marty-verification/src/trust_sync.rs:863-948] validate_certificate *)
Definition validate_registry_certificate (entry : RegistryEntry) (now : Z) : result ImportedRegistryEntry :=
  pem ← expect (re_certificate_pem entry);
  der ← map_err (fun _ => invalid_certificate "registry entry contains an invalid certificate")
          (load_certificate_pem pem);
  info ← map_err (fun _ => invalid_certificate "registry entry contains an invalid certificate")
           (get_certificate_info der);
  not_before ← ok_or (parse_rfc3339 (ci_not_before info)) (invalid_certificate "certificate validity is invalid");
  not_after ← ok_or (parse_rfc3339 (ci_not_after info)) (invalid_certificate "certificate validity is invalid");
  _ ← ensure (negb ((now <? not_before) || (not_after <=? now)))
        (sync_error "CERTIFICATE_NOT_CURRENT" "registry entry certificate is not currently valid");
  _ ← ensure (match re_not_before entry with Some t => negb (times_differ t not_before) | None => true end)
        (sync_error "CERTIFICATE_TIME_MISMATCH" "registry entry not_before does not match its certificate");
  _ ← ensure (match re_not_after entry with Some t => negb (times_differ t not_after) | None => true end)
        (sync_error "CERTIFICATE_TIME_MISMATCH" "registry entry not_after does not match its certificate");
  _ ← validate_profile (re_anchor_type entry) info;
  Ok (mkImported (re_entry_id entry) (re_anchor_type entry) (re_country_code entry) pem (re_source entry)
        (re_subject_key_id entry) (Some (to_rfc3339 not_before)) (Some (to_rfc3339 not_after))).

(** [src/marty-verification/src/trust_sync.rs:851-861] parse_optional_time *)
Definition parse_optional_time (value : option string) : result (option Z) :=
  match value with
  | Some raw => t ← ok_or (parse_rfc3339 raw) (invalid_state "stored registry entry is invalid"); Ok (Some t)
  | None => Ok None
  end.

(** [src/marty-verification/src/trust_sync.rs:825-847] revalidate_entries, one stored entry *)
Definition revalidate_entry (e : string * ImportedRegistryEntry) (now : Z) : result ImportedRegistryEntry :=
  let '(storage_id, imported) := e in
  _ ← ensure (String.eqb storage_id (im_entry_id imported))
        (invalid_state "stored registry entry identity is inconsistent");
  not_before ← parse_optional_time (im_not_before imported);
  not_after ← parse_optional_time (im_not_after imported);
  let candidate := mkRegistryEntry (im_entry_id imported) (im_anchor_type imported) OpAdd
                     (im_country_code imported) (Some (im_certificate_pem imported))
                     (im_subject_key_id imported) not_before not_after (im_source imported) in
  _ ← map_err (fun _ => invalid_state "stored registry entry is invalid") (validate_remote_entry_shape candidate);
  validate_registry_certificate candidate now.

(** [src/marty-verification/src/trust_sync.rs:824-848] revalidate_entries, the loop *)
Fixpoint revalidate_loop (bindings : list (string * ImportedRegistryEntry)) (now : Z)
    (validated : gmap string ImportedRegistryEntry) : result (gmap string ImportedRegistryEntry) :=
  match bindings with
  | [] => Ok validated
  | e :: rest =>
      imported ← revalidate_entry e now;
      revalidate_loop rest now (<[e.1 := imported]> validated)
  end.

(** [src/marty-verification/src/trust_sync.rs:820-849] revalidate_entries *)
Definition revalidate_entries (entries : gmap string ImportedRegistryEntry) (now : Z) :
    result (gmap string ImportedRegistryEntry) :=
  revalidate_loop (btree_bindings entries) now ∅.

(** ** Evaluation of pages *)

(** [src/marty-verification/src/trust_sync.rs:718-726] evaluate_pages, what the loops carry *)
Record SyncLoop := mkSyncLoop {
  sl_entries : gmap string ImportedRegistryEntry;
  sl_sequence : Z;
  sl_page_token : option string;
  sl_seen : gset string;
}.

(** [src/marty-verification/src/trust_sync.rs:759-785] evaluate_pages, one entry of a page *)
Definition apply_remote (initial_sync : bool) (now : Z) (remote : RegistryEntry) (st : SyncLoop) :
    result SyncLoop :=
  let id := re_entry_id remote in
  _ ← ensure (negb (bool_decide (id ∈ sl_seen st)))
        (sync_error "DUPLICATE_ENTRY" "registry sync contains a duplicate entry");
  let seen := {[ id ]} ∪ sl_seen st in
  match re_operation remote with
  | OpRemove =>
      _ ← ensure (negb initial_sync) (sync_error "INITIAL_REMOVAL" "initial registry sync contains a removal");
      _ ← ensure (bool_decide (is_Some (sl_entries st !! id)))
            (sync_error "UNKNOWN_REMOVAL" "registry removed an unknown source entry");
      Ok (mkSyncLoop (delete id (sl_entries st)) (sl_sequence st) (sl_page_token st) seen)
  | OpAdd =>
      imported ← validate_registry_certificate remote now;
      Ok (mkSyncLoop (<[id := imported]> (sl_entries st)) (sl_sequence st) (sl_page_token st) seen)
  end.

Fixpoint apply_entries (initial_sync : bool) (now : Z) (remotes : list RegistryEntry) (st : SyncLoop) :
    result SyncLoop :=
  match remotes with
  | [] => Ok st
  | remote :: rest => st ← apply_remote initial_sync now remote st; apply_entries initial_sync now rest st
  end.

(** [src/marty-verification/src/trust_sync.rs:729-757] evaluate_pages, the checks on a page *)
Definition check_page (previous_sequence : Z) (initial_sync : bool) (index total : Z) (feed : RegistryFeed)
    (st : SyncLoop) : result unit :=
  _ ← validate_feed feed;
  _ ← ensure (negb ((index + 1 <? total) && negb (has_more feed)))
        (sync_error "UNEXPECTED_PAGE" "registry supplied a page after synchronization completed");
  _ ← ensure (negb (feed_sequence feed <? sl_sequence st))
        (sync_error "SEQUENCE_ROLLBACK" "registry sequence rollback was rejected");
  _ ← ensure (negb ((index =? 0) && negb initial_sync && negb (bool_decide (length (feed_entries feed) = 0%nat))
                    && (feed_sequence feed =? previous_sequence)))
        (sync_error "SEQUENCE_NOT_ADVANCED" "registry changes did not advance the sequence");
  ensure (negb (match sl_page_token st with Some t => String.eqb t (feed_sync_token feed) | None => false end))
    (sync_error "REPEATED_TOKEN" "registry repeated a pagination token").

(** [src/marty-verification/src/trust_sync.rs:728-788] evaluate_pages, the loop over the pages *)
Fixpoint page_loop (previous_sequence : Z) (initial_sync : bool) (now index total : Z)
    (pages : list RegistryFeed) (st : SyncLoop) : result SyncLoop :=
  match pages with
  | [] => Ok st
  | feed :: rest =>
      _ ← check_page previous_sequence initial_sync index total feed st;
      st ← apply_entries initial_sync now (feed_entries feed) st;
      page_loop previous_sequence initial_sync now (index + 1) total rest
        (mkSyncLoop (sl_entries st) (feed_sequence feed) (Some (feed_sync_token feed)) (sl_seen st))
  end.

(** [src/marty-verification/src/trust_sync.rs:699-818] evaluate_pages *)
Definition evaluate_pages (previous : RegistryImportState) (pages : list RegistryFeed) (now : Z) :
    result RegistryEvaluation :=
  _ ← validate_state_shape previous;
  _ ← ensure (negb (zlen pages =? 0))
        (sync_error "MISSING_PAGE" "registry synchronization requires at least one page");
  _ ← ensure (negb (MAX_PAGES <? zlen pages))
        (sync_error "PAGE_LIMIT" "registry pagination exceeded the page limit");
  let initial_sync := bool_decide (st_sync_token previous = None) in
  let start := mkSyncLoop (if initial_sync then ∅ else st_entries previous) (st_sequence previous) None ∅ in
  st ← page_loop (st_sequence previous) initial_sync now 0 (zlen pages) pages start;
  final ← expect (last pages);
  if has_more final then
    _ ← ensure (negb (zlen pages =? MAX_PAGES))
          (sync_error "PAGE_LIMIT" "registry pagination exceeded the page limit");
    Ok (mkEvaluation false (zlen pages) (feed_sync_token final) None)
  else
    entries ← revalidate_entries (sl_entries st) now;
    Ok (mkEvaluation true (zlen pages) (feed_sync_token final)
          (Some (mkImportState (Some (feed_sync_token final)) (sl_sequence st) entries (Some now)))).
End evaluation.
