(* ===== verification/TrustSyncFacts.v ===== *)
(** * Trust-registry synchronization: theorems (marty-verification, [trust_sync.rs])

    Synchronization never panics, never goes back in sequence, and leaves exactly
    the entries that the pages and the previous state say, each with a current
    certificate of the right profile; its state is accepted again and is stable
    under revalidation.  Destinations are public unless the operator allows a
    private host. *)

From stdpp Require Import gmap strings pretty.
From S2P Require Import Prelude Des Governance CanonicalJsonFacts RustNet PolicyService SecureMessaging CryptoKit X509 DeviceAuth CertInfo TrustSync.
Local Open Scope string_scope.
Local Open Scope Z_scope.

(** ** Loops *)

Lemma all_ok_iff {A} (f : A -> res TrustSyncError unit) l :
  all_ok f l = Ok tt <-> forall x, x ∈ l -> f x = Ok tt.
Proof.
  induction l as [|x l IH]; cbn [all_ok].
  - split; [intros _ x Hx; by apply elem_of_nil in Hx|done].
  - rewrite bind_Ok. split.
    + intros ([] & Hx & Hl) y [->|Hy]%elem_of_cons; [done|]. by apply IH.
    + intros Hall. exists tt. split; [apply Hall; by left|]. apply IH. intros y Hy. apply Hall. by right.
Qed.

Lemma all_ok_no_panic {A} (f : A -> res TrustSyncError unit) l :
  (forall x, no_panic (f x)) -> no_panic (all_ok f l).
Proof. intros Hf. induction l as [|x l IH]; simpl; [done|]. apply bind_no_panic; [done|intros _ _; done]. Qed.

Lemma btree_bindings_perm {V} (m : gmap string V) : btree_bindings m ≡ₚ map_to_list m.
Proof. apply sort_by_perm. Qed.

Lemma elem_of_btree_bindings {V} (m : gmap string V) k v : (k, v) ∈ btree_bindings m <-> m !! k = Some v.
Proof. by rewrite btree_bindings_perm, elem_of_map_to_list. Qed.

(** ** Revalidation *)

Section sync.
Context `{X509Details} `{Sha1} `{Sha2} `{Rfc3339} `{Chrono} `{UuidLib}.

(** The certificate of an imported entry is current and has the profile of its
    anchor type; the times of the entry are those of the certificate. *)
Definition current_certificate (e : ImportedRegistryEntry) (now : Z) : Prop :=
  exists der info nb na,
    load_certificate_pem (im_certificate_pem e) = Ok der /\ get_certificate_info der = Ok info /\
    parse_rfc3339 (ci_not_before info) = Some nb /\ parse_rfc3339 (ci_not_after info) = Some na /\
    nb <= now < na /\ validate_profile (im_anchor_type e) info = Ok tt /\
    im_not_before e = Some (to_rfc3339 nb) /\ im_not_after e = Some (to_rfc3339 na).

Lemma map_err_Ok_iff {E F A} (f : E -> F) (r : res E A) a : map_err f r = Ok a <-> r = Ok a.
Proof. destruct r; simpl; naive_solver. Qed.

Lemma validate_registry_certificate_Ok entry now e : validate_registry_certificate entry now = Ok e ->
  current_certificate e now /\ re_certificate_pem entry = Some (im_certificate_pem e) /\
  im_entry_id e = re_entry_id entry /\ im_anchor_type e = re_anchor_type entry /\
  im_country_code e = re_country_code entry /\ im_source e = re_source entry /\
  im_subject_key_id e = re_subject_key_id entry.
Proof.
  unfold validate_registry_certificate. intros (pem & Hpem & Hr)%bind_Ok. apply expect_Ok in Hpem.
  apply bind_Ok in Hr as (der & Hder%map_err_Ok_iff & Hr). apply bind_Ok in Hr as (info & Hinfo%map_err_Ok_iff & Hr).
  apply bind_Ok in Hr as (nb & Hnb%ok_or_Ok & Hr). apply bind_Ok in Hr as (na & Hna%ok_or_Ok & Hr).
  apply bind_Ok in Hr as ([] & Hnow%ensure_Ok & Hr). apply bind_Ok in Hr as ([] & _ & Hr).
  apply bind_Ok in Hr as ([] & _ & Hr). apply bind_Ok in Hr as ([] & Hprof & Hr). injection Hr as <-. cbn.
  split; [|done]. exists der, info, nb, na. split_and!; try done; breflect; lia.
Qed.

Lemma certificate_times `{!ChronoLaws} der info nb na : get_certificate_info der = Ok info ->
  parse_rfc3339 (ci_not_before info) = Some nb -> parse_rfc3339 (ci_not_after info) = Some na ->
  parse_rfc3339 (to_rfc3339 nb) = Some nb /\ parse_rfc3339 (to_rfc3339 na) = Some na.
Proof.
  intros (cert & _ & [= <-])%bind_Ok Hnb%rfc3339_roundtrip Hna%rfc3339_roundtrip. done.
Qed.

(** An entry with the times of its current certificate is imported as it is. *)
Lemma validate_registry_certificate_again e now entry : ChronoLaws -> current_certificate e now ->
  entry = mkRegistryEntry (im_entry_id e) (im_anchor_type e) OpAdd (im_country_code e)
            (Some (im_certificate_pem e)) (im_subject_key_id e)
            (im_not_before e ≫= parse_rfc3339) (im_not_after e ≫= parse_rfc3339) (im_source e) ->
  validate_registry_certificate entry now = Ok e.
Proof.
  intros Hlaws (der & info & nb & na & Hder & Hinfo & Hnb & Hna & Hnow & Hprof & Henb & Hena) ->.
  destruct (certificate_times der info nb na) as [Hrb Hra]; [done..|].
  unfold validate_registry_certificate. cbn [re_certificate_pem expect mbind res_bind].
  rewrite Hder. cbn [map_err mbind res_bind]. rewrite Hinfo. cbn [map_err mbind res_bind].
  rewrite Hnb. cbn [ok_or mbind res_bind]. rewrite Hna. cbn [ok_or mbind res_bind].
  rewrite (proj2 (Z.ltb_ge _ _)), (proj2 (Z.leb_gt _ _)) by lia. cbn [orb negb ensure mbind res_bind].
  rewrite Henb, Hena. cbn [re_not_before re_not_after mbind option_bind]. rewrite Hrb, Hra.
  assert (Hsame : forall t, times_differ t t = false) by (intros t; unfold times_differ; by rewrite Z.sub_diag).
  rewrite !Hsame. cbn [negb ensure mbind res_bind re_anchor_type]. rewrite Hprof. cbn [mbind res_bind].
  destruct e; cbn in *; congruence.
Qed.

Lemma parse_optional_time_Ok text t : parse_optional_time text = Ok t -> t = text ≫= parse_rfc3339.
Proof.
  destruct text as [raw|]; cbn; [|congruence]. destruct (parse_rfc3339 raw); cbn; congruence.
Qed.

Lemma revalidate_entry_Ok id e now e' : revalidate_entry (id, e) now = Ok e' ->
  im_entry_id e = id /\ im_entry_id e' = id /\ current_certificate e' now /\
  im_anchor_type e' = im_anchor_type e /\ im_country_code e' = im_country_code e /\
  im_certificate_pem e' = im_certificate_pem e /\ im_source e' = im_source e /\
  im_subject_key_id e' = im_subject_key_id e /\
  uuid_ok id = true /\ validate_country (im_country_code e) = Ok tt /\
  (forall v, im_subject_key_id e = Some v -> str_len v <= 512) /\ str_len (im_certificate_pem e) <= 64 * 1024.
Proof.
  unfold revalidate_entry. intros ([] & Hid%ensure_Ok & Hr)%bind_Ok. apply String.eqb_eq in Hid as ->.
  apply bind_Ok in Hr as (nb & _ & Hr). apply bind_Ok in Hr as (na & _ & Hr).
  apply bind_Ok in Hr as ([] & Hshape%map_err_Ok_iff & Hr).
  apply validate_registry_certificate_Ok in Hr as (Hcur & Hpem & Hid & Ha & Hc & Hs & Hk). cbn in *.
  unfold validate_remote_entry_shape in Hshape. apply bind_Ok in Hshape as ([] & Hu%ensure_Ok & Hshape).
  apply bind_Ok in Hshape as ([] & Hcc & Hshape). apply bind_Ok in Hshape as ([] & Hsk%ensure_Ok & Hlen).
  unfold validate_operation in Hlen. cbn in Hu, Hcc, Hsk, Hlen. apply ensure_Ok in Hlen.
  injection Hpem as Hpem. split_and!; try congruence; try done; [|breflect; lia].
  intros v Hv. rewrite Hv in Hsk. breflect; lia.
Qed.

(** What the shape check asks of a stored entry. *)
Definition entry_shape (e : ImportedRegistryEntry) : Prop :=
  uuid_ok (im_entry_id e) = true /\ validate_country (im_country_code e) = Ok tt /\
  (forall v, im_subject_key_id e = Some v -> str_len v <= 512) /\ str_len (im_certificate_pem e) <= 64 * 1024.

Lemma revalidate_current e now : ChronoLaws -> current_certificate e now -> entry_shape e ->
  revalidate_entry (im_entry_id e, e) now = Ok e.
Proof.
  intros Hlaws Hcur (Hu & Hcc & Hsk & Hlen).
  unfold revalidate_entry. rewrite String.eqb_refl. cbn [ensure mbind res_bind].
  pose proof Hcur as (der & info & nb & na & _ & Hinfo & Hpb & Hpa & _ & _ & Hnb & Hna).
  destruct (certificate_times der info nb na) as [Hrb Hra]; [done..|].
  unfold parse_optional_time at 1 2. rewrite Hnb, Hna, Hrb, Hra. cbn [ok_or mbind res_bind].
  match goal with |- context [validate_remote_entry_shape ?c] =>
    assert (Hshape : validate_remote_entry_shape c = Ok tt) end.
  { unfold validate_remote_entry_shape, validate_operation. cbn. rewrite Hu. cbn [ensure mbind res_bind].
    rewrite Hcc. cbn [ensure mbind res_bind].
    replace (match im_subject_key_id e with Some v => negb (512 <? str_len v) | None => true end) with true.
    - cbn [ensure mbind res_bind]. apply ensure_Ok. breflect. lia.
    - destruct (im_subject_key_id e) as [v|]; [|done]. specialize (Hsk v eq_refl). symmetry. breflect. lia. }
  rewrite Hshape. cbn [map_err mbind res_bind].
  apply (validate_registry_certificate_again e); [done|done|]. rewrite Hnb, Hna. cbn. by rewrite Hrb, Hra.
Qed.

Lemma revalidate_entry_sound id e now e' : revalidate_entry (id, e) now = Ok e' ->
  im_entry_id e' = id /\ current_certificate e' now /\ entry_shape e'.
Proof.
  intros (_ & Hid & Hcur & _ & Hc & Hp & _ & Hk & Hu & Hcc & Hsk & Hlen)%revalidate_entry_Ok.
  split; [done|]. split; [done|]. unfold entry_shape. by rewrite Hid, Hc, Hp, Hk.
Qed.

Lemma revalidate_entry_again id e now e' : ChronoLaws -> revalidate_entry (id, e) now = Ok e' ->
  revalidate_entry (id, e') now = Ok e'.
Proof. intros Hlaws (<- & Hcur & Hshape)%revalidate_entry_sound. by apply revalidate_current. Qed.

Lemma revalidate_loop_Ok bs now : forall v m, NoDup bs.*1 -> revalidate_loop bs now v = Ok m ->
  (forall id e, (id, e) ∈ bs -> exists e', revalidate_entry (id, e) now = Ok e' /\ m !! id = Some e') /\
  (forall id, id ∉ bs.*1 -> m !! id = v !! id).
Proof.
  induction bs as [|[id e] bs IH]; intros v m Hnd; cbn [revalidate_loop].
  - intros [= <-]. split; [intros id e Hin; by apply elem_of_nil in Hin|done].
  - intros (e' & He & Hr)%bind_Ok. rewrite fmap_cons in Hnd. apply NoDup_cons in Hnd as [Hni Hnd].
    destruct (IH _ _ Hnd Hr) as [Hin Hout]. split.
    + intros id' e0 [[= -> ->]|Hin']%elem_of_cons; [|by apply Hin]. exists e'. split; [done|].
      rewrite Hout by done. by rewrite lookup_insert_eq.
    + intros id' Hid. rewrite fmap_cons, not_elem_of_cons in Hid. destruct Hid as [Hne Hid].
      rewrite Hout by done. by rewrite lookup_insert_ne.
Qed.

Lemma revalidate_loop_total bs now : forall v,
  (forall id e, (id, e) ∈ bs -> exists e', revalidate_entry (id, e) now = Ok e') ->
  exists m, revalidate_loop bs now v = Ok m.
Proof.
  induction bs as [|[id e] bs IH]; intros v Hall; cbn [revalidate_loop]; [by eexists|].
  destruct (Hall id e) as [e' He]; [by left|]. rewrite He. cbn [mbind res_bind]. apply IH.
  intros id' e0 Hin. apply Hall. by right.
Qed.

Lemma bindings_NoDup {V} (m : gmap string V) : NoDup (btree_bindings m).*1.
Proof. rewrite btree_bindings_perm. apply NoDup_fst_map_to_list. Qed.

(** Revalidation keeps the keys and revalidates each entry. *)
Lemma revalidate_entries_Ok entries now m : revalidate_entries entries now = Ok m ->
  forall id, match entries !! id with
             | Some e => exists e', revalidate_entry (id, e) now = Ok e' /\ m !! id = Some e'
             | None => m !! id = None
             end.
Proof.
  intros [Hin Hout]%revalidate_loop_Ok id; [|apply bindings_NoDup].
  destruct (entries !! id) as [e|] eqn:He; [by apply Hin, elem_of_btree_bindings|].
  rewrite Hout; [by rewrite lookup_empty|]. intros ([id' e] & -> & Hb)%list_elem_of_fmap.
  apply elem_of_btree_bindings in Hb. cbn in He. congruence.
Qed.

Lemma revalidate_entries_stable entries now m : ChronoLaws -> revalidate_entries entries now = Ok m ->
  revalidate_entries m now = Ok m.
Proof.
  intros Hlaws Hr. pose proof (revalidate_entries_Ok _ _ _ Hr) as Hm.
  assert (Hagain : forall id e, m !! id = Some e -> revalidate_entry (id, e) now = Ok e).
  { intros id e He. specialize (Hm id). destruct (entries !! id) as [e0|]; [|congruence].
    destruct Hm as (e' & He' & Hid). assert (e' = e) as -> by congruence. by eapply revalidate_entry_again. }
  destruct (revalidate_loop_total (btree_bindings m) now ∅) as [m' Hm'].
  { intros id e Hin%elem_of_btree_bindings. exists e. by apply Hagain. }
  unfold revalidate_entries. rewrite Hm'. f_equal. apply map_eq. intros id.
  pose proof (revalidate_entries_Ok m now m' Hm' id) as Hid. destruct (m !! id) as [e|] eqn:He; [|done].
  destruct Hid as (e' & He' & ->). rewrite (Hagain id e He) in He'. congruence.
Qed.

(** ** No panic *)

Lemma validate_feed_entries feed : validate_feed feed = Ok tt ->
  token_ok (feed_sync_token feed) = true /\
  forall r, r ∈ feed_entries feed -> validate_remote_entry_shape r = Ok tt.
Proof.
  unfold validate_feed. intros ([] & Ht%ensure_Ok & Hr)%bind_Ok. apply bind_Ok in Hr as ([] & _ & Hr).
  split; [done|]. by apply all_ok_iff.
Qed.

Lemma shape_Ok r : validate_remote_entry_shape r = Ok tt ->
  uuid_ok (re_entry_id r) = true /\ validate_country (re_country_code r) = Ok tt /\
  (forall v, re_subject_key_id r = Some v -> str_len v <= 512) /\
  (re_operation r = OpAdd -> exists pem, re_certificate_pem r = Some pem /\ str_len pem <= 64 * 1024).
Proof.
  unfold validate_remote_entry_shape. intros ([] & Hu%ensure_Ok & Hr)%bind_Ok.
  apply bind_Ok in Hr as ([] & Hc & Hr). apply bind_Ok in Hr as ([] & Hk%ensure_Ok & Hr).
  split; [done|]. split; [done|]. split.
  - intros v Hv. rewrite Hv in Hk. breflect. lia.
  - unfold validate_operation in Hr. intros Hop. rewrite Hop in Hr. destruct (re_certificate_pem r) as [pem|]; [|done].
    exists pem. split; [done|]. apply ensure_Ok in Hr. breflect. lia.
Qed.

(** A certificate just imported revalidates to itself. *)
Lemma revalidate_imported r now e : ChronoLaws -> validate_remote_entry_shape r = Ok tt -> re_operation r = OpAdd ->
  validate_registry_certificate r now = Ok e -> revalidate_entry (re_entry_id r, e) now = Ok e.
Proof.
  intros Hlaws (Hu & Hc & Hk & Hpem)%shape_Ok Hop (Hcur & Hp & Hid & Ha & Hcc & Hs & Hkk)%validate_registry_certificate_Ok.
  destruct (Hpem Hop) as (pem & Hpem' & Hlen). rewrite <- Hid. apply revalidate_current; [done..|].
  unfold entry_shape. rewrite Hid, Hcc, Hkk. assert (pem = im_certificate_pem e) as <- by congruence. done.
Qed.

Lemma load_certificate_pem_no_panic pem : no_panic (load_certificate_pem pem).
Proof. unfold load_certificate_pem, lift_err, no_panic. destruct (cert_from_pem pem); [done|]. cbn. by destruct (cert_to_der c). Qed.

Lemma get_certificate_info_no_panic der : no_panic (get_certificate_info der).
Proof. unfold get_certificate_info, load_certificate_der, lift_err, no_panic. by destruct (cert_from_der der). Qed.

Lemma validate_registry_certificate_no_panic r now : is_Some (re_certificate_pem r) -> no_panic (validate_registry_certificate r now).
Proof.
  intros [pem Hpem]. unfold validate_registry_certificate. rewrite Hpem. cbn [expect mbind res_bind].
  apply bind_no_panic; [apply map_err_no_panic, load_certificate_pem_no_panic|intros der _].
  apply bind_no_panic; [apply map_err_no_panic, get_certificate_info_no_panic|intros info _].
  unfold validate_profile.
  repeat (apply bind_no_panic; [try destruct (re_anchor_type r); auto with marty|intros]); done.
Qed.

(** ** Entries *)

(** What an operation needs, against the entries before the pages. *)
Definition operation_ok (initial_sync : bool) (now : Z) (base : gmap string ImportedRegistryEntry)
    (r : RegistryEntry) : Prop :=
  match re_operation r with
  | OpRemove => initial_sync = false /\ is_Some (base !! re_entry_id r)
  | OpAdd => exists e, validate_registry_certificate r now = Ok e
  end.

Definition res_option {E A} (r : res E A) : option A := match r with Ok a => Some a | _ => None end.

(** The entry an operation leaves under its identifier. *)
Definition operation_result (now : Z) (r : RegistryEntry) : option ImportedRegistryEntry :=
  match re_operation r with OpRemove => None | OpAdd => res_option (validate_registry_certificate r now) end.

Definition apply_operation (now : Z) (m : gmap string ImportedRegistryEntry) (r : RegistryEntry) :
    gmap string ImportedRegistryEntry :=
  partial_alter (fun _ => operation_result now r) (re_entry_id r) m.

Definition entry_ids (rs : list RegistryEntry) : list string := re_entry_id <$> rs.

Lemma apply_remote_iff ini now r st st' : apply_remote ini now r st = Ok st' <->
  (re_entry_id r ∉ sl_seen st) /\ operation_ok ini now (sl_entries st) r /\
  st' = mkSyncLoop (apply_operation now (sl_entries st) r) (sl_sequence st) (sl_page_token st)
          ({[ re_entry_id r ]} ∪ sl_seen st).
Proof.
  unfold apply_remote, operation_ok, apply_operation, operation_result. rewrite bind_Ok. split.
  - intros ([] & Hns%ensure_Ok & Hr). breflect. split; [done|]. destruct (re_operation r).
    + apply bind_Ok in Hr as (e & He & [= <-]). split; [by eexists|]. by rewrite He.
    + apply bind_Ok in Hr as ([] & Hi%ensure_Ok & Hr). apply bind_Ok in Hr as ([] & Hs%ensure_Ok & [= <-]).
      breflect. by destruct ini.
  - intros (Hns & Hop & ->). exists tt. split; [by rewrite bool_decide_false|]. destruct (re_operation r).
    + destruct Hop as [e He]. rewrite He. done.
    + destruct Hop as [-> Hs]. cbn [negb ensure mbind res_bind]. by rewrite bool_decide_true.
Qed.

Lemma apply_operation_ne now m r id : id <> re_entry_id r -> apply_operation now m r !! id = m !! id.
Proof. intros Hne. unfold apply_operation. by rewrite lookup_partial_alter_ne. Qed.

(** The entries of the pages are accepted exactly when their identifiers are
    distinct and each operation applies to the entries before the pages. *)
Lemma apply_entries_iff ini now rs : forall st st', apply_entries ini now rs st = Ok st' <->
  NoDup (entry_ids rs) /\ (forall r, r ∈ rs -> re_entry_id r ∉ sl_seen st) /\
  (forall r, r ∈ rs -> operation_ok ini now (sl_entries st) r) /\
  st' = mkSyncLoop (foldl (apply_operation now) (sl_entries st) rs) (sl_sequence st) (sl_page_token st)
          (list_to_set (entry_ids rs) ∪ sl_seen st).
Proof.
  assert (Hsame : forall m r r', re_entry_id r' <> re_entry_id r ->
    operation_ok ini now (apply_operation now m r) r' <-> operation_ok ini now m r').
  { intros m r r' Hne. unfold operation_ok. by rewrite apply_operation_ne. }
  induction rs as [|r rs IH]; intros st st'; cbn [apply_entries entry_ids fmap list_fmap foldl list_to_set].
  - split.
    + intros [= <-]. split_and!; [constructor|intros r Hr; by apply elem_of_nil in Hr..|].
      destruct st; cbn. f_equal. set_solver.
    + intros (_ & _ & _ & ->). destruct st; cbn. do 2 f_equal. set_solver.
  - rewrite bind_Ok, NoDup_cons. split.
    + intros (st1 & (Hns & Hop & ->)%apply_remote_iff & (Hnd & Hout & Hops & ->)%IH). cbn in *.
      assert (Hne : forall r', r' ∈ rs -> re_entry_id r' <> re_entry_id r) by set_solver.
      split_and!; [|done|intros r' [->|Hr']%elem_of_cons..|f_equal; set_solver].
      * intros (r' & Heq & Hr')%list_elem_of_fmap. by apply (Hne r').
      * done.
      * specialize (Hout r' Hr'). set_solver.
      * done.
      * apply (Hsame _ r); auto.
    + intros ([Hni Hnd] & Hout & Hops & ->). eexists. split; [apply apply_remote_iff; split_and!; [..|done]|].
      * apply Hout. by left.
      * apply Hops. by left.
      * assert (Hne : forall r', r' ∈ rs -> re_entry_id r' <> re_entry_id r).
        { intros r' Hr' Heq. apply Hni. apply list_elem_of_fmap. by exists r'. }
        apply IH. cbn. split_and!; [done|intros r' Hr'..|f_equal; set_solver].
        -- specialize (Hout r'). set_solver.
        -- apply Hsame; [by apply Hne|]. apply Hops. by right.
Qed.

(** The result at an identifier: its only operation, else the entry before. *)
Lemma apply_operations_lookup now rs id : forall m, NoDup (entry_ids rs) ->
  foldl (apply_operation now) m rs !! id =
  match List.find (fun r => String.eqb (re_entry_id r) id) rs with
  | Some r => operation_result now r
  | None => m !! id
  end.
Proof.
  induction rs as [|r rs IH]; intros m Hnd; [done|]. cbn [foldl List.find].
  unfold entry_ids in Hnd. rewrite fmap_cons in Hnd. apply NoDup_cons in Hnd as [Hni Hnd].
  rewrite IH by done. destruct (String.eqb_spec (re_entry_id r) id) as [<-|Hne].
  - assert (Hnone : List.find (fun r' => String.eqb (re_entry_id r') (re_entry_id r)) rs = None).
    { destruct (List.find _ rs) as [r'|] eqn:Hf; [|done].
      apply List.find_some in Hf as [Hin%list_elem_of_In Heq%String.eqb_eq].
      exfalso. apply Hni. rewrite <- Heq. by apply list_elem_of_fmap_2. }
    rewrite Hnone. unfold apply_operation. by rewrite lookup_partial_alter_eq.
  - by rewrite apply_operation_ne.
Qed.

(** ** Pages *)

(** A page that another follows says so, and the next one has another token and
    does not go back in sequence. *)
Definition feed_follows (p q : RegistryFeed) : Prop :=
  has_more p = true /\ feed_sequence p <= feed_sequence q /\ feed_sync_token p <> feed_sync_token q.

Definition head_ok (previous_sequence : Z) (initial_sync : bool) (index : Z) (st : SyncLoop)
    (p : RegistryFeed) : Prop :=
  sl_sequence st <= feed_sequence p /\ sl_page_token st <> Some (feed_sync_token p) /\
  (index = 0 -> initial_sync = false -> feed_entries p <> [] -> feed_sequence p <> previous_sequence).

Lemma check_page_iff prev ini idx total p st : check_page prev ini idx total p st = Ok tt <->
  validate_feed p = Ok tt /\ (idx + 1 < total -> has_more p = true) /\ head_ok prev ini idx st p.
Proof.
  unfold check_page, head_ok. split.
  - intros ([] & Hv & Hr)%bind_Ok. apply bind_Ok in Hr as ([] & Hm%ensure_Ok & Hr).
    apply bind_Ok in Hr as ([] & Hs%ensure_Ok & Hr). apply bind_Ok in Hr as ([] & Hf%ensure_Ok & Ht%ensure_Ok).
    split_and!; [done|intros Hlt|breflect; lia|intros Htok|intros -> -> Hne Heq].
    + destruct (has_more p); [done|]. rewrite (proj2 (Z.ltb_lt _ _) Hlt) in Hm. done.
    + rewrite Htok, String.eqb_refl in Ht. done.
    + rewrite Heq, !Z.eqb_refl, bool_decide_false in Hf; [done|]. by destruct (feed_entries p).
  - intros (Hv & Hm & Hs & Ht & Hf). rewrite Hv. cbn [mbind res_bind].
    replace (negb ((idx + 1 <? total) && negb (has_more p))) with true.
    2: { destruct (Z.ltb_spec (idx + 1) total) as [Hlt|]; [|done]. by rewrite Hm. }
    cbn [ensure mbind res_bind]. rewrite (proj2 (Z.ltb_ge _ _) Hs). cbn [negb ensure mbind res_bind].
    match goal with |- context [negb (?a && ?b && ?c && ?d)] => destruct (a && b && c && d) eqn:Hg end.
    + exfalso. rewrite !andb_true_iff in Hg. destruct Hg as [[[Hi%Z.eqb_eq Hini] Hne] Heq%Z.eqb_eq].
      apply (Hf Hi); [by destruct ini| |done]. intros Hnil. by rewrite Hnil in Hne.
    + cbn [negb ensure mbind res_bind]. destruct (sl_page_token st) as [t|]; [|done].
      destruct (String.eqb_spec t (feed_sync_token p)) as [->|]; done.
Qed.

Definition set_page (sequence : Z) (token : option string) (st : SyncLoop) : SyncLoop :=
  mkSyncLoop (sl_entries st) sequence token (sl_seen st).

Lemma apply_entries_set_page ini now rs sequence token st st' :
  apply_entries ini now rs (set_page sequence token st) = Ok st' <->
  exists st0, apply_entries ini now rs st = Ok st0 /\ st' = set_page sequence token st0.
Proof.
  rewrite apply_entries_iff. cbn. split.
  - intros (Hnd & Hout & Hops & ->). eexists. split; [apply apply_entries_iff; by split_and!|done].
  - intros (st0 & (Hnd & Hout & Hops & ->)%apply_entries_iff & ->). by split_and!.
Qed.

Lemma apply_entries_app ini now rs1 rs2 : forall st,
  apply_entries ini now (rs1 ++ rs2)%list st = (st1 ← apply_entries ini now rs1 st; apply_entries ini now rs2 st1).
Proof.
  induction rs1 as [|r rs1 IH]; intros st; [done|]. cbn [apply_entries app].
  destruct (apply_remote ini now r st); cbn [mbind res_bind]; [apply IH|done|done].
Qed.

Definition page_entries (pages : list RegistryFeed) : list RegistryEntry := concat (feed_entries <$> pages).

Definition last_page (pages : list RegistryFeed) (st : SyncLoop) : SyncLoop :=
  match last pages with
  | Some p => set_page (feed_sequence p) (Some (feed_sync_token p)) st
  | None => st
  end.

Lemma last_page_cons p pages st :
  last_page (p :: pages) st = last_page pages (set_page (feed_sequence p) (Some (feed_sync_token p)) st).
Proof. unfold last_page. rewrite last_cons. by destruct (last pages). Qed.

(** The pages are accepted exactly when each is valid, each follows the one before
    and all their entries are accepted in order. *)
Lemma page_loop_iff prev ini now total pages : forall idx st st', 0 <= idx -> total = idx + zlen pages ->
  page_loop prev ini now idx total pages st = Ok st' <->
  (forall p, p ∈ pages -> validate_feed p = Ok tt) /\ Sorted.Sorted feed_follows pages /\
  (forall p, head pages = Some p -> head_ok prev ini idx st p) /\
  exists st0, apply_entries ini now (page_entries pages) st = Ok st0 /\ st' = last_page pages st0.
Proof.
  induction pages as [|p pages IH]; intros idx st st' Hidx Htotal; cbn [page_loop page_entries fmap list_fmap concat].
  - split; [intros [= <-]|intros (_ & _ & _ & st0 & [= <-] & ->); done].
    split_and!; [intros p Hp; by apply elem_of_nil in Hp|constructor|done|by eexists].
  - assert (Hlen : zlen (p :: pages) = 1 + zlen pages) by (unfold zlen; cbn [length]; lia).
    fold (page_entries pages). split.
    + intros ([] & (Hv & Hm & Hh)%check_page_iff & (st1 & Hst1 & Hr)%bind_Ok)%bind_Ok.
      apply IH in Hr as (Hvs & Hs & Hhd & st0 & Hst0 & ->); [|lia..].
      change (apply_entries ini now (page_entries pages) (set_page (feed_sequence p) (Some (feed_sync_token p)) st1) = Ok st0) in Hst0.
      apply apply_entries_set_page in Hst0 as (st2 & Hst2 & ->). split_and!.
      * intros q [->|Hq]%elem_of_cons; auto.
      * constructor; [done|]. destruct pages as [|q pages]; constructor.
        specialize (Hhd q eq_refl) as (Hseq & Htok & _). cbn in Hseq, Htok.
        split; [|split; [done|congruence]]. apply Hm. rewrite Htotal, Hlen. unfold zlen. cbn [length]. lia.
      * intros q [= <-]. done.
      * exists st2. rewrite apply_entries_app, Hst1. split; [done|]. by rewrite last_page_cons.
    + intros (Hvs & Hs & Hhd & st0 & Hst0 & ->). apply Sorted.Sorted_inv in Hs as [Hs Hrel].
      rewrite apply_entries_app in Hst0. apply bind_Ok in Hst0 as (st1 & Hst1 & Hst2).
      apply bind_Ok. exists tt. split.
      * apply check_page_iff. split; [apply Hvs; by left|]. split; [|by apply Hhd].
        intros Hlt. destruct pages as [|q pages]; [exfalso; rewrite Htotal, Hlen in Hlt; unfold zlen in Hlt; cbn [length] in Hlt; lia|].
        by inversion Hrel as [|? ? Hf]; destruct Hf.
      * apply bind_Ok. exists st1. split; [done|]. apply IH; [lia..|]. split_and!; [intros q Hq; apply Hvs; by right|done| |].
        -- intros q Hq. destruct pages as [|q' pages]; [done|]. injection Hq as ->.
           inversion Hrel as [|? ? [_ [Hle Htok]]]; subst. split; [done|]. split; [cbn; congruence|lia].
        -- exists (set_page (feed_sequence p) (Some (feed_sync_token p)) st0). split; [|by rewrite last_page_cons].
           apply apply_entries_set_page. by exists st0.
Qed.

(** ** Synchronization *)

(** The entries that the pages change: none on an initial synchronization. *)
Definition base_entries (previous : RegistryImportState) : gmap string ImportedRegistryEntry :=
  match st_sync_token previous with None => ∅ | Some _ => st_entries previous end.

(** The entry after synchronization: what the operation on the identifier leaves,
    or the revalidated entry of the state before. *)
Definition synchronized_entry (previous : RegistryImportState) (pages : list RegistryFeed) (now : Z)
    (id : string) : option ImportedRegistryEntry :=
  match List.find (fun r => String.eqb (re_entry_id r) id) (page_entries pages) with
  | Some r => operation_result now r
  | None => e ← base_entries previous !! id; res_option (revalidate_entry (id, e) now)
  end.

(** Pages that [evaluate_pages] accepts after a state. *)
Record pages_accepted (previous : RegistryImportState) (pages : list RegistryFeed) (now : Z) : Prop := {
  pa_state : validate_state_shape previous = Ok tt;
  pa_count : 0 < zlen pages <= MAX_PAGES;
  pa_valid : forall p, p ∈ pages -> validate_feed p = Ok tt;
  pa_follow : Sorted.Sorted feed_follows pages;
  pa_first : forall p, head pages = Some p -> st_sequence previous <= feed_sequence p /\
    (is_Some (st_sync_token previous) -> feed_entries p <> [] -> st_sequence previous < feed_sequence p);
  pa_distinct : NoDup (entry_ids (page_entries pages));
  pa_operations : forall r, r ∈ page_entries pages ->
    match re_operation r with
    | OpRemove => is_Some (base_entries previous !! re_entry_id r)
    | OpAdd => exists e, validate_registry_certificate r now = Ok e
    end;
}.

Lemma page_loop_accepted previous pages now st :
  let ini := bool_decide (st_sync_token previous = None) in
  let start := mkSyncLoop (if ini then ∅ else st_entries previous) (st_sequence previous) None ∅ in
  validate_state_shape previous = Ok tt -> 0 < zlen pages <= MAX_PAGES ->
  page_loop (st_sequence previous) ini now 0 (zlen pages) pages start = Ok st <->
  pages_accepted previous pages now /\
  exists final, last pages = Some final /\
    st = mkSyncLoop (foldl (apply_operation now) (base_entries previous) (page_entries pages))
           (feed_sequence final) (Some (feed_sync_token final)) (list_to_set (entry_ids (page_entries pages)) ∪ ∅).
Proof.
  intros ini start Hshape Hlen. rewrite page_loop_iff by lia.
  assert (Hbase : sl_entries start = base_entries previous).
  { unfold start, ini, base_entries. by destruct (st_sync_token previous). }
  assert (Hops : (forall r, r ∈ page_entries pages -> operation_ok ini now (base_entries previous) r) <->
    forall r, r ∈ page_entries pages -> match re_operation r with
      | OpRemove => is_Some (base_entries previous !! re_entry_id r)
      | OpAdd => exists e, validate_registry_certificate r now = Ok e end).
  { assert (Hini : forall id, is_Some (base_entries previous !! id) -> ini = false).
    { intros id. unfold ini, base_entries. destruct (st_sync_token previous); [done|]. by intros [e He%lookup_empty_Some]. }
    split; intros Hall r Hr; specialize (Hall r Hr); unfold operation_ok in *; destruct (re_operation r); naive_solver. }
  assert (Hfirst : (forall p, head pages = Some p -> head_ok (st_sequence previous) ini 0 start p) <->
    forall p, head pages = Some p -> st_sequence previous <= feed_sequence p /\
      (is_Some (st_sync_token previous) -> feed_entries p <> [] -> st_sequence previous < feed_sequence p)).
  { assert (Hini : ini = false <-> is_Some (st_sync_token previous)).
    { unfold ini. destruct (st_sync_token previous); cbn; naive_solver. }
    unfold head_ok. cbn. split; intros Hall p Hp; destruct (Hall p Hp) as [Hle Hrest]; split; try done.
    - intros His Hne. destruct Hrest as [_ Hadv]. specialize (Hadv eq_refl (proj2 Hini His) Hne). lia.
    - split; [done|]. intros _ Hi Hne. specialize (Hrest (proj1 Hini Hi) Hne). lia. }
  assert (Hlast : exists final, last pages = Some final).
  { destruct (last pages) eqn:Hl; [by eexists|]. apply last_None in Hl as ->. unfold zlen in Hlen. cbn in Hlen. lia. }
  rewrite Hfirst. split.
  - intros (Hv & Hs & Hf & st0 & (Hnd & _ & Ho & ->)%apply_entries_iff & ->). rewrite Hbase in Ho |- *.
    split; [constructor; try done; by apply Hops|].
    destruct Hlast as [final Hl]. exists final. split; [done|]. unfold last_page. by rewrite Hl.
  - intros ([_ _ Hv Hs Hf Hnd Ho] & final & Hl & ->). split_and!; [done..|]. eexists. split.
    + apply apply_entries_iff. rewrite Hbase. split_and!; [done|set_solver|by apply Hops|reflexivity].
    + unfold last_page. by rewrite Hl.
Qed.

Lemma accepted_shape previous pages now r : pages_accepted previous pages now -> r ∈ page_entries pages ->
  validate_remote_entry_shape r = Ok tt.
Proof.
  intros Hacc (p & Hp & Hr)%elem_of_concat_fmap.
  destruct (validate_feed_entries p) as [_ Hall]; [by eapply pa_valid|]. by apply Hall.
Qed.

Lemma find_operation rs id : match List.find (fun r => String.eqb (re_entry_id r) id) rs with
  | Some r => r ∈ rs /\ re_entry_id r = id
  | None => id ∉ entry_ids rs
  end.
Proof.
  destruct (List.find _ rs) as [r|] eqn:Hf.
  - apply List.find_some in Hf as [Hin%list_elem_of_In Heq%String.eqb_eq]. done.
  - intros (r & -> & Hr%list_elem_of_In)%list_elem_of_fmap. pose proof (List.find_none _ _ Hf r Hr) as Hne.
    cbn in Hne. by rewrite String.eqb_refl in Hne.
Qed.

(** Revalidation after the pages keeps what they added and revalidates the rest. *)
Lemma revalidate_synchronized previous pages now m : ChronoLaws -> pages_accepted previous pages now ->
  revalidate_entries (foldl (apply_operation now) (base_entries previous) (page_entries pages)) now = Ok m <->
  (forall id e, base_entries previous !! id = Some e -> id ∉ entry_ids (page_entries pages) ->
     exists e', revalidate_entry (id, e) now = Ok e') /\
  (forall id, m !! id = synchronized_entry previous pages now id).
Proof.
  intros Hlaws Hacc. set (m0 := foldl _ _ _).
  pose proof (fun id => apply_operations_lookup now (page_entries pages) id (base_entries previous) (pa_distinct _ _ _ Hacc)) as Hm0.
  fold m0 in Hm0. assert (Hadd : forall id r, List.find (fun r => String.eqb (re_entry_id r) id) (page_entries pages) = Some r ->
    forall e, operation_result now r = Some e -> revalidate_entry (id, e) now = Ok e).
  { intros id r Hf e He. pose proof (find_operation (page_entries pages) id) as Hr. rewrite Hf in Hr. destruct Hr as [Hr <-].
    unfold operation_result in He. destruct (re_operation r) eqn:Hop; [|done].
    destruct (validate_registry_certificate r now) as [e0| |] eqn:Hv; [|done..]. injection He as ->.
    apply revalidate_imported; [done|by eapply accepted_shape|done|done]. }
  assert (Honly : forall m', revalidate_entries m0 now = Ok m' ->
    (forall id e, base_entries previous !! id = Some e -> id ∉ entry_ids (page_entries pages) ->
       exists e', revalidate_entry (id, e) now = Ok e') /\
    forall id, m' !! id = synchronized_entry previous pages now id).
  { intros m' Hr. pose proof (revalidate_entries_Ok _ _ _ Hr) as Hm. split.
    - intros id e He Hni. specialize (Hm id). rewrite Hm0 in Hm. pose proof (find_operation (page_entries pages) id) as Hf.
      destruct (List.find _ (page_entries pages)) as [r|].
      + destruct Hf as [Hin <-]. exfalso. by apply Hni, list_elem_of_fmap_2.
      + rewrite He in Hm. naive_solver.
    - intros id. unfold synchronized_entry. specialize (Hm id). rewrite Hm0 in Hm.
      destruct (List.find _ (page_entries pages)) as [r|] eqn:Hf.
      + destruct (operation_result now r) as [e|] eqn:He; [|done].
        destruct Hm as (e' & He' & ->). rewrite (Hadd id r Hf e He) in He'. congruence.
      + destruct (base_entries previous !! id) as [e|]; [|done]. destruct Hm as (e' & He' & ->). cbn [mbind option_bind]. by rewrite He'. }
  split; [apply Honly|]. intros [Hrest Hm].
  destruct (revalidate_loop_total (btree_bindings m0) now ∅) as [m' Hm'].
  - intros id e Hin%elem_of_btree_bindings. rewrite Hm0 in Hin. pose proof (find_operation (page_entries pages) id) as Hni.
    destruct (List.find _ (page_entries pages)) as [r|] eqn:Hf; [exists e; by eapply Hadd|by eapply Hrest].
  - unfold revalidate_entries. rewrite Hm'. f_equal. destruct (Honly m' Hm') as [_ Heq].
    apply map_eq. intros id. by rewrite Heq, Hm.
Qed.

(** The evaluation, unfolded once. *)
Lemma evaluate_pages_complete previous pages now ev :
  evaluate_pages previous pages now = Ok ev <->
  pages_accepted previous pages now /\ exists final, last pages = Some final /\
  if has_more final
  then zlen pages < MAX_PAGES /\ ev = mkEvaluation false (zlen pages) (feed_sync_token final) None
  else exists m, revalidate_entries (foldl (apply_operation now) (base_entries previous) (page_entries pages)) now = Ok m /\
    ev = mkEvaluation true (zlen pages) (feed_sync_token final)
           (Some (mkImportState (Some (feed_sync_token final)) (feed_sequence final) m (Some now))).
Proof.
  unfold evaluate_pages. split.
  - intros ([] & Hshape & Hr)%bind_Ok. apply bind_Ok in Hr as ([] & Hne%ensure_Ok & Hr).
    apply bind_Ok in Hr as ([] & Hmax%ensure_Ok & Hr). apply bind_Ok in Hr as (st & Hst & Hr).
    apply page_loop_accepted in Hst as (Hacc & final & Hl & ->); [|done|unfold zlen in *; breflect; lia].
    split; [done|]. exists final. split; [done|]. rewrite Hl in Hr. cbn [expect mbind res_bind] in Hr.
    destruct (has_more final).
    + apply bind_Ok in Hr as ([] & Hlim%ensure_Ok & [= <-]). split; [|done].
      apply negb_true_iff, Z.eqb_neq in Hlim. pose proof (pa_count _ _ _ Hacc). lia.
    + apply bind_Ok in Hr as (m & Hm & [= <-]). by exists m.
  - intros (Hacc & final & Hl & Hfin). destruct (Hacc) as [Hshape Hcount _ _ _ _ _].
    rewrite Hshape. cbn [mbind res_bind]. rewrite (proj2 (Z.eqb_neq (zlen pages) 0)) by lia. cbn [negb ensure mbind res_bind].
    rewrite (proj2 (Z.ltb_ge MAX_PAGES (zlen pages))) by lia. cbn [negb ensure mbind res_bind].
    rewrite (proj2 (page_loop_accepted previous pages now _ Hshape Hcount)) by (split; [done|by exists final]).
    cbn [mbind res_bind]. rewrite Hl. cbn [expect mbind res_bind]. destruct (has_more final).
    + destruct Hfin as [Hlt ->]. by rewrite (proj2 (Z.eqb_neq (zlen pages) MAX_PAGES)) by lia.
    + destruct Hfin as (m & Hm & ->). cbn [sl_entries sl_sequence]. by rewrite Hm.
Qed.

(** C9: A synchronization completes exactly on accepted pages whose last one ends it,
    when every entry that they leave alone still revalidates; the new state has the
    token and the sequence of the last page, and under each identifier what its only
    operation says: the imported certificate, nothing after a removal, and otherwise
    the revalidated entry of the state before (of no entry, on an initial one). *)
Theorem registry_sync_exact `{!ChronoLaws} previous pages now n tok s :
  evaluate_pages previous pages now = Ok (mkEvaluation true n tok (Some s)) <->
  pages_accepted previous pages now /\
  (forall id e, base_entries previous !! id = Some e -> id ∉ entry_ids (page_entries pages) ->
     exists e', revalidate_entry (id, e) now = Ok e') /\
  (exists final, last pages = Some final /\ has_more final = false /\
     tok = feed_sync_token final /\ st_sequence s = feed_sequence final) /\
  n = zlen pages /\ st_sync_token s = Some tok /\ synchronized_at s = Some now /\
  forall id, st_entries s !! id = synchronized_entry previous pages now id.
Proof.
  rewrite evaluate_pages_complete. split.
  - intros (Hacc & final & Hl & Hr). destruct (has_more final) eqn:Hmore; [by destruct Hr|].
    destruct Hr as (m & [Hrest Hm]%revalidate_synchronized & [= -> -> ->]); [|done..]. cbn.
    split_and!; try done. by exists final.
  - intros (Hacc & Hrest & (final & Hl & Hmore & -> & Hseq) & -> & Htok & Hat & Hm). split; [done|].
    exists final. split; [done|]. rewrite Hmore. exists (st_entries s).
    split; [by apply revalidate_synchronized|]. destruct s; cbn in *; congruence.
Qed.

Lemma last_sequence pages : forall p q, Sorted.Sorted feed_follows pages ->
  head pages = Some p -> last pages = Some q -> feed_sequence p <= feed_sequence q.
Proof.
  induction pages as [|a [|b pages] IH]; intros p q Hs [= <-] Hl.
  - injection Hl as <-. lia.
  - apply Sorted.Sorted_inv in Hs as [Hs Hrel]. inversion Hrel as [|? ? [_ [Hle _]]]; subst.
    specialize (IH b q Hs eq_refl). rewrite last_cons_cons in Hl. specialize (IH Hl). lia.
Qed.

Lemma stored_entry_ok id e : im_entry_id e = id -> entry_shape e -> validate_stored_entry (id, e) = Ok tt.
Proof.
  intros <- (Hu & Hc & _ & Hlen). cbn [validate_stored_entry]. rewrite String.eqb_refl, Hu. cbn [andb ensure mbind res_bind].
  rewrite Hc. cbn [map_err mbind res_bind]. apply ensure_Ok. breflect. lia.
Qed.

Lemma completed_state previous pages now ev s : evaluate_pages previous pages now = Ok ev -> ev_state ev = Some s ->
  exists final m0, pages_accepted previous pages now /\ last pages = Some final /\
    revalidate_entries m0 now = Ok (st_entries s) /\
    s = mkImportState (Some (feed_sync_token final)) (feed_sequence final) (st_entries s) (Some now).
Proof.
  intros (Hacc & final & Hl & Hr)%evaluate_pages_complete Hs. destruct (has_more final).
  - destruct Hr as [_ ->]. done.
  - destruct Hr as (m & Hm & ->). injection Hs as <-. by eexists final, _.
Qed.

Lemma current_entries m0 m now : revalidate_entries m0 now = Ok m ->
  forall id e, m !! id = Some e -> im_entry_id e = id /\ current_certificate e now /\ entry_shape e.
Proof.
  intros Hm id e He. pose proof (revalidate_entries_Ok _ _ _ Hm id) as Hid.
  destruct (m0 !! id) as [e0|]; [|congruence]. destruct Hid as (e' & He' & Hid).
  assert (e' = e) as -> by congruence. by apply revalidate_entry_sound in He'.
Qed.

(** C30: The state that synchronization leaves is one that it accepts again: its shape
    is valid, its sequence is not before the one it had, each entry is stored under
    its identifier with a current certificate of its profile, and revalidation at
    the same time and an empty page at its sequence change nothing but the token. *)
Theorem registry_sync_invariant `{!ChronoLaws} previous pages now ev s token generated :
  evaluate_pages previous pages now = Ok ev -> ev_state ev = Some s -> token_ok token = true ->
  validate_state_shape s = Ok tt /\ st_sequence previous <= st_sequence s /\
  (forall id e, st_entries s !! id = Some e -> im_entry_id e = id /\ current_certificate e now) /\
  revalidate_entries (st_entries s) now = Ok (st_entries s) /\
  evaluate_pages s [mkFeed token (st_sequence s) [] false generated] now =
    Ok (mkEvaluation true 1 token (Some (mkImportState (Some token) (st_sequence s) (st_entries s) (Some now)))).
Proof.
  intros Hev Hs Htoken. destruct (completed_state _ _ _ _ _ Hev Hs) as (final & m0 & Hacc & Hl & Hm & Heq).
  pose proof (current_entries _ _ _ Hm) as Hcur.
  pose proof (revalidate_entries_stable _ _ _ _ Hm) as Hstable.
  assert (Hshape : validate_state_shape s = Ok tt).
  { unfold validate_state_shape. rewrite Heq. cbn [st_sync_token st_entries].
    destruct (validate_feed_entries final) as [-> _]; [eapply pa_valid; [done|]; by apply last_Some_elem_of|].
    cbn [ensure mbind res_bind]. apply all_ok_iff. intros [id e] Hin%elem_of_btree_bindings.
    destruct (Hcur id e Hin) as (Hid & _ & Hsh). by apply stored_entry_ok. }
  split; [done|]. split.
  { destruct pages as [|p pages]; [done|]. rewrite Heq. cbn [st_sequence].
    pose proof (last_sequence _ _ _ (pa_follow _ _ _ Hacc) eq_refl Hl).
    destruct (pa_first _ _ _ Hacc p eq_refl). lia. }
  split; [intros id e He; destruct (Hcur id e He) as (? & ? & _); done|]. split; [done|].
  apply evaluate_pages_complete. split; [constructor; cbn|].
  - done.
  - unfold zlen, MAX_PAGES. cbn. lia.
  - intros p ->%list_elem_of_singleton. unfold validate_feed. cbn [feed_sync_token feed_entries]. by rewrite Htoken.
  - repeat constructor.
  - intros p [= <-]. split; [done|]. done.
  - constructor.
  - intros r Hr. by apply elem_of_nil in Hr.
  - eexists. split; [done|]. cbn [has_more]. eexists. split; [|done].
    unfold base_entries, page_entries. rewrite Heq at 1. cbn. done.
Qed.

(** *** No panic *)

Lemma revalidate_entries_no_panic m now : no_panic (revalidate_entries m now).
Proof.
  unfold revalidate_entries. generalize (∅ : gmap string ImportedRegistryEntry).
  induction (btree_bindings m) as [|[id e] bs IH]; intros v; cbn [revalidate_loop]; [done|].
  apply bind_no_panic; [|done]. unfold revalidate_entry, parse_optional_time, validate_remote_entry_shape, validate_operation, validate_country.
  apply bind_no_panic; [auto with marty|intros _ _].
  apply bind_no_panic; [destruct (im_not_before e); repeat solve_no_panic|intros nb _].
  apply bind_no_panic; [destruct (im_not_after e); repeat solve_no_panic|intros na _].
  apply bind_no_panic; [apply map_err_no_panic; repeat solve_no_panic|intros _ _].
  by apply validate_registry_certificate_no_panic.
Qed.

Lemma apply_entries_no_panic ini now rs : (forall r, r ∈ rs -> validate_remote_entry_shape r = Ok tt) ->
  forall st, no_panic (apply_entries ini now rs st).
Proof.
  induction rs as [|r rs IH]; intros Hall st; cbn [apply_entries]; [done|].
  apply bind_no_panic; [|intros st' _; apply IH; intros r' Hr'; apply Hall; by right].
  unfold apply_remote. apply bind_no_panic; [auto with marty|intros _ _].
  destruct (re_operation r) eqn:Hop; [|solve_no_panic].
  apply bind_no_panic; [|done]. apply validate_registry_certificate_no_panic.
  destruct (shape_Ok r) as (_ & _ & _ & Hpem); [apply Hall; by left|]. destruct (Hpem Hop) as (pem & -> & _). done.
Qed.

Lemma validate_feed_no_panic p : no_panic (validate_feed p).
Proof.
  unfold validate_feed. do 2 (apply bind_no_panic; [auto with marty|intros _ _]). apply all_ok_no_panic.
  intros r. unfold validate_remote_entry_shape, validate_operation, validate_country. solve_no_panic.
Qed.

Lemma page_loop_no_panic prev ini now total pages : forall idx st, no_panic (page_loop prev ini now idx total pages st).
Proof.
  induction pages as [|p pages IH]; intros idx st; cbn [page_loop]; [done|]. apply bind_no_panic.
  - unfold check_page. apply bind_no_panic; [apply validate_feed_no_panic|intros _ _]. solve_no_panic.
  - intros [] (Hv & _)%check_page_iff. apply bind_no_panic; [|done]. apply apply_entries_no_panic.
    by apply validate_feed_entries.
Qed.

(** Evaluation never panics: every page passed validation before the [expect] on
    a certificate of one of its entries, and there is a last page. *)
Theorem registry_sync_no_panic previous pages now : no_panic (evaluate_pages previous pages now).
Proof.
  unfold evaluate_pages. apply bind_no_panic.
  { unfold validate_state_shape. apply bind_no_panic; [auto with marty|intros _ _]. apply all_ok_no_panic.
    intros [id e]. cbn [validate_stored_entry]. unfold validate_country.
    apply bind_no_panic; [auto with marty|intros _ _]. apply bind_no_panic; [apply map_err_no_panic|]; auto with marty. }
  intros _ _. apply bind_no_panic; [auto with marty|intros [] Hne%ensure_Ok].
  apply bind_no_panic; [auto with marty|intros _ _]. apply bind_no_panic; [apply page_loop_no_panic|intros st _].
  destruct (last pages) as [final|] eqn:Hl.
  - cbn [expect mbind res_bind]. destruct (has_more final); [solve_no_panic|].
    apply bind_no_panic; [apply revalidate_entries_no_panic|done].
  - apply last_None in Hl as ->. done.
Qed.
End sync.

(** ** Concrete runs *)

Module ToySync.

(** A certificate is its text; an authority's has the extensions of one. *)
#[local] Instance toy_sync_x509 : X509 := {|
  Name := string;
  name_text n := n;
  name_to_der n := inr (str_bytes n);
  Certificate := string;
  cert_subject c := c;
  cert_issuer c := c;
  cert_serial c := str_bytes c;
  cert_not_before _ := 0;
  cert_not_after _ := 0;
  tbs_signature _ := mkAlg "1.2.840.10045.4.3.2" None;
  signature_algorithm _ := mkAlg "1.2.840.10045.4.3.2" None;
  cert_signature c := None;
  cert_extensions c :=
    Some (if String.prefix "ca" c
          then [mkExt ID_CE_BASIC_CONSTRAINTS true []; mkExt ID_CE_KEY_USAGE true [6]]
          else [mkExt ID_CE_KEY_USAGE true [0]]);
  subject_public_key c := str_bytes c;
  tbs_to_der c := inr (str_bytes c);
  spki_to_der c := inr (str_bytes c);
  cert_to_der c := inr (str_bytes c);
  cert_from_der d := inr (str_of_bytes d);
  cert_from_pem s := if String.eqb s "" then inl "empty" else inr s;
  get_basic_constraints c := inr None;
  get_key_usage _ := inr None;
  get_extended_key_usage _ := inr None;
  bit_string_from_der d := inr d |}.

#[local] Instance toy_details : X509Details := {|
  not_before_fields _ := mkDerDateTime 2020 1 1 0 0 0;
  not_after_fields _ := mkDerDateTime 2040 1 1 0 0 0;
  decode_basic_constraints _ := inr (mkBasic true None);
  decode_key_usage v :=
    inr (let signs := bool_decide (v = [6]) in mkKeyUsageFlags (negb signs) false false false false signs false);
  decode_subject_key_identifier v := inr v;
  decode_authority_key_identifier v := inr None;
  decode_subject_alt_name v := inr [];
  decode_crl_distribution_points v := inr [] |}.

#[local] Instance toy_sha1 : Sha1 := fun m => m.
#[local] Instance toy_sha2 : Sha2 := {| sha256_of m := m; sha384_of m := m; sha512_of m := m |}.

#[local] Instance toy_rfc3339 : Rfc3339 := fun s =>
  if String.eqb s "2020-01-01T00:00:00Z" then Some 0
  else if String.eqb s "2040-01-01T00:00:00Z" then Some (10 ^ 18)
  else None.
#[local] Instance toy_chrono : Chrono := {|
  checked_add_seconds t s := Some (t + s * 1000000000);
  to_rfc3339 t := if t =? 0 then "2020-01-01T00:00:00Z" else "2040-01-01T00:00:00Z" |}.
#[local] Instance toy_chrono_laws : ChronoLaws.
Proof.
  split.
  - intros dt t. unfold parse_rfc3339 at 1, toy_rfc3339. destruct (String.eqb _ _); [by intros [= <-]|].
    destruct (String.eqb _ _); [by intros [= <-]|done].
  - intros t s u [= <-]. done.
Qed.
#[local] Instance toy_uuid : UuidLib := fun s => negb (String.eqb s "").

Definition add (id pem : string) (anchor : AnchorType) : RegistryEntry :=
  mkRegistryEntry id anchor OpAdd "DE" (Some pem) None (Some 0) None SrcIcaoPkd.
Definition remove (id : string) : RegistryEntry :=
  mkRegistryEntry id AnchorDsc OpRemove "DE" None None None None SrcIcaoPkd.

Definition empty_state : RegistryImportState := mkImportState None 0 ∅ None.
Definition first_pages : list RegistryFeed :=
  [mkFeed "t1" 4 [add "1" "ca" AnchorCsca] true 0; mkFeed "t2" 5 [add "2" "signer" AnchorDsc] false 0].
Definition state_of (r : res TrustSyncError RegistryEvaluation) : RegistryImportState :=
  match r with Ok ev => default empty_state (ev_state ev) | _ => empty_state end.
Definition first_state : RegistryImportState := state_of (evaluate_pages empty_state first_pages 1).
Definition next_pages : list RegistryFeed :=
  [mkFeed "t3" 6 [remove "1"; add "3" "other" AnchorDsc] false 0].

Example sample_syncs :
  (fun s => (st_sequence s, st_sync_token s, fst <$> btree_bindings (st_entries s)))
    <$> [first_state; state_of (evaluate_pages first_state next_pages 2)]
  = [(5, Some "t2", ["1"; "2"]); (6, Some "t3", ["2"; "3"])].
Proof. vm_compute. reflexivity. Qed.

Definition next_state : RegistryImportState := state_of (evaluate_pages first_state next_pages 2).

Lemma first_run : evaluate_pages empty_state first_pages 1 = Ok (mkEvaluation true 2 "t2" (Some first_state)).
Proof. vm_compute. reflexivity. Qed.

Lemma next_run : evaluate_pages first_state next_pages 2 = Ok (mkEvaluation true 1 "t3" (Some next_state)).
Proof. vm_compute. reflexivity. Qed.

Lemma registry_sync_exact_witness :
  (forall id, st_entries next_state !! id = synchronized_entry first_state next_pages 2 id) /\
  pages_accepted first_state next_pages 2.
Proof.
  destruct (proj1 (registry_sync_exact first_state next_pages 2 1 "t3" next_state) next_run)
    as (Hacc & _ & _ & _ & _ & _ & Hm).
  split; [exact Hm|exact Hacc].
Defined.

Lemma registry_sync_invariant_witness :
  validate_state_shape first_state = Ok tt /\ 0 <= st_sequence first_state /\
  revalidate_entries (st_entries first_state) 1 = Ok (st_entries first_state).
Proof.
  destruct (registry_sync_invariant empty_state first_pages 1 _ first_state "t9" 0 first_run eq_refl eq_refl)
    as (Hshape & Hseq & _ & Hre & _).
  split; [exact Hshape|]. split; [exact Hseq|exact Hre].
Defined.

(** Changes at an unchanged sequence are refused on the first page only: after an
    empty first page at the sequence of the state, the next page changes entries at
    that sequence and is accepted. *)
Theorem unadvanced_sequence_accepted :
  (exists e, evaluate_pages first_state [mkFeed "t4" 5 [remove "1"] false 0] 2
             = Err (sync_error "SEQUENCE_NOT_ADVANCED" e)) /\
  exists ev s, evaluate_pages first_state [mkFeed "t4" 5 [] true 0; mkFeed "t5" 5 [remove "1"] false 0] 2 = Ok ev /\
    ev_state ev = Some s /\ st_sequence s = st_sequence first_state /\ st_entries s !! "1" = None /\
    is_Some (st_entries first_state !! "1").
Proof.
  split; [eexists; vm_compute; reflexivity|]. eexists _, _. split; [vm_compute; reflexivity|].
  split; [reflexivity|]. split; [reflexivity|]. split; [reflexivity|]. eexists. vm_compute. reflexivity.
Qed.
End ToySync.
