(* ===== verification/TrustDestinationFacts.v ===== *)
(** * Destinations of synchronization: theorems (marty-verification, [trust_sync.rs])

    The addresses that may be contacted, against the address blocks they stand for:
    a destination is accepted exactly when each of its addresses is public, or is
    private and the operator allows its host. *)

From stdpp Require Import gmap strings pretty.
From S2P Require Import Prelude Des Governance CanonicalJsonFacts RustNet PolicyService SecureMessaging CryptoKit X509 DeviceAuth CertInfo TrustSync TrustSyncFacts.
Local Open Scope string_scope.
Local Open Scope Z_scope.

(** ** Parsed addresses are in range *)

Lemma to_digit_range radix c d : to_digit radix c = Some d -> 0 <= d < radix.
Proof.
  unfold to_digit. intros (d' & Hd & Hlt)%bind_Some. destruct (d' <? radix) eqn:E; [|done]. injection Hlt as <-.
  apply Z.ltb_lt in E. split; [|done]. unfold to_digit16 in Hd.
  repeat case_match; simplify_eq; breflect; lia.
Qed.

Lemma read_digits_range radix limit digits s : forall acc count v n rest,
  0 <= acc <= limit -> read_digits radix limit digits acc count s = Some (v, n, rest) -> 0 <= v <= limit.
Proof.
  induction s as [|c s IH]; intros acc count v n rest Hacc; cbn [read_digits]; [intros [= <- _ _]; lia|].
  destruct (to_digit radix c) as [d|] eqn:Hd; [|intros [= <- _ _]; lia]. apply to_digit_range in Hd.
  destruct (Z.ltb_spec limit (acc * radix + d)); [done|]. destruct (digits <? count + 1); [done|].
  apply IH. nia.
Qed.

Lemma read_number_range radix limit digits zero s v rest : 0 <= limit ->
  read_number radix limit digits zero s = Some (v, rest) -> 0 <= v <= limit.
Proof.
  intros Hl. unfold read_number. intros ([[v' n] r] & Hd & Hr)%bind_Some. cbn in Hr.
  apply read_digits_range in Hd; [|lia]. repeat case_match; simplify_eq; lia.
Qed.

Lemma read_ipv4_range s a b c d rest : read_ipv4_addr s = Some (a, b, c, d, rest) ->
  octet_ok a /\ octet_ok b /\ octet_ok c /\ octet_ok d.
Proof.
  unfold read_ipv4_addr. intros ([a' s1] & Ha & Hr)%bind_Some. apply bind_Some in Hr as (s2 & _ & Hr).
  apply bind_Some in Hr as ([b' s3] & Hb & Hr). apply bind_Some in Hr as (s4 & _ & Hr).
  apply bind_Some in Hr as ([c' s5] & Hc & Hr). apply bind_Some in Hr as (s6 & _ & Hr).
  apply bind_Some in Hr as ([d' s7] & Hd & Hr). injection Hr as <- <- <- <- _.
  apply read_number_range in Ha, Hb, Hc, Hd; [|lia..]. unfold octet_ok. lia.
Qed.

Definition segments_ok (l : list Z) : Prop := Forall (fun s => 0 <= s < 65536) l.

Lemma read_separator_inner {A} i (inner : list Z -> option A) s x :
  read_separator i inner s = Some x -> exists s', inner s' = Some x.
Proof. unfold read_separator. destruct (i =? 0)%nat; [by exists s|]. intros (s' & _ & Hs)%bind_Some. by exists s'. Qed.

Lemma read_groups_ok fuel : forall i limit s gs v4 rest, (i + fuel = limit)%nat ->
  read_groups fuel i limit s = (gs, v4, rest) -> segments_ok gs /\ (length gs <= fuel)%nat.
Proof.
  induction fuel as [|fuel IH]; intros i limit s gs v4 rest Hi; cbn [read_groups].
  { intros [= <- _ _]. split; [constructor|done]. }
  assert (Hgroup : forall gs v4 rest,
    match read_separator i (read_number 16 65535 4 true) s with
    | Some (g, r) => let '(gs, v4, r) := read_groups fuel (S i) limit r in (g :: gs, v4, r)
    | None => ([], false, s)
    end = (gs, v4, rest) -> segments_ok gs /\ (length gs <= S fuel)%nat).
  { intros gs0 v0 r0. destruct (read_separator _ _ _) as [[g s1]|] eqn:Hg.
    - apply read_separator_inner in Hg as [s' Hg%read_number_range]; [|lia].
      destruct (read_groups fuel (S i) limit s1) as [[gs1 v1] r1] eqn:Hrest. intros [= <- _ _].
      apply IH in Hrest as [Hs Hl]; [|lia]. split; [constructor; [lia|done]|cbn; lia].
    - intros [= <- _ _]. split; [constructor|cbn; lia]. }
  destruct (Nat.ltb_spec i (limit - 1)); [|apply Hgroup].
  destruct (read_separator i read_ipv4_addr s) as [[[[[a b] c] d] r]|] eqn:Hv4; [|apply Hgroup].
  apply read_separator_inner in Hv4 as [s' (Ha & Hb & Hc & Hd)%read_ipv4_range]. intros [= <- _ _].
  unfold octet_ok in *. split; [repeat constructor; lia|cbn; lia].
Qed.

Lemma ip_from_str_ok text ip : ip_from_str text = Some ip -> ip_ok ip.
Proof.
  unfold ip_from_str. destruct (read_ipv4_addr (str_bytes text)) as [[[[[a b] c] d] r]|] eqn:H4.
  - apply read_ipv4_range in H4. destruct r; [|done]. by intros [= <-].
  - destruct (read_ipv6_addr (str_bytes text)) as [[segs r]|] eqn:H6; [|done]. destruct r; [|done]. intros [= <-].
    unfold read_ipv6_addr in H6. destruct (read_groups 8 0 8 _) as [[gs v4] r1] eqn:Hg.
    apply read_groups_ok in Hg as [Hs Hl]; [|done]. destruct (Nat.eqb_spec (length gs) 8).
    { injection H6 as <- _. done. }
    destruct v4; [done|]. apply bind_Some in H6 as (r2 & _ & H6). apply bind_Some in H6 as (r3 & _ & H6).
    destruct (read_groups (8 - (length gs + 1)) 0 _ r3) as [[tl v5] r4] eqn:Ht.
    apply read_groups_ok in Ht as [Hts Htl]; [|done]. injection H6 as <- _. split.
    + rewrite !length_app, length_replicate. lia.
    + apply Forall_app. split; [done|]. apply Forall_app. split; [|done]. apply Forall_replicate. lia.
Qed.

(** ** Address blocks *)

(** The 32-bit number of an IPv4 address and the block of a network with a prefix. *)
Definition v4_number (a b c d : Z) : Z := a * 2 ^ 24 + b * 2 ^ 16 + c * 2 ^ 8 + d.
Definition in_block (address : Z) (block : Z * Z) : Prop :=
  address / 2 ^ (32 - block.2) = block.1 / 2 ^ (32 - block.2).

Definition private_blocks : list (Z * Z) :=
  [(v4_number 10 0 0 0, 8); (v4_number 172 16 0 0, 12); (v4_number 192 168 0 0, 16)].
Definition special_blocks : list (Z * Z) :=
  [(v4_number 0 0 0 0, 8); (v4_number 127 0 0 0, 8); (v4_number 100 64 0 0, 10); (v4_number 169 254 0 0, 16);
   (v4_number 192 0 0 0, 16); (v4_number 198 18 0 0, 15); (v4_number 198 51 100 0, 24);
   (v4_number 203 0 113 0, 24); (v4_number 224 0 0 0, 3)].

(** The first 16 bits of an IPv6 address are in the range of a prefix. *)
Definition first_in (lo hi : Z) (segments : list Z) : Prop := lo <= segment 0 segments <= hi.

(** Private: 10/8, 172.16/12, 192.168/16 and fc00::/7. *)
Definition private_address (ip : IpAddr) : Prop :=
  match ip with
  | V4 a b c d => Exists (in_block (v4_number a b c d)) private_blocks
  | V6 segments => first_in 0xfc00 0xfdff segments
  end.

(** Public: outside the private and special IPv4 blocks; in 2000::/3 but not in
    2001:db8::/32. *)
Definition public_address (ip : IpAddr) : Prop :=
  match ip with
  | V4 a b c d => ~ Exists (in_block (v4_number a b c d)) (private_blocks ++ special_blocks)
  | V6 segments => first_in 0x2000 0x3fff segments /\ ~ (segment 0 segments = 0x2001 /\ segment 1 segments = 0xdb8)
  end.

(** The blocks of an address, by its octets. *)
Lemma block_octets a b c d : octet_ok a -> octet_ok b -> octet_ok c -> octet_ok d ->
  let n := v4_number a b c d in
  (forall x, octet_ok x -> in_block n (v4_number x 0 0 0, 8) <-> a = x) /\
  (forall x y, octet_ok x -> octet_ok y -> in_block n (v4_number x y 0 0, 16) <-> a = x /\ b = y) /\
  (forall x y z, octet_ok x -> octet_ok y -> octet_ok z -> in_block n (v4_number x y z 0, 24) <-> a = x /\ b = y /\ c = z) /\
  (in_block n (v4_number 172 16 0 0, 12) <-> a = 172 /\ 16 <= b <= 31) /\
  (in_block n (v4_number 100 64 0 0, 10) <-> a = 100 /\ 64 <= b <= 127) /\
  (in_block n (v4_number 198 18 0 0, 15) <-> a = 198 /\ 18 <= b <= 19) /\
  (in_block n (v4_number 224 0 0 0, 3) <-> 224 <= a).
Proof.
  intros Ha Hb Hc Hd n. unfold in_block, n, v4_number, octet_ok in *. cbn [fst snd].
  change (2 ^ (32 - 8)) with 16777216. change (2 ^ (32 - 16)) with 65536. change (2 ^ (32 - 24)) with 256.
  change (2 ^ (32 - 12)) with 1048576. change (2 ^ (32 - 10)) with 4194304. change (2 ^ (32 - 15)) with 131072.
  change (2 ^ (32 - 3)) with 536870912. change (2 ^ 24) with 16777216. change (2 ^ 16) with 65536. change (2 ^ 8) with 256.
  split_and!; intros; Z.to_euclidean_division_equations; lia.
Qed.

(** [l & mask] selects a range when the mask is a prefix of 16 bits. *)
Lemma prefix_range (k x : Z) : 0 <= k <= 16 -> 0 <= x < 65536 ->
  Z.land x (65536 - 2 ^ k) = x / 2 ^ k * 2 ^ k.
Proof.
  intros Hk Hx. replace (65536 - 2 ^ k) with (Z.shiftl (Z.ones (16 - k)) k).
  2: { rewrite Z.shiftl_mul_pow2, Z.ones_equiv by lia. rewrite Z.mul_pred_l, <- Z.pow_add_r by lia.
       replace (16 - k + k) with 16 by lia. lia. }
  rewrite <- (Z.shiftr_div_pow2 x k), <- Z.shiftl_mul_pow2 by lia. apply Z.bits_inj'. intros i Hi.
  rewrite Z.land_spec, !Z.shiftl_spec by done. destruct (Z.ltb_spec i k).
  - rewrite !(Z.testbit_neg_r _ (i - k)) by lia. by rewrite andb_false_r.
  - rewrite Z.shiftr_spec by lia. replace (i - k + k) with i by lia. rewrite Z.testbit_ones_nonneg by lia.
    destruct (Z.ltb_spec (i - k) (16 - k)); [by rewrite andb_true_r|]. rewrite andb_false_r. symmetry.
    destruct (decide (x = 0)) as [->|Hne]; [apply Z.testbit_0_l|]. apply Z.bits_above_log2; [lia|].
    apply Z.log2_lt_pow2; [lia|]. eapply Z.lt_le_trans; [apply Hx|]. change 65536 with (2 ^ 16).
    apply Z.pow_le_mono_r; lia.
Qed.

Lemma segment_range i segments : segments_ok segments -> 0 <= segment i segments < 65536.
Proof.
  intros Hs. unfold segment. destruct (segments !! i) as [x|] eqn:Hx; cbn; [|lia].
  by eapply (Forall_lookup_1 _ _ i x) in Hs.
Qed.

Lemma is_private_iff ip : ip_ok ip -> is_private ip = true <-> private_address ip.
Proof.
  destruct ip as [a b c d|segs]; cbn [is_private private_address ip_ok].
  - intros (Ha & Hb & Hc & Hd). destruct (block_octets a b c d) as (H8 & H16 & _ & H12 & _); [done..|].
    unfold private_blocks. rewrite !Exists_cons, Exists_nil, H8, H12, H16 by (unfold octet_ok; lia).
    unfold v4_is_private. rewrite !orb_true_iff, !andb_true_iff, !Z.eqb_eq, !Z.leb_le. lia.
  - intros [_ Hs]. pose proof (segment_range 0 segs Hs) as Hr. unfold first_in.
    pose proof (prefix_range 9 (segment 0 segs)) as Hp. change (65536 - 2 ^ 9) with 65024 in Hp.
    rewrite Z.eqb_eq, Hp by lia. change (2 ^ 9) with 512. Z.to_euclidean_division_equations. lia.
Qed.

Lemma is_global_iff ip : ip_ok ip -> is_global ip = true <-> public_address ip.
Proof.
  destruct ip as [a b c d|segs]; cbn [is_global public_address ip_ok].
  - intros (Ha & Hb & Hc & Hd). destruct (block_octets a b c d) as (H8 & H16 & H24 & H12 & H10 & H15 & H3); [done..|].
    unfold private_blocks, special_blocks. cbn [app].
    rewrite !Exists_cons, Exists_nil, !H8, H12, !H16, H10, H15, !H24, H3 by (unfold octet_ok; lia).
    unfold is_global_v4. rewrite negb_true_iff, <- not_true_iff_false. apply not_iff_compat.
    rewrite !orb_true_iff, !andb_true_iff, !orb_true_iff, !Z.eqb_eq, !Z.leb_le.
    assert (H18 : b = 18 \/ b = 19 <-> 18 <= b <= 19) by lia. rewrite H18. clear. tauto.
  - intros [Hlen Hs]. pose proof (segment_range 0 segs Hs) as Hr. unfold first_in, is_global_v6.
    pose proof (prefix_range 9 (segment 0 segs)) as P9. pose proof (prefix_range 6 (segment 0 segs)) as P6.
    pose proof (prefix_range 13 (segment 0 segs)) as P13. pose proof (prefix_range 8 (segment 0 segs)) as P8.
    change (65536 - 2 ^ 9) with 65024 in P9. change (65536 - 2 ^ 6) with 65472 in P6.
    change (65536 - 2 ^ 13) with 57344 in P13. change (65536 - 2 ^ 8) with 65280 in P8.
    change (2 ^ 9) with 512 in P9. change (2 ^ 6) with 64 in P6. change (2 ^ 13) with 8192 in P13. change (2 ^ 8) with 256 in P8.
    unfold v6_is_multicast. rewrite P8, P9, P6, P13 by lia.
    assert (Hz : v6_is_unspecified segs = true \/ v6_is_loopback segs = true -> segment 0 segs = 0).
    { unfold v6_is_unspecified, v6_is_loopback. rewrite !bool_decide_eq_true. intros [->| ->]; done. }
    destruct (v6_is_unspecified segs), (v6_is_loopback segs); cbn [orb];
      [specialize (Hz (or_introl eq_refl))..|specialize (Hz (or_intror eq_refl))|clear Hz]; try (split; [done|lia]).
    set (x := segment 0 segs) in *. set (y := segment 1 segs).
    destruct (Z.eqb_spec (x / 256 * 256) 65280); [split; [done|Z.to_euclidean_division_equations; lia]|].
    destruct (Z.eqb_spec (x / 512 * 512) 64512); cbn [orb]; [split; [done|Z.to_euclidean_division_equations; lia]|].
    destruct (Z.eqb_spec (x / 64 * 64) 65152); [split; [done|Z.to_euclidean_division_equations; lia]|].
    destruct (Z.eqb_spec x 8193), (Z.eqb_spec y 3512); cbn [andb]; rewrite ?Z.eqb_eq;
      try (split; [done|lia]); Z.to_euclidean_division_equations; lia.
Qed.

(** ** Text of IPv4 addresses *)

Definition octets_up_to (n : nat) : list Z := Z.of_nat <$> seq 0 n.

(** Every octet is read back from its decimal text before a character that is no digit. *)
Lemma octet_texts :
  forallb (fun x => bool_decide (read_octet (str_bytes (pretty x)) = Some (x, []))
                    && bool_decide (read_octet (str_bytes (pretty x) ++ [46])%list = Some (x, [46])))
    (octets_up_to 256) = true.
Proof. vm_compute. reflexivity. Qed.

Lemma read_digits_app radix limit digits c rest : to_digit radix c = None -> forall s acc count v n,
  read_digits radix limit digits acc count (s ++ [c])%list = Some (v, n, [c]) ->
  read_digits radix limit digits acc count (s ++ c :: rest)%list = Some (v, n, c :: rest).
Proof.
  intros Hc s. induction s as [|a s IH]; intros acc count v n; cbn [read_digits app].
  - rewrite Hc. by intros [= <- <-].
  - destruct (to_digit radix a); [repeat (case_match; try done); apply IH|].
    intros [= _ _ _ Hnil]. by destruct s.
Qed.

Lemma read_octet_text x rest : octet_ok x ->
  read_octet (str_bytes (pretty x)) = Some (x, []) /\
  read_octet (str_bytes (pretty x) ++ 46 :: rest)%list = Some (x, 46 :: rest).
Proof.
  intros Hx. pose proof octet_texts as Hall. rewrite forallb_forall in Hall.
  specialize (Hall x). rewrite andb_true_iff, !bool_decide_eq_true in Hall. destruct Hall as [H1 H2].
  { apply list_elem_of_In, list_elem_of_fmap. exists (Z.to_nat x). unfold octet_ok in Hx.
    split; [lia|]. apply elem_of_seq. lia. }
  split; [done|]. unfold read_octet, read_number in *.
  apply bind_Some in H2 as ([[v n] r] & Hd & Hr). cbn in Hr.
  assert (r = [46]) as -> by (repeat case_match; congruence).
  rewrite (read_digits_app 10 255 3 46 rest) with (v := v) (n := n); [|done|done].
  cbn [mbind option_bind app]. destruct (str_bytes (pretty x)) as [|c l]; cbn [app] in *; cbn [negb andb] in *;
    repeat case_match; simplify_eq; congruence.
Qed.

(** An IPv4 address is read back from its text. *)
Lemma ipv4_text_roundtrip a b c d : ip_ok (V4 a b c d) -> ip_from_str (ip_to_string (V4 a b c d)) = Some (V4 a b c d).
Proof.
  intros (Ha & Hb & Hc & Hd). unfold ip_from_str. cbn [ip_to_string]. unfold ipv4_text.
  rewrite !str_bytes_app. change (str_bytes ".") with [46]. cbn [app].
  unfold read_ipv4_addr. rewrite (proj2 (read_octet_text a _ Ha)). cbn [mbind option_bind read_given_char Z.eqb Pos.eqb].
  rewrite (proj2 (read_octet_text b _ Hb)). cbn [mbind option_bind read_given_char Z.eqb Pos.eqb].
  rewrite (proj2 (read_octet_text c _ Hc)). cbn [mbind option_bind read_given_char Z.eqb Pos.eqb].
  rewrite (proj1 (read_octet_text d [] Hd)). done.
Qed.

(** ** Destinations *)

(** An address that a host may resolve to. *)
Definition allowed_address (hostname : string) (allowlist : gset string) (ip : IpAddr) : Prop :=
  public_address ip \/ hostname ∈ allowlist /\ private_address ip.

Definition address_texts (addresses : list string) : list string :=
  omap (fun raw => ip_to_string <$> ip_from_str raw) addresses.

Lemma allowed_iff hostname allowlist ip : ip_ok ip ->
  negb (negb (is_global ip) && negb (bool_decide (hostname ∈ allowlist) && is_private ip)) = true <->
  allowed_address hostname allowlist ip.
Proof.
  intros Hip. unfold allowed_address. rewrite <- (is_global_iff ip), <- (is_private_iff ip) by done.
  destruct (is_global ip), (is_private ip); case_bool_decide; cbn; naive_solver.
Qed.

Lemma address_loop_iff hostname allowlist addresses : forall normalized result,
  address_loop hostname allowlist addresses normalized = Ok result <->
  (forall raw, raw ∈ addresses -> exists ip, ip_from_str raw = Some ip /\ allowed_address hostname allowlist ip) /\
  result = list_to_set (address_texts addresses) ∪ normalized.
Proof.
  induction addresses as [|raw addresses IH]; intros normalized result; cbn [address_loop].
  - split; [intros [= <-]; split; [intros raw Hraw; by apply elem_of_nil in Hraw|set_solver]|].
    intros [_ ->]. f_equal. set_solver.
  - split.
    + intros (ip & Hip%ok_or_Ok & Hr)%bind_Ok. apply bind_Ok in Hr as ([] & Ha%ensure_Ok & Hr).
      apply IH in Hr as [Hall ->]. split.
      * intros raw' [->|Hin]%elem_of_cons; [|by apply Hall]. exists ip. split; [done|].
        apply allowed_iff; [by eapply ip_from_str_ok|done].
      * unfold address_texts. cbn [omap list_omap]. rewrite Hip. cbn. set_solver.
    + intros [Hall ->]. destruct (Hall raw) as (ip & Hip & Ha); [by left|]. rewrite Hip. cbn [ok_or mbind res_bind].
      rewrite (proj2 (allowed_iff hostname allowlist ip (ip_from_str_ok _ _ Hip)) Ha). cbn [ensure mbind res_bind].
      apply IH. split; [intros raw' Hin; apply Hall; by right|].
      unfold address_texts. cbn [omap list_omap]. rewrite Hip. cbn. set_solver.
Qed.

Lemma btree_first_least (s : gset string) t : btree_first s = Some t <->
  t ∈ s /\ forall u, u ∈ s -> bytes_le (str_bytes t) (str_bytes u) = true.
Proof.
  unfold btree_first. set (le := fun a b : string => bytes_le (str_bytes a) (str_bytes b)).
  assert (Hin : forall x, x ∈ sort_by le (elements s) <-> x ∈ s) by (intros x; by rewrite sort_by_perm, elem_of_elements).
  assert (Hs : StronglySorted (fun a b => le a b = true) (sort_by le (elements s))).
  { apply sort_by_sorted; unfold le; eauto using bytes_le_trans. intros a b. apply bytes_le_total. }
  destruct (sort_by le (elements s)) as [|a l] eqn:Hl.
  - split; [done|]. intros [Ht _]. apply Hin in Ht. by apply elem_of_nil in Ht.
  - inversion Hs as [|? ? _ Hall]; subst. rewrite Forall_forall in Hall.
    assert (Hleast : forall u, u ∈ s -> le a u = true).
    { intros u Hu%Hin. apply elem_of_cons in Hu as [->|Hu]; [apply bytes_le_refl|]. by apply Hall. }
    split.
    + intros [= <-]. split; [apply Hin; by left|done].
    + intros [Ht Hle]. cbn. f_equal. apply str_bytes_inj, bytes_le_antisym; [by apply Hleast|]. apply Hle, Hin. by left.
Qed.

Section destinations.
Context `{UrlLib}.

(** A registry URL: https on the standard port, with a host and no credentials,
    query or fragment. *)
Definition registry_url_ok (parsed : Url) : Prop :=
  url_scheme parsed = "https" /\ is_Some (url_host parsed) /\ url_username parsed = "" /\
  url_password parsed = None /\ (url_port parsed = None \/ url_port parsed = Some 443) /\
  url_query parsed = None /\ url_fragment parsed = None.

Lemma validate_registry_url_iff url u : validate_registry_url url = Ok u <->
  u = url /\ exists parsed, url_parse url = Some parsed /\ registry_url_ok parsed.
Proof.
  unfold validate_registry_url, registry_url_ok. split.
  - intros (parsed & Hp%ok_or_Ok & Hr)%bind_Ok.
    apply bind_Ok in Hr as ([] & Hs%ensure_Ok & Hr). apply bind_Ok in Hr as ([] & Hh%ensure_Ok & Hr).
    apply bind_Ok in Hr as ([] & Hc%ensure_Ok & Hr). apply bind_Ok in Hr as ([] & Hport%ensure_Ok & Hr).
    apply bind_Ok in Hr as ([] & Hq%ensure_Ok & [= <-]). split; [done|]. exists parsed. split; [done|].
    apply andb_true_iff in Hc as [Hu%String.eqb_eq Hpw%bool_decide_eq_true].
    apply andb_true_iff in Hq as [Hq%bool_decide_eq_true Hf%bool_decide_eq_true]. apply String.eqb_eq in Hs.
    split_and!; try done; [by destruct (url_host parsed)|].
    destruct (url_port parsed) as [port|]; [|by left]. apply Z.eqb_eq in Hport as ->. by right.
  - intros (-> & parsed & Hp & Hs & [host Hh] & Hu & Hpw & Hport & Hq & Hf).
    rewrite Hp. cbn [ok_or mbind res_bind]. rewrite Hs, Hh, Hu, Hpw, Hq, Hf. by destruct Hport as [-> | ->].
Qed.

Lemma destination_exact_spec url addresses allowlist d :
  validate_destination url addresses allowlist = Ok d <->
  exists parsed hosts,
    url_parse url = Some parsed /\ registry_url_ok parsed /\ host_name parsed = Ok (dd_hostname d) /\
    dd_authority d = url_authority parsed /\ parse_private_host_allowlist allowlist = Ok hosts /\
    (forall raw, raw ∈ addresses -> exists ip, ip_from_str raw = Some ip /\ allowed_address (dd_hostname d) hosts ip) /\
    dd_address d ∈ address_texts addresses /\
    forall t, t ∈ address_texts addresses -> bytes_le (str_bytes (dd_address d)) (str_bytes t) = true.
Proof.
  unfold validate_destination. split.
  - intros (u & (-> & parsed & Hp & Hok)%validate_registry_url_iff & Hr)%bind_Ok. rewrite Hp in Hr.
    cbn [ok_or mbind res_bind] in Hr. apply bind_Ok in Hr as (host & Hh & Hr).
    apply bind_Ok in Hr as (hosts & Hl & Hr). apply bind_Ok in Hr as ([] & _ & Hr).
    apply bind_Ok in Hr as (norm & (Hall & ->)%address_loop_iff & Hr).
    apply bind_Ok in Hr as (a & (Ha & Hle)%expect_Ok%btree_first_least & [= <-]). cbn.
    exists parsed, hosts. split_and!; try done; [set_solver|]. intros t Ht. apply Hle. set_solver.
  - intros (parsed & hosts & Hp & Hok & Hh & Hauth & Hl & Hall & Ha & Hle).
    rewrite (proj2 (validate_registry_url_iff url url)) by (split; [done|by exists parsed]).
    cbn [mbind res_bind]. rewrite Hp. cbn [ok_or mbind res_bind]. rewrite Hh. cbn [mbind res_bind]. rewrite Hl.
    cbn [mbind res_bind]. destruct addresses as [|raw addresses]; [by apply elem_of_nil in Ha|].
    rewrite bool_decide_false by done. cbn [negb ensure mbind res_bind].
    rewrite (proj2 (address_loop_iff _ _ _ _ _)) by (split; [done|reflexivity]). cbn [mbind res_bind].
    rewrite (proj2 (btree_first_least _ (dd_address d))); [|split; [set_solver|intros t Ht; apply Hle; set_solver]].
    cbn [expect mbind res_bind]. destruct d; cbn in *; congruence.
Qed.

(** C29: A destination is accepted exactly when its URL is an https URL of a registry
    and each resolved address is an address that is public, or is private while the
    operator allows the host; the address used is then the least of them. *)
Theorem destination_exact url addresses allowlist d :
  validate_destination url addresses allowlist = Ok d <->
  exists parsed hosts,
    url_parse url = Some parsed /\ registry_url_ok parsed /\ host_name parsed = Ok (dd_hostname d) /\
    dd_authority d = url_authority parsed /\ parse_private_host_allowlist allowlist = Ok hosts /\
    (forall raw, raw ∈ addresses -> exists ip, ip_from_str raw = Some ip /\ allowed_address (dd_hostname d) hosts ip) /\
    dd_address d ∈ address_texts addresses /\
    forall t, t ∈ address_texts addresses -> bytes_le (str_bytes (dd_address d)) (str_bytes t) = true.
Proof. apply destination_exact_spec. Qed.

(** A request planned for an accepted destination whose addresses are IPv4 goes to
    an address that the destination rules allow, under the authority of the URL. *)
Theorem pinned_request_allowed url addresses allowlist d token plan :
  validate_destination url addresses allowlist = Ok d ->
  (forall raw, raw ∈ addresses -> exists x y z w, ip_from_str raw = Some (V4 x y z w)) ->
  plan_request url token (Some (dd_address d)) = Ok plan ->
  exists hosts ip target base, parse_private_host_allowlist allowlist = Ok hosts /\
    allowed_address (dd_hostname d) hosts ip /\ url_set_ip_host base ip = Some target /\
    request_url plan = url_to_string target /\ host_header plan = url_authority base.
Proof.
  intros (parsed & hosts & Hp & _ & _ & _ & Hl & Hall & Ha & _)%destination_exact_spec Hv4 Hplan.
  unfold address_texts in Ha. apply list_elem_of_omap in Ha as (raw & Hraw & Htext).
  destruct (Hv4 raw Hraw) as (x & y & z & w & Hip). destruct (Hall raw Hraw) as (ip & Hip' & Hok).
  assert (ip = V4 x y z w) as -> by congruence. rewrite Hip in Htext. injection Htext as Htext.
  assert (Hback : ip_from_str (dd_address d) = Some (V4 x y z w)).
  { rewrite <- Htext. apply ipv4_text_roundtrip. by eapply ip_from_str_ok. }
  apply bind_Ok in Hplan as (u & _ & Hr). apply bind_Ok in Hr as ([] & _ & Hr). apply bind_Ok in Hr as (base & _ & Hr).
  apply bind_Ok in Hr as (host & _ & Hr). apply bind_Ok in Hr as (target & Ht & [= <-]). cbn.
  unfold pinned_url in Ht. rewrite Hback in Ht. cbn [ok_or mbind res_bind] in Ht. apply ok_or_Ok in Ht.
  by eexists hosts, _, target, _.
Qed.
End destinations.

(** ** Concrete destinations *)

Module ToyUrls.

(** A URL is its host and the address that replaced it. *)
Record toy_url := mkToyUrl { tu_host : string; tu_ip : option IpAddr }.
#[local] Instance toy_urls : UrlLib := {|
  Url := toy_url;
  url_parse s := if String.prefix "https://" s then Some (mkToyUrl (String.substring 8 100 s) None) else None;
  url_scheme _ := "https";
  url_host u := Some (DomainHost (tu_host u));
  url_host_str u := Some (tu_host u);
  url_username _ := "";
  url_password _ := None;
  url_port _ := None;
  url_query _ := None;
  url_fragment _ := None;
  url_authority u := tu_host u;
  url_append_pair u _ _ := u;
  url_set_ip_host u ip := Some (mkToyUrl (tu_host u) (Some ip));
  url_to_string u := "https://" +:+ match tu_ip u with Some ip => ip_to_string ip | None => tu_host u end |}.

Definition pkd : DestinationDecision := mkDestination "pkd.example" "pkd.example" "8.8.8.8".
Example sample_destinations :
  validate_destination "https://pkd.example" ["8.8.8.8"] "" = Ok pkd /\
  validate_destination "https://pkd.example" ["10.0.0.7"] "PKD.example." =
    Ok (mkDestination "pkd.example" "pkd.example" "10.0.0.7") /\
  (se_code <$> match validate_destination "https://pkd.example" ["8.8.8.8"; "10.0.0.7"] "other.example" with
               | Err e => Some e | _ => None end) = Some "NON_PUBLIC_DESTINATION" /\
  (se_code <$> match validate_destination "https://pkd.example" ["127.0.0.1"] "pkd.example" with
               | Err e => Some e | _ => None end) = Some "NON_PUBLIC_DESTINATION".
Proof. vm_compute. done. Qed.

Lemma pinned_request_allowed_witness :
  exists hosts ip target base, parse_private_host_allowlist "" = Ok hosts /\
    allowed_address "pkd.example" hosts ip /\ url_set_ip_host base ip = Some target /\
    "https://8.8.8.8" = url_to_string target /\ "pkd.example" = url_authority base.
Proof.
  apply (pinned_request_allowed "https://pkd.example" ["8.8.8.8"] "" pkd None
           (mkRequestPlan "https://8.8.8.8" "pkd.example" "pkd.example")).
  - vm_compute. reflexivity.
  - intros raw ->%list_elem_of_singleton. exists 8, 8, 8, 8. vm_compute. reflexivity.
  - vm_compute. reflexivity.
Defined.
End ToyUrls.
