(* ===== verification/Issuance.v ===== *)
(** * Credential issuance: keys, compact JWTs and remote signers (marty-oid4vci)

    The data of issuance ([types.rs], [error.rs]), bounded compact JWTs
    ([bounded_jwt.rs]), JOSE keys ([jose.rs]) and the checks on what a remote
    signer returns ([signer.rs]).  JSON text, [ssi_jwk], [jsonwebtoken] and the
    curves are parameters.  A [HashMap] of claims is the list of its entries in
    its iteration order. *)

From stdpp Require Import pretty.
From S2P Require Import Prelude Des Governance PolicyService EvidencePolicy.
Local Open Scope string_scope.
Local Open Scope Z_scope.

#[local] Abbreviation bytes := (list Z).
#[local] Abbreviation JsonMap := (list (string * Value)).

(** [src/marty-oid4vci/src/error.rs:9-73] Oid4vciError *)
Inductive Oid4vciError :=
| InvalidOffer (m : string)
| InvalidPreAuthCode (m : string)
| InvalidAccessToken (m : string)
| ProofVerificationFailed (m : string)
| InvalidCNonce (expected got : string)
| UnsupportedFormat (m : string)
| SigningError (m : string)
| KeyError (m : string)
| JwtError (m : string)
| MdocError (m : string)
| SdJwtError (m : string)
| MetadataError (m : string)
| SerializationError (m : string)
| InvalidUrl (m : string)
| Oid4vciInvalidRequest (m : string)
| ConfigError (m : string).

#[local] Abbreviation result := (res Oid4vciError).

(** [Result::map_err] on the result of a library call. *)
Definition lift_oid {A} (f : string -> Oid4vciError) (r : string + A) : result A :=
  match r with inr a => Ok a | inl e => Err (f e) end.

(** ** Data *)

(** [src/marty-oid4vci/src/types.rs:667-680] SigningAlgorithm *)
Inductive SigningAlgorithm := ES256 | EdDSA | ES256K | ES384 | RS256.
#[export] Instance SigningAlgorithm_eq_dec : EqDecision SigningAlgorithm.
Proof. solve_decision. Defined.

(** [src/marty-oid4vci/src/types.rs:682-692] SigningAlgorithm::as_str *)
Definition algorithm_name (a : SigningAlgorithm) : string :=
  match a with
  | ES256 => "ES256" | EdDSA => "EdDSA" | ES256K => "ES256K" | ES384 => "ES384" | RS256 => "RS256"
  end.

(** [src/marty-oid4vci/src/types.rs:711-737] CredentialPayloadFormat *)
Inductive CredentialPayloadFormat := IetfSdJwt | W3cVcdmV2SdJwt | W3cVcdmV2JwtVc.
#[export] Instance CredentialPayloadFormat_eq_dec : EqDecision CredentialPayloadFormat.
Proof. solve_decision. Defined.

(** [src/marty-oid4vci/src/types.rs:740-746] CredentialPayloadFormat::as_str *)
Definition payload_format_name (f : CredentialPayloadFormat) : string :=
  match f with
  | IetfSdJwt => "ietf_sd_jwt" | W3cVcdmV2SdJwt => "w3c_vcdm_v2_sd_jwt" | W3cVcdmV2JwtVc => "w3c_vcdm_v2_jwt_vc"
  end.

(** [src/marty-oid4vci/src/types.rs:748-754] CredentialPayloadFormat::from_str_loose *)
Definition payload_format_from_str_loose (s : string) : CredentialPayloadFormat :=
  if one_of s ["ietf_sd_jwt"; "ietf"; "flat"] then IetfSdJwt
  else if String.eqb s "w3c_vcdm_v2_jwt_vc" then W3cVcdmV2JwtVc
  else W3cVcdmV2SdJwt.

(** [src/marty-oid4vci/src/types.rs:766-774] ZkPredicateBinding *)
Record ZkPredicateBinding := mkZkBinding { zk_claim_name : string; zk_supported_predicates : list string }.

(** [src/marty-oid4vci/src/types.rs:799-836] CredentialClaims *)
Record CredentialClaims := mkClaims {
  cc_subject_id : option string;
  cc_credential_type : string;
  cc_claims : JsonMap;
  expiration_seconds : option Z;
  selective_disclosure_claims : list string;
  mdoc_namespace : option string;
  mdoc_doctype : option string;
  zk_predicate_claims : list ZkPredicateBinding;
  credential_payload_format : CredentialPayloadFormat;
  w3c_context : list string;
  w3c_types : list string;
}.

(** [src/marty-oid4vci/src/types.rs:843-884] SignedCredential *)
Inductive SignedCredential :=
| JwtVcJson (jwt credential_id : string)
| SdJwtCredential (compact credential_id : string)
| MsoMdoc (issuer_signed_b64 credential_id : string)
| ZkMdoc (issuer_signed_b64 : string) (bindings : list ZkPredicateBinding) (proof_type credential_id : string)
| VdsNc (barcode_data credential_id : string).

(** ** JSON objects *)

(** [Map::insert]: the entry keeps its place, or is added at the end. *)
Fixpoint map_insert (key : string) (v : Value) (m : JsonMap) : JsonMap :=
  match m with
  | [] => [(key, v)]
  | (k, w) :: m => if String.eqb k key then (k, v) :: m else (k, w) :: map_insert key v m
  end.

(** [Map::remove]: the last entry takes the place of the removed one. *)
Fixpoint position_of (key : string) (m : JsonMap) : option nat :=
  match m with
  | [] => None
  | (k, _) :: m => if String.eqb k key then Some O else S <$> position_of key m
  end.
Definition map_remove (key : string) (m : JsonMap) : JsonMap :=
  match position_of key m, last m with
  | Some i, Some e => take (length m - 1) (<[i := e]> m)
  | _, _ => m
  end.

(** [json!("text")], [json!(["a", ..])]. *)
Definition strings (l : list string) : Value := Array (VString <$> l).

(** [serde_json]: the value read from bytes, with every member of an object that
    the text has, and the text of a value. *)
Class JsonCodec := {
  json_read : bytes -> string + Value;
  json_to_string : Value -> string + string;
}.

(** A value without repeated members, at any depth. *)
Fixpoint unique_members (v : Value) : bool :=
  match v with
  | Array l => forallb unique_members l
  | Object es => bool_decide (NoDup (fst <$> es)) && forallb (fun e => unique_members e.2) es
  | _ => true
  end.

(** ** Compact JWTs *)

(** [src/marty-oid4vci/src/bounded_jwt.rs:6-12] CompactJwtLimits *)
Record CompactJwtLimits := mkJwtLimits { lim_total : Z; lim_header : Z; lim_claims : Z; lim_signature : Z }.

(** [src/marty-oid4vci/src/bounded_jwt.rs:14-18] CompactJwtSegments *)
Record CompactJwtSegments := mkSegments { seg_header : string; seg_claims : string; seg_signature : string }.

(** [src/marty-oid4vci/src/bounded_jwt.rs:20-22] max_encoded_len *)
Definition max_encoded_len (decoded : Z) : Z := div_ceil decoded 3 * 4.

(** [str::split_once('.')]. *)
Fixpoint split_once_dot (s : string) : option (string * string) :=
  match s with
  | EmptyString => None
  | String c rest =>
      if Ascii.eqb c "." then Some (EmptyString, rest)
      else '(a, b) ← split_once_dot rest; Some (String c a, b)
  end.
Definition has_dot (s : string) : bool := bool_decide (is_Some (split_once_dot s)).

Definition three_parts : string := "compact JWT must contain exactly three non-empty parts".

(** [src/marty-oid4vci/src/bounded_jwt.rs:24-54] split_compact_jwt *)
Definition split_compact_jwt (compact : string) (limits : CompactJwtLimits) : res string CompactJwtSegments :=
  _ ← ensure (negb (String.eqb compact "" || (lim_total limits <? str_len compact)))
        "compact JWT exceeds its size limit";
  '(header, remainder) ← ok_or (split_once_dot compact) three_parts;
  '(claims, signature) ← ok_or (split_once_dot remainder) three_parts;
  _ ← ensure (negb (String.eqb header "" || String.eqb claims "" || String.eqb signature "" || has_dot signature))
        three_parts;
  _ ← ensure (negb (max_encoded_len (lim_header limits) <? str_len header))
        "compact JWT header exceeds its size limit";
  _ ← ensure (negb (max_encoded_len (lim_claims limits) <? str_len claims))
        "compact JWT claims exceed their size limit";
  _ ← ensure (negb (max_encoded_len (lim_signature limits) <? str_len signature))
        "compact JWT signature exceeds its size limit";
  Ok (mkSegments header claims signature).

Section jose.
Context `{Base64Url} `{JsonCodec}.

(** [src/marty-oid4vci/src/bounded_jwt.rs:56-73] decode_segment *)
Definition decode_segment (encoded : string) (max_decoded : Z) (invalid oversized : string) : res string bytes :=
  _ ← ensure (negb (max_encoded_len max_decoded <? str_len encoded)) oversized;
  decoded ← match b64_decode encoded with inr d => Ok d | inl _ => Err invalid end;
  _ ← ensure (negb (max_decoded <? zlen decoded)) oversized;
  _ ← ensure (String.eqb (b64_encode decoded) encoded) invalid;
  Ok decoded.

(** [src/marty-oid4vci/src/jose.rs:95-188] parse_unique_object, over UniqueValueVisitor *)
Definition parse_unique_object (bs : bytes) (field : string) : result Value :=
  value ← lift_oid (fun e => JwtError ("Invalid " +:+ field +:+ " JSON: " +:+ e)) (json_read bs);
  _ ← ensure (unique_members value) (JwtError ("Invalid " +:+ field +:+ " JSON: duplicate JSON object member"));
  _ ← ensure (bool_decide (is_Some (as_object value)))
        (JwtError ("Invalid " +:+ field +:+ " JSON: expected an object"));
  Ok value.

(** [src/marty-oid4vci/src/jose.rs:71-84] PRIVATE_JWK_FIELDS, MAX_COMPACT_JWT_BYTES and the other limits *)
Definition PRIVATE_JWK_FIELDS : list string := ["d"; "rsa_d"; "p"; "q"; "dp"; "dq"; "qi"; "oth"; "k"].
Definition MAX_COMPACT_JWT_BYTES : Z := 256 * 1024.
Definition MAX_PUBLIC_JWK_BYTES : Z := 16 * 1024.
Definition MAX_JWT_HEADER_BYTES : Z := 144 * 1024.
Definition MAX_JWT_CLAIMS_BYTES : Z := 64 * 1024.
Definition MAX_RSA_SIGNATURE_BYTES : Z := 1024.
Definition JWT_LIMITS : CompactJwtLimits :=
  mkJwtLimits MAX_COMPACT_JWT_BYTES MAX_JWT_HEADER_BYTES MAX_JWT_CLAIMS_BYTES MAX_RSA_SIGNATURE_BYTES.

(** [src/marty-oid4vci/src/jose.rs:203-231] decode_unverified_compact_jwt *)
Definition decode_unverified_compact_jwt (compact : string) : result (Value * Value) :=
  parts ← map_err JwtError (split_compact_jwt compact JWT_LIMITS);
  header ← map_err JwtError
             (decode_segment (seg_header parts) MAX_JWT_HEADER_BYTES "compact JWT header is not base64url"
                "compact JWT header exceeds its size limit");
  claims ← map_err JwtError
             (decode_segment (seg_claims parts) MAX_JWT_CLAIMS_BYTES "compact JWT claims are not base64url"
                "compact JWT claims exceed their size limit");
  _ ← map_err JwtError
        (decode_segment (seg_signature parts) MAX_RSA_SIGNATURE_BYTES "compact JWT signature is not base64url"
           "compact JWT signature exceeds its size limit");
  header ← parse_unique_object header "JWT header";
  claims ← parse_unique_object claims "JWT claims";
  Ok (header, claims).
End jose.

(** [jsonwebtoken]: the algorithms by name, its keys, and the verification of a
    compact JWT and of a detached signature. *)
Class JwtLib := {
  JwtKey : Type;
  crypto_provider : string + unit;
  jwk_from_value : Value -> string + JwtKey;
  decoding_key : JwtKey -> string + JwtKey;
  header_algorithm : string -> string + string;
  verify_compact : string -> JwtKey -> string -> string + unit;
  verify_detached : string -> bytes -> JwtKey -> string -> string + bool;
  ecdsa_from_der : string -> bytes -> string + bytes;
}.

(** [src/marty-oid4vci/src/jose.rs:233-248] algorithm *)
Definition jose_algorithm (name : string) : result string :=
  if one_of name ["ES256"; "ES384"; "EdDSA"; "RS256"; "RS384"; "RS512"; "PS256"; "PS384"; "PS512"] then Ok name
  else Err (JwtError ("Unsupported JWT signature algorithm: " +:+ name)).

(** [src/marty-oid4vci/src/jose.rs:273-284] validate_public_jwk, the key operations *)
Definition key_ops_ok (object : JsonMap) : result unit :=
  match map_get "key_ops" object with
  | Some operations =>
      ops ← ok_or (as_array operations) (KeyError "Public JWK key_ops must be an array");
      ensure (match ops with [op] => bool_decide (as_str op = Some "verify") | _ => false end)
        (KeyError "Public JWK key_ops must contain only verify")
  | None => Ok tt
  end.

(** [src/marty-oid4vci/src/jose.rs:250-285] validate_public_jwk, the checks before the key is built *)
Definition public_jwk_policy (value : Value) (expected_algorithm : string) : result unit :=
  object ← ok_or (as_object value) (KeyError "Public JWK must be an object");
  _ ← match List.find (fun field => contains_key field object) PRIVATE_JWK_FIELDS with
      | Some field => Err (KeyError ("Public JWK contains private key material: " +:+ field))
      | None => Ok tt
      end;
  _ ← ensure (match map_get "alg" object with
              | Some v => bool_decide (as_str v = Some expected_algorithm) | None => true end)
        (KeyError "Public JWK alg does not match the JWT algorithm");
  _ ← ensure (match map_get "use" object with Some v => bool_decide (as_str v = Some "sig") | None => true end)
        (KeyError "Public JWK use must be sig when present");
  key_ops_ok object.

Section keys.
Context `{Base64Url} `{JsonCodec} `{JwtLib}.

(** [src/marty-oid4vci/src/jose.rs:250-288] validate_public_jwk *)
Definition validate_public_jwk (value : Value) (expected_algorithm : string) : result JwtKey :=
  _ ← public_jwk_policy value expected_algorithm;
  lift_oid (fun e => KeyError ("Invalid public JWK: " +:+ e)) (jwk_from_value value).

(** [src/marty-oid4vci/src/jose.rs:86-93] VerifiedCompactJwt *)
Record VerifiedCompactJwt := mkVerifiedJwt { vj_header : Value; vj_claims : Value }.

(** The key of a public JWK text, for an algorithm: [jose.rs], lines 320-332 and 361-374. *)
Definition trusted_key (public_jwk_json expected : string) (context : string) : result JwtKey :=
  _ ← ensure (negb (MAX_PUBLIC_JWK_BYTES <? str_len public_jwk_json)) (KeyError "Public JWK exceeds its size limit");
  value ← parse_unique_object (str_bytes public_jwk_json) "public JWK";
  jwk ← validate_public_jwk value expected;
  lift_oid (fun e => KeyError (context +:+ e)) (decoding_key jwk).

(** [src/marty-oid4vci/src/jose.rs:298-343] verify_compact_jwt_with_public_jwk *)
Definition verify_compact_jwt_with_public_jwk (compact public_jwk_json expected_algorithm : string) :
    result VerifiedCompactJwt :=
  _ ← lift_oid (fun e => JwtError ("JWT verification backend unavailable: " +:+ e)) crypto_provider;
  '(header_value, claims) ← decode_unverified_compact_jwt compact;
  expected ← jose_algorithm expected_algorithm;
  alg ← lift_oid (fun e => JwtError ("Invalid JWT header: " +:+ e)) (header_algorithm compact);
  _ ← ensure (String.eqb alg expected
              && bool_decide ((as_object header_value ≫= map_get "alg") ≫= as_str = Some expected_algorithm))
        (JwtError "JWT algorithm does not match the expected algorithm");
  key ← trusted_key public_jwk_json expected_algorithm "Could not construct JWT verification key: ";
  _ ← lift_oid (fun e => JwtError ("JWT signature verification failed: " +:+ e)) (verify_compact compact key expected);
  Ok (mkVerifiedJwt header_value claims).

(** [src/marty-crypto/src/ecdsa.rs:400-424] normalize_signature *)
Definition normalize_signature (signature : bytes) (algorithm : string) : res CryptoError bytes :=
  let der := match ecdsa_from_der algorithm signature with
             | inr raw => Ok raw
             | inl e => Err (CryptoSignatureVerification ("Invalid " +:+ algorithm +:+ " signature encoding: " +:+ e))
             end in
  if String.eqb algorithm "ES256" then (if zlen signature =? 64 then Ok signature else der)
  else if String.eqb algorithm "ES384" then (if zlen signature =? 96 then Ok signature else der)
  else if String.eqb algorithm "ES512" then (if zlen signature =? 132 then Ok signature else der)
  else Err (CryptoUnsupportedAlgorithm ("Unsupported ECDSA signature algorithm: " +:+ algorithm)).

(** [src/marty-oid4vci/src/jose.rs:391-397] normalize_ecdsa_signature *)
Definition normalize_ecdsa_signature (signature : bytes) (algorithm : string) : result bytes :=
  map_err (fun e => JwtError (crypto_error_text e)) (normalize_signature signature algorithm).

(** [src/marty-oid4vci/src/jose.rs:376-379] verify_detached_signature_with_public_jwk, the encoding of a signature *)
Definition detached_encoding (signature : bytes) (algorithm : string) : result bytes :=
  if one_of algorithm ["ES256"; "ES384"] then normalize_ecdsa_signature signature algorithm else Ok signature.

(** [src/marty-oid4vci/src/jose.rs:352-384] verify_detached_signature_with_public_jwk *)
Definition verify_detached_signature_with_public_jwk (message signature : bytes)
    (public_jwk_json expected_algorithm : string) : result bool :=
  _ ← lift_oid (fun e => JwtError ("JWT verification backend unavailable: " +:+ e)) crypto_provider;
  expected ← jose_algorithm expected_algorithm;
  key ← trusted_key public_jwk_json expected_algorithm "Could not construct signature verification key: ";
  normalized ← detached_encoding signature expected_algorithm;
  lift_oid (fun e => JwtError ("Detached signature verification failed: " +:+ e))
    (verify_detached (b64_encode normalized) message key expected).
End keys.

(** ** Remote signers *)

(** [ssi_jwk::Params], with whether it holds private material. *)
Inductive JwkParams :=
| JwkEC (curve : option string) (x y : option bytes) (private : bool)
| JwkOKP (curve : string) (public : bytes) (private : bool)
| JwkRSA (private : bool)
| JwkSymmetric.

(** [ssi_jwk], and the curves: a key or a signature that does not parse has an
    error text; Ed25519 keys carry whether they have small order. *)
Class SignerLib := {
  params_of_value : Value -> string + JwkParams;
  params_of_str : string -> string + JwkParams;
  ec_key : SigningAlgorithm -> bytes -> string + unit;
  ec_signature : SigningAlgorithm -> bytes -> string + unit;
  ec_digest : SigningAlgorithm -> bytes -> string + unit;
  ec_verify : SigningAlgorithm -> bytes -> bytes -> bytes -> bool;
  ed25519_key : bytes -> string + bool;
  ed25519_signature : bytes -> string + unit;
  ed25519_verify_strict : bytes -> bytes -> bytes -> bool;
  edwards_recompress : bytes -> option bytes;
  scalar_canonical : bytes -> bool;
}.

(** [src/marty-oid4vci/src/signer.rs:36-62] CredentialSigner, what is read of a signer besides signatures *)
Record SignerMetadata := mkSigner {
  sg_algorithm : SigningAlgorithm;
  sg_issuer_id : string;
  sg_kid_url : string;
  sg_public_jwk : result string;
}.

(** [src/marty-oid4vci/src/signer.rs:312-331] ec_public_key *)
Definition ec_public_key (x y : option bytes) (coordinate_len : Z) : result bytes :=
  x ← ok_or x (KeyError "Issuer EC JWK is missing x");
  y ← ok_or y (KeyError "Issuer EC JWK is missing y");
  _ ← ensure ((zlen x =? coordinate_len) && (zlen y =? coordinate_len))
        (KeyError ("Issuer EC JWK coordinates must each contain " +:+ pretty coordinate_len +:+ " bytes"));
  Ok (4 :: x ++ y)%list.

(** The coordinate length and the curve of an ECDSA algorithm. *)
Definition ec_curve (a : SigningAlgorithm) : option (string * Z) :=
  match a with
  | ES256 => Some ("P-256", 32) | ES384 => Some ("P-384", 48) | ES256K => Some ("secp256k1", 32)
  | EdDSA | RS256 => None
  end.

(** [src/marty-oid4vci/src/signer.rs:357-360] validate_rsa_signature_encoding *)
Definition validate_rsa_signature_encoding (signature : bytes) : bool :=
  (256 <=? zlen signature) && (zlen signature <=? MAX_RSA_SIGNATURE_BYTES)
  && existsb (fun b => negb (b =? 0)) signature.

Section remote.
Context `{Base64Url} `{JsonCodec} `{JwtLib} `{SignerLib}.

(** [src/marty-oid4vci/src/signer.rs:233-246] strict_ed25519_verifying_key *)
Definition strict_ed25519_verifying_key (bs : bytes) : result unit :=
  _ ← ensure (zlen bs =? 32) (KeyError "Ed25519 issuer public key must contain 32 bytes");
  weak ← lift_oid (fun e => KeyError ("Invalid Ed25519 issuer public key: " +:+ e)) (ed25519_key bs);
  ensure (negb weak) (KeyError "Ed25519 issuer public key has small order").

(** [src/marty-oid4vci/src/signer.rs:93-114] validate_public_key_for_algorithm, whether the key fits *)
Definition key_fits (a : SigningAlgorithm) (params : JwkParams) : result bool :=
  match a, params with
  | EdDSA, JwkOKP curve public _ =>
      if String.eqb curve "Ed25519" then Ok (is_Ok (strict_ed25519_verifying_key public)) else Ok false
  | RS256, JwkRSA _ => Ok true
  | _, JwkEC curve x y _ =>
      match ec_curve a with
      | Some (name, len) =>
          if bool_decide (curve = Some name) then
            key ← ec_public_key x y len;
            Ok (match ec_key a key with inr _ => true | inl _ => false end)
          else Ok false
      | None => Ok false
      end
  | _, _ => Ok false
  end.

(** [src/marty-oid4vci/src/signer.rs:93-123] validate_public_key_for_algorithm *)
Definition validate_public_key_for_algorithm (a : SigningAlgorithm) (params : JwkParams) : result unit :=
  valid ← key_fits a params;
  ensure valid (KeyError "Issuer public JWK does not contain a valid key for the credential signing algorithm").

(** [src/marty-oid4vci/src/signer.rs:68-91] validate_signer_public_jwk_for_algorithm *)
Definition validate_signer_public_jwk_for_algorithm (signer : SignerMetadata) (a : SigningAlgorithm) : result string :=
  public_jwk ← sg_public_jwk signer;
  _ ← ensure (negb (MAX_PUBLIC_JWK_BYTES <? str_len public_jwk))
        (KeyError "Issuer public JWK exceeds its size limit");
  value ← parse_unique_object (str_bytes public_jwk) "issuer public JWK";
  _ ← validate_public_jwk value (algorithm_name a);
  params ← lift_oid (fun e => KeyError ("Invalid issuer public JWK: " +:+ e)) (params_of_value value);
  _ ← validate_public_key_for_algorithm a params;
  _ ← ensure (match as_object value ≫= map_get "kid" with
              | Some kid => bool_decide (as_str kid = Some (sg_kid_url signer)) | None => true end)
        (KeyError "Issuer public JWK kid does not match the credential verification method");
  Ok public_jwk.

(** [src/marty-oid4vci/src/signer.rs:64-66] validate_signer_public_jwk *)
Definition validate_signer_public_jwk (signer : SignerMetadata) : result string :=
  validate_signer_public_jwk_for_algorithm signer (sg_algorithm signer).

(** [src/marty-oid4vci/src/signer.rs:362-382] validate_ed25519_encoding *)
Definition validate_ed25519_encoding (signature : bytes) : bool :=
  (zlen signature =? 64)
  && let '(r, s) := (take 32 signature, drop 32 signature) in
     match edwards_recompress r with
     | Some r' => bool_decide (r' = r) && scalar_canonical s && existsb (fun b => negb (b =? 0)) signature
     | None => false
     end.

(** [src/marty-oid4vci/src/signer.rs:335-355] validate_remote_signature *)
Definition validate_remote_signature (a : SigningAlgorithm) (signature : bytes) : result unit :=
  ensure (match a with
          | ES256 | ES256K | ES384 => match ec_signature a signature with inr _ => true | inl _ => false end
          | EdDSA => validate_ed25519_encoding signature
          | RS256 => validate_rsa_signature_encoding signature
          end)
    (SigningError ("invalid " +:+ algorithm_name a +:+ " remote signature encoding: got "
                   +:+ pretty (zlen signature) +:+ " bytes")).

(** The name that the messages of an ECDSA branch give to its curve. *)
Definition curve_label (a : SigningAlgorithm) : string :=
  match a with ES256 => "P-256" | ES384 => "P-384" | _ => "secp256k1" end.

Definition wrong_family {A} : result A :=
  Err (KeyError "Issuer public JWK does not match the credential signing algorithm").

(** [src/marty-oid4vci/src/signer.rs:136-202] verify_remote_signature, one of the three ECDSA branches *)
Definition verify_ec_signature (a : SigningAlgorithm) (curve : option string) (x y : option bytes)
    (message signature : bytes) : result bool :=
  match ec_curve a with
  | Some (name, len) =>
      if bool_decide (curve = Some name) then
        key ← ec_public_key x y len;
        _ ← lift_oid (fun e => KeyError ("Invalid " +:+ curve_label a +:+ " issuer public key: " +:+ e)) (ec_key a key);
        _ ← lift_oid (fun e => SigningError ("Invalid " +:+ algorithm_name a +:+ " signature: " +:+ e))
              (ec_signature a signature);
        _ ← lift_oid (fun e => SigningError ("Could not prepare " +:+ algorithm_name a +:+ " signature digest: " +:+ e))
              (ec_digest a message);
        Ok (ec_verify a key message signature)
      else wrong_family
  | None => wrong_family
  end.

(** [src/marty-oid4vci/src/signer.rs:135-223] verify_remote_signature, the verification *)
Definition verified_by (a : SigningAlgorithm) (params : JwkParams) (public_jwk : string)
    (message signature : bytes) : result bool :=
  match a, params with
  | EdDSA, JwkOKP curve public _ =>
      if String.eqb curve "Ed25519" then
        _ ← strict_ed25519_verifying_key public;
        _ ← lift_oid (fun e => SigningError ("Invalid Ed25519 signature: " +:+ e)) (ed25519_signature signature);
        Ok (ed25519_verify_strict public message signature)
      else wrong_family
  | RS256, JwkRSA _ => verify_detached_signature_with_public_jwk message signature public_jwk (algorithm_name a)
  | _, JwkEC curve x y _ => verify_ec_signature a curve x y message signature
  | _, _ => wrong_family
  end.

(** [src/marty-oid4vci/src/signer.rs:125-231] verify_remote_signature *)
Definition verify_remote_signature (a : SigningAlgorithm) (public_jwk : string) (message signature : bytes) :
    result unit :=
  _ ← validate_remote_signature a signature;
  params ← lift_oid (fun e => KeyError ("Invalid issuer public JWK: " +:+ e)) (params_of_str public_jwk);
  verified ← verified_by a params public_jwk message signature;
  ensure verified (SigningError "remote signature does not verify with the configured issuer public key").
End remote.
