(* ===== verification/JwtVc.v ===== *)
(** * JWT credentials and the Open Badges profile (marty-oid4vci, [formats/jwt_vc.rs])

    The preparation of a VC-JWT for a remote signer, its assembly with the
    signature, and both sides of the Open Badges 3.0 profile: the shape an issuer
    gives and the shape a verifier asks for.  Instants are nanoseconds since the
    epoch; the clock and the random identifier are arguments. *)

From stdpp Require Import pretty.
From S2P Require Import Prelude Des Governance PolicyService EvidencePolicy Issuance.
Local Open Scope string_scope.
Local Open Scope Z_scope.

#[local] Abbreviation bytes := (list Z).
#[local] Abbreviation JsonMap := (list (string * Value)).
#[local] Abbreviation result := (res Oid4vciError).

(** [chrono]: [checked_add_signed] of seconds, and the text [%Y-%m-%dT%H:%M:%SZ]. *)
Class IssueClock := {
  add_seconds : Z -> Z -> option Z;
  format_zulu : Z -> string;
}.

(** [url::Url::parse], its error as text. *)
Class UriParser := uri_parse : string -> string + unit.

Definition timestamp (t : Z) : Z := t / 1000000000.

(** [json!(n)] for an integer. *)
Definition json_int (n : Z) : Value := Number (pretty n).

(** [src/marty-oid4vci/src/formats/jwt_vc.rs:30-35] JWT_VC_EXPIRATION_OUT_OF_RANGE and the names of the profile *)
Definition JWT_VC_EXPIRATION_OUT_OF_RANGE : string := "JWT-VC expiration is out of range".
Definition OPEN_BADGES_V3_CONTEXT : string := "https://purl.imsglobal.org/spec/ob/v3p0/context.json".
Definition OPEN_BADGES_V3_CREDENTIAL_TYPE : string := "OpenBadgeCredential".
Definition VCDM_V2_CONTEXT : string := "https://www.w3.org/ns/credentials/v2".
Definition VCDM_V1_CONTEXT : string := "https://www.w3.org/2018/credentials/v1".

(** [src/marty-oid4vci/src/formats/jwt_vc.rs:174-181] PreparedJwtVc *)
Record PreparedJwtVc := mkPreparedJwt {
  pj_signing_input : string;
  pj_credential_id : string;
  pj_algorithm : SigningAlgorithm;
  pj_issuer_public_jwk : string;
}.

(** [src/marty-oid4vci/src/formats/jwt_vc.rs:271-285] JwtVcPreparationOptions *)
Record JwtVcPreparationOptions := mkJwtOptions {
  jo_credential_id : option string;
  jo_credential_subject : option Value;
  jo_credential_status : option Value;
  include_subject_claim : bool;
  include_vc_id : bool;
  include_nbf : bool;
}.

(** [src/marty-oid4vci/src/formats/jwt_vc.rs:288-299] JwtVcPreparationOptions::default *)
Definition jwt_options_default : JwtVcPreparationOptions := mkJwtOptions None None None true true false.

(** ** The Open Badges profile of an issuer *)

Definition invalid_badge (m : string) : Oid4vciError := Oid4vciInvalidRequest ("Open Badges " +:+ m).

Definition is_string (v : Value) : bool := match v with VString _ => true | _ => false end.

(** The trimmed text of a member, when it is not empty. *)
Definition trimmed_text (v : option Value) : option string :=
  s ← v ≫= as_str;
  let t := str_trim s in
  if String.eqb t "" then None else Some t.

(** [src/marty-oid4vci/src/formats/jwt_vc.rs:516-530] take_optional_non_empty_string *)
Definition take_optional_non_empty_string (object : JsonMap) (field : string) : result (option string * JsonMap) :=
  match map_get field object with
  | None => Ok (None, object)
  | Some v =>
      t ← ok_or (trimmed_text (Some v)) (invalid_badge (field +:+ " must be a non-empty string"));
      Ok (Some t, map_remove field object)
  end.

(** [src/marty-oid4vci/src/formats/jwt_vc.rs:533-557] merge_required_string *)
Definition merge_required_string (object : JsonMap) (field : string) (legacy_value : option string) :
    result JsonMap :=
  let existing := trimmed_text (map_get field object) in
  _ ← ensure (match existing, legacy_value with Some e, Some l => String.eqb e l | _, _ => true end)
        (invalid_badge ("achievement " +:+ field +:+ " conflicts with its legacy claim"));
  match existing with
  | Some _ => Ok object
  | None =>
      value ← ok_or legacy_value (invalid_badge ("achievement " +:+ field +:+ " is required"));
      Ok (map_insert field (VString value) object)
  end.

(** [src/marty-oid4vci/src/formats/jwt_vc.rs:560-591] ensure_required_type *)
Definition ensure_required_type (object : JsonMap) (required label : string) : result JsonMap :=
  match map_get "type" object with
  | None => Ok (map_insert "type" (strings [required]) object)
  | Some (VString value) =>
      if String.eqb value required then Ok object
      else Ok (map_insert "type" (strings [value; required]) object)
  | Some (Array values) =>
      _ ← ensure (forallb is_string values) (invalid_badge (label +:+ " type must contain only strings"));
      Ok (if existsb (fun v => bool_decide (as_str v = Some required)) values then object
          else map_insert "type" (Array (values ++ [VString required])%list) object)
  | Some _ => Err (invalid_badge (label +:+ " type must be a string or array"))
  end.

(** [src/marty-oid4vci/src/formats/jwt_vc.rs:327-375] apply_open_badge_v3_profile, the identifier of the holder and of the achievement *)
Definition bind_identifier (object : JsonMap) (id conflict not_string : string) : result JsonMap :=
  match map_get "id" object with
  | Some (VString existing) => _ ← ensure (String.eqb existing id) (invalid_badge conflict); Ok object
  | Some _ => Err (invalid_badge not_string)
  | None => Ok (map_insert "id" (VString id) object)
  end.

Definition bind_holder (object : JsonMap) (holder : option string) : result JsonMap :=
  match holder with
  | Some id => bind_identifier object id "credentialSubject id does not match the holder"
                 "credentialSubject id must be a string"
  | None => Ok object
  end.

(** [src/marty-oid4vci/src/formats/jwt_vc.rs:380-389] apply_open_badge_v3_profile, the criteria *)
Definition add_criteria (achievement : JsonMap) (criteria : option Value) : result JsonMap :=
  match criteria with
  | Some c =>
      _ ← ensure (negb (contains_key "criteria" achievement))
            (invalid_badge "achievement criteria were supplied twice");
      Ok (map_insert "criteria" c achievement)
  | None => Ok achievement
  end.

(** [src/marty-oid4vci/src/formats/jwt_vc.rs:327-389] apply_open_badge_v3_profile, the subject *)
Definition badge_subject (subject : JsonMap) (holder : option string) (achievement_id : string) : result JsonMap :=
  subject ← bind_holder subject holder;
  subject ← ensure_required_type subject "AchievementSubject" "credentialSubject";
  '(legacy_name, subject) ← take_optional_non_empty_string subject "achievement_name";
  '(legacy_description, subject) ← take_optional_non_empty_string subject "achievement_description";
  let legacy_criteria := map_get "achievement_criteria" subject in
  let subject := map_remove "achievement_criteria" subject in
  let achievement := default (Object []) (map_get "achievement" subject) in
  achievement ← ok_or (as_object achievement) (invalid_badge "achievement must be an object");
  achievement ← bind_identifier achievement achievement_id
                  "achievement id conflicts with the selected template" "achievement id must be a string";
  achievement ← ensure_required_type achievement "Achievement" "achievement";
  achievement ← merge_required_string achievement "name" legacy_name;
  achievement ← merge_required_string achievement "description" legacy_description;
  achievement ← add_criteria achievement legacy_criteria;
  Ok (map_insert "achievement" (Object achievement) subject).

Section profile.
Context `{UriParser}.

(** [src/marty-oid4vci/src/formats/jwt_vc.rs:309-405] apply_open_badge_v3_profile *)
Definition apply_open_badge_v3_profile (claims : CredentialClaims) (options : JwtVcPreparationOptions)
    (achievement_id : string) : result (CredentialClaims * JwtVcPreparationOptions) :=
  _ ← lift_oid (fun e => invalid_badge ("achievement_id must be an absolute URI: " +:+ e)) (uri_parse achievement_id);
  let subject := default (Object (cc_claims claims)) (jo_credential_subject options) in
  subject ← ok_or (as_object subject) (invalid_badge "credentialSubject must be one JSON object");
  subject ← badge_subject subject (cc_subject_id claims) achievement_id;
  let context := w3c_context claims in
  Ok (mkClaims (cc_subject_id claims) OPEN_BADGES_V3_CREDENTIAL_TYPE [] (expiration_seconds claims)
        (selective_disclosure_claims claims) (mdoc_namespace claims) (mdoc_doctype claims)
        (zk_predicate_claims claims) (credential_payload_format claims)
        (if one_of OPEN_BADGES_V3_CONTEXT context then context else (context ++ [OPEN_BADGES_V3_CONTEXT])%list)
        (List.filter (fun t => negb (one_of t ["open_badge"; "open_badge_v3"])) (w3c_types claims)),
      mkJwtOptions (jo_credential_id options) (Some (Object subject)) (jo_credential_status options)
        (include_subject_claim options) (include_vc_id options) (include_nbf options)).

(** ** The profile that a verifier asks for *)

(** [src/marty-oid4vci/src/formats/jwt_vc.rs:472-483] require_non_empty_string *)
Definition require_non_empty_string (value : option Value) (label : string) : result string :=
  ok_or (trimmed_text value) (invalid_badge (label +:+ " must be a non-empty string")).

(** [src/marty-oid4vci/src/formats/jwt_vc.rs:485-513] require_string_array_member *)
Definition require_string_array_member (value : option Value) (required label : string) : result unit :=
  values ← match value with
           | Some (VString v) => Ok [v]
           | Some (Array values) =>
               _ ← ensure (forallb is_string values)
                     (invalid_badge (label +:+ " must be a string or array of strings"));
               Ok (omap as_str values)
           | _ => Err (invalid_badge (label +:+ " must be a string or array of strings"))
           end;
  ensure (one_of required values) (invalid_badge (label +:+ " must include " +:+ required)).

(** [src/marty-oid4vci/src/formats/jwt_vc.rs:413-470] validate_open_badge_v3_profile *)
Definition validate_open_badge_v3_profile (credential : Value) : result unit :=
  credential ← ok_or (as_object credential) (invalid_badge "credential must be one JSON object");
  _ ← require_string_array_member (map_get "@context" credential) VCDM_V2_CONTEXT "credential @context";
  _ ← require_string_array_member (map_get "@context" credential) OPEN_BADGES_V3_CONTEXT "credential @context";
  _ ← require_string_array_member (map_get "type" credential) "VerifiableCredential" "credential type";
  _ ← require_string_array_member (map_get "type" credential) OPEN_BADGES_V3_CREDENTIAL_TYPE "credential type";
  subject ← ok_or (map_get "credentialSubject" credential ≫= as_object)
              (invalid_badge "credentialSubject must be one JSON object");
  _ ← require_string_array_member (map_get "type" subject) "AchievementSubject" "credentialSubject type";
  _ ← require_non_empty_string (map_get "id" subject) "credentialSubject id";
  achievement ← ok_or (map_get "achievement" subject ≫= as_object) (invalid_badge "achievement must be an object");
  _ ← require_string_array_member (map_get "type" achievement) "Achievement" "achievement type";
  achievement_id ← require_non_empty_string (map_get "id" achievement) "achievement id";
  _ ← lift_oid (fun e => invalid_badge ("achievement id must be an absolute URI: " +:+ e)) (uri_parse achievement_id);
  _ ← require_non_empty_string (map_get "name" achievement) "achievement name";
  _ ← require_non_empty_string (map_get "description" achievement) "achievement description";
  Ok tt.
End profile.

(** ** Preparation and assembly *)

Definition set_if (cond : bool) (key : string) (v : Value) (m : JsonMap) : JsonMap :=
  if cond then map_insert key v m else m.
Definition set_opt (key : string) (v : option Value) (m : JsonMap) : JsonMap :=
  match v with Some v => map_insert key v m | None => m end.

Section preparation.
Context `{Base64Url} `{JsonCodec} `{JwtLib} `{SignerLib} `{IssueClock}.

(** [src/marty-oid4vci/src/formats/jwt_vc.rs:39-50] checked_jwt_vc_expiration *)
Definition checked_jwt_vc_expiration (issued_at : Z) (seconds : option Z) : result (option Z) :=
  match seconds with
  | Some s => t ← ok_or (add_seconds issued_at s) (SigningError JWT_VC_EXPIRATION_OUT_OF_RANGE); Ok (Some t)
  | None => Ok None
  end.

(** [src/marty-oid4vci/src/formats/jwt_vc.rs:619-629] prepare_jwt_vc_with_options, the credential subject *)
Definition subject_of (claims : CredentialClaims) (options : JwtVcPreparationOptions) : Value :=
  match jo_credential_subject options with
  | Some explicit => explicit
  | None => Object (set_opt "id" (VString <$> cc_subject_id claims) (cc_claims claims))
  end.

(** [src/marty-oid4vci/src/formats/jwt_vc.rs:633-637] prepare_jwt_vc_with_options, the types *)
Definition vc_types (claims : CredentialClaims) : list string :=
  ("VerifiableCredential" :: (if String.eqb (cc_credential_type claims) "" then [] else [cc_credential_type claims])
     ++ w3c_types claims)%list.

(** [src/marty-oid4vci/src/formats/jwt_vc.rs:631-679] prepare_jwt_vc_with_options, the credential *)
Definition vc_object (signer : SignerMetadata) (claims : CredentialClaims) (options : JwtVcPreparationOptions)
    (credential_id : string) (now : Z) (expires_at : option Z) : JsonMap :=
  let v2 := bool_decide (credential_payload_format claims = W3cVcdmV2JwtVc) in
  let context := if v2 then VCDM_V2_CONTEXT :: w3c_context claims else [VCDM_V1_CONTEXT] in
  let base := [("@context", strings context); ("type", strings (vc_types claims));
               ("issuer", VString (sg_issuer_id signer));
               (if v2 then "validFrom" else "issuanceDate", VString (format_zulu now));
               ("credentialSubject", subject_of claims options)] in
  set_opt "credentialStatus" (jo_credential_status options)
    (set_opt (if v2 then "validUntil" else "expirationDate") (VString ∘ format_zulu <$> expires_at)
       (set_if (include_vc_id options) "id" (VString credential_id) base)).

(** [src/marty-oid4vci/src/formats/jwt_vc.rs:681-697] prepare_jwt_vc_with_options, the payload *)
Definition jwt_payload (signer : SignerMetadata) (claims : CredentialClaims) (options : JwtVcPreparationOptions)
    (credential_id : string) (now : Z) (expires_at : option Z) : JsonMap :=
  let base := [("iss", VString (sg_issuer_id signer)); ("iat", json_int (timestamp now));
               ("jti", VString credential_id);
               ("vc", Object (vc_object signer claims options credential_id now expires_at))] in
  set_opt "exp" (json_int ∘ timestamp <$> expires_at)
    (set_if (include_nbf options) "nbf" (json_int (timestamp now))
       (if include_subject_claim options then set_opt "sub" (VString <$> cc_subject_id claims) base else base)).

(** [src/marty-oid4vci/src/formats/jwt_vc.rs:699-704] prepare_jwt_vc_with_options, the header *)
Definition jwt_header (signer : SignerMetadata) : JsonMap :=
  [("alg", VString (algorithm_name (sg_algorithm signer))); ("typ", VString "vc+jwt");
   ("kid", VString (sg_kid_url signer))].

(** [src/marty-oid4vci/src/formats/jwt_vc.rs:607-720] prepare_jwt_vc_with_options, at the time [now] with the random identifier [fresh] *)
Definition prepare_jwt_vc_with_options (signer : SignerMetadata) (claims : CredentialClaims)
    (options : JwtVcPreparationOptions) (now : Z) (fresh : string) : result PreparedJwtVc :=
  let credential_id := default ("urn:uuid:" +:+ fresh) (jo_credential_id options) in
  expires_at ← checked_jwt_vc_expiration now (expiration_seconds claims);
  let payload := jwt_payload signer claims options credential_id now expires_at in
  header_str ← lift_oid (fun e => SigningError ("Header serialization failed: " +:+ e))
                 (json_to_string (Object (jwt_header signer)));
  payload_str ← lift_oid (fun e => SigningError ("Payload serialization failed: " +:+ e))
                  (json_to_string (Object payload));
  jwk ← validate_signer_public_jwk signer;
  Ok (mkPreparedJwt (b64_encode (str_bytes header_str) +:+ "." +:+ b64_encode (str_bytes payload_str))
        credential_id (sg_algorithm signer) jwk).

(** [src/marty-oid4vci/src/formats/jwt_vc.rs:598-603] prepare_jwt_vc *)
Definition prepare_jwt_vc (signer : SignerMetadata) (claims : CredentialClaims) (now : Z) (fresh : string) :
    result PreparedJwtVc :=
  prepare_jwt_vc_with_options signer claims jwt_options_default now fresh.

(** [src/marty-oid4vci/src/formats/jwt_vc.rs:250-257] PreparedJwtVc::validate_signature *)
Definition jwt_validate_signature (p : PreparedJwtVc) (signature : bytes) : result unit :=
  verify_remote_signature (pj_algorithm p) (pj_issuer_public_jwk p) (str_bytes (pj_signing_input p)) signature.

(** [src/marty-oid4vci/src/formats/jwt_vc.rs:727-737] assemble_jwt_vc *)
Definition assemble_jwt_vc (p : PreparedJwtVc) (signature : bytes) : result SignedCredential :=
  _ ← jwt_validate_signature p signature;
  Ok (JwtVcJson (pj_signing_input p +:+ "." +:+ b64_encode signature) (pj_credential_id p)).

(** [src/marty-oid4vci/src/formats/jwt_vc.rs:160-167] sign_jwt_vc_with_signer, over what the signer answers *)
Definition sign_jwt_vc_with_signer (signer : SignerMetadata) (sign : bytes -> result bytes)
    (claims : CredentialClaims) (now : Z) (fresh : string) : result SignedCredential :=
  prepared ← prepare_jwt_vc signer claims now fresh;
  signature ← sign (str_bytes (pj_signing_input prepared));
  assemble_jwt_vc prepared signature.
End preparation.
