(* ===== verification/SigningBatch.v ===== *)
(** * Signing batches (marty-oid4vci, [signing_batch.rs])

    A batch of credentials is prepared, signed by one remote signer and assembled,
    all or nothing.  The serial executor calls the signer in order; the concurrent
    one runs workers that claim jobs from shared state.  A signer is a machine: a
    call changes its state and answers a signature, an error or a panic.  A worker
    acts in atomic steps (claim a job, the call returns, record a panic), and an
    execution is a schedule: the list of the workers that act.  The calls of other
    credential formats are parameters; random identifiers are arguments. *)

From S2P Require Import Prelude Des Governance PolicyService EvidencePolicy Issuance JwtVc.
Local Open Scope string_scope.
Local Open Scope Z_scope.

#[local] Abbreviation bytes := (list Z).

(** [src/marty-oid4vci/src/signing_batch.rs:47-47] MAX_CONCURRENT_SIGNING_WORKERS *)
Definition MAX_CONCURRENT_SIGNING_WORKERS : Z := 64.

(** ** Inputs *)

(** [src/marty-oid4vci/src/signing_batch.rs:99-102] JwtVcSigningBatchInput *)
Record JwtVcSigningBatchInput := mkJwtInput { ji_route_id : Z; ji_claims : CredentialClaims }.

(** [src/marty-oid4vci/src/signing_batch.rs:131-135] SdJwtSigningBatchInput *)
Record SdJwtSigningBatchInput := mkSdInput {
  si_route_id : Z; si_claims : CredentialClaims; si_holder_public_jwk : JwkParams;
}.

(** [src/marty-oid4vci/src/signing_batch.rs:186-189] MdocSigningBatchInput *)
Record MdocSigningBatchInput := mkMdocInput { mi_route_id : Z; mi_claims : CredentialClaims }.

(** [src/marty-oid4vci/src/signing_batch.rs:146-160] SdJwtSigningBatchInput::new, whether a JWK holds private material *)
Definition has_private_material (params : JwkParams) : bool :=
  match params with
  | JwkOKP _ _ private | JwkEC _ _ _ private | JwkRSA private => private
  | JwkSymmetric => true
  end.

(** [src/marty-oid4vci/src/signing_batch.rs:141-171] SdJwtSigningBatchInput::new *)
Definition sd_jwt_input_new (route_id : Z) (claims : CredentialClaims) (verified_holder_jwk : JwkParams) :
    res Oid4vciError SdJwtSigningBatchInput :=
  _ ← ensure (negb (has_private_material verified_holder_jwk))
        (Oid4vciInvalidRequest "SD-JWT batch input requires a verified public holder JWK");
  Ok (mkSdInput route_id claims verified_holder_jwk).

(** [src/marty-oid4vci/src/signing_batch.rs:216-223] Es256SigningBatchInput *)
Inductive Es256SigningBatchInput :=
| BatchJwtVc (input : JwtVcSigningBatchInput)
| BatchSdJwt (input : SdJwtSigningBatchInput)
| BatchMdoc (input : MdocSigningBatchInput).

(** [src/marty-oid4vci/src/signing_batch.rs:254-260] Es256SigningBatchInput::route_id *)
Definition route_id (input : Es256SigningBatchInput) : Z :=
  match input with
  | BatchJwtVc i => ji_route_id i | BatchSdJwt i => si_route_id i | BatchMdoc i => mi_route_id i
  end.

(** ** Errors *)

(** [src/marty-oid4vci/src/signing_batch.rs:265-285] SigningBatchErrorKind *)
Inductive SigningBatchErrorKind :=
| InvalidScope | DuplicateRoute | PreparationFailed | SignerMetadataChanged
| ExecutorFailed | InvalidExecutorResults | InvalidSignature | AssemblyFailed.
#[export] Instance SigningBatchErrorKind_eq_dec : EqDecision SigningBatchErrorKind.
Proof. solve_decision. Defined.

(** [src/marty-oid4vci/src/signing_batch.rs:287-300] SigningBatchErrorKind::message *)
Definition batch_error_message (k : SigningBatchErrorKind) : string :=
  match k with
  | InvalidScope => "ES256 signing batch scope is invalid"
  | DuplicateRoute => "ES256 signing batch contains a duplicate route"
  | PreparationFailed => "ES256 signing batch preparation failed"
  | SignerMetadataChanged => "ES256 signing batch signer metadata changed"
  | ExecutorFailed => "ES256 signing batch execution failed"
  | InvalidExecutorResults => "ES256 signing batch results are invalid"
  | InvalidSignature => "ES256 signing batch signature is invalid"
  | AssemblyFailed => "ES256 signing batch assembly failed"
  end.

(** [src/marty-oid4vci/src/signing_batch.rs:328-346] SigningBatchError, batch and item *)
Record SigningBatchError := mkBatchError { be_kind : SigningBatchErrorKind; item_ordinal : option nat }.
Definition batch_error (k : SigningBatchErrorKind) : SigningBatchError := mkBatchError k None.
Definition item_error (k : SigningBatchErrorKind) (ordinal : nat) : SigningBatchError :=
  mkBatchError k (Some ordinal).

#[local] Abbreviation result := (res SigningBatchError).

(** ** Routes *)

(** [src/marty-oid4vci/src/signing_batch.rs:617-628] validate_unique_routes, the loop *)
Fixpoint route_loop (routes : list Z) (ordinal : nat) (first_ordinals : gmap Z nat) (lowest : option nat) :
    option nat :=
  match routes with
  | [] => lowest
  | route :: rest =>
      match first_ordinals !! route with
      | Some first =>
          route_loop rest (S ordinal) first_ordinals
            (Some (match lowest with Some l => Nat.min l first | None => first end))
      | None => route_loop rest (S ordinal) (<[route := ordinal]> first_ordinals) lowest
      end
  end.

(** [src/marty-oid4vci/src/signing_batch.rs:616-636] validate_unique_routes *)
Definition validate_unique_routes (inputs : list Es256SigningBatchInput) : result unit :=
  match route_loop (route_id <$> inputs) 0 ∅ None with
  | Some ordinal => Err (item_error DuplicateRoute ordinal)
  | None => Ok tt
  end.

(** ** The frozen identity of a signer *)

(** [src/marty-oid4vci/src/signing_batch.rs:638-643] FrozenSignerIdentity *)
Record FrozenSignerIdentity := mkIdentity {
  fi_algorithm : SigningAlgorithm; fi_issuer_id : string; fi_kid_url : string; fi_public_jwk : string;
}.

(** [src/marty-oid4vci/src/signing_batch.rs:663-673] FrozenSignerIdentity::validate *)
Definition identity_validate (i : FrozenSignerIdentity) : result unit :=
  ensure (negb (negb (bool_decide (fi_algorithm i = ES256)) || String.eqb (str_trim (fi_issuer_id i)) ""
                || String.eqb (str_trim (fi_kid_url i)) ""))
    (batch_error InvalidScope).

(** [src/marty-oid4vci/src/signing_batch.rs:646-661] FrozenSignerIdentity::capture *)
Definition identity_capture (signer : SignerMetadata) : result FrozenSignerIdentity :=
  public_jwk ← map_err (fun _ => batch_error InvalidScope) (sg_public_jwk signer);
  let identity := mkIdentity (sg_algorithm signer) (sg_issuer_id signer) (sg_kid_url signer) public_jwk in
  _ ← identity_validate identity;
  Ok identity.

(** [src/marty-oid4vci/src/signing_batch.rs:675-682] FrozenSignerIdentity::matches *)
Definition identity_matches (i : FrozenSignerIdentity) (signer : SignerMetadata) : bool :=
  bool_decide (sg_algorithm signer = fi_algorithm i) && String.eqb (sg_issuer_id signer) (fi_issuer_id i)
  && String.eqb (sg_kid_url signer) (fi_kid_url i)
  && match sg_public_jwk signer with Ok jwk => String.eqb jwk (fi_public_jwk i) | _ => false end.

(** [src/marty-oid4vci/src/signing_batch.rs:699-721] FrozenPreparationSigner, as the preparation reads it *)
Definition preparation_signer (i : FrozenSignerIdentity) : SignerMetadata :=
  mkSigner (fi_algorithm i) (fi_issuer_id i) (fi_kid_url i) (Ok (fi_public_jwk i)).

(** ** Prepared batches *)

(** [src/marty-oid4vci/src/signing_batch.rs:724-729] SigningJobIdentity *)
Record SigningJobIdentity := mkJobIdentity { scope_id : string; batch_id : string; job_route : Z; job_id : Z }.
#[export] Instance SigningJobIdentity_eq_dec : EqDecision SigningJobIdentity.
Proof. solve_decision. Defined.
#[export] Instance SigningJobIdentity_countable : Countable SigningJobIdentity.
Proof.
  refine (inj_countable' (fun i => (scope_id i, batch_id i, job_route i, job_id i))
            (fun '(s, b, r, j) => mkJobIdentity s b r j) _).
  by intros [].
Defined.

(** The formats of [formats/sd_jwt.rs] and [formats/mdoc.rs]: preparation, with what
    is drawn at random, the payload to sign, and assembly. *)
Class OtherFormats := {
  PreparedSdJwt : Type;
  PreparedMdoc : Type;
  prepare_sd_jwt : SignerMetadata -> CredentialClaims -> JwkParams -> Z -> string -> res Oid4vciError PreparedSdJwt;
  prepare_mdoc : SignerMetadata -> CredentialClaims -> Z -> string -> res Oid4vciError PreparedMdoc;
  sd_jwt_payload : PreparedSdJwt -> bytes;
  mdoc_payload : PreparedMdoc -> bytes;
  assemble_sd_jwt : PreparedSdJwt -> bytes -> res Oid4vciError SignedCredential;
  assemble_mdoc : PreparedMdoc -> bytes -> res Oid4vciError SignedCredential;
}.

(** [src/marty-oid4vci/src/signing_batch.rs:832-835] SigningJob *)
Record SigningJob := mkJob { job_identity : SigningJobIdentity; job_payload : bytes }.

(** [src/marty-oid4vci/src/signing_batch.rs:842-846] SigningOutcome *)
Inductive SigningOutcome := OutSignature (signature : bytes) | OutFailed.

(** [src/marty-oid4vci/src/signing_batch.rs:837-840] SigningResult *)
Record SigningResult := mkSigningResult { sr_identity : SigningJobIdentity; sr_outcome : SigningOutcome }.

(** ** Signers and executors *)

(** A signer: its state, the answer to a call in a state (a signature, an error or
    a panic), and what is read of it in a state. *)
Record Signer := mkSignerMachine {
  signer_state : Type;
  signer_sign : signer_state -> bytes -> signer_state * res Oid4vciError bytes;
  signer_reads : signer_state -> SignerMetadata;
}.

(** [src/marty-oid4vci/src/signing_batch.rs:848-852] SigningExecutionError *)
Record SigningExecutionError := mkExecError { ee_ordinal : option nat }.

Section executors.
Variable signer : Signer.
#[local] Abbreviation St := (signer_state signer).

(** [src/marty-oid4vci/src/signing_batch.rs:873-884] SerialSigningExecutor::execute, the loop *)
Fixpoint serial_loop (jobs : list SigningJob) (ordinal : nat) (s : St) :
    St * res SigningExecutionError (list SigningResult) :=
  match jobs with
  | [] => (s, Ok [])
  | job :: rest =>
      let '(s, answer) := signer_sign signer s (job_payload job) in
      match answer with
      | Ok signature =>
          let '(s, rest) := serial_loop rest (S ordinal) s in
          (s, rs ← rest; Ok (mkSigningResult (job_identity job) (OutSignature signature) :: rs))
      | Err _ => (s, Err (mkExecError (Some ordinal)))
      | Panic => (s, Panic)
      end
  end.

(** [src/marty-oid4vci/src/signing_batch.rs:867-885] SerialSigningExecutor::execute *)
Definition serial_execute (jobs : list SigningJob) (s : St) : St * res SigningExecutionError (list SigningResult) :=
  serial_loop jobs 0 s.

(** What a worker does next: claim a job, wait for the answer to the job it
    claimed, record the panic of that call, or nothing. *)
Inductive Phase := Idle | Signing (ordinal : nat) | Panicking | Done.

(** A worker: its phase and the results of its body. *)
Record Worker := mkWorker { w_phase : Phase; w_results : list SigningResult }.

(** [src/marty-oid4vci/src/signing_batch.rs:956-965] ConcurrentExecutionState, with the signer and the workers *)
Record Pool := mkPool {
  p_signer : St;
  next_ordinal : nat;
  stopped : bool;
  first_panic : bool;
  workers : list Worker;
}.

(** [src/marty-oid4vci/src/signing_batch.rs:969-977] ConcurrentExecutionState::new, with [n] workers *)
Definition pool_new (s : St) (n : nat) : Pool := mkPool s 0 false false (replicate n (mkWorker Idle [])).

Definition set_worker (p : Pool) (i : nat) (w : Worker) : Pool :=
  mkPool (p_signer p) (next_ordinal p) (stopped p) (first_panic p) (<[i := w]> (workers p)).

(** [src/marty-oid4vci/src/signing_batch.rs:979-990] ConcurrentExecutionState::claim, by worker [i] *)
Definition claim_job (job_count : nat) (i : nat) (w : Worker) (p : Pool) : Pool :=
  if stopped p || (job_count <=? next_ordinal p)%nat then set_worker p i (mkWorker Done (w_results w))
  else
    mkPool (p_signer p) (S (next_ordinal p)) (stopped p) (first_panic p)
      (<[i := mkWorker (Signing (next_ordinal p)) (w_results w)]> (workers p)).

(** [src/marty-oid4vci/src/signing_batch.rs:992-1001] ConcurrentExecutionState::record_panic, at the boundary of worker [i] *)
Definition record_panic (i : nat) (p : Pool) : Pool :=
  mkPool (p_signer p) (next_ordinal p) true true (<[i := mkWorker Done []]> (workers p)).

(** [src/marty-oid4vci/src/signing_batch.rs:1037-1052] execute_concurrent_signing_worker, the return of a call *)
Definition call_returns (job : SigningJob) (i : nat) (w : Worker) (p : Pool) : Pool :=
  let '(s, answer) := signer_sign signer (p_signer p) (job_payload job) in
  let push outcome :=
    mkWorker Idle (w_results w ++ [mkSigningResult (job_identity job) outcome]) in
  mkPool s (next_ordinal p) (stopped p) (first_panic p)
    (<[i := match answer with
            | Ok signature => push (OutSignature signature)
            | Err _ => push OutFailed
            | Panic => mkWorker Panicking (w_results w)
            end]> (workers p)).

(** [src/marty-oid4vci/src/signing_batch.rs:1013-1054] execute_concurrent_signing_worker_boundary, one step of worker [i]; a claimed ordinal is below the number of jobs *)
Definition worker_step (jobs : list SigningJob) (p : Pool) (i : nat) : option Pool :=
  w ← workers p !! i;
  match w_phase w with
  | Idle => Some (claim_job (length jobs) i w p)
  | Signing ordinal => job ← jobs !! ordinal; Some (call_returns job i w p)
  | Panicking => Some (record_panic i p)
  | Done => None
  end.

(** A schedule: the workers that act, in order. *)
Fixpoint run_pool (jobs : list SigningJob) (p : Pool) (schedule : list nat) : option Pool :=
  match schedule with
  | [] => Some p
  | i :: rest => p ← worker_step jobs p i; run_pool jobs p rest
  end.

Definition all_done (p : Pool) : Prop := Forall (fun w => w_phase w = Done) (workers p).

(** [src/marty-oid4vci/src/signing_batch.rs:918-952] ConcurrentSigningExecutor::execute, what a finished pool returns *)
Definition pool_result (p : Pool) : res SigningExecutionError (list SigningResult) :=
  if first_panic p then Panic else Ok (concat (w_results <$> workers p)).

(** [src/marty-oid4vci/src/signing_batch.rs:898-952] ConcurrentSigningExecutor::execute: without jobs nothing runs; otherwise from one worker, the caller, to the smaller of the limit and the number of jobs *)
Inductive concurrent_execute (limit : nat) (jobs : list SigningJob) (s : St) :
    St -> res SigningExecutionError (list SigningResult) -> Prop :=
| exec_empty : jobs = [] -> concurrent_execute limit jobs s s (Ok [])
| exec_pool n schedule p :
    jobs <> [] -> (1 <= n <= Nat.min limit (length jobs))%nat ->
    run_pool jobs (pool_new s n) schedule = Some p -> all_done p ->
    concurrent_execute limit jobs s (p_signer p) (pool_result p).
End executors.

(** ** Results of an executor *)

Section batches.
Context `{Base64Url} `{JsonCodec} `{JwtLib} `{SignerLib} `{IssueClock} `{OtherFormats}.

(** [src/marty-oid4vci/src/signing_batch.rs:1071-1078] validate_executor_results, the expected identities *)
Fixpoint expected_jobs (jobs : list SigningJob) (ordinal : nat) (expected : gmap SigningJobIdentity nat) :
    result (gmap SigningJobIdentity nat) :=
  match jobs with
  | [] => Ok expected
  | job :: rest =>
      _ ← ensure (bool_decide (expected !! job_identity job = None)) (batch_error InvalidExecutorResults);
      expected_jobs rest (S ordinal) (<[job_identity job := ordinal]> expected)
  end.

(** [src/marty-oid4vci/src/signing_batch.rs:1080-1093] validate_executor_results, the loop over the results *)
Fixpoint outcome_loop (results : list SigningResult) (expected : gmap SigningJobIdentity nat)
    (outcomes : list (option SigningOutcome)) :
    result (gmap SigningJobIdentity nat * list (option SigningOutcome)) :=
  match results with
  | [] => Ok (expected, outcomes)
  | r :: rest =>
      ordinal ← ok_or (expected !! sr_identity r) (batch_error InvalidExecutorResults);
      old ← expect (outcomes !! ordinal);
      _ ← ensure (bool_decide (old = None)) (batch_error InvalidExecutorResults);
      outcome_loop rest (delete (sr_identity r) expected) (<[ordinal := Some (sr_outcome r)]> outcomes)
  end.

Definition is_failed (o : option SigningOutcome) : bool :=
  match o with Some OutFailed => true | _ => false end.

(** [Iterator::position]. *)
Fixpoint position {A} (f : A -> bool) (l : list A) : option nat :=
  match l with
  | [] => None
  | a :: l => if f a then Some O else S <$> position f l
  end.

(** [src/marty-oid4vci/src/signing_batch.rs:1112-1128] validate_executor_results, the signatures *)
Fixpoint signature_loop (outcomes : list (option SigningOutcome)) (ordinal : nat) : result (list bytes) :=
  match outcomes with
  | [] => Ok []
  | Some (OutSignature signature) :: rest =>
      _ ← ensure (zlen signature =? 64) (item_error InvalidSignature ordinal);
      _ ← ensure (match ec_signature ES256 signature with inr _ => true | inl _ => false end)
            (item_error InvalidSignature ordinal);
      raws ← signature_loop rest (S ordinal);
      Ok (signature :: raws)
  | _ :: _ => Panic
  end.

(** [src/marty-oid4vci/src/signing_batch.rs:1058-1129] validate_executor_results *)
Definition validate_executor_results (jobs : list SigningJob) (results : list SigningResult) : result (list bytes) :=
  _ ← ensure (zlen results =? zlen jobs) (batch_error InvalidExecutorResults);
  expected ← expected_jobs jobs 0 ∅;
  '(expected, outcomes) ← outcome_loop results expected (replicate (length jobs) None);
  _ ← ensure (negb (negb (bool_decide (expected = ∅)) || existsb (fun o => bool_decide (o = None)) outcomes))
        (batch_error InvalidExecutorResults);
  match position is_failed outcomes with
  | Some ordinal => Err (item_error ExecutorFailed ordinal)
  | None => signature_loop outcomes 0
  end.

(** ** Preparation and assembly *)

(** [src/marty-oid4vci/src/signing_batch.rs:743-747] PreparedCredential *)
Inductive PreparedCredential :=
| PcJwtVc (p : PreparedJwtVc) | PcSdJwt (p : PreparedSdJwt) | PcMdoc (p : PreparedMdoc).

(** [src/marty-oid4vci/src/signing_batch.rs:749-757] PreparedCredential::signing_payload *)
Definition signing_payload (c : PreparedCredential) : bytes :=
  match c with
  | PcJwtVc p => str_bytes (pj_signing_input p) | PcSdJwt p => sd_jwt_payload p | PcMdoc p => mdoc_payload p
  end.

(** [src/marty-oid4vci/src/signing_batch.rs:759-762] PreparedSigningItem *)
Record PreparedSigningItem := mkItem { it_identity : SigningJobIdentity; it_credential : PreparedCredential }.

(** [src/marty-oid4vci/src/signing_batch.rs:783-802] PreparedSigningBatch::prepare, one input *)
Definition prepare_input (signer : SignerMetadata) (input : Es256SigningBatchInput) (now : Z) (fresh : string) :
    res Oid4vciError PreparedCredential :=
  match input with
  | BatchJwtVc i => p ← prepare_jwt_vc signer (ji_claims i) now fresh; Ok (PcJwtVc p)
  | BatchSdJwt i => p ← prepare_sd_jwt signer (si_claims i) (si_holder_public_jwk i) now fresh; Ok (PcSdJwt p)
  | BatchMdoc i => p ← prepare_mdoc signer (mi_claims i) now fresh; Ok (PcMdoc p)
  end.

(** What is drawn while a batch is prepared: its identifier, and the time and the
    random identifier of each input. *)
Record Draws := mkDraws { d_batch_id : string; d_now : nat -> Z; d_fresh : nat -> string }.

(** [src/marty-oid4vci/src/signing_batch.rs:778-816] PreparedSigningBatch::prepare, the loop over the inputs *)
Fixpoint prepare_loop (i : FrozenSignerIdentity) (scope : string) (draws : Draws)
    (inputs : list Es256SigningBatchInput) (ordinal : nat) : result (list PreparedSigningItem) :=
  match inputs with
  | [] => Ok []
  | input :: rest =>
      credential ← map_err (fun _ => item_error PreparationFailed ordinal)
                     (prepare_input (preparation_signer i) input (d_now draws ordinal) (d_fresh draws ordinal));
      items ← prepare_loop i scope draws rest (S ordinal);
      Ok (mkItem (mkJobIdentity scope (d_batch_id draws) (route_id input) (Z.of_nat ordinal)) credential :: items)
  end.

(** [src/marty-oid4vci/src/signing_batch.rs:769-819] PreparedSigningBatch::prepare *)
Definition batch_prepare (i : FrozenSignerIdentity) (scope : string) (draws : Draws)
    (inputs : list Es256SigningBatchInput) : result (list PreparedSigningItem) :=
  prepare_loop i scope draws inputs 0.

(** [src/marty-oid4vci/src/signing_batch.rs:821-829] PreparedSigningBatch::jobs *)
Definition batch_jobs (items : list PreparedSigningItem) : list SigningJob :=
  (fun it => mkJob (it_identity it) (signing_payload (it_credential it))) <$> items.

(** [src/marty-oid4vci/src/signing_batch.rs:1142-1161] CanonicalAssembler::assemble *)
Definition assemble_credential (c : PreparedCredential) (signature : bytes) : res Oid4vciError SignedCredential :=
  match c with
  | PcJwtVc p => assemble_jwt_vc p signature
  | PcSdJwt p => assemble_sd_jwt p signature
  | PcMdoc p => assemble_mdoc p signature
  end.

(** [src/marty-oid4vci/src/signing_batch.rs:1163-1178] assemble_credentials *)
Fixpoint assemble_credentials (items : list PreparedSigningItem) (signatures : list bytes) (ordinal : nat) :
    result (list SignedCredential) :=
  match items, signatures with
  | item :: items, signature :: signatures =>
      credential ← map_err (fun _ => item_error AssemblyFailed ordinal) (assemble_credential (it_credential item) signature);
      rest ← assemble_credentials items signatures (S ordinal);
      Ok (credential :: rest)
  | _, _ => Ok []
  end.

(** ** Scopes *)

(** [src/marty-oid4vci/src/signing_batch.rs:384-388] Es256SignerScope, over the signer it borrows *)
Record SignerScope := mkScope { sc_identity : FrozenSignerIdentity; sc_id : string }.

(** [src/marty-oid4vci/src/signing_batch.rs:398-405] Es256SignerScope::new, with the random identifier of the scope *)
Definition scope_new (signer : SignerMetadata) (fresh : string) : result SignerScope :=
  identity ← identity_capture signer;
  Ok (mkScope identity fresh).

(** [src/marty-oid4vci/src/signing_batch.rs:428-431] sign_batch_with_components, until the signer is called; the concurrent scope does the same *)
Definition prepare_batch (scope : SignerScope) (draws : Draws) (inputs : list Es256SigningBatchInput) :
    result (list PreparedSigningItem) :=
  _ ← identity_validate (sc_identity scope);
  _ ← validate_unique_routes inputs;
  batch_prepare (sc_identity scope) (sc_id scope) draws inputs.

(** [src/marty-oid4vci/src/signing_batch.rs:443-451] sign_batch_with_components, the error of an executor *)
Definition executor_error (e : SigningExecutionError) : SigningBatchError :=
  match ee_ordinal e with
  | Some ordinal => item_error ExecutorFailed ordinal
  | None => batch_error ExecutorFailed
  end.

(** [src/marty-oid4vci/src/signing_batch.rs:441-456] sign_batch_with_components, after the signer was called *)
Definition finish_batch (items : list PreparedSigningItem)
    (execution : res SigningExecutionError (list SigningResult)) : result (list SignedCredential) :=
  results ← map_err executor_error execution;
  signatures ← validate_executor_results (batch_jobs items) results;
  assemble_credentials items signatures 0.

Variable signer : Signer.
#[local] Abbreviation St := (signer_state signer).

(** [src/marty-oid4vci/src/signing_batch.rs:415-456] Es256SignerScope::sign_batch *)
Definition sign_batch (scope : SignerScope) (draws : Draws) (inputs : list Es256SigningBatchInput) (s : St) :
    St * result (list SignedCredential) :=
  match prepare_batch scope draws inputs with
  | Ok items =>
      if negb (identity_matches (sc_identity scope) (signer_reads signer s))
      then (s, Err (batch_error SignerMetadataChanged))
      else
        let '(s, execution) := serial_execute signer (batch_jobs items) s in
        (s, finish_batch items execution)
  | Err e => (s, Err e)
  | Panic => (s, Panic)
  end.

(** [src/marty-oid4vci/src/signing_batch.rs:496-542] ConcurrentEs256SignerScope, its limit on workers *)
Definition worker_limit (authorized : Z) : nat := Z.to_nat (Z.min authorized MAX_CONCURRENT_SIGNING_WORKERS).

(** A panic of the executor is resumed before the metadata are read again. *)
Definition after_execution (scope : SignerScope) (s : St) (items : list PreparedSigningItem)
    (execution : res SigningExecutionError (list SigningResult)) : result (list SignedCredential) :=
  match execution with
  | Panic => Panic
  | _ =>
      if negb (identity_matches (sc_identity scope) (signer_reads signer s))
      then Err (batch_error SignerMetadataChanged)
      else finish_batch items execution
  end.

(** [src/marty-oid4vci/src/signing_batch.rs:559-613] ConcurrentEs256SignerScope::sign_batch_concurrently, its results over all schedules *)
Inductive sign_batch_concurrently (scope : SignerScope) (authorized : Z) (draws : Draws)
    (inputs : list Es256SigningBatchInput) (s : St) : St -> result (list SignedCredential) -> Prop :=
| sbc_refused r :
    match prepare_batch scope draws inputs with
    | Ok _ => identity_matches (sc_identity scope) (signer_reads signer s) = false /\
              r = Err (batch_error SignerMetadataChanged)
    | Err e => r = Err e
    | Panic => r = Panic
    end ->
    sign_batch_concurrently scope authorized draws inputs s s r
| sbc_executed items s' execution :
    prepare_batch scope draws inputs = Ok items ->
    identity_matches (sc_identity scope) (signer_reads signer s) = true ->
    concurrent_execute signer (worker_limit authorized) (batch_jobs items) s s' execution ->
    sign_batch_concurrently scope authorized draws inputs s s' (after_execution scope s' items execution).
End batches.
