(* ===== verification/SigningBatchFacts.v ===== *)
(** * Signing batches: theorems (marty-oid4vci, [signing_batch.rs])

    Duplicate routes are found at the lowest ordinal.  Whatever the schedule of the
    workers, every job crosses the signer exactly once and the pool finishes within
    a bound; results are accepted exactly when they match the jobs one to one, in
    any order; a concurrent batch returns what the serial one returns; and every
    credential of a batch is the one of its input, with a signature for its own
    payload. *)

From S2P Require Import Prelude Des Governance PolicyService EvidencePolicy Issuance JwtVc SigningBatch.
Local Open Scope string_scope.
Local Open Scope Z_scope.

#[local] Abbreviation bytes := (list Z).

(** ** Routes *)

(** The position [k] holds a value that occurs again. *)
Definition repeated {A} (l : list A) (k : nat) : Prop :=
  exists r j, l !! k = Some r /\ (k < j)%nat /\ l !! j = Some r.

Lemma repeated_NoDup {A} (l : list A) : NoDup l <-> forall k, ~ repeated l k.
Proof.
  rewrite NoDup_alt. split.
  - intros Hnd k (r & j & Hk & Hlt & Hj). specialize (Hnd k j r Hk Hj). lia.
  - intros Hnone i j r Hi Hj. destruct (Nat.lt_trichotomy i j) as [Hlt|[->|Hlt]]; [|done|].
    + exfalso. apply (Hnone i). by exists r, j.
    + exfalso. apply (Hnone j). by exists r, i.
Qed.

Lemma repeated_snoc {A} (l : list A) x k : repeated (l ++ [x])%list k <-> repeated l k \/ l !! k = Some x.
Proof.
  split.
  - intros (r & j & Hk & Hlt & Hj). apply lookup_snoc_Some in Hj as [[Hj Hl]|[-> <-]].
    + left. exists r, j. rewrite lookup_app_l in Hk by lia. done.
    + right. by rewrite lookup_app_l in Hk by lia.
  - intros [(r & j & Hk & Hlt & Hj)|Hk].
    + exists r, j. by rewrite !lookup_app_l by (by eapply lookup_lt_Some).
    + pose proof (lookup_lt_Some _ _ _ Hk). exists x, (length l). split; [by rewrite lookup_app_l|].
      split; [done|]. by apply list_lookup_middle.
Qed.

Lemma first_occurrence (l : list Z) r : r ∈ l -> exists k, l !! k = Some r /\ forall j, (j < k)%nat -> l !! j <> Some r.
Proof.
  induction l as [|x l IH]; intros Hr; [by apply elem_of_nil in Hr|].
  destruct (decide (x = r)) as [->|Hne]; [exists O; split; [done|lia]|].
  apply elem_of_cons in Hr as [->|Hr]; [done|]. destruct (IH Hr) as (k & Hk & Hfirst).
  exists (S k). split; [done|]. intros [|j] Hj; cbn; [congruence|]. apply Hfirst. lia.
Qed.

Definition first_at (l : list Z) (r : Z) (k : nat) : Prop :=
  l !! k = Some r /\ forall j, (j < k)%nat -> l !! j <> Some r.

Definition lowest_repeated {A} (l : list A) (lowest : option nat) : Prop :=
  match lowest with
  | None => forall k, ~ repeated l k
  | Some k => repeated l k /\ forall j, (j < k)%nat -> ~ repeated l j
  end.

Lemma first_at_snoc l x r k : first_at (l ++ [x])%list r k <->
  first_at l r k \/ (r = x /\ k = length l /\ forall j, l !! j <> Some x).
Proof.
  unfold first_at. split.
  - intros [Hk Hf]. apply lookup_snoc_Some in Hk as [[Hlt Hk]|[-> <-]].
    + left. split; [done|]. intros j Hj Hl. apply (Hf j Hj). by rewrite lookup_app_l by lia.
    + right. split; [done|]. split; [done|]. intros j Hl. pose proof (lookup_lt_Some _ _ _ Hl).
      apply (Hf j); [done|]. by rewrite lookup_app_l by lia.
  - intros [[Hk Hf]|(-> & -> & Hnone)].
    + pose proof (lookup_lt_Some _ _ _ Hk). split; [by rewrite lookup_app_l by lia|].
      intros j Hj. rewrite lookup_app_l by lia. by apply Hf.
    + split; [by apply list_lookup_middle|]. intros j Hj. rewrite lookup_app_l by lia. apply Hnone.
Qed.

Lemma first_at_unique l r j k : first_at l r j -> first_at l r k -> j = k.
Proof.
  intros [Hj Hfj] [Hk Hfk]. destruct (Nat.lt_trichotomy j k) as [Hlt|[->|Hlt]]; [|done|].
  - by destruct (Hfk j Hlt).
  - by destruct (Hfj k Hlt).
Qed.

(** The loop keeps the first ordinal of each route and the lowest repeated one. *)
Lemma route_loop_spec routes : forall dn first lowest,
  (forall r k, first !! r = Some k <-> first_at dn r k) -> lowest_repeated dn lowest ->
  lowest_repeated (dn ++ routes) (route_loop routes (length dn) first lowest).
Proof.
  induction routes as [|x routes IH]; intros dn first lowest Hfirst Hlow; cbn [route_loop]; [by rewrite app_nil_r|].
  replace (dn ++ x :: routes)%list with ((dn ++ [x]) ++ routes)%list by by rewrite <- app_assoc.
  assert (Hlen : S (length dn) = length (dn ++ [x])) by (rewrite length_app; cbn; lia). rewrite Hlen.
  destruct (first !! x) as [f|] eqn:Hx.
  - pose proof (proj1 (Hfirst x f) Hx) as Hf. apply IH.
    + intros r k. rewrite Hfirst, first_at_snoc. split; [tauto|]. intros [?|(-> & _ & Hnone)]; [done|].
      exfalso. by apply (Hnone f), Hf.
    + assert (Hmin : forall k, dn !! k = Some x -> (f <= k)%nat).
      { intros k Hk. destruct (Nat.le_gt_cases f k) as [|Hlt]; [done|]. by destruct (proj2 Hf k Hlt). }
      destruct lowest as [l|]; cbn [lowest_repeated] in *.
      * destruct Hlow as [Hl Hbelow]. split.
        -- apply repeated_snoc. destruct (Nat.min_spec l f) as [[_ ->]|[_ ->]]; [by left|right; apply Hf].
        -- intros j Hj [Hrep|Hj']%repeated_snoc; [apply (Hbelow j); [lia|done]|]. specialize (Hmin j Hj'). lia.
      * split; [apply repeated_snoc; right; apply Hf|].
        intros j Hj [Hrep|Hj']%repeated_snoc; [by apply (Hlow j)|]. specialize (Hmin j Hj'). lia.
  - assert (Hnone : forall j, dn !! j <> Some x).
    { intros j Hj. destruct (first_occurrence dn x) as (k & Hk); [by eapply list_elem_of_lookup_2|].
      apply Hfirst in Hk. congruence. }
    apply IH.
    + intros r k. rewrite first_at_snoc. destruct (decide (r = x)) as [->|Hne].
      * rewrite lookup_insert_eq. split; [intros [= <-]; right; done|].
        intros [[Hk _]|(_ & -> & _)]; [by destruct (Hnone k)|done].
      * rewrite lookup_insert_ne by done. rewrite Hfirst. naive_solver.
    + destruct lowest as [l|]; cbn [lowest_repeated] in *.
      * destruct Hlow as [Hl Hbelow]. split; [apply repeated_snoc; by left|].
        intros j Hj [Hrep|Hj']%repeated_snoc; [by apply (Hbelow j)|by destruct (Hnone j)].
      * intros k [Hrep|Hk]%repeated_snoc; [by apply (Hlow k)|by destruct (Hnone k)].
Qed.

(** Routes are accepted exactly when they are distinct; otherwise the error names
    the lowest ordinal whose route occurs again. *)
Lemma unique_routes_exact inputs :
  match validate_unique_routes inputs with
  | Ok _ => NoDup (route_id <$> inputs)
  | Err e => exists k, e = item_error DuplicateRoute k /\ repeated (route_id <$> inputs) k /\
      forall j, (j < k)%nat -> ~ repeated (route_id <$> inputs) j
  | Panic => False
  end.
Proof.
  unfold validate_unique_routes.
  pose proof (route_loop_spec (route_id <$> inputs) [] ∅ None) as Hspec. cbn [app length] in Hspec.
  destruct (route_loop (route_id <$> inputs) 0 ∅ None) as [k|]; cbn [lowest_repeated] in Hspec.
  - destruct Hspec as [Hk Hbelow]; [|intros k' (r & j & Hl & _); done|by exists k].
    intros r k'. rewrite lookup_empty. split; [done|]. intros [Hl _]. done.
  - apply repeated_NoDup. apply Hspec; [|intros k' (r & j & Hl & _); done].
    intros r k'. rewrite lookup_empty. split; [done|]. intros [Hl _]. done.
Qed.

(** ** Results of an executor *)

Definition identities (jobs : list SigningJob) : list SigningJobIdentity := job_identity <$> jobs.

(** The results that answer the jobs with the outcomes [os], in the order of the jobs. *)
Definition in_order (jobs : list SigningJob) (os : list SigningOutcome) : list SigningResult :=
  zip_with mkSigningResult (identities jobs) os.

Lemma expected_jobs_Ok jobs : forall k m, NoDup (identities jobs) ->
  (forall id, id ∈ identities jobs -> m !! id = None) ->
  exists m', expected_jobs jobs k m = Ok m' /\
    forall id j, m' !! id = Some j <-> m !! id = Some j \/ exists i, identities jobs !! i = Some id /\ j = (k + i)%nat.
Proof.
  induction jobs as [|job jobs IH]; intros k m Hnd Hm; cbn [expected_jobs].
  { exists m. split; [done|]. intros id j. naive_solver. }
  unfold identities in *. rewrite fmap_cons in *. apply NoDup_cons in Hnd as [Hni Hnd].
  rewrite bool_decide_true by (apply Hm; by left). cbn [ensure mbind res_bind].
  destruct (IH (S k) (<[job_identity job := k]> m)) as (m' & Hm' & Hspec); [done| |].
  { intros id Hid. rewrite lookup_insert_ne; [apply Hm; by right|]. by intros <-. }
  exists m'. split; [done|]. intros id j. rewrite Hspec. destruct (decide (id = job_identity job)) as [->|Hne].
  - rewrite lookup_insert_eq, (Hm (job_identity job)) by by left. split.
    + intros [[= <-]|(i & Hi & ->)]; right; [exists O; split; [done|lia]|].
      exfalso. apply Hni. by eapply list_elem_of_lookup_2.
    + intros [?|([|i] & Hi & ->)]; [done|left; f_equal; lia|]. exfalso. apply Hni. by eapply list_elem_of_lookup_2.
  - rewrite lookup_insert_ne by done. split.
    + intros [?|(i & Hi & ->)]; [by left|right]. exists (S i). split; [done|lia].
    + intros [?|([|i] & Hi & ->)]; [by left|cbn in Hi; congruence|right]. exists i. split; [done|lia].
Qed.

Definition index_injective (E : gmap SigningJobIdentity nat) : Prop :=
  forall a b k, E !! a = Some k -> E !! b = Some k -> a = b.
Definition index_open (E : gmap SigningJobIdentity nat) (O : list (option SigningOutcome)) : Prop :=
  forall a k, E !! a = Some k -> O !! k = Some None.

Lemma index_step E0 O r k : index_injective E0 -> index_open E0 O -> E0 !! sr_identity r = Some k ->
  index_injective (delete (sr_identity r) E0) /\
  index_open (delete (sr_identity r) E0) (<[k := Some (sr_outcome r)]> O).
Proof.
  intros Hinj Hopen Hr. split.
  - intros a b j [_ Ha]%lookup_delete_Some [_ Hb]%lookup_delete_Some. by eapply Hinj.
  - intros a j [Hne Ha]%lookup_delete_Some. destruct (decide (k = j)) as [->|Hkj].
    + destruct Hne. by eapply Hinj.
    + rewrite list_lookup_insert_ne by done. by eapply Hopen.
Qed.

(** Distinct known identities are taken in any order. *)
Lemma outcome_loop_good rs : forall E0 O, index_injective E0 -> index_open E0 O ->
  NoDup (sr_identity <$> rs) -> (forall r, r ∈ rs -> is_Some (E0 !! sr_identity r)) ->
  exists E' O', outcome_loop rs E0 O = Ok (E', O') /\
    (forall id, E' !! id = if bool_decide (id ∈ sr_identity <$> rs) then None else E0 !! id) /\
    length O' = length O /\
    (forall r k, r ∈ rs -> E0 !! sr_identity r = Some k -> O' !! k = Some (Some (sr_outcome r))) /\
    (forall k, (forall r, r ∈ rs -> E0 !! sr_identity r <> Some k) -> O' !! k = O !! k).
Proof.
  induction rs as [|r rs IH]; intros E0 O Hinj Hopen Hnd Hin; cbn [outcome_loop].
  { exists E0, O. split_and!; try done. intros r k Hr. by apply elem_of_nil in Hr. }
  rewrite fmap_cons in Hnd. apply NoDup_cons in Hnd as [Hni Hnd]. destruct (Hin r) as [k Hk]; [by left|].
  rewrite Hk. cbn [ok_or mbind res_bind]. rewrite (Hopen _ _ Hk). cbn [expect mbind res_bind].
  rewrite bool_decide_true by done. cbn [ensure mbind res_bind].
  destruct (index_step E0 O r k) as [Hinj' Hopen']; [done..|].
  assert (Hne : forall r', r' ∈ rs -> sr_identity r' <> sr_identity r).
  { intros r' Hr' Heq. apply Hni. rewrite <- Heq. by apply list_elem_of_fmap_2. }
  destruct (IH _ _ Hinj' Hopen' Hnd) as (E' & O' & -> & HE & Hlen & Hset & Hkeep).
  { intros r' Hr'. rewrite lookup_delete_ne by (symmetry; by apply Hne). apply Hin. by right. }
  exists E', O'. split; [done|]. split_and!.
  - intros id. rewrite HE. rewrite fmap_cons. destruct (decide (id = sr_identity r)) as [->|Hid].
    + rewrite lookup_delete_eq. rewrite (bool_decide_true (_ ∈ _ :: _)) by by left. by case_bool_decide.
    + rewrite lookup_delete_ne by done. rewrite (bool_decide_ext (id ∈ sr_identity r :: _) (id ∈ sr_identity <$> rs)); [done|].
      rewrite elem_of_cons. naive_solver.
  - by rewrite Hlen, length_insert.
  - intros r' k' [->|Hr']%elem_of_cons Hk'.
    + assert (k' = k) as -> by congruence. rewrite Hkeep.
      * apply list_lookup_insert_eq. eapply lookup_lt_Some, Hopen, Hk.
      * intros r' Hr'. rewrite lookup_delete_ne by (symmetry; by apply Hne). intros Hk''.
        by apply (Hne r' Hr'), (Hinj _ _ k).
    + apply Hset; [done|]. by rewrite lookup_delete_ne by (symmetry; by apply Hne).
  - intros k' Hk'. rewrite Hkeep; [|intros r' Hr'; rewrite lookup_delete_ne by (symmetry; by apply Hne)].
    + rewrite list_lookup_insert_ne; [done|]. intros ->. by apply (Hk' r); [left|].
    + apply Hk'. by right.
Qed.

Lemma outcome_loop_bad rs : forall E0 O, index_injective E0 -> index_open E0 O ->
  ~ (NoDup (sr_identity <$> rs) /\ forall r, r ∈ rs -> is_Some (E0 !! sr_identity r)) ->
  outcome_loop rs E0 O = Err (batch_error InvalidExecutorResults).
Proof.
  induction rs as [|r rs IH]; intros E0 O Hinj Hopen Hbad; cbn [outcome_loop].
  { destruct Hbad. split; [constructor|]. intros r Hr. by apply elem_of_nil in Hr. }
  destruct (E0 !! sr_identity r) as [k|] eqn:Hk; [|done]. cbn [ok_or mbind res_bind].
  rewrite (Hopen _ _ Hk). cbn [expect mbind res_bind]. rewrite bool_decide_true by done. cbn [ensure mbind res_bind].
  destruct (index_step E0 O r k) as [Hinj' Hopen']; [done..|].
  apply IH; [done|done|]. intros [Hnd Hin]. apply Hbad.
  assert (Hni : forall r', r' ∈ rs -> is_Some (E0 !! sr_identity r') /\ sr_identity r' <> sr_identity r).
  { intros r' Hr'. destruct (Hin r' Hr') as [j [Hne Hj]%lookup_delete_Some]. split; [by exists j|done]. }
  split.
  - rewrite fmap_cons. apply NoDup_cons. split; [|done].
    intros (r' & Heq & Hr')%list_elem_of_fmap. by apply (Hni r' Hr').
  - intros r' [->|Hr']%elem_of_cons; [by exists k|by apply Hni].
Qed.
(** What complete outcomes mean: the lowest failure, else the signatures. *)
Definition interpret `{SignerLib} (os : list SigningOutcome) : res SigningBatchError (list bytes) :=
  match position is_failed (Some <$> os) with
  | Some ordinal => Err (item_error ExecutorFailed ordinal)
  | None => signature_loop (Some <$> os) 0
  end.

(** The index of the jobs by identity. *)
Lemma expected_index jobs : NoDup (identities jobs) -> exists E, expected_jobs jobs 0 ∅ = Ok E /\
  index_injective E /\ index_open E (replicate (length jobs) None) /\
  forall id k, E !! id = Some k <-> identities jobs !! k = Some id.
Proof.
  intros Hnd. destruct (expected_jobs_Ok jobs 0 ∅ Hnd) as (E & HEq & HE); [by intros; rewrite lookup_empty|].
  assert (HE' : forall id k, E !! id = Some k <-> identities jobs !! k = Some id).
  { intros id k. rewrite HE, lookup_empty. naive_solver. }
  exists E. split; [done|]. split; [|split; [|done]].
  - intros a b k Ha%HE' Hb%HE'. congruence.
  - intros a k Ha%HE'. apply lookup_replicate. split; [done|]. apply lookup_lt_Some in Ha.
    unfold identities in Ha. by rewrite length_fmap in Ha.
Qed.

Section results.
Context `{SignerLib}.

Lemma identities_perm jobs results : NoDup (identities jobs) -> length results = length jobs ->
  NoDup (sr_identity <$> results) -> (forall r, r ∈ results -> sr_identity r ∈ identities jobs) ->
  exists os, length os = length jobs /\ results ≡ₚ in_order jobs os.
Proof.
  intros Hnd Hlen Hndr Hin.
  assert (Hperm : identities jobs ≡ₚ sr_identity <$> results).
  { symmetry. apply submseteq_length_Permutation.
    - apply NoDup_submseteq; [done|]. intros id (r & -> & Hr)%list_elem_of_fmap. by apply Hin.
    - unfold identities. rewrite !length_fmap. lia. }
  apply Permutation_map_inv in Hperm as (results' & Heq & Hperm'). exists (sr_outcome <$> results').
  assert (Hlen' : length results' = length jobs).
  { rewrite <- Hlen. symmetry. by apply Permutation_length. }
  split; [by rewrite length_fmap|]. rewrite Hperm'. unfold in_order. rewrite Heq. clear.
  induction results' as [|[i o] l IH]; cbn; [done|]. by f_equiv.
Qed.

Lemma in_order_identities jobs os : length os = length jobs ->
  sr_identity <$> in_order jobs os = identities jobs /\ sr_outcome <$> in_order jobs os = os.
Proof.
  unfold in_order, identities. revert os. induction jobs as [|job jobs IH]; intros [|o os] Hlen; try done.
  injection Hlen as Hlen. destruct (IH os Hlen) as [Hi Ho]. cbn. split; f_equal; done.
Qed.

Lemma in_order_lookup jobs os k r : length os = length jobs -> in_order jobs os !! k = Some r ->
  identities jobs !! k = Some (sr_identity r) /\ os !! k = Some (sr_outcome r).
Proof.
  intros Hlen Hk. destruct (in_order_identities jobs os Hlen) as [Hi Ho].
  split; [rewrite <- Hi|rewrite <- Ho at 1]; by rewrite list_lookup_fmap, Hk.
Qed.

(** Results that answer every job once are read in the order of the jobs. *)
Lemma complete_results jobs results os : NoDup (identities jobs) -> length os = length jobs ->
  results ≡ₚ in_order jobs os -> validate_executor_results jobs results = interpret os.
Proof.
  intros Hnd Hlen Hperm. unfold validate_executor_results.
  destruct (in_order_identities jobs os Hlen) as [Hids _].
  assert (Hidp : sr_identity <$> results ≡ₚ identities jobs) by (rewrite <- Hids; by rewrite Hperm).
  assert (Hlr : length results = length jobs).
  { apply Permutation_length in Hidp. unfold identities in Hidp. by rewrite !length_fmap in Hidp. }
  unfold zlen at 1 2. rewrite Hlr, Z.eqb_refl. cbn [ensure mbind res_bind].
  destruct (expected_index jobs Hnd) as (E & -> & Hinj & Hopen & HE'). cbn [mbind res_bind].
  destruct (outcome_loop_good results E (replicate (length jobs) None)) as (E' & O' & -> & HE2 & HlO & Hset & _); [done..| | |].
  { by rewrite Hidp. }
  { intros r Hr. assert (Hin : sr_identity r ∈ identities jobs) by (rewrite <- Hidp; by apply list_elem_of_fmap_2).
    apply list_elem_of_lookup in Hin as [k Hk]. exists k. by apply HE'. }
  assert (HO : O' = Some <$> os).
  { apply list_eq_same_length with (length jobs); [by rewrite length_fmap, Hlen|by rewrite HlO, length_replicate|].
    intros k x y Hk Hx Hy. rewrite list_lookup_fmap in Hy.
    destruct (lookup_lt_is_Some_2 (in_order jobs os) k) as [r Hr].
    { unfold in_order. rewrite length_zip_with. unfold identities. rewrite length_fmap. lia. }
    destruct (in_order_lookup _ _ _ _ Hlen Hr) as [Hid Ho]. rewrite Ho in Hy. injection Hy as <-.
    rewrite (Hset r k) in Hx; [congruence| |by apply HE']. rewrite Hperm. by eapply list_elem_of_lookup_2. }
  cbn [mbind res_bind]. replace (E' : gmap _ _) with (∅ : gmap SigningJobIdentity nat).
  2: { symmetry. apply map_empty. intros id. rewrite HE2. case_bool_decide as Hid; [done|].
       destruct (E !! id) as [k|] eqn:Hk; [|done]. destruct Hid. rewrite Hidp. apply HE' in Hk. by eapply list_elem_of_lookup_2. }
  rewrite bool_decide_true by done. subst O'. cbn [negb orb].
  replace (existsb _ (Some <$> os)) with false; [done|]. clear. induction os as [|o os IH]; [done|]. cbn. done.
Qed.

(** Results are read exactly when they answer the jobs one to one; any others are
    refused as a whole. *)
Lemma executor_results_spec jobs results : NoDup (identities jobs) ->
  (exists os, length os = length jobs /\ results ≡ₚ in_order jobs os /\
     validate_executor_results jobs results = interpret os) \/
  (~ (exists os, length os = length jobs /\ results ≡ₚ in_order jobs os) /\
   validate_executor_results jobs results = Err (batch_error InvalidExecutorResults)).
Proof.
  intros Hnd. destruct (decide (length results = length jobs)) as [Hlen|Hlen].
  2: { right. split.
       - intros (os & Hos & Hp%Permutation_length). apply Hlen. rewrite Hp. unfold in_order, identities.
         rewrite length_zip_with, length_fmap. lia.
       - unfold validate_executor_results. rewrite (proj2 (Z.eqb_neq (zlen results) (zlen jobs))); [done|].
         unfold zlen. lia. }
  destruct (decide (NoDup (sr_identity <$> results) /\ Forall (fun r => sr_identity r ∈ identities jobs) results)) as [[Hndr Hin]|Hbad].
  { left. rewrite Forall_forall in Hin. destruct (identities_perm jobs results) as (os & Hos & Hp); [done..|].
    exists os. split; [done|]. split; [done|]. by apply complete_results. }
  right. split.
  - intros (os & Hos & Hp). apply Hbad. destruct (in_order_identities jobs os Hos) as [Hids _].
    assert (Hidp : sr_identity <$> results ≡ₚ identities jobs) by (rewrite <- Hids; by rewrite Hp).
    split; [by rewrite Hidp|]. apply Forall_forall. intros r Hr. rewrite <- Hidp. by apply list_elem_of_fmap_2.
  - unfold validate_executor_results. unfold zlen at 1 2. rewrite Hlen, Z.eqb_refl. cbn [ensure mbind res_bind].
    destruct (expected_index jobs Hnd) as (E & -> & Hinj & Hopen & HE'). cbn [mbind res_bind].
    rewrite outcome_loop_bad; [done|done|done|]. intros [Hndr Hin]. apply Hbad. split; [done|].
    apply Forall_forall. intros r Hr. destruct (Hin r Hr) as [k Hk%HE']. by eapply list_elem_of_lookup_2.
Qed.
End results.

(** ** The worker pool *)

Section pool.
Variable signer : Signer.
Variable jobs : list SigningJob.
#[local] Abbreviation Pool := (Pool signer).

Definition phase_ordinal (w : Worker) : option nat :=
  match w_phase w with Signing k => Some k | _ => None end.
Definition ordinals_of {A} (o : option A) : list A := match o with Some a => [a] | None => [] end.
Definition in_flight (p : Pool) : list nat := omap phase_ordinal (workers signer p).
Definition pool_results (p : Pool) : list SigningResult := concat (w_results <$> workers signer p).

(** The calls of the signer that return along a schedule, by ordinal. *)
Fixpoint pool_calls (p : Pool) (schedule : list nat) : list nat :=
  match schedule with
  | [] => []
  | i :: rest =>
      match worker_step signer jobs p i with
      | Some p' => (ordinals_of (workers signer p !! i ≫= phase_ordinal) ++ pool_calls p' rest)%list
      | None => []
      end
  end.

(** A result of a call was lost: a worker panicked. *)
Definition lost (p : Pool) : Prop :=
  first_panic signer p = true \/ exists w, w ∈ workers signer p /\ w_phase w = Panicking.

(** The signer answered the payload of a job, in some state. *)
Definition answered (job : SigningJob) (o : SigningOutcome) : Prop :=
  exists s, match (signer_sign signer s (job_payload job)).2 with
            | Ok signature => o = OutSignature signature
            | Err _ => o = OutFailed
            | Panic => False
            end.

(** What every execution keeps, with the calls that returned. *)
Record pool_inv (calls : list nat) (p : Pool) : Prop := {
  pi_calls : (calls ++ in_flight p)%list ≡ₚ seq 0 (next_ordinal signer p);
  pi_next : (next_ordinal signer p <= length jobs)%nat;
  pi_stopped : stopped signer p = first_panic signer p;
  pi_results : ~ lost p -> sr_identity <$> pool_results p ≡ₚ omap (fun k => identities jobs !! k) calls;
  pi_answers : forall r, r ∈ pool_results p ->
    exists job, job ∈ jobs /\ sr_identity r = job_identity job /\ answered job (sr_outcome r);
  pi_done : forall w, w ∈ workers signer p -> w_phase w = Done ->
    first_panic signer p = true \/ (length jobs <= next_ordinal signer p)%nat;
  pi_panic : lost p -> exists job s, job ∈ jobs /\ (signer_sign signer s (job_payload job)).2 = Panic;
}.

Lemma ordinals_of_omap {A B} (f : A -> option B) a : omap f [a] = ordinals_of (f a).
Proof. cbn. by destruct (f a). Qed.

(** Replacing a worker, seen in the lists that the invariant speaks of. *)
Lemma replace_worker (ws : list Worker) i w : ws !! i = Some w -> exists l k,
  ws = (l ++ w :: k)%list /\ forall w', <[i := w']> ws = (l ++ w' :: k)%list.
Proof.
  intros Hi. exists (take i ws), (drop (S i) ws). split; [symmetry; by apply take_drop_middle|].
  intros w'. apply insert_take_drop. by eapply lookup_lt_Some.
Qed.
Lemma in_flight_split s n st fp l w k :
  in_flight (mkPool signer s n st fp (l ++ w :: k)) = (omap phase_ordinal l ++ ordinals_of (phase_ordinal w) ++ omap phase_ordinal k)%list.
Proof. unfold in_flight. cbn. rewrite omap_app. cbn. by destruct (phase_ordinal w). Qed.

Lemma results_split s n st fp l w k :
  pool_results (mkPool signer s n st fp (l ++ w :: k)) = (concat (w_results <$> l) ++ w_results w ++ concat (w_results <$> k))%list.
Proof. unfold pool_results. cbn. by rewrite fmap_app, concat_app, fmap_cons. Qed.

Lemma lost_split s n st fp l w k : lost (mkPool signer s n st fp (l ++ w :: k)) <->
  fp = true \/ w_phase w = Panicking \/ exists w', w' ∈ (l ++ k)%list /\ w_phase w' = Panicking.
Proof.
  unfold lost. cbn. split.
  - intros [?|(w' & Hin & Hp)]; [by left|right]. rewrite elem_of_app, elem_of_cons in Hin.
    destruct Hin as [Hin|[->|Hin]]; [|by left|]; right; exists w'; rewrite elem_of_app; tauto.
  - intros [?|[?|(w' & Hin & Hp)]]; [by left|right; exists w; set_solver|]. right. exists w'. set_solver.
Qed.

Lemma perm_move (calls : list nat) a b x : (calls ++ a ++ x :: b)%list ≡ₚ ((calls ++ [x]) ++ a ++ b)%list.
Proof. rewrite <- app_assoc. apply Permutation_app_head. cbn. by rewrite Permutation_middle. Qed.

(** A worker that keeps its results and is not in flight before or after. *)
Lemma pool_inv_quiet calls s n st fp l w k w' :
  pool_inv calls (mkPool signer s n st fp (l ++ w :: k)) -> w_results w' = w_results w ->
  phase_ordinal w = None -> w_phase w <> Panicking -> w_phase w' = Done -> st = true \/ (length jobs <= n)%nat ->
  pool_inv calls (mkPool signer s n st fp (l ++ w' :: k)).
Proof.
  intros [Hc Hn Hst Hr Ha Hd Hp] Hres Hw Hnp Hdone Hend. cbn [next_ordinal first_panic stopped] in Hn, Hst.
  assert (Hw' : phase_ordinal w' = None) by (unfold phase_ordinal; by rewrite Hdone).
  constructor; cbn [next_ordinal first_panic stopped workers pool_new].
  - rewrite in_flight_split in Hc |- *. by rewrite Hw' , <- Hw.
  - done.
  - done.
  - rewrite lost_split, results_split, Hres in *. intros Hl. apply Hr. rewrite Hdone in Hl. naive_solver.
  - rewrite results_split, Hres in *. done.
  - intros v _ _. destruct Hend as [->|?]; [left; by rewrite <- Hst|by right].
  - rewrite lost_split in *. intros Hl. apply Hp. rewrite Hdone in Hl. naive_solver.
Qed.

Lemma pool_inv_claim calls s n fp l w k :
  pool_inv calls (mkPool signer s n false fp (l ++ w :: k)) -> w_phase w = Idle -> (n < length jobs)%nat ->
  pool_inv calls (mkPool signer s (S n) false fp (l ++ mkWorker (Signing n) (w_results w) :: k)).
Proof.
  intros [Hc Hn Hst Hr Ha Hd Hp] Hw Hlt. cbn [next_ordinal first_panic stopped] in Hn, Hst. constructor; cbn [next_ordinal first_panic stopped workers pool_new].
  - rewrite in_flight_split in Hc |- *. unfold phase_ordinal at 2 in Hc. rewrite Hw in Hc. cbn [phase_ordinal w_phase next_ordinal] in Hc |- *. unfold ordinals_of in Hc |- *. cbn [app] in Hc |- *.
    rewrite List.seq_S. cbn [Nat.add].
    rewrite <- Hc. rewrite (perm_move calls (omap phase_ordinal l) (omap phase_ordinal k) n).
    rewrite <- !app_assoc. apply Permutation_app_head. by rewrite Permutation_app_comm, <- app_assoc.
  - lia.
  - done.
  - rewrite lost_split, results_split in *. cbn [w_results w_phase]. intros Hl. apply Hr. rewrite Hw. naive_solver.
  - rewrite results_split in *. done.
  - intros v Hv Hvd. rewrite elem_of_app, elem_of_cons in Hv.
    destruct Hv as [Hv|[->|Hv]]; [|done|]; (destruct (Hd v) as [?|?]; [cbn; set_solver|done|by left|cbn in *; lia]).
  - rewrite lost_split in *. cbn [w_phase]. intros Hl. apply Hp. rewrite Hw. naive_solver.
Qed.

Lemma pool_inv_return calls s n st fp l w k s' o job ph :
  pool_inv calls (mkPool signer s n st fp (l ++ w :: k)) -> w_phase w = Signing ph -> jobs !! ph = Some job ->
  answered job o ->
  pool_inv (calls ++ [ph]) (mkPool signer s' n st fp
    (l ++ mkWorker Idle (w_results w ++ [mkSigningResult (job_identity job) o]) :: k)).
Proof.
  intros [Hc Hn Hst Hr Ha Hd Hp] Hw Hjob Hans. cbn [next_ordinal first_panic stopped] in Hn, Hst. constructor; cbn [next_ordinal first_panic stopped workers pool_new].
  - rewrite in_flight_split in Hc |- *. unfold phase_ordinal at 2 in Hc. rewrite Hw in Hc.
    cbn [phase_ordinal w_phase next_ordinal] in Hc |- *. unfold ordinals_of in Hc |- *. cbn [app] in Hc |- *.
    rewrite <- Hc. symmetry. apply perm_move.
  - done.
  - done.
  - rewrite lost_split, results_split in *. cbn [w_results w_phase]. intros Hl.
    assert (Hl' : ~ (fp = true \/ w_phase w = Panicking \/ exists w', w' ∈ (l ++ k)%list /\ w_phase w' = Panicking))
      by (rewrite Hw; naive_solver).
    specialize (Hr Hl'). rewrite omap_app, <- Hr, ordinals_of_omap.
    unfold identities. rewrite list_lookup_fmap, Hjob. cbn [ordinals_of fmap option_fmap option_map].
    rewrite !fmap_app. cbn. rewrite <- !app_assoc. apply Permutation_app_head, Permutation_app_head. cbn.
    by rewrite <- Permutation_cons_append.
  - rewrite results_split in *. cbn [w_results]. intros r Hin. rewrite !elem_of_app, elem_of_cons in Hin.
    destruct Hin as [Hin|[[Hin|[->|Hin]]|Hin]]; [apply Ha; set_solver|apply Ha; set_solver| |by apply elem_of_nil in Hin|apply Ha; set_solver].
    exists job. split; [by eapply list_elem_of_lookup_2|done].
  - intros v Hv Hvd. rewrite elem_of_app, elem_of_cons in Hv.
    destruct Hv as [Hv|[->|Hv]]; [|done|]; apply (Hd v); cbn; set_solver.
  - rewrite lost_split in *. cbn [w_phase]. intros Hl. apply Hp. rewrite Hw. naive_solver.
Qed.

Lemma pool_inv_panics calls s n st fp l w k s' ph :
  pool_inv calls (mkPool signer s n st fp (l ++ w :: k)) -> w_phase w = Signing ph ->
  (exists job s0, job ∈ jobs /\ (signer_sign signer s0 (job_payload job)).2 = Panic) ->
  pool_inv (calls ++ [ph]) (mkPool signer s' n st fp (l ++ mkWorker Panicking (w_results w) :: k)).
Proof.
  intros [Hc Hn Hst Hr Ha Hd Hp] Hw Hpanic. cbn [next_ordinal first_panic stopped] in Hn, Hst. constructor; cbn [next_ordinal first_panic stopped workers pool_new].
  - rewrite in_flight_split in Hc |- *. unfold phase_ordinal at 2 in Hc. rewrite Hw in Hc.
    cbn [phase_ordinal w_phase next_ordinal] in Hc |- *. unfold ordinals_of in Hc |- *. cbn [app] in Hc |- *.
    rewrite <- Hc. symmetry. apply perm_move.
  - done.
  - done.
  - rewrite lost_split. intros Hl. destruct Hl. right. by left.
  - rewrite results_split in *. done.
  - intros v Hv Hvd. rewrite elem_of_app, elem_of_cons in Hv.
    destruct Hv as [Hv|[->|Hv]]; [|done|]; apply (Hd v); cbn; set_solver.
  - done.
Qed.

Lemma pool_inv_record calls s n st fp l w k :
  pool_inv calls (mkPool signer s n st fp (l ++ w :: k)) -> w_phase w = Panicking ->
  pool_inv calls (mkPool signer s n true true (l ++ mkWorker Done [] :: k)).
Proof.
  intros [Hc Hn Hst Hr Ha Hd Hp] Hw. cbn [next_ordinal first_panic stopped] in Hn, Hst. constructor; cbn [next_ordinal first_panic stopped workers pool_new].
  - rewrite in_flight_split in Hc |- *. unfold phase_ordinal at 2 in Hc. by rewrite Hw in Hc.
  - done.
  - done.
  - intros Hl. destruct Hl. by left.
  - rewrite results_split in *. cbn [w_results app]. intros r Hin. apply Ha. set_solver.
  - intros v _ _. by left.
  - intros _. apply Hp. rewrite lost_split. right. by left.
Qed.

Lemma pool_step calls p i p' : pool_inv calls p -> worker_step signer jobs p i = Some p' ->
  pool_inv (calls ++ ordinals_of (workers signer p !! i ≫= phase_ordinal)) p'.
Proof.
  destruct p as [s n st fp ws]. intros Hinv Hstep. unfold worker_step in Hstep. cbn [workers] in *.
  apply bind_Some in Hstep as (w & Hw & Hstep). rewrite Hw. cbn [mbind option_bind].
  destruct (replace_worker ws i w Hw) as (l & k & -> & Hins). unfold phase_ordinal at 1.
  destruct (w_phase w) as [|ph| |] eqn:Hph; cbn [ordinals_of].
  - rewrite app_nil_r. injection Hstep as <-. unfold claim_job, set_worker. cbn.
    destruct (st || (length jobs <=? n)%nat) eqn:Hend; rewrite Hins.
    + apply (pool_inv_quiet _ _ _ _ _ _ w); try done; [by unfold phase_ordinal; rewrite Hph|by rewrite Hph|].
      apply orb_true_iff in Hend as [->|Hend%Nat.leb_le]; [by left|by right].
    + apply orb_false_iff in Hend as [-> Hlt%Nat.leb_gt]. by apply pool_inv_claim.
  - apply bind_Some in Hstep as (job & Hjob & [= <-]). unfold call_returns. cbn.
    destruct (signer_sign signer s (job_payload job)) as [s' answer] eqn:Hsign.
    destruct answer as [sg|e|]; rewrite Hins.
    + eapply pool_inv_return; [done|done|done|]. exists s. by rewrite Hsign.
    + eapply pool_inv_return; [done|done|done|]. exists s. by rewrite Hsign.
    + eapply pool_inv_panics; [done|done|]. exists job, s. split; [by eapply list_elem_of_lookup_2|by rewrite Hsign].
  - rewrite app_nil_r. injection Hstep as <-. unfold record_panic. cbn. rewrite Hins. by eapply pool_inv_record.
  - done.
Qed.

Lemma run_pool_inv schedule : forall calls p p', pool_inv calls p -> run_pool signer jobs p schedule = Some p' ->
  pool_inv (calls ++ pool_calls p schedule) p'.
Proof.
  induction schedule as [|i rest IH]; intros calls p p' Hinv; cbn [run_pool pool_calls].
  { intros [= <-]. by rewrite app_nil_r. }
  intros (p1 & Hstep & Hrun)%bind_Some. rewrite Hstep, app_assoc. apply IH; [|done]. by eapply pool_step.
Qed.

Lemma pool_inv_new s n : (1 <= n)%nat -> pool_inv [] (pool_new signer s n).
Proof.
  intros Hn. assert (Hidle : forall w, w ∈ replicate n (mkWorker Idle []) -> w = mkWorker Idle []).
  { intros w Hw. by apply elem_of_replicate_inv in Hw. }
  assert (Hno : pool_results (pool_new signer s n) = []).
  { unfold pool_results, pool_new. cbn. clear. induction n; [done|]. done. }
  constructor; cbn [next_ordinal first_panic stopped workers pool_new].
  - unfold in_flight, pool_new. cbn. clear. induction n; cbn; done.
  - lia.
  - done.
  - intros _. by rewrite Hno.
  - rewrite Hno. intros r Hr. by apply elem_of_nil in Hr.
  - intros w ->%Hidle. done.
  - intros [?|(w & ->%Hidle & ?)]; done.
Qed.
(** *** Termination *)

Definition phase_weight (ph : Phase) : nat := match ph with Idle | Panicking => 1 | Signing _ => 2 | Done => 0 end.
Definition pool_measure (p : Pool) : nat :=
  (3 * (length jobs - next_ordinal signer p) + list_sum (phase_weight ∘ w_phase <$> workers signer p))%nat.

Lemma measure_split (f : Worker -> nat) l w k :
  list_sum (f <$> (l ++ w :: k)%list) = (list_sum (f <$> l) + f w + list_sum (f <$> k))%nat.
Proof. rewrite fmap_app, list_sum_app, fmap_cons. cbn [list_sum foldr]. unfold list_sum. cbn [foldr]. lia. Qed.

(** Every step uses up a bounded amount of work and keeps the number of workers. *)
Lemma worker_step_decreases p i p' : worker_step signer jobs p i = Some p' ->
  (pool_measure p' < pool_measure p)%nat /\ length (workers signer p') = length (workers signer p).
Proof.
  destruct p as [s n st fp ws]. intros Hstep. unfold worker_step in Hstep. cbn [workers] in *.
  apply bind_Some in Hstep as (w & Hw & Hstep). destruct (replace_worker ws i w Hw) as (l & k & -> & Hins).
  assert (Hlen : forall w', length (l ++ w' :: k)%list = length (l ++ w :: k)%list) by (intros w'; by rewrite !length_app).
  destruct (w_phase w) as [|ph| |] eqn:Hph.
  - injection Hstep as <-. unfold claim_job, set_worker. cbn.
    destruct (st || (length jobs <=? n)%nat) eqn:Hend; rewrite Hins; (split; [|apply Hlen]);
      unfold pool_measure; cbn [next_ordinal workers]; rewrite !measure_split; unfold compose; cbn [w_phase]; rewrite Hph; cbn [phase_weight].
    + lia.
    + apply orb_false_iff in Hend as [_ Hlt%Nat.leb_gt]. lia.
  - apply bind_Some in Hstep as (job & Hjob & [= <-]). unfold call_returns. cbn.
    destruct (signer_sign signer s (job_payload job)) as [s' [sg|e|]]; rewrite Hins; (split; [|apply Hlen]);
      unfold pool_measure; cbn [next_ordinal workers]; rewrite !measure_split; unfold compose; cbn [w_phase]; rewrite Hph; cbn [phase_weight]; lia.
  - injection Hstep as <-. unfold record_panic. cbn. rewrite Hins. split; [|apply Hlen].
    unfold pool_measure; cbn [next_ordinal workers]; rewrite !measure_split; unfold compose; cbn [w_phase]; rewrite Hph; cbn [phase_weight]; lia.
  - done.
Qed.

Lemma run_pool_bounded schedule : forall p p', run_pool signer jobs p schedule = Some p' ->
  (length schedule + pool_measure p' <= pool_measure p)%nat /\ length (workers signer p') = length (workers signer p).
Proof.
  induction schedule as [|i rest IH]; intros p p'; cbn [run_pool].
  { intros [= <-]. cbn. split; [lia|done]. }
  intros (p1 & [Hdec Hlen]%worker_step_decreases & [Hr Hl]%IH)%bind_Some. cbn [length]. split; [lia|congruence].
Qed.

Lemma pool_measure_new s n : pool_measure (pool_new signer s n) = (3 * length jobs + n)%nat.
Proof.
  unfold pool_measure, pool_new. cbn [next_ordinal workers]. rewrite Nat.sub_0_r. f_equal.
  induction n as [|n IH]; [done|]. cbn. f_equal. exact IH.
Qed.

#[local] Instance Phase_eq_dec : EqDecision Phase.
Proof. solve_decision. Defined.
Lemma all_done_dec p : {all_done signer p} + {~ all_done signer p}.
Proof. unfold all_done. apply (decide (Forall (fun w => w_phase w = Done) (workers signer p))). Qed.

(** Until every worker is done, some worker can act. *)
Lemma pool_progress calls p : pool_inv calls p -> ~ all_done signer p -> exists i p', worker_step signer jobs p i = Some p'.
Proof.
  intros Hinv Hnd. unfold all_done in Hnd. apply (not_Forall_Exists _) in Hnd.
  apply Exists_exists in Hnd as (w & Hin & Hw). apply list_elem_of_lookup in Hin as [i Hi].
  exists i. unfold worker_step. rewrite Hi. cbn [mbind option_bind].
  destruct (w_phase w) as [|ph| |] eqn:Hph; [by eexists| |by eexists|done].
  assert (Hlt : (ph < length jobs)%nat).
  { assert (Hph' : ph ∈ seq 0 (next_ordinal signer p)).
    { rewrite <- (pi_calls _ _ Hinv). apply elem_of_app. right. unfold in_flight. apply list_elem_of_omap.
      exists w. split; [by eapply list_elem_of_lookup_2|]. unfold phase_ordinal. by rewrite Hph. }
    apply elem_of_seq in Hph'. pose proof (pi_next _ _ Hinv). lia. }
  destruct (lookup_lt_is_Some_2 jobs ph Hlt) as [job ->]. by eexists.
Qed.

Lemma pool_finishes n : forall calls p, (pool_measure p <= n)%nat -> pool_inv calls p ->
  exists schedule p', run_pool signer jobs p schedule = Some p' /\ all_done signer p'.
Proof.
  induction n as [|n IH]; intros calls p Hm Hinv;
    (destruct (all_done_dec p) as [Hd|Hnd]; [by exists [], p|]);
    destruct (pool_progress calls p Hinv Hnd) as (i & p1 & Hstep);
    pose proof (worker_step_decreases _ _ _ Hstep) as [Hdec _]; [lia|].
  destruct (IH _ p1 ltac:(lia) (pool_step _ _ _ _ Hinv Hstep)) as (sch & p' & Hrun & Hdone).
  exists (i :: sch), p'. split; [|done]. cbn [run_pool]. by rewrite Hstep.
Qed.
(** *** Finished pools *)

Definition answers_in_order (os : list SigningOutcome) : Prop :=
  length os = length jobs /\ forall k job o, jobs !! k = Some job -> os !! k = Some o -> answered job o.

Lemma answers_of_results results os : NoDup (identities jobs) -> length os = length jobs ->
  results ≡ₚ in_order jobs os ->
  (forall r, r ∈ results -> exists job, job ∈ jobs /\ sr_identity r = job_identity job /\ answered job (sr_outcome r)) ->
  answers_in_order os.
Proof.
  intros Hnd Hlen Hp Hans. split; [done|]. intros k job o Hjob Ho.
  destruct (Hans (mkSigningResult (job_identity job) o)) as (job' & Hin & Hid & Ha).
  { rewrite Hp. apply (list_elem_of_lookup_2 _ k). unfold in_order. rewrite lookup_zip_with. unfold identities.
    rewrite list_lookup_fmap, Hjob. cbn. by rewrite Ho. }
  cbn in Hid, Ha. apply list_elem_of_lookup in Hin as [j Hj]. assert (j = k) as ->; [|congruence].
  eapply (NoDup_lookup (identities jobs)); [done|..]; unfold identities; rewrite list_lookup_fmap;
    [by rewrite Hj|by rewrite Hjob; cbn; rewrite Hid].
Qed.

Lemma done_in_flight p : all_done signer p -> in_flight p = [].
Proof.
  unfold all_done, in_flight. induction 1 as [|w ws Hw _ IH]; [done|]. cbn. unfold phase_ordinal at 1. by rewrite Hw.
Qed.

Lemma finished_pool calls p : NoDup (identities jobs) -> pool_inv calls p -> all_done signer p ->
  workers signer p <> [] ->
  match pool_result signer p with
  | Ok results => calls ≡ₚ seq 0 (length jobs) /\ exists os, results ≡ₚ in_order jobs os /\ answers_in_order os
  | Err _ => False
  | Panic => exists job s, job ∈ jobs /\ (signer_sign signer s (job_payload job)).2 = Panic
  end.
Proof.
  intros Hnd Hinv Hdone Hne. unfold pool_result. destruct (first_panic signer p) eqn:Hfp.
  { apply (pi_panic _ _ Hinv). by left. }
  assert (Hnext : next_ordinal signer p = length jobs).
  { destruct (workers signer p) as [|w ws] eqn:Hws; [done|].
    destruct (pi_done _ _ Hinv w) as [?|?]; [rewrite Hws; by left| |congruence|].
    - unfold all_done in Hdone. rewrite Hws in Hdone. by inversion Hdone.
    - pose proof (pi_next _ _ Hinv). lia. }
  pose proof (pi_calls _ _ Hinv) as Hcalls. rewrite (done_in_flight p Hdone), app_nil_r, Hnext in Hcalls.
  split; [done|]. assert (Hnl : ~ lost p).
  { intros [?|(w & Hw & Hp)]; [congruence|]. unfold all_done in Hdone. rewrite Forall_forall in Hdone.
    rewrite (Hdone w Hw) in Hp. done. }
  pose proof (pi_results _ _ Hinv Hnl) as Hids. rewrite Hcalls in Hids.
  assert (Hseq : omap (fun k => identities jobs !! k) (seq 0 (length jobs)) = identities jobs).
  { clear. unfold identities. rewrite <- (length_fmap job_identity). generalize (job_identity <$> jobs). intros l.
    induction l as [|x l IH] using rev_ind; [done|]. rewrite length_app, Nat.add_comm. cbn [length Nat.add].
    rewrite List.seq_S, omap_app. cbn [Nat.add]. rewrite <- IH at 3. f_equal.
    - apply list_omap_ext. apply Forall2_same_length_lookup. split; [done|]. intros i x1 x2 H1 H2.
      assert (x1 = x2) as -> by congruence. apply lookup_seq in H1 as [-> Hlt]. cbn. by rewrite lookup_app_l by lia.
    - cbn. rewrite list_lookup_middle by done. done. }
  rewrite Hseq in Hids. change (concat (w_results <$> workers signer p)) with (pool_results p).
  destruct (identities_perm jobs (pool_results p)) as (os & Hlen & Hp).
  - done.
  - apply Permutation_length in Hids. unfold identities in Hids. by rewrite !length_fmap in Hids.
  - by rewrite Hids.
  - intros r Hr. rewrite <- Hids. by apply list_elem_of_fmap_2.
  - exists os. split; [done|]. eapply answers_of_results; [done|done|done|apply (pi_answers _ _ Hinv)].
Qed.
End pool.

Lemma worker_pool_spec signer jobs s n schedule p :
  NoDup (identities jobs) -> (1 <= n)%nat -> run_pool signer jobs (pool_new signer s n) schedule = Some p ->
  let calls := pool_calls signer jobs (pool_new signer s n) schedule in
  (all_done signer p ->
   match pool_result signer p with
   | Ok results => calls ≡ₚ seq 0 (length jobs) /\
       exists os, results ≡ₚ in_order jobs os /\ answers_in_order signer jobs os
   | Err _ => False
   | Panic => exists job s0, job ∈ jobs /\ (signer_sign signer s0 (job_payload job)).2 = Panic
   end) /\
  pool_inv signer jobs calls p /\ length (workers signer p) = n.
Proof.
  intros Hnd Hn Hrun calls.
  assert (Hinv : pool_inv signer jobs calls p).
  { pose proof (run_pool_inv signer jobs schedule [] _ _ (pool_inv_new signer jobs s n Hn) Hrun). done. }
  destruct (run_pool_bounded signer jobs schedule _ _ Hrun) as [_ Hlen].
  assert (Hlen' : length (workers signer p) = n) by (rewrite Hlen; apply length_replicate).
  split; [|done]. intros Hdone. apply finished_pool; [done|done|done|].
  intros Hnil. rewrite Hnil in Hlen'. cbn in Hlen'. lia.
Qed.

(** C12: Whatever the schedule of the workers, no job crosses the signer twice, at most
    one call per worker is in flight, the schedule is bounded and can be completed;
    a finished pool without a panic called the signer once for every job and holds
    one answer of the signer for each, in some order. *)
Theorem worker_pool_exact signer jobs s n schedule p :
  NoDup (identities jobs) -> (1 <= n)%nat -> run_pool signer jobs (pool_new signer s n) schedule = Some p ->
  let calls := pool_calls signer jobs (pool_new signer s n) schedule in
  NoDup calls /\ (forall k, k ∈ calls -> (k < length jobs)%nat) /\
  (length (in_flight signer p) <= n)%nat /\ (length schedule <= 3 * length jobs + n)%nat /\
  (exists more p', run_pool signer jobs p more = Some p' /\ all_done signer p') /\
  (all_done signer p ->
   match pool_result signer p with
   | Ok results => calls ≡ₚ seq 0 (length jobs) /\
       exists os, results ≡ₚ in_order jobs os /\ answers_in_order signer jobs os
   | Err _ => False
   | Panic => exists job s0, job ∈ jobs /\ (signer_sign signer s0 (job_payload job)).2 = Panic
   end).
Proof.
  intros Hnd Hn Hrun calls.
  destruct (worker_pool_spec signer jobs s n schedule p Hnd Hn Hrun) as (Hres & Hinv & Hlen'). fold calls in Hres, Hinv.
  destruct (run_pool_bounded signer jobs schedule _ _ Hrun) as [Hb _]. rewrite pool_measure_new in Hb.
  assert (Hsub : forall k, k ∈ calls -> (k < next_ordinal signer p)%nat).
  { intros k Hk. assert (Hk' : k ∈ seq 0 (next_ordinal signer p)) by (rewrite <- (pi_calls _ _ _ _ Hinv); set_solver).
    apply elem_of_seq in Hk'. lia. }
  split_and!.
  - assert (Hnd' : NoDup (calls ++ in_flight signer p)%list) by (rewrite (pi_calls _ _ _ _ Hinv); apply NoDup_seq).
    by apply NoDup_app in Hnd' as [Hnd' _].
  - intros k Hk. pose proof (Hsub k Hk). pose proof (pi_next _ _ _ _ Hinv). lia.
  - unfold in_flight. rewrite <- Hlen'. clear. induction (workers signer p) as [|w ws IH]; [done|].
    cbn. destruct (phase_ordinal w); cbn; lia.
  - lia.
  - by eapply pool_finishes.
  - exact Hres.
Qed.

(** ** Batches *)

Section batches.
Context `{Base64Url} `{JsonCodec} `{JwtLib} `{SignerLib} `{IssueClock} `{OtherFormats}.

Lemma prepare_loop_Ok i scope draws inputs : forall n items, prepare_loop i scope draws inputs n = Ok items ->
  Forall2 (fun input item => job_route (it_identity item) = route_id input) inputs items /\
  (job_id ∘ it_identity <$> items) = Z.of_nat <$> seq n (length inputs) /\
  forall k input item, inputs !! k = Some input -> items !! k = Some item ->
    prepare_input (preparation_signer i) input (d_now draws (n + k)) (d_fresh draws (n + k)) = Ok (it_credential item).
Proof.
  induction inputs as [|input inputs IH]; intros n items; cbn [prepare_loop].
  { intros [= <-]. split_and!; [constructor|done|done]. }
  intros (c & Hc & Hr)%bind_Ok. apply bind_Ok in Hr as (rest & Hrest & [= <-]).
  destruct (prepare_input _ input _ _) as [c'| |] eqn:Hp; [|done..]. injection Hc as ->.
  destruct (IH _ _ Hrest) as (Hroutes & Hids & Hcs). split_and!.
  - by constructor.
  - cbn. f_equal. exact Hids.
  - intros [|k] input' item' Hi Hit; cbn in Hi, Hit.
    + injection Hi as <-. injection Hit as <-. by rewrite Nat.add_0_r.
    + rewrite Nat.add_succ_r. by apply (Hcs k).
Qed.

Lemma batch_jobs_identities i scope draws inputs items : batch_prepare i scope draws inputs = Ok items ->
  NoDup (identities (batch_jobs items)) /\ length items = length inputs.
Proof.
  intros (Hroutes & Hids & _)%prepare_loop_Ok. split; [|symmetry; by eapply Forall2_length].
  apply (NoDup_fmap_1 job_id). unfold identities, batch_jobs. rewrite <- !list_fmap_compose.
  change (NoDup (job_id ∘ it_identity <$> items)). rewrite Hids. apply NoDup_fmap; [|apply NoDup_seq]. intros a b. lia.
Qed.

(** What an execution of the jobs may report. *)
Definition execution_ok (signer : Signer) (jobs : list SigningJob)
    (execution : res SigningExecutionError (list SigningResult)) : Prop :=
  match execution with
  | Ok results => exists os, results ≡ₚ in_order jobs os /\ answers_in_order signer jobs os
  | _ => True
  end.

Lemma serial_loop_Ok signer jobs : forall n s s' results, serial_loop signer jobs n s = (s', Ok results) ->
  exists os, results = in_order jobs os /\ answers_in_order signer jobs os.
Proof.
  induction jobs as [|job jobs IH]; intros n s s' results; cbn [serial_loop].
  { intros [= _ <-]. exists []. split; [done|]. split; [done|]. done. }
  destruct (signer_sign signer s (job_payload job)) as [s1 [sg|e|]] eqn:Hsign; [|done..].
  destruct (serial_loop signer jobs (S n) s1) as [s2 [rs|e|]] eqn:Hrest; [|done..]. intros [= _ <-].
  destruct (IH _ _ _ _ Hrest) as (os & -> & Hlen & Hans). exists (OutSignature sg :: os). split; [done|].
  split; [cbn; lia|]. intros [|k] job' o Hj Ho; cbn in Hj, Ho.
  - injection Hj as <-. injection Ho as <-. exists s. by rewrite Hsign.
  - by eapply Hans.
Qed.

Lemma concurrent_execution_ok signer limit jobs s s' execution : NoDup (identities jobs) ->
  concurrent_execute signer limit jobs s s' execution -> execution_ok signer jobs execution.
Proof.
  intros Hnd Hex. destruct Hex as [->|n schedule p Hne Hn Hrun Hdone].
  { exists []. split; [done|]. split; [done|]. intros k job o Hj. done. }
  destruct (worker_pool_spec signer jobs s n schedule p) as (Hres & _); [done|lia|done|].
  specialize (Hres Hdone). unfold execution_ok. destruct (pool_result signer p); [|done..]. naive_solver.
Qed.
Lemma serial_execution_ok signer jobs s s' execution : serial_execute signer jobs s = (s', execution) ->
  execution_ok signer jobs execution.
Proof.
  intros Hex. destruct execution as [results| |]; [|done..].
  destruct (serial_loop_Ok _ _ _ _ _ _ Hex) as (os & -> & Hans). by exists os.
Qed.

Lemma signature_loop_Ok os : forall n sigs, signature_loop os n = Ok sigs ->
  length sigs = length os /\
  forall k sg, sigs !! k = Some sg -> os !! k = Some (Some (OutSignature sg)) /\ zlen sg = 64 /\
    exists u, ec_signature ES256 sg = inr u.
Proof.
  induction os as [|o os IH]; intros n sigs; cbn [signature_loop].
  { intros [= <-]. done. }
  destruct o as [[sg|]|]; [|done..]. intros ([] & Hlen%ensure_Ok & Hr)%bind_Ok.
  apply bind_Ok in Hr as ([] & Hsig%ensure_Ok & Hr). apply bind_Ok in Hr as (rest & Hrest & [= <-]).
  destruct (IH _ _ Hrest) as [Hl Hk]. split; [cbn; lia|]. intros [|k] sg' Hsg; cbn in Hsg; [|by apply Hk].
  injection Hsg as <-. split; [done|]. apply Z.eqb_eq in Hlen. split; [done|].
  destruct (ec_signature ES256 sg) as [|u]; [done|by exists u].
Qed.

Lemma assemble_credentials_Ok items : forall sigs n creds, length sigs = length items ->
  assemble_credentials items sigs n = Ok creds -> length creds = length items /\
  forall k item sg cred, items !! k = Some item -> sigs !! k = Some sg -> creds !! k = Some cred ->
    assemble_credential (it_credential item) sg = Ok cred.
Proof.
  induction items as [|item items IH]; intros [|sg sigs] n creds Hlen; try done; cbn [assemble_credentials].
  { intros [= <-]. done. }
  injection Hlen as Hlen. intros (c & Hc & Hr)%bind_Ok. apply bind_Ok in Hr as (rest & Hrest & [= <-]).
  destruct (assemble_credential _ sg) as [c'| |] eqn:Ha; [|done..]. injection Hc as ->.
  destruct (IH _ _ _ Hlen Hrest) as [Hl Hk]. split; [cbn; lia|].
  intros [|k] item' sg' cred Hi Hs Hcr; cbn in Hi, Hs, Hcr; [congruence|by eapply Hk].
Qed.

Lemma interpret_Ok os sigs : interpret os = Ok sigs -> length sigs = length os /\
  forall k sg, sigs !! k = Some sg -> os !! k = Some (OutSignature sg) /\ zlen sg = 64 /\
    exists u, ec_signature ES256 sg = inr u.
Proof.
  unfold interpret. destruct (position is_failed _); [done|]. intros [Hl Hk]%signature_loop_Ok.
  rewrite length_fmap in Hl. split; [done|]. intros k sg Hsg. destruct (Hk k sg Hsg) as (Ho & ?).
  rewrite list_lookup_fmap in Ho. apply fmap_Some in Ho as (o & Ho & [= <-]). done.
Qed.

(** The credential of an input: its own preparation, assembled with an ES256
    signature that the signer gave for its own payload. *)
Definition credential_of (signer : Signer) (scope : SignerScope) (draws : Draws) (k : nat)
    (input : Es256SigningBatchInput) (cred : SignedCredential) : Prop :=
  exists prepared s sg u,
    prepare_input (preparation_signer (sc_identity scope)) input (d_now draws k) (d_fresh draws k) = Ok prepared /\
    (signer_sign signer s (signing_payload prepared)).2 = Ok sg /\ zlen sg = 64 /\ ec_signature ES256 sg = inr u /\
    assemble_credential prepared sg = Ok cred.

Lemma finish_batch_binds signer scope draws inputs items execution creds :
  prepare_batch scope draws inputs = Ok items -> execution_ok signer (batch_jobs items) execution ->
  finish_batch items execution = Ok creds ->
  length creds = length inputs /\
  forall k input cred, inputs !! k = Some input -> creds !! k = Some cred -> credential_of signer scope draws k input cred.
Proof.
  intros Hprep Hex Hfin. apply bind_Ok in Hprep as ([] & _ & Hprep). apply bind_Ok in Hprep as ([] & _ & Hprep).
  destruct (batch_jobs_identities _ _ _ _ _ Hprep) as [Hnd Hlen]. apply prepare_loop_Ok in Hprep as (_ & _ & Hprep).
  apply bind_Ok in Hfin as (results & Hres & Hfin). destruct execution as [results'| |]; [|done..]. injection Hres as ->.
  destruct Hex as (os & Hp & Hol & Hans). assert (Hjl : length (batch_jobs items) = length items) by apply length_fmap.
  rewrite (complete_results _ _ os) in Hfin by done. apply bind_Ok in Hfin as (sigs & [Hsl Hsigs]%interpret_Ok & Hasm).
  apply assemble_credentials_Ok in Hasm as [Hcl Hcr]; [|congruence]. split; [congruence|].
  intros k input cred Hinput Hcred. pose proof (lookup_lt_Some _ _ _ Hinput) as Hlt.
  destruct (lookup_lt_is_Some_2 items k) as [item Hitem]; [lia|].
  destruct (lookup_lt_is_Some_2 sigs k) as [sg Hsg]; [lia|].
  destruct (Hsigs k sg Hsg) as (Ho & H64 & u & Hu).
  destruct (Hans k (mkJob (it_identity item) (signing_payload (it_credential item))) (OutSignature sg)) as [s Hs];
    [unfold batch_jobs; by rewrite list_lookup_fmap, Hitem|done|].
  exists (it_credential item), s, sg, u. split_and!; [by apply (Hprep k)| |done|done|by eapply Hcr].
  cbn [job_payload] in Hs. destruct (signer_sign signer s _) as [s1 [x|e|]]; cbn [snd] in *; [by injection Hs as ->|done..].
Qed.

Lemma after_execution_Ok signer scope s items execution creds :
  after_execution signer scope s items execution = Ok creds -> finish_batch items execution = Ok creds.
Proof.
  unfold after_execution. destruct execution; [..|done]; destruct (identity_matches (sc_identity scope) (signer_reads signer s)); done.
Qed.

(** C13: Any batch that succeeds, serially or under any schedule of any number of
    workers, returns one credential per input, in the order of the inputs, each
    assembled from its own input with an ES256 signature that the signer gave for
    that payload, and the signer's metadata were those of the scope. *)
Theorem signed_batch_binds signer scope authorized draws inputs s r creds :
  (r = (sign_batch signer scope draws inputs s).2 \/
   exists s', sign_batch_concurrently signer scope authorized draws inputs s s' r) ->
  r = Ok creds ->
  identity_matches (sc_identity scope) (signer_reads signer s) = true /\
  NoDup (route_id <$> inputs) /\ length creds = length inputs /\
  forall k input cred, inputs !! k = Some input -> creds !! k = Some cred -> credential_of signer scope draws k input cred.
Proof.
  intros Hr ->. assert (Hroutes : forall items, prepare_batch scope draws inputs = Ok items -> NoDup (route_id <$> inputs)).
  { intros items Hp. apply bind_Ok in Hp as ([] & _ & Hp). apply bind_Ok in Hp as ([] & Hu & _).
    pose proof (unique_routes_exact inputs) as Hex. by rewrite Hu in Hex. }
  destruct Hr as [Hr|(s' & Hr)].
  - unfold sign_batch in Hr. destruct (prepare_batch scope draws inputs) as [items| |] eqn:Hp; [|done..].
    destruct (identity_matches _ _); [|done]. cbn [negb] in Hr.
    destruct (serial_execute signer (batch_jobs items) s) as [s1 execution] eqn:Hex. cbn in Hr.
    split; [done|]. split; [by eapply Hroutes|]. eapply finish_batch_binds; [done| |done]. by eapply serial_execution_ok.
  - inversion Hr as [r0 Hno|items s1 execution Hp Hm Hex Hs1 Heq]; subst.
    + destruct (prepare_batch scope draws inputs) as [items|e|]; [destruct Hno as [_ Hno]|..]; done.
    + split; [done|]. split; [by eapply Hroutes|]. 
      eapply (finish_batch_binds signer _ _ _ _ execution); [done| |].
      * eapply concurrent_execution_ok; [|done]. apply bind_Ok in Hp as ([] & _ & Hp). apply bind_Ok in Hp as ([] & _ & Hp).
        by destruct (batch_jobs_identities _ _ _ _ _ Hp).
      * by apply after_execution_Ok in Heq.
Qed.

(** *** Concurrent and serial batches agree *)

(** A signer whose answer depends on the payload alone, that never panics and keeps
    its metadata. *)
Definition repeatable (signer : Signer) (answer : bytes -> res Oid4vciError bytes) : Prop :=
  forall s m, (signer_sign signer s m).2 = answer m /\ answer m <> Panic /\
    signer_reads signer (signer_sign signer s m).1 = signer_reads signer s.

Definition outcome_of (a : res Oid4vciError bytes) : SigningOutcome :=
  match a with Ok sg => OutSignature sg | _ => OutFailed end.
Definition answers (answer : bytes -> res Oid4vciError bytes) (jobs : list SigningJob) : list SigningOutcome :=
  (fun job => outcome_of (answer (job_payload job))) <$> jobs.

Lemma repeatable_answers signer answer jobs os : repeatable signer answer -> answers_in_order signer jobs os ->
  os = answers answer jobs.
Proof.
  intros Hst [Hlen Hans]. apply list_eq_same_length with (length jobs); [unfold answers; by rewrite length_fmap|done|].
  intros k x y Hk Hx Hy. unfold answers in Hy. rewrite list_lookup_fmap in Hy. apply fmap_Some in Hy as (job & Hj & ->).
  destruct (Hans k job x Hj Hx) as [s Hs]. destruct (Hst s (job_payload job)) as (Heq & Hnp & _). rewrite Heq in Hs.
  by destruct (answer (job_payload job)).
Qed.

Lemma serial_repeatable signer answer jobs : repeatable signer answer -> forall n s,
  exists s', serial_loop signer jobs n s =
    (s', match position is_failed (Some <$> answers answer jobs) with
         | Some k => Err (mkExecError (Some (n + k)%nat))
         | None => Ok (in_order jobs (answers answer jobs))
         end).
Proof.
  intros Hst. induction jobs as [|job jobs IH]; intros n s; cbn [serial_loop]; [by exists s|].
  destruct (signer_sign signer s (job_payload job)) as [s1 a] eqn:Hs.
  destruct (Hst s (job_payload job)) as (Heq & Hnp & _). rewrite Hs in Heq. cbn in Heq. subst a.
  destruct (IH (S n) s1) as [s2 Hs2]. unfold answers in *. rewrite fmap_cons. cbn [fmap list_fmap position].
  destruct (answer (job_payload job)) as [sg|e|]; [| |done]; cbn [outcome_of is_failed].
  - rewrite Hs2. exists s2. f_equal.
    destruct (position is_failed _) as [k|]; cbn [mbind res_bind fmap option_fmap option_map]; [|done].
    do 3 f_equal. lia.
  - exists s1. do 4 f_equal. lia.
Qed.

(** The end of a serial batch is that of the complete outcomes. *)
Lemma serial_finish signer answer items s s' execution : repeatable signer answer ->
  NoDup (identities (batch_jobs items)) -> serial_execute signer (batch_jobs items) s = (s', execution) ->
  finish_batch items execution = finish_batch items (Ok (in_order (batch_jobs items) (answers answer (batch_jobs items)))).
Proof.
  intros Hst Hnd Hex. destruct (serial_repeatable signer answer (batch_jobs items) Hst 0 s) as [s1 Heq].
  unfold serial_execute in Hex. rewrite Heq in Hex. injection Hex as _ <-. cbn [Nat.add].
  destruct (position is_failed _) as [k|] eqn:Hpos; [|done]. unfold finish_batch. cbn [map_err mbind res_bind executor_error ee_ordinal].
  rewrite (complete_results _ _ (answers answer (batch_jobs items))); [|done|unfold answers; by rewrite length_fmap|done].
  unfold interpret. by rewrite Hpos.
Qed.

(** The reads of a repeatable signer do not change in a pool, and it never panics. *)
Lemma repeatable_reads signer answer jobs schedule : repeatable signer answer -> forall p p',
  run_pool signer jobs p schedule = Some p' ->
  signer_reads signer (p_signer signer p') = signer_reads signer (p_signer signer p).
Proof.
  intros Hst. induction schedule as [|i rest IH]; intros p p'; cbn [run_pool]; [by intros [= <-]|].
  intros (p1 & Hstep & ->%IH)%bind_Some. unfold worker_step in Hstep. apply bind_Some in Hstep as (w & _ & Hstep).
  destruct (w_phase w); [|apply bind_Some in Hstep as (job & _ & Hstep)|..]; simplify_eq; try done.
  - unfold claim_job, set_worker. by destruct (_ || _).
  - unfold call_returns. destruct (Hst (p_signer signer p) (job_payload job)) as (_ & _ & Hreads).
    by destruct (signer_sign signer (p_signer signer p) (job_payload job)).
Qed.

(** C11: For a signer that never panics, whose answers depend on the payload alone
    and whose metadata never change, every execution of a concurrent batch,
    whatever the schedule and the number of workers, returns exactly what the
    serial batch returns, errors and their ordinals included.  All three are
    needed: the serial batch stops at the first error and so before a later
    panic, and only the concurrent batch reads the metadata again at its end. *)
Theorem concurrent_equals_serial signer answer scope authorized draws inputs s s' r :
  repeatable signer answer -> sign_batch_concurrently signer scope authorized draws inputs s s' r ->
  r = (sign_batch signer scope draws inputs s).2.
Proof.
  intros Hst Hr. unfold sign_batch. destruct Hr as [r Hno|items s' execution Hp Hm Hex].
  - destruct (prepare_batch scope draws inputs) as [items|e|]; [|done..]. by destruct Hno as [-> ->].
  - rewrite Hp, Hm. cbn [negb]. destruct (serial_execute signer (batch_jobs items) s) as [s2 serial] eqn:Hser. cbn [snd].
    pose proof Hp as Hprep. apply bind_Ok in Hprep as ([] & _ & Hprep). apply bind_Ok in Hprep as ([] & _ & Hprep).
    destruct (batch_jobs_identities _ _ _ _ _ Hprep) as [Hnd _].
    rewrite (serial_finish signer answer items s s2 serial) by done.
    destruct Hex as [Hnil|n schedule p Hne Hn Hrun Hdone].
    + unfold after_execution. rewrite Hm. cbn [negb]. by rewrite Hnil.
    + destruct (worker_pool_spec signer (batch_jobs items) s n schedule p) as (Hres & _); [done|lia|done|].
      specialize (Hres Hdone). unfold after_execution.
      rewrite (repeatable_reads _ _ _ _ Hst _ _ Hrun). cbn [pool_new p_signer]. rewrite Hm. cbn [negb].
      destruct (pool_result signer p) as [results|e|]; [|done|].
      * destruct Hres as (_ & os & Hperm & Hans). rewrite (repeatable_answers _ _ _ _ Hst Hans) in Hperm.
        unfold finish_batch. cbn [map_err mbind res_bind].
        rewrite !(complete_results _ _ (answers answer (batch_jobs items))); try done; unfold answers; by rewrite length_fmap.
      * exfalso. destruct Hres as (job & s0 & _ & Hpanic). destruct (Hst s0 (job_payload job)) as (Heq & Hnp & _). congruence.
Qed.

(** An authorized concurrent batch always has an execution. *)
Lemma concurrent_batch_exists signer scope authorized draws inputs s : 1 <= authorized ->
  exists s' r, sign_batch_concurrently signer scope authorized draws inputs s s' r.
Proof.
  intros Hauth. destruct (prepare_batch scope draws inputs) as [items|e|] eqn:Hp.
  2-3: eexists s, _; apply sbc_refused; by rewrite Hp.
  destruct (identity_matches (sc_identity scope) (signer_reads signer s)) eqn:Hm.
  2: { eexists s, _. apply sbc_refused. rewrite Hp. done. }
  destruct (decide (length (batch_jobs items) = 0%nat)) as [Hnil%nil_length_inv|Hne].
  { eexists s, _. eapply sbc_executed; [done..|]. by apply exec_empty. }
  destruct (pool_finishes signer (batch_jobs items) _ [] (pool_new signer s 1) (le_n _)) as (schedule & p & Hrun & Hdone);
    [by apply pool_inv_new|].
  eexists (p_signer signer p), _. eapply sbc_executed; [done..|]. eapply exec_pool; [|split; [done|]|done|done].
  - intros Hnil. by rewrite Hnil in Hne.
  - unfold worker_limit, MAX_CONCURRENT_SIGNING_WORKERS. lia.
Qed.
End batches.

(** ** A concrete batch *)

Module ToyBatch.
(** A base64 that prefixes, a codec with one key text, and P-256 signatures that
    are 64 ones. *)
#[local] Instance toy_base64 : Base64Url := {
  b64_encode bs := "b" +:+ String.concat "" ((fun b => String (Ascii.ascii_of_N (Z.to_N b)) "") <$> bs);
  b64_decode _ := inl "unused";
}.
#[local] Instance toy_codec : JsonCodec := {
  json_read bs := if bool_decide (bs = [75]) then inr (Object [("kty", VString "EC"); ("kid", VString "issuer#1")]) else inl "text";
  json_to_string v := match v with Object es => inr (String.concat "," (fst <$> es)) | _ => inl "no object" end;
}.
#[local] Instance toy_jwt : JwtLib := {
  JwtKey := unit;
  crypto_provider := inr tt;
  jwk_from_value _ := inr tt;
  decoding_key _ := inr tt;
  header_algorithm _ := inl "unused";
  verify_compact _ _ _ := inl "unused";
  verify_detached _ _ _ _ := inl "unused";
  ecdsa_from_der _ _ := inl "unused";
}.
Definition toy_key : JwkParams := JwkEC (Some "P-256") (Some (replicate 32 1)) (Some (replicate 32 2)) false.
Definition toy_signature : list Z := replicate 64 1.
#[local] Instance toy_signer_lib : SignerLib := {
  params_of_value _ := inr toy_key;
  params_of_str _ := inr toy_key;
  ec_key _ k := if zlen k =? 65 then inr tt else inl "key";
  ec_signature _ s := if zlen s =? 64 then inr tt else inl "signature";
  ec_digest _ _ := inr tt;
  ec_verify _ _ _ s := bool_decide (s = toy_signature);
  ed25519_key _ := inl "unused";
  ed25519_signature _ := inl "unused";
  ed25519_verify_strict _ _ _ := false;
  edwards_recompress _ := None;
  scalar_canonical _ := false;
}.
#[local] Instance toy_clock : IssueClock := { add_seconds t s := Some (t + s * 1000000000); format_zulu _ := "t" }.
#[local] Instance toy_formats : OtherFormats := {
  PreparedSdJwt := string;
  PreparedMdoc := string;
  prepare_sd_jwt _ _ _ _ fresh := Ok fresh;
  prepare_mdoc _ _ _ fresh := Ok fresh;
  sd_jwt_payload := str_bytes;
  mdoc_payload := str_bytes;
  assemble_sd_jwt p _ := Ok (SdJwtCredential p p);
  assemble_mdoc p _ := Ok (MsoMdoc p p);
}.

Definition toy_metadata : SignerMetadata := mkSigner ES256 "issuer" "issuer#1" (Ok "K").
(** A signer that counts its calls. *)
Definition counting_signer : Signer :=
  mkSignerMachine nat (fun s _ => (S s, Ok toy_signature)) (fun _ => toy_metadata).
Definition toy_claims : CredentialClaims :=
  mkClaims (Some "holder") "Badge" [] (Some 60) [] None None [] W3cVcdmV2JwtVc [] [].
Definition toy_inputs : list Es256SigningBatchInput :=
  [BatchJwtVc (mkJwtInput 7 toy_claims); BatchMdoc (mkMdocInput 9 toy_claims); BatchJwtVc (mkJwtInput 8 toy_claims)].
Definition toy_draws : Draws := mkDraws "batch" (fun _ => 0) (fun n => String.concat "" (replicate (S n) "u")).
Definition toy_scope : SignerScope := mkScope (mkIdentity ES256 "issuer" "issuer#1" "K") "scope".

Lemma toy_scope_new : scope_new toy_metadata "scope" = Ok toy_scope.
Proof. vm_compute. reflexivity. Qed.

Definition toy_items : list PreparedSigningItem :=
  match prepare_batch toy_scope toy_draws toy_inputs with Ok items => items | _ => [] end.
Definition toy_jobs : list SigningJob := batch_jobs toy_items.
Lemma toy_prepared : prepare_batch toy_scope toy_draws toy_inputs = Ok toy_items.
Proof. vm_compute. reflexivity. Qed.

(** Two workers: the second answers the second job before the first answers the
    first, and takes the third. *)
Definition toy_schedule : list nat := [0; 1; 1; 1; 0; 1; 0; 1]%nat.
Definition toy_pool : Pool counting_signer :=
  default (pool_new counting_signer 0%nat 2)
    (run_pool counting_signer toy_jobs (pool_new counting_signer 0%nat 2) toy_schedule).
Lemma toy_batch_run : run_pool counting_signer toy_jobs (pool_new counting_signer 0%nat 2) toy_schedule = Some toy_pool.
Proof. vm_compute. reflexivity. Qed.
Lemma toy_all_done : all_done counting_signer toy_pool.
Proof. unfold all_done. apply Forall_forall. vm_compute. intros w Hw. repeat (apply elem_of_cons in Hw as [->|Hw]; [done|]). by apply elem_of_nil in Hw. Qed.

Lemma toy_identities : NoDup (identities toy_jobs).
Proof. apply (bool_decide_unpack _). vm_compute. reflexivity. Qed.

Lemma counting_repeatable : repeatable counting_signer (fun _ => Ok toy_signature).
Proof. done. Qed.

(** What the two workers return. *)
Definition toy_result : res SigningBatchError (list SignedCredential) :=
  after_execution counting_signer toy_scope 3%nat toy_items (pool_result counting_signer toy_pool).

Lemma toy_concurrent : sign_batch_concurrently counting_signer toy_scope 8 toy_draws toy_inputs 0%nat 3%nat toy_result.
Proof.
  apply sbc_executed; [exact toy_prepared|by vm_compute|].
  change 3%nat with (p_signer counting_signer toy_pool). apply (exec_pool _ _ _ _ 2 toy_schedule).
  - by vm_compute.
  - vm_compute. lia.
  - exact toy_batch_run.
  - exact toy_all_done.
Qed.

Definition toy_credentials : list SignedCredential :=
  match toy_result with Ok cs => cs | _ => [] end.
Lemma toy_signed : toy_result = Ok toy_credentials.
Proof. vm_compute. reflexivity. Qed.

Lemma worker_pool_exact_witness :
  match pool_result counting_signer toy_pool with Ok results => length results = 3%nat | _ => False end /\
  NoDup (pool_calls counting_signer toy_jobs (pool_new counting_signer 0%nat 2) toy_schedule).
Proof.
  split; [vm_compute; reflexivity|].
  exact (proj1 (worker_pool_exact counting_signer toy_jobs 0%nat 2 toy_schedule toy_pool
                  toy_identities (le_S _ _ (le_n 1)) toy_batch_run)).
Defined.

Lemma signed_batch_binds_witness : length toy_credentials = 3%nat /\ NoDup (route_id <$> toy_inputs).
Proof.
  split; [vm_compute; reflexivity|].
  exact (proj1 (proj2 (signed_batch_binds counting_signer toy_scope 8 toy_draws toy_inputs 0%nat _ toy_credentials
                         (or_intror (ex_intro _ 3%nat toy_concurrent)) toy_signed))).
Defined.

Lemma concurrent_equals_serial_witness :
  toy_result = (sign_batch counting_signer toy_scope toy_draws toy_inputs 0%nat).2.
Proof.
  exact (concurrent_equals_serial counting_signer _ toy_scope 8 toy_draws toy_inputs 0%nat 3%nat _
           counting_repeatable toy_concurrent).
Defined.
End ToyBatch.
