(* ===== verification/Base64.v ===== *)
(** * Base64url text

    A concrete base64url without padding (RFC 4648, section 5), as the [base64]
    crate gives it: the instance at which the theorems that take an encoding as a
    parameter are applied to concrete inputs. *)

From S2P Require Import Prelude.
Local Open Scope string_scope.
Local Open Scope Z_scope.

Definition b64_alphabet : list Ascii.ascii :=
  String.list_ascii_of_string "ABCDEFGHIJKLMNOPQRSTUVWXYZabcdefghijklmnopqrstuvwxyz0123456789-_".

Definition b64_char (n : Z) : Ascii.ascii := nth (Z.to_nat n) b64_alphabet "A"%char.
Definition b64_value (c : Ascii.ascii) : option Z := Z.of_nat ∘ fst <$> list_find (fun a => a = c) b64_alphabet.

Fixpoint b64_chars (bs : list Z) : list Ascii.ascii :=
  match bs with
  | a :: b :: c :: rest =>
      b64_char (a / 4) :: b64_char (a mod 4 * 16 + b / 16) :: b64_char (b mod 16 * 4 + c / 64) :: b64_char (c mod 64)
        :: b64_chars rest
  | [a; b] => [b64_char (a / 4); b64_char (a mod 4 * 16 + b / 16); b64_char (b mod 16 * 4)]
  | [a] => [b64_char (a / 4); b64_char (a mod 4 * 16)]
  | [] => []
  end.

(** The bytes of sextets; unused bits must be zero. *)
Fixpoint b64_bytes (ns : list Z) : option (list Z) :=
  match ns with
  | p :: q :: r :: s :: rest =>
      bs ← b64_bytes rest;
      Some ((p * 4 + q / 16) :: (q mod 16 * 16 + r / 4) :: (r mod 4 * 64 + s) :: bs)%list
  | [p; q; r] => if r mod 4 =? 0 then Some [p * 4 + q / 16; q mod 16 * 16 + r / 4] else None
  | [p; q] => if q mod 16 =? 0 then Some [p * 4 + q / 16] else None
  | [_] => None
  | [] => Some []
  end.

#[export] Instance base64url : Base64Url := {
  b64_encode bs := String.string_of_list_ascii (b64_chars bs);
  b64_decode s := match mapM b64_value (String.list_ascii_of_string s) ≫= b64_bytes with
                  | Some bs => inr bs
                  | None => inl "invalid base64"
                  end;
}.

Lemma sextet_table : forallb (fun n => bool_decide (b64_value (b64_char (Z.of_nat n)) = Some (Z.of_nat n)))  (seq 0 64) = true.
Proof. vm_compute. reflexivity. Qed.

Lemma b64_value_char n : 0 <= n < 64 -> b64_value (b64_char n) = Some n.
Proof.
  intros Hn. pose proof sextet_table as Ht. rewrite forallb_forall in Ht.
  assert (Hin : In (Z.to_nat n) (seq 0 64)) by (apply in_seq; lia).
  apply Ht, bool_decide_eq_true in Hin. by rewrite Z2Nat.id in Hin by lia.
Qed.

(** Induction on three bytes at a time. *)
Lemma triples_ind (P : list Z -> Prop) : P [] -> (forall a, P [a]) -> (forall a b, P [a; b]) ->
  (forall a b c rest, P rest -> P (a :: b :: c :: rest)) -> forall bs, P bs.
Proof.
  intros H0 H1 H2 H3 bs. remember (length bs) as n eqn:Hn. revert bs Hn. induction n as [n IH] using lt_wf_ind. intros bs ->.
  destruct bs as [|a [|b [|c rest]]]; auto. apply H3, (IH (length rest)); cbn; [lia|done].
Qed.

Ltac sextets := Z.to_euclidean_division_equations; lia.

Lemma b64_chars_decode bs : bytes_ok bs -> mapM b64_value (b64_chars bs) ≫= b64_bytes = Some bs.
Proof.
  induction bs as [|a|a b|a b c rest IH] using triples_ind; intros Hbs; [done|..]; unfold bytes_ok in Hbs;
    repeat match goal with H : Forall _ (_ :: _) |- _ => apply Forall_cons in H as [? H] end; unfold byte_ok in *;
    cbn [b64_chars mapM mbind option_bind]; rewrite !b64_value_char by sextets; cbn [mbind option_bind mret option_ret b64_bytes].
  - rewrite (proj2 (Z.eqb_eq _ _)) by sextets. do 2 f_equal. sextets.
  - rewrite (proj2 (Z.eqb_eq _ _)) by sextets. repeat f_equal; sextets.
  - specialize (IH Hbs). destruct (mapM b64_value (b64_chars rest)) as [ns|] eqn:Hns; [|done].
    cbn [mbind option_bind mret option_ret b64_bytes] in IH |- *. rewrite IH. cbn [mbind option_bind]. repeat f_equal; sextets.
Qed.

Lemma b64_chars_length bs : Z.of_nat (length (b64_chars bs)) <= div_ceil (zlen bs) 3 * 4.
Proof.
  unfold div_ceil, zlen. induction bs as [|a|a b|a b c rest IH] using triples_ind; cbn [b64_chars length]; [sextets..|].
  rewrite !Nat2Z.inj_succ. replace (Z.succ (Z.succ (Z.succ (Z.of_nat (length rest)))) + 3 - 1)
    with (1 * 3 + (Z.of_nat (length rest) + 3 - 1)) by lia. rewrite Z.div_add_l by lia. lia.
Qed.

Lemma string_of_list_length' l : String.length (String.string_of_list_ascii l) = length l.
Proof. induction l; cbn; congruence. Qed.

#[export] Instance base64url_laws : Base64Laws base64url.
Proof.
  split; intros bs.
  - intros Hbs. cbn [b64_decode b64_encode base64url]. by rewrite String.list_ascii_of_string_of_list_ascii, b64_chars_decode.
  - cbn [b64_encode base64url]. rewrite string_of_list_length'. apply b64_chars_length.
Qed.
