(* ===== verification/JwtVcFacts.v ===== *)
(** * JWT credentials: theorems (marty-oid4vci, [jose.rs], [formats/jwt_vc.rs])

    The Open Badges profile that an issuer applies is the one that a verifier
    accepts; a JWT that is assembled decodes to the header and the payload that
    were prepared; and nothing is assembled but with a signature that the public
    key frozen at preparation verifies. *)

From stdpp Require Import pretty.
From S2P Require Import Prelude Des Governance GovernanceFacts PolicyService EvidencePolicy Issuance JwtVc Base64.
Local Open Scope string_scope.
Local Open Scope Z_scope.

#[local] Abbreviation bytes := (list Z).
#[local] Abbreviation JsonMap := (list (string * Value)).

(** ** Trimming *)

Section trim.
Variables (w2 : Z -> Z -> bool) (w3 : Z -> Z -> Z -> bool).

(** The text starts with white space. *)
Definition starts_blank (s : bytes) : bool :=
  match s with
  | [] => false
  | a :: r => ws1 a || match r with
                       | [] => false
                       | b :: r => w2 a b || match r with [] => false | c :: _ => w3 a b c end
                       end
  end.

Lemma trim_front_fixed s : starts_blank s = false -> trim_front w2 w3 s = s.
Proof.
  destruct s as [|a [|b [|c r]]]; cbn; [done|..]; destruct (ws1 a); cbn; try done; destruct (w2 a b); cbn; try done.
  by destruct (w3 a b c).
Qed.

Lemma trim_front_spec n : forall s, (length s <= n)%nat ->
  starts_blank (trim_front w2 w3 s) = false /\ exists k, trim_front w2 w3 s = drop k s.
Proof.
  induction n as [|n IH]; intros s Hn; [by destruct s; [split; [done|by exists O]|cbn in Hn; lia]|].
  destruct (starts_blank s) eqn:Hs; [|rewrite trim_front_fixed by done; split; [done|by exists O]].
  destruct s as [|a [|b [|c r]]]; cbn in Hs, Hn |- *; [done|..].
  - rewrite orb_false_r in Hs. rewrite Hs. split; [done|by exists 1%nat].
  - destruct (ws1 a); [destruct (IH [b]) as [? [k Hk]]; [cbn; lia|split; [done|by exists (S k)]]|].
    destruct (w2 a b); [split; [done|by exists 2%nat]|done].
  - destruct (ws1 a); [destruct (IH (b :: c :: r)) as [? [k Hk]]; [cbn; lia|split; [done|by exists (S k)]]|].
    destruct (w2 a b); [destruct (IH (c :: r)) as [? [k Hk]]; [cbn; lia|split; [done|by exists (S (S k))]]|].
    destruct (w3 a b c); [|done]. destruct (IH r) as [? [k Hk]]; [lia|split; [done|by exists (S (S (S k)))]].
Qed.

Lemma starts_blank_app s t : starts_blank (s ++ t) = false -> starts_blank s = false.
Proof.
  destruct s as [|a [|b [|c r]]]; cbn; [done|..]; destruct (ws1 a); cbn; try done; destruct (w2 a b); cbn; done.
Qed.
End trim.

Lemma utf8_trim_idemp s : utf8_trim (utf8_trim s) = utf8_trim s.
Proof.
  unfold utf8_trim. destruct (trim_front_spec ws2 ws3 (length s) s (le_n _)) as [Hu _].
  set (u := trim_front ws2 ws3 s) in *.
  destruct (trim_front_spec (fun b a => ws2 a b) (fun c b a => ws3 a b c) _ (reverse u) (le_n _)) as [Hv [k Hk]].
  set (v := trim_front _ _ (reverse u)) in *.
  rewrite (trim_front_fixed ws2 ws3 (reverse v)).
  - rewrite reverse_involutive. by rewrite trim_front_fixed.
  - apply starts_blank_app with (reverse (take k (reverse u))).
    rewrite <- reverse_app, Hk, take_drop, reverse_involutive. done.
Qed.

Lemma utf8_trim_sublist s b : b ∈ utf8_trim s -> b ∈ s.
Proof.
  unfold utf8_trim. rewrite elem_of_reverse.
  destruct (trim_front_spec (fun b a => ws2 a b) (fun c b a => ws3 a b c) _ (reverse (trim_front ws2 ws3 s)) (le_n _))
    as [_ [k ->]].
  intros Hb%subseteq_drop. destruct (trim_front_spec ws2 ws3 _ s (le_n _)) as [_ [j Hj]].
  rewrite elem_of_reverse, Hj in Hb. by apply subseteq_drop in Hb.
Qed.

Lemma byte_of_ascii a : 0 <= Z.of_N (N_of_ascii a) < 256.
Proof. pose proof (Ascii.N_ascii_bounded a). lia. Qed.

Lemma str_bytes_ok s : bytes_ok (str_bytes s).
Proof.
  unfold bytes_ok, str_bytes. apply Forall_fmap, Forall_forall. intros a _. apply byte_of_ascii.
Qed.

Lemma str_bytes_of_bytes bs : bytes_ok bs -> str_bytes (str_of_bytes bs) = bs.
Proof.
  intros Hbs. unfold str_bytes, str_of_bytes. rewrite String.list_ascii_of_string_of_list_ascii, <- list_fmap_compose.
  rewrite <- (list_fmap_id bs) at 2. apply list_fmap_ext. intros i b Hb. cbn.
  apply (Forall_lookup_1 _ _ _ _ Hbs) in Hb. unfold byte_ok in Hb. rewrite Ascii.N_ascii_embedding; lia.
Qed.

Lemma str_trim_idemp s : str_trim (str_trim s) = str_trim s.
Proof.
  unfold str_trim. rewrite str_bytes_of_bytes; [by rewrite utf8_trim_idemp|].
  apply Forall_forall. intros b Hb%utf8_trim_sublist. pose proof (str_bytes_ok s) as Hs.
  by apply (proj1 (Forall_forall _ _) Hs).
Qed.

(** ** Objects *)

Lemma map_get_insert key key' v m :
  map_get key' (map_insert key v m) = if String.eqb key key' then Some v else map_get key' m.
Proof.
  induction m as [|[k w] m IH]; cbn [map_insert map_get]; [done|]. destruct (String.eqb_spec k key) as [->|Hk].
  - cbn [map_get]. by destruct (String.eqb key key').
  - cbn [map_get]. rewrite IH. destruct (String.eqb_spec k key'), (String.eqb_spec key key'); congruence.
Qed.

Lemma map_get_pair m key v : NoDup m.*1 -> map_get key m = Some v <-> (key, v) ∈ m.
Proof.
  induction m as [|[k w] m IH]; cbn [map_get fmap list_fmap fst]; [by rewrite elem_of_nil|].
  intros [Hk Hm]%NoDup_cons. rewrite elem_of_cons. destruct (String.eqb_spec k key) as [->|Hne].
  - split; [intros [= ->]; by left|]. intros [[= ->]|Hin]; [done|]. destruct Hk. by apply (list_elem_of_fmap_2 fst) in Hin.
  - rewrite IH by done. split; [by right|]. intros [[= ? ->]|]; [congruence|done].
Qed.

Lemma map_insert_keys key v m : (map_insert key v m).*1 = if contains_key key m then m.*1 else (m.*1 ++ [key])%list.
Proof.
  unfold contains_key. induction m as [|[k w] m IH]; cbn [map_insert map_get]; [done|].
  destruct (String.eqb k key); [done|]. rewrite fmap_cons, IH, fmap_cons. by case_bool_decide.
Qed.

Lemma map_get_keys key m : is_Some (map_get key m) <-> key ∈ m.*1.
Proof.
  induction m as [|[k w] m IH]; cbn [map_get fmap list_fmap fst].
  - rewrite elem_of_nil. split; [by intros []|done].
  - rewrite elem_of_cons. destruct (String.eqb_spec k key) as [->|]; [split; eauto|]. rewrite IH. naive_solver.
Qed.

Lemma map_insert_NoDup key v m : NoDup m.*1 -> NoDup (map_insert key v m).*1.
Proof.
  intros Hm. rewrite map_insert_keys. unfold contains_key. case_bool_decide as Hk; [done|].
  apply NoDup_app. split; [done|]. split; [|apply NoDup_singleton].
  intros x Hx ->%list_elem_of_singleton. by apply map_get_keys in Hx.
Qed.

Lemma position_of_Some key m i : position_of key m = Some i -> exists v, m !! i = Some (key, v).
Proof.
  revert i. induction m as [|[k w] m IH]; intros i; cbn [position_of]; [done|].
  destruct (String.eqb_spec k key) as [->|]; [intros [= <-]; by exists w|].
  intros (j & Hj & ->)%fmap_Some. by apply IH.
Qed.

(** The removal of an entry, as a permutation. *)
Lemma map_remove_perm key m : (exists v, m ≡ₚ (key, v) :: map_remove key m) \/ map_remove key m = m.
Proof.
  unfold map_remove. destruct (position_of key m) as [i|] eqn:Hi; [|by right].
  apply position_of_Some in Hi as [v Hi]. destruct m as [|e m _] using rev_ind; [done|]. left. exists v.
  rewrite last_snoc, length_app. cbn [length]. replace (length m + 1 - 1)%nat with (length m) by lia.
  destruct (decide (i < length m)%nat) as [Hlt|Hge].
  - rewrite insert_app_l by done. rewrite take_app_length' by (by rewrite length_insert).
    rewrite lookup_app_l in Hi by done. rewrite <- (take_drop_middle _ _ _ Hi) at 1.
    rewrite insert_take_drop by done. rewrite <- !Permutation_middle. rewrite app_nil_r.
    apply perm_swap.
  - apply lookup_lt_Some in Hi as Hl. rewrite length_app in Hl. cbn in Hl. assert (i = length m) as -> by lia.
    rewrite list_lookup_middle in Hi by done. injection Hi as ->.
    rewrite insert_app_r_alt, take_app_length' by lia. by rewrite Permutation_app_comm.
Qed.

Lemma map_get_remove key key' m : NoDup m.*1 -> key <> key' -> map_get key' (map_remove key m) = map_get key' m.
Proof.
  intros Hm Hne. destruct (map_remove_perm key m) as [[v Hp]| ->]; [|done]. generalize dependent (map_remove key m). intros m' Hp.
  assert (Hm' : NoDup m'.*1) by (rewrite Hp in Hm; by apply NoDup_cons in Hm as [_ ?]).
  apply option_eq. intros w. rewrite !map_get_pair by done. rewrite Hp, elem_of_cons. naive_solver.
Qed.

Lemma map_remove_NoDup key m : NoDup m.*1 -> NoDup (map_remove key m).*1.
Proof.
  intros Hm. destruct (map_remove_perm key m) as [[v Hp]| ->]; [|done]. rewrite Hp in Hm. by apply NoDup_cons in Hm as [_ ?].
Qed.

(** ** The Open Badges profile *)

(** A type member that has the required type: a string, or an array of strings. *)
Definition typed (required : string) (v : option Value) : Prop :=
  match v with
  | Some (VString s) => s = required
  | Some (Array l) => Forall (fun v => is_string v = true) l /\ VString required ∈ l
  | _ => False
  end.

Lemma one_of_elem s l : one_of s l = true <-> s ∈ l.
Proof.
  unfold one_of. rewrite existsb_exists. setoid_rewrite String.eqb_eq. rewrite list_elem_of_In.
  split; [by intros (x & ? & ->)|intros ?; by exists s].
Qed.

Lemma member_typed v required label : require_string_array_member v required label = Ok tt <-> typed required v.
Proof.
  unfold require_string_array_member. split.
  - intros (values & Hv & Hin)%bind_Ok. apply ensure_Ok, one_of_elem in Hin.
    destruct v as [[| | |s|l|]|]; try done.
    + injection Hv as <-. by apply list_elem_of_singleton in Hin.
    + apply bind_Ok in Hv as ([] & Hs%ensure_Ok & [= <-]). split.
      * apply Forall_forall. intros x Hx. rewrite forallb_forall in Hs. apply Hs. by apply list_elem_of_In.
      * apply list_elem_of_omap in Hin as ([| | |s| |] & Hx & [= <-]). done.
  - destruct v as [[| | |s|l|]|]; try done; cbn [typed].
    + intros ->. cbn [mbind res_bind]. by rewrite (proj2 (one_of_elem required [required])) by left.
    + intros [Hs Hin]. rewrite (proj2 (forallb_forall is_string l)).
      2: { intros x Hx%list_elem_of_In. by apply (proj1 (Forall_forall _ _) Hs). }
      cbn [ensure mbind res_bind]. rewrite (proj2 (one_of_elem required (omap as_str l))); [done|].
      apply list_elem_of_omap. by exists (VString required).
Qed.

Lemma ensure_type_typed m required label m' : ensure_required_type m required label = Ok m' ->
  typed required (map_get "type" m') /\ (NoDup m.*1 -> NoDup m'.*1) /\
  (forall key, key <> "type" -> map_get key m' = map_get key m).
Proof.
  assert (Hins : forall v, typed required (Some v) ->
    typed required (map_get "type" (map_insert "type" v m)) /\ (NoDup m.*1 -> NoDup (map_insert "type" v m).*1) /\
    (forall key, key <> "type" -> map_get key (map_insert "type" v m) = map_get key m)).
  { intros v Hv. split_and!; [by rewrite map_get_insert|apply map_insert_NoDup|].
    intros key Hkey. rewrite map_get_insert. by destruct (String.eqb_spec "type" key) as [<-|]. }
  unfold ensure_required_type. destruct (map_get "type" m) as [[| | |s|l|]|] eqn:Hm; try done.
  - destruct (String.eqb_spec s required) as [->|]; intros [= <-]; [by rewrite Hm|]. apply Hins. split.
    + by repeat constructor.
    + right. by left.
  - intros ([] & Hs%ensure_Ok & [= <-])%bind_Ok.
    assert (Hs' : Forall (fun v => is_string v = true) l).
    { apply Forall_forall. intros x Hx. rewrite forallb_forall in Hs. apply Hs. by apply list_elem_of_In. }
    destruct (existsb _ l) eqn:He.
    + rewrite Hm. split; [split; [done|]|done]. apply existsb_exists in He as (x & Hx & He%bool_decide_eq_true).
      destruct x; try done. cbn [as_str] in He. injection He as ->. by apply list_elem_of_In.
    + apply Hins. split; [apply Forall_app; by repeat constructor|]. apply elem_of_app. right. by left.
  - intros [= <-]. apply Hins. split; [by repeat constructor|by left].
Qed.

Lemma trimmed_idemp v t : trimmed_text v = Some t -> trimmed_text (Some (VString t)) = Some t.
Proof.
  unfold trimmed_text. intros (s & _ & Ht)%bind_Some. destruct (String.eqb_spec (str_trim s) "") as [|Hne]; [done|].
  injection Ht as <-. cbn [mbind option_bind as_str]. rewrite str_trim_idemp. by apply String.eqb_neq in Hne as ->.
Qed.

(** What the steps of the subject keep. *)
Lemma bind_identifier_Ok m id c n m' : bind_identifier m id c n = Ok m' ->
  map_get "id" m' = Some (VString id) /\ (NoDup m.*1 -> NoDup m'.*1) /\
  (forall key, key <> "id" -> map_get key m' = map_get key m).
Proof.
  unfold bind_identifier. destruct (map_get "id" m) as [[| | |s| |]|] eqn:Hm; try done.
  - intros ([] & ->%ensure_Ok%String.eqb_eq & [= <-])%bind_Ok. done.
  - intros [= <-]. split_and!; [by rewrite map_get_insert|apply map_insert_NoDup|].
    intros key Hkey. rewrite map_get_insert. by destruct (String.eqb_spec "id" key) as [<-|].
Qed.

Lemma take_optional_Ok m field t m' : NoDup m.*1 -> take_optional_non_empty_string m field = Ok (t, m') ->
  (forall x, t = Some x -> trimmed_text (map_get field m) = Some x) /\ NoDup m'.*1 /\
  (forall key, key <> field -> map_get key m' = map_get key m).
Proof.
  intros Hnd. unfold take_optional_non_empty_string. destruct (map_get field m) as [v|] eqn:Hm.
  - intros (x & Hx%ok_or_Ok & [= <- <-])%bind_Ok. split_and!; [congruence|by apply map_remove_NoDup|].
    intros key Hkey. by rewrite map_get_remove.
  - intros [= <- <-]. done.
Qed.

Lemma merge_required_Ok m field legacy m' : merge_required_string m field legacy = Ok m' ->
  (forall x, legacy = Some x -> exists v, trimmed_text v = Some x) ->
  is_Some (trimmed_text (map_get field m')) /\ (forall key, key <> field -> map_get key m' = map_get key m).
Proof.
  intros ([] & _ & Hm)%bind_Ok Hl. destruct (trimmed_text (map_get field m)) as [e|] eqn:He; [injection Hm as <-; by rewrite He|].
  apply bind_Ok in Hm as (x & ->%ok_or_Ok & [= <-]). destruct (Hl x eq_refl) as (v & Hv).
  rewrite map_get_insert, String.eqb_refl, (trimmed_idemp _ _ Hv). split; [done|].
  intros key Hkey. rewrite map_get_insert. by destruct (String.eqb_spec field key) as [<-|].
Qed.

Lemma add_criteria_Ok m c m' : add_criteria m c = Ok m' ->
  forall key, key <> "criteria" -> map_get key m' = map_get key m.
Proof.
  unfold add_criteria. destruct c; [|by intros [= <-]]. intros ([] & _ & [= <-])%bind_Ok key Hkey.
  rewrite map_get_insert. by destruct (String.eqb_spec "criteria" key) as [<-|].
Qed.

(** An achievement that a verifier accepts. *)
Definition achievement_ok (id : string) (m : JsonMap) : Prop :=
  typed "Achievement" (map_get "type" m) /\ map_get "id" m = Some (VString id) /\
  is_Some (trimmed_text (map_get "name" m)) /\ is_Some (trimmed_text (map_get "description" m)).

Lemma badge_subject_Ok subject holder id m : NoDup subject.*1 -> badge_subject subject holder id = Ok m ->
  typed "AchievementSubject" (map_get "type" m) /\
  map_get "id" m = (match holder with Some h => Some (VString h) | None => map_get "id" subject end) /\
  exists a, map_get "achievement" m = Some (Object a) /\ achievement_ok id a.
Proof.
  intros Hnd (s1 & H1 & Hm)%bind_Ok.
  assert (Hs1 : NoDup s1.*1 /\ map_get "id" s1 = match holder with Some h => Some (VString h) | None => map_get "id" subject end).
  { destruct holder; [apply bind_identifier_Ok in H1 as (? & ? & _); eauto|by injection H1 as <-]. }
  destruct Hs1 as [Hnd1 Hid1]. apply bind_Ok in Hm as (s2 & (Ht2 & Hnd2 & Hk2)%ensure_type_typed & Hm).
  apply bind_Ok in Hm as ([name s3] & (Hn3 & Hnd3 & Hk3)%take_optional_Ok & Hm); [|eauto].
  apply bind_Ok in Hm as ([description s4] & (Hn4 & Hnd4 & Hk4)%take_optional_Ok & Hm); [|done].
  set (s5 := map_remove _ s4) in Hm.
  assert (Hk5 : forall key, key <> "achievement_criteria" -> map_get key s5 = map_get key s4)
    by (intros; by apply map_get_remove).
  apply bind_Ok in Hm as (a0 & _ & Hm). apply bind_Ok in Hm as (a1 & (Hai & _ & Hak)%bind_identifier_Ok & Hm).
  apply bind_Ok in Hm as (a2 & (Hat & _ & Hak2)%ensure_type_typed & Hm).
  apply bind_Ok in Hm as (a3 & (Han & Hak3)%merge_required_Ok & Hm); [|eauto].
  apply bind_Ok in Hm as (a4 & (Had & Hak4)%merge_required_Ok & Hm); [|eauto].
  apply bind_Ok in Hm as (a5 & Hcr & [= <-]).
  pose proof (add_criteria_Ok _ _ _ Hcr) as Hak5.
  split; [|split].
  - rewrite map_get_insert. cbn [String.eqb Ascii.eqb]. by rewrite Hk5, Hk4, Hk3.
  - rewrite map_get_insert. cbn [String.eqb Ascii.eqb]. by rewrite Hk5, Hk4, Hk3, Hk2, Hid1.
  - exists a5. split; [by rewrite map_get_insert|]. unfold achievement_ok.
    rewrite !Hak5 by done. rewrite !(Hak4 "type"), !(Hak4 "id"), !(Hak4 "name") by done.
    rewrite (Hak3 "type"), (Hak3 "id"), (Hak2 "id") by done. done.
Qed.

Lemma map_get_set_opt key key' v m :
  map_get key' (set_opt key v m) = if String.eqb key key' then match v with Some _ => v | None => map_get key' m end else map_get key' m.
Proof. destruct v; cbn [set_opt]; [apply map_get_insert|by destruct (String.eqb key key')]. Qed.

Lemma map_get_set_if c key key' v m :
  map_get key' (set_if c key v m) = if c && String.eqb key key' then Some v else map_get key' m.
Proof. destruct c; cbn [set_if andb]; [apply map_get_insert|done]. Qed.

Lemma strings_typed required l : required ∈ l -> typed required (Some (strings l)).
Proof.
  intros Hin. split; [by apply Forall_fmap, Forall_forall|]. by apply list_elem_of_fmap_2.
Qed.

Section badges.
Context `{UriParser} `{IssueClock}.

(** The three members of a VCDM 2 credential that the profile reads. *)
Lemma vc_object_members signer claims options cid now expires :
  credential_payload_format claims = W3cVcdmV2JwtVc ->
  map_get "@context" (vc_object signer claims options cid now expires) = Some (strings (VCDM_V2_CONTEXT :: w3c_context claims)) /\
  map_get "type" (vc_object signer claims options cid now expires) = Some (strings (vc_types claims)) /\
  map_get "credentialSubject" (vc_object signer claims options cid now expires) = Some (subject_of claims options).
Proof.
  intros Hf. unfold vc_object. rewrite Hf, bool_decide_true by done.
  rewrite !map_get_set_opt, !map_get_set_if. cbn [String.eqb Ascii.eqb Bool.eqb map_get]. by rewrite !andb_false_r.
Qed.

(** A subject and an achievement of the profile pass, up to the identifier of the subject. *)
Lemma validate_badge_vc vc ctx types subject achievement id :
  map_get "@context" vc = Some (strings ctx) -> VCDM_V2_CONTEXT ∈ ctx -> OPEN_BADGES_V3_CONTEXT ∈ ctx ->
  map_get "type" vc = Some (strings types) -> "VerifiableCredential" ∈ types -> OPEN_BADGES_V3_CREDENTIAL_TYPE ∈ types ->
  map_get "credentialSubject" vc = Some (Object subject) -> typed "AchievementSubject" (map_get "type" subject) ->
  map_get "achievement" subject = Some (Object achievement) -> achievement_ok id achievement ->
  trimmed_text (Some (VString id)) = Some id -> uri_parse id = inr tt ->
  validate_open_badge_v3_profile (Object vc) =
    match trimmed_text (map_get "id" subject) with
    | Some _ => Ok tt
    | None => Err (invalid_badge "credentialSubject id must be a non-empty string")
    end.
Proof.
  intros Hc H1 H2 Ht H3 H4 Hs Hst Ha (Hat & Hai & [n Hn] & [d Hd]) Hid Hu. unfold validate_open_badge_v3_profile, require_non_empty_string.
  cbn [as_object ok_or mbind res_bind]. rewrite Hc, Ht, Hs.
  rewrite !(proj2 (member_typed _ _ _)) by (by apply strings_typed). cbn [as_object ok_or mbind res_bind option_bind].
  rewrite (proj2 (member_typed _ _ _)) by done. cbn [mbind res_bind].
  destruct (trimmed_text (map_get "id" subject)); cbn [ok_or mbind res_bind]; [|done].
  rewrite Ha. cbn [mbind option_bind as_object ok_or res_bind]. rewrite (proj2 (member_typed _ _ _)) by done. cbn [mbind res_bind].
  rewrite Hai, Hid. cbn [ok_or mbind res_bind]. rewrite Hu. cbn [lift_oid mbind res_bind]. by rewrite Hn, Hd.
Qed.

(** C14: The Open Badges profile that an issuer applies is the one that a verifier asks
    for: for a VCDM 2 payload, whatever the legacy claims were, the credential that
    is prepared passes the validation of a verifier if and only if its subject has
    a non-empty identifier (the holder's, when there is one). *)
Theorem open_badge_profile_agrees signer claims options achievement_id claims' options' subject cid now expires :
  apply_open_badge_v3_profile claims options achievement_id = Ok (claims', options') ->
  credential_payload_format claims = W3cVcdmV2JwtVc ->
  default (Object (cc_claims claims)) (jo_credential_subject options) = Object subject -> NoDup subject.*1 ->
  str_trim achievement_id = achievement_id -> achievement_id <> "" ->
  validate_open_badge_v3_profile (Object (vc_object signer claims' options' cid now expires)) =
    match trimmed_text (match cc_subject_id claims with Some h => Some (VString h) | None => map_get "id" subject end) with
    | Some _ => Ok tt
    | None => Err (invalid_badge "credentialSubject id must be a non-empty string")
    end.
Proof.
  intros Happ Hf Hsub Hnd Htrim Hne. unfold apply_open_badge_v3_profile in Happ. rewrite Hsub in Happ.
  apply bind_Ok in Happ as ([] & Hu & Happ). cbn [as_object ok_or mbind res_bind] in Happ.
  apply bind_Ok in Happ as (m & (Hst & Hid & a & Ha & Hok)%badge_subject_Ok & [= <- <-]); [|done]. rewrite <- Hid.
  destruct (vc_object_members signer
    (mkClaims (cc_subject_id claims) OPEN_BADGES_V3_CREDENTIAL_TYPE [] (expiration_seconds claims)
        (selective_disclosure_claims claims) (mdoc_namespace claims) (mdoc_doctype claims)
        (zk_predicate_claims claims) (credential_payload_format claims)
        (if one_of OPEN_BADGES_V3_CONTEXT (w3c_context claims) then w3c_context claims
         else (w3c_context claims ++ [OPEN_BADGES_V3_CONTEXT])%list)
        (List.filter (fun t => negb (one_of t ["open_badge"; "open_badge_v3"])) (w3c_types claims)))
    (mkJwtOptions (jo_credential_id options) (Some (Object m)) (jo_credential_status options)
        (include_subject_claim options) (include_vc_id options) (include_nbf options)) cid now expires Hf) as (Hc & Ht & Hs).
  eapply validate_badge_vc; [exact Hc|by left| |exact Ht|by left| |exact Hs|done|exact Ha|exact Hok| |].
  - right. cbn [w3c_context]. destruct (one_of _ _) eqn:Ho; [by apply one_of_elem|]. apply elem_of_app. right. by left.
  - right. cbn [cc_credential_type]. by left.
  - unfold trimmed_text. cbn [mbind option_bind as_str]. rewrite Htrim. by apply String.eqb_neq in Hne as ->.
  - by destruct (uri_parse achievement_id) as [|[]].
Qed.
End badges.

(** ** JWTs round trip *)

(** [base64], URL safe without padding: no dot, and text for bytes. *)
Class Base64Text (B : Base64Url) := {
  b64_no_dot bs : has_dot (b64_encode bs) = false;
  b64_nonempty bs : bs <> [] -> b64_encode bs <> "";
}.

(** [serde_json] reads back the values it writes, and no value from no text. *)
Class JsonCodecLaws (J : JsonCodec) := {
  json_read_written v s : unique_members v = true -> json_to_string v = inr s -> json_read (str_bytes s) = inr v;
  json_read_nothing : exists e, json_read [] = inl e;
}.

Lemma split_once_app s t : has_dot s = false -> split_once_dot (s +:+ "." +:+ t) = Some (s, t).
Proof.
  unfold has_dot. induction s as [|c s IH]; intros Hs; [done|].
  change (split_once_dot (String c s +:+ "." +:+ t)) with
    (if Ascii.eqb c "." then Some (EmptyString, s +:+ "." +:+ t)
     else '(a, b) ← split_once_dot (s +:+ "." +:+ t); Some (String c a, b)).
  apply bool_decide_eq_false in Hs. cbn [split_once_dot] in Hs.
  destruct (Ascii.eqb c "."); [destruct Hs; eauto|]. rewrite IH; [done|]. apply bool_decide_eq_false. intros [[x y] Hx].
  apply Hs. rewrite Hx. eauto.
Qed.

Lemma append_assoc s t u : (s +:+ t) +:+ u = s +:+ (t +:+ u).
Proof. induction s as [|c s IH]; [done|]. change (String c ((s +:+ t) +:+ u) = String c (s +:+ (t +:+ u))). by rewrite IH. Qed.

Lemma unique_insert key v m : unique_members (Object m) = true -> unique_members v = true ->
  unique_members (Object (map_insert key v m)) = true.
Proof.
  cbn [unique_members]. rewrite !andb_true_iff, !bool_decide_eq_true. intros [Hnd Hm] Hv. split; [by apply map_insert_NoDup|].
  clear Hnd. induction m as [|[k w] m IH]; cbn [map_insert forallb snd] in *; [by rewrite Hv|].
  apply andb_true_iff in Hm as [Hw Hm]. destruct (String.eqb k key); cbn [forallb snd].
  - by rewrite Hv, Hm.
  - by rewrite Hw, IH.
Qed.

Lemma unique_set_opt key v m : unique_members (Object m) = true -> (forall w, v = Some w -> unique_members w = true) ->
  unique_members (Object (set_opt key v m)) = true.
Proof. destruct v; cbn [set_opt]; [intros; apply unique_insert; auto|done]. Qed.

Lemma unique_set_if c key v m : unique_members (Object m) = true -> unique_members v = true ->
  unique_members (Object (set_if c key v m)) = true.
Proof. destruct c; cbn [set_if]; [apply unique_insert|done]. Qed.

Lemma unique_strings l : unique_members (strings l) = true.
Proof. unfold strings. cbn [unique_members]. induction l; [done|]. by cbn [fmap list_fmap forallb unique_members andb]. Qed.

Section roundtrip.
Context `{Base64Url} `{JsonCodec} `{JwtLib} `{SignerLib} `{IssueClock}.

Lemma vc_object_unique signer claims options cid now expires :
  unique_members (subject_of claims options) = true ->
  (forall v, jo_credential_status options = Some v -> unique_members v = true) ->
  unique_members (Object (vc_object signer claims options cid now expires)) = true.
Proof.
  intros Hs Hst. unfold vc_object.
  apply unique_set_opt; [|done]. apply unique_set_opt; [|by destruct expires; intros w [= <-]]. apply unique_set_if; [|done].
  cbn [unique_members forallb snd fmap list_fmap fst]. rewrite !unique_strings, Hs.
  by destruct (bool_decide (credential_payload_format claims = W3cVcdmV2JwtVc)).
Qed.

Lemma jwt_payload_unique signer claims options cid now expires :
  unique_members (subject_of claims options) = true ->
  (forall v, jo_credential_status options = Some v -> unique_members v = true) ->
  unique_members (Object (jwt_payload signer claims options cid now expires)) = true.
Proof.
  intros Hs Hst. pose proof (vc_object_unique signer claims options cid now expires Hs Hst) as Hvc. unfold jwt_payload.
  assert (Hbase : unique_members (Object [("iss", VString (sg_issuer_id signer)); ("iat", json_int (timestamp now));
      ("jti", VString cid); ("vc", Object (vc_object signer claims options cid now expires))]) = true).
  { remember (Object (vc_object signer claims options cid now expires)) as vc. cbn [unique_members forallb snd fmap list_fmap fst].
    by rewrite Hvc. }
  apply unique_set_opt; [|by destruct expires; intros w [= <-]]. apply unique_set_if; [|done].
  destruct (include_subject_claim options); [|done]. apply unique_set_opt; [done|]. by destruct (cc_subject_id claims); intros w [= <-].
Qed.

Context `{!Base64Laws _} `{!Base64Text _} `{!JsonCodecLaws _}.

Lemma encoded_size bs limit : zlen bs <= limit -> str_len (b64_encode bs) <= max_encoded_len limit.
Proof.
  intros Hl. unfold str_len. etrans; [apply b64_encode_length|]. unfold max_encoded_len, div_ceil.
  Z.to_euclidean_division_equations; lia.
Qed.

Lemma decode_segment_encoded bs limit i o : bytes_ok bs -> zlen bs <= limit ->
  decode_segment (b64_encode bs) limit i o = Ok bs.
Proof.
  intros Hbs Hl. unfold decode_segment. rewrite b64_decode_encode by done.
  rewrite (proj2 (Z.ltb_ge _ _)) by (by apply encoded_size). cbn [negb ensure mbind res_bind]. rewrite (proj2 (Z.ltb_ge _ _)) by done.
  cbn [negb ensure mbind res_bind]. by rewrite String.eqb_refl.
Qed.

Lemma split_assembled h p s limits :
  h <> [] -> p <> [] -> s <> [] -> zlen h <= lim_header limits -> zlen p <= lim_claims limits -> zlen s <= lim_signature limits ->
  str_len ((b64_encode h +:+ "." +:+ b64_encode p) +:+ "." +:+ b64_encode s) <= lim_total limits ->
  split_compact_jwt ((b64_encode h +:+ "." +:+ b64_encode p) +:+ "." +:+ b64_encode s) limits =
    Ok (mkSegments (b64_encode h) (b64_encode p) (b64_encode s)).
Proof.
  intros Hh Hp Hs Lh Lp Ls Lt. unfold split_compact_jwt. rewrite (proj2 (Z.ltb_ge _ _)) by done. rewrite append_assoc.
  assert (Hne : forall bs, bs <> [] -> String.eqb (b64_encode bs) "" = false)
    by (intros bs Hbs; by apply String.eqb_neq, b64_nonempty).
  assert (Hcomp : String.eqb (b64_encode h +:+ ("." +:+ b64_encode p) +:+ "." +:+ b64_encode s) "" = false).
  { apply String.eqb_neq. intros Heq. apply (b64_nonempty h Hh). by destruct (b64_encode h). }
  rewrite Hcomp. cbn [orb negb ensure mbind res_bind]. rewrite append_assoc, split_once_app by apply b64_no_dot.
  cbn [ok_or mbind res_bind]. rewrite split_once_app by apply b64_no_dot. cbn [ok_or mbind res_bind].
  rewrite !Hne, b64_no_dot by done. cbn [orb negb ensure mbind res_bind].
  rewrite !(proj2 (Z.ltb_ge _ _)) by (by apply encoded_size). done.
Qed.

Lemma parse_unique_written m s field : unique_members (Object m) = true -> json_to_string (Object m) = inr s ->
  parse_unique_object (str_bytes s) field = Ok (Object m) /\ str_bytes s <> [].
Proof.
  intros Hu Hs. pose proof (json_read_written _ _ Hu Hs) as Hr. split.
  - unfold parse_unique_object. rewrite Hr. cbn [lift_oid mbind res_bind]. by rewrite Hu.
  - intros Hnil. rewrite Hnil in Hr. destruct json_read_nothing as [e He]. congruence.
Qed.

(** C15: A JWT that is assembled decodes, within the limits of a verifier, to exactly the
    header and the payload that were prepared, and its signature was verified over
    its own signing input with the public key that the signer had when the
    credential was prepared. *)
Theorem assembled_jwt_decodes signer claims options now fresh p signature jwt cid expires header payload :
  prepare_jwt_vc_with_options signer claims options now fresh = Ok p ->
  assemble_jwt_vc p signature = Ok (JwtVcJson jwt cid) ->
  checked_jwt_vc_expiration now (expiration_seconds claims) = Ok expires ->
  json_to_string (Object (jwt_header signer)) = inr header ->
  json_to_string (Object (jwt_payload signer claims options cid now expires)) = inr payload ->
  unique_members (subject_of claims options) = true ->
  (forall v, jo_credential_status options = Some v -> unique_members v = true) ->
  str_len header <= MAX_JWT_HEADER_BYTES -> str_len payload <= MAX_JWT_CLAIMS_BYTES ->
  str_len jwt <= MAX_COMPACT_JWT_BYTES -> bytes_ok signature -> 0 < zlen signature <= MAX_RSA_SIGNATURE_BYTES ->
  decode_unverified_compact_jwt jwt =
    Ok (Object (jwt_header signer), Object (jwt_payload signer claims options cid now expires)) /\
  cid = default ("urn:uuid:" +:+ fresh) (jo_credential_id options) /\
  exists jwk, validate_signer_public_jwk signer = Ok jwk /\
    verify_remote_signature (sg_algorithm signer) jwk (str_bytes (pj_signing_input p)) signature = Ok tt /\
    jwt = pj_signing_input p +:+ "." +:+ b64_encode signature.
Proof.
  intros Hprep Hasm Hexp Hh Hp Hsub Hst Lh Lp Lt Hsig Ls. unfold prepare_jwt_vc_with_options in Hprep.
  rewrite Hexp in Hprep. cbn [mbind res_bind] in Hprep. rewrite Hh in Hprep. cbn [lift_oid mbind res_bind] in Hprep.
  apply bind_Ok in Hprep as (payload' & Hp' & Hprep). apply bind_Ok in Hprep as (jwk & Hjwk & [= <-]).
  apply bind_Ok in Hasm as ([] & Hver & [= <- Hcid]). cbn [pj_credential_id pj_signing_input] in *. rewrite Hcid, Hp in Hp'.
  injection Hp' as <-. split; [|split; [done|by exists jwk]].
  destruct (parse_unique_written (jwt_header signer) _ "JWT header" eq_refl Hh) as [Hhd Hhn].
  destruct (parse_unique_written _ _ "JWT claims" (jwt_payload_unique signer claims options cid now expires Hsub Hst) Hp) as [Hpd Hpn].
  unfold decode_unverified_compact_jwt. rewrite str_len_bytes in Lh, Lp.
  rewrite split_assembled; [|done|done| |done|done|cbn; lia|done].
  2: { intros ->. by destruct Ls. }
  cbn [map_err mbind res_bind seg_header seg_claims seg_signature].
  rewrite !decode_segment_encoded by first [apply str_bytes_ok|done|lia].
  cbn [map_err mbind res_bind]. by rewrite Hhd, Hpd.
Qed.
End roundtrip.

(** ** Concrete credentials *)

Lemma b64_char_table : forallb (fun n => negb (Ascii.eqb (b64_char (Z.of_nat n)) ".")) (seq 0 64) = true.
Proof. vm_compute. reflexivity. Qed.

Lemma b64_char_no_dot n : Ascii.eqb (b64_char n) "." = false.
Proof.
  pose proof b64_char_table as Ht. rewrite forallb_forall in Ht. unfold b64_char.
  destruct (decide (Z.to_nat n < 64)%nat) as [Hlt|Hge].
  - specialize (Ht (Z.to_nat n)). unfold b64_char in Ht. rewrite Nat2Z.id in Ht. apply negb_true_iff, Ht, in_seq. lia.
  - rewrite nth_overflow; [done|]. cbn. lia.
Qed.

#[local] Instance base64url_text : Base64Text base64url.
Proof.
  split; intros bs; cbn [b64_encode base64url].
  - apply bool_decide_eq_false. rewrite eq_None_not_Some || rewrite <- eq_None_not_Some.
    induction bs as [|a|a b|a b c rest IH] using triples_ind; cbn [b64_chars String.string_of_list_ascii split_once_dot];
      rewrite ?b64_char_no_dot; cbn [mbind option_bind]; [done..|]. by rewrite IH.
  - by destruct bs as [|a [|b [|c rest]]].
Qed.

#[local] Instance Value_eq_dec : EqDecision Value.
Proof.
  refine (fix go (v w : Value) {struct v} : Decision (v = w) :=
    match v, w with
    | Null, Null => left eq_refl
    | Bool a, Bool b => cast_if (decide (a = b))
    | Number a, Number b => cast_if (decide (a = b))
    | VString a, VString b => cast_if (decide (a = b))
    | Array l, Array k => cast_if (list_eq_dec (dec := go) l k)
    | Object l, Object k => cast_if (list_eq_dec (dec := prod_eq_dec (EqDecision1 := go)) l k)
    | _, _ => right _
    end); congruence.
Defined.

Module ToyBadge.
#[local] Instance toy_uri : UriParser := fun s => if String.eqb s "" then inl "empty" else inr tt.
#[local] Instance toy_clock : IssueClock := { add_seconds t s := Some (t + s * 1000000000); format_zulu _ := "t" }.

Definition badge_claims : CredentialClaims :=
  mkClaims (Some "did:holder") "open_badge_v3" [("achievement_name", VString " Rust "); ("level", Number "3");
    ("achievement_description", VString "Writes Rust")] (Some 60) [] None None [] W3cVcdmV2JwtVc [] ["open_badge"].
Definition toy_metadata : SignerMetadata := mkSigner ES256 "issuer" "issuer#1" (Ok "K").

Definition applied : CredentialClaims * JwtVcPreparationOptions :=
  match apply_open_badge_v3_profile badge_claims jwt_options_default "urn:badge" with
  | Ok r => r | _ => (badge_claims, jwt_options_default)
  end.
Lemma badge_applied : apply_open_badge_v3_profile badge_claims jwt_options_default "urn:badge" = Ok applied.
Proof. vm_compute. reflexivity. Qed.
Lemma badge_subject_keys : NoDup (cc_claims badge_claims).*1.
Proof. apply (bool_decide_unpack _). vm_compute. reflexivity. Qed.
Lemma badge_id_trim : str_trim "urn:badge" = "urn:badge".
Proof. vm_compute. reflexivity. Qed.

Lemma open_badge_profile_agrees_witness :
  validate_open_badge_v3_profile (Object (vc_object toy_metadata applied.1 applied.2 "urn:uuid:1" 0 None)) = Ok tt.
Proof.
  rewrite (open_badge_profile_agrees toy_metadata badge_claims jwt_options_default "urn:badge" applied.1 applied.2
    (cc_claims badge_claims) "urn:uuid:1" 0 None badge_applied eq_refl eq_refl badge_subject_keys badge_id_trim);
    [vm_compute; reflexivity|discriminate].
Defined.

(** A codec that writes the two objects of one credential. *)
Definition toy_header : Value := Object (jwt_header toy_metadata).
Definition toy_payload : Value :=
  Object (jwt_payload toy_metadata badge_claims jwt_options_default "urn:uuid:1" 0 (Some 60000000000)).
#[local] Instance toy_codec : JsonCodec := {
  json_read bs := if bool_decide (bs = [75]) then inr (Object [("kty", VString "EC"); ("kid", VString "issuer#1")])
                  else if bool_decide (bs = [72]) then inr toy_header
                  else if bool_decide (bs = [80]) then inr toy_payload else inl "text";
  json_to_string v := if bool_decide (v = toy_header) then inr "H" else if bool_decide (v = toy_payload) then inr "P" else inl "text";
}.
#[local] Instance toy_codec_laws : JsonCodecLaws toy_codec.
Proof.
  split.
  - intros v s _. cbn [json_to_string json_read toy_codec]. case_bool_decide as Hh; [|case_bool_decide as Hp]; intros [= <-]; subst v;
      by rewrite ?bool_decide_true, ?bool_decide_false by (try done; by vm_compute).
  - by exists "text".
Qed.
#[local] Instance toy_jwt : JwtLib := {
  JwtKey := unit;
  crypto_provider := inr tt;
  jwk_from_value _ := inr tt;
  decoding_key _ := inr tt;
  header_algorithm _ := inl "unused";
  verify_compact _ _ _ := inl "unused";
  verify_detached _ _ _ _ := inl "unused";
  ecdsa_from_der _ _ := inl "unused";
}.
Definition toy_key : JwkParams := JwkEC (Some "P-256") (Some (replicate 32 1)) (Some (replicate 32 2)) false.
Definition toy_signature : bytes := replicate 64 1.
#[local] Instance toy_signer_lib : SignerLib := {
  params_of_value _ := inr toy_key;
  params_of_str _ := inr toy_key;
  ec_key _ k := if zlen k =? 65 then inr tt else inl "key";
  ec_signature _ s := if zlen s =? 64 then inr tt else inl "signature";
  ec_digest _ _ := inr tt;
  ec_verify _ _ _ s := bool_decide (s = toy_signature);
  ed25519_key _ := inl "unused";
  ed25519_signature _ := inl "unused";
  ed25519_verify_strict _ _ _ := false;
  edwards_recompress _ := None;
  scalar_canonical _ := false;
}.

Definition badge_prepared : PreparedJwtVc := mkPreparedJwt "SA.UA" "urn:uuid:1" ES256 "K".
Definition toy_jwt_text : string := "SA.UA." +:+ b64_encode toy_signature.
Lemma badge_prepares : prepare_jwt_vc_with_options toy_metadata badge_claims jwt_options_default 0 "1" = Ok badge_prepared.
Proof. vm_compute. reflexivity. Qed.
Lemma badge_assembles : assemble_jwt_vc badge_prepared toy_signature = Ok (JwtVcJson toy_jwt_text "urn:uuid:1").
Proof. vm_compute. reflexivity. Qed.
Lemma badge_writes : json_to_string toy_header = inr "H" /\ json_to_string toy_payload = inr "P".
Proof. vm_compute. done. Qed.
Lemma badge_sizes : str_len "H" <= MAX_JWT_HEADER_BYTES /\ str_len "P" <= MAX_JWT_CLAIMS_BYTES /\
  str_len toy_jwt_text <= MAX_COMPACT_JWT_BYTES /\ bytes_ok toy_signature /\ 0 < zlen toy_signature <= MAX_RSA_SIGNATURE_BYTES.
Proof.
  split_and!; try (by vm_compute). apply Forall_replicate. unfold byte_ok. lia.
Qed.

Lemma assembled_jwt_decodes_witness : decode_unverified_compact_jwt toy_jwt_text = Ok (toy_header, toy_payload).
Proof.
  destruct badge_writes as [Hh Hp]. destruct badge_sizes as (Lh & Lp & Lt & Hs & Ls).
  assert (Hu : unique_members (subject_of badge_claims jwt_options_default) = true) by (vm_compute; reflexivity).
  assert (Hst : forall v, jo_credential_status jwt_options_default = Some v -> unique_members v = true) by done.
  exact (proj1 (assembled_jwt_decodes toy_metadata badge_claims jwt_options_default 0 "1" badge_prepared toy_signature
    toy_jwt_text "urn:uuid:1" (Some 60000000000) "H" "P" badge_prepares badge_assembles eq_refl Hh Hp Hu Hst Lh Lp Lt Hs Ls)).
Defined.
End ToyBadge.
