(* ===== verification/ElementaryFile.v ===== *)
(** * Elementary files of passports (marty-verification, [emrtd_data/])

    The bounded TLV reader, EF.COM, EF.DG1 over the machine readable zone, the
    biometric container of EF.DG2, and the active-authentication key of EF.DG15.
    Offsets are [usize]; a read out of range is an error or a panic as in the
    source.  The DER codecs of RSA keys are parameters. *)

From stdpp Require Import pretty.
From S2P Require Import Prelude RustStr Des Governance PolicyService EvidencePolicy Mrz Apdu CryptoKit.
Local Open Scope string_scope.
Local Open Scope Z_scope.

#[local] Abbreviation bytes := (list Z).

(** [src/marty-verification/src/emrtd_data/mod.rs:24-25] MAX_EMRTD_DATA_BYTES *)
Definition MAX_EMRTD_DATA_BYTES : Z := 16 * 1024 * 1024.

(** [src/marty-verification/src/emrtd_data/mod.rs:27-43] EmrtdDataError *)
Inductive EmrtdDataError :=
| EdEmpty (kind : string)
| EdOversized (kind : string)
| EdTruncated (kind : string)
| EdInvalidTlv (m : string)
| EdInvalidFormat (m : string)
| EdUnsupported (m : string)
| EdEncoding (m : string).

#[local] Abbreviation result := (res EmrtdDataError).

(** [src/marty-verification/src/emrtd_data/mod.rs:47-55] ensure_bounded *)
Definition ensure_bounded (data : bytes) (kind : string) : result unit :=
  _ ← ensure (negb (zlen data =? 0)) (EdEmpty kind);
  ensure (negb (MAX_EMRTD_DATA_BYTES <? zlen data)) (EdOversized kind).

(** ** TLV *)

(** [src/marty-verification/src/emrtd_data/elementary.rs:6-12] Tlv *)
Record Tlv := mkElementTlv { tlv_tag : Z; tlv_length : Z; tlv_value : bytes; tlv_next : Z }.

(** [data.get(i)]. *)
Definition get_byte (data : bytes) (i : Z) : option Z := data !! Z.to_nat i.

(** [src/marty-verification/src/emrtd_data/elementary.rs:71-87] parse_tlv, the loop over further tag octets; it ends by the fourth octet *)
Fixpoint tag_loop (fuel : nat) (data : bytes) (cursor tag_octets tag : Z) : result (Z * Z) :=
  match fuel with
  | O => Panic
  | S fuel =>
      octet ← ok_or (get_byte data cursor) (EdTruncated "multi-byte tag");
      let cursor := cursor + 1 in
      let tag_octets := tag_octets + 1 in
      _ ← ensure (negb (4 <? tag_octets)) (EdInvalidTlv "tags longer than four octets are not supported");
      let tag := Z.lor (wrap 32 (Z.shiftl tag 8)) octet in
      if Z.land octet 0x80 =? 0 then Ok (tag, cursor) else tag_loop fuel data cursor tag_octets tag
  end.

(** [src/marty-verification/src/emrtd_data/elementary.rs:66-88] parse_tlv, the tag *)
Definition parse_tag (data : bytes) (offset : Z) : result (Z * Z) :=
  first ← vec_index data offset;
  if Z.land first 0x1f =? 0x1f then tag_loop 4 data (offset + 1) 1 first else Ok (first, offset + 1).

(** [checked_mul] and [checked_add] on [usize]. *)
Definition usize_checked (n : Z) : option Z := if n <=? usize_max then Some n else None.

(** [src/marty-verification/src/emrtd_data/elementary.rs:117-123] parse_tlv, the value of the length octets *)
Fixpoint length_value (octets : bytes) (value : Z) : result Z :=
  match octets with
  | [] => Ok value
  | octet :: rest =>
      value ← ok_or (current ← usize_checked (value * 256); usize_checked (current + octet))
                (EdInvalidTlv "TLV length overflow");
      length_value rest value
  end.

(** [src/marty-verification/src/emrtd_data/elementary.rs:90-130] parse_tlv, the length *)
Definition parse_length (data : bytes) (cursor : Z) : result (Z * Z) :=
  first_length ← ok_or (get_byte data cursor) (EdTruncated "TLV length");
  let cursor := cursor + 1 in
  if Z.land first_length 0x80 =? 0 then Ok (first_length, cursor)
  else
    let octets := Z.land first_length 0x7f in
    _ ← ensure (negb (octets =? 0)) (EdInvalidTlv "indefinite lengths are not supported");
    _ ← ensure (negb (4 <? octets)) (EdInvalidTlv "lengths longer than four octets are not supported");
    length_bytes ← ok_or (get_range data cursor (cursor + octets)) (EdTruncated "long-form TLV length");
    first ← vec_index length_bytes 0;
    _ ← ensure (negb (first =? 0)) (EdInvalidTlv "non-canonical long-form length");
    value ← length_value length_bytes 0;
    _ ← ensure (negb (value <? 128)) (EdInvalidTlv "non-minimal long-form length");
    Ok (value, cursor + octets).

(** [src/marty-verification/src/emrtd_data/elementary.rs:59-148] parse_tlv *)
Definition parse_tlv (data : bytes) (offset : Z) : result Tlv :=
  _ ← ensure_bounded data "TLV data";
  _ ← ensure (negb (zlen data <=? offset)) (EdTruncated "offset is beyond TLV data");
  '(tag, cursor) ← parse_tag data offset;
  '(len, cursor) ← parse_length data cursor;
  _ ← ensure (negb (MAX_EMRTD_DATA_BYTES <? len)) (EdOversized "TLV value");
  next_offset ← ok_or (usize_checked (cursor + len)) (EdInvalidTlv "TLV length overflow");
  value ← ok_or (get_range data cursor next_offset) (EdTruncated "TLV value");
  Ok (mkElementTlv tag len value next_offset).

(** [format!("{:X}")]. *)
Fixpoint hex_X_fuel (fuel : nat) (n : Z) (acc : string) : string :=
  let d := n mod 16 in
  let acc := String (Ascii.ascii_of_N (Z.to_N (if d <? 10 then 48 + d else 55 + d))) acc in
  match fuel with
  | O => acc
  | S fuel => if n / 16 =? 0 then acc else hex_X_fuel fuel (n / 16) acc
  end.
Definition hex_X (n : Z) : string := hex_X_fuel 8 n "".

(** [src/marty-verification/src/emrtd_data/elementary.rs:150-168] parse_complete_tlv *)
Definition parse_complete_tlv (data : bytes) (expected_tag : Z) (kind : string) : result Tlv :=
  tlv ← parse_tlv data 0;
  _ ← ensure (tlv_tag tlv =? expected_tag)
        (EdInvalidFormat ("invalid " +:+ kind +:+ " tag 0x" +:+ hex_X (tlv_tag tlv) +:+ "; expected 0x"
                          +:+ hex_X expected_tag));
  _ ← ensure (tlv_next tlv =? zlen data) (EdInvalidTlv ("trailing data after " +:+ kind));
  Ok tlv.

(** [src/marty-verification/src/emrtd_data/elementary.rs:310-318] decode_ascii *)
Definition decode_ascii (data : bytes) (kind : string) : result bytes :=
  _ ← ensure (is_ascii data) (EdEncoding (kind +:+ " must contain ASCII data"));
  Ok data.

(** [src/marty-verification/src/emrtd_data/elementary.rs:320-325] one_byte *)
Definition one_byte (data : bytes) (kind : string) : result Z :=
  match data with
  | [b] => Ok b
  | _ => Err (EdInvalidFormat (kind +:+ " must be one byte"))
  end.

(** [src/marty-verification/src/emrtd_data/elementary.rs:327-332] two_bytes *)
Definition two_bytes (data : bytes) (kind : string) : result Z :=
  match data with
  | [h; l] => Ok (from_be16 h l)
  | _ => Err (EdInvalidFormat (kind +:+ " must be two bytes"))
  end.

(** ** EF.COM *)

(** [src/marty-verification/src/emrtd_data/elementary.rs:14-21] EfCom *)
Record EfCom := mkEfCom {
  lod_version : option string; lds_version : option string; unicode_version : option string;
  data_groups : list string;
}.

(** [src/marty-verification/src/emrtd_data/elementary.rs:187-194] parse_ef_com, the data group of a tag *)
Definition group_of_tag (tag : Z) : option Z :=
  if tag =? 0x61 then Some 1 else if tag =? 0x75 then Some 2 else if tag =? 0x63 then Some 3
  else if tag =? 0x76 then Some 4 else if (0x65 <=? tag) && (tag <=? 0x70) then Some (tag - 0x60) else None.

(** [src/marty-verification/src/emrtd_data/elementary.rs:186-201] parse_ef_com, the listed tags *)
Fixpoint add_groups (tags : bytes) (groups : list string) : list string :=
  match tags with
  | [] => groups
  | tag :: rest =>
      add_groups rest
        match group_of_tag tag with
        | Some g => let name := "DG" +:+ pretty g in if one_of name groups then groups else (groups ++ [name])%list
        | None => groups
        end
  end.

(** [src/marty-verification/src/emrtd_data/elementary.rs:182-204] parse_ef_com, one object *)
Definition com_item (item : Tlv) (com : EfCom) : result EfCom :=
  if tlv_tag item =? 0x5f01 then
    v ← decode_ascii (tlv_value item) "LDS version";
    Ok (mkEfCom (lod_version com) (Some (str_of_bytes v)) (unicode_version com) (data_groups com))
  else if tlv_tag item =? 0x5f36 then
    v ← decode_ascii (tlv_value item) "Unicode version";
    Ok (mkEfCom (lod_version com) (lds_version com) (Some (str_of_bytes v)) (data_groups com))
  else if tlv_tag item =? 0x5c then
    Ok (mkEfCom (lod_version com) (lds_version com) (unicode_version com) (add_groups (tlv_value item) (data_groups com)))
  else Ok com.

(** [while offset < data.len() { let item = parse_tlv(data, offset)?; ...; offset = item.next_offset }]:
    an object has at least two octets, so the length of the data is enough fuel. *)
Fixpoint tlv_loop {S} (step : Tlv -> S -> result S) (fuel : nat) (data : bytes) (offset : Z) (s : S) : result S :=
  if offset <? zlen data then
    match fuel with
    | O => Panic
    | Datatypes.S fuel =>
        item ← parse_tlv data offset;
        s ← step item s;
        tlv_loop step fuel data (tlv_next item) s
    end
  else Ok s.

(** [src/marty-verification/src/emrtd_data/elementary.rs:170-208] parse_ef_com *)
Definition parse_ef_com (data : bytes) : result EfCom :=
  outer ← parse_complete_tlv data 0x60 "EF.COM";
  tlv_loop com_item (length (tlv_value outer)) (tlv_value outer) 0 (mkEfCom None None None []).

(** ** EF.DG1 *)

(** [src/marty-verification/src/emrtd_data/elementary.rs:23-36] MrzInfo *)
Record MrzInfo := mkMrzInfo {
  mz_document_code : rstr;
  mz_issuing_country : rstr;
  mz_surname : rstr;
  mz_given_names : rstr;
  mz_passport_number : rstr;
  mz_nationality : rstr;
  mz_date_of_birth : rstr;
  mz_sex : rstr;
  mz_date_of_expiry : rstr;
  mz_personal_number : option rstr;
  mz_check_digit_composite : rstr;
}.

(** The text of an [encoding_error]: [error/verification_error.rs], the variant [DerError]. *)
Definition mrz_error_text (e : MrzError) : string :=
  match e with encoding_error reason => "[E601] DER encoding/decoding error: Encoding error: " +:+ reason end.

(** [src/marty-verification/src/emrtd_data/elementary.rs:214-231] parse_ef_dg1, the lines *)
Definition dg1_lines (text : bytes) : result (list rstr) :=
  if existsb (fun c => (c =? 10) || (c =? 13)) text then Ok (str_lines text)
  else
    let n := zlen text in
    if n =? 72 then Ok (chunks 36 text) else if n =? 88 then Ok (chunks 44 text) else if n =? 90 then Ok (chunks 30 text)
    else Err (EdInvalidFormat ("unsupported MRZ byte length: " +:+ pretty n)).

(** [src/marty-verification/src/emrtd_data/elementary.rs:236-248] parse_ef_dg1, the result *)
Definition mrz_info (m : Mrz) : MrzInfo :=
  mkMrzInfo (document_type m) (issuing_country m) (surname m) (given_names m) (document_number m) (nationality m)
    (date_of_birth m) [sex m] (date_of_expiry m)
    (match optional_data m with [] => None | d => Some d end) [default filler (composite_check m)].

Section dg1.
Context `{Unicode}.

(** [src/marty-verification/src/emrtd_data/elementary.rs:210-249] parse_ef_dg1 *)
Definition parse_ef_dg1 (data : bytes) : result MrzInfo :=
  outer ← parse_complete_tlv data 0x61 "EF.DG1";
  mrz_tlv ← parse_complete_tlv (tlv_value outer) 0x5f1f "DG1 MRZ";
  text ← decode_ascii (tlv_value mrz_tlv) "MRZ";
  lines ← dg1_lines text;
  parsed ← map_err (fun e => EdInvalidFormat (mrz_error_text e)) (parse_mrz lines);
  Ok (mrz_info parsed).
End dg1.

(** ** EF.DG2 *)

(** [src/marty-verification/src/emrtd_data/elementary.rs:38-49] BiometricInfo *)
Record BiometricInfo := mkBioInfo {
  bi_type : Z; bi_subtype : Z; bi_creation_date : option string; bi_validity_period : option (string * string);
  bi_creator : option string; bi_format_owner : Z; bi_format_type : Z; bi_quality : option Z; bi_data : bytes;
}.

(** [src/marty-verification/src/emrtd_data/elementary.rs:272-280] parse_biometric_information, one field *)
Definition biometric_item (field : Tlv) (r : BiometricInfo) : result BiometricInfo :=
  let set ty sub owner fmt data :=
    mkBioInfo ty sub (bi_creation_date r) (bi_validity_period r) (bi_creator r) owner fmt (bi_quality r) data in
  let v := tlv_value field in
  if tlv_tag field =? 0x81 then Ok r
  else if tlv_tag field =? 0x82 then
    b ← one_byte v "biometric type"; Ok (set b (bi_subtype r) (bi_format_owner r) (bi_format_type r) (bi_data r))
  else if tlv_tag field =? 0x83 then
    b ← one_byte v "biometric subtype"; Ok (set (bi_type r) b (bi_format_owner r) (bi_format_type r) (bi_data r))
  else if tlv_tag field =? 0x87 then
    b ← two_bytes v "format owner"; Ok (set (bi_type r) (bi_subtype r) b (bi_format_type r) (bi_data r))
  else if tlv_tag field =? 0x88 then
    b ← two_bytes v "format type"; Ok (set (bi_type r) (bi_subtype r) (bi_format_owner r) b (bi_data r))
  else if tlv_tag field =? 0x5f2e then
    Ok (set (bi_type r) (bi_subtype r) (bi_format_owner r) (bi_format_type r) v)
  else Ok r.

(** [src/marty-verification/src/emrtd_data/elementary.rs:257-284] parse_biometric_information *)
Definition parse_biometric_information (data : bytes) : result BiometricInfo :=
  tlv_loop biometric_item (length data) data 0 (mkBioInfo 0 0 None None None 0 0 None []).

(** [src/marty-verification/src/emrtd_data/elementary.rs:251-255] parse_ef_dg2 *)
Definition parse_ef_dg2 (data : bytes) : result BiometricInfo :=
  outer ← parse_complete_tlv data 0x75 "EF.DG2";
  template ← parse_complete_tlv (tlv_value outer) 0x7f2e "DG2 biometric template";
  parse_biometric_information (tlv_value template).

(** ** Any elementary file *)

(** [serde_json::to_value] of the three models. *)
Definition json_opt {A} (f : A -> Value) (o : option A) : Value := match o with Some a => f a | None => Null end.
Definition json_text (s : rstr) : Value := VString (str_of_bytes (as_bytes s)).
Definition json_num (n : Z) : Value := Number (pretty n).
Definition ef_com_json (c : EfCom) : Value :=
  Object [("lod_version", json_opt VString (lod_version c)); ("lds_version", json_opt VString (lds_version c));
          ("unicode_version", json_opt VString (unicode_version c)); ("data_groups", Array (VString <$> data_groups c))].
Definition mrz_info_json (m : MrzInfo) : Value :=
  Object [("document_code", json_text (mz_document_code m)); ("issuing_country", json_text (mz_issuing_country m));
          ("surname", json_text (mz_surname m)); ("given_names", json_text (mz_given_names m));
          ("passport_number", json_text (mz_passport_number m)); ("nationality", json_text (mz_nationality m));
          ("date_of_birth", json_text (mz_date_of_birth m)); ("sex", json_text (mz_sex m));
          ("date_of_expiry", json_text (mz_date_of_expiry m));
          ("personal_number", json_opt json_text (mz_personal_number m));
          ("check_digit_composite", json_text (mz_check_digit_composite m))].
Definition biometric_json (b : BiometricInfo) : Value :=
  Object [("biometric_type", json_num (bi_type b)); ("biometric_subtype", json_num (bi_subtype b));
          ("creation_date", json_opt VString (bi_creation_date b));
          ("validity_period", json_opt (fun p => Array [VString p.1; VString p.2]) (bi_validity_period b));
          ("creator", json_opt VString (bi_creator b)); ("format_owner", json_num (bi_format_owner b));
          ("format_type", json_num (bi_format_type b)); ("quality", json_opt json_num (bi_quality b));
          ("data", Array (json_num <$> bi_data b))].

(** [src/marty-verification/src/emrtd_data/elementary.rs:51-58] ElementaryFile *)
Record ElementaryFile := mkElementary {
  ef_file_id : string; ef_tag : Z; ef_length : Z; ef_data : bytes; ef_parsed_content : option Value;
}.

Section files.
Context `{Unicode}.

(** [src/marty-verification/src/emrtd_data/elementary.rs:286-308] parse_elementary_file; the conversion of the models to JSON does not fail *)
Definition parse_elementary_file (file_id : string) (data : bytes) : result ElementaryFile :=
  outer ← parse_tlv data 0;
  _ ← ensure (tlv_next outer =? zlen data) (EdInvalidTlv "trailing data after elementary file");
  parsed_content ← (if String.eqb file_id "EF.COM" then c ← parse_ef_com data; Ok (Some (ef_com_json c))
                    else if String.eqb file_id "EF.DG1" then c ← parse_ef_dg1 data; Ok (Some (mrz_info_json c))
                    else if String.eqb file_id "EF.DG2" then c ← parse_ef_dg2 data; Ok (Some (biometric_json c))
                    else Ok None);
  Ok (mkElementary file_id (tlv_tag outer) (tlv_length outer) data parsed_content).
End files.

(** ** EF.DG15 *)

(** [spki] and [rsa]: the DER codecs of public keys, with the checks of
    [RsaPublicKey], their errors as text; a key is its modulus and exponent. *)
Record SpkiView := mkSpki { spki_oid : string; spki_key_bytes : option bytes }.
Record RsaKey := mkRsaKey { rsa_n : Z; rsa_e : Z }.
Class RsaDer := {
  spki_from_der : bytes -> string + SpkiView;
  spki_to_der : SpkiView -> string + bytes;
  rsa_from_pkcs1 : bytes -> string + RsaKey;
  rsa_to_pkcs1 : RsaKey -> string + bytes;
  rsa_to_spki : RsaKey -> string + bytes;
  rsa_key_new : Z -> Z -> string + RsaKey;
  biguint_parse_decimal : bytes -> option Z;
}.

(** [BigUint::bits] and [BigUint::to_bytes_be]. *)
Definition big_bits (n : Z) : Z := if n =? 0 then 0 else Z.log2 n + 1.
Fixpoint big_bytes_fuel (fuel : nat) (n : Z) (acc : bytes) : bytes :=
  match fuel with
  | O => acc
  | S fuel => if n =? 0 then acc else big_bytes_fuel fuel (n / 256) (n mod 256 :: acc)
  end.
Definition big_to_bytes_be (n : Z) : bytes :=
  if n =? 0 then [0] else big_bytes_fuel (Z.to_nat (Z.log2 n / 8 + 1)) n [].

(** [src/marty-verification/src/emrtd_data/dg15.rs:15-16] RSA_ENCRYPTION_OID and MIN_ACTIVE_AUTH_RSA_BITS *)
Definition RSA_ENCRYPTION_OID : string := "1.2.840.113549.1.1.1".
Definition MIN_ACTIVE_AUTH_RSA_BITS : Z := 1024.

(** [src/marty-verification/src/emrtd_data/dg15.rs:35-46] Dg15Info *)
Record Dg15Info := mkDg15 {
  dg15_algorithm : string;
  dg15_algorithm_oid : string;
  dg15_key_size : Z;
  dg15_public_exponent : Z;
  dg15_modulus : string;
  dg15_key_usage : string;
  dg15_spki_der : bytes;
  dg15_fingerprint_sha256 : string;
  valid_for_active_authentication : bool;
}.

(** [src/marty-verification/src/emrtd_data/dg15.rs:102-106] inspect_rsa_public_key, the exponent in 64 bits *)
Definition exponent_u64 (octets : bytes) : option Z :=
  foldl (fun value octet => v ← value; m ← usize_checked (v * 256); usize_checked (m + octet)) (Some 0) octets.

Definition ed_lift {A} (f : string -> EmrtdDataError) (r : string + A) : result A :=
  match r with inr a => Ok a | inl e => Err (f e) end.

Section dg15.
Context `{RsaDer} `{Sha2}.

(** [src/marty-verification/src/emrtd_data/dg15.rs:22-33] rsa_public_key_spki *)
Definition rsa_public_key_spki (modulus : bytes) (public_exponent : Z) : result bytes :=
  n ← ok_or (biguint_parse_decimal modulus) (EdInvalidFormat "RSA modulus must be a decimal integer");
  key ← ed_lift (fun e => EdInvalidFormat ("invalid RSA public key: " +:+ e)) (rsa_key_new n public_exponent);
  ed_lift (fun e => EdEncoding ("SPKI encoding failed: " +:+ e)) (rsa_to_spki key).

(** [src/marty-verification/src/emrtd_data/dg15.rs:66-128] inspect_rsa_public_key *)
Definition inspect_rsa_public_key (spki_der : bytes) : result Dg15Info :=
  _ ← ensure_bounded spki_der "RSA public key";
  spki ← ed_lift (fun e => EdEncoding ("invalid DG15 SPKI: " +:+ e)) (spki_from_der spki_der);
  canonical_input ← ed_lift (fun e => EdEncoding ("DG15 SPKI encoding failed: " +:+ e)) (spki_to_der spki);
  _ ← ensure (bool_decide (canonical_input = spki_der)) (EdInvalidFormat "DG15 SPKI must use canonical DER");
  let algorithm_oid := spki_oid spki in
  _ ← ensure (String.eqb algorithm_oid RSA_ENCRYPTION_OID)
        (EdUnsupported ("unsupported DG15 public key algorithm: " +:+ algorithm_oid));
  key_bytes ← ok_or (spki_key_bytes spki) (EdInvalidFormat "DG15 key has unused bits");
  key ← ed_lift (fun e => EdEncoding ("invalid DG15 RSA key: " +:+ e)) (rsa_from_pkcs1 key_bytes);
  canonical_pkcs1 ← ed_lift (fun e => EdEncoding ("RSA encoding failed: " +:+ e)) (rsa_to_pkcs1 key);
  _ ← ensure (bool_decide (canonical_pkcs1 = key_bytes)) (EdInvalidFormat "DG15 RSA key must use canonical DER");
  public_exponent ← ok_or (exponent_u64 (big_to_bytes_be (rsa_e key)))
                      (EdUnsupported "DG15 RSA exponent is larger than 64 bits");
  spki_der ← ed_lift (fun e => EdEncoding ("SPKI encoding failed: " +:+ e)) (rsa_to_spki key);
  let key_size := big_bits (rsa_n key) in
  Ok (mkDg15 "RSA" algorithm_oid key_size public_exponent (pretty (rsa_n key)) "chip_authentication" spki_der
        (hex_lower (hash_sha256 spki_der)) (MIN_ACTIVE_AUTH_RSA_BITS <=? key_size)).

(** [src/marty-verification/src/emrtd_data/dg15.rs:48-64] parse_dg15 *)
Definition parse_dg15 (data : bytes) : result Dg15Info :=
  _ ← ensure_bounded data "DG15";
  outer ← parse_tlv data 0;
  _ ← ensure (tlv_tag outer =? 0x6f)
        (EdInvalidFormat ("invalid DG15 tag 0x" +:+ hex_X (tlv_tag outer) +:+ "; expected 0x6F"));
  _ ← ensure (tlv_next outer =? zlen data) (EdInvalidTlv "trailing data after DG15");
  inspect_rsa_public_key (tlv_value outer).
End dg15.
