(* ===== verification/ElementaryFileFacts.v ===== *)
(** * Elementary files of passports: theorems (marty-verification, [emrtd_data/])

    The TLV reader accepts exactly the minimal encodings at an offset, and reads
    the tag and the value they hold; the loops over objects end and never panic;
    EF.COM lists the data groups of its tag lists; and a machine readable zone
    that is printed into EF.DG1 is read back. *)

From stdpp Require Import pretty.
From S2P Require Import Prelude RustStr Des Governance PolicyService EvidencePolicy Mrz MrzFacts Apdu CryptoKit ElementaryFile.
Local Open Scope string_scope.
Local Open Scope Z_scope.

#[local] Abbreviation bytes := (list Z).

(** ** Encodings *)

(** Big-endian value of octets. *)
Definition be_value (bs : bytes) : Z := foldl (fun acc b => acc * 256 + b) 0 bs.

(** The octets after the first of a tag: a continuation bit on all but the last. *)
Fixpoint tag_rest (ts : bytes) : bool :=
  match ts with
  | [] => false
  | [t] => Z.land t 0x80 =? 0
  | t :: ts => negb (Z.land t 0x80 =? 0) && tag_rest ts
  end.

(** The octets of a tag: one, or a first one with all number bits set. *)
Definition tag_octets (ts : bytes) : bool :=
  match ts with
  | [] => false
  | [t] => negb (Z.land t 0x1f =? 0x1f)
  | t :: rest => (Z.land t 0x1f =? 0x1f) && tag_rest rest && (zlen rest <=? 3)
  end.

(** The shortest octets of a length. *)
Definition length_octets (n : Z) : bytes :=
  if n <? 128 then [n]
  else if n <? 2 ^ 8 then [0x81; n]
  else if n <? 2 ^ 16 then [0x82; n / 2 ^ 8; n mod 2 ^ 8]
  else if n <? 2 ^ 24 then [0x83; n / 2 ^ 16; n / 2 ^ 8 mod 2 ^ 8; n mod 2 ^ 8]
  else [0x84; n / 2 ^ 24; n / 2 ^ 16 mod 2 ^ 8; n / 2 ^ 8 mod 2 ^ 8; n mod 2 ^ 8].

Definition tlv_bytes (ts v : bytes) : bytes := (ts ++ length_octets (zlen v) ++ v)%list.

(** ** Octets *)

Lemma land_high b : byte_ok b -> (Z.land b 0x80 =? 0) = (b <? 128).
Proof.
  intros Hb. unfold byte_ok in Hb.
  assert (H : forallb (fun n => Bool.eqb (Z.land (Z.of_nat n) 0x80 =? 0) (Z.of_nat n <? 128)) (seq 0 256) = true)
    by (vm_compute; reflexivity).
  rewrite forallb_forall in H. specialize (H (Z.to_nat b)). rewrite Z2Nat.id in H by lia.
  apply Bool.eqb_prop, H, in_seq. lia.
Qed.

Lemma land_low7 b : 128 <= b < 256 -> Z.land b 0x7f = b - 128.
Proof.
  intros Hb. change 0x7f with (Z.ones 7). rewrite Z.land_ones by lia. change (2 ^ 7) with 128.
  Z.to_euclidean_division_equations; lia.
Qed.

Lemma get_byte_app (l1 l2 : bytes) i : 0 <= i -> get_byte (l1 ++ l2) (zlen l1 + i) = get_byte l2 i.
Proof.
  intros Hi. unfold get_byte, zlen. rewrite lookup_app_r by lia. f_equal. lia.
Qed.

Lemma get_byte_head (l1 : bytes) x l2 : get_byte (l1 ++ x :: l2) (zlen l1) = Some x.
Proof. unfold get_byte, zlen. rewrite Nat2Z.id. by apply list_lookup_middle. Qed.

(** A byte that is there splits the data. *)
Lemma get_byte_split (l : bytes) i b : get_byte l i = Some b -> 0 <= i ->
  exists l1 l2, l = (l1 ++ b :: l2)%list /\ zlen l1 = i.
Proof.
  intros Hb Hi. unfold get_byte in Hb. exists (take (Z.to_nat i) l), (drop (S (Z.to_nat i)) l).
  rewrite (take_drop_middle _ _ _ Hb). split; [done|]. apply lookup_lt_Some in Hb.
  unfold zlen. rewrite length_take. lia.
Qed.

Lemma zlen_snoc (l : bytes) x : zlen (l ++ [x])%list = zlen l + 1.
Proof. rewrite zlen_app, zlen_cons. done. Qed.

Lemma tlv_value_snoc ts t : be_value (ts ++ [t])%list = be_value ts * 256 + t.
Proof. unfold be_value. by rewrite foldl_app. Qed.

Lemma be_value_bound ts : bytes_ok ts -> 0 <= be_value ts < 256 ^ zlen ts.
Proof.
  unfold bytes_ok. induction ts as [|t ts IH] using rev_ind; [done|]. intros [Hts Ht]%Forall_app.
  apply Forall_cons in Ht as [Ht _]. rewrite tlv_value_snoc, zlen_snoc, Z.pow_add_r by (unfold zlen; lia).
  specialize (IH Hts). unfold byte_ok in Ht. change (256 ^ 1) with 256.
  generalize dependent (256 ^ zlen ts). intros p Hp. lia.
Qed.

(** [(tag << 8) | octet] on [u32], below four octets. *)
Lemma tag_shift tag b : 0 <= tag < 2 ^ 24 -> byte_ok b -> Z.lor (wrap 32 (Z.shiftl tag 8)) b = tag * 256 + b.
Proof.
  intros Ht Hb. unfold byte_ok in Hb. rewrite Z.shiftl_mul_pow2 by lia. change (2 ^ 8) with 256. unfold wrap.
  rewrite Z.mod_small by lia.
  assert (Hand : Z.land (tag * 256) b = 0).
  { apply Z.bits_inj_0. intros i. rewrite Z.land_spec. destruct (Z.lt_ge_cases i 0) as [Hi|Hi]; [by rewrite !Z.testbit_neg_r|].
    destruct (Z.lt_ge_cases i 8).
    - change 256 with (2 ^ 8). by rewrite Z.mul_pow2_bits_low by lia.
    - rewrite (testbit_byte_high b i) by (done || lia). by rewrite andb_false_r. }
  by rewrite <- Z.lxor_lor, Z.add_nocarry_lxor.
Qed.

(** ** The tag *)

Lemma tag_loop_Ok fuel : forall data cursor n tag t c, bytes_ok data -> 0 <= cursor -> 1 <= n <= 4 -> 0 <= tag < 256 ^ n ->
  tag_loop fuel data cursor n tag = Ok (t, c) ->
  exists pre ts post, data = (pre ++ ts ++ post)%list /\ zlen pre = cursor /\ c = cursor + zlen ts /\
    tag_rest ts = true /\ n + zlen ts <= 4 /\ t = foldl (fun acc b => acc * 256 + b) tag ts.
Proof.
  induction fuel as [|fuel IH]; intros data cursor n tag t c Hok Hc Hn Ht; [done|]. cbn [tag_loop].
  intros (b & Hb%ok_or_Ok & Hr)%bind_Ok. apply bind_Ok in Hr as ([] & Hlim%ensure_Ok & Hr). breflect.
  apply get_byte_split in Hb as (pre & post & -> & Hpre); [|done].
  assert (Hbyte : byte_ok b) by (apply Forall_app in Hok as [_ Hok]; by apply Forall_cons in Hok as [? _]).
  assert (Htag : 0 <= tag < 2 ^ 24).
  { assert (256 ^ n <= 256 ^ 3) by (apply Z.pow_le_mono_r; lia). change (256 ^ 3) with (2 ^ 24) in *. lia. }
  rewrite tag_shift in Hr by done. destruct (Z.land b 0x80 =? 0) eqn:Hhigh.
  - injection Hr as <- <-. exists pre, [b], post. cbn [tag_rest foldl]. rewrite zlen_cons, zlen_nil. split_and!; try done; lia.
  - eapply (IH (pre ++ b :: post)%list) in Hr as (pre' & ts & post' & Hd & Hpre' & -> & Hts & Hlen & ->); [|done|lia|lia| ].
    + assert (Hsame : pre' = (pre ++ [b])%list /\ post = (ts ++ post')%list).
      { rewrite (cons_middle b pre post) in Hd. rewrite (app_assoc pre) in Hd. apply app_inj_1 in Hd as [<- <-]; [done|].
        unfold zlen in *. rewrite length_app. cbn [length]. lia. }
      destruct Hsame as [-> ->]. exists pre, (b :: ts), post'. rewrite zlen_cons. split_and!; try done; try lia.
      destruct ts as [|t' ts]; [done|]. cbn [tag_rest] in *. by rewrite Hhigh.
    + rewrite Z.pow_add_r by lia. change (256 ^ 1) with 256. unfold byte_ok in Hbyte. generalize dependent (256 ^ n). lia.
Qed.

Lemma tag_loop_reads ts : forall fuel pre post n tag, bytes_ok ts -> tag_rest ts = true -> 1 <= n -> n + zlen ts <= 4 ->
  0 <= tag < 256 ^ n -> (length ts <= fuel)%nat ->
  tag_loop fuel (pre ++ ts ++ post) (zlen pre) n tag =
    Ok (foldl (fun acc b => acc * 256 + b) tag ts, zlen pre + zlen ts).
Proof.
  induction ts as [|b ts IH]; intros fuel pre post n tag Hok Hts Hn Hlim Ht Hf; [done|].
  destruct fuel as [|fuel]; [cbn in Hf; lia|]. apply Forall_cons in Hok as [Hb Hok]. rewrite zlen_cons in Hlim.
  cbn [tag_loop app]. rewrite get_byte_head. cbn [ok_or mbind res_bind]. pose proof (zlen_nonneg ts).
  rewrite (proj2 (Z.ltb_ge 4 _)) by lia. cbn [negb ensure mbind res_bind].
  assert (Htag : 0 <= tag < 2 ^ 24).
  { assert (256 ^ n <= 256 ^ 3) by (apply Z.pow_le_mono_r; lia). change (256 ^ 3) with (2 ^ 24) in *. lia. }
  rewrite tag_shift by done. destruct ts as [|t' ts].
  - cbn [tag_rest] in Hts. rewrite Hts. cbn [foldl]. by rewrite zlen_cons, zlen_nil.
  - cbn [tag_rest] in Hts. apply andb_true_iff in Hts as [Hh Hts]. apply negb_true_iff in Hh. rewrite Hh.
    rewrite (cons_middle b pre), app_assoc. replace (zlen pre + 1) with (zlen (pre ++ [b])%list) by apply zlen_snoc.
    rewrite IH; [|done|done|lia|lia| |cbn [length] in *; lia].
    + cbn [foldl]. rewrite zlen_snoc, (zlen_cons b). do 2 f_equal. lia.
    + rewrite Z.pow_add_r by lia. change (256 ^ 1) with 256. unfold byte_ok in Hb. generalize dependent (256 ^ n). lia.
Qed.

Lemma parse_tag_Ok data offset t c : bytes_ok data -> 0 <= offset -> parse_tag data offset = Ok (t, c) ->
  exists pre ts post, data = (pre ++ ts ++ post)%list /\ zlen pre = offset /\ c = offset + zlen ts /\
    tag_octets ts = true /\ t = be_value ts.
Proof.
  intros Hok Hoff (b & Hb & Hr)%bind_Ok. apply vec_index_Ok in Hb as [_ Hb].
  apply get_byte_split in Hb as (pre & post & -> & Hpre); [|done].
  assert (Hbyte : byte_ok b) by (apply Forall_app in Hok as [_ Hok']; by apply Forall_cons in Hok' as [? _]).
  destruct (Z.land b 0x1f =? 0x1f) eqn:Hfirst.
  - eapply tag_loop_Ok in Hr as (pre' & ts & post' & Hd & Hpre' & -> & Hts & Hlen & ->); [|done|lia|lia|exact Hbyte].
    rewrite (cons_middle b pre post), (app_assoc pre) in Hd. apply app_inj_1 in Hd as [<- ->].
    2: { unfold zlen in *. rewrite length_app. cbn [length]. lia. }
    exists pre, (b :: ts), post'. rewrite zlen_cons. split_and!; try done; [lia|]. destruct ts as [|t' ts]; [done|].
    cbn [tag_octets]. rewrite Hfirst, Hts. cbn [andb]. apply Z.leb_le. lia.
  - injection Hr as <- <-. exists pre, [b], post. cbn [tag_octets]. rewrite Hfirst. done.
Qed.

Lemma parse_tag_reads ts pre post : bytes_ok ts -> tag_octets ts = true ->
  parse_tag (pre ++ ts ++ post) (zlen pre) = Ok (be_value ts, zlen pre + zlen ts).
Proof.
  destruct ts as [|b ts]; [done|]. intros [Hb Hok]%Forall_cons Hts. unfold parse_tag.
  rewrite (vec_index_at _ pre b (ts ++ post)) by done. cbn [mbind res_bind]. destruct ts as [|t' ts].
  - cbn [tag_octets] in Hts. apply negb_true_iff in Hts. by rewrite Hts.
  - change ((Z.land b 0x1f =? 0x1f) && tag_rest (t' :: ts) && (zlen (t' :: ts) <=? 3) = true) in Hts.
    apply andb_true_iff in Hts as [Hts Hl]. apply andb_true_iff in Hts as [Hf Hts]. rewrite Hf. breflect.
    change (pre ++ (b :: t' :: ts) ++ post)%list with (pre ++ b :: ((t' :: ts) ++ post))%list.
    rewrite (cons_middle b pre), app_assoc. replace (zlen pre + 1) with (zlen (pre ++ [b])%list) by apply zlen_snoc.
    rewrite tag_loop_reads; [|done|done|lia|lia|exact Hb|unfold zlen in Hl; lia].
    rewrite zlen_snoc, (zlen_cons b). unfold be_value. cbn [foldl]. do 2 f_equal. lia.
Qed.

(** ** The length *)

Ltac octet_arith := unfold be_value, byte_ok in *; cbn [foldl] in *; Z.to_euclidean_division_equations; lia.

Lemma length_octets_long bs : bytes_ok bs -> 1 <= zlen bs <= 4 -> head bs <> Some 0 -> 128 <= be_value bs ->
  length_octets (be_value bs) = (128 + zlen bs) :: bs.
Proof.
  intros Hok Hlen Hhd Hbig. unfold bytes_ok in Hok.
  destruct bs as [|a [|b [|c [|d [|e bs]]]]]; unfold zlen in Hlen; cbn [length] in Hlen; [lia|..|lia].
  all: repeat match goal with H : Forall _ (_ :: _) |- _ => apply Forall_cons in H as [? H] end.
  all: assert (a <> 0) by (intros ->; by apply Hhd).
  all: unfold length_octets.
  all: repeat match goal with |- context [?x <? ?y] =>
         first [rewrite (proj2 (Z.ltb_ge x y)) by octet_arith | rewrite (proj2 (Z.ltb_lt x y)) by octet_arith] end.
  all: unfold zlen; cbn [length]; repeat f_equal; octet_arith.
Qed.

(** A length of four octets at most is short, or has minimal octets. *)
Lemma length_octets_cases n : 0 <= n < 2 ^ 32 ->
  (n < 128 /\ length_octets n = [n]) \/
  (128 <= n /\ exists bs, bytes_ok bs /\ 1 <= zlen bs <= 4 /\ head bs <> Some 0 /\ be_value bs = n /\
     length_octets n = (128 + zlen bs) :: bs).
Proof.
  intros Hn. destruct (Z.lt_ge_cases n 128) as [Hs|Hs].
  { left. split; [done|]. unfold length_octets. by rewrite (proj2 (Z.ltb_lt _ _)) by lia. }
  right. split; [done|].
  destruct (Z.lt_ge_cases n (2 ^ 8)); [exists [n]|
    destruct (Z.lt_ge_cases n (2 ^ 16)); [exists [n / 2 ^ 8; n mod 2 ^ 8]|
      destruct (Z.lt_ge_cases n (2 ^ 24)); [exists [n / 2 ^ 16; n / 2 ^ 8 mod 2 ^ 8; n mod 2 ^ 8]|
        exists [n / 2 ^ 24; n / 2 ^ 16 mod 2 ^ 8; n / 2 ^ 8 mod 2 ^ 8; n mod 2 ^ 8]]]].
  all: unfold zlen, length_octets; cbn [length head].
  all: repeat match goal with |- context [?x <? ?y] =>
         first [rewrite (proj2 (Z.ltb_ge x y)) by lia | rewrite (proj2 (Z.ltb_lt x y)) by lia] end.
  all: split_and!; [repeat (apply Forall_cons; split; [octet_arith|]); apply Forall_nil; done|lia|lia|
                    intros [= Hz]; octet_arith|octet_arith|done].
Qed.

Lemma length_value_be bs : forall v, bytes_ok bs -> 0 <= v -> v < 256 ^ (4 - zlen bs) -> zlen bs <= 4 ->
  length_value bs v = Ok (foldl (fun acc b => acc * 256 + b) v bs).
Proof.
  induction bs as [|b bs IH]; intros v Hok Hv Hlt Hlen; [done|]. apply Forall_cons in Hok as [Hb Hok]. rewrite zlen_cons in *.
  unfold byte_ok in Hb. cbn [length_value]. pose proof (zlen_nonneg bs).
  assert (Hpow : 256 ^ (4 - zlen bs) = 256 ^ (4 - (1 + zlen bs)) * 256).
  { replace (4 - zlen bs) with (4 - (1 + zlen bs) + 1) by lia. by rewrite Z.pow_add_r by lia. }
  assert (Hb4 : 256 ^ (4 - zlen bs) <= 256 ^ 4) by (apply Z.pow_le_mono_r; lia). change (256 ^ 4) with 4294967296 in Hb4.
  unfold usize_checked. generalize dependent (256 ^ (4 - (1 + zlen bs))). intros p Hlt Hpow.
  rewrite !(proj2 (Z.leb_le _ _)); [|unfold usize_max; lia..]. cbn [mbind option_bind].
  rewrite !(proj2 (Z.leb_le _ _)); [|unfold usize_max; lia..]. cbn [mbind option_bind ok_or res_bind].
  rewrite IH; [done|done|lia|lia|lia].
Qed.

Lemma parse_length_Ok data cursor n c : bytes_ok data -> 0 <= cursor -> parse_length data cursor = Ok (n, c) ->
  exists pre post, data = (pre ++ length_octets n ++ post)%list /\ zlen pre = cursor /\
    c = cursor + zlen (length_octets n) /\ 0 <= n < 2 ^ 32.
Proof.
  intros Hok Hc (b & Hb%ok_or_Ok & Hr)%bind_Ok. apply get_byte_split in Hb as (pre & post & -> & Hpre); [|done].
  assert (Hbyte : byte_ok b) by (apply Forall_app in Hok as [_ Hok']; by apply Forall_cons in Hok' as [? _]).
  rewrite land_high in Hr by done. unfold byte_ok in Hbyte. destruct (Z.ltb_spec b 128) as [Hs|Hs].
  { injection Hr as <- <-. exists pre, post.
    assert (Hl : length_octets b = [b]) by (unfold length_octets; by rewrite (proj2 (Z.ltb_lt _ _)) by lia).
    rewrite Hl. split_and!; [done|done|done|lia|lia]. }
  rewrite land_low7 in Hr by lia. apply bind_Ok in Hr as ([] & H0%ensure_Ok & Hr). apply bind_Ok in Hr as ([] & H4%ensure_Ok & Hr).
  breflect. apply bind_Ok in Hr as (bs & Hbs%ok_or_Ok & Hr). apply get_range_Some in Hbs as (Hrange & Hlen & Hd).
  apply bind_Ok in Hr as (f & [_ Hf]%vec_index_Ok & Hr). apply bind_Ok in Hr as ([] & Hf0%ensure_Ok & Hr).
  apply bind_Ok in Hr as (v & Hv & Hr). apply bind_Ok in Hr as ([] & Hv128%ensure_Ok & [= <- <-]). breflect.
  rewrite (cons_middle b pre post), (app_assoc pre) in Hd. apply app_inj_1 in Hd as [_ Hpost].
  2: { rewrite length_app, length_take, length_app. unfold zlen in *. rewrite !length_app in *. cbn [length] in *. lia. }
  assert (Hbsok : bytes_ok bs).
  { apply Forall_app in Hok as [_ [_ Hok]%Forall_cons]. rewrite Hpost in Hok. by apply Forall_app in Hok as [? _]. }
  rewrite length_value_be in Hv; [|done|lia|lia|lia]. injection Hv as <-. change (foldl _ 0 bs) with (be_value bs) in *.
  assert (Hl : length_octets (be_value bs) = b :: bs).
  { rewrite length_octets_long; [f_equal; lia|done|lia| |lia]. intros Hh. destruct bs; [done|]. injection Hh as ->.
    cbn in Hf. injection Hf as <-. done. }
  eexists pre, _. rewrite Hl, zlen_cons. split_and!; [|done|lia| |].
  - cbn [app]. by rewrite <- Hpost.
  - lia.
  - pose proof (be_value_bound bs Hbsok). assert (256 ^ zlen bs <= 256 ^ 4) by (apply Z.pow_le_mono_r; lia).
    change (256 ^ 4) with (2 ^ 32) in *. lia.
Qed.

Lemma parse_length_reads n pre post : 0 <= n < 2 ^ 32 ->
  parse_length (pre ++ length_octets n ++ post) (zlen pre) = Ok (n, zlen pre + zlen (length_octets n)).
Proof.
  intros Hn. unfold parse_length. destruct (length_octets_cases n Hn) as [[Hs ->]|(Hs & bs & Hok & Hlen & Hhd & Hv & ->)].
  - cbn [app]. rewrite get_byte_head. cbn [ok_or mbind res_bind]. rewrite land_high by (unfold byte_ok; lia).
    by rewrite (proj2 (Z.ltb_lt _ _)) by lia.
  - cbn [app]. rewrite get_byte_head. cbn [ok_or mbind res_bind]. rewrite land_high by (unfold byte_ok; lia).
    rewrite (proj2 (Z.ltb_ge _ _)) by lia. rewrite land_low7 by lia.
    rewrite (proj2 (Z.eqb_neq _ 0)) by lia. rewrite (proj2 (Z.ltb_ge 4 _)) by lia. cbn [negb ensure mbind res_bind].
    rewrite (cons_middle _ pre), (app_assoc pre).
    rewrite (get_range_app (pre ++ [128 + zlen bs]) bs post) by (rewrite ?zlen_snoc; lia). cbn [ok_or mbind res_bind].
    destruct bs as [|f bs]; [rewrite zlen_nil in Hlen; lia|]. rewrite (vec_index_at _ [] f bs 0) by done. cbn [mbind res_bind].
    rewrite (proj2 (Z.eqb_neq f 0)) by (intros ->; by apply Hhd). cbn [negb ensure mbind res_bind].
    rewrite length_value_be; [|done|lia|lia|lia]. cbn [mbind res_bind]. change (foldl _ 0 (f :: bs)) with (be_value (f :: bs)).
    rewrite Hv. rewrite (proj2 (Z.ltb_ge n 128)) by lia. cbn [negb ensure mbind res_bind]. rewrite (zlen_cons (128 + _)).
    do 2 f_equal. lia.
Qed.

(** ** Objects *)

Lemma ensure_bounded_Ok data kind u : ensure_bounded data kind = Ok u <-> 0 < zlen data <= MAX_EMRTD_DATA_BYTES.
Proof.
  unfold ensure_bounded. pose proof (zlen_nonneg data). split.
  - intros ([] & H0%ensure_Ok & H1%ensure_Ok)%bind_Ok. breflect. lia.
  - intros Hl. rewrite (proj2 (Z.eqb_neq _ _)) by lia. cbn [negb ensure mbind res_bind].
    rewrite (proj2 (Z.ltb_ge _ _)) by lia. by destruct u.
Qed.

Lemma parse_tlv_Ok data offset t : bytes_ok data -> 0 <= offset -> parse_tlv data offset = Ok t ->
  exists pre ts post, data = (pre ++ tlv_bytes ts (tlv_value t) ++ post)%list /\ zlen pre = offset /\
    tag_octets ts = true /\ tlv_tag t = be_value ts /\ tlv_length t = zlen (tlv_value t) /\
    tlv_next t = offset + zlen (tlv_bytes ts (tlv_value t)).
Proof.
  intros Hok Hoff ([] & _ & Hr)%bind_Ok. apply bind_Ok in Hr as ([] & _ & Hr).
  apply bind_Ok in Hr as ([tg c1] & (pre & ts & post & Hd & Hpre & -> & Hts & ->)%parse_tag_Ok & Hr); [|done|done].
  pose proof (zlen_nonneg ts).
  apply bind_Ok in Hr as ([n c2] & (pre2 & post2 & Hd2 & Hpre2 & -> & Hn)%parse_length_Ok & Hr); [|done|lia].
  apply bind_Ok in Hr as ([] & Hmax%ensure_Ok & Hr). apply bind_Ok in Hr as (nx & Hnx%ok_or_Ok & Hr).
  apply bind_Ok in Hr as (v & Hv%ok_or_Ok & [= <-]). unfold usize_checked in Hnx. destruct (_ <=? _); [|done]. injection Hnx as <-.
  apply get_range_Some in Hv as (Hrange & Hlen & Hd3). cbn [tlv_value tlv_tag tlv_length tlv_next].
  assert (Hn' : n = zlen v) by lia. rewrite Hn' in *. clear Hn'.
  assert (Hd2' : data = ((pre ++ ts) ++ length_octets (zlen v) ++ post2)%list /\ pre2 = (pre ++ ts)%list).
  { rewrite Hd, app_assoc in Hd2. apply app_inj_1 in Hd2 as [<- ->]; [|unfold zlen in *; rewrite length_app; lia].
    by rewrite <- app_assoc. }
  destruct Hd2' as [Hd2' ->]. rewrite Hd2', (app_assoc (pre ++ ts)) in Hd3. apply app_inj_1 in Hd3 as [_ Hpost2].
  2: { rewrite length_take, !length_app. unfold zlen in *. rewrite !length_app in *. lia. }
  eexists pre, ts, _. unfold tlv_bytes. split_and!; [|done|done|done|done|].
  - rewrite Hd2' at 1. rewrite Hpost2 at 1. by rewrite <- !app_assoc.
  - rewrite !zlen_app. lia.
Qed.

Lemma parse_tlv_reads ts v pre post : bytes_ok ts -> tag_octets ts = true ->
  zlen (pre ++ tlv_bytes ts v ++ post) <= MAX_EMRTD_DATA_BYTES ->
  parse_tlv (pre ++ tlv_bytes ts v ++ post) (zlen pre) =
    Ok (mkElementTlv (be_value ts) (zlen v) v (zlen pre + zlen (tlv_bytes ts v))).
Proof.
  intros Hok Hts Hmax. unfold parse_tlv.
  assert (Hsizes : 0 < zlen (tlv_bytes ts v) /\ zlen v <= zlen (tlv_bytes ts v)).
  { unfold tlv_bytes. rewrite !zlen_app. pose proof (zlen_nonneg (length_octets (zlen v))).
    pose proof (zlen_nonneg v). destruct ts as [|t0 ts]; [done|]. rewrite zlen_cons. pose proof (zlen_nonneg ts). lia. }
  rewrite !zlen_app in Hmax. pose proof (zlen_nonneg pre). pose proof (zlen_nonneg post). pose proof (zlen_nonneg v).
  assert (Hb : ensure_bounded (pre ++ tlv_bytes ts v ++ post)%list "TLV data" = Ok tt)
    by (apply ensure_bounded_Ok; rewrite !zlen_app; lia).
  rewrite Hb. cbn [mbind res_bind]. rewrite (proj2 (Z.leb_gt _ _)) by (rewrite !zlen_app; lia). cbn [negb ensure mbind res_bind].
  unfold tlv_bytes. rewrite <- !app_assoc. rewrite parse_tag_reads by done. cbn [mbind res_bind].
  rewrite (app_assoc pre ts). replace (zlen pre + zlen ts) with (zlen (pre ++ ts)%list) by apply zlen_app.
  unfold MAX_EMRTD_DATA_BYTES in *. rewrite parse_length_reads by lia. cbn [mbind res_bind].
  rewrite (proj2 (Z.ltb_ge _ _)) by lia. cbn [negb ensure mbind res_bind].
  rewrite app_assoc. replace (zlen (pre ++ ts) + zlen (length_octets (zlen v))) with (zlen ((pre ++ ts) ++ length_octets (zlen v))%list)
    by apply zlen_app.
  unfold usize_checked. rewrite (proj2 (Z.leb_le _ _)).
  2: { unfold usize_max, tlv_bytes in *. rewrite !zlen_app in *. lia. }
  cbn [ok_or mbind res_bind]. rewrite (get_range_app _ v post) by done. cbn [ok_or mbind res_bind].
  do 2 f_equal. rewrite !zlen_app. lia.
Qed.

Lemma tag_loop_no_panic fuel : forall data cursor n tag, 5 <= n + Z.of_nat fuel -> n <= 4 -> no_panic (tag_loop fuel data cursor n tag).
Proof.
  induction fuel as [|fuel IH]; intros data cursor n tag Hf Hn; [lia|]. cbn [tag_loop].
  apply bind_no_panic; [apply ok_or_no_panic|]. intros b _. apply bind_no_panic; [apply ensure_no_panic|].
  intros [] Hl%ensure_Ok. breflect. destruct (Z.land b 0x80 =? 0); [done|]. apply IH; lia.
Qed.

Lemma length_value_no_panic bs v : no_panic (length_value bs v).
Proof.
  revert v. induction bs as [|b bs IH]; intros v; cbn [length_value]; [done|].
  apply bind_no_panic; [apply ok_or_no_panic|]. intros x _. apply IH.
Qed.

Lemma parse_length_no_panic data cursor : no_panic (parse_length data cursor).
Proof.
  unfold parse_length. apply bind_no_panic; [apply ok_or_no_panic|]. intros b _. destruct (Z.land b 0x80 =? 0); [done|].
  apply bind_no_panic; [apply ensure_no_panic|]. intros [] H0%ensure_Ok. apply bind_no_panic; [apply ensure_no_panic|]. intros [] _.
  apply bind_no_panic; [apply ok_or_no_panic|]. intros bs Hbs%ok_or_Ok. apply get_range_Some in Hbs as (_ & Hlen & _).
  assert (Hb : 0 <= Z.land b 0x7f) by (apply Z.land_nonneg; right; done). breflect.
  apply bind_no_panic; [|intros f _; apply bind_no_panic; [apply ensure_no_panic|]; intros [] _;
    apply bind_no_panic; [apply length_value_no_panic|]; intros v _; apply bind_no_panic; [apply ensure_no_panic|done]].
  destruct (vec_index_in_range (E:=EmrtdDataError) bs 0) as (f & -> & _); [lia|done].
Qed.

Lemma parse_tlv_no_panic data offset : 0 <= offset -> no_panic (parse_tlv data offset).
Proof.
  intros Hoff. unfold parse_tlv. apply bind_no_panic; [unfold ensure_bounded; solve_no_panic|]. intros [] _.
  apply bind_no_panic; [apply ensure_no_panic|]. intros [] Hlt%ensure_Ok. breflect. apply bind_no_panic.
  { unfold parse_tag. destruct (vec_index_in_range (E:=EmrtdDataError) data offset) as (b & -> & _); [lia|]. cbn [mbind res_bind].
    destruct (Z.land b 0x1f =? 0x1f); [apply tag_loop_no_panic; lia|done]. }
  intros [tg c] _. apply bind_no_panic; [apply parse_length_no_panic|]. intros [n c2] _. solve_no_panic.
Qed.

(** The reader never panics, and it returns an object exactly when the shortest
    encoding of one stands at the offset: a tag of one to four octets, the length
    in the fewest octets, and the value it returns; the next offset follows it. *)
Theorem parse_tlv_exact data offset t : bytes_ok data -> 0 <= offset -> zlen data <= MAX_EMRTD_DATA_BYTES ->
  no_panic (parse_tlv data offset) /\
  (parse_tlv data offset = Ok t <->
   exists pre ts post, data = (pre ++ tlv_bytes ts (tlv_value t) ++ post)%list /\ zlen pre = offset /\
     tag_octets ts = true /\
     t = mkElementTlv (be_value ts) (zlen (tlv_value t)) (tlv_value t) (offset + zlen (tlv_bytes ts (tlv_value t)))).
Proof.
  intros Hok Hoff Hmax. split; [by apply parse_tlv_no_panic|]. split.
  - intros (pre & ts & post & Hd & Hpre & Hts & Htag & Hlen & Hnext)%parse_tlv_Ok; [|done|done].
    exists pre, ts, post. split_and!; try done. destruct t; cbn in *. congruence.
  - intros (pre & ts & post & Hd & <- & Hts & ->). cbn [tlv_value] in *. rewrite Hd in Hmax |- *.
    rewrite parse_tlv_reads; [done| |done|done]. rewrite Hd in Hok. unfold tlv_bytes in Hok.
    apply Forall_app in Hok as [_ Hok]. rewrite <- app_assoc in Hok. by apply Forall_app in Hok as [? _].
Qed.

(** ** Sequences of objects *)

(** The objects that a sequence of octets encodes, from an offset on. *)
Inductive tlv_items : bytes -> Z -> list Tlv -> Prop :=
| items_nil offset : tlv_items [] offset []
| items_cons ts v rest offset items :
    tag_octets ts = true -> tlv_items rest (offset + zlen (tlv_bytes ts v)) items ->
    tlv_items (tlv_bytes ts v ++ rest) offset
      (mkElementTlv (be_value ts) (zlen v) v (offset + zlen (tlv_bytes ts v)) :: items).

(** A fold that stops at the first error. *)
Fixpoint fold_items {S} (step : Tlv -> S -> res EmrtdDataError S) (items : list Tlv) (s : S) : res EmrtdDataError S :=
  match items with [] => Ok s | item :: items => s ← step item s; fold_items step items s end.

Lemma tlv_bytes_pos ts v : tag_octets ts = true -> (2 <= length (tlv_bytes ts v))%nat.
Proof.
  intros Hts. unfold tlv_bytes. rewrite !length_app. destruct ts as [|t ts]; [done|]. cbn [length].
  assert (1 <= length (length_octets (zlen v)))%nat; [|lia].
  unfold length_octets. repeat (destruct (_ <? _); [cbn; lia|]). cbn. lia.
Qed.

Section loops.
Context {S : Type} (step : Tlv -> S -> res EmrtdDataError S).

Lemma tlv_loop_Ok fuel : forall pre rest s s', bytes_ok (pre ++ rest) ->
  tlv_loop step fuel (pre ++ rest) (zlen pre) s = Ok s' ->
  exists items, tlv_items rest (zlen pre) items /\ fold_items step items s = Ok s'.
Proof.
  induction fuel as [|fuel IH]; intros pre rest s s' Hok; cbn [tlv_loop]; rewrite zlen_app.
  - destruct (Z.ltb_spec (zlen pre) (zlen pre + zlen rest)); [done|]. intros [= <-]. exists []. split; [|done].
    destruct rest; [constructor|rewrite zlen_cons in *; pose proof (zlen_nonneg rest); lia].
  - destruct (Z.ltb_spec (zlen pre) (zlen pre + zlen rest)) as [Hlt|Hge].
    + intros (item & Hitem & Hr)%bind_Ok. apply bind_Ok in Hr as (s1 & Hs1 & Hr).
      apply parse_tlv_Ok in Hitem as (pre' & ts & post & Hd & Hpre & Hts & Htag & Hlen & Hnext); [|done|apply zlen_nonneg].
      apply app_inj_1 in Hd as [<- ->]; [|unfold zlen in Hpre; lia]. rewrite Hnext, app_assoc in Hr.
      replace (zlen pre + zlen (tlv_bytes ts (tlv_value item))) with (zlen (pre ++ tlv_bytes ts (tlv_value item))%list) in Hr
        by apply zlen_app.
      apply IH in Hr as (items & Hitems & Hfold); [|by rewrite <- app_assoc]. rewrite zlen_app in Hitems.
      exists (item :: items). split; [|cbn [fold_items]; by rewrite Hs1].
      destruct item as [tg ln v nx]; cbn in *; subst. by constructor.
    + intros [= <-]. exists []. split; [|done].
      destruct rest; [constructor|rewrite zlen_cons in *; pose proof (zlen_nonneg rest); lia].
Qed.

Lemma tlv_loop_reads rest offset items : tlv_items rest offset items -> forall fuel pre s,
  zlen pre = offset -> bytes_ok (pre ++ rest) -> zlen (pre ++ rest) <= MAX_EMRTD_DATA_BYTES -> (length rest <= fuel)%nat ->
  tlv_loop step fuel (pre ++ rest) offset s = fold_items step items s.
Proof.
  induction 1 as [offset|ts v rest offset items Hts Hitems IH]; intros fuel pre s Hpre Hok Hmax Hf.
  - rewrite app_nil_r. destruct fuel; cbn [tlv_loop]; by rewrite (proj2 (Z.ltb_ge _ _)) by lia.
  - pose proof (tlv_bytes_pos ts v Hts) as Hpos. rewrite length_app in Hf. destruct fuel as [|fuel]; [lia|].
    cbn [tlv_loop]. rewrite (proj2 (Z.ltb_lt _ _)).
    2: { rewrite !zlen_app. unfold zlen in *. lia. }
    assert (Htok : bytes_ok ts).
    { unfold tlv_bytes in Hok. apply Forall_app in Hok as [_ Hok]. rewrite <- app_assoc in Hok. by apply Forall_app in Hok as [? _]. }
    rewrite <- Hpre at 1. rewrite parse_tlv_reads by done. cbn [mbind res_bind fold_items tlv_next]. rewrite Hpre.
    destruct (step _ s) as [s1| |]; [|done..]. cbn [mbind res_bind]. rewrite app_assoc in *.
    apply IH; [rewrite zlen_app; lia|done|done|lia].
Qed.

Lemma tlv_loop_no_panic : (forall item s, no_panic (step item s)) -> forall fuel pre rest s, bytes_ok (pre ++ rest) ->
  (length rest <= fuel)%nat -> no_panic (tlv_loop step fuel (pre ++ rest) (zlen pre) s).
Proof.
  intros Hstep. induction fuel as [|fuel IH]; intros pre rest s Hok Hf; cbn [tlv_loop]; rewrite zlen_app.
  - destruct rest; [|cbn in Hf; lia]. rewrite zlen_nil, (proj2 (Z.ltb_ge _ _)) by lia. done.
  - destruct (_ <? _); [|done]. apply bind_no_panic; [apply parse_tlv_no_panic, zlen_nonneg|]. intros item Hitem.
    apply bind_no_panic; [done|]. intros s1 _.
    apply parse_tlv_Ok in Hitem as (pre' & ts & post & Hd & Hpre & Hts & Htag & Hlen & Hnext); [|done|apply zlen_nonneg].
    apply app_inj_1 in Hd as [<- ->]; [|unfold zlen in Hpre; lia]. rewrite Hnext, app_assoc, <- zlen_app.
    apply IH; [by rewrite <- app_assoc|]. rewrite length_app in Hf. pose proof (tlv_bytes_pos ts (tlv_value item) Hts). lia.
Qed.
End loops.

(** ** Complete objects *)

Lemma parse_complete_Ok data tag kind t : bytes_ok data -> parse_complete_tlv data tag kind = Ok t ->
  exists ts, data = tlv_bytes ts (tlv_value t) /\ tag_octets ts = true /\ be_value ts = tag.
Proof.
  intros Hok (t' & Ht & Hr)%bind_Ok. apply bind_Ok in Hr as ([] & Htag%ensure_Ok & Hr). apply bind_Ok in Hr as ([] & Hn%ensure_Ok & [= ->]).
  breflect. apply parse_tlv_Ok in Ht as (pre & ts & post & Hd & Hpre & Hts & Hv & Hl & Hnext); [|done|done].
  exists ts. destruct pre; [|rewrite zlen_cons in Hpre; pose proof (zlen_nonneg pre); lia].
  rewrite Hn in Hnext. rewrite Hd in Hnext |- * at 1. cbn [app] in *. rewrite zlen_app in Hnext.
  destruct post; [rewrite app_nil_r; split_and!; try done; congruence|rewrite zlen_cons in Hnext; pose proof (zlen_nonneg post); lia].
Qed.

Lemma parse_complete_reads ts v kind : bytes_ok ts -> tag_octets ts = true -> zlen (tlv_bytes ts v) <= MAX_EMRTD_DATA_BYTES ->
  parse_complete_tlv (tlv_bytes ts v) (be_value ts) kind = Ok (mkElementTlv (be_value ts) (zlen v) v (zlen (tlv_bytes ts v))).
Proof.
  intros Hok Hts Hmax. unfold parse_complete_tlv.
  pose proof (parse_tlv_reads ts v [] [] Hok Hts) as Hp. rewrite app_nil_r in Hp. cbn [app] in Hp. rewrite zlen_nil in Hp.
  rewrite Hp by done. cbn [mbind res_bind tlv_tag tlv_next]. by rewrite !Z.eqb_refl.
Qed.

Lemma complete_no_panic data tag kind : no_panic (parse_complete_tlv data tag kind).
Proof. unfold parse_complete_tlv. apply bind_no_panic; [by apply parse_tlv_no_panic|]. intros t _. solve_no_panic. Qed.

Lemma complete_value_ok data tag kind t : bytes_ok data -> parse_complete_tlv data tag kind = Ok t -> bytes_ok (tlv_value t).
Proof.
  intros Hok Ht. destruct (parse_complete_Ok _ _ _ _ Hok Ht) as (ts & -> & _). unfold tlv_bytes in Hok.
  by do 2 apply Forall_app in Hok as [_ Hok].
Qed.

(** Octets of a tag are determined by its value. *)
Lemma be_value_inj ts : forall ts', bytes_ok ts -> bytes_ok ts' -> length ts = length ts' -> be_value ts = be_value ts' -> ts = ts'.
Proof.
  unfold bytes_ok. induction ts as [|t ts IH] using rev_ind; intros ts' Hok Hok' Hlen Hv; [by destruct ts'|].
  destruct ts' as [|t' ts' _] using rev_ind; [rewrite length_app in Hlen; cbn in Hlen; lia|].
  rewrite !tlv_value_snoc in Hv. rewrite !length_app in Hlen. apply Forall_app in Hok as [Hok [Ht _]%Forall_cons].
  apply Forall_app in Hok' as [Hok' [Ht' _]%Forall_cons]. unfold byte_ok in *.
  assert (be_value ts = be_value ts' /\ t = t') as [Hbe ->] by lia. f_equal. apply IH; try done. cbn in Hlen. lia.
Qed.

Lemma be_value_lower t ts : bytes_ok (t :: ts) -> 0 < t -> 256 ^ zlen ts <= be_value (t :: ts).
Proof.
  unfold bytes_ok. induction ts as [|u ts IH] using rev_ind; intros Hok Ht.
  { rewrite zlen_nil. change (256 ^ 0) with 1. unfold be_value. cbn [foldl]. lia. }
  rewrite app_comm_cons, tlv_value_snoc, zlen_snoc, Z.pow_add_r by (unfold zlen; lia).
  rewrite app_comm_cons in Hok. apply Forall_app in Hok as [Hok [Hu _]%Forall_cons]. specialize (IH Hok Ht).
  unfold byte_ok in Hu. change (256 ^ 1) with 256. generalize dependent (256 ^ zlen ts). intros p Hp. lia.
Qed.

Lemma tag_octets_size t u ts : bytes_ok (t :: u :: ts) -> tag_octets (t :: u :: ts) = true ->
  256 ^ zlen (u :: ts) <= be_value (t :: u :: ts) < 256 ^ (zlen (u :: ts) + 1).
Proof.
  intros Hok Hts. pose proof (be_value_bound _ Hok) as Hb. rewrite (zlen_cons t), Z.add_comm in Hb. split; [|lia].
  apply be_value_lower; [done|]. apply Forall_cons in Hok as [Ht _]. unfold byte_ok in Ht.
  change ((Z.land t 0x1f =? 0x1f) && tag_rest (u :: ts) && (zlen (u :: ts) <=? 3) = true) in Hts.
  apply andb_true_iff in Hts as [[Hf _]%andb_true_iff _]. assert (t <> 0) by (by intros ->). lia.
Qed.

Lemma tag_octets_inj ts ts' : bytes_ok ts -> bytes_ok ts' -> tag_octets ts = true -> tag_octets ts' = true ->
  be_value ts = be_value ts' -> ts = ts'.
Proof.
  intros Hok Hok' Hts Hts' Hv. apply be_value_inj; try done.
  assert (Hone : forall t u l, bytes_ok [t] -> bytes_ok (u :: l) -> tag_octets (u :: l) = true -> be_value [t] = be_value (u :: l) -> l = []).
  { intros t u [|w l] Ht Hl Htl He; [done|]. destruct (tag_octets_size _ _ _ Hl Htl) as [Hlow _].
    apply Forall_cons in Ht as [Ht _]. unfold byte_ok, be_value in *. cbn [foldl] in He.
    assert (256 ^ 1 <= 256 ^ zlen (w :: l)) by (apply Z.pow_le_mono_r; [lia|]; rewrite zlen_cons; pose proof (zlen_nonneg l); lia).
    change (256 ^ 1) with 256 in *. cbn [foldl] in *. lia. }
  destruct ts as [|t [|u ts]], ts' as [|t' [|u' ts']]; try done.
  - by specialize (Hone t t' (u' :: ts') Hok Hok' Hts' Hv).
  - by specialize (Hone t' t (u :: ts) Hok' Hok Hts (eq_sym Hv)).
  - destruct (tag_octets_size _ _ _ Hok Hts) as [L1 U1]. destruct (tag_octets_size _ _ _ Hok' Hts') as [L2 U2]. rewrite Hv in L1, U1.
    assert (A : forall a b, 0 <= a -> 0 <= b -> 256 ^ a <= be_value (t' :: u' :: ts') -> be_value (t' :: u' :: ts') < 256 ^ (b + 1) -> a <= b).
    { intros a b Ha Hb Hla Hub. destruct (Z.le_gt_cases a b); [done|]. assert (256 ^ (b + 1) <= 256 ^ a) by (apply Z.pow_le_mono_r; lia). lia. }
    pose proof (A _ _ (zlen_nonneg (u :: ts)) (zlen_nonneg (u' :: ts')) L1 U2).
    pose proof (A _ _ (zlen_nonneg (u' :: ts')) (zlen_nonneg (u :: ts)) L2 U1). unfold zlen in *. cbn [length] in *. lia.
Qed.

(** ** EF.COM *)

(** A name that a list of tags gives. *)
Definition listed (tags : bytes) (name : string) : Prop :=
  exists t g, t ∈ tags /\ group_of_tag t = Some g /\ name = "DG" +:+ pretty g.

Lemma add_groups_spec tags : forall groups, NoDup groups ->
  NoDup (add_groups tags groups) /\ forall name, name ∈ add_groups tags groups <-> name ∈ groups \/ listed tags name.
Proof.
  induction tags as [|t tags IH]; intros groups Hnd; cbn [add_groups].
  { split; [done|]. intros name. split; [by left|]. intros [?|(t & g & Ht & _)]; [done|by apply elem_of_nil in Ht]. }
  assert (Hcons : forall name, listed (t :: tags) name <->
    (exists g, group_of_tag t = Some g /\ name = "DG" +:+ pretty g) \/ listed tags name).
  { intros name. unfold listed. setoid_rewrite elem_of_cons. naive_solver. }
  setoid_rewrite Hcons. destruct (group_of_tag t) as [g|].
  - cbv zeta. destruct (one_of _ groups) eqn:Ho.
    + apply existsb_eqb in Ho. destruct (IH groups Hnd) as [? Hin]. split; [done|]. intros name. rewrite Hin. naive_solver.
    + assert (Hnin : "DG" +:+ pretty g ∉ groups) by (rewrite <- existsb_eqb; unfold one_of in Ho; congruence).
      destruct (IH (groups ++ ["DG" +:+ pretty g])%list) as [? Hin].
      { apply NoDup_app. split; [done|]. split; [|apply NoDup_singleton]. intros x Hx ->%list_elem_of_singleton. done. }
      split; [done|]. intros name. rewrite Hin, elem_of_app, list_elem_of_singleton. naive_solver.
  - destruct (IH groups Hnd) as [? Hin]. split; [done|]. intros name. rewrite Hin. naive_solver.
Qed.

Lemma com_items_groups items : forall com com', NoDup (data_groups com) -> fold_items com_item items com = Ok com' ->
  NoDup (data_groups com') /\ forall name, name ∈ data_groups com' <->
    name ∈ data_groups com \/ exists item, item ∈ items /\ tlv_tag item = 0x5c /\ listed (tlv_value item) name.
Proof.
  induction items as [|item items IH]; intros com com' Hnd; cbn [fold_items].
  { intros [= <-]. split; [done|]. intros name. split; [by left|]. intros [?|(i & Hi & _)]; [done|by apply elem_of_nil in Hi]. }
  intros (c1 & H1 & Hr)%bind_Ok.
  assert (Hgroups : NoDup (data_groups c1) /\ forall name, name ∈ data_groups c1 <->
    name ∈ data_groups com \/ (tlv_tag item = 0x5c /\ listed (tlv_value item) name)).
  { unfold com_item in H1. destruct (Z.eqb_spec (tlv_tag item) 0x5f01) as [E|]; [apply bind_Ok in H1 as (? & _ & [= <-]); cbn; split; [done|naive_solver lia]|].
    destruct (Z.eqb_spec (tlv_tag item) 0x5f36) as [E|]; [apply bind_Ok in H1 as (? & _ & [= <-]); cbn; split; [done|naive_solver lia]|].
    destruct (Z.eqb_spec (tlv_tag item) 0x5c) as [E|]; injection H1 as <-; cbn [data_groups]; [|split; [done|naive_solver]].
    destruct (add_groups_spec (tlv_value item) (data_groups com) Hnd) as [? Hin]. split; [done|]. intros name. rewrite Hin. naive_solver. }
  destruct Hgroups as [Hnd1 Hg]. destruct (IH _ _ Hnd1 Hr) as [? Hin]. split; [done|]. intros name. rewrite Hin, Hg.
  setoid_rewrite elem_of_cons. naive_solver.
Qed.

Lemma com_item_no_panic item com : no_panic (com_item item com).
Proof. unfold com_item, decode_ascii. repeat (destruct (_ =? _)); solve_no_panic. Qed.

Lemma ef_com_no_panic data : bytes_ok data -> no_panic (parse_ef_com data).
Proof.
  intros Hok. unfold parse_ef_com. apply bind_no_panic; [apply complete_no_panic|]. intros outer Ho.
  apply (tlv_loop_no_panic com_item com_item_no_panic _ []); [|done]. by eapply complete_value_ok.
Qed.

(** EF.COM never panics; an accepted file is one object with tag 60 whose content is
    a sequence of objects, and the data groups it reports are, without repetition,
    exactly those whose tags its tag lists (tag 5C) hold. *)
Theorem ef_com_groups data : bytes_ok data ->
  match parse_ef_com data with
  | Ok com => exists content items, data = tlv_bytes [0x60] content /\ tlv_items content 0 items /\
      NoDup (data_groups com) /\
      forall name, name ∈ data_groups com <->
        exists item, item ∈ items /\ tlv_tag item = 0x5c /\ listed (tlv_value item) name
  | Err _ => True
  | Panic => False
  end.
Proof.
  intros Hok. destruct (parse_ef_com data) as [com|e|] eqn:Hp; [|done|by apply ef_com_no_panic in Hp].
  apply bind_Ok in Hp as (outer & Ho & Hp). pose proof (complete_value_ok _ _ _ _ Hok Ho) as Hvok.
  apply parse_complete_Ok in Ho as (ts & Hd & Hts & Hv); [|done].
  apply (tlv_loop_Ok com_item _ [] (tlv_value outer)) in Hp as (items & Hitems & Hfold); [|done].
  assert (Hts60 : ts = [0x60]).
  { apply tag_octets_inj; try done; [|by repeat constructor]. rewrite Hd in Hok. unfold tlv_bytes in Hok.
    by apply Forall_app in Hok as [? _]. }
  exists (tlv_value outer), items. rewrite <- Hts60 at 1. split; [done|]. split; [done|].
  destruct (com_items_groups items _ _ (NoDup_nil_2 : NoDup (data_groups (mkEfCom None None None []))) Hfold) as [? Hin].
  split; [done|]. intros name. rewrite Hin. cbn [data_groups]. rewrite elem_of_nil. naive_solver.
Qed.

(** ** EF.DG1 *)

Lemma chunks_of_lines {A} n (ls : list (list A)) : (0 < n)%nat -> Forall (fun l => length l = n) ls -> chunks n (concat ls) = ls.
Proof.
  intros Hn Hls. unfold chunks.
  assert (Hf : forall fuel, (length (concat ls) <= fuel)%nat -> chunks_fuel fuel n (concat ls) = ls); [|by apply Hf].
  induction Hls as [|l ls Hl Hls IH]; intros fuel Hfuel; [by destruct fuel|]. cbn [concat] in *. rewrite length_app in Hfuel.
  destruct fuel as [|fuel]; [lia|]. cbn [chunks_fuel]. destruct (l ++ concat ls)%list eqn:Happ.
  { apply (f_equal length) in Happ. rewrite length_app in Happ. cbn in Happ. lia. }
  rewrite <- Happ, take_app_length', drop_app_length' by done. f_equal. apply IH. lia.
Qed.

(** The content of EF.DG1: the zone without line breaks. *)
Definition dg1_file (lines : list rstr) : bytes := tlv_bytes [0x61] (tlv_bytes [0x5f; 0x1f] (concat lines)).

Lemma upper_mrz_range c : upper_mrz c = true -> 48 <= c <= 90.
Proof. unfold upper_mrz, upper_alnum, is_ascii_digit, is_ascii_uppercase, filler. intros Hc. breflect. lia. Qed.

Lemma zone_bounds f d : doc_wf f d ->
  zlen (concat (print_mrz f d)) = line_count f * line_length f /\ Forall (fun c => 48 <= c <= 90) (concat (print_mrz f d)).
Proof.
  intros Hd. destruct (print_upper f d Hd) as [Hn Hl]. split.
  - assert (Hlen : forall ls : list rstr, Forall (fun l => length l = Z.to_nat (line_length f) /\ Forall upper_mrz l) ls ->
      zlen (concat ls) = zlen ls * line_length f).
    { intros ls. induction 1 as [|l ls [Hll _] _ IH]; [done|]. cbn [concat]. rewrite zlen_app, zlen_cons, IH.
      unfold zlen at 1. rewrite Hll, Z2Nat.id by (by destruct f). lia. }
    rewrite (Hlen _ Hl), Hn. done.
  - apply Forall_concat. eapply Forall_impl; [exact Hl|]. intros l [_ Hu]. eapply Forall_impl; [exact Hu|].
    intros c Hc. apply upper_mrz_range. by apply Is_true_true.
Qed.

Lemma dg1_lines_printed f d : doc_wf f d -> dg1_lines (concat (print_mrz f d)) = Ok (print_mrz f d).
Proof.
  intros Hd. destruct (zone_bounds f d Hd) as [Hz Hr]. destruct (print_upper f d Hd) as [_ Hl]. unfold dg1_lines.
  assert (Hnl : existsb (fun c => (c =? 10) || (c =? 13)) (concat (print_mrz f d)) = false).
  { apply not_true_is_false. intros (c & Hc & Hb)%existsb_exists. apply list_elem_of_In in Hc.
    apply (proj1 (Forall_forall _ _) Hr) in Hc. breflect. lia. }
  rewrite Hnl, Hz. assert (Hll : Forall (fun l => length l = Z.to_nat (line_length f)) (print_mrz f d)).
  { eapply Forall_impl; [exact Hl|]. by intros l [? _]. }
  pose proof (chunks_of_lines _ _ (line_length_pos f) Hll) as Hc.
  revert Hc. generalize (print_mrz f d). intros ls Hc. destruct f; cbv zeta; by f_equal.
Qed.

(** C27: A well-formed document that is printed in any of the three layouts into EF.DG1 is
    read back with all its fields: names, number, dates, sex and optional data. *)
Theorem dg1_roundtrip `{UnicodeLaws} f d : doc_wf f d ->
  parse_ef_dg1 (dg1_file (print_mrz f d)) = Ok (mrz_info (parsed f d)).
Proof.
  intros Hd. destruct (zone_bounds f d Hd) as [Hz Hr]. unfold parse_ef_dg1, dg1_file.
  assert (Hsize : 0 <= zlen (concat (print_mrz f d)) <= 90) by (rewrite Hz; destruct f; cbn; lia).
  assert (Hshort : forall v : bytes, 0 <= zlen v < 128 -> length_octets (zlen v) = [zlen v]).
  { intros v Hv. unfold length_octets. by rewrite (proj2 (Z.ltb_lt _ _)) by lia. }
  assert (Hin : zlen (tlv_bytes [0x5f; 0x1f] (concat (print_mrz f d))) = zlen (concat (print_mrz f d)) + 3).
  { unfold tlv_bytes. rewrite Hshort, !zlen_app, !zlen_cons, zlen_nil by lia. lia. }
  change 0x61 with (be_value [0x61]) at 2. rewrite parse_complete_reads; [|by repeat constructor|done|].
  2: { unfold tlv_bytes at 1. rewrite Hshort, !zlen_app, !zlen_cons, !zlen_nil, Hin by lia. unfold MAX_EMRTD_DATA_BYTES. lia. }
  cbn [mbind res_bind tlv_value]. change 0x5f1f with (be_value [0x5f; 0x1f]).
  rewrite parse_complete_reads; [|by repeat constructor|done|rewrite Hin; unfold MAX_EMRTD_DATA_BYTES; lia].
  cbn [mbind res_bind tlv_value]. unfold decode_ascii.
  assert (Hascii : is_ascii (concat (print_mrz f d)) = true).
  { unfold is_ascii. apply forallb_forall. intros c Hc%list_elem_of_In. apply (proj1 (Forall_forall _ _) Hr) in Hc.
    unfold is_ascii_char. apply andb_true_iff. split; [apply Z.leb_le|apply Z.ltb_lt]; lia. }
  rewrite Hascii. cbn [ensure mbind res_bind]. rewrite dg1_lines_printed by done. cbn [mbind res_bind].
  destruct (print_parses f d Hd) as [Hp _]. by rewrite Hp.
Qed.

Lemma dg1_no_panic `{Unicode} data : no_panic (parse_ef_dg1 data).
Proof.
  unfold parse_ef_dg1. apply bind_no_panic; [apply complete_no_panic|]. intros outer _.
  apply bind_no_panic; [apply complete_no_panic|]. intros m _. apply bind_no_panic; [unfold decode_ascii; solve_no_panic|]. intros text _.
  apply bind_no_panic; [unfold dg1_lines; destruct (existsb _ _); [done|]; cbv zeta; by repeat (destruct (_ =? _); [done|])|]. intros lines _.
  apply bind_no_panic; [apply map_err_no_panic, parse_mrz_no_panic|done].
Qed.

Lemma biometric_item_no_panic item r : no_panic (biometric_item item r).
Proof.
  unfold biometric_item, one_byte, two_bytes. cbv zeta.
  repeat (destruct (_ =? _); [try done; destruct (tlv_value item) as [|a [|b [|c l]]]; done|]). done.
Qed.

Lemma dg2_no_panic data : bytes_ok data -> no_panic (parse_ef_dg2 data).
Proof.
  intros Hok. unfold parse_ef_dg2. apply bind_no_panic; [apply complete_no_panic|]. intros outer Ho.
  apply bind_no_panic; [apply complete_no_panic|]. intros t Ht.
  apply (tlv_loop_no_panic biometric_item biometric_item_no_panic _ []); [|done].
  eapply complete_value_ok; [|exact Ht]. by eapply complete_value_ok.
Qed.

(** Reading any elementary file from any bytes never panics, and an accepted file is one
    complete object whose tag and length are reported. *)
Theorem elementary_file_total `{Unicode} file_id data : bytes_ok data ->
  match parse_elementary_file file_id data with
  | Ok file => exists ts v, data = tlv_bytes ts v /\ tag_octets ts = true /\ ef_tag file = be_value ts /\
      ef_length file = zlen v /\ ef_data file = data /\ ef_file_id file = file_id
  | Err _ => True
  | Panic => False
  end.
Proof.
  intros Hok. destruct (parse_elementary_file file_id data) as [file|e|] eqn:Hp; [|done|].
  - apply bind_Ok in Hp as (outer & Ho & Hp). apply bind_Ok in Hp as ([] & Hn%ensure_Ok & Hp).
    apply bind_Ok in Hp as (content & _ & [= <-]). cbn.
    assert (Hc : parse_complete_tlv data (tlv_tag outer) "" = Ok outer)
      by (unfold parse_complete_tlv; rewrite Ho; cbn [mbind res_bind]; by rewrite Z.eqb_refl, Hn).
    apply parse_complete_Ok in Hc as (ts & Hd & Hts & Hv); [|done].
    apply parse_tlv_Ok in Ho as (? & ? & ? & _ & _ & _ & _ & Hl & _); [|done|done].
    exists ts, (tlv_value outer). done.
  - assert (Hnp : no_panic (parse_elementary_file file_id data)); [|by apply Hnp].
    unfold parse_elementary_file. apply bind_no_panic; [by apply parse_tlv_no_panic|]. intros outer _.
    apply bind_no_panic; [apply ensure_no_panic|]. intros [] _. apply bind_no_panic; [|done].
    repeat (destruct (String.eqb _ _); [apply bind_no_panic; [auto using ef_com_no_panic, dg1_no_panic, dg2_no_panic|done]|]). done.
Qed.

(** ** Concrete files *)

Definition sample_com : bytes :=
  tlv_bytes [0x60] (tlv_bytes [0x5f; 0x01] (str_bytes "0107") ++ tlv_bytes [0x5f; 0x36] (str_bytes "040000")
                    ++ tlv_bytes [0x5c] [0x61; 0x75; 0x6f; 0x61])%list.
Lemma sample_com_ok : bytes_ok sample_com.
Proof. unfold bytes_ok, byte_ok. apply (bool_decide_unpack _). vm_compute. reflexivity. Qed.

Example sample_com_read : parse_ef_com sample_com =
  Ok (mkEfCom None (Some "0107") (Some "040000") ["DG1"; "DG2"; "DG15"]).
Proof. vm_compute. reflexivity. Qed.

Lemma parse_tlv_exact_witness :
  parse_tlv sample_com 2 = Ok (mkElementTlv 0x5f01 4 (str_bytes "0107") 9) /\
  exists pre ts post, sample_com = (pre ++ tlv_bytes ts (str_bytes "0107") ++ post)%list /\ zlen pre = 2 /\ be_value ts = 0x5f01.
Proof.
  assert (Hp : parse_tlv sample_com 2 = Ok (mkElementTlv 0x5f01 4 (str_bytes "0107") 9)) by (vm_compute; reflexivity).
  split; [exact Hp|].
  assert (Hmax : zlen sample_com <= MAX_EMRTD_DATA_BYTES) by (vm_compute; discriminate).
  destruct (proj1 (proj2 (parse_tlv_exact sample_com 2 (mkElementTlv 0x5f01 4 (str_bytes "0107") 9) sample_com_ok
    Z.le_0_2 Hmax)) Hp) as (pre & ts & post & Hd & Hpre & _ & Ht).
  exists pre, ts, post. split; [exact Hd|]. split; [exact Hpre|]. apply (f_equal tlv_tag) in Ht. exact (eq_sym Ht).
Defined.

Lemma ef_com_groups_witness :
  exists content items, sample_com = tlv_bytes [0x60] content /\ tlv_items content 0 items.
Proof.
  pose proof (ef_com_groups sample_com sample_com_ok) as Hg. rewrite sample_com_read in Hg.
  destruct Hg as (content & items & Hd & Hi & _). by exists content, items.
Defined.

Lemma dg1_roundtrip_witness :
  parse_ef_dg1 (dg1_file (print_mrz TD1 sample_document)) = Ok (mrz_info (parsed TD1 sample_document)).
Proof.
  assert (Hwf : doc_wf TD1 sample_document).
  { split; unfold field_wf, fixed_wf, words_wf; repeat split; try (repeat constructor); try (vm_compute; done || lia). }
  exact (dg1_roundtrip TD1 sample_document Hwf).
Defined.

Lemma elementary_file_total_witness : exists ts v, sample_com = tlv_bytes ts v /\ tag_octets ts = true.
Proof.
  pose proof (elementary_file_total "EF.SOD" sample_com sample_com_ok) as Hf.
  assert (Hp : parse_elementary_file "EF.SOD" sample_com = Ok (mkElementary "EF.SOD" 0x60 22 sample_com None))
    by (vm_compute; reflexivity).
  rewrite Hp in Hf. destruct Hf as (ts & v & Hd & Hts & _). by exists ts, v.
Defined.
