(* ===== verification/Iso9796.v ===== *)
(** * ISO 9796-2 signatures and active authentication (marty-crypto,
    [iso9796.rs]; marty-verification, [active_authentication.rs])

    Signatures with message recovery: the RSA permutation is computed on integers,
    its key comes from the DER codec of [rsa], a parameter; hashes are parameters.
    Index and subtraction panics are kept. *)

From S2P Require Import Prelude Des Governance Apdu SecureMessaging CryptoKit ElementaryFile.
Local Open Scope string_scope.
Local Open Scope Z_scope.

#[local] Abbreviation bytes := (list Z).
#[local] Abbreviation result := (res CryptoError).

(** [src/marty-crypto/src/error.rs:143-145] CryptoError::crypto_error *)
Definition iso_error (m : string) : CryptoError := CryptoEncryption m.

(** [src/marty-crypto/src/iso9796.rs:43-52] Iso9796Scheme *)
Inductive Iso9796Scheme := Scheme1 | Scheme2 | Scheme3.

(** [src/marty-crypto/src/iso9796.rs:54-67] Iso9796HashAlgorithm *)
Inductive Iso9796HashAlgorithm := IsoSha1 | IsoSha224 | IsoSha256 | IsoSha384 | IsoSha512.

(** [src/marty-crypto/src/iso9796.rs:71-79] Iso9796HashAlgorithm::trailer *)
Definition trailer (h : Iso9796HashAlgorithm) : Z :=
  match h with IsoSha1 => 0x33 | IsoSha224 => 0x38 | IsoSha256 => 0x34 | IsoSha384 => 0x36 | IsoSha512 => 0x35 end.

(** [src/marty-crypto/src/iso9796.rs:82-90] Iso9796HashAlgorithm::hash_size *)
Definition hash_size (h : Iso9796HashAlgorithm) : Z :=
  match h with IsoSha1 => 20 | IsoSha224 => 28 | IsoSha256 => 32 | IsoSha384 => 48 | IsoSha512 => 64 end.

(** [sha1] and [sha2], and [RsaPublicKey::from_public_key_der]. *)
Class IsoLib := {
  iso_digest : Iso9796HashAlgorithm -> bytes -> bytes;
  rsa_from_spki : bytes -> string + RsaKey;
}.

(** [BigUint::from_bytes_be]. *)
Definition big_from_bytes_be (bs : bytes) : Z := foldl (fun acc b => acc * 256 + b) 0 bs.

(** [n.bits().div_ceil(8)]. *)
Definition key_bytes_len (key : RsaKey) : Z := div_ceil (big_bits (rsa_n key)) 8.

(** [src/marty-crypto/src/iso9796.rs:147-154] iso9796_scheme1_verify, the RSA permutation, padded to the key size; [modpow] panics for a zero modulus *)
Definition recover_padded (key : RsaKey) (signature : bytes) : result bytes :=
  let k := key_bytes_len key in
  let s := big_from_bytes_be signature in
  em ← (if rsa_n key =? 0 then Panic else Ok (s ^ rsa_e key mod rsa_n key));
  let em_bytes := big_to_bytes_be em in
  if k <? zlen em_bytes then Panic
  else Ok (replicate (Z.to_nat (k - zlen em_bytes)) 0 ++ em_bytes)%list.

(** [while start < limit && encoded[start] == 0xBB { start += 1 }]; the fuel is the
    distance to the limit. *)
Fixpoint skip_padding (fuel : nat) (encoded : bytes) (start limit : Z) : result Z :=
  if start <? limit then
    b ← vec_index encoded start;
    if b =? 0xBB then match fuel with O => Panic | S fuel => skip_padding fuel encoded (start + 1) limit end
    else Ok start
  else Ok start.

(** [src/marty-crypto/src/iso9796.rs:169-189] scheme1_message *)
Definition scheme1_message (encoded : bytes) : result bytes :=
  let n := zlen encoded in
  ok ← (if n <? 3 then Ok false
        else first ← vec_index encoded 0; last ← vec_index encoded (n - 1); Ok ((first =? 0x6A) && (last =? 0xBC)));
  _ ← ensure ok (iso_error "Invalid Scheme 1 signature format");
  start ← skip_padding (length encoded) encoded 1 (n - 1);
  start ← (if 1 <? start then
             _ ← ensure (bool_decide (encoded !! Z.to_nat start = Some 0)) (iso_error "Invalid Scheme 1 padding separator");
             Ok (start + 1)
           else Ok start);
  vec_slice encoded start (n - 1).

(** The first and the last octet. *)
Definition header_is (encoded : bytes) (h : Z) : result bool := b ← vec_index encoded 0; Ok (b =? h).
Definition last_octet (encoded : bytes) : result Z := vec_index encoded (zlen encoded - 1).

(** [a - b] on [usize]. *)
Definition usize_sub (a b : Z) : result Z := if a <? b then Panic else Ok (a - b).

Section iso9796.
Context `{IsoLib}.

(** [src/marty-crypto/src/iso9796.rs:135-167] iso9796_scheme1_verify *)
Definition iso9796_scheme1_verify (key : RsaKey) (message signature : bytes) : result bool :=
  if negb (zlen signature =? key_bytes_len key) then Ok false
  else
    padded_em ← recover_padded key signature;
    header ← header_is padded_em 0x6A;
    last ← last_octet padded_em;
    if negb header || negb (last =? 0xBC) then Ok false
    else
      recovered ← scheme1_message padded_em;
      Ok (bool_decide (recovered = message)).

(** [src/marty-crypto/src/iso9796.rs:247-261] iso9796_scheme2_verify, the header and the length of the trailer *)
Definition scheme2_trailer (padded_em : bytes) (hash_alg : Iso9796HashAlgorithm) : result (option (Z * Z)) :=
  last ← last_octet padded_em;
  if last =? 0xBC then Ok (Some (0x4B, 1))
  else if last =? trailer hash_alg then Ok (Some (0x6A, 1))
  else if 2 <=? zlen padded_em then
    b ← vec_index padded_em (zlen padded_em - 2);
    Ok (if b =? 0 then Some (0x6A, 2) else None)
  else Ok None.

(** [src/marty-crypto/src/iso9796.rs:303-316] iso9796_scheme2_verify, the hash of the message *)
Definition scheme2_hash (hash_alg : Iso9796HashAlgorithm) (m1 message : bytes) : bytes :=
  if bool_decide (take (length m1) message = m1) then iso_digest hash_alg message
  else match m1 with
       | [] => iso_digest hash_alg message
       | _ => iso_digest hash_alg (m1 ++ message)%list
       end.

(** [src/marty-crypto/src/iso9796.rs:217-319] iso9796_scheme2_verify *)
Definition iso9796_scheme2_verify (key : RsaKey) (message signature : bytes) (hash_alg : Iso9796HashAlgorithm) :
    result bool :=
  let hash_len := hash_size hash_alg in
  if negb (zlen signature =? key_bytes_len key) then Ok false
  else
    padded_em ← recover_padded key signature;
    found ← scheme2_trailer padded_em hash_alg;
    match found with
    | None => Ok false
    | Some (header_byte, trailer_len) =>
        header ← header_is padded_em header_byte;
        if negb header then Ok false
        else
          before ← usize_sub (zlen padded_em) trailer_len;
          hash_start ← usize_sub before hash_len;
          if hash_start <? 2 then Ok false
          else
            embedded_hash ← vec_slice padded_em hash_start (zlen padded_em - trailer_len);
            m1_start ← skip_padding (length padded_em) padded_em 1 hash_start;
            if hash_start <=? m1_start then Ok false
            else
              separator ← vec_index padded_em m1_start;
              if negb (separator =? 0) && negb (separator =? 1) && negb (separator =? 0x0A) then Ok false
              else
                m1 ← vec_slice padded_em (m1_start + 1) hash_start;
                Ok (bool_decide (embedded_hash = scheme2_hash hash_alg m1 message))
    end.

(** [src/marty-crypto/src/iso9796.rs:321-331] iso9796_scheme3_verify *)
Definition iso9796_scheme3_verify (key : RsaKey) (message signature : bytes) (hash_alg : Iso9796HashAlgorithm) :
    result bool :=
  iso9796_scheme2_verify key message signature hash_alg.

(** The key of a DER text. *)
Definition parse_rsa_key (public_key_der : bytes) : result RsaKey :=
  match rsa_from_spki public_key_der with
  | inr key => Ok key
  | inl e => Err (iso_error ("Failed to parse RSA public key: " +:+ e))
  end.

(** [src/marty-crypto/src/iso9796.rs:108-133] iso9796_verify *)
Definition iso9796_verify (public_key_der message signature : bytes) (scheme : Iso9796Scheme)
    (hash_alg : Iso9796HashAlgorithm) : result bool :=
  key ← parse_rsa_key public_key_der;
  match scheme with
  | Scheme1 => iso9796_scheme1_verify key message signature
  | Scheme2 => iso9796_scheme2_verify key message signature hash_alg
  | Scheme3 => iso9796_scheme3_verify key message signature hash_alg
  end.

(** [src/marty-crypto/src/iso9796.rs:374-406] iso9796_recover_message, the schemes with a hash *)
Definition recover_scheme2 (padded_em : bytes) (hash_alg : Iso9796HashAlgorithm) : result bytes :=
  let hash_len := hash_size hash_alg in
  last ← last_octet padded_em;
  trailer_len ← (if last =? 0xBC then Ok 1
                 else if 2 <=? zlen padded_em then
                   b ← vec_index padded_em (zlen padded_em - 2); Ok (if b =? 0 then 2 else 1)
                 else Ok 1);
  before ← usize_sub (zlen padded_em) trailer_len;
  hash_start ← usize_sub before hash_len;
  m1_start ← skip_padding (length padded_em) padded_em 1 hash_start;
  vec_slice padded_em (if m1_start <? hash_start then m1_start + 1 else m1_start) hash_start.

(** [src/marty-crypto/src/iso9796.rs:333-408] iso9796_recover_message *)
Definition iso9796_recover_message (public_key_der signature : bytes) (scheme : Iso9796Scheme)
    (hash_alg : option Iso9796HashAlgorithm) : result bytes :=
  key ← parse_rsa_key public_key_der;
  _ ← ensure (zlen signature =? key_bytes_len key) (iso_error "Invalid signature length");
  padded_em ← recover_padded key signature;
  match scheme with
  | Scheme1 =>
      header ← header_is padded_em 0x6A;
      last ← last_octet padded_em;
      _ ← ensure (header && (last =? 0xBC)) (iso_error "Invalid Scheme 1 signature format");
      scheme1_message padded_em
  | Scheme2 | Scheme3 =>
      hash_alg ← ok_or hash_alg (iso_error "Hash algorithm required for Scheme 2/3");
      recover_scheme2 padded_em hash_alg
  end.

(** ** Active authentication *)

(** [src/marty-verification/src/active_authentication.rs:17-22] ActiveAuthenticationVerification *)
Record ActiveAuthenticationVerification := mkAaVerification { aa_is_valid : bool; aa_recovered : option bytes }.

#[local] Abbreviation aa_result := (res VerificationError).

(** [src/marty-verification/src/active_authentication.rs:24-40] generate_challenge, with the bytes of the generator *)
Definition generate_challenge (key_size_bits : Z) (random : nat -> bytes) : aa_result bytes :=
  _ ← ensure (negb ((key_size_bits =? 0) || negb (key_size_bits mod 8 =? 0)))
        (internal "Active Authentication challenge size must be a non-zero multiple of 8 bits");
  let byte_len := key_size_bits / 8 in
  _ ← ensure (negb (255 <? byte_len)) (internal "Active Authentication challenge exceeds short APDU capacity");
  Ok (random (Z.to_nat byte_len)).

(** [src/marty-verification/src/active_authentication.rs:42-63] build_internal_authenticate_apdu *)
Definition build_internal_authenticate_apdu (challenge : bytes) : aa_result bytes :=
  _ ← ensure (negb (zlen challenge =? 0)) (internal "Active Authentication challenge must not be empty");
  _ ← ensure (negb (255 <? zlen challenge)) (internal "Active Authentication challenge exceeds short APDU capacity");
  command_to_bytes (mkCommand 0x00 0x88 0x00 0x00 challenge (Some 0)).

(** [src/marty-verification/src/active_authentication.rs:65-80] parse_internal_authenticate_response *)
Definition parse_internal_authenticate_response (response : bytes) : aa_result bytes :=
  r ← response_from_bytes response;
  _ ← ensure (is_success r)
        (internal ("Active Authentication command failed with status " +:+ hex_lower (be16 (status_word r))));
  _ ← ensure (negb (zlen (resp_data r) =? 0)) (internal "Active Authentication response contains no signature");
  Ok (resp_data r).

(** The conversion of [CryptoError] by [?]: [error/conversions.rs], lines 154 to 164. *)
Definition from_crypto {A} (r : result A) : aa_result A := map_err (fun e => internal (crypto_error_text e)) r.

(** [src/marty-verification/src/active_authentication.rs:82-115] verify_challenge *)
Definition verify_challenge (public_key_der challenge signature : bytes) (hash_algorithm : Iso9796HashAlgorithm) :
    aa_result ActiveAuthenticationVerification :=
  _ ← ensure (negb (zlen challenge =? 0)) (internal "Active Authentication challenge must not be empty");
  is_valid ← from_crypto (iso9796_verify public_key_der challenge signature Scheme1 hash_algorithm);
  if negb is_valid then Ok (mkAaVerification false None)
  else
    recovered ← from_crypto (iso9796_recover_message public_key_der signature Scheme1 None);
    let exact_match := bool_decide (recovered = challenge) in
    Ok (mkAaVerification exact_match (if exact_match then Some recovered else None)).
End iso9796.
