(* ===== verification/Iso9796Facts.v ===== *)
(** * ISO 9796-2 signatures and active authentication: theorems

    A chip is accepted exactly when the RSA permutation of its signature is an
    encoding of the challenge; a signature made with the private exponent is; and
    what the schemes with a hash leave unchecked, on concrete keys. *)

From S2P Require Import Prelude RustStr Des Governance Apdu SecureMessaging CryptoKit ElementaryFile ElementaryFileFacts Iso9796.
Local Open Scope string_scope.
Local Open Scope Z_scope.

#[local] Abbreviation bytes := (list Z).

(** ** Integers and octets *)

Lemma big_from_value bs : big_from_bytes_be bs = be_value bs.
Proof. done. Qed.

Lemma big_bytes_spec fuel : forall n acc, 0 <= n < 256 ^ Z.of_nat fuel -> bytes_ok acc ->
  exists bs, big_bytes_fuel fuel n acc = (bs ++ acc)%list /\ bytes_ok bs /\ be_value bs = n /\ (length bs <= fuel)%nat.
Proof.
  induction fuel as [|fuel IH]; intros n acc Hn Hacc; cbn [big_bytes_fuel].
  { exists []. split_and!; [done|constructor| |done]. change (256 ^ Z.of_nat 0) with 1 in Hn. unfold be_value. cbn. lia. }
  destruct (Z.eqb_spec n 0) as [->|Hne]; [exists []; split_and!; [done|constructor|done|cbn; lia]|].
  rewrite Nat2Z.inj_succ, Z.pow_succ_r in Hn by lia.
  destruct (IH (n / 256) (n mod 256 :: acc)) as (bs & -> & Hok & Hv & Hl).
  - generalize dependent (256 ^ Z.of_nat fuel). intros p Hp. Z.to_euclidean_division_equations; lia.
  - apply Forall_cons. split; [|done]. unfold byte_ok. Z.to_euclidean_division_equations; lia.
  - exists (bs ++ [n mod 256])%list. split_and!.
    + by rewrite <- app_assoc.
    + apply Forall_app. split; [done|]. apply Forall_cons. split; [|done]. unfold byte_ok. Z.to_euclidean_division_equations; lia.
    + rewrite tlv_value_snoc, Hv. Z.to_euclidean_division_equations; lia.
    + rewrite length_app. cbn. lia.
Qed.

Lemma log2_octets n : 0 < n -> n < 256 ^ (Z.log2 n / 8 + 1).
Proof.
  intros Hn. destruct (Z.log2_spec n Hn) as [_ Hlt]. eapply Z.lt_le_trans; [exact Hlt|].
  change 256 with (2 ^ 8). pose proof (Z.log2_nonneg n). rewrite <- Z.pow_mul_r by (Z.to_euclidean_division_equations; lia).
  apply Z.pow_le_mono_r; Z.to_euclidean_division_equations; lia.
Qed.

Lemma big_to_bytes_spec n : 0 <= n -> bytes_ok (big_to_bytes_be n) /\ be_value (big_to_bytes_be n) = n /\
  zlen (big_to_bytes_be n) <= Z.log2 n / 8 + 1.
Proof.
  intros Hn. unfold big_to_bytes_be. destruct (Z.eqb_spec n 0) as [->|Hne].
  { split_and!; [by repeat constructor|done|done]. }
  pose proof (Z.log2_nonneg n). assert (0 <= Z.log2 n / 8) by (by apply Z.div_pos).
  destruct (big_bytes_spec (Z.to_nat (Z.log2 n / 8 + 1)) n []) as (bs & -> & Hok & Hv & Hl).
  - rewrite Z2Nat.id by lia. split; [done|]. apply log2_octets. lia.
  - constructor.
  - rewrite app_nil_r. split_and!; [done|done|]. unfold zlen. lia.
Qed.

Lemma be_value_zeros k bs : be_value (replicate k 0 ++ bs)%list = be_value bs.
Proof. unfold be_value. rewrite foldl_app. f_equal. induction k as [|k IH]; [done|]. cbn [replicate foldl]. exact IH. Qed.

Lemma key_len_log key : 0 < rsa_n key -> key_bytes_len key = Z.log2 (rsa_n key) / 8 + 1.
Proof.
  intros Hn. unfold key_bytes_len, big_bits, div_ceil. rewrite (proj2 (Z.eqb_neq _ _)) by lia.
  pose proof (Z.log2_nonneg (rsa_n key)). Z.to_euclidean_division_equations; lia.
Qed.

(** The permutation of a signature, in as many octets as the key has. *)
Lemma recover_padded_spec key signature : 0 < rsa_n key ->
  exists em, recover_padded key signature = Ok em /\ bytes_ok em /\ zlen em = key_bytes_len key /\
    be_value em = be_value signature ^ rsa_e key mod rsa_n key.
Proof.
  intros Hn. unfold recover_padded. rewrite (proj2 (Z.eqb_neq _ _)) by lia. cbn [mbind res_bind].
  rewrite big_from_value. set (x := be_value signature ^ rsa_e key mod rsa_n key).
  assert (Hx : 0 <= x < rsa_n key) by (apply Z.mod_pos_bound; lia).
  destruct (big_to_bytes_spec x) as (Hok & Hv & Hl); [lia|]. rewrite key_len_log by done.
  assert (Hmono : Z.log2 x / 8 <= Z.log2 (rsa_n key) / 8) by (apply Z.div_le_mono; [lia|apply Z.log2_le_mono; lia]).
  rewrite (proj2 (Z.ltb_ge _ _)) by lia. eexists. split; [done|]. split_and!.
  - apply Forall_app. split; [|done]. apply Forall_replicate. unfold byte_ok. lia.
  - rewrite zlen_app, zlen_replicate, Z2Nat.id by lia. lia.
  - by rewrite be_value_zeros.
Qed.

(** ** The encoding of the first scheme *)

Definition scheme1_encodes (em message : bytes) : Prop :=
  (exists p, (0 < p)%nat /\ em = (0x6A :: replicate p 0xBB ++ 0 :: message ++ [0xBC])%list) \/
  (em = (0x6A :: message ++ [0xBC])%list /\ message <> [] /\ head message <> Some 0xBB).

Lemma skip_padding_spec fuel : forall pre rest limit, zlen pre <= limit -> limit <= zlen (pre ++ rest)%list ->
  limit - zlen pre <= Z.of_nat fuel ->
  exists p rest', rest = (replicate p 0xBB ++ rest')%list /\
    skip_padding fuel (pre ++ rest) (zlen pre) limit = Ok (zlen pre + Z.of_nat p) /\ zlen pre + Z.of_nat p <= limit /\
    (zlen pre + Z.of_nat p < limit -> head rest' <> Some 0xBB).
Proof.
  induction fuel as [|fuel IH]; intros pre rest limit Hlo Hhi Hf; cbn [skip_padding];
    (destruct (Z.ltb_spec (zlen pre) limit) as [Hlt|Hge];
      [|exists O, rest; split_and!; [done|by rewrite Z.add_0_r|lia|lia]]); [lia|].
  destruct rest as [|b rest]; [rewrite app_nil_r in Hhi; lia|].
  rewrite (vec_index_at _ pre b rest) by done. cbn [mbind res_bind]. destruct (Z.eqb_spec b 0xBB) as [->|Hb].
  - destruct (IH (pre ++ [0xBB])%list rest limit) as (p & rest' & -> & Hs & Hle & Hh).
    + rewrite zlen_snoc. lia.
    + by rewrite <- app_assoc.
    + rewrite zlen_snoc. lia.
    + rewrite <- app_assoc, zlen_snoc in Hs. rewrite zlen_snoc in Hle, Hh. cbn [app] in Hs.
      exists (S p), rest'. split_and!; [done| |lia|intros; apply Hh; lia]. rewrite Hs. f_equal. lia.
  - exists O, (b :: rest). split_and!; [done|by rewrite Z.add_0_r|lia|]. intros _ [= ->]. done.
Qed.

(** A text with a first and a last octet has octets between them. *)
Lemma between (encoded : bytes) a z : 2 <= zlen encoded -> encoded !! 0%nat = Some a ->
  encoded !! Z.to_nat (zlen encoded - 1) = Some z -> exists mid, encoded = (a :: mid ++ [z])%list.
Proof.
  intros Hlen Ha Hz. destruct encoded as [|x l]; [done|]. injection Ha as ->.
  destruct l as [|y l _] using rev_ind; [rewrite zlen_cons, zlen_nil in Hlen; lia|]. exists l.
  rewrite zlen_cons, zlen_snoc in Hz. unfold zlen in Hz.
  replace (Z.to_nat _) with (S (length l)) in Hz by lia. change ((l ++ [y])%list !! length l = Some z) in Hz. rewrite list_lookup_middle in Hz by done. by injection Hz as ->.
Qed.

Lemma padding_split (mid : bytes) : exists p rest, mid = (replicate p 0xBB ++ rest)%list /\ head rest <> Some 0xBB.
Proof.
  induction mid as [|b mid (p & rest & -> & Hh)]; [by exists O, []|]. destruct (decide (b = 0xBB)) as [->|Hb].
  - by exists (S p), rest.
  - exists O, (b :: replicate p 0xBB ++ rest)%list. split; [done|]. by intros [= ->].
Qed.

(** The padding of a text that splits is skipped. *)
Lemma skip_padding_split p rest z : head rest <> Some 0xBB ->
  let mid := (replicate p 0xBB ++ rest)%list in
  skip_padding (length (0x6A :: mid ++ [z])%list) (0x6A :: mid ++ [z])%list 1 (1 + zlen mid) = Ok (1 + Z.of_nat p).
Proof.
  intros Hh mid. pose proof (zlen_nonneg mid).
  destruct (skip_padding_spec (length (0x6A :: mid ++ [z])%list) [0x6A] (mid ++ [z])%list (1 + zlen mid)) as (q & rest' & Hq & Hs & Hle & Hstop).
  - change (zlen [0x6A]) with 1. lia.
  - cbn [app]. rewrite zlen_cons, zlen_snoc. lia.
  - change (zlen [0x6A]) with 1. cbn [length]. rewrite length_app. unfold zlen. cbn [length]. lia.
  - change (zlen [0x6A]) with 1 in *. change ([0x6A] ++ mid ++ [z])%list with (0x6A :: mid ++ [z])%list in Hs. rewrite Hs.
    f_equal. f_equal. f_equal. unfold mid in *. rewrite <- app_assoc in Hq. rewrite zlen_app, zlen_replicate in *.
    destruct (Nat.lt_trichotomy p q) as [Hpq|[->|Hqp]]; [exfalso|done|exfalso].
    + replace q with (p + S (q - S p))%nat in Hq by lia. rewrite replicate_add, <- app_assoc in Hq. apply app_inv_head in Hq.
      cbn [replicate app] in Hq. destruct rest as [|b rest]; [rewrite zlen_nil in Hle; lia|]. injection Hq as -> _. by apply Hh.
    + replace p with (q + S (p - S q))%nat in Hq by lia. rewrite replicate_add, <- app_assoc in Hq. apply app_inv_head in Hq.
      apply Hstop; [pose proof (zlen_nonneg rest); lia|]. by rewrite <- Hq.
Qed.

(** The message of an encoding, by its padding. *)
Lemma scheme1_message_mid p rest : (p > 0)%nat \/ rest <> [] -> head rest <> Some 0xBB ->
  scheme1_message (0x6A :: (replicate p 0xBB ++ rest) ++ [0xBC])%list =
    match p with
    | O => Ok rest
    | S _ => match rest with 0 :: m => Ok m | _ => Err (iso_error "Invalid Scheme 1 padding separator") end
    end.
Proof.
  intros Hne Hh. pose proof (skip_padding_split p rest 0xBC Hh) as Hskip. cbv zeta in Hskip.
  set (mid := (replicate p 0xBB ++ rest)%list) in *.
  assert (Hn : zlen (0x6A :: mid ++ [0xBC])%list = zlen mid + 2) by (rewrite zlen_cons, zlen_snoc; lia).
  assert (Hmid : 1 <= zlen mid).
  { unfold mid. rewrite zlen_app, zlen_replicate. destruct Hne; [pose proof (zlen_nonneg rest); lia|].
    destruct rest; [done|]. rewrite zlen_cons. pose proof (zlen_nonneg rest). lia. }
  unfold scheme1_message. rewrite Hn, (proj2 (Z.ltb_ge _ _)) by lia. replace (zlen mid + 2 - 1) with (1 + zlen mid) by lia.
  rewrite (vec_index_at _ [] 0x6A (mid ++ [0xBC])%list 0) by done. cbn [mbind res_bind].
  rewrite (vec_index_at _ (0x6A :: mid) 0xBC [] (1 + zlen mid)) by (done || by rewrite zlen_cons). cbn [mbind res_bind].
  rewrite !Z.eqb_refl. cbn [andb ensure mbind res_bind]. rewrite Hskip. cbn [mbind res_bind]. unfold mid. destruct p as [|p].
  - cbn [replicate app]. rewrite (proj2 (Z.ltb_ge _ _)) by lia. cbn [mbind res_bind].
    apply (vec_slice_at _ [0x6A] rest [0xBC]); [done|done|]. change (zlen [0x6A]) with 1. done.
  - rewrite (proj2 (Z.ltb_lt _ _)) by lia.
    assert (Hlook : (0x6A :: (replicate (S p) 0xBB ++ rest) ++ [0xBC])%list !! Z.to_nat (1 + Z.of_nat (S p)) = (rest ++ [0xBC])%list !! 0%nat).
    { assert (Hassoc : (0x6A :: (replicate (S p) 0xBB ++ rest) ++ [0xBC])%list = ((0x6A :: replicate (S p) 0xBB) ++ rest ++ [0xBC])%list)
        by (by rewrite <- app_assoc).
      rewrite Hassoc, lookup_app_r; cbn [length]; rewrite length_replicate; [|lia]. f_equal. lia. }
    rewrite Hlook. destruct rest as [|b rest]; cbn [app lookup list_lookup]; [done|].
    case_bool_decide as Hb; [injection Hb as ->|]; cbn [ensure mbind res_bind]; [|by destruct b].
    apply (vec_slice_at _ (0x6A :: replicate (S p) 0xBB ++ [0])%list rest [0xBC]).
    + by rewrite <- !app_comm_cons, <- !app_assoc.
    + rewrite zlen_cons, zlen_snoc, zlen_replicate. lia.
    + rewrite zlen_cons, zlen_snoc, zlen_app, zlen_replicate, zlen_cons. lia.
Qed.

Lemma scheme1_message_Ok mid message : mid <> [] ->
  scheme1_message (0x6A :: mid ++ [0xBC])%list = Ok message <-> scheme1_encodes (0x6A :: mid ++ [0xBC])%list message.
Proof.
  intros Hmid. destruct (padding_split mid) as (p & rest & -> & Hh).
  rewrite scheme1_message_mid; [|destruct p; [right; intros ->; by apply Hmid|left; lia]|done]. split.
  - destruct p as [|p].
    + intros [= <-]. right. done.
    + destruct rest as [|[] rest]; try done. intros [= <-]. left. exists (S p). split; [lia|]. by rewrite <- app_assoc.
  - intros [(q & Hq & Heq)|(Heq & Hne & Hm)]; injection Heq as Heq.
    + rewrite (app_comm_cons message), app_assoc in Heq. apply app_inj_2 in Heq as [Heq _]; [|done].
      destruct (Nat.lt_trichotomy p q) as [Hpq|[->|Hqp]].
      * exfalso. replace q with (p + S (q - S p))%nat in Heq by lia. rewrite replicate_add, <- app_assoc in Heq.
        apply app_inv_head in Heq as ->. by apply Hh.
      * apply app_inv_head in Heq as ->. by destruct q; [lia|].
      * exfalso. replace p with (q + S (p - S q))%nat in Heq by lia. rewrite replicate_add, <- app_assoc in Heq.
        apply app_inv_head in Heq. done.
    + apply app_inj_2 in Heq as [Heq _]; [|done]. destruct p as [|p]; [cbn in Heq; by subst|]. subst message. by destruct Hm.
Qed.

Lemma encodes_shape em message : scheme1_encodes em message -> message <> [] ->
  exists mid, em = (0x6A :: mid ++ [0xBC])%list /\ mid <> [].
Proof.
  intros [(p & _ & ->)|(-> & Hne & _)] Hm.
  - exists (replicate p 0xBB ++ 0 :: message)%list. split; [by rewrite <- app_assoc|]. by destruct p.
  - by exists message.
Qed.

Section active.
Context `{IsoLib}.

(** What the verifier and the recovery see of a signature of the right length. *)
Lemma scheme1_verify_Ok key message signature em : recover_padded key signature = Ok em ->
  zlen signature = key_bytes_len key -> message <> [] -> 1 <= zlen em ->
  iso9796_scheme1_verify key message signature = Ok true <-> scheme1_encodes em message.
Proof.
  intros Hem Hlen Hne Hk. unfold iso9796_scheme1_verify, header_is, last_octet. rewrite Hlen, Z.eqb_refl, Hem. cbn [negb mbind res_bind].
  destruct (vec_index_in_range (E:=CryptoError) em 0) as (a & Ha & La); [lia|].
  destruct (vec_index_in_range (E:=CryptoError) em (zlen em - 1)) as (z & Hz & Lz); [lia|].
  rewrite Ha, Hz. cbn [mbind res_bind]. split.
  - destruct (Z.eqb_spec a 0x6A) as [->|]; [|done]. destruct (Z.eqb_spec z 0xBC) as [->|]; [|done]. cbn [negb orb].
    intros (m & Hm & [= Heq])%bind_Ok. apply bool_decide_eq_true in Heq as ->.
    destruct (Z.lt_ge_cases (zlen em) 3) as [Hs|Hs].
    { unfold scheme1_message in Hm. by rewrite (proj2 (Z.ltb_lt _ _)) in Hm by done. }
    destruct (between em 0x6A 0xBC) as [mid ->]; [lia|done|done|]. apply scheme1_message_Ok; [|done].
    intros ->. cbn in Hs. done.
  - intros Henc. destruct (encodes_shape _ _ Henc Hne) as (mid & -> & Hmid). injection La as <-.
    assert (z = 0xBC) as ->.
    { unfold zlen in Lz. cbn [length] in Lz. rewrite length_app in Lz. cbn [length] in Lz.
      replace (Z.to_nat _) with (S (length mid)) in Lz by lia. change ((mid ++ [0xBC])%list !! length mid = Some z) in Lz.
      rewrite list_lookup_middle in Lz by done. by injection Lz as <-. }
    rewrite !Z.eqb_refl. cbn [negb orb]. rewrite (proj2 (scheme1_message_Ok mid message Hmid) Henc). cbn [mbind res_bind].
    by rewrite bool_decide_true.
Qed.

Lemma scheme1_recover_Ok der key signature em message : rsa_from_spki der = inr key -> recover_padded key signature = Ok em ->
  zlen signature = key_bytes_len key -> message <> [] -> 1 <= zlen em -> scheme1_encodes em message ->
  iso9796_recover_message der signature Scheme1 None = Ok message.
Proof.
  intros Hder Hem Hlen Hne Hk Henc. unfold iso9796_recover_message, parse_rsa_key, header_is, last_octet. rewrite Hder.
  cbn [mbind res_bind]. rewrite Hlen, Z.eqb_refl. cbn [ensure mbind res_bind]. rewrite Hem. cbn [mbind res_bind].
  destruct (encodes_shape _ _ Henc Hne) as (mid & -> & Hmid).
  rewrite (vec_index_at _ [] 0x6A (mid ++ [0xBC])%list 0) by done. cbn [mbind res_bind].
  rewrite (vec_index_at _ (0x6A :: mid) 0xBC []); [|done|rewrite !zlen_cons, zlen_snoc; lia]. cbn [mbind res_bind].
  rewrite !Z.eqb_refl. cbn [andb ensure mbind res_bind]. by apply scheme1_message_Ok.
Qed.

Lemma scheme1_message_no_panic em : 1 <= zlen em -> no_panic (scheme1_message em).
Proof.
  intros Hk. destruct (Z.lt_ge_cases (zlen em) 3) as [Hs|Hs].
  { unfold scheme1_message. by rewrite (proj2 (Z.ltb_lt _ _)) by done. }
  destruct (vec_index_in_range (E:=CryptoError) em 0) as (a & Ha & La); [lia|].
  destruct (vec_index_in_range (E:=CryptoError) em (zlen em - 1)) as (z & Hz & Lz); [lia|].
  destruct (decide (a = 0x6A /\ z = 0xBC)) as [[-> ->]|Hbad].
  - destruct (between em 0x6A 0xBC) as [mid ->]; [lia|done|done|]. destruct (padding_split mid) as (p & rest & -> & Hh).
    rewrite scheme1_message_mid; [|destruct p; [right; intros ->; done|left; lia]|done].
    destruct p; [done|]. by destruct rest as [|[] rest].
  - unfold scheme1_message. rewrite (proj2 (Z.ltb_ge _ _)), Ha, Hz by lia. cbn [mbind res_bind].
    destruct (Z.eqb_spec a 0x6A), (Z.eqb_spec z 0xBC); try done. exfalso. auto.
Qed.

Lemma key_len_pos key : 0 < rsa_n key -> 1 <= key_bytes_len key.
Proof. intros Hn. rewrite key_len_log by done. pose proof (Z.div_pos (Z.log2 (rsa_n key)) 8 (Z.log2_nonneg _)). lia. Qed.

Lemma verify_challenge_no_panic der key challenge signature h : rsa_from_spki der = inr key -> 0 < rsa_n key ->
  no_panic (verify_challenge der challenge signature h).
Proof.
  intros Hder Hn. destruct (recover_padded_spec key signature Hn) as (em & Hem & _ & Hlen & _). pose proof (key_len_pos key Hn) as Hk.
  destruct (vec_index_in_range (E:=CryptoError) em 0) as (a & Ha & _); [lia|].
  destruct (vec_index_in_range (E:=CryptoError) em (zlen em - 1)) as (z & Hz & _); [lia|].
  unfold verify_challenge. apply bind_no_panic; [apply ensure_no_panic|]. intros [] _. apply bind_no_panic.
  - apply map_err_no_panic. unfold iso9796_verify, parse_rsa_key, iso9796_scheme1_verify, header_is, last_octet. rewrite Hder.
    cbn [mbind res_bind]. destruct (_ =? _); [|done]. cbn [negb]. rewrite Hem. cbn [mbind res_bind]. rewrite Ha, Hz. cbn [mbind res_bind].
    destruct (_ || _); [done|]. apply bind_no_panic; [apply scheme1_message_no_panic; lia|done].
  - intros valid _. destruct valid; [|done]. cbn [negb]. apply bind_no_panic; [|done]. apply map_err_no_panic.
    unfold iso9796_recover_message, parse_rsa_key, header_is, last_octet. rewrite Hder. cbn [mbind res_bind].
    destruct (_ =? _); [|done]. cbn [ensure mbind res_bind]. rewrite Hem. cbn [mbind res_bind]. rewrite Ha, Hz. cbn [mbind res_bind].
    destruct (_ && _); [|done]. cbn [ensure mbind res_bind]. apply scheme1_message_no_panic. lia.
Qed.

(** The signature of a key, as an encoding: as many octets as the key has, that hold
    the value of the RSA permutation. *)
Definition signature_encodes (key : RsaKey) (signature em : bytes) : Prop :=
  bytes_ok em /\ zlen em = key_bytes_len key /\ be_value em = be_value signature ^ rsa_e key mod rsa_n key.

(** C26: Active authentication never panics for a key with a positive modulus; it accepts a
    signature exactly when it has the length of the key and the RSA permutation
    gives the octets 6A, the challenge and BC, with padding BB and a zero between
    when there is room; and whatever is reported valid recovered the challenge
    that was sent. *)
Theorem active_authentication_exact der key challenge signature h : rsa_from_spki der = inr key -> 0 < rsa_n key -> challenge <> [] ->
  no_panic (verify_challenge der challenge signature h) /\
  ((exists r, verify_challenge der challenge signature h = Ok r /\ aa_is_valid r = true) <->
   zlen signature = key_bytes_len key /\ exists em, signature_encodes key signature em /\ scheme1_encodes em challenge) /\
  forall r, verify_challenge der challenge signature h = Ok r -> aa_is_valid r = true -> r = mkAaVerification true (Some challenge).
Proof.
  intros Hder Hn Hne. split; [by eapply verify_challenge_no_panic|].
  destruct (recover_padded_spec key signature Hn) as (em & Hem & Hok & Hlen & Hv). pose proof (key_len_pos key Hn) as Hk.
  assert (Hch : ensure (negb (zlen challenge =? 0)) (internal "Active Authentication challenge must not be empty") = Ok tt).
  { destruct challenge; [done|]. rewrite zlen_cons. pose proof (zlen_nonneg challenge). by rewrite (proj2 (Z.eqb_neq _ _)) by lia. }
  assert (Hone : forall r, verify_challenge der challenge signature h = Ok r -> aa_is_valid r = true ->
    r = mkAaVerification true (Some challenge) /\ zlen signature = key_bytes_len key /\ scheme1_encodes em challenge).
  { intros r Hr Hvalid. unfold verify_challenge in Hr. rewrite Hch in Hr. cbn [mbind res_bind] in Hr.
    apply bind_Ok in Hr as (valid & Hval%map_err_Ok & Hr). destruct valid; [|injection Hr as <-; done]. cbn [negb] in Hr.
    apply bind_Ok in Hr as (m & _ & [= <-]). cbn [aa_is_valid] in Hvalid. apply bool_decide_eq_true in Hvalid as ->.
    rewrite bool_decide_true by done. split; [done|]. unfold iso9796_verify, parse_rsa_key in Hval. rewrite Hder in Hval.
    cbn [mbind res_bind] in Hval. destruct (Z.eqb_spec (zlen signature) (key_bytes_len key)) as [Hsl|Hsl].
    - split; [done|]. by apply (scheme1_verify_Ok key challenge signature em) in Hval; [|done..|lia].
    - unfold iso9796_scheme1_verify in Hval. by rewrite (proj2 (Z.eqb_neq _ _)) in Hval. }
  split; [|intros r Hr Hvalid; by apply (Hone r)]. split.
  - intros (r & Hr & Hvalid). destruct (Hone r Hr Hvalid) as (_ & Hsl & Henc). split; [done|]. by exists em.
  - intros [Hsl (em' & (Hok' & Hlen' & Hv') & Henc)].
    assert (em' = em) as -> by (apply be_value_inj; [done|done|unfold zlen in *; lia|congruence]).
    exists (mkAaVerification true (Some challenge)). split; [|done]. unfold verify_challenge. rewrite Hch. cbn [mbind res_bind].
    unfold iso9796_verify, parse_rsa_key. rewrite Hder. cbn [mbind res_bind].
    rewrite (proj2 (scheme1_verify_Ok key challenge signature em Hem Hsl Hne ltac:(lia)) Henc). cbn [from_crypto map_err mbind res_bind negb].
    rewrite (scheme1_recover_Ok der key signature em challenge Hder Hem Hsl Hne ltac:(lia) Henc). cbn [from_crypto map_err mbind res_bind].
    by rewrite bool_decide_true.
Qed.
End active.

(** ** Concrete keys *)

Module ToyRsa.
(** Two keys with exponent 3, and a digest of the right size. *)
Definition short_key : RsaKey := mkRsaKey 55733658433130593 3.
Definition long_key : RsaKey := mkRsaKey 370844311112942256807178483902182605966208151258023745560854339 3.
#[local] Instance toy_iso : IsoLib := {
  iso_digest h m := replicate (Z.to_nat (hash_size h)) 7;
  rsa_from_spki der := if bool_decide (der = [1]) then inr short_key else if bool_decide (der = [2]) then inr long_key else inl "key";
}.

Definition chip_signature : bytes := [119; 74; 84; 28; 114; 253; 182].
Definition chip_em : bytes := [0x6A; 0xBB; 0xBB; 0; 0x42; 0x43; 0xBC].

Lemma chip_encodes : signature_encodes short_key chip_signature chip_em.
Proof.
  split_and!; [|vm_compute; reflexivity..]. unfold bytes_ok, byte_ok. apply (bool_decide_unpack _). vm_compute. reflexivity.
Qed.
Lemma chip_scheme1 : scheme1_encodes chip_em [0x42; 0x43].
Proof. left. exists 2%nat. split; [lia|reflexivity]. Qed.

Lemma active_authentication_exact_witness :
  exists r, verify_challenge [1] [0x42; 0x43] chip_signature IsoSha256 = Ok r /\ aa_is_valid r = true.
Proof.
  assert (Hkey : rsa_from_spki [1] = inr short_key) by (vm_compute; reflexivity).
  assert (Hlen : zlen chip_signature = key_bytes_len short_key) by (vm_compute; reflexivity).
  exact (proj2 (proj1 (proj2 (active_authentication_exact [1] short_key [0x42; 0x43] chip_signature IsoSha256 Hkey eq_refl
    ltac:(discriminate)))) (conj Hlen (ex_intro _ chip_em (conj chip_encodes chip_scheme1)))).
Defined.

(** The two-octet trailer of the second scheme is not compared with the hash: any
    last octet after a zero is accepted. *)
Example trailer_not_checked :
  iso9796_verify [2] [0x42] [208; 39; 183; 218; 194; 110; 43; 56; 81; 66; 140; 242; 41; 15; 60; 206; 55; 69; 78; 80; 153; 225; 255; 187; 146; 39]
    Scheme2 IsoSha1 = Ok true /\
  recover_padded long_key [208; 39; 183; 218; 194; 110; 43; 56; 81; 66; 140; 242; 41; 15; 60; 206; 55; 69; 78; 80; 153; 225; 255; 187; 146; 39] =
    Ok ([0x6A; 0xBB; 0; 0x42] ++ replicate 20 7 ++ [0; 0x99])%list /\ trailer IsoSha1 <> 0x99.
Proof. split; [vm_compute; reflexivity|]. split; [vm_compute; reflexivity|discriminate]. Qed.

(** A key shorter than the hash makes the recovery subtract below zero. *)
Example short_key_panics : iso9796_recover_message [1] chip_signature Scheme2 (Some IsoSha256) = Panic.
Proof. vm_compute. reflexivity. Qed.
End ToyRsa.
