(* ===== verification/BiometricTemplate.v ===== *)
(** * Biometric templates of passports (marty-verification,
    [emrtd_data/biometric.rs])

    The fixed-layout records of facial images, fingerprints and irises, and the
    report of their quality over [f64]. *)

From stdpp Require Import pretty.
From Stdlib Require Import Floats.SpecFloat.
From S2P Require Import Prelude Governance RustF64 ElementaryFile.
Local Open Scope string_scope.
Local Open Scope Z_scope.

#[local] Abbreviation bytes := (list Z).
#[local] Abbreviation result := (res EmrtdDataError).

(** [src/marty-verification/src/emrtd_data/biometric.rs:5-5] COMMON_HEADER_BYTES *)
Definition COMMON_HEADER_BYTES : Z := 14.

(** [src/marty-verification/src/emrtd_data/biometric.rs:7-15] BiometricType *)
Inductive BiometricType := FacialImage | Fingerprint | Iris | Voice | Dna.
#[export] Instance BiometricType_eq_dec : EqDecision BiometricType.
Proof. solve_decision. Defined.

(** [src/marty-verification/src/emrtd_data/biometric.rs:18-26] BiometricType::code *)
Definition biometric_code (t : BiometricType) : Z :=
  match t with FacialImage => 0x02 | Fingerprint => 0x08 | Iris => 0x10 | Voice => 0x04 | Dna => 0x20 end.

(** [format!("0x{value:02X}")]. *)
Definition hex_02X (n : Z) : string := if n <? 16 then "0x0" +:+ hex_X n else "0x" +:+ hex_X n.

(** [src/marty-verification/src/emrtd_data/biometric.rs:28-39] BiometricType::from_code *)
Definition biometric_from_code (value : Z) : result BiometricType :=
  if value =? 0x02 then Ok FacialImage else if value =? 0x08 then Ok Fingerprint else if value =? 0x10 then Ok Iris
  else if value =? 0x04 then Ok Voice else if value =? 0x20 then Ok Dna
  else Err (EdUnsupported ("unsupported biometric type code: " +:+ hex_02X value)).

(** [src/marty-verification/src/emrtd_data/biometric.rs:42-50] ImageFormat *)
Inductive ImageFormat := Jpeg | Jpeg2000 | Png | Bmp | Wsq.
#[export] Instance ImageFormat_eq_dec : EqDecision ImageFormat.
Proof. solve_decision. Defined.

(** [src/marty-verification/src/emrtd_data/biometric.rs:53-61] ImageFormat::code *)
Definition image_code (f : ImageFormat) : Z :=
  match f with Jpeg => 0 | Jpeg2000 => 1 | Png => 2 | Bmp => 3 | Wsq => 4 end.

(** [src/marty-verification/src/emrtd_data/biometric.rs:63-74] ImageFormat::from_code *)
Definition image_from_code (value : Z) : result ImageFormat :=
  if value =? 0 then Ok Jpeg else if value =? 1 then Ok Jpeg2000 else if value =? 2 then Ok Png
  else if value =? 3 then Ok Bmp else if value =? 4 then Ok Wsq
  else Err (EdUnsupported ("unsupported biometric image format: " +:+ hex_02X value)).

(** [src/marty-verification/src/emrtd_data/biometric.rs:77-86] BiometricHeader *)
Record BiometricHeader := mkBioHeader {
  bh_format_owner : Z; bh_format_type : Z; bh_type : BiometricType; bh_subtype : Z;
  bh_creation_date : option string; bh_validity_period : option (string * string); bh_creator : option string;
}.

(** [src/marty-verification/src/emrtd_data/biometric.rs:88-100] FacialImageTemplate *)
Record FacialImageTemplate := mkFacial {
  fa_header : BiometricHeader; fa_image_format : ImageFormat; fa_width : Z; fa_height : Z; fa_color_space : Z;
  fa_source_type : Z; fa_device_type : Z; fa_quality : Z; fa_image_data : bytes; fa_feature_points : option (list (Z * Z));
}.

(** [src/marty-verification/src/emrtd_data/biometric.rs:102-115] FingerprintTemplate *)
Record FingerprintTemplate := mkFingerprint {
  fp_header : BiometricHeader; fp_impression_type : Z; fp_quality : Z; fp_position : Z; fp_width : Z; fp_height : Z;
  fp_resolution_x : Z; fp_resolution_y : Z; fp_compression : Z; fp_minutiae : list Value; fp_image_data : option bytes;
}.

(** [src/marty-verification/src/emrtd_data/biometric.rs:117-131] IrisTemplate *)
Record IrisTemplate := mkIris {
  ir_header : BiometricHeader; ir_eye_position : Z; ir_image_format : ImageFormat; ir_width : Z; ir_height : Z;
  ir_depth : Z; ir_range : Z; ir_roll_angle : Z; ir_center_x : Z; ir_center_y : Z; ir_radius : Z; ir_image_data : bytes;
}.

(** [src/marty-verification/src/emrtd_data/biometric.rs:133-139] BiometricTemplate *)
Inductive BiometricTemplate :=
| TemplateFacial (t : FacialImageTemplate) | TemplateFingerprint (t : FingerprintTemplate) | TemplateIris (t : IrisTemplate).

(** [src/marty-verification/src/emrtd_data/biometric.rs:141-146] QualityReport *)
Record QualityReport := mkQuality { overall_quality : spec_float; q_issues : list string; q_recommendations : list string }.

(** [src/marty-verification/src/emrtd_data/biometric.rs:339-341] be_u16 *)
Definition be_u16 (data : bytes) (offset : Z) : result Z :=
  h ← vec_index data offset;
  l ← vec_index data (offset + 1);
  Ok (from_be16 h l).

(** [src/marty-verification/src/emrtd_data/biometric.rs:163-176] parse_common_header *)
Definition parse_common_header (data : bytes) : result BiometricHeader :=
  header ← ok_or (get_range data 0 COMMON_HEADER_BYTES) (EdTruncated "biometric common header");
  owner ← be_u16 header 0;
  format ← be_u16 header 2;
  code ← vec_index header 4;
  ty ← biometric_from_code code;
  subtype ← vec_index header 5;
  Ok (mkBioHeader owner format ty subtype None None None).

(** [format!("{:?}")] of the type. *)
Definition type_debug (t : BiometricType) : string :=
  match t with FacialImage => "FacialImage" | Fingerprint => "Fingerprint" | Iris => "Iris" | Voice => "Voice" | Dna => "Dna" end.

(** [src/marty-verification/src/emrtd_data/biometric.rs:178-186] require_header_type *)
Definition require_header_type (header : BiometricHeader) (expected : BiometricType) : result unit :=
  ensure (bool_decide (bh_type header = expected))
    (EdInvalidFormat ("biometric header type " +:+ type_debug (bh_type header) +:+ " does not match requested type "
                      +:+ type_debug expected)).

(** The fields after the common header, and what follows them. *)
Definition template_fields (data : bytes) (n : Z) (kind : string) : result bytes :=
  ok_or (get_range data COMMON_HEADER_BYTES (COMMON_HEADER_BYTES + n)) (EdTruncated kind).
Definition template_rest (data : bytes) (n : Z) : result bytes := vec_slice data (COMMON_HEADER_BYTES + n) (zlen data).

(** [src/marty-verification/src/emrtd_data/biometric.rs:188-213] parse_facial *)
Definition parse_facial (data : bytes) : result FacialImageTemplate :=
  header ← parse_common_header data;
  _ ← require_header_type header FacialImage;
  fields ← template_fields data 14 "facial image fields";
  quality ← be_u16 fields 10;
  _ ← ensure (negb (100 <? quality)) (EdInvalidFormat "facial quality must be between 0 and 100");
  width ← be_u16 fields 0;
  height ← be_u16 fields 2;
  color_space ← be_u16 fields 4;
  source_type ← be_u16 fields 6;
  device_type ← be_u16 fields 8;
  code ← vec_index fields 12;
  image_format ← image_from_code code;
  image_data ← template_rest data 14;
  Ok (mkFacial header image_format width height color_space source_type device_type quality image_data None).

(** [src/marty-verification/src/emrtd_data/biometric.rs:215-241] parse_fingerprint *)
Definition parse_fingerprint (data : bytes) : result FingerprintTemplate :=
  header ← parse_common_header data;
  _ ← require_header_type header Fingerprint;
  fields ← template_fields data 14 "fingerprint fields";
  quality ← vec_index fields 1;
  _ ← ensure (negb (100 <? quality)) (EdInvalidFormat "fingerprint quality must be between 0 and 100");
  image ← template_rest data 14;
  impression ← vec_index fields 0;
  position ← vec_index fields 2;
  width ← be_u16 fields 4;
  height ← be_u16 fields 6;
  resolution_x ← be_u16 fields 8;
  resolution_y ← be_u16 fields 10;
  compression ← vec_index fields 12;
  Ok (mkFingerprint header impression quality position width height resolution_x resolution_y compression []
        (match image with [] => None | _ => Some image end)).

(** [src/marty-verification/src/emrtd_data/biometric.rs:243-264] parse_iris *)
Definition parse_iris (data : bytes) : result IrisTemplate :=
  header ← parse_common_header data;
  _ ← require_header_type header Iris;
  fields ← template_fields data 17 "iris fields";
  eye_position ← vec_index fields 0;
  code ← vec_index fields 1;
  image_format ← image_from_code code;
  width ← be_u16 fields 2;
  height ← be_u16 fields 4;
  depth ← vec_index fields 6;
  range ← be_u16 fields 7;
  roll_angle ← be_u16 fields 9;
  center_x ← be_u16 fields 11;
  center_y ← be_u16 fields 13;
  radius ← be_u16 fields 15;
  image_data ← template_rest data 17;
  Ok (mkIris header eye_position image_format width height depth range roll_angle center_x center_y radius image_data).

(** [src/marty-verification/src/emrtd_data/biometric.rs:148-161] parse_biometric_template *)
Definition parse_biometric_template (data : bytes) (biometric_type : BiometricType) : result BiometricTemplate :=
  _ ← ensure_bounded data "biometric template";
  match biometric_type with
  | FacialImage => t ← parse_facial data; Ok (TemplateFacial t)
  | Fingerprint => t ← parse_fingerprint data; Ok (TemplateFingerprint t)
  | Iris => t ← parse_iris data; Ok (TemplateIris t)
  | other => Err (EdUnsupported ("unsupported biometric template type: " +:+ type_debug other))
  end.

(** Decimal literals of [f64]. *)
Definition f64_lit (mantissa exponent : Z) : spec_float := f64_of_decimal false mantissa exponent.

(** [src/marty-verification/src/emrtd_data/biometric.rs:324-337] QualityReport::new and QualityReport::issue, then [overall_quality *= factor] *)
Definition quality_new (q : spec_float) : QualityReport := mkQuality q [] [].
Definition quality_issue (issue recommendation : string) (factor : option spec_float) (r : QualityReport) : QualityReport :=
  mkQuality (match factor with Some f => f64_mul (overall_quality r) f | None => overall_quality r end)
    (q_issues r ++ [issue])%list (q_recommendations r ++ [recommendation])%list.
Definition when (b : bool) (f : QualityReport -> QualityReport) (r : QualityReport) : QualityReport := if b then f r else r.

(** [src/marty-verification/src/emrtd_data/biometric.rs:266-322] validate_template_quality *)
Definition validate_template_quality (template : BiometricTemplate) : QualityReport :=
  match template with
  | TemplateFacial t =>
      when (negb (match fa_image_format t with Jpeg | Jpeg2000 => true | _ => false end))
        (quality_issue "Non-standard image format" "Use JPEG or JPEG2000 format" None)
        (when ((fa_width t <? 240) || (fa_height t <? 320))
           (quality_issue "Image resolution below ICAO recommendations" "Use higher resolution image (min 240x320)"
              (Some (f64_lit 8 (-1))))
           (quality_new (f64_div (f64_of_usize (fa_quality t)) (f64_of_usize 100))))
  | TemplateFingerprint t =>
      when (zlen (fp_minutiae t) <? 12)
        (quality_issue "Insufficient minutiae points for reliable matching" "Capture more minutiae points (minimum 12)"
           (Some (f64_lit 6 (-1))))
        (when ((fp_resolution_x t <? 500) || (fp_resolution_y t <? 500))
           (quality_issue "Resolution below FBI standards (500 ppi)" "Use 500+ ppi resolution for fingerprints"
              (Some (f64_lit 7 (-1))))
           (quality_new (f64_div (f64_of_usize (fp_quality t)) (f64_of_usize 100))))
  | TemplateIris t =>
      when (ir_radius t <? 50)
        (quality_issue "Iris appears too small in image" "Move closer to capture device" (Some (f64_lit 7 (-1))))
        (when ((ir_width t <? 640) || (ir_height t <? 480))
           (quality_issue "Iris image resolution below recommended standards" "Use higher resolution for iris capture"
              (Some (f64_lit 8 (-1))))
           (quality_new (f64_lit 8 (-1))))
  end.
