(* ===== verification/BiometricTemplateFacts.v ===== *)
(** * Biometric templates of passports: theorems

    Every template is read back from its fixed layout, no record makes the parser
    panic, and the quality that is reported stays between zero and one. *)

From Stdlib Require Import Floats.SpecFloat.
From S2P Require Import Prelude Governance RustF64 ElementaryFile ElementaryFileFacts BiometricTemplate.
Local Open Scope string_scope.
Local Open Scope Z_scope.

#[local] Abbreviation bytes := (list Z).

Example eight_tenths : f64_lit 8 (-1) = S754_finite false 7205759403792794 (-53).
Proof. vm_compute. reflexivity. Qed.

(** ** Layouts *)

Definition u16_ok (n : Z) : Prop := 0 <= n < 65536.
Definition header_bytes (h : BiometricHeader) (reserved : bytes) : bytes :=
  (be16 (bh_format_owner h) ++ be16 (bh_format_type h) ++ [biometric_code (bh_type h); bh_subtype h] ++ reserved)%list.
Definition plain_header (h : BiometricHeader) : Prop :=
  u16_ok (bh_format_owner h) /\ u16_ok (bh_format_type h) /\
  bh_creation_date h = None /\ bh_validity_period h = None /\ bh_creator h = None.

(** The records, with their reserved octets. *)
Definition template_bytes (t : BiometricTemplate) (reserved : bytes) (pad : Z) : bytes :=
  match t with
  | TemplateFacial t =>
      (header_bytes (fa_header t) reserved ++ be16 (fa_width t) ++ be16 (fa_height t) ++ be16 (fa_color_space t)
       ++ be16 (fa_source_type t) ++ be16 (fa_device_type t) ++ be16 (fa_quality t) ++ [image_code (fa_image_format t); pad]
       ++ fa_image_data t)%list
  | TemplateFingerprint t =>
      (header_bytes (fp_header t) reserved ++ [fp_impression_type t; fp_quality t; fp_position t; pad]
       ++ be16 (fp_width t) ++ be16 (fp_height t) ++ be16 (fp_resolution_x t) ++ be16 (fp_resolution_y t)
       ++ [fp_compression t; pad] ++ default [] (fp_image_data t))%list
  | TemplateIris t =>
      (header_bytes (ir_header t) reserved ++ [ir_eye_position t; image_code (ir_image_format t)]
       ++ be16 (ir_width t) ++ be16 (ir_height t) ++ [ir_depth t] ++ be16 (ir_range t) ++ be16 (ir_roll_angle t)
       ++ be16 (ir_center_x t) ++ be16 (ir_center_y t) ++ be16 (ir_radius t) ++ ir_image_data t)%list
  end.

Definition template_type (t : BiometricTemplate) : BiometricType :=
  match t with TemplateFacial _ => FacialImage | TemplateFingerprint _ => Fingerprint | TemplateIris _ => Iris end.

(** A template whose fields fit their octets. *)
Definition template_wf (t : BiometricTemplate) : Prop :=
  match t with
  | TemplateFacial t =>
      plain_header (fa_header t) /\ bh_type (fa_header t) = FacialImage /\ 0 <= fa_quality t <= 100 /\ fa_feature_points t = None /\
      u16_ok (fa_width t) /\ u16_ok (fa_height t) /\ u16_ok (fa_color_space t) /\ u16_ok (fa_source_type t) /\ u16_ok (fa_device_type t)
  | TemplateFingerprint t =>
      plain_header (fp_header t) /\ bh_type (fp_header t) = Fingerprint /\ fp_quality t <= 100 /\ fp_minutiae t = [] /\
      fp_image_data t <> Some [] /\
      u16_ok (fp_width t) /\ u16_ok (fp_height t) /\ u16_ok (fp_resolution_x t) /\ u16_ok (fp_resolution_y t)
  | TemplateIris t =>
      plain_header (ir_header t) /\ bh_type (ir_header t) = Iris /\
      u16_ok (ir_width t) /\ u16_ok (ir_height t) /\ u16_ok (ir_range t) /\ u16_ok (ir_roll_angle t) /\
      u16_ok (ir_center_x t) /\ u16_ok (ir_center_y t) /\ u16_ok (ir_radius t)
  end.

Lemma biometric_from_to t : biometric_from_code (biometric_code t) = Ok t.
Proof. by destruct t. Qed.
Lemma image_from_to f : image_from_code (image_code f) = Ok f.
Proof. by destruct f. Qed.

Lemma zlen_be16 n : zlen (be16 n) = 2.
Proof. done. Qed.

Lemma header_bytes_length h reserved : length reserved = 8%nat -> zlen (header_bytes h reserved) = 14.
Proof. intros Hr. unfold header_bytes. rewrite !zlen_app, !zlen_be16, !zlen_cons, zlen_nil. unfold zlen. lia. Qed.

(** Two octets of a list whose spine is known. *)
Lemma be_u16_reads (data : bytes) i n : data !! Z.to_nat i = Some ((n / 256) mod 256) -> data !! Z.to_nat (i + 1) = Some (n mod 256) ->
  u16_ok n -> 0 <= i -> be_u16 data i = Ok n.
Proof.
  intros H1 H2 Hn Hi. unfold be_u16, vec_index. rewrite (proj2 (Z.ltb_ge i 0)), (proj2 (Z.ltb_ge (i + 1) 0)), H1, H2 by lia.
  cbn [expect mbind res_bind]. by rewrite from_be16_be16.
Qed.

Lemma octet_reads (data : bytes) i b : data !! Z.to_nat i = Some b -> 0 <= i -> vec_index (E:=EmrtdDataError) data i = Ok b.
Proof. intros Hb Hi. by apply vec_index_Ok. Qed.

Lemma parse_header_reads h reserved rest : plain_header h -> length reserved = 8%nat ->
  parse_common_header (header_bytes h reserved ++ rest) = Ok h.
Proof.
  intros (Ho & Hf & Hc & Hv & Hcr) Hr. unfold parse_common_header, COMMON_HEADER_BYTES.
  rewrite (get_range_app [] (header_bytes h reserved) rest); [|done|by rewrite header_bytes_length]. cbn [ok_or mbind res_bind].
  rewrite (be_u16_reads _ 0 (bh_format_owner h)) by done. cbn [mbind res_bind].
  rewrite (be_u16_reads _ 2 (bh_format_type h)) by done. cbn [mbind res_bind].
  rewrite (octet_reads _ 4 (biometric_code (bh_type h))) by done. cbn [mbind res_bind]. rewrite biometric_from_to. cbn [mbind res_bind].
  rewrite (octet_reads _ 5 (bh_subtype h)) by done. cbn [mbind res_bind]. destruct h; cbn in *. by subst.
Qed.

Lemma template_parts (h fields rest : bytes) n : zlen h = 14 -> zlen fields = n ->
  (forall kind, template_fields (h ++ fields ++ rest) n kind = Ok fields) /\ template_rest (h ++ fields ++ rest) n = Ok rest.
Proof.
  intros Hh Hf. unfold template_fields, template_rest, COMMON_HEADER_BYTES. split.
  - intros kind. rewrite (get_range_app h fields rest) by lia. done.
  - apply (vec_slice_at _ (h ++ fields) rest []); [by rewrite app_nil_r, <- app_assoc|rewrite zlen_app; lia|].
    rewrite !zlen_app. lia.
Qed.

(** The fields of the three records. *)
Lemma facial_reads t reserved pad : template_wf (TemplateFacial t) -> length reserved = 8%nat ->
  parse_facial (template_bytes (TemplateFacial t) reserved pad) = Ok t.
Proof.
  intros (Hh & Hty & Hq & Hfp & Hw & Hht & Hc & Hs & Hd) Hr. unfold parse_facial. cbn [template_bytes].
  rewrite parse_header_reads by done. cbn [mbind res_bind]. unfold require_header_type. rewrite Hty, bool_decide_true by done.
  cbn [ensure mbind res_bind].
  set (fields := (be16 (fa_width t) ++ be16 (fa_height t) ++ be16 (fa_color_space t) ++ be16 (fa_source_type t)
    ++ be16 (fa_device_type t) ++ be16 (fa_quality t) ++ [image_code (fa_image_format t); pad])%list).
  destruct (template_parts (header_bytes (fa_header t) reserved) fields (fa_image_data t) 14) as [Hfields Hrest];
    [by apply header_bytes_length|done|].
  assert (Happ : (header_bytes (fa_header t) reserved ++ be16 (fa_width t) ++ be16 (fa_height t) ++ be16 (fa_color_space t)
       ++ be16 (fa_source_type t) ++ be16 (fa_device_type t) ++ be16 (fa_quality t) ++ [image_code (fa_image_format t); pad]
       ++ fa_image_data t)%list = (header_bytes (fa_header t) reserved ++ fields ++ fa_image_data t)%list)
    by (unfold fields; by rewrite <- !app_assoc).
  rewrite Happ, Hfields, Hrest. cbn [mbind res_bind].
  rewrite (be_u16_reads fields 10 (fa_quality t)) by (done || (unfold u16_ok; lia)). cbn [mbind res_bind].
  rewrite (proj2 (Z.ltb_ge _ _)) by lia. cbn [negb ensure mbind res_bind].
  rewrite (be_u16_reads fields 0 (fa_width t)), (be_u16_reads fields 2 (fa_height t)), (be_u16_reads fields 4 (fa_color_space t)),
    (be_u16_reads fields 6 (fa_source_type t)), (be_u16_reads fields 8 (fa_device_type t)), (octet_reads fields 12 (image_code (fa_image_format t)))
    by done.
  cbn [mbind res_bind]. rewrite image_from_to. cbn [mbind res_bind]. destruct t; cbn in *. by subst.
Qed.

Lemma fingerprint_reads t reserved pad : template_wf (TemplateFingerprint t) -> length reserved = 8%nat ->
  parse_fingerprint (template_bytes (TemplateFingerprint t) reserved pad) = Ok t.
Proof.
  intros (Hh & Hty & Hq & Hmin & Himg & Hw & Hht & Hx & Hy) Hr. unfold parse_fingerprint. cbn [template_bytes].
  rewrite parse_header_reads by done. cbn [mbind res_bind]. unfold require_header_type. rewrite Hty, bool_decide_true by done.
  cbn [ensure mbind res_bind].
  set (fields := ([fp_impression_type t; fp_quality t; fp_position t; pad] ++ be16 (fp_width t) ++ be16 (fp_height t)
    ++ be16 (fp_resolution_x t) ++ be16 (fp_resolution_y t) ++ [fp_compression t; pad])%list).
  destruct (template_parts (header_bytes (fp_header t) reserved) fields (default [] (fp_image_data t)) 14) as [Hfields Hrest];
    [by apply header_bytes_length|done|].
  assert (Happ : (header_bytes (fp_header t) reserved ++ [fp_impression_type t; fp_quality t; fp_position t; pad]
       ++ be16 (fp_width t) ++ be16 (fp_height t) ++ be16 (fp_resolution_x t) ++ be16 (fp_resolution_y t)
       ++ [fp_compression t; pad] ++ default [] (fp_image_data t))%list =
     (header_bytes (fp_header t) reserved ++ fields ++ default [] (fp_image_data t))%list)
    by (unfold fields; by rewrite <- !app_assoc).
  rewrite Happ, Hfields, Hrest. cbn [mbind res_bind]. rewrite (octet_reads fields 1 (fp_quality t)) by done. cbn [mbind res_bind].
  rewrite (proj2 (Z.ltb_ge _ _)) by lia. cbn [negb ensure mbind res_bind].
  rewrite (octet_reads fields 0 (fp_impression_type t)), (octet_reads fields 2 (fp_position t)), (octet_reads fields 12 (fp_compression t)),
    (be_u16_reads fields 4 (fp_width t)), (be_u16_reads fields 6 (fp_height t)), (be_u16_reads fields 8 (fp_resolution_x t)),
    (be_u16_reads fields 10 (fp_resolution_y t)) by done.
  cbn [mbind res_bind]. destruct t as [? ? ? ? ? ? ? ? ? mins img]; cbn in *. subst. f_equal. f_equal. by destruct img as [[|]|].
Qed.

Lemma iris_reads t reserved pad : template_wf (TemplateIris t) -> length reserved = 8%nat ->
  parse_iris (template_bytes (TemplateIris t) reserved pad) = Ok t.
Proof.
  intros (Hh & Hty & Hw & Hht & Hra & Hro & Hcx & Hcy & Hrad) Hr. unfold parse_iris. cbn [template_bytes].
  rewrite parse_header_reads by done. cbn [mbind res_bind]. unfold require_header_type. rewrite Hty, bool_decide_true by done.
  cbn [ensure mbind res_bind].
  set (fields := ([ir_eye_position t; image_code (ir_image_format t)] ++ be16 (ir_width t) ++ be16 (ir_height t) ++ [ir_depth t]
    ++ be16 (ir_range t) ++ be16 (ir_roll_angle t) ++ be16 (ir_center_x t) ++ be16 (ir_center_y t) ++ be16 (ir_radius t))%list).
  destruct (template_parts (header_bytes (ir_header t) reserved) fields (ir_image_data t) 17) as [Hfields Hrest];
    [by apply header_bytes_length|done|].
  assert (Happ : (header_bytes (ir_header t) reserved ++ [ir_eye_position t; image_code (ir_image_format t)]
       ++ be16 (ir_width t) ++ be16 (ir_height t) ++ [ir_depth t] ++ be16 (ir_range t) ++ be16 (ir_roll_angle t)
       ++ be16 (ir_center_x t) ++ be16 (ir_center_y t) ++ be16 (ir_radius t) ++ ir_image_data t)%list =
     (header_bytes (ir_header t) reserved ++ fields ++ ir_image_data t)%list) by (unfold fields; by rewrite <- !app_assoc).
  rewrite Happ, Hfields, Hrest. cbn [mbind res_bind].
  rewrite (octet_reads fields 0 (ir_eye_position t)), (octet_reads fields 1 (image_code (ir_image_format t))) by done.
  cbn [mbind res_bind]. rewrite image_from_to. cbn [mbind res_bind].
  rewrite (be_u16_reads fields 2 (ir_width t)), (be_u16_reads fields 4 (ir_height t)), (octet_reads fields 6 (ir_depth t)),
    (be_u16_reads fields 7 (ir_range t)), (be_u16_reads fields 9 (ir_roll_angle t)), (be_u16_reads fields 11 (ir_center_x t)),
    (be_u16_reads fields 13 (ir_center_y t)), (be_u16_reads fields 15 (ir_radius t)) by done.
  cbn [mbind res_bind]. by destruct t.
Qed.

(** ** Panics *)

Lemma be_u16_no_panic (data : bytes) i : 0 <= i -> i + 1 < zlen data -> no_panic (be_u16 data i).
Proof.
  intros Hi Hl. unfold be_u16. destruct (vec_index_in_range (E:=EmrtdDataError) data i) as (h & -> & _); [lia|]. cbn [mbind res_bind].
  by destruct (vec_index_in_range (E:=EmrtdDataError) data (i + 1)) as (l & -> & _); [lia|].
Qed.

Lemma octet_no_panic (data : bytes) i : 0 <= i < zlen data -> no_panic (vec_index (E:=EmrtdDataError) data i).
Proof. intros Hi. by destruct (vec_index_in_range (E:=EmrtdDataError) data i Hi) as (b & -> & _). Qed.

Lemma image_no_panic c : no_panic (image_from_code c).
Proof. unfold image_from_code. by repeat (destruct (_ =? _); [done|]). Qed.

Lemma template_fields_Ok data n kind fields : 0 <= n -> template_fields data n kind = Ok fields ->
  zlen fields = n /\ no_panic (template_rest data n).
Proof.
  intros Hn Hf%ok_or_Ok. apply get_range_Some in Hf as (Hr & Hlen & _). split; [lia|].
  unfold template_rest, vec_slice, get_range. rewrite !(proj2 (Z.leb_le _ _)) by (unfold COMMON_HEADER_BYTES in *; lia). done.
Qed.

Lemma header_no_panic data : no_panic (parse_common_header data).
Proof.
  unfold parse_common_header. apply bind_no_panic; [apply ok_or_no_panic|]. intros h Hh%ok_or_Ok. apply get_range_Some in Hh as (_ & Hl & _).
  unfold COMMON_HEADER_BYTES in Hl.
  apply bind_no_panic; [apply be_u16_no_panic; lia|]. intros o _. apply bind_no_panic; [apply be_u16_no_panic; lia|]. intros f _.
  apply bind_no_panic; [apply octet_no_panic; lia|]. intros c _. apply bind_no_panic.
  { unfold biometric_from_code. by repeat (destruct (_ =? _); [done|]). }
  intros ty _. apply bind_no_panic; [apply octet_no_panic; lia|done].
Qed.

Ltac template_no_panic := repeat (apply bind_no_panic;
  [first [apply be_u16_no_panic; lia | apply octet_no_panic; lia | apply ensure_no_panic | apply image_no_panic | done]|intros ? _]).

Lemma templates_no_panic data : no_panic (parse_facial data) /\ no_panic (parse_fingerprint data) /\ no_panic (parse_iris data).
Proof.
  assert (Hstart : forall {A} n kind ty (k : BiometricHeader -> bytes -> res EmrtdDataError A), 0 <= n ->
    (forall h fields, zlen fields = n -> no_panic (template_rest data n) -> no_panic (k h fields)) ->
    no_panic (header ← parse_common_header data; _ ← require_header_type header ty;
              fields ← template_fields data n kind; k header fields)).
  { intros A n kind ty k Hn Hk. apply bind_no_panic; [apply header_no_panic|]. intros h _. apply bind_no_panic; [apply ensure_no_panic|].
    intros [] _. apply bind_no_panic; [apply ok_or_no_panic|]. intros fields Hf. apply template_fields_Ok in Hf as [Hl Hr]; [|done]. auto. }
  split_and!; (apply Hstart; [lia|]); intros h fields Hl Hr; template_no_panic; done.
Qed.

(** No record makes the parser of templates panic, and every template whose fields fit
    their octets is read back from its fixed layout, whatever the reserved octets are. *)
Theorem biometric_roundtrip t reserved pad data ty :
  no_panic (parse_biometric_template data ty) /\
  (template_wf t -> length reserved = 8%nat -> zlen (template_bytes t reserved pad) <= MAX_EMRTD_DATA_BYTES ->
   parse_biometric_template (template_bytes t reserved pad) (template_type t) = Ok t).
Proof.
  split.
  - destruct (templates_no_panic data) as (Hf & Hp & Hi). unfold parse_biometric_template.
    apply bind_no_panic; [unfold ensure_bounded; solve_no_panic|]. intros [] _. destruct ty; solve_no_panic; by apply bind_no_panic.
  - intros Hwf Hr Hmax. unfold parse_biometric_template.
    assert (Hb : ensure_bounded (template_bytes t reserved pad) "biometric template" = Ok tt).
    { apply ensure_bounded_Ok. split; [|done].
      assert (14 <= zlen (template_bytes t reserved pad)); [|lia].
      destruct t as [t|t|t]; cbn [template_bytes]; rewrite zlen_app, header_bytes_length by done;
        match goal with |- _ <= 14 + zlen ?l => pose proof (zlen_nonneg l); lia end. }
    rewrite Hb. cbn [mbind res_bind]. destruct t as [t|t|t]; cbn [template_type].
    + by rewrite facial_reads.
    + by rewrite fingerprint_reads.
    + by rewrite iris_reads.
Qed.

(** ** Quality *)

Definition unit_range (x : spec_float) : bool := f64_is_finite x && f64_le (S754_zero false) x && f64_le x (f64_of_usize 1).

(** A quality in percent, times the factors that apply. *)
Definition reduced (q : Z) (factors : list spec_float) : spec_float :=
  foldl f64_mul (f64_div (f64_of_usize q) (f64_of_usize 100)) factors.

Lemma reduced_table : forallb (fun q =>
    unit_range (reduced (Z.of_nat q) []) && unit_range (reduced (Z.of_nat q) [f64_lit 8 (-1)]) &&
    unit_range (reduced (Z.of_nat q) [f64_lit 7 (-1)]) && unit_range (reduced (Z.of_nat q) [f64_lit 6 (-1)]) &&
    unit_range (reduced (Z.of_nat q) [f64_lit 7 (-1); f64_lit 6 (-1)])) (seq 0 101) = true.
Proof. vm_compute. reflexivity. Qed.

Lemma reduced_range q factors : 0 <= q <= 100 ->
  factors ∈ [[]; [f64_lit 8 (-1)]; [f64_lit 7 (-1)]; [f64_lit 6 (-1)]; [f64_lit 7 (-1); f64_lit 6 (-1)]] ->
  unit_range (reduced q factors) = true.
Proof.
  intros Hq Hf. pose proof reduced_table as Ht. rewrite forallb_forall in Ht.
  specialize (Ht (Z.to_nat q)). rewrite Z2Nat.id in Ht by lia.
  assert (Hin : In (Z.to_nat q) (seq 0 101)) by (apply in_seq; lia). apply Ht in Hin. rewrite !andb_true_iff in Hin.
  repeat (apply elem_of_cons in Hf as [->|Hf]; [tauto|]). by apply elem_of_nil in Hf.
Qed.

Lemma iris_table : forallb unit_range
  [f64_lit 8 (-1); f64_mul (f64_lit 8 (-1)) (f64_lit 8 (-1)); f64_mul (f64_lit 8 (-1)) (f64_lit 7 (-1));
   f64_mul (f64_mul (f64_lit 8 (-1)) (f64_lit 8 (-1))) (f64_lit 7 (-1))] = true.
Proof. vm_compute. reflexivity. Qed.

(** The quality reported for any template that the parser accepts is a finite number
    between zero and one, and there is a recommendation for every issue. *)
Theorem quality_bounded data ty t : bytes_ok data -> parse_biometric_template data ty = Ok t ->
  unit_range (overall_quality (validate_template_quality t)) = true /\
  length (q_issues (validate_template_quality t)) = length (q_recommendations (validate_template_quality t)).
Proof.
  intros Hok ([] & _ & Hp)%bind_Ok.
  assert (Hq : match t with
               | TemplateFacial t => 0 <= fa_quality t <= 100
               | TemplateFingerprint t => 0 <= fp_quality t <= 100 /\ fp_minutiae t = []
               | TemplateIris _ => True end).
  { assert (Hbyte : forall fields i b, template_fields data 14 "" = Ok fields -> vec_index (E:=EmrtdDataError) fields i = Ok b -> 0 <= b).
    { intros fields i b Hf%ok_or_Ok [_ Hb]%vec_index_Ok. apply get_range_Some in Hf as (_ & _ & Hd). rewrite Hd in Hok.
      apply Forall_app in Hok as [_ Hok]. apply Forall_app in Hok as [Hok _]. apply (Forall_lookup_1 _ _ _ _ Hok) in Hb. unfold byte_ok in Hb. lia. }
    destruct ty; try done; apply bind_Ok in Hp as (t' & Ht & [= <-]); [| |done].
    - unfold parse_facial in Ht. do 2 apply bind_Ok in Ht as (? & _ & Ht). apply bind_Ok in Ht as (fields & Hf & Ht).
      apply bind_Ok in Ht as (q & Hq & Ht). apply bind_Ok in Ht as ([] & H100%ensure_Ok & Ht).
      do 8 apply bind_Ok in Ht as (? & _ & Ht). injection Ht as <-. cbn [fa_quality]. breflect.
      apply bind_Ok in Hq as (h & Hh & Hq). apply bind_Ok in Hq as (l & Hl & [= <-]). unfold from_be16 in *.
      assert (template_fields data 14 "" = Ok fields) as Hf' by (unfold template_fields in *; apply ok_or_Ok in Hf; by rewrite Hf).
      pose proof (Hbyte _ _ _ Hf' Hh). pose proof (Hbyte _ _ _ Hf' Hl). lia.
    - unfold parse_fingerprint in Ht. do 2 apply bind_Ok in Ht as (? & _ & Ht). apply bind_Ok in Ht as (fields & Hf & Ht).
      apply bind_Ok in Ht as (q & Hq & Ht). apply bind_Ok in Ht as ([] & H100%ensure_Ok & Ht).
      do 8 apply bind_Ok in Ht as (? & _ & Ht). injection Ht as <-. cbn [fp_quality fp_minutiae]. breflect.
      assert (template_fields data 14 "" = Ok fields) as Hf' by (unfold template_fields in *; apply ok_or_Ok in Hf; by rewrite Hf).
      pose proof (Hbyte _ _ _ Hf' Hq). split; [lia|done]. }
  clear Hp. pose proof iris_table as Hi. cbn [forallb] in Hi. rewrite !andb_true_iff in Hi.
  destruct t as [t|t|t]; cbn [validate_template_quality]; unfold when, quality_issue, quality_new.
  - assert (R0 : unit_range (reduced (fa_quality t) []) = true) by (apply reduced_range; [done|by left]).
    assert (R1 : unit_range (reduced (fa_quality t) [f64_lit 8 (-1)]) = true) by (apply reduced_range; [done|by right; left]).
    destruct (_ || _); [clear R0|clear R1]; destruct (fa_image_format t); cbn [negb overall_quality q_issues q_recommendations length app];
      split; try reflexivity; assumption.
  - destruct Hq as [Hq ->].
    assert (R0 : unit_range (reduced (fp_quality t) [f64_lit 6 (-1)]) = true) by (apply reduced_range; [done|by do 3 right; left]).
    assert (R1 : unit_range (reduced (fp_quality t) [f64_lit 7 (-1); f64_lit 6 (-1)]) = true)
      by (apply reduced_range; [done|by do 4 right; left]).
    change (zlen (A:=Value) [] <? 12) with true. cbv iota.
    destruct (_ || _); [clear R0|clear R1]; cbn [overall_quality q_issues q_recommendations length app]; (split; [assumption|reflexivity]).
  - destruct (ir_radius t <? 50), (_ || _); cbn [overall_quality q_issues q_recommendations length app]; split; try done; tauto.
Qed.

(** ** A concrete record *)

Definition sample_facial : BiometricTemplate :=
  TemplateFacial (mkFacial (mkBioHeader 257 8 FacialImage 0 None None None) Jpeg 480 640 1 2 0 85 [255; 216; 255] None).

Lemma biometric_roundtrip_witness :
  parse_biometric_template (template_bytes sample_facial (replicate 8 0) 0) FacialImage = Ok sample_facial.
Proof.
  assert (Hwf : template_wf sample_facial) by (cbn; unfold plain_header, u16_ok; cbn; lia || (split_and!; done || lia)).
  exact (proj2 (biometric_roundtrip sample_facial (replicate 8 0) 0 [] Iris) Hwf eq_refl ltac:(vm_compute; discriminate)).
Defined.

Lemma quality_bounded_witness : unit_range (overall_quality (validate_template_quality sample_facial)) = true.
Proof.
  assert (Hok : bytes_ok (template_bytes sample_facial (replicate 8 0) 0))
    by (unfold bytes_ok, byte_ok; apply (bool_decide_unpack _); vm_compute; reflexivity).
  assert (Hp : parse_biometric_template (template_bytes sample_facial (replicate 8 0) 0) FacialImage = Ok sample_facial)
    by (vm_compute; reflexivity).
  exact (proj1 (quality_bounded _ FacialImage sample_facial Hok Hp)).
Defined.
