(* ===== verification/VcdmIssuance.v ===== *)
(** * VCDM 2 documents at the issuance boundary (marty-verification, [vcdm.rs])

    The validation of an unsigned credential before it is signed, with the stable
    error codes of the service, and the digests of related resources.  Hashes,
    base64 and the RFC 3339 parser are parameters. *)

From S2P Require Import Prelude Governance PolicyService EvidencePolicy CryptoKit DeviceAuth.
Local Open Scope string_scope.
Local Open Scope Z_scope.

#[local] Abbreviation JsonMap := (list (string * Value)).
#[local] Abbreviation result := (res string).

(** [src/marty-verification/src/vcdm.rs:43-44] VCDM_V2_BASE_CONTEXT and VCDM_V2_EXAMPLES_CONTEXT *)
Definition VCDM_V2_BASE_CONTEXT : string := "https://www.w3.org/ns/credentials/v2".
Definition VCDM_V2_EXAMPLES_CONTEXT : string := "https://www.w3.org/ns/credentials/examples/v2".

(** [src/marty-verification/src/vcdm.rs:50-59] PROTECTED_VCDM_TERMS *)
Definition PROTECTED_VCDM_TERMS : list string :=
  ["VerifiableCredential"; "VerifiablePresentation"; "credentialSubject"; "issuer"; "proof"; "type"; "id"; "@context"].

(** ** Values *)

(** [Value::get] with a text: the member of an object. *)
Definition value_get (key : string) (v : Value) : option Value := as_object v ≫= map_get key.

(** [str::split_once] at a character. *)
Fixpoint split_once (c : Ascii.ascii) (s : string) : option (string * string) :=
  match s with
  | EmptyString => None
  | String a rest =>
      if Ascii.eqb a c then Some (EmptyString, rest)
      else '(x, y) ← split_once c rest; Some (String a x, y)
  end.

(** [chars().any(char::is_whitespace)], on the UTF-8 bytes of a text. *)
Fixpoint any_whitespace (s : list Z) : bool :=
  match s with
  | [] => false
  | a :: r =>
      ws1 a || match r with
               | b :: r' => ws2 a b || match r' with c :: _ => ws3 a b c | [] => false end
               | [] => false
               end || any_whitespace r
  end.

Definition is_ascii_alpha (b : Z) : bool := ((65 <=? b) && (b <=? 90)) || ((97 <=? b) && (b <=? 122)).
Definition is_ascii_alnum (b : Z) : bool := is_ascii_alpha b || ((48 <=? b) && (b <=? 57)).

(** [src/marty-verification/src/vcdm.rs:403-421] is_absolute_uri *)
Definition is_absolute_uri (value : Value) : bool :=
  match value with
  | VString s =>
      if any_whitespace (str_bytes s) then false
      else match split_once ":" s with
           | None => false
           | Some (scheme, rest) =>
               negb (String.eqb rest "")
               && match str_bytes scheme with b :: _ => is_ascii_alpha b | [] => false end
               && forallb (fun b => is_ascii_alnum b || (b =? 43) || (b =? 46) || (b =? 45)) (str_bytes scheme)
           end
  | _ => false
  end.

(** [src/marty-verification/src/vcdm.rs:538-543] one_or_many *)
Definition one_or_many (value : Value) : list Value := match value with Array values => values | v => [v] end.

(** [src/marty-verification/src/vcdm.rs:512-530] is_language_value *)
Fixpoint is_language_value (value : Value) : bool :=
  match value with
  | VString _ => true
  | Array values =>
      negb (match values with [] => true | _ => false end)
      && forallb (fun item => match item with Array _ => false | _ => is_language_value item end) values
  | Object es =>
      match map_get "@value" es with Some (VString _) => true | _ => false end
      && forallb (fun e => one_of e.1 ["@value"; "@language"; "@direction"]
                           && (String.eqb e.1 "@value" || match e.2 with VString _ => true | _ => false end)) es
  | _ => false
  end.

(** ** Contexts and types *)

(** [src/marty-verification/src/vcdm.rs:439-458] context_term_map, the terms of one object *)
Fixpoint object_terms (es : JsonMap) (terms : gmap string string) : result (gmap string string) :=
  match es with
  | [] => Ok terms
  | (term, target) :: es =>
      _ ← ensure (negb (one_of term PROTECTED_VCDM_TERMS)) "invalid_context";
      if str_starts_with term "@" then object_terms es terms
      else
        let target := default target (value_get "@id" target) in
        _ ← ensure (is_absolute_uri target) "invalid_context";
        object_terms es (<[term := default "" (as_str target)]> terms)
  end.

(** [src/marty-verification/src/vcdm.rs:425-462] context_term_map, the loop over the further items *)
Fixpoint context_terms (items : list Value) (terms : gmap string string) : result (gmap string string) :=
  match items with
  | [] => Ok terms
  | item :: items =>
      match item with
      | VString value =>
          _ ← ensure (is_absolute_uri item) "invalid_context";
          context_terms items
            (if String.eqb value VCDM_V2_EXAMPLES_CONTEXT
             then <["RelationshipCredential" := "https://www.w3.org/ns/credentials/examples#RelationshipCredential"]> terms
             else terms)
      | Object es => terms ← object_terms es terms; context_terms items terms
      | _ => Err "invalid_context"
      end
  end.

(** [src/marty-verification/src/vcdm.rs:423-464] context_term_map *)
Definition context_term_map (context : list Value) : result (gmap string string) := context_terms (drop 1 context) ∅.

(** [src/marty-verification/src/vcdm.rs:466-492] validate_issuance_type *)
Definition validate_issuance_type (value : option Value) (terms : gmap string string) (required : option string) : result unit :=
  let values := match value with Some v => one_or_many v | None => [] end in
  _ ← ensure (negb (match values with [] => true | _ => false end
                    || existsb (fun item => match as_str item with Some s => String.eqb s "" | None => true end) values))
        "invalid_type";
  _ ← ensure (match required with
              | Some r => existsb (fun item => bool_decide (as_str item = Some r)) values
              | None => true
              end) "invalid_type";
  ensure (forallb (fun item => let s := default "" (as_str item) in
            is_absolute_uri (VString s) || one_of s PROTECTED_VCDM_TERMS || bool_decide (is_Some (terms !! s))) values)
    "invalid_type".

(** [src/marty-verification/src/vcdm.rs:503-508] validate_typed_resource, the loop *)
Fixpoint typed_resources (items : list Value) (terms : gmap string string) (require_id : bool) : result unit :=
  match items with
  | [] => Ok tt
  | item :: items =>
      _ ← validate_issuance_type (value_get "type" item) terms None;
      _ ← ensure (negb (require_id && match value_get "id" item with Some v => negb (is_absolute_uri v) | None => true end))
            "invalid_resource";
      typed_resources items terms require_id
  end.

(** [src/marty-verification/src/vcdm.rs:494-510] validate_typed_resource *)
Definition validate_typed_resource (value : Value) (terms : gmap string string) (require_id : bool) : result unit :=
  let values := one_or_many value in
  _ ← ensure (negb (match values with [] => true | _ => false end
                    || existsb (fun item => negb (bool_decide (is_Some (as_object item)))) values)) "invalid_resource";
  typed_resources values terms require_id.

(** ** The document *)

(** [src/marty-verification/src/vcdm.rs:230-241] validate_vcdm_issuance_document, the issuer *)
Definition validate_issuer (object : JsonMap) (issuer_did : option string) : result unit :=
  match map_get "issuer" object with
  | None => Ok tt
  | Some issuer =>
      let issuer_id := default issuer (value_get "id" issuer) in
      _ ← ensure (is_absolute_uri issuer_id) "invalid_issuer";
      ensure (match issuer_did with Some expected => bool_decide (as_str issuer_id = Some expected) | None => true end)
        "issuer_did_mismatch"
  end.

(** [src/marty-verification/src/vcdm.rs:243-264] validate_vcdm_issuance_document, the subjects *)
Definition validate_subjects (object : JsonMap) : result unit :=
  subjects ← ok_or (map_get "credentialSubject" object) "invalid_subject";
  let values := one_or_many subjects in
  _ ← ensure (negb (match values with [] => true | _ => false end
                    || existsb (fun s => match as_object s with Some (_ :: _) => false | _ => true end) values))
        "invalid_subject";
  ensure (forallb (fun s => match value_get "id" s with Some v => is_absolute_uri v | None => true end) values)
    "invalid_subject".

Section documents.
Context `{Rfc3339}.

(** [src/marty-verification/src/vcdm.rs:532-536] is_rfc3339_datetime *)
Definition is_rfc3339_datetime (value : Value) : bool :=
  match as_str value with Some s => bool_decide (is_Some (parse_rfc3339 s)) | None => false end.

(** [src/marty-verification/src/vcdm.rs:266-285] validate_vcdm_issuance_document, the validity *)
Definition validate_validity (object : JsonMap) : result unit :=
  _ ← ensure (forallb (fun name => match map_get name object with Some v => is_rfc3339_datetime v | None => true end)
                ["validFrom"; "validUntil"]) "invalid_validity";
  match map_get "validFrom" object ≫= as_str, map_get "validUntil" object ≫= as_str with
  | Some valid_from, Some valid_until =>
      valid_from ← ok_or (parse_rfc3339 valid_from) "invalid_validity";
      valid_until ← ok_or (parse_rfc3339 valid_until) "invalid_validity";
      ensure (negb (valid_until <? valid_from)) "invalid_validity"
  | _, _ => Ok tt
  end.

(** [src/marty-verification/src/vcdm.rs:287-305] validate_vcdm_issuance_document, the typed members *)
Definition validate_resources (object : JsonMap) (terms : gmap string string) : result unit :=
  _ ← match map_get "credentialStatus" object with
      | Some statuses =>
          _ ← validate_typed_resource statuses terms false;
          ensure (forallb (fun status => match value_get "id" status with Some v => is_absolute_uri v | None => true end)
                    (one_or_many statuses)) "invalid_status"
      | None => Ok tt
      end;
  let optional name require_id :=
    match map_get name object with Some resource => validate_typed_resource resource terms require_id | None => Ok tt end in
  _ ← optional "credentialSchema" true;
  _ ← optional "termsOfUse" false;
  _ ← optional "refreshService" false;
  optional "evidence" false.

(** [src/marty-verification/src/vcdm.rs:313-332] validate_vcdm_issuance_document, the loop over related resources *)
Fixpoint related_resources (items : list Value) (seen : list string) : result unit :=
  match items with
  | [] => Ok tt
  | item :: items =>
      resource ← ok_or (as_object item) "invalid_related_resource";
      resource_id ← ok_or (map_get "id" resource ≫= as_str) "invalid_related_resource";
      _ ← ensure (negb (negb (is_absolute_uri (VString resource_id)) || one_of resource_id seen)) "invalid_related_resource";
      _ ← ensure (match (match map_get "digestSRI" resource with
                         | Some v => Some v | None => map_get "digestMultibase" resource end) with
                  | Some (VString _) => true | _ => false end) "invalid_related_resource";
      related_resources items (resource_id :: seen)
  end.

(** [src/marty-verification/src/vcdm.rs:307-333] validate_vcdm_issuance_document, the related resources *)
Definition validate_related (object : JsonMap) : result unit :=
  match map_get "relatedResource" object with
  | Some resources =>
      let resources := one_or_many resources in
      _ ← ensure (negb (match resources with [] => true | _ => false end)) "invalid_related_resource";
      related_resources resources []
  | None => Ok tt
  end.

(** [src/marty-verification/src/vcdm.rs:335-352] validate_vcdm_issuance_document, the names and descriptions *)
Definition language_members_ok (object : JsonMap) : bool :=
  forallb (fun name => match map_get name object with Some v => is_language_value v | None => true end) ["name"; "description"].
Definition validate_language (object : JsonMap) : result unit :=
  _ ← ensure (language_members_ok object) "invalid_language_value";
  ensure (match map_get "issuer" object ≫= as_object with Some issuer => language_members_ok issuer | None => true end)
    "invalid_language_value".

(** [src/marty-verification/src/vcdm.rs:210-219] validate_vcdm_issuance_document, the context *)
Definition document_context (object : JsonMap) : result (list Value) :=
  ok_or (context ← map_get "@context" object ≫= as_array;
         if bool_decide (head context ≫= as_str = Some VCDM_V2_BASE_CONTEXT) then Some context else None)
    "invalid_context".

(** [src/marty-verification/src/vcdm.rs:198-354] validate_vcdm_issuance_document *)
Definition validate_vcdm_issuance_document (credential : Value) (issuer_did : option string) : result unit :=
  object ← ok_or (match as_object credential with Some (e :: es) => Some (e :: es) | _ => None end) "invalid_credential";
  _ ← ensure (negb (contains_key "proof" object)) "credential_must_be_unsigned";
  context ← document_context object;
  terms ← context_term_map context;
  _ ← validate_issuance_type (map_get "type" object) terms (Some "VerifiableCredential");
  _ ← ensure (match map_get "id" object with Some v => is_absolute_uri v | None => true end) "invalid_id";
  _ ← validate_issuer object issuer_did;
  _ ← validate_subjects object;
  _ ← validate_validity object;
  _ ← validate_resources object terms;
  _ ← validate_related object;
  validate_language object.
End documents.

(** ** Digests of related resources *)

(** [base64] with the standard alphabet and padding. *)
Class StdBase64 := { std_encode : list Z -> string; std_decode : string -> option (list Z) }.

Section digests.
Context `{StdBase64} `{Base64Url} `{Sha2}.

(** [src/marty-verification/src/vcdm.rs:382-387] validate_vcdm_related_resource_digests, the digest of a subresource *)
Definition sri_digest (algorithm : string) (content : list Z) : option string :=
  if String.eqb algorithm "sha256" then Some (std_encode (sha256_of content))
  else if String.eqb algorithm "sha384" then Some (std_encode (sha384_of content))
  else if String.eqb algorithm "sha512" then Some (std_encode (sha512_of content))
  else None.

(** [src/marty-verification/src/vcdm.rs:378-398] validate_vcdm_related_resource_digests, one resource *)
Definition check_digests (resource : JsonMap) (content : list Z) : result unit :=
  _ ← match map_get "digestSRI" resource ≫= as_str with
      | Some digest_sri =>
          '(algorithm, expected) ← ok_or (split_once "-" digest_sri) "invalid_related_resource";
          actual ← ok_or (sri_digest algorithm content) "invalid_related_resource";
          ensure (String.eqb actual expected) "related_resource_digest_mismatch"
      | None => Ok tt
      end;
  match map_get "digestMultibase" resource ≫= as_str with
  | Some expected =>
      ensure (String.eqb ("u" +:+ b64_encode (sha256_of content)) expected) "related_resource_digest_mismatch"
  | None => Ok tt
  end.

(** [src/marty-verification/src/vcdm.rs:363-399] validate_vcdm_related_resource_digests, the loop *)
Fixpoint digest_loop (items : list Value) (contents : gmap string string) : result unit :=
  match items with
  | [] => Ok tt
  | item :: items =>
      resource ← ok_or (as_object item) "invalid_related_resource";
      resource_id ← ok_or (map_get "id" resource ≫= as_str) "invalid_related_resource";
      encoded_content ← ok_or (contents !! resource_id) "related_resource_unavailable";
      content ← ok_or (std_decode encoded_content) "related_resource_unavailable";
      _ ← check_digests resource content;
      digest_loop items contents
  end.

(** [src/marty-verification/src/vcdm.rs:356-401] validate_vcdm_related_resource_digests *)
Definition validate_vcdm_related_resource_digests (credential : Value) (contents : gmap string string) : result unit :=
  match value_get "relatedResource" credential with
  | Some resources => digest_loop (one_or_many resources) contents
  | None => Ok tt
  end.
End digests.
