(* ===== verification/Vcdm.v ===== *)
(** * VCDM 2 data integrity and JWT credentials (marty-verification, [vcdm.rs])

    Preparation and completion of credentials that a remote service signs, the
    verification of credentials and presentations with data integrity proofs, and
    of VC-JWTs, with the Open Badges profile.  The SSI libraries (canonicalization,
    proofs, keys and [did:key]) and [serde_json] are parameters; clock readings
    are arguments. *)

From stdpp Require Import pretty.
From Stdlib Require Import Floats.SpecFloat.
From S2P Require Import Prelude Des Governance RustF64 PolicyService EvidencePolicy CryptoKit DeviceAuth Issuance JwtVc VcdmIssuance.
Local Open Scope string_scope.
Local Open Scope Z_scope.

#[local] Abbreviation bytes := (list Z).
#[local] Abbreviation JsonMap := (list (string * Value)).
#[local] Abbreviation result := (res string).

(** [src/marty-verification/src/vcdm.rs:45-49] MAX_DATA_INTEGRITY_COMPLETION_REQUEST_BYTES, ED25519_SIGNATURE_BYTES and ED25519_UNPADDED_BASE64_BYTES *)
Definition MAX_DATA_INTEGRITY_COMPLETION_REQUEST_BYTES : Z := 1048576.
Definition ED25519_SIGNATURE_BYTES : Z := 64.
Definition ED25519_UNPADDED_BASE64_BYTES : Z := 86.

(** ** Requests and results *)

(** [src/marty-verification/src/vcdm.rs:61-67] ValidateIssuanceDocumentRequest *)
Record ValidateIssuanceDocumentRequest := mkIssuanceReq { vi_credential : Value; vi_issuer_did : option string }.

(** [src/marty-verification/src/vcdm.rs:69-74] ValidateRelatedResourceDigestsRequest *)
Record ValidateRelatedResourceDigestsRequest := mkDigestsReq { vr_credential : Value; vr_resource_contents : gmap string string }.

(** [src/marty-verification/src/vcdm.rs:92-97] ResolvedVerificationMethod *)
Record ResolvedVerificationMethod := mkResolved { rm_id : string; rm_controller : string; rm_public_jwk : Value }.

(** [src/marty-verification/src/vcdm.rs:76-90] VerifyRequest *)
Record VerifyRequest := mkVerifyReq {
  vq_document : Value;
  vq_expected_challenge : option string;
  vq_expected_domain : option string;
  vq_resolved : list ResolvedVerificationMethod;
}.

(** [src/marty-verification/src/vcdm.rs:99-106] VerifyResult *)
Record VerifyResult := mkVerifyResult {
  vs_valid : bool; vs_kind : string; verified_proofs : Z; verified_credentials : Z; vs_errors : list string;
}.

(** [src/marty-verification/src/vcdm.rs:108-115] VerifyJwtRequest *)
Record VerifyJwtRequest := mkVerifyJwtReq { vj_token : string; vj_issuer_public_jwk : option Value }.

(** [src/marty-verification/src/vcdm.rs:117-124] VerifyJwtResult *)
Record VerifyJwtResult := mkVerifyJwtResult {
  jr_valid : bool; jr_algorithm : option string; jr_issuer : option string; jr_claims : option Value; jr_errors : list string;
}.

(** [src/marty-verification/src/vcdm.rs:126-132] PrepareDataIntegrityCredentialRequest *)
Record PrepareRequest := mkPrepareReq {
  pr_credential : Value; pr_issuer_did : string; pr_method_id : string; pr_public_jwk : Value;
}.

(** [src/marty-verification/src/vcdm.rs:134-142] PreparedDataIntegrityCredential *)
Record PreparedDataIntegrityCredential := mkPreparedDi {
  pd_credential : Value; pd_issuer_did : string; pd_method_id : string; pd_public_jwk : Value;
  pd_algorithm : string; pd_signing_input_b64 : string;
}.

(** [src/marty-verification/src/vcdm.rs:144-148] CompleteDataIntegrityCredentialRequest *)
Record CompleteRequest := mkCompleteReq { cr_prepared : PreparedDataIntegrityCredential; cr_signature_b64 : string }.

(** [src/marty-verification/src/vcdm.rs:150-154] CapturedSigningInput *)
Record CapturedSigningInput := mkCaptured { cap_algorithm : string; cap_message : bytes }.

(** ** The SSI libraries *)

(** A verification method with an Ed25519 key, and how a document refers to one. *)
Record Multikey := mkMultikey { mk_id : string; mk_controller : string; mk_key : bytes }.
Inductive MethodRef := NoMethod | Reference (id : string) | Owned (m : Multikey).

(** A call of a message signer: the method, the algorithm, the protocol (its debug
    name) and the message that the protocol prepared. *)
Record SignCall := mkSignCall { call_method : string; call_algorithm : string; call_protocol : string; call_message : bytes }.
Inductive MessageSignatureError := UnsupportedAlgorithm (m : string) | InvalidResponse.

Inductive SsiVerdict := SsiValid | SsiInvalid (m : string) | SsiError (m : string).
Record JwsHeader := mkJwsHeader { jws_algorithm : string; jws_key_id : option string }.

(** [ssi], [ed25519_dalek], [iref], [bs58] and the bundled JSON-LD contexts. *)
Class Ssi := {
  SsiJwk : Type;
  SsiDocument : Type;
  jwk_from_json : Value -> string + SsiJwk;
  jwk_to_json : SsiJwk -> string + Value;
  jwk_params : SsiJwk -> JwkParams;
  verifying_key : bytes -> string + bytes;
  iri_new : string -> string + unit;
  uri_new : string -> string + unit;
  context_loader : string + unit;
  plain_credential : Value -> string + SsiDocument;
  signed_credential : Value -> string + SsiDocument;
  signed_presentation : Value -> string + SsiDocument;
  sign_with : forall St : Type, (St -> SignCall -> St * option (MessageSignatureError + bytes)) -> St ->
    SsiDocument -> gmap string Multikey -> string -> St * (string + SsiDocument);
  document_to_json : SsiDocument -> string + Value;
  map_resolver : gmap string Multikey -> MethodRef -> string + Multikey;
  did_key_resolver : MethodRef -> string + Multikey;
  validate_proof : (MethodRef -> string + Multikey) -> SsiDocument -> SsiVerdict;
  verify_document : (MethodRef -> string + Multikey) -> SsiDocument -> SsiVerdict;
  jws_decode_unverified : string -> string + (JwsHeader * bytes);
  jws_decode_verify : string -> SsiJwk -> string + (JwsHeader * bytes);
  did_key_jwk : string -> string + SsiJwk;
  bs58_encode : bytes -> string;
}.

(** [serde_json]: the requests and values read from text, and the text of a value. *)
Class VcdmSerde := {
  read_issuance_request : string -> option ValidateIssuanceDocumentRequest;
  read_digests_request : string -> option ValidateRelatedResourceDigestsRequest;
  read_verify_request : string -> string + VerifyRequest;
  read_jwt_request : string -> string + VerifyJwtRequest;
  read_prepare_request : string -> string + PrepareRequest;
  read_complete_request : string -> string + CompleteRequest;
  read_value : bytes -> string + Value;
  write_value : Value -> string + string;
  number_as_f64 : string -> option spec_float;
}.

Definition lift_with {A} (context : string) (r : string + A) : result A :=
  match r with inr a => Ok a | inl e => Err (context +:+ e) end.

(** ** Documents *)

(** [src/marty-verification/src/vcdm.rs:1476-1482] has_type *)
Definition has_type (document : Value) (expected : string) : bool :=
  match value_get "type" document with
  | Some (VString value) => String.eqb value expected
  | Some (Array values) => existsb (fun v => bool_decide (as_str v = Some expected)) values
  | _ => false
  end.

Definition has_colon (s : string) : bool := bool_decide (is_Some (split_once ":" s)).

(** [src/marty-verification/src/vcdm.rs:1484-1493] identifier *)
Definition identifier (document : Value) (name : string) : option string :=
  match value_get name document with
  | Some (VString value) => if has_colon value then Some value else None
  | Some (Object es) => id ← map_get "id" es ≫= as_str; if has_colon id then Some id else None
  | _ => None
  end.

(** [src/marty-verification/src/vcdm.rs:1239-1246] has_v2_context *)
Definition has_v2_context (document : Value) : bool :=
  match value_get "@context" document with
  | Some (VString value) => String.eqb value VCDM_V2_BASE_CONTEXT
  | Some (Array values) => bool_decide (head values ≫= as_str = Some VCDM_V2_BASE_CONTEXT)
  | _ => false
  end.

(** The part of a DID URL before the fragment. *)
Definition did_of (url : string) : option string := fst <$> split_once "#" url.

(** [src/marty-verification/src/vcdm.rs:814-846] validate_data_integrity_identity *)
Definition validate_data_integrity_identity (credential : Value) (issuer_did verification_method_id : string) : result unit :=
  _ ← ensure (str_starts_with issuer_did "did:") "issuer_did must be a DID";
  _ ← ensure (bool_decide (identifier credential "issuer" = Some issuer_did)) "Credential issuer must exactly match issuer_did";
  _ ← ensure (bool_decide (did_of verification_method_id = Some issuer_did))
        "Verification method controller must exactly match issuer_did";
  _ ← ensure (has_type credential "VerifiableCredential") "Document must be a VerifiableCredential";
  ensure (match value_get "@context" credential with
          | Some (VString context) => String.eqb context VCDM_V2_BASE_CONTEXT
          | Some (Array contexts) => existsb (fun c => bool_decide (as_str c = Some VCDM_V2_BASE_CONTEXT)) contexts
          | _ => false
          end) "Credential must use the W3C VCDM v2 context".

(** [src/marty-verification/src/vcdm.rs:801-805] is_unpadded_base64url *)
Definition is_unpadded_base64url (value : string) : bool :=
  forallb (fun b => is_ascii_alnum b || (b =? 45) || (b =? 95)) (str_bytes value).

Section data_integrity.
Context `{Rfc3339} `{Ssi} `{VcdmSerde} `{Base64Url}.

(** [src/marty-verification/src/vcdm.rs:849-859] validate_data_integrity_issuance_dates, one date *)
Definition issuance_date (credential : Value) (name : string) : result (option Z) :=
  let invalid := "Credential `" +:+ name +:+ "` must be an RFC 3339 date-time" in
  match value_get name credential with
  | None => Ok None
  | Some value => s ← ok_or (as_str value) invalid; t ← ok_or (parse_rfc3339 s) invalid; Ok (Some t)
  end.

(** [src/marty-verification/src/vcdm.rs:848-868] validate_data_integrity_issuance_dates *)
Definition validate_data_integrity_issuance_dates (credential : Value) : result unit :=
  valid_from ← issuance_date credential "validFrom";
  valid_until ← issuance_date credential "validUntil";
  match valid_from, valid_until with
  | Some f, Some u => ensure (negb (u <? f)) "Credential validUntil must not precede validFrom"
  | _, _ => Ok tt
  end.

(** The private parameters of a JWK that [parse_public_jwk] names. *)
Definition VCDM_PRIVATE_PARAMETERS : list string := ["d"; "p"; "q"; "dp"; "dq"; "qi"; "oth"; "k"].

(** [src/marty-verification/src/vcdm.rs:1175-1189] parse_public_jwk *)
Definition parse_public_jwk (value : Value) : result SsiJwk :=
  object ← ok_or (as_object value) "issuer_public_jwk must be a JSON object";
  _ ← match List.find (fun p => contains_key p object) VCDM_PRIVATE_PARAMETERS with
      | Some p => Err ("issuer_public_jwk contains prohibited private key parameter `" +:+ p +:+ "`")
      | None => Ok tt
      end;
  lift_with "Invalid issuer public JWK: " (jwk_from_json value).

(** [src/marty-verification/src/vcdm.rs:870-897] ed25519_multikey *)
Definition ed25519_multikey (public_jwk : SsiJwk) (issuer_did verification_method_id : string) : result Multikey :=
  public_key ← match jwk_params public_jwk with
               | JwkOKP curve public _ =>
                   if String.eqb curve "Ed25519" then Ok public
                   else Err "eddsa-rdfc-2022 requires an Ed25519 public JWK from the issuer profile"
               | _ => Err "eddsa-rdfc-2022 requires an Ed25519 public JWK from the issuer profile"
               end;
  key ← lift_with "Invalid Ed25519 public JWK: " (verifying_key public_key);
  _ ← lift_with "Invalid verification method IRI: " (iri_new verification_method_id);
  _ ← lift_with "Invalid issuer DID URI: " (uri_new issuer_did);
  Ok (mkMultikey verification_method_id issuer_did key).

(** [src/marty-verification/src/vcdm.rs:565-615] CaptureSigner::for_method and CaptureMessageSigner::sign *)
Definition capture_sign (expected_method : string) (captured : option CapturedSigningInput) (call : SignCall) :
    option CapturedSigningInput * option (MessageSignatureError + bytes) :=
  if negb (String.eqb (call_method call) expected_method) then (captured, None)
  else if negb (String.eqb (call_algorithm call) "EdDSA") || negb (String.eqb (call_protocol call) "None") then
    (captured, Some (inl (UnsupportedAlgorithm (call_algorithm call +:+ " with protocol " +:+ call_protocol call))))
  else match captured with
       | Some _ => (captured, Some (inl InvalidResponse))
       | None => (Some (mkCaptured (call_algorithm call) (call_message call)), Some (inr (replicate 64 0)))
       end.

(** [serde_json::to_string] of the prepared state. *)
Definition prepared_json (p : PreparedDataIntegrityCredential) : Value :=
  Object [("credential", pd_credential p); ("issuer_did", VString (pd_issuer_did p));
          ("verification_method_id", VString (pd_method_id p)); ("public_jwk", pd_public_jwk p);
          ("algorithm", VString (pd_algorithm p)); ("signing_input_b64", VString (pd_signing_input_b64 p))].

(** [src/marty-verification/src/vcdm.rs:629-700] prepare_vcdm_data_integrity_credential_json_async, of a request that was read *)
Definition prepare_credential (request : PrepareRequest) : result string :=
  _ ← validate_data_integrity_identity (pr_credential request) (pr_issuer_did request) (pr_method_id request);
  _ ← validate_data_integrity_issuance_dates (pr_credential request);
  _ ← ensure (bool_decide (value_get "proof" (pr_credential request) = None)) "Credential already contains a proof";
  public_jwk ← parse_public_jwk (pr_public_jwk request);
  method ← ed25519_multikey public_jwk (pr_issuer_did request) (pr_method_id request);
  credential ← lift_with "Invalid VCDM v2 credential: " (plain_credential (pr_credential request));
  _ ← lift_with "" context_loader;
  let '(captured, signed) :=
    sign_with (option CapturedSigningInput) (capture_sign (mk_id method)) None credential
      {[mk_id method := method]} (mk_id method) in
  prepared_credential ← lift_with "Data Integrity preparation failed: " signed;
  captured ← ok_or captured "Data Integrity suite produced no signing input";
  _ ← ensure (zlen (cap_message captured) =? ED25519_SIGNATURE_BYTES) "Data Integrity suite produced an invalid signing input";
  prepared_credential ← lift_with "Failed to serialize prepared credential: " (document_to_json prepared_credential);
  jwk ← lift_with "Failed to serialize public JWK: " (jwk_to_json public_jwk);
  prepared ← lift_with "Failed to serialize Data Integrity signing request: "
               (write_value (prepared_json (mkPreparedDi prepared_credential (pr_issuer_did request) (pr_method_id request) jwk
                               (cap_algorithm captured) (b64_encode (cap_message captured)))));
  _ ← ensure (negb (MAX_DATA_INTEGRITY_COMPLETION_REQUEST_BYTES <? str_len prepared))
        "Prepared Data Integrity state exceeds the safe size limit";
  Ok prepared.

(** [src/marty-verification/src/vcdm.rs:617-700] prepare_vcdm_data_integrity_credential_json_async *)
Definition prepare_vcdm_data_integrity_credential_json (request_json : string) : result string :=
  _ ← ensure (negb (MAX_DATA_INTEGRITY_COMPLETION_REQUEST_BYTES <? str_len request_json))
        "Data Integrity prepare request exceeds the safe size limit";
  request ← lift_with "Invalid Data Integrity prepare request: " (read_prepare_request request_json);
  prepare_credential request.

(** [src/marty-verification/src/vcdm.rs:756-772] complete_vcdm_data_integrity_credential_json_async, the proof with its value *)
Definition completed_credential (p : PreparedDataIntegrityCredential) (signature : bytes) : result Value :=
  proof ← ok_or (value_get "proof" (pd_credential p) ≫= as_object) "Prepared credential must contain one proof object";
  let text name := map_get name proof ≫= as_str in
  _ ← ensure (bool_decide (text "type" = Some "DataIntegrityProof")
              && bool_decide (text "cryptosuite" = Some "eddsa-rdfc-2022")
              && bool_decide (text "proofPurpose" = Some "assertionMethod")
              && bool_decide (text "verificationMethod" = Some (pd_method_id p)))
        "Prepared credential proof configuration changed";
  let proof := map_insert "proofValue" (VString ("z" +:+ bs58_encode signature)) proof in
  Ok (match pd_credential p with Object es => Object (map_insert "proof" (Object proof) es) | v => v end).

(** [src/marty-verification/src/vcdm.rs:721-799] complete_vcdm_data_integrity_credential_json_async, of a request that was read *)
Definition complete_credential (request : CompleteRequest) : result string :=
  let prepared := cr_prepared request in
  _ ← ensure ((str_len (pd_signing_input_b64 prepared) =? ED25519_UNPADDED_BASE64_BYTES)
              && is_unpadded_base64url (pd_signing_input_b64 prepared)) "Invalid prepared Data Integrity signing input";
  _ ← ensure (str_len (cr_signature_b64 request) =? ED25519_UNPADDED_BASE64_BYTES)
        "EdDSA Data Integrity signature must be 64 bytes";
  _ ← validate_data_integrity_identity (pd_credential prepared) (pd_issuer_did prepared) (pd_method_id prepared);
  _ ← validate_data_integrity_issuance_dates (pd_credential prepared);
  _ ← ensure (String.eqb (pd_algorithm prepared) "EdDSA")
        ("Unsupported Data Integrity signing algorithm: " +:+ pd_algorithm prepared);
  public_jwk ← parse_public_jwk (pd_public_jwk prepared);
  method ← ed25519_multikey public_jwk (pd_issuer_did prepared) (pd_method_id prepared);
  signature ← lift_with "Invalid Data Integrity signature encoding: " (b64_decode (cr_signature_b64 request));
  _ ← ensure (zlen signature =? ED25519_SIGNATURE_BYTES) "EdDSA Data Integrity signature must be 64 bytes";
  completed ← completed_credential prepared signature;
  credential ← lift_with "Invalid completed VCDM credential: " (signed_credential completed);
  _ ← lift_with "" context_loader;
  match validate_proof (map_resolver {[mk_id method := method]}) credential with
  | SsiValid => lift_with "Failed to serialize completed credential: " (write_value completed)
  | SsiInvalid invalid => Err ("Completed Data Integrity credential proof is invalid: " +:+ invalid)
  | SsiError error => Err ("Completed Data Integrity credential proof verification failed: " +:+ error)
  end.

(** [src/marty-verification/src/vcdm.rs:709-799] complete_vcdm_data_integrity_credential_json_async *)
Definition complete_vcdm_data_integrity_credential_json (request_json : string) : result string :=
  _ ← ensure (negb (MAX_DATA_INTEGRITY_COMPLETION_REQUEST_BYTES <? str_len request_json))
        "Data Integrity completion request exceeds the safe size limit";
  request ← lift_with "Invalid Data Integrity completion request: " (read_complete_request request_json);
  complete_credential request.
End data_integrity.

(** ** Verification of data integrity proofs *)

Definition push_error (b : bool) (m : string) : list string := if b then [m] else [].

(** [src/marty-verification/src/vcdm.rs:1523-1528] validate_proofs, the shape of a DID URL *)
Definition is_did_url (value : string) : bool :=
  str_starts_with value "did:" &&
  match split_once "#" value with
  | Some (did, fragment) => negb (String.eqb did "") && negb (String.eqb fragment "")
  | None => false
  end.

(** [src/marty-verification/src/vcdm.rs:1512-1556] validate_proofs, the errors of one proof *)
Definition proof_errors (proof : Value) (expected_purpose : string)
    (expected_challenge expected_domain expected_controller : option string) : list string :=
  let text name := value_get name proof ≫= as_str in
  (push_error (negb (bool_decide (text "type" = Some "DataIntegrityProof"))) "Unsupported proof type"
   ++ push_error (negb (bool_decide (text "cryptosuite" = Some "eddsa-rdfc-2022"))) "Unsupported Data Integrity cryptosuite"
   ++ push_error (negb (bool_decide (text "proofPurpose" = Some expected_purpose)))
        ("Proof purpose must be " +:+ expected_purpose)
   ++ push_error (negb (match text "verificationMethod" with Some m => is_did_url m | None => false end))
        "Verification method must be an absolute DID URL"
   ++ push_error (match text "verificationMethod", expected_controller with
                  | Some m, Some controller => negb (bool_decide (did_of m = Some controller))
                  | _, _ => false
                  end) "Proof verification method controller does not match document signer"
   ++ push_error (negb (match text "proofValue" with
                        | Some v => str_starts_with v "z" && (1 <? str_len v) | None => false end))
        "Proof value must be non-empty base58btc multibase"
   ++ push_error (match expected_challenge with
                  | Some e => negb (bool_decide (text "challenge" = Some e)) | None => false end)
        "Presentation proof challenge does not match"
   ++ push_error (match expected_domain with
                  | Some e => negb (bool_decide (text "domain" = Some e)) | None => false end)
        "Presentation proof domain does not match")%list.

(** [src/marty-verification/src/vcdm.rs:1503-1510] validate_proofs, the proofs of a document *)
Definition document_proofs (document : Value) : string + list Value :=
  match value_get "proof" document with
  | None => inl "Missing Data Integrity proof"
  | Some (Array ((_ :: _) as values)) => inr values
  | Some (Object es) => inr [Object es]
  | Some _ => inl "Proof must be a non-empty object or array"
  end.

(** [src/marty-verification/src/vcdm.rs:1495-1558] validate_proofs *)
Definition validate_proofs (document : Value) (expected_purpose : string)
    (expected_challenge expected_domain expected_controller : option string) : list string :=
  match document_proofs document with
  | inl e => [e]
  | inr proofs =>
      concat ((fun p => proof_errors p expected_purpose expected_challenge expected_domain expected_controller) <$> proofs)
  end.

Section verification.
Context `{Rfc3339} `{Ssi} `{VcdmSerde} `{Base64Url}.

(** [src/marty-verification/src/vcdm.rs:545-563] ResolvedDidResolver::resolve_verification_method_with *)
Definition resolve_verification_method (methods : gmap string Multikey) (method : MethodRef) : string + Multikey :=
  match method with
  | Reference id => match methods !! id with Some m => inr m | None => did_key_resolver method end
  | _ => did_key_resolver method
  end.

(** [src/marty-verification/src/vcdm.rs:1447-1468] verification_parameters, the loop over the methods *)
Fixpoint resolved_methods (resolved : list ResolvedVerificationMethod) (methods : gmap string Multikey) :
    result (gmap string Multikey) :=
  match resolved with
  | [] => Ok methods
  | r :: resolved =>
      _ ← ensure (str_starts_with (rm_controller r) "did:") "Resolved verification method controller must be a DID";
      '(controller, fragment) ← ok_or (split_once "#" (rm_id r)) "Resolved verification method id must be a DID URL";
      _ ← ensure (negb (String.eqb fragment "" || negb (String.eqb controller (rm_controller r))))
            "Resolved verification method controller must exactly match its DID URL";
      public_jwk ← parse_public_jwk (rm_public_jwk r);
      method ← ed25519_multikey public_jwk (rm_controller r) (rm_id r);
      _ ← ensure (bool_decide (methods !! mk_id method = None)) "Resolved verification method ids must be unique";
      resolved_methods resolved (<[mk_id method := method]> methods)
  end.

(** [src/marty-verification/src/vcdm.rs:1442-1474] verification_parameters *)
Definition verification_parameters (resolved : list ResolvedVerificationMethod) : result (MethodRef -> string + Multikey) :=
  _ ← lift_with "" context_loader;
  methods ← resolved_methods resolved ∅;
  Ok (resolve_verification_method methods).

(** [src/marty-verification/src/vcdm.rs:1428-1440] verify_credential *)
Definition verify_credential (document : Value) (resolved : list ResolvedVerificationMethod) : result unit :=
  credential ← lift_with "Invalid VCDM credential: " (signed_credential document);
  parameters ← verification_parameters resolved;
  match verify_document parameters credential with
  | SsiValid => Ok tt
  | SsiInvalid invalid => Err ("Credential proof is invalid: " +:+ invalid)
  | SsiError error => Err ("Credential verification failed: " +:+ error)
  end.

Definition error_of {A} (r : result A) : list string := match r with Err e => [e] | _ => [] end.

(** [src/marty-verification/src/vcdm.rs:1405-1426] verify_credential_document *)
Definition verify_credential_document (document : Value) (resolved : list ResolvedVerificationMethod) : VerifyResult :=
  let issuer := identifier document "issuer" in
  let verified := verify_credential document resolved in
  let errors := (validate_proofs document "assertionMethod" None None issuer
                 ++ push_error (bool_decide (issuer = None)) "Credential issuer must be an absolute identifier"
                 ++ error_of verified)%list in
  let n := if is_Ok verified then 1 else 0 in
  mkVerifyResult (match errors with [] => true | _ => false end) "credential" n n errors.

(** [src/marty-verification/src/vcdm.rs:1355-1368] verify_presentation, the proof of the presentation *)
Definition verify_presentation_proof (request : VerifyRequest) : result unit :=
  presentation ← lift_with "Invalid VCDM presentation: " (signed_presentation (vq_document request));
  parameters ← verification_parameters (vq_resolved request);
  match verify_document parameters presentation with
  | SsiValid => Ok tt
  | SsiInvalid invalid => Err ("Presentation proof is invalid: " +:+ invalid)
  | SsiError error => Err ("Presentation verification failed: " +:+ error)
  end.

(** [src/marty-verification/src/vcdm.rs:1376-1393] verify_presentation, the loop over the credentials *)
Fixpoint presented_credentials (credentials : list Value) (index : Z) (resolved : list ResolvedVerificationMethod) :
    Z * list string :=
  match credentials with
  | [] => (0, [])
  | credential :: credentials =>
      let name e := "Credential " +:+ pretty index +:+ ": " +:+ e in
      let errors := validate_proofs credential "assertionMethod" None None (identifier credential "issuer") in
      let verified := verify_credential credential resolved in
      let '(n, rest) := presented_credentials credentials (index + 1) resolved in
      ((if is_Ok verified then 1 else 0) + n, ((name <$> errors) ++ (name <$> error_of verified) ++ rest)%list)
  end.

(** An expected value that is absent or empty. *)
Definition is_absent (o : option string) : bool := match o with Some s => String.eqb s "" | None => true end.

(** [src/marty-verification/src/vcdm.rs:1335-1403] verify_presentation *)
Definition verify_presentation (request : VerifyRequest) : VerifyResult :=
  let document := vq_document request in
  let holder := identifier document "holder" in
  let proof := verify_presentation_proof request in
  let '(credentials, not_array) :=
    match value_get "verifiableCredential" document with
    | Some (Array values) => (values, [])
    | Some _ => ([], ["verifiableCredential must be an array"])
    | None => ([], [])
    end in
  let '(n, credential_errors) := presented_credentials credentials 0 (vq_resolved request) in
  let errors :=
    (validate_proofs document "authentication" (vq_expected_challenge request) (vq_expected_domain request) holder
     ++ push_error (is_absent (vq_expected_challenge request)) "Presentation verification requires an expected challenge"
     ++ push_error (is_absent (vq_expected_domain request)) "Presentation verification requires an expected domain"
     ++ error_of proof ++ not_array ++ credential_errors)%list in
  mkVerifyResult (match errors with [] => true | _ => false end) "presentation" (if is_Ok proof then 1 else 0) n errors.

(** [src/marty-verification/src/vcdm.rs:903-937] verify_vcdm_data_integrity_json_async, before the result is written *)
Definition verify_vcdm_data_integrity (request_json : string) : VerifyResult :=
  match read_verify_request request_json with
  | inl error => mkVerifyResult false "unknown" 0 0 ["Invalid VCDM verification request: " +:+ error]
  | inr request =>
      let is_presentation := has_type (vq_document request) "VerifiablePresentation" in
      let is_credential := has_type (vq_document request) "VerifiableCredential" in
      if Bool.eqb is_presentation is_credential then
        mkVerifyResult false "unknown" 0 0 ["Document must identify exactly one VCDM credential or presentation type"]
      else if is_presentation then verify_presentation request
      else verify_credential_document (vq_document request) (vq_resolved request)
  end.

(** [src/marty-verification/src/vcdm.rs:1560-1562] serialize_result *)
Definition serialize_result (r : VerifyResult) : result string :=
  match write_value (Object [("valid", Bool (vs_valid r)); ("kind", VString (vs_kind r));
                             ("verified_proofs", Number (pretty (verified_proofs r)));
                             ("verified_credentials", Number (pretty (verified_credentials r)));
                             ("errors", Array (VString <$> vs_errors r))]) with
  | inr s => Ok s
  | inl _ => Panic
  end.

(** [src/marty-verification/src/vcdm.rs:899-937] verify_vcdm_data_integrity_json_async *)
Definition verify_vcdm_data_integrity_json (request_json : string) : result string :=
  serialize_result (verify_vcdm_data_integrity request_json).

(** ** Verification of VC-JWTs *)

(** The text of an error of the issuance crate: [marty-oid4vci/src/error.rs], lines 12 to 72. *)
Definition oid4vci_error_text (e : Oid4vciError) : string :=
  match e with
  | InvalidOffer m => "Invalid offer: " +:+ m
  | InvalidPreAuthCode m => "Invalid pre-authorized code: " +:+ m
  | InvalidAccessToken m => "Invalid access token: " +:+ m
  | ProofVerificationFailed m => "Proof verification failed: " +:+ m
  | InvalidCNonce expected got => "Invalid c_nonce: expected " +:+ expected +:+ ", got " +:+ got
  | UnsupportedFormat m => "Unsupported credential format: " +:+ m
  | SigningError m => "Signing error: " +:+ m
  | KeyError m => "Key error: " +:+ m
  | JwtError m => "JWT error: " +:+ m
  | MdocError m => "mDoc error: " +:+ m
  | SdJwtError m => "SD-JWT error: " +:+ m
  | MetadataError m => "Metadata error: " +:+ m
  | SerializationError m => "Serialization error: " +:+ m
  | InvalidUrl m => "Invalid URL: " +:+ m
  | Oid4vciInvalidRequest m => "Invalid request: " +:+ m
  | ConfigError m => "Configuration error: " +:+ m
  end.

(** [src/marty-verification/src/vcdm.rs:1248-1262] validate_credential_subject *)
Definition subject_errors (document : Value) : list string :=
  push_error (negb (match value_get "credentialSubject" document with
                    | Some (Object (_ :: _)) => true
                    | Some (Array ((_ :: _) as subjects)) =>
                        forallb (fun s => match as_object s with Some (_ :: _) => true | _ => false end) subjects
                    | _ => false
                    end)) "credentialSubject must contain one or more non-empty objects".

(** [src/marty-verification/src/vcdm.rs:1264-1281] validate_identifier_mapping *)
Definition mapping_errors (claims credential : Value) (claim_name property_name : string) : list string :=
  match value_get claim_name claims ≫= as_str, value_get property_name credential ≫= as_str with
  | Some claim, Some property =>
      push_error (negb (String.eqb claim property))
        ("VC-JWT `" +:+ claim_name +:+ "` does not match credential `" +:+ property_name +:+ "`")
  | _, _ => []
  end.

(** [Value::as_f64]. *)
Definition as_f64 (v : Value) : option spec_float := match v with Number repr => number_as_f64 repr | _ => None end.

(** [src/marty-verification/src/vcdm.rs:1283-1299] validate_numeric_dates, at the instant [now] *)
Definition numeric_date_errors (claims : Value) (now : Z) : list string :=
  let now := f64_of_usize (timestamp now) in
  (match value_get "nbf" claims with
   | Some not_before =>
       match as_f64 not_before with
       | Some value => push_error (negb (f64_le value now)) "VC-JWT is not yet valid"
       | None => ["VC-JWT `nbf` must be a NumericDate"]
       end
   | None => []
   end ++
   match value_get "exp" claims with
   | Some expires =>
       match as_f64 expires with
       | Some value => push_error (negb (f64_lt now value)) "VC-JWT has expired"
       | None => ["VC-JWT `exp` must be a NumericDate"]
       end
   | None => []
   end)%list.

(** [src/marty-verification/src/vcdm.rs:1301-1333] validate_credential_dates, at the instant [now]: only a text is a date *)
Definition credential_date_errors (credential : Value) (now : Z) : list string :=
  let parse name := parse_rfc3339 <$> (value_get name credential ≫= as_str) in
  let valid_from := parse "validFrom" in
  let valid_until := parse "validUntil" in
  let malformed name (d : option (option Z)) :=
    push_error (bool_decide (d = Some None)) ("Credential `" +:+ name +:+ "` must be an RFC 3339 date-time") in
  (malformed "validFrom" valid_from ++ malformed "validUntil" valid_until
   ++ match valid_from with Some (Some f) => push_error (now <? f) "Credential is not yet valid" | _ => [] end
   ++ match valid_until with Some (Some u) => push_error (u <=? now) "Credential has expired" | _ => [] end
   ++ match valid_from, valid_until with
      | Some (Some f), Some (Some u) => push_error (u <=? f) "Credential validUntil must be later than validFrom"
      | _, _ => []
      end)%list.

(** [src/marty-verification/src/vcdm.rs:1204-1215] validate_vcdm_jwt_claims, the issuer and the key *)
Definition jwt_issuer_errors (vc_issuer jwt_issuer key_id : option string) : list string :=
  (match vc_issuer, jwt_issuer with
   | Some v, Some j => push_error (negb (String.eqb v j)) "VC-JWT `iss` does not match credential issuer"
   | _, _ => ["VC-JWT requires absolute `iss` and credential issuer identifiers"]
   end ++
   match jwt_issuer, key_id with
   | Some issuer, Some kid =>
       push_error (str_starts_with issuer "did:" && negb (bool_decide (did_of kid = Some issuer)))
         "VC-JWT kid controller does not match issuer DID"
   | _, _ => []
   end)%list.

(** [src/marty-verification/src/vcdm.rs:1219-1233] validate_vcdm_jwt_claims, the subject *)
Definition jwt_subject_errors (claims vc : Value) : list string :=
  match value_get "sub" claims ≫= as_str with
  | Some subject =>
      push_error (negb (match value_get "credentialSubject" vc with
                        | Some (Object es) => bool_decide (map_get "id" es ≫= as_str = Some subject)
                        | Some (Array items) => existsb (fun i => bool_decide (value_get "id" i ≫= as_str = Some subject)) items
                        | _ => false
                        end)) "VC-JWT `sub` does not identify a credential subject"
  | None => []
  end.

(** [src/marty-verification/src/vcdm.rs:1191-1237] validate_vcdm_jwt_claims, with its two readings of the clock *)
Definition validate_vcdm_jwt_claims (claims : Value) (key_id : option string) (now1 now2 : Z) : list string :=
  match value_get "vc" claims ≫= as_object with
  | None => ["VC-JWT payload must contain a `vc` object"]
  | Some es =>
      let vc := Object es in
      (push_error (negb (has_v2_context vc)) "VC-JWT credential must use the VCDM v2 base context"
       ++ push_error (negb (has_type vc "VerifiableCredential")) "VC-JWT credential type must include VerifiableCredential"
       ++ jwt_issuer_errors (identifier vc "issuer") (value_get "iss" claims ≫= as_str) key_id
       ++ subject_errors vc ++ mapping_errors claims vc "jti" "id" ++ jwt_subject_errors claims vc
       ++ numeric_date_errors claims now1 ++ credential_date_errors vc now2)%list
  end.

(** [src/marty-verification/src/vcdm.rs:1016-1068] verify_vcdm_jwt_json_async, the key *)
Definition jwt_verification_key (issuer_public_jwk : option Value) (key_id : option string) : result SsiJwk :=
  match issuer_public_jwk with
  | Some jwk_value => parse_public_jwk jwk_value
  | None =>
      key_id ← ok_or key_id "VC-JWT requires issuer-profile public JWK material or a did:key kid";
      _ ← ensure (str_starts_with key_id "did:key:" && bool_decide (is_Some (split_once "#" key_id)))
            "Automatic VC-JWT key resolution is restricted to did:key URLs";
      lift_with "Unable to resolve VC-JWT did:key: " (did_key_jwk key_id)
  end.

Definition jwt_failure (algorithm issuer : option string) (e : string) : VerifyJwtResult :=
  mkVerifyJwtResult false algorithm issuer None [e].

(** [src/marty-verification/src/vcdm.rs:1070-1107] verify_vcdm_jwt_json_async, with the key *)
Definition verify_jwt_with_key (token algorithm : string) (unverified_issuer : option string) (jwk : SsiJwk) (now1 now2 : Z) :
    VerifyJwtResult :=
  match jws_decode_verify token jwk with
  | inl error => jwt_failure (Some algorithm) unverified_issuer ("VC-JWT signature is invalid: " +:+ error)
  | inr (verified_header, verified_payload) =>
      match read_value verified_payload with
      | inl error => jwt_failure (Some algorithm) unverified_issuer ("Verified VC-JWT payload is invalid JSON: " +:+ error)
      | inr claims =>
          let errors := (validate_vcdm_jwt_claims claims (jws_key_id verified_header) now1 now2
                         ++ push_error (negb (String.eqb (jws_algorithm verified_header) algorithm))
                              "VC-JWT protected algorithm changed during verification")%list in
          mkVerifyJwtResult (match errors with [] => true | _ => false end) (Some algorithm)
            (value_get "iss" claims ≫= as_str) (Some claims) errors
      end
  end.

(** [src/marty-verification/src/vcdm.rs:964-1107] verify_vcdm_jwt_json_async, of a request that was read *)
Definition verify_jwt (request : VerifyJwtRequest) (now1 now2 : Z) : VerifyJwtResult :=
  match jws_decode_unverified (vj_token request) with
  | inl error => jwt_failure None None ("Invalid compact JWS: " +:+ error)
  | inr (header, payload) =>
      let algorithm := jws_algorithm header in
      if negb (one_of algorithm ["EdDSA"; "ES256"]) then
        jwt_failure (Some algorithm) None "Unsupported VC-JWT algorithm; expected EdDSA or ES256"
      else
        match read_value payload with
        | inl error => jwt_failure (Some algorithm) None ("Invalid VC-JWT payload: " +:+ error)
        | inr (Object es) =>
            let issuer := map_get "iss" es ≫= as_str in
            match jwt_verification_key (vj_issuer_public_jwk request) (jws_key_id header) with
            | Ok jwk => verify_jwt_with_key (vj_token request) algorithm issuer jwk now1 now2
            | Err error => jwt_failure (Some algorithm) issuer error
            | Panic => jwt_failure (Some algorithm) issuer ""
            end
        | inr _ => jwt_failure (Some algorithm) None "VC-JWT payload must be a JSON object"
        end
  end.

(** [src/marty-verification/src/vcdm.rs:950-963] verify_vcdm_jwt_json_async, before the result is written *)
Definition verify_vcdm_jwt (request_json : string) (now1 now2 : Z) : VerifyJwtResult :=
  match read_jwt_request request_json with
  | inl error => jwt_failure None None ("Invalid VCDM JWT verification request: " +:+ error)
  | inr request => verify_jwt request now1 now2
  end.

(** [serde_json::to_value] of the result. *)
Definition jwt_result_json (r : VerifyJwtResult) : JsonMap :=
  let text o := match o with Some s => VString s | None => Null end in
  [("valid", Bool (jr_valid r)); ("algorithm", text (jr_algorithm r)); ("issuer", text (jr_issuer r));
   ("claims", match jr_claims r with Some c => c | None => Null end); ("errors", Array (VString <$> jr_errors r))].

(** [serde_json::to_string(&v).expect(..)]. *)
Definition write_expect (v : Value) : result string := match write_value v with inr s => Ok s | inl _ => Panic end.

(** [src/marty-verification/src/vcdm.rs:1564-1566] serialize_jwt_result *)
Definition serialize_jwt_result (r : VerifyJwtResult) : result string := write_expect (Object (jwt_result_json r)).

(** [src/marty-verification/src/vcdm.rs:1140-1148] verify_open_badge_v3_jwt_json_async, the profile of the credential *)
Definition badge_profile `{UriParser} (object : JsonMap) : result unit :=
  credential ← ok_or (map_get "claims" object ≫= value_get "vc") "Authenticated VC-JWT has no credential object";
  map_err oid4vci_error_text (validate_open_badge_v3_profile credential).

(** [src/marty-verification/src/vcdm.rs:1149-1160] verify_open_badge_v3_jwt_json_async, an error of the profile *)
Definition push_badge_error (object : JsonMap) (error : string) : result JsonMap :=
  let object := map_insert "claims" Null (map_insert "valid" (Bool false) object) in
  errors ← expect (as_array (default (Array []) (map_get "errors" object)));
  Ok (map_insert "errors" (Array (errors ++ [VString ("Open Badges v3 profile validation failed: " +:+ error)])%list) object).

(** [src/marty-verification/src/vcdm.rs:1121-1168] verify_open_badge_v3_jwt_json_async *)
Definition verify_open_badge_v3_jwt_json `{UriParser} (request_json : string)
    (now1 now2 : Z) : result string :=
  raw ← serialize_jwt_result (verify_vcdm_jwt request_json now1 now2);
  let result := match read_value (str_bytes raw) with
                | inr v => v
                | inl error => Object [("valid", Bool false); ("algorithm", Null); ("issuer", Null); ("claims", Null);
                                       ("errors", Array [VString ("Invalid internal VCDM JWT result: " +:+ error)])]
                end in
  object ← expect (as_object result);
  let object := map_insert "credential_profile" (VString "openbadge-v3") object in
  object ← (if match map_get "valid" object with Some (Bool b) => b | _ => false end then
              match badge_profile object with
              | Err error => push_badge_error object error
              | Ok _ => Ok object
              | Panic => Panic
              end
            else Ok (map_insert "claims" Null object));
  write_expect (Object object).
End verification.

(** ** The issuance entry points *)

Section entry.
Context `{Rfc3339} `{VcdmSerde} `{StdBase64} `{Base64Url} `{Sha2}.

(** [src/marty-verification/src/vcdm.rs:178-182] validate_vcdm_issuance_document_json *)
Definition validate_vcdm_issuance_document_json (request_json : string) : result unit :=
  request ← ok_or (read_issuance_request request_json) "invalid_credential";
  validate_vcdm_issuance_document (vi_credential request) (vi_issuer_did request).

(** [src/marty-verification/src/vcdm.rs:187-191] validate_vcdm_related_resource_digests_json *)
Definition validate_vcdm_related_resource_digests_json (request_json : string) : result unit :=
  request ← ok_or (read_digests_request request_json) "invalid_related_resource";
  validate_vcdm_related_resource_digests (vr_credential request) (vr_resource_contents request).
End entry.
