(* ===== verification/VcdmFacts.v ===== *)
(** * VCDM 2 data integrity and JWT credentials: theorems (marty-verification, [vcdm.rs])

    What it takes for a presentation, a credential and a VC-JWT to be valid; what a
    completed credential is; and what the capturing signer hands out. *)

From stdpp Require Import pretty.
From Stdlib Require Import Floats.SpecFloat.
From S2P Require Import Prelude Des Governance RustF64 PolicyService EvidencePolicy CryptoKit DeviceAuth Issuance JwtVc VcdmIssuance Base64 JwtVcFacts Vcdm.
Local Open Scope string_scope.
Local Open Scope Z_scope.

#[local] Abbreviation bytes := (list Z).
#[local] Abbreviation JsonMap := (list (string * Value)).

(** ** Lists of errors *)

Lemma push_error_nil b m : push_error b m = [] <-> b = false.
Proof. by destruct b. Qed.

Lemma no_errors {A} (l : list A) : match l with [] => true | _ => false end = true <-> l = [].
Proof. by destruct l. Qed.

Lemma concat_empty {A} (ls : list (list A)) : concat ls = [] <-> Forall (fun l => l = []) ls.
Proof. induction ls as [|l ls IH]; cbn; [by split|]. rewrite app_nil, Forall_cons. tauto. Qed.

Lemma fmap_nil_iff {A B} (f : A -> B) l : f <$> l = [] <-> l = [].
Proof. by destruct l. Qed.

Lemma negb_bool_decide_false (P : Prop) `{!Decision P} : negb (bool_decide P) = false <-> P.
Proof. rewrite negb_false_iff. apply bool_decide_eq_true. Qed.

Lemma lift_with_no_panic {A} context (r : string + A) : lift_with context r <> Panic.
Proof. by destruct r. Qed.

Lemma lift_with_Ok {A} context (r : string + A) a : lift_with context r = Ok a <-> r = inr a.
Proof. destruct r; cbn; naive_solver. Qed.

(** A result that is not a panic reports no error exactly when it succeeded. *)
Lemma error_of_nil {A} (r : res string A) : r <> Panic -> (error_of r = [] <-> is_Ok r = true).
Proof. by destruct r. Qed.

(** ** Proofs of a document *)

Definition proof_text (proof : Value) (name : string) : option string := value_get name proof ≫= as_str.

(** The method of a proof is a DID URL of the expected controller. *)
Definition method_holds (controller method : option string) : Prop :=
  exists m did fragment, method = Some m /\ str_starts_with m "did:" = true /\ split_once "#" m = Some (did, fragment) /\
    did <> "" /\ fragment <> "" /\ (forall c, controller = Some c -> did = c).

Record ProofHolds (purpose : string) (challenge domain controller : option string) (proof : Value) : Prop := {
  ph_type : proof_text proof "type" = Some "DataIntegrityProof";
  ph_cryptosuite : proof_text proof "cryptosuite" = Some "eddsa-rdfc-2022";
  ph_purpose : proof_text proof "proofPurpose" = Some purpose;
  ph_method : method_holds controller (proof_text proof "verificationMethod");
  ph_value : exists v, proof_text proof "proofValue" = Some v /\ str_starts_with v "z" = true /\ 1 < str_len v;
  ph_challenge : forall e, challenge = Some e -> proof_text proof "challenge" = Some e;
  ph_domain : forall e, domain = Some e -> proof_text proof "domain" = Some e;
}.

Lemma expected_text (expected actual : option string) :
  match expected with Some e => negb (bool_decide (actual = Some e)) | None => false end = false <->
  (forall e, expected = Some e -> actual = Some e).
Proof.
  destruct expected as [e|]; [|by split].
  rewrite negb_bool_decide_false. split; [intros ? ? [= <-]; done|auto].
Qed.

Lemma method_no_errors controller method a b :
  push_error (negb (match method with Some m => is_did_url m | None => false end)) a = [] /\
  push_error (match method, controller with
              | Some m, Some c => negb (bool_decide (did_of m = Some c)) | _, _ => false end) b = [] <->
  method_holds controller method.
Proof.
  rewrite !push_error_nil, negb_false_iff. unfold method_holds, is_did_url, did_of.
  destruct method as [m|]; [|split; [by intros []|intros (?&?&?&?&_); done]].
  destruct (split_once "#" m) as [[did fragment]|] eqn:Hs.
  2:{ split; [rewrite andb_false_r; by intros []|intros (?&?&?&[= <-]&_&?&_); congruence]. }
  rewrite andb_true_iff, andb_true_iff, !negb_true_iff, !String.eqb_neq. cbn [fmap option_fmap option_map fst].
  split.
  - intros [(Hd & Hdid & Hf) Hc]. exists m, did, fragment. split_and!; try done.
    intros c ->. apply negb_bool_decide_false in Hc. congruence.
  - intros (m'&did'&fragment'&[= <-]&Hd&Hs'&Hdid&Hf&Hc). simplify_eq. split; [done|].
    destruct controller as [c|]; [|done]. apply negb_bool_decide_false. by rewrite (Hc c).
Qed.

Lemma proof_errors_nil proof purpose challenge domain controller :
  proof_errors proof purpose challenge domain controller = [] <-> ProofHolds purpose challenge domain controller proof.
Proof.
  unfold proof_errors. fold (proof_text proof). rewrite !app_nil.
  assert (Hv : push_error (negb (match proof_text proof "proofValue" with
                   | Some v => str_starts_with v "z" && (1 <? str_len v) | None => false end))
                 "Proof value must be non-empty base58btc multibase" = [] <->
               exists v, proof_text proof "proofValue" = Some v /\ str_starts_with v "z" = true /\ 1 < str_len v).
  { rewrite push_error_nil, negb_false_iff. destruct (proof_text proof "proofValue") as [v|].
    - rewrite andb_true_iff, Z.ltb_lt. split; [intros; by exists v|by intros (?&[= <-]&?)].
    - split; [done|by intros (?&?&_)]. }
  split.
  - intros (H1&H2&H3&H4&H5&H6&H7&H8). rewrite push_error_nil in H1, H2, H3, H7, H8.
    rewrite negb_bool_decide_false in H1, H2, H3. constructor; try done.
    + by eapply method_no_errors; split.
    + by apply Hv.
    + by apply expected_text.
    + by apply expected_text.
  - intros [H1 H2 H3 H4 H5 H6 H7]. rewrite Hv. rewrite !(push_error_nil (negb (bool_decide _))), !negb_bool_decide_false.
    eapply method_no_errors in H4 as [H4 H4']. split_and!; try done.
    + apply push_error_nil. by apply expected_text.
    + apply push_error_nil. by apply expected_text.
Qed.

(** Every proof of a document holds, and there is one. *)
Definition proofs_hold (purpose : string) (challenge domain controller : option string) (document : Value) : Prop :=
  exists proofs, document_proofs document = inr proofs /\ proofs <> [] /\
    Forall (ProofHolds purpose challenge domain controller) proofs.

Lemma document_proofs_nonempty document proofs : document_proofs document = inr proofs -> proofs <> [].
Proof.
  unfold document_proofs. destruct (value_get "proof" document) as [v|]; [|done].
  destruct v as [| | | |l|]; try done; [|by intros [= <-]]. destruct l; [done|by intros [= <-]].
Qed.

Lemma validate_proofs_nil document purpose challenge domain controller :
  validate_proofs document purpose challenge domain controller = [] <->
  proofs_hold purpose challenge domain controller document.
Proof.
  unfold validate_proofs, proofs_hold. destruct (document_proofs document) as [e|proofs] eqn:Hp.
  - split; [done|by intros (?&?&_)].
  - rewrite concat_empty, Forall_fmap. split.
    + intros Hall. exists proofs. split; [done|]. split; [by eapply document_proofs_nonempty|].
      eapply Forall_impl; [exact Hall|]. intros p. apply proof_errors_nil.
    + intros (?&[= <-]&_&Hall). eapply Forall_impl; [exact Hall|]. intros p. apply proof_errors_nil.
Qed.

Lemma split_once_join c s a b : split_once c s = Some (a, b) -> s = a +:+ String c b.
Proof.
  revert a b. induction s as [|x s IH]; intros a b; cbn [split_once]; [done|].
  destruct (Ascii.eqb_spec x c) as [->|Hne]; [by intros [= <- <-]|].
  destruct (split_once c s) as [[a' b']|]; [|done]. intros [= <- <-]. by rewrite (IH _ _ eq_refl).
Qed.

Lemma has_colon_exact s : has_colon s = true <-> exists a b, s = a +:+ ":" +:+ b.
Proof.
  unfold has_colon. rewrite bool_decide_eq_true. split.
  - intros [[a b] Hs]. exists a, b. by apply split_once_join.
  - intros (a & b & ->). induction a as [|x a IH]; [by eexists|].
    change (String x a +:+ ":" +:+ b) with (String x (a +:+ ":" +:+ b)). cbn [split_once].
    destruct (Ascii.eqb x ":"); [by eexists|]. destruct IH as [[u v] Hu]. rewrite Hu. by eexists.
Qed.

(** The party that a document names under a member, as a text or as the [id] of
    an object; only an identifier with a colon counts. *)
Definition absolute_party (document : Value) (name party : string) : Prop :=
  (value_get name document = Some (VString party) \/
   exists es, value_get name document = Some (Object es) /\ map_get "id" es = Some (VString party)) /\
  exists scheme rest, party = scheme +:+ ":" +:+ rest.

Lemma identifier_party document name party :
  identifier document name = Some party <-> absolute_party document name party.
Proof.
  unfold identifier, absolute_party. rewrite <- has_colon_exact.
  assert (Hif : forall v, (if has_colon v then Some v else None) = Some party <->
    v = party /\ has_colon party = true) by (intros v; destruct (has_colon v) eqn:Hv; naive_solver congruence).
  destruct (value_get name document) as [[| | |v| |es]|].
  all: try (split; [done|intros [[?|(? & ? & _)] _]; done]).
  - rewrite Hif. split; [intros [-> ?]; auto|]. intros [[[= ->]|(? & ? & _)] ?]; done.
  - destruct (map_get "id" es) as [v|] eqn:Hid; [destruct v as [| | |v| |]|]; cbn [mbind option_bind as_str].
    all: try (split; [done|intros [[?|(? & [= <-] & ?)] _]; congruence]).
    rewrite Hif. split; [intros [-> ?]; split; [right|]; eauto|].
    intros [[?|(? & [= <-] & Hv)] ?]; [done|]. rewrite Hid in Hv. by injection Hv as ->.
Qed.

(** A document carries proofs, every one of them right in form, for the purpose,
    challenge and domain, and, where the document names a party with an absolute
    identifier, by a method of that party.  A document that names none is bound
    to nobody. *)
Definition proved_by (purpose : string) (challenge domain : option string) (name : string)
    (document : Value) : Prop :=
  exists proofs, document_proofs document = inr proofs /\ proofs <> [] /\
    Forall (fun p => ProofHolds purpose challenge domain None p /\
      forall party, absolute_party document name party -> exists m fragment,
        proof_text p "verificationMethod" = Some m /\ split_once "#" m = Some (party, fragment)) proofs.

Lemma proofs_hold_by purpose challenge domain name document :
  proofs_hold purpose challenge domain (identifier document name) document <->
  proved_by purpose challenge domain name document.
Proof.
  unfold proofs_hold, proved_by. do 2 f_equiv. do 2 f_equiv. apply Forall_iff. intros p.
  setoid_rewrite <- identifier_party. split.
  - intros [H1 H2 H3 (m & did & fr & Hm & ? & Hs & ? & ? & Hc) H5 H6 H7]. split.
    + constructor; try done. by exists m, did, fr.
    + intros party Hp. exists m, fr. by rewrite <- (Hc party Hp).
  - intros [[H1 H2 H3 (m & did & fr & Hm & ? & Hs & ? & ? & _) H5 H6 H7] Hp].
    constructor; try done. exists m, did, fr. split_and!; try done. intros c Hc.
    destruct (Hp c Hc) as (m' & fr' & Hm' & Hs'). congruence.
Qed.

(** ** Verification *)

Section verify.
Context `{Rfc3339} `{Ssi} `{VcdmSerde} `{Base64Url}.

Lemma parse_public_jwk_no_panic v : no_panic (parse_public_jwk v).
Proof. unfold parse_public_jwk. solve_no_panic; apply lift_with_no_panic. Qed.

Lemma ed25519_multikey_no_panic jwk did id : no_panic (ed25519_multikey jwk did id).
Proof. unfold ed25519_multikey. solve_no_panic; apply lift_with_no_panic. Qed.

Lemma resolved_methods_no_panic resolved : forall methods, no_panic (resolved_methods resolved methods).
Proof.
  induction resolved as [|r resolved IH]; intros methods; cbn [resolved_methods]; [done|].
  solve_no_panic; auto using parse_public_jwk_no_panic, ed25519_multikey_no_panic.
Qed.

Lemma verification_parameters_no_panic resolved : no_panic (verification_parameters resolved).
Proof. unfold verification_parameters. solve_no_panic; [apply lift_with_no_panic|apply resolved_methods_no_panic]. Qed.

Lemma verify_credential_no_panic document resolved : no_panic (verify_credential document resolved).
Proof. unfold verify_credential. solve_no_panic; [apply lift_with_no_panic|apply verification_parameters_no_panic]. Qed.

Lemma verify_presentation_proof_no_panic request : no_panic (verify_presentation_proof request).
Proof. unfold verify_presentation_proof. solve_no_panic; [apply lift_with_no_panic|apply verification_parameters_no_panic]. Qed.

Lemma ed25519_multikey_names jwk did id m : ed25519_multikey jwk did id = Ok m -> mk_id m = id /\ mk_controller m = did.
Proof. unfold ed25519_multikey. intros Hm. by res_inv. Qed.

(** Every method handed to the libraries answers to its own id, belongs to the
    controller that its id names, and was in the request. *)
Definition methods_bound (resolved : list ResolvedVerificationMethod) (methods : gmap string Multikey) : Prop :=
  forall id m, methods !! id = Some m -> mk_id m = id /\ did_of id = Some (mk_controller m) /\ In id (rm_id <$> resolved).

Lemma resolved_methods_bound resolved : forall methods result,
  resolved_methods resolved methods = Ok result ->
  forall id m, result !! id = Some m ->
    methods !! id = Some m \/ (mk_id m = id /\ did_of id = Some (mk_controller m) /\ In id (rm_id <$> resolved)).
Proof.
  induction resolved as [|r resolved IH]; intros methods result Hr id m Hm; cbn [resolved_methods] in Hr.
  { injection Hr as <-. by left. }
  res_inv. destruct x0 as [controller fragment]. res_inv.
  match goal with He : ed25519_multikey _ _ _ = Ok ?k |- _ => destruct (ed25519_multikey_names _ _ _ _ He) as [Hid Hc] end.
  breflect. destruct (IH _ _ Hr id m Hm) as [Hold|(?&?&?)]; [|right; repeat (split; [done|]); by right].
  apply lookup_insert_Some in Hold as [[<- <-]|[_ Hold]]; [|by left]. right.
  rewrite Hid, Hc. split_and!; [done| |by left]. unfold did_of.
  match goal with Hs : split_once _ _ = Some _ |- _ => rewrite Hs end. cbn. f_equal. by apply String.eqb_eq.
Qed.

Lemma verification_parameters_Ok resolved parameters :
  verification_parameters resolved = Ok parameters <->
  context_loader = inr tt /\
  exists methods, resolved_methods resolved ∅ = Ok methods /\ methods_bound resolved methods /\
    parameters = resolve_verification_method methods.
Proof.
  unfold verification_parameters. rewrite bind_Ok. split.
  - intros ([] & Hl & Hm). apply lift_with_Ok in Hl. res_inv. split; [done|]. eexists. split; [done|]. split; [|done].
    intros id m Hid. eapply resolved_methods_bound in Hid as [Hid|]; [|done..]. by rewrite lookup_empty in Hid.
  - intros (Hl & methods & Hm & _ & ->). exists tt. rewrite lift_with_Ok, Hm. done.
Qed.

(** A document of the libraries verifies with the methods of the request. *)
Definition verifies (resolved : list ResolvedVerificationMethod) (document : SsiDocument) : Prop :=
  context_loader = inr tt /\
  exists methods, resolved_methods resolved ∅ = Ok methods /\ methods_bound resolved methods /\
    verify_document (resolve_verification_method methods) document = SsiValid.

Lemma parameters_verify resolved document (f g : string -> string) :
  is_Ok (parameters ← verification_parameters resolved;
         match verify_document parameters document with
         | SsiValid => Ok tt | SsiInvalid invalid => Err (f invalid) | SsiError error => Err (g error)
         end) = true <-> verifies resolved document.
Proof.
  unfold verifies. split.
  - destruct (verification_parameters resolved) as [parameters| |] eqn:Hp; [|done..]. cbn [mbind res_bind].
    apply verification_parameters_Ok in Hp as (Hl & methods & Hm & Hb & ->).
    destruct (verify_document _ document) eqn:Hv; [|done..]. intros _. eauto 7.
  - intros (Hl & methods & Hm & Hb & Hv).
    rewrite (proj2 (verification_parameters_Ok resolved (resolve_verification_method methods))) by eauto 7.
    cbn [mbind res_bind]. by rewrite Hv.
Qed.

(** A credential whose proofs are shaped right for its issuer, and verify. *)
Definition credential_holds (resolved : list ResolvedVerificationMethod) (credential : Value) : Prop :=
  proved_by "assertionMethod" None None "issuer" credential /\
  exists document, signed_credential credential = inr document /\ verifies resolved document.

Lemma verify_credential_Ok credential resolved :
  is_Ok (verify_credential credential resolved) = true <->
  exists document, signed_credential credential = inr document /\ verifies resolved document.
Proof.
  unfold verify_credential. destruct (signed_credential credential) as [e|document]; cbn [lift_with mbind res_bind].
  { split; [done|by intros (?&?&_)]. }
  rewrite parameters_verify. split; [eauto|by intros (?&[= <-]&?)].
Qed.

Lemma verify_presentation_proof_Ok request :
  is_Ok (verify_presentation_proof request) = true <->
  exists document, signed_presentation (vq_document request) = inr document /\ verifies (vq_resolved request) document.
Proof.
  unfold verify_presentation_proof.
  destruct (signed_presentation (vq_document request)) as [e|document]; cbn [lift_with mbind res_bind].
  { split; [done|by intros (?&?&_)]. }
  rewrite parameters_verify. split; [eauto|by intros (?&[= <-]&?)].
Qed.

Lemma presented_credentials_spec credentials resolved : forall index,
  (snd (presented_credentials credentials index resolved) = [] <-> Forall (credential_holds resolved) credentials) /\
  (snd (presented_credentials credentials index resolved) = [] ->
   fst (presented_credentials credentials index resolved) = zlen credentials).
Proof.
  induction credentials as [|c credentials IH]; intros index; cbn [presented_credentials]; [by split|].
  destruct (IH (index + 1)) as [IH1 IH2].
  destruct (presented_credentials credentials (index + 1) resolved) as [n rest]. cbn [fst snd] in *.
  pose proof (verify_credential_no_panic c resolved) as Hp. apply error_of_nil in Hp.
  rewrite !app_nil, !fmap_nil_iff, Forall_cons, IH1, Hp.
  rewrite validate_proofs_nil, verify_credential_Ok, proofs_hold_by.
  split; [unfold credential_holds; tauto|].
  intros (_ & Hv & Hr). rewrite (proj2 (verify_credential_Ok c resolved) Hv), IH2 by (by apply IH1).
  rewrite zlen_cons. lia.
Qed.

(** The credentials of a presentation. *)
Definition presented (document : Value) (credentials : list Value) : Prop :=
  (value_get "verifiableCredential" document = None /\ credentials = []) \/
  value_get "verifiableCredential" document = Some (Array credentials).

Lemma is_absent_false o : is_absent o = false <-> exists s, o = Some s /\ s <> "".
Proof.
  destruct o as [s|]; cbn; [|split; [done|by intros (?&?&_)]].
  rewrite String.eqb_neq. split; [eauto|by intros (?&[= <-]&?)].
Qed.

(** C16: A presentation is reported valid exactly when the verifier expected a
    challenge and a domain, it carries proofs, each an [eddsa-rdfc-2022] proof
    for authentication over that challenge and domain, the presentation
    verifies, and each of its credentials carries such proofs for assertion and
    verifies: with the keys of the request, each bound to the controller that
    its id names, or with [did:key].  Where the presentation names a holder, or
    a credential an issuer, with an absolute identifier, the method of every
    proof must be one of that party; a presentation without such a holder, and
    a credential without such an issuer, may be proved by any method.  As many
    credentials are reported verified as were presented. *)
Theorem presentation_valid_exact request :
  let document := vq_document request in
  let resolved := vq_resolved request in
  (vs_valid (verify_presentation request) = true <->
   exists challenge domain presentation credentials,
     vq_expected_challenge request = Some challenge /\ challenge <> "" /\
     vq_expected_domain request = Some domain /\ domain <> "" /\
     proved_by "authentication" (Some challenge) (Some domain) "holder" document /\
     signed_presentation document = inr presentation /\ verifies resolved presentation /\
     presented document credentials /\ Forall (credential_holds resolved) credentials) /\
  (vs_valid (verify_presentation request) = true -> forall credentials, presented document credentials ->
   verified_credentials (verify_presentation request) = zlen credentials).
Proof.
  intros document resolved. unfold verify_presentation. fold document. fold resolved.
  pose proof (verify_presentation_proof_no_panic request) as Hp. apply error_of_nil in Hp.
  rewrite verify_presentation_proof_Ok in Hp. fold document resolved in Hp.
  assert (Hgates : forall a b, push_error (is_absent (vq_expected_challenge request)) a = [] /\
      push_error (is_absent (vq_expected_domain request)) b = [] <->
      exists challenge domain, vq_expected_challenge request = Some challenge /\ challenge <> "" /\
        vq_expected_domain request = Some domain /\ domain <> "").
  { intros a b. rewrite !push_error_nil, !is_absent_false. naive_solver. }
  set (found := match value_get "verifiableCredential" document with Some (Array values) => _ | Some _ => _ | None => _ end).
  assert (Hf : forall l, snd found = [] /\ l = fst found <-> presented document l).
  { intros l. unfold found, presented. destruct (value_get "verifiableCredential" document) as [[]|]; naive_solver. }
  destruct found as [credentials not_array]. cbn [fst snd] in Hf.
  destruct (presented_credentials_spec credentials resolved 0) as [Hs Hn].
  destruct (presented_credentials credentials 0 resolved) as [n errors]. cbn [fst snd vs_valid verified_credentials] in *.
  rewrite no_errors, !app_nil, validate_proofs_nil, Hp, Hs, proofs_hold_by.
  split.
  - split.
    + intros (Hpr & Hch & Hdo & (p & Hsp & Hvp) & Hna & Hcs).
      destruct (proj1 (Hgates _ _) (conj Hch Hdo)) as (challenge & domain & Ech & ? & Edo & ?).
      rewrite Ech, Edo in Hpr. exists challenge, domain, p, credentials. split_and!; try done. by apply Hf.
    + intros (challenge & domain & p & l & Ech & ? & Edo & ? & Hpr & ? & ? & Hl & Hcs).
      apply Hf in Hl as [Hna ->]. rewrite Ech, Edo. split_and!; try done; try (by apply push_error_nil, String.eqb_neq). eauto.
  - intros (_ & _ & _ & _ & _ & Hcs) l Hl. apply Hf in Hl as [_ ->]. apply Hn. by apply Hs.
Qed.
End verify.

(** ** VC-JWTs *)

Section jwt.
Context `{Rfc3339} `{Ssi} `{VcdmSerde} `{Base64Url}.

(** The objects of a credential's subject. *)
Definition subjects_of (vc : Value) : list Value :=
  match value_get "credentialSubject" vc with
  | Some (Object es) => [Object es]
  | Some (Array items) => items
  | _ => []
  end.

Definition nonempty_object (v : Value) : Prop := exists e es, v = Object (e :: es).

(** A date of the credential, where it is a text. *)
Definition text_date (vc : Value) (name : string) : option string := value_get name vc ≫= as_str.

(** What the claims of a VC-JWT must say at two instants. *)
Record ClaimsHold (claims vc : Value) (key_id : option string) (now1 now2 : Z) : Prop := {
  ch_context : has_v2_context vc = true;
  ch_type : has_type vc "VerifiableCredential" = true;
  ch_issuer : exists issuer, identifier vc "issuer" = Some issuer /\ proof_text claims "iss" = Some issuer /\
    (forall kid, key_id = Some kid -> str_starts_with issuer "did:" = true -> did_of kid = Some issuer);
  ch_subjects : subjects_of vc <> [] /\ Forall nonempty_object (subjects_of vc);
  ch_id : forall j i, proof_text claims "jti" = Some j -> proof_text vc "id" = Some i -> j = i;
  ch_subject : forall s, proof_text claims "sub" = Some s -> exists o, In o (subjects_of vc) /\ proof_text o "id" = Some s;
  ch_not_before : forall v, value_get "nbf" claims = Some v ->
    exists f, as_f64 v = Some f /\ f64_le f (f64_of_usize (timestamp now1)) = true;
  ch_expires : forall v, value_get "exp" claims = Some v ->
    exists f, as_f64 v = Some f /\ f64_lt (f64_of_usize (timestamp now1)) f = true;
  ch_valid_from : forall s, text_date vc "validFrom" = Some s -> exists f, parse_rfc3339 s = Some f /\ f <= now2;
  ch_valid_until : forall s, text_date vc "validUntil" = Some s -> exists u, parse_rfc3339 s = Some u /\ now2 < u;
}.

Lemma subject_errors_nil vc :
  subject_errors vc = [] <-> subjects_of vc <> [] /\ Forall nonempty_object (subjects_of vc).
Proof.
  unfold subject_errors, subjects_of, nonempty_object. rewrite push_error_nil, negb_false_iff.
  assert (Hn : forall v, match as_object v with Some (_ :: _) => true | _ => false end = true <-> exists e es, v = Object (e :: es)).
  { intros [| | | | |[|e es]]; cbn; naive_solver. }
  destruct (value_get "credentialSubject" vc) as [[| | | |l|[|e es]]|]; try (by split; [|intros []]).
  - destruct l as [|s l]; [by split; [|intros []]|]. rewrite forallb_forall, List.Forall_forall.
    split; [intros Hl; split; [done|]; intros x Hx; by apply Hn, Hl|intros [_ Hl] x Hx; by apply Hn, Hl].
  - split; [done|]. intros [_ Hf]. inversion Hf as [|? ? Hx]. naive_solver.
  - split; [|done]. intros _. split; [done|]. constructor; [eauto|done].
Qed.

Lemma jwt_issuer_errors_nil vc_issuer jwt_issuer key_id :
  jwt_issuer_errors vc_issuer jwt_issuer key_id = [] <->
  exists issuer, vc_issuer = Some issuer /\ jwt_issuer = Some issuer /\
    (forall kid, key_id = Some kid -> str_starts_with issuer "did:" = true -> did_of kid = Some issuer).
Proof.
  unfold jwt_issuer_errors. rewrite app_nil.
  destruct vc_issuer as [v|], jwt_issuer as [j|]; try (split; [by intros []|by intros (?&?&?&_)]).
  rewrite push_error_nil, negb_false_iff, String.eqb_eq. destruct key_id as [kid|].
  - rewrite push_error_nil, andb_false_iff, negb_bool_decide_false.
    split; [intros (-> & Hk); exists j; split_and!; try done; intros ? [= <-] ?; destruct Hk; congruence|].
    intros (i & [= ->] & [= ->] & Hk). split; [done|]. destruct (str_starts_with i "did:"); [right; by apply Hk|by left].
  - split; [intros [-> _]; by exists j|]. by intros (i & [= ->] & [= ->] & _).
Qed.

Lemma mapping_errors_nil claims vc claim property :
  mapping_errors claims vc claim property = [] <->
  (forall j i, proof_text claims claim = Some j -> proof_text vc property = Some i -> j = i).
Proof.
  unfold mapping_errors, proof_text.
  destruct (value_get claim claims ≫= as_str), (value_get property vc ≫= as_str); try (by split).
  rewrite push_error_nil, negb_false_iff, String.eqb_eq. naive_solver.
Qed.

Lemma jwt_subject_errors_nil claims vc :
  jwt_subject_errors claims vc = [] <->
  (forall s, proof_text claims "sub" = Some s -> exists o, In o (subjects_of vc) /\ proof_text o "id" = Some s).
Proof.
  unfold jwt_subject_errors, subjects_of. fold (proof_text claims "sub"). destruct (proof_text claims "sub") as [s|]; [|by split].
  rewrite push_error_nil, negb_false_iff.
  transitivity (exists o, In o (subjects_of vc) /\ proof_text o "id" = Some s); [|unfold subjects_of; naive_solver].
  unfold subjects_of, proof_text. destruct (value_get "credentialSubject" vc) as [[]|]; try (split; [done|by intros (?&[]&_)]).
  - rewrite existsb_exists. split; intros (o & Ho & Hs); exists o; (split; [done|]); by apply bool_decide_eq_true in Hs || apply bool_decide_eq_true.
  - rewrite bool_decide_eq_true. split; [intros Hs; eexists; split; [by left|exact Hs]|by intros (?&[<-|[]]&Hs)].
Qed.

Lemma numeric_date_errors_nil claims now :
  numeric_date_errors claims now = [] <->
  (forall v, value_get "nbf" claims = Some v -> exists f, as_f64 v = Some f /\ f64_le f (f64_of_usize (timestamp now)) = true) /\
  (forall v, value_get "exp" claims = Some v -> exists f, as_f64 v = Some f /\ f64_lt (f64_of_usize (timestamp now)) f = true).
Proof.
  unfold numeric_date_errors. generalize (f64_of_usize (timestamp now)). intros t. rewrite app_nil.
  assert (Hd : forall d (test : spec_float -> bool) a b,
    match d with
    | Some v => match as_f64 v with Some f => push_error (negb (test f)) a | None => [b] end
    | None => []
    end = [] <-> (forall v, d = Some v -> exists f, as_f64 v = Some f /\ test f = true)).
  { intros [v|] test a b; [|by split]. destruct (as_f64 v) as [f|] eqn:Hf.
    - rewrite push_error_nil, negb_false_iff. naive_solver.
    - split; [done|]. intros Hx. destruct (Hx v eq_refl) as (?&?&_). congruence. }
  rewrite (Hd _ (fun f => f64_le f t)), (Hd _ (fun f => f64_lt t f)). done.
Qed.

Lemma credential_date_errors_nil vc now :
  credential_date_errors vc now = [] <->
  (forall s, text_date vc "validFrom" = Some s -> exists f, parse_rfc3339 s = Some f /\ f <= now) /\
  (forall s, text_date vc "validUntil" = Some s -> exists u, parse_rfc3339 s = Some u /\ now < u).
Proof.
  unfold credential_date_errors. fold (text_date vc "validFrom"). fold (text_date vc "validUntil").
  rewrite !app_nil, !push_error_nil, !bool_decide_eq_false.
  destruct (text_date vc "validFrom") as [f|], (text_date vc "validUntil") as [u|]; cbn [fmap option_fmap option_map].
  all: repeat match goal with |- context [parse_rfc3339 ?s] => destruct (parse_rfc3339 s) eqn:? end.
  all: rewrite ?push_error_nil, ?Z.ltb_ge, ?Z.leb_gt.
  all: split; [intros Hx; split; intros s Hs; simplify_eq; destruct_and?; try done; (eexists; split; [done|lia])|].
  all: intros [Hf Hu]; repeat match goal with
    | Hx : forall s, Some ?a = Some s -> _ |- _ => destruct (Hx a eq_refl) as (?&?&?); clear Hx; simplify_eq end.
  all: split_and!; try done; try congruence; lia.
Qed.

Lemma claims_hold_iff claims key_id now1 now2 :
  validate_vcdm_jwt_claims claims key_id now1 now2 = [] <->
  exists es, value_get "vc" claims = Some (Object es) /\ ClaimsHold claims (Object es) key_id now1 now2.
Proof.
  unfold validate_vcdm_jwt_claims.
  destruct (value_get "vc" claims) as [[]|]; cbn [mbind option_bind as_object]; try (split; [done|by intros (?&?&_)]).
  rewrite !app_nil, !push_error_nil, !negb_false_iff, jwt_issuer_errors_nil, subject_errors_nil, mapping_errors_nil,
    jwt_subject_errors_nil, numeric_date_errors_nil, credential_date_errors_nil. split.
  - intros (?&?&?&?&?&?&[? ?]&[? ?]). eexists; split; [done|]. by constructor.
  - intros (? & [= <-] & [? ? ? [? ?] ? ? ? ? ? ?]). by split_and!.
Qed.

(** The key a token is verified with: the public key of the request, without
    private parameters, or else the one of a [did:key] that the header names. *)
Definition jwt_key (request : VerifyJwtRequest) (key_id : option string) (key : SsiJwk) : Prop :=
  (exists v es, vj_issuer_public_jwk request = Some v /\ as_object v = Some es /\
     (forall p, In p VCDM_PRIVATE_PARAMETERS -> contains_key p es = false) /\ jwk_from_json v = inr key) \/
  (vj_issuer_public_jwk request = None /\
   exists kid, key_id = Some kid /\ str_starts_with kid "did:key:" = true /\ is_Some (split_once "#" kid) /\
     did_key_jwk kid = inr key).

Lemma parse_public_jwk_Ok v key :
  parse_public_jwk v = Ok key <->
  exists es, as_object v = Some es /\ (forall p, In p VCDM_PRIVATE_PARAMETERS -> contains_key p es = false) /\ jwk_from_json v = inr key.
Proof.
  unfold parse_public_jwk. rewrite bind_Ok. setoid_rewrite ok_or_Ok. split.
  - intros (es & He & Hk). exists es. split; [done|]. destruct (List.find _ _) as [p|] eqn:Hf; [done|].
    cbn [mbind res_bind] in Hk. apply lift_with_Ok in Hk. split; [|done]. intros p Hp.
    by apply (find_none _ _ Hf) in Hp.
  - intros (es & He & Hp & Hk). exists es. split; [done|]. destruct (List.find _ _) as [p|] eqn:Hf.
    + apply find_some in Hf as [Hin Hf]. by rewrite Hp in Hf.
    + cbn [mbind res_bind]. by apply lift_with_Ok.
Qed.

Lemma jwt_verification_key_Ok request key_id key :
  jwt_verification_key (vj_issuer_public_jwk request) key_id = Ok key <-> jwt_key request key_id key.
Proof.
  unfold jwt_verification_key, jwt_key. destruct (vj_issuer_public_jwk request) as [v|].
  - rewrite parse_public_jwk_Ok. split; [intros (es & ?); left; by exists v, es|]. intros [(?&es&[= <-]&?)|[? _]]; [by exists es|done].
  - split.
    + intros Hk. res_inv. apply andb_true_iff in H4 as [Hd Hs]. apply bool_decide_eq_true in Hs. apply lift_with_Ok in Hk.
      right. split; [done|]. eauto 7.
    + intros [(?&?&?&_)|(_ & kid & -> & Hd & Hs & Hk)]; [done|]. cbn [ok_or mbind res_bind].
      rewrite Hd, bool_decide_eq_true_2 by done. cbn [andb ensure mbind res_bind]. by apply lift_with_Ok.
Qed.

(** A token's claims, under a key that the request or the header fixes. *)
Definition authenticated (request : VerifyJwtRequest) (header verified : JwsHeader) (claims : Value) : Prop :=
  exists payload es key verified_payload,
    jws_decode_unverified (vj_token request) = inr (header, payload) /\
    (jws_algorithm header = "EdDSA" \/ jws_algorithm header = "ES256") /\ read_value payload = inr (Object es) /\
    jwt_key request (jws_key_id header) key /\
    jws_decode_verify (vj_token request) key = inr (verified, verified_payload) /\
    read_value verified_payload = inr claims.

Lemma one_of_pair s a b : one_of s [a; b] = true <-> s = a \/ s = b.
Proof. unfold one_of. cbn [existsb]. rewrite !orb_true_iff, !String.eqb_eq. naive_solver. Qed.

Definition jwt_outcome (algorithm : string) (verified : JwsHeader) (claims : Value) (now1 now2 : Z) : VerifyJwtResult :=
  let errors := (validate_vcdm_jwt_claims claims (jws_key_id verified) now1 now2
                 ++ push_error (negb (String.eqb (jws_algorithm verified) algorithm))
                      "VC-JWT protected algorithm changed during verification")%list in
  mkVerifyJwtResult (match errors with [] => true | _ => false end) (Some algorithm)
    (proof_text claims "iss") (Some claims) errors.

(** The result is a failure without claims, or the outcome of authenticated ones. *)
Lemma verify_jwt_cases request now1 now2 :
  (jr_valid (verify_jwt request now1 now2) = false /\ jr_claims (verify_jwt request now1 now2) = None /\
   forall header verified claims, ~ authenticated request header verified claims) \/
  (exists header verified claims, authenticated request header verified claims /\
     verify_jwt request now1 now2 = jwt_outcome (jws_algorithm header) verified claims now1 now2).
Proof.
  unfold verify_jwt, authenticated.
  destruct (jws_decode_unverified (vj_token request)) as [e|[header payload]]; [left; split_and!; try done; intros ? ? ? (?&?&?&?&?&?&?&_); congruence|].
  destruct (one_of (jws_algorithm header) ["EdDSA"; "ES256"]) eqn:Ha; cbn [negb].
  2:{ left. split_and!; try done. intros h v c (?&?&?&?&[= <- <-]&Hx&_). by rewrite <- one_of_pair, Ha in Hx. }
  apply one_of_pair in Ha. destruct (read_value payload) as [e|v] eqn:Hr; [left; split_and!; try done; intros ? ? ? (?&?&?&?&?&?&?&_); congruence|].
  destruct v as [| | | | |es]; try (left; split_and!; try done; intros ? ? ? (?&?&?&?&?&?&?&_); congruence).
  pose proof (jwt_verification_key_Ok request (jws_key_id header)) as Hkey.
  destruct (jwt_verification_key (vj_issuer_public_jwk request) (jws_key_id header)) as [key|e|].
  2,3: left; split_and!; try done; intros h v c (?&?&k&?&[= <- <-]&_&_&Hk&_); by apply Hkey in Hk.
  unfold verify_jwt_with_key. pose proof (proj1 (Hkey key) eq_refl) as Hk.
  assert (Huniq : forall k, jwt_key request (jws_key_id header) k -> k = key) by (intros k [= ->]%Hkey; done).
  destruct (jws_decode_verify (vj_token request) key) as [e|[vh vp]] eqn:Hv.
  { left. split_and!; try done. intros h v c (?&?&k&?&[= <- <-]&_&_&->%Huniq&?&_). congruence. }
  destruct (read_value vp) as [e|claims] eqn:Hc.
  { left. split_and!; try done. intros h v c (?&?&k&?&[= <- <-]&_&_&->%Huniq&?&?). congruence. }
  right. exists header, vh, claims. split; [|done]. by exists payload, es, key, vp.
Qed.

Lemma authenticated_fun request h1 v1 c1 h2 v2 c2 :
  authenticated request h1 v1 c1 -> authenticated request h2 v2 c2 -> h1 = h2 /\ v1 = v2 /\ c1 = c2.
Proof.
  intros (p1&e1&k1&w1&Hd1&_&_&Hk1&Hv1&Hc1) (p2&e2&k2&w2&Hd2&_&_&Hk2&Hv2&Hc2).
  rewrite Hd1 in Hd2. injection Hd2 as <- <-. apply jwt_verification_key_Ok in Hk1, Hk2.
  rewrite Hk1 in Hk2. injection Hk2 as <-. rewrite Hv1 in Hv2. injection Hv2 as <- <-. split_and!; congruence.
Qed.

(** C17: A VC-JWT is reported valid exactly when its header names EdDSA or ES256,
    its signature verifies under the public key of the request (or of the
    [did:key] that the header names, when the request has none), the verified
    header keeps the algorithm, and the verified claims bind the issuer, the key,
    the identifiers and the subject of a VCDM 2 credential that is in force.
    Claims are reported only when the signature over them verified. *)
Theorem vc_jwt_valid_exact request now1 now2 :
  (jr_valid (verify_jwt request now1 now2) = true <->
   exists header verified claims es,
     authenticated request header verified claims /\ jws_algorithm verified = jws_algorithm header /\
     value_get "vc" claims = Some (Object es) /\ ClaimsHold claims (Object es) (jws_key_id verified) now1 now2) /\
  (forall claims, jr_claims (verify_jwt request now1 now2) = Some claims <->
   exists header verified, authenticated request header verified claims).
Proof.
  destruct (verify_jwt_cases request now1 now2) as [(-> & -> & Hno)|(header & verified & claims & Hau & ->)].
  { split; [split; [done|intros (?&?&?&?&Hx&_); by apply Hno in Hx]|]. intros c. split; [done|intros (?&?&Hx); by apply Hno in Hx]. }
  cbn [jwt_outcome jr_valid jr_claims]. rewrite no_errors, app_nil, claims_hold_iff, push_error_nil, negb_false_iff, String.eqb_eq.
  split; [split|].
  - intros ((es & Hvc & Hh) & Ha). eauto 9.
  - intros (h & v & c & es & Hx & Ha & Hvc & Hh). destruct (authenticated_fun _ _ _ _ _ _ _ Hau Hx) as (<- & <- & <-). eauto.
  - intros c. split; [intros [= <-]; eauto|]. intros (h & v & Hx).
    by destruct (authenticated_fun _ _ _ _ _ _ _ Hau Hx) as (_ & _ & <-).
Qed.
End jwt.

(** ** Completion of a remotely signed credential *)

Section completion.
Context `{Rfc3339} `{Ssi} `{VcdmSerde} `{Base64Url}.

(** The credential with a signature under its proof. *)
Definition with_proof_value (es proof : JsonMap) (signature : bytes) : Value :=
  Object (map_insert "proof" (Object (map_insert "proofValue" (VString ("z" +:+ bs58_encode signature)) proof)) es).

Lemma completed_credential_Ok p signature completed :
  completed_credential p signature = Ok completed ->
  exists es proof, pd_credential p = Object es /\ map_get "proof" es = Some (Object proof) /\
    completed = with_proof_value es proof signature /\
    proof_text (Object proof) "type" = Some "DataIntegrityProof" /\
    proof_text (Object proof) "cryptosuite" = Some "eddsa-rdfc-2022" /\
    proof_text (Object proof) "proofPurpose" = Some "assertionMethod" /\
    proof_text (Object proof) "verificationMethod" = Some (pd_method_id p).
Proof.
  unfold completed_credential. intros Hc. res_inv. destruct (pd_credential p) as [| | | | |es]; try done.
  match goal with Hp : value_get "proof" _ ≫= as_object = Some ?m |- _ => rename m into proof, Hp into Hproof end.
  cbn [value_get as_object mbind option_bind] in Hproof. destruct (map_get "proof" es) as [[]|] eqn:Hg; simplify_eq/=.
  breflect. by exists es, proof.
Qed.

(** The completed document keeps every member but the proof, and every member of
    the proof but its value. *)
Lemma with_proof_value_get es proof signature name :
  name <> "proof" -> value_get name (with_proof_value es proof signature) = map_get name es.
Proof. intros Hn. cbn. rewrite map_get_insert. destruct (String.eqb_spec "proof" name); congruence. Qed.

Lemma identifier_kept es proof signature :
  identifier (with_proof_value es proof signature) "issuer" = identifier (Object es) "issuer".
Proof. unfold identifier. by rewrite with_proof_value_get. Qed.

Lemma completed_proof_holds es proof signature method issuer fragment :
  split_once "#" method = Some (issuer, fragment) -> str_starts_with issuer "did:" = true ->
  proof_text (Object proof) "type" = Some "DataIntegrityProof" ->
  proof_text (Object proof) "cryptosuite" = Some "eddsa-rdfc-2022" ->
  proof_text (Object proof) "proofPurpose" = Some "assertionMethod" ->
  proof_text (Object proof) "verificationMethod" = Some method ->
  proofs_hold "assertionMethod" None None (Some issuer) (with_proof_value es proof signature) <->
  fragment <> "" /\ bs58_encode signature <> "".
Proof.
  intros Hs Hd Ht Hc Hp Hm. unfold proofs_hold, document_proofs.
  replace (value_get "proof" (with_proof_value es proof signature))
    with (Some (Object (map_insert "proofValue" (VString ("z" +:+ bs58_encode signature)) proof)))
    by (cbn; by rewrite map_get_insert).
  set (proof' := map_insert _ _ _).
  assert (Hother : forall name, name <> "proofValue" -> proof_text (Object proof') name = proof_text (Object proof) name).
  { intros name Hn. unfold proof_text, proof'. cbn. rewrite map_get_insert. destruct (String.eqb_spec "proofValue" name); congruence. }
  assert (Hvalue : proof_text (Object proof') "proofValue" = Some ("z" +:+ bs58_encode signature)).
  { unfold proof_text, proof'. cbn. by rewrite map_get_insert. }
  split.
  - intros (ps & [= <-] & _ & [[_ _ _ (m & did & fr & Hm' & _ & Hs' & _ & Hf & _) (v & Hv & _ & Hl) _ _] _]%Forall_cons).
    rewrite Hother in Hm' by done. rewrite Hm in Hm'. injection Hm' as <-. rewrite Hs in Hs'. injection Hs' as <- <-. split; [done|].
    rewrite Hvalue in Hv. injection Hv as <-. intros He. rewrite He in Hl. vm_compute in Hl. done.
  - intros [Hf Hb]. eexists. split; [done|]. split; [done|]. apply Forall_cons; split; [|done].
    constructor; try (by intros e); try (by rewrite Hother by done).
    + exists method, issuer, fragment. rewrite Hother by done. split_and!; try done.
      * rewrite (split_once_join _ _ _ _ Hs). by apply str_starts_with_prefix.
      * by intros ->.
      * by intros c [= <-].
    + exists ("z" +:+ bs58_encode signature). split_and!; [done|by apply (str_starts_with_prefix "z" "z")|].
      unfold str_len. destruct (bs58_encode signature) as [|c r]; [done|].
      change (String.length ("z" +:+ String c r)) with (S (S (String.length r))). lia.
Qed.

Lemma validate_identity_Ok credential issuer method u :
  validate_data_integrity_identity credential issuer method = Ok u ->
  str_starts_with issuer "did:" = true /\ identifier credential "issuer" = Some issuer /\
  exists fragment, split_once "#" method = Some (issuer, fragment).
Proof.
  unfold validate_data_integrity_identity. intros Hi. res_inv. breflect. split_and!; try done.
  unfold did_of in *. destruct (split_once "#" method) as [[d f]|]; simplify_eq/=. eauto.
Qed.

(** C18: A completed credential is the prepared one with nothing changed but the
    value of its proof, which the key frozen at preparation validates: 64 bytes,
    by a method of the credential's own issuer.  The verifier accepts the shape of
    its proof exactly when the method names a key. *)
Theorem completed_credential_bound request s : complete_credential request = Ok s ->
  let p := cr_prepared request in
  exists es proof signature key method document fragment,
    let completed := with_proof_value es proof signature in
    pd_credential p = Object es /\ map_get "proof" es = Some (Object proof) /\ write_value completed = inr s /\
    (forall name, name <> "proof" -> value_get name completed = value_get name (pd_credential p)) /\
    b64_decode (cr_signature_b64 request) = inr signature /\ zlen signature = ED25519_SIGNATURE_BYTES /\
    parse_public_jwk (pd_public_jwk p) = Ok key /\ ed25519_multikey key (pd_issuer_did p) (pd_method_id p) = Ok method /\
    signed_credential completed = inr document /\
    validate_proof (map_resolver {[pd_method_id p := method]}) document = SsiValid /\
    identifier completed "issuer" = Some (pd_issuer_did p) /\ split_once "#" (pd_method_id p) = Some (pd_issuer_did p, fragment) /\
    (bs58_encode signature <> "" ->
     (proofs_hold "assertionMethod" None None (identifier completed "issuer") completed <-> fragment <> "")).
Proof.
  intros Hc p. unfold complete_credential in Hc. fold p in Hc. res_inv.
  match goal with Hv : validate_data_integrity_identity _ _ _ = Ok _ |- _ =>
    apply validate_identity_Ok in Hv as (Hd & Hi & fragment & Hs) end.
  match goal with Hk : completed_credential _ _ = Ok _ |- _ =>
    apply completed_credential_Ok in Hk as (es & proof & Hes & Hproof & -> & Ht & Hy & Hu & Hm) end.
  match goal with Hk : lift_with _ (b64_decode _) = Ok _ |- _ => apply lift_with_Ok in Hk end.
  match goal with Hk : lift_with _ (signed_credential _) = Ok _ |- _ => apply lift_with_Ok in Hk end.
  match goal with Hk : ed25519_multikey _ _ _ = Ok _ |- _ =>
    destruct (ed25519_multikey_names _ _ _ _ Hk) as [Hid _]; rewrite Hid in Hc end.
  destruct (validate_proof _ _) eqn:Hp; [|done..]. apply lift_with_Ok in Hc. breflect.
  rewrite Hes in Hi. do 7 eexists. cbn zeta. rewrite identifier_kept, Hi, Hes.
  repeat (split; [first [eassumption|done|lia|intros; by apply with_proof_value_get]|]).
  intros Hb. rewrite completed_proof_holds by eassumption. tauto.
Qed.
End completion.

(** ** A concrete suite *)

(** A suite in which every key is one byte and the proof of a document verifies
    when the method it refers to resolves. *)
Module ToySsi.
Definition document_method (v : Value) : MethodRef :=
  match value_get "proof" v ≫= (fun p => proof_text p "verificationMethod") with Some id => Reference id | None => NoMethod end.

Definition toy_validate (r : MethodRef -> string + Multikey) (v : Value) : SsiVerdict :=
  match r (document_method v) with inr _ => SsiValid | inl e => SsiInvalid e end.

#[export] Instance toy_ssi : Ssi := {
  SsiJwk := Value;
  SsiDocument := Value;
  jwk_from_json := inr;
  jwk_to_json := inr;
  jwk_params _ := JwkOKP "Ed25519" [7] false;
  verifying_key := inr;
  iri_new _ := inr tt;
  uri_new _ := inr tt;
  context_loader := inr tt;
  plain_credential := inr;
  signed_credential := inr;
  signed_presentation := inr;
  sign_with St sign st v _ id :=
    match sign st (mkSignCall id "EdDSA" "None" (replicate 64 5)) with
    | (st, Some (inr _)) => (st, inr v) | (st, _) => (st, inl "no signer") end;
  document_to_json := inr;
  map_resolver m r := match r with Reference id => match m !! id with Some k => inr k | None => inl "unknown method" end
                                 | _ => inl "unknown method" end;
  did_key_resolver _ := inl "no did:key";
  validate_proof := toy_validate;
  verify_document := toy_validate;
  jws_decode_unverified _ := inr (mkJwsHeader "EdDSA" (Some "did:ex:i#k"), []);
  jws_decode_verify _ _ := inr (mkJwsHeader "EdDSA" (Some "did:ex:i#k"), []);
  did_key_jwk _ := inl "no did:key";
  bs58_encode _ := "y";
}.

Definition proof_of (method purpose : string) : Value :=
  Object [("type", VString "DataIntegrityProof"); ("cryptosuite", VString "eddsa-rdfc-2022"); ("proofPurpose", VString purpose);
          ("verificationMethod", VString method); ("proofValue", VString "zx"); ("challenge", VString "c"); ("domain", VString "d")].

Definition credential : Value :=
  Object [("@context", VString VCDM_V2_BASE_CONTEXT); ("type", VString "VerifiableCredential"); ("issuer", VString "did:ex:i");
          ("credentialSubject", Object [("id", VString "did:ex:s")]); ("proof", proof_of "did:ex:i#k" "assertionMethod")].

Definition presentation : Value :=
  Object [("type", VString "VerifiablePresentation"); ("holder", VString "did:ex:h");
          ("verifiableCredential", Array [credential]); ("proof", proof_of "did:ex:h#k" "authentication")].

Definition claims : Value :=
  Object [("iss", VString "did:ex:i"); ("sub", VString "did:ex:s"); ("vc", credential)].

#[export] Instance toy_serde : VcdmSerde := {
  read_issuance_request _ := None;
  read_digests_request _ := None;
  read_verify_request _ := inl "";
  read_jwt_request _ := inl "";
  read_prepare_request _ := inl "";
  read_complete_request _ := inl "";
  read_value _ := inr claims;
  write_value _ := inr "text";
  number_as_f64 _ := None;
}.

#[export] Instance toy_dates : Rfc3339 := fun _ => None.

Definition keys : list ResolvedVerificationMethod :=
  [mkResolved "did:ex:i#k" "did:ex:i" (Object []); mkResolved "did:ex:h#k" "did:ex:h" (Object [])].

(** A presentation with one credential, and a token, that the verifiers accept. *)
Example presentation_accepted :
  verify_presentation (mkVerifyReq presentation (Some "c") (Some "d") keys) = mkVerifyResult true "presentation" 1 1 [].
Proof. vm_compute. reflexivity. Qed.

(** Without a holder, a presentation proved by any method is accepted. *)
Example holderless_presentation_accepted :
  let document := Object [("type", VString "VerifiablePresentation"); ("verifiableCredential", Array [credential]);
                          ("proof", proof_of "did:ex:i#k" "authentication")] in
  verify_presentation (mkVerifyReq document (Some "c") (Some "d") keys) = mkVerifyResult true "presentation" 1 1 [].
Proof. vm_compute. reflexivity. Qed.

Example vc_jwt_accepted : jr_valid (verify_jwt (mkVerifyJwtReq "t" (Some (Object []))) 0 0) = true.
Proof. vm_compute. reflexivity. Qed.

(** A [validUntil] that is not a text is no date: the token never expires, while
    the same credential is refused for issuance. *)
Example numeric_valid_until_ignored :
  let vc := Object [("validUntil", Number "1")] in
  (forall now, credential_date_errors vc now = []) /\
  validate_data_integrity_issuance_dates vc = Err "Credential `validUntil` must be an RFC 3339 date-time".
Proof. split; reflexivity. Qed.

Definition completion : CompleteRequest :=
  mkCompleteReq (mkPreparedDi credential "did:ex:i" "did:ex:i#k" (Object []) "EdDSA" (b64_encode (replicate 64 5)))
    (b64_encode (replicate 64 9)).

Lemma completed_credential_bound_witness :
  complete_credential completion = Ok "text" /\
  exists es proof signature, with_proof_value es proof signature <> credential /\ zlen signature = 64.
Proof.
  assert (Hc : complete_credential completion = Ok "text") by (vm_compute; reflexivity).
  split; [exact Hc|].
  destruct (completed_credential_bound completion "text" Hc)
    as (es & proof & signature & _ & _ & _ & _ & Hes & Hproof & _ & _ & _ & Hl & _).
  exists es, proof, signature. split; [|exact Hl]. injection Hes as <-. injection Hproof as <-. discriminate.
Defined.
End ToySsi.
