(* ===== verification/DecisionResult.v ===== *)
(** * Canonical verification results (marty-verification, [verification/result.rs])

    The assembly of a decision result: validation of its provenance, canonical
    instants, and the decision of the required-check reducer, which callers cannot
    set.  A text is its UTF-8 bytes; instants are nanoseconds since the epoch; the
    formatter of [chrono] and the [uuid] parser are parameters. *)

From stdpp Require Import pretty.
From S2P Require Import Prelude Governance DeviceAuth TrustSync VcdmIssuance Decision.
Local Open Scope string_scope.
Local Open Scope Z_scope.

#[local] Abbreviation bytes := (list Z).

(** [src/marty-verification/src/verification/result.rs:14-17] VERIFICATION_DECISION_SCHEMA_VERSION and the bounds *)
Definition VERIFICATION_DECISION_SCHEMA_VERSION : string := "1.0.0".
Definition MAX_VERIFICATION_COMPONENTS : Z := 32.
Definition MAX_VERIFICATION_CHECKS : Z := 1024.
Definition MAX_CHECK_EVIDENCE_REFS : Z := 16.

(** REQUIRED_CHECK_REDUCER_ID and REQUIRED_CHECK_REDUCER_VERSION of [verification/decision.rs], lines 11 to 15. *)
Definition REQUIRED_CHECK_REDUCER_ID : string := "mip.required-check-reducer".
Definition REQUIRED_CHECK_REDUCER_VERSION : string := "1.0.0".

(** [src/marty-verification/src/verification/result.rs:22-25] VerificationContextMode *)
Inductive VerificationContextMode := ContextOnline | ContextOffline.

(** [src/marty-verification/src/verification/result.rs:30-41] VerificationDecisionContext *)
Record VerificationDecisionContext := mkDecisionContext {
  dc_mode : VerificationContextMode;
  dc_verifier_id : string;
  dc_organization_id : option string;
  dc_transaction_id : option string;
  dc_audience : option string;
  dc_offline_profile_id : option string;
}.

(** [src/marty-verification/src/verification/result.rs:46-50] VerificationProfileReference *)
Record VerificationProfileReference := mkProfileRef { pf_id : string; pf_version : string; pf_content_digest : string }.

(** [src/marty-verification/src/verification/result.rs:55-63] VerificationComponentVersion *)
Record VerificationComponentVersion := mkComponent {
  cv_component_id : string;
  cv_version : string;
  cv_artifact_digest : string;
  cv_adapter_id : option string;
  cv_adapter_version : option string;
}.

(** [src/marty-verification/src/verification/result.rs:67-70] VerificationReducerReference *)
Record VerificationReducerReference := mkReducerRef { rr_reducer_id : string; rr_version : string }.

(** [src/marty-verification/src/verification/result.rs:78-89] VerificationDecisionResultInput *)
Record VerificationDecisionResultInput := mkResultInput {
  ri_verification_id : string;
  ri_context : VerificationDecisionContext;
  ri_processing_status : VerificationProcessingStatus;
  ri_evaluated_at : string;
  ri_input_digest : string;
  ri_evidence_digest : string;
  ri_policy : VerificationProfileReference;
  ri_trust_profile : VerificationProfileReference;
  ri_components : list VerificationComponentVersion;
  ri_checks : list VerificationCheckResult;
}.

(** [src/marty-verification/src/verification/result.rs:94-111] VerificationDecisionResult *)
Record VerificationDecisionResult := mkDecisionResult {
  dr_schema_version : string;
  dr_verification_id : string;
  dr_context : VerificationDecisionContext;
  dr_processing_status : VerificationProcessingStatus;
  dr_decision : VerificationDecision;
  dr_decision_code : VerificationDecisionCode;
  dr_valid : bool;
  dr_evaluated_at : string;
  dr_input_digest : string;
  dr_evidence_digest : string;
  dr_policy : VerificationProfileReference;
  dr_trust_profile : VerificationProfileReference;
  dr_reducer : VerificationReducerReference;
  dr_components : list VerificationComponentVersion;
  dr_checks : list VerificationCheckResult;
  dr_category_summaries : list VerificationCategorySummary;
}.

(** [src/marty-verification/src/verification/result.rs:180-202] VerificationDecisionResultError *)
Inductive VerificationDecisionResultError :=
| InvalidField (field reason : string)
| InvalidContextShape (mode : VerificationContextMode)
| InvalidComponentCount
| TooManyChecks
| DuplicateComponentId (component_id : string)
| IncompleteAdapterReference (component_id : string)
| UndeclaredCheckComponent (check_id component_id : string)
| Reduction (e : VerificationReductionError).

#[local] Abbreviation result := (res VerificationDecisionResultError).

(** ** Texts *)

(** A condition on the bytes of a text, each with its index. *)
Fixpoint all_indexed (allowed : Z -> Z -> bool) (index : Z) (bs : bytes) : bool :=
  match bs with [] => true | b :: bs => allowed index b && all_indexed allowed (index + 1) bs end.

Definition is_ascii_text (s : string) : bool := forallb (fun b => b <? 128) (str_bytes s).
Definition is_lower (b : Z) : bool := (97 <=? b) && (b <=? 122).
Definition is_upper (b : Z) : bool := (65 <=? b) && (b <=? 90).
Definition is_digit_byte (b : Z) : bool := (48 <=? b) && (b <=? 57).

(** [src/marty-verification/src/verification/result.rs:498-516] validate_ascii_pattern *)
Definition validate_ascii_pattern (field value : string) (min max : Z) (allowed : Z -> Z -> bool) : result unit :=
  ensure (negb ((str_len value <? min) || (max <? str_len value) || negb (is_ascii_text value)
                || negb (all_indexed allowed 0 (str_bytes value))))
    (InvalidField field "does not match the canonical identifier pattern").

(** [src/marty-verification/src/verification/result.rs:379-382] validate_scoped_id, the bytes *)
Definition scoped_byte (index byte : Z) : bool :=
  is_ascii_alnum byte || ((0 <? index) && existsb (Z.eqb byte) [46; 95; 58; 47; 45]).

(** [src/marty-verification/src/verification/result.rs:374-383] validate_scoped_id *)
Definition validate_scoped_id (field value : string) (max : Z) : result unit := validate_ascii_pattern field value 1 max scoped_byte.

(** [src/marty-verification/src/verification/result.rs:390-396] validate_lower_id, the bytes *)
Definition lower_id_byte (index byte : Z) : bool :=
  if index =? 0 then is_lower byte else is_lower byte || is_digit_byte byte || existsb (Z.eqb byte) [46; 95; 45].

(** [src/marty-verification/src/verification/result.rs:385-397] validate_lower_id *)
Definition validate_lower_id (field value : string) (max : Z) : result unit := validate_ascii_pattern field value 1 max lower_id_byte.

(** [src/marty-verification/src/verification/result.rs:400-402] validate_version, the bytes *)
Definition version_byte (index byte : Z) : bool :=
  is_ascii_alnum byte || ((0 <? index) && existsb (Z.eqb byte) [46; 95; 43; 45]).

(** [src/marty-verification/src/verification/result.rs:399-403] validate_version *)
Definition validate_version (field value : string) : result unit := validate_ascii_pattern field value 1 64 version_byte.

(** [src/marty-verification/src/verification/result.rs:406-412] validate_code, the bytes *)
Definition code_byte (index byte : Z) : bool :=
  if index =? 0 then is_upper byte else is_upper byte || is_digit_byte byte || (byte =? 95).

(** [src/marty-verification/src/verification/result.rs:405-413] validate_code *)
Definition validate_code (field value : string) : result unit := validate_ascii_pattern field value 3 96 code_byte.

(** [src/marty-verification/src/verification/result.rs:421-428] validate_check_id, one segment *)
Definition check_id_segment (segment : bytes) : bool :=
  match segment with
  | [] => false
  | b :: _ => is_lower b && forallb (fun b => is_lower b || is_digit_byte b || (b =? 95)) segment
  end.

(** [src/marty-verification/src/verification/result.rs:415-432] validate_check_id *)
Definition validate_check_id (field value : string) : result unit :=
  let error := InvalidField field "must be a bounded dotted lowercase identifier" in
  _ ← ensure (negb ((str_len value <? 3) || (128 <? str_len value) || negb (is_ascii_text value))) error;
  let segments := split_at 46 (str_bytes value) in
  ensure (negb ((zlen segments <? 2) || existsb (fun s => negb (check_id_segment s)) segments)) error.

(** [src/marty-verification/src/verification/result.rs:455-467] validate_digest *)
Definition validate_digest (field value : string) : result unit :=
  let error := InvalidField field "must be a lowercase SHA-256 digest" in
  hex ← ok_or (strip_prefix "sha256:" value) error;
  ensure (negb (negb (str_len hex =? 64) || negb (forallb lower_hex_byte (str_bytes hex)))) error.

(** [value.chars().count()]: the bytes that start a character. *)
Definition char_count (value : string) : Z := zlen (List.filter (fun b => negb ((128 <=? b) && (b <? 192))) (str_bytes value)).

(** [src/marty-verification/src/verification/result.rs:485-496] validate_bounded_text *)
Definition validate_bounded_text (field value : string) (min max : Z) : result unit :=
  let length := char_count value in
  ensure (negb ((length <? min) || (max <? length))) (InvalidField field "text length is outside protocol bounds").

(** The text of an instant in UTC, [to_rfc3339_opts(SecondsFormat::AutoSi, true)]. *)
Class UtcText := utc_text : Z -> string.

Section result.
Context `{Rfc3339} `{UtcText} `{Uuid}.

(** [src/marty-verification/src/verification/result.rs:434-453] validate_evidence_ref *)
Definition validate_evidence_ref (field value : string) : result unit :=
  let error := InvalidField field "must be an opaque canonical Marty evidence UUID URN" in
  tail ← ok_or (strip_prefix "urn:marty:evidence:" value) error;
  _ ← ensure (str_len tail =? 36) error;
  uuid ← ok_or (uuid_parse_display tail) error;
  let bytes := str_bytes tail in
  b14 ← (if negb (String.eqb uuid tail) then Ok 0 else vec_index bytes 14);
  let version := (49 <=? b14) && (b14 <=? 56) in
  b19 ← (if negb (String.eqb uuid tail) || negb version then Ok 0 else vec_index bytes 19);
  ensure (negb (negb (String.eqb uuid tail) || negb version || negb (existsb (Z.eqb b19) [56; 57; 97; 98]))) error.

(** [src/marty-verification/src/verification/result.rs:469-477] validate_datetime *)
Definition validate_datetime (field value : string) : result Z :=
  ok_or (parse_rfc3339 value) (InvalidField field "must be an RFC 3339 date-time").

(** [src/marty-verification/src/verification/result.rs:479-483] canonical_datetime *)
Definition canonical_datetime (value : Z) : string := utc_text value.

(** [src/marty-verification/src/verification/result.rs:275-310] validate_context *)
Definition validate_context (context : VerificationDecisionContext) : result unit :=
  _ ← validate_scoped_id "context.verifier_id" (dc_verifier_id context) 128;
  match dc_mode context, dc_organization_id context, dc_transaction_id context, dc_audience context,
        dc_offline_profile_id context with
  | ContextOnline, Some organization_id, Some transaction_id, Some audience, None =>
      let error := InvalidField "context.organization_id" "must be a canonical UUID" in
      parsed ← ok_or (uuid_parse_display organization_id) error;
      _ ← ensure (String.eqb parsed organization_id) error;
      _ ← validate_scoped_id "context.transaction_id" transaction_id 128;
      validate_bounded_text "context.audience" audience 1 255
  | ContextOffline, None, None, None, Some offline_profile_id =>
      validate_scoped_id "context.offline_profile_id" offline_profile_id 128
  | mode, _, _, _, _ => Err (InvalidContextShape mode)
  end.

(** [src/marty-verification/src/verification/result.rs:312-319] validate_profile *)
Definition validate_profile_reference (field : string) (profile : VerificationProfileReference) : result unit :=
  _ ← validate_scoped_id (field +:+ ".id") (pf_id profile) 128;
  _ ← validate_version (field +:+ ".version") (pf_version profile);
  validate_digest (field +:+ ".content_digest") (pf_content_digest profile).

(** [src/marty-verification/src/verification/result.rs:321-348] validate_component *)
Definition validate_component_version (index : Z) (component : VerificationComponentVersion) : result unit :=
  let prefix := "components[" +:+ pretty index +:+ "]" in
  _ ← validate_lower_id (prefix +:+ ".component_id") (cv_component_id component) 64;
  _ ← validate_version (prefix +:+ ".version") (cv_version component);
  _ ← validate_digest (prefix +:+ ".artifact_digest") (cv_artifact_digest component);
  match cv_adapter_id component, cv_adapter_version component with
  | Some adapter_id, Some adapter_version =>
      _ ← validate_lower_id (prefix +:+ ".adapter_id") adapter_id 64;
      validate_version (prefix +:+ ".adapter_version") adapter_version
  | None, None => Ok tt
  | _, _ => Err (IncompleteAdapterReference (cv_component_id component))
  end.

(** [src/marty-verification/src/verification/result.rs:365-370] validate_check, the loop over the references *)
Fixpoint evidence_ref_loop (prefix : string) (index : Z) (refs : list string) : result unit :=
  match refs with
  | [] => Ok tt
  | r :: refs =>
      _ ← validate_evidence_ref (prefix +:+ ".evidence_refs[" +:+ pretty index +:+ "]") r;
      evidence_ref_loop prefix (index + 1) refs
  end.

(** [src/marty-verification/src/verification/result.rs:350-372] validate_check *)
Definition validate_check (index : Z) (check : VerificationCheckResult) : result Z :=
  let prefix := "checks[" +:+ pretty index +:+ "]" in
  _ ← validate_check_id (prefix +:+ ".check_id") (check_id check);
  _ ← validate_code (prefix +:+ ".code") (code check);
  _ ← validate_lower_id (prefix +:+ ".component_id") (component_id check) 64;
  evaluated ← validate_datetime (prefix +:+ ".evaluated_at") (evaluated_at check);
  _ ← ensure (negb (MAX_CHECK_EVIDENCE_REFS <? zlen (evidence_refs check)))
        (InvalidField (prefix +:+ ".evidence_refs") "contains more than 16 references");
  _ ← evidence_ref_loop prefix 0 (evidence_refs check);
  Ok evaluated.

(** [src/marty-verification/src/verification/result.rs:223-231] build_verification_decision_result, the loop over the components *)
Fixpoint component_loop (index : Z) (ids : gset string) (components : list VerificationComponentVersion) : result (gset string) :=
  match components with
  | [] => Ok ids
  | c :: components =>
      _ ← validate_component_version index c;
      _ ← ensure (negb (bool_decide (cv_component_id c ∈ ids))) (DuplicateComponentId (cv_component_id c));
      component_loop (index + 1) ({[cv_component_id c]} ∪ ids) components
  end.

(** [src/marty-verification/src/verification/result.rs:241-241] build_verification_decision_result, the instant of a check *)
Definition set_evaluated_at (c : VerificationCheckResult) (t : string) : VerificationCheckResult :=
  mkCheck (check_id c) (category c) (required c) (outcome c) (code c) (component_id c) t (evidence_refs c).

(** [src/marty-verification/src/verification/result.rs:233-248] build_verification_decision_result, the loop over the checks *)
Fixpoint check_loop (index : Z) (ids : gset string) (evaluated : Z) (checks : list VerificationCheckResult) :
    result (list VerificationCheckResult) :=
  match checks with
  | [] => Ok []
  | c :: checks =>
      check_evaluated ← validate_check index c;
      _ ← ensure (negb (evaluated <? check_evaluated))
            (InvalidField ("checks[" +:+ pretty index +:+ "].evaluated_at") "must not be later than the enclosing result");
      _ ← ensure (bool_decide (component_id c ∈ ids)) (UndeclaredCheckComponent (check_id c) (component_id c));
      rest ← check_loop (index + 1) ids evaluated checks;
      Ok (set_evaluated_at c (canonical_datetime check_evaluated) :: rest)
  end.

(** [src/marty-verification/src/verification/result.rs:205-273] build_verification_decision_result *)
Definition build_verification_decision_result (input : VerificationDecisionResultInput) : result VerificationDecisionResult :=
  _ ← validate_scoped_id "verification_id" (ri_verification_id input) 128;
  evaluated ← validate_datetime "evaluated_at" (ri_evaluated_at input);
  _ ← validate_digest "input_digest" (ri_input_digest input);
  _ ← validate_digest "evidence_digest" (ri_evidence_digest input);
  _ ← validate_context (ri_context input);
  _ ← validate_profile_reference "policy" (ri_policy input);
  _ ← validate_profile_reference "trust_profile" (ri_trust_profile input);
  _ ← ensure (negb ((zlen (ri_components input) =? 0) || (MAX_VERIFICATION_COMPONENTS <? zlen (ri_components input)))) InvalidComponentCount;
  _ ← ensure (negb (MAX_VERIFICATION_CHECKS <? zlen (ri_checks input))) TooManyChecks;
  ids ← component_loop 0 ∅ (ri_components input);
  checks ← check_loop 0 ids evaluated (ri_checks input);
  reduced ← map_err Reduction (reduce_required_checks (ri_processing_status input) checks);
  Ok (mkDecisionResult VERIFICATION_DECISION_SCHEMA_VERSION (ri_verification_id input) (ri_context input)
        (processing_status reduced) (decision reduced) (decision_code reduced) (valid reduced)
        (canonical_datetime evaluated) (ri_input_digest input) (ri_evidence_digest input) (ri_policy input)
        (ri_trust_profile input) (mkReducerRef REQUIRED_CHECK_REDUCER_ID REQUIRED_CHECK_REDUCER_VERSION)
        (ri_components input) checks (category_summaries reduced)).
End result.
