(* ===== verification/DecisionResultFacts.v ===== *)
(** * Canonical verification results: theorems ([verification/result.rs])

    A result is assembled exactly from well-formed provenance, its decision is the
    reducer's on the checks it carries, and it is canonical: its own contents
    assemble to it again. *)

From stdpp Require Import pretty.
From S2P Require Import Prelude Governance GovernanceFacts DeviceAuth TrustSync VcdmIssuance Decision DecisionFacts DecisionResult.
Local Open Scope string_scope.
Local Open Scope Z_scope.

#[local] Abbreviation bytes := (list Z).

(** ** Texts *)

(** A text of bounded length with a condition on its first byte and on the others. *)
Definition shaped (min max : Z) (first rest : Z -> bool) (s : string) : Prop :=
  min <= str_len s <= max /\ exists b bs, str_bytes s = b :: bs /\ first b = true /\ Forall (fun b => rest b = true) bs.

Lemma all_indexed_tail (allowed : Z -> Z -> bool) (rest : Z -> bool) bs : (forall i b, 0 < i -> allowed i b = rest b) ->
  forall i, 0 < i -> (all_indexed allowed i bs = true <-> Forall (fun b => rest b = true) bs).
Proof.
  intros Ha. induction bs as [|b bs IH]; intros i Hi; cbn [all_indexed]; [by split|].
  rewrite andb_true_iff, Forall_cons, Ha, IH by lia. done.
Qed.

Lemma ascii_pattern_Ok field v min max allowed (first rest : Z -> bool) u :
  1 <= min -> (forall b, allowed 0 b = first b) -> (forall i b, 0 < i -> allowed i b = rest b) ->
  (forall b, first b = true -> b < 128) -> (forall b, rest b = true -> b < 128) ->
  validate_ascii_pattern field v min max allowed = Ok u <-> shaped min max first rest v.
Proof.
  intros Hmin Hf Hr Hlf Hlr. unfold validate_ascii_pattern, shaped, is_ascii_text. rewrite ensure_Ok.
  rewrite negb_true_iff, !orb_false_iff, !negb_false_iff, !Z.ltb_ge. pose proof (str_len_bytes v) as Hl.
  destruct (str_bytes v) as [|b bs].
  { rewrite zlen_nil in Hl. split; [intros; lia|intros (? & ? & ? & ? & _); done]. }
  cbn [all_indexed forallb]. rewrite !andb_true_iff, Hf, (all_indexed_tail allowed rest bs Hr) by lia. split.
  - intros (((H1 & H2) & _) & H3 & H4). split; [lia|]. eauto.
  - intros (H1 & ? & ? & [= <- <-] & H3 & H4). split_and!; try lia; try done.
    + apply Z.ltb_lt. by apply Hlf.
    + apply forallb_forall. intros x Hx. apply Z.ltb_lt, Hlr. rewrite List.Forall_forall in H4. by apply H4.
Qed.

Definition scoped_rest (b : Z) : bool := is_ascii_alnum b || existsb (Z.eqb b) [46; 95; 58; 47; 45].
Definition lower_rest (b : Z) : bool := is_lower b || is_digit_byte b || existsb (Z.eqb b) [46; 95; 45].
Definition version_rest (b : Z) : bool := is_ascii_alnum b || existsb (Z.eqb b) [46; 95; 43; 45].
Definition code_rest (b : Z) : bool := is_upper b || is_digit_byte b || (b =? 95).

Ltac byte_class :=
  intros; unfold scoped_byte, lower_id_byte, version_byte, code_byte, scoped_rest, lower_rest, version_rest, code_rest,
    is_ascii_alnum, is_ascii_alpha, is_lower, is_upper, is_digit_byte in *; cbn [existsb] in *; lia.

Ltac pattern_class := unfold validate_scoped_id, validate_lower_id, validate_version, validate_code; apply ascii_pattern_Ok;
  [lia|by intros; unfold scoped_byte, version_byte, lower_id_byte, code_byte; rewrite ?andb_false_l, ?orb_false_r
  |intros i b Hi; unfold scoped_byte, lower_id_byte, version_byte, code_byte; rewrite ?(proj2 (Z.ltb_lt 0 i) Hi), ?(proj2 (Z.eqb_neq i 0)) by lia; done
  |byte_class|byte_class].

Lemma scoped_id_Ok f v max u : validate_scoped_id f v max = Ok u <-> shaped 1 max is_ascii_alnum scoped_rest v.
Proof. pattern_class. Qed.
Lemma lower_id_Ok f v max u : validate_lower_id f v max = Ok u <-> shaped 1 max is_lower lower_rest v.
Proof. pattern_class. Qed.
Lemma version_Ok f v u : validate_version f v = Ok u <-> shaped 1 64 is_ascii_alnum version_rest v.
Proof. pattern_class. Qed.
Lemma code_Ok f v u : validate_code f v = Ok u <-> shaped 3 96 is_upper code_rest v.
Proof. pattern_class. Qed.

Lemma strip_prefix_Some p s t : strip_prefix p s = Some t <-> s = p +:+ t.
Proof.
  revert s. induction p as [|a p IH]; intros s; cbn [strip_prefix]; [change ("" +:+ t) with t; split; congruence|].
  change (String a p +:+ t) with (String a (p +:+ t)).
  destruct s as [|b s]; [by split|]. destruct (Ascii.eqb_spec a b) as [->|Hne]; [rewrite IH|]; split; congruence.
Qed.

Definition digest_text (s : string) : Prop :=
  exists hex, s = "sha256:" +:+ hex /\ str_len hex = 64 /\ forallb lower_hex_byte (str_bytes hex) = true.

Lemma digest_Ok f v u : validate_digest f v = Ok u <-> digest_text v.
Proof.
  unfold validate_digest, digest_text. rewrite bind_Ok. setoid_rewrite ok_or_Ok. setoid_rewrite ensure_Ok.
  setoid_rewrite negb_true_iff. setoid_rewrite orb_false_iff. setoid_rewrite negb_false_iff. setoid_rewrite Z.eqb_eq.
  setoid_rewrite strip_prefix_Some. done.
Qed.

Definition check_id_text (s : string) : Prop :=
  3 <= str_len s <= 128 /\ is_ascii_text s = true /\
  2 <= zlen (split_at 46 (str_bytes s)) /\ Forall (fun segment => check_id_segment segment = true) (split_at 46 (str_bytes s)).

Lemma check_id_Ok f v u : validate_check_id f v = Ok u <-> check_id_text v.
Proof.
  unfold validate_check_id, check_id_text.
  assert (He : forall l : list bytes, existsb (fun s => negb (check_id_segment s)) l = false <->
    Forall (fun s => check_id_segment s = true) l).
  { induction l as [|s l IH]; cbn [existsb]; [by split|]. rewrite orb_false_iff, negb_false_iff, Forall_cons. tauto. }
  set (l := split_at 46 (str_bytes v)). clearbody l.
  split.
  - intros Hv. res_inv. breflect. split_and!; try lia; try done. by apply He.
  - intros (Hb & Ha & Hl & Hs%He). rewrite Ha, Hs. replace (str_len v <? 3) with false by lia.
    replace (128 <? str_len v) with false by lia. cbn [orb negb ensure mbind res_bind].
    replace (zlen l <? 2) with false by lia. by destruct u.
Qed.

Lemma bounded_text_ok f v min max u : validate_bounded_text f v min max = Ok u <-> min <= char_count v <= max.
Proof. unfold validate_bounded_text. rewrite ensure_Ok, negb_true_iff, orb_false_iff, !Z.ltb_ge. lia. Qed.

Lemma existsb_byte w l : existsb (Z.eqb w) l = true <-> In w l.
Proof. rewrite existsb_exists. setoid_rewrite Z.eqb_eq. naive_solver. Qed.

(** The steps of a sequence of validations. *)
Ltac units := repeat (exists tt; split; [done|]).

Section facts.
Context `{Rfc3339} `{UtcText} `{Uuid}.

(** An opaque reference: a canonical UUID of version 1 to 8 and the RFC variant. *)
Definition evidence_text (s : string) : Prop :=
  exists tail v w, s = "urn:marty:evidence:" +:+ tail /\ str_len tail = 36 /\ uuid_parse_display tail = Some tail /\
    str_bytes tail !! 14%nat = Some v /\ 49 <= v <= 56 /\ str_bytes tail !! 19%nat = Some w /\ In w [56; 57; 97; 98].

Lemma evidence_ref_no_panic f v : no_panic (validate_evidence_ref f v).
Proof.
  unfold validate_evidence_ref. apply bind_no_panic; [auto with marty|]. intros tail Ht.
  apply bind_no_panic; [auto with marty|]. intros [] Hl%ensure_Ok%Z.eqb_eq. rewrite str_len_bytes in Hl.
  apply bind_no_panic; [auto with marty|]. intros uuid _.
  destruct (vec_index_in_range (E := VerificationDecisionResultError) (str_bytes tail) 14) as (b14 & H14 & _); [lia|].
  destruct (vec_index_in_range (E := VerificationDecisionResultError) (str_bytes tail) 19) as (b19 & H19 & _); [lia|].
  apply bind_no_panic; [case_match; [done|by rewrite H14]|]. intros x _.
  apply bind_no_panic; [case_match; [done|by rewrite H19]|]. intros; auto with marty.
Qed.

Lemma evidence_ref_Ok f v u : validate_evidence_ref f v = Ok u <-> evidence_text v.
Proof.
  unfold validate_evidence_ref, evidence_text. split.
  - intros Hv. res_inv. match goal with Hs : strip_prefix _ _ = Some ?t |- _ => rename t into tail; apply strip_prefix_Some in Hs end.
    apply negb_true_iff, orb_false_iff in Hv as [Hv Hw%negb_false_iff].
    apply orb_false_iff in Hv as [Hu%negb_false_iff Hver%negb_false_iff].
    match goal with Hx : (if negb _ then Ok 0 else vec_index _ 14) = Ok _ |- _ => rewrite Hu in Hx; cbn [negb] in Hx;
      apply vec_index_Ok in Hx as [_ H14] end.
    match goal with Hx : (if _ then Ok 0 else vec_index _ 19) = Ok _ |- _ => rewrite Hu, Hver in Hx; cbn [negb orb] in Hx;
      apply vec_index_Ok in Hx as [_ H19] end.
    apply String.eqb_eq in Hu as ->. apply andb_true_iff in Hver as [?%Z.leb_le ?%Z.leb_le].
    apply existsb_byte in Hw. match goal with Hl : (str_len tail =? 36) = true |- _ => apply Z.eqb_eq in Hl end.
    do 3 eexists. split_and!; [eassumption|done|eassumption|exact H14|lia|lia|exact H19|done].
  - intros (tail & a & w & -> & Hl & Hu & H14 & Ha & H19 & Hw).
    rewrite (proj2 (strip_prefix_Some _ _ tail) eq_refl). cbn [ok_or mbind res_bind].
    rewrite Hl, Hu. cbn [Z.eqb Pos.eqb ensure ok_or mbind res_bind]. rewrite String.eqb_refl. cbn [negb orb].
    rewrite (proj2 (vec_index_Ok (E := VerificationDecisionResultError) (str_bytes tail) 14 a)) by (split; [lia|done]).
    cbn [mbind res_bind]. replace ((49 <=? a) && (a <=? 56)) with true by lia. cbn [negb].
    rewrite (proj2 (vec_index_Ok (E := VerificationDecisionResultError) (str_bytes tail) 19 w)) by (split; [lia|done]).
    cbn [mbind res_bind orb]. rewrite (proj2 (existsb_byte _ _)) by done. destruct u. done.
Qed.

Lemma evidence_loop_Ok prefix refs : forall index u,
  evidence_ref_loop prefix index refs = Ok u <-> Forall evidence_text refs.
Proof.
  induction refs as [|r refs IH]; intros index u; cbn [evidence_ref_loop]; [destruct u; by split|].
  rewrite bind_Ok, Forall_cons. setoid_rewrite IH. setoid_rewrite evidence_ref_Ok. split; [by intros (? & ?)|by exists tt].
Qed.

Definition context_ok (c : VerificationDecisionContext) : Prop :=
  shaped 1 128 is_ascii_alnum scoped_rest (dc_verifier_id c) /\
  ((exists org tx aud, dc_mode c = ContextOnline /\ dc_organization_id c = Some org /\ dc_transaction_id c = Some tx /\
      dc_audience c = Some aud /\ dc_offline_profile_id c = None /\ uuid_parse_display org = Some org /\
      shaped 1 128 is_ascii_alnum scoped_rest tx /\ 1 <= char_count aud <= 255) \/
   (exists profile, dc_mode c = ContextOffline /\ dc_organization_id c = None /\ dc_transaction_id c = None /\
      dc_audience c = None /\ dc_offline_profile_id c = Some profile /\ shaped 1 128 is_ascii_alnum scoped_rest profile)).

Lemma context_Ok c u : validate_context c = Ok u <-> context_ok c.
Proof.
  unfold validate_context, context_ok. rewrite bind_Ok. setoid_rewrite scoped_id_Ok.
  destruct c as [mode vid org tx aud off]. cbn [dc_mode dc_verifier_id dc_organization_id dc_transaction_id dc_audience dc_offline_profile_id].
  transitivity (shaped 1 128 is_ascii_alnum scoped_rest vid /\
    match mode, org, tx, aud, off with
    | ContextOnline, Some org, Some tx, Some aud, None =>
        uuid_parse_display org = Some org /\ shaped 1 128 is_ascii_alnum scoped_rest tx /\ 1 <= char_count aud <= 255
    | ContextOffline, None, None, None, Some p => shaped 1 128 is_ascii_alnum scoped_rest p
    | _, _, _, _, _ => False
    end).
  - split.
    + intros (_ & Hv & Hm). split; [done|]. destruct mode, org, tx, aud, off; try done.
      * res_inv. rewrite scoped_id_Ok in *. apply bounded_text_ok in Hm.
        match goal with Hx : String.eqb _ _ = true |- _ => apply String.eqb_eq in Hx; by subst end.
      * by apply scoped_id_Ok in Hm.
    + intros (Hv & Hm). exists tt. split; [done|]. destruct mode, org as [o|], tx as [t|], aud as [a|], off; try done.
      * destruct Hm as (Hu & Ht & Ha). rewrite Hu. cbn [ok_or mbind res_bind]. rewrite String.eqb_refl. cbn [ensure mbind res_bind].
        rewrite (proj2 (scoped_id_Ok "context.transaction_id" t 128 tt) Ht). cbn [mbind res_bind]. by apply bounded_text_ok.
      * by apply scoped_id_Ok.
  - destruct mode, org, tx, aud, off; naive_solver.
Qed.

Definition profile_ok (p : VerificationProfileReference) : Prop :=
  shaped 1 128 is_ascii_alnum scoped_rest (pf_id p) /\ shaped 1 64 is_ascii_alnum version_rest (pf_version p) /\
  digest_text (pf_content_digest p).

Lemma profile_Ok f p u : validate_profile_reference f p = Ok u <-> profile_ok p.
Proof.
  unfold validate_profile_reference, profile_ok. rewrite bind_Ok. setoid_rewrite bind_Ok.
  setoid_rewrite scoped_id_Ok. setoid_rewrite version_Ok. setoid_rewrite digest_Ok. split; [naive_solver|intros (?&?&?); by units].
Qed.

Definition component_ok (c : VerificationComponentVersion) : Prop :=
  shaped 1 64 is_lower lower_rest (cv_component_id c) /\ shaped 1 64 is_ascii_alnum version_rest (cv_version c) /\
  digest_text (cv_artifact_digest c) /\
  match cv_adapter_id c, cv_adapter_version c with
  | Some a, Some v => shaped 1 64 is_lower lower_rest a /\ shaped 1 64 is_ascii_alnum version_rest v
  | None, None => True
  | _, _ => False
  end.

Lemma component_Ok i c u : validate_component_version i c = Ok u <-> component_ok c.
Proof.
  unfold validate_component_version, component_ok. rewrite bind_Ok. setoid_rewrite bind_Ok. setoid_rewrite bind_Ok.
  setoid_rewrite lower_id_Ok. setoid_rewrite version_Ok. setoid_rewrite digest_Ok.
  destruct (cv_adapter_id c) as [a|], (cv_adapter_version c) as [v|].
  - setoid_rewrite bind_Ok. setoid_rewrite lower_id_Ok. setoid_rewrite version_Ok.
    split; [naive_solver|intros (?&?&?&?&?); by units].
  - naive_solver.
  - naive_solver.
  - split; [naive_solver|]. intros (?&?&?&_). destruct u. by units.
Qed.

(** A check of a component, no later than the result. *)
Definition check_ok (declared : list string) (evaluated : Z) (c : VerificationCheckResult) : Prop :=
  check_id_text (check_id c) /\ shaped 3 96 is_upper code_rest (code c) /\
  shaped 1 64 is_lower lower_rest (component_id c) /\ zlen (evidence_refs c) <= 16 /\ Forall evidence_text (evidence_refs c) /\
  component_id c ∈ declared /\ exists t, parse_rfc3339 (evaluated_at c) = Some t /\ t <= evaluated.

Definition canonical_check (c : VerificationCheckResult) : VerificationCheckResult :=
  set_evaluated_at c (default (evaluated_at c) (utc_text <$> parse_rfc3339 (evaluated_at c))).

Lemma validate_check_Ok i c t :
  validate_check i c = Ok t <->
  check_id_text (check_id c) /\ shaped 3 96 is_upper code_rest (code c) /\ shaped 1 64 is_lower lower_rest (component_id c) /\
  parse_rfc3339 (evaluated_at c) = Some t /\ zlen (evidence_refs c) <= 16 /\ Forall evidence_text (evidence_refs c).
Proof.
  unfold validate_check, validate_datetime. split.
  - intros Hv. res_inv. rewrite check_id_Ok, code_Ok, lower_id_Ok, evidence_loop_Ok in *. breflect.
    unfold MAX_CHECK_EVIDENCE_REFS in *. by split_and!.
  - intros (Hid & Hcode & Hcomp & Ht & Hlen & Hrefs).
    rewrite (proj2 (check_id_Ok _ _ tt) Hid), (proj2 (code_Ok _ _ tt) Hcode), (proj2 (lower_id_Ok _ _ _ tt) Hcomp), Ht.
    cbn [ok_or mbind res_bind]. unfold MAX_CHECK_EVIDENCE_REFS. replace (16 <? zlen (evidence_refs c)) with false by lia.
    cbn [negb ensure mbind res_bind]. by rewrite (proj2 (evidence_loop_Ok _ _ _ tt) Hrefs).
Qed.

Lemma component_loop_Ok components : forall index ids result,
  component_loop index ids components = Ok result <->
  Forall component_ok components /\ NoDup (cv_component_id <$> components) /\
  Forall (fun c => cv_component_id c ∉ ids) components /\ result = list_to_set (cv_component_id <$> components) ∪ ids.
Proof.
  induction components as [|c components IH]; intros index ids result; cbn [component_loop].
  { split; [intros [= <-]; split_and!; try constructor; set_solver|]. intros (_ & _ & _ & ->). f_equal. set_solver. }
  rewrite bind_Ok. setoid_rewrite component_Ok. setoid_rewrite bind_Ok. setoid_rewrite ensure_Ok. setoid_rewrite IH.
  rewrite fmap_cons, NoDup_cons, !Forall_cons. setoid_rewrite negb_true_iff. setoid_rewrite bool_decide_eq_false.
  assert (Hfresh : forall l : list VerificationComponentVersion,
    Forall (fun d => cv_component_id d ∉ ({[cv_component_id c]} ∪ ids)) l <->
    (cv_component_id c ∉ (cv_component_id <$> l)) /\ Forall (fun d => cv_component_id d ∉ ids) l).
  { intros l. induction l as [|d l IHl]; [split; [split; [set_solver|constructor]|constructor]|].
    rewrite !Forall_cons, IHl, fmap_cons. set_solver. }
  setoid_rewrite Hfresh.
  assert (Hset : list_to_set (cv_component_id <$> components) ∪ ({[cv_component_id c]} ∪ ids) =
    (list_to_set (cv_component_id c :: (cv_component_id <$> components)) ∪ ids : gset string)) by set_solver.
  setoid_rewrite Hset. split; [intros (_ & ? & _ & ?); tauto|]. intros (? & ? & ? & ?). exists tt. split; [tauto|]. exists tt. tauto.
Qed.

Lemma check_loop_Ok evaluated declared checks : forall index result,
  check_loop index (list_to_set declared) evaluated checks = Ok result <->
  Forall (check_ok declared evaluated) checks /\ result = canonical_check <$> checks.
Proof.
  induction checks as [|c checks IH]; intros index result; cbn [check_loop].
  { split; [intros [= <-]; split; [constructor|done]|]. by intros [_ ->]. }
  rewrite Forall_cons, fmap_cons. split.
  - intros (t & (Hid & Hcode & Hcomp & Ht & Hlen & Hrefs)%validate_check_Ok & Hl)%bind_Ok. res_inv. breflect.
    match goal with Hr : check_loop _ _ _ _ = Ok _ |- _ => apply IH in Hr as [Hr ->] end.
    match goal with Hm : _ ∈ list_to_set _ |- _ => apply elem_of_list_to_set in Hm end.
    split; [split; [|done]|]; [unfold check_ok; split_and!; eauto|]. unfold canonical_check. by rewrite Ht.
  - intros [[(Hid & Hcode & Hcomp & Hlen & Hrefs & Hm & t & Ht & Hle) Hr] ->].
    rewrite (proj2 (validate_check_Ok index c t)) by done. cbn [mbind res_bind].
    replace (evaluated <? t) with false by lia. cbn [negb ensure mbind res_bind].
    rewrite bool_decide_eq_true_2 by (by apply elem_of_list_to_set). cbn [ensure mbind res_bind].
    rewrite (proj2 (IH (index + 1) (canonical_check <$> checks))) by done. cbn [mbind res_bind].
    unfold canonical_check at 2. by rewrite Ht.
Qed.

(** Well-formed provenance of a result evaluated at an instant. *)
Record InputOk (input : VerificationDecisionResultInput) (evaluated : Z) : Prop := {
  in_id : shaped 1 128 is_ascii_alnum scoped_rest (ri_verification_id input);
  in_evaluated : parse_rfc3339 (ri_evaluated_at input) = Some evaluated;
  in_digests : digest_text (ri_input_digest input) /\ digest_text (ri_evidence_digest input);
  in_context : context_ok (ri_context input);
  in_profiles : profile_ok (ri_policy input) /\ profile_ok (ri_trust_profile input);
  in_components : 1 <= zlen (ri_components input) <= 32 /\ Forall component_ok (ri_components input) /\
    NoDup (cv_component_id <$> ri_components input);
  in_checks : zlen (ri_checks input) <= 1024 /\
    Forall (check_ok (cv_component_id <$> ri_components input) evaluated) (ri_checks input);
  in_reducible : checks_wf (ri_checks input) /\ required_outcomes (ri_checks input) ≠ [];
}.

(** The result that such provenance determines. *)
Definition result_of (input : VerificationDecisionResultInput) (evaluated : Z) : VerificationDecisionResult :=
  let checks := canonical_check <$> ri_checks input in
  let d := spec_decision (ri_processing_status input) (required_outcomes (ri_checks input)) in
  mkDecisionResult VERIFICATION_DECISION_SCHEMA_VERSION (ri_verification_id input) (ri_context input)
    (ri_processing_status input) d (spec_code (ri_processing_status input) (required_outcomes (ri_checks input)))
    (bool_decide (d = Pass)) (utc_text evaluated) (ri_input_digest input) (ri_evidence_digest input) (ri_policy input)
    (ri_trust_profile input) (mkReducerRef REQUIRED_CHECK_REDUCER_ID REQUIRED_CHECK_REDUCER_VERSION)
    (ri_components input) checks (spec_summaries checks).

(** Canonical instants do not matter to the reducer. *)
Lemma canonical_outcomes l : required_outcomes (canonical_check <$> l) = required_outcomes l.
Proof.
  unfold required_outcomes. induction l as [|c l IH]; [done|]. rewrite fmap_cons, !filter_cons. cbn [required canonical_check set_evaluated_at].
  case_decide; rewrite ?fmap_cons, IH; done.
Qed.

Lemma canonical_wf l : checks_wf (canonical_check <$> l) <-> checks_wf l.
Proof.
  unfold checks_wf. rewrite <- list_fmap_compose, Forall_fmap. done.
Qed.

Lemma validate_context_no_panic c : no_panic (validate_context c).
Proof.
  unfold validate_context, validate_scoped_id, validate_ascii_pattern, validate_bounded_text. solve_no_panic.
Qed.

Lemma component_loop_no_panic components : forall index ids, no_panic (component_loop index ids components).
Proof.
  induction components as [|c components IH]; intros index ids; cbn [component_loop]; [done|].
  unfold validate_component_version, validate_lower_id, validate_version, validate_digest, validate_ascii_pattern. solve_no_panic; apply IH.
Qed.

Lemma check_loop_no_panic checks : forall index ids evaluated, no_panic (check_loop index ids evaluated checks).
Proof.
  induction checks as [|c checks IH]; intros index ids evaluated; cbn [check_loop]; [done|].
  assert (Hv : no_panic (validate_check index c)).
  { unfold validate_check, validate_check_id, validate_code, validate_lower_id, validate_ascii_pattern, validate_datetime.
    assert (He : forall prefix refs i, no_panic (evidence_ref_loop prefix i refs)).
    { intros prefix refs. induction refs as [|r refs IHr]; intros i; cbn [evidence_ref_loop]; [done|].
      apply bind_no_panic; [apply evidence_ref_no_panic|auto]. }
    solve_no_panic; apply He. }
  apply bind_no_panic; [exact Hv|]. intros. solve_no_panic; apply IH.
Qed.

Lemma reduce_no_panic status checks : no_panic (reduce_required_checks status checks).
Proof.
  assert (He : forall id refs seen, no_panic (check_evidence id seen refs)).
  { intros id refs. induction refs as [|r refs IH]; intros seen; cbn [check_evidence]; [done|]. solve_no_panic; apply IH. }
  assert (Hl : forall l st, no_panic (reduce_checks st l)).
  { intros l. induction l as [|c l IH]; intros st; cbn [reduce_checks]; [done|].
    apply bind_no_panic; [|auto]. unfold reduce_check, count_required. solve_no_panic; apply He. }
  unfold reduce_required_checks. solve_no_panic; apply Hl.
Qed.

Lemma build_no_panic input : no_panic (build_verification_decision_result input).
Proof.
  unfold build_verification_decision_result, validate_profile_reference, validate_datetime, validate_scoped_id, validate_version,
    validate_digest, validate_ascii_pattern.
  repeat (first [solve [auto with marty] | apply validate_context_no_panic | apply component_loop_no_panic | apply check_loop_no_panic
    | apply bind_no_panic; [|intros]]).
  apply map_err_no_panic, reduce_no_panic.
Qed.

Lemma defect_not_wf p c q e : checks_wf (p ++ c :: q)%list -> ~ defect p c e.
Proof.
  intros [Hnd Hev] Hd. apply Forall_app in Hev as [_ [[He Hn] _]%Forall_cons]. rewrite fmap_app, fmap_cons in Hnd.
  destruct Hd as [Hin|_ Hreq Hnil|pre r post _ Heq Hnp Hin].
  - apply NoDup_app in Hnd as (_ & Hd & _). apply (Hd _ Hin). by left.
  - by apply He.
  - rewrite Heq in Hn. apply NoDup_app in Hn as (_ & Hd & _). apply (Hd _ Hin). by left.
Qed.

Lemma reduce_canonical status l r : zlen l <= 1024 ->
  reduce_required_checks status (canonical_check <$> l) = Ok r <->
  checks_wf l /\ required_outcomes l ≠ [] /\ r = spec_reduced status (canonical_check <$> l).
Proof.
  intros Hl. assert (Hlen : zlen (canonical_check <$> l) <= u32_max).
  { unfold zlen in *. rewrite length_fmap. unfold u32_max. lia. }
  pose proof (reduce_required_checks_cases status _ Hlen) as Hr.
  destruct (reduce_required_checks status (canonical_check <$> l)) as [r'|e|]; [| |done].
  - rewrite canonical_wf, canonical_outcomes in Hr. destruct Hr as (Hwf & Hne & ->). split; [intros [= <-]; done|by intros (_ & _ & ->)].
  - split; [done|]. intros (Hwf & Hne & _). rewrite canonical_outcomes in Hr.
    destruct Hr as [(_ & ? & _)|(p & c & q & Heq & _ & Hd)]; [done|].
    apply canonical_wf in Hwf. rewrite Heq in Hwf. by eapply defect_not_wf in Hwf.
Qed.

Lemma build_Ok input r :
  build_verification_decision_result input = Ok r <-> exists evaluated, InputOk input evaluated /\ r = result_of input evaluated.
Proof.
  split.
  - unfold build_verification_decision_result. intros Hb. res_inv.
    match goal with Hx : map_err _ _ = Ok _ |- _ => apply map_err_Ok in Hx; rename Hx into Hred end.
    match goal with Hx : component_loop _ _ _ = Ok _ |- _ => apply component_loop_Ok in Hx as (Hc1 & Hc2 & _ & ->) end.
    match goal with Hx : check_loop _ _ _ _ = Ok _ |- _ => rewrite union_empty_r_L in Hx; apply check_loop_Ok in Hx as [Hch ->] end.
    rewrite scoped_id_Ok, !digest_Ok, context_Ok, !profile_Ok in *. unfold validate_datetime in *. res_inv. breflect.
    unfold MAX_VERIFICATION_COMPONENTS, MAX_VERIFICATION_CHECKS in *.
    apply reduce_canonical in Hred as (Hwf & Hne & ->); [|done]. pose proof (zlen_nonneg (ri_components input)).
    eexists. split; [constructor; (done || split_and!; (done || lia))|]. unfold result_of, spec_reduced. cbn. by rewrite canonical_outcomes.
  - intros (evaluated & [Hid Hev [Hd1 Hd2] Hctx [Hp1 Hp2] (Hn & Hc1 & Hc2) [Hk1 Hk2] [Hwf Hne]] & ->).
    unfold build_verification_decision_result, validate_datetime.
    rewrite (proj2 (scoped_id_Ok _ _ _ tt) Hid), Hev, (proj2 (digest_Ok _ _ tt) Hd1), (proj2 (digest_Ok _ _ tt) Hd2),
      (proj2 (context_Ok _ tt) Hctx), (proj2 (profile_Ok _ _ tt) Hp1), (proj2 (profile_Ok _ _ tt) Hp2).
    cbn [ok_or mbind res_bind]. unfold MAX_VERIFICATION_COMPONENTS, MAX_VERIFICATION_CHECKS.
    replace (zlen (ri_components input) =? 0) with false by lia. replace (32 <? zlen (ri_components input)) with false by lia.
    replace (1024 <? zlen (ri_checks input)) with false by lia. cbn [orb negb ensure mbind res_bind].
    rewrite (proj2 (component_loop_Ok (ri_components input) 0 ∅ (list_to_set (cv_component_id <$> ri_components input) ∪ ∅)))
      by (split_and!; try done; apply Forall_true; set_solver).
    cbn [mbind res_bind]. rewrite union_empty_r_L.
    rewrite (proj2 (check_loop_Ok evaluated _ (ri_checks input) 0 (canonical_check <$> ri_checks input))) by done.
    cbn [mbind res_bind]. erewrite (proj2 (reduce_canonical _ _ _ Hk1)) by (split_and!; [exact Hwf|exact Hne|reflexivity]).
    cbn [map_err mbind res_bind]. unfold result_of, spec_reduced. cbn. by rewrite canonical_outcomes.
Qed.

(** C25: Building a result never panics.  It succeeds exactly on well-formed
    provenance (bounded canonical identifiers and digests, one shape of context,
    distinct declared components, at most 1024 checks of declared components that
    are no later than the result and well-formed for the reducer); the decision,
    its code, validity and summaries are then those of the required checks, and
    the callers' other fields are kept with canonical instants. *)
Theorem decision_result_exact input :
  no_panic (build_verification_decision_result input) /\
  forall r, build_verification_decision_result input = Ok r <-> exists evaluated, InputOk input evaluated /\ r = result_of input evaluated.
Proof. split; [apply build_no_panic|apply build_Ok]. Qed.

(** The provenance that a result records. *)
Definition input_of (r : VerificationDecisionResult) : VerificationDecisionResultInput :=
  mkResultInput (dr_verification_id r) (dr_context r) (dr_processing_status r) (dr_evaluated_at r) (dr_input_digest r)
    (dr_evidence_digest r) (dr_policy r) (dr_trust_profile r) (dr_components r) (dr_checks r).


(** What canonical texts promise: an instant that was read is read back. *)
Class UtcTextLaws : Prop := utc_text_read : forall s t, parse_rfc3339 s = Some t -> parse_rfc3339 (utc_text t) = Some t.

Lemma canonical_check_idem `{UtcTextLaws} c : canonical_check (canonical_check c) = canonical_check c.
Proof.
  unfold canonical_check. destruct (parse_rfc3339 (evaluated_at c)) as [t|] eqn:Ht;
    cbn [evaluated_at set_evaluated_at fmap option_fmap option_map from_option id].
  - by rewrite (utc_text_read _ _ Ht).
  - by rewrite Ht.
Qed.

Lemma canonical_check_ok `{UtcTextLaws} declared evaluated c :
  check_ok declared evaluated c -> check_ok declared evaluated (canonical_check c).
Proof.
  intros (? & ? & ? & ? & ? & ? & t & Ht & Hle). unfold check_ok, canonical_check. rewrite Ht.
  cbn [check_id code component_id evidence_refs evaluated_at set_evaluated_at fmap option_fmap option_map from_option id].
  split_and!; try done. exists t. split; [by eapply utc_text_read|done].
Qed.

(** A result is canonical: the provenance that it records assembles to the
    same result again. *)
Theorem decision_result_canonical `{UtcTextLaws} input r :
  build_verification_decision_result input = Ok r -> build_verification_decision_result (input_of r) = Ok r.
Proof.
  intros (evaluated & Hok & ->)%build_Ok. apply build_Ok. exists evaluated.
  destruct Hok as [Hid Hev [Hd1 Hd2] Hctx [Hp1 Hp2] (Hn & Hc1 & Hc2) [Hk1 Hk2] [Hwf Hne]].
  assert (Hcc : canonical_check <$> (canonical_check <$> ri_checks input) = canonical_check <$> ri_checks input).
  { rewrite <- list_fmap_compose. apply list_fmap_ext. intros i c _. cbn. apply canonical_check_idem. }
  split.
  - constructor; try done; cbn [input_of result_of ri_evaluated_at dr_evaluated_at ri_checks dr_checks ri_components dr_components].
    + by eapply utc_text_read.
    + split; [unfold zlen in *; by rewrite length_fmap|]. apply Forall_fmap. eapply Forall_impl; [exact Hk2|].
      intros c. apply canonical_check_ok.
    + by rewrite canonical_wf, canonical_outcomes.
  - unfold result_of, input_of. cbn [ri_checks dr_checks ri_processing_status dr_processing_status ri_verification_id dr_verification_id
      ri_context dr_context ri_input_digest dr_input_digest ri_evidence_digest dr_evidence_digest ri_policy dr_policy ri_trust_profile
      dr_trust_profile ri_components dr_components]. by rewrite Hcc, canonical_outcomes.
Qed.
End facts.

(** ** A concrete result *)

Module ToyResult.
#[local] Instance toy_rfc3339 : Rfc3339 := fun s => if String.eqb s "noon" || String.eqb s "midday" then Some 12 else None.
#[local] Instance toy_utc : UtcText := fun _ => "noon".
#[local] Instance toy_uuid : Uuid := fun s => Some s.
#[local] Instance toy_utc_laws : UtcTextLaws.
Proof. intros s t. unfold parse_rfc3339, toy_rfc3339. destruct (_ || _); [by intros [= <-]|done]. Qed.

Definition digest : string := "sha256:" +:+ String.concat "" (replicate 64 "a").
Definition profile : VerificationProfileReference := mkProfileRef "p" "1" digest.
Definition input : VerificationDecisionResultInput :=
  mkResultInput "v1" (mkDecisionContext ContextOffline "me" None None None (Some "kiosk")) StatusCompleted "midday" digest digest
    profile profile [mkComponent "core" "1" digest None None]
    [mkCheck "proof.valid" CredentialProof true OutcomePassed "PROOF_OK" "core" "midday"
       ["urn:marty:evidence:00000000-0000-4000-8000-000000000000"]].

Lemma decision_result_canonical_witness :
  exists r, build_verification_decision_result input = Ok r /\ dr_valid r = true /\ dr_evaluated_at r = "noon" /\
            build_verification_decision_result (input_of r) = Ok r.
Proof.
  destruct (build_verification_decision_result input) as [r| |] eqn:Hb; vm_compute in Hb; try discriminate.
  exists r. split; [reflexivity|]. split; [injection Hb as <-; reflexivity|]. split; [injection Hb as <-; reflexivity|].
  apply (decision_result_canonical input r). rewrite <- Hb. vm_compute. reflexivity.
Defined.
End ToyResult.
