(* ===== verification/SecureStorage.v ===== *)
(** * Secure storage (marty-secure-storage)

    The repositories over the encrypted SQLite database: verification history,
    trust anchors and Open Badge methods with their package provenance, the
    application of signed trust packages, license and synchronization state, the
    offline queue and the audit log.

    A table is a map from its primary key to a row; columns that no operation
    reads are left out.  The engine is a parameter: the order in which it scans a
    table, and the statements that fail.  A transaction works on a copy that
    replaces the database when it commits.  [chrono], BLAKE3 and [serde_json] are
    parameters; clock readings and random identifiers are arguments. *)

From stdpp Require Import pretty.
From S2P Require Import Prelude Governance PolicyService EvidencePolicy DeviceAuth TrustSync Issuance VcdmIssuance CryptoKit.
Local Open Scope string_scope.
Local Open Scope Z_scope.

#[local] Abbreviation bytes := (list Z).

(** [src/marty-secure-storage/src/database.rs:24-26] MAX_PACKAGE_FUTURE_SKEW_SECONDS and the bounds of the queue *)
Definition MAX_PACKAGE_FUTURE_SKEW_SECONDS : Z := 300.
Definition MAX_QUEUE_BATCH_SIZE : Z := 1000.
Definition MAX_QUEUE_ERROR_CHARS : Z := 1024.

(** [src/marty-secure-storage/src/error.rs:5-51] StorageError *)
Inductive StorageError :=
| SeDatabase (m : string)
| SeKeychain (m : string)
| SeEncryption (m : string)
| SeSerialization (m : string)
| SeIo (m : string)
| SeNotFound (m : string)
| SeInvalidQueueBatch (m : string)
| SeInvalidTrustPackage (m : string)
| SeTrustPackageReplay (domain : string) (sequence : Z)
| SeTrustPackageRollback (domain : string) (current_sequence attempted_sequence : Z)
| SeTrustPackageConflict (m : string)
| SeTrustPackageSignerChange (domain : string)
| SeNotInitialized.

#[local] Abbreviation result := (res StorageError).

(** ** Records *)

(** [src/marty-secure-storage/src/models.rs:99-105] TrustAnchorType *)
Inductive TrustAnchorType := Iaca | Csca | Dsc.

(** [src/marty-secure-storage/src/models.rs:107-115] TrustAnchorType::fmt *)
Definition anchor_type_text (t : TrustAnchorType) : string := match t with Iaca => "iaca" | Csca => "csca" | Dsc => "dsc" end.

(** [src/marty-secure-storage/src/models.rs:118-125] TrustAnchorSource *)
Inductive TrustAnchorSource := AamvaDts | IcaoPkd | AnchorUsbImport | AnchorManual.

(** [src/marty-secure-storage/src/models.rs:127-136] TrustAnchorSource::fmt *)
Definition anchor_source_text (s : TrustAnchorSource) : string :=
  match s with AamvaDts => "aamva_dts" | IcaoPkd => "icao_pkd" | AnchorUsbImport => "usb_import" | AnchorManual => "manual" end.

(** [src/marty-types/src/open_badges.rs:22-26] OpenBadgeKeySource *)
Inductive OpenBadgeKeySource := KeySync | KeyUsbImport | KeyManual.

(** [src/marty-types/src/open_badges.rs:28-36] OpenBadgeKeySource::fmt *)
Definition key_source_text (s : OpenBadgeKeySource) : string :=
  match s with KeySync => "sync" | KeyUsbImport => "usb_import" | KeyManual => "manual" end.

#[export] Instance TrustAnchorType_eq_dec : EqDecision TrustAnchorType.
Proof. solve_decision. Defined.
#[export] Instance TrustAnchorSource_eq_dec : EqDecision TrustAnchorSource.
Proof. solve_decision. Defined.
#[export] Instance OpenBadgeKeySource_eq_dec : EqDecision OpenBadgeKeySource.
Proof. solve_decision. Defined.

(** [src/marty-secure-storage/src/models.rs:21-35] TrustAnchor *)
Record StoredAnchor := mkStoredAnchor {
  ta_id : string;
  ta_type : TrustAnchorType;
  ta_jurisdiction : string;
  ta_subject : option string;
  ta_issuer : option string;
  ta_serial_number : option string;
  ta_not_before : option Z;
  ta_not_after : option Z;
  ta_certificate_der : bytes;
  ta_certificate_hash : string;
  ta_source : TrustAnchorSource;
  ta_synced_at : Z;
}.

(** [src/marty-types/src/open_badges.rs:6-17] OpenBadgeVerificationMethod *)
Record OpenBadgeVerificationMethod := mkBadgeMethod {
  om_id : string;
  om_document : Value;
  om_controller : option string;
  om_issuer : option string;
  om_kid : option string;
  om_not_before : option Z;
  om_not_after : option Z;
  om_status : option string;
  om_source : OpenBadgeKeySource;
  om_synced_at : Z;
}.

(** [src/marty-secure-storage/src/models.rs:40-58] TrustPackageProvenance *)
Record TrustPackageProvenance := mkProvenance {
  tp_trust_domain : string;
  tp_sequence : Z;
  tp_package_version : string;
  tp_created_at : Z;
  tp_expires_at : Z;
  tp_signer_key_id : string;
  tp_package_digest : string;
  tp_imported_at : Z;
}.
#[export] Instance TrustPackageProvenance_eq_dec : EqDecision TrustPackageProvenance.
Proof. solve_decision. Defined.

(** [src/marty-secure-storage/src/models.rs:65-69] TrustPackageSignerPolicy *)
Record TrustPackageSignerPolicy := mkSignerPolicy { next_signer_key_id : option string; recovery_signer_key_id : string }.

(** [src/marty-secure-storage/src/models.rs:75-79] TrustAnchorRecord *)
Record TrustAnchorRecord := mkAnchorRecord { rec_anchor : StoredAnchor; rec_anchor_provenance : option TrustPackageProvenance }.

(** [src/marty-secure-storage/src/models.rs:85-89] OpenBadgeTrustRecord *)
Record OpenBadgeTrustRecord := mkMethodRecord { rec_method : OpenBadgeVerificationMethod; rec_method_provenance : option TrustPackageProvenance }.

(** [src/marty-secure-storage/src/models.rs:92-96] TrustPackageApplyResult *)
Record TrustPackageApplyResult := mkApplyResult { applied_anchors : Z; applied_methods : Z }.

(** [src/marty-secure-storage/src/models.rs:139-148] OfflineQueueEntry *)
Record OfflineQueueEntry := mkQueueEntry {
  oq_id : string; oq_event_type : string; oq_payload : Value; oq_created_at : Z; oq_retry_count : Z;
  oq_last_retry_at : option Z; oq_error : option string;
}.

(** [src/marty-secure-storage/src/models.rs:163-172] LicenseState *)
Record LicenseState := mkLicenseState {
  ls_license_jwt : option string; ls_validated_at : option Z; ls_hardware_fingerprint : option string;
  ls_verifications_today : Z; ls_verifications_date : option string; ls_verifications_total : Z;
  ls_grace_period_started : option Z;
}.

(** [src/marty-secure-storage/src/models.rs:175-184] SyncState *)
Record SyncState := mkSyncState {
  ss_last_iaca_sync : option Z; ss_last_csca_sync : option Z; ss_last_crl_sync : option Z;
  ss_iaca_version : option string; ss_csca_version : option string; ss_sync_in_progress : bool; ss_last_error : option string;
}.

(** [src/marty-secure-storage/src/database.rs:30-37] OfflineQueueStatus *)
Record OfflineQueueStatus := mkQueueStatus {
  qs_pending_events : Z; qs_oldest_event : option string; qs_data_size_bytes : Z;
  qs_last_sync_attempt : option string; qs_last_successful_sync : option string; qs_last_error : option string;
}.

(** [src/marty-secure-storage/src/database.rs:41-48] VerificationHistoryEntry *)
Record VerificationHistoryEntry := mkHistoryEntry {
  vh_id : string; vh_credential_type : string; vh_status : string; vh_verified_at : string;
  vh_jurisdiction : option string; vh_synced : bool;
}.

(** ** Tables *)

(** [src/marty-secure-storage/src/database/provenance.rs:23-32] StoredProvenance *)
Record StoredProvenance := mkStoredProvenance {
  sp_domain : option string;
  sp_sequence : option Z;
  sp_version : option string;
  sp_created : option string;
  sp_expires : option string;
  sp_signer : option string;
  sp_digest : option string;
  sp_imported : option string;
}.

(** [src/marty-secure-storage/src/schema.rs:30-52] the table trust_anchors *)
Record AnchorRow := mkAnchorRow {
  ar_anchor_type : string; ar_jurisdiction : string; ar_subject : option string; ar_issuer : option string;
  ar_serial_number : option string; ar_not_before : option string; ar_not_after : option string;
  ar_certificate_der : bytes; ar_certificate_hash : string; ar_source : option string; ar_synced_at : string;
  ar_provenance : StoredProvenance;
}.

(** [src/marty-secure-storage/src/schema.rs:62-82] the table open_badge_keys *)
Record KeyRow := mkKeyRow {
  kr_document_json : string; kr_controller : option string; kr_issuer : option string; kr_kid : option string;
  kr_not_before : option string; kr_not_after : option string; kr_status : option string; kr_source : option string;
  kr_synced_at : string; kr_provenance : StoredProvenance;
}.

(** The table [trust_packages]: [schema/trust_packages.sql]. *)
Record PackageRow := mkPackageRow {
  pk_sequence : Z; pk_package_version : string; pk_created_at : string; pk_expires_at : option string;
  pk_signer_key_id : string; pk_next_signer : option string; pk_recovery_signer : option string;
  pk_package_digest : string; pk_imported_at : string; pk_updated_at : string;
}.

(** [src/marty-secure-storage/src/schema.rs:7-20] the table verification_events *)
Record EventRow := mkEventRow { ev_credential_type : string; ev_status : string; ev_jurisdiction : option string; ev_verified_at : string; ev_synced : bool }.

(** [src/marty-secure-storage/src/schema.rs:120-128] the table offline_queue *)
Record QueueRow := mkQueueRow {
  qr_event_type : string; qr_payload : string; qr_created_at : string; qr_retry_count : Z; qr_last_retry_at : option string; qr_error : option string;
}.

(** [src/marty-secure-storage/src/schema.rs:136-142] the table offline_queue_state *)
Record QueueStateRow := mkQueueStateRow { qt_last_sync_attempt : option string; qt_last_successful_sync : option string; qt_last_error : option string; qt_updated_at : string }.

(** [src/marty-secure-storage/src/schema.rs:145-153] the table audit_log; without an instant, the default applies *)
Record AuditRow := mkAuditRow { au_event_type : string; au_actor : option string; au_target : option string; au_details : option string; au_created_at : option string }.

(** [src/marty-secure-storage/src/schema.rs:161-172] the table license_state *)
Record LicenseRow := mkLicenseRow {
  lr_license_jwt : option string; lr_validated_at : option string; lr_hardware_fingerprint : option string;
  lr_verifications_today : Z; lr_verifications_date : option string; lr_verifications_total : Z;
  lr_grace_period_started : option string; lr_updated_at : string;
}.

(** [src/marty-secure-storage/src/schema.rs:175-186] the table sync_state *)
Record SyncRow := mkSyncRow {
  sr_last_iaca_sync : option string; sr_last_csca_sync : option string; sr_last_crl_sync : option string;
  sr_iaca_version : option string; sr_csca_version : option string; sr_sync_in_progress : Z; sr_last_error : option string; sr_updated_at : string;
}.

(** The database; the tables with the one row [current] are options. *)
Record Db := mkDb {
  t_events : gmap string EventRow;
  t_anchors : gmap string AnchorRow;
  t_keys : gmap string KeyRow;
  t_packages : gmap string PackageRow;
  t_queue : gmap string QueueRow;
  t_queue_state : option QueueStateRow;
  t_audit : gmap string AuditRow;
  t_license : option LicenseRow;
  t_sync : option SyncRow;
}.

Definition with_events f d := mkDb (f (t_events d)) (t_anchors d) (t_keys d) (t_packages d) (t_queue d) (t_queue_state d) (t_audit d) (t_license d) (t_sync d).
Definition with_anchors f d := mkDb (t_events d) (f (t_anchors d)) (t_keys d) (t_packages d) (t_queue d) (t_queue_state d) (t_audit d) (t_license d) (t_sync d).
Definition with_keys f d := mkDb (t_events d) (t_anchors d) (f (t_keys d)) (t_packages d) (t_queue d) (t_queue_state d) (t_audit d) (t_license d) (t_sync d).
Definition with_packages f d := mkDb (t_events d) (t_anchors d) (t_keys d) (f (t_packages d)) (t_queue d) (t_queue_state d) (t_audit d) (t_license d) (t_sync d).
Definition with_queue f d := mkDb (t_events d) (t_anchors d) (t_keys d) (t_packages d) (f (t_queue d)) (t_queue_state d) (t_audit d) (t_license d) (t_sync d).
Definition with_queue_state f d := mkDb (t_events d) (t_anchors d) (t_keys d) (t_packages d) (t_queue d) (f (t_queue_state d)) (t_audit d) (t_license d) (t_sync d).
Definition with_audit f d := mkDb (t_events d) (t_anchors d) (t_keys d) (t_packages d) (t_queue d) (t_queue_state d) (f (t_audit d)) (t_license d) (t_sync d).
Definition with_license f d := mkDb (t_events d) (t_anchors d) (t_keys d) (t_packages d) (t_queue d) (t_queue_state d) (t_audit d) (f (t_license d)) (t_sync d).
Definition with_sync f d := mkDb (t_events d) (t_anchors d) (t_keys d) (t_packages d) (t_queue d) (t_queue_state d) (t_audit d) (t_license d) (f (t_sync d)).

(** ** The engine *)

(** SQLite: the rows of a table in the order of a scan, and the error of the
    [n]-th statement of an operation, where it fails. *)
Class Sqlite := {
  table_scan : forall {A : Type}, gmap string A -> list (string * A);
  fault : nat -> option string;
}.
Class SqliteLaws `{Sqlite} : Prop := table_scan_perm : forall A (m : gmap string A), table_scan m ≡ₚ map_to_list m.

Class Blake3 := blake3_hex : bytes -> string.

(** An operation on an open connection: the database and the number of
    statements so far. *)
Record Conn := mkConn { c_db : Db; c_stmt : nat }.
Definition Sql (A : Type) : Type := Conn -> Conn * result A.

#[export] Instance sql_ret : MRet Sql := fun A a c => (c, Ok a).
#[export] Instance sql_bind : MBind Sql := fun A B f m c =>
  match m c with
  | (c, Ok a) => f a c
  | (c, Err e) => (c, Err e)
  | (c, Panic) => (c, Panic)
  end.

(** [?] on a result that needs no connection. *)
Definition lift {A} (r : result A) : Sql A := fun c => (c, r).

Section engine.
Context `{Sqlite}.

(** One statement: it fails without an effect, or changes the database. *)
Definition execute {A} (f : Db -> result (Db * A)) : Sql A := fun c =>
  let n := S (c_stmt c) in
  match fault (c_stmt c) with
  | Some e => (mkConn (c_db c) n, Err (SeDatabase e))
  | None => match f (c_db c) with
            | Ok (d, a) => (mkConn d n, Ok a)
            | Err e => (mkConn (c_db c) n, Err e)
            | Panic => (mkConn (c_db c) n, Panic)
            end
  end.
Definition update {A} (f : Db -> Db * A) : Sql A := execute (fun d => Ok (f d)).
Definition query {A} (f : Db -> result A) : Sql A := execute (fun d => a ← f d; Ok (d, a)).

(** Statements that commit one by one. *)
Definition autocommit {A} (m : Sql A) (d : Db) : Db * result A := let '(c, r) := m (mkConn d 0) in (c_db c, r).

(** [transaction_with_behavior(Immediate)] .. [commit()]: dropped on any error. *)
Definition transaction {A} (m : Sql A) (d : Db) : Db * result A :=
  match fault 0 with
  | Some e => (d, Err (SeDatabase e))
  | None => match m (mkConn d 1) with
            | (c, Ok a) => match fault (c_stmt c) with Some e => (d, Err (SeDatabase e)) | None => (c_db c, Ok a) end
            | (_, Err e) => (d, Err e)
            | (_, Panic) => (d, Panic)
            end
  end.

(** [INSERT] of a row whose key must be new. *)
Definition insert_new {A} (key : string) (row : A) (t : gmap string A) : result (gmap string A) :=
  _ ← ensure (bool_decide (t !! key = None)) (SeDatabase "UNIQUE constraint failed"); Ok (<[key := row]> t).
End engine.

(** ** Validation of packages *)

(** [s.chars().any(char::is_control)], on UTF-8. *)
Fixpoint has_control (bs : bytes) : bool :=
  match bs with
  | [] => false
  | b :: rest =>
      (b <? 32) || (b =? 127) || ((b =? 194) && match rest with c :: _ => (128 <=? c) && (c <? 160) | [] => false end) || has_control rest
  end.
Definition printable (s : string) (max : Z) : bool :=
  negb (String.eqb s "" || (max <? str_len s) || has_control (str_bytes s)).

Definition invalid_package (m : string) : StorageError := SeInvalidTrustPackage m.

(** [src/marty-secure-storage/src/database.rs:1414-1421] validate_trust_package_signer_id *)
Definition validate_trust_package_signer_id (value role : string) : result unit :=
  ensure (printable value 512) (invalid_package (role +:+ " key id must be a bounded printable value")).

(** [src/marty-secure-storage/src/database.rs:1399-1412] validate_trust_package_signer_policy *)
Definition validate_trust_package_signer_policy (policy : TrustPackageSignerPolicy) : result unit :=
  _ ← validate_trust_package_signer_id (recovery_signer_key_id policy) "recovery signer";
  match next_signer_key_id policy with
  | Some next_signer =>
      _ ← validate_trust_package_signer_id next_signer "next signer";
      ensure (negb (String.eqb next_signer (recovery_signer_key_id policy))) (invalid_package "next and recovery signer ids must be distinct")
  | None => Ok tt
  end.

(** [src/marty-secure-storage/src/database.rs:1423-1444] validate_trust_package_signer_relationships *)
Definition validate_trust_package_signer_relationships (policy : TrustPackageSignerPolicy) (signer_key_id : string)
    (signer_is_recovery : bool) : result unit :=
  _ ← ensure (negb (bool_decide (next_signer_key_id policy = Some signer_key_id)))
        (invalid_package "next signer must differ from the package signer");
  _ ← ensure (negb (String.eqb (recovery_signer_key_id policy) signer_key_id && negb signer_is_recovery))
        (invalid_package "operational and recovery signer ids must be distinct");
  ensure (negb (signer_is_recovery && bool_decide (next_signer_key_id policy = None)))
    (invalid_package "a recovery-signed package must authorize a next operational signer").

(** [src/marty-secure-storage/src/database.rs:1446-1474] validate_stored_trust_package_signer_policy *)
Definition validate_stored_trust_package_signer_policy (current_signer : string) (next_signer recovery_signer : option string) : result unit :=
  _ ← validate_trust_package_signer_id current_signer "current signer";
  match recovery_signer with
  | None => ensure (bool_decide (next_signer = None)) (invalid_package "stored next signer is missing its recovery policy")
  | Some recovery_signer =>
      _ ← validate_trust_package_signer_id recovery_signer "stored recovery signer";
      match next_signer with
      | Some next_signer =>
          _ ← validate_trust_package_signer_id next_signer "stored next signer";
          ensure (negb (String.eqb next_signer current_signer || String.eqb next_signer recovery_signer))
            (invalid_package "stored current, next, and recovery signer roles are not distinct")
      | None => ensure (negb (String.eqb current_signer recovery_signer))
                  (invalid_package "stored recovery signer is active without a next operational signer")
      end
  end.

(** [src/marty-types/src/open_badges.rs:46-55] contains_private_key_material, a public JWK *)
Definition jwk_is_private (nested : Value) : bool :=
  match as_object nested with
  | None => true
  | Some jwk =>
      match map_get "kty" jwk ≫= as_str with None => true | Some kty => String.eqb kty "oct" end
      || existsb (fun p => contains_key p jwk) ["d"; "p"; "q"; "dp"; "dq"; "qi"; "oth"; "k"]
  end.

(** [src/marty-types/src/open_badges.rs:40-61] contains_private_key_material *)
Fixpoint contains_private_key_material (value : Value) : bool :=
  match value with
  | Object es =>
      (fix any (es : list (string * Value)) : bool :=
         match es with
         | [] => false
         | (key, nested) :: es =>
             (if str_starts_with key "privateKey" || str_starts_with key "secretKey" then true
              else if String.eqb key "publicKeyJwk" then jwk_is_private nested
              else contains_private_key_material nested) || any es
         end) es
  | Array items => (fix any (items : list Value) : bool :=
                      match items with [] => false | v :: items => contains_private_key_material v || any items end) items
  | _ => false
  end.

Definition interval_empty (not_before not_after : option Z) : bool :=
  match not_before, not_after with Some b, Some a => a <=? b | _, _ => false end.

(** [src/marty-secure-storage/src/database.rs:1621-1671] validate_open_badge_package, one method *)
Definition validate_method (ids : gset string) (m : OpenBadgeVerificationMethod) : result unit :=
  let bad s := invalid_package ("method " +:+ om_id m +:+ s) in
  _ ← ensure (negb (String.eqb (om_id m) "" || (2048 <? str_len (om_id m)) || bool_decide (om_id m ∈ ids)))
        (invalid_package ("method id " +:+ om_id m +:+ " is empty, oversized, or duplicated"));
  _ ← ensure (negb (bool_decide (om_source m = KeyManual))) (bad " uses manual source in an authenticated package");
  _ ← ensure (negb (interval_empty (om_not_before m) (om_not_after m))) (bad " has a non-positive validity interval");
  document ← ok_or (as_object (om_document m)) (bad " document must be an object");
  _ ← ensure (bool_decide (map_get "id" document ≫= as_str = Some (om_id m))) (bad " document id does not match its record id");
  controller ← ok_or (om_controller m) (bad " is missing controller metadata");
  _ ← ensure (bool_decide (map_get "controller" document ≫= as_str = Some controller))
        (bad " document controller does not match its record controller");
  ensure (negb (contains_private_key_material (om_document m))) (bad " contains private or symmetric key material").

(** [src/marty-secure-storage/src/database.rs:1619-1672] validate_open_badge_package, the loop over the methods *)
Fixpoint validate_methods (ids : gset string) (methods : list OpenBadgeVerificationMethod) : result unit :=
  match methods with
  | [] => Ok tt
  | m :: methods => _ ← validate_method ids m; validate_methods ({[om_id m]} ∪ ids) methods
  end.

(** [src/marty-secure-storage/src/database.rs:1541-1585] validate_open_badge_package, the identity of the package *)
Definition validate_package_identity (p : TrustPackageProvenance) : result Z :=
  _ ← ensure (negb (String.eqb (tp_trust_domain p) "" || (128 <? str_len (tp_trust_domain p))
                    || negb (forallb (fun b => is_ascii_alnum b || existsb (Z.eqb b) [46; 95; 45; 58]) (str_bytes (tp_trust_domain p)))))
        (invalid_package "trust domain must be 1-128 ASCII identifier characters");
  _ ← ensure (negb (tp_sequence p =? 0)) (invalid_package "package sequence must be greater than zero");
  sequence ← ok_or (if tp_sequence p <? 2 ^ 63 then Some (tp_sequence p) else None) (invalid_package "package sequence exceeds SQLite range");
  _ ← ensure (printable (tp_package_version p) 128) (invalid_package "package version must be a bounded printable value");
  _ ← ensure (printable (tp_signer_key_id p) 512) (invalid_package "signer key id must be a bounded printable value");
  _ ← ensure ((str_len (tp_package_digest p) =? 64) && forallb lower_hex_byte (str_bytes (tp_package_digest p)))
        (invalid_package "package digest must be 64 lowercase hexadecimal characters");
  Ok sequence.

Section storage.
Context `{Sqlite} `{Chrono} `{Rfc3339} `{JsonCodec} `{Blake3}.

(** [DateTime + Duration], which panics out of range. *)
Definition add_skew (t : Z) : result Z := expect (checked_add_seconds t MAX_PACKAGE_FUTURE_SKEW_SECONDS).

(** [src/marty-secure-storage/src/database.rs:1586-1617] validate_open_badge_package, the clock, read twice *)
Definition validate_package_times (p : TrustPackageProvenance) (now1 now2 : Z) : result unit :=
  latest_import ← add_skew (tp_imported_at p);
  _ ← ensure (negb (latest_import <? tp_created_at p)) (invalid_package "package creation time exceeds the allowed import clock skew");
  latest ← add_skew now1;
  _ ← ensure (negb (latest <? tp_created_at p)) (invalid_package "package creation time exceeds the allowed local clock skew");
  _ ← ensure (negb (latest <? tp_imported_at p)) (invalid_package "package import time exceeds the allowed local clock skew");
  _ ← ensure (negb (tp_expires_at p <=? tp_created_at p)) (invalid_package "package expiry time must be after its creation time");
  _ ← ensure (negb (tp_expires_at p <? tp_imported_at p)) (invalid_package "package cannot be imported after its signed expiry time");
  ensure (negb (tp_expires_at p <? now2)) (invalid_package "package signed expiry time has passed").

(** [src/marty-secure-storage/src/database.rs:1537-1675] validate_open_badge_package *)
Definition validate_open_badge_package (p : TrustPackageProvenance) (methods : list OpenBadgeVerificationMethod) (now1 now2 : Z) : result Z :=
  sequence ← validate_package_identity p;
  _ ← validate_package_times p now1 now2;
  _ ← validate_methods ∅ methods;
  Ok sequence.

(** [src/marty-secure-storage/src/database.rs:1483-1533] validate_trust_package, one anchor *)
Definition validate_anchor (p : TrustPackageProvenance) (ids : gset string) (a : StoredAnchor) : result unit :=
  let bad s := invalid_package ("trust anchor " +:+ ta_id a +:+ s) in
  _ ← ensure (negb (String.eqb (ta_id a) "" || (512 <? str_len (ta_id a)) || bool_decide (ta_id a ∈ ids)))
        (invalid_package ("trust anchor id " +:+ ta_id a +:+ " is empty, oversized, or duplicated"));
  _ ← ensure (printable (ta_jurisdiction a) 512) (bad " has invalid jurisdiction metadata");
  _ ← ensure (negb (bool_decide (ta_source a = AnchorManual))) (bad " uses manual source in an authenticated package");
  _ ← ensure (ta_synced_at a =? tp_created_at p) (bad " freshness does not match signed package time");
  _ ← ensure (negb (bool_decide (ta_certificate_der a = []))) (bad " has empty certificate DER");
  let digest := blake3_hex (ta_certificate_der a) in
  _ ← ensure (negb (negb (String.eqb (ta_certificate_hash a) digest) || negb (String.eqb (ta_id a) digest)))
        (bad " does not match its certificate digest");
  ensure (negb (interval_empty (ta_not_before a) (ta_not_after a))) (bad " has a non-positive validity interval").

(** [src/marty-secure-storage/src/database.rs:1482-1534] validate_trust_package, the loop over the anchors *)
Fixpoint validate_anchors (p : TrustPackageProvenance) (ids : gset string) (anchors : list StoredAnchor) : result unit :=
  match anchors with
  | [] => Ok tt
  | a :: anchors => _ ← validate_anchor p ids a; validate_anchors p ({[ta_id a]} ∪ ids) anchors
  end.

(** [src/marty-secure-storage/src/database.rs:1476-1535] validate_trust_package *)
Definition validate_trust_package (p : TrustPackageProvenance) (anchors : list StoredAnchor)
    (methods : list OpenBadgeVerificationMethod) (now1 now2 : Z) : result Z :=
  sequence ← validate_open_badge_package p methods now1 now2;
  _ ← validate_anchors p ∅ anchors;
  Ok sequence.

(** ** Stored values *)

(** [src/marty-secure-storage/src/database.rs:1677-1685] required_stored_value *)
Definition required_stored_value (value : option string) (record_id field : string) : result string :=
  ok_or (v ← value; if String.eqb v "" then None else Some v) (invalid_package ("record " +:+ record_id +:+ " is missing " +:+ field)).

(** [src/marty-secure-storage/src/database.rs:1687-1700] parse_stored_timestamp *)
Definition parse_stored_timestamp (value : option string) (record_id field : string) : result Z :=
  value ← ok_or value (invalid_package ("record " +:+ record_id +:+ " is missing " +:+ field));
  ok_or (parse_rfc3339 value) (invalid_package ("record " +:+ record_id +:+ " has malformed " +:+ field)).

(** [src/marty-secure-storage/src/database.rs:1702-1710] parse_optional_stored_timestamp *)
Definition parse_optional_stored_timestamp (value : option string) (record_id field : string) : result (option Z) :=
  match value with None => Ok None | Some v => t ← parse_stored_timestamp (Some v) record_id field; Ok (Some t) end.

(** [u64::try_from] of a stored integer. *)
Definition stored_sequence (n : Z) (error : StorageError) : result Z := ok_or (if n <? 0 then None else Some n) error.

(** [src/marty-secure-storage/src/database/provenance.rs:9-12] RecordKind *)
Inductive RecordKind := KindAnchor | KindMethod.

(** [src/marty-secure-storage/src/database/provenance.rs:15-20] RecordKind::label *)
Definition kind_label (k : RecordKind) : string := match k with KindAnchor => "trust anchor" | KindMethod => "method" end.

(** [src/marty-secure-storage/src/database/provenance.rs:48-50] StoredProvenance::is_governed *)
Definition is_governed (s : StoredProvenance) : bool := bool_decide (is_Some (sp_domain s)).

Definition no_provenance : StoredProvenance := mkStoredProvenance None None None None None None None None.

(** [src/marty-secure-storage/src/database/provenance.rs:52-112] StoredProvenance::decode *)
Definition provenance_decode (s : StoredProvenance) (kind : RecordKind) (id : string) : result (option TrustPackageProvenance) :=
  let bad m := invalid_package (kind_label kind +:+ " " +:+ id +:+ m) in
  match sp_domain s with
  | None =>
      _ ← ensure (bool_decide (sp_sequence s = None) && bool_decide (sp_version s = None) && bool_decide (sp_created s = None)
                  && bool_decide (sp_expires s = None) && bool_decide (sp_signer s = None) && bool_decide (sp_digest s = None)
                  && bool_decide (sp_imported s = None)) (bad " has partial package provenance");
      Ok None
  | Some domain =>
      sequence ← ok_or (sp_sequence s) (bad " is missing package sequence");
      sequence ← stored_sequence sequence (bad " has invalid package sequence");
      _ ← match kind with
          | KindMethod => _ ← parse_stored_timestamp (sp_created s) id "package creation time";
                          _ ← parse_stored_timestamp (sp_imported s) id "package import time"; Ok tt
          | KindAnchor => Ok tt
          end;
      version ← required_stored_value (sp_version s) id "package version";
      created_at ← parse_stored_timestamp (sp_created s) id "package creation time";
      expires_at ← parse_stored_timestamp (sp_expires s) id "package expiry time";
      signer_key_id ← required_stored_value (sp_signer s) id "package signer key id";
      package_digest ← required_stored_value (sp_digest s) id "package digest";
      imported_at ← parse_stored_timestamp (sp_imported s) id "package import time";
      Ok (Some (mkProvenance domain sequence version created_at expires_at signer_key_id package_digest imported_at))
  end.

(** [row.get::<String>] of a column that may be null. *)
Definition not_null (v : option string) : result string := ok_or v (SeDatabase "Invalid column type Null").

(** [src/marty-secure-storage/src/database.rs:1297-1306] map_trust_anchor_record, the type *)
Definition read_anchor_type (id text : string) : result TrustAnchorType :=
  if String.eqb text "iaca" then Ok Iaca else if String.eqb text "csca" then Ok Csca else if String.eqb text "dsc" then Ok Dsc
  else Err (invalid_package ("trust anchor " +:+ id +:+ " has unknown type " +:+ text)).

(** [src/marty-secure-storage/src/database.rs:1307-1317] map_trust_anchor_record, the source *)
Definition read_anchor_source (id text : string) : result TrustAnchorSource :=
  if String.eqb text "aamva_dts" then Ok AamvaDts else if String.eqb text "icao_pkd" then Ok IcaoPkd
  else if String.eqb text "usb_import" then Ok AnchorUsbImport else if String.eqb text "manual" then Ok AnchorManual
  else Err (invalid_package ("trust anchor " +:+ id +:+ " has unknown source " +:+ text)).

(** [src/marty-secure-storage/src/database.rs:1295-1351] map_trust_anchor_record *)
Definition map_trust_anchor_record (now1 now2 : Z) (id : string) (row : AnchorRow) : result TrustAnchorRecord :=
  type ← read_anchor_type id (ar_anchor_type row);
  source_text ← not_null (ar_source row);
  source ← read_anchor_source id source_text;
  not_before ← parse_optional_stored_timestamp (ar_not_before row) id "not_before";
  not_after ← parse_optional_stored_timestamp (ar_not_after row) id "not_after";
  synced_at ← parse_stored_timestamp (Some (ar_synced_at row)) id "synced_at";
  let anchor := mkStoredAnchor id type (ar_jurisdiction row) (ar_subject row) (ar_issuer row) (ar_serial_number row) not_before not_after
                  (ar_certificate_der row) (ar_certificate_hash row) source synced_at in
  provenance ← provenance_decode (ar_provenance row) KindAnchor id;
  _ ← match provenance with
      | Some p => _ ← validate_trust_package p [anchor] [] now1 now2; Ok tt
      | None => Ok tt
      end;
  Ok (mkAnchorRecord anchor provenance).

(** [src/marty-secure-storage/src/database.rs:1363-1372] map_open_badge_key_strict, the source *)
Definition read_key_source (id text : string) : result OpenBadgeKeySource :=
  if String.eqb text "sync" then Ok KeySync else if String.eqb text "usb_import" then Ok KeyUsbImport
  else if String.eqb text "manual" then Ok KeyManual
  else Err (invalid_package ("Open Badge method " +:+ id +:+ " has unknown source " +:+ text)).

(** [src/marty-secure-storage/src/database.rs:1353-1397] map_open_badge_key_strict *)
Definition map_open_badge_key_strict (id : string) (row : KeyRow) : result OpenBadgeVerificationMethod :=
  document ← match json_read (str_bytes (kr_document_json row)) with
             | inr v => Ok v
             | inl _ => Err (invalid_package ("Open Badge method " +:+ id +:+ " has malformed document JSON"))
             end;
  source_text ← not_null (kr_source row);
  source ← read_key_source id source_text;
  not_before ← parse_optional_stored_timestamp (kr_not_before row) id "not_before";
  not_after ← parse_optional_stored_timestamp (kr_not_after row) id "not_after";
  synced_at ← parse_stored_timestamp (Some (kr_synced_at row)) id "synced_at";
  Ok (mkBadgeMethod id document (kr_controller row) (kr_issuer row) (kr_kid row) not_before not_after (kr_status row) source synced_at).

(** [src/marty-secure-storage/src/database.rs:1747-1803] load_open_badge_package_provenance, of a row *)
Definition package_provenance (domain : string) (row : PackageRow) (now1 now2 : Z) : result TrustPackageProvenance :=
  let bad m := invalid_package ("domain " +:+ domain +:+ m) in
  _ ← validate_stored_trust_package_signer_policy (pk_signer_key_id row) (pk_next_signer row) (pk_recovery_signer row);
  sequence ← stored_sequence (pk_sequence row) (bad " has invalid stored sequence");
  created_at ← ok_or (parse_rfc3339 (pk_created_at row)) (bad " has malformed creation time");
  expires_text ← ok_or (pk_expires_at row) (bad " is missing signed expiry time");
  expires_at ← ok_or (parse_rfc3339 expires_text) (bad " has malformed expiry time");
  imported_at ← ok_or (parse_rfc3339 (pk_imported_at row)) (bad " has malformed import time");
  let p := mkProvenance domain sequence (pk_package_version row) created_at expires_at (pk_signer_key_id row) (pk_package_digest row) imported_at in
  _ ← validate_open_badge_package p [] now1 now2;
  Ok p.

(** [src/marty-secure-storage/src/database.rs:1712-1805] load_open_badge_package_provenance *)
Definition load_open_badge_package_provenance (domain : string) (now1 now2 : Z) : Sql (option TrustPackageProvenance) :=
  row ← query (fun d => Ok (t_packages d !! domain));
  lift (match row with None => Ok None | Some row => p ← package_provenance domain row now1 now2; Ok (Some p) end).

(** [src/marty-secure-storage/src/database/provenance.rs:115-147] check_package_states; [clock] gives the readings of the clock *)
Fixpoint check_package_states (kind : RecordKind) (clock : nat -> Z) (n : nat) (states : gmap string TrustPackageProvenance)
    (records : list (string * option TrustPackageProvenance)) : Sql unit :=
  match records with
  | [] => mret tt
  | (_, None) :: records => check_package_states kind clock n states records
  | (id, Some p) :: records =>
      let bad m := invalid_package (kind_label kind +:+ " " +:+ id +:+ m +:+ tp_trust_domain p) in
      stored ← match states !! tp_trust_domain p with
               | Some stored => mret stored
               | None =>
                   loaded ← load_open_badge_package_provenance (tp_trust_domain p) (clock n) (clock (S n));
                   lift (ok_or loaded (bad " references missing package state for domain "))
               end;
      _ ← lift (ensure (bool_decide (stored = p)) (bad " provenance conflicts with package state for domain "));
      check_package_states kind clock (S (S n)) (<[tp_trust_domain p := stored]> states) records
  end.

(** The rows of a query read one after the other, with the readings of the clock. *)
Fixpoint read_rows {A B} (f : Z -> Z -> string -> A -> result B) (clock : nat -> Z) (n : nat) (rows : list (string * A)) : result (list B) :=
  match rows with
  | [] => Ok []
  | (id, row) :: rows => b ← f (clock n) (clock (S n)) id row; bs ← read_rows f clock (S (S n)) rows; Ok (b :: bs)
  end.

(** [src/marty-secure-storage/src/database.rs:831-872] get_trust_anchor_records *)
Definition get_trust_anchor_records (type : TrustAnchorType) (jurisdiction : option string) (clock : nat -> Z) : Sql (list TrustAnchorRecord) :=
  rows ← query (fun d => Ok (List.filter (fun '(_, row) =>
           String.eqb (ar_anchor_type row) (anchor_type_text type)
           && match jurisdiction with Some j => String.eqb (ar_jurisdiction row) j | None => true end) (table_scan (t_anchors d))));
  records ← lift (read_rows map_trust_anchor_record clock 0 rows);
  _ ← check_package_states KindAnchor clock (2 * length rows) ∅
        ((fun r => (ta_id (rec_anchor r), rec_anchor_provenance r)) <$> records);
  mret records.

(** [src/marty-secure-storage/src/database.rs:815-826] get_trust_anchors *)
Definition get_trust_anchors (type : TrustAnchorType) (jurisdiction : option string) (clock : nat -> Z) : Sql (list StoredAnchor) :=
  records ← get_trust_anchor_records type jurisdiction clock; mret (rec_anchor <$> records).

(** [src/marty-secure-storage/src/database.rs:962-970] count_trust_anchors *)
Definition count_trust_anchors (type : TrustAnchorType) (clock : nat -> Z) : Sql Z :=
  records ← get_trust_anchor_records type None clock; mret (zlen records).

(** [src/marty-secure-storage/src/database.rs:908-927] get_open_badge_trust_records, one row *)
Definition map_open_badge_record (now1 now2 : Z) (id : string) (row : KeyRow) : result OpenBadgeTrustRecord :=
  method ← map_open_badge_key_strict id row;
  _ ← ensure (negb (is_governed (kr_provenance row) && bool_decide (as_object (om_document method) = None)))
        (invalid_package ("governed method " +:+ id +:+ " has malformed document JSON"));
  provenance ← provenance_decode (kr_provenance row) KindMethod id;
  _ ← match provenance with
      | Some p =>
          _ ← ensure (om_synced_at method =? tp_created_at p)
                (invalid_package ("governed method " +:+ id +:+ " freshness does not match signed package time"));
          _ ← validate_open_badge_package p [method] now1 now2; Ok tt
      | None => Ok tt
      end;
  Ok (mkMethodRecord method provenance).

(** [src/marty-secure-storage/src/database.rs:891-942] get_open_badge_trust_records *)
Definition get_open_badge_trust_records (clock : nat -> Z) : Sql (list OpenBadgeTrustRecord) :=
  rows ← query (fun d => Ok (table_scan (t_keys d)));
  records ← lift (read_rows map_open_badge_record clock 0 rows);
  _ ← check_package_states KindMethod clock (2 * length rows) ∅
        ((fun r => (om_id (rec_method r), rec_method_provenance r)) <$> records);
  mret records.

(** [src/marty-secure-storage/src/database.rs:875-884] get_open_badge_keys *)
Definition get_open_badge_keys (clock : nat -> Z) : Sql (list OpenBadgeVerificationMethod) :=
  records ← get_open_badge_trust_records clock; mret (rec_method <$> records).

(** [src/marty-secure-storage/src/database.rs:945-947] count_open_badge_keys *)
Definition count_open_badge_keys (clock : nat -> Z) : Sql Z := records ← get_open_badge_trust_records clock; mret (zlen records).

(** [src/marty-secure-storage/src/database.rs:950-959] get_latest_open_badge_sync *)
Definition get_latest_open_badge_sync (clock : nat -> Z) : Sql (option Z) :=
  records ← get_open_badge_trust_records clock;
  mret (foldl (fun acc r => Some (match acc with Some m => Z.max m (om_synced_at (rec_method r)) | None => om_synced_at (rec_method r) end)) None records).

(** ** Legacy writes *)

(** The row of an anchor and of a method, with its provenance. *)
Definition anchor_row (a : StoredAnchor) (synced_at : Z) (p : StoredProvenance) : AnchorRow :=
  mkAnchorRow (anchor_type_text (ta_type a)) (ta_jurisdiction a) (ta_subject a) (ta_issuer a) (ta_serial_number a)
    (to_rfc3339 <$> ta_not_before a) (to_rfc3339 <$> ta_not_after a) (ta_certificate_der a) (ta_certificate_hash a)
    (Some (anchor_source_text (ta_source a))) (to_rfc3339 synced_at) p.
Definition key_row (m : OpenBadgeVerificationMethod) (document_json : string) (synced_at : Z) (p : StoredProvenance) : KeyRow :=
  mkKeyRow document_json (om_controller m) (om_issuer m) (om_kid m) (to_rfc3339 <$> om_not_before m) (to_rfc3339 <$> om_not_after m)
    (om_status m) (Some (key_source_text (om_source m))) (to_rfc3339 synced_at) p.

(** [INSERT .. ON CONFLICT(id) DO UPDATE .. WHERE trust_domain IS NULL] of a row
    without provenance, under the trigger against legacy overwrites: the number of
    changed rows.  The columns of the provenance of an existing row stay. *)
Definition upsert_legacy {A} (provenance : A -> StoredProvenance) (keep : StoredProvenance -> A -> A) (key : string) (row : A)
    (abort : string) (t : gmap string A) : result (gmap string A * Z) :=
  match t !! key with
  | None => Ok (<[key := row]> t, 1)
  | Some old => if is_governed (provenance old) then Err (SeDatabase abort) else Ok (<[key := keep (provenance old) row]> t, 1)
  end.

Definition anchor_keep (p : StoredProvenance) (r : AnchorRow) : AnchorRow :=
  mkAnchorRow (ar_anchor_type r) (ar_jurisdiction r) (ar_subject r) (ar_issuer r) (ar_serial_number r) (ar_not_before r) (ar_not_after r)
    (ar_certificate_der r) (ar_certificate_hash r) (ar_source r) (ar_synced_at r) p.
Definition key_keep (p : StoredProvenance) (r : KeyRow) : KeyRow :=
  mkKeyRow (kr_document_json r) (kr_controller r) (kr_issuer r) (kr_kid r) (kr_not_before r) (kr_not_after r) (kr_status r) (kr_source r) (kr_synced_at r) p.

(** [src/marty-secure-storage/src/database.rs:271-333] store_trust_anchor *)
Definition store_trust_anchor (a : StoredAnchor) : Sql unit :=
  let conflict := SeTrustPackageConflict ("legacy write cannot replace governed trust anchor " +:+ ta_id a) in
  governed ← query (fun d => Ok (match t_anchors d !! ta_id a with Some row => is_governed (ar_provenance row) | None => false end));
  _ ← lift (ensure (negb governed) conflict);
  changed ← execute (fun d => '(t, n) ← upsert_legacy ar_provenance anchor_keep (ta_id a) (anchor_row a (ta_synced_at a) no_provenance)
                               "legacy write cannot replace governed trust anchor" (t_anchors d);
                             Ok (with_anchors (fun _ => t) d, n));
  lift (ensure (negb (changed =? 0)) conflict).

Definition json_text_of (v : Value) : result string :=
  match json_to_string v with inr s => Ok s | inl e => Err (SeSerialization e) end.

(** [src/marty-secure-storage/src/database.rs:336-397] store_open_badge_key *)
Definition store_open_badge_key (m : OpenBadgeVerificationMethod) : Sql unit :=
  let conflict := SeTrustPackageConflict ("legacy write cannot replace governed method " +:+ om_id m) in
  document_json ← lift (json_text_of (om_document m));
  governed ← query (fun d => Ok (match t_keys d !! om_id m with Some row => is_governed (kr_provenance row) | None => false end));
  _ ← lift (ensure (negb governed) conflict);
  changed ← execute (fun d => '(t, n) ← upsert_legacy kr_provenance key_keep (om_id m) (key_row m document_json (om_synced_at m) no_provenance)
                               "legacy write cannot replace governed Open Badge method" (t_keys d);
                             Ok (with_keys (fun _ => t) d, n));
  lift (ensure (negb (changed =? 0)) conflict).

(** ** Trust packages *)

(** The signer of a package, as the audit log names it. *)
Inductive SignerRole := RoleBootstrap | RoleCurrent | RoleNext | RoleRecovery.
Definition role_text (r : SignerRole) : string :=
  match r with RoleBootstrap => "bootstrap" | RoleCurrent => "current" | RoleNext => "next" | RoleRecovery => "recovery" end.
#[export] Instance SignerRole_eq_dec : EqDecision SignerRole.
Proof. solve_decision. Defined.

Record SignerState := mkSignerState { role : SignerRole; effective_next : option string; effective_recovery : option string }.

(** [src/marty-secure-storage/src/database.rs:506-524] apply_trust_package_internal, the sequence *)
Definition check_sequence (p : TrustPackageProvenance) (current : PackageRow) (current_sequence : Z) : result unit :=
  _ ← ensure (negb (tp_sequence p <? current_sequence))
        (SeTrustPackageRollback (tp_trust_domain p) current_sequence (tp_sequence p));
  if tp_sequence p =? current_sequence then
    if String.eqb (tp_package_digest p) (pk_package_digest current) then Err (SeTrustPackageReplay (tp_trust_domain p) (tp_sequence p))
    else Err (SeTrustPackageConflict ("domain " +:+ tp_trust_domain p +:+ " sequence " +:+ pretty (tp_sequence p) +:+ " has a different digest"))
  else Ok tt.

(** [src/marty-secure-storage/src/database.rs:525-535] apply_trust_package_internal, the role of the signer *)
Definition signer_role (p : TrustPackageProvenance) (current : PackageRow) : result SignerRole :=
  if String.eqb (tp_signer_key_id p) (pk_signer_key_id current) then Ok RoleCurrent
  else if bool_decide (pk_next_signer current = Some (tp_signer_key_id p)) then Ok RoleNext
  else if bool_decide (pk_recovery_signer current = Some (tp_signer_key_id p)) then Ok RoleRecovery
  else Err (SeTrustPackageSignerChange (tp_trust_domain p)).

(** [src/marty-secure-storage/src/database.rs:537-567] apply_trust_package_internal, the signers of the next package *)
Definition next_signers (p : TrustPackageProvenance) (current : PackageRow) (r : SignerRole) (policy : option TrustPackageSignerPolicy) :
    result SignerState :=
  let change := SeTrustPackageSignerChange (tp_trust_domain p) in
  match policy with
  | Some policy =>
      _ ← match pk_recovery_signer current with
          | Some stored_recovery => ensure (String.eqb (recovery_signer_key_id policy) stored_recovery) change
          | None => ensure (bool_decide (r = RoleCurrent)) change
          end;
      let signer_is_recovery := bool_decide (r = RoleRecovery) || bool_decide (pk_recovery_signer current = Some (tp_signer_key_id p)) in
      _ ← validate_trust_package_signer_relationships policy (tp_signer_key_id p) signer_is_recovery;
      Ok (mkSignerState r (next_signer_key_id policy) (Some (recovery_signer_key_id policy)))
  | None =>
      _ ← ensure (bool_decide (r = RoleCurrent)) change;
      Ok (mkSignerState r (pk_next_signer current) (pk_recovery_signer current))
  end.

(** [src/marty-secure-storage/src/database.rs:568-603] apply_trust_package_internal, the contents that must change *)
Definition check_progress (p : TrustPackageProvenance) (current : PackageRow) : result unit :=
  let conflict m := SeTrustPackageConflict ("domain " +:+ tp_trust_domain p +:+ m) in
  _ ← ensure (negb (String.eqb (tp_package_version p) (pk_package_version current)))
        (conflict (" version " +:+ tp_package_version p +:+ " has a different sequence or digest"));
  _ ← ensure (negb (String.eqb (tp_package_digest p) (pk_package_digest current)))
        (conflict (" reused digest " +:+ tp_package_digest p +:+ " at a newer sequence"));
  current_created_at ← ok_or (parse_rfc3339 (pk_created_at current)) (invalid_package "stored package creation time is malformed");
  current_expires_at ← ok_or (pk_expires_at current) (invalid_package "stored package expiry time is missing");
  _ ← ok_or (parse_rfc3339 current_expires_at) (invalid_package "stored package expiry time is malformed");
  ensure (negb (tp_created_at p <=? current_created_at)) (conflict " package creation time did not advance").

(** [src/marty-secure-storage/src/database.rs:477-606] apply_trust_package_internal, the decision on the current package *)
Definition decide_package (p : TrustPackageProvenance) (policy : option TrustPackageSignerPolicy) (current : option PackageRow) : result SignerState :=
  match current with
  | Some current =>
      _ ← validate_stored_trust_package_signer_policy (pk_signer_key_id current) (pk_next_signer current) (pk_recovery_signer current);
      current_sequence ← stored_sequence (pk_sequence current) (invalid_package "stored package sequence is negative or out of range");
      _ ← check_sequence p current current_sequence;
      r ← signer_role p current;
      signers ← next_signers p current r policy;
      _ ← check_progress p current;
      Ok signers
  | None =>
      _ ← match policy with
          | Some policy => validate_trust_package_signer_relationships policy (tp_signer_key_id p) false
          | None => Ok tt
          end;
      Ok (mkSignerState RoleBootstrap (policy ≫= next_signer_key_id) (recovery_signer_key_id <$> policy))
  end.

(** [src/marty-secure-storage/src/database.rs:608-621] apply_trust_package_internal, the details of the audit entry *)
Definition audit_details (p : TrustPackageProvenance) (s : SignerState) (anchors methods : Z) : Value :=
  Object [("trust_domain", VString (tp_trust_domain p)); ("sequence", Number (pretty (tp_sequence p)));
          ("package_version", VString (tp_package_version p)); ("package_expires_at", VString (to_rfc3339 (tp_expires_at p)));
          ("signer_key_id", VString (tp_signer_key_id p)); ("signer_role", VString (role_text (role s)));
          ("next_signer_authorized", Bool (bool_decide (is_Some (effective_next s))));
          ("recovery_policy_established", Bool (bool_decide (is_Some (effective_recovery s))));
          ("package_digest", VString (tp_package_digest p)); ("trust_anchor_count", Number (pretty anchors));
          ("open_badge_method_count", Number (pretty methods)); ("outcome", VString "applied")].

(** [src/marty-secure-storage/src/database.rs:632-662] apply_trust_package_internal, the identifiers that other sources own *)
Fixpoint check_conflicts {A} (table : Db -> gmap string A) (message : string -> string) (ids : list string) : Sql unit :=
  match ids with
  | [] => mret tt
  | id :: ids =>
      found ← query (fun d => Ok (table d !! id));
      _ ← lift (ensure (bool_decide (found = None) ) (SeTrustPackageConflict (message id)));
      check_conflicts table message ids
  end.

(** The provenance columns of a package. *)
Definition stored_provenance (p : TrustPackageProvenance) (sequence : Z) : StoredProvenance :=
  mkStoredProvenance (Some (tp_trust_domain p)) (Some sequence) (Some (tp_package_version p)) (Some (to_rfc3339 (tp_created_at p)))
    (Some (to_rfc3339 (tp_expires_at p))) (Some (tp_signer_key_id p)) (Some (tp_package_digest p)) (Some (to_rfc3339 (tp_imported_at p))).

(** [src/marty-secure-storage/src/database.rs:664-699] apply_trust_package_internal, the anchors *)
Fixpoint insert_anchors (p : TrustPackageProvenance) (sequence : Z) (anchors : list StoredAnchor) : Sql unit :=
  match anchors with
  | [] => mret tt
  | a :: anchors =>
      _ ← execute (fun d => t ← insert_new (ta_id a) (anchor_row a (tp_created_at p) (stored_provenance p sequence)) (t_anchors d);
                            Ok (with_anchors (fun _ => t) d, tt));
      insert_anchors p sequence anchors
  end.

(** [src/marty-secure-storage/src/database.rs:701-733] apply_trust_package_internal, the methods with their documents *)
Fixpoint insert_methods (p : TrustPackageProvenance) (sequence : Z) (methods : list (OpenBadgeVerificationMethod * string)) : Sql unit :=
  match methods with
  | [] => mret tt
  | (m, document_json) :: methods =>
      _ ← execute (fun d => t ← insert_new (om_id m) (key_row m document_json (tp_created_at p) (stored_provenance p sequence)) (t_keys d);
                            Ok (with_keys (fun _ => t) d, tt));
      insert_methods p sequence methods
  end.

(** [src/marty-secure-storage/src/database.rs:735-767] apply_trust_package_internal, the row of the package *)
Definition package_row (p : TrustPackageProvenance) (sequence : Z) (s : SignerState) : PackageRow :=
  mkPackageRow sequence (tp_package_version p) (to_rfc3339 (tp_created_at p)) (Some (to_rfc3339 (tp_expires_at p))) (tp_signer_key_id p)
    (effective_next s) (effective_recovery s) (tp_package_digest p) (to_rfc3339 (tp_imported_at p)) (to_rfc3339 (tp_imported_at p)).

(** [src/marty-secure-storage/src/database.rs:769-791] apply_trust_package_internal, the synchronization state; the CRL clock of an existing row stays *)
Definition package_sync (p : TrustPackageProvenance) (old : option SyncRow) : option SyncRow :=
  Some (mkSyncRow (Some (to_rfc3339 (tp_created_at p))) (Some (to_rfc3339 (tp_created_at p))) (old ≫= sr_last_crl_sync)
          (Some (tp_package_version p)) (Some (tp_package_version p)) 0 None (to_rfc3339 (tp_imported_at p))).

(** Rows that a package of a domain replaces. *)
Definition of_domain (domain : string) (s : StoredProvenance) : Prop := sp_domain s = Some domain.
#[export] Instance of_domain_dec domain s : Decision (of_domain domain s) := ltac:(unfold of_domain; apply _).

Definition delete_domain {A} (provenance : A -> StoredProvenance) (domain : string) (t : gmap string A) : gmap string A :=
  filter (fun '(_, row) => ~ of_domain domain (provenance row)) t.

(** [src/marty-secure-storage/src/database.rs:449-810] apply_trust_package_internal, the transaction *)
Definition apply_in_transaction (p : TrustPackageProvenance) (sequence : Z) (anchors : list StoredAnchor)
    (methods : list (OpenBadgeVerificationMethod * string)) (policy : option TrustPackageSignerPolicy) (audit_id : string) : Sql TrustPackageApplyResult :=
  let domain := tp_trust_domain p in
  current ← query (fun d => Ok (t_packages d !! domain));
  signers ← lift (decide_package p policy current);
  details ← lift (json_text_of (audit_details p signers (zlen anchors) (zlen methods)));
  _ ← update (fun d => (with_anchors (delete_domain ar_provenance domain) d, tt));
  _ ← update (fun d => (with_keys (delete_domain kr_provenance domain) d, tt));
  _ ← check_conflicts t_anchors (fun id => "trust anchor " +:+ id +:+ " is already owned by another or legacy trust source") (ta_id <$> anchors);
  _ ← check_conflicts t_keys (fun id => "method " +:+ id +:+ " is already owned by another or legacy trust source") ((om_id ∘ fst) <$> methods);
  _ ← insert_anchors p sequence anchors;
  _ ← insert_methods p sequence methods;
  _ ← update (fun d => (with_packages (insert domain (package_row p sequence signers)) d, tt));
  _ ← update (fun d => (with_sync (package_sync p) d, tt));
  _ ← execute (fun d => t ← insert_new audit_id (mkAuditRow "trust_package_applied" None (Some domain) (Some details) (Some (to_rfc3339 (tp_imported_at p)))) (t_audit d);
                        Ok (with_audit (fun _ => t) d, tt));
  mret (mkApplyResult (zlen anchors) (zlen methods)).

(** [src/marty-secure-storage/src/database.rs:444-447] apply_trust_package_internal, the documents *)
Fixpoint method_documents (methods : list OpenBadgeVerificationMethod) : result (list (OpenBadgeVerificationMethod * string)) :=
  match methods with
  | [] => Ok []
  | m :: methods => s ← json_text_of (om_document m); rest ← method_documents methods; Ok ((m, s) :: rest)
  end.

(** [src/marty-secure-storage/src/database.rs:436-812] apply_trust_package_internal *)
Definition apply_trust_package_internal (p : TrustPackageProvenance) (anchors : list StoredAnchor) (methods : list OpenBadgeVerificationMethod)
    (policy : option TrustPackageSignerPolicy) (now1 now2 : Z) (audit_id : string) (d : Db) : Db * result TrustPackageApplyResult :=
  match sequence ← validate_trust_package p anchors methods now1 now2; documents ← method_documents methods; Ok (sequence, documents) with
  | Ok (sequence, documents) => transaction (apply_in_transaction p sequence anchors documents policy audit_id) d
  | Err e => (d, Err e)
  | Panic => (d, Panic)
  end.

(** [src/marty-secure-storage/src/database.rs:406-414] apply_trust_package *)
Definition apply_trust_package (p : TrustPackageProvenance) (anchors : list StoredAnchor) (methods : list OpenBadgeVerificationMethod)
    (now1 now2 : Z) (audit_id : string) (d : Db) : Db * result TrustPackageApplyResult :=
  apply_trust_package_internal p anchors methods None now1 now2 audit_id d.

(** [src/marty-secure-storage/src/database.rs:424-434] apply_trust_package_with_signer_policy *)
Definition apply_trust_package_with_signer_policy (p : TrustPackageProvenance) (anchors : list StoredAnchor)
    (methods : list OpenBadgeVerificationMethod) (policy : TrustPackageSignerPolicy) (now1 now2 : Z) (audit_id : string) (d : Db) :
    Db * result TrustPackageApplyResult :=
  match validate_trust_package_signer_policy policy with
  | Ok _ => apply_trust_package_internal p anchors methods (Some policy) now1 now2 audit_id d
  | Err e => (d, Err e)
  | Panic => (d, Panic)
  end.

(** ** History, license and synchronization state *)

(** [src/marty-secure-storage/src/database.rs:134-154] store_verification_event, of the JSON of a status *)
Definition store_verification_event (id credential_type status_json : string) (now : Z) : Sql unit :=
  execute (fun d => t ← insert_new id (mkEventRow credential_type status_json None (to_rfc3339 now) false) (t_events d);
                    Ok (with_events (fun _ => t) d, tt)).

(** [ORDER BY column], on the bytes of a text. *)
Definition text_le (s t : string) : bool := bytes_le (str_bytes s) (str_bytes t).

(** [src/marty-secure-storage/src/database.rs:157-189] get_verification_history *)
Definition get_verification_history (limit : Z) : Sql (list VerificationHistoryEntry) :=
  rows ← query (fun d => Ok (take (Z.to_nat limit)
           (sort_by (fun a b => text_le (ev_verified_at b.2) (ev_verified_at a.2)) (table_scan (t_events d)))));
  mret ((fun '(id, r) => mkHistoryEntry id (ev_credential_type r) (ev_status r) (ev_verified_at r) (ev_jurisdiction r) (ev_synced r)) <$> rows).

(** [src/marty-secure-storage/src/database.rs:192-211] clear_verification_history; [sql_datetime] is SQLite's [datetime('now', days)] *)
Definition clear_verification_history (older_than_days : Z) (sql_datetime : string -> string) : Sql Z :=
  if older_than_days =? 0 then update (fun d => (with_events (fun _ => ∅) d, Z.of_nat (size (t_events d))))
  else
    let limit := sql_datetime ("-" +:+ pretty older_than_days +:+ " days") in
    update (fun d =>
      let kept := filter (fun '(_, row) => ~ (str_lt (ev_verified_at row) limit = true)) (t_events d) in
      (with_events (fun _ => kept) d, Z.of_nat (size (t_events d)) - Z.of_nat (size kept))).

(** A stored instant that does not parse counts as absent. *)
Definition lenient (t : option string) : option Z := t ≫= parse_rfc3339.

(** [src/marty-secure-storage/src/database.rs:973-1009] get_license_state *)
Definition get_license_state : Sql (option LicenseState) :=
  row ← query (fun d => Ok (t_license d));
  mret ((fun r => mkLicenseState (lr_license_jwt r) (lenient (lr_validated_at r)) (lr_hardware_fingerprint r) (lr_verifications_today r)
                    (lr_verifications_date r) (lr_verifications_total r) (lenient (lr_grace_period_started r))) <$> row).

(** [src/marty-secure-storage/src/database.rs:1012-1036] update_license_state *)
Definition update_license_state (s : LicenseState) (now : Z) : Sql unit :=
  update (fun d => (with_license (fun _ => Some (mkLicenseRow (ls_license_jwt s) (to_rfc3339 <$> ls_validated_at s) (ls_hardware_fingerprint s)
    (ls_verifications_today s) (ls_verifications_date s) (ls_verifications_total s) (to_rfc3339 <$> ls_grace_period_started s) (to_rfc3339 now))) d, tt)).

(** [src/marty-secure-storage/src/database.rs:1039-1079] get_sync_state *)
Definition get_sync_state : Sql (option SyncState) :=
  row ← query (fun d => Ok (t_sync d));
  mret ((fun r => mkSyncState (lenient (sr_last_iaca_sync r)) (lenient (sr_last_csca_sync r)) (lenient (sr_last_crl_sync r))
                    (sr_iaca_version r) (sr_csca_version r) (negb (sr_sync_in_progress r =? 0)) (sr_last_error r)) <$> row).

(** [src/marty-secure-storage/src/database.rs:1082-1106] update_sync_state *)
Definition update_sync_state (s : SyncState) (now : Z) : Sql unit :=
  update (fun d => (with_sync (fun _ => Some (mkSyncRow (to_rfc3339 <$> ss_last_iaca_sync s) (to_rfc3339 <$> ss_last_csca_sync s)
    (to_rfc3339 <$> ss_last_crl_sync s) (ss_iaca_version s) (ss_csca_version s) (if ss_sync_in_progress s then 1 else 0) (ss_last_error s)
    (to_rfc3339 now))) d, tt)).

(** ** The offline queue *)

(** [src/marty-secure-storage/src/database.rs:1109-1128] queue_event *)
Definition queue_event (event_type : string) (payload : Value) (id : string) (now : Z) : Sql string :=
  payload_text ← lift (json_text_of payload);
  _ ← execute (fun d => t ← insert_new id (mkQueueRow event_type payload_text (to_rfc3339 now) 0 None None) (t_queue d);
                        Ok (with_queue (fun _ => t) d, tt));
  mret id.

(** [src/marty-secure-storage/src/database.rs:1146-1169] get_pending_events, one row; [now] replaces an instant that does not parse *)
Definition queue_entry (now : Z) (id : string) (r : QueueRow) : OfflineQueueEntry :=
  mkQueueEntry id (qr_event_type r) (match json_read (str_bytes (qr_payload r)) with inr v => v | inl _ => Null end)
    (default now (parse_rfc3339 (qr_created_at r))) (qr_retry_count r) (lenient (qr_last_retry_at r)) (qr_error r).

(** [src/marty-secure-storage/src/database.rs:1131-1177] get_pending_events *)
Definition get_pending_events (limit : Z) (now : Z) : Sql (list OfflineQueueEntry) :=
  rows ← query (fun d => Ok (take (Z.to_nat limit)
           (sort_by (fun a b => text_le (qr_created_at a.2) (qr_created_at b.2)) (table_scan (t_queue d)))));
  _ ← lift (ensure (forallb (fun r => (- 2 ^ 31 <=? qr_retry_count r.2) && (qr_retry_count r.2 <? 2 ^ 31)) rows)
              (SeDatabase "Integer out of range"));
  mret ((fun '(id, r) => queue_entry now id r) <$> rows).

(** [src/marty-secure-storage/src/database.rs:1180-1184] remove_queued_event *)
Definition remove_queued_event (id : string) : Sql unit := update (fun d => (with_queue (delete id) d, tt)).

(** [src/marty-secure-storage/src/database.rs:1807-1830] validate_queue_batch *)
Definition validate_queue_batch (ids : list string) : result unit :=
  _ ← ensure (negb (bool_decide (ids = []))) (SeInvalidQueueBatch "at least one event id is required");
  _ ← ensure (negb (MAX_QUEUE_BATCH_SIZE <? zlen ids))
        (SeInvalidQueueBatch ("batch contains " +:+ pretty (zlen ids) +:+ " events; maximum is 1000"));
  _ ← ensure (negb (existsb (String.eqb "") ids)) (SeInvalidQueueBatch "event ids cannot be empty");
  ensure (Z.of_nat (size (list_to_set ids : gset string)) =? zlen ids) (SeInvalidQueueBatch "event ids must be unique").

(** [error.chars().take(n)]: the bytes up to the start of character [n]. *)
Fixpoint take_chars (n : nat) (bs : bytes) : bytes :=
  match bs with
  | [] => []
  | b :: rest =>
      if (128 <=? b) && (b <? 192) then b :: take_chars n rest
      else match n with O => [] | S n => b :: take_chars n rest end
  end.

(** [src/marty-secure-storage/src/database.rs:1832-1834] bounded_queue_error *)
Definition bounded_queue_error (error : string) : string := str_of_bytes (take_chars (Z.to_nat MAX_QUEUE_ERROR_CHARS) (str_bytes error)).

(** [src/marty-secure-storage/src/database.rs:1201-1217] record_queue_batch_failure, the loop over the events *)
Fixpoint retry_loop (now error : string) (ids : list string) : Sql unit :=
  match ids with
  | [] => mret tt
  | id :: ids =>
      changed ← update (fun d =>
        match t_queue d !! id with
        | Some r => (with_queue (insert id (mkQueueRow (qr_event_type r) (qr_payload r) (qr_created_at r) (qr_retry_count r + 1) (Some now) (Some error))) d, 1)
        | None => (d, 0)
        end);
      _ ← lift (ensure (changed =? 1) (SeInvalidQueueBatch ("event " +:+ id +:+ " is missing")));
      retry_loop now error ids
  end.

(** [src/marty-secure-storage/src/database.rs:1190-1233] record_queue_batch_failure *)
Definition record_queue_batch_failure (ids : list string) (error : string) (now : Z) (d : Db) : Db * result unit :=
  match validate_queue_batch ids with
  | Ok _ =>
      let error := bounded_queue_error error in
      let now := to_rfc3339 now in
      transaction (
        _ ← retry_loop now error ids;
        update (fun d => (with_queue_state (fun old =>
          Some (mkQueueStateRow (Some now) (old ≫= qt_last_successful_sync) (Some error) now)) d, tt))) d
  | Err e => (d, Err e)
  | Panic => (d, Panic)
  end.

(** [src/marty-secure-storage/src/database.rs:1245-1252] acknowledge_queue_batch, the loop over the events *)
Fixpoint acknowledge_loop (ids : list string) : Sql unit :=
  match ids with
  | [] => mret tt
  | id :: ids =>
      changed ← update (fun d => (with_queue (delete id) d, if bool_decide (t_queue d !! id = None) then 0 else 1));
      _ ← lift (ensure (changed =? 1) (SeInvalidQueueBatch ("event " +:+ id +:+ " is missing")));
      acknowledge_loop ids
  end.

(** [src/marty-secure-storage/src/database.rs:1239-1269] acknowledge_queue_batch *)
Definition acknowledge_queue_batch (ids : list string) (now : Z) (d : Db) : Db * result Z :=
  match validate_queue_batch ids with
  | Ok _ =>
      let now := to_rfc3339 now in
      transaction (
        _ ← acknowledge_loop ids;
        _ ← update (fun d => (with_queue_state (fun _ => Some (mkQueueStateRow (Some now) (Some now) None now)) d, tt));
        mret (zlen ids)) d
  | Err e => (d, Err e)
  | Panic => (d, Panic)
  end.

(** [LENGTH] of a text: its characters. *)
Definition char_length (s : string) : Z := zlen (List.filter (fun b => negb ((128 <=? b) && (b <? 192))) (str_bytes s)).

(** [src/marty-secure-storage/src/database.rs:214-268] get_queue_status; the query of the oldest event may fail silently *)
Definition get_queue_status : Sql OfflineQueueStatus :=
  pending ← query (fun d => Ok (Z.of_nat (size (t_queue d))));
  oldest ← (fun c => match query (fun d => Ok (head (sort_by text_le ((qr_created_at ∘ snd) <$> table_scan (t_queue d))))) c with
                     | (c, Ok o) => (c, Ok o) | (c, Err _) => (c, Ok None) | (c, Panic) => (c, Panic) end) : Sql (option string);
  bytes_total ← query (fun d => Ok (foldr (fun r n => char_length (qr_payload r.2) + n) 0 (table_scan (t_queue d))));
  state ← query (fun d => Ok (t_queue_state d));
  mret (mkQueueStatus pending oldest bytes_total (state ≫= qt_last_sync_attempt) (state ≫= qt_last_successful_sync) (state ≫= qt_last_error)).

(** [src/marty-secure-storage/src/database.rs:1272-1292] add_audit_log *)
Definition add_audit_log (event_type : string) (actor target : option string) (details : option Value) (id : string) : Sql unit :=
  details_text ← lift (match details with None => Ok None | Some v => s ← json_text_of v; Ok (Some s) end);
  execute (fun d => t ← insert_new id (mkAuditRow event_type actor target details_text None) (t_audit d);
                    Ok (with_audit (fun _ => t) d, tt)).
End storage.

(** ** Field encryption *)

Section pii.
Context `{Aes} `{StdBase64} `{Blake3}.

(** [src/marty-secure-storage/src/encryption.rs:32-41] PiiEncryptor::new *)
Definition pii_new (key : bytes) : result bytes :=
  _ ← ensure (zlen key =? 32) (SeEncryption "Key must be 32 bytes"); Ok key.

(** [src/marty-secure-storage/src/encryption.rs:45-64] PiiEncryptor::encrypt, with the random nonce *)
Definition pii_encrypt (key nonce : bytes) (plaintext : string) : result string :=
  ciphertext ← ok_or (gcm_seal key nonce [] (str_bytes plaintext)) (SeEncryption "aead::Error");
  Ok (std_encode (nonce ++ ciphertext)%list).

(** [src/marty-secure-storage/src/encryption.rs:67-90] PiiEncryptor::decrypt *)
Definition pii_decrypt (key : bytes) (ciphertext_b64 : string) : result string :=
  data ← ok_or (std_decode ciphertext_b64) (SeEncryption "Invalid base64");
  _ ← ensure (negb (zlen data <? 12)) (SeEncryption "Ciphertext too short");
  nonce ← vec_slice data 0 12;
  ciphertext ← vec_slice data 12 (zlen data);
  plaintext ← ok_or (gcm_open key nonce [] ciphertext) (SeEncryption "Decryption failed: aead::Error");
  _ ← ensure (utf8_valid plaintext) (SeEncryption "Invalid UTF-8");
  Ok (str_of_bytes plaintext).

(** [src/marty-secure-storage/src/encryption.rs:93-96] PiiEncryptor::hash_for_index *)
Definition hash_for_index (value : string) : string := blake3_hex (str_bytes value).
End pii.
