(* ===== verification/SecureStorageFacts.v ===== *)
(** * Secure storage: theorems (marty-secure-storage)

    Applying a trust package is atomic under every failure of the engine and has
    exactly the effect that its provenance, anchors and methods describe; in every
    run of the repositories the packages of a domain only advance, by authorized
    signers and with a stable recovery key, and governed rows stay bound to their
    package; anchors are read only from packages in force. *)

From stdpp Require Import pretty.
From S2P Require Import Prelude Governance GovernanceFacts PolicyService EvidencePolicy DeviceAuth TrustSync Issuance VcdmIssuance CryptoKit SecureStorage.
Local Open Scope string_scope.
Local Open Scope Z_scope.

#[local] Abbreviation bytes := (list Z).

(** ** Runs of statements *)

Section sql.
Context `{Sqlite}.

Lemma sql_bind_Ok {A B} (m : Sql A) (f : A -> Sql B) c c' b :
  (m ≫= f) c = (c', Ok b) <-> exists c1 a, m c = (c1, Ok a) /\ f a c1 = (c', Ok b).
Proof. unfold mbind, sql_bind. destruct (m c) as [c1 [a| |]]; naive_solver. Qed.

Lemma lift_Ok {A} (r : res StorageError A) c c' a : lift r c = (c', Ok a) <-> c' = c /\ r = Ok a.
Proof. unfold lift. naive_solver. Qed.

Lemma ret_Ok {A} (x : A) c c' a : (mret x : Sql A) c = (c', Ok a) <-> c' = c /\ x = a.
Proof. unfold mret, sql_ret. naive_solver. Qed.

Lemma execute_Ok {A} (f : Db -> res StorageError (Db * A)) c c' a :
  execute f c = (c', Ok a) -> f (c_db c) = Ok (c_db c', a).
Proof. unfold execute. destruct (fault _); [done|]. destruct (f (c_db c)) as [[d x]| |]; naive_solver. Qed.

Lemma update_Ok {A} (f : Db -> Db * A) c c' a : update f c = (c', Ok a) -> f (c_db c) = (c_db c', a).
Proof. intros Hu%execute_Ok. congruence. Qed.

Lemma query_Ok {A} (f : Db -> res StorageError A) c c' a : query f c = (c', Ok a) -> f (c_db c) = Ok a /\ c_db c' = c_db c.
Proof. intros (x & Hf & [= <- <-])%execute_Ok%bind_Ok. done. Qed.

Lemma insert_new_Ok {A} key (row : A) t t' : insert_new key row t = Ok t' <-> t !! key = None /\ t' = <[key := row]> t.
Proof.
  unfold insert_new. case_bool_decide as Hk; cbn [ensure mbind res_bind]; naive_solver.
Qed.

(** A transaction that does not succeed has no effect. *)
Lemma transaction_cases {A} (m : Sql A) d d' r : transaction m d = (d', r) ->
  (exists c a, m (mkConn d 1) = (c, Ok a) /\ d' = c_db c /\ r = Ok a) \/ (d' = d /\ is_Ok r = false).
Proof.
  unfold transaction. destruct (fault 0); [intros [= <- <-]; by right|].
  destruct (m (mkConn d 1)) as [c [a| |]]; [|intros [= <- <-]; by right..].
  destruct (fault (c_stmt c)); intros [= <- <-]; [by right|]. left. eauto.
Qed.

(** Success without a failing statement. *)
Definition Runs {A} (m : Sql A) (d : Db) (a : A) (d' : Db) : Prop := forall n, exists n', m (mkConn d n) = (mkConn d' n', Ok a).

Lemma Runs_bind {A B} (m : Sql A) (f : A -> Sql B) d a d1 b d2 : Runs m d a d1 -> Runs (f a) d1 b d2 -> Runs (m ≫= f) d b d2.
Proof. intros Hm Hf n. destruct (Hm n) as [n1 H1], (Hf n1) as [n2 H2]. exists n2. unfold mbind, sql_bind. by rewrite H1. Qed.

Lemma Runs_ret {A} (a : A) d : Runs (mret a) d a d.
Proof. intros n. by exists n. Qed.

Lemma Runs_lift {A} (r : res StorageError A) a d : r = Ok a -> Runs (lift r) d a d.
Proof. intros -> n. by exists n. Qed.

Context (Hfault : forall n, fault n = None).

Lemma Runs_execute {A} (f : Db -> res StorageError (Db * A)) d d' a : f d = Ok (d', a) -> Runs (execute f) d a d'.
Proof. intros Hf n. exists (S n). unfold execute. cbn [c_db c_stmt]. by rewrite Hfault, Hf. Qed.

Lemma Runs_update {A} (f : Db -> Db * A) d d' a : f d = (d', a) -> Runs (update f) d a d'.
Proof. intros Hf. apply Runs_execute. by rewrite Hf. Qed.

Lemma Runs_query {A} (f : Db -> res StorageError A) d a : f d = Ok a -> Runs (query f) d a d.
Proof. intros Hf. apply Runs_execute. by rewrite Hf. Qed.

Lemma transaction_Runs {A} (m : Sql A) d a d' : Runs m d a d' -> transaction m d = (d', Ok a).
Proof. intros Hm. unfold transaction. rewrite Hfault. destruct (Hm 1%nat) as [n ->]. cbn [c_stmt c_db]. by rewrite Hfault. Qed.
End sql.

(** Invert the success of a sequence of statements. *)
Ltac sql_inv :=
  repeat match goal with
  | Hx : (_ ≫= _) _ = (_, Ok _) |- _ => apply sql_bind_Ok in Hx as (? & ? & ? & Hx)
  | Hx : lift _ _ = (_, Ok _) |- _ => apply lift_Ok in Hx as [-> Hx]
  | Hx : mret _ _ = (_, Ok _) |- _ => apply ret_Ok in Hx as [-> Hx]
  | Hx : query _ _ = (_, Ok _) |- _ => apply query_Ok in Hx as [Hx ?]
  | Hx : update _ _ = (_, Ok _) |- _ => apply update_Ok in Hx
  | Hx : execute _ _ = (_, Ok _) |- _ => apply execute_Ok in Hx
  end.

(** ** Rows that are new to a table *)

Definition fresh {A} (t : gmap string A) (ids : list string) : Prop := NoDup ids /\ Forall (fun id => t !! id = None) ids.

Lemma fresh_cons {A} (t : gmap string A) id row ids :
  fresh t (id :: ids) <-> t !! id = None /\ fresh (<[id := row]> t) ids.
Proof.
  unfold fresh. rewrite NoDup_cons, Forall_cons, !Forall_forall. split.
  - intros ((Hn & Hd) & Ht & Hf). split_and!; try done. intros k Hk. rewrite lookup_insert_ne; [by apply Hf|by intros ->].
  - intros (Ht & Hd & Hf). assert (Hk : forall k, k ∈ ids -> k <> id /\ t !! k = None).
    { intros k Hk. apply Hf in Hk. by apply lookup_insert_None in Hk as [? ?]. }
    split_and!; try done; [intros Hin; by destruct (Hk _ Hin)|]. intros k Hin. by apply Hk.
Qed.

Lemma fresh_rows {A} (t : gmap string A) id row (rows : list (string * A)) :
  fresh (<[id := row]> t) rows.*1 -> list_to_map rows ∪ <[id := row]> t = list_to_map ((id, row) :: rows) ∪ t.
Proof.
  intros [_ Hf]. cbn. rewrite <- insert_union_l. rewrite <- insert_union_r; [done|].
  apply not_elem_of_list_to_map_1. intros Hin. rewrite Forall_forall in Hf. apply Hf in Hin. by rewrite lookup_insert_eq in Hin.
Qed.

(** ** The transaction of a package *)

Section apply.
Context `{Sqlite} `{Chrono} `{Rfc3339} `{JsonCodec} `{Blake3}.

Definition anchor_rows (p : TrustPackageProvenance) (sequence : Z) (anchors : list StoredAnchor) : list (string * AnchorRow) :=
  (fun a => (ta_id a, anchor_row a (tp_created_at p) (stored_provenance p sequence))) <$> anchors.
Definition method_rows (p : TrustPackageProvenance) (sequence : Z) (methods : list (OpenBadgeVerificationMethod * string)) : list (string * KeyRow) :=
  (fun x => (om_id x.1, key_row x.1 x.2 (tp_created_at p) (stored_provenance p sequence))) <$> methods.

Lemma anchor_rows_ids p sequence anchors : (anchor_rows p sequence anchors).*1 = ta_id <$> anchors.
Proof. unfold anchor_rows. by rewrite <- list_fmap_compose. Qed.
Lemma method_rows_ids p sequence methods : (method_rows p sequence methods).*1 = (om_id ∘ fst) <$> methods.
Proof. unfold method_rows. by rewrite <- list_fmap_compose. Qed.

Lemma with_anchors_id d : with_anchors (fun t => list_to_map [] ∪ t) d = d.
Proof. destruct d. unfold with_anchors. cbn. by rewrite map_empty_union. Qed.
Lemma with_keys_id d : with_keys (fun t => list_to_map [] ∪ t) d = d.
Proof. destruct d. unfold with_keys. cbn. by rewrite map_empty_union. Qed.

Lemma insert_anchors_Ok p sequence anchors : forall c c' u,
  insert_anchors p sequence anchors c = (c', Ok u) ->
  c_db c' = with_anchors (fun t => list_to_map (anchor_rows p sequence anchors) ∪ t) (c_db c) /\
  fresh (t_anchors (c_db c)) (ta_id <$> anchors).
Proof.
  induction anchors as [|a anchors IH]; intros c c' u Hi; cbn [insert_anchors] in Hi; sql_inv.
  { split; [by rewrite with_anchors_id|split; constructor]. }
  res_inv. match goal with Hn : insert_new _ _ _ = Ok _ |- _ => apply insert_new_Ok in Hn as [Hfresh ->] end.
  apply IH in Hi as (Hd & Hf). match goal with Hx : with_anchors _ _ = c_db x |- _ => rewrite <- Hx in * end.
  cbn [t_anchors with_anchors] in *. rewrite <- (anchor_rows_ids p sequence) in Hf. split.
  - rewrite Hd. unfold with_anchors. cbn. f_equal. by apply fresh_rows.
  - rewrite fmap_cons. eapply fresh_cons. split; [done|]. by rewrite anchor_rows_ids in Hf.
Qed.

Lemma insert_methods_Ok p sequence methods : forall c c' u,
  insert_methods p sequence methods c = (c', Ok u) ->
  c_db c' = with_keys (fun t => list_to_map (method_rows p sequence methods) ∪ t) (c_db c) /\
  fresh (t_keys (c_db c)) ((om_id ∘ fst) <$> methods).
Proof.
  induction methods as [|[m s] methods IH]; intros c c' u Hi; cbn [insert_methods] in Hi; sql_inv.
  { split; [by rewrite with_keys_id|split; constructor]. }
  res_inv. match goal with Hn : insert_new _ _ _ = Ok _ |- _ => apply insert_new_Ok in Hn as [Hfresh ->] end.
  apply IH in Hi as (Hd & Hf). match goal with Hx : with_keys _ _ = c_db x |- _ => rewrite <- Hx in * end.
  cbn [t_keys with_keys] in *. rewrite <- (method_rows_ids p sequence) in Hf. split.
  - rewrite Hd. unfold with_keys. cbn. f_equal. by apply fresh_rows.
  - rewrite fmap_cons. eapply fresh_cons. split; [done|]. by rewrite method_rows_ids in Hf.
Qed.

Lemma insert_anchors_Runs (Hfault : forall n, fault n = None) p sequence anchors : forall d,
  fresh (t_anchors d) (ta_id <$> anchors) ->
  Runs (insert_anchors p sequence anchors) d tt (with_anchors (fun t => list_to_map (anchor_rows p sequence anchors) ∪ t) d).
Proof.
  induction anchors as [|a anchors IH]; intros d Hf; cbn [insert_anchors]; [rewrite with_anchors_id; apply Runs_ret|].
  rewrite fmap_cons in Hf. apply (fresh_cons _ _ (anchor_row a (tp_created_at p) (stored_provenance p sequence))) in Hf as [Hn Hf].
  eapply Runs_bind.
  - apply Runs_execute; [done|]. rewrite (proj2 (insert_new_Ok _ _ _ _)) by done. done.
  - specialize (IH (with_anchors (fun _ => <[ta_id a := anchor_row a (tp_created_at p) (stored_provenance p sequence)]> (t_anchors d)) d) Hf).
    rewrite <- (anchor_rows_ids p sequence) in Hf. apply fresh_rows in Hf. unfold with_anchors in IH at 2. cbn in IH. rewrite Hf in IH. exact IH.
Qed.

Lemma insert_methods_Runs (Hfault : forall n, fault n = None) p sequence methods : forall d,
  fresh (t_keys d) ((om_id ∘ fst) <$> methods) ->
  Runs (insert_methods p sequence methods) d tt (with_keys (fun t => list_to_map (method_rows p sequence methods) ∪ t) d).
Proof.
  induction methods as [|[m s] methods IH]; intros d Hf; cbn [insert_methods]; [rewrite with_keys_id; apply Runs_ret|].
  rewrite fmap_cons in Hf. apply (fresh_cons _ _ (key_row m s (tp_created_at p) (stored_provenance p sequence))) in Hf as [Hn Hf].
  eapply Runs_bind.
  - apply Runs_execute; [done|]. rewrite (proj2 (insert_new_Ok _ _ _ _)) by done. done.
  - specialize (IH (with_keys (fun _ => <[om_id m := key_row m s (tp_created_at p) (stored_provenance p sequence)]> (t_keys d)) d) Hf).
    rewrite <- (method_rows_ids p sequence) in Hf. apply fresh_rows in Hf. cbn [compose fst] in Hf. unfold with_keys in IH at 2. cbn in IH. rewrite Hf in IH. exact IH.
Qed.

Lemma check_conflicts_Ok {A} (table : Db -> gmap string A) message ids : forall c c' u,
  check_conflicts table message ids c = (c', Ok u) -> c_db c' = c_db c.
Proof.
  induction ids as [|id ids IH]; intros c c' u Hc; cbn [check_conflicts] in Hc; sql_inv; [done|].
  apply IH in Hc. congruence.
Qed.

Lemma check_conflicts_Runs {A} (Hfault : forall n, fault n = None) (table : Db -> gmap string A) message ids d :
  Forall (fun id => table d !! id = None) ids -> Runs (check_conflicts table message ids) d tt d.
Proof.
  induction ids as [|id ids IH]; intros Hf; cbn [check_conflicts]; [apply Runs_ret|].
  apply Forall_cons in Hf as [Hn Hf]. eapply Runs_bind; [by apply Runs_query|]. rewrite Hn.
  eapply Runs_bind; [by apply Runs_lift|]. auto.
Qed.

(** The effect of a package. *)
Record Applied (p : TrustPackageProvenance) (sequence : Z) (anchors : list StoredAnchor)
    (methods : list (OpenBadgeVerificationMethod * string)) (policy : option TrustPackageSignerPolicy) (audit_id : string) (d d' : Db) : Prop := {
  ap_signers : exists signers details, decide_package p policy (t_packages d !! tp_trust_domain p) = Ok signers /\
    json_text_of (audit_details p signers (zlen anchors) (zlen methods)) = Ok details /\
    t_packages d' = <[tp_trust_domain p := package_row p sequence signers]> (t_packages d) /\
    t_audit d' = <[audit_id := mkAuditRow "trust_package_applied" None (Some (tp_trust_domain p)) (Some details)
                                 (Some (to_rfc3339 (tp_imported_at p)))]> (t_audit d);
  ap_audit_fresh : t_audit d !! audit_id = None;
  ap_anchor_fresh : fresh (delete_domain ar_provenance (tp_trust_domain p) (t_anchors d)) (ta_id <$> anchors);
  ap_anchors : t_anchors d' = list_to_map (anchor_rows p sequence anchors) ∪ delete_domain ar_provenance (tp_trust_domain p) (t_anchors d);
  ap_method_fresh : fresh (delete_domain kr_provenance (tp_trust_domain p) (t_keys d)) ((om_id ∘ fst) <$> methods);
  ap_keys : t_keys d' = list_to_map (method_rows p sequence methods) ∪ delete_domain kr_provenance (tp_trust_domain p) (t_keys d);
  ap_sync : t_sync d' = package_sync p (t_sync d);
  ap_rest : t_events d' = t_events d /\ t_queue d' = t_queue d /\ t_queue_state d' = t_queue_state d /\ t_license d' = t_license d;
}.

Lemma apply_in_transaction_Ok p sequence anchors methods policy audit_id c c' r :
  apply_in_transaction p sequence anchors methods policy audit_id c = (c', Ok r) ->
  Applied p sequence anchors methods policy audit_id (c_db c) (c_db c') /\ r = mkApplyResult (zlen anchors) (zlen methods).
Proof.
  unfold apply_in_transaction. intros Ha. sql_inv. res_inv.
  repeat match goal with
  | Hx : check_conflicts _ _ _ _ = (_, Ok _) |- _ => apply check_conflicts_Ok in Hx
  | Hx : insert_anchors _ _ _ _ = (_, Ok _) |- _ => apply insert_anchors_Ok in Hx as [Hx ?]
  | Hx : insert_methods _ _ _ _ = (_, Ok _) |- _ => apply insert_methods_Ok in Hx as [Hx ?]
  | Hx : insert_new _ _ _ = Ok _ |- _ => apply insert_new_Ok in Hx as [? ->]
  end.
  simplify_eq. split; [|done].
  repeat match goal with
  | Hx : c_db ?x = _ |- _ => rewrite Hx in *; clear Hx
  | Hx : _ = c_db ?x |- _ => rewrite <- Hx in *; clear Hx
  end.
  constructor; cbn in *; try done. eauto 7.
Qed.

Lemma apply_in_transaction_Runs (Hfault : forall n, fault n = None) p sequence anchors methods policy audit_id d signers details :
  decide_package p policy (t_packages d !! tp_trust_domain p) = Ok signers ->
  json_text_of (audit_details p signers (zlen anchors) (zlen methods)) = Ok details ->
  t_audit d !! audit_id = None ->
  fresh (delete_domain ar_provenance (tp_trust_domain p) (t_anchors d)) (ta_id <$> anchors) ->
  fresh (delete_domain kr_provenance (tp_trust_domain p) (t_keys d)) ((om_id ∘ fst) <$> methods) ->
  exists d', Runs (apply_in_transaction p sequence anchors methods policy audit_id) d (mkApplyResult (zlen anchors) (zlen methods)) d'.
Proof.
  intros Hd Hj Haf Han Hme. eexists. unfold apply_in_transaction.
  eapply Runs_bind; [by apply Runs_query|]. eapply Runs_bind; [by apply Runs_lift|]. eapply Runs_bind; [by apply Runs_lift|].
  eapply Runs_bind; [by apply Runs_update|]. eapply Runs_bind; [by apply Runs_update|].
  eapply Runs_bind; [apply check_conflicts_Runs; [done|apply Han]|].
  eapply Runs_bind; [apply check_conflicts_Runs; [done|apply Hme]|].
  eapply Runs_bind; [by apply insert_anchors_Runs|]. eapply Runs_bind; [by apply insert_methods_Runs|].
  eapply Runs_bind; [by apply Runs_update|]. eapply Runs_bind; [by apply Runs_update|].
  eapply Runs_bind; [|apply Runs_ret]. apply Runs_execute; [done|]. rewrite (proj2 (insert_new_Ok _ _ _ _)) by done. done.
Qed.

Lemma apply_internal_cases p anchors methods policy now1 now2 audit_id d d' r :
  apply_trust_package_internal p anchors methods policy now1 now2 audit_id d = (d', r) ->
  d' = d \/ exists sequence documents, validate_trust_package p anchors methods now1 now2 = Ok sequence /\
    Applied p sequence anchors documents policy audit_id d d'.
Proof.
  unfold apply_trust_package_internal.
  destruct (validate_trust_package p anchors methods now1 now2) as [sequence| |] eqn:Hv; cbn [mbind res_bind]; [|naive_solver..].
  destruct (method_documents methods) as [documents| |] eqn:Hm; cbn [mbind res_bind]; [|naive_solver..].
  intros [(c & a & Hrun & -> & _)|[-> _]]%transaction_cases; [|by left]. right. exists sequence, documents. split; [done|].
  by apply apply_in_transaction_Ok in Hrun as [Ha _].
Qed.

(** C23: Whatever statement of the engine fails, a package is applied completely or
    not at all: an application that does not succeed leaves the database as it
    was, and one that succeeds replaces exactly the rows of its domain by its
    anchors and methods, advances the row of the package, the synchronization
    state and the audit log, and touches nothing else.  Without a failing
    statement it succeeds whenever the package is valid, its signer and contents
    are accepted over the stored package, and no other source owns one of its
    identifiers. *)
Theorem trust_package_atomic p anchors methods policy now1 now2 audit_id d :
  let '(d', r) := apply_trust_package_internal p anchors methods policy now1 now2 audit_id d in
  (is_Ok r = false -> d' = d) /\
  (forall a, r = Ok a -> a = mkApplyResult (zlen anchors) (zlen methods) /\
     exists sequence documents, validate_trust_package p anchors methods now1 now2 = Ok sequence /\
       method_documents methods = Ok documents /\ Applied p sequence anchors documents policy audit_id d d') /\
  ((forall n, fault n = None) -> forall sequence documents signers details,
     validate_trust_package p anchors methods now1 now2 = Ok sequence -> method_documents methods = Ok documents ->
     decide_package p policy (t_packages d !! tp_trust_domain p) = Ok signers ->
     json_text_of (audit_details p signers (zlen anchors) (zlen documents)) = Ok details ->
     t_audit d !! audit_id = None ->
     fresh (delete_domain ar_provenance (tp_trust_domain p) (t_anchors d)) (ta_id <$> anchors) ->
     fresh (delete_domain kr_provenance (tp_trust_domain p) (t_keys d)) ((om_id ∘ fst) <$> documents) -> is_Ok r = true).
Proof.
  unfold apply_trust_package_internal.
  destruct (validate_trust_package p anchors methods now1 now2) as [sequence| |] eqn:Hv; cbn [mbind res_bind]; [|naive_solver..].
  destruct (method_documents methods) as [documents| |] eqn:Hm; cbn [mbind res_bind]; [|naive_solver..].
  destruct (transaction _ d) as [d' r] eqn:Ht. pose proof (transaction_cases _ _ _ _ Ht) as Hc.
  assert (Hlen : zlen documents = zlen methods).
  { clear -Hm. revert documents Hm. induction methods as [|m methods IH]; intros documents Hm; cbn in Hm; res_inv; [done|].
    rewrite !zlen_cons. by rewrite IH. }
  split_and!.
  - intros Hr. destruct Hc as [(c & a & _ & _ & ->)|[-> _]]; done.
  - intros a ->. destruct Hc as [(c & a' & Hrun & -> & [= <-])|[_ ?]]; [|done].
    apply apply_in_transaction_Ok in Hrun as [Ha ->]. rewrite Hlen. split; [done|]. by exists sequence, documents.
  - intros Hfault s ds signers details [= <-] [= <-] Hd Hj Haf Han Hme.
    destruct (apply_in_transaction_Runs Hfault p sequence anchors documents policy audit_id d signers details Hd Hj Haf Han Hme) as [d2 Hrun].
    apply (transaction_Runs Hfault) in Hrun. rewrite Hrun in Ht. by injection Ht as <- <-.
Qed.
End apply.

(** ** Runs of the repositories *)

(** What every outcome of a sequence of statements preserves. *)
Section preserves.
Context `{Sqlite} (P : Db -> Prop).

Definition Preserves {A} (m : Sql A) : Prop := forall c, P (c_db c) -> P (c_db (fst (m c))).

Lemma Preserves_bind {A B} (m : Sql A) (f : A -> Sql B) : Preserves m -> (forall a, Preserves (f a)) -> Preserves (m ≫= f).
Proof.
  intros Hm Hf c Hc. unfold mbind, sql_bind. specialize (Hm c Hc). destruct (m c) as [c1 [a| |]]; cbn in *; [by apply Hf|done..].
Qed.
Lemma Preserves_lift {A} (r : res StorageError A) : Preserves (lift r).
Proof. by intros c. Qed.
Lemma Preserves_ret {A} (a : A) : Preserves (mret a).
Proof. by intros c. Qed.
Lemma Preserves_execute {A} (f : Db -> res StorageError (Db * A)) :
  (forall d d' a, P d -> f d = Ok (d', a) -> P d') -> Preserves (execute f).
Proof.
  intros Hf c Hc. unfold execute. destruct (fault _); [done|]. destruct (f (c_db c)) as [[d a]| |] eqn:Hd; cbn; try done. by eapply Hf.
Qed.
Lemma Preserves_update {A} (f : Db -> Db * A) : (forall d, P d -> P (fst (f d))) -> Preserves (update f).
Proof. intros Hf. apply Preserves_execute. intros d d' a Hd [= Hx]. specialize (Hf d Hd). by rewrite Hx in Hf. Qed.
Lemma Preserves_query {A} (f : Db -> res StorageError A) : Preserves (query f).
Proof. apply Preserves_execute. intros d d' a Hd Hf. res_inv. by simplify_eq. Qed.

Lemma autocommit_preserves {A} (m : Sql A) d : Preserves m -> P d -> P (fst (autocommit m d)).
Proof. intros Hm Hd. unfold autocommit. specialize (Hm (mkConn d 0) Hd). by destruct (m (mkConn d 0)). Qed.

Lemma transaction_preserves {A} (m : Sql A) d : Preserves m -> P d -> P (fst (transaction m d)).
Proof.
  intros Hm Hd. destruct (transaction m d) as [d' r] eqn:Ht. cbn.
  apply transaction_cases in Ht as [(c & a & Hc & -> & _)|[-> _]]; [|done]. specialize (Hm (mkConn d 1) Hd). by rewrite Hc in Hm.
Qed.
End preserves.

Create HintDb storage.
#[export] Hint Resolve Preserves_bind Preserves_lift Preserves_ret Preserves_query : storage.

(** The provenance that a package gives its rows. *)
Definition package_columns (domain : string) (row : PackageRow) : StoredProvenance :=
  mkStoredProvenance (Some domain) (Some (pk_sequence row)) (Some (pk_package_version row)) (Some (pk_created_at row)) (pk_expires_at row)
    (Some (pk_signer_key_id row)) (Some (pk_package_digest row)) (Some (pk_imported_at row)).

Definition bound (packages : gmap string PackageRow) (s : StoredProvenance) : Prop :=
  s = no_provenance \/ exists domain row, packages !! domain = Some row /\ s = package_columns domain row.

Definition package_ok (row : PackageRow) : Prop :=
  0 < pk_sequence row < 2 ^ 63 /\
  validate_stored_trust_package_signer_policy (pk_signer_key_id row) (pk_next_signer row) (pk_recovery_signer row) = Ok tt.

(** Every row is a legacy row or bound to the package of its domain, and every
    package has a sequence and a signer policy that the readers accept. *)
Record StoreInv (d : Db) : Prop := {
  inv_anchors : map_Forall (fun _ row => bound (t_packages d) (ar_provenance row)) (t_anchors d);
  inv_keys : map_Forall (fun _ row => bound (t_packages d) (kr_provenance row)) (t_keys d);
  inv_packages : map_Forall (fun _ row => package_ok row) (t_packages d);
}.

(** The next package of a domain: a later sequence, by the signer, the announced
    next signer or the recovery signer, with the recovery signer kept. *)
Inductive package_step : option PackageRow -> option PackageRow -> Prop :=
| package_bootstrap row : package_step None (Some row)
| package_advance a b :
    pk_sequence a < pk_sequence b ->
    (pk_signer_key_id b = pk_signer_key_id a \/ pk_next_signer a = Some (pk_signer_key_id b) \/ pk_recovery_signer a = Some (pk_signer_key_id b)) ->
    (forall r, pk_recovery_signer a = Some r -> pk_recovery_signer b = Some r) ->
    pk_package_version b <> pk_package_version a -> pk_package_digest b <> pk_package_digest a ->
    package_step (Some a) (Some b).

Section history.
Context `{Chrono} `{Rfc3339} `{JsonCodec} `{Blake3}.

Lemma signer_role_Ok p a r : signer_role p a = Ok r ->
  (r = RoleCurrent /\ tp_signer_key_id p = pk_signer_key_id a) \/ (r = RoleNext /\ pk_next_signer a = Some (tp_signer_key_id p)) \/
  (r = RoleRecovery /\ pk_recovery_signer a = Some (tp_signer_key_id p)).
Proof.
  unfold signer_role. destruct (String.eqb_spec (tp_signer_key_id p) (pk_signer_key_id a)); [intros [= <-]; by left|].
  case_bool_decide; [intros [= <-]; naive_solver|]. case_bool_decide; [intros [= <-]; naive_solver|done].
Qed.

Lemma check_sequence_Ok p a n u : check_sequence p a n = Ok u -> n < tp_sequence p.
Proof.
  unfold check_sequence. intros Hc. res_inv. breflect. destruct (Z.eqb_spec (tp_sequence p) n); [|lia].
  by destruct (String.eqb _ _).
Qed.

Lemma check_progress_Ok p a u : check_progress p a = Ok u ->
  tp_package_version p <> pk_package_version a /\ tp_package_digest p <> pk_package_digest a.
Proof. unfold check_progress. intros Hc. res_inv. breflect. by rewrite !String.eqb_neq in *. Qed.

Lemma next_signers_recovery p a r policy s : next_signers p a r policy = Ok s ->
  forall k, pk_recovery_signer a = Some k -> effective_recovery s = Some k.
Proof.
  unfold next_signers. intros Hn k Hk. rewrite Hk in Hn. destruct policy as [policy|]; res_inv; [|done].
  cbn. by match goal with Hx : String.eqb _ _ = true |- _ => apply String.eqb_eq in Hx as -> end.
Qed.

Lemma decide_step p policy current s :
  decide_package p policy current = Ok s -> package_step current (Some (package_row p (tp_sequence p) s)).
Proof.
  unfold decide_package. destruct current as [a|]; [|intros; constructor]. intros Hd. res_inv.
  match goal with Hx : stored_sequence _ _ = Ok _ |- _ => unfold stored_sequence in Hx; res_inv end.
  match goal with Hx : (if _ <? 0 then _ else _) = Some _ |- _ => destruct (pk_sequence a <? 0); [done|]; injection Hx as <- end.
  match goal with Hx : check_sequence _ _ _ = Ok _ |- _ => apply check_sequence_Ok in Hx end.
  match goal with Hx : signer_role _ _ = Ok _ |- _ => apply signer_role_Ok in Hx as Hrole end.
  match goal with Hx : check_progress _ _ = Ok _ |- _ => apply check_progress_Ok in Hx as [? ?] end.
  constructor; cbn; try done; [naive_solver|]. by eapply next_signers_recovery.
Qed.

Lemma printable_id value r1 r2 u :
  validate_trust_package_signer_id value r1 = Ok u -> validate_trust_package_signer_id value r2 = Ok tt.
Proof. unfold validate_trust_package_signer_id. rewrite !ensure_Ok. done. Qed.

Definition policy_ok (policy : option TrustPackageSignerPolicy) : Prop :=
  match policy with Some policy => validate_trust_package_signer_policy policy = Ok tt | None => True end.

(** The signers of an accepted policy can be stored: the readers accept them. *)
Lemma policy_stored policy signer recovery :
  validate_trust_package_signer_policy policy = Ok tt -> printable signer 512 = true ->
  validate_trust_package_signer_relationships policy signer recovery = Ok tt ->
  (recovery = true -> recovery_signer_key_id policy = signer) ->
  validate_stored_trust_package_signer_policy signer (next_signer_key_id policy) (Some (recovery_signer_key_id policy)) = Ok tt.
Proof.
  unfold validate_trust_package_signer_policy, validate_trust_package_signer_relationships, validate_stored_trust_package_signer_policy.
  intros Hp Hs Hr Heq. res_inv.
  match goal with Hx : validate_trust_package_signer_id (recovery_signer_key_id policy) _ = Ok _ |- _ =>
    apply (printable_id _ _ "stored recovery signer") in Hx; rename Hx into Hrec end.
  assert (Hcur : validate_trust_package_signer_id signer "current signer" = Ok tt).
  { unfold validate_trust_package_signer_id. by rewrite Hs. }
  rewrite Hcur. cbn [mbind res_bind]. rewrite Hrec. cbn [mbind res_bind].
  destruct (next_signer_key_id policy) as [next|]; res_inv; breflect.
  - match goal with Hx : validate_trust_package_signer_id next _ = Ok _ |- _ => rewrite (printable_id _ _ "stored next signer" _ Hx) end.
    cbn [mbind res_bind]. apply ensure_Ok.
    match goal with Hx : (next =? recovery_signer_key_id policy)%string = false |- _ => rewrite Hx end.
    rewrite orb_false_r. apply negb_true_iff, String.eqb_neq. naive_solver.
  - apply ensure_Ok, negb_true_iff. rewrite String.eqb_sym. destruct recovery; [done|].
    match goal with Hx : _ && negb false = false |- _ => by rewrite andb_true_r in Hx end.
Qed.

Lemma decide_ok p policy current s :
  decide_package p policy current = Ok s -> policy_ok policy -> printable (tp_signer_key_id p) 512 = true -> 0 < tp_sequence p < 2 ^ 63 ->
  package_ok (package_row p (tp_sequence p) s).
Proof.
  intros Hd Hp Hs Hq. split; [done|]. unfold decide_package in Hd. cbn.
  destruct current as [a|].
  - res_inv. match goal with Hx : signer_role _ _ = Ok _ |- _ => apply signer_role_Ok in Hx as Hrole end.
    match goal with Hx : next_signers _ _ _ _ = Ok _ |- _ => unfold next_signers in Hx; rename Hx into Hn end.
    destruct policy as [policy|]; res_inv; simplify_eq; cbn.
    + match goal with Hx : validate_trust_package_signer_relationships _ _ _ = Ok ?u |- _ => destruct u; apply (policy_stored _ _ _ Hp Hs Hx) end.
      intros Hr.
      assert (Hrec : pk_recovery_signer a = Some (tp_signer_key_id p)).
      { apply orb_true_iff in Hr as [Hr|Hr]; apply bool_decide_eq_true in Hr; [|done]. naive_solver. }
      match goal with Hx : match pk_recovery_signer a with _ => _ end = Ok _ |- _ => rewrite Hrec in Hx; res_inv end.
      by apply String.eqb_eq.
    + breflect. destruct Hrole as [[_ Hr]|[[? _]|[? _]]]; [|congruence..]. rewrite Hr. by destruct x.
  - destruct policy as [policy|]; res_inv; simplify_eq; cbn.
    + match goal with Hx : validate_trust_package_signer_relationships _ _ _ = Ok ?u |- _ => destruct u; by apply (policy_stored _ _ _ Hp Hs Hx) end.
    + unfold validate_stored_trust_package_signer_policy, validate_trust_package_signer_id. by rewrite Hs.
Qed.
End history.

(** ** Governed rows *)

Definition governed_rows {A} (provenance : A -> StoredProvenance) (domain : string) (t : gmap string A) : gmap string A :=
  filter (fun '(_, row) => of_domain domain (provenance row)) t.
Definition governed (domain : string) (d : Db) : gmap string AnchorRow * gmap string KeyRow :=
  (governed_rows ar_provenance domain (t_anchors d), governed_rows kr_provenance domain (t_keys d)).

#[local] Abbreviation rows_bound provenance packages t := (map_Forall (fun _ row => bound packages (provenance row)) t).

Lemma governed_lookup {A} (provenance : A -> StoredProvenance) domain t i row :
  governed_rows provenance domain t !! i = Some row <-> t !! i = Some row /\ of_domain domain (provenance row).
Proof. unfold governed_rows. by rewrite map_lookup_filter_Some. Qed.

Lemma deleted_lookup {A} (provenance : A -> StoredProvenance) domain t i row :
  delete_domain provenance domain t !! i = Some row <-> t !! i = Some row /\ ~ of_domain domain (provenance row).
Proof. unfold delete_domain. by rewrite map_lookup_filter_Some. Qed.

Lemma bound_ungoverned packages s : bound packages s -> is_governed s = false -> s = no_provenance.
Proof. intros [->|(domain & row & _ & ->)]; [done|]. unfold is_governed. by rewrite bool_decide_eq_true_2 by eauto. Qed.

Lemma bound_insert packages domain row s :
  bound packages s -> ~ of_domain domain s -> bound (<[domain := row]> packages) s.
Proof.
  intros [->|(d & r & Hr & ->)] Hn; [by left|]. right. exists d, r. split; [|done]. rewrite lookup_insert_ne; [done|]. intros ->. by apply Hn.
Qed.

(** A legacy write leaves every governed row as it is. *)
Lemma upsert_legacy_governed {A} (provenance : A -> StoredProvenance) keep key row abort t t' n packages :
  upsert_legacy provenance keep key row abort t = Ok (t', n) -> provenance row = no_provenance ->
  (forall s r, provenance (keep s r) = s) -> rows_bound provenance packages t ->
  rows_bound provenance packages t' /\ forall domain, governed_rows provenance domain t' = governed_rows provenance domain t.
Proof.
  unfold upsert_legacy. intros Hu Hrow Hkeep Ht.
  assert (exists row', t' = <[key := row']> t /\ provenance row' = no_provenance /\ forall old, t !! key = Some old -> provenance old = no_provenance)
    as (row' & -> & Hp & Hold).
  { destruct (t !! key) as [old|] eqn:Hk; [|injection Hu as <- <-; exists row; naive_solver].
    destruct (is_governed (provenance old)) eqn:Hg; [done|]. injection Hu as <- <-.
    assert (provenance old = no_provenance) by (eapply bound_ungoverned; [by eapply Ht|done]).
    exists (keep (provenance old) row). rewrite Hkeep. naive_solver. }
  split.
  - apply map_Forall_insert_2; [by left|done].
  - intros domain. apply map_eq. intros i. apply option_eq. intros r. rewrite !governed_lookup.
    destruct (decide (i = key)) as [-> |Hi]; [|by rewrite lookup_insert_ne]. rewrite lookup_insert_eq. unfold of_domain.
    split; intros [Hr Hd]; [injection Hr as <-; by rewrite Hp in Hd|]. rewrite (Hold _ Hr) in Hd. done.
Qed.

(** The rows of a package replace those of its domain, and no others. *)
Lemma replace_rows {A} (provenance : A -> StoredProvenance) domain (rows : list (string * A)) t packages row :
  Forall (fun x => provenance x.2 = package_columns domain row) rows -> fresh (delete_domain provenance domain t) rows.*1 ->
  rows_bound provenance packages t ->
  rows_bound provenance (<[domain := row]> packages) (list_to_map rows ∪ delete_domain provenance domain t) /\
  forall other, other <> domain ->
    governed_rows provenance other (list_to_map rows ∪ delete_domain provenance domain t) = governed_rows provenance other t.
Proof.
  intros Hrows [Hnd Hf] Ht. rewrite Forall_forall in Hrows. rewrite Forall_forall in Hf.
  assert (Hnew : forall i r, (list_to_map rows : gmap string A) !! i = Some r ->
            provenance r = package_columns domain row /\ delete_domain provenance domain t !! i = None).
  { intros i r Hr%elem_of_list_to_map_2. split; [by apply (Hrows (i, r))|]. apply Hf. apply list_elem_of_fmap. by exists (i, r). }
  split.
  - intros i r [Hr|[_ [Hr Hn]%deleted_lookup]]%lookup_union_Some_raw.
    + right. exists domain, row. split; [by rewrite lookup_insert_eq|by apply Hnew in Hr as [? _]].
    + apply bound_insert; [by eapply Ht|done].
  - intros other Ho. apply map_eq. intros i. apply option_eq. intros r.
    rewrite !governed_lookup, lookup_union_Some_raw, deleted_lookup. unfold of_domain. split.
    + intros [[Hr|(_ & Hr & _)] Hd]; [|done]. apply Hnew in Hr as [Hr _]. rewrite Hr in Hd. cbn in Hd. congruence.
    + intros [Hr Hd]. split; [|done]. assert (~ of_domain domain (provenance r)) by (unfold of_domain; congruence).
      destruct ((list_to_map rows : gmap string A) !! i) as [r'|] eqn:Hl; [|by right].
      exfalso. apply Hnew in Hl as [_ Hl]. by rewrite (proj2 (deleted_lookup provenance domain t i r)) in Hl.
Qed.

(** ** Histories of the store *)

(** The operations that write, with their clock readings and random identifiers. *)
Inductive StoreOp :=
| OpApply (p : TrustPackageProvenance) (anchors : list StoredAnchor) (methods : list OpenBadgeVerificationMethod) (now1 now2 : Z) (audit_id : string)
| OpApplyWithPolicy (p : TrustPackageProvenance) (anchors : list StoredAnchor) (methods : list OpenBadgeVerificationMethod)
    (policy : TrustPackageSignerPolicy) (now1 now2 : Z) (audit_id : string)
| OpStoreAnchor (a : StoredAnchor)
| OpStoreKey (m : OpenBadgeVerificationMethod)
| OpStoreEvent (id credential_type status_json : string) (now : Z)
| OpClearHistory (days : Z) (sql_datetime : string -> string)
| OpLicense (s : LicenseState) (now : Z)
| OpSync (s : SyncState) (now : Z)
| OpQueue (event_type : string) (payload : Value) (id : string) (now : Z)
| OpRemoveQueued (id : string)
| OpBatchFailure (ids : list string) (error : string) (now : Z)
| OpAcknowledge (ids : list string) (now : Z)
| OpAudit (event_type : string) (actor target : option string) (details : option Value) (id : string).

(** The operation after it returned, with whatever result. *)
Definition run_op `{Chrono, Rfc3339, JsonCodec, Blake3} (s : Sqlite) (op : StoreOp) (d : Db) : Db :=
  match op with
  | OpApply p anchors methods now1 now2 id => fst (apply_trust_package p anchors methods now1 now2 id d)
  | OpApplyWithPolicy p anchors methods policy now1 now2 id => fst (apply_trust_package_with_signer_policy p anchors methods policy now1 now2 id d)
  | OpStoreAnchor a => fst (autocommit (store_trust_anchor a) d)
  | OpStoreKey m => fst (autocommit (store_open_badge_key m) d)
  | OpStoreEvent id ct st now => fst (autocommit (store_verification_event id ct st now) d)
  | OpClearHistory days f => fst (autocommit (clear_verification_history days f) d)
  | OpLicense l now => fst (autocommit (update_license_state l now) d)
  | OpSync l now => fst (autocommit (update_sync_state l now) d)
  | OpQueue ty v id now => fst (autocommit (queue_event ty v id now) d)
  | OpRemoveQueued id => fst (autocommit (remove_queued_event id) d)
  | OpBatchFailure ids e now => fst (record_queue_batch_failure ids e now d)
  | OpAcknowledge ids now => fst (acknowledge_queue_batch ids now d)
  | OpAudit ty actor target details id => fst (autocommit (add_audit_log ty actor target details id) d)
  end.

Definition run_ops `{Chrono, Rfc3339, JsonCodec, Blake3} (ops : list (Sqlite * StoreOp)) (d : Db) : Db :=
  foldl (fun d '(s, op) => run_op s op d) d ops.

(** What an operation may do to a domain: nothing, or the next package. *)
Definition advances (d d' : Db) : Prop := forall domain,
  (t_packages d' !! domain = t_packages d !! domain /\ governed domain d' = governed domain d) \/
  package_step (t_packages d !! domain) (t_packages d' !! domain).

(** The part of the store that legacy operations leave alone. *)
Definition framed (d0 d : Db) : Prop :=
  StoreInv d /\ t_packages d = t_packages d0 /\ forall domain, governed domain d = governed domain d0.

Lemma framed_advances d0 d : framed d0 d -> StoreInv d /\ advances d0 d.
Proof. intros (Hi & Hp & Hg). split; [done|]. intros domain. left. by rewrite Hp, Hg. Qed.

Lemma framed_tables d0 d d' : framed d0 d ->
  t_packages d' = t_packages d -> t_anchors d' = t_anchors d -> t_keys d' = t_keys d -> framed d0 d'.
Proof.
  intros ([Ha Hk Hq] & Hp & Hg) Ep Ea Ek. split_and!; [constructor; by rewrite Ep, ?Ea, ?Ek|congruence|].
  intros domain. specialize (Hg domain). unfold governed in *. by rewrite Ea, Ek.
Qed.

Lemma framed_anchors d0 d t :
  framed d0 d -> rows_bound ar_provenance (t_packages d) t ->
  (forall domain, governed_rows ar_provenance domain t = governed_rows ar_provenance domain (t_anchors d)) -> framed d0 (with_anchors (fun _ => t) d).
Proof.
  intros ([Ha Hk Hq] & Hp & Hg) Ht He. split_and!; [by constructor|done|]. intros domain. rewrite <- Hg. unfold governed. cbn. by rewrite He.
Qed.

Lemma framed_keys d0 d t :
  framed d0 d -> rows_bound kr_provenance (t_packages d) t ->
  (forall domain, governed_rows kr_provenance domain t = governed_rows kr_provenance domain (t_keys d)) -> framed d0 (with_keys (fun _ => t) d).
Proof.
  intros ([Ha Hk Hq] & Hp & Hg) Ht He. split_and!; [by constructor|done|]. intros domain. rewrite <- Hg. unfold governed. cbn. by rewrite He.
Qed.

Section legacy.
Context `{Sqlite} `{Chrono} `{Rfc3339} `{JsonCodec} `{Blake3}.

(** Statements on the other tables. *)
Ltac other_tables := solve [
  intros ? Hx; apply (framed_tables _ _ _ Hx); reflexivity |
  intros ? ? ? Hx Hy; res_inv; apply (framed_tables _ _ _ Hx); reflexivity ].

Lemma store_trust_anchor_framed d0 a : Preserves (framed d0) (store_trust_anchor a).
Proof.
  unfold store_trust_anchor. repeat (apply Preserves_bind; [auto with storage|intros ?]); [|auto with storage].
  apply Preserves_execute. intros d d' n Hd Hu. res_inv.
  match goal with x : _ * _ |- _ => destruct x as [t k] end. simplify_eq.
  match goal with Hx : upsert_legacy _ _ _ _ _ _ = Ok _ |- _ => eapply upsert_legacy_governed in Hx as [Hb Hg]; [|done..|apply Hd] end.
  by apply framed_anchors.
Qed.

Lemma store_open_badge_key_framed d0 m : Preserves (framed d0) (store_open_badge_key m).
Proof.
  unfold store_open_badge_key. repeat (apply Preserves_bind; [auto with storage|intros ?]); [|auto with storage].
  apply Preserves_execute. intros d d' n Hd Hu. res_inv.
  match goal with x : _ * _ |- _ => destruct x as [t k] end. simplify_eq.
  match goal with Hx : upsert_legacy _ _ _ _ _ _ = Ok _ |- _ => eapply upsert_legacy_governed in Hx as [Hb Hg]; [|done..|apply Hd] end.
  by apply framed_keys.
Qed.

Lemma retry_loop_framed d0 now error ids : Preserves (framed d0) (retry_loop now error ids).
Proof.
  induction ids as [|id ids IH]; cbn [retry_loop]; [auto with storage|].
  apply Preserves_bind; [|intros n; apply Preserves_bind; [auto with storage|done]].
  apply Preserves_update. intros d Hd. destruct (t_queue d !! id); [|done]. by eapply framed_tables.
Qed.

Lemma acknowledge_loop_framed d0 ids : Preserves (framed d0) (acknowledge_loop ids).
Proof.
  induction ids as [|id ids IH]; cbn [acknowledge_loop]; [auto with storage|].
  apply Preserves_bind; [|intros n; apply Preserves_bind; [auto with storage|done]]. apply Preserves_update. other_tables.
Qed.

Lemma batch_failure_framed ids error now d : StoreInv d -> framed d (fst (record_queue_batch_failure ids error now d)).
Proof.
  intros Hd. unfold record_queue_batch_failure. destruct (validate_queue_batch ids); [|done..].
  apply transaction_preserves; [|done]. apply Preserves_bind; [apply retry_loop_framed|intros ?]. apply Preserves_update. other_tables.
Qed.

Lemma acknowledge_framed ids now d : StoreInv d -> framed d (fst (acknowledge_queue_batch ids now d)).
Proof.
  intros Hd. unfold acknowledge_queue_batch. destruct (validate_queue_batch ids); [|done..].
  apply transaction_preserves; [|done]. apply Preserves_bind; [apply acknowledge_loop_framed|intros ?].
  apply Preserves_bind; [|auto with storage]. apply Preserves_update. other_tables.
Qed.

(** The statements that write the other tables. *)
Lemma other_writes_framed d0 :
  (forall id ct st now, Preserves (framed d0) (store_verification_event id ct st now)) /\
  (forall days f, Preserves (framed d0) (clear_verification_history days f)) /\
  (forall l now, Preserves (framed d0) (update_license_state l now)) /\
  (forall l now, Preserves (framed d0) (update_sync_state l now)) /\
  (forall ty v id now, Preserves (framed d0) (queue_event ty v id now)) /\
  (forall id, Preserves (framed d0) (remove_queued_event id)) /\
  (forall ty actor target details id, Preserves (framed d0) (add_audit_log ty actor target details id)).
Proof.
  split_and!; intros; unfold clear_verification_history; try case_match;
    repeat (apply Preserves_bind; [auto with storage|intros ?]); auto with storage;
    try (apply Preserves_update; other_tables); apply Preserves_execute; other_tables.
Qed.

(** An application that succeeds makes its package the next one of its domain. *)
Lemma applied_advances p sequence anchors methods policy audit_id d d' :
  Applied p sequence anchors methods policy audit_id d d' -> StoreInv d -> policy_ok policy ->
  sequence = tp_sequence p -> 0 < sequence < 2 ^ 63 -> printable (tp_signer_key_id p) 512 = true ->
  StoreInv d' /\ advances d d'.
Proof.
  intros [(signers & details & Hdec & _ & Hp & _) _ Haf Ha Hmf Hk _ _] [Ia Ik Iq] Hpol -> Hseq Hprint.
  set (row := package_row p (tp_sequence p) signers) in *.
  assert (Hcols : stored_provenance p (tp_sequence p) = package_columns (tp_trust_domain p) row) by done.
  assert (Hra : Forall (fun x => ar_provenance x.2 = package_columns (tp_trust_domain p) row) (anchor_rows p (tp_sequence p) anchors)).
  { apply Forall_fmap, Forall_true. done. }
  assert (Hrk : Forall (fun x => kr_provenance x.2 = package_columns (tp_trust_domain p) row) (method_rows p (tp_sequence p) methods)).
  { apply Forall_fmap, Forall_true. done. }
  rewrite <- (anchor_rows_ids p (tp_sequence p)) in Haf. rewrite <- (method_rows_ids p (tp_sequence p)) in Hmf.
  destruct (replace_rows _ _ _ _ _ _ Hra Haf Ia) as [Ba Ga]. destruct (replace_rows _ _ _ _ _ _ Hrk Hmf Ik) as [Bk Gk].
  split; [constructor|].
  - by rewrite Hp, Ha.
  - by rewrite Hp, Hk.
  - rewrite Hp. apply map_Forall_insert_2; [|done]. by eapply decide_ok.
  - intros domain. destruct (decide (domain = tp_trust_domain p)) as [-> |Hne].
    + right. rewrite Hp, lookup_insert_eq. by eapply decide_step.
    + left. rewrite Hp, lookup_insert_ne by done. split; [done|]. unfold governed. by rewrite Ha, Hk, Ga, Gk.
Qed.

Lemma validated_package p anchors methods now1 now2 sequence :
  validate_trust_package p anchors methods now1 now2 = Ok sequence -> 0 <= tp_sequence p ->
  sequence = tp_sequence p /\ 0 < sequence < 2 ^ 63 /\ printable (tp_signer_key_id p) 512 = true.
Proof.
  unfold validate_trust_package, validate_open_badge_package, validate_package_identity. intros Hv Hs. res_inv.
  match goal with Hx : (if _ then _ else _) = Some _ |- _ => destruct (Z.ltb_spec (tp_sequence p) (2 ^ 63)); [|done]; injection Hx as <- end.
  breflect. split_and!; try done. lia.
Qed.

Lemma apply_advances p anchors methods policy now1 now2 audit_id d :
  StoreInv d -> policy_ok policy -> 0 <= tp_sequence p ->
  let d' := fst (apply_trust_package_internal p anchors methods policy now1 now2 audit_id d) in StoreInv d' /\ advances d d'.
Proof.
  intros Hd Hpol Hs. destruct (apply_trust_package_internal p anchors methods policy now1 now2 audit_id d) as [d' r] eqn:Ha. cbn.
  apply apply_internal_cases in Ha as [-> |(sequence & documents & Hv & Happ)]; [split; [done|by left]|].
  apply validated_package in Hv as (-> & ? & ?); [|done]. by eapply applied_advances.
Qed.
End legacy.

(** The sequence of a package is a [u64]. *)
Definition op_typed (op : StoreOp) : Prop :=
  match op with
  | OpApply p _ _ _ _ _ | OpApplyWithPolicy p _ _ _ _ _ _ => 0 <= tp_sequence p < 2 ^ 64
  | _ => True
  end.

Section runs.
Context `{Chrono} `{Rfc3339} `{JsonCodec} `{Blake3}.

Lemma run_op_advances s op d : StoreInv d -> op_typed op -> StoreInv (run_op s op d) /\ advances d (run_op s op d).
Proof.
  intros Hd Ht. assert (Hf : framed d d) by done. pose proof (other_writes_framed d) as (W1 & W2 & W3 & W4 & W5 & W6 & W7).
  destruct op; cbn [run_op]; try (apply framed_advances; apply autocommit_preserves; [|done];
    auto using store_trust_anchor_framed, store_open_badge_key_framed; done).
  - apply apply_advances; [done..|apply Ht].
  - unfold apply_trust_package_with_signer_policy.
    destruct (validate_trust_package_signer_policy policy) as [[]| |] eqn:Hp; [|apply framed_advances; done..].
    apply apply_advances; [done..|apply Ht].
  - by apply framed_advances, batch_failure_framed.
  - by apply framed_advances, acknowledge_framed.
Qed.

(** What a history of packages keeps. *)
Definition later (a b : PackageRow) : Prop :=
  pk_sequence a <= pk_sequence b /\ (forall r, pk_recovery_signer a = Some r -> pk_recovery_signer b = Some r).

Lemma package_steps_later a o : rtc package_step (Some a) o -> exists b, o = Some b /\ later a b /\ (pk_sequence b = pk_sequence a -> b = a).
Proof.
  intros Hr. remember (Some a) as oa eqn:He. revert a He. induction Hr as [|x y z Hs Hr IH]; intros a ->; [by exists a|].
  inversion Hs; subst. destruct (IH _ eq_refl) as (c & -> & (Hl & Hrec) & Hc). exists c. split_and!; [done|split; [lia|naive_solver]|lia].
Qed.

Lemma package_steps_acyclic x y : package_step x y -> rtc package_step y x -> False.
Proof.
  intros Hs Hr. destruct Hs; apply package_steps_later in Hr as (c & Hc & (Hl & _) & _); [done|]. injection Hc as <-. lia.
Qed.

Lemma run_ops_advances ops : forall d, StoreInv d -> Forall (op_typed ∘ snd) ops ->
  StoreInv (run_ops ops d) /\ forall domain, rtc package_step (t_packages d !! domain) (t_packages (run_ops ops d) !! domain) /\
    (t_packages (run_ops ops d) !! domain = t_packages d !! domain -> governed domain (run_ops ops d) = governed domain d).
Proof.
  induction ops as [|[s op] ops IH]; intros d Hd Ht; [split; [done|intros; by split; [apply rtc_refl|]]|].
  apply Forall_cons in Ht as [Hop Ht]. cbn. destruct (run_op_advances s op d Hd Hop) as [Hd1 Hadv].
  specialize (IH _ Hd1 Ht) as [Hd2 Hrest]. split; [done|]. intros domain. destruct (Hrest domain) as [Hr Hg]. fold (run_ops ops (run_op s op d)).
  destruct (Hadv domain) as [[Hp Hgov]|Hs].
  - rewrite <- Hp. split; [done|]. intros He. rewrite <- Hgov. by apply Hg.
  - split; [by eapply rtc_l|]. intros He. exfalso. rewrite He in Hr. by eapply package_steps_acyclic.
Qed.

(** C22: In every run of the operations of the store, whichever statements of the
    engine fail, every row stays a legacy row or bound to the stored package of
    its domain, whose sequence and signer policy the readers accept; the packages
    of a domain only move forward, each signed by the signer, the announced next
    signer or the recovery signer of the one before, under a recovery signer that
    never changes; and where the package is the same, so are the governed anchors
    and methods. *)
Theorem trust_store_invariant (ops : list (Sqlite * StoreOp)) d :
  StoreInv d -> Forall (op_typed ∘ snd) ops ->
  let d' := run_ops ops d in
  StoreInv d' /\ forall domain,
    rtc package_step (t_packages d !! domain) (t_packages d' !! domain) /\
    forall a, t_packages d !! domain = Some a -> exists b, t_packages d' !! domain = Some b /\
      pk_sequence a <= pk_sequence b /\ (forall r, pk_recovery_signer a = Some r -> pk_recovery_signer b = Some r) /\
      (pk_sequence b = pk_sequence a -> b = a /\ governed domain d' = governed domain d).
Proof.
  intros Hd Ht d'. destruct (run_ops_advances ops d Hd Ht) as [Hd' Hadv]. split; [done|]. intros domain.
  destruct (Hadv domain) as [Hr Hg]. split; [done|]. intros a Ha. rewrite Ha in Hr.
  apply package_steps_later in Hr as (b & Hb & (Hl & Hrec) & Heq). exists b. split_and!; try done.
  intros Hs. split; [by apply Heq|]. apply Hg. rewrite Ha. rewrite <- (Heq Hs). done.
Qed.
End runs.

(** ** Reading governed rows *)

(** The package in force when it is read: the stored row of its domain, in every
    column, with its signed expiry not passed at a reading of the clock. *)
Definition current_package `{Rfc3339} (d : Db) (clock : nat -> Z) (p : TrustPackageProvenance) : Prop := exists row,
  t_packages d !! tp_trust_domain p = Some row /\ pk_sequence row = tp_sequence p /\ pk_package_version row = tp_package_version p /\
  pk_signer_key_id row = tp_signer_key_id p /\ pk_package_digest row = tp_package_digest p /\
  parse_rfc3339 (pk_created_at row) = Some (tp_created_at p) /\ pk_expires_at row ≫= parse_rfc3339 = Some (tp_expires_at p) /\
  parse_rfc3339 (pk_imported_at row) = Some (tp_imported_at p) /\ exists n, clock n <= tp_expires_at p.

Section reads.
Context `{Sqlite} `{Chrono} `{Rfc3339} `{JsonCodec} `{Blake3}.

Lemma validate_times_expiry p methods n1 n2 s : validate_open_badge_package p methods n1 n2 = Ok s -> n2 <= tp_expires_at p.
Proof. unfold validate_open_badge_package, validate_package_times. intros Hv. res_inv. breflect. lia. Qed.

Lemma package_provenance_current d clock n domain row p :
  t_packages d !! domain = Some row -> package_provenance domain row (clock n) (clock (S n)) = Ok p ->
  tp_trust_domain p = domain /\ current_package d clock p.
Proof.
  unfold package_provenance. intros Hrow Hp. res_inv.
  match goal with Hx : stored_sequence _ _ = Ok _ |- _ => unfold stored_sequence in Hx; res_inv end.
  match goal with Hx : (if _ <? 0 then _ else _) = Some _ |- _ => destruct (pk_sequence row <? 0); [done|]; injection Hx as <- end.
  match goal with Hx : validate_open_badge_package _ _ _ _ = Ok _ |- _ => apply validate_times_expiry in Hx end.
  split; [done|]. exists row. cbn in *. split_and!; try done; [|eauto].
  match goal with Hx : pk_expires_at row = Some _ |- _ => rewrite Hx end. done.
Qed.

Lemma check_package_states_current kind clock d : forall records n states c c' u,
  check_package_states kind clock n states records c = (c', Ok u) -> c_db c = d ->
  (forall domain p, states !! domain = Some p -> tp_trust_domain p = domain /\ current_package d clock p) ->
  c_db c' = d /\ Forall (fun r => forall p, snd r = Some p -> current_package d clock p) records.
Proof.
  induction records as [|[id [p|]] records IH]; intros n states c c' u Hc Hd Hs; cbn [check_package_states] in Hc.
  - sql_inv. by split; [|constructor].
  - apply sql_bind_Ok in Hc as (c1 & stored & Hl & Hc). sql_inv.
    assert (c_db c1 = d /\ tp_trust_domain stored = tp_trust_domain p /\ current_package d clock stored) as (Hd1 & Hdom & Hcur).
    { destruct (states !! tp_trust_domain p) as [q|] eqn:Hq; [sql_inv; subst; split; [done|by apply Hs]|].
      unfold load_open_badge_package_provenance in Hl. sql_inv. split; [congruence|].
      match goal with Hx : match ?o with _ => _ end = Ok _ |- _ => destruct o as [row|] eqn:Ho; [|by simplify_eq/=] end.
      res_inv. simplify_eq/=. by eapply package_provenance_current. }
    match goal with Hx : ensure _ _ = Ok _ |- _ => apply ensure_Ok, bool_decide_eq_true in Hx as -> end.
    eapply IH in Hc as [Hd' Hr]; [|done|].
    + split; [done|]. constructor; [|done]. cbn. by intros q [= <-].
    + intros domain q. rewrite lookup_insert_Some. intros [[<- <-]|[_ Hq]]; [done|by apply Hs].
  - eapply IH in Hc as [Hd' Hr]; [|done..]. split; [done|]. by constructor.
Qed.

Lemma read_rows_Ok {A B} (f : Z -> Z -> string -> A -> res StorageError B) clock : forall rows n records,
  read_rows f clock n rows = Ok records -> Forall2 (fun r b => exists k, f (clock k) (clock (S k)) r.1 r.2 = Ok b) rows records.
Proof.
  induction rows as [|[id row] rows IH]; intros n records Hr; cbn [read_rows] in Hr; res_inv; [constructor|]. constructor; [by exists n|eauto].
Qed.

Lemma provenance_decode_domain s kind id o : provenance_decode s kind id = Ok o -> sp_domain s = tp_trust_domain <$> o.
Proof. unfold provenance_decode. intros Hd. destruct (sp_domain s); res_inv; by simplify_eq/=. Qed.

Lemma read_anchor_type_Ok id text t : read_anchor_type id text = Ok t -> text = anchor_type_text t.
Proof. unfold read_anchor_type. repeat case_match; intros [= <-]; by apply String.eqb_eq. Qed.

Lemma map_trust_anchor_record_Ok n1 n2 id row r : map_trust_anchor_record n1 n2 id row = Ok r ->
  ta_id (rec_anchor r) = id /\ ar_anchor_type row = anchor_type_text (ta_type (rec_anchor r)) /\
  ta_certificate_der (rec_anchor r) = ar_certificate_der row /\
  sp_domain (ar_provenance row) = tp_trust_domain <$> rec_anchor_provenance r /\
  forall p, rec_anchor_provenance r = Some p -> blake3_hex (ar_certificate_der row) = id.
Proof.
  unfold map_trust_anchor_record. intros Hm. res_inv. simplify_eq/=.
  match goal with Hx : read_anchor_type _ _ = Ok _ |- _ => apply read_anchor_type_Ok in Hx end.
  match goal with Hx : provenance_decode _ _ _ = Ok ?o |- _ => apply provenance_decode_domain in Hx; destruct o as [q|] end; split_and!; try done.
  intros p [= <-]. res_inv.
  match goal with Hx : validate_trust_package _ _ _ _ _ = Ok _ |- _ => unfold validate_trust_package in Hx; cbn [validate_anchors] in Hx; res_inv end.
  match goal with Hx : validate_anchor _ _ _ = Ok _ |- _ => unfold validate_anchor in Hx; cbn [ta_id ta_certificate_der ta_certificate_hash] in Hx; res_inv end.
  breflect. repeat match goal with Hx : (_ =? _)%string = true |- _ => apply String.eqb_eq in Hx end. done.
Qed.

(** The rows that a query for anchors selects. *)
Definition selects_anchor (type : TrustAnchorType) (jurisdiction : option string) (row : AnchorRow) : bool :=
  String.eqb (ar_anchor_type row) (anchor_type_text type) && match jurisdiction with Some j => String.eqb (ar_jurisdiction row) j | None => true end.

Lemma anchor_type_text_inj t1 t2 : anchor_type_text t1 = anchor_type_text t2 -> t1 = t2.
Proof. by destruct t1, t2. Qed.

Lemma autocommit_Ok {A} (m : Sql A) d d' a : autocommit m d = (d', Ok a) <-> exists c, m (mkConn d 0) = (c, Ok a) /\ d' = c_db c.
Proof. unfold autocommit. destruct (m (mkConn d 0)) as [c r]. naive_solver. Qed.

Lemma get_trust_anchor_records_Ok type jurisdiction clock c c' records :
  get_trust_anchor_records type jurisdiction clock c = (c', Ok records) ->
  c_db c' = c_db c /\
  Forall2 (fun x r => exists k, map_trust_anchor_record (clock k) (clock (S k)) x.1 x.2 = Ok r)
    (List.filter (fun x => selects_anchor type jurisdiction x.2) (table_scan (t_anchors (c_db c)))) records /\
  Forall (fun r => forall p, rec_anchor_provenance r = Some p -> current_package (c_db c) clock p) records.
Proof.
  unfold get_trust_anchor_records. intros Hg. sql_inv. simplify_eq.
  match goal with Hx : check_package_states _ _ _ _ _ _ = _ |- _ => eapply check_package_states_current in Hx as [Hd Hs]; [|done|done] end.
  split_and!; [done| |].
  - match goal with Hx : read_rows _ _ _ _ = Ok _ |- _ => apply read_rows_Ok in Hx; rename Hx into Hr end.
    erewrite List.filter_ext; [exact Hr|]. by intros [].
  - by apply Forall_fmap in Hs.
Qed.

Lemma Forall2_fmap_ids {A B} (R : string * A -> B -> Prop) (f : B -> string) rows l :
  Forall2 R rows l -> (forall x b, R x b -> f b = x.1) -> f <$> l = rows.*1.
Proof. intros HR Hf. induction HR; [done|]. rewrite !fmap_cons. f_equal; [by apply Hf|done]. Qed.

Lemma Forall2_exists_l {A B} (R : A -> B -> Prop) rows l b : Forall2 R rows l -> b ∈ l -> exists a, a ∈ rows /\ R a b.
Proof. intros HR [i Hi]%list_elem_of_lookup. destruct (Forall2_lookup_r _ _ _ _ _ HR Hi) as (a & Ha & Hab). exists a. split; [by eapply list_elem_of_lookup_2|done]. Qed.

Lemma list_elem_of_filter_bool {A} (f : A -> bool) l x : x ∈ List.filter f l <-> x ∈ l /\ f x = true.
Proof. by rewrite !list_elem_of_In, List.filter_In. Qed.

Lemma bool_filter_perm {A} (f : A -> bool) l k : l ≡ₚ k -> List.filter f l ≡ₚ List.filter f k.
Proof. induction 1; cbn; repeat case_match; try done; [by constructor..|by etrans]. Qed.

(** C24: Anchors are read only from packages in force: a query that answers changes
    nothing and returns exactly the anchors of the type and jurisdiction, one for
    each row; one that claims a package comes with the stored package of its
    domain, in every column, whose signed expiry had not passed, and its
    certificate has the digest that is its identifier; the others are legacy rows
    without a domain. *)
Theorem governed_anchors_current `{!SqliteLaws} type jurisdiction clock d d' records :
  autocommit (get_trust_anchor_records type jurisdiction clock) d = (d', Ok records) ->
  d' = d /\
  ((fun r => ta_id (rec_anchor r)) <$> records) ≡ₚ (List.filter (fun x => selects_anchor type jurisdiction x.2) (map_to_list (t_anchors d))).*1 /\
  Forall (fun r => ta_type (rec_anchor r) = type /\ exists row,
    t_anchors d !! ta_id (rec_anchor r) = Some row /\ ta_certificate_der (rec_anchor r) = ar_certificate_der row /\
    sp_domain (ar_provenance row) = tp_trust_domain <$> rec_anchor_provenance r /\
    forall p, rec_anchor_provenance r = Some p ->
      current_package d clock p /\ blake3_hex (ta_certificate_der (rec_anchor r)) = ta_id (rec_anchor r)) records.
Proof.
  intros (c & Hg & ->)%autocommit_Ok. apply get_trust_anchor_records_Ok in Hg as (Hd & Hrows & Hcur). cbn in Hd, Hrows, Hcur.
  split; [done|]. split.
  - rewrite <- (bool_filter_perm _ _ _ (table_scan_perm _ (t_anchors d))).
    apply Forall2_fmap_ids with (f := fun r => ta_id (rec_anchor r)) in Hrows as ->; [done|]. intros x r [k Hk]. by apply map_trust_anchor_record_Ok in Hk as [-> _].
  - apply Forall_forall. intros r Hr. destruct (Forall2_exists_l _ _ _ _ Hrows Hr) as ([id row] & [Hin Hsel]%list_elem_of_filter_bool & k & Hk).
    apply map_trust_anchor_record_Ok in Hk as (Hid & Hty & Hder & Hdom & Hdig). cbn in *.
    apply andb_true_iff in Hsel as [Hsel _]. apply String.eqb_eq in Hsel.
    rewrite (table_scan_perm _ (t_anchors d)), elem_of_map_to_list in Hin.
    split; [apply anchor_type_text_inj; congruence|]. exists row. rewrite Hid, Hder. split_and!; try done.
    intros p Hp. split; [|by eapply Hdig]. rewrite Forall_forall in Hcur. by apply (Hcur r).
Qed.
End reads.

(** ** A concrete store *)

Module ToyStore.
#[local] Instance toy_sqlite : Sqlite := {| table_scan := fun A m => map_to_list m; fault := fun _ => None |}.
#[local] Instance toy_sqlite_laws : SqliteLaws := fun A m => reflexivity _.
#[local] Instance toy_chrono : Chrono := {|
  checked_add_seconds := fun t s => Some (t + s * 1000000000);
  to_rfc3339 := fun t => if t <=? 10 then "early" else "late" |}.
#[local] Instance toy_rfc3339 : Rfc3339 := fun s => if String.eqb s "early" then Some 5 else if String.eqb s "late" then Some 50 else None.
#[local] Instance toy_codec : JsonCodec := {|
  json_to_string := fun _ => inr "{}"; json_read := fun _ => inr (Object []) |}.
#[local] Instance toy_blake3 : Blake3 := fun _ => "aa".

Definition empty_store : Db := mkDb ∅ ∅ ∅ ∅ ∅ None ∅ None None.
Definition digest : string := "0123456789abcdef0123456789abcdef0123456789abcdef0123456789abcdef".
Definition package : TrustPackageProvenance := mkProvenance "icao" 7 "v7" 5 50 "key-1" digest 5.
Definition anchor : StoredAnchor := mkStoredAnchor "aa" Csca "FR" None None None None None [48] "aa" IcaoPkd 5.
Definition policy : TrustPackageSignerPolicy := mkSignerPolicy (Some "key-2") "key-r".
Definition one_package : Db := fst (apply_trust_package_with_signer_policy package [anchor] [] policy 5 5 "audit-1" empty_store).

Lemma empty_store_inv : StoreInv empty_store.
Proof. constructor; apply map_Forall_empty. Qed.

Lemma trust_package_atomic_witness :
  (forall n, fault n = None) /\ is_Ok (snd (apply_trust_package_internal package [anchor] [] (Some policy) 5 5 "audit-1" empty_store)) = true.
Proof.
  split; [done|]. pose proof (trust_package_atomic package [anchor] [] (Some policy) 5 5 "audit-1" empty_store) as Ha.
  destruct (apply_trust_package_internal package [anchor] [] (Some policy) 5 5 "audit-1" empty_store) as [d' r].
  destruct Ha as (_ & _ & Ha). eapply Ha; try (vm_compute; reflexivity).
  - split; [apply NoDup_singleton|]. apply Forall_singleton. vm_compute. reflexivity.
  - split; [apply NoDup_nil_2|constructor].
Defined.

Lemma trust_store_invariant_witness :
  StoreInv empty_store /\ StoreInv (run_ops [(toy_sqlite, OpApplyWithPolicy package [anchor] [] policy 5 5 "audit-1")] empty_store) /\
  bool_decide (is_Some (t_packages (run_ops [(toy_sqlite, OpApplyWithPolicy package [anchor] [] policy 5 5 "audit-1")] empty_store) !! "icao")) = true.
Proof.
  split; [apply empty_store_inv|]. split; [|vm_compute; reflexivity].
  apply (trust_store_invariant [(toy_sqlite, OpApplyWithPolicy package [anchor] [] policy 5 5 "audit-1")] empty_store empty_store_inv).
  constructor; [|constructor]. cbn. lia.
Defined.

Lemma governed_anchors_current_witness : exists r,
  autocommit (get_trust_anchor_records Csca (Some "FR") (fun _ => 5)) one_package = (one_package, Ok [r]) /\
  rec_anchor_provenance r = Some package /\ current_package one_package (fun _ => 5) package.
Proof.
  assert (Hr : autocommit (get_trust_anchor_records Csca (Some "FR") (fun _ => 5)) one_package = (one_package, Ok [mkAnchorRecord anchor (Some package)]))
    by (vm_compute; reflexivity).
  eexists. split; [exact Hr|]. split; [done|].
  destruct (governed_anchors_current Csca (Some "FR") (fun _ => 5) one_package one_package _ Hr) as (_ & _ & Hf).
  apply Forall_singleton in Hf as (_ & row & _ & _ & _ & Hp). by apply (Hp package).
Defined.

(** A verification event of the day of the limit is kept: the stored instant has
    the separator [T] where the limit has a space. *)
Example cutoff_day_kept :
  str_lt "2026-09-01T00:00:00+00:00" "2026-09-01 12:00:00" = false /\ str_lt "2026-08-31T23:59:59+00:00" "2026-09-01 12:00:00" = true.
Proof. split; vm_compute; reflexivity. Qed.
End ToyStore.
