(* ===== verification/SdJwt.v ===== *)
(** * SD-JWT credentials (marty-oid4vci, [formats/sd_jwt.rs])

    The preparation of an SD-JWT for a remote signer, with its disclosures planned,
    encoded, digested and restored in stages; its assembly; the selection of
    disclosures for a presentation; and the verification of a presentation with its
    key-binding JWT.  [sd_jwt_rs], [jsonwebtoken], [chrono] and [serde_json] are
    parameters.  The clock, the random identifier and the salts, in the order in
    which they are drawn, are arguments. *)

From stdpp Require Import pretty.
From S2P Require Import Prelude Des Governance PolicyService EvidencePolicy Chain Issuance JwtVc.
Local Open Scope string_scope.
Local Open Scope Z_scope.

#[local] Abbreviation bytes := (list Z).
#[local] Abbreviation JsonMap := (list (string * Value)).
#[local] Abbreviation result := (res Oid4vciError).

(** [src/marty-oid4vci/src/formats/sd_jwt.rs:33-65] SD_JWT_EXPIRATION_OUT_OF_RANGE, the other messages and the reserved names *)
Definition SD_JWT_EXPIRATION_OUT_OF_RANGE : string := "SD-JWT expiration is out of range".
Definition SD_JWT_DISCLOSURE_STAGE_FAILURE : string := "SD-JWT disclosure preparation failed".
Definition SD_JWT_MANAGED_CLAIM_COLLISION : string := "SD-JWT claims conflict with issuer-controlled claims".
Definition SD_JWT_NON_DISCLOSABLE_SELECTOR : string := "SD-JWT selector targets a non-disclosable claim".
Definition SD_JWT_RESERVED_STRUCTURE : string := "SD-JWT claims contain reserved structural markers".
Definition SD_JWT_PRIVATE_CONFIRMATION_JWK : string := "SD-JWT confirmation must contain a public asymmetric JWK only".
Definition PRIVATE_JWK_MEMBERS : list string := ["d"; "rsa_d"; "p"; "q"; "dp"; "dq"; "qi"; "oth"; "k"].
Definition IETF_ALWAYS_MANAGED_CLAIMS : list string := ["iss"; "iat"; "jti"; "vct"].
Definition SD_JWT_STRUCTURAL_MARKERS : list string := ["_sd"; "_sd_alg"; "..."].
Definition IETF_NON_DISCLOSABLE_CLAIMS : list string := ["iss"; "nbf"; "exp"; "cnf"; "vct"; "vct#integrity"; "aka_vcts"; "status"].

(** ** Libraries *)

(** [chrono::DateTime::from_timestamp(seconds, 0)]. *)
Class TimestampLib := from_timestamp : Z -> option Z.

(** [sd_jwt_rs], its limits and its verifier; [jsonwebtoken::decode] of the claims
    of a compact JWT, a JWK read from text; [serde_json::Number::as_i64]. *)
Class SdJwtLib `{JwtLib} := {
  MAX_SD_JWT_INPUT_BYTES : Z;
  MAX_SD_JWT_DISCLOSURES : Z;
  MAX_SD_JWT_DISCLOSURE_BYTES : Z;
  sd_jwt_verifier : string -> JwtKey -> option string -> option string -> string + Value;
  jwk_from_text : string -> string + JwtKey;
  decode_claims : string -> JwtKey -> string -> string + Value;
  number_as_i64 : string -> option Z;
}.

(** A [serde_json::Value] read from bytes: of repeated members the last counts. *)
Fixpoint last_members (v : Value) : Value :=
  match v with
  | Array l => Array (map last_members l)
  | Object es => Object (foldl (fun m e => map_insert (fst e) (snd e) m) [] (map (fun e => (fst e, last_members (snd e))) es))
  | v => v
  end.
Definition json_value `{JsonCodec} (bs : bytes) : string + Value :=
  match json_read bs with inr v => inr (last_members v) | inl e => inl e end.

(** [s.split(c)]. *)
Fixpoint str_split (c : ascii) (s : string) : list string :=
  match s with
  | EmptyString => [EmptyString]
  | String a rest =>
      if Ascii.eqb a c then EmptyString :: str_split c rest
      else match str_split c rest with
           | [] => [String a EmptyString]
           | p :: ps => String a p :: ps
           end
  end.

(** [while matches!(segments.last(), Some(s) if s.is_empty()) { segments.pop(); }] *)
Definition pop_empty (l : list string) : list string :=
  foldr (fun s acc => match acc with [] => if String.eqb s "" then [] else [s] | _ => s :: acc end) [] l.

(** [value\["key"\] = v]: panics on what is neither an object nor null. *)
Definition index_set (key : string) (v : Value) (payload : Value) : result Value :=
  match payload with
  | Object m => Ok (Object (map_insert key v m))
  | Null => Ok (Object [(key, v)])
  | _ => Panic
  end.

(** ** Validation of claims *)

(** [src/marty-oid4vci/src/formats/sd_jwt.rs:68-111] validate_sd_jwt_managed_claims *)
Definition validate_sd_jwt_managed_claims (claims : CredentialClaims) (with_nbf with_confirmation : bool) : result unit :=
  let has k := contains_key k (cc_claims claims) in
  let collides :=
    match credential_payload_format claims with
    | IetfSdJwt =>
        existsb (fun e => one_of (fst e) IETF_ALWAYS_MANAGED_CLAIMS) (cc_claims claims)
        || (bool_decide (is_Some (cc_subject_id claims)) && has "sub")
        || (bool_decide (is_Some (expiration_seconds claims)) && has "exp")
        || (with_nbf && has "nbf") || (with_confirmation && has "cnf")
    | W3cVcdmV2SdJwt => bool_decide (is_Some (cc_subject_id claims)) && has "id"
    | W3cVcdmV2JwtVc => false
    end in
  _ ← ensure (negb collides) (SdJwtError SD_JWT_MANAGED_CLAIM_COLLISION);
  ensure (negb (bool_decide (credential_payload_format claims = IetfSdJwt)
                && existsb (fun name => one_of name IETF_NON_DISCLOSABLE_CLAIMS) (selective_disclosure_claims claims)))
    (SdJwtError SD_JWT_NON_DISCLOSABLE_SELECTOR).

(** [src/marty-oid4vci/src/formats/sd_jwt.rs:116-130] contains_sd_jwt_structural_marker, the loop; the top of the stack is the head *)
Fixpoint marker_loop (fuel : nat) (pending : list Value) : bool :=
  match fuel, pending with
  | S fuel, value :: pending =>
      match value with
      | Object es =>
          if existsb (fun e => one_of (fst e) SD_JWT_STRUCTURAL_MARKERS) es then true
          else marker_loop fuel (reverse (snd <$> es) ++ pending)
      | Array items => marker_loop fuel (reverse items ++ pending)
      | _ => marker_loop fuel pending
      end
  | _, _ => false
  end.

(** [src/marty-oid4vci/src/formats/sd_jwt.rs:114-132] contains_sd_jwt_structural_marker *)
Definition contains_sd_jwt_structural_marker (value : Value) : bool := marker_loop (value_weight value) [value].

(** [src/marty-oid4vci/src/formats/sd_jwt.rs:135-160] validate_sd_jwt_structural_markers *)
Definition validate_sd_jwt_structural_markers (claims : CredentialClaims) (confirmation : option Value) : result unit :=
  if bool_decide (credential_payload_format claims = W3cVcdmV2JwtVc) then Ok tt
  else
    let reserved :=
      existsb (fun e => one_of (fst e) SD_JWT_STRUCTURAL_MARKERS || contains_sd_jwt_structural_marker (snd e)) (cc_claims claims)
      || existsb (fun name => one_of name SD_JWT_STRUCTURAL_MARKERS) (selective_disclosure_claims claims)
      || match confirmation with Some v => contains_sd_jwt_structural_marker v | None => false end in
    ensure (negb reserved) (SdJwtError SD_JWT_RESERVED_STRUCTURE).

(** [src/marty-oid4vci/src/formats/sd_jwt.rs:163-186] validate_sd_jwt_confirmation *)
Definition validate_sd_jwt_confirmation (confirmation : option Value) : result unit :=
  match confirmation with
  | None => Ok tt
  | Some confirmation =>
      confirmation ← ok_or (as_object confirmation) (SdJwtError "SD-JWT confirmation must be a JSON object");
      match map_get "jwk" confirmation with
      | None => Ok tt
      | Some jwk =>
          jwk ← ok_or (as_object jwk) (SdJwtError "SD-JWT confirmation jwk must be a JSON object");
          ensure (negb (bool_decide (map_get "kty" jwk ≫= as_str = Some "oct") || existsb (fun m => contains_key m jwk) PRIVATE_JWK_MEMBERS))
            (SdJwtError SD_JWT_PRIVATE_CONFIRMATION_JWK)
      end
  end.

(** [src/marty-oid4vci/src/formats/sd_jwt.rs:189-203] validate_sd_jwt_confirmation_inputs *)
Definition validate_sd_jwt_confirmation_inputs (claims : CredentialClaims) (explicit_confirmation : option Value) : result unit :=
  _ ← validate_sd_jwt_confirmation explicit_confirmation;
  if bool_decide (explicit_confirmation = None) && bool_decide (credential_payload_format claims = IetfSdJwt)
  then validate_sd_jwt_confirmation (map_get "cnf" (cc_claims claims))
  else Ok tt.

(** [i64::checked_add]. *)
Definition i64_checked_add (a b : Z) : option Z := let s := a + b in if (- 2 ^ 63 <=? s) && (s <? 2 ^ 63) then Some s else None.

(** [src/marty-oid4vci/src/formats/sd_jwt.rs:206-218] checked_sd_jwt_expiration_timestamp *)
Definition checked_sd_jwt_expiration_timestamp (issued_at : Z) (seconds : option Z) : result (option Z) :=
  match seconds with
  | Some s => t ← ok_or (i64_checked_add (timestamp issued_at) s) (SigningError SD_JWT_EXPIRATION_OUT_OF_RANGE); Ok (Some t)
  | None => Ok None
  end.

(** [src/marty-oid4vci/src/formats/sd_jwt.rs:221-232] checked_sd_jwt_vcdm_expiration *)
Definition checked_sd_jwt_vcdm_expiration `{TimestampLib} (issued_at : Z) (seconds : option Z) : result (option (Z * Z)) :=
  t ← checked_sd_jwt_expiration_timestamp issued_at seconds;
  match t with
  | Some t => d ← ok_or (from_timestamp t) (SigningError SD_JWT_EXPIRATION_OUT_OF_RANGE); Ok (Some (t, d))
  | None => Ok None
  end.

(** A holder key: what [ssi_jwk] knows of it, and the JSON that [to_value] gives. *)
Record HolderJwk := mkHolderJwk { hj_params : JwkParams; hj_value : string + Value }.

(** [src/marty-oid4vci/src/formats/sd_jwt.rs:261-284] holder_public_jwk_confirmation *)
Definition holder_public_jwk_confirmation (holder : HolderJwk) : result Value :=
  let contains_private_material :=
    match hj_params holder with
    | JwkOKP _ _ private | JwkEC _ _ _ private | JwkRSA private => private
    | JwkSymmetric => true
    end in
  _ ← ensure (negb contains_private_material) (SdJwtError SD_JWT_PRIVATE_CONFIRMATION_JWK);
  v ← lift_oid SerializationError (hj_value holder);
  Ok (Object [("jwk", v)]).

(** ** Prepared credentials *)

(** [src/marty-oid4vci/src/formats/sd_jwt.rs:313-322] PreparedSdJwt *)
Record PreparedSdJwt := mkPreparedSdJwt {
  psd_signing_input : string;
  psd_disclosures_suffix : string;
  psd_credential_id : string;
  psd_algorithm : SigningAlgorithm;
  psd_issuer_public_jwk : string;
}.

(** [src/marty-oid4vci/src/formats/sd_jwt.rs:362-373] SdJwtPreparationOptions *)
Record SdJwtPreparationOptions := mkSdOptions {
  so_credential_id : option string;
  so_typ : option string;
  so_confirmation : option Value;
  so_x5c : list string;
  so_include_nbf : bool;
}.
Definition sd_options_default : SdJwtPreparationOptions := mkSdOptions None None None [] false.

(** [src/marty-oid4vci/src/formats/sd_jwt.rs:470-473] SdJwtDisclosureTarget *)
Inductive SdJwtDisclosureTarget := TopLevel | CredentialSubject.

(** [src/marty-oid4vci/src/formats/sd_jwt.rs:476-482] PlannedSdJwtPreparation *)
Record PlannedSdJwtPreparation := mkPlannedSdJwt {
  pl_credential_id : string; pl_issued_at : Z; pl_payload : Value; pl_target : SdJwtDisclosureTarget; pl_options : SdJwtPreparationOptions;
}.

(** [src/marty-oid4vci/src/formats/sd_jwt.rs:485-490] PlannedSdJwtDisclosure *)
Record PlannedSdJwtDisclosure := mkPlannedDisclosure { pd_ordinal : Z; pd_claim_name : string; pd_claim_value : Value; pd_salt : bytes }.

(** [src/marty-oid4vci/src/formats/sd_jwt.rs:493-496] EncodedSdJwtDisclosure *)
Record EncodedSdJwtDisclosure := mkEncodedDisclosure { ed_ordinal : Z; ed_disclosure : string }.

(** [src/marty-oid4vci/src/formats/sd_jwt.rs:499-503] DigestedSdJwtDisclosure *)
Record DigestedSdJwtDisclosure := mkDigestedDisclosure { dd_ordinal : Z; dd_disclosure : string; dd_digest : string }.

(** [src/marty-oid4vci/src/formats/sd_jwt.rs:506-509] SdJwtDisclosureStage *)
Record SdJwtDisclosureStage (T : Type) := mkStage { st_ordinals : list Z; st_items : list T }.
Arguments mkStage {T} _ _.
Arguments st_ordinals {T} _.
Arguments st_items {T} _.

(** [src/marty-oid4vci/src/formats/sd_jwt.rs:520-525] SdJwtDisclosureStage::empty *)
Definition stage_empty {T} : SdJwtDisclosureStage T := mkStage [] [].

(** [src/marty-oid4vci/src/formats/sd_jwt.rs:527-529] SdJwtDisclosureStage::is_empty *)
Definition stage_is_empty {T} (s : SdJwtDisclosureStage T) : bool := (length (st_ordinals s) =? 0)%nat && (length (st_items s) =? 0)%nat.

(** ** Disclosures *)

(** [src/marty-oid4vci/src/formats/sd_jwt.rs:778-793] plan_sd_jwt_disclosure *)
Definition plan_sd_jwt_disclosure (target : JsonMap) (source_ordinal : Z) (claim_name : string) (salt : bytes) :
    option (JsonMap * PlannedSdJwtDisclosure) :=
  claim_value ← map_get claim_name target;
  Some (map_remove claim_name target, mkPlannedDisclosure source_ordinal claim_name claim_value salt).

(** [src/marty-oid4vci/src/formats/sd_jwt.rs:890-898] plan_sd_jwt_disclosures, the loop; [salt] gives the salts in the order of their draws *)
Fixpoint plan_loop (target : JsonMap) (source_ordinal : Z) (names : list string) (salt : nat -> bytes) (drawn : nat) :
    JsonMap * list PlannedSdJwtDisclosure :=
  match names with
  | [] => (target, [])
  | name :: names =>
      match plan_sd_jwt_disclosure target source_ordinal name (salt drawn) with
      | Some (target, planned) =>
          let '(target, items) := plan_loop target (source_ordinal + 1) names salt (S drawn) in (target, planned :: items)
      | None => plan_loop target (source_ordinal + 1) names salt drawn
      end
  end.

(** [src/marty-oid4vci/src/formats/sd_jwt.rs:882-904] plan_sd_jwt_disclosures *)
Definition plan_sd_jwt_disclosures (target : JsonMap) (sd_claims : list string) (salt : nat -> bytes) :
    JsonMap * SdJwtDisclosureStage PlannedSdJwtDisclosure :=
  let '(target, items) := plan_loop target 0 sd_claims salt 0 in (target, mkStage (pd_ordinal <$> items) items).

Section disclosures.
Context `{Base64Url} `{JsonCodec} `{Sha256}.

(** [src/marty-oid4vci/src/formats/sd_jwt.rs:796-808] encode_sd_jwt_disclosure *)
Definition encode_sd_jwt_disclosure (planned : PlannedSdJwtDisclosure) : result EncodedSdJwtDisclosure :=
  let salt := b64_encode (pd_salt planned) in
  json ← lift_oid (fun e => SdJwtError ("Disclosure serialization failed: " +:+ e))
           (json_to_string (Array [VString salt; VString (pd_claim_name planned); pd_claim_value planned]));
  Ok (mkEncodedDisclosure (pd_ordinal planned) (b64_encode (str_bytes json))).

(** [src/marty-oid4vci/src/formats/sd_jwt.rs:811-819] digest_sd_jwt_disclosure *)
Definition digest_sd_jwt_disclosure (encoded : EncodedSdJwtDisclosure) : DigestedSdJwtDisclosure :=
  mkDigestedDisclosure (ed_ordinal encoded) (ed_disclosure encoded) (b64_encode (sha256 (ed_disclosure encoded))).

(** [src/marty-oid4vci/src/formats/sd_jwt.rs:914-917] encode_sd_jwt_disclosures, the items, up to the first error *)
Fixpoint encode_items (items : list PlannedSdJwtDisclosure) : result (list EncodedSdJwtDisclosure) :=
  match items with
  | [] => Ok []
  | p :: items => e ← encode_sd_jwt_disclosure p; rest ← encode_items items; Ok (e :: rest)
  end.

(** [src/marty-oid4vci/src/formats/sd_jwt.rs:907-923] encode_sd_jwt_disclosures *)
Definition encode_sd_jwt_disclosures (planned : SdJwtDisclosureStage PlannedSdJwtDisclosure) :
    result (SdJwtDisclosureStage EncodedSdJwtDisclosure) :=
  items ← encode_items (st_items planned); Ok (mkStage (st_ordinals planned) items).

(** [src/marty-oid4vci/src/formats/sd_jwt.rs:926-937] digest_sd_jwt_disclosures *)
Definition digest_sd_jwt_disclosures (encoded : SdJwtDisclosureStage EncodedSdJwtDisclosure) : SdJwtDisclosureStage DigestedSdJwtDisclosure :=
  mkStage (st_ordinals encoded) (digest_sd_jwt_disclosure <$> st_items encoded).

(** [src/marty-oid4vci/src/formats/sd_jwt.rs:945-953] prepare_sd_jwt_disclosures *)
Definition prepare_sd_jwt_disclosures (target : JsonMap) (sd_claims : list string) (salt : nat -> bytes) :
    result (JsonMap * SdJwtDisclosureStage DigestedSdJwtDisclosure) :=
  let '(target, planned) := plan_sd_jwt_disclosures target sd_claims salt in
  encoded ← encode_sd_jwt_disclosures planned;
  Ok (target, digest_sd_jwt_disclosures encoded).
End disclosures.

(** [windows(2).all(|o| o\[0\] < o\[1\])]. *)
Fixpoint strictly_increasing (l : list Z) : bool :=
  match l with
  | a :: (b :: _) as rest => (a <? b) && strictly_increasing rest
  | _ => true
  end.

(** [src/marty-oid4vci/src/formats/sd_jwt.rs:822-858] restore_sd_jwt_disclosures; items with the same ordinal, whose order is open, are refused *)
Definition restore_sd_jwt_disclosures (digested : SdJwtDisclosureStage DigestedSdJwtDisclosure) : result (list DigestedSdJwtDisclosure) :=
  let failure := SdJwtError SD_JWT_DISCLOSURE_STAGE_FAILURE in
  _ ← ensure (zlen (st_ordinals digested) =? zlen (st_items digested)) failure;
  _ ← ensure (strictly_increasing (st_ordinals digested)) failure;
  let restored := sort_by (fun a b => dd_ordinal a <=? dd_ordinal b) (st_items digested) in
  _ ← ensure (forallb (fun '(expected, item) => expected =? dd_ordinal item) (zip (st_ordinals digested) restored)) failure;
  Ok restored.

(** [src/marty-oid4vci/src/formats/sd_jwt.rs:861-879] assemble_sd_jwt_disclosures *)
Definition assemble_sd_jwt_disclosures (target : JsonMap) (digested : SdJwtDisclosureStage DigestedSdJwtDisclosure) :
    result (JsonMap * list string) :=
  restored ← restore_sd_jwt_disclosures digested;
  let hashes := VString ∘ dd_digest <$> restored in
  Ok (if (length hashes =? 0)%nat then target else map_insert "_sd" (Array hashes) target, dd_disclosure <$> restored).

(** [src/marty-oid4vci/src/formats/sd_jwt.rs:645-662] sd_jwt_disclosure_target_mut: the object, and the payload after a change of it *)
Definition sd_jwt_disclosure_target (payload : Value) (target : SdJwtDisclosureTarget) : result JsonMap :=
  match target with
  | TopLevel => ok_or (as_object payload) (SdJwtError "Payload is not a JSON object")
  | CredentialSubject =>
      ok_or (m ← as_object payload; v ← map_get "credentialSubject" m; as_object v)
        (SdJwtError "Missing 'credentialSubject' object in payload for SD claims")
  end.
Definition with_disclosure_target (payload : Value) (target : SdJwtDisclosureTarget) (object : JsonMap) : Value :=
  match target, payload with
  | CredentialSubject, Object m => Object (map_insert "credentialSubject" (Object object) m)
  | CredentialSubject, payload => payload
  | TopLevel, _ => Object object
  end.

(** ** Preparation *)

Section preparation.
Context `{Base64Url} `{JsonCodec} `{JwtLib} `{SignerLib} `{IssueClock} `{TimestampLib} `{Sha256}.

(** [for (key, value) in &claims.claims { obj.insert(..) }] *)
Definition insert_claims (claims : JsonMap) (m : JsonMap) : JsonMap := foldl (fun m e => map_insert (fst e) (snd e) m) m claims.

(** [src/marty-oid4vci/src/formats/sd_jwt.rs:558-580] plan_sd_jwt_preparation, the flat payload *)
Definition ietf_payload (signer : SignerMetadata) (claims : CredentialClaims) (credential_id vct : string) (now : Z) : result JsonMap :=
  let p := [("iss", VString (sg_issuer_id signer)); ("iat", json_int (timestamp now)); ("jti", VString credential_id); ("vct", VString vct)] in
  let p := set_opt "sub" (VString <$> cc_subject_id claims) p in
  expiration ← checked_sd_jwt_expiration_timestamp now (expiration_seconds claims);
  Ok (insert_claims (cc_claims claims) (set_opt "exp" (json_int <$> expiration) p)).

(** [src/marty-oid4vci/src/formats/sd_jwt.rs:583-624] plan_sd_jwt_preparation, the VCDM payload *)
Definition vcdm_payload (signer : SignerMetadata) (claims : CredentialClaims) (credential_id vct : string) (now : Z) : result JsonMap :=
  let subject := insert_claims (cc_claims claims) (set_opt "id" (VString <$> cc_subject_id claims) []) in
  let p := [("iss", VString (sg_issuer_id signer)); ("iat", json_int (timestamp now)); ("jti", VString credential_id); ("vct", VString vct);
            ("@context", strings ("https://www.w3.org/ns/credentials/v2" :: w3c_context claims));
            ("type", strings ("VerifiableCredential" :: w3c_types claims)); ("issuer", VString (sg_issuer_id signer));
            ("validFrom", VString (format_zulu now)); ("credentialSubject", Object subject)] in
  let p := set_opt "sub" (VString <$> cc_subject_id claims) p in
  expiration ← checked_sd_jwt_vcdm_expiration now (expiration_seconds claims);
  Ok (match expiration with
      | Some (t, d) => map_insert "validUntil" (VString (format_zulu d)) (map_insert "exp" (json_int t) p)
      | None => p
      end).

(** [src/marty-oid4vci/src/formats/sd_jwt.rs:533-642] plan_sd_jwt_preparation *)
Definition plan_sd_jwt_preparation (signer : SignerMetadata) (claims : CredentialClaims) (options : SdJwtPreparationOptions)
    (fresh : string) (now : Z) : result PlannedSdJwtPreparation :=
  _ ← validate_sd_jwt_managed_claims claims (so_include_nbf options) (bool_decide (is_Some (so_confirmation options)));
  _ ← validate_sd_jwt_structural_markers claims (so_confirmation options);
  _ ← validate_sd_jwt_confirmation_inputs claims (so_confirmation options);
  let credential_id := default ("urn:uuid:" +:+ fresh) (so_credential_id options) in
  let vct := if String.eqb (cc_credential_type claims) "" then "VerifiableCredential" else cc_credential_type claims in
  '(payload, target) ←
    match credential_payload_format claims with
    | IetfSdJwt => p ← ietf_payload signer claims credential_id vct now; Ok (p, TopLevel)
    | W3cVcdmV2SdJwt => p ← vcdm_payload signer claims credential_id vct now; Ok (p, CredentialSubject)
    | W3cVcdmV2JwtVc =>
        Err (UnsupportedFormat "credential_payload_format 'w3c_vcdm_v2_jwt_vc' is only valid for jwt_vc_json, not for SD-JWT credentials")
    end;
  Ok (mkPlannedSdJwt credential_id now (Object payload) target options).

(** [src/marty-oid4vci/src/formats/sd_jwt.rs:723-731] assemble_sd_jwt_preparation, the header *)
Definition sd_jwt_header (signer : SignerMetadata) (options : SdJwtPreparationOptions) : JsonMap :=
  let header := [("alg", VString (algorithm_name (sg_algorithm signer))); ("typ", VString (default "vc+sd-jwt" (so_typ options)));
                 ("kid", VString (sg_kid_url signer))] in
  match so_x5c options with [] => header | x5c => map_insert "x5c" (strings x5c) header end.

(** [src/marty-oid4vci/src/formats/sd_jwt.rs:742-746] assemble_sd_jwt_preparation, the suffix *)
Definition disclosures_suffix (disclosures : list string) : string :=
  match disclosures with [] => "~" | _ => "~" +:+ join_sep "~" disclosures +:+ "~" end.

(** [src/marty-oid4vci/src/formats/sd_jwt.rs:701-720] assemble_sd_jwt_preparation, the payload with its digests *)
Definition sd_jwt_payload_of (planned : PlannedSdJwtPreparation) (digested : SdJwtDisclosureStage DigestedSdJwtDisclosure) :
    result (Value * list string) :=
  '(payload, disclosures) ←
    (if stage_is_empty digested then Ok (pl_payload planned, [])
     else target ← sd_jwt_disclosure_target (pl_payload planned) (pl_target planned);
          '(target, disclosures) ← assemble_sd_jwt_disclosures target digested;
          Ok (with_disclosure_target (pl_payload planned) (pl_target planned) target, disclosures));
  let payload := match disclosures, payload with
                 | _ :: _, Object m => Object (map_insert "_sd_alg" (VString "sha-256") m)
                 | _, payload => payload
                 end in
  payload ← (if so_include_nbf (pl_options planned) then index_set "nbf" (json_int (timestamp (pl_issued_at planned))) payload else Ok payload);
  payload ← match so_confirmation (pl_options planned) with Some c => index_set "cnf" c payload | None => Ok payload end;
  Ok (payload, disclosures).

(** [src/marty-oid4vci/src/formats/sd_jwt.rs:688-755] assemble_sd_jwt_preparation *)
Definition assemble_sd_jwt_preparation (signer : SignerMetadata) (planned : PlannedSdJwtPreparation)
    (digested : SdJwtDisclosureStage DigestedSdJwtDisclosure) : result PreparedSdJwt :=
  '(payload, disclosures) ← sd_jwt_payload_of planned digested;
  header_str ← lift_oid (fun e => SigningError ("Header serialization failed: " +:+ e)) (json_to_string (Object (sd_jwt_header signer (pl_options planned))));
  payload_str ← lift_oid (fun e => SigningError ("Payload serialization failed: " +:+ e)) (json_to_string payload);
  jwk ← validate_signer_public_jwk signer;
  Ok (mkPreparedSdJwt (b64_encode (str_bytes header_str) +:+ "." +:+ b64_encode (str_bytes payload_str)) (disclosures_suffix disclosures)
        (pl_credential_id planned) (sg_algorithm signer) jwk).

(** [src/marty-oid4vci/src/formats/sd_jwt.rs:665-685] prepare_sd_jwt_with_options_and_sources *)
Definition prepare_sd_jwt_with_options_and_sources (signer : SignerMetadata) (claims : CredentialClaims) (options : SdJwtPreparationOptions)
    (fresh : string) (now : Z) (salt : nat -> bytes) : result PreparedSdJwt :=
  planned ← plan_sd_jwt_preparation signer claims options fresh now;
  '(planned, digested) ←
    (if bool_decide (selective_disclosure_claims claims = []) then Ok (planned, stage_empty)
     else target ← sd_jwt_disclosure_target (pl_payload planned) (pl_target planned);
          '(target, digested) ← prepare_sd_jwt_disclosures target (selective_disclosure_claims claims) salt;
          Ok (mkPlannedSdJwt (pl_credential_id planned) (pl_issued_at planned) (with_disclosure_target (pl_payload planned) (pl_target planned) target)
                (pl_target planned) (pl_options planned), digested));
  assemble_sd_jwt_preparation signer planned digested.

(** [src/marty-oid4vci/src/formats/sd_jwt.rs:427-445] prepare_sd_jwt_with_options, over its random sources *)
Definition prepare_sd_jwt_with_options (signer : SignerMetadata) (claims : CredentialClaims) (options : SdJwtPreparationOptions)
    (fresh : string) (now : Z) (salt : nat -> bytes) : result PreparedSdJwt :=
  prepare_sd_jwt_with_options_and_sources signer claims options fresh now salt.

(** [src/marty-oid4vci/src/formats/sd_jwt.rs:397-402] prepare_sd_jwt *)
Definition prepare_sd_jwt (signer : SignerMetadata) (claims : CredentialClaims) (fresh : string) (now : Z) (salt : nat -> bytes) :
    result PreparedSdJwt := prepare_sd_jwt_with_options signer claims sd_options_default fresh now salt.

(** [src/marty-oid4vci/src/formats/sd_jwt.rs:410-423] prepare_sd_jwt_with_holder_public_jwk *)
Definition prepare_sd_jwt_with_holder_public_jwk (signer : SignerMetadata) (claims : CredentialClaims) (holder : HolderJwk)
    (fresh : string) (now : Z) (salt : nat -> bytes) : result PreparedSdJwt :=
  confirmation ← holder_public_jwk_confirmation holder;
  prepare_sd_jwt_with_options signer claims (mkSdOptions None None (Some confirmation) [] false) fresh now salt.

(** [src/marty-oid4vci/src/formats/sd_jwt.rs:348-355] PreparedSdJwt::validate_signature *)
Definition sd_jwt_validate_signature (p : PreparedSdJwt) (signature : bytes) : result unit :=
  verify_remote_signature (psd_algorithm p) (psd_issuer_public_jwk p) (str_bytes (psd_signing_input p)) signature.

(** [src/marty-oid4vci/src/formats/sd_jwt.rs:762-775] assemble_sd_jwt *)
Definition assemble_sd_jwt (p : PreparedSdJwt) (signature : bytes) : result SignedCredential :=
  _ ← sd_jwt_validate_signature p signature;
  Ok (SdJwtCredential (psd_signing_input p +:+ "." +:+ b64_encode signature +:+ psd_disclosures_suffix p) (psd_credential_id p)).

(** [src/marty-oid4vci/src/formats/sd_jwt.rs:380-387] sign_sd_jwt_with_signer, over what the signer answers *)
Definition sign_sd_jwt_with_signer (signer : SignerMetadata) (sign : bytes -> result bytes) (claims : CredentialClaims)
    (fresh : string) (now : Z) (salt : nat -> bytes) : result SignedCredential :=
  prepared ← prepare_sd_jwt signer claims fresh now salt;
  signature ← sign (str_bytes (psd_signing_input prepared));
  assemble_sd_jwt prepared signature.
End preparation.

(** [value.get(key)]. *)
Definition member (key : string) (v : Value) : option Value := m ← as_object v; map_get key m.

(** ** Presentations *)

(** [src/marty-oid4vci/src/formats/sd_jwt.rs:1061-1080] collect_hashes *)
Fixpoint collect_hashes (value : Value) : list string :=
  match value with
  | Object es =>
      (match map_get "_sd" es with Some (Array values) => omap as_str values | _ => [] end
       ++ concat (map (fun e => collect_hashes (snd e)) es))%list
  | Array values => concat (map collect_hashes values)
  | _ => []
  end.

Section presentation.
Context `{Base64Url} `{JsonCodec} `{JwtLib} `{!SdJwtLib} `{Sha256}.

(** [src/marty-oid4vci/src/formats/sd_jwt.rs:1143-1161] validate_sd_jwt_presentation_input, the loop over the disclosures *)
Fixpoint input_loop (count : Z) (segments : list string) : result unit :=
  match segments with
  | [] => Ok tt
  | segment :: segments =>
      if String.eqb segment "" then input_loop count segments
      else
        count ← ok_or (if count + 1 <? 2 ^ 64 then Some (count + 1) else None) (SdJwtError "SD-JWT presentation has too many disclosures");
        _ ← ensure (negb (MAX_SD_JWT_DISCLOSURES <? count)) (SdJwtError "SD-JWT presentation has too many disclosures");
        _ ← ensure (negb (MAX_SD_JWT_DISCLOSURE_BYTES <? str_len segment)) (SdJwtError "SD-JWT presentation disclosure exceeds its size limit");
        input_loop count segments
  end.

(** [src/marty-oid4vci/src/formats/sd_jwt.rs:1137-1163] validate_sd_jwt_presentation_input *)
Definition validate_sd_jwt_presentation_input (compact : string) : result unit :=
  _ ← ensure (negb (MAX_SD_JWT_INPUT_BYTES <? str_len compact)) (SdJwtError "SD-JWT presentation input exceeds its size limit");
  input_loop 0 (drop 1 (str_split "~" compact)).

(** [src/marty-oid4vci/src/formats/sd_jwt.rs:1086-1103] create_sd_jwt_presentation, the name of a disclosure *)
Definition disclosure_field (disclosure : string) : result string :=
  bs ← lift_oid (fun e => SdJwtError ("Disclosure decode failed: " +:+ e)) (b64_decode disclosure);
  value ← lift_oid (fun e => SdJwtError ("Disclosure is not JSON: " +:+ e)) (json_value bs);
  items ← ok_or (as_array value) (SdJwtError "Disclosure must be a JSON array");
  _ ← ensure (zlen items =? 3) (SdJwtError "Object-property disclosure must contain salt, name, and value");
  name ← vec_index items 1;
  ok_or (as_str name) (SdJwtError "Disclosure claim name must be a string").

(** [src/marty-oid4vci/src/formats/sd_jwt.rs:1085-1115] create_sd_jwt_presentation, the disclosures by name *)
Fixpoint available_loop (signed_hashes : gset string) (available : gmap string string) (disclosures : list string) : result (gmap string string) :=
  match disclosures with
  | [] => Ok available
  | disclosure :: disclosures =>
      field ← disclosure_field disclosure;
      _ ← ensure (bool_decide (b64_encode (sha256 disclosure) ∈ signed_hashes))
            (SdJwtError ("Disclosure for `" +:+ field +:+ "` is not bound by the issuer-signed payload"));
      _ ← ensure (bool_decide (available !! field = None)) (SdJwtError ("Disclosure name `" +:+ field +:+ "` is ambiguous"));
      available_loop signed_hashes (<[field := disclosure]> available) disclosures
  end.

(** [src/marty-oid4vci/src/formats/sd_jwt.rs:1117-1128] create_sd_jwt_presentation, the requested disclosures *)
Fixpoint selected_loop (available : gmap string string) (requested : gset string) (fields : list string) : result (list string) :=
  match fields with
  | [] => Ok []
  | field :: fields =>
      _ ← ensure (negb (bool_decide (field ∈ requested))) (SdJwtError ("Disclosure `" +:+ field +:+ "` was requested more than once"));
      disclosure ← ok_or (available !! field) (SdJwtError ("SD-JWT has no disclosure named `" +:+ field +:+ "`"));
      rest ← selected_loop available ({[field]} ∪ requested) fields;
      Ok (disclosure :: rest)
  end.

(** [src/marty-oid4vci/src/formats/sd_jwt.rs:1022-1135] create_sd_jwt_presentation *)
Definition create_sd_jwt_presentation (compact : string) (disclosed_fields : list string) : result string :=
  _ ← validate_sd_jwt_presentation_input compact;
  let segments := pop_empty (str_split "~" compact) in
  issuer_jwt ← ok_or (head segments) (SdJwtError "SD-JWT is missing its issuer-signed JWT");
  _ ← ensure (zlen (str_split "." issuer_jwt) =? 3) (SdJwtError "Issuer-signed SD-JWT is not compact JWS");
  _ ← ensure (negb (existsb (fun s => zlen (str_split "." s) =? 3) (drop 1 segments)))
        (SdJwtError "An existing Key Binding JWT cannot be reused in a new presentation");
  payload_segment ← expect (str_split "." issuer_jwt !! 1%nat);
  payload_bytes ← lift_oid (fun e => SdJwtError ("Issuer JWT payload decode failed: " +:+ e)) (b64_decode payload_segment);
  payload ← lift_oid (fun e => SdJwtError ("Issuer JWT payload is not JSON: " +:+ e)) (json_value payload_bytes);
  available ← available_loop (list_to_set (collect_hashes payload)) ∅ (drop 1 segments);
  selected ← selected_loop available ∅ disclosed_fields;
  Ok (match selected with [] => issuer_jwt +:+ "~" | _ => issuer_jwt +:+ "~" +:+ join_sep "~" selected +:+ "~" end).

(** ** Verification *)

(** [src/marty-oid4vci/src/formats/sd_jwt.rs:1166-1170] key_binding_iat_is_fresh *)
Definition key_binding_iat_is_fresh (now issued_at : Z) : bool :=
  match i64_checked_add now (- issued_at) with
  | Some d => if d =? - 2 ^ 63 then false else Z.abs d <=? 300
  | None => false
  end.

(** [src/marty-oid4vci/src/formats/sd_jwt.rs:1251-1258] validate_key_binding_jwt, the audience *)
Definition audience_matches (claims : Value) (expected : string) : bool :=
  match member "aud" claims with
  | Some (VString actual) => String.eqb actual expected
  | Some (Array values) => existsb (fun v => bool_decide (as_str v = Some expected)) values
  | _ => false
  end.

(** [src/marty-oid4vci/src/formats/sd_jwt.rs:1206-1226] validate_key_binding_jwt, the key that the issuer confirmed *)
Definition confirmed_key (issuer_jwt : string) : result JwtKey :=
  segment ← ok_or (str_split "." issuer_jwt !! 1%nat) (SdJwtError "Issuer-signed JWT is not compact JWS");
  bs ← lift_oid (fun e => SdJwtError ("Issuer JWT payload decode failed: " +:+ e)) (b64_decode segment);
  payload ← map_err (fun _ => SdJwtError "Issuer JWT payload is not unique JSON") (parse_unique_object bs "issuer JWT payload");
  let cnf := member "cnf" payload in
  _ ← validate_sd_jwt_confirmation cnf;
  jwk ← ok_or (cnf ≫= member "jwk") (SdJwtError "SD-JWT has no cnf.jwk for key binding");
  lift_oid (fun e => SdJwtError ("Invalid cnf.jwk: " +:+ e)) (jwk_from_value jwk).

(** [src/marty-oid4vci/src/formats/sd_jwt.rs:1244-1284] validate_key_binding_jwt, the verified claims *)
Definition check_binding_claims (claims : Value) (sd_jwt_without_kb : string) (expected_aud expected_nonce : option string) (now : Z) : result unit :=
  _ ← ensure (bool_decide (member "sd_hash" claims ≫= as_str = Some (b64_encode (sha256 sd_jwt_without_kb))))
        (SdJwtError "Key Binding JWT sd_hash does not bind this SD-JWT");
  _ ← match expected_aud with
      | Some expected => ensure (audience_matches claims expected) (SdJwtError "Key Binding JWT audience does not match the verifier")
      | None => Ok tt
      end;
  _ ← match expected_nonce with
      | Some expected => ensure (bool_decide (member "nonce" claims ≫= as_str = Some expected)) (SdJwtError "Key Binding JWT nonce does not match the request")
      | None => Ok tt
      end;
  issued_at ← ok_or (v ← member "iat" claims; match v with Number n => number_as_i64 n | _ => None end)
                (SdJwtError "Key Binding JWT is missing a numeric iat claim");
  ensure (key_binding_iat_is_fresh (timestamp now) issued_at) (SdJwtError "Key Binding JWT iat is outside the five-minute freshness window").

(** [src/marty-oid4vci/src/formats/sd_jwt.rs:1179-1287] validate_key_binding_jwt *)
Definition validate_key_binding_jwt (compact : string) (expected_aud expected_nonce : option string) (now : Z) : result unit :=
  let parts := pop_empty (str_split "~" compact) in
  _ ← ensure (negb (zlen parts <? 2)) (SdJwtError "Key Binding JWT is required when verifier context is supplied");
  kb_jwt ← expect (last parts);
  let parts := take (length parts - 1) parts in
  _ ← ensure (zlen (str_split "." kb_jwt) =? 3) (SdJwtError "Key Binding JWT is not compact JWS");
  issuer_jwt ← ok_or (head parts) (SdJwtError "SD-JWT is missing its issuer-signed JWT");
  holder_jwk ← confirmed_key issuer_jwt;
  alg ← lift_oid (fun e => SdJwtError ("Key Binding JWT header parse failed: " +:+ e)) (header_algorithm kb_jwt);
  key ← lift_oid (fun e => SdJwtError ("Key Binding JWK is unusable: " +:+ e)) (decoding_key holder_jwk);
  claims ← lift_oid (fun e => SdJwtError ("Key Binding JWT signature validation failed: " +:+ e)) (decode_claims kb_jwt key alg);
  check_binding_claims claims (join_sep "~" parts +:+ "~") expected_aud expected_nonce now.

(** [src/marty-oid4vci/src/formats/sd_jwt.rs:979-1015] verify_sd_jwt *)
Definition verify_sd_jwt (compact issuer_jwk_json : string) (expected_aud expected_nonce : option string) (now : Z) : result Value :=
  jwk ← lift_oid (fun e => KeyError ("Invalid issuer JWK: " +:+ e)) (jwk_from_text issuer_jwk_json);
  key ← lift_oid (fun e => KeyError ("Failed to create decoding key: " +:+ e)) (decoding_key jwk);
  verified_claims ← lift_oid (fun e => SdJwtError ("SD-JWT verification failed: " +:+ e)) (sd_jwt_verifier compact key expected_aud expected_nonce);
  _ ← (if bool_decide (is_Some expected_aud) || bool_decide (is_Some expected_nonce)
       then validate_key_binding_jwt compact expected_aud expected_nonce now else Ok tt);
  Ok verified_claims.
End presentation.
