(* ===== verification/SdJwtFacts.v ===== *)
(** * SD-JWT credentials: theorems (marty-oid4vci, [formats/sd_jwt.rs])

    The staged preparation of disclosures is the inline one, in whatever order the
    stages return their items; a credential that was issued can be presented with
    exactly the disclosures that are asked for; and what an accepted key-binding
    JWT means. *)

From stdpp Require Import pretty.
From S2P Require Import Prelude Des Governance GovernanceFacts PolicyService EvidencePolicy EvidencePolicyFacts Chain Issuance JwtVc Base64 JwtVcFacts SigningBatch SdJwt.
Local Open Scope string_scope.
Local Open Scope Z_scope.

#[local] Abbreviation bytes := (list Z).
#[local] Abbreviation JsonMap := (list (string * Value)).

(** ** Stages *)

Lemma sort_by_restores {A} (key : A -> Z) l l' :
  StronglySorted Z.lt (key <$> l) -> l' ≡ₚ l -> sort_by (fun a b => key a <=? key b) l' = l.
Proof.
  intros Hs Hp. assert (Hl : StronglySorted (fun a b => (key a <=? key b) = true) l).
  { clear Hp. induction l as [|a l IH]; [constructor|]. rewrite fmap_cons in Hs. inversion_clear Hs as [|? ? Hs' Ha].
    constructor; [by apply IH|]. apply (Forall_fmap key) in Ha. eapply Forall_impl; [exact Ha|]. intros b Hb. cbn in Hb. lia. }
  apply (StronglySorted_unique_strong (fun a b => (key a <=? key b) = true)); [|apply sort_by_sorted|done|by rewrite sort_by_perm].
  - intros a b Ha Hb Hab Hba. rewrite sort_by_perm, Hp in Ha. assert (He : key a = key b) by lia.
    apply list_elem_of_lookup in Ha as [i Hi], Hb as [j Hj].
    assert (i = j) as ->; [|congruence]. assert (Hn : NoDup (key <$> l)).
    { clear -Hs. induction Hs as [|x xs Hs IH Hx]; constructor; [|done]. intros Hin. rewrite Forall_forall in Hx. apply Hx in Hin. lia. }
    eapply NoDup_lookup; [exact Hn|by rewrite list_lookup_fmap, Hi|]. rewrite list_lookup_fmap, Hj. cbn. by rewrite He.
  - intros; lia.
  - intros; lia.
Qed.

Lemma strictly_increasing_sorted l : StronglySorted Z.lt l -> strictly_increasing l = true.
Proof.
  induction 1 as [|a l Hs IH Ha]; [done|]. destruct l as [|b l]; [done|]. cbn [strictly_increasing].
  apply andb_true_iff. split; [|exact IH]. apply Forall_cons in Ha as [Ha _]. lia.
Qed.

Lemma zip_fmap_eqb {A} (f : A -> Z) l : forallb (fun '(expected, item) => expected =? f item) (zip (f <$> l) l) = true.
Proof. induction l as [|a l IH]; [done|]. cbn. by rewrite Z.eqb_refl. Qed.

(** Items come back in the order of their ordinals, however they were permuted. *)
Lemma restore_permuted l l' : StronglySorted Z.lt (dd_ordinal <$> l) -> l' ≡ₚ l ->
  restore_sd_jwt_disclosures (mkStage (dd_ordinal <$> l) l') = Ok l.
Proof.
  intros Hs Hp. unfold restore_sd_jwt_disclosures. cbn [st_ordinals st_items].
  assert (Hl : (zlen (dd_ordinal <$> l) =? zlen l') = true).
  { apply Z.eqb_eq. unfold zlen. by rewrite length_fmap, Hp. }
  rewrite Hl, strictly_increasing_sorted by done. cbn [ensure mbind res_bind].
  by rewrite (sort_by_restores dd_ordinal l l' Hs Hp), zip_fmap_eqb.
Qed.

Lemma plan_loop_ordinals names : forall target ordinal salt drawn,
  StronglySorted Z.lt (pd_ordinal <$> (plan_loop target ordinal names salt drawn).2) /\
  Forall (fun p => ordinal <= pd_ordinal p) (plan_loop target ordinal names salt drawn).2.
Proof.
  induction names as [|name names IH]; intros target ordinal salt drawn; cbn [plan_loop]; [split; constructor|].
  unfold plan_sd_jwt_disclosure. destruct (map_get name target) as [v|]; cbn [mbind option_bind].
  - destruct (IH (map_remove name target) (ordinal + 1) salt (S drawn)) as [Hs Hf]. destruct (plan_loop _ _ _ _ _) as [t items]. cbn [snd] in *.
    split.
    + rewrite fmap_cons. constructor; [done|]. apply Forall_fmap. eapply Forall_impl; [exact Hf|]. intros p Hp. cbn in *. lia.
    + constructor; [cbn; lia|]. eapply Forall_impl; [exact Hf|]. intros p Hp. cbn in *. lia.
  - destruct (IH target (ordinal + 1) salt drawn) as [Hs Hf]. split; [done|]. eapply Forall_impl; [exact Hf|]. intros p Hp. cbn in *. lia.
Qed.

Section stages.
Context `{Base64Url} `{JsonCodec} `{Sha256}.

(** The oracle of the unit tests: one selector after the other. *)
Fixpoint inline_disclosures (target : JsonMap) (names : list string) (salt : nat -> bytes) (drawn : nat) :
    res Oid4vciError (JsonMap * list (string * string)) :=
  match names with
  | [] => Ok (target, [])
  | name :: names =>
      match map_get name target with
      | None => inline_disclosures target names salt drawn
      | Some value =>
          json ← lift_oid (fun e => SdJwtError ("Disclosure serialization failed: " +:+ e))
                   (json_to_string (Array [VString (b64_encode (salt drawn)); VString name; value]));
          let disclosure := b64_encode (str_bytes json) in
          '(target, rest) ← inline_disclosures (map_remove name target) names salt (S drawn);
          Ok (target, (disclosure, b64_encode (sha256 disclosure)) :: rest)
      end
  end.
Definition add_hashes (hashes : list string) (target : JsonMap) : JsonMap :=
  match hashes with [] => target | _ => map_insert "_sd" (Array (VString <$> hashes)) target end.
Definition inline_disclosure_oracle (target : JsonMap) (names : list string) (salt : nat -> bytes) : res Oid4vciError (JsonMap * list string) :=
  '(target, ds) ← inline_disclosures target names salt 0; Ok (add_hashes ds.*2 target, ds.*1).

Definition disclosed_pair (e : EncodedSdJwtDisclosure) : string * string := (ed_disclosure e, b64_encode (sha256 (ed_disclosure e))).

Lemma encode_items_Ok items : forall es, encode_items items = Ok es <-> Forall2 (fun p e => encode_sd_jwt_disclosure p = Ok e) items es.
Proof.
  induction items as [|p items IH]; intros es; cbn [encode_items].
  - split; [intros [= <-]; constructor|by inversion 1].
  - split.
    + intros Hx. res_inv. constructor; [done|by apply IH].
    + inversion_clear 1 as [|? e ? rest He Hr]. rewrite He. cbn [mbind res_bind]. by rewrite (proj2 (IH rest) Hr).
Qed.

Lemma encode_ordinal p e : encode_sd_jwt_disclosure p = Ok e -> ed_ordinal e = pd_ordinal p.
Proof. unfold encode_sd_jwt_disclosure. intros He. res_inv. by simplify_eq/=. Qed.

Lemma encode_items_ordinals items es : encode_items items = Ok es -> ed_ordinal <$> es = pd_ordinal <$> items.
Proof.
  rewrite encode_items_Ok. induction 1 as [|p e items es He _ IH]; [done|]. rewrite !fmap_cons, IH. by rewrite (encode_ordinal _ _ He).
Qed.

Definition staged_pairs (t : JsonMap) (items : list PlannedSdJwtDisclosure) : res Oid4vciError (JsonMap * list (string * string)) :=
  es ← encode_items items; Ok (t, (disclosed_pair <$> es : list (string * string))).

Lemma plan_encode_inline names : forall target ordinal salt drawn,
  inline_disclosures target names salt drawn =
  let '(t, items) := plan_loop target ordinal names salt drawn in staged_pairs t items.
Proof.
  unfold staged_pairs.
  induction names as [|name names IH]; intros target ordinal salt drawn; cbn [plan_loop inline_disclosures]; [done|].
  unfold plan_sd_jwt_disclosure. destruct (map_get name target) as [v|]; cbn [mbind option_bind]; [|apply IH].
  rewrite (IH _ (ordinal + 1)). destruct (plan_loop (map_remove name target) (ordinal + 1) names salt (S drawn)) as [t items].
  cbn [fst snd encode_items]. unfold encode_sd_jwt_disclosure. cbn [pd_salt pd_claim_name pd_claim_value pd_ordinal].
  destruct (json_to_string _) as [e|json]; [done|]. cbn [lift_oid mbind res_bind]. by destruct (encode_items items).
Qed.

Lemma assemble_restored target l l' : StronglySorted Z.lt (dd_ordinal <$> l) -> l' ≡ₚ l ->
  assemble_sd_jwt_disclosures target (mkStage (dd_ordinal <$> l) l') = Ok (add_hashes (dd_digest <$> l) target, dd_disclosure <$> l).
Proof.
  intros Hs Hp. unfold assemble_sd_jwt_disclosures. rewrite (restore_permuted _ _ Hs Hp). cbn [mbind res_bind].
  rewrite length_fmap, list_fmap_compose. by destruct l.
Qed.

Lemma digest_pairs es : dd_digest <$> (digest_sd_jwt_disclosure <$> es) = (disclosed_pair <$> es).*2 /\
  dd_disclosure <$> (digest_sd_jwt_disclosure <$> es) = (disclosed_pair <$> es).*1 /\
  dd_ordinal <$> (digest_sd_jwt_disclosure <$> es) = ed_ordinal <$> es.
Proof. rewrite <- !list_fmap_compose. done. Qed.

(** C21: The staged preparation of disclosures is the inline one: planning, encoding,
    digesting and assembling give the object, the digests and the disclosures of
    the one-pass oracle, with its first error; and the encoded and digested items
    may come back in any order. *)
Theorem sd_jwt_stages_exact target names salt :
  (x ← prepare_sd_jwt_disclosures target names salt; assemble_sd_jwt_disclosures (fst x) (snd x))
    = inline_disclosure_oracle target names salt /\
  forall t digested items, prepare_sd_jwt_disclosures target names salt = Ok (t, digested) -> items ≡ₚ st_items digested ->
    assemble_sd_jwt_disclosures t (mkStage (st_ordinals digested) items) = inline_disclosure_oracle target names salt.
Proof.
  unfold prepare_sd_jwt_disclosures, plan_sd_jwt_disclosures, inline_disclosure_oracle.
  destruct (plan_loop_ordinals names target 0 salt 0) as [Hs _]. rewrite (plan_encode_inline names target 0).
  destruct (plan_loop target 0 names salt 0) as [t0 planned]. cbn [fst snd] in *. unfold staged_pairs.
  unfold encode_sd_jwt_disclosures. cbn [st_items st_ordinals].
  destruct (encode_items planned) as [es| |] eqn:He; cbn [mbind res_bind]; [|split; done..].
  assert (Hall : forall items, items ≡ₚ (digest_sd_jwt_disclosure <$> es) ->
    assemble_sd_jwt_disclosures t0 (mkStage (pd_ordinal <$> planned) items) =
      Ok (add_hashes (disclosed_pair <$> es).*2 t0, (disclosed_pair <$> es).*1)).
  { intros items Hp. destruct (digest_pairs es) as (H1' & H2' & H3'). rewrite <- (encode_items_ordinals _ _ He), <- H3', <- H1', <- H2'.
    apply assemble_restored; [|done]. by rewrite H3', (encode_items_ordinals _ _ He). }
  split; [by apply Hall|]. intros t digested items [= <- <-] Hp. by apply Hall.
Qed.
End stages.

(** ** Structural markers *)

Fixpoint has_marker (v : Value) : bool :=
  match v with
  | Object es => existsb (fun e => one_of (fst e) SD_JWT_STRUCTURAL_MARKERS) es || existsb (fun e => has_marker (snd e)) es
  | Array l => existsb has_marker l
  | _ => false
  end.

Lemma existsb_reverse {A} (f : A -> bool) l : existsb f (reverse l) = existsb f l.
Proof.
  induction l as [|a l IH]; [done|]. rewrite reverse_cons, existsb_app, IH. cbn [existsb]. by rewrite orb_false_r, orb_comm.
Qed.

Lemma existsb_fmap {A B} (f : B -> bool) (g : A -> B) l : existsb f (g <$> l) = existsb (fun a => f (g a)) l.
Proof. induction l as [|a l IH]; [done|]. cbn. by rewrite IH. Qed.

Lemma weight_reverse {A} (w : A -> nat) l : list_sum (map w (reverse l)) = list_sum (map w l).
Proof. induction l as [|a l IH]; [done|]. rewrite reverse_cons, map_app, list_sum_app, IH. cbn [map list_sum foldr]. unfold list_sum. cbn [map foldr]. lia. Qed.

Lemma marker_loop_spec fuel : forall pending, (list_sum (map value_weight pending) <= fuel)%nat -> marker_loop fuel pending = existsb has_marker pending.
Proof.
  induction fuel as [|fuel IH]; intros [|v pending] Hw; try done.
  { exfalso. cbn [map list_sum foldr] in Hw. destruct v; cbn [value_weight] in Hw; lia. }
  change (list_sum (map value_weight (v :: pending))) with (value_weight v + list_sum (map value_weight pending))%nat in Hw.
  destruct v as [| | | |l|es]; cbn [marker_loop existsb has_marker orb]; try (apply IH; cbn [value_weight] in Hw; lia).
  - cbn [value_weight] in Hw. rewrite IH; [by rewrite existsb_app, existsb_reverse|]. rewrite map_app, list_sum_app, weight_reverse. lia.
  - destruct (existsb (fun e => one_of e.1 SD_JWT_STRUCTURAL_MARKERS) es); [done|]. cbn [orb]. cbn [value_weight] in Hw.
    rewrite IH; [by rewrite existsb_app, existsb_reverse, existsb_fmap|]. rewrite map_app, list_sum_app, weight_reverse, map_map. lia.
Qed.

(** The loop over pending values has enough fuel: it finds a reserved member at
    any depth. *)
Lemma structural_marker_exact v : contains_sd_jwt_structural_marker v = has_marker v.
Proof. unfold contains_sd_jwt_structural_marker. rewrite marker_loop_spec; [cbn; by rewrite orb_false_r|]. cbn. lia. Qed.

(** ** Segments *)

Definition has_char (c : ascii) (s : string) : bool := existsb (Ascii.eqb c) (String.list_ascii_of_string s).

(** What base64url text never holds. *)
Class Base64Tilde (B : Base64Url) : Prop := b64_no_tilde : forall bs, has_char "~" (b64_encode bs) = false.

Lemma has_char_cons c a s : has_char c (String a s) = Ascii.eqb c a || has_char c s.
Proof. done. Qed.

Lemma has_dot_char s : has_dot s = false -> has_char "." s = false.
Proof.
  unfold has_dot. induction s as [|a s IH]; intros Hs; [done|]. apply bool_decide_eq_false in Hs. cbn [split_once_dot] in Hs.
  rewrite has_char_cons. rewrite Ascii.eqb_sym. destruct (Ascii.eqb a "."); [destruct Hs; eauto|]. apply IH. apply bool_decide_eq_false.
  intros [[x y] Hx]. apply Hs. rewrite Hx. eauto.
Qed.

Lemma has_char_app c s t : has_char c (s +:+ t) = has_char c s || has_char c t.
Proof.
  induction s as [|a s IH]; [done|]. change (String a s +:+ t) with (String a (s +:+ t)). rewrite !has_char_cons, IH. by rewrite orb_assoc.
Qed.

Lemma str_split_none c s : has_char c s = false -> str_split c s = [s].
Proof.
  induction s as [|a s IH]; [done|]. rewrite has_char_cons. intros [Ha Hs]%orb_false_iff. cbn [str_split].
  rewrite Ascii.eqb_sym, Ha. by rewrite IH.
Qed.

Lemma str_split_app c s t : has_char c s = false -> str_split c (s +:+ String c t) = s :: str_split c t.
Proof.
  induction s as [|a s IH]; intros Hs.
  - change ("" +:+ String c t) with (String c t). cbn [str_split]. by rewrite Ascii.eqb_refl.
  - rewrite has_char_cons in Hs. apply orb_false_iff in Hs as [Ha Hs]. change (String a s +:+ String c t) with (String a (s +:+ String c t)).
    cbn [str_split]. rewrite Ascii.eqb_sym, Ha. by rewrite IH.
Qed.

Lemma str_split_disclosures ds : Forall (fun d => has_char "~" d = false) ds -> ds <> [] -> str_split "~" (join_sep "~" ds +:+ "~") = (ds ++ [""])%list.
Proof.
  induction 1 as [|d ds Hd Hds IH]; [done|]. intros _. destruct ds as [|e ds].
  - cbn [join_sep]. by rewrite (str_split_app "~" d "").
  - change (join_sep "~" (d :: e :: ds)) with (d +:+ "~" +:+ join_sep "~" (e :: ds)). rewrite append_assoc.
    change (("~" +:+ join_sep "~" (e :: ds)) +:+ "~") with (String "~" (join_sep "~" (e :: ds) +:+ "~")). rewrite str_split_app by done.
    by rewrite IH.
Qed.

Lemma str_split_compact jwt ds : has_char "~" jwt = false -> Forall (fun d => has_char "~" d = false) ds ->
  str_split "~" (jwt +:+ disclosures_suffix ds) = (jwt :: ds ++ [""])%list.
Proof.
  intros Hj Hds. destruct ds as [|d ds].
  - cbn [disclosures_suffix]. by rewrite (str_split_app "~" jwt "").
  - cbn [disclosures_suffix]. change ("~" +:+ join_sep "~" (d :: ds) +:+ "~") with (String "~" (join_sep "~" (d :: ds) +:+ "~")).
    rewrite str_split_app by done. by rewrite str_split_disclosures.
Qed.

Lemma pop_empty_last l : Forall (fun s => s <> "") l -> pop_empty (l ++ [""])%list = l.
Proof.
  unfold pop_empty. induction 1 as [|a l Ha _ IH]; [done|]. cbn [foldr app]. rewrite IH. destruct l; [|done].
  by rewrite (proj2 (String.eqb_neq _ _) Ha).
Qed.

(** ** Values read from text *)

Lemma insert_all es : forall m : JsonMap, NoDup (m.*1 ++ es.*1)%list -> foldl (fun m e => map_insert (fst e) (snd e) m) m es = (m ++ es)%list.
Proof.
  induction es as [|[k v] es IH]; intros m Hn; cbn [foldl fst snd]; [by rewrite app_nil_r|].
  assert (Hins : map_insert k v m = (m ++ [(k, v)])%list).
  { assert (Hk : k ∉ m.*1) by (apply NoDup_app in Hn as (_ & Hd & _); intros Hin; eapply Hd; [exact Hin|]; cbn; left).
    clear -Hk. induction m as [|[j w] m IH]; [done|]. rewrite fmap_cons, not_elem_of_cons in Hk. cbn [map_insert app]. destruct Hk as [Hj Hk].
    rewrite (proj2 (String.eqb_neq _ _)) by (cbn in Hj; congruence). by rewrite IH. }
  rewrite Hins, IH; [by rewrite <- app_assoc|]. rewrite fmap_app, <- app_assoc. done.
Qed.

Lemma last_members_unique v : unique_members v = true -> last_members v = v.
Proof.
  induction v as [v IH] using value_weight_ind. destruct v as [| | | |l|es]; try done; cbn [unique_members last_members].
  - rewrite forallb_forall. intros Hl. f_equal. rewrite <- (map_id l) at 2. apply map_ext_in. intros w Hw.
    apply IH; [|by apply Hl]. by apply value_weight_array, list_elem_of_In.
  - rewrite andb_true_iff, bool_decide_eq_true, forallb_forall. intros [Hn Hes]. f_equal.
    assert (Hm : map (fun e => (e.1, last_members e.2)) es = es).
    { rewrite <- (map_id es) at 2. apply map_ext_in. intros [k w] Hw. cbn [fst snd]. f_equal.
      apply IH; [|by apply (Hes (k, w))]. by eapply value_weight_object, list_elem_of_In. }
    rewrite Hm. by rewrite insert_all.
Qed.

Lemma unique_object m : unique_members (Object m) = true <-> NoDup m.*1 /\ forall k v, (k, v) ∈ m -> unique_members v = true.
Proof.
  cbn [unique_members]. rewrite andb_true_iff, bool_decide_eq_true, forallb_forall. setoid_rewrite <- list_elem_of_In. split.
  - intros [Hn Hm]. split; [done|]. intros k v Hkv. by apply (Hm (k, v)).
  - intros [Hn Hm]. split; [done|]. intros [k v] Hkv. by eapply Hm.
Qed.

Lemma unique_remove key m : unique_members (Object m) = true -> unique_members (Object (map_remove key m)) = true.
Proof.
  rewrite !unique_object. intros [Hn Hm]. split; [by apply map_remove_NoDup|]. intros k v Hkv. apply (Hm k).
  destruct (map_remove_perm key m) as [[w Hp]| He]; [|by rewrite He in Hkv]. rewrite Hp. by right.
Qed.

Lemma map_get_removed key m : NoDup m.*1 -> map_get key (map_remove key m) = None.
Proof.
  intros Hn. apply eq_None_not_Some. rewrite map_get_keys. destruct (map_remove_perm key m) as [[v Hp]| He].
  - rewrite Hp in Hn. by apply NoDup_cons in Hn as [Hk _].
  - rewrite He. intros Hin. unfold map_remove in He. apply map_get_keys in Hin as [v Hv].
    destruct (position_of key m) as [i|] eqn:Hi.
    + apply position_of_Some in Hi as [w Hi]. destruct (last m) as [e|] eqn:Hl.
      * apply (f_equal length) in He. rewrite length_take, length_insert in He. apply lookup_lt_Some in Hi. lia.
      * by destruct m as [|x m _] using rev_ind; [|rewrite last_snoc in Hl].
    + clear -Hi Hv. induction m as [|[k w] m IH]; [done|]. cbn [position_of map_get] in *. destruct (String.eqb k key); [done|].
      destruct (position_of key m); [done|]. by apply IH.
Qed.

Lemma unique_claims es : forall m, unique_members (Object m) = true -> unique_members (Object es) = true ->
  unique_members (Object (insert_claims es m)) = true.
Proof.
  unfold insert_claims. induction es as [|[k v] es IH]; intros m Hm Hes; cbn [foldl fst snd]; [done|].
  apply unique_object in Hes as [Hn Hv]. apply IH.
  - apply unique_insert; [done|]. apply (Hv k). by left.
  - apply unique_object. split; [by apply NoDup_cons in Hn as [_ ?]|]. intros k' v' Hkv. apply (Hv k'). by right.
Qed.

(** ** What planning takes out of an object *)

Lemma plan_loop_items names : forall target ordinal salt drawn, unique_members (Object target) = true ->
  let '(t, items) := plan_loop target ordinal names salt drawn in
  unique_members (Object t) = true /\ NoDup (pd_claim_name <$> items) /\
  Forall (fun p => pd_claim_name p ∈ names /\ map_get (pd_claim_name p) target = Some (pd_claim_value p)) items /\
  (forall name v, name ∈ names -> map_get name target = Some v -> name ∈ pd_claim_name <$> items) /\
  (forall name, map_get name t = if bool_decide (name ∈ names) then None else map_get name target).
Proof.
  induction names as [|name names IH]; intros target ordinal salt drawn Hu; cbn [plan_loop].
  { split_and!; [done|constructor|constructor|by intros ? ? ?%elem_of_nil|done]. }
  pose proof (proj1 (unique_object _) Hu) as [Hn _]. unfold plan_sd_jwt_disclosure.
  destruct (map_get name target) as [v|] eqn:Hv; cbn [mbind option_bind].
  - specialize (IH (map_remove name target) (ordinal + 1) salt (S drawn) (unique_remove _ _ Hu)).
    destruct (plan_loop _ _ _ _ _) as [t items]. destruct IH as (Ht & Hd & Hf & Hc & Ho).
    assert (Hsub : forall p, p ∈ items -> pd_claim_name p <> name).
    { rewrite Forall_forall in Hf. intros p Hp <-. apply Hf in Hp as (_ & Hp). by rewrite map_get_removed in Hp. }
    split_and!.
    + done.
    + rewrite fmap_cons. constructor; [|done]. cbn. intros (p & He & Hp)%list_elem_of_fmap. by apply (Hsub p).
    + constructor; [cbn; split; [by left|done]|]. apply Forall_forall. intros p Hp. rewrite Forall_forall in Hf. destruct (Hf p Hp) as [Hin Hg].
      split; [by right|]. rewrite map_get_remove in Hg; [done|done|]. intros ->. by apply (Hsub p).
    + intros k w Hk Hw. rewrite fmap_cons. apply elem_of_cons. destruct (decide (k = name)) as [-> |Hne]; [by left|right].
      apply elem_of_cons in Hk as [Hk|Hk]; [done|]. eapply Hc; [done|]. by rewrite map_get_remove.
    + intros k. rewrite Ho. destruct (decide (k = name)) as [-> |Hne].
      * rewrite (bool_decide_eq_true_2 (name ∈ name :: names)) by by left. rewrite map_get_removed by done. by case_bool_decide.
      * rewrite (map_get_remove _ _ _ Hn) by done. do 2 case_bool_decide; set_solver.
  - specialize (IH target (ordinal + 1) salt drawn Hu). destruct (plan_loop _ _ _ _ _) as [t items]. destruct IH as (Ht & Hd & Hf & Hc & Ho).
    split_and!; [done|done| | |].
    + eapply Forall_impl; [exact Hf|]. intros p [Hin Hg]. split; [by right|done].
    + intros k w [-> |Hk]%elem_of_cons Hw; [congruence|by eapply Hc].
    + intros k. rewrite Ho. destruct (decide (k = name)) as [-> |Hne]; [rewrite Hv; by do 2 case_bool_decide|].
      do 2 case_bool_decide; set_solver.
Qed.

(** ** The payload that is signed *)

(** A digest that the object of the disclosures lists. *)
Definition lists_digest (payload : Value) (target : SdJwtDisclosureTarget) (digest : string) : Prop := exists object values,
  sd_jwt_disclosure_target payload target = Ok object /\ map_get "_sd" object = Some (Array values) /\ VString digest ∈ values.

Lemma lists_digest_collected payload target digest : lists_digest payload target digest -> digest ∈ collect_hashes payload.
Proof.
  intros (object & values & Ht & Hsd & Hin).
  assert (Ho : digest ∈ collect_hashes (Object object)).
  { cbn [collect_hashes]. rewrite Hsd. apply elem_of_app. left. apply list_elem_of_omap. by exists (VString digest). }
  destruct target; cbn [sd_jwt_disclosure_target] in Ht; apply ok_or_Ok in Ht.
  - destruct payload; try done. cbn in Ht. by injection Ht as ->.
  - destruct payload as [| | | | |m]; try done. cbn [as_object mbind option_bind] in Ht.
    destruct (map_get "credentialSubject" m) as [w|] eqn:Hw; [|done]. cbn [mbind option_bind] in Ht. destruct w; try done. injection Ht as ->.
    apply map_get_elem in Hw. cbn [collect_hashes]. apply elem_of_app. right. apply elem_of_concat_fmap. by exists ("credentialSubject", Object object).
Qed.

Lemma lists_digest_insert key v m target digest : key <> "_sd" -> key <> "credentialSubject" ->
  lists_digest (Object m) target digest -> lists_digest (Object (map_insert key v m)) target digest.
Proof.
  intros H1 H2 (object & values & Ht & Hsd & Hin). destruct target; cbn [sd_jwt_disclosure_target] in Ht; apply ok_or_Ok in Ht.
  - cbn in Ht. injection Ht as <-. exists (map_insert key v m), values. split_and!; [done| |done].
    by rewrite map_get_insert, (proj2 (String.eqb_neq _ _) H1).
  - exists object, values. split_and!; [|done|done]. cbn [sd_jwt_disclosure_target as_object mbind option_bind] in *.
    by rewrite map_get_insert, (proj2 (String.eqb_neq _ _) H2), Ht.
Qed.

(** The name is no member of the object of the disclosures. *)
Definition hides (payload : Value) (target : SdJwtDisclosureTarget) (name : string) : Prop :=
  exists object, sd_jwt_disclosure_target payload target = Ok object /\ map_get name object = None.

Lemma hides_insert key v m target name : (target = TopLevel -> key <> name) -> key <> "credentialSubject" ->
  hides (Object m) target name -> hides (Object (map_insert key v m)) target name.
Proof.
  intros H1 H2 (object & Ht & Hn). destruct target; cbn [sd_jwt_disclosure_target] in Ht; apply ok_or_Ok in Ht.
  - cbn in Ht. injection Ht as <-. exists (map_insert key v m). split; [done|]. by rewrite map_get_insert, (proj2 (String.eqb_neq _ _) (H1 eq_refl)).
  - exists object. split; [|done]. cbn [sd_jwt_disclosure_target as_object mbind option_bind] in *.
    by rewrite map_get_insert, (proj2 (String.eqb_neq _ _) H2), Ht.
Qed.

Lemma target_changed payload target object object' :
  sd_jwt_disclosure_target payload target = Ok object ->
  sd_jwt_disclosure_target (with_disclosure_target payload target object') target = Ok object'.
Proof.
  destruct target; cbn [sd_jwt_disclosure_target with_disclosure_target]; intros Ht%ok_or_Ok; [done|].
  destruct payload; try done. cbn [as_object mbind option_bind] in *. by rewrite map_get_insert, String.eqb_refl.
Qed.

Lemma target_object payload target object : sd_jwt_disclosure_target payload target = Ok object -> exists m, payload = Object m.
Proof. destruct target; intros Ht%ok_or_Ok; destruct payload; try done; eauto. Qed.

Lemma target_unique payload target object : sd_jwt_disclosure_target payload target = Ok object ->
  unique_members payload = true -> unique_members (Object object) = true.
Proof.
  destruct target; intros Ht%ok_or_Ok Hu; destruct payload as [| | | | |m]; try done; cbn [as_object mbind option_bind] in Ht; [by injection Ht as ->|].
  destruct (map_get "credentialSubject" m) as [w|] eqn:Hw; [|done]. cbn [mbind option_bind] in Ht. destruct w; try done. injection Ht as ->.
  apply map_get_elem in Hw. apply unique_object in Hu as [_ Hu]. by eapply Hu.
Qed.

Lemma changed_unique payload target object : unique_members payload = true -> unique_members (Object object) = true ->
  unique_members (with_disclosure_target payload target object) = true.
Proof. destruct target; cbn [with_disclosure_target]; intros Hp Ho; [done|]. destruct payload; try done. by apply unique_insert. Qed.

Section signed.
Context `{Base64Url} `{JsonCodec} `{JwtLib} `{SignerLib} `{IssueClock} `{TimestampLib} `{Sha256}.

(** The members that follow the digests. *)
Lemma trailer_lists m (nbf : bool) v conf (ds ds' : list string) payload target :
  (p ← (if nbf then index_set "nbf" v (Object m) else Ok (Object m));
   p ← match conf with Some c => index_set "cnf" c p | None => Ok p end; Ok (p, ds)) = Ok (payload, ds') ->
  unique_members (Object m) = true -> unique_members v = true -> (forall c, conf = Some c -> unique_members c = true) ->
  ds' = ds /\ unique_members payload = true /\ (forall digest, lists_digest (Object m) target digest -> lists_digest payload target digest) /\
  forall name, (target = TopLevel -> name ∉ ["nbf"; "cnf"]) -> hides (Object m) target name -> hides payload target name.
Proof.
  intros Hp Hu Hv Hc. destruct nbf; cbn [index_set mbind res_bind] in Hp; destruct conf as [c|]; cbn [index_set mbind res_bind] in Hp;
    injection Hp as <- <-; (split_and!; [done|repeat apply unique_insert; auto| |]);
    try (intros digest Hl; repeat (apply lists_digest_insert; [done..|]); done);
    intros name Hn Hh; repeat (apply hides_insert; [intros Htop; specialize (Hn Htop); set_solver|done|]); done.
Qed.

(** The payload of a batch that was planned from its object. *)
Lemma payload_of_planned planned object names salt t digested es payload ds :
  sd_jwt_disclosure_target (pl_payload planned) (pl_target planned) = Ok object ->
  plan_loop object 0 names salt 0 = (t, digested) -> encode_items digested = Ok es ->
  unique_members (pl_payload planned) = true -> (forall c, so_confirmation (pl_options planned) = Some c -> unique_members c = true) ->
  sd_jwt_payload_of (mkPlannedSdJwt (pl_credential_id planned) (pl_issued_at planned)
      (with_disclosure_target (pl_payload planned) (pl_target planned) t) (pl_target planned) (pl_options planned))
    (digest_sd_jwt_disclosures (mkStage (pd_ordinal <$> digested) es)) = Ok (payload, ds) ->
  ds = ed_disclosure <$> es /\ unique_members payload = true /\
  Forall (fun d => lists_digest payload (pl_target planned) (b64_encode (sha256 d))) ds /\
  forall name, map_get name t = None -> name ∉ ["_sd"; "_sd_alg"] -> (pl_target planned = TopLevel -> name ∉ ["nbf"; "cnf"]) ->
    hides payload (pl_target planned) name.
Proof.
  intros Ht Hplan He Hu Hc Hp. pose proof (target_unique _ _ _ Ht Hu) as Huo.
  pose proof (plan_loop_items names object 0 salt 0 Huo) as Hitems. pose proof (plan_loop_ordinals names object 0 salt 0) as [Hs _].
  rewrite Hplan in Hitems, Hs. destruct Hitems as (Hut & _). cbn [snd] in Hs.
  pose proof (target_changed _ _ _ t Ht) as Ht'. pose proof (changed_unique _ (pl_target planned) _ Hu Hut) as Hu'.
  unfold sd_jwt_payload_of in Hp. cbn [pl_payload pl_target pl_options pl_issued_at] in Hp.
  destruct es as [|e es].
  - apply encode_items_Ok in He. inversion He; subst. cbn [stage_is_empty digest_sd_jwt_disclosures st_ordinals st_items fmap list_fmap length Nat.eqb andb] in Hp.
    cbn [mbind res_bind] in Hp. destruct (target_object _ _ _ Ht') as [m Hm]. rewrite Hm in *.
    eapply (trailer_lists _ _ _ _ _ _ _ (pl_target planned)) in Hp as (-> & Hup & _ & Hhide); [|done..].
    split_and!; [done|done|constructor|]. intros name Hn _ Htop. apply Hhide; [done|]. by exists t.
  - assert (Hne : stage_is_empty (digest_sd_jwt_disclosures (mkStage (pd_ordinal <$> digested) (e :: es))) = false).
    { apply encode_items_Ok in He. inversion He; subst. done. }
    rewrite Hne, Ht' in Hp. cbn [mbind res_bind] in Hp. unfold digest_sd_jwt_disclosures in Hp. cbn [st_ordinals st_items] in Hp.
    destruct (digest_pairs (e :: es)) as (Hd1 & Hd2 & Hd3). rewrite <- (encode_items_ordinals _ _ He), <- Hd3 in Hp, Hs.
    rewrite assemble_restored in Hp by done. cbn [mbind res_bind] in Hp. rewrite Hd1, Hd2 in Hp.
    set (object' := add_hashes (disclosed_pair <$> e :: es).*2 t) in *.
    assert (Huo' : unique_members (Object object') = true) by (apply unique_insert; [done|apply unique_strings]).
    pose proof (target_changed _ _ _ object' Ht') as Ht''. pose proof (changed_unique _ (pl_target planned) _ Hu' Huo') as Hu''.
    destruct (target_object _ _ _ Ht'') as [m Hm]. rewrite Hm in *.
    change (((disclosed_pair <$> e :: es).*1)%list) with (ed_disclosure e :: (disclosed_pair <$> es).*1)%list in Hp. cbn beta iota in Hp.
    eapply (trailer_lists _ _ _ _ _ _ _ (pl_target planned)) in Hp as (-> & Hup & Hl & Hhide); [|by apply unique_insert|done|done].
    assert (Hds : (ed_disclosure e :: (disclosed_pair <$> es).*1)%list = ed_disclosure <$> e :: es) by (rewrite fmap_cons; by rewrite <- list_fmap_compose).
    rewrite Hds. split_and!; [done|done| |].
    2: { intros name Hn Hm2 Htop. apply Hhide; [done|]. apply hides_insert; [intros _; set_solver|done|]. exists object'. split; [done|].
         unfold object'. cbn [add_hashes fmap list_fmap]. rewrite map_get_insert. rewrite (proj2 (String.eqb_neq _ _)) by set_solver. done. }
    apply Forall_forall. intros d (x & -> & Hx)%list_elem_of_fmap. apply Hl.
    apply lists_digest_insert; [done..|]. exists object', (VString <$> (disclosed_pair <$> e :: es).*2). split_and!; [done| |].
    + unfold object'. cbn [add_hashes fmap list_fmap]. by rewrite map_get_insert, String.eqb_refl.
    + apply list_elem_of_fmap. exists (b64_encode (sha256 (ed_disclosure x))). split; [done|]. rewrite <- list_fmap_compose.
      apply list_elem_of_fmap. by exists x.
Qed.
End signed.

(** ** Presenting what was issued *)

Section present.
Context `{Base64Url} `{JsonCodec} `{JwtLib} `{!SdJwtLib} `{Sha256}.

Lemma available_loop_all hashes l : forall available,
  Forall (fun x => disclosure_field x.2 = Ok x.1 /\ b64_encode (sha256 x.2) ∈ hashes) l -> NoDup l.*1 -> Forall (fun name => available !! name = None) l.*1 ->
  available_loop hashes available l.*2 = Ok (list_to_map l ∪ available).
Proof.
  induction l as [|[name d] l IH]; intros available Hf Hn Ha; cbn [fmap list_fmap fst snd] in *; cbn [available_loop].
  { cbn [list_to_map foldr]. by rewrite map_empty_union. }
  apply Forall_cons in Hf as [[Hfd Hh] Hf]. cbn [fst snd] in *. apply NoDup_cons in Hn as [Hni Hn]. apply Forall_cons in Ha as [Hna Ha].
  rewrite Hfd. cbn [mbind res_bind]. rewrite bool_decide_eq_true_2 by done. cbn [ensure mbind res_bind]. rewrite bool_decide_eq_true_2 by done.
  cbn [ensure mbind res_bind]. rewrite IH; [|done|done|].
  - f_equal. cbn [list_to_map foldr fst snd]. rewrite <- insert_union_l. symmetry. apply insert_union_r. by apply not_elem_of_list_to_map_1.
  - apply Forall_forall. intros k Hk. rewrite Forall_forall in Ha. rewrite lookup_insert_ne; [by apply Ha|]. intros ->. done.
Qed.

Lemma selected_loop_Ok available fields : forall requested ds, selected_loop available requested fields = Ok ds <->
  NoDup fields /\ Forall (fun f => f ∉ requested) fields /\ Forall2 (fun f d => available !! f = Some d) fields ds.
Proof.
  induction fields as [|f fields IH]; intros requested ds; cbn [selected_loop].
  - split; [intros [= <-]; split_and!; constructor|]. intros (_ & _ & Hf). by inversion Hf.
  - split.
    + intros Hs. res_inv. breflect. match goal with Hx : selected_loop _ _ _ = Ok _ |- _ => apply IH in Hx as (Hn & Hr & Hf) end. subst.
      rewrite Forall_forall in Hr. split_and!.
      * constructor; [|done]. intros Hin. apply Hr in Hin. set_solver.
      * constructor; [done|]. apply Forall_forall. intros g Hg. apply Hr in Hg. set_solver.
      * by constructor.
    + intros (Hn & Hr & Hf). apply NoDup_cons in Hn as [Hni Hn]. apply Forall_cons in Hr as [Hfr Hr]. inversion_clear Hf as [|? d ? rest Hd Hrest].
      rewrite bool_decide_eq_false_2 by done. cbn [negb ensure mbind res_bind]. rewrite Hd. cbn [ok_or mbind res_bind].
      rewrite (proj2 (IH ({[f]} ∪ requested) rest)); [done|]. split_and!; [done| |done]. rewrite Forall_forall in Hr. apply Forall_forall.
      intros g Hg. specialize (Hr g Hg). assert (g <> f) by congruence. set_solver.
Qed.

Context `{!Base64Laws _} `{!Base64Text _} `{!Base64Tilde _} `{!JsonCodecLaws _}.

(** A disclosure that was encoded, read back. *)
Lemma encoded_disclosure p e : encode_sd_jwt_disclosure p = Ok e -> unique_members (pd_claim_value p) = true ->
  disclosure_field (ed_disclosure e) = Ok (pd_claim_name p) /\ ed_disclosure e <> "" /\
  has_char "~" (ed_disclosure e) = false /\ has_char "." (ed_disclosure e) = false.
Proof.
  unfold encode_sd_jwt_disclosure. intros He Hu. destruct (json_to_string _) as [x|json] eqn:Hj; [done|]. cbn [lift_oid mbind res_bind] in He.
  injection He as <-. cbn [ed_disclosure]. apply json_read_written in Hj; [|by cbn [unique_members forallb]; rewrite Hu].
  split_and!; [| |apply b64_no_tilde|apply has_dot_char, b64_no_dot].
  - unfold disclosure_field. rewrite b64_decode_encode by apply str_bytes_ok. cbn [lift_oid mbind res_bind]. unfold json_value. rewrite Hj.
    cbn [lift_oid mbind res_bind]. rewrite last_members_unique by (by cbn [unique_members forallb]; rewrite Hu). done.
  - apply b64_nonempty. intros Hnil. rewrite Hnil in Hj. destruct json_read_nothing as [x Hx]. congruence.
Qed.

Lemma str_split_jwt h p s :
  str_split "." ((b64_encode h +:+ "." +:+ b64_encode p) +:+ "." +:+ b64_encode s) = [b64_encode h; b64_encode p; b64_encode s].
Proof.
  rewrite append_assoc. change (("." +:+ b64_encode p) +:+ "." +:+ b64_encode s) with (String "." (b64_encode p +:+ String "." (b64_encode s))).
  assert (Hd : forall bs, has_char "." (b64_encode bs) = false) by (intros; apply has_dot_char, b64_no_dot).
  by rewrite !str_split_app, str_split_none.
Qed.

(** A well-formed compact credential is presented with exactly what is asked for. *)
Lemma presentation_Ok h payload s (l : list (string * string)) fields out :
  let jwt := (b64_encode h +:+ "." +:+ b64_encode (str_bytes payload)) +:+ "." +:+ b64_encode s in
  forall v, json_to_string v = inr payload -> unique_members v = true -> h <> [] ->
  Forall (fun x => disclosure_field x.2 = Ok x.1 /\ x.2 <> "" /\ has_char "~" x.2 = false /\ has_char "." x.2 = false /\
                   b64_encode (sha256 x.2) ∈ collect_hashes v) l -> NoDup l.*1 ->
  validate_sd_jwt_presentation_input (jwt +:+ disclosures_suffix l.*2) = Ok tt ->
  create_sd_jwt_presentation (jwt +:+ disclosures_suffix l.*2) fields = Ok out <->
  NoDup fields /\ exists ds, Forall2 (fun f d => (f, d) ∈ l) fields ds /\ out = jwt +:+ disclosures_suffix ds.
Proof.
  intros jwt v Hj Hu Hh Hl Hn Hv. unfold create_sd_jwt_presentation. rewrite Hv. cbn [mbind res_bind].
  rewrite !Forall_forall in Hl. assert (Hj64 : has_char "~" jwt = false) by (unfold jwt; by rewrite !has_char_app, !b64_no_tilde).
  assert (Hjne : jwt <> "").
  { intros Hx. apply (b64_nonempty h Hh). unfold jwt in Hx. rewrite append_assoc in Hx. by destruct (b64_encode h). }
  assert (Hsnd : forall P : string -> Prop, (forall x, x ∈ l -> P x.2) -> Forall P l.*2).
  { intros P HP. apply Forall_fmap, Forall_forall. exact HP. }
  rewrite str_split_compact; [|done|apply Hsnd; intros x Hx; by apply Hl in Hx as (_ & _ & ? & _)].
  change (jwt :: l.*2 ++ [""])%list with ((jwt :: l.*2) ++ [""])%list.
  rewrite (pop_empty_last (jwt :: l.*2)) by (constructor; [done|]; apply Hsnd; intros x Hx; by apply Hl in Hx as (_ & ? & _)).
  cbn [head ok_or mbind res_bind drop]. rewrite (str_split_jwt h (str_bytes payload) s : str_split "." jwt = _).
  change (zlen [b64_encode h; b64_encode (str_bytes payload); b64_encode s] =? 3) with true. cbn [ensure mbind res_bind]. rewrite !drop_0.
  assert (Hdots : existsb (fun t => zlen (str_split "." t) =? 3) l.*2 = false).
  { apply not_true_iff_false. intros (d & Hd%list_elem_of_In & Hthree)%existsb_exists. apply list_elem_of_fmap in Hd as (x & -> & Hx).
    apply Hl in Hx as (_ & _ & _ & Hx & _). by rewrite str_split_none in Hthree. }
  rewrite Hdots. cbn [negb ensure mbind res_bind expect lookup list_lookup].
  rewrite b64_decode_encode by apply str_bytes_ok. cbn [lift_oid mbind res_bind]. unfold json_value.
  rewrite (json_read_written _ _ Hu Hj), last_members_unique by done. cbn [lift_oid mbind res_bind].
  rewrite available_loop_all; [|apply Forall_forall; intros x Hx; apply Hl in Hx as (? & _ & _ & _ & ?); split; [done|by apply elem_of_list_to_set]|done|by apply Forall_forall].
  cbn [mbind res_bind]. rewrite map_union_empty.
  split.
  - intros Hs. res_inv. apply selected_loop_Ok in H4 as (Hnf & _ & Hf). split; [done|]. exists x. split.
    + eapply Forall2_impl; [exact Hf|]. intros f d Hd. by apply elem_of_list_to_map_2.
    + by destruct x.
  - intros (Hnf & ds & Hf & ->). rewrite (proj2 (selected_loop_Ok _ _ _ ds)); [by destruct ds|]. split_and!; [done|by apply Forall_forall|].
    eapply Forall2_impl; [exact Hf|]. intros f d Hd. by apply elem_of_list_to_map_1.
Qed.
End present.

Section issued.
Context `{Base64Url} `{JsonCodec} `{JwtLib} `{SignerLib} `{IssueClock} `{TimestampLib} `{Sha256} `{!SdJwtLib}.

Lemma ietf_payload_unique signer claims cid vct now p : ietf_payload signer claims cid vct now = Ok p ->
  unique_members (Object (cc_claims claims)) = true -> unique_members (Object p) = true.
Proof.
  unfold ietf_payload. intros Hp Hu. res_inv. apply unique_claims; [|done].
  apply unique_set_opt; [apply unique_set_opt; [done|by destruct (cc_subject_id claims); intros w [= <-]]|]. by destruct x; intros w [= <-].
Qed.

Lemma vcdm_payload_unique signer claims cid vct now p : vcdm_payload signer claims cid vct now = Ok p ->
  unique_members (Object (cc_claims claims)) = true -> unique_members (Object p) = true.
Proof.
  unfold vcdm_payload. intros Hp Hu. res_inv.
  assert (Hs : unique_members (Object (insert_claims (cc_claims claims) (set_opt "id" (VString <$> cc_subject_id claims) []))) = true).
  { apply unique_claims; [|done]. apply unique_set_opt; [done|]. by destruct (cc_subject_id claims); intros w [= <-]. }
  generalize dependent (insert_claims (cc_claims claims) (set_opt "id" (VString <$> cc_subject_id claims) [])). intros subject Hs.
  match goal with |- context [set_opt "sub" ?v ?base] => assert (Hb : unique_members (Object (set_opt "sub" v base)) = true) end.
  { apply unique_set_opt; [|by destruct (cc_subject_id claims); intros w [= <-]].
    remember (Object subject) as o. cbn [unique_members forallb snd fmap list_fmap fst]. by rewrite Hs, !unique_strings. }
  destruct x as [[t d]|]; [|done]. by repeat apply unique_insert.
Qed.

Lemma planned_unique signer claims options fresh now planned : plan_sd_jwt_preparation signer claims options fresh now = Ok planned ->
  unique_members (Object (cc_claims claims)) = true -> unique_members (pl_payload planned) = true /\ pl_options planned = options.
Proof.
  unfold plan_sd_jwt_preparation. intros Hp Hu. res_inv.
  destruct (credential_payload_format claims); res_inv; simplify_eq/=; (split; [|done]);
    [eapply ietf_payload_unique|eapply vcdm_payload_unique]; done.
Qed.

Lemma payload_of_empty planned payload ds m : sd_jwt_payload_of planned stage_empty = Ok (payload, ds) ->
  pl_payload planned = Object m -> unique_members (Object m) = true ->
  (forall c, so_confirmation (pl_options planned) = Some c -> unique_members c = true) -> ds = [] /\ unique_members payload = true.
Proof.
  unfold sd_jwt_payload_of. cbn [stage_is_empty stage_empty st_ordinals st_items length Nat.eqb andb mbind res_bind]. intros Hp Hm Hu Hc. rewrite Hm in Hp.
  by eapply (trailer_lists _ _ _ _ _ _ _ TopLevel) in Hp as (-> & Hup & _ & _).
Qed.

Lemma assembled_parts signer planned digested p : assemble_sd_jwt_preparation signer planned digested = Ok p ->
  exists payload ds header text, sd_jwt_payload_of planned digested = Ok (payload, ds) /\
    json_to_string (Object (sd_jwt_header signer (pl_options planned))) = inr header /\ json_to_string payload = inr text /\
    psd_signing_input p = b64_encode (str_bytes header) +:+ "." +:+ b64_encode (str_bytes text) /\
    psd_disclosures_suffix p = disclosures_suffix ds.
Proof.
  unfold assemble_sd_jwt_preparation. intros Hp. destruct (sd_jwt_payload_of planned digested) as [[payload ds]| |]; cbn [mbind res_bind] in Hp; [|done..].
  destruct (json_to_string (Object _)) as [e|header] eqn:Hh; [done|]. cbn [lift_oid mbind res_bind] in Hp.
  destruct (json_to_string payload) as [e|text] eqn:Hx; [done|]. cbn [lift_oid mbind res_bind] in Hp. res_inv. simplify_eq.
  by exists payload, ds, header, text.
Qed.

Lemma none_of names l name : existsb (fun n => one_of n names) l = false -> name ∈ l -> name ∉ names.
Proof.
  intros He Hl Hn. apply not_true_iff_false in He. apply He, existsb_exists. exists name. split; [by apply list_elem_of_In|by apply one_of_elem].
Qed.

Lemma markers_Ok claims confirmation u name : validate_sd_jwt_structural_markers claims confirmation = Ok u ->
  credential_payload_format claims <> W3cVcdmV2JwtVc -> name ∈ selective_disclosure_claims claims -> name ∉ SD_JWT_STRUCTURAL_MARKERS.
Proof.
  unfold validate_sd_jwt_structural_markers. intros Hv Hf Hin. rewrite bool_decide_eq_false_2 in Hv by done.
  apply ensure_Ok, negb_true_iff, orb_false_iff in Hv as [Hv _]. apply orb_false_iff in Hv as [_ Hv]. by eapply none_of.
Qed.

Lemma managed_Ok claims nbf conf u name : validate_sd_jwt_managed_claims claims nbf conf = Ok u ->
  credential_payload_format claims = IetfSdJwt -> name ∈ selective_disclosure_claims claims -> name ∉ IETF_NON_DISCLOSABLE_CLAIMS.
Proof.
  unfold validate_sd_jwt_managed_claims. intros Hv Hf Hin. apply bind_Ok in Hv as (? & _ & Hv).
  apply ensure_Ok, negb_true_iff in Hv. rewrite bool_decide_eq_true_2 in Hv by done. by eapply none_of.
Qed.

(** Selectors name no member that the preparation adds. *)
Lemma selector_allowed signer claims options fresh now planned name : plan_sd_jwt_preparation signer claims options fresh now = Ok planned ->
  name ∈ selective_disclosure_claims claims ->
  (name ∉ ["_sd"; "_sd_alg"]) /\ (pl_target planned = TopLevel -> name ∉ ["nbf"; "cnf"]).
Proof.
  unfold plan_sd_jwt_preparation. intros Hp Hin. apply bind_Ok in Hp as (u1 & Hman & Hp). apply bind_Ok in Hp as (u2 & Hmar & Hp).
  apply bind_Ok in Hp as (u3 & _ & Hp).
  assert (Hm : credential_payload_format claims <> W3cVcdmV2JwtVc -> name ∉ ["_sd"; "_sd_alg"]).
  { intros Hf. eapply markers_Ok in Hmar; [|done|done]. unfold SD_JWT_STRUCTURAL_MARKERS in Hmar. set_solver. }
  destruct (credential_payload_format claims) eqn:Hf; [| |done]; (split; [by apply Hm|]).
  - intros _. eapply managed_Ok in Hman; [|done|done]. unfold IETF_NON_DISCLOSABLE_CLAIMS in Hman. set_solver.
  - intros Htop. apply bind_Ok in Hp as ([payload target] & Hpay & Hp). apply bind_Ok in Hpay as (p & _ & Hx).
    injection Hx as <- <-. injection Hp as <-. done.
Qed.

(** What a prepared credential is made of. *)
Lemma prepared_parts signer claims options fresh now salt p planned object :
  prepare_sd_jwt_with_options_and_sources signer claims options fresh now salt = Ok p ->
  plan_sd_jwt_preparation signer claims options fresh now = Ok planned ->
  sd_jwt_disclosure_target (pl_payload planned) (pl_target planned) = Ok object ->
  unique_members (Object (cc_claims claims)) = true -> (forall c, so_confirmation options = Some c -> unique_members c = true) ->
  exists t items es header payload text,
    plan_loop object 0 (selective_disclosure_claims claims) salt 0 = (t, items) /\ encode_items items = Ok es /\
    json_to_string (Object (sd_jwt_header signer options)) = inr header /\ json_to_string payload = inr text /\
    unique_members payload = true /\
    Forall (fun d => lists_digest payload (pl_target planned) (b64_encode (sha256 d))) (ed_disclosure <$> es) /\
    Forall (hides payload (pl_target planned)) (pd_claim_name <$> items) /\
    psd_signing_input p = b64_encode (str_bytes header) +:+ "." +:+ b64_encode (str_bytes text) /\
    psd_disclosures_suffix p = disclosures_suffix (ed_disclosure <$> es).
Proof.
  intros Hp Hplan Ht Hu Hc. destruct (planned_unique _ _ _ _ _ _ Hplan Hu) as [Hup Hopt]. unfold prepare_sd_jwt_with_options_and_sources in Hp.
  rewrite Hplan in Hp. cbn [mbind res_bind] in Hp. rewrite <- Hopt in Hc.
  destruct (selective_disclosure_claims claims) as [|n names] eqn:Hn.
  - rewrite bool_decide_eq_true_2 in Hp by done. cbn [mbind res_bind] in Hp. destruct (target_object _ _ _ Ht) as [m Hm].
    apply assembled_parts in Hp as (payload & ds & header & text & Hpay & Hh & Hx & Hsi & Hsu).
    apply (payload_of_empty _ _ _ m) in Hpay as [-> Hupay]; [|done|by rewrite <- Hm|done]. rewrite Hopt in Hh.
    exists object, [], [], header, payload, text. by split_and!.
  - rewrite bool_decide_eq_false_2, Ht in Hp by done. cbn [mbind res_bind] in Hp. unfold prepare_sd_jwt_disclosures, plan_sd_jwt_disclosures in Hp.
    destruct (plan_loop object 0 (n :: names) salt 0) as [t items] eqn:Hloop. unfold encode_sd_jwt_disclosures in Hp. cbn [st_items st_ordinals] in Hp.
    destruct (encode_items items) as [es| |] eqn:He; cbn [mbind res_bind] in Hp; [|done..].
    apply assembled_parts in Hp as (payload & ds & header & text & Hpay & Hh & Hx & Hsi & Hsu). cbn [pl_options] in Hh. rewrite Hopt in Hh.
    apply (payload_of_planned planned object (n :: names) salt t items es) in Hpay as (-> & Hupay & Hlists & Hhide); try done.
    exists t, items, es, header, payload, text. split_and!; try done.
    apply Forall_forall. intros k Hk. pose proof (plan_loop_items (n :: names) object 0 salt 0 (target_unique _ _ _ Ht Hup)) as Hi. rewrite Hloop in Hi.
    destruct Hi as (_ & _ & Hf & _ & Ho). apply list_elem_of_fmap in Hk as (i & -> & Hi). rewrite Forall_forall in Hf. destruct (Hf i Hi) as [Hin _].
    destruct (selector_allowed _ _ _ _ _ _ (pd_claim_name i) Hplan) as [Hm Htop]; [by rewrite Hn|].
    apply Hhide; [|done|done]. rewrite Ho. by rewrite bool_decide_eq_true_2.
Qed.

(** The disclosure of a planned item under its name. *)
Definition discloses (items : list PlannedSdJwtDisclosure) (name disclosure : string) : Prop :=
  exists i e, i ∈ items /\ pd_claim_name i = name /\ encode_sd_jwt_disclosure i = Ok e /\ disclosure = ed_disclosure e.

Definition offered (items : list PlannedSdJwtDisclosure) (es : list EncodedSdJwtDisclosure) : list (string * string) :=
  zip (pd_claim_name <$> items) (ed_disclosure <$> es).

Lemma offered_spec items es : Forall2 (fun p e => encode_sd_jwt_disclosure p = Ok e) items es ->
  (offered items es).*1 = pd_claim_name <$> items /\ (offered items es).*2 = ed_disclosure <$> es /\
  forall name d, (name, d) ∈ offered items es <-> discloses items name d.
Proof.
  intros Hf. unfold offered, discloses. induction Hf as [|p e items es He Hf (I1 & I2 & I3)]; cbn [fmap list_fmap zip zip_with].
  - split_and!; [done..|]. intros name d. rewrite elem_of_nil. split; [done|]. by intros (i & ? & ?%elem_of_nil & _).
  - split_and!; [cbn [fst]; by rewrite I1|cbn [snd]; by rewrite I2|]. intros name d. rewrite elem_of_cons, I3. split.
    + intros [[= -> ->]|(i & x & Hi & ? & ? & ?)]; [exists p, e|exists i, x]; split_and!; try done; [by left|by right].
    + intros (i & x & [-> |Hi]%elem_of_cons & <- & Hx & ->); [left|right; by exists i, x]. rewrite He in Hx. by injection Hx as ->.
Qed.

Context `{!Base64Laws _} `{!Base64Text _} `{!Base64Tilde _} `{!JsonCodecLaws _}.

Lemma payload_segment h t : str_split "." (b64_encode h +:+ "." +:+ b64_encode t) !! 1%nat = Some (b64_encode t).
Proof.
  change (b64_encode h +:+ "." +:+ b64_encode t) with (b64_encode h +:+ String "." (b64_encode t)).
  rewrite str_split_app by (apply has_dot_char, b64_no_dot). by rewrite str_split_none by (apply has_dot_char, b64_no_dot).
Qed.

Lemma header_text signer options header : json_to_string (Object (sd_jwt_header signer options)) = inr header -> str_bytes header <> [].
Proof.
  intros Hh. apply (parse_unique_written (sd_jwt_header signer options) header ""); [|done]. unfold sd_jwt_header.
  destruct (so_x5c options); [done|]. apply unique_insert; [done|apply unique_strings].
Qed.

(** C19: A credential that was issued can be presented with exactly what is asked
    for.  Every selector that names a claim has one disclosure; the object that the
    issuer signs lists its digest and does not hold the claim; and a presentation
    of the credential succeeds exactly for distinct names that have a disclosure,
    and is the issuer's JWT with the disclosures of those names, in their order,
    and no other. *)
Theorem sd_jwt_presentation_exact signer claims options fresh now salt p signature compact cid planned object :
  prepare_sd_jwt_with_options_and_sources signer claims options fresh now salt = Ok p ->
  assemble_sd_jwt p signature = Ok (SdJwtCredential compact cid) ->
  plan_sd_jwt_preparation signer claims options fresh now = Ok planned ->
  sd_jwt_disclosure_target (pl_payload planned) (pl_target planned) = Ok object ->
  unique_members (Object (cc_claims claims)) = true -> (forall c, so_confirmation options = Some c -> unique_members c = true) ->
  validate_sd_jwt_presentation_input compact = Ok tt ->
  let items := (plan_loop object 0 (selective_disclosure_claims claims) salt 0).2 in
  (forall name, name ∈ pd_claim_name <$> items <-> name ∈ selective_disclosure_claims claims /\ is_Some (map_get name object)) /\
  (exists payload text, json_to_string payload = inr text /\ str_split "." (psd_signing_input p) !! 1%nat = Some (b64_encode (str_bytes text)) /\
     forall name, name ∈ pd_claim_name <$> items -> hides payload (pl_target planned) name /\
       exists d, discloses items name d /\ lists_digest payload (pl_target planned) (b64_encode (sha256 d))) /\
  forall fields out, create_sd_jwt_presentation compact fields = Ok out <->
    NoDup fields /\ exists ds, Forall2 (discloses items) fields ds /\
      out = (psd_signing_input p +:+ "." +:+ b64_encode signature) +:+ disclosures_suffix ds.
Proof.
  intros Hp Ha Hplan Ht Hu Hc Hv items.
  destruct (prepared_parts _ _ _ _ _ _ _ _ _ Hp Hplan Ht Hu Hc) as (t & items' & es & header & payload & text & Hloop & He & Hh & Hx & Hup & Hl & Hhide & Hsi & Hsu).
  unfold items. rewrite Hloop. cbn [snd]. clear items. rename items' into items.
  pose proof (plan_loop_items (selective_disclosure_claims claims) object 0 salt 0 (target_unique _ _ _ Ht (proj1 (planned_unique _ _ _ _ _ _ Hplan Hu)))) as Hi.
  rewrite Hloop in Hi. destruct Hi as (_ & Hnd & Hf & Hall & _). apply encode_items_Ok in He. destruct (offered_spec _ _ He) as (O1 & O2 & O3).
  rewrite Forall_forall in Hf. rewrite Forall_forall in Hl. rewrite Forall_forall in Hhide. split_and!.
  - intros name. split; [intros (i & -> & Hi)%list_elem_of_fmap; destruct (Hf i Hi) as [? ->]; eauto|]. intros [Hn [v Hv']]. by eapply Hall.
  - exists payload, text. split_and!; [done|rewrite Hsi; apply payload_segment|].
    intros name Hn. split; [by apply Hhide|]. rewrite <- O1 in Hn. apply list_elem_of_fmap in Hn as ([n d] & -> & Hnd'). cbn [fst].
    exists d. split; [by apply O3|]. apply Hl. rewrite <- O2. apply list_elem_of_fmap. by exists (n, d).
  - intros fields out. apply bind_Ok in Ha as (? & _ & [= Hcompact _]).
    assert (E : compact = ((b64_encode (str_bytes header) +:+ "." +:+ b64_encode (str_bytes text)) +:+ "." +:+ b64_encode signature)
                  +:+ disclosures_suffix (offered items es).*2) by (rewrite <- Hcompact, Hsi, Hsu, O2; by rewrite !append_assoc).
    rewrite E in Hv |- *. rewrite Hsi.
    rewrite (presentation_Ok _ _ _ _ _ _ payload Hx Hup (header_text _ _ _ Hh)); [| |by rewrite O1|done].
    + apply and_iff_compat_l. split; intros (ds & Hds & ->); exists ds; (split; [eapply Forall2_impl; [exact Hds|]|done]); intros; by apply O3.
    + apply Forall_forall. intros [n d] Hin. apply O3 in Hin as (i & e & Hi & <- & Hei & ->). cbn [fst snd].
      destruct (Hf i Hi) as [_ Hval]. pose proof (target_unique _ _ _ Ht (proj1 (planned_unique _ _ _ _ _ _ Hplan Hu))) as Huo.
      apply unique_object in Huo as [_ Huo]. apply map_get_elem, Huo in Hval. destruct (encoded_disclosure i e Hei Hval) as (? & ? & ? & ?).
      split_and!; try done. apply (lists_digest_collected _ (pl_target planned)), Hl. rewrite <- O2. apply list_elem_of_fmap.
      exists (pd_claim_name i, ed_disclosure e). split; [done|]. apply O3. by exists i, e.
Qed.
End issued.

(** ** The SD-JWT format of signing batches *)

Section batch.
Context `{Base64Url} `{JsonCodec} `{JwtLib} `{SignerLib} `{IssueClock} `{TimestampLib} `{Sha256} (mdoc : OtherFormats).

(** The formats of a batch: SD-JWT as above, with the salts drawn beside each
    random identifier, and an mdoc encoder. *)
Definition batch_formats (salts : string -> nat -> bytes) (holder_value : JwkParams -> string + Value) : OtherFormats := {|
  SigningBatch.PreparedSdJwt := PreparedSdJwt;
  SigningBatch.PreparedMdoc := @SigningBatch.PreparedMdoc mdoc;
  SigningBatch.prepare_sd_jwt := fun signer claims holder now fresh =>
    prepare_sd_jwt_with_holder_public_jwk signer claims (mkHolderJwk holder (holder_value holder)) fresh now (salts fresh);
  SigningBatch.prepare_mdoc := @SigningBatch.prepare_mdoc mdoc;
  SigningBatch.sd_jwt_payload := fun p => str_bytes (psd_signing_input p);
  SigningBatch.mdoc_payload := @SigningBatch.mdoc_payload mdoc;
  SigningBatch.assemble_sd_jwt := assemble_sd_jwt;
  SigningBatch.assemble_mdoc := @SigningBatch.assemble_mdoc mdoc;
|}.

(** The bytes that a batch hands to the signer are those whose signature the
    assembly verifies, and the credential carries that signature. *)
Lemma batch_sd_jwt_signed salts holder_value p signature c :
  @SigningBatch.assemble_sd_jwt (batch_formats salts holder_value) p signature = Ok c ->
  verify_remote_signature (psd_algorithm p) (psd_issuer_public_jwk p) (@SigningBatch.sd_jwt_payload (batch_formats salts holder_value) p) signature = Ok tt /\
  c = SdJwtCredential (psd_signing_input p +:+ "." +:+ b64_encode signature +:+ psd_disclosures_suffix p) (psd_credential_id p).
Proof. intros Ha. apply bind_Ok in Ha as ([] & Hv & [= <-]). done. Qed.
End batch.

(** ** Key binding *)

Fixpoint repeat_char (c : ascii) (n : nat) : string := match n with O => EmptyString | S n => String c (repeat_char c n) end.

Lemma str_split_nonempty c s : str_split c s <> [].
Proof. destruct s as [|a s]; [done|]. cbn [str_split]. destruct (Ascii.eqb a c); [done|]. by destruct (str_split c s). Qed.

Lemma str_split_append c s t : str_split c (s +:+ String c t) = (str_split c s ++ str_split c t)%list.
Proof.
  induction s as [|a s IH]; [change ("" +:+ String c t) with (String c t); cbn [str_split]; by rewrite Ascii.eqb_refl|].
  change (String a s +:+ String c t) with (String a (s +:+ String c t)). cbn [str_split]. destruct (Ascii.eqb a c); [by rewrite IH|].
  rewrite IH. pose proof (str_split_nonempty c s). by destruct (str_split c s).
Qed.

Lemma str_split_join c s : join_sep (String c "") (str_split c s) = s.
Proof.
  induction s as [|a s IH]; [done|]. cbn [str_split]. pose proof (str_split_nonempty c s) as Hn. destruct (Ascii.eqb_spec a c) as [-> |Ha].
  - destruct (str_split c s) as [|p ps]; [done|].
    change (join_sep (String c "") ("" :: p :: ps)) with (String c (join_sep (String c "") (p :: ps))). by rewrite IH.
  - destruct (str_split c s) as [|p ps]; [done|]. destruct ps as [|q qs].
    + cbn [join_sep] in *. by rewrite IH.
    + change (join_sep (String c "") (String a p :: q :: qs)) with (String a (p +:+ String c "" +:+ join_sep (String c "") (q :: qs))).
      f_equal. exact IH.
Qed.

Lemma str_split_chars c s : Forall (fun p => has_char c p = false) (str_split c s).
Proof.
  induction s as [|a s IH]; [by repeat constructor|]. cbn [str_split]. destruct (Ascii.eqb a c) eqn:Ha; [by constructor|].
  destruct IH as [|p ps Hp IH]; constructor; try done; rewrite has_char_cons, Ascii.eqb_sym, Ha; done.
Qed.

Lemma join_app c l k : l <> [] -> k <> [] -> join_sep c (l ++ k)%list = join_sep c l +:+ c +:+ join_sep c k.
Proof.
  intros Hl Hk. induction l as [|a l IH]; [done|]. destruct l as [|b l].
  - cbn [app]. by destruct k.
  - change (join_sep c ((a :: b :: l) ++ k)%list) with (a +:+ c +:+ join_sep c ((b :: l) ++ k)%list).
    change (join_sep c (a :: b :: l)) with (a +:+ c +:+ join_sep c (b :: l)). rewrite IH by done. by rewrite !append_assoc.
Qed.

Lemma join_split_segments c l : l <> [] -> Forall (fun p => has_char c p = false) l -> str_split c (join_sep (String c "") l) = l.
Proof.
  intros Hl Hf. induction Hf as [|a l Ha Hf IH]; [done|]. destruct l as [|b l]; [by apply str_split_none|].
  change (join_sep (String c "") (a :: b :: l)) with (a +:+ String c (join_sep (String c "") (b :: l))). rewrite str_split_app by done. by rewrite IH.
Qed.

Lemma pop_empty_split l : exists n, l = (pop_empty l ++ replicate n "")%list /\ forall x, last (pop_empty l) = Some x -> x <> "".
Proof.
  induction l as [|a l (n & Hl & Hx)]; [by exists O|]. unfold pop_empty in *. cbn [foldr]. fold (pop_empty l) in *.
  destruct (pop_empty l) as [|b m] eqn:Hp.
  - destruct (String.eqb_spec a "") as [-> |Ha].
    + exists (S n). split; [by rewrite Hl at 1|done].
    + exists n. split; [by rewrite Hl at 1|]. by intros x [= <-].
  - exists n. split; [by rewrite Hl at 1|]. intros x Hlast. apply Hx. rewrite last_cons in Hlast. destruct (last (b :: m)) eqn:E; [done|by apply last_None in E].
Qed.

Lemma pop_empty_padded l k n : k <> "" -> pop_empty (l ++ k :: replicate n "")%list = (l ++ [k])%list.
Proof.
  intros Hk. unfold pop_empty. rewrite foldr_app. cbn [foldr].
  assert (Hr : foldr (fun s acc => match acc with [] => if String.eqb s "" then [] else [s] | _ => s :: acc end) [] (replicate n "") = []).
  { induction n as [|n IH]; [done|]. cbn [replicate foldr]. by rewrite IH. }
  rewrite Hr, (proj2 (String.eqb_neq _ _) Hk). induction l as [|a l IH]; [done|]. cbn [foldr app]. rewrite IH. by destruct l.
Qed.

Lemma append_nil s : s +:+ "" = s.
Proof. induction s as [|a s IH]; [done|]. change (String a (s +:+ "") = String a s). by rewrite IH. Qed.

(** A compact form with a last segment: what precedes it, and closing tildes. *)
Lemma compact_last compact parts kb : parts <> [] -> pop_empty (str_split "~" compact) = (parts ++ [kb])%list <->
  exists b n, compact = b +:+ "~" +:+ kb +:+ repeat_char "~" n /\ str_split "~" b = parts /\ kb <> "" /\ has_char "~" kb = false.
Proof.
  intros Hparts. split.
  - intros Hp. destruct (pop_empty_split (str_split "~" compact)) as (n & Hs & Hx). rewrite Hp in Hs, Hx.
    pose proof (str_split_chars "~" compact) as Hc. rewrite Hs in Hc. apply Forall_app in Hc as [Hc _]. apply Forall_app in Hc as [Hc Hk].
    apply Forall_cons in Hk as [Hk _]. exists (join_sep "~" parts), n. split_and!; [|by apply join_split_segments|apply Hx; by rewrite last_snoc|done].
    rewrite <- (str_split_join "~" compact), Hs, <- app_assoc, join_app by done. do 2 f_equal. cbn [app]. clear. revert kb.
    induction n as [|n IH]; intros kb; cbn [replicate repeat_char]; [cbn [join_sep]; by rewrite append_nil|].
    change (join_sep "~" (kb :: "" :: replicate n "")) with (kb +:+ String "~" (join_sep "~" ("" :: replicate n ""))). by rewrite IH.
  - intros (b & n & -> & <- & Hk & Hc). change ("~" +:+ kb +:+ repeat_char "~" n) with (String "~" (kb +:+ repeat_char "~" n)).
    rewrite str_split_append. assert (Ht : str_split "~" (kb +:+ repeat_char "~" n) = (kb :: replicate n "")%list).
    { destruct n as [|n]; cbn [repeat_char]; [rewrite append_nil; by apply str_split_none|]. rewrite str_split_app by done. f_equal.
      cbn [replicate]. induction n as [|n IH]; [done|]. cbn [repeat_char replicate str_split]. by rewrite Ascii.eqb_refl, IH. }
    rewrite Ht. by apply pop_empty_padded.
Qed.

Lemma as_str_Some o s : o ≫= as_str = Some s <-> o = Some (VString s).
Proof. destruct o as [[]|]; cbn; naive_solver. Qed.

Lemma iat_fresh now iat : key_binding_iat_is_fresh now iat = true <-> Z.abs (now - iat) <= 300.
Proof.
  unfold key_binding_iat_is_fresh, i64_checked_add. destruct ((- 2 ^ 63 <=? now + - iat) && (now + - iat <? 2 ^ 63)) eqn:Hr.
  - destruct (Z.eqb_spec (now + - iat) (- 2 ^ 63)) as [He|]; [|rewrite Z.leb_le; by replace (now + - iat) with (now - iat) by lia].
    split; [done|]. intros Ha. replace (now - iat) with (now + - iat) in Ha by lia. rewrite He in Ha. done.
  - split; [done|]. intros Ha. apply andb_false_iff in Hr. lia.
Qed.

Section binding.
Context `{Base64Url} `{JsonCodec} `{JwtLib} `{!SdJwtLib} `{Sha256}.

(** The key that the issuer's JWT confirms: a public asymmetric JWK under [cnf]. *)
Definition confirms (issuer_jwt : string) (key : JwtKey) : Prop := exists segment bs payload cnf jwk,
  str_split "." issuer_jwt !! 1%nat = Some segment /\ b64_decode segment = inr bs /\ json_read bs = inr payload /\ unique_members payload = true /\
  member "cnf" payload = Some (Object cnf) /\ map_get "jwk" cnf = Some (Object jwk) /\
  map_get "kty" jwk <> Some (VString "oct") /\ Forall (fun m => map_get m jwk = None) PRIVATE_JWK_MEMBERS /\ jwk_from_value (Object jwk) = inr key.

(** What the claims of a key-binding JWT must say. *)
Definition binds (claims : Value) (bound : string) (aud nonce : option string) (now : Z) : Prop :=
  member "sd_hash" claims = Some (VString (b64_encode (sha256 bound))) /\
  (forall e, aud = Some e -> member "aud" claims = Some (VString e) \/ exists l, member "aud" claims = Some (Array l) /\ VString e ∈ l) /\
  (forall e, nonce = Some e -> member "nonce" claims = Some (VString e)) /\
  exists n iat, member "iat" claims = Some (Number n) /\ number_as_i64 n = Some iat /\ Z.abs (timestamp now - iat) <= 300.

Lemma audience_Ok claims e : audience_matches claims e = true <->
  member "aud" claims = Some (VString e) \/ exists l, member "aud" claims = Some (Array l) /\ VString e ∈ l.
Proof.
  unfold audience_matches. destruct (member "aud" claims) as [[| | |s|l|]|]; try naive_solver.
  - rewrite String.eqb_eq. naive_solver.
  - rewrite existsb_exists. setoid_rewrite bool_decide_eq_true. split.
    + intros (v & Hv%list_elem_of_In & Hs). right. exists l. split; [done|]. destruct v; by simplify_eq/=.
    + intros [?|(k & [= <-] & Hk)]; [done|]. exists (VString e). split; [by apply list_elem_of_In|done].
Qed.

Lemma check_binding_Ok claims bound aud nonce now : check_binding_claims claims bound aud nonce now = Ok tt <-> binds claims bound aud nonce now.
Proof.
  unfold check_binding_claims, binds. split.
  - intros Hc. res_inv. breflect. split_and!.
    + by apply as_str_Some.
    + intros e ->. res_inv. by apply audience_Ok.
    + intros e ->. res_inv. breflect. by apply as_str_Some.
    + match goal with Hx : (v ← member "iat" claims; _) = Some _ |- _ => destruct (member "iat" claims) as [[]|]; try done; cbn in Hx end.
      eexists _, _. split_and!; [done|done|]. by apply iat_fresh.
  - intros (Hh & Ha & Hn & n & iat & Hi & Hint & Hf). rewrite bool_decide_eq_true_2 by (by apply as_str_Some). cbn [ensure mbind res_bind].
    assert (E1 : match aud with Some e => ensure (audience_matches claims e) (SdJwtError "Key Binding JWT audience does not match the verifier")
                 | None => Ok tt end = Ok tt).
    { destruct aud as [e|]; [|done]. by rewrite (proj2 (audience_Ok claims e) (Ha e eq_refl)). }
    rewrite E1. cbn [mbind res_bind].
    assert (E2 : match nonce with Some e => ensure (bool_decide (member "nonce" claims ≫= as_str = Some e))
                   (SdJwtError "Key Binding JWT nonce does not match the request") | None => Ok tt end = Ok tt).
    { destruct nonce as [e|]; [|done]. by rewrite bool_decide_eq_true_2 by (by apply as_str_Some, Hn). }
    rewrite E2, Hi. cbn [mbind res_bind option_bind]. rewrite Hint. cbn [ok_or mbind res_bind]. by rewrite (proj2 (iat_fresh _ _) Hf).
Qed.

Lemma parse_unique_Ok bs field v : parse_unique_object bs field = Ok v <->
  json_read bs = inr v /\ unique_members v = true /\ is_Some (as_object v).
Proof.
  unfold parse_unique_object. destruct (json_read bs) as [e|w]; cbn [lift_oid mbind res_bind]; [naive_solver|].
  destruct (unique_members w) eqn:Hu; cbn [ensure mbind res_bind]; [|split; [done|intros ([= ->] & ? & _); congruence]].
  case_bool_decide as Ho; cbn [ensure mbind res_bind]; naive_solver.
Qed.

(** A confirmation with a key: it is a public asymmetric JWK. *)
Lemma confirmation_Ok cnf jwk : map_get "jwk" cnf = Some jwk -> validate_sd_jwt_confirmation (Some (Object cnf)) = Ok tt <->
  exists members, jwk = Object members /\ map_get "kty" members <> Some (VString "oct") /\ Forall (fun m => map_get m members = None) PRIVATE_JWK_MEMBERS.
Proof.
  intros Hj. unfold validate_sd_jwt_confirmation. cbn [as_object ok_or mbind res_bind]. rewrite Hj.
  destruct jwk as [| | | | |members]; cbn [as_object ok_or mbind res_bind]; try naive_solver.
  rewrite ensure_Ok, negb_true_iff, orb_false_iff, bool_decide_eq_false, as_str_Some.
  assert (He : existsb (fun m => contains_key m members) PRIVATE_JWK_MEMBERS = false <-> Forall (fun m => map_get m members = None) PRIVATE_JWK_MEMBERS).
  { rewrite <- not_true_iff_false, existsb_exists, Forall_forall. unfold contains_key. setoid_rewrite bool_decide_eq_true.
    setoid_rewrite eq_None_not_Some. setoid_rewrite <- list_elem_of_In. clear. naive_solver. }
  rewrite He. naive_solver.
Qed.

Lemma confirmed_key_Ok issuer_jwt key : confirmed_key issuer_jwt = Ok key <-> confirms issuer_jwt key.
Proof.
  unfold confirmed_key, confirms. split.
  - intros Hc. apply bind_Ok in Hc as (segment & Hs%ok_or_Ok & Hc). destruct (b64_decode segment) as [e|bs] eqn:Hb; [done|]. cbn [lift_oid mbind res_bind] in Hc.
    apply bind_Ok in Hc as (payload & Hp%map_err_Ok & Hc). apply parse_unique_Ok in Hp as (Hr & Hu & _).
    apply bind_Ok in Hc as ([] & Hv & Hc). apply bind_Ok in Hc as (jwk & Hj%ok_or_Ok & Hc).
    destruct (member "cnf" payload) as [cnf|] eqn:Hcnf; [|done]. cbn [mbind option_bind] in Hj. unfold member in Hj.
    destruct cnf as [| | | | |cnf]; try done. cbn [as_object mbind option_bind] in Hj.
    destruct (proj1 (confirmation_Ok cnf jwk Hj) Hv) as (members & Hm & Hk & Hpriv). subst jwk. destruct (jwk_from_value (Object members)) as [e|k] eqn:Hkey; [done|].
    injection Hc as <-. exists segment, bs, payload, cnf, members. by split_and!.
  - intros (segment & bs & payload & cnf & jwk & Hs & Hb & Hr & Hu & Hcnf & Hj & Hk & Hpriv & Hkey). rewrite Hs. cbn [ok_or mbind res_bind].
    rewrite Hb. cbn [lift_oid mbind res_bind]. assert (Ho : is_Some (as_object payload)) by (destruct payload; try done; eauto).
    rewrite (proj2 (parse_unique_Ok bs "issuer JWT payload" payload) (conj Hr (conj Hu Ho))). cbn [map_err mbind res_bind]. rewrite Hcnf.
    rewrite (proj2 (confirmation_Ok cnf (Object jwk) Hj)) by (by exists jwk). cbn [mbind res_bind option_bind].
    unfold member. cbn [as_object mbind option_bind]. rewrite Hj. cbn [ok_or mbind res_bind]. by rewrite Hkey.
Qed.

(** The segments of a presentation with a key-binding JWT. *)
Definition key_bound (compact : string) (aud nonce : option string) (now : Z) : Prop := exists b kb n issuer holder alg key claims,
  compact = b +:+ "~" +:+ kb +:+ repeat_char "~" n /\ has_char "~" kb = false /\ zlen (str_split "." kb) = 3 /\
  head (str_split "~" b) = Some issuer /\ confirms issuer holder /\ header_algorithm kb = inr alg /\ decoding_key holder = inr key /\
  decode_claims kb key alg = inr claims /\ binds claims (b +:+ "~") aud nonce now.

Lemma key_binding_Ok compact aud nonce now : validate_key_binding_jwt compact aud nonce now = Ok tt <-> key_bound compact aud nonce now.
Proof.
  unfold validate_key_binding_jwt, key_bound. split.
  - intros Hv. apply bind_Ok in Hv as (? & Hlen%ensure_Ok & Hv). apply bind_Ok in Hv as (kb & Hl%expect_Ok & Hv).
    apply bind_Ok in Hv as (? & Hthree%ensure_Ok & Hv). apply bind_Ok in Hv as (issuer & Hi%ok_or_Ok & Hv).
    apply bind_Ok in Hv as (holder & Hc%confirmed_key_Ok & Hv). destruct (header_algorithm kb) as [e|alg] eqn:Halg; [done|]. cbn [lift_oid mbind res_bind] in Hv.
    destruct (decoding_key holder) as [e|key] eqn:Hkey; [done|]. cbn [lift_oid mbind res_bind] in Hv.
    destruct (decode_claims kb key alg) as [e|claims] eqn:Hcl; [done|]. cbn [lift_oid mbind res_bind] in Hv. apply check_binding_Ok in Hv.
    apply last_Some in Hl as [parts Hp]. rewrite Hp in Hlen, Hi, Hv. rewrite length_app in Hi, Hv. cbn [length] in Hi, Hv. replace (length parts + 1 - 1)%nat with (length parts) in Hi, Hv by lia.
    rewrite take_app_length in Hi, Hv. assert (Hne : parts <> []) by (by intros ->).
    apply (compact_last _ _ _ Hne) in Hp as (b & n & -> & <- & _ & Htilde). rewrite str_split_join in Hv.
    exists b, kb, n, issuer, holder, alg, key, claims. split_and!; try done. by apply Z.eqb_eq.
  - intros (b & kb & n & issuer & holder & alg & key & claims & -> & Htilde & Hthree & Hi & Hc & Halg & Hkey & Hcl & Hb).
    assert (Hkb : kb <> "") by (by intros ->).
    assert (Hp : pop_empty (str_split "~" (b +:+ "~" +:+ kb +:+ repeat_char "~" n)) = (str_split "~" b ++ [kb])%list).
    { apply compact_last; [apply str_split_nonempty|]. by exists b, n. }
    rewrite Hp. pose proof (str_split_nonempty "~" b) as Hne.
    assert (Hlen : negb (zlen (str_split "~" b ++ [kb]) <? 2) = true).
    { apply negb_true_iff, Z.ltb_ge. unfold zlen. rewrite length_app. cbn. destruct (str_split "~" b); [done|]. cbn. lia. }
    rewrite Hlen. cbn [ensure mbind res_bind]. rewrite last_snoc. cbn [expect mbind res_bind]. rewrite length_app. cbn [length].
    replace (length (str_split "~" b) + 1 - 1)%nat with (length (str_split "~" b)) by lia. rewrite take_app_length.
    rewrite Hthree. change (3 =? 3) with true. cbn [ensure mbind res_bind].
    rewrite Hi. cbn [ok_or mbind res_bind]. rewrite (proj2 (confirmed_key_Ok issuer holder) Hc). cbn [mbind res_bind]. rewrite Halg.
    cbn [lift_oid mbind res_bind]. rewrite Hkey. cbn [lift_oid mbind res_bind]. rewrite Hcl. cbn [lift_oid mbind res_bind].
    rewrite str_split_join. by apply check_binding_Ok.
Qed.

Lemma lift_oid_no_panic {A} (f : string -> Oid4vciError) (r : string + A) : no_panic (lift_oid f r).
Proof. by destruct r. Qed.

Lemma confirmation_no_panic c : no_panic (validate_sd_jwt_confirmation c).
Proof. unfold validate_sd_jwt_confirmation. repeat case_match; solve_no_panic. Qed.

Lemma confirmed_key_no_panic jwt : no_panic (confirmed_key jwt).
Proof.
  unfold confirmed_key, parse_unique_object.
  repeat first [apply bind_no_panic; [|intros ? ?]|apply lift_oid_no_panic|apply map_err_no_panic|apply confirmation_no_panic|solve [solve_no_panic]].
Qed.

Lemma key_binding_no_panic compact aud nonce now : no_panic (validate_key_binding_jwt compact aud nonce now).
Proof.
  unfold validate_key_binding_jwt. apply bind_no_panic; [solve_no_panic|]. intros ? Hlen%ensure_Ok.
  apply bind_no_panic; [|intros kb _].
  { destruct (last (pop_empty (str_split "~" compact))) eqn:Hl; [done|]. apply last_None in Hl. by rewrite Hl in Hlen. }
  unfold check_binding_claims.
  repeat first [apply confirmed_key_no_panic|apply bind_no_panic; [|intros ? ?]|apply lift_oid_no_panic|solve [solve_no_panic]|case_match].
Qed.

(** C20: Verifying a presentation never panics, and returns the claims of the SD-JWT
    library exactly when the issuer's key is usable, the library accepts the
    credential and, whenever an audience or a nonce is expected (either is
    enough, although the comment on the function asks for both), the presentation
    ends in a key-binding JWT: signed with the public key that the issuer's JWT
    confirms, with the digest of everything before it, the expected audience and
    nonce, and an issue time within five minutes. *)
Theorem sd_jwt_verification_exact compact issuer_jwk aud nonce now :
  no_panic (verify_sd_jwt compact issuer_jwk aud nonce now) /\
  forall claims, verify_sd_jwt compact issuer_jwk aud nonce now = Ok claims <->
    exists jwk key, jwk_from_text issuer_jwk = inr jwk /\ decoding_key jwk = inr key /\
      sd_jwt_verifier compact key aud nonce = inr claims /\ (is_Some aud \/ is_Some nonce -> key_bound compact aud nonce now).
Proof.
  assert (Hkb : forall r, (if bool_decide (is_Some aud) || bool_decide (is_Some nonce) then validate_key_binding_jwt compact aud nonce now else Ok tt) = Ok r <->
            (is_Some aud \/ is_Some nonce -> key_bound compact aud nonce now)).
  { intros []. do 2 case_bool_decide; cbn [orb]; rewrite ?key_binding_Ok; naive_solver. }
  unfold verify_sd_jwt. split.
  - do 3 (apply bind_no_panic; [apply lift_oid_no_panic|intros ? _]). apply bind_no_panic; [|done].
    destruct (_ || _); [apply key_binding_no_panic|done].
  - intros claims. destruct (jwk_from_text issuer_jwk) as [e|jwk]; cbn [lift_oid mbind res_bind]; [split; [done|by intros (? & ? & [=] & _)]|].
    destruct (decoding_key jwk) as [e|key] eqn:Hk; cbn [lift_oid mbind res_bind]; [split; [done|intros (? & ? & [= <-] & Hx & _); congruence]|].
    destruct (sd_jwt_verifier compact key aud nonce) as [e|v] eqn:Hv; cbn [lift_oid mbind res_bind];
      [split; [done|intros (? & ? & [= <-] & Hx & Hy & _); congruence]|]. rewrite bind_Ok. split.
    + intros (u & Hu & [= <-]). exists jwk, key. split_and!; try done. exact (proj1 (Hkb u) Hu).
    + intros (jwk' & key' & [= <-] & Hk' & Hv' & Hb). rewrite Hk in Hk'. injection Hk' as <-. rewrite Hv in Hv'. injection Hv' as <-.
      exists tt. split; [exact (proj2 (Hkb tt) Hb)|done].
Qed.
End binding.

(** ** A concrete credential *)

Lemma b64_char_tilde_table : forallb (fun n => negb (Ascii.eqb "~" (b64_char (Z.of_nat n)))) (seq 0 64) = true.
Proof. vm_compute. reflexivity. Qed.

Lemma b64_char_no_tilde n : Ascii.eqb "~" (b64_char n) = false.
Proof.
  pose proof b64_char_tilde_table as Ht. rewrite forallb_forall in Ht. unfold b64_char.
  destruct (decide (Z.to_nat n < 64)%nat) as [Hlt|Hge].
  - specialize (Ht (Z.to_nat n)). unfold b64_char in Ht. rewrite Nat2Z.id in Ht. apply negb_true_iff, Ht, in_seq. lia.
  - rewrite nth_overflow; [done|]. cbn. lia.
Qed.

#[local] Instance base64url_tilde : Base64Tilde base64url.
Proof.
  intros bs. cbn [b64_encode base64url].
  induction bs as [|a|a b|a b c rest IH] using triples_ind; cbn [b64_chars String.string_of_list_ascii];
    rewrite ?has_char_cons, ?b64_char_no_tilde; [done..|]. by rewrite IH.
Qed.
#[local] Existing Instance base64url_text.
#[local] Existing Instance Value_eq_dec.

Module ToySdJwt.
#[local] Existing Instance ToyBadge.toy_jwt.
#[local] Existing Instance ToyBadge.toy_signer_lib.
#[local] Existing Instance ToyBadge.toy_clock.
#[local] Instance toy_timestamp : TimestampLib := fun t => Some (t * 1000000000).
#[local] Instance toy_sha256 : Sha256 := fun _ => [1; 2; 3].
#[local] Instance toy_sd_jwt : SdJwtLib := {|
  MAX_SD_JWT_INPUT_BYTES := 1000; MAX_SD_JWT_DISCLOSURES := 4; MAX_SD_JWT_DISCLOSURE_BYTES := 100;
  sd_jwt_verifier _ _ _ _ := inl "unused"; jwk_from_text _ := inr tt; decode_claims _ _ _ := inl "unused"; number_as_i64 _ := None |}.

Definition toy_claims : CredentialClaims :=
  mkClaims None "Person" [("name", VString "Ann"); ("age", Number "30")] None ["name"; "mail"] None None [] IetfSdJwt [] [].
Definition toy_salt (n : nat) : bytes := [Z.of_nat n].

(** A codec that writes the three values of one credential. *)
Definition toy_header : Value := Object (sd_jwt_header ToyBadge.toy_metadata sd_options_default).
Definition toy_payload : Value :=
  Object [("iss", VString "issuer"); ("iat", Number "0"); ("jti", VString "urn:uuid:1"); ("vct", VString "Person"); ("age", Number "30");
          ("_sd", Array [VString "AQID"]); ("_sd_alg", VString "sha-256")].
Definition toy_disclosure : Value := Array [VString "AA"; VString "name"; VString "Ann"].
#[local] Instance toy_codec : JsonCodec := {
  json_read bs := if bool_decide (bs = [75]) then inr (Object [("kty", VString "EC"); ("kid", VString "issuer#1")])
                  else if bool_decide (bs = [72]) then inr toy_header else if bool_decide (bs = [80]) then inr toy_payload
                  else if bool_decide (bs = [68]) then inr toy_disclosure else inl "text";
  json_to_string v := if bool_decide (v = toy_header) then inr "H" else if bool_decide (v = toy_payload) then inr "P"
                      else if bool_decide (v = toy_disclosure) then inr "D" else inl "text";
}.
#[local] Instance toy_codec_laws : JsonCodecLaws toy_codec.
Proof.
  split.
  - intros v s _. cbn [json_to_string json_read toy_codec].
    case_bool_decide as Hh; [|case_bool_decide as Hp; [|case_bool_decide as Hd]]; intros [= <-]; subst v;
      by rewrite ?bool_decide_true, ?bool_decide_false by (try done; by vm_compute).
  - by exists "text".
Qed.

Definition toy_prepared : PreparedSdJwt := mkPreparedSdJwt "SA.UA" "~RA~" "urn:uuid:1" ES256 "K".
Definition toy_jwt_text : string := "SA.UA." +:+ b64_encode ToyBadge.toy_signature.

Lemma sd_jwt_presentation_exact_witness :
  create_sd_jwt_presentation (toy_jwt_text +:+ "~RA~") ["name"] = Ok (toy_jwt_text +:+ "~RA~") /\
  is_Ok (create_sd_jwt_presentation (toy_jwt_text +:+ "~RA~") ["mail"]) = false.
Proof.
  split; [|vm_compute; reflexivity].
  eapply (sd_jwt_presentation_exact ToyBadge.toy_metadata toy_claims sd_options_default "1" 0 toy_salt toy_prepared ToyBadge.toy_signature
            (toy_jwt_text +:+ "~RA~") "urn:uuid:1"); try (vm_compute; reflexivity); [done|].
  split; [apply NoDup_singleton|]. exists ["RA"]. split; [|vm_compute; reflexivity].
  constructor; [|constructor]. eexists _, _. split; [left|]. split; [reflexivity|]. split; vm_compute; reflexivity.
Defined.
End ToySdJwt.
